(* ===== verification/_CoqProject ===== *)
-Q . S2P
Prelude.v
StoreTypes.v
IdPool.v
IdPoolSpec.v
RecordAllocator.v
RecordStore.v
StoreTable.v
StoreInv.v
StoreSteps.v
StoreRestart.v
StoreSpec.v
RegionNodes.v
StoreTheorems.v
MsgPacker.v
MsgCodec.v
MsgBase.v
MsgRequests.v
MsgResponses.v
MsgFactory.v
MsgTheorems.v
StoreInterface.v
Daemon.v
ShmManager.v
ShmHandlers.v
DaemonSim.v
ShmCoherence.v
ShmRecovery.v
ShmResults.v
ShmTheorems.v
LeaseEngine.v
LeaseManager.v
LeaseHandlers.v
Monitor.v
LeaseInv.v
DaemonKeeps.v
LeaseRecovery.v
LeaseResults.v
MonitorResults.v
LeaseTheorems.v
NodeAddress.v
Election.v
ElectionNet.v
ElectionInv.v
ElectionResults.v
ElectionTheorems.v
Locks.v
LockService.v
LockEvents.v
LockInv.v
LockOps.v
LockLifecycle.v
LockTheorems.v
LockRecovery.v
RegionTypes.v
UbseLibrary.v
Topology.v
RegionService.v
ShmCreation.v
RegionMatch.v
RegionInv.v
TopologyResults.v
RegionTheorems.v
ServiceTheorems.v
Configuration.v
ConfigurationTheorems.v
DaemonProcess.v
DaemonTheorems.v
Client.v
ClientTables.v
ClientIpc.v
ClientShm.v
ClientLease.v
ClientApi.v
ClientWp.v
ClientThreads.v
ClientShmInv.v
ClientShmMap.v
ClientShmOwn.v
ClientTheorems.v
ClientShmTheorems.v
