(* ===== verification/Prelude.v ===== *)
(** * UBS Memory: a verification development

    UBS Memory lends memory of one host to processes of another and shares named
    memory between hosts. A daemon on every host serves local applications over
    IPC and its peers over RPC. It keeps every grant it made in a shared memory
    file, so that a restarted daemon finds the leases, imports and references it
    left. The parts below carry the logic modelled here.

    ** 1. The record store ([src/src/store])

    [RecordStore] holds four arrays of fixed-size records in a mapped file
    (regions, memory leases, imported shared memory, references of processes to
    imports), a pool of lines for the variable-length memory-id lists of leases
    and imports, a sequence number and the array of suspended clients. Beside
    the file it keeps maps from names to records and two indexes of references
    (by import and by process).

    - [StoreTypes]: the structs of [record_store_def.h] and
      [ubs_common_types.h], their sizes and the capacities. The capacities are a
      class [Geometry], so the theorems hold for every choice of them;
      [source_geometry] is the choice of the header.
    - [IdPool], Module [RecordIdPoolAllocator]:
      [record_id_pool_allocator.cpp]. The pool is a list of lines of 64-bit
      words; word 0 of a line packs the flags and the link of [union IdHead].
    - [IdPoolSpec]: the pool as a finite map from a head line to its chain and
      ids; refinement of every operation.
    - [RecordAllocator], Module [BaseRecordAllocator]: [base_record_allocator.h],
      with the invariant that idle and live slots partition the array.
    - [RecordStore], Module [RecordStore]: every operation of
      [record_store.cpp], [Initialize], [Restore] and [Destroy] included. A
      record pointer is the index of its slot. State is passed explicitly; a
      return code is an element of [Z].
    - [StoreTable], [StoreInv]: the invariant of a table of records
      and its cache, of the two reference indexes, and of the whole store.
    - [StoreSteps]: for each operation, when exactly it succeeds, what
      it does to the views of the store, and that it keeps the invariant.
    - [StoreRestart]: [Initialize] on the file an earlier process left, and the
      listings of references. [RegionNodes]: the listing of regions.
    - [StoreSpec]: the abstract store (maps of regions, leases, imports and
      reference counts, free pool lines, sequence number, suspended
      processes), its operations, and the simulation by the concrete store.
    - [StoreTheorems]: the store's properties, over arbitrary sequences of
      operations and restarts.

    ** 2. The message layer ([src/src/mxm_message])

    Requests and responses are structs with a [Serialize] and a [Deserialize]
    each; a factory creates the right struct for an operation code.

    - [MsgPacker]: [mxm_msg_packer.h] byte by byte, for little-endian LP64
      machines; an overload pair is a [Codec], the stream is a list of bytes.
    - [MsgCodec]: the laws of a codec ([Lawful]): what was written is read back,
      a proper prefix is refused, an unpacker that failed stays failed.
    - [MsgBase], [MsgRequests], [MsgResponses]: [mxm_msg_base.h] and the structs
      of [mxm_msg.h], each with its instance of the laws. Structs sent as raw
      bytes ([SHMRegions], [ubsmem_shmem_info_t], ...) are byte strings of their
      size.
    - [MsgFactory]: the operation codes of [message_op.h] and the tables and
      factories of [mxm_msg.cpp].
    - [MsgTheorems]: the message layer's properties, for all message classes.

    ** 3. The shared-memory service ([src/src/mxm_shm], [src/src/process/monitor])

    A process maps, unmaps and deletes named shared memory through handlers of
    the daemon. The manager [SHMManager] keeps a map from names to attached
    memories with their users and writes every change to the record store
    first; the engine that attaches memory is reached through an adapter; a
    monitor schedules removals for dead processes and timed-out calls.

    - [StoreInterface]: what the store promises to its clients, as classes
      ([RecordStoreAPI], [RecordStoreLaws]): every call computes what the
      abstract store computes. The detailed store is an instance, proved with
      the simulation of part 1; the abstract store itself is one too.
    - [Daemon]: the state that the handlers share (map, store, delayed
      removals, trace of the calls that change the engine), the monad of the
      handlers, the return codes, the monitor's sets and the adapter
      ([ubse_mem_adapter.cpp]). What the engine answers is the record
      [Engine], an argument of the handlers.
    - [ShmManager], Module [SHMManager]: every operation of [shm_manager.cpp].
    - [ShmHandlers]: [ShmMap], [ShmUnmap] and [ShmDelete] of [ipc_handler.cpp]
      (the last as [ShmDeleteRequested]), with the permission check, and the part of
      [ubs_mem_leak_cleaner.cpp] for shared memory.
    - [DaemonSim]: a program over any lawful store does what it does over the
      abstract store ([tracks]), for every manager operation and handler. The
      proofs below are on the abstract store and hold for the detailed one.
    - [ShmCoherence]: the invariant that map and store agree, and the outcome
      of every manager operation, and that the handlers keep it.
      [ShmRecovery]: recovery after a restart. [ShmResults]: the outcomes of the
      handlers.
    - [ShmTheorems]: runs of the service as a step relation, its properties,
      and the five places where the code falls short.

    A handler runs as one step. The source serialises handlers for one name by
    a mutex and every manager operation by another; handlers for different
    names may interleave between manager operations, which is not modelled. A
    restart may happen in the middle of a handler: the theorems on recovery
    start from any daemon whose map and store agree, such as between two
    manager operations. Null pointers and messages of the wrong class, which
    the handlers refuse first, do not occur in the model, where a request has a
    type.

    ** 4. The lease service and the monitor ([src/src/mxm_lease],
    [src/src/process/monitor])

    A process borrows anonymous memory from other hosts. [MLSManager] keeps the
    leases in use by name, and freed leases in two ordered caches (for memory
    with a device and for NUMA memory) from which later requests are served; it
    shares the record store with the shared-memory service. A monitor thread
    retries what failed and, at start, schedules what dead processes left.

    - [LeaseEngine]: the adapter's calls for leases ([ubse_mem_adapter.cpp]). The
      record [LeaseEngine] holds the engine's answers; [GetRegionInfo], which
      only computes where memory may be borrowed, is one of its fields and may
      be any function.
    - [LeaseManager], Module [MLSManager]: every operation of [mls_manager.cpp],
      with the forwarding of [mls_repository.cpp] written out. Then the ordered
      caches as sorted lists: the search finds the smallest fitting entry.
    - [LeaseHandlers]: [AppMallocMemory], [AppMallocMemoryWithLoc] and
      [AppFreeMemory] of [mxm_lease/ipc_handler.cpp], and the cleaner's part for
      leases. [Monitor]: the clean-up at start and one round of the monitor
      ([ubs_mem_monitor.cpp], [ubs_mem_leak_cleaner.cpp]).
    - [LeaseInv]: leases with an owner are in use, those without are
      cached; every operation keeps that. [DaemonKeeps]: so does every handler of
      both services, and the programs run on any lawful store as on the
      abstract one. [LeaseRecovery]: recovery after a restart. [LeaseResults],
      [MonitorResults]: the outcomes.
    - [LeaseTheorems]: the properties, over runs of the whole daemon.

    The monitor's waiting for its next round is left out: a round is a step of
    the daemon that may happen at any time.

    ** 5. Master election ([src/src/zen_discovery])

    The daemons elect the master of the distributed-lock service. Every node
    keeps a table of the nodes it knows and runs three threads: one pings the
    active nodes, one holds elections while the node is a candidate, one acts
    on the node's state (discover, invite, maintain). Nodes answer each
    other's requests in handlers of [mxm_shm/rpc_handler.cpp].

    - [NodeAddress]: node names, [rpc_config.h], with [StrUtil::StrToUint].
    - [Election]: one node. The members of [ZenDiscovery] and [ElectionModule] as
      records, Modules [ElectionModule] and [Zen] with their operations on one
      node, handlers included.
    - [ElectionNet]: a cluster, a map from ids to nodes. A request runs the peer's
      handler during the call; what the transport answers, and whether a
      request arrived although the call failed, is the record [Net], different
      for every event. [step] is one turn of one thread of one node; the
      invitations of [InviteNodesToJoin] are events of their own that may
      interleave with everything else while the inviter polls. The wait for
      votes takes fuel, one turn per second of the timeout and two more, which
      always suffices ([wait_votes_total]).
    - [ElectionInv]: every event changes every node by local steps ([nstep]), and
      the invariant that these keep. [ElectionResults]: the outcomes of votes,
      elections, polls and broadcasts.
    - [ElectionTheorems]: the properties, over all runs of any number of nodes,
      and the runs that show where the protocol falls short.

    One turn of a thread is one event, except for the wait for joins: requests
    that a node receives in the middle of its own election or ping cycle are
    not modelled, nor is a request that is handled after its caller gave up.
    The members [port] and [type] that [UpdateNodeLastSeen] leaves
    uninitialised have the values that [Ambient] gives. Destructors,
    [CleanupInstance] and null instances in a node's own threads are left out.

    ** 6. Distributed locks ([src/src/dlock_utils])

    The voting-only node that the election chooses is the one client of the lock
    server for all processes of the cluster; other daemons forward their
    processes' requests to it. It counts the references to each lock, records
    which process may unlock it and until when, and frees what is overdue. The
    lock library is loaded at run time and is not in the repository.

    - [Locks]: [ClientDesc], the data of [DLockContext] and [UbsmLock], the function
      pointers of [DLockExecutor] as a set of symbols, and the monad [LM]: a
      computation reads the surroundings ([LockEnv]: the answer of the library
      and the loader to the i-th call of all, the i-th reading of the clock, the
      election's instance, the transport) and changes the world ([LockWorld]),
      which also has the calls made so far and whether the process is lost by a
      call through a null pointer. A pointer to a [ClientDesc] is its place in
      [dlockClients].
    - [LockService]: [DLockContext] and the requests of [ubsm_lock.cpp], from
      [HandleLock] and [HandleUnlock] to the routing in [Lock] and [Unlock] and a
      turn of the clean-up thread. [LockEvents]: start, stop, recovery,
      [ubsm_lock_event.cpp] and the endpoints. The loops of [TryLock] and
      [UnlockWithDesc] are structural in the attempts left; the loop of
      [DlockClientReinit], which the code does not bound, takes fuel, and
      [reinit_returns] says how much is enough and when.
    - [LockInv]: weakest preconditions and the invariant. [LockOps],
      [LockLifecycle]: what every operation does and that it keeps the invariant.
    - [LockTheorems], [LockRecovery]: the properties, and the runs that show
      faults of the bookkeeping.

    Requests are taken one after the other (the code locks each map, not whole
    requests), and the instance of the election does not change within a
    request. [InitializeTlsPaths] is an argument; the callbacks for the private
    key are left out.

    ** 7. Regions and the creation of shared memory ([src/src/mxm_shm],
          [src/src/under_api/ubse])

    A region is a set of nodes that can share memory. The adapter makes the list of
    regions from the links the engine reports: the neighbours of this node
    that see its first neighbour, and the other neighbours. Clients create
    regions of their own from it, with an affinity for each node; the daemon
    keeps them in a map and in the record store, and passes their slots to the
    engine when memory is leased or created.

    - [RegionTypes]: the descriptions that clients and daemon exchange.
      [UbseLibrary]: loading the engine's library; its theorem is the reason
      why the models of the adapter take one answer for all null checks.
      [Topology]: the list of regions, host names and slots, the NUMA node of a
      process, lookups. What the engine and the system answer is [Topology],
      which extends [Engine].
    - [RegionService]: [RegionManager], [RegionRepository], the requests on
      regions, and the slots that leases are offered ([GetRegionInfo] of the
      adapter, which [LeaseEngine] has as a parameter). [Service] is the daemon's
      state with the regions and the cached node id; [SM] are functions on it.
    - [ShmCreation]: the creation calls of the adapter and the remaining requests
      of the services.
    - [RegionMatch], [RegionInv]: matching a record with a listed region; a
      region's record, the agreement of map and records, and what each
      operation does to it. [TopologyResults]: neighbours, and the list step by step.
    - [RegionTheorems]: the list, creation and recovery of regions.
      [ServiceTheorems]: the invariant of all services together
      ([service_step]), and creation, providers and reconciliation.

    Names and requests are as the client library lets them through. What an
    uninitialised local variable holds is an argument ([junk], [fresh]), and
    the theorems hold for all its values.

    ** 8. The client library ([src/src/app_lib])

    It is linked into an application and reaches the daemon over one connection.
    It keeps tables of what the process has mapped: shared memory, of which it
    also switches the access rights with the memory driver's library and asks the
    daemon for locks, and leases.

    - [Client]: the data, and every call out of the process as an event whose type
      gives the type of its answer ([Ev]; requests to the daemon are [IpcOp], by
      operation code). What each call answers is an argument ([ClientEnv]);
      the world ([ClientWorld]) has the tables, the state of the connection and
      the calls made so far with their answers.
    - [ClientTables]: [ShmMetaDataMgr] and [BorrowAppMetaMgr]. [ClientIpc]: the
      reference-counted connection object ([Link]), [IpcProxy] with suspension and
      resumption, and one function per request. [ClientShm]: [RackMemFdMap] and
      [RackMemShm]. [ClientLease]: [RackMem]. [ClientApi]: set-up, dynamic
      loading, error codes and the functions of [ubs_mem.h].
    - [ClientWp]: weakest preconditions, what is recorded, requests.
      Then the states of the connection over any sequence of operations. [ClientThreads]: the same connection object used by any number
      of threads, as a step relation with one step per locked section.
      [ClientShmInv]: the tables and their invariant. [ClientShmMap],
      [ClientShmOwn]: what each operation on shared memory does, call by call.
      [ClientShmMap] ends with surroundings that answer as told, for concrete runs.
    - [ClientTheorems], [ClientShmTheorems]: the properties.

    The theorems on mapped memory suppose that the kernel maps memory at fixed
    addresses where it is asked to and else where nothing is known to be
    ([honest]), and a connection that is up. The loop of three attempts of
    [IpcCallInner] is modelled as it is and shown to make one. Operations on
    memory are taken one after the other. The code serialises only unmapping and
    the lock functions by an operation lock per name; mapping and changes of
    access rights take no such lock, and [concurrent_maps_break_tables] shows
    what two threads that map one name can do to the tables. The number of locks
    of a mapping is counted without bound, where the code increments an [int]. The
    two functions that set the logger are left out.

    ** 9. Configuration and the daemon process ([src/src/process])

    The process reads a file of keys and values, converts each value to the type
    of its key, validates every item, and hands the values to the loggers, the
    election and the locks. It loads the two services from a library, takes them
    through their phases in a fixed order, and waits for a signal.

    - [Configuration]: the string helpers of [functions.cpp], the parser
      ([KVParser]), the table of items ([ConfConstant], [defaults]), the
      validators and Module [Configuration]. The file system is the record
      [Files] of the calls made on it; an error is the key it is about. The
      loops over characters are structural, those over positions take the length
      of the text as fuel, which they cannot exceed.
    - [ConfigurationTheorems]: files as lists of laid out lines, and what is
      loaded from them; exact characterisations of addresses and choices; the
      ranges that the validation establishes.
    - [DaemonProcess]: the modules of the services with their rollbacks,
      [OckService], [OckServiceManager], [OckDaemon] and [main]. Every call out of
      the process is logged with its answer, which is an argument; the two loops
      that only the engine or a signal ends take a number of rounds. A run
      comes to a result, to an escaped exception, or to a process that is still
      running after these rounds ([Done], [Crashed], [Running]); each of them
      has the process that was reached.
    - [DaemonTheorems]: rollbacks, the descriptor of the record store over the
      whole life of the process, and the settings that reach other components.
    ** Conventions and bounds

    A w-bit integer is a [Z] with its wrap-around written out ([u32], [s32],
    [u64]). [std::unordered_map] is a [gmap]; its iteration order is that of
    [map_to_list], which is unspecified, as the source's is. Loops that are not
    structural take fuel: the walks over pool chains take one unit more than the
    pool has lines and never run out ([pool_walks_total]); the bit loop of
    [ListRegionRecord] takes 64, one per bit of the word. Calls are modelled as
    one after the other: each operation of the store holds its mutex while it
    touches shared data, except for the slot that a call has allocated and not
    yet published, which no other call can reach. Log output is left out. What
    the operating system answers ([ftruncate], [mmap], [kill(pid, 0)]) is an
    argument ([Os]).

    ** What is not modelled

    Not modelled: the network engine ([src/src/communication]), TLS and OpenSSL,
    which only call libraries outside the repository; the registration of
    handlers; the logger; tracing; the wrappers of systemd and of thread pools.
*)

From Stdlib Require Export ZArith Lia Ascii.
From stdpp Require Export base list list_numbers gmap fin_maps strings numbers sorting.

Declare Scope ubsm_scope.
Delimit Scope ubsm_scope with ubsm.

(** ** Machine integers

    A w-bit integer is a [Z]; the conversions of the source are written out. *)

(** Conversion of a value to [uint32_t], [uint64_t] and [int32_t] ([pid_t]). *)
Definition u32 (z : Z) : Z := (z mod 2 ^ 32)%Z.

Definition u64 (z : Z) : Z := (z mod 2 ^ 64)%Z.

Definition s32 (z : Z) : Z := ((z + 2 ^ 31) mod 2 ^ 32 - 2 ^ 31)%Z.

(** ** Tactics *)

(** Case analysis on the first [if]/[match] scrutinee of the goal or of a
    hypothesis, with the equation kept. *)
Ltac case_step :=
  match goal with
  | |- context [if ?b then _ else _] =>
      lazymatch b with context [if _ then _ else _] => fail | _ => destruct b eqn:? end
  | |- context [match ?x with _ => _ end] =>
      lazymatch x with context [match _ with _ => _ end] => fail | _ => destruct x eqn:? end
  end.

Ltac case_step_in H :=
  match type of H with
  | context [if ?b then _ else _] =>
      lazymatch b with context [if _ then _ else _] => fail | _ => destruct b eqn:? end
  | context [match ?x with _ => _ end] =>
      lazymatch x with context [match _ with _ => _ end] => fail | _ => destruct x eqn:? end
  end.

Create HintDb ubsm.
Create Rewrite HintDb ubsm.

(** ** Lemmas on machine integers *)

Lemma u32_range z : (0 <= u32 z < 2 ^ 32)%Z.
Proof. unfold u32. apply Z.mod_pos_bound. lia. Qed.

Lemma u32_small z : (0 <= z < 2 ^ 32)%Z -> u32 z = z.
Proof. intros. unfold u32. by apply Z.mod_small. Qed.

Lemma s32_u32 z : s32 (u32 z) = s32 z.
Proof. unfold s32, u32. f_equal. by rewrite Zplus_mod_idemp_l. Qed.

Lemma s32_small z : (- 2 ^ 31 <= z < 2 ^ 31)%Z -> s32 z = z.
Proof. intros. unfold s32. rewrite Z.mod_small; lia. Qed.

#[export] Hint Resolve u32_range : ubsm.
#[export] Hint Rewrite u32_small s32_u32 s32_small using lia : ubsm.

(** ** Lemmas on lists *)

Lemma NoDup_fmap_seq {A} (f : nat -> A) n :
  (forall i j, i < n -> j < n -> f i = f j -> i = j) -> NoDup (f <$> seq 0 n).
Proof.
  intros Hinj. apply NoDup_alt. intros i j x Hi Hj.
  rewrite list_lookup_fmap in Hi, Hj.
  apply fmap_Some in Hi as (a & Ha & ->). apply fmap_Some in Hj as (b & Hb & Heq).
  apply lookup_seq in Ha as [-> Ha]. apply lookup_seq in Hb as [-> Hb]. simpl in *. auto.
Qed.

(** Reading the last [n] elements from the back, as the allocators do. *)
Lemma back_lookups_reverse {A} `{!Inhabited A} (l : list A) n :
  n <= length l -> ((fun i => l !!! (length l - 1 - i)) <$> seq 0 n) = reverse (drop (length l - n) l).
Proof.
  intros Hn. apply list_eq. intros i. rewrite list_lookup_fmap.
  destruct (decide (i < n)) as [Hi|Hi].
  - rewrite lookup_seq_lt by done. simpl.
    rewrite reverse_lookup by (rewrite length_drop; lia). rewrite length_drop, lookup_drop.
    replace (length l - n + (length l - (length l - n) - S i)) with (length l - 1 - i) by lia.
    symmetry. apply list_lookup_lookup_total_lt. lia.
  - rewrite lookup_seq_ge by lia. simpl. symmetry. apply lookup_ge_None. rewrite length_reverse, length_drop. lia.
Qed.

Lemma NoDup_app_disjoint {A} (l k : list A) x : NoDup (l ++ k) -> x ∈ l -> x ∈ k -> False.
Proof. intros (_ & H & _)%NoDup_app Hl Hk. exact (H x Hl Hk). Qed.

(** ** The order of [std::string]

    Lexicographic, by the unsigned codes of the characters. *)

Definition string_lt (a b : string) : bool := match String.compare a b with Lt => true | _ => false end.

Lemma string_compare_refl s : String.compare s s = Eq.
Proof.
  pose proof (String.compare_antisym s s) as H. by destruct (String.compare s s).
Qed.

Lemma ascii_compare_trans a b c : Ascii.compare a b = Lt -> Ascii.compare b c = Lt -> Ascii.compare a c = Lt.
Proof. unfold Ascii.compare. rewrite !N.compare_lt_iff. lia. Qed.

Lemma string_compare_trans a b c : String.compare a b = Lt -> String.compare b c = Lt -> String.compare a c = Lt.
Proof.
  revert b c. induction a as [|x a IH]; intros [|y b] [|z c]; simpl; try done.
  destruct (Ascii.compare x y) eqn:Exy, (Ascii.compare y z) eqn:Eyz; intros H1 H2; try done.
  - apply Ascii.compare_eq_iff in Exy, Eyz. subst. assert (Ascii.compare z z = Eq) as -> by (unfold Ascii.compare; apply N.compare_refl). by eapply IH.
  - apply Ascii.compare_eq_iff in Exy. subst. by rewrite Eyz.
  - apply Ascii.compare_eq_iff in Eyz. subst. by rewrite Exy.
  - by rewrite (ascii_compare_trans _ _ _ Exy Eyz).
Qed.

Lemma string_lt_irrefl s : string_lt s s = false.
Proof. unfold string_lt. by rewrite string_compare_refl. Qed.

Lemma string_lt_trans a b c : string_lt a b = true -> string_lt b c = true -> string_lt a c = true.
Proof.
  unfold string_lt. destruct (String.compare a b) eqn:E1; try done. destruct (String.compare b c) eqn:E2; try done.
  by rewrite (string_compare_trans _ _ _ E1 E2).
Qed.

Lemma string_lt_total a b : string_lt a b = false -> string_lt b a = false -> a = b.
Proof.
  unfold string_lt. rewrite (String.compare_antisym b a). destruct (String.compare a b) eqn:E; simpl; try done.
  intros _ _. by apply String.compare_eq_iff.
Qed.

Lemma string_lt_empty s : string_lt s "" = false.
Proof. by destruct s. Qed.
