(* ===== verification/StoreTypes.v ===== *)
(** Data types of the record store: the layout constants of
    [src/store/record_store_def.h], the persisted record structs, and the
    argument and result structs of [src/common/ubs_common_types.h]. *)

From S2P Require Import Prelude.

(** ** Constants of [record_store_def.h] *)

Definition RECORD_NAME_SIZE : nat := 64.

Definition REGION_NODE_BITMAP_COUNT : Z := 1024.

Definition U64_BITS_COUNT : Z := 64.

Definition REGION_NODE_BITMAP_U64SIZE : nat := 16.

Definition RECORD_MEM_ID_POOL_LINE_SIZE : nat := 64.

Definition MAX_SUSPEND_CLIENT : nat := 256.

(** The capacities of the five persisted arrays. The code never uses their
    values except as bounds, so the model takes them as the fields of a class;
    [source_geometry] gives the values of the header. The two laws say that an
    index of the arrays fits the 32-bit field that stores it. *)
Class Geometry := {
  REGION_MAX_RECORD : nat;
  MEM_LEASE_MAX_RECORD : nat;
  SHM_MAX_ATTACH_RECORD : nat;
  SHM_MAX_REFERENCE_RECORD : nat;
  RECORD_MEM_ID_POOL_LINE_COUNT : nat;
  attach_index_u32 : (Z.of_nat SHM_MAX_ATTACH_RECORD <= 2 ^ 32)%Z;
  pool_index_u32 : (Z.of_nat RECORD_MEM_ID_POOL_LINE_COUNT <= 2 ^ 32)%Z;
}.

Definition CPU_NUM_PER_HOST : Z := 2.

Definition AVAILABLE_MAR : Z := 2.

Definition DECODER_ENTRY_SIZE : Z := 1024.

Definition BLOCK_PER_ENTRY : Z := 4.

Definition UMMU_PROTECTION_TABLE_SIZE : Z := 1024.

Definition MAX_IMPORT_COUNT : Z := (CPU_NUM_PER_HOST * AVAILABLE_MAR * DECODER_ENTRY_SIZE * BLOCK_PER_ENTRY)%Z.

Definition MAX_EXPORT_COUNT : Z := (CPU_NUM_PER_HOST * UMMU_PROTECTION_TABLE_SIZE)%Z.

Program Definition source_geometry : Geometry := {|
  REGION_MAX_RECORD := 256;
  MEM_LEASE_MAX_RECORD := Z.to_nat MAX_IMPORT_COUNT;
  SHM_MAX_ATTACH_RECORD := Z.to_nat (MAX_IMPORT_COUNT + MAX_EXPORT_COUNT);
  SHM_MAX_REFERENCE_RECORD := Z.to_nat (64 * (MAX_IMPORT_COUNT + MAX_EXPORT_COUNT));
  RECORD_MEM_ID_POOL_LINE_COUNT := Z.to_nat (32 * 1024);
|}.
Next Obligation. rewrite Z2Nat.id by (vm_compute; discriminate). vm_compute; discriminate. Qed.
Next Obligation. rewrite Z2Nat.id by (vm_compute; discriminate). vm_compute; discriminate. Qed.

Definition SHARE_MEM_SIZE : Z := (40 * 1024 * 1024)%Z.

(** ** Enumerations and argument structs of [ubs_common_types.h] *)

Inductive RecordState := PRE_ADD | FINISH | PRE_DEL | DELETED.

#[export] Instance RecordState_eq_dec : EqDecision RecordState.
Proof. solve_decision. Defined.

Record AppContext := mkAppContext { ac_pid : Z; ac_uid : Z; ac_gid : Z }.

#[export] Instance AppContext_eq_dec : EqDecision AppContext.
Proof. solve_decision. Defined.

Record CreateRegionInput := mkCreateRegionInput {
  cri_name : string;
  cri_size : Z;
  cri_nodeIds : list Z;
  cri_affinity : list bool;
}.

Record LeaseMallocInput := mkLeaseMallocInput {
  lmi_fdMode : bool;
  lmi_name : string;
  lmi_size : Z;
  lmi_distance : Z;
  lmi_appContext : AppContext;
  lmi_state : RecordState;
}.

Record LeaseMallocResult := mkLeaseMallocResult {
  lmr_memIds : list Z;
  lmr_numaId : Z;
  lmr_unitSize : Z;
  lmr_slotId : Z;
}.

Record ShareMemImportInput := mkShareMemImportInput {
  smi_name : string;
  smi_size : Z;
  smi_pid : Z;
}.

Record ShareMemImportResult := mkShareMemImportResult {
  smr_memIds : list Z;
  smr_unitSize : Z;
  smr_createFlags : Z;
  smr_openFlag : Z;
  smr_ownerUserId : Z;
  smr_ownerGroupId : Z;
}.

Record ShareMemImportInfo := mkShareMemImportInfo {
  smo_name : string;
  smo_size : Z;
  smo_appContext : AppContext;
  smo_memIds : list Z;
  smo_unitSize : Z;
  smo_flag : Z;
  smo_oflag : Z;
  smo_state : RecordState;
}.

(** ** Persisted structs of [record_store_def.h]

    A [char name[RECORD_NAME_SIZE]] field is the C string it holds: the
    characters before the first NUL. [name[0] = '\0'] makes it the empty string. *)

Record RegionRecord := mkRegionRecord {
  rr_name : string;
  rr_size : Z;
  rr_bitmap : list Z;
  rr_bitmapAffinity : list Z;
}.

Record MemLeaseRecord := mkMemLeaseRecord {
  ml_name : string;
  ml_size : Z;
  ml_pid : Z;
  ml_uid : Z;
  ml_gid : Z;
  ml_fdMode : Z;
  ml_distance : Z;
  ml_numaId : Z;
  ml_unitSize : Z;
  ml_memIdCount : Z;
  ml_memIdBuffer : nat;
  ml_slotId : Z;
  ml_recordState : RecordState;
}.

Record MemShareImportRecord := mkMemShareImportRecord {
  si_name : string;
  si_shmSize : Z;
  si_pid : Z;
  si_uid : Z;
  si_gid : Z;
  si_unitSize : Z;
  si_memIdCount : Z;
  si_memIdBuffer : nat;
  si_flag : Z;
  si_oflag : Z;
  si_recordState : RecordState;
}.

Record MemShareRefRecord := mkMemShareRefRecord {
  sr_pid : Z;
  sr_shmImportIndex : nat;
}.

(** [MemIdRecordPool::memIds]: one list of [RECORD_MEM_ID_POOL_LINE_SIZE] words
    per line. *)
Abbreviation MemIdRecordPool := (list (list Z)).

Record SuspendClientArray := mkSuspendClientArray {
  sc_count : Z;
  sc_pids : list Z;
}.

(** The zero-filled values, i.e. what a freshly truncated file holds. *)
Definition zero_region : RegionRecord :=
  mkRegionRecord "" 0 (replicate REGION_NODE_BITMAP_U64SIZE 0%Z) (replicate REGION_NODE_BITMAP_U64SIZE 0%Z).

Definition zero_lease : MemLeaseRecord := mkMemLeaseRecord "" 0 0 0 0 0 0 0 0 0 0 0 PRE_ADD.

Definition zero_import : MemShareImportRecord := mkMemShareImportRecord "" 0 0 0 0 0 0 0 0 0 PRE_ADD.

Definition zero_ref : MemShareRefRecord := mkMemShareRefRecord 0 0.

#[export] Instance RegionRecord_inhabited : Inhabited RegionRecord := populate zero_region.
#[export] Instance MemLeaseRecord_inhabited : Inhabited MemLeaseRecord := populate zero_lease.
#[export] Instance MemShareImportRecord_inhabited : Inhabited MemShareImportRecord := populate zero_import.
#[export] Instance MemShareRefRecord_inhabited : Inhabited MemShareRefRecord := populate zero_ref.

(** ** Layout of the shared memory file

    [sizeof] of each struct on the LP64 ABI the program is built for; the
    pointers of [RecordStore::Initialize] are these sizes accumulated. *)
Definition sizeof_RegionRecord : Z := (64 + 8 + 16 * 8 + 16 * 8)%Z.

Definition sizeof_MemLeaseRecord : Z := (64 + 8 + 4 + 4 + 4 + 1 + 1 + 2 + 8 + 8 + 8 + 4 + 4 + 4 + 2 + 2)%Z.

Definition sizeof_MemShareImportRecord : Z := (64 + 8 + 4 + 4 + 4 + 4 + 8 + 8 + 4 + 4 + 8 + 4 + 2 + 2)%Z.

Definition sizeof_MemShareRefRecord : Z := (4 + 4)%Z.

Definition sizeof_MemIdRecordPool (lines : nat) : Z := (Z.of_nat lines * 64 * 8)%Z.

Definition sizeof_SuspendClientArray : Z := (4 + 256 * 4)%Z.

(** ** A small instance, for evaluated examples *)

Program Definition small_geometry : Geometry := {|
  REGION_MAX_RECORD := 3;
  MEM_LEASE_MAX_RECORD := 3;
  SHM_MAX_ATTACH_RECORD := 3;
  SHM_MAX_REFERENCE_RECORD := 4;
  RECORD_MEM_ID_POOL_LINE_COUNT := 5;
|}.
Next Obligation. vm_compute; discriminate. Qed.
Next Obligation. vm_compute; discriminate. Qed.
