(* ===== verification/IdPool.v ===== *)
(** The memory-id pool: [src/store/record_id_pool_allocator.cpp].

    The pool stores lists of 64-bit memory ids in an array of 64-word lines.
    Word 0 of a line is an [IdHead]; the other 63 hold ids. A list longer than
    one line is a chain of lines linked through [IdHead::nextIndex]. The lines
    live in the shared memory file, so they are passed beside the allocator. *)

From S2P Require Import Prelude StoreTypes.

Module RecordIdPoolAllocator.

(** ** [union IdHead]: used:1, head:1, tail:1, reserved:29, nextIndex:32 *)

Definition IdHead_pack (used head tail : bool) (nextIndex : Z) : Z :=
  Z.lor (Z.b2z used)
    (Z.lor (Z.shiftl (Z.b2z head) 1)
       (Z.lor (Z.shiftl (Z.b2z tail) 2) (Z.shiftl (u32 nextIndex) 32))).

Definition u_used (id : Z) : bool := Z.testbit id 0.

Definition u_head (id : Z) : bool := Z.testbit id 1.

Definition u_tail (id : Z) : bool := Z.testbit id 2.

Definition u_nextIndex (id : Z) : Z := u32 (Z.shiftr id 32).

(** ** State *)

(** [memIdRecordPool_ != nullptr] and [idleIdIndexes_]. *)
Record state := mkState {
  memIdRecordPool_set : bool;
  idleIdIndexes_ : list nat;
}.

(** [memIds[line][col]], read and written. *)
Definition rd (mem : MemIdRecordPool) (line col : nat) : Z :=
  default 0%Z (mem !! line ≫= (fun l => l !! col)).

Definition wr (mem : MemIdRecordPool) (line col : nat) (v : Z) : MemIdRecordPool :=
  alter (fun l => <[col := v]> l) line mem.

(** Result of a chain walk; [OutOfFuel] is no result of the code: it is the
    value of the model's recursion when its bound is too small. *)
Inductive walk (A : Type) :=
  | Walked (a : A)
  | Corrupt
  | OutOfFuel.
Arguments Walked {A} a.
Arguments Corrupt {A}.
Arguments OutOfFuel {A}.

Definition lineSize : nat := RECORD_MEM_ID_POOL_LINE_SIZE - 1.

Section Operations.
Context {G : Geometry}.

Definition init_state : state := mkState false [].

Definition Initialize (address_nonnull : bool) (mem : MemIdRecordPool) (p : state) : Z * state :=
  if negb address_nonnull then ((-1)%Z, p)
  else (0%Z, mkState true
               (idleIdIndexes_ p ++
                List.filter (fun line => negb (u_used (rd mem line 0))) (seq 0 RECORD_MEM_ID_POOL_LINE_COUNT))).

Definition Destroy (p : state) : state := mkState false [].

(** The two write loops of [Allocate]. *)
Definition write_heads (allocatedLines : list nat) (linesNeed lastLineItems : nat) (mem : MemIdRecordPool)
  : MemIdRecordPool :=
  foldl (fun m i =>
           let idHead :=
             IdHead_pack true (Nat.eqb i 0) (Nat.eqb i (linesNeed - 1))
               (Z.of_nat (if Nat.eqb i (linesNeed - 1) then lastLineItems else allocatedLines !!! (i + 1))) in
           wr m (allocatedLines !!! i) 0 idHead)
    mem (seq 0 linesNeed).

Definition write_ids (allocatedLines : list nat) (ids : list Z) (mem : MemIdRecordPool) : MemIdRecordPool :=
  foldl (fun m i =>
           let row := i / lineSize in
           let col := i mod lineSize + 1 in
           wr m (allocatedLines !!! row) col (ids !!! i))
    mem (seq 0 (length ids)).

(** [Some headIndex] stands for [return 0], [None] for [return -1]. When
    [ids] is empty the code's [lastLineItems] wraps around before the
    [linesNeed == 0] return; the value is not used on that path. *)
Definition Allocate (ids : list Z) (p : state) (mem : MemIdRecordPool)
  : option nat * state * MemIdRecordPool :=
  let idCount := length ids in
  let linesNeed := (idCount + lineSize - 1) / lineSize in
  let lastLineItems := idCount - (linesNeed - 1) * lineSize in
  if negb (memIdRecordPool_set p) then (None, p, mem)
  else if Nat.eqb linesNeed 0 then (None, p, mem)
  else
    let idle := idleIdIndexes_ p in
    if Nat.ltb (length idle) linesNeed then (None, p, mem)
    else
      let allocatedLines := (fun i => idle !!! (length idle - 1 - i)) <$> seq 0 linesNeed in
      let p' := mkState true (take (length idle - linesNeed) idle) in
      let mem1 := write_heads allocatedLines linesNeed lastLineItems mem in
      let mem2 := write_ids allocatedLines ids mem1 in
      (Some (allocatedLines !!! 0), p', mem2).

(** The [while (idHead.u.tail == 0U)] loop of [FillAllocated]. *)
Fixpoint fill_loop (fuel : nat) (mem : MemIdRecordPool) (currentIndex : nat) (idHead : Z) (traversed : nat)
  (visited : gset nat) (ids : list Z) : walk (nat * Z * list Z) :=
  match fuel with
  | 0 => OutOfFuel
  | S fuel' =>
      if u_tail idHead then Walked (currentIndex, idHead, ids)
      else
        let traversed := S traversed in
        if Nat.leb RECORD_MEM_ID_POOL_LINE_COUNT traversed
           || Z.leb (Z.of_nat RECORD_MEM_ID_POOL_LINE_COUNT) (u_nextIndex idHead) then Corrupt
        else
          let next := Z.to_nat (u_nextIndex idHead) in
          if bool_decide (next ∈ visited) then Corrupt
          else
            let ids := ids ++ (rd mem currentIndex <$> seq 1 (RECORD_MEM_ID_POOL_LINE_SIZE - 1)) in
            let idHead := rd mem next 0 in
            if negb (u_used idHead) then Corrupt
            else fill_loop fuel' mem next idHead traversed ({[next]} ∪ visited) ids
  end.

(** The bound [S RECORD_MEM_ID_POOL_LINE_COUNT] is enough: see [fill_loop_total]. *)
Definition FillAllocated (headIndex : nat) (p : state) (mem : MemIdRecordPool) : walk (list Z) :=
  if negb (memIdRecordPool_set p) then Corrupt
  else if Nat.leb RECORD_MEM_ID_POOL_LINE_COUNT headIndex then Corrupt
  else
    let idHead := rd mem headIndex 0 in
    if negb (u_used idHead) then Corrupt
    else if negb (u_head idHead) then Corrupt
    else
      match fill_loop (S RECORD_MEM_ID_POOL_LINE_COUNT) mem headIndex idHead 0 {[headIndex]} [] with
      | Walked (currentIndex, idHead, ids) =>
          if Z.leb (Z.of_nat RECORD_MEM_ID_POOL_LINE_SIZE) (u_nextIndex idHead) then Corrupt
          else Walked (ids ++ ((fun i => rd mem currentIndex (i + 1)) <$> seq 0 (Z.to_nat (u_nextIndex idHead))))
      | Corrupt => Corrupt
      | OutOfFuel => OutOfFuel
      end.

(** The loop of [Release]; its result is [releasedIndexes] with the last line. *)
Fixpoint release_loop (fuel : nat) (mem : MemIdRecordPool) (currentIndex : nat) (idHead : Z) (traversed : nat)
  (visited : gset nat) (releasedIndexes : list nat) : walk (list nat) :=
  match fuel with
  | 0 => OutOfFuel
  | S fuel' =>
      if u_tail idHead then Walked (releasedIndexes ++ [currentIndex])
      else
        let releasedIndexes := releasedIndexes ++ [currentIndex] in
        let traversed := S traversed in
        if Nat.leb RECORD_MEM_ID_POOL_LINE_COUNT traversed
           || Z.leb (Z.of_nat RECORD_MEM_ID_POOL_LINE_COUNT) (u_nextIndex idHead) then Corrupt
        else
          let next := Z.to_nat (u_nextIndex idHead) in
          if bool_decide (next ∈ visited) then Corrupt
          else
            let idHead := rd mem next 0 in
            if negb (u_used idHead) then Corrupt
            else release_loop fuel' mem next idHead traversed ({[next]} ∪ visited) releasedIndexes
  end.

(** The walk's outcome ([Walked tt] is [return 0], [Corrupt] is [return -1]),
    the new idle vector and the new lines. *)
Definition Release (headIndex : nat) (p : state) (mem : MemIdRecordPool) : walk unit * state * MemIdRecordPool :=
  if negb (memIdRecordPool_set p) then (Corrupt, p, mem)
  else if Nat.leb RECORD_MEM_ID_POOL_LINE_COUNT headIndex then (Corrupt, p, mem)
  else
    let idHead := rd mem headIndex 0 in
    if negb (u_used idHead) then (Corrupt, p, mem)
    else if negb (u_head idHead) then (Corrupt, p, mem)
    else
      match release_loop (S RECORD_MEM_ID_POOL_LINE_COUNT) mem headIndex idHead 0 {[headIndex]} [] with
      | Walked releasedIndexes =>
          (Walked tt, mkState true (idleIdIndexes_ p ++ releasedIndexes),
            foldl (fun m index => wr m index 0 0%Z) mem releasedIndexes)
      | Corrupt => (Corrupt, p, mem)
      | OutOfFuel => (OutOfFuel, p, mem)
      end.

End Operations.

End RecordIdPoolAllocator.
