(* ===== verification/IdPoolSpec.v ===== *)
(** Correctness of the memory-id pool.

    [pool_inv A p mem] relates the allocator and its lines to the abstract
    pool [A], a finite map from head index to the chain's lines and the ids
    stored in it. [Allocate], [FillAllocated] and [Release] refine insertion,
    lookup and deletion of that map. *)

From S2P Require Import Prelude StoreTypes IdPool.
Import RecordIdPoolAllocator.

(** ** Bit fields of [IdHead] *)

Lemma u32_testbit_high z n : (32 <= n)%Z -> Z.testbit (u32 z) n = false.
Proof. intros. unfold u32. by rewrite Z.mod_pow2_bits_high by lia. Qed.

Lemma b2z_shiftr b n : (0 < n)%Z -> Z.shiftr (Z.b2z b) n = 0%Z.
Proof. intros. rewrite Z.shiftr_div_pow2 by lia. apply Z.div_small. destruct b; simpl; [|lia].
  split; [lia|]. apply Z.pow_gt_1; lia. Qed.

Lemma IdHead_used used head tail n : u_used (IdHead_pack used head tail n) = used.
Proof.
  unfold u_used, IdHead_pack. rewrite !Z.lor_spec, !Z.shiftl_spec_low by lia.
  by rewrite Z.b2z_bit0, !orb_false_r.
Qed.

Lemma IdHead_head used head tail n : u_head (IdHead_pack used head tail n) = head.
Proof.
  unfold u_head, IdHead_pack. rewrite !Z.lor_spec.
  rewrite (Z.shiftl_spec _ 1) by lia. rewrite (Z.shiftl_spec_low _ 2), (Z.shiftl_spec_low _ 32) by lia.
  rewrite Z.b2z_bit0, !orb_false_r. by destruct used.
Qed.

Lemma IdHead_tail used head tail n : u_tail (IdHead_pack used head tail n) = tail.
Proof.
  unfold u_tail, IdHead_pack. rewrite !Z.lor_spec.
  rewrite (Z.shiftl_spec _ 1), (Z.shiftl_spec _ 2) by lia. rewrite (Z.shiftl_spec_low _ 32) by lia.
  rewrite Z.b2z_bit0, orb_false_r. by destruct used, head.
Qed.

Lemma IdHead_nextIndex used head tail n : u_nextIndex (IdHead_pack used head tail n) = u32 n.
Proof.
  unfold u_nextIndex, IdHead_pack. rewrite !Z.shiftr_lor, b2z_shiftr by lia.
  rewrite !Z.shiftr_shiftl_r by lia. rewrite !b2z_shiftr by lia. rewrite !Z.lor_0_l.
  rewrite Z.sub_diag, Z.shiftr_0_r. apply u32_small, u32_range.
Qed.

#[export] Hint Rewrite IdHead_used IdHead_head IdHead_tail IdHead_nextIndex : ubsm.

(** ** Reading and writing the lines *)

Section Memory.
Context {G : Geometry}.

Definition pool_shape (mem : MemIdRecordPool) : Prop :=
  length mem = RECORD_MEM_ID_POOL_LINE_COUNT /\
  Forall (fun l => length l = RECORD_MEM_ID_POOL_LINE_SIZE) mem.

Lemma rd_wr_ne mem l c v l' c' : (l, c) <> (l', c') -> rd (wr mem l c v) l' c' = rd mem l' c'.
Proof.
  intros Hne. unfold rd, wr. destruct (decide (l = l')) as [->|Hl].
  - rewrite list_lookup_alter_eq. destruct (mem !! l') as [row|]; simpl; [|done].
    rewrite list_lookup_insert_ne; [done|]. intros ->. by apply Hne.
  - by rewrite list_lookup_alter_ne.
Qed.

Lemma rd_wr_eq mem l c v :
  pool_shape mem -> l < RECORD_MEM_ID_POOL_LINE_COUNT -> c < RECORD_MEM_ID_POOL_LINE_SIZE ->
  rd (wr mem l c v) l c = v.
Proof.
  intros [Hlen Hrows] Hl Hc. unfold rd, wr. rewrite list_lookup_alter_eq.
  destruct (lookup_lt_is_Some_2 mem l) as [row Hrow]; [lia|].
  rewrite Hrow; simpl. rewrite list_lookup_insert_eq; [done|].
  rewrite Forall_lookup in Hrows. by rewrite (Hrows _ _ Hrow).
Qed.

Lemma wr_shape mem l c v : pool_shape mem -> pool_shape (wr mem l c v).
Proof.
  intros [Hlen Hrows]. unfold wr. split; [by rewrite length_alter|].
  apply Forall_lookup. intros i row. destruct (decide (l = i)) as [->|Hne].
  - rewrite list_lookup_alter_eq. rewrite Forall_lookup in Hrows.
    destruct (mem !! i) as [r|] eqn:E; simpl; [|done]. intros [= <-].
    rewrite length_insert. eauto.
  - rewrite list_lookup_alter_ne by done. rewrite Forall_lookup in Hrows. eauto.
Qed.

(** A sequence of writes, each to a cell. *)
Definition writes (ws : list (nat * nat * Z)) (mem : MemIdRecordPool) : MemIdRecordPool :=
  foldl (fun m w => wr m w.1.1 w.1.2 w.2) mem ws.

Lemma writes_shape ws mem : pool_shape mem -> pool_shape (writes ws mem).
Proof. revert mem. induction ws as [|w ws IH]; intros mem H; simpl; [done|]. by apply IH, wr_shape. Qed.

Lemma writes_other ws mem l c : (l, c) ∉ ws.*1 -> rd (writes ws mem) l c = rd mem l c.
Proof.
  revert mem. induction ws as [|[[l' c'] v] ws IH]; intros mem H; simpl; [done|].
  rewrite fmap_cons, not_elem_of_cons in H. destruct H as [H1 H2].
  rewrite IH by done. apply rd_wr_ne. simpl in *. congruence.
Qed.

Lemma writes_lookup ws mem l c v :
  NoDup ws.*1 -> (l, c, v) ∈ ws -> pool_shape mem ->
  l < RECORD_MEM_ID_POOL_LINE_COUNT -> c < RECORD_MEM_ID_POOL_LINE_SIZE ->
  rd (writes ws mem) l c = v.
Proof.
  revert mem. induction ws as [|[[l' c'] v'] ws IH]; intros mem Hnd Hin Hsh Hl Hc; simpl; [set_solver|].
  rewrite fmap_cons, NoDup_cons in Hnd. destruct Hnd as [Hni Hnd].
  apply elem_of_cons in Hin as [Heq|Hin].
  - simplify_eq/=. rewrite writes_other by done. by apply rd_wr_eq.
  - apply IH; auto using wr_shape.
Qed.

Lemma foldl_writes {A} (f : A -> nat * nat * Z) (l : list A) mem :
  foldl (fun m i => wr m (f i).1.1 (f i).1.2 (f i).2) mem l = writes (f <$> l) mem.
Proof. revert mem. induction l; intros mem; simpl; auto. Qed.

End Memory.

(** ** Chains *)

Section Chain.
Context {G : Geometry}.

Definition head_word (lines : list nat) (lastItems i : nat) : Z :=
  IdHead_pack true (Nat.eqb i 0) (Nat.eqb i (length lines - 1))
    (Z.of_nat (if Nat.eqb i (length lines - 1) then lastItems else lines !!! (i + 1))).

(** [chain mem lines ids]: the lines form one well-formed allocation holding [ids]. *)
Record chain (mem : MemIdRecordPool) (lines : list nat) (ids : list Z) : Prop := {
  chain_nonempty : 0 < length lines;
  chain_nodup : NoDup lines;
  chain_bound : forall l, l ∈ lines -> l < RECORD_MEM_ID_POOL_LINE_COUNT;
  chain_size : (length lines - 1) * lineSize < length ids <= length lines * lineSize;
  chain_heads : forall i l, lines !! i = Some l ->
    rd mem l 0 = head_word lines (length ids - (length lines - 1) * lineSize) i;
  chain_data : forall k l, k < length ids -> lines !! (k / lineSize) = Some l ->
    rd mem l (k mod lineSize + 1) = ids !!! k;
}.

Lemma chain_frame mem mem' lines ids :
  chain mem lines ids -> (forall l c, l ∈ lines -> rd mem' l c = rd mem l c) -> chain mem' lines ids.
Proof.
  intros [H1 H2 H3 H4 H5 H6] Hf. split; auto.
  - intros i l Hi. rewrite Hf; eauto using list_elem_of_lookup_2.
  - intros k l Hk Hl. rewrite Hf; eauto using list_elem_of_lookup_2.
Qed.

Lemma chain_length_bound mem lines ids : chain mem lines ids -> length lines <= RECORD_MEM_ID_POOL_LINE_COUNT.
Proof.
  intros Hc. rewrite <- (length_seq RECORD_MEM_ID_POOL_LINE_COUNT 0).
  apply submseteq_length, NoDup_submseteq; [apply Hc|].
  intros l Hl. apply elem_of_seq. pose proof (chain_bound _ _ _ Hc l Hl). lia.
Qed.

Lemma chain_last_items mem lines ids :
  chain mem lines ids -> 0 < length ids - (length lines - 1) * lineSize <= lineSize.
Proof. intros Hc. pose proof (chain_size _ _ _ Hc). pose proof (chain_nonempty _ _ _ Hc). nia. Qed.

(** Fields of the head of the [i]-th line of a chain. *)
Lemma chain_used mem lines ids i l : chain mem lines ids -> lines !! i = Some l -> u_used (rd mem l 0) = true.
Proof. intros Hc Hi. rewrite (chain_heads _ _ _ Hc _ _ Hi). apply IdHead_used. Qed.

Lemma chain_head mem lines ids i l :
  chain mem lines ids -> lines !! i = Some l -> u_head (rd mem l 0) = Nat.eqb i 0.
Proof. intros Hc Hi. rewrite (chain_heads _ _ _ Hc _ _ Hi). apply IdHead_head. Qed.

Lemma chain_tail mem lines ids i l :
  chain mem lines ids -> lines !! i = Some l -> u_tail (rd mem l 0) = Nat.eqb i (length lines - 1).
Proof. intros Hc Hi. rewrite (chain_heads _ _ _ Hc _ _ Hi). apply IdHead_tail. Qed.

Lemma chain_next mem lines ids i l l' :
  chain mem lines ids -> lines !! i = Some l -> lines !! (i + 1) = Some l' -> u_nextIndex (rd mem l 0) = Z.of_nat l'.
Proof.
  intros Hc Hi Hi'. rewrite (chain_heads _ _ _ Hc _ _ Hi). unfold head_word. rewrite IdHead_nextIndex.
  pose proof (lookup_lt_Some _ _ _ Hi'). destruct (Nat.eqb_spec i (length lines - 1)) as [|_]; [lia|].
  rewrite (list_lookup_total_correct _ _ _ Hi'). apply u32_small.
  pose proof (chain_bound _ _ _ Hc l' (list_elem_of_lookup_2 _ _ _ Hi')). pose proof pool_index_u32. lia.
Qed.

Lemma chain_next_last mem lines ids l :
  chain mem lines ids -> lines !! (length lines - 1) = Some l ->
  u_nextIndex (rd mem l 0) = Z.of_nat (length ids - (length lines - 1) * lineSize).
Proof.
  intros Hc Hi. rewrite (chain_heads _ _ _ Hc _ _ Hi). unfold head_word.
  rewrite IdHead_nextIndex, Nat.eqb_refl. apply u32_small.
  pose proof (chain_last_items _ _ _ Hc) as Hlast. unfold lineSize, RECORD_MEM_ID_POOL_LINE_SIZE in *. lia.
Qed.

(** The ids held by line [i], [n] of them. *)
Lemma chain_line_data mem lines ids i l n :
  chain mem lines ids -> lines !! i = Some l -> n <= lineSize -> i * lineSize + n <= length ids ->
  ((fun c => rd mem l (c + 1)) <$> seq 0 n) = take n (drop (i * lineSize) ids).
Proof.
  intros Hc Hi Hn Hlen. apply list_eq. intros j. rewrite list_lookup_fmap.
  destruct (decide (j < n)) as [Hj|Hj].
  - rewrite lookup_seq_lt by done. rewrite lookup_take_lt by done. rewrite lookup_drop. simpl.
    assert (Hk : i * lineSize + j < length ids) by lia.
    assert (Hdiv : (i * lineSize + j) / lineSize = i).
    { rewrite Nat.div_add_l by (compute; lia). rewrite Nat.div_small by lia. lia. }
    assert (Hmod : (i * lineSize + j) mod lineSize = j).
    { rewrite Nat.add_comm, Nat.Div0.mod_add. apply Nat.mod_small. lia. }
    pose proof (chain_data _ _ _ Hc (i * lineSize + j) l Hk) as Hd. rewrite Hdiv, Hmod in Hd.
    rewrite Hd by done. symmetry. by apply list_lookup_lookup_total_lt.
  - rewrite lookup_seq_ge by lia. rewrite lookup_take_ge by lia. done.
Qed.

(** One step of either loop inside a chain: the guards pass and the next line
    is the chain's. *)
Lemma chain_step mem lines ids i l :
  chain mem lines ids -> lines !! i = Some l -> u_tail (rd mem l 0) = false ->
  exists l', lines !! S i = Some l' /\ Z.to_nat (u_nextIndex (rd mem l 0)) = l' /\
    (Nat.leb RECORD_MEM_ID_POOL_LINE_COUNT (S i)
     || Z.leb (Z.of_nat RECORD_MEM_ID_POOL_LINE_COUNT) (u_nextIndex (rd mem l 0))) = false /\
    bool_decide (l' ∈ (list_to_set (take (S i) lines) : gset nat)) = false /\
    u_used (rd mem l' 0) = true /\
    {[l']} ∪ list_to_set (take (S i) lines) = (list_to_set (take (S (S i)) lines) : gset nat) /\
    S (S i) * lineSize < length ids + lineSize.
Proof.
  intros Hc Hi Htail. rewrite (chain_tail _ _ _ _ _ Hc Hi) in Htail. apply Nat.eqb_neq in Htail.
  pose proof (lookup_lt_Some _ _ _ Hi) as Hlt.
  destruct (lookup_lt_is_Some_2 lines (S i)) as [l' Hl']; [lia|].
  assert (Hnext : u_nextIndex (rd mem l 0) = Z.of_nat l').
  { eapply chain_next; eauto. by replace (i + 1) with (S i) by lia. }
  pose proof (chain_bound _ _ _ Hc l' (list_elem_of_lookup_2 _ _ _ Hl')) as Hb.
  pose proof (chain_length_bound _ _ _ Hc) as Hlen. pose proof (chain_size _ _ _ Hc) as Hsz.
  exists l'. rewrite Hnext, Nat2Z.id. split_and!; try done.
  - apply orb_false_intro; [apply Nat.leb_gt; lia | apply Z.leb_gt; lia].
  - apply bool_decide_eq_false. rewrite elem_of_list_to_set, elem_of_take. intros (j & Hj & Hlt').
    pose proof (NoDup_lookup lines _ _ _ (chain_nodup _ _ _ Hc) Hj Hl'). lia.
  - eapply chain_used; eauto.
  - rewrite (take_S_r _ _ _ Hl'), list_to_set_snoc_L. apply (comm_L (∪)).
  - nia.
Qed.

Lemma fill_loop_chain mem lines ids fuel i l :
  chain mem lines ids -> lines !! i = Some l -> length lines - i <= fuel ->
  fill_loop fuel mem l (rd mem l 0) i (list_to_set (take (S i) lines)) (take (i * lineSize) ids)
  = Walked (lines !!! (length lines - 1), rd mem (lines !!! (length lines - 1)) 0,
            take ((length lines - 1) * lineSize) ids).
Proof.
  intros Hc. revert i l. induction fuel as [|fuel IH]; intros i l Hi Hfuel.
  { pose proof (lookup_lt_Some _ _ _ Hi). lia. }
  cbn [fill_loop]. destruct (u_tail (rd mem l 0)) eqn:Htail.
  - rewrite (chain_tail _ _ _ _ _ Hc Hi) in Htail. apply Nat.eqb_eq in Htail. subst i.
    by rewrite (list_lookup_total_correct _ _ _ Hi).
  - destruct (chain_step _ _ _ _ _ Hc Hi Htail) as (l' & Hl' & Hn & Hg & Hv & Hu & Hset & Hsz).
    cbv zeta. rewrite Hg, Hn, Hv, Hu, Hset. simpl negb. cbv iota.
    replace (take (i * lineSize) ids ++ (rd mem l <$> seq 1 (RECORD_MEM_ID_POOL_LINE_SIZE - 1)))
      with (take (S i * lineSize) ids); [apply IH; [done | lia]|].
    assert (E : (rd mem l <$> seq 1 (RECORD_MEM_ID_POOL_LINE_SIZE - 1)) =
                ((fun c => rd mem l (c + 1)) <$> seq 0 lineSize)).
    { rewrite <- fmap_S_seq, <- list_fmap_compose. apply list_fmap_ext.
      intros ? ? _. simpl. f_equal. lia. }
    rewrite E.
    rewrite (chain_line_data _ _ _ i l lineSize Hc Hi) by nia.
    rewrite take_take_drop. f_equal. lia.
Qed.

Lemma release_loop_chain mem lines ids fuel i l :
  chain mem lines ids -> lines !! i = Some l -> length lines - i <= fuel ->
  release_loop fuel mem l (rd mem l 0) i (list_to_set (take (S i) lines)) (take i lines) = Walked lines.
Proof.
  intros Hc. revert i l. induction fuel as [|fuel IH]; intros i l Hi Hfuel.
  { pose proof (lookup_lt_Some _ _ _ Hi). lia. }
  cbn [release_loop]. rewrite <- (take_S_r _ _ _ Hi). destruct (u_tail (rd mem l 0)) eqn:Htail.
  - rewrite (chain_tail _ _ _ _ _ Hc Hi) in Htail. apply Nat.eqb_eq in Htail. subst i.
    rewrite take_ge; [done | lia].
  - destruct (chain_step _ _ _ _ _ Hc Hi Htail) as (l' & Hl' & Hn & Hg & Hv & Hu & Hset & Hsz).
    cbv zeta. rewrite Hg, Hn, Hv, Hu, Hset. simpl negb. cbv iota. apply IH; [done | lia].
Qed.

(** [FillAllocated] reads back exactly what a chain holds. *)
Lemma FillAllocated_chain p mem lines ids h :
  memIdRecordPool_set p = true -> chain mem lines ids -> lines !! 0 = Some h ->
  FillAllocated h p mem = Walked ids.
Proof.
  intros Hp Hc Hh. unfold FillAllocated. rewrite Hp. cbn [negb].
  pose proof (chain_bound _ _ _ Hc h (list_elem_of_lookup_2 _ _ _ Hh)) as Hb.
  destruct (Nat.leb_spec RECORD_MEM_ID_POOL_LINE_COUNT h); [lia|].
  rewrite (chain_used _ _ _ _ _ Hc Hh), (chain_head _ _ _ _ _ Hc Hh). cbn [negb Nat.eqb].
  pose proof (chain_nonempty _ _ _ Hc). pose proof (chain_length_bound _ _ _ Hc).
  pose proof (fill_loop_chain mem lines ids (S RECORD_MEM_ID_POOL_LINE_COUNT) 0 h Hc Hh ltac:(lia)) as Hloop.
  replace (list_to_set (take 1 lines) : gset nat) with ({[h]} : gset nat) in Hloop.
  2:{ destruct lines; simplify_eq/=. by rewrite union_empty_r_L. }
  change (take (0 * lineSize) ids) with (@nil Z) in Hloop. rewrite Hloop.
  destruct (lookup_lt_is_Some_2 lines (length lines - 1)) as [l Hl]; [lia|].
  rewrite (list_lookup_total_correct _ _ _ Hl), (chain_next_last _ _ _ _ Hc Hl).
  pose proof (chain_last_items _ _ _ Hc) as Hlast.
  destruct (Z.leb_spec (Z.of_nat RECORD_MEM_ID_POOL_LINE_SIZE)
              (Z.of_nat (length ids - (length lines - 1) * lineSize))); [unfold lineSize in *; lia|].
  rewrite Nat2Z.id, (chain_line_data _ _ _ _ _ _ Hc Hl) by lia.
  f_equal. rewrite take_take_drop. apply take_ge. lia.
Qed.

Lemma release_loop_head mem lines ids h :
  chain mem lines ids -> lines !! 0 = Some h ->
  release_loop (S RECORD_MEM_ID_POOL_LINE_COUNT) mem h (rd mem h 0) 0 {[h]} [] = Walked lines.
Proof.
  intros Hc Hh. pose proof (chain_length_bound _ _ _ Hc).
  pose proof (release_loop_chain mem lines ids (S RECORD_MEM_ID_POOL_LINE_COUNT) 0 h Hc Hh ltac:(lia)) as Hloop.
  replace (list_to_set (take 1 lines) : gset nat) with ({[h]} : gset nat) in Hloop; [done|].
  destruct lines; simplify_eq/=. by rewrite union_empty_r_L.
Qed.

End Chain.

(** ** [Allocate] writes a chain *)

Section Write.
Context {G : Geometry}.

Lemma write_ids_writes lines ids mem :
  write_ids lines ids mem =
  writes ((fun i => (lines !!! (i / lineSize), i mod lineSize + 1, ids !!! i)) <$> seq 0 (length ids)) mem.
Proof. exact (foldl_writes (fun i => (lines !!! (i / lineSize), i mod lineSize + 1, ids !!! i)) _ mem). Qed.

Lemma write_heads_writes lines lastItems mem :
  write_heads lines (length lines) lastItems mem =
  writes ((fun i => (lines !!! i, 0, head_word lines lastItems i)) <$> seq 0 (length lines)) mem.
Proof. exact (foldl_writes (fun i => (lines !!! i, 0, head_word lines lastItems i)) _ mem). Qed.

Lemma lines_need_bounds (n : nat) :
  0 < n -> 0 < (n + lineSize - 1) / lineSize /\
           ((n + lineSize - 1) / lineSize - 1) * lineSize < n <= (n + lineSize - 1) / lineSize * lineSize.
Proof.
  intros Hn. pose proof (Nat.div_mod (n + lineSize - 1) lineSize ltac:(compute; lia)).
  pose proof (Nat.mod_upper_bound (n + lineSize - 1) lineSize ltac:(compute; lia)).
  assert (0 < lineSize) by (compute; lia). nia.
Qed.

Lemma lookup_total_inj (lines : list nat) i j :
  NoDup lines -> i < length lines -> j < length lines -> lines !!! i = lines !!! j -> i = j.
Proof.
  intros Hnd Hi Hj Heq. apply (NoDup_lookup lines i j (lines !!! i) Hnd).
  - by apply list_lookup_lookup_total_lt.
  - rewrite Heq. by apply list_lookup_lookup_total_lt.
Qed.

Lemma id_cell_row (lines : list nat) (ids : list Z) k :
  length ids <= length lines * lineSize -> k < length ids -> k / lineSize < length lines.
Proof. intros H Hk. apply Nat.Div0.div_lt_upper_bound. lia. Qed.

Lemma id_cells_nodup (lines : list nat) (ids : list Z) :
  NoDup lines -> length ids <= length lines * lineSize ->
  NoDup ((fun i => (lines !!! (i / lineSize), i mod lineSize + 1)) <$> seq 0 (length ids)).
Proof.
  intros Hnd Hsz. apply NoDup_fmap_seq. intros i j Hi Hj [Hrow Hcol]%pair_equal_spec.
  apply lookup_total_inj in Hrow; eauto using id_cell_row.
  pose proof (Nat.div_mod i lineSize ltac:(compute; lia)). pose proof (Nat.div_mod j lineSize ltac:(compute; lia)).
  rewrite Hrow in H. lia.
Qed.

(** What the two loops of [Allocate] establish. *)
Lemma write_chain mem lines ids :
  pool_shape mem -> NoDup lines -> (forall l, l ∈ lines -> l < RECORD_MEM_ID_POOL_LINE_COUNT) ->
  0 < length ids -> length lines = (length ids + lineSize - 1) / lineSize ->
  let mem' := write_ids lines ids
                (write_heads lines (length lines) (length ids - (length lines - 1) * lineSize) mem) in
  pool_shape mem' /\ chain mem' lines ids /\ (forall l c, l ∉ lines -> rd mem' l c = rd mem l c).
Proof.
  intros Hsh Hnd Hb Hids Hlen. pose proof (lines_need_bounds (length ids) Hids) as (Hn0 & Hn1).
  rewrite <- Hlen in Hn0, Hn1. rewrite write_ids_writes, write_heads_writes. cbv zeta.
  set (hw := (fun i => (lines !!! i, 0, head_word lines (length ids - (length lines - 1) * lineSize) i))).
  set (iw := (fun i => (lines !!! (i / lineSize), i mod lineSize + 1, ids !!! i))).
  assert (Hsh1 : pool_shape (writes (hw <$> seq 0 (length lines)) mem)) by by apply writes_shape.
  assert (Hin : forall i, i < length lines -> lines !!! i ∈ lines).
  { intros i Hi. apply list_elem_of_lookup_2 with i. by apply list_lookup_lookup_total_lt. }
  split_and!; [by apply writes_shape | split; auto |].
  - intros i l Hi. pose proof (lookup_lt_Some _ _ _ Hi) as Hlt.
    rewrite writes_other.
    2:{ rewrite <- list_fmap_compose. intros (k & Hk & _)%list_elem_of_fmap. injection Hk as _ Hk. lia. }
    apply writes_lookup; auto.
    + rewrite <- list_fmap_compose. apply NoDup_fmap_seq. intros a b Ha Hb' Heq. injection Heq as Heq.
      eauto using lookup_total_inj.
    + apply list_elem_of_fmap. exists i. split; [|apply elem_of_seq; lia].
      unfold hw. by rewrite (list_lookup_total_correct _ _ _ Hi).
    + eauto using list_elem_of_lookup_2.
    + compute; lia.
  - intros k l Hk Hl. apply writes_lookup; auto.
    + rewrite <- list_fmap_compose. apply id_cells_nodup; [done | lia].
    + apply list_elem_of_fmap. exists k. split; [|apply elem_of_seq; lia].
      unfold iw. by rewrite (list_lookup_total_correct _ _ _ Hl).
    + eauto using list_elem_of_lookup_2.
    + pose proof (Nat.mod_upper_bound k lineSize ltac:(compute; lia)).
      change RECORD_MEM_ID_POOL_LINE_SIZE with (lineSize + 1). lia.
  - intros l c Hl. rewrite !writes_other; [done | |]; rewrite <- list_fmap_compose;
      intros (k & Hk & Hks%elem_of_seq)%list_elem_of_fmap; injection Hk as -> _; apply Hl, Hin; [lia|].
    apply (id_cell_row lines ids); lia.
Qed.

End Write.

(** ** The abstract pool and its representation *)

Section Refinement.
Context {G : Geometry}.

Implicit Types A : gmap nat (list nat * list Z).

Definition chain_lines A : list nat := concat ((fun e => e.2.1) <$> map_to_list A).

Record pool_inv A (p : state) (mem : MemIdRecordPool) : Prop := {
  pool_inv_set : memIdRecordPool_set p = true;
  pool_inv_shape : pool_shape mem;
  pool_inv_chain : forall h lines ids, A !! h = Some (lines, ids) -> lines !! 0 = Some h /\ chain mem lines ids;
  pool_inv_partition : idleIdIndexes_ p ++ chain_lines A ≡ₚ seq 0 RECORD_MEM_ID_POOL_LINE_COUNT;
  pool_inv_idle : forall i, i ∈ idleIdIndexes_ p -> u_used (rd mem i 0) = false;
}.

Lemma elem_of_chain_lines A l :
  l ∈ chain_lines A <-> exists h lines ids, A !! h = Some (lines, ids) /\ l ∈ lines.
Proof.
  unfold chain_lines. rewrite list_elem_of_In, in_concat. setoid_rewrite <- list_elem_of_In.
  setoid_rewrite list_elem_of_fmap. split.
  - intros (x & ([h [lines ids]] & -> & H%elem_of_map_to_list) & Hl). eauto.
  - intros (h & lines & ids & H & Hl). exists lines. split; [|done].
    exists (h, (lines, ids)). by rewrite elem_of_map_to_list.
Qed.

Lemma chain_lines_insert A h lines ids :
  A !! h = None -> chain_lines (<[h := (lines, ids)]> A) ≡ₚ lines ++ chain_lines A.
Proof. intros H. unfold chain_lines. by rewrite map_to_list_insert. Qed.

Lemma chain_lines_delete A h lines ids :
  A !! h = Some (lines, ids) -> chain_lines A ≡ₚ lines ++ chain_lines (delete h A).
Proof.
  intros H. rewrite <- (insert_delete_id A h (lines, ids) H) at 1.
  apply chain_lines_insert, lookup_delete_eq.
Qed.

Lemma pool_inv_nodup A p mem : pool_inv A p mem -> NoDup (idleIdIndexes_ p ++ chain_lines A).
Proof. intros H. rewrite (pool_inv_partition _ _ _ H). apply NoDup_seq. Qed.

Lemma pool_inv_idle_bound A p mem i :
  pool_inv A p mem -> i ∈ idleIdIndexes_ p -> i < RECORD_MEM_ID_POOL_LINE_COUNT.
Proof.
  intros H Hi. assert (Hin : i ∈ idleIdIndexes_ p ++ chain_lines A) by (apply elem_of_app; auto).
  rewrite (pool_inv_partition _ _ _ H), elem_of_seq in Hin. lia.
Qed.

(** Turning idle lines into a chain. *)
Lemma pool_inv_insert A p mem mem' rest lines ids h :
  pool_inv A p mem -> idleIdIndexes_ p ≡ₚ rest ++ lines -> lines !! 0 = Some h ->
  pool_shape mem' -> chain mem' lines ids -> (forall l c, l ∉ lines -> rd mem' l c = rd mem l c) ->
  A !! h = None /\ pool_inv (<[h := (lines, ids)]> A) (mkState true rest) mem'.
Proof.
  intros H Hperm Hh Hsh Hc Hf. pose proof (pool_inv_nodup _ _ _ H) as Hnd.
  assert (Hdisj : forall l, l ∈ lines -> l ∉ chain_lines A).
  { intros l Hl Hl'. eapply (NoDup_app_disjoint _ _ l Hnd); eauto. rewrite Hperm. apply elem_of_app. auto. }
  assert (HhA : A !! h = None).
  { destruct (A !! h) as [[ls zs]|] eqn:E; [exfalso|done].
    eapply (Hdisj h); [by eapply list_elem_of_lookup_2|].
    apply elem_of_chain_lines. exists h, ls, zs. split; [done|].
    destruct (pool_inv_chain _ _ _ H _ _ _ E) as [E0 _]. by eapply list_elem_of_lookup_2. }
  split; [done|]. split; simpl; [done | done | | |].
  - intros h' ls zs. destruct (decide (h = h')) as [->|Hne].
    + rewrite lookup_insert_eq. intros [= <- <-]. auto.
    + rewrite lookup_insert_ne by done. intros E. destruct (pool_inv_chain _ _ _ H _ _ _ E) as [E0 Ec].
      split; [done|]. apply (chain_frame mem); [done|]. intros l c Hl. apply Hf. intros Hl'.
      eapply (Hdisj l Hl'), elem_of_chain_lines. eauto.
  - rewrite (chain_lines_insert _ _ _ _ HhA), app_assoc, <- Hperm. apply (pool_inv_partition _ _ _ H).
  - intros i Hi. rewrite Hf.
    + apply (pool_inv_idle _ _ _ H). rewrite Hperm. apply elem_of_app. auto.
    + intros Hl. apply NoDup_app in Hnd as (Hndi & _ & _). rewrite Hperm in Hndi.
      by eapply (NoDup_app_disjoint _ _ i Hndi).
Qed.

(** Allocation inserts a fresh chain, or changes nothing. *)
Lemma Allocate_refines A p mem ids :
  pool_inv A p mem ->
  match Allocate ids p mem with
  | (Some h, p', mem') =>
      ids <> [] /\ A !! h = None /\
      exists lines, pool_inv (<[h := (lines, ids)]> A) p' mem' /\ idleIdIndexes_ p ≡ₚ idleIdIndexes_ p' ++ lines /\
                    length lines = (length ids + lineSize - 1) / lineSize
  | (None, p', mem') =>
      (ids = [] \/ length (idleIdIndexes_ p) < (length ids + lineSize - 1) / lineSize) /\ p' = p /\ mem' = mem
  end.
Proof.
  intros H. unfold Allocate. rewrite (pool_inv_set _ _ _ H). cbn [negb].
  set (need := (length ids + lineSize - 1) / lineSize). set (idle := idleIdIndexes_ p).
  destruct (Nat.eqb_spec need 0) as [Hz|Hz].
  { split; [|done]. left. destruct ids as [|z ids]; [done|].
    pose proof (lines_need_bounds (length (z :: ids)) ltac:(simpl; lia)). unfold need in Hz. lia. }
  assert (Hids : ids <> []) by (intros ->; by compute in Hz).
  destruct (Nat.ltb_spec (length idle) need) as [Hlt|Hge]; [by auto|].
  assert (Hlen : 0 < length ids) by (destruct ids; simpl; [done | lia]).
  rewrite back_lookups_reverse by done. set (lines := reverse (drop (length idle - need) idle)).
  assert (Hneed : need = length lines) by (unfold lines; rewrite length_reverse, length_drop; lia).
  assert (Hperm : idle ≡ₚ take (length idle - need) idle ++ lines).
  { unfold lines. rewrite <- (take_drop (length idle - need) idle) at 1. by rewrite (reverse_Permutation (drop _ _)). }
  assert (Hndl : NoDup lines).
  { pose proof (pool_inv_nodup _ _ _ H) as (Hndi & _ & _)%NoDup_app. fold idle in Hndi.
    rewrite Hperm in Hndi. by apply NoDup_app in Hndi as (_ & _ & ?). }
  rewrite Hneed.
  destruct (write_chain mem lines ids (pool_inv_shape _ _ _ H) Hndl) as (Hsh & Hc & Hf); auto.
  { intros l Hl. eapply pool_inv_idle_bound; eauto. fold idle. rewrite Hperm. apply elem_of_app. auto. }
  destruct (lookup_lt_is_Some_2 lines 0) as [h Hh]; [lia|].
  rewrite (list_lookup_total_correct _ _ _ Hh). rewrite <- Hneed in *.
  destruct (pool_inv_insert _ _ _ _ _ _ _ _ H Hperm Hh Hsh Hc Hf) as [HhA Hinv]. eauto 10.
Qed.

Lemma chain_lines_need mem lines ids : chain mem lines ids -> length lines = (length ids + lineSize - 1) / lineSize.
Proof.
  intros Hc. pose proof (chain_size _ _ _ Hc). pose proof (chain_nonempty _ _ _ Hc).
  pose proof (lines_need_bounds (length ids) ltac:(lia)). assert (0 < lineSize) by (compute; lia). nia.
Qed.

Lemma pool_unused_idle A p mem i :
  pool_inv A p mem -> i < RECORD_MEM_ID_POOL_LINE_COUNT -> u_used (rd mem i 0) = false -> i ∈ idleIdIndexes_ p.
Proof.
  intros H Hi Hu. assert (Hin : i ∈ idleIdIndexes_ p ++ chain_lines A).
  { rewrite (pool_inv_partition _ _ _ H), elem_of_seq. lia. }
  apply elem_of_app in Hin as [|(h & lines & ids & E & Hl)%elem_of_chain_lines]; [done|].
  destruct (pool_inv_chain _ _ _ H _ _ _ E) as [_ Hc]. apply list_elem_of_lookup in Hl as [k Hk].
  rewrite (chain_used _ _ _ _ _ Hc Hk) in Hu. done.
Qed.

(** A line that is no chain's head is refused by the flag tests. *)
Lemma not_head_refused A p mem h :
  pool_inv A p mem -> A !! h = None -> h < RECORD_MEM_ID_POOL_LINE_COUNT ->
  u_used (rd mem h 0) = false \/ u_head (rd mem h 0) = false.
Proof.
  intros H HA Hh. assert (Hin : h ∈ idleIdIndexes_ p ++ chain_lines A).
  { rewrite (pool_inv_partition _ _ _ H). apply elem_of_seq. lia. }
  apply elem_of_app in Hin as [Hi|Hl]; [left; by apply (pool_inv_idle _ _ _ H)|right].
  apply elem_of_chain_lines in Hl as (h' & lines & ids & E & Hl).
  destruct (pool_inv_chain _ _ _ H _ _ _ E) as [E0 Ec].
  apply list_elem_of_lookup in Hl as (i & Hi). rewrite (chain_head _ _ _ _ _ Ec Hi).
  apply Nat.eqb_neq. intros ->. simplify_eq.
Qed.

(** Reading a head back is a lookup of the abstract pool. *)
Lemma FillAllocated_refines A p mem h :
  pool_inv A p mem ->
  FillAllocated h p mem = match A !! h with Some (_, ids) => Walked ids | None => Corrupt end.
Proof.
  intros H. destruct (A !! h) as [[lines ids]|] eqn:E.
  - destruct (pool_inv_chain _ _ _ H _ _ _ E) as [E0 Ec].
    eapply FillAllocated_chain; eauto. apply (pool_inv_set _ _ _ H).
  - unfold FillAllocated. rewrite (pool_inv_set _ _ _ H). cbn [negb].
    destruct (Nat.leb_spec RECORD_MEM_ID_POOL_LINE_COUNT h); [done|].
    destruct (not_head_refused _ _ _ _ H E) as [Hf|Hf]; [done | by rewrite Hf |].
    rewrite Hf. by destruct (u_used _).
Qed.

(** [Release] deletes the chain and returns its lines, or changes nothing. *)
Lemma Release_refines A p mem h :
  pool_inv A p mem ->
  match A !! h with
  | Some (lines, ids) =>
      exists p' mem', Release h p mem = (Walked tt, p', mem') /\ pool_inv (delete h A) p' mem' /\
                      idleIdIndexes_ p' = idleIdIndexes_ p ++ lines
  | None => Release h p mem = (Corrupt, p, mem)
  end.
Proof.
  intros H. destruct (A !! h) as [[lines ids]|] eqn:E; unfold Release; rewrite (pool_inv_set _ _ _ H); cbn [negb].
  2:{ destruct (Nat.leb_spec RECORD_MEM_ID_POOL_LINE_COUNT h); [done|].
      destruct (not_head_refused _ _ _ _ H E) as [Hf|Hf]; [done | by rewrite Hf |].
      rewrite Hf. by destruct (u_used _). }
  destruct (pool_inv_chain _ _ _ H _ _ _ E) as [E0 Ec].
  pose proof (chain_bound _ _ _ Ec h (list_elem_of_lookup_2 _ _ _ E0)) as Hb.
  destruct (Nat.leb_spec RECORD_MEM_ID_POOL_LINE_COUNT h); [lia|].
  rewrite (chain_used _ _ _ _ _ Ec E0), (chain_head _ _ _ _ _ Ec E0). cbn [negb Nat.eqb].
  rewrite (release_loop_head _ _ _ _ Ec E0). do 2 eexists. split; [done|]. split; [|done].
  change (foldl (fun m index => wr m index 0 0%Z) mem lines)
    with (foldl (fun m i => wr m (i, 0, 0%Z).1.1 (i, 0, 0%Z).1.2 (i, 0, 0%Z).2) mem lines).
  rewrite (foldl_writes (fun i => (i, 0, 0%Z))). set (mem' := writes _ mem).
  pose proof (pool_inv_nodup _ _ _ H) as Hnd. rewrite (chain_lines_delete _ _ _ _ E) in Hnd.
  assert (Hf : forall l c, l ∉ lines -> rd mem' l c = rd mem l c).
  { intros l c Hl. apply writes_other. rewrite <- list_fmap_compose.
    intros (k & Hk & Hks)%list_elem_of_fmap. by simplify_eq/=. }
  split; simpl; [done | apply writes_shape, (pool_inv_shape _ _ _ H) | | |].
  - intros h' ls zs. rewrite lookup_delete_Some. intros [Hne E'].
    destruct (pool_inv_chain _ _ _ H _ _ _ E') as [E0' Ec']. split; [done|].
    apply (chain_frame mem); [done|]. intros l c Hl. apply Hf. intros Hl'.
    apply NoDup_app in Hnd as (_ & _ & Hnd). eapply (NoDup_app_disjoint _ _ l Hnd); [done|].
    apply elem_of_chain_lines. exists h', ls, zs. by rewrite lookup_delete_ne.
  - rewrite <- app_assoc, <- (chain_lines_delete _ _ _ _ E). apply (pool_inv_partition _ _ _ H).
  - intros i [Hi|Hi]%elem_of_app.
    + rewrite Hf; [by apply (pool_inv_idle _ _ _ H)|]. intros Hl.
      eapply (NoDup_app_disjoint _ _ i Hnd); [done|]. apply elem_of_app. auto.
    + assert (Hrd : rd mem' i 0 = 0%Z); [|by rewrite Hrd].
      apply writes_lookup; [| | apply (pool_inv_shape _ _ _ H) | by apply (chain_bound _ _ _ Ec) | compute; lia].
      * rewrite <- list_fmap_compose. apply NoDup_fmap_2; [intros ?? [=]; done|]. apply (chain_nodup _ _ _ Ec).
      * apply list_elem_of_fmap. eauto.
Qed.

End Refinement.

(** ** Start-up, reachability and termination *)

Section Lifecycle.
Context {G : Geometry}.

(** The lines of a freshly truncated file. *)
Definition zero_pool : MemIdRecordPool :=
  replicate RECORD_MEM_ID_POOL_LINE_COUNT (replicate RECORD_MEM_ID_POOL_LINE_SIZE 0%Z).

(** One call, or a restart of the daemon on the same shared memory. *)
Inductive pool_step : state * MemIdRecordPool -> state * MemIdRecordPool -> Prop :=
  | pool_step_allocate ids p mem r p' mem' :
      Allocate ids p mem = (r, p', mem') -> pool_step (p, mem) (p', mem')
  | pool_step_release h p mem r p' mem' :
      Release h p mem = (r, p', mem') -> pool_step (p, mem) (p', mem')
  | pool_step_restart p mem :
      pool_step (p, mem) ((Initialize true mem (Destroy p)).2, mem).

(** [Initialize] finds the partition between idle and used lines. *)
Lemma Initialize_pool_inv (A : gmap nat (list nat * list Z)) mem p :
  pool_shape mem -> idleIdIndexes_ p = [] ->
  (forall h lines ids, A !! h = Some (lines, ids) -> lines !! 0 = Some h /\ chain mem lines ids) ->
  NoDup (chain_lines A) ->
  (forall i, i < RECORD_MEM_ID_POOL_LINE_COUNT -> u_used (rd mem i 0) = true -> i ∈ chain_lines A) ->
  pool_inv A (Initialize true mem p).2 mem.
Proof.
  intros Hsh Hp Hch Hnd Hused.
  assert (Hin : forall i, i ∈ chain_lines A -> i < RECORD_MEM_ID_POOL_LINE_COUNT /\ u_used (rd mem i 0) = true).
  { intros i (h & lines & ids & E & Hi)%elem_of_chain_lines. destruct (Hch _ _ _ E) as [_ Hc].
    split; [by apply (chain_bound _ _ _ Hc)|]. apply list_elem_of_lookup in Hi as [k Hk]. eapply chain_used; eauto. }
  assert (Hidle : forall i, i ∈ List.filter (fun line => negb (u_used (rd mem line 0)))
                                  (seq 0 RECORD_MEM_ID_POOL_LINE_COUNT) <->
                            i < RECORD_MEM_ID_POOL_LINE_COUNT /\ u_used (rd mem i 0) = false).
  { intros i. rewrite list_elem_of_In, filter_In, in_seq. destruct (u_used _); simpl; intuition (try lia; try done). }
  simpl. rewrite Hp. split; simpl; [done | done | done | |].
  - apply NoDup_Permutation; [|apply NoDup_seq|].
    + apply NoDup_app. split_and!; [| | done].
      * apply NoDup_ListNoDup, List.NoDup_filter, seq_NoDup.
      * intros i [_ Hi]%Hidle [_ Hi']%Hin. congruence.
    + intros i. rewrite elem_of_app, Hidle, elem_of_seq. split.
      * intros [[? _]|[? _]%Hin]; lia.
      * intros [_ Hi]. destruct (u_used (rd mem i 0)) eqn:E; [right; auto with lia | left; auto with lia].
  - intros i [_ ?]%Hidle. done.
Qed.

Lemma zero_pool_shape : pool_shape zero_pool.
Proof. split; [apply length_replicate|]. apply Forall_replicate, length_replicate. Qed.

Lemma rd_zero_pool l c : rd zero_pool l c = 0%Z.
Proof.
  unfold rd, zero_pool. destruct (replicate _ _ !! l) as [row|] eqn:E; [|done].
  apply lookup_replicate in E as [-> _]. cbn -[replicate].
  destruct (replicate RECORD_MEM_ID_POOL_LINE_SIZE 0%Z !! c) eqn:E'; [|done].
  by apply lookup_replicate in E' as [-> _].
Qed.

Lemma zero_pool_inv p : idleIdIndexes_ p = [] -> pool_inv ∅ (Initialize true zero_pool p).2 zero_pool.
Proof.
  intros Hp. apply Initialize_pool_inv; [apply zero_pool_shape | done | | constructor |].
  - intros h lines ids. by rewrite lookup_empty.
  - intros i _. by rewrite rd_zero_pool.
Qed.

Lemma restart_pool_inv (A : gmap nat (list nat * list Z)) p mem p' :
  pool_inv A p mem -> idleIdIndexes_ p' = [] ->
  pool_inv A (Initialize true mem p').2 mem /\
  idleIdIndexes_ (Initialize true mem p').2 ≡ₚ idleIdIndexes_ p.
Proof.
  intros H Hp'. assert (H' : pool_inv A (Initialize true mem p').2 mem).
  { apply Initialize_pool_inv; [apply H | done | apply H | |].
    - pose proof (pool_inv_nodup _ _ _ H) as (_ & _ & ?)%NoDup_app. done.
    - intros i Hi Hu. assert (Hin : i ∈ idleIdIndexes_ p ++ chain_lines A).
      { rewrite (pool_inv_partition _ _ _ H), elem_of_seq. lia. }
      apply elem_of_app in Hin as [Hin|]; [|done]. apply (pool_inv_idle _ _ _ H) in Hin. congruence. }
  split; [done|]. apply (Permutation_app_inv_r (chain_lines A)).
  by rewrite (pool_inv_partition _ _ _ H), (pool_inv_partition _ _ _ H').
Qed.

Lemma pool_step_inv s s' : pool_step s s' -> (exists A, pool_inv A s.1 s.2) -> exists A, pool_inv A s'.1 s'.2.
Proof.
  intros Hs [A H]. destruct Hs as [ids p mem r p' mem' E | h p mem r p' mem' E | p mem]; simpl in *.
  - pose proof (Allocate_refines _ _ _ ids H) as Hr. rewrite E in Hr. destruct r as [h|].
    + destruct Hr as (_ & _ & lines & Hi & _). eauto.
    + destruct Hr as (_ & -> & ->). eauto.
  - pose proof (Release_refines _ _ _ h H) as Hr. destruct (A !! h) as [[lines ids]|].
    + destruct Hr as (p1 & m1 & E1 & Hi & _). rewrite E in E1. simplify_eq. eauto.
    + rewrite E in Hr. simplify_eq. eauto.
  - exists A. by apply (restart_pool_inv A p mem (Destroy p)).
Qed.

Lemma fill_loop_total fuel mem cur h t vis ids :
  RECORD_MEM_ID_POOL_LINE_COUNT < fuel + t -> t <= RECORD_MEM_ID_POOL_LINE_COUNT ->
  fill_loop fuel mem cur h t vis ids <> OutOfFuel.
Proof.
  revert cur h t vis ids. induction fuel as [|fuel IH]; intros cur h t vis ids Hf Ht; [lia|].
  cbn [fill_loop]. destruct (u_tail h); [done|]. cbv zeta.
  destruct (Nat.leb_spec RECORD_MEM_ID_POOL_LINE_COUNT (S t)); [done|].
  destruct (Z.leb _ _); [done|]. simpl orb. cbv iota.
  destruct (bool_decide _); [done|]. destruct (u_used _); [|done]. cbn [negb]. apply IH; lia.
Qed.

Lemma release_loop_total fuel mem cur h t vis acc :
  RECORD_MEM_ID_POOL_LINE_COUNT < fuel + t -> t <= RECORD_MEM_ID_POOL_LINE_COUNT ->
  release_loop fuel mem cur h t vis acc <> OutOfFuel.
Proof.
  revert cur h t vis acc. induction fuel as [|fuel IH]; intros cur h t vis acc Hf Ht; [lia|].
  cbn [release_loop]. destruct (u_tail h); [done|]. cbv zeta.
  destruct (Nat.leb_spec RECORD_MEM_ID_POOL_LINE_COUNT (S t)); [done|].
  destruct (Z.leb _ _); [done|]. simpl orb. cbv iota.
  destruct (bool_decide _); [done|]. destruct (u_used _); [|done]. cbn [negb]. apply IH; lia.
Qed.

End Lifecycle.

(** ** Properties *)

Section Properties.
Context {G : Geometry}.

(** Reading back after allocation. When [Allocate] succeeds it returns a
    head from which [FillAllocated] reads exactly the ids that were stored,
    and every list readable before is still readable, unchanged. *)
Theorem pool_alloc_fill_roundtrip A p mem ids h p' mem' :
  pool_inv A p mem -> Allocate ids p mem = (Some h, p', mem') ->
  FillAllocated h p' mem' = Walked ids /\
  (forall h' ids', FillAllocated h' p mem = Walked ids' -> FillAllocated h' p' mem' = Walked ids').
Proof.
  intros H E. pose proof (Allocate_refines _ _ _ ids H) as Hr. rewrite E in Hr.
  destruct Hr as (_ & Hfresh & lines & Hinv & _).
  split; [by rewrite (FillAllocated_refines _ _ _ _ Hinv), lookup_insert_eq|].
  intros h' ids'. rewrite (FillAllocated_refines _ _ _ _ H), (FillAllocated_refines _ _ _ _ Hinv).
  destruct (decide (h = h')) as [->|]; [by rewrite Hfresh | by rewrite lookup_insert_ne].
Qed.

(** Allocation fails exactly when it must. In a well-formed pool [Allocate]
    fails, leaving the pool as it was, only for an empty list or when fewer
    idle lines are left than [ceil(|ids| / 63)]; otherwise it consumes exactly
    that many. *)
Theorem pool_alloc_exact A p mem ids :
  pool_inv A p mem ->
  let need := (length ids + lineSize - 1) / lineSize in
  match Allocate ids p mem with
  | (Some _, p', _) => ids <> [] /\ length (idleIdIndexes_ p) = length (idleIdIndexes_ p') + need
  | (None, p', mem') => (ids = [] \/ length (idleIdIndexes_ p) < need) /\ p' = p /\ mem' = mem
  end.
Proof.
  intros H need. pose proof (Allocate_refines _ _ _ ids H) as Hr.
  destruct (Allocate ids p mem) as [[[h|] p'] mem']; [|done].
  destruct Hr as (Hne & _ & lines & _ & Hperm & Hlen). split; [done|].
  rewrite Hperm, length_app, Hlen. done.
Qed.

(** Releasing a list returns its lines. After a successful [Allocate] and any
    well-formed later state in which the list is still stored, [Release] of its
    head succeeds, the head becomes unreadable, the idle lines grow by the
    list's lines, and every other stored list stays readable. *)
Theorem pool_release_reclaims A p mem h ids :
  pool_inv A p mem -> FillAllocated h p mem = Walked ids ->
  exists p' mem', Release h p mem = (Walked tt, p', mem') /\
    FillAllocated h p' mem' = Corrupt /\
    length (idleIdIndexes_ p') = length (idleIdIndexes_ p) + (length ids + lineSize - 1) / lineSize /\
    (forall h' ids', h' <> h -> FillAllocated h' p mem = Walked ids' -> FillAllocated h' p' mem' = Walked ids').
Proof.
  intros H E. rewrite (FillAllocated_refines _ _ _ _ H) in E.
  pose proof (Release_refines _ _ _ h H) as Hr. destruct (A !! h) as [[lines ids0]|] eqn:EA; [|done].
  injection E as ->. destruct Hr as (p' & mem' & Er & Hinv & Hidle). exists p', mem'. split_and!; [done | | |].
  - by rewrite (FillAllocated_refines _ _ _ _ Hinv), lookup_delete_eq.
  - rewrite Hidle, length_app. f_equal. destruct (pool_inv_chain _ _ _ H _ _ _ EA) as [_ Hc].
    apply chain_lines_need with (1 := Hc).
  - intros h' ids' Hne. rewrite (FillAllocated_refines _ _ _ _ H), (FillAllocated_refines _ _ _ _ Hinv).
    by rewrite lookup_delete_ne.
Qed.

(** In every state reachable from a zeroed file by allocations, releases and
    daemon restarts, each line is either idle, listed once and not marked used,
    or belongs to exactly one stored list; no line is ever lost. *)
Theorem pool_reachable_partition s :
  rtc pool_step ((Initialize true zero_pool init_state).2, zero_pool) s ->
  NoDup (idleIdIndexes_ s.1) /\
  (forall i, i < RECORD_MEM_ID_POOL_LINE_COUNT ->
     (u_used (rd s.2 i 0) = false <-> i ∈ idleIdIndexes_ s.1)) /\
  exists A, pool_inv A s.1 s.2 /\
    length (idleIdIndexes_ s.1) + length (chain_lines A) = RECORD_MEM_ID_POOL_LINE_COUNT.
Proof.
  intros Hr. assert (Hinv : exists A, pool_inv A s.1 s.2).
  { revert Hr. apply (rtc_ind_r (fun s => exists A, pool_inv A s.1 s.2)).
    - exists ∅. by apply zero_pool_inv.
    - intros x y _ Hs. by apply pool_step_inv. }
  destruct Hinv as [A H]. split_and!.
  - by pose proof (pool_inv_nodup _ _ _ H) as (? & _)%NoDup_app.
  - intros i Hi. split; [|apply (pool_inv_idle _ _ _ H)]. intros Hu. eapply pool_unused_idle; eauto.
  - exists A. split; [done|]. rewrite <- length_app, (pool_inv_partition _ _ _ H). apply length_seq.
Qed.

(** The chain walks terminate on any memory. Whatever the shared file holds
    (a corrupted link, a cycle, an index out of range), [FillAllocated] and
    [Release] return: the bound of the recursion is never reached. *)
Theorem pool_walks_total h p mem :
  FillAllocated h p mem <> OutOfFuel /\ (Release h p mem).1.1 <> OutOfFuel.
Proof.
  split.
  - unfold FillAllocated. do 4 (case_match; [done|]).
    pose proof (fill_loop_total (S RECORD_MEM_ID_POOL_LINE_COUNT) mem h (rd mem h 0) 0 {[h]} [] ltac:(lia) ltac:(lia)).
    destruct (fill_loop _ _ _ _ _ _ _) as [[[c i] l]| |]; [|done|done]. by case_match.
  - unfold Release. do 4 (case_match; [done|]).
    pose proof (release_loop_total (S RECORD_MEM_ID_POOL_LINE_COUNT) mem h (rd mem h 0) 0 {[h]} [] ltac:(lia) ltac:(lia)).
    by destruct (release_loop _ _ _ _ _ _ _).
Qed.

End Properties.

(** ** Witnesses, on the small geometry *)

Section Witnesses.
#[local] Existing Instance small_geometry.

Definition demo_ids : list Z := Z.of_nat <$> seq 1000 130.

Definition demo_pool : state := (Initialize true zero_pool init_state).2.

Definition demo_pool_stored : state * MemIdRecordPool :=
  let '(_, p, mem) := Allocate demo_ids demo_pool zero_pool in (p, mem).

Lemma demo_pool_stored_inv :
  exists A, pool_inv A demo_pool_stored.1 demo_pool_stored.2.
Proof.
  apply (pool_step_inv (demo_pool, zero_pool) demo_pool_stored).
  - eapply (pool_step_allocate demo_ids). vm_compute. reflexivity.
  - exists ∅. by apply zero_pool_inv.
Qed.

Lemma pool_alloc_fill_roundtrip_witness :
  exists h p' mem', Allocate demo_ids demo_pool zero_pool = (Some h, p', mem') /\
    FillAllocated h p' mem' = Walked demo_ids.
Proof.
  eexists _, _, _. split; [vm_compute; reflexivity|].
  apply (pool_alloc_fill_roundtrip ∅ demo_pool zero_pool);
    [by apply zero_pool_inv | vm_compute; reflexivity].
Defined.

Lemma pool_alloc_exact_witness :
  length (idleIdIndexes_ demo_pool) = 5 /\
  (Allocate (replicate 316 7%Z) demo_pool zero_pool).1.1 = None /\
  length (idleIdIndexes_ demo_pool) < (length (replicate 316 7%Z) + lineSize - 1) / lineSize.
Proof.
  split; [reflexivity|].
  pose proof (pool_alloc_exact ∅ demo_pool zero_pool
                (replicate 316 7%Z) (zero_pool_inv init_state eq_refl)) as H.
  vm_compute in H. vm_compute. destruct H as ([H|H] & _ & _); [discriminate H|]. split; [reflexivity | exact H].
Defined.

Lemma pool_release_reclaims_witness :
  FillAllocated 4 demo_pool_stored.1 demo_pool_stored.2 = Walked demo_ids /\
  exists p' mem', Release 4 demo_pool_stored.1 demo_pool_stored.2 = (Walked tt, p', mem') /\
    length (idleIdIndexes_ p') = 5.
Proof.
  split; [vm_compute; reflexivity|]. destruct demo_pool_stored_inv as [A H].
  destruct (pool_release_reclaims A _ _ 4 demo_ids H ltac:(vm_compute; reflexivity))
    as (p' & mem' & Hr & _ & Hl & _).
  exists p', mem'. split; [exact Hr|]. rewrite Hl. vm_compute. reflexivity.
Defined.

Lemma pool_reachable_partition_witness :
  length (idleIdIndexes_ demo_pool_stored.1) = 2 /\ NoDup (idleIdIndexes_ demo_pool_stored.1).
Proof.
  split; [vm_compute; reflexivity|].
  apply (pool_reachable_partition demo_pool_stored). apply rtc_once.
  eapply (pool_step_allocate demo_ids). vm_compute. reflexivity.
Defined.

End Witnesses.
