(* ===== verification/RecordAllocator.v ===== *)
(** The slot allocator of [src/store/base_record_allocator.h]: an index vector of
    idle slots over an array of persisted records. The records live in the
    shared memory file and are passed beside the allocator; a [RecordType *] is
    the index of its slot. *)

From S2P Require Import Prelude StoreTypes.

Module BaseRecordAllocator.

Section Operations.
Context {RecordType : Type} `{!Inhabited RecordType}.
Variables (recordCount_ : nat) (checkIdleFunc_ : RecordType -> bool) (clearRecordFun_ : RecordType -> RecordType).

(** [Restore]: the slots in use, in index order, and the idle vector. *)
Definition Restore (records : list RecordType) (idleIndexes_ : list nat) : list nat * list nat :=
  foldl (fun '(allocatedRecords, idle) i =>
           if checkIdleFunc_ (records !!! i) then (allocatedRecords, idle ++ [i])
           else (allocatedRecords ++ [i], idle))
    ([], idleIndexes_) (seq 0 recordCount_).

(** [Allocate]: [None] is [nullptr]. *)
Definition Allocate (idleIndexes_ : list nat) : option nat * list nat :=
  match idleIndexes_ with
  | [] => (None, idleIndexes_)
  | _ :: _ => (Some (idleIndexes_ !!! (length idleIndexes_ - 1)), take (length idleIndexes_ - 1) idleIndexes_)
  end.

Definition Release (index : nat) (records : list RecordType) (idleIndexes_ : list nat)
  : list RecordType * list nat :=
  if Nat.leb recordCount_ index then (records, idleIndexes_)
  else (alter clearRecordFun_ index records, idleIndexes_ ++ [index]).

(** ** Invariant: the idle vector and the live slots partition the array, and the
    persisted idle mark agrees with the partition. *)
Record slots_inv (records : list RecordType) (idle live : list nat) : Prop := {
  slots_length : length records = recordCount_;
  slots_partition : idle ++ live ≡ₚ seq 0 recordCount_;
  slots_idle : forall i, i ∈ idle -> checkIdleFunc_ (records !!! i) = true;
  slots_live : forall i, i ∈ live -> checkIdleFunc_ (records !!! i) = false;
}.

Lemma slots_nodup records idle live : slots_inv records idle live -> NoDup (idle ++ live).
Proof. intros H. rewrite (slots_partition _ _ _ H). apply NoDup_seq. Qed.

Lemma slots_bound records idle live i :
  slots_inv records idle live -> i ∈ idle \/ i ∈ live -> i < recordCount_.
Proof.
  intros H Hi. apply elem_of_app in Hi. rewrite (slots_partition _ _ _ H), elem_of_seq in Hi. lia.
Qed.

Lemma slots_permute records idle live live' :
  slots_inv records idle live -> live ≡ₚ live' -> slots_inv records idle live'.
Proof.
  intros [H1 H2 H3 H4] Hp. split; [done | by rewrite <- Hp | done |].
  intros i. rewrite <- Hp. apply H4.
Qed.

Lemma slots_disjoint records idle live i : slots_inv records idle live -> i ∈ idle -> i ∉ live.
Proof. intros H Hi Hl. eapply (NoDup_app_disjoint _ _ i); [eapply slots_nodup|..]; eauto. Qed.

(** [Allocate] takes the last idle slot. *)
Lemma Allocate_spec idle :
  match Allocate idle with
  | (Some i, idle') => idle = idle' ++ [i]
  | (None, idle') => idle = [] /\ idle' = []
  end.
Proof.
  unfold Allocate. destruct idle as [|x l] eqn:E; [done|]. rewrite <- E.
  assert (Hlen : 0 < length idle) by (subst; simpl; lia). clear E.
  rewrite <- (take_drop (length idle - 1) idle) at 1. f_equal.
  apply list_eq. intros j. rewrite lookup_drop. destruct j as [|j]; simpl.
  - rewrite Nat.add_0_r. apply list_lookup_lookup_total_lt. lia.
  - rewrite lookup_ge_None_2; [done | lia].
Qed.

(** Writing a record in the slot just taken makes it live. *)
Lemma slots_publish records idle live i r :
  slots_inv records (idle ++ [i]) live -> checkIdleFunc_ r = false ->
  slots_inv (<[i := r]> records) idle (i :: live).
Proof.
  intros H Hr. pose proof (slots_nodup _ _ _ H) as Hnd.
  assert (Hi : i < recordCount_).
  { eapply slots_bound; eauto. left. apply elem_of_app. right. by apply list_elem_of_singleton. }
  rewrite <- app_assoc in Hnd. apply NoDup_app in Hnd as (_ & Hni & (Hnl & _)%NoDup_cons).
  split.
  - rewrite length_insert. apply H.
  - rewrite <- (slots_partition _ _ _ H), <- app_assoc. done.
  - intros j Hj. rewrite list_lookup_total_insert_ne; [apply (slots_idle _ _ _ H); apply elem_of_app; auto|].
    intros ->. apply (Hni j Hj). simpl. apply elem_of_cons. auto.
  - intros j [->|Hj]%elem_of_cons.
    + rewrite list_lookup_total_insert_eq; [done|]. by rewrite (slots_length _ _ _ H).
    + rewrite list_lookup_total_insert_ne; [by apply (slots_live _ _ _ H)|]. intros ->. done.
Qed.

(** A live slot whose record is rewritten, keeping its mark, stays live. *)
Lemma slots_update records idle live i r :
  slots_inv records idle live -> i ∈ live -> checkIdleFunc_ r = false -> slots_inv (<[i := r]> records) idle live.
Proof.
  intros H Hi Hr. assert (i < recordCount_) by (eapply slots_bound; eauto).
  split; [rewrite length_insert; apply H | apply H | |].
  - intros j Hj. rewrite list_lookup_total_insert_ne; [by apply (slots_idle _ _ _ H)|].
    intros ->. by eapply (slots_disjoint _ _ _ j H).
  - intros j Hj. destruct (decide (i = j)) as [->|Hne].
    + rewrite list_lookup_total_insert_eq; [done|]. by rewrite (slots_length _ _ _ H).
    + rewrite list_lookup_total_insert_ne by done. by apply (slots_live _ _ _ H).
Qed.

(** [Release] of a live slot makes it idle. *)
Lemma Release_spec records idle live i :
  slots_inv records idle (i :: live) -> (forall r, checkIdleFunc_ (clearRecordFun_ r) = true) ->
  exists records', Release i records idle = (records', idle ++ [i]) /\ slots_inv records' (idle ++ [i]) live /\
    (forall j, j <> i -> records' !!! j = records !!! j).
Proof.
  intros H Hclear. assert (Hi : i < recordCount_).
  { eapply slots_bound; eauto. right. apply elem_of_cons. auto. }
  unfold Release. destruct (Nat.leb_spec recordCount_ i); [lia|]. eexists. split; [done|].
  pose proof (slots_nodup _ _ _ H) as Hnd. apply NoDup_app in Hnd as (_ & Hni & (Hnl & _)%NoDup_cons).
  assert (Hother : forall j, j <> i -> alter clearRecordFun_ i records !!! j = records !!! j).
  { intros j Hne. by rewrite list_lookup_total_alter_ne. }
  split; [|done]. split.
  - rewrite length_alter. apply H.
  - rewrite <- app_assoc. simpl. apply H.
  - intros j [Hj|Hj%list_elem_of_singleton]%elem_of_app.
    + rewrite Hother; [by apply (slots_idle _ _ _ H)|]. intros ->. eapply Hni; eauto. apply elem_of_cons. auto.
    + subst j. rewrite list_lookup_total_alter_eq by (rewrite (slots_length _ _ _ H); done). apply Hclear.
  - intros j Hj. rewrite Hother; [apply (slots_live _ _ _ H); apply elem_of_cons; auto|]. intros ->. done.
Qed.

(** Taking a slot, writing it and giving it back on an error path. *)
Lemma Release_abandoned records idle live i r :
  slots_inv records (idle ++ [i]) live -> (forall r, checkIdleFunc_ (clearRecordFun_ r) = true) ->
  exists records', Release i (<[i := r]> records) idle = (records', idle ++ [i]) /\
    slots_inv records' (idle ++ [i]) live /\ (forall j, j <> i -> records' !!! j = records !!! j).
Proof.
  intros H Hclear. assert (Hi : i < recordCount_).
  { eapply slots_bound; eauto. left. apply elem_of_app. right. by apply list_elem_of_singleton. }
  unfold Release. destruct (Nat.leb_spec recordCount_ i); [lia|]. eexists. split; [done|].
  assert (Hother : forall j, j <> i -> alter clearRecordFun_ i (<[i:=r]> records) !!! j = records !!! j).
  { intros j Hne. rewrite list_lookup_total_alter_ne, list_lookup_total_insert_ne by congruence. done. }
  split; [|done]. split; [rewrite length_alter, length_insert; apply H | apply H | |].
  - intros j Hj. destruct (decide (j = i)) as [->|Hne].
    + rewrite list_lookup_total_alter_eq by (rewrite length_insert, (slots_length _ _ _ H); done). apply Hclear.
    + rewrite Hother by done. by apply (slots_idle _ _ _ H).
  - intros j Hj. rewrite Hother; [by apply (slots_live _ _ _ H)|]. intros ->.
    eapply (slots_disjoint _ _ _ i H); [|done]. apply elem_of_app. right. by apply list_elem_of_singleton.
Qed.

(** [Restore] classifies the slots by their persisted mark. *)
Lemma Restore_filter records idle0 :
  Restore records idle0 =
  (List.filter (fun i => negb (checkIdleFunc_ (records !!! i))) (seq 0 recordCount_),
   idle0 ++ List.filter (fun i => checkIdleFunc_ (records !!! i)) (seq 0 recordCount_)).
Proof.
  unfold Restore. enough (Hgen : forall l a b,
    foldl (fun '(allocatedRecords, idle) i =>
             if checkIdleFunc_ (records !!! i) then (allocatedRecords, idle ++ [i])
             else (allocatedRecords ++ [i], idle)) (a, b) l =
    (a ++ List.filter (fun i => negb (checkIdleFunc_ (records !!! i))) l,
     b ++ List.filter (fun i => checkIdleFunc_ (records !!! i)) l)) by apply Hgen.
  induction l as [|x l IH]; intros a b; simpl; [by rewrite !app_nil_r|].
  destruct (checkIdleFunc_ (records !!! x)); simpl; rewrite IH, <- app_assoc; done.
Qed.

Lemma Restore_spec records idle live :
  slots_inv records idle live ->
  exists live' idle', Restore records [] = (live', idle') /\ live' ≡ₚ live /\ idle' ≡ₚ idle /\
    slots_inv records idle' live'.
Proof.
  intros H. rewrite Restore_filter. do 2 eexists. split; [done|]. rewrite app_nil_l.
  pose proof (slots_nodup _ _ _ H) as Hnd. apply NoDup_app in Hnd as (Hndi & _ & Hndl).
  assert (Hcase : forall i, i < recordCount_ -> i ∈ idle \/ i ∈ live).
  { intros i Hi. apply elem_of_app. rewrite (slots_partition _ _ _ H), elem_of_seq. lia. }
  assert (Hl : List.filter (fun i => negb (checkIdleFunc_ (records !!! i))) (seq 0 recordCount_) ≡ₚ live).
  { apply NoDup_Permutation; [apply NoDup_ListNoDup, List.NoDup_filter, seq_NoDup | done |].
    intros i. rewrite list_elem_of_In, filter_In, in_seq, negb_true_iff. split.
    - intros [Hi Hf]. destruct (Hcase i) as [Hid|]; [lia | | done]. apply (slots_idle _ _ _ H) in Hid. congruence.
    - intros Hi. split; [|by apply (slots_live _ _ _ H)].
      assert (i < recordCount_) by (eapply slots_bound; eauto). lia. }
  assert (Hi : List.filter (fun i => checkIdleFunc_ (records !!! i)) (seq 0 recordCount_) ≡ₚ idle).
  { apply NoDup_Permutation; [apply NoDup_ListNoDup, List.NoDup_filter, seq_NoDup | done |].
    intros i. rewrite list_elem_of_In, filter_In, in_seq. split.
    - intros [Hi Hf]. destruct (Hcase i) as [|Hlv]; [lia | done |]. apply (slots_live _ _ _ H) in Hlv. congruence.
    - intros Hi. split; [|by apply (slots_idle _ _ _ H)].
      assert (i < recordCount_) by (eapply slots_bound; eauto). lia. }
  split_and!; [done | done |]. split; [apply H | rewrite Hi, Hl; apply H | |].
  - intros i. rewrite Hi. apply H.
  - intros i. rewrite Hl. apply H.
Qed.

End Operations.

End BaseRecordAllocator.
