(* ===== verification/RecordStore.v ===== *)
(** The persistent record store: [src/store/record_store.cpp].

    The store keeps five arrays in a shared memory file, which outlives the
    daemon, and caches over them in the process. A record pointer is the index
    of its slot. All operations take the cache mutex around their cache access;
    the model runs each operation as one step. Log statements are dropped. *)

From S2P Require Import Prelude StoreTypes IdPool RecordAllocator.

Module RecordStore.

(** ** The shared memory file and the object *)

Record Shm := mkShm {
  shm_regions : list RegionRecord;
  shm_leases : list MemLeaseRecord;
  shm_imports : list MemShareImportRecord;
  shm_refs : list MemShareRefRecord;
  shm_pool : MemIdRecordPool;
  shm_createSeqNo : Z;
  shm_suspend : SuspendClientArray;
}.

(** [mapped] is [mappingAddress_ != nullptr]; the four vectors are the
    [idleIndexes_] of the four allocators. *)
Record state := mkStore {
  shm : Shm;
  mapped : bool;
  regionAllocator_ : list nat;
  memLeaseAllocator_ : list nat;
  shmImportAllocator_ : list nat;
  shmRefAllocator_ : list nat;
  poolAllocator_ : RecordIdPoolAllocator.state;
  cachedRegionRecords_ : gmap string nat;
  cachedLeaseRecords_ : gmap string (nat * list Z);
  cachedImportShmRecords_ : gmap string (nat * list Z);
  cachedRefShmIdxRecords_ : gmap nat (gmap Z (list nat));
  cachedRefShmPidRecords_ : gmap Z (gmap nat (list nat));
}.

(** Assignments to the members, grouped by the array they belong to. *)
Definition set_region (s : state) (a : list RegionRecord) (idle : list nat) (c : gmap string nat) : state :=
  let m := shm s in
  mkStore (mkShm a (shm_leases m) (shm_imports m) (shm_refs m) (shm_pool m) (shm_createSeqNo m) (shm_suspend m))
    (mapped s) idle (memLeaseAllocator_ s) (shmImportAllocator_ s) (shmRefAllocator_ s) (poolAllocator_ s)
    c (cachedLeaseRecords_ s) (cachedImportShmRecords_ s) (cachedRefShmIdxRecords_ s) (cachedRefShmPidRecords_ s).

Definition set_lease (s : state) (a : list MemLeaseRecord) (idle : list nat) (c : gmap string (nat * list Z)) : state :=
  let m := shm s in
  mkStore (mkShm (shm_regions m) a (shm_imports m) (shm_refs m) (shm_pool m) (shm_createSeqNo m) (shm_suspend m))
    (mapped s) (regionAllocator_ s) idle (shmImportAllocator_ s) (shmRefAllocator_ s) (poolAllocator_ s)
    (cachedRegionRecords_ s) c (cachedImportShmRecords_ s) (cachedRefShmIdxRecords_ s) (cachedRefShmPidRecords_ s).

Definition set_import (s : state) (a : list MemShareImportRecord) (idle : list nat) (c : gmap string (nat * list Z))
  : state :=
  let m := shm s in
  mkStore (mkShm (shm_regions m) (shm_leases m) a (shm_refs m) (shm_pool m) (shm_createSeqNo m) (shm_suspend m))
    (mapped s) (regionAllocator_ s) (memLeaseAllocator_ s) idle (shmRefAllocator_ s) (poolAllocator_ s)
    (cachedRegionRecords_ s) (cachedLeaseRecords_ s) c (cachedRefShmIdxRecords_ s) (cachedRefShmPidRecords_ s).

Definition set_ref (s : state) (a : list MemShareRefRecord) (idle : list nat)
  (ci : gmap nat (gmap Z (list nat))) (cp : gmap Z (gmap nat (list nat))) : state :=
  let m := shm s in
  mkStore (mkShm (shm_regions m) (shm_leases m) (shm_imports m) a (shm_pool m) (shm_createSeqNo m) (shm_suspend m))
    (mapped s) (regionAllocator_ s) (memLeaseAllocator_ s) (shmImportAllocator_ s) idle (poolAllocator_ s)
    (cachedRegionRecords_ s) (cachedLeaseRecords_ s) (cachedImportShmRecords_ s) ci cp.

Definition set_pool (s : state) (p : RecordIdPoolAllocator.state) (a : MemIdRecordPool) : state :=
  let m := shm s in
  mkStore (mkShm (shm_regions m) (shm_leases m) (shm_imports m) (shm_refs m) a (shm_createSeqNo m) (shm_suspend m))
    (mapped s) (regionAllocator_ s) (memLeaseAllocator_ s) (shmImportAllocator_ s) (shmRefAllocator_ s) p
    (cachedRegionRecords_ s) (cachedLeaseRecords_ s) (cachedImportShmRecords_ s)
    (cachedRefShmIdxRecords_ s) (cachedRefShmPidRecords_ s).

Definition set_misc (s : state) (seqNo : Z) (a : SuspendClientArray) : state :=
  let m := shm s in
  mkStore (mkShm (shm_regions m) (shm_leases m) (shm_imports m) (shm_refs m) (shm_pool m) seqNo a)
    (mapped s) (regionAllocator_ s) (memLeaseAllocator_ s) (shmImportAllocator_ s) (shmRefAllocator_ s) (poolAllocator_ s)
    (cachedRegionRecords_ s) (cachedLeaseRecords_ s) (cachedImportShmRecords_ s)
    (cachedRefShmIdxRecords_ s) (cachedRefShmPidRecords_ s).

(** ** C strings *)

(** [std::string::c_str()] read as a C string: the characters before the first NUL. *)
Fixpoint c_str (s : string) : string :=
  match s with
  | EmptyString => EmptyString
  | String c s' => if Ascii.eqb c Ascii.zero then EmptyString else String c (c_str s')
  end.

(** [strcpy_s(dest, destMax, src)]: [None] is a result other than [EOK]. *)
Definition strcpy_s (destMax : nat) (src : string) : option string :=
  if Nat.ltb (String.length src) destMax then Some src else None.

(** ** Idle tests and clearing functions *)

Definition RegionIdle (record : RegionRecord) : bool := bool_decide (rr_name record = "").

Definition ClearRegion (record : RegionRecord) : RegionRecord :=
  mkRegionRecord "" (rr_size record) (rr_bitmap record) (rr_bitmapAffinity record).

Definition MemLeaseIdle (record : MemLeaseRecord) : bool := bool_decide (ml_name record = "").

Definition ClearMemLease (r : MemLeaseRecord) : MemLeaseRecord :=
  mkMemLeaseRecord "" (ml_size r) (ml_pid r) (ml_uid r) (ml_gid r) (ml_fdMode r) (ml_distance r) (ml_numaId r)
    (ml_unitSize r) (ml_memIdCount r) (ml_memIdBuffer r) (ml_slotId r) (ml_recordState r).

Definition MemShareImportIdle (record : MemShareImportRecord) : bool := bool_decide (si_name record = "").

Definition ClearMemShareImport (r : MemShareImportRecord) : MemShareImportRecord :=
  mkMemShareImportRecord "" (si_shmSize r) (si_pid r) (si_uid r) (si_gid r) (si_unitSize r) (si_memIdCount r)
    (si_memIdBuffer r) (si_flag r) (si_oflag r) (si_recordState r).

Definition MemShareRefIdle (record : MemShareRefRecord) : bool := bool_decide (sr_pid record = 0%Z).

Definition ClearMemShareRef (r : MemShareRefRecord) : MemShareRefRecord := mkMemShareRefRecord 0 (sr_shmImportIndex r).

Section Operations.
Context {G : Geometry}.

(** ** Regions *)

(** The loop of [AddRegionRecord] that fills the two bitmaps. *)
Definition set_node_bit (bitmap : list Z) (nid : Z) : list Z :=
  alter (fun w => Z.lor w (Z.shiftl 1 (nid mod U64_BITS_COUNT))) (Z.to_nat (nid / U64_BITS_COUNT)) bitmap.

Definition fill_bitmaps (nodeIds : list Z) (affinity : list bool) : list Z * list Z :=
  foldl (fun '(bitmap, bitmapAffinity) '(nid, aff) =>
           (set_node_bit bitmap nid, if (aff : bool) then set_node_bit bitmapAffinity nid else bitmapAffinity))
    (replicate REGION_NODE_BITMAP_U64SIZE 0%Z, replicate REGION_NODE_BITMAP_U64SIZE 0%Z)
    (zip nodeIds affinity).

Definition AddRegionRecord (input : CreateRegionInput) (s : state) : Z * state :=
  if Nat.leb RECORD_NAME_SIZE (String.length (cri_name input)) then ((-1)%Z, s)
  else if existsb (fun nid => Z.leb REGION_NODE_BITMAP_COUNT nid) (cri_nodeIds input) then ((-1)%Z, s)
  else if negb (Nat.eqb (length (cri_nodeIds input)) (length (cri_affinity input))) then ((-1)%Z, s)
  else if negb (mapped s) then ((-1)%Z, s)
  else
    match BaseRecordAllocator.Allocate (regionAllocator_ s) with
    | (None, idle) => ((-1)%Z, set_region s (shm_regions (shm s)) idle (cachedRegionRecords_ s))
    | (Some region, idle) =>
        match strcpy_s RECORD_NAME_SIZE (c_str (cri_name input)) with
        | None =>
            let '(a, idle) := BaseRecordAllocator.Release REGION_MAX_RECORD ClearRegion region
                                (shm_regions (shm s)) idle in
            ((-1)%Z, set_region s a idle (cachedRegionRecords_ s))
        | Some nm =>
            let '(bitmap, bitmapAffinity) := fill_bitmaps (cri_nodeIds input) (cri_affinity input) in
            let a := <[region := mkRegionRecord nm (cri_size input) bitmap bitmapAffinity]> (shm_regions (shm s)) in
            match cachedRegionRecords_ s !! cri_name input with
            | Some _ =>
                let '(a, idle) := BaseRecordAllocator.Release REGION_MAX_RECORD ClearRegion region a idle in
                ((-1)%Z, set_region s a idle (cachedRegionRecords_ s))
            | None => (0%Z, set_region s a idle (<[cri_name input := region]> (cachedRegionRecords_ s)))
            end
        end
    end.

Definition DelRegionRecord (name : string) (s : state) : Z * state :=
  if negb (mapped s) then ((-1)%Z, s)
  else
    match cachedRegionRecords_ s !! name with
    | None => ((-1)%Z, s)
    | Some record =>
        let '(a, idle) := BaseRecordAllocator.Release REGION_MAX_RECORD ClearRegion record
                            (shm_regions (shm s)) (regionAllocator_ s) in
        (0%Z, set_region s a idle (delete name (cachedRegionRecords_ s)))
    end.

(** [__builtin_ffsl(bitmap) - 1]: the index of the lowest set bit. *)
Definition ffsl_minus1 (bitmap : Z) : option Z := List.find (Z.testbit bitmap) (seqZ 0 64).

(** The [while (bitmap != 0UL)] loop over one word; a word has 64 bits, so 64
    iterations are enough ([bit_loop_filter]). *)
Fixpoint bit_loop (fuel : nat) (base bitmap bitmapAffinity : Z) : list (Z * bool) :=
  match fuel with
  | 0 => []
  | S fuel' =>
      if Z.eqb bitmap 0 then []
      else
        match ffsl_minus1 bitmap with
        | None => []
        | Some bit =>
            ((base + bit)%Z, Z.testbit bitmapAffinity bit)
            :: bit_loop fuel' base (Z.land bitmap (Z.lnot (Z.shiftl 1 bit))) bitmapAffinity
        end
  end.

(** The node ids and affinities of one record, over its 16 words. *)
Definition region_nodes (r : RegionRecord) : list (Z * bool) :=
  concat ((fun index => bit_loop 64 (Z.of_nat index * U64_BITS_COUNT) (rr_bitmap r !!! index) (rr_bitmapAffinity r !!! index))
            <$> seq 0 REGION_NODE_BITMAP_U64SIZE).

Definition region_info (s : state) (e : string * nat) : CreateRegionInput :=
  let r := shm_regions (shm s) !!! e.2 in
  mkCreateRegionInput e.1 (rr_size r) (region_nodes r).*1 (region_nodes r).*2.

Definition ListRegionRecord (s : state) : list CreateRegionInput := region_info s <$> map_to_list (cachedRegionRecords_ s).

(** ** Leases *)

Definition DelMemLeaseRecord (name : string) (s : state) : Z * state :=
  if negb (mapped s) then ((-1)%Z, s)
  else
    match cachedLeaseRecords_ s !! name with
    | None => ((-1)%Z, s)
    | Some (record, _) =>
        let a0 := alter ClearMemLease record (shm_leases (shm s)) in
        let memIdHeadIndex := ml_memIdBuffer (a0 !!! record) in
        let hasMemIds := negb (Z.eqb (ml_memIdCount (a0 !!! record)) 0) in
        let '(a, idle) := BaseRecordAllocator.Release MEM_LEASE_MAX_RECORD ClearMemLease record
                            a0 (memLeaseAllocator_ s) in
        let s1 := set_lease s a idle (delete name (cachedLeaseRecords_ s)) in
        if hasMemIds then
          let '(_, p, mem) := RecordIdPoolAllocator.Release memIdHeadIndex (poolAllocator_ s1) (shm_pool (shm s1)) in
          (0%Z, set_pool s1 p mem)
        else (0%Z, s1)
    end.

Definition AddMemLeaseInput (input : LeaseMallocInput) (s : state) : Z * state :=
  if Nat.leb RECORD_NAME_SIZE (String.length (lmi_name input)) then ((-1)%Z, s)
  else if negb (mapped s) then ((-1)%Z, s)
  else
    match BaseRecordAllocator.Allocate (memLeaseAllocator_ s) with
    | (None, idle) => ((-1)%Z, set_lease s (shm_leases (shm s)) idle (cachedLeaseRecords_ s))
    | (Some record, idle) =>
        match strcpy_s RECORD_NAME_SIZE (c_str (lmi_name input)) with
        | None =>
            let '(a, idle) := BaseRecordAllocator.Release MEM_LEASE_MAX_RECORD ClearMemLease record
                                (shm_leases (shm s)) idle in
            ((-1)%Z, set_lease s a idle (cachedLeaseRecords_ s))
        | Some nm =>
            let r := mkMemLeaseRecord nm (lmi_size input) (ac_pid (lmi_appContext input)) (ac_uid (lmi_appContext input))
                       (ac_gid (lmi_appContext input)) (if lmi_fdMode input then 1 else 0)%Z (lmi_distance input)
                       (-1) 0 0 0 0 (lmi_state input) in
            let a := <[record := r]> (shm_leases (shm s)) in
            match cachedLeaseRecords_ s !! lmi_name input with
            | Some _ =>
                let '(a, idle) := BaseRecordAllocator.Release MEM_LEASE_MAX_RECORD ClearMemLease record a idle in
                ((-1)%Z, set_lease s a idle (cachedLeaseRecords_ s))
            | None => (0%Z, set_lease s a idle (<[lmi_name input := (record, [])]> (cachedLeaseRecords_ s)))
            end
        end
    end.

Definition lease_with_result (r : MemLeaseRecord) (result : LeaseMallocResult) (memIdHeadIndex : nat) : MemLeaseRecord :=
  mkMemLeaseRecord (ml_name r) (ml_size r) (ml_pid r) (ml_uid r) (ml_gid r) (ml_fdMode r) (ml_distance r)
    (lmr_numaId result) (lmr_unitSize result) (Z.of_nat (length (lmr_memIds result))) memIdHeadIndex
    (lmr_slotId result) FINISH.

Definition AddMemLeaseResult (name : string) (result : LeaseMallocResult) (s : state) : Z * state :=
  if negb (mapped s) then ((-1)%Z, s)
  else
    match cachedLeaseRecords_ s !! name with
    | None => ((-1)%Z, s)
    | Some (record, _) =>
        match RecordIdPoolAllocator.Allocate (lmr_memIds result) (poolAllocator_ s) (shm_pool (shm s)) with
        | (None, p, mem) => ((-1)%Z, set_pool s p mem)
        | (Some memIdHeadIndex, p, mem) =>
            let s1 := set_pool s p mem in
            (0%Z, set_lease s1
                    (alter (fun r => lease_with_result r result memIdHeadIndex) record (shm_leases (shm s1)))
                    (memLeaseAllocator_ s1) (<[name := (record, lmr_memIds result)]> (cachedLeaseRecords_ s1)))
        end
    end.

Definition lease_with_state (r : MemLeaseRecord) (st : RecordState) : MemLeaseRecord :=
  mkMemLeaseRecord (ml_name r) (ml_size r) (ml_pid r) (ml_uid r) (ml_gid r) (ml_fdMode r) (ml_distance r)
    (ml_numaId r) (ml_unitSize r) (ml_memIdCount r) (ml_memIdBuffer r) (ml_slotId r) st.

Definition UpdateMemLeaseRecordState (name : string) (st : RecordState) (s : state) : Z * state :=
  if negb (mapped s) then ((-1)%Z, s)
  else
    match cachedLeaseRecords_ s !! name with
    | None => ((-1)%Z, s)
    | Some (record, _) =>
        (0%Z, set_lease s (alter (fun r => lease_with_state r st) record (shm_leases (shm s)))
                (memLeaseAllocator_ s) (cachedLeaseRecords_ s))
    end.

Definition lease_with_owner (r : MemLeaseRecord) (context : AppContext) (size : Z) : MemLeaseRecord :=
  mkMemLeaseRecord (ml_name r) size (ac_pid context) (ac_uid context) (ac_gid context) (ml_fdMode r) (ml_distance r)
    (ml_numaId r) (ml_unitSize r) (ml_memIdCount r) (ml_memIdBuffer r) (ml_slotId r) (ml_recordState r).

Definition UpdateMemLeaseRecord (name : string) (context : AppContext) (size : Z) (s : state) : Z * state :=
  if negb (mapped s) then ((-1)%Z, s)
  else
    match cachedLeaseRecords_ s !! name with
    | None => ((-1)%Z, s)
    | Some (record, _) =>
        (0%Z, set_lease s (alter (fun r => lease_with_owner r context size) record (shm_leases (shm s)))
                (memLeaseAllocator_ s) (cachedLeaseRecords_ s))
    end.

Definition ConvertMemLease (r : MemLeaseRecord) (memIds : list Z) : LeaseMallocInput * LeaseMallocResult :=
  (mkLeaseMallocInput (Z.eqb (ml_fdMode r) 1) (ml_name r) (ml_size r) (ml_distance r)
     (mkAppContext (ml_pid r) (ml_uid r) (ml_gid r)) (ml_recordState r),
   mkLeaseMallocResult memIds (ml_numaId r) (ml_unitSize r) (ml_slotId r)).

Definition ListMemLeaseRecord (s : state) : list (LeaseMallocInput * LeaseMallocResult) :=
  if negb (mapped s) then []
  else (fun e => ConvertMemLease (shm_leases (shm s) !!! e.2.1) e.2.2) <$> map_to_list (cachedLeaseRecords_ s).

(** ** Imported shared memory *)

Definition DelShmImportRecord (name : string) (s : state) : Z * state :=
  if negb (mapped s) then ((-1)%Z, s)
  else
    match cachedImportShmRecords_ s !! name with
    | None => ((-1)%Z, s)
    | Some (record, _) =>
        match cachedRefShmIdxRecords_ s !! record with
        | Some _ => ((-1)%Z, s)
        | None =>
            let memIdHeadIndex := si_memIdBuffer (shm_imports (shm s) !!! record) in
            let hasMemIds := negb (Z.eqb (si_memIdCount (shm_imports (shm s) !!! record)) 0) in
            let '(a, idle) := BaseRecordAllocator.Release SHM_MAX_ATTACH_RECORD ClearMemShareImport record
                                (shm_imports (shm s)) (shmImportAllocator_ s) in
            let s1 := set_import s a idle (delete name (cachedImportShmRecords_ s)) in
            if hasMemIds then
              let '(_, p, mem) := RecordIdPoolAllocator.Release memIdHeadIndex (poolAllocator_ s1) (shm_pool (shm s1)) in
              (0%Z, set_pool s1 p mem)
            else (0%Z, s1)
        end
    end.

Definition AddShmImportInput (input : ShareMemImportInput) (s : state) : Z * state :=
  if Nat.leb RECORD_NAME_SIZE (String.length (smi_name input)) then ((-1)%Z, s)
  else if negb (mapped s) then ((-1)%Z, s)
  else
    match BaseRecordAllocator.Allocate (shmImportAllocator_ s) with
    | (None, idle) => ((-1)%Z, set_import s (shm_imports (shm s)) idle (cachedImportShmRecords_ s))
    | (Some record, idle) =>
        match strcpy_s RECORD_NAME_SIZE (c_str (smi_name input)) with
        | None =>
            let '(a, idle) := BaseRecordAllocator.Release SHM_MAX_ATTACH_RECORD ClearMemShareImport record
                                (shm_imports (shm s)) idle in
            ((-1)%Z, set_import s a idle (cachedImportShmRecords_ s))
        | Some nm =>
            let r := mkMemShareImportRecord nm (smi_size input) (u32 (smi_pid input)) 0 0 0 0 0 0 0 PRE_ADD in
            let a := <[record := r]> (shm_imports (shm s)) in
            match cachedImportShmRecords_ s !! smi_name input with
            | Some _ =>
                let '(a, idle) := BaseRecordAllocator.Release SHM_MAX_ATTACH_RECORD ClearMemShareImport record a idle in
                ((-1)%Z, set_import s a idle (cachedImportShmRecords_ s))
            | None => (0%Z, set_import s a idle (<[smi_name input := (record, [])]> (cachedImportShmRecords_ s)))
            end
        end
    end.

Definition import_with_result (r : MemShareImportRecord) (result : ShareMemImportResult) (memIdHeadIndex : nat)
  : MemShareImportRecord :=
  mkMemShareImportRecord (si_name r) (si_shmSize r) (si_pid r) (smr_ownerUserId result) (smr_ownerGroupId result)
    (smr_unitSize result) (Z.of_nat (length (smr_memIds result))) memIdHeadIndex
    (smr_createFlags result) (smr_openFlag result) FINISH.

Definition AddShmImportResult (name : string) (result : ShareMemImportResult) (s : state) : Z * state :=
  if Nat.leb RECORD_NAME_SIZE (String.length name) then ((-1)%Z, s)
  else if negb (mapped s) then ((-1)%Z, s)
  else
    match cachedImportShmRecords_ s !! name with
    | None => ((-1)%Z, s)
    | Some (record, _) =>
        match RecordIdPoolAllocator.Allocate (smr_memIds result) (poolAllocator_ s) (shm_pool (shm s)) with
        | (None, p, mem) => ((-1)%Z, set_pool s p mem)
        | (Some memIdHeadIndex, p, mem) =>
            let s1 := set_pool s p mem in
            (0%Z, set_import s1
                    (alter (fun r => import_with_result r result memIdHeadIndex) record (shm_imports (shm s1)))
                    (shmImportAllocator_ s1) (<[name := (record, smr_memIds result)]> (cachedImportShmRecords_ s1)))
        end
    end.

Definition import_with_state (r : MemShareImportRecord) (st : RecordState) : MemShareImportRecord :=
  mkMemShareImportRecord (si_name r) (si_shmSize r) (si_pid r) (si_uid r) (si_gid r) (si_unitSize r) (si_memIdCount r)
    (si_memIdBuffer r) (si_flag r) (si_oflag r) st.

Definition UpdateShmImportRecordState (name : string) (st : RecordState) (s : state) : Z * state :=
  if negb (mapped s) then ((-1)%Z, s)
  else
    match cachedImportShmRecords_ s !! name with
    | None => ((-1)%Z, s)
    | Some (record, _) =>
        (0%Z, set_import s (alter (fun r => import_with_state r st) record (shm_imports (shm s)))
                (shmImportAllocator_ s) (cachedImportShmRecords_ s))
    end.

Definition import_info (r : MemShareImportRecord) (name : string) (memIds : list Z) : ShareMemImportInfo :=
  mkShareMemImportInfo name (si_shmSize r) (mkAppContext (si_pid r) (si_uid r) (si_gid r)) memIds (si_unitSize r)
    (si_flag r) (si_oflag r) (si_recordState r).

Definition ListShmImportRecord (s : state) : list ShareMemImportInfo :=
  if negb (mapped s) then []
  else (fun e => import_info (shm_imports (shm s) !!! e.2.1) e.1 e.2.2) <$> map_to_list (cachedImportShmRecords_ s).

(** ** References to imported shared memory *)

(** [map[k1][k2].emplace_back(v)] on a map of maps of vectors. *)
Definition push2 {K1 K2 V : Type} `{Countable K1, Countable K2} (k1 : K1) (k2 : K2) (v : V)
  (m : gmap K1 (gmap K2 (list V))) : gmap K1 (gmap K2 (list V)) :=
  let inner := default ∅ (m !! k1) in
  <[k1 := <[k2 := default [] (inner !! k2) ++ [v]]> inner]> m.

(** [EraseLastMultiValue]: the new map and the erased value ([false] with [v]
    unchanged is [None]). *)
Definition EraseLastMultiValue {K V : Type} `{Countable K, !Inhabited V} (map : gmap K (list V)) (k : K)
  : option V * gmap K (list V) :=
  match map !! k with
  | None => (None, map)
  | Some [] => (None, delete k map)
  | Some ((_ :: _) as l) =>
      let v := l !!! (length l - 1) in
      let l' := take (length l - 1) l in
      (Some v, if decide (l' = []) then delete k map else <[k := l']> map)
  end.

(** Erasing from the inner map of [m], and the inner map when it gets empty. *)
Definition erase2 {K1 K2 V : Type} `{Countable K1, Countable K2, !Inhabited V} (m : gmap K1 (gmap K2 (list V)))
  (k1 : K1) (k2 : K2) : option V * gmap K1 (gmap K2 (list V)) :=
  match m !! k1 with
  | None => (None, m)
  | Some inner =>
      let '(v, inner') := EraseLastMultiValue inner k2 in
      (v, if decide (inner' = ∅) then delete k1 m else <[k1 := inner']> m)
  end.

Definition AddShmRefRecord (pid : Z) (name : string) (s : state) : Z * state :=
  if Z.eqb pid 0 || bool_decide (name = "") || Nat.leb RECORD_NAME_SIZE (String.length name) then ((-1)%Z, s)
  else if negb (mapped s) then ((-1)%Z, s)
  else
    match BaseRecordAllocator.Allocate (shmRefAllocator_ s) with
    | (None, idle) =>
        ((-1)%Z, set_ref s (shm_refs (shm s)) idle (cachedRefShmIdxRecords_ s) (cachedRefShmPidRecords_ s))
    | (Some ref, idle) =>
        match cachedImportShmRecords_ s !! name with
        | None =>
            let '(a, idle) := BaseRecordAllocator.Release SHM_MAX_REFERENCE_RECORD ClearMemShareRef ref
                                (shm_refs (shm s)) idle in
            ((-1)%Z, set_ref s a idle (cachedRefShmIdxRecords_ s) (cachedRefShmPidRecords_ s))
        | Some (index, _) =>
            (0%Z, set_ref s (<[ref := mkMemShareRefRecord (u32 pid) index]> (shm_refs (shm s))) idle
                    (push2 index pid ref (cachedRefShmIdxRecords_ s))
                    (push2 pid index ref (cachedRefShmPidRecords_ s)))
        end
    end.

(** The record erased from the pid index replaces the one erased from the
    import index, as the code's second call overwrites [record]. *)
Definition DelShmRefRecord (pid : Z) (name : string) (s : state) : Z * state :=
  if Z.eqb pid 0 || bool_decide (name = "") || Nat.leb RECORD_NAME_SIZE (String.length name) then ((-1)%Z, s)
  else if negb (mapped s) then ((-1)%Z, s)
  else
    match cachedImportShmRecords_ s !! name with
    | None => ((-1)%Z, s)
    | Some (index, _) =>
        let '(r1, ci) := erase2 (cachedRefShmIdxRecords_ s) index pid in
        let '(r2, cp) := erase2 (cachedRefShmPidRecords_ s) pid index in
        let record := match r2 with Some r => Some r | None => r1 end in
        match record with
        | None => ((-1)%Z, set_ref s (shm_refs (shm s)) (shmRefAllocator_ s) ci cp)
        | Some r =>
            let '(a, idle) := BaseRecordAllocator.Release SHM_MAX_REFERENCE_RECORD ClearMemShareRef r
                                (shm_refs (shm s)) (shmRefAllocator_ s) in
            (0%Z, set_ref s a idle ci cp)
        end
    end.

(** The body of the loop over the pid's entries: [cachedRefShmIdxRecords_[idx].erase(pid)],
    then the removal of an empty inner map. [operator[]] creates the inner map
    when it is missing, and the empty map is then erased. *)
Definition erase_pid_of_index (pid : Z) (m : gmap nat (gmap Z (list nat))) (idx : nat) : gmap nat (gmap Z (list nat)) :=
  let inner' := delete pid (default ∅ (m !! idx)) in
  if decide (inner' = ∅) then delete idx m else <[idx := inner']> m.

Definition DelShmRefRecordsByPid (pid : Z) (s : state) : Z * state :=
  if Z.eqb pid 0 then ((-1)%Z, s)
  else if negb (mapped s) then ((-1)%Z, s)
  else
    match cachedRefShmPidRecords_ s !! pid with
    | None => (0%Z, s)
    | Some inner =>
        let entries := map_to_list inner in
        let ci := foldl (erase_pid_of_index pid) (cachedRefShmIdxRecords_ s) entries.*1 in
        let removedRecords := concat entries.*2 in
        let '(a, idle) :=
          foldl (fun '(a, idle) r => BaseRecordAllocator.Release SHM_MAX_REFERENCE_RECORD ClearMemShareRef r a idle)
            (shm_refs (shm s), shmRefAllocator_ s) removedRecords in
        (0%Z, set_ref s a idle ci (delete pid (cachedRefShmPidRecords_ s)))
    end.

(** [result[k1][k2] += n] on a map of maps of [uint32_t]. *)
Definition add2 {K1 K2 : Type} `{Countable K1, Countable K2} (m : gmap K1 (gmap K2 Z)) (k1 : K1) (k2 : K2) (n : nat)
  : gmap K1 (gmap K2 Z) :=
  let inner := default ∅ (m !! k1) in
  <[k1 := <[k2 := u32 (default 0%Z (inner !! k2) + Z.of_nat n)]> inner]> m.

Definition ListShmRefRecordNameF (s : state) : gmap string (gmap Z Z) :=
  if negb (mapped s) then ∅
  else
    foldl (fun result it =>
             let importShm := shm_imports (shm s) !!! it.1 in
             foldl (fun result ref => add2 result (si_name importShm) ref.1 (length ref.2)) result (map_to_list it.2))
      ∅ (map_to_list (cachedRefShmIdxRecords_ s)).

Definition ListShmRefRecordPidF (s : state) : gmap Z (gmap string Z) :=
  if negb (mapped s) then ∅
  else
    foldl (fun result it =>
             foldl (fun result ref =>
                      let importShm := shm_imports (shm s) !!! ref.1 in
                      add2 result it.1 (si_name importShm) (length ref.2)) result (map_to_list it.2))
      ∅ (map_to_list (cachedRefShmPidRecords_ s)).

(** ** Sequence number and suspended clients *)

(** [__sync_fetch_and_add] on the persisted [uint32_t]. *)
Definition GetCreateSeqNo (s : state) : Z * state :=
  let n := shm_createSeqNo (shm s) in
  (n, set_misc s (u32 (n + 1)) (shm_suspend (shm s))).

(** The search loops over the first [count] entries. *)
Definition suspend_index (a : SuspendClientArray) (pid : Z) : option nat :=
  List.find (fun i => Z.eqb (sc_pids a !!! i) (u32 pid)) (seq 0 (Z.to_nat (sc_count a))).

Definition AddSuspendClient (pid : Z) (s : state) : Z * state :=
  let a := shm_suspend (shm s) in
  if Z.leb pid 0 || negb (mapped s) then ((-1)%Z, s)
  else if Z.ltb (Z.of_nat MAX_SUSPEND_CLIENT) (sc_count a) then ((-1)%Z, s)
  else
    match suspend_index a pid with
    | Some _ => (0%Z, s)
    | None =>
        if Z.eqb (sc_count a) (Z.of_nat MAX_SUSPEND_CLIENT) then ((-2)%Z, s)
        else (0%Z, set_misc s (shm_createSeqNo (shm s))
                     (mkSuspendClientArray (sc_count a + 1) (<[Z.to_nat (sc_count a) := u32 pid]> (sc_pids a))))
    end.

Definition DelSuspendClient (pid : Z) (s : state) : Z * state :=
  let a := shm_suspend (shm s) in
  if Z.leb pid 0 || negb (mapped s) then ((-1)%Z, s)
  else if Z.ltb (Z.of_nat MAX_SUSPEND_CLIENT) (sc_count a) then ((-1)%Z, s)
  else
    match suspend_index a pid with
    | Some i =>
        let count := (sc_count a - 1)%Z in
        (0%Z, set_misc s (shm_createSeqNo (shm s))
                (mkSuspendClientArray count (<[i := sc_pids a !!! Z.to_nat count]> (sc_pids a))))
    | None => (0%Z, s)
    end.

Definition IsClientSuspended (pid : Z) (s : state) : bool :=
  let a := shm_suspend (shm s) in
  if Z.leb pid 0 || negb (mapped s) then false
  else if Z.ltb (Z.of_nat MAX_SUSPEND_CLIENT) (sc_count a) then false
  else match suspend_index a pid with Some _ => true | None => false end.

Definition ListSuspendClients (s : state) : list Z :=
  let a := shm_suspend (shm s) in
  if negb (mapped s) || Z.ltb (Z.of_nat MAX_SUSPEND_CLIENT) (sc_count a) then []
  else (fun i => s32 (sc_pids a !!! i)) <$> seq 0 (Z.to_nat (sc_count a)).

(** ** Start-up *)

(** The pruning of the suspended clients in [Initialize]; [alive pid] is
    [kill(pid, 0) == 0 || errno == EPERM]. *)
Definition prune_suspended (alive : Z -> bool) (a : SuspendClientArray) : SuspendClientArray :=
  if Z.ltb (Z.of_nat MAX_SUSPEND_CLIENT) (sc_count a) then mkSuspendClientArray 0 (replicate MAX_SUSPEND_CLIENT 0%Z)
  else
    let '(pids, writeIndex) :=
      foldl (fun '(pids, writeIndex) i =>
               let pid := s32 (pids !!! i) in
               if Z.ltb 0 pid && alive pid then (<[writeIndex := u32 pid]> pids, S writeIndex)
               else (pids, writeIndex))
        (sc_pids a, 0) (seq 0 (Z.to_nat (sc_count a))) in
    mkSuspendClientArray (Z.of_nat writeIndex) pids.

(** [emplace]: an existing entry is kept. *)
Definition emplace {V : Type} (k : string) (v : V) (m : gmap string V) : gmap string V :=
  match m !! k with Some _ => m | None => <[k := v]> m end.

Definition RestoreRegion (s : state) : state :=
  let '(regions, idle) := BaseRecordAllocator.Restore REGION_MAX_RECORD RegionIdle (shm_regions (shm s)) (regionAllocator_ s) in
  set_region s (shm_regions (shm s)) idle
    (foldl (fun c region => emplace (rr_name (shm_regions (shm s) !!! region)) region c) (cachedRegionRecords_ s) regions).

Definition RestoreMemLease (s : state) : state :=
  let '(leases, idle) := BaseRecordAllocator.Restore MEM_LEASE_MAX_RECORD MemLeaseIdle (shm_leases (shm s)) (memLeaseAllocator_ s) in
  set_lease s (shm_leases (shm s)) idle
    (foldl (fun c lease =>
              let r := shm_leases (shm s) !!! lease in
              if Z.eqb (ml_memIdCount r) 0 then emplace (ml_name r) (lease, []) c
              else match RecordIdPoolAllocator.FillAllocated (ml_memIdBuffer r) (poolAllocator_ s) (shm_pool (shm s)) with
                   | RecordIdPoolAllocator.Walked memIds => emplace (ml_name r) (lease, memIds) c
                   | _ => c
                   end)
       (cachedLeaseRecords_ s) leases).

Definition RestoreShmImport (s : state) : state :=
  let '(shares, idle) := BaseRecordAllocator.Restore SHM_MAX_ATTACH_RECORD MemShareImportIdle (shm_imports (shm s)) (shmImportAllocator_ s) in
  set_import s (shm_imports (shm s)) idle
    (foldl (fun c share =>
              let r := shm_imports (shm s) !!! share in
              if Z.eqb (si_memIdCount r) 0 then emplace (si_name r) (share, []) c
              else match RecordIdPoolAllocator.FillAllocated (si_memIdBuffer r) (poolAllocator_ s) (shm_pool (shm s)) with
                   | RecordIdPoolAllocator.Walked memIds => emplace (si_name r) (share, memIds) c
                   | _ => c
                   end)
       (cachedImportShmRecords_ s) shares).

Definition RestoreShmReference (s : state) : state :=
  let '(shares, idle) := BaseRecordAllocator.Restore SHM_MAX_REFERENCE_RECORD MemShareRefIdle (shm_refs (shm s)) (shmRefAllocator_ s) in
  set_ref s (shm_refs (shm s)) idle
    (foldl (fun c share =>
              let r := shm_refs (shm s) !!! share in push2 (sr_shmImportIndex r) (s32 (sr_pid r)) share c)
       (cachedRefShmIdxRecords_ s) shares)
    (foldl (fun c share =>
              let r := shm_refs (shm s) !!! share in push2 (s32 (sr_pid r)) (sr_shmImportIndex r) share c)
       (cachedRefShmPidRecords_ s) shares).

Definition Restore (s : state) : state := RestoreShmReference (RestoreShmImport (RestoreMemLease (RestoreRegion s))).

(** What the operating system answers to [Initialize]. *)
Record Os := mkOs {
  os_ftruncate_ok : bool;
  os_mmap_ok : bool;
  os_alive : Z -> bool;
}.

(** [CheckAllocators] replaces the four allocators by new ones, whose idle
    vectors are empty. *)
Definition CheckAllocators (s : state) : state :=
  mkStore (shm s) (mapped s) [] [] [] [] (poolAllocator_ s)
    (cachedRegionRecords_ s) (cachedLeaseRecords_ s) (cachedImportShmRecords_ s)
    (cachedRefShmIdxRecords_ s) (cachedRefShmPidRecords_ s).

Definition set_mapped (s : state) (b : bool) : state :=
  mkStore (shm s) b (regionAllocator_ s) (memLeaseAllocator_ s) (shmImportAllocator_ s) (shmRefAllocator_ s)
    (poolAllocator_ s) (cachedRegionRecords_ s) (cachedLeaseRecords_ s) (cachedImportShmRecords_ s)
    (cachedRefShmIdxRecords_ s) (cachedRefShmPidRecords_ s).

Definition Initialize (os : Os) (fd : Z) (s : state) : Z * state :=
  if Z.ltb fd 0 then ((-1)%Z, s)
  else if negb (os_ftruncate_ok os) then ((-1)%Z, s)
  else if negb (os_mmap_ok os) then ((-1)%Z, s)
  else
    let s1 := set_mapped s true in
    let s2 := set_misc s1 (shm_createSeqNo (shm s1)) (prune_suspended (os_alive os) (shm_suspend (shm s1))) in
    let s3 := CheckAllocators s2 in
    let '(ret, p) := RecordIdPoolAllocator.Initialize true (shm_pool (shm s3)) (poolAllocator_ s3) in
    let s4 := set_pool s3 p (shm_pool (shm s3)) in
    if negb (Z.eqb ret 0) then ((-1)%Z, set_mapped s4 false)
    else (0%Z, Restore s4).

Definition Destroy (s : state) : state :=
  if negb (mapped s) then s
  else mkStore (shm s) false (regionAllocator_ s) (memLeaseAllocator_ s) (shmImportAllocator_ s) (shmRefAllocator_ s)
         (RecordIdPoolAllocator.Destroy (poolAllocator_ s)) ∅ ∅ ∅ ∅ ∅.

(** The object as constructed, over a given file. *)
Definition construct (file : Shm) : state :=
  mkStore file false [] [] [] [] RecordIdPoolAllocator.init_state ∅ ∅ ∅ ∅ ∅.

(** A freshly truncated file. *)
Definition zero_shm : Shm :=
  mkShm (replicate REGION_MAX_RECORD zero_region) (replicate MEM_LEASE_MAX_RECORD zero_lease)
    (replicate SHM_MAX_ATTACH_RECORD zero_import) (replicate SHM_MAX_REFERENCE_RECORD zero_ref)
    (replicate RECORD_MEM_ID_POOL_LINE_COUNT (replicate RECORD_MEM_ID_POOL_LINE_SIZE 0%Z)) 0
    (mkSuspendClientArray 0 (replicate MAX_SUSPEND_CLIENT 0%Z)).

End Operations.

End RecordStore.
