(* ===== verification/StoreTable.v ===== *)
(** A name-indexed table: an array of persisted records, the idle vector of its
    allocator and a cache from name to a value that holds the slot. Regions,
    leases and imports of the record store are three instances; the lemmas here
    are the steps their operations are made of. *)

From S2P Require Import Prelude StoreTypes RecordAllocator RecordStore.
Import BaseRecordAllocator.

(** ** Slots held by a cache *)

Definition slots_of {V : Type} (slot : V -> nat) (c : gmap string V) : list nat := (fun e => slot e.2) <$> map_to_list c.

Section SlotsOf.
Context {V : Type} (slot : V -> nat).
Implicit Types c : gmap string V.

Lemma elem_of_slots_of c i : i ∈ slots_of slot c <-> exists n v, c !! n = Some v /\ slot v = i.
Proof.
  unfold slots_of. rewrite list_elem_of_fmap. split.
  - intros ([n v] & -> & H%elem_of_map_to_list). eauto.
  - intros (n & v & H & <-). exists (n, v). by rewrite elem_of_map_to_list.
Qed.

Lemma slots_of_insert c n v : c !! n = None -> slots_of slot (<[n := v]> c) ≡ₚ slot v :: slots_of slot c.
Proof. intros H. unfold slots_of. by rewrite map_to_list_insert. Qed.

Lemma slots_of_delete c n v : c !! n = Some v -> slots_of slot c ≡ₚ slot v :: slots_of slot (delete n c).
Proof.
  intros H. rewrite <- (insert_delete_id c n v H) at 1. apply slots_of_insert, lookup_delete_eq.
Qed.

Lemma slots_of_replace c n v v' :
  c !! n = Some v -> slot v' = slot v -> slots_of slot (<[n := v']> c) ≡ₚ slots_of slot c.
Proof.
  intros H Hs. rewrite (slots_of_delete c n v H), <- insert_delete_eq.
  rewrite slots_of_insert by apply lookup_delete_eq. by rewrite Hs.
Qed.

End SlotsOf.

(** ** Rebuilding a cache with [emplace] *)

Lemma emplace_foldl {V} (l : list (string * V)) (m : gmap string V) :
  foldl (fun c e => RecordStore.emplace e.1 e.2 c) m l = m ∪ list_to_map l.
Proof.
  revert m. induction l as [|[k v] l IH]; intros m; simpl; [by rewrite (right_id_L ∅ (∪))|].
  rewrite IH. apply map_eq. intros k'. rewrite !lookup_union. unfold RecordStore.emplace.
  destruct (decide (k = k')) as [->|Hne].
  - rewrite lookup_insert_eq. destruct (m !! k') as [w|] eqn:E; [rewrite E | rewrite lookup_insert_eq];
      by destruct (list_to_map l !! k').
  - rewrite lookup_insert_ne by done. destruct (m !! k) eqn:E; [done|]. by rewrite lookup_insert_ne.
Qed.

Lemma emplace_map_to_list {V} (c : gmap string V) l :
  l ≡ₚ map_to_list c -> foldl (fun c e => RecordStore.emplace e.1 e.2 c) ∅ l = c.
Proof.
  intros Hp. rewrite emplace_foldl, (left_id_L ∅ (∪)). rewrite <- (list_to_map_to_list c).
  apply list_to_map_proper; [|done]. rewrite Hp. apply NoDup_fst_map_to_list.
Qed.

(** ** The table invariant *)

Section Table.
Context {R V : Type} `{!Inhabited R}.
Variables (count : nat) (idleF : R -> bool) (clearF : R -> R) (nameF : R -> string) (slot : V -> nat).
Hypothesis idleF_name : forall r, idleF r = bool_decide (nameF r = "").
Hypothesis clearF_name : forall r, nameF (clearF r) = "".

Record table_inv (a : list R) (idle : list nat) (c : gmap string V) : Prop := {
  table_slots : slots_inv count idleF a idle (slots_of slot c);
  table_names : forall n v, c !! n = Some v -> nameF (a !!! slot v) = n;
}.

Lemma clearF_idle r : idleF (clearF r) = true.
Proof. rewrite idleF_name, clearF_name. done. Qed.

Lemma table_live a idle c n v : table_inv a idle c -> c !! n = Some v -> slot v ∈ slots_of slot c.
Proof. intros _ H. apply elem_of_slots_of. eauto. Qed.

Lemma table_bound a idle c n v : table_inv a idle c -> c !! n = Some v -> slot v < length a.
Proof.
  intros H Hn. rewrite (slots_length _ _ _ _ _ (table_slots _ _ _ H)).
  eapply slots_bound; [apply (table_slots _ _ _ H)|]. right. by eapply table_live.
Qed.

Lemma table_name_nonempty a idle c n v : table_inv a idle c -> c !! n = Some v -> n <> "".
Proof.
  intros H Hn. pose proof (slots_live _ _ _ _ _ (table_slots _ _ _ H) _ (table_live _ _ _ _ _ H Hn)) as Hi.
  rewrite idleF_name, (table_names _ _ _ H _ _ Hn) in Hi. by apply bool_decide_eq_false in Hi.
Qed.

Lemma table_slot_inj a idle c n1 n2 v1 v2 :
  table_inv a idle c -> c !! n1 = Some v1 -> c !! n2 = Some v2 -> slot v1 = slot v2 -> n1 = n2.
Proof.
  intros H H1 H2 He. rewrite <- (table_names _ _ _ H _ _ H1), <- (table_names _ _ _ H _ _ H2). by rewrite He.
Qed.

(** Cached names and idle slots together fill the array. *)
Lemma table_size a idle c : table_inv a idle c -> length idle + size c = count.
Proof.
  intros H. pose proof (slots_partition _ _ _ _ _ (table_slots _ _ _ H)) as Hp.
  apply Permutation_length in Hp. rewrite length_app, length_seq in Hp. unfold slots_of in Hp.
  by rewrite length_fmap, length_map_to_list in Hp.
Qed.

(** A record written in the slot just taken, under a fresh name. *)
Lemma table_add a idle c n v r :
  table_inv a (idle ++ [slot v]) c -> c !! n = None -> nameF r = n -> n <> "" ->
  table_inv (<[slot v := r]> a) idle (<[n := v]> c) /\ (<[slot v := r]> a) !!! slot v = r /\
  (forall n' v', c !! n' = Some v' -> (<[slot v := r]> a) !!! slot v' = a !!! slot v').
Proof.
  intros [Hs Hn] Hf Hr Hne.
  assert (Hlt : slot v < length a).
  { rewrite (slots_length _ _ _ _ _ Hs). eapply slots_bound; eauto. left. apply elem_of_app. right.
    by apply list_elem_of_singleton. }
  assert (Hsame : forall n' v', c !! n' = Some v' -> (<[slot v := r]> a) !!! slot v' = a !!! slot v').
  { intros n' v' H'. apply list_lookup_total_insert_ne. intros He.
    eapply (slots_disjoint _ _ _ _ _ (slot v) Hs); [apply elem_of_app; right; by apply list_elem_of_singleton|].
    apply elem_of_slots_of. eauto. }
  split_and!; [split | by apply list_lookup_total_insert_eq | done].
  - eapply slots_permute; [apply slots_publish; [done|] | symmetry; by apply slots_of_insert].
    rewrite idleF_name, Hr. by apply bool_decide_eq_false.
  - intros n' v'. destruct (decide (n = n')) as [<-|Hnn].
    + rewrite lookup_insert_eq. intros [= <-]. by rewrite list_lookup_total_insert_eq.
    + rewrite lookup_insert_ne by done. intros H'. rewrite (Hsame _ _ H'). by apply Hn.
Qed.

(** The slot taken for a name that turns out to be in use is given back. *)
Lemma table_abandon a idle c i r :
  table_inv a (idle ++ [i]) c ->
  exists a', Release count clearF i (<[i := r]> a) idle = (a', idle ++ [i]) /\ table_inv a' (idle ++ [i]) c /\
    (forall n v, c !! n = Some v -> a' !!! slot v = a !!! slot v).
Proof.
  intros [Hs Hn]. destruct (Release_abandoned _ _ _ _ _ _ _ r Hs clearF_idle) as (a' & E & Hs' & Ho).
  assert (Hsame : forall n v, c !! n = Some v -> a' !!! slot v = a !!! slot v).
  { intros n v H. apply Ho. intros He. eapply (slots_disjoint _ _ _ _ _ i Hs);
      [apply elem_of_app; right; by apply list_elem_of_singleton|]. rewrite <- He. apply elem_of_slots_of. eauto. }
  exists a'. split_and!; [done | | done]. split; [done|]. intros n v H. rewrite (Hsame _ _ H). by apply Hn.
Qed.

Lemma table_del a idle c n v :
  table_inv a idle c -> c !! n = Some v ->
  exists a', Release count clearF (slot v) a idle = (a', idle ++ [slot v]) /\
    table_inv a' (idle ++ [slot v]) (delete n c) /\
    (forall n' v', delete n c !! n' = Some v' -> a' !!! slot v' = a !!! slot v').
Proof.
  intros H Hv. destruct (Release_spec count idleF clearF a idle (slots_of slot (delete n c)) (slot v))
    as (a' & E & Hs & Ho).
  { eapply slots_permute; [apply H|]. by apply slots_of_delete. }
  { apply clearF_idle. }
  assert (Hsame : forall n' v', delete n c !! n' = Some v' -> a' !!! slot v' = a !!! slot v').
  { intros n' v' [Hne Hv']%lookup_delete_Some. apply Ho. intros He. apply Hne.
    by eapply (table_slot_inj _ _ _ _ _ _ _ H). }
  exists a'. split_and!; [done | | done]. split; [done|]. intros n' v' Hv'. rewrite (Hsame _ _ Hv').
  apply lookup_delete_Some in Hv' as [_ Hv']. by apply H.
Qed.

(** An update of a live record that keeps its name. *)
Lemma table_update a idle c n v v' f :
  table_inv a idle c -> c !! n = Some v -> slot v' = slot v -> (forall r, nameF (f r) = nameF r) ->
  table_inv (alter f (slot v) a) idle (<[n := v']> c) /\ alter f (slot v) a !!! slot v = f (a !!! slot v) /\
  (forall n0 v0, n0 <> n -> c !! n0 = Some v0 -> alter f (slot v) a !!! slot v0 = a !!! slot v0).
Proof.
  intros H Hv Hsl Hf. pose proof (table_bound _ _ _ _ _ H Hv) as Hlt.
  assert (Heq : alter f (slot v) a !!! slot v = f (a !!! slot v)) by by apply list_lookup_total_alter_eq.
  assert (Hsame : forall n0 v0, n0 <> n -> c !! n0 = Some v0 -> alter f (slot v) a !!! slot v0 = a !!! slot v0).
  { intros n0 v0 Hne H0. apply list_lookup_total_alter_ne. intros He. apply Hne.
    by eapply (table_slot_inj _ _ _ _ _ _ _ H). }
  split_and!; [split | done | done].
  - eapply slots_permute; [|symmetry; by apply (slots_of_replace slot c n v v')].
    replace (alter f (slot v) a) with (<[slot v := f (a !!! slot v)]> a).
    + apply slots_update; [apply H | by eapply table_live |].
      rewrite idleF_name, Hf, (table_names _ _ _ H _ _ Hv). apply bool_decide_eq_false.
      by eapply table_name_nonempty.
    + apply list_eq. intros j. destruct (decide (j = slot v)) as [->|Hne].
      * rewrite list_lookup_insert_eq by done. rewrite list_lookup_alter_eq.
        by rewrite (list_lookup_lookup_total_lt a (slot v) Hlt).
      * by rewrite list_lookup_insert_ne, list_lookup_alter_ne by congruence.
  - intros n0 v0. destruct (decide (n0 = n)) as [->|Hne].
    + rewrite lookup_insert_eq. intros [= <-]. rewrite Hsl, Heq, Hf. by apply H.
    + rewrite lookup_insert_ne by congruence. intros H0. rewrite (Hsame _ _ Hne H0). by apply H.
Qed.

(** [Restore] followed by [emplace] of every live record rebuilds the cache. *)
Lemma table_restore a idle c (mk : nat -> option V) :
  table_inv a idle c -> (forall n v, c !! n = Some v -> mk (slot v) = Some v) ->
  exists live idle', Restore count idleF a [] = (live, idle') /\ idle' ≡ₚ idle /\ table_inv a idle' c /\
    foldl (fun m i => match mk i with Some v => RecordStore.emplace (nameF (a !!! i)) v m | None => m end) ∅ live = c.
Proof.
  intros H Hmk. destruct (Restore_spec _ _ _ _ _ (table_slots _ _ _ H)) as (live & idle' & E & Hl & Hi & Hs).
  exists live, idle'. split_and!; [done | done | |].
  - split; [|apply H]. by eapply slots_permute.
  - unfold slots_of in Hl. apply Permutation_map_inv in Hl as (l & -> & Hp).
    rewrite <- (emplace_map_to_list c l) by (by symmetry).
    assert (Hall : Forall (fun e => c !! e.1 = Some e.2) l).
    { apply Forall_forall. intros [k v] Hin. rewrite <- Hp in Hin. by apply elem_of_map_to_list in Hin. }
    clear Hp E Hs. generalize (∅ : gmap string V) as m.
    induction Hall as [|[k v] l Hkv Hall IH]; intros m; simpl in *; [done|].
    rewrite (Hmk _ _ Hkv), (table_names _ _ _ H _ _ Hkv). apply IH.
Qed.

End Table.

(** * Two-level indexes: the maps of maps of vectors in which the record store keeps
    the references, once by import and once by process. *)

Import RecordStore.

Section Index.
Context {K1 K2 V : Type} `{Countable K1, Countable K2, !Inhabited V}.
Implicit Types m : gmap K1 (gmap K2 (list V)).

(** The vector stored under two keys; empty when there is none. *)
Definition look2 m (k1 : K1) (k2 : K2) : list V := default [] (m !! k1 ≫= (fun inner => inner !! k2)).

(** No empty inner map and no empty vector is kept. *)
Definition wf2 m : Prop :=
  forall k1 inner, m !! k1 = Some inner -> inner <> ∅ /\ (forall k2 l, inner !! k2 = Some l -> l <> []).

(** The lengths of the vectors: what the listing operations report. *)
Definition lens m : gmap K1 (gmap K2 nat) := (fun inner : gmap K2 (list V) => length <$> inner) <$> m.

Lemma wf2_empty : wf2 ∅.
Proof. intros k1 inner. by rewrite lookup_empty. Qed.

Lemma look2_empty k1 k2 : look2 ∅ k1 k2 = [].
Proof. unfold look2. by rewrite lookup_empty. Qed.

Lemma look2_inner m k1 inner k2 : m !! k1 = Some inner -> look2 m k1 k2 = default [] (inner !! k2).
Proof. intros E. unfold look2. by rewrite E. Qed.

Lemma look2_none m k1 k2 : m !! k1 = None -> look2 m k1 k2 = [].
Proof. intros E. unfold look2. by rewrite E. Qed.

Lemma wf2_lookup m k1 : wf2 m -> is_Some (m !! k1) <-> exists k2, look2 m k1 k2 <> [].
Proof.
  intros Hwf. split.
  - intros [inner E]. destruct (Hwf _ _ E) as [Hne Hl].
    destruct (map_choose inner Hne) as (k2 & l & El). exists k2. rewrite (look2_inner _ _ _ _ E), El. simpl. eauto.
  - intros [k2 Hne]. destruct (m !! k1) eqn:E; [done|]. by rewrite look2_none in Hne.
Qed.

(** Setting the vector under two keys to a non-empty one. *)
Lemma wf2_set m k1 k2 l :
  wf2 m -> l <> [] -> wf2 (<[k1 := <[k2 := l]> (default ∅ (m !! k1))]> m).
Proof.
  intros Hwf Hl k inner. destruct (decide (k1 = k)) as [->|Hne].
  - rewrite lookup_insert_eq. intros [= <-]. split; [apply insert_non_empty|].
    intros k' l'. destruct (decide (k2 = k')) as [->|Hne'].
    + rewrite lookup_insert_eq. by intros [= <-].
    + rewrite lookup_insert_ne by done. destruct (m !! k) as [i|] eqn:E; simpl; [|by rewrite lookup_empty].
      by apply (Hwf _ _ E).
  - rewrite lookup_insert_ne by done. apply Hwf.
Qed.

Lemma look2_set m k1 k2 l k1' k2' :
  look2 (<[k1 := <[k2 := l]> (default ∅ (m !! k1))]> m) k1' k2' =
  if decide (k1 = k1' /\ k2 = k2') then l else look2 m k1' k2'.
Proof.
  unfold look2. destruct (decide (k1 = k1')) as [->|Hne].
  - rewrite lookup_insert_eq. simpl. destruct (decide (k2 = k2')) as [->|Hne'].
    + rewrite lookup_insert_eq. by rewrite decide_True.
    + rewrite lookup_insert_ne by done. rewrite decide_False by tauto. destruct (m !! k1'); done.
  - rewrite lookup_insert_ne by done. by rewrite decide_False by tauto.
Qed.

Lemma push2_wf2 m k1 k2 v : wf2 m -> wf2 (push2 k1 k2 v m).
Proof. intros Hwf. apply wf2_set; [done|]. intros E. by apply app_eq_nil in E as [_ ?]. Qed.

Lemma push2_look2 m k1 k2 v k1' k2' :
  look2 (push2 k1 k2 v m) k1' k2' =
  if decide (k1 = k1' /\ k2 = k2') then look2 m k1' k2' ++ [v] else look2 m k1' k2'.
Proof.
  unfold push2. rewrite look2_set. destruct (decide _) as [[-> ->]|]; [|done].
  unfold look2. by destruct (m !! k1').
Qed.

(** Replacing an inner map, which is dropped when it is empty. *)
Definition put_inner m (k1 : K1) (inner' : gmap K2 (list V)) : gmap K1 (gmap K2 (list V)) :=
  if decide (inner' = ∅) then delete k1 m else <[k1 := inner']> m.

Lemma put_inner_wf2 m k1 inner' :
  wf2 m -> (forall k2 l, inner' !! k2 = Some l -> l <> []) -> wf2 (put_inner m k1 inner').
Proof.
  intros Hwf Hi k inner. unfold put_inner. destruct (decide (inner' = ∅)) as [->|Hne].
  - rewrite lookup_delete_Some. intros [_ E]. exact (Hwf _ _ E).
  - destruct (decide (k1 = k)) as [->|Hk]; [rewrite lookup_insert_eq | rewrite lookup_insert_ne by done].
    + intros [= <-]. auto.
    + apply Hwf.
Qed.

Lemma put_inner_look2 m k1 inner' k1' k2' :
  look2 (put_inner m k1 inner') k1' k2' = if decide (k1 = k1') then default [] (inner' !! k2') else look2 m k1' k2'.
Proof.
  unfold put_inner, look2. destruct (decide (k1 = k1')) as [->|Hne].
  - destruct (decide (inner' = ∅)) as [->|]; [by rewrite lookup_delete_eq, lookup_empty | by rewrite lookup_insert_eq].
  - destruct (decide (inner' = ∅)) as [->|]; [by rewrite lookup_delete_ne | by rewrite lookup_insert_ne].
Qed.

Lemma EraseLast_spec (inner : gmap K2 (list V)) k2 :
  (forall k l, inner !! k = Some l -> l <> []) ->
  exists inner', EraseLastMultiValue inner k2 = (last (default [] (inner !! k2)), inner') /\
    (forall k l, inner' !! k = Some l -> l <> []) /\
    (forall k, default [] (inner' !! k) =
       if decide (k2 = k) then take (length (default [] (inner !! k)) - 1) (default [] (inner !! k))
       else default [] (inner !! k)).
Proof.
  intros Hne. unfold EraseLastMultiValue. destruct (inner !! k2) as [[|x l]|] eqn:E.
  - by apply Hne in E.
  - eexists. split; [f_equal|split].
    + simpl default. rewrite last_lookup.
      replace (pred (length (x :: l))) with (length (x :: l) - 1) by lia.
      symmetry. apply list_lookup_lookup_total_lt. simpl. lia.
    + intros k l'. destruct (decide _) as [_|Hl]; [rewrite lookup_delete_Some; intros [_ ?]; eauto|].
      destruct (decide (k2 = k)) as [<-|]; [rewrite lookup_insert_eq; by intros [= <-]|].
      rewrite lookup_insert_ne by done. eauto.
    + intros k. destruct (decide (k2 = k)) as [<-|Hk].
      * rewrite E. change (default [] (Some (x :: l))) with (x :: l).
        destruct (decide _) as [Hl|Hl]; [rewrite lookup_delete_eq; by rewrite Hl | by rewrite lookup_insert_eq].
      * destruct (decide _); [by rewrite lookup_delete_ne | by rewrite lookup_insert_ne].
  - eexists. split; [done|]. split; [done|]. intros k. destruct (decide (k2 = k)) as [<-|]; [by rewrite E | done].
Qed.

Lemma erase2_spec m k1 k2 :
  wf2 m ->
  exists m', erase2 m k1 k2 = (last (look2 m k1 k2), m') /\ wf2 m' /\
    (forall k1' k2', look2 m' k1' k2' =
       if decide (k1 = k1' /\ k2 = k2') then take (length (look2 m k1' k2') - 1) (look2 m k1' k2')
       else look2 m k1' k2').
Proof.
  intros Hwf. unfold erase2. destruct (m !! k1) as [inner|] eqn:E.
  - destruct (EraseLast_spec inner k2) as (inner' & Ee & Hne & Hl); [apply (Hwf _ _ E)|].
    rewrite Ee. eexists. split; [by rewrite (look2_inner _ _ _ _ E)|]. fold (put_inner m k1 inner').
    split; [by apply put_inner_wf2|]. intros k1' k2'. rewrite put_inner_look2.
    destruct (decide (k1 = k1')) as [<-|Hk].
    + rewrite Hl. rewrite (look2_inner _ _ _ _ E). destruct (decide (k2 = k2')) as [<-|];
        [by rewrite decide_True | by rewrite decide_False by tauto].
    + by rewrite decide_False by tauto.
  - exists m. split; [by rewrite look2_none|]. split; [done|]. intros k1' k2'.
    destruct (decide _) as [[<- <-]|]; [|done]. by rewrite !look2_none.
Qed.

(** Two indexes with vectors of the same lengths report the same counts. *)
Lemma lens_ext m m' :
  wf2 m -> wf2 m' -> (forall k1 k2, length (look2 m k1 k2) = length (look2 m' k1 k2)) -> lens m = lens m'.
Proof.
  intros Hwf Hwf' Hl. apply map_eq. intros k1. unfold lens. rewrite !lookup_fmap.
  assert (Hs : is_Some (m !! k1) <-> is_Some (m' !! k1)).
  { rewrite !wf2_lookup by done. split; intros [k2 Hk]; exists k2; intros E; apply Hk, length_zero_iff_nil;
      [rewrite Hl, E | rewrite <- Hl, E]; done. }
  destruct (m !! k1) as [inner|] eqn:E, (m' !! k1) as [inner'|] eqn:E'; simpl.
  - f_equal. apply map_eq. intros k2. rewrite !lookup_fmap. specialize (Hl k1 k2).
    rewrite (look2_inner _ _ _ _ E), (look2_inner _ _ _ _ E') in Hl.
    destruct (Hwf _ _ E) as [_ Hne]. destruct (Hwf' _ _ E') as [_ Hne'].
    destruct (inner !! k2) as [l|] eqn:F, (inner' !! k2) as [l'|] eqn:F'; simpl in *; try done.
    + by f_equal.
    + apply length_zero_iff_nil in Hl. by apply Hne in F.
    + symmetry in Hl. apply length_zero_iff_nil in Hl. by apply Hne' in F'.
  - destruct Hs as [Hs _]. by destruct Hs.
  - destruct Hs as [_ Hs]. by destruct Hs.
  - done.
Qed.

End Index.

(** [DelShmRefRecordsByPid] on the import index. *)

Lemma erase_pid_of_index_look2 pid (m : gmap nat (gmap Z (list nat))) idx :
  wf2 m -> wf2 (erase_pid_of_index pid m idx) /\
  (forall i p, look2 (erase_pid_of_index pid m idx) i p = if decide (i = idx /\ p = pid) then [] else look2 m i p).
Proof.
  intros Hwf.
  assert (Ep : erase_pid_of_index pid m idx = put_inner m idx (delete pid (default ∅ (m !! idx)))).
  { unfold erase_pid_of_index, put_inner. by repeat case_decide. }
  rewrite Ep. split.
  - apply put_inner_wf2; [done|]. intros k l [_ E]%lookup_delete_Some.
    destruct (m !! idx) as [inner|] eqn:Ei; simpl in E; [by apply (Hwf _ _ Ei) in E | by rewrite lookup_empty in E].
  - intros i p. rewrite put_inner_look2. destruct (decide (idx = i)) as [<-|Hi]; [|by rewrite decide_False by intuition auto].
    destruct (decide (p = pid)) as [->|Hp].
    + rewrite lookup_delete_eq. by rewrite decide_True.
    + rewrite lookup_delete_ne by done. rewrite decide_False by tauto. unfold look2. by destruct (m !! idx).
Qed.

Lemma erase_pid_foldl pid (l : list nat) (m : gmap nat (gmap Z (list nat))) :
  wf2 m -> wf2 (foldl (erase_pid_of_index pid) m l) /\
  (forall i p, look2 (foldl (erase_pid_of_index pid) m l) i p =
     if decide (i ∈ l /\ p = pid) then [] else look2 m i p).
Proof.
  revert m. induction l as [|x l IH]; intros m Hwf; cbn [foldl].
  - split; [done|]. intros i p. rewrite decide_False; [done|]. intros [Hi _]. by apply not_elem_of_nil in Hi.
  - destruct (erase_pid_of_index_look2 pid m x Hwf) as [Hwf' Hl]. destruct (IH _ Hwf') as [Hwf'' Hl'].
    split; [done|]. intros i p. rewrite Hl', Hl. pose proof (elem_of_cons l i x).
    clear Hl Hl' IH Hwf' Hwf''. repeat destruct (decide _); try done; exfalso; tauto.
Qed.
