(* ===== verification/StoreInv.v ===== *)
(** The representation invariant of the record store and the lemmas on the parts
    it is made of: which pool lists the records own, and the reference indexes. *)

From S2P Require Import Prelude StoreTypes IdPool IdPoolSpec RecordAllocator RecordStore StoreTable.
Import RecordStore.

(** ** Ownership of pool lists

    A record with [memIdCount != 0] owns the pool list at [memIdBuffer]. *)

Definition lease_head (a : list MemLeaseRecord) (i : nat) : option nat :=
  if Z.eqb (ml_memIdCount (a !!! i)) 0 then None else Some (ml_memIdBuffer (a !!! i)).

Definition import_head (a : list MemShareImportRecord) (i : nat) : option nat :=
  if Z.eqb (si_memIdCount (a !!! i)) 0 then None else Some (si_memIdBuffer (a !!! i)).

Section Own.
Context {G : Geometry}.
Implicit Types (A : gmap nat (list nat * list Z)) (hd : nat -> option nat) (c : gmap string (nat * list Z)).

(** [h] is the head owned by some cached record. *)
Definition heads hd c (h : nat) : Prop := exists n i ids, c !! n = Some (i, ids) /\ hd i = Some h.

Record own A hd c : Prop := {
  own_ids : forall n i ids, c !! n = Some (i, ids) ->
    match hd i with None => ids = [] | Some h => exists lines, A !! h = Some (lines, ids) end;
  own_inj : forall n1 n2 i1 i2 ids1 ids2 h,
    c !! n1 = Some (i1, ids1) -> c !! n2 = Some (i2, ids2) -> hd i1 = Some h -> hd i2 = Some h -> n1 = n2;
}.

Lemma heads_alloc A hd c h : own A hd c -> heads hd c h -> is_Some (A !! h).
Proof. intros H (n & i & ids & E & Eh). pose proof (own_ids _ _ _ H _ _ _ E) as Hi. rewrite Eh in Hi.
  destruct Hi as [lines Hi]. eauto. Qed.

(** The records are unchanged on the cached slots. *)
Lemma own_ext A hd hd' c :
  own A hd c -> (forall n i ids, c !! n = Some (i, ids) -> hd' i = hd i) -> own A hd' c.
Proof.
  intros H He. split.
  - intros n i ids E. rewrite (He _ _ _ E). by apply (own_ids _ _ _ H n).
  - intros n1 n2 i1 i2 ids1 ids2 h E1 E2. rewrite (He _ _ _ E1), (He _ _ _ E2). by apply (own_inj _ _ _ H n1 n2 i1 i2 ids1 ids2).
Qed.

Lemma heads_ext hd hd' c h :
  (forall n i ids, c !! n = Some (i, ids) -> hd' i = hd i) -> heads hd' c h <-> heads hd c h.
Proof.
  intros He. split; intros (n & i & ids & E & Eh); exists n, i, ids; split; try done.
  - by rewrite <- (He _ _ _ E).
  - by rewrite (He _ _ _ E).
Qed.

(** A new record owns nothing. *)
Lemma own_add A hd hd' c n i :
  own A hd c -> c !! n = None -> hd' i = None -> (forall n i ids, c !! n = Some (i, ids) -> hd' i = hd i) ->
  own A hd' (<[n := (i, [])]> c) /\ (forall h, heads hd' (<[n := (i, [])]> c) h <-> heads hd c h).
Proof.
  intros H Hn Hi He. pose proof (own_ext _ _ _ _ H He) as H'. split.
  - split.
    + intros n0 i0 ids0 E. destruct (decide (n = n0)) as [<-|Hne].
      * rewrite lookup_insert_eq in E. injection E as <- <-. by rewrite Hi.
      * rewrite lookup_insert_ne in E by done. by apply (own_ids _ _ _ H' n0).
    + intros n1 n2 i1 i2 ids1 ids2 h E1 E2 F1 F2.
      rewrite lookup_insert_Some in E1, E2. destruct E1 as [[<- E1]|[_ E1]]; [by simplify_eq|].
      destruct E2 as [[<- E2]|[_ E2]]; [by simplify_eq|]. by eapply (own_inj _ _ _ H').
  - intros h. rewrite <- (heads_ext hd hd' c h He). split; intros (n0 & i0 & ids0 & E & Eh).
    + rewrite lookup_insert_Some in E. destruct E as [[<- E]|[_ E]]; [by simplify_eq|]. by exists n0, i0, ids0.
    + exists n0, i0, ids0. rewrite lookup_insert_ne; [done|]. intros ->. by rewrite Hn in E.
Qed.

(** A record takes a freshly allocated list. *)
Lemma own_set A hd hd' c n i ids0 h lines ids :
  own A hd c -> c !! n = Some (i, ids0) -> A !! h = None -> hd' i = Some h ->
  (forall n' i' ids', n' <> n -> c !! n' = Some (i', ids') -> hd' i' = hd i') ->
  own (<[h := (lines, ids)]> A) hd' (<[n := (i, ids)]> c) /\
  (forall h', heads hd' (<[n := (i, ids)]> c) h' -> h' = h \/ heads hd c h').
Proof.
  intros H Hn Hh Hi He. assert (Hfresh : forall n' i' ids', c !! n' = Some (i', ids') -> hd i' <> Some h).
  { intros n' i' ids' E Eh. pose proof (own_ids _ _ _ H _ _ _ E) as Hx. rewrite Eh in Hx.
    destruct Hx as [l Hx]. congruence. }
  split; [split|].
  - intros n' i' ids' E. destruct (decide (n = n')) as [<-|Hne].
    + rewrite lookup_insert_eq in E. injection E as <- <-. rewrite Hi. exists lines. apply lookup_insert_eq.
    + rewrite lookup_insert_ne in E by done. rewrite (He n' i' ids') by done.
      pose proof (own_ids _ _ _ H _ _ _ E) as Hx. destruct (hd i') as [h'|] eqn:Eh; [|done].
      destruct Hx as [l Hx]. exists l. rewrite lookup_insert_ne; [done|]. intros ->. by eapply Hfresh.
  - intros n1 n2 i1 i2 ids1 ids2 h' E1 E2 F1 F2. rewrite lookup_insert_Some in E1, E2.
    destruct E1 as [[<- E1]|[N1 E1]], E2 as [[<- E2]|[N2 E2]]; simplify_eq; try done.
    + rewrite (He n2 i2 ids2) in F2 by done. exfalso. by eapply Hfresh.
    + rewrite (He n1 i1 ids1) in F1 by done. exfalso. by eapply Hfresh.
    + rewrite (He n1 i1 ids1) in F1 by done. rewrite (He n2 i2 ids2) in F2 by done. by eapply (own_inj _ _ _ H).
  - intros h' (n' & i' & ids' & E & Eh). rewrite lookup_insert_Some in E. destruct E as [[<- E]|[N E]].
    + left. simplify_eq. congruence.
    + right. exists n', i', ids'. split; [done|]. by rewrite (He n' i' ids') in Eh by done.
Qed.

(** The other table does not notice a fresh list. *)
Lemma own_pool_insert A hd c h x : own A hd c -> A !! h = None -> own (<[h := x]> A) hd c.
Proof.
  intros H Hh. split; [|apply (own_inj _ _ _ H)]. intros n i ids E. pose proof (own_ids _ _ _ H _ _ _ E) as Hx.
  destruct (hd i) as [h'|]; [|done]. destruct Hx as [l Hx]. exists l. rewrite lookup_insert_ne; [done|]. congruence.
Qed.

(** Deleting a record and the list it owns. *)
Lemma own_del A hd hd' c n i ids :
  own A hd c -> c !! n = Some (i, ids) ->
  (forall n' i' ids', delete n c !! n' = Some (i', ids') -> hd' i' = hd i') ->
  own (match hd i with Some h => delete h A | None => A end) hd' (delete n c) /\
  (forall h, heads hd' (delete n c) h <-> heads hd c h /\ hd i <> Some h).
Proof.
  intros H Hn He. split; [split|].
  - intros n' i' ids' E. rewrite (He _ _ _ E). apply lookup_delete_Some in E as [Hne E].
    pose proof (own_ids _ _ _ H _ _ _ E) as Hx. destruct (hd i') as [h'|] eqn:Eh'; [|done].
    destruct Hx as [l Hx]. exists l. destruct (hd i) as [h|] eqn:Eh; [|done].
    rewrite lookup_delete_ne; [done|]. intros ->. apply Hne. eapply (own_inj _ _ _ H); eauto.
  - intros n1 n2 i1 i2 ids1 ids2 h E1 E2. rewrite (He _ _ _ E1), (He _ _ _ E2).
    apply lookup_delete_Some in E1 as [_ E1]. apply lookup_delete_Some in E2 as [_ E2]. by eapply (own_inj _ _ _ H).
  - intros h. split.
    + intros (n' & i' & ids' & E & Eh). rewrite (He _ _ _ E) in Eh. apply lookup_delete_Some in E as [Hne E].
      split; [by exists n', i', ids'|]. intros Eh'. apply Hne. eapply (own_inj _ _ _ H); eauto.
    + intros [(n' & i' & ids' & E & Eh) Hx]. assert (n' <> n) by congruence.
      assert (E' : delete n c !! n' = Some (i', ids')) by (by rewrite lookup_delete_ne).
      exists n', i', ids'. split; [done|]. by rewrite (He _ _ _ E').
Qed.

Lemma own_pool_delete A hd c h : own A hd c -> ~ heads hd c h -> own (delete h A) hd c.
Proof.
  intros H Hh. split; [|apply (own_inj _ _ _ H)]. intros n i ids E. pose proof (own_ids _ _ _ H _ _ _ E) as Hx.
  destruct (hd i) as [h'|] eqn:Eh; [|done]. destruct Hx as [l Hx]. exists l.
  rewrite lookup_delete_ne; [done|]. intros ->. apply Hh. by exists n, i, ids.
Qed.

(** *** Two tables over one pool *)

Record own2 A hd c hd2 c2 : Prop := {
  own2_l : own A hd c;
  own2_r : own A hd2 c2;
  own2_disj : forall h, heads hd c h -> ~ heads hd2 c2 h;
}.

(** Every list of the pool has an owner. *)
Definition owned A hd c hd2 c2 : Prop := forall h, is_Some (A !! h) -> heads hd c h \/ heads hd2 c2 h.

Lemma own2_sym A hd c hd2 c2 : own2 A hd c hd2 c2 -> own2 A hd2 c2 hd c.
Proof. intros [H1 H2 H3]. split; [done | done |]. intros h Hh Hh'. by eapply H3. Qed.

Lemma owned_sym A hd c hd2 c2 : owned A hd c hd2 c2 -> owned A hd2 c2 hd c.
Proof. intros H h Hh. destruct (H h Hh); auto. Qed.

(** The heads of the first table are unchanged. *)
Lemma own2_heads A hd c hd2 c2 hd' c' :
  own2 A hd c hd2 c2 -> own A hd' c' -> (forall h, heads hd' c' h <-> heads hd c h) ->
  own2 A hd' c' hd2 c2 /\ (owned A hd c hd2 c2 -> owned A hd' c' hd2 c2).
Proof.
  intros [H1 H2 H3] Ho Hh. split; [split; try done|].
  - intros h. rewrite Hh. apply H3.
  - intros Hx h Hs. rewrite Hh. by apply Hx.
Qed.

Lemma own2_ext A hd c hd2 c2 hd' :
  own2 A hd c hd2 c2 -> (forall n i ids, c !! n = Some (i, ids) -> hd' i = hd i) ->
  own2 A hd' c hd2 c2 /\ (owned A hd c hd2 c2 -> owned A hd' c hd2 c2).
Proof.
  intros H He. apply own2_heads with (hd := hd); [done | by eapply own_ext; [apply H|] |]. intros h. by apply heads_ext.
Qed.

Lemma own2_add A hd c hd2 c2 hd' n i :
  own2 A hd c hd2 c2 -> c !! n = None -> hd' i = None -> (forall n i ids, c !! n = Some (i, ids) -> hd' i = hd i) ->
  own2 A hd' (<[n := (i, [])]> c) hd2 c2 /\ (owned A hd c hd2 c2 -> owned A hd' (<[n := (i, [])]> c) hd2 c2).
Proof.
  intros H Hn Hi He. destruct (own_add A hd hd' c n i (own2_l _ _ _ _ _ H) Hn Hi He) as [Ho Hh].
  by apply own2_heads with (hd := hd) (c := c).
Qed.

(** A record takes a fresh list; nothing is lost when it had none before. *)
Lemma own2_set A hd c hd2 c2 hd' n i ids0 h lines ids :
  own2 A hd c hd2 c2 -> c !! n = Some (i, ids0) -> A !! h = None -> hd' i = Some h ->
  (forall n' i' ids', n' <> n -> c !! n' = Some (i', ids') -> hd' i' = hd i') ->
  own2 (<[h := (lines, ids)]> A) hd' (<[n := (i, ids)]> c) hd2 c2 /\
  (hd i = None -> owned A hd c hd2 c2 -> owned (<[h := (lines, ids)]> A) hd' (<[n := (i, ids)]> c) hd2 c2).
Proof.
  intros [H1 H2 H3] Hn Hh Hi He. destruct (own_set A hd hd' c n i ids0 h lines ids H1 Hn Hh Hi He) as [Ho Hhd].
  split; [split; [done | by apply own_pool_insert |]|].
  - intros h' [-> |Hx]%Hhd; [|by apply H3]. intros (x & E)%(heads_alloc _ _ _ _ H2). congruence.
  - intros Hnone Hx h' Hs. destruct (decide (h = h')) as [<-|Hne].
    + left. exists n, i, ids. by rewrite lookup_insert_eq.
    + rewrite lookup_insert_ne in Hs by done. destruct (Hx h' Hs) as [(n' & i' & ids' & E & Eh)|]; [left | by right].
      assert (n' <> n) by congruence. exists n', i', ids'. rewrite lookup_insert_ne by done. by rewrite (He n' i' ids').
Qed.

(** A record goes together with the list it owns. *)
Lemma own2_del A hd c hd2 c2 hd' n i ids :
  own2 A hd c hd2 c2 -> c !! n = Some (i, ids) ->
  (forall n' i' ids', delete n c !! n' = Some (i', ids') -> hd' i' = hd i') ->
  let A' := match hd i with Some h => delete h A | None => A end in
  own2 A' hd' (delete n c) hd2 c2 /\ (owned A hd c hd2 c2 -> owned A' hd' (delete n c) hd2 c2).
Proof.
  intros [H1 H2 H3] Hn He. destruct (own_del A hd hd' c n i ids H1 Hn He) as [Ho Hhd].
  split; [split; [done | |]|].
  - destruct (hd i) as [h|] eqn:Eh; [|done]. apply own_pool_delete; [done|]. apply H3. by exists n, i, ids.
  - intros h' [Hx _]%Hhd. by apply H3.
  - intros Hx h' Hs. rewrite Hhd. destruct (hd i) as [h|] eqn:Eh.
    + apply lookup_delete_is_Some in Hs as [Hne Hs]. destruct (Hx h' Hs); [left; split; [done | congruence] | by right].
    + destruct (Hx h' Hs); [by left | by right].
Qed.

End Own.

(** ** References *)

Section Refs.
Context {G : Geometry}.
Implicit Types (a : list MemShareRefRecord) (ci : gmap nat (gmap Z (list nat))) (cp : gmap Z (gmap nat (list nat)))
  (c : gmap string (nat * list Z)).

Definition pid_range (pid : Z) : Prop := (- 2 ^ 31 <= pid < 2 ^ 31)%Z.

Record refs_inv a (idle : list nat) ci cp c : Prop := {
  refs_slots : exists live, BaseRecordAllocator.slots_inv SHM_MAX_REFERENCE_RECORD MemShareRefIdle a idle live /\
    (forall r, r ∈ live <-> exists i p, r ∈ look2 ci i p);
  refs_wf_idx : wf2 ci;
  refs_wf_pid : wf2 cp;
  refs_agree : forall i p, look2 cp p i = look2 ci i p;
  refs_nodup : forall i p, NoDup (look2 ci i p);
  refs_content : forall i p r, r ∈ look2 ci i p -> a !!! r = mkMemShareRefRecord (u32 p) i /\ pid_range p;
  refs_target : forall i p, look2 ci i p <> [] -> exists n ids, c !! n = Some (i, ids);
}.

Lemma s32_u32_id p : pid_range p -> s32 (u32 p) = p.
Proof. intros Hp. rewrite s32_u32. by apply s32_small. Qed.

(** A slot is listed under one import and one process only. *)
Lemma refs_unique a idle ci cp c i p i' p' r :
  refs_inv a idle ci cp c -> r ∈ look2 ci i p -> r ∈ look2 ci i' p' -> i = i' /\ p = p'.
Proof.
  intros H H1 H2. destruct (refs_content _ _ _ _ _ H _ _ _ H1) as [E1 R1].
  destruct (refs_content _ _ _ _ _ H _ _ _ H2) as [E2 R2]. rewrite E1 in E2. injection E2 as E2 ->.
  split; [done|]. rewrite <- (s32_u32_id p R1), <- (s32_u32_id p' R2). by rewrite E2.
Qed.

(** The imports may change as long as the referenced slots stay cached. *)
Lemma refs_import a idle ci cp c c' :
  refs_inv a idle ci cp c ->
  (forall i p, look2 ci i p <> [] -> (exists n ids, c !! n = Some (i, ids)) -> exists n ids, c' !! n = Some (i, ids)) ->
  refs_inv a idle ci cp c'.
Proof. intros [H1 H2 H3 H4 H5 H6 H7] Hc. split; eauto. Qed.

Lemma refs_add a idle ci cp c r pid index n ids :
  refs_inv a (idle ++ [r]) ci cp c -> c !! n = Some (index, ids) -> pid <> 0%Z -> pid_range pid ->
  refs_inv (<[r := mkMemShareRefRecord (u32 pid) index]> a) idle (push2 index pid r ci) (push2 pid index r cp) c.
Proof.
  intros H Hn Hp Hr. destruct (refs_slots _ _ _ _ _ H) as (live & Hs & Hl).
  assert (Hnl : r ∉ live).
  { eapply BaseRecordAllocator.slots_disjoint; [done|]. apply elem_of_app. right. by apply list_elem_of_singleton. }
  assert (Hlt : r < length a).
  { rewrite (BaseRecordAllocator.slots_length _ _ _ _ _ Hs). eapply BaseRecordAllocator.slots_bound; [done|].
    left. apply elem_of_app. right. by apply list_elem_of_singleton. }
  assert (Hnot : forall i p, r ∉ look2 ci i p) by (intros i p Hin; apply Hnl, Hl; eauto).
  split.
  - exists (r :: live). split.
    + apply BaseRecordAllocator.slots_publish; [done|]. apply bool_decide_eq_false. simpl. intros E.
      apply Hp. rewrite <- (s32_u32_id pid Hr), E. done.
    + intros r'. rewrite elem_of_cons, Hl. setoid_rewrite push2_look2. split.
      * intros [->|(i & p & Hin)]; [exists index, pid | exists i, p].
        -- rewrite decide_True by done. apply elem_of_app. right. by apply list_elem_of_singleton.
        -- destruct (decide _); [apply elem_of_app; by left | done].
      * intros (i & p & Hin). destruct (decide _); [|eauto].
        apply elem_of_app in Hin as [Hin|Hin%list_elem_of_singleton]; eauto.
  - apply push2_wf2, H.
  - apply push2_wf2, H.
  - intros i p. rewrite !push2_look2, (refs_agree _ _ _ _ _ H). repeat destruct (decide _); tauto.
  - intros i p. rewrite push2_look2. destruct (decide _) as [[<- <-]|]; [|apply H].
    apply NoDup_app. split_and!; [apply H | | apply NoDup_singleton].
    intros x Hx ->%list_elem_of_singleton. by eapply Hnot.
  - intros i p r'. rewrite push2_look2. destruct (decide _) as [[<- <-]|].
    + intros [Hin| ->%list_elem_of_singleton]%elem_of_app.
      * rewrite list_lookup_total_insert_ne; [by apply (refs_content _ _ _ _ _ H)|]. intros ->. by eapply Hnot.
      * by rewrite list_lookup_total_insert_eq.
    + intros Hin. rewrite list_lookup_total_insert_ne; [by apply (refs_content _ _ _ _ _ H)|]. intros ->. by eapply Hnot.
  - intros i p. rewrite push2_look2. destruct (decide _) as [[<- <-]|]; [by eauto | apply H].
Qed.

(** Slots removed from both indexes and released, one after the other. *)
Lemma release_many a idle live rs :
  BaseRecordAllocator.slots_inv SHM_MAX_REFERENCE_RECORD MemShareRefIdle a idle (rs ++ live) ->
  exists a', foldl (fun '(a, idle) r => BaseRecordAllocator.Release SHM_MAX_REFERENCE_RECORD ClearMemShareRef r a idle)
               (a, idle) rs = (a', idle ++ rs) /\
    BaseRecordAllocator.slots_inv SHM_MAX_REFERENCE_RECORD MemShareRefIdle a' (idle ++ rs) live /\
    (forall j, j ∉ rs -> a' !!! j = a !!! j).
Proof.
  revert a idle. induction rs as [|r rs IH]; intros a idle H; cbn [foldl].
  - exists a. rewrite app_nil_r. done.
  - destruct (BaseRecordAllocator.Release_spec _ _ ClearMemShareRef _ _ _ _ H) as (a1 & E1 & H1 & O1); [done|].
    rewrite E1. destruct (IH _ _ H1) as (a2 & E2 & H2 & O2). exists a2.
    rewrite <- app_assoc in E2, H2. split_and!; [done | done |].
    intros j [Hj Hjs]%not_elem_of_cons. rewrite O2, O1 by done. done.
Qed.

(** What removing slots [rs] from the indexes, releasing them, gives. *)
Lemma refs_remove a idle ci cp c rs ci' cp' :
  refs_inv a idle ci cp c -> wf2 ci' -> wf2 cp' -> NoDup rs ->
  (forall r, r ∈ rs -> exists i p, r ∈ look2 ci i p) ->
  (forall i p, look2 cp' p i = look2 ci' i p) ->
  (forall i p, look2 ci' i p `sublist_of` look2 ci i p) ->
  (forall i p r, r ∈ look2 ci i p -> (r ∈ look2 ci' i p <-> r ∉ rs)) ->
  exists a', foldl (fun '(a, idle) r => BaseRecordAllocator.Release SHM_MAX_REFERENCE_RECORD ClearMemShareRef r a idle)
               (a, idle) rs = (a', idle ++ rs) /\ refs_inv a' (idle ++ rs) ci' cp' c.
Proof.
  intros H Hwi Hwp Hnd Hrs Hag Hsub Hkeep. destruct (refs_slots _ _ _ _ _ H) as (live & Hs & Hl).
  assert (Hpart : live ≡ₚ rs ++ List.filter (fun r => bool_decide (r ∉ rs)) live).
  { apply NoDup_Permutation.
    - by pose proof (BaseRecordAllocator.slots_nodup _ _ _ _ _ Hs) as (_ & _ & ?)%NoDup_app.
    - apply NoDup_app. split_and!; [done | |].
      + intros x Hx. rewrite list_elem_of_In, filter_In, bool_decide_eq_true. tauto.
      + apply NoDup_ListNoDup, List.NoDup_filter, NoDup_ListNoDup.
        by pose proof (BaseRecordAllocator.slots_nodup _ _ _ _ _ Hs) as (_ & _ & ?)%NoDup_app.
    - intros x. rewrite elem_of_app, (list_elem_of_In (List.filter _ _)), filter_In, bool_decide_eq_true, <- list_elem_of_In.
      split; [intros; destruct (decide (x ∈ rs)); auto | intros [Hx|[? _]]; [by apply Hl, Hrs | done]]. }
  destruct (release_many a idle (List.filter (fun r => bool_decide (r ∉ rs)) live) rs) as (a' & E & Hs' & Ho).
  { eapply BaseRecordAllocator.slots_permute; eauto. }
  exists a'. split; [done|]. split; [| done | done | done | | |].
  - eexists. split; [done|]. intros r. rewrite list_elem_of_In, filter_In, bool_decide_eq_true, <- list_elem_of_In, Hl.
    split.
    + intros [(i & p & Hin) Hr]. exists i, p. by apply (Hkeep i p r).
    + intros (i & p & Hin). pose proof (elem_of_sublist _ _ _ Hin (Hsub i p)) as Hin'.
      split; [eauto|]. by apply (Hkeep i p r).
  - intros i p. eapply sublist_NoDup; [apply H | apply Hsub].
  - intros i p r Hin. pose proof (elem_of_sublist _ _ _ Hin (Hsub i p)) as Hin'.
    rewrite Ho; [by apply (refs_content _ _ _ _ _ H)|]. by apply (Hkeep i p r).
  - intros i p Hne. apply (refs_target _ _ _ _ _ H i p). intros E0. apply Hne.
    pose proof (Hsub i p) as Hsb. rewrite E0 in Hsb. by apply sublist_nil_r in Hsb.
Qed.

(** [DelShmRefRecord]: both indexes drop the last slot of the same vector. *)
Lemma refs_del a idle ci cp c pid index :
  refs_inv a idle ci cp c ->
  exists ci' cp', erase2 ci index pid = (last (look2 ci index pid), ci') /\
    erase2 cp pid index = (last (look2 ci index pid), cp') /\
    match last (look2 ci index pid) with
    | None => refs_inv a idle ci' cp' c /\ (forall i p, look2 ci' i p = look2 ci i p)
    | Some r =>
        exists a', BaseRecordAllocator.Release SHM_MAX_REFERENCE_RECORD ClearMemShareRef r a idle = (a', idle ++ [r]) /\
          refs_inv a' (idle ++ [r]) ci' cp' c
    end /\
    (forall i p, look2 ci' i p =
       if decide (index = i /\ pid = p) then take (length (look2 ci i p) - 1) (look2 ci i p) else look2 ci i p).
Proof.
  intros H. destruct (erase2_spec ci index pid (refs_wf_idx _ _ _ _ _ H)) as (ci' & Ei & Hwi & Hli).
  destruct (erase2_spec cp pid index (refs_wf_pid _ _ _ _ _ H)) as (cp' & Ep & Hwp & Hlp).
  rewrite (refs_agree _ _ _ _ _ H) in Ep. exists ci', cp'. split_and!; [done | done | | done].
  assert (Hag : forall i p, look2 cp' p i = look2 ci' i p).
  { intros i p. rewrite Hlp, Hli, (refs_agree _ _ _ _ _ H). repeat destruct (decide _); tauto. }
  assert (Hsub : forall i p, look2 ci' i p `sublist_of` look2 ci i p).
  { intros i p. rewrite Hli. destruct (decide _); [apply sublist_take | done]. }
  destruct (last (look2 ci index pid)) as [r|] eqn:El.
  - apply last_Some in El as [l El].
    destruct (refs_remove a idle ci cp c [r] ci' cp' H Hwi Hwp) as (a' & Er & Hr); auto.
    + apply NoDup_singleton.
    + intros r' ->%list_elem_of_singleton. exists index, pid. rewrite El. apply elem_of_app. right.
      by apply list_elem_of_singleton.
    + intros i p r' Hin. rewrite Hli, list_elem_of_singleton. destruct (decide _) as [[<- <-]|Hne].
      * rewrite El in *. rewrite length_app, Nat.add_sub, take_app_length.
        pose proof (refs_nodup _ _ _ _ _ H index pid) as Hnd. rewrite El in Hnd.
        split; [intros Hl ->; eapply (NoDup_app_disjoint _ _ r Hnd); [done | by apply list_elem_of_singleton]|].
        intros Hr'. by apply elem_of_app in Hin as [?|?%list_elem_of_singleton].
      * split; [|done]. intros _ ->. apply Hne. eapply (refs_unique _ _ _ _ _ _ _ _ _ r H); [|done].
        rewrite El. apply elem_of_app. right. by apply list_elem_of_singleton.
    + exists a'. cbn [foldl] in Er. done.
  - apply last_None in El. assert (Hsame : forall i p, look2 ci' i p = look2 ci i p).
    { intros i p. rewrite Hli. destruct (decide _) as [[<- <-]|]; [by rewrite El | done]. }
    split; [|done]. destruct H as [H1 H2 H3 H4 H5 H6 H7]. split; try done.
    + destruct H1 as (live & Hs & Hl). exists live. split; [done|]. intros r. rewrite Hl. by setoid_rewrite Hsame.
    + intros i p. by rewrite Hsame.
    + intros i p r. rewrite Hsame. apply H6.
    + intros i p. rewrite Hsame. apply H7.
Qed.

(** The vectors of one process have no slot in common. *)
Lemma refs_pid_nodup a idle ci cp c pid inner :
  refs_inv a idle ci cp c -> cp !! pid = Some inner -> NoDup (concat (map_to_list inner).*2).
Proof.
  intros H Hin.
  assert (Hall : forall i l, (i, l) ∈ map_to_list inner -> l = look2 ci i pid).
  { intros i l Hel%elem_of_map_to_list. rewrite <- (refs_agree _ _ _ _ _ H), (look2_inner _ _ _ _ Hin). by rewrite Hel. }
  pose proof (NoDup_fst_map_to_list inner) as Hnd. revert Hall Hnd. generalize (map_to_list inner) as l.
  induction l as [|[i v] l IH]; intros Hall Hnd; simpl; [constructor|].
  rewrite fmap_cons, NoDup_cons in Hnd. destruct Hnd as [Hni Hnd]. simpl in Hni.
  assert (Hv : v = look2 ci i pid) by (apply Hall; apply elem_of_cons; by left).
  apply NoDup_app. split_and!; [rewrite Hv; apply H | | apply IH; [|done]; intros; apply Hall; apply elem_of_cons; by right].
  intros r Hr (w & Hw & Hrw)%list_elem_of_In%in_concat. apply list_elem_of_In in Hw.
  apply list_elem_of_fmap in Hw as ([j w'] & -> & Hj). apply Hni. apply list_elem_of_fmap. exists (j, w'). split; [|done].
  simpl. rewrite (Hall j w') in Hrw by (apply elem_of_cons; by right). rewrite Hv in Hr.
  apply list_elem_of_In in Hrw. by destruct (refs_unique _ _ _ _ _ _ _ _ _ r H Hr Hrw).
Qed.

(** [DelShmRefRecordsByPid]: every slot of the process goes, and only those. *)
Lemma refs_del_pid a idle ci cp c pid inner :
  refs_inv a idle ci cp c -> cp !! pid = Some inner ->
  let ci' := foldl (erase_pid_of_index pid) ci (map_to_list inner).*1 in
  let rs := concat (map_to_list inner).*2 in
  exists a', foldl (fun '(a, idle) r => BaseRecordAllocator.Release SHM_MAX_REFERENCE_RECORD ClearMemShareRef r a idle)
               (a, idle) rs = (a', idle ++ rs) /\ refs_inv a' (idle ++ rs) ci' (delete pid cp) c /\ NoDup rs /\
    (forall r, r ∈ rs <-> exists i, r ∈ look2 ci i pid) /\
    (forall i p, look2 ci' i p = if decide (p = pid) then [] else look2 ci i p).
Proof.
  intros H Hin ci' rs.
  destruct (erase_pid_foldl pid (map_to_list inner).*1 ci (refs_wf_idx _ _ _ _ _ H)) as [Hwi Hli].
  assert (Hinner : forall i, default [] (inner !! i) = look2 ci i pid).
  { intros i. rewrite <- (refs_agree _ _ _ _ _ H). by rewrite (look2_inner _ _ _ _ Hin). }
  assert (Hlook : forall i p, look2 ci' i p = if decide (p = pid) then [] else look2 ci i p).
  { intros i p. unfold ci'. rewrite Hli. destruct (decide (p = pid)) as [->|Hp]; [|by rewrite decide_False by tauto].
    destruct (decide _) as [|Hni]; [done|]. rewrite <- Hinner. destruct (inner !! i) as [l|] eqn:Ei; [|done].
    exfalso. apply Hni. split; [|done]. apply list_elem_of_fmap. exists (i, l). split; [done|]. by apply elem_of_map_to_list. }
  assert (Hrs : forall r, r ∈ rs <-> exists i, r ∈ look2 ci i pid).
  { intros r. unfold rs. rewrite list_elem_of_In, in_concat. setoid_rewrite <- list_elem_of_In. split.
    - intros (l & ([i l'] & -> & Hel%elem_of_map_to_list)%list_elem_of_fmap & Hr). exists i. rewrite <- Hinner, Hel. done.
    - intros (i & Hr). rewrite <- Hinner in Hr. destruct (inner !! i) as [l|] eqn:Ei; [|by apply not_elem_of_nil in Hr].
      exists l. split; [|done]. apply list_elem_of_fmap. exists (i, l). split; [done|]. by apply elem_of_map_to_list. }
  destruct (refs_remove a idle ci cp c rs ci' (delete pid cp) H Hwi) as (a' & E & Hr).
  - intros k i Hk. apply lookup_delete_Some in Hk as [_ Hk]. exact (refs_wf_pid _ _ _ _ _ H _ _ Hk).
  - apply refs_pid_nodup with (1 := H) (2 := Hin).
  - intros r (i & Hi)%Hrs. eauto.
  - intros i p. rewrite Hlook. destruct (decide (p = pid)) as [->|Hp].
    + apply look2_none, lookup_delete_eq.
    + rewrite <- (refs_agree _ _ _ _ _ H). unfold look2. by rewrite lookup_delete_ne.
  - intros i p. rewrite Hlook. destruct (decide _); [apply sublist_nil_l | done].
  - intros i p r Hrin. rewrite Hlook, Hrs. destruct (decide (p = pid)) as [->|Hp].
    + split; [by intros ?%not_elem_of_nil|]. intros Hno. exfalso. eauto.
    + split; [|done]. intros _ [i' Hi']. apply Hp. by destruct (refs_unique _ _ _ _ _ _ _ _ _ r H Hrin Hi').
  - exists a'. split_and!; [done | done | by apply refs_pid_nodup with (1 := H) (2 := Hin) | done | done].
Qed.

End Refs.

(** ** The invariant of the whole store *)

Section Store.
Context {G : Geometry}.

Definition region_table : list RegionRecord -> list nat -> gmap string nat -> Prop :=
  table_inv REGION_MAX_RECORD RegionIdle rr_name (fun i : nat => i).

Definition lease_table : list MemLeaseRecord -> list nat -> gmap string (nat * list Z) -> Prop :=
  table_inv MEM_LEASE_MAX_RECORD MemLeaseIdle ml_name fst.

Definition import_table : list MemShareImportRecord -> list nat -> gmap string (nat * list Z) -> Prop :=
  table_inv SHM_MAX_ATTACH_RECORD MemShareImportIdle si_name fst.

(** Both tables own lists of the pool, and never the same one. *)
Definition owners (A : gmap nat (list nat * list Z)) (la : list MemLeaseRecord) (lc : gmap string (nat * list Z))
  (ia : list MemShareImportRecord) (ic : gmap string (nat * list Z)) : Prop :=
  own2 A (lease_head la) lc (import_head ia) ic.

(** The first [count] entries are distinct process ids. *)
Definition suspend_live (a : SuspendClientArray) : list Z := take (Z.to_nat (sc_count a)) (sc_pids a).

Record suspend_inv (a : SuspendClientArray) : Prop := {
  suspend_count : (0 <= sc_count a <= Z.of_nat MAX_SUSPEND_CLIENT)%Z;
  suspend_length : length (sc_pids a) = MAX_SUSPEND_CLIENT;
  suspend_nodup : NoDup (suspend_live a);
  suspend_range : Forall (fun p => (0 < p < 2 ^ 31)%Z) (suspend_live a);
}.

(** [A] is the abstract content of the memory-id pool. *)
Record store_inv (A : gmap nat (list nat * list Z)) (s : state) : Prop := {
  inv_mapped : mapped s = true;
  inv_region : region_table (shm_regions (shm s)) (regionAllocator_ s) (cachedRegionRecords_ s);
  inv_lease : lease_table (shm_leases (shm s)) (memLeaseAllocator_ s) (cachedLeaseRecords_ s);
  inv_import : import_table (shm_imports (shm s)) (shmImportAllocator_ s) (cachedImportShmRecords_ s);
  inv_refs : refs_inv (shm_refs (shm s)) (shmRefAllocator_ s) (cachedRefShmIdxRecords_ s) (cachedRefShmPidRecords_ s)
               (cachedImportShmRecords_ s);
  inv_pool : pool_inv A (poolAllocator_ s) (shm_pool (shm s));
  inv_owners : owners A (shm_leases (shm s)) (cachedLeaseRecords_ s) (shm_imports (shm s)) (cachedImportShmRecords_ s);
  inv_suspend : suspend_inv (shm_suspend (shm s));
}.

(** No pool list is without an owner. *)
Definition noleak (A : gmap nat (list nat * list Z)) (s : state) : Prop :=
  owned A (lease_head (shm_leases (shm s))) (cachedLeaseRecords_ s)
    (import_head (shm_imports (shm s))) (cachedImportShmRecords_ s).

(** A name that survives the way through a [char[64]]: not empty, no NUL, short enough. *)
Definition good_name (n : string) : Prop := n <> "" /\ c_str n = n /\ String.length n < RECORD_NAME_SIZE.

(** ** Changing one part *)

Implicit Types A : gmap nat (list nat * list Z).

Lemma store_set_region A s a idle c :
  store_inv A s -> region_table a idle c -> store_inv A (set_region s a idle c).
Proof. intros [] Ht. by split. Qed.

Lemma store_set_lease A A' s p mem a idle c :
  store_inv A s -> pool_inv A' p mem -> lease_table a idle c ->
  owners A' a c (shm_imports (shm s)) (cachedImportShmRecords_ s) ->
  store_inv A' (set_lease (set_pool s p mem) a idle c).
Proof. intros [] Hp Ht Ho. by split. Qed.

Lemma store_set_import A A' s p mem a idle c :
  store_inv A s -> pool_inv A' p mem -> import_table a idle c ->
  owners A' (shm_leases (shm s)) (cachedLeaseRecords_ s) a c ->
  refs_inv (shm_refs (shm s)) (shmRefAllocator_ s) (cachedRefShmIdxRecords_ s) (cachedRefShmPidRecords_ s) c ->
  store_inv A' (set_import (set_pool s p mem) a idle c).
Proof. intros [] Hp Ht Ho Hr. by split. Qed.

Lemma store_set_ref A s a idle ci cp :
  store_inv A s -> refs_inv a idle ci cp (cachedImportShmRecords_ s) -> store_inv A (set_ref s a idle ci cp).
Proof. intros [] Hr. by split. Qed.

Lemma store_set_misc A s n a : store_inv A s -> suspend_inv a -> store_inv A (set_misc s n a).
Proof. intros [] Ha. by split. Qed.

(** Writing back what is there changes nothing. *)
Lemma set_pool_same s : set_pool s (poolAllocator_ s) (shm_pool (shm s)) = s.
Proof. by destruct s as [[] ?]. Qed.

Lemma set_region_same s : set_region s (shm_regions (shm s)) (regionAllocator_ s) (cachedRegionRecords_ s) = s.
Proof. by destruct s as [[] ?]. Qed.

Lemma set_lease_same s : set_lease s (shm_leases (shm s)) (memLeaseAllocator_ s) (cachedLeaseRecords_ s) = s.
Proof. by destruct s as [[] ?]. Qed.

Lemma set_import_same s : set_import s (shm_imports (shm s)) (shmImportAllocator_ s) (cachedImportShmRecords_ s) = s.
Proof. by destruct s as [[] ?]. Qed.

Lemma set_ref_same s :
  set_ref s (shm_refs (shm s)) (shmRefAllocator_ s) (cachedRefShmIdxRecords_ s) (cachedRefShmPidRecords_ s) = s.
Proof. by destruct s as [[] ?]. Qed.

(** The idle tests look at the name, and clearing removes it. *)
Lemma region_idle_name r : RegionIdle r = bool_decide (rr_name r = "").
Proof. done. Qed.

Lemma lease_idle_name r : MemLeaseIdle r = bool_decide (ml_name r = "").
Proof. done. Qed.

Lemma import_idle_name r : MemShareImportIdle r = bool_decide (si_name r = "").
Proof. done. Qed.

(** The name test of the [Add] operations leaves no failure for [strcpy_s]. *)
Lemma c_str_length n : String.length (c_str n) <= String.length n.
Proof. induction n as [|x n IH]; simpl; [done|]. destruct (Ascii.eqb _ _); simpl; lia. Qed.

Lemma strcpy_s_ok n :
  Nat.leb RECORD_NAME_SIZE (String.length n) = false -> strcpy_s RECORD_NAME_SIZE (c_str n) = Some (c_str n).
Proof.
  intros H. apply Nat.leb_gt in H. unfold strcpy_s. pose proof (c_str_length n).
  destruct (Nat.ltb_spec (String.length (c_str n)) RECORD_NAME_SIZE); [done | lia].
Qed.

End Store.
