(* ===== verification/StoreSteps.v ===== *)
(** What each operation of the record store does to its views.

    The views are the four listings as finite maps: regions, leases and imports by
    name, and the number of references a process holds on an import. Each lemma
    gives an operation's result, its effect on the views and the invariant of
    the state it leaves. *)

From S2P Require Import Prelude StoreTypes IdPool IdPoolSpec RecordAllocator RecordStore StoreTable StoreInv.
Import RecordStore.

(** ** Views *)

Definition region_of (r : RegionRecord) : CreateRegionInput :=
  mkCreateRegionInput (rr_name r) (rr_size r) (region_nodes r).*1 (region_nodes r).*2.

Definition import_of (r : MemShareImportRecord) (ids : list Z) : ShareMemImportInfo := import_info r (si_name r) ids.

Definition view_regions (s : state) : gmap string CreateRegionInput :=
  (fun i => region_of (shm_regions (shm s) !!! i)) <$> cachedRegionRecords_ s.

Definition view_leases (s : state) : gmap string (LeaseMallocInput * LeaseMallocResult) :=
  (fun v => ConvertMemLease (shm_leases (shm s) !!! v.1) v.2) <$> cachedLeaseRecords_ s.

Definition view_imports (s : state) : gmap string ShareMemImportInfo :=
  (fun v => import_of (shm_imports (shm s) !!! v.1) v.2) <$> cachedImportShmRecords_ s.

(** References held by process [pid] on the import [n]. *)
Definition ref_count (s : state) (n : string) (pid : Z) : nat :=
  match cachedImportShmRecords_ s !! n with
  | Some (i, _) => length (look2 (cachedRefShmIdxRecords_ s) i pid)
  | None => 0
  end.

(** The value a region reads back as: its nodes in increasing order, once each. *)
Definition canonical_region (input : CreateRegionInput) : CreateRegionInput :=
  let '(bitmap, bitmapAffinity) := fill_bitmaps (cri_nodeIds input) (cri_affinity input) in
  region_of (mkRegionRecord (cri_name input) (cri_size input) bitmap bitmapAffinity).

(** The result part of a lease that has none yet. *)
Definition pending_result : LeaseMallocResult := mkLeaseMallocResult [] (-1) 0 0.

Definition pending_import (input : ShareMemImportInput) : ShareMemImportInfo :=
  mkShareMemImportInfo (smi_name input) (smi_size input) (mkAppContext (u32 (smi_pid input)) 0 0) [] 0 0 0 PRE_ADD.

Definition lease_finished (i : LeaseMallocInput) : LeaseMallocInput :=
  mkLeaseMallocInput (lmi_fdMode i) (lmi_name i) (lmi_size i) (lmi_distance i) (lmi_appContext i) FINISH.

Definition lease_restate (st : RecordState) (v : LeaseMallocInput * LeaseMallocResult)
  : LeaseMallocInput * LeaseMallocResult :=
  (mkLeaseMallocInput (lmi_fdMode v.1) (lmi_name v.1) (lmi_size v.1) (lmi_distance v.1) (lmi_appContext v.1) st, v.2).

Definition lease_reown (c : AppContext) (size : Z) (v : LeaseMallocInput * LeaseMallocResult)
  : LeaseMallocInput * LeaseMallocResult :=
  (mkLeaseMallocInput (lmi_fdMode v.1) (lmi_name v.1) size (lmi_distance v.1) c (lmi_state v.1), v.2).

Definition import_finished (r : ShareMemImportResult) (v : ShareMemImportInfo) : ShareMemImportInfo :=
  mkShareMemImportInfo (smo_name v) (smo_size v)
    (mkAppContext (ac_pid (smo_appContext v)) (smr_ownerUserId r) (smr_ownerGroupId r))
    (smr_memIds r) (smr_unitSize r) (smr_createFlags r) (smr_openFlag r) FINISH.

Definition import_restate (st : RecordState) (v : ShareMemImportInfo) : ShareMemImportInfo :=
  mkShareMemImportInfo (smo_name v) (smo_size v) (smo_appContext v) (smo_memIds v) (smo_unitSize v) (smo_flag v)
    (smo_oflag v) st.

Section Views.
Context {G : Geometry}.
Implicit Types A : gmap nat (list nat * list Z).

(** The listings are the views. *)
Lemma ListRegionRecord_view A s : store_inv A s -> ListRegionRecord s = (map_to_list (view_regions s)).*2.
Proof.
  intros H. unfold ListRegionRecord, view_regions. rewrite map_to_list_fmap, <- list_fmap_compose.
  apply list_fmap_ext. intros k [n i] Hk. apply list_elem_of_lookup_2, elem_of_map_to_list in Hk. simpl.
  unfold region_info, region_of. simpl. by rewrite (table_names _ _ _ _ _ _ _ (inv_region _ _ H) _ _ Hk).
Qed.

Lemma ListMemLeaseRecord_view A s : store_inv A s -> ListMemLeaseRecord s = (map_to_list (view_leases s)).*2.
Proof.
  intros H. unfold ListMemLeaseRecord, view_leases. rewrite (inv_mapped _ _ H), map_to_list_fmap, <- list_fmap_compose. done.
Qed.

Lemma ListShmImportRecord_view A s : store_inv A s -> ListShmImportRecord s = (map_to_list (view_imports s)).*2.
Proof.
  intros H. unfold ListShmImportRecord, view_imports.
  rewrite (inv_mapped _ _ H), map_to_list_fmap, <- list_fmap_compose. simpl.
  apply list_fmap_ext. intros k [n v] Hk. apply list_elem_of_lookup_2, elem_of_map_to_list in Hk. simpl.
  unfold import_of. by rewrite (table_names _ _ _ _ _ _ _ (inv_import _ _ H) _ _ Hk).
Qed.

(** Views of tables that agree on the cached slots. *)
Lemma fmap_ext_on {V X} (f g : V -> X) (c : gmap string V) :
  (forall n v, c !! n = Some v -> f v = g v) -> f <$> c = g <$> c.
Proof. intros H. apply map_fmap_ext. eauto. Qed.

Lemma view_regions_none s n : view_regions s !! n = None <-> cachedRegionRecords_ s !! n = None.
Proof. unfold view_regions. rewrite lookup_fmap, fmap_None. done. Qed.

Lemma view_leases_none s n : view_leases s !! n = None <-> cachedLeaseRecords_ s !! n = None.
Proof. unfold view_leases. rewrite lookup_fmap, fmap_None. done. Qed.

Lemma view_imports_none s n : view_imports s !! n = None <-> cachedImportShmRecords_ s !! n = None.
Proof. unfold view_imports. rewrite lookup_fmap, fmap_None. done. Qed.

(** *** Regions *)

(** The argument checks of [AddRegionRecord] on nodes and affinities. *)
Definition region_input_ok (input : CreateRegionInput) : bool :=
  negb (existsb (fun nid => Z.leb REGION_NODE_BITMAP_COUNT nid) (cri_nodeIds input)) &&
  Nat.eqb (length (cri_nodeIds input)) (length (cri_affinity input)).

Lemma AddRegionRecord_spec A s input :
  store_inv A s -> good_name (cri_name input) ->
  let '(rc, s') := AddRegionRecord input s in
  store_inv A s' /\ view_leases s' = view_leases s /\ view_imports s' = view_imports s /\ (noleak A s -> noleak A s') /\
  if decide (region_input_ok input = true /\ view_regions s !! cri_name input = None /\
             size (view_regions s) < REGION_MAX_RECORD)
  then rc = 0%Z /\ view_regions s' = <[cri_name input := canonical_region input]> (view_regions s)
  else rc = (-1)%Z /\ view_regions s' = view_regions s.
Proof.
  intros H (Hne & Hc & Hshort). unfold AddRegionRecord, region_input_ok.
  destruct (Nat.leb RECORD_NAME_SIZE _) eqn:Hlen; [apply Nat.leb_le in Hlen; lia|].
  destruct (existsb _ _); [split_and!; try done; by rewrite decide_False by (intros (? & _); done)|].
  destruct (Nat.eqb _ _); [|split_and!; try done; by rewrite decide_False by (intros (? & _); done)].
  rewrite (inv_mapped _ _ H). cbn [negb andb].
  pose proof (table_size _ _ _ _ _ _ _ (inv_region _ _ H)) as Hsz.
  assert (Hsv : size (view_regions s) = size (cachedRegionRecords_ s)) by apply map_size_fmap.
  pose proof (BaseRecordAllocator.Allocate_spec (regionAllocator_ s)) as Hal.
  destruct (BaseRecordAllocator.Allocate (regionAllocator_ s)) as [[i|] idle].
  2:{ destruct Hal as [Ha ->]. rewrite Ha in Hsz. simpl in Hsz. rewrite <- Ha, set_region_same.
      split_and!; try done. rewrite decide_False; [done|]. intros (_ & _ & ?). lia. }
  rewrite (strcpy_s_ok _ Hlen), Hc. pose proof (inv_region _ _ H) as Ht. rewrite Hal in Ht, Hsz.
  rewrite length_app in Hsz. simpl in Hsz. unfold canonical_region.
  destruct (fill_bitmaps _ _) as [bm ba]. set (r := mkRegionRecord _ _ bm ba).
  destruct (cachedRegionRecords_ s !! cri_name input) as [j|] eqn:Ec.
  - destruct (table_abandon _ _ ClearRegion _ _ region_idle_name (fun _ => eq_refl) _ _ _ i r Ht) as (a' & E & Ht' & Hs).
    rewrite E. split_and!; [by apply (store_set_region _ s) | done | done | done |].
    rewrite decide_False by (rewrite view_regions_none; intros (_ & ? & _); congruence). split; [done|].
    apply fmap_ext_on. intros n v Hv. simpl. f_equal. eauto.
  - destruct (table_add _ _ _ (fun i : nat => i) region_idle_name _ _ _ (cri_name input) i r Ht) as (Ht' & Hr & Hs); auto.
    split_and!; [by apply (store_set_region _ s) | done | done | done |].
    rewrite decide_True by (rewrite view_regions_none; split_and!; [done | done | lia]). split; [done|].
    unfold view_regions. simpl. rewrite fmap_insert. f_equal; [by rewrite Hr|].
    apply fmap_ext_on. intros n v Hv. f_equal. eauto.
Qed.

Lemma DelRegionRecord_spec A s name :
  store_inv A s ->
  let '(rc, s') := DelRegionRecord name s in
  store_inv A s' /\ view_leases s' = view_leases s /\ view_imports s' = view_imports s /\
  view_regions s' = delete name (view_regions s) /\
  rc = (if decide (view_regions s !! name = None) then (-1)%Z else 0%Z).
Proof.
  intros H. unfold DelRegionRecord. rewrite (inv_mapped _ _ H). cbn [negb].
  destruct (cachedRegionRecords_ s !! name) as [i|] eqn:Ec.
  - destruct (table_del _ _ ClearRegion _ _ region_idle_name (fun _ => eq_refl) _ _ _ _ _ (inv_region _ _ H) Ec)
      as (a' & E & Ht & Hs).
    rewrite E. split_and!; [by apply (store_set_region _ s) | done | done | |].
    + unfold view_regions. simpl. rewrite <- fmap_delete. apply fmap_ext_on. intros n v Hv. f_equal. eauto.
    + rewrite decide_False; [done|]. rewrite view_regions_none. congruence.
  - split_and!; [done | done | done | |].
    + rewrite delete_id; [done|]. by apply view_regions_none.
    + rewrite decide_True; [done|]. by apply view_regions_none.
Qed.

(** *** Leases *)

(** The invariant is kept, and so is the absence of leaked pool lines. *)
Definition kept A s A' s' : Prop := store_inv A' s' /\ (noleak A s -> noleak A' s').

Lemma kept_refl A s : store_inv A s -> kept A s A s.
Proof. by split. Qed.

(** [lease_frame s s']: an operation on leases leaves the other views alone. *)
Definition lease_frame s s' : Prop :=
  view_regions s' = view_regions s /\ view_imports s' = view_imports s /\ ref_count s' = ref_count s.

Lemma kept_set_lease A A' s p mem a idle c :
  store_inv A s -> pool_inv A' p mem -> lease_table a idle c ->
  owners A' a c (shm_imports (shm s)) (cachedImportShmRecords_ s) ->
  (noleak A s -> owned A' (lease_head a) c (import_head (shm_imports (shm s))) (cachedImportShmRecords_ s)) ->
  kept A s A' (set_lease (set_pool s p mem) a idle c).
Proof. intros H Hp Ht Ho Hk. split; [by eapply store_set_lease | done]. Qed.

Lemma kept_set_lease0 A s a idle c :
  store_inv A s -> lease_table a idle c ->
  owners A a c (shm_imports (shm s)) (cachedImportShmRecords_ s) ->
  (noleak A s -> owned A (lease_head a) c (import_head (shm_imports (shm s))) (cachedImportShmRecords_ s)) ->
  kept A s A (set_lease s a idle c).
Proof. intros H Ht Ho Hk. rewrite <- (set_pool_same s) at 2. apply kept_set_lease; auto. apply H. Qed.

Lemma lease_head_ext (a a' : list MemLeaseRecord) (c : gmap string (nat * list Z)) :
  (forall n v, c !! n = Some v -> a' !!! v.1 = a !!! v.1) ->
  forall n i ids, c !! n = Some (i, ids) -> lease_head a' i = lease_head a i.
Proof. intros H n i ids E. unfold lease_head. pose proof (H _ _ E) as Hx. simpl in Hx. by rewrite Hx. Qed.

(** One record of a finite map of records and ids changes. *)
Lemma fmap_update {R V} `{!Inhabited R} (f : R -> list Z -> V) (a a' : list R) (c : gmap string (nat * list Z)) name i ids :
  (forall n v, n <> name -> c !! n = Some v -> a' !!! v.1 = a !!! v.1) ->
  (fun v => f (a' !!! v.1) v.2) <$> (<[name := (i, ids)]> c) =
  <[name := f (a' !!! i) ids]> ((fun v => f (a !!! v.1) v.2) <$> c).
Proof.
  intros Hs. rewrite fmap_insert. apply map_eq. intros n.
  destruct (decide (name = n)) as [->|Hne]; [by rewrite !lookup_insert_eq|].
  rewrite !lookup_insert_ne, !lookup_fmap by done. destruct (c !! n) as [v|] eqn:E; [|done]. simpl. by rewrite (Hs n v) by done.
Qed.

Lemma fmap_erase {R V} `{!Inhabited R} (f : R -> list Z -> V) (a a' : list R) (c : gmap string (nat * list Z)) name :
  (forall n v, delete name c !! n = Some v -> a' !!! v.1 = a !!! v.1) ->
  (fun v => f (a' !!! v.1) v.2) <$> (delete name c) = delete name ((fun v => f (a !!! v.1) v.2) <$> c).
Proof. intros Hs. rewrite <- fmap_delete. apply fmap_ext_on. intros n v Hv. f_equal. eauto. Qed.

Lemma AddMemLeaseInput_spec A s input :
  store_inv A s -> good_name (lmi_name input) ->
  let '(rc, s') := AddMemLeaseInput input s in
  kept A s A s' /\ lease_frame s s' /\
  if decide (view_leases s !! lmi_name input = None /\ size (view_leases s) < MEM_LEASE_MAX_RECORD)
  then rc = 0%Z /\ view_leases s' = <[lmi_name input := (input, pending_result)]> (view_leases s)
  else rc = (-1)%Z /\ view_leases s' = view_leases s.
Proof.
  intros H (Hne & Hc & Hshort). unfold AddMemLeaseInput.
  destruct (Nat.leb RECORD_NAME_SIZE _) eqn:Hlen; [apply Nat.leb_le in Hlen; lia|].
  rewrite (inv_mapped _ _ H). cbn [negb].
  pose proof (table_size _ _ _ _ _ _ _ (inv_lease _ _ H)) as Hsz.
  assert (Hsv : size (view_leases s) = size (cachedLeaseRecords_ s)) by apply map_size_fmap.
  pose proof (BaseRecordAllocator.Allocate_spec (memLeaseAllocator_ s)) as Hal.
  destruct (BaseRecordAllocator.Allocate (memLeaseAllocator_ s)) as [[i|] idle].
  2:{ destruct Hal as [Ha ->]. rewrite Ha in Hsz. simpl in Hsz. rewrite <- Ha, set_lease_same.
      split_and!; try done. rewrite decide_False; [done|]. intros (_ & ?). lia. }
  rewrite (strcpy_s_ok _ Hlen), Hc. pose proof (inv_lease _ _ H) as Ht. rewrite Hal in Ht, Hsz.
  rewrite length_app in Hsz. simpl in Hsz.
  set (r := mkMemLeaseRecord _ _ _ _ _ _ _ _ _ _ _ _ _).
  destruct (cachedLeaseRecords_ s !! lmi_name input) as [j|] eqn:Ec.
  - destruct (table_abandon _ _ ClearMemLease _ _ lease_idle_name (fun _ => eq_refl) _ _ _ i r Ht) as (a' & E & Ht' & Hs).
    rewrite E. destruct (own2_ext _ _ _ _ _ _ (inv_owners _ _ H) (lease_head_ext _ _ _ Hs)) as [Ho Hk].
    split_and!; try done.
    + by apply kept_set_lease0.
    + rewrite decide_False by (rewrite view_leases_none; intros (? & _); congruence). split; [done|]. apply fmap_ext_on. intros n v Hv. simpl. f_equal. eauto.
  - destruct (table_add _ _ _ fst lease_idle_name _ _ _ (lmi_name input) (i, []) r Ht) as (Ht' & Hr & Hs); auto.
    simpl in Hr. destruct (own2_add _ _ _ _ _ (lease_head (<[i := r]> (shm_leases (shm s)))) (lmi_name input) i
                             (inv_owners _ _ H) Ec) as [Ho Hk]; [by unfold lease_head; rewrite Hr | by apply lease_head_ext |].
    split_and!; try done.
    + by apply kept_set_lease0.
    + rewrite decide_True by (rewrite view_leases_none; split; [done | lia]). split; [done|]. unfold view_leases. cbn [set_lease shm cachedLeaseRecords_ shm_leases].
      rewrite (fmap_update ConvertMemLease (shm_leases (shm s))) by eauto. f_equal. rewrite Hr.
      unfold ConvertMemLease, r. simpl. f_equal. destruct input as [[] ? ? ? [] ?]; done.
Qed.

(** An update of a lease record that keeps the ids it owns. *)
Lemma lease_update_spec A s name i ids f :
  store_inv A s -> cachedLeaseRecords_ s !! name = Some (i, ids) ->
  (forall r, ml_name (f r) = ml_name r) ->
  (forall r, ml_memIdCount (f r) = ml_memIdCount r /\ ml_memIdBuffer (f r) = ml_memIdBuffer r) ->
  let s' := set_lease s (alter f i (shm_leases (shm s))) (memLeaseAllocator_ s) (cachedLeaseRecords_ s) in
  kept A s A s' /\
  view_leases s' = <[name := ConvertMemLease (f (shm_leases (shm s) !!! i)) ids]> (view_leases s).
Proof.
  intros H Hn Hf Hm s'.
  destruct (table_update _ _ _ fst lease_idle_name _ _ _ _ _ (i, ids) f (inv_lease _ _ H) Hn eq_refl Hf)
    as (Ht & Hr & Hs). simpl in Ht, Hr, Hs. rewrite (insert_id _ _ _ Hn) in Ht.
  assert (Hh : forall n j js, cachedLeaseRecords_ s !! n = Some (j, js) ->
                 lease_head (alter f i (shm_leases (shm s))) j = lease_head (shm_leases (shm s)) j).
  { intros n j js E. unfold lease_head. destruct (decide (n = name)) as [->|Hne].
    - assert (j = i) as -> by congruence. rewrite Hr. destruct (Hm (shm_leases (shm s) !!! i)) as [-> ->]. done.
    - pose proof (Hs n (j, js) Hne E) as Hx. simpl in Hx. by rewrite Hx. }
  destruct (own2_ext _ _ _ _ _ _ (inv_owners _ _ H) Hh) as [Ho Hk]. split_and!.
  - by apply kept_set_lease0.
  - unfold view_leases, s'. cbn [set_lease shm cachedLeaseRecords_ shm_leases].
    rewrite <- (insert_id _ _ _ Hn) at 1. rewrite (fmap_update ConvertMemLease (shm_leases (shm s))) by eauto. by rewrite Hr.
Qed.

Lemma view_leases_some s name i ids :
  cachedLeaseRecords_ s !! name = Some (i, ids) -> view_leases s !! name = Some (ConvertMemLease (shm_leases (shm s) !!! i) ids).
Proof. intros E. unfold view_leases. by rewrite lookup_fmap, E. Qed.

Lemma UpdateMemLeaseRecordState_spec A s name st :
  store_inv A s ->
  let '(rc, s') := UpdateMemLeaseRecordState name st s in
  kept A s A s' /\ lease_frame s s' /\
  match view_leases s !! name with
  | Some v => rc = 0%Z /\ view_leases s' = <[name := lease_restate st v]> (view_leases s)
  | None => rc = (-1)%Z /\ s' = s
  end.
Proof.
  intros H. unfold UpdateMemLeaseRecordState. rewrite (inv_mapped _ _ H). cbn [negb].
  destruct (cachedLeaseRecords_ s !! name) as [[i ids]|] eqn:E.
  - destruct (lease_update_spec A s name i ids (fun r => lease_with_state r st) H E) as (H1 & H2); [done..|].
    rewrite (view_leases_some _ _ _ _ E). split_and!; done.
  - rewrite (proj2 (view_leases_none s name) E). split_and!; done.
Qed.

Lemma UpdateMemLeaseRecord_spec A s name context size :
  store_inv A s ->
  let '(rc, s') := UpdateMemLeaseRecord name context size s in
  kept A s A s' /\ lease_frame s s' /\
  match view_leases s !! name with
  | Some v => rc = 0%Z /\ view_leases s' = <[name := lease_reown context size v]> (view_leases s)
  | None => rc = (-1)%Z /\ s' = s
  end.
Proof.
  intros H. unfold UpdateMemLeaseRecord. rewrite (inv_mapped _ _ H). cbn [negb].
  destruct (cachedLeaseRecords_ s !! name) as [[i ids]|] eqn:E.
  - destruct (lease_update_spec A s name i ids (fun r => lease_with_owner r context size) H E) as (H1 & H2); [done..|].
    rewrite (view_leases_some _ _ _ _ E). destruct context. split_and!; done.
  - rewrite (proj2 (view_leases_none s name) E). split_and!; done.
Qed.

(** Lines the pool needs for a list of ids. *)
Definition lines_needed (ids : list Z) : nat :=
  (length ids + RecordIdPoolAllocator.lineSize - 1) / RecordIdPoolAllocator.lineSize.

Definition pool_free s : nat := length (RecordIdPoolAllocator.idleIdIndexes_ (poolAllocator_ s)).

(** A lease or import without ids owns no list. *)
Lemma head_of_ids A hd c p mem n i ids :
  pool_inv A p mem -> own A hd c -> c !! n = Some (i, ids) ->
  match hd i with
  | None => ids = []
  | Some h => ids <> [] /\ exists lines, A !! h = Some (lines, ids) /\ length lines = lines_needed ids
  end.
Proof.
  intros Hp Ho Hn. pose proof (own_ids _ _ _ Ho _ _ _ Hn) as Hi. destruct (hd i) as [h|]; [|done].
  destruct Hi as [lines E]. destruct (pool_inv_chain _ _ _ Hp _ _ _ E) as [_ Hc].
  pose proof (chain_last_items _ _ _ Hc) as Hl. split; [intros ->; simpl in Hl; lia|]. exists lines.
  split; [done|]. by eapply chain_lines_need.
Qed.

Lemma AddMemLeaseResult_spec A s name result :
  store_inv A s ->
  let '(rc, s') := AddMemLeaseResult name result s in
  lease_frame s s' /\
  match view_leases s !! name with
  | Some v =>
      if decide (lmr_memIds result <> [] /\ lines_needed (lmr_memIds result) <= pool_free s) then
        rc = 0%Z /\ view_leases s' = <[name := (lease_finished v.1, result)]> (view_leases s) /\
        pool_free s = pool_free s' + lines_needed (lmr_memIds result) /\
        exists A', store_inv A' s' /\ (lmr_memIds v.2 = [] -> noleak A s -> noleak A' s')
      else rc = (-1)%Z /\ s' = s
  | None => rc = (-1)%Z /\ s' = s
  end.
Proof.
  intros H. unfold AddMemLeaseResult. rewrite (inv_mapped _ _ H). cbn [negb].
  destruct (cachedLeaseRecords_ s !! name) as [[i ids0]|] eqn:E.
  2:{ rewrite (proj2 (view_leases_none s name) E). split_and!; done. }
  rewrite (view_leases_some _ _ _ _ E). pose proof (Allocate_refines _ _ _ (lmr_memIds result) (inv_pool _ _ H)) as Hal.
  destruct (RecordIdPoolAllocator.Allocate _ _ _) as [[[h|] p] mem].
  2:{ destruct Hal as (Hx & -> & ->). rewrite set_pool_same. split; [done|]. rewrite decide_False; [done|].
      unfold lines_needed, pool_free. intros [??]. destruct Hx; [done | lia]. }
  destruct Hal as (Hne & Hh & lines & Hp & Hperm & Hlen).
  assert (Hfree : pool_free s = length (RecordIdPoolAllocator.idleIdIndexes_ p) + lines_needed (lmr_memIds result)).
  { unfold pool_free. rewrite Hperm, length_app. unfold lines_needed. lia. }
  set (f := fun r => lease_with_result r result h).
  destruct (table_update _ _ _ fst lease_idle_name _ _ _ _ _ (i, lmr_memIds result) f (inv_lease _ _ H) E eq_refl
              (fun _ => eq_refl)) as (Ht & Hr & Hs). simpl in Ht, Hr, Hs.
  destruct (own2_set A _ _ _ _ (lease_head (alter f i (shm_leases (shm s)))) name i ids0 h lines (lmr_memIds result)
              (inv_owners _ _ H) E Hh) as [Ho Hk].
  { unfold lease_head. rewrite Hr. simpl. destruct (Z.eqb_spec (Z.of_nat (length (lmr_memIds result))) 0); [|done].
    destruct (lmr_memIds result); simpl in *; [done | lia]. }
  { intros n j js Hnn E'. unfold lease_head. pose proof (Hs n (j, js) Hnn E') as Hx. simpl in Hx. by rewrite Hx. }
  split; [done|]. rewrite decide_True by (split; [done|]; lia). split_and!; [done | | done |].
  - unfold view_leases. cbn [set_lease set_pool shm cachedLeaseRecords_ shm_leases].
    rewrite (fmap_update ConvertMemLease (shm_leases (shm s))) by eauto. rewrite Hr. by destruct result.
  - exists (<[h := (lines, lmr_memIds result)]> A). split; [by eapply store_set_lease|]. intros Hv Hnl. apply Hk; [|done].
    pose proof (head_of_ids _ _ _ _ _ _ _ _ (inv_pool _ _ H) (own2_l _ _ _ _ _ (inv_owners _ _ H)) E) as Hi.
    destruct (lease_head _ i); [by destruct Hi | done].
Qed.

Lemma alter_clear_release a idle record :
  record < MEM_LEASE_MAX_RECORD ->
  BaseRecordAllocator.Release MEM_LEASE_MAX_RECORD ClearMemLease record (alter ClearMemLease record a) idle =
  BaseRecordAllocator.Release MEM_LEASE_MAX_RECORD ClearMemLease record a idle.
Proof.
  intros Hlt. unfold BaseRecordAllocator.Release. destruct (Nat.leb_spec MEM_LEASE_MAX_RECORD record); [lia|]. f_equal.
  apply list_eq. intros j. destruct (decide (record = j)) as [->|Hne].
  - rewrite !list_lookup_alter_eq. by destruct (a !! j).
  - by rewrite !list_lookup_alter_ne.
Qed.

Lemma DelMemLeaseRecord_spec A s name :
  store_inv A s ->
  let '(rc, s') := DelMemLeaseRecord name s in
  lease_frame s s' /\ view_leases s' = delete name (view_leases s) /\
  (exists A', kept A s A' s') /\
  match view_leases s !! name with
  | Some v => rc = 0%Z /\ pool_free s' = pool_free s + lines_needed (lmr_memIds v.2)
  | None => rc = (-1)%Z /\ s' = s
  end.
Proof.
  intros H. unfold DelMemLeaseRecord. rewrite (inv_mapped _ _ H). cbn [negb].
  destruct (cachedLeaseRecords_ s !! name) as [[i ids]|] eqn:E.
  2:{ apply view_leases_none in E. rewrite E. split_and!; [done | by rewrite delete_id | exists A; by apply kept_refl | done | done]. }
  rewrite (view_leases_some _ _ _ _ E). pose proof (table_bound _ _ _ _ _ _ _ _ _ (inv_lease _ _ H) E) as Hlt. simpl in Hlt.
  rewrite alter_clear_release
    by by rewrite <- (BaseRecordAllocator.slots_length _ _ _ _ _ (table_slots _ _ _ _ _ _ _ (inv_lease _ _ H))).
  rewrite list_lookup_total_alter_eq by done.
  destruct (table_del _ _ ClearMemLease _ _ lease_idle_name (fun _ => eq_refl) _ _ _ _ _ (inv_lease _ _ H) E)
    as (a' & Er & Ht & Hs). simpl in Er, Ht, Hs. rewrite Er.
  destruct (own2_del A _ _ _ _ (lease_head a') name i ids (inv_owners _ _ H) E (lease_head_ext _ _ _ Hs)) as [Ho Hk].
  pose proof (head_of_ids _ _ _ _ _ _ _ _ (inv_pool _ _ H) (own2_l _ _ _ _ _ (inv_owners _ _ H)) E) as Hi.
  unfold lease_head at 1 in Hi. unfold lease_head at 1 in Ho. unfold lease_head at 2 in Hk.
  cbn [ClearMemLease ml_memIdCount ml_memIdBuffer].
  assert (Hv : forall p mem, view_leases (set_pool (set_lease s a' (memLeaseAllocator_ s ++ [i])
                 (delete name (cachedLeaseRecords_ s))) p mem) = delete name (view_leases s)).
  { intros p mem. unfold view_leases. simpl. by apply (fmap_erase ConvertMemLease). }
  destruct (Z.eqb (ml_memIdCount (shm_leases (shm s) !!! i)) 0); cbn [negb].
  - split_and!; [done | by rewrite <- (Hv (poolAllocator_ s) (shm_pool (shm s))) | exists A; by apply kept_set_lease0 | done |].
    subst ids. unfold pool_free. simpl. replace (lines_needed []) with 0 by done. lia.
  - destruct Hi as (Hne & lines & EA & Hlen).
    pose proof (Release_refines _ _ _ (ml_memIdBuffer (shm_leases (shm s) !!! i)) (inv_pool _ _ H)) as Hrel. rewrite EA in Hrel.
    destruct Hrel as (p' & mem' & Erel & Hp' & Hidle). cbn [set_lease poolAllocator_ shm shm_pool]. rewrite Erel.
    split_and!; [done | by apply Hv | | done |].
    + eexists. eapply kept_set_lease; [done | apply Hp' | apply Ht | apply Ho | apply Hk].
    + unfold pool_free. cbn [set_pool set_lease poolAllocator_]. rewrite Hidle, length_app. simpl. lia.
Qed.

(** *** Imports *)

Lemma kept_set_import A A' s p mem a idle c :
  store_inv A s -> pool_inv A' p mem -> import_table a idle c ->
  own2 A' (import_head a) c (lease_head (shm_leases (shm s))) (cachedLeaseRecords_ s) ->
  (owned A (import_head (shm_imports (shm s))) (cachedImportShmRecords_ s) (lease_head (shm_leases (shm s)))
     (cachedLeaseRecords_ s) -> owned A' (import_head a) c (lease_head (shm_leases (shm s))) (cachedLeaseRecords_ s)) ->
  refs_inv (shm_refs (shm s)) (shmRefAllocator_ s) (cachedRefShmIdxRecords_ s) (cachedRefShmPidRecords_ s) c ->
  kept A s A' (set_import (set_pool s p mem) a idle c).
Proof.
  intros H Hp Ht Ho Hk Hr. split; [eapply store_set_import; eauto; by apply own2_sym|].
  intros Hn. by apply owned_sym, Hk, owned_sym.
Qed.

Lemma kept_set_import0 A s a idle c :
  store_inv A s -> import_table a idle c ->
  own2 A (import_head a) c (lease_head (shm_leases (shm s))) (cachedLeaseRecords_ s) ->
  (owned A (import_head (shm_imports (shm s))) (cachedImportShmRecords_ s) (lease_head (shm_leases (shm s)))
     (cachedLeaseRecords_ s) -> owned A (import_head a) c (lease_head (shm_leases (shm s))) (cachedLeaseRecords_ s)) ->
  refs_inv (shm_refs (shm s)) (shmRefAllocator_ s) (cachedRefShmIdxRecords_ s) (cachedRefShmPidRecords_ s) c ->
  kept A s A (set_import s a idle c).
Proof. intros H Ht Ho Hk Hr. rewrite <- (set_pool_same s) at 2. apply kept_set_import; auto. apply H. Qed.

(** An operation on imports leaves regions and leases alone, and the references. *)
Definition import_frame s s' : Prop :=
  view_regions s' = view_regions s /\ view_leases s' = view_leases s /\
  (forall n pid, ref_count s' n pid = ref_count s n pid).

Lemma import_head_ext (a a' : list MemShareImportRecord) (c : gmap string (nat * list Z)) :
  (forall n v, c !! n = Some v -> a' !!! v.1 = a !!! v.1) ->
  forall n i ids, c !! n = Some (i, ids) -> import_head a' i = import_head a i.
Proof. intros H n i ids E. unfold import_head. pose proof (H _ _ E) as Hx. simpl in Hx. by rewrite Hx. Qed.

Lemma view_imports_some s name i ids :
  cachedImportShmRecords_ s !! name = Some (i, ids) ->
  view_imports s !! name = Some (import_of (shm_imports (shm s) !!! i) ids).
Proof. intros E. unfold view_imports. by rewrite lookup_fmap, E. Qed.

Lemma own2_import A s : store_inv A s ->
  own2 A (import_head (shm_imports (shm s))) (cachedImportShmRecords_ s) (lease_head (shm_leases (shm s))) (cachedLeaseRecords_ s).
Proof. intros H. apply own2_sym, H. Qed.

(** A slot that no cached import uses has no references. *)
Lemma free_slot_unreferenced A s i pid :
  store_inv A s -> (forall n ids, cachedImportShmRecords_ s !! n <> Some (i, ids)) -> look2 (cachedRefShmIdxRecords_ s) i pid = [].
Proof.
  intros H Hf. destruct (look2 (cachedRefShmIdxRecords_ s) i pid) as [|r l] eqn:E; [done|].
  destruct (refs_target _ _ _ _ _ (inv_refs _ _ H) i pid) as (n & ids & Hn); [by rewrite E|]. by apply Hf in Hn.
Qed.

Lemma AddShmImportInput_spec A s input :
  store_inv A s -> good_name (smi_name input) ->
  let '(rc, s') := AddShmImportInput input s in
  kept A s A s' /\ import_frame s s' /\
  if decide (view_imports s !! smi_name input = None /\ size (view_imports s) < SHM_MAX_ATTACH_RECORD)
  then rc = 0%Z /\ view_imports s' = <[smi_name input := pending_import input]> (view_imports s)
  else rc = (-1)%Z /\ view_imports s' = view_imports s.
Proof.
  intros H (Hne & Hc & Hshort). unfold AddShmImportInput.
  destruct (Nat.leb RECORD_NAME_SIZE _) eqn:Hlen; [apply Nat.leb_le in Hlen; lia|].
  rewrite (inv_mapped _ _ H). cbn [negb].
  pose proof (table_size _ _ _ _ _ _ _ (inv_import _ _ H)) as Hsz.
  assert (Hsv : size (view_imports s) = size (cachedImportShmRecords_ s)) by apply map_size_fmap.
  pose proof (BaseRecordAllocator.Allocate_spec (shmImportAllocator_ s)) as Hal.
  destruct (BaseRecordAllocator.Allocate (shmImportAllocator_ s)) as [[i|] idle].
  2:{ destruct Hal as [Ha ->]. rewrite Ha in Hsz. simpl in Hsz. rewrite <- Ha, set_import_same.
      split_and!; try done. rewrite decide_False; [done|]. intros (_ & ?). lia. }
  rewrite (strcpy_s_ok _ Hlen), Hc. pose proof (inv_import _ _ H) as Ht. rewrite Hal in Ht, Hsz.
  rewrite length_app in Hsz. simpl in Hsz.
  set (r := mkMemShareImportRecord _ _ _ _ _ _ _ _ _ _ _).
  destruct (cachedImportShmRecords_ s !! smi_name input) as [j|] eqn:Ec.
  - destruct (table_abandon _ _ ClearMemShareImport _ _ import_idle_name (fun _ => eq_refl) _ _ _ i r Ht) as (a' & E & Ht' & Hs).
    rewrite E. destruct (own2_ext _ _ _ _ _ _ (own2_import _ _ H) (import_head_ext _ _ _ Hs)) as [Ho Hk].
    split_and!; try done; [apply kept_set_import0; auto; apply H|].
    rewrite decide_False by (rewrite view_imports_none; intros (? & _); congruence). split; [done|]. apply fmap_ext_on. intros n v Hv. simpl. f_equal. eauto.
  - destruct (table_add _ _ _ fst import_idle_name _ _ _ (smi_name input) (i, []) r Ht) as (Ht' & Hr & Hs); auto.
    simpl in Hr. destruct (own2_add _ _ _ _ _ (import_head (<[i := r]> (shm_imports (shm s)))) (smi_name input) i
                             (own2_import _ _ H) Ec) as [Ho Hk]; [by unfold import_head; rewrite Hr | by apply import_head_ext |].
    split_and!; try done.
    + apply kept_set_import0; auto. eapply refs_import; [apply H|]. intros i' p' _ (n & ids & Hn). exists n, ids.
      rewrite lookup_insert_ne; [done | congruence].
    + split_and!; try done. intros n pid. unfold ref_count. simpl. destruct (decide (smi_name input = n)) as [<-|Hnn].
      * rewrite lookup_insert_eq, Ec. rewrite (free_slot_unreferenced A s i pid H); [done|]. intros n ids Hn.
        eapply (BaseRecordAllocator.slots_disjoint _ _ _ _ _ i (table_slots _ _ _ _ _ _ _ Ht));
          [apply elem_of_app; right; by apply list_elem_of_singleton|]. apply elem_of_slots_of. eauto.
      * by rewrite lookup_insert_ne.
    + rewrite decide_True by (rewrite view_imports_none; split; [done | lia]). split; [done|]. unfold view_imports.
      cbn [set_import shm cachedImportShmRecords_ shm_imports].
      rewrite (fmap_update import_of (shm_imports (shm s))) by eauto. by rewrite Hr.
Qed.

Lemma UpdateShmImportRecordState_spec A s name st :
  store_inv A s ->
  let '(rc, s') := UpdateShmImportRecordState name st s in
  kept A s A s' /\ import_frame s s' /\
  match view_imports s !! name with
  | Some v => rc = 0%Z /\ view_imports s' = <[name := import_restate st v]> (view_imports s)
  | None => rc = (-1)%Z /\ s' = s
  end.
Proof.
  intros H. unfold UpdateShmImportRecordState. rewrite (inv_mapped _ _ H). cbn [negb].
  destruct (cachedImportShmRecords_ s !! name) as [[i ids]|] eqn:E.
  2:{ rewrite (proj2 (view_imports_none s name) E). split_and!; done. }
  rewrite (view_imports_some _ _ _ _ E). set (f := fun r => import_with_state r st).
  destruct (table_update _ _ _ fst import_idle_name _ _ _ _ _ (i, ids) f (inv_import _ _ H) E eq_refl (fun _ => eq_refl))
    as (Ht & Hr & Hs). simpl in Ht, Hr, Hs. rewrite (insert_id _ _ _ E) in Ht.
  assert (Hh : forall n j js, cachedImportShmRecords_ s !! n = Some (j, js) ->
                 import_head (alter f i (shm_imports (shm s))) j = import_head (shm_imports (shm s)) j).
  { intros n j js E'. unfold import_head. destruct (decide (n = name)) as [->|Hne].
    - assert (j = i) as -> by congruence. by rewrite Hr.
    - pose proof (Hs n (j, js) Hne E') as Hx. simpl in Hx. by rewrite Hx. }
  destruct (own2_ext _ _ _ _ _ _ (own2_import _ _ H) Hh) as [Ho Hk].
  split_and!; try done; [apply kept_set_import0; auto; apply H|].
  unfold view_imports. cbn [set_import shm cachedImportShmRecords_ shm_imports].
  rewrite <- (insert_id _ _ _ E) at 1. rewrite (fmap_update import_of (shm_imports (shm s))) by eauto. by rewrite Hr.
Qed.

Lemma AddShmImportResult_spec A s name result :
  store_inv A s -> String.length name < RECORD_NAME_SIZE ->
  let '(rc, s') := AddShmImportResult name result s in
  import_frame s s' /\
  match view_imports s !! name with
  | Some v =>
      if decide (smr_memIds result <> [] /\ lines_needed (smr_memIds result) <= pool_free s) then
        rc = 0%Z /\ view_imports s' = <[name := import_finished result v]> (view_imports s) /\
        pool_free s = pool_free s' + lines_needed (smr_memIds result) /\
        exists A', store_inv A' s' /\ (smo_memIds v = [] -> noleak A s -> noleak A' s')
      else rc = (-1)%Z /\ s' = s
  | None => rc = (-1)%Z /\ s' = s
  end.
Proof.
  intros H Hlt. unfold AddShmImportResult. destruct (Nat.leb_spec RECORD_NAME_SIZE (String.length name)); [lia|].
  rewrite (inv_mapped _ _ H). cbn [negb].
  destruct (cachedImportShmRecords_ s !! name) as [[i ids0]|] eqn:E.
  2:{ rewrite (proj2 (view_imports_none s name) E). split_and!; done. }
  rewrite (view_imports_some _ _ _ _ E). pose proof (Allocate_refines _ _ _ (smr_memIds result) (inv_pool _ _ H)) as Hal.
  destruct (RecordIdPoolAllocator.Allocate _ _ _) as [[[h|] p] mem].
  2:{ destruct Hal as (Hx & -> & ->). rewrite set_pool_same. split; [done|]. rewrite decide_False; [done|].
      unfold lines_needed, pool_free. intros [??]. destruct Hx; [done | lia]. }
  destruct Hal as (Hne & Hh & lines & Hp & Hperm & Hlen).
  assert (Hfree : pool_free s = length (RecordIdPoolAllocator.idleIdIndexes_ p) + lines_needed (smr_memIds result)).
  { unfold pool_free. rewrite Hperm, length_app. unfold lines_needed. lia. }
  set (f := fun r => import_with_result r result h).
  destruct (table_update _ _ _ fst import_idle_name _ _ _ _ _ (i, smr_memIds result) f (inv_import _ _ H) E eq_refl
              (fun _ => eq_refl)) as (Ht & Hr & Hs). simpl in Ht, Hr, Hs.
  destruct (own2_set A _ _ _ _ (import_head (alter f i (shm_imports (shm s)))) name i ids0 h lines (smr_memIds result)
              (own2_import _ _ H) E Hh) as [Ho Hk].
  { unfold import_head. rewrite Hr. simpl. destruct (Z.eqb_spec (Z.of_nat (length (smr_memIds result))) 0); [|done].
    destruct (smr_memIds result); simpl in *; [done | lia]. }
  { intros n j js Hnn E'. unfold import_head. pose proof (Hs n (j, js) Hnn E') as Hx. simpl in Hx. by rewrite Hx. }
  split; [|rewrite decide_True by (split; [done|]; lia); split_and!; [done | | done |]].
  - split_and!; try done. intros n pid. unfold ref_count. simpl. destruct (decide (name = n)) as [<-|Hnn].
    + by rewrite lookup_insert_eq, E.
    + by rewrite lookup_insert_ne.
  - unfold view_imports. cbn [set_import set_pool shm cachedImportShmRecords_ shm_imports].
    rewrite (fmap_update import_of (shm_imports (shm s))) by eauto. rewrite Hr. by destruct result.
  - exists (<[h := (lines, smr_memIds result)]> A). split.
    + eapply store_set_import; eauto; [by apply own2_sym|]. eapply refs_import; [apply H|].
      intros i' p' _ (n & ids & Hn). destruct (decide (name = n)) as [<-|Hnn].
      * exists name, (smr_memIds result). rewrite lookup_insert_eq. congruence.
      * exists n, ids. by rewrite lookup_insert_ne.
    + intros Hv Hnl. apply owned_sym, Hk; [|by apply owned_sym].
      pose proof (head_of_ids _ _ _ _ _ _ _ _ (inv_pool _ _ H) (own2_l _ _ _ _ _ (own2_import _ _ H)) E) as Hi.
      destruct (import_head _ i); [by destruct Hi | done].
Qed.

(** An import has an entry in the index exactly when some process refers to it. *)
Lemma index_entry A s name i ids :
  store_inv A s -> cachedImportShmRecords_ s !! name = Some (i, ids) ->
  is_Some (cachedRefShmIdxRecords_ s !! i) <-> exists pid, ref_count s name pid <> 0.
Proof.
  intros H E. rewrite (wf2_lookup _ _ (refs_wf_idx _ _ _ _ _ (inv_refs _ _ H))). unfold ref_count. rewrite E.
  split; intros [pid Hp]; exists pid; destruct (look2 _ i pid); simpl in *; congruence.
Qed.

Lemma refs_import_delete A s name i ids :
  store_inv A s -> cachedImportShmRecords_ s !! name = Some (i, ids) -> cachedRefShmIdxRecords_ s !! i = None ->
  refs_inv (shm_refs (shm s)) (shmRefAllocator_ s) (cachedRefShmIdxRecords_ s) (cachedRefShmPidRecords_ s)
    (delete name (cachedImportShmRecords_ s)).
Proof.
  intros H E En. eapply refs_import; [apply H|]. intros i' p' Hl (n & ids' & Hn). exists n, ids'.
  rewrite lookup_delete_ne; [done|]. intros <-. rewrite E in Hn. injection Hn as <- <-.
  apply Hl. by apply look2_none.
Qed.

Lemma ref_count_import_delete s name i ids p mem a idle :
  cachedImportShmRecords_ s !! name = Some (i, ids) -> cachedRefShmIdxRecords_ s !! i = None ->
  forall n pid, ref_count (set_pool (set_import s a idle (delete name (cachedImportShmRecords_ s))) p mem) n pid = ref_count s n pid.
Proof.
  intros E En n pid. unfold ref_count. simpl. destruct (decide (name = n)) as [<-|Hne].
  - by rewrite lookup_delete_eq, E, look2_none.
  - by rewrite lookup_delete_ne.
Qed.

Lemma DelShmImportRecord_spec A s name :
  store_inv A s ->
  let '(rc, s') := DelShmImportRecord name s in
  import_frame s s' /\
  match view_imports s !! name with
  | Some v =>
      (rc = (-1)%Z /\ s' = s /\ exists pid, ref_count s name pid <> 0) \/
      (rc = 0%Z /\ view_imports s' = delete name (view_imports s) /\ (forall pid, ref_count s name pid = 0) /\
       pool_free s' = pool_free s + lines_needed (smo_memIds v) /\ exists A', kept A s A' s')
  | None => rc = (-1)%Z /\ s' = s
  end.
Proof.
  intros H. unfold DelShmImportRecord. rewrite (inv_mapped _ _ H). cbn [negb].
  destruct (cachedImportShmRecords_ s !! name) as [[i ids]|] eqn:E.
  2:{ rewrite (proj2 (view_imports_none s name) E). split_and!; done. }
  rewrite (view_imports_some _ _ _ _ E). pose proof (index_entry _ _ _ _ _ H E) as Hidx.
  destruct (cachedRefShmIdxRecords_ s !! i) as [inner|] eqn:En.
  { split; [done|]. left. split_and!; [done | done |]. by apply Hidx. }
  assert (Hz : forall pid, ref_count s name pid = 0).
  { intros pid. destruct (decide (ref_count s name pid = 0)); [done|]. destruct Hidx as [_ []]; eauto. done. }
  clear Hidx. pose proof (refs_import_delete _ _ _ _ _ H E En) as Hrefs.
  destruct (table_del _ _ ClearMemShareImport _ _ import_idle_name (fun _ => eq_refl) _ _ _ _ _ (inv_import _ _ H) E)
    as (a' & Er & Ht & Hs). simpl in Er, Ht, Hs. rewrite Er.
  destruct (own2_del A _ _ _ _ (import_head a') name i ids (own2_import _ _ H) E (import_head_ext _ _ _ Hs)) as [Ho Hk].
  pose proof (head_of_ids _ _ _ _ _ _ _ _ (inv_pool _ _ H) (own2_l _ _ _ _ _ (own2_import _ _ H)) E) as Hi.
  unfold import_head at 1 in Hi. unfold import_head at 1 in Ho. unfold import_head at 2 in Hk.
  pose proof (fmap_erase import_of _ _ _ _ Hs) as Hv.
  pose proof (ref_count_import_delete s name i ids) as Hrc.
  destruct (Z.eqb (si_memIdCount (shm_imports (shm s) !!! i)) 0); cbn [negb].
  - split; [by split_and!; [| | apply (Hrc (poolAllocator_ s) (shm_pool (shm s)))]|]. right.
    split_and!; [done | done | done | | exists A; by apply kept_set_import0].
    subst ids. unfold pool_free. simpl. replace (lines_needed []) with 0 by done. lia.
  - destruct Hi as (Hne & lines & EA & Hlen).
    pose proof (Release_refines _ _ _ (si_memIdBuffer (shm_imports (shm s) !!! i)) (inv_pool _ _ H)) as Hrel. rewrite EA in Hrel.
    destruct Hrel as (p' & mem' & Erel & Hp' & Hidle). cbn [set_import poolAllocator_ shm shm_pool]. rewrite Erel.
    split; [by split_and!; [| | apply Hrc]|]. right. split_and!; [done | by apply Hv | done | |].
    + unfold pool_free. cbn [set_pool set_import poolAllocator_]. rewrite Hidle, length_app. simpl. lia.
    + eexists. eapply kept_set_import; [done | apply Hp' | apply Ht | apply Ho | apply Hk | apply Hrefs].
Qed.

(** *** References *)

(** An operation on references leaves the other views alone. *)
Definition ref_frame s s' : Prop :=
  view_regions s' = view_regions s /\ view_leases s' = view_leases s /\ view_imports s' = view_imports s.

Lemma kept_set_ref A s a idle ci cp :
  store_inv A s -> refs_inv a idle ci cp (cachedImportShmRecords_ s) -> kept A s A (set_ref s a idle ci cp).
Proof. intros H Hr. split; [by apply store_set_ref | done]. Qed.

(** The slot of an import determines its name. *)
Lemma import_slot_inj A s n1 n2 i ids1 ids2 :
  store_inv A s -> cachedImportShmRecords_ s !! n1 = Some (i, ids1) -> cachedImportShmRecords_ s !! n2 = Some (i, ids2) -> n1 = n2.
Proof. intros H E1 E2. by eapply (table_slot_inj _ _ _ _ _ _ _ _ _ _ _ (inv_import _ _ H) E1 E2). Qed.

(** An idle reference slot that is given back unused is as before. *)
Lemma abandon_ref A s r idle :
  store_inv A s -> shmRefAllocator_ s = idle ++ [r] ->
  BaseRecordAllocator.Release SHM_MAX_REFERENCE_RECORD ClearMemShareRef r (shm_refs (shm s)) idle =
  (shm_refs (shm s), shmRefAllocator_ s).
Proof.
  intros H Hal. destruct (refs_slots _ _ _ _ _ (inv_refs _ _ H)) as (live & Hsl & _). rewrite Hal in *.
  assert (Hin : r ∈ idle ++ [r]) by (apply elem_of_app; right; by apply list_elem_of_singleton).
  unfold BaseRecordAllocator.Release. destruct (Nat.leb_spec SHM_MAX_REFERENCE_RECORD r) as [Hge|_].
  - pose proof (BaseRecordAllocator.slots_bound _ _ _ _ _ r Hsl (or_introl Hin)). lia.
  - f_equal. apply list_eq. intros j. destruct (decide (r = j)) as [->|Hne]; [|by rewrite list_lookup_alter_ne].
    rewrite list_lookup_alter_eq. destruct (shm_refs (shm s) !! j) as [x|] eqn:Ex; [|done]. simpl. f_equal.
    pose proof (BaseRecordAllocator.slots_idle _ _ _ _ _ Hsl _ Hin) as Hidle. rewrite (list_lookup_total_correct _ _ _ Ex) in Hidle.
    apply bool_decide_eq_true in Hidle. destruct x as [q k]. simpl in *. by rewrite Hidle.
Qed.

Definition ref_free s : nat := length (shmRefAllocator_ s).

Lemma AddShmRefRecord_spec A s pid name :
  store_inv A s -> pid_range pid ->
  let '(rc, s') := AddShmRefRecord pid name s in
  kept A s A s' /\ ref_frame s s' /\
  if decide (pid <> 0%Z /\ String.length name < RECORD_NAME_SIZE /\ is_Some (view_imports s !! name) /\ ref_free s <> 0)
  then rc = 0%Z /\ ref_free s = S (ref_free s') /\
    (forall n p, ref_count s' n p = if decide (n = name /\ p = pid) then S (ref_count s n p) else ref_count s n p)
  else rc = (-1)%Z /\ s' = s.
Proof.
  intros H Hrange.
  assert (Hno : forall P `{!Decision P} (X Y : Prop), ~ P -> Y -> kept A s A s /\ ref_frame s s /\ (if decide P then X else Y)).
  { intros P ? X Y HP HY. split_and!; [by apply kept_refl | done.. |]. by rewrite decide_False. }
  assert (Hnone : cachedImportShmRecords_ s !! name = None -> ~ is_Some (view_imports s !! name)).
  { intros E%view_imports_none [v Hv]. congruence. }
  unfold AddShmRefRecord, ref_free. destruct (Z.eqb_spec pid 0) as [|Hpid]; [apply Hno; [tauto | done]|].
  destruct (bool_decide_reflect (name = "")) as [Hn|Hn].
  { apply Hno; [|done]. intros (_ & _ & Hs & _). apply Hnone in Hs; [done|].
    destruct (cachedImportShmRecords_ s !! name) as [v|] eqn:E; [|done].
    by apply (table_name_nonempty _ _ _ _ import_idle_name _ _ _ _ _ (inv_import _ _ H)) in E. }
  destruct (Nat.leb_spec RECORD_NAME_SIZE (String.length name)); [apply Hno; [lia | done]|].
  rewrite (inv_mapped _ _ H). cbn [negb orb].
  pose proof (BaseRecordAllocator.Allocate_spec (shmRefAllocator_ s)) as Hal.
  destruct (BaseRecordAllocator.Allocate (shmRefAllocator_ s)) as [[r|] idle].
  2:{ destruct Hal as [Ha ->]. rewrite <- Ha, set_ref_same. apply Hno; [|done]. rewrite Ha. simpl. tauto. }
  destruct (cachedImportShmRecords_ s !! name) as [[i ids]|] eqn:E.
  2:{ rewrite (abandon_ref A) by done. rewrite set_ref_same. apply Hno; [|done]. tauto. }
  pose proof (inv_refs _ _ H) as Hr. rewrite Hal in Hr. pose proof (refs_add _ _ _ _ _ _ _ _ _ _ Hr E Hpid Hrange) as Hr'.
  split_and!; [by apply kept_set_ref | done |]. rewrite decide_True.
  2:{ rewrite (view_imports_some _ _ _ _ E), Hal, length_app. simpl. split_and!; [done | done | eauto | lia]. }
  split_and!; [done | rewrite Hal, length_app; simpl; lia |].
  intros n p. unfold ref_count. simpl. destruct (cachedImportShmRecords_ s !! n) as [[j js]|] eqn:En.
  - rewrite push2_look2. destruct (decide (i = j /\ pid = p)) as [[<- <-]|Hne].
    + rewrite (import_slot_inj _ _ _ _ _ _ _ H E En), decide_True, length_app by done. simpl. lia.
    + rewrite decide_False; [done|]. intros [-> ->]. apply Hne. split; congruence.
  - rewrite decide_False; [done|]. intros [-> _]. congruence.
Qed.

Lemma DelShmRefRecord_spec A s pid name :
  store_inv A s ->
  let '(rc, s') := DelShmRefRecord pid name s in
  kept A s A s' /\ ref_frame s s' /\
  if decide (pid <> 0%Z /\ String.length name < RECORD_NAME_SIZE /\ ref_count s name pid <> 0)
  then rc = 0%Z /\ ref_free s' = S (ref_free s) /\
    (forall n p, ref_count s' n p = if decide (n = name /\ p = pid) then ref_count s n p - 1 else ref_count s n p)
  else rc = (-1)%Z /\ ref_free s' = ref_free s /\ (forall n p, ref_count s' n p = ref_count s n p).
Proof.
  intros H.
  assert (Hno : forall P `{!Decision P} (X Y : Prop), ~ P -> Y -> kept A s A s /\ ref_frame s s /\ (if decide P then X else Y)).
  { intros P ? X Y HP HY. split_and!; [by apply kept_refl | done.. |]. by rewrite decide_False. }
  assert (Hzero : cachedImportShmRecords_ s !! name = None -> ref_count s name pid = 0) by (intros E; unfold ref_count; by rewrite E).
  unfold DelShmRefRecord, ref_free. destruct (Z.eqb_spec pid 0) as [|Hpid]; [apply Hno; [tauto | done]|].
  destruct (bool_decide_reflect (name = "")) as [Hn|Hn].
  { apply Hno; [|done]. intros (_ & _ & Hc). apply Hc, Hzero.
    destruct (cachedImportShmRecords_ s !! name) as [v|] eqn:E; [|done].
    by apply (table_name_nonempty _ _ _ _ import_idle_name _ _ _ _ _ (inv_import _ _ H)) in E. }
  destruct (Nat.leb_spec RECORD_NAME_SIZE (String.length name)); [apply Hno; [lia | done]|].
  rewrite (inv_mapped _ _ H). cbn [negb orb].
  destruct (cachedImportShmRecords_ s !! name) as [[i ids]|] eqn:E; [|apply Hno; [tauto | done]].
  destruct (refs_del _ _ _ _ _ pid i (inv_refs _ _ H)) as (ci' & cp' & -> & -> & Hm & Hlook).
  assert (Hc : forall a idle n p, ref_count (set_ref s a idle ci' cp') n p =
                 if decide (n = name /\ p = pid) then ref_count s n p - 1 else ref_count s n p).
  { intros a idle n p. unfold ref_count. simpl. destruct (cachedImportShmRecords_ s !! n) as [[j js]|] eqn:En.
    - rewrite Hlook. destruct (decide (i = j /\ pid = p)) as [[<- <-]|Hne].
      + rewrite (import_slot_inj _ _ _ _ _ _ _ H E En), decide_True, length_take by done. lia.
      + rewrite decide_False; [done|]. intros [-> ->]. apply Hne. split; congruence.
    - by destruct (decide _). }
  assert (Hcur : ref_count s name pid = length (look2 (cachedRefShmIdxRecords_ s) i pid)) by (unfold ref_count; by rewrite E).
  destruct (last (look2 (cachedRefShmIdxRecords_ s) i pid)) as [r|] eqn:El.
  - destruct Hm as (a' & -> & Hr). split_and!; [by apply kept_set_ref | done |]. apply last_Some in El as [l El].
    rewrite El, length_app in Hcur. simpl in Hcur. rewrite decide_True by (split_and!; [done | done | lia]).
    split_and!; [done | simpl; rewrite length_app; simpl; lia | done].
  - destruct Hm as (Hr & _). apply last_None in El. rewrite El in Hcur. simpl in Hcur.
    split_and!; [by apply kept_set_ref | done |]. rewrite decide_False by tauto. split_and!; [done | done |].
    intros n p. rewrite Hc. destruct (decide _) as [[-> ->]|]; [|done]. lia.
Qed.

(** References of one process over all imports. *)
Definition pid_refs s (pid : Z) : nat := sum_list ((fun n => ref_count s n pid) <$> (map_to_list (cachedImportShmRecords_ s)).*1).

Lemma length_bind {X Y} (f : X -> list Y) l : length (l ≫= f) = sum_list ((fun x => length (f x)) <$> l).
Proof. induction l as [|x l IH]; [done|]. by rewrite bind_cons, length_app, IH. Qed.

(** The slots of one process, enumerated through the imports. *)
Lemma pid_slots A s pid (rs : list nat) :
  store_inv A s -> NoDup rs -> (forall r, r ∈ rs <-> exists i, r ∈ look2 (cachedRefShmIdxRecords_ s) i pid) ->
  length rs = pid_refs s pid.
Proof.
  intros H Hnd Hrs. pose proof (inv_refs _ _ H) as Hr.
  set (f := fun e : string * (nat * list Z) => look2 (cachedRefShmIdxRecords_ s) e.2.1 pid).
  assert (Hp : rs ≡ₚ map_to_list (cachedImportShmRecords_ s) ≫= f).
  { apply NoDup_Permutation; [done | |].
    - apply NoDup_bind; [| intros; apply Hr | apply NoDup_map_to_list].
      intros [n1 [i1 ids1]] [n2 [i2 ids2]] r E1%elem_of_map_to_list E2%elem_of_map_to_list R1 R2.
      destruct (refs_unique _ _ _ _ _ _ _ _ _ _ Hr R1 R2) as [Hi _]. simpl in Hi. subst i2.
      pose proof (import_slot_inj _ _ _ _ _ _ _ H E1 E2). subst n2. congruence.
    - intros r. rewrite Hrs, list_elem_of_bind. split.
      + intros [i Hi]. destruct (refs_target _ _ _ _ _ Hr i pid) as (n & ids & E); [by intros E; rewrite E in Hi; apply not_elem_of_nil in Hi|].
        exists (n, (i, ids)). split; [done|]. by apply elem_of_map_to_list.
      + intros ([n [i ids]] & Hi & _). by exists i. }
  rewrite Hp, length_bind. unfold pid_refs. rewrite <- list_fmap_compose. f_equal. apply list_fmap_ext.
  intros k [n [i ids]] E%list_elem_of_lookup_2%elem_of_map_to_list. unfold f, ref_count. simpl. by rewrite E.
Qed.

Lemma DelShmRefRecordsByPid_spec A s pid :
  store_inv A s -> pid <> 0%Z ->
  let '(rc, s') := DelShmRefRecordsByPid pid s in
  kept A s A s' /\ ref_frame s s' /\ rc = 0%Z /\ ref_free s' = ref_free s + pid_refs s pid /\
  (forall n p, ref_count s' n p = if decide (p = pid) then 0 else ref_count s n p).
Proof.
  intros H Hpid. unfold DelShmRefRecordsByPid. destruct (Z.eqb_spec pid 0) as [|_]; [done|]. rewrite (inv_mapped _ _ H). cbn [negb].
  destruct (cachedRefShmPidRecords_ s !! pid) as [inner|] eqn:E.
  - destruct (refs_del_pid _ _ _ _ _ pid inner (inv_refs _ _ H) E) as (a' & -> & Hr & Hnd & Hrs & Hl).
    split_and!; [by apply kept_set_ref | done | done | unfold ref_free; simpl; by rewrite length_app, (pid_slots A s pid _ H Hnd Hrs) |].
    intros n p. unfold ref_count. simpl.
    destruct (cachedImportShmRecords_ s !! n) as [[i ids]|]; [|by destruct (decide _)]. rewrite Hl. by destruct (decide _).
  - assert (Hz : forall i, look2 (cachedRefShmIdxRecords_ s) i pid = []).
    { intros i. rewrite <- (refs_agree _ _ _ _ _ (inv_refs _ _ H)). by apply look2_none. }
    split_and!; [by apply kept_refl | done.. | |].
    + rewrite <- (pid_slots A s pid [] H); [simpl; lia | constructor |]. setoid_rewrite Hz. intros r. split; [|by intros [_ ?]].
      by intros ?%not_elem_of_nil.
    + intros n p. destruct (decide (p = pid)) as [->|]; [|done]. unfold ref_count.
      destruct (cachedImportShmRecords_ s !! n) as [[i ids]|]; [|done]. by rewrite Hz.
Qed.

End Views.

(** * Suspended clients: the persisted array behaves as a bounded set of process ids. *)

Section Suspend.
Context {G : Geometry}.
Implicit Types a : SuspendClientArray.

Lemma suspend_live_length a : suspend_inv a -> length (suspend_live a) = Z.to_nat (sc_count a).
Proof. intros H. unfold suspend_live. rewrite length_take, (suspend_length _ H). pose proof (suspend_count _ H). lia. Qed.

Lemma suspend_live_lookup a i :
  suspend_inv a -> i < Z.to_nat (sc_count a) -> suspend_live a !! i = Some (sc_pids a !!! i).
Proof.
  intros H Hi. unfold suspend_live. rewrite lookup_take_lt by done. apply list_lookup_lookup_total_lt.
  rewrite (suspend_length _ H). pose proof (suspend_count _ H). lia.
Qed.

(** The search loop finds a process id exactly when it is in the live part. *)
Lemma suspend_index_spec a pid :
  suspend_inv a ->
  match suspend_index a pid with
  | Some i => suspend_live a !! i = Some (u32 pid)
  | None => u32 pid ∉ suspend_live a
  end.
Proof.
  intros H. unfold suspend_index. destruct (List.find _ _) as [i|] eqn:E.
  - apply List.find_some in E as [Hi%list_elem_of_In%elem_of_seq Hp]. apply Z.eqb_eq in Hp.
    rewrite suspend_live_lookup by (done || lia). by rewrite Hp.
  - intros Hin%list_elem_of_lookup. destruct Hin as [i Hi].
    pose proof (lookup_lt_Some _ _ _ Hi) as Hlt. rewrite suspend_live_length in Hlt by done.
    rewrite suspend_live_lookup in Hi by done. injection Hi as Hi.
    assert (Hin : In i (seq 0 (Z.to_nat (sc_count a)))) by (apply list_elem_of_In, elem_of_seq; lia).
    pose proof (List.find_none _ _ E i Hin) as Hn. cbv beta in Hn. rewrite Hi, Z.eqb_refl in Hn. discriminate Hn.
Qed.

(** What [ListSuspendClients] reports is the live part. *)
Lemma ListSuspendClients_live A s : store_inv A s -> ListSuspendClients s = suspend_live (shm_suspend (shm s)).
Proof.
  intros H. pose proof (inv_suspend _ _ H) as Hs. unfold ListSuspendClients. rewrite (inv_mapped _ _ H).
  destruct (Z.ltb_spec (Z.of_nat MAX_SUSPEND_CLIENT) (sc_count (shm_suspend (shm s)))) as [Hlt|_];
    [pose proof (suspend_count _ Hs); lia|]. cbn [negb orb].
  apply list_eq. intros i. rewrite list_lookup_fmap. destruct (decide (i < Z.to_nat (sc_count (shm_suspend (shm s))))) as [Hi|Hi].
  - rewrite lookup_seq_lt by done. simpl. rewrite suspend_live_lookup by done. f_equal. apply s32_small.
    pose proof (suspend_live_lookup _ _ Hs Hi) as Hl. pose proof (suspend_range _ Hs) as Hr. rewrite Forall_lookup in Hr.
    specialize (Hr _ _ Hl). simpl in Hr. lia.
  - rewrite lookup_seq_ge by lia. rewrite (lookup_ge_None_2 (suspend_live _)); [done|]. rewrite suspend_live_length by done. lia.
Qed.

Lemma IsClientSuspended_spec A s pid :
  store_inv A s -> (0 < pid < 2 ^ 31)%Z -> IsClientSuspended pid s = bool_decide (pid ∈ ListSuspendClients s).
Proof.
  intros H Hp. rewrite (ListSuspendClients_live _ _ H). pose proof (inv_suspend _ _ H) as Hs. unfold IsClientSuspended.
  rewrite (inv_mapped _ _ H). destruct (Z.leb_spec pid 0); [lia|].
  destruct (Z.ltb_spec (Z.of_nat MAX_SUSPEND_CLIENT) (sc_count (shm_suspend (shm s)))) as [Hlt|_];
    [pose proof (suspend_count _ Hs); lia|]. cbn [negb orb].
  pose proof (suspend_index_spec _ pid Hs) as Hi. rewrite u32_small in Hi by lia. destruct (suspend_index _ pid) as [i|].
  - rewrite bool_decide_true; [done|]. by eapply list_elem_of_lookup_2.
  - by rewrite bool_decide_false.
Qed.

(** Appending behind the live part. *)
Lemma suspend_append a pid :
  suspend_inv a -> (0 < pid < 2 ^ 31)%Z -> pid ∉ suspend_live a -> (sc_count a < Z.of_nat MAX_SUSPEND_CLIENT)%Z ->
  let a' := mkSuspendClientArray (sc_count a + 1) (<[Z.to_nat (sc_count a) := u32 pid]> (sc_pids a)) in
  suspend_inv a' /\ suspend_live a' = suspend_live a ++ [pid].
Proof.
  intros H Hp Hni Hlt a'. pose proof (suspend_count _ H) as Hc. pose proof (suspend_length _ H) as Hl.
  assert (E : suspend_live a' = suspend_live a ++ [pid]).
  { unfold suspend_live, a'. simpl. replace (Z.to_nat (sc_count a + 1)) with (S (Z.to_nat (sc_count a))) by lia.
    rewrite (take_S_r _ _ pid); [by rewrite take_insert_ge by lia|].
    rewrite list_lookup_insert_eq by lia. by rewrite u32_small by lia. }
  split; [|done]. split; [simpl; lia | simpl; by rewrite length_insert | |]; rewrite E.
  - apply NoDup_app. split_and!; [apply H | | apply NoDup_singleton]. intros x Hx ->%list_elem_of_singleton. done.
  - apply Forall_app. split; [apply H | by apply Forall_singleton].
Qed.

Lemma insert_swap_head (l : list Z) i p x : l !! i = Some p -> x :: l ≡ₚ p :: <[i := x]> l.
Proof.
  intros Hi. pose proof (lookup_lt_Some _ _ _ Hi). rewrite (insert_take_drop _ _ _ H).
  rewrite <- (take_drop_middle _ _ _ Hi) at 1. rewrite <- !Permutation_middle. apply Permutation_swap.
Qed.

(** Filling the hole with the last live entry. *)
Lemma suspend_remove a i pid :
  suspend_inv a -> suspend_live a !! i = Some pid ->
  let a' := mkSuspendClientArray (sc_count a - 1) (<[i := sc_pids a !!! Z.to_nat (sc_count a - 1)]> (sc_pids a)) in
  suspend_inv a' /\ suspend_live a ≡ₚ pid :: suspend_live a'.
Proof.
  intros H Hi a'. pose proof (suspend_count _ H) as Hc. pose proof (suspend_length _ H) as Hl.
  pose proof (lookup_lt_Some _ _ _ Hi) as Hlt. rewrite suspend_live_length in Hlt by done.
  set (k := Z.to_nat (sc_count a - 1)). assert (Hk : Z.to_nat (sc_count a) = S k) by lia.
  assert (Es : suspend_live a = take k (sc_pids a) ++ [sc_pids a !!! k]).
  { unfold suspend_live. rewrite Hk. apply take_S_r, list_lookup_lookup_total_lt. lia. }
  assert (E : suspend_live a ≡ₚ pid :: suspend_live a').
  { unfold suspend_live at 2. simpl. fold k. rewrite Es in *. destruct (decide (i = k)) as [->|Hne].
    - rewrite take_insert_ge by lia. rewrite lookup_app_r in Hi by (rewrite length_take; lia).
      rewrite length_take, Nat.min_l, Nat.sub_diag in Hi by lia. injection Hi as ->. by rewrite (comm app).
    - rewrite take_insert_lt by lia. rewrite lookup_app_l in Hi by (rewrite length_take; lia).
      rewrite (comm app). simpl. by apply insert_swap_head. }
  split; [|done]. split; [simpl; lia | simpl; by rewrite length_insert | |].
  - pose proof (suspend_nodup _ H) as Hn. rewrite E in Hn. by apply NoDup_cons in Hn as [_ ?].
  - pose proof (suspend_range _ H) as Hr. rewrite E in Hr. by apply Forall_cons in Hr as [_ ?].
Qed.

(** The compaction loop, after [n] entries: the survivors of the first [n] are in
    front, what is behind the cursor is untouched. *)
Lemma prune_loop alive (orig : list Z) n :
  n <= length orig -> Forall (fun p => (0 < p < 2 ^ 31)%Z) (take n orig) ->
  let '(pids, w) := foldl (fun '(pids, writeIndex) i =>
               let pid := s32 (pids !!! i) in
               if Z.ltb 0 pid && alive pid then (<[writeIndex := u32 pid]> pids, S writeIndex)
               else (pids, writeIndex)) (orig, 0) (seq 0 n) in
  length pids = length orig /\ w <= n /\ take w pids = List.filter alive (take n orig) /\
  (forall i, n <= i -> pids !! i = orig !! i).
Proof.
  induction n as [|n IH]; intros Hn Hf; [by simpl|]. rewrite seq_S, foldl_app. simpl.
  destruct (lookup_lt_is_Some_2 orig n) as [p Hp]; [lia|]. rewrite (take_S_r _ _ _ Hp) in *.
  apply Forall_app in Hf as [Hf Hlast]. rewrite Forall_singleton in Hlast. specialize (IH ltac:(lia) Hf).
  destruct (foldl _ _ _) as [pids w]. destruct IH as (Hl & Hw & Ht & Ho).
  assert (E : pids !!! n = p) by (apply list_lookup_total_correct; rewrite Ho by lia; done).
  rewrite E, s32_small by lia. rewrite List.filter_app. simpl. destruct (Z.ltb_spec 0 p); [|lia]. simpl.
  destruct (alive p).
  - split_and!; [by rewrite length_insert | lia | |].
    + rewrite (take_S_r _ _ p); [by rewrite take_insert_ge, Ht by lia|].
      rewrite list_lookup_insert_eq by lia. by rewrite u32_small by lia.
    + intros i Hi. rewrite list_lookup_insert_ne by lia. apply Ho. lia.
  - split_and!; [done | lia | by rewrite app_nil_r |]. intros i Hi. apply Ho. lia.
Qed.

Lemma prune_spec alive a :
  suspend_inv a ->
  suspend_inv (prune_suspended alive a) /\ suspend_live (prune_suspended alive a) = List.filter alive (suspend_live a).
Proof.
  intros H. pose proof (suspend_count _ H) as Hc. pose proof (suspend_length _ H) as Hl. unfold prune_suspended.
  destruct (Z.ltb_spec (Z.of_nat MAX_SUSPEND_CLIENT) (sc_count a)); [lia|].
  pose proof (prune_loop alive (sc_pids a) (Z.to_nat (sc_count a)) ltac:(lia) (suspend_range _ H)) as Hp.
  destruct (foldl _ _ _) as [pids w]. destruct Hp as (Hlp & Hw & Ht & _). fold (suspend_live a) in Ht.
  assert (E : suspend_live (mkSuspendClientArray (Z.of_nat w) pids) = List.filter alive (suspend_live a)).
  { unfold suspend_live at 1. simpl. by rewrite Nat2Z.id. }
  split; [|done]. split; [simpl; lia | simpl; lia | |]; rewrite E.
  - apply NoDup_ListNoDup, List.NoDup_filter, NoDup_ListNoDup, H.
  - pose proof (suspend_range _ H) as Hr. rewrite Forall_forall in *. intros x Hx. apply Hr.
    apply list_elem_of_In, List.filter_In in Hx as [Hx _]. by apply list_elem_of_In.
Qed.

Lemma AddSuspendClient_spec A s pid :
  store_inv A s -> (0 < pid < 2 ^ 31)%Z ->
  let '(rc, s') := AddSuspendClient pid s in
  store_inv A s' /\
  if decide (pid ∈ ListSuspendClients s) then rc = 0%Z /\ s' = s
  else if decide (length (ListSuspendClients s) = MAX_SUSPEND_CLIENT) then rc = (-2)%Z /\ s' = s
  else rc = 0%Z /\ ListSuspendClients s' = ListSuspendClients s ++ [pid].
Proof.
  intros H Hp. rewrite !(ListSuspendClients_live _ _ H). pose proof (inv_suspend _ _ H) as Hs. unfold AddSuspendClient.
  rewrite (inv_mapped _ _ H). destruct (Z.leb_spec pid 0); [lia|]. pose proof (suspend_count _ Hs) as Hc.
  destruct (Z.ltb_spec (Z.of_nat MAX_SUSPEND_CLIENT) (sc_count (shm_suspend (shm s)))); [lia|]. cbn [negb orb].
  pose proof (suspend_index_spec _ pid Hs) as Hi. rewrite u32_small in * by lia.
  destruct (suspend_index _ pid) as [i|].
  { split; [done|]. rewrite decide_True; [done|]. by eapply list_elem_of_lookup_2. }
  rewrite (suspend_live_length _ Hs). destruct (decide (pid ∈ _)) as [?|_]; [done|].
  destruct (Z.eqb_spec (sc_count (shm_suspend (shm s))) (Z.of_nat MAX_SUSPEND_CLIENT)) as [E|E].
  { split; [done|]. rewrite decide_True; [done|]. lia. }
  rewrite decide_False by lia. destruct (suspend_append _ pid Hs Hp Hi) as [Hs' E']; [lia|].
  rewrite u32_small in * by lia. assert (H' : store_inv A (set_misc s (shm_createSeqNo (shm s)) _)) by (by apply store_set_misc).
  split_and!; [done | done |]. by rewrite (ListSuspendClients_live _ _ H').
Qed.

Lemma DelSuspendClient_spec A s pid :
  store_inv A s -> (0 < pid < 2 ^ 31)%Z ->
  let '(rc, s') := DelSuspendClient pid s in
  store_inv A s' /\ rc = 0%Z /\
  if decide (pid ∈ ListSuspendClients s) then ListSuspendClients s ≡ₚ pid :: ListSuspendClients s' else s' = s.
Proof.
  intros H Hp. rewrite !(ListSuspendClients_live _ _ H). pose proof (inv_suspend _ _ H) as Hs. unfold DelSuspendClient.
  rewrite (inv_mapped _ _ H). destruct (Z.leb_spec pid 0); [lia|]. pose proof (suspend_count _ Hs) as Hc.
  destruct (Z.ltb_spec (Z.of_nat MAX_SUSPEND_CLIENT) (sc_count (shm_suspend (shm s)))); [lia|]. cbn [negb orb].
  pose proof (suspend_index_spec _ pid Hs) as Hi. rewrite u32_small in * by lia.
  destruct (suspend_index _ pid) as [i|].
  - destruct (suspend_remove _ _ _ Hs Hi) as [Hs' E].
    assert (H' : store_inv A (set_misc s (shm_createSeqNo (shm s)) _)) by (by apply store_set_misc).
    split_and!; [done | done |]. rewrite decide_True by (by eapply list_elem_of_lookup_2).
    by rewrite (ListSuspendClients_live _ _ H').
  - split_and!; [done | done |]. by rewrite decide_False.
Qed.

End Suspend.
