(* ===== verification/StoreRestart.v ===== *)
(** Restarting the daemon: [Initialize] on a new object over the file a previous
    one left rebuilds the same caches. *)

From S2P Require Import Prelude StoreTypes IdPool IdPoolSpec RecordAllocator RecordStore StoreTable StoreInv StoreSteps.
Import RecordStore.

(** ** Rebuilding an index *)

Section Rebuild.
Context {K1 K2 : Type} `{Countable K1, Countable K2}.

Lemma push2_foldl (k1 : nat -> K1) (k2 : nat -> K2) (l : list nat) (m : gmap K1 (gmap K2 (list nat))) :
  wf2 m ->
  wf2 (foldl (fun c r => push2 (k1 r) (k2 r) r c) m l) /\
  forall x y, look2 (foldl (fun c r => push2 (k1 r) (k2 r) r c) m l) x y =
    look2 m x y ++ List.filter (fun r => bool_decide (k1 r = x /\ k2 r = y)) l.
Proof.
  revert m. induction l as [|r l IH]; intros m Hm; cbn [foldl List.filter].
  - split; [done|]. intros x y. by rewrite app_nil_r.
  - destruct (IH (push2 (k1 r) (k2 r) r m)) as [Hw Hl]; [by apply push2_wf2|]. split; [done|].
    intros x y. rewrite Hl, push2_look2. destruct (decide (k1 r = x /\ k2 r = y)).
    + rewrite bool_decide_true by done. by rewrite <- app_assoc.
    + by rewrite bool_decide_false.
Qed.

End Rebuild.

Section Restart.
Context {G : Geometry}.
Implicit Types A : gmap nat (list nat * list Z).

(** ** The four tables *)

Lemma RestoreRegion_eq s idle c :
  regionAllocator_ s = [] -> cachedRegionRecords_ s = ∅ -> region_table (shm_regions (shm s)) idle c ->
  exists idle', RestoreRegion s = set_region s (shm_regions (shm s)) idle' c /\ region_table (shm_regions (shm s)) idle' c.
Proof.
  intros Ha Hc Ht. destruct (table_restore _ _ _ _ _ _ _ Some Ht (fun _ _ _ => eq_refl)) as (live & idle' & E & _ & Ht' & Hf).
  exists idle'. split; [|done]. unfold RestoreRegion. rewrite Ha, Hc, E. f_equal. exact Hf.
Qed.

(** What the lease and import loops cache for a slot, from the record's count and buffer. *)
Definition restored_ids (p : RecordIdPoolAllocator.state) (mem : MemIdRecordPool) (hd : nat -> option nat) (i : nat)
  : option (nat * list Z) :=
  match hd i with
  | None => Some (i, [])
  | Some h => match RecordIdPoolAllocator.FillAllocated h p mem with
              | RecordIdPoolAllocator.Walked ids => Some (i, ids)
              | _ => None
              end
  end.

Lemma restored_ids_own A p mem hd c :
  pool_inv A p mem -> own A hd c -> forall n v, c !! n = Some v -> restored_ids p mem hd v.1 = Some v.
Proof.
  intros Hp Ho n [i ids] E. unfold restored_ids. simpl. pose proof (own_ids _ _ _ Ho _ _ _ E) as Hi.
  destruct (hd i) as [h|]; [|by subst]. destruct Hi as [lines Hi]. by rewrite (FillAllocated_refines _ _ _ _ Hp), Hi.
Qed.

Lemma foldl_ext_fun {X Y} (f g : X -> Y -> X) l x : (forall x y, f x y = g x y) -> foldl f x l = foldl g x l.
Proof. intros H. revert x. induction l as [|y l IH]; intros x; simpl; [done|]. by rewrite H, IH. Qed.

Lemma RestoreMemLease_eq A s idle c :
  memLeaseAllocator_ s = [] -> cachedLeaseRecords_ s = ∅ -> lease_table (shm_leases (shm s)) idle c ->
  pool_inv A (poolAllocator_ s) (shm_pool (shm s)) -> own A (lease_head (shm_leases (shm s))) c ->
  exists idle', RestoreMemLease s = set_lease s (shm_leases (shm s)) idle' c /\ lease_table (shm_leases (shm s)) idle' c.
Proof.
  intros Ha Hc Ht Hp Ho.
  destruct (table_restore _ _ _ _ _ _ _ _ Ht (restored_ids_own _ _ _ _ _ Hp Ho)) as (live & idle' & E & _ & Ht' & Hf).
  exists idle'. split; [|done]. unfold RestoreMemLease. rewrite Ha, Hc, E. f_equal. rewrite <- Hf.
  apply foldl_ext_fun. intros m i. unfold restored_ids, lease_head. cbv zeta.
  destruct (Z.eqb _ _); [done|]. by destruct (RecordIdPoolAllocator.FillAllocated _ _ _).
Qed.

Lemma RestoreShmImport_eq A s idle c :
  shmImportAllocator_ s = [] -> cachedImportShmRecords_ s = ∅ -> import_table (shm_imports (shm s)) idle c ->
  pool_inv A (poolAllocator_ s) (shm_pool (shm s)) -> own A (import_head (shm_imports (shm s))) c ->
  exists idle', RestoreShmImport s = set_import s (shm_imports (shm s)) idle' c /\ import_table (shm_imports (shm s)) idle' c.
Proof.
  intros Ha Hc Ht Hp Ho.
  destruct (table_restore _ _ _ _ _ _ _ _ Ht (restored_ids_own _ _ _ _ _ Hp Ho)) as (live & idle' & E & _ & Ht' & Hf).
  exists idle'. split; [|done]. unfold RestoreShmImport. rewrite Ha, Hc, E. f_equal. rewrite <- Hf.
  apply foldl_ext_fun. intros m i. unfold restored_ids, import_head. cbv zeta.
  destruct (Z.eqb _ _); [done|]. by destruct (RecordIdPoolAllocator.FillAllocated _ _ _).
Qed.

(** The vectors of the rebuilt index hold the same slots, in slot order. *)
Lemma refs_rebuild a idle ci cp c live idle' (k1 : nat -> nat) (k2 : nat -> Z) :
  refs_inv a idle ci cp c ->
  k1 = (fun r => sr_shmImportIndex (a !!! r)) -> k2 = (fun r => s32 (sr_pid (a !!! r))) ->
  BaseRecordAllocator.slots_inv SHM_MAX_REFERENCE_RECORD MemShareRefIdle a idle' live ->
  (forall r, r ∈ live <-> exists i p, r ∈ look2 ci i p) ->
  let ci' := foldl (fun m r => push2 (k1 r) (k2 r) r m) ∅ live in
  let cp' := foldl (fun m r => push2 (k2 r) (k1 r) r m) ∅ live in
  refs_inv a idle' ci' cp' c /\ (forall i p, look2 ci' i p ≡ₚ look2 ci i p).
Proof.
  intros H -> -> Hs Hl ci' cp'.
  destruct (push2_foldl (fun r => sr_shmImportIndex (a !!! r)) (fun r => s32 (sr_pid (a !!! r))) live ∅ wf2_empty) as [Wi Li].
  destruct (push2_foldl (fun r => s32 (sr_pid (a !!! r))) (fun r => sr_shmImportIndex (a !!! r)) live ∅ wf2_empty) as [Wp Lp].
  assert (Hkeys : forall i p r, r ∈ look2 ci i p -> sr_shmImportIndex (a !!! r) = i /\ s32 (sr_pid (a !!! r)) = p).
  { intros i p r Hr. destruct (refs_content _ _ _ _ _ H _ _ _ Hr) as [-> Hp]. simpl. by rewrite (s32_u32_id _ Hp). }
  assert (Hnd : NoDup live) by (by pose proof (BaseRecordAllocator.slots_nodup _ _ _ _ _ Hs) as (_ & _ & ?)%NoDup_app).
  assert (Hperm : forall i p, look2 ci' i p ≡ₚ look2 ci i p).
  { intros i p. unfold ci'. rewrite Li, look2_empty. simpl. apply NoDup_Permutation; [| apply H |].
    - by apply NoDup_ListNoDup, List.NoDup_filter, NoDup_ListNoDup.
    - intros r. rewrite list_elem_of_In, List.filter_In, bool_decide_eq_true, <- list_elem_of_In, Hl. split.
      + intros [(i' & p' & Hr) [<- <-]]. by destruct (Hkeys _ _ _ Hr) as [-> ->].
      + intros Hr. split; [eauto | by apply Hkeys]. }
  split; [|done]. split; [| exact Wi | exact Wp | | | |].
  - exists live. split; [done|]. intros r. rewrite Hl. by setoid_rewrite Hperm.
  - intros i p. unfold ci', cp'. rewrite Li, Lp, !look2_empty. simpl. apply List.filter_ext. intros r.
    apply bool_decide_ext. tauto.
  - intros i p. rewrite Hperm. apply H.
  - intros i p r. rewrite Hperm. apply H.
  - intros i p Hne. apply (refs_target _ _ _ _ _ H i p). intros E. apply Hne, Permutation_nil_r. by rewrite <- E.
Qed.

Lemma RestoreShmReference_eq s idle ci cp c :
  shmRefAllocator_ s = [] -> cachedRefShmIdxRecords_ s = ∅ -> cachedRefShmPidRecords_ s = ∅ ->
  refs_inv (shm_refs (shm s)) idle ci cp c ->
  exists idle' ci' cp', RestoreShmReference s = set_ref s (shm_refs (shm s)) idle' ci' cp' /\
    refs_inv (shm_refs (shm s)) idle' ci' cp' c /\ (forall i p, look2 ci' i p ≡ₚ look2 ci i p).
Proof.
  intros Ha Hi Hp H. destruct (refs_slots _ _ _ _ _ H) as (live & Hs & Hl).
  destruct (BaseRecordAllocator.Restore_spec _ _ _ _ _ Hs) as (live' & idle' & E & Hpl & _ & Hs').
  destruct (refs_rebuild _ _ _ _ _ live' idle' _ _ H eq_refl eq_refl Hs') as [Hr Hperm].
  { intros r. by rewrite Hpl. }
  do 3 eexists. split_and!; [|apply Hr | apply Hperm]. unfold RestoreShmReference. by rewrite Ha, Hi, Hp, E.
Qed.

(** ** The whole start-up *)

(** The object agrees with [s] on everything it caches; only the order inside the
    reference vectors and the idle vectors may differ. *)
Record same_content (s s' : state) : Prop := {
  same_shm : shm_regions (shm s') = shm_regions (shm s) /\ shm_leases (shm s') = shm_leases (shm s) /\
    shm_imports (shm s') = shm_imports (shm s) /\ shm_refs (shm s') = shm_refs (shm s) /\
    shm_pool (shm s') = shm_pool (shm s) /\ shm_createSeqNo (shm s') = shm_createSeqNo (shm s);
  same_region : cachedRegionRecords_ s' = cachedRegionRecords_ s;
  same_lease : cachedLeaseRecords_ s' = cachedLeaseRecords_ s;
  same_import : cachedImportShmRecords_ s' = cachedImportShmRecords_ s;
  same_refs : forall i p, look2 (cachedRefShmIdxRecords_ s') i p ≡ₚ look2 (cachedRefShmIdxRecords_ s) i p;
}.

Lemma Initialize_restart A s os fd :
  store_inv A s -> (0 <= fd)%Z -> os_ftruncate_ok os = true -> os_mmap_ok os = true ->
  exists s', Initialize os fd (construct (shm s)) = (0%Z, s') /\ store_inv A s' /\ same_content s s' /\
    shm_suspend (shm s') = prune_suspended (os_alive os) (shm_suspend (shm s)).
Proof.
  intros H Hfd Ht Hm. unfold Initialize. destruct (Z.ltb_spec fd 0); [lia|]. rewrite Ht, Hm. cbn [negb].
  set (s3 := CheckAllocators _).
  assert (Hi0 : RecordIdPoolAllocator.idleIdIndexes_ (poolAllocator_ s3) = []) by done.
  assert (Hpool : shm_pool (shm s3) = shm_pool (shm s)) by done. rewrite Hpool.
  destruct (restart_pool_inv _ _ _ (poolAllocator_ s3) (inv_pool _ _ H) Hi0) as [Hp _].
  destruct (RecordIdPoolAllocator.Initialize true (shm_pool (shm s)) (poolAllocator_ s3)) as [ret p] eqn:Ei.
  unfold RecordIdPoolAllocator.Initialize in Ei. cbn [negb] in Ei. injection Ei as <- <-. cbn [Z.eqb negb snd] in Hp |- *.
  set (p := RecordIdPoolAllocator.mkState _ _) in *. set (s4 := set_pool s3 p (shm_pool (shm s))). unfold Restore.
  destruct (RestoreRegion_eq s4 _ _ eq_refl eq_refl (inv_region _ _ H)) as (i1 & -> & T1).
  set (s5 := set_region _ _ _ _).
  destruct (RestoreMemLease_eq A s5 _ _ eq_refl eq_refl (inv_lease _ _ H) Hp (own2_l _ _ _ _ _ (inv_owners _ _ H))) as (i2 & -> & T2).
  set (s6 := set_lease _ _ _ _).
  destruct (RestoreShmImport_eq A s6 _ _ eq_refl eq_refl (inv_import _ _ H) Hp (own2_r _ _ _ _ _ (inv_owners _ _ H))) as (i3 & -> & T3).
  set (s7 := set_import _ _ _ _).
  destruct (RestoreShmReference_eq s7 _ _ _ _ eq_refl eq_refl eq_refl (inv_refs _ _ H)) as (i4 & ci & cp & -> & T4 & Hperm).
  eexists. split; [done|]. split_and!; [|by split | done].
  split; [done | exact T1 | exact T2 | exact T3 | exact T4 | exact Hp | apply H | by apply prune_spec, H].
Qed.

(** The same content gives the same views. *)
Lemma same_views s s' :
  same_content s s' ->
  view_regions s' = view_regions s /\ view_leases s' = view_leases s /\ view_imports s' = view_imports s /\
  (forall n pid, ref_count s' n pid = ref_count s n pid).
Proof.
  intros [(E1 & E2 & E3 & _) Hr Hl Hi Hp]. unfold view_regions, view_leases, view_imports, ref_count.
  rewrite E1, E2, E3, Hr, Hl, Hi. split_and!; try done. intros n pid.
  destruct (cachedImportShmRecords_ s !! n) as [[i ids]|]; [|done]. by rewrite Hp.
Qed.

Lemma same_noleak A s s' : same_content s s' -> noleak A s <-> noleak A s'.
Proof. intros [(E1 & E2 & E3 & _) Hr Hl Hi Hp]. unfold noleak. by rewrite E2, E3, Hl, Hi. Qed.

(** ** An empty file *)

Definition empty_store : state :=
  mkStore zero_shm true (seq 0 REGION_MAX_RECORD) (seq 0 MEM_LEASE_MAX_RECORD) (seq 0 SHM_MAX_ATTACH_RECORD)
    (seq 0 SHM_MAX_REFERENCE_RECORD) (RecordIdPoolAllocator.Initialize true zero_pool RecordIdPoolAllocator.init_state).2
    ∅ ∅ ∅ ∅ ∅.

Lemma slots_replicate {R} `{!Inhabited R} n (idleF : R -> bool) z :
  idleF z = true -> BaseRecordAllocator.slots_inv n idleF (replicate n z) (seq 0 n) [].
Proof.
  intros Hz. split; [by rewrite length_replicate | by rewrite app_nil_r | | by intros i ?%not_elem_of_nil].
  intros i [_ Hi]%elem_of_seq. rewrite lookup_total_replicate_2; [done | lia].
Qed.

Lemma table_replicate {R V} `{!Inhabited R} n (idleF : R -> bool) nameF (slot : V -> nat) z :
  idleF z = true -> table_inv n idleF nameF slot (replicate n z) (seq 0 n) ∅.
Proof.
  intros Hz. split; [|intros m v; by rewrite lookup_empty]. unfold slots_of. rewrite map_to_list_empty. by apply slots_replicate.
Qed.

Lemma own_empty A hd : own A hd ∅.
Proof. split; intros; by rewrite lookup_empty in *. Qed.

Lemma empty_store_inv : store_inv ∅ empty_store.
Proof.
  split; [done | by apply table_replicate | by apply table_replicate | by apply table_replicate | | | |].
  - split; [| apply wf2_empty | apply wf2_empty | intros; simpl; by rewrite !look2_empty | | |].
    + exists []. split; [by apply slots_replicate|]. intros r. split; [by intros ?%not_elem_of_nil|].
      intros (i & p & Hr). simpl in Hr. rewrite look2_empty in Hr. by apply not_elem_of_nil in Hr.
    + intros i p. simpl. rewrite look2_empty. constructor.
    + intros i p r Hr. simpl in Hr. rewrite look2_empty in Hr. by apply not_elem_of_nil in Hr.
    + intros i p Hr. simpl in Hr. by rewrite look2_empty in Hr.
  - by apply zero_pool_inv.
  - split; [apply own_empty | apply own_empty |]. intros h (n & i & ids & E & _). simpl in E. by rewrite lookup_empty in E.
  - split; [simpl; lia | apply length_replicate | constructor | constructor].
Qed.

Lemma empty_store_noleak : noleak ∅ empty_store.
Proof. intros h [x Hx]. by rewrite lookup_empty in Hx. Qed.

Lemma GetCreateSeqNo_spec A s :
  store_inv A s -> let '(n, s') := GetCreateSeqNo s in
  kept A s A s' /\ n = shm_createSeqNo (shm s) /\ shm_createSeqNo (shm s') = u32 (n + 1).
Proof. intros H. split_and!; [|done|done]. split; [|done]. apply store_set_misc; [done | apply H]. Qed.

End Restart.

(** * The two reference listings: by import name and by process. Both report the
    reference counts. *)

(** ** Two-level result maps *)

Section Result.
Context {K1 K2 : Type} `{Countable K1, Countable K2}.
Implicit Types m : gmap K1 (gmap K2 Z).

Definition get2 m (a : K1) (b : K2) : option Z := m !! a ≫= (fun inner => inner !! b).

(** No empty inner map. *)
Definition full2 m : Prop := forall a inner, m !! a = Some inner -> inner <> ∅.

Lemma get2_ext m m' : full2 m -> full2 m' -> (forall a b, get2 m a b = get2 m' a b) -> m = m'.
Proof.
  intros Hf Hf' He. apply map_eq. intros a. unfold get2 in He.
  destruct (m !! a) as [x|] eqn:E, (m' !! a) as [y|] eqn:E'; try done.
  - f_equal. apply map_eq. intros b. specialize (He a b). by rewrite E, E' in He.
  - destruct (map_choose x (Hf _ _ E)) as (b & v & Hb). specialize (He a b). rewrite E, E' in He. simpl in He. congruence.
  - destruct (map_choose y (Hf' _ _ E')) as (b & v & Hb). specialize (He a b). rewrite E, E' in He. simpl in He. congruence.
Qed.

Lemma get2_add2 m a b n a' b' :
  get2 (add2 m a b n) a' b' =
  if decide (a = a' /\ b = b') then Some (u32 (default 0%Z (get2 m a b) + Z.of_nat n)) else get2 m a' b'.
Proof.
  unfold get2, add2. destruct (decide (a = a')) as [<-|Hne].
  - rewrite lookup_insert_eq. simpl. destruct (decide (b = b')) as [<-|Hne'].
    + rewrite lookup_insert_eq, decide_True by done. by destruct (m !! a).
    + rewrite lookup_insert_ne by done. rewrite decide_False by tauto. by destruct (m !! a).
  - rewrite lookup_insert_ne by done. by rewrite decide_False by tauto.
Qed.

Lemma full2_add2 m a b n : full2 m -> full2 (add2 m a b n).
Proof.
  intros Hf a' inner. unfold add2. destruct (decide (a = a')) as [<-|Hne].
  - rewrite lookup_insert_eq. intros [= <-]. apply insert_non_empty.
  - rewrite lookup_insert_ne by done. apply Hf.
Qed.

(** A sequence of additions under different keys. *)
Definition add_all m (l : list (K1 * K2 * nat)) : gmap K1 (gmap K2 Z) := foldl (fun r e => add2 r e.1.1 e.1.2 e.2) m l.

Lemma add_all_full l m : full2 m -> full2 (add_all m l).
Proof. revert m. induction l as [|e l IH]; intros m Hm; [done|]. simpl. by apply IH, full2_add2. Qed.

Lemma add_all_other l m a b : (a, b) ∉ l.*1 -> get2 (add_all m l) a b = get2 m a b.
Proof.
  revert m. induction l as [|[[x y] n] l IH]; intros m Hni; [done|]. rewrite fmap_cons, not_elem_of_cons in Hni.
  destruct Hni as [Hne Hni]. simpl in *. rewrite IH by done. rewrite get2_add2. rewrite decide_False; [done|].
  intros [-> ->]. done.
Qed.

Lemma add_all_in l m a b n :
  NoDup l.*1 -> get2 m a b = None -> (a, b, n) ∈ l -> get2 (add_all m l) a b = Some (u32 (Z.of_nat n)).
Proof.
  revert m. induction l as [|[[x y] k] l IH]; intros m Hnd Hn Hin; [by apply not_elem_of_nil in Hin|].
  rewrite fmap_cons, NoDup_cons in Hnd. destruct Hnd as [Hni Hnd]. simpl in *.
  apply elem_of_cons in Hin as [[= <- <- <-]|Hin].
  - rewrite add_all_other by done. rewrite get2_add2, decide_True by done. by rewrite Hn.
  - apply IH; [done | | done]. rewrite get2_add2, decide_False; [done|]. intros [<- <-]. apply Hni.
    apply list_elem_of_fmap. by exists (x, y, n).
Qed.

End Result.

(** ** The nested loops of the listings *)

Section Listing.
Context {K1 K2 R1 R2 : Type} `{Countable K1, Countable K2, Countable R1, Countable R2}.
Variables (m : gmap K1 (gmap K2 (list nat))) (key : K1 -> K2 -> R1 * R2).
Hypothesis key_inj : forall a b a' b', look2 m a b <> [] -> look2 m a' b' <> [] -> key a b = key a' b' -> a = a' /\ b = b'.
Hypothesis m_wf : wf2 m.

Definition listing : gmap R1 (gmap R2 Z) :=
  foldl (fun result it =>
           foldl (fun result ref => add2 result (key it.1 ref.1).1 (key it.1 ref.1).2 (length ref.2)) result (map_to_list it.2))
    ∅ (map_to_list m).

Definition entries : list (R1 * R2 * nat) :=
  map_to_list m ≫= fun it => (fun ref => (key it.1 ref.1, length ref.2)) <$> map_to_list it.2.

Lemma listing_entries : listing = add_all ∅ entries.
Proof.
  unfold listing, entries, add_all. generalize (∅ : gmap R1 (gmap R2 Z)) as r. generalize (map_to_list m) as l.
  induction l as [|it l IH]; intros r; [done|]. cbn [foldl]. rewrite bind_cons, foldl_app, IH. f_equal.
  generalize (map_to_list it.2) as k. intros k. revert r. induction k as [|x k IHk]; intros r; [done|]. simpl. apply IHk.
Qed.

Lemma elem_of_entries a b n :
  (a, b, n) ∈ entries <-> exists k1 k2, key k1 k2 = (a, b) /\ look2 m k1 k2 <> [] /\ n = length (look2 m k1 k2).
Proof.
  unfold entries. rewrite list_elem_of_bind. split.
  - intros ([k1 inner] & Hin & Hm%elem_of_map_to_list). apply list_elem_of_fmap in Hin as ([k2 v] & Heq & Hv%elem_of_map_to_list).
    simpl in *. injection Heq as Hk Hn. exists k1, k2. rewrite (look2_inner _ _ _ _ Hm), Hv. simpl.
    split_and!; [done | | done]. by apply (m_wf _ _ Hm) in Hv.
  - intros (k1 & k2 & Hk & Hne & ->). unfold look2 in *. destruct (m !! k1) as [inner|] eqn:E1; [|done]. simpl in *.
    destruct (inner !! k2) as [v|] eqn:E2; [|done]. simpl in *. exists (k1, inner). split; [|by apply elem_of_map_to_list].
    apply list_elem_of_fmap. exists (k2, v). simpl. rewrite Hk. split; [done|]. by apply elem_of_map_to_list.
Qed.

Lemma fmap_fst_bind {X Y W} (f : X -> list (Y * W)) l : (l ≫= f).*1 = l ≫= (fun x => (f x).*1).
Proof. induction l as [|x l IH]; [done|]. by rewrite !bind_cons, fmap_app, IH. Qed.

Lemma entries_nodup : NoDup entries.*1.
Proof.
  assert (Hin : forall k1 inner k2 v, (k1, inner) ∈ map_to_list m -> (k2, v) ∈ map_to_list inner -> look2 m k1 k2 <> []).
  { intros k1 inner k2 v E1%elem_of_map_to_list E2%elem_of_map_to_list. rewrite (look2_inner _ _ _ _ E1), E2. simpl.
    by apply (m_wf _ _ E1) in E2. }
  unfold entries. rewrite fmap_fst_bind. apply NoDup_bind.
  - intros [k1 i1] [k2 i2] y M1 M2. rewrite <- !list_fmap_compose, !list_elem_of_fmap. intros ([x1 v1] & -> & Hx1) ([x2 v2] & Heq & Hx2). simpl in *.
    destruct (key_inj k1 x1 k2 x2) as [<- _]; eauto. f_equal.
    apply elem_of_map_to_list in M1, M2. congruence.
  - intros [k1 inner] Hm. rewrite <- list_fmap_compose. simpl. pose proof (NoDup_fst_map_to_list inner) as Hnd.
    assert (Hall : forall k2 v, (k2, v) ∈ map_to_list inner -> look2 m k1 k2 <> []) by eauto.
    revert Hnd Hall. generalize (map_to_list inner) as l. induction l as [|[k2 v] l IH]; intros Hnd Hall; [constructor|].
    rewrite fmap_cons, NoDup_cons in Hnd. destruct Hnd as [Hni Hnd]. rewrite fmap_cons. apply NoDup_cons. split.
    + rewrite list_elem_of_fmap. intros ([k2' v'] & Heq & Hin'). simpl in *. apply Hni.
      destruct (key_inj k1 k2 k1 k2') as [_ ->]; [apply (Hall k2 v), elem_of_cons; by left |
        apply (Hall k2' v'), elem_of_cons; by right | done |]. apply list_elem_of_fmap. by exists (k2', v').
    + apply IH; [done|]. intros k v' Hk. apply (Hall k v'), elem_of_cons. by right.
  - apply NoDup_map_to_list.
Qed.

Lemma listing_full : full2 listing.
Proof. rewrite listing_entries. apply add_all_full. intros a inner. by rewrite lookup_empty. Qed.

(** An entry of the listing is the length of the vector it comes from. *)
Lemma listing_get k1 k2 :
  look2 m k1 k2 <> [] ->
  get2 listing (key k1 k2).1 (key k1 k2).2 = Some (u32 (Z.of_nat (length (look2 m k1 k2)))).
Proof.
  intros Hne. rewrite listing_entries. apply add_all_in; [apply entries_nodup | |].
  - unfold get2. by rewrite lookup_empty.
  - apply elem_of_entries. exists k1, k2. by destruct (key k1 k2).
Qed.

Lemma listing_none a b : (forall k1 k2, key k1 k2 = (a, b) -> look2 m k1 k2 = []) -> get2 listing a b = None.
Proof.
  intros Hno. rewrite listing_entries, add_all_other; [unfold get2; by rewrite lookup_empty|].
  rewrite list_elem_of_fmap. intros ([[a' b'] n] & [= <- <-] & (k1 & k2 & Hk & Hne & _)%elem_of_entries). by apply Hne, Hno.
Qed.

End Listing.

(** ** The listings of the store *)

Section Store.
Context {G : Geometry}.
Implicit Types A : gmap nat (list nat * list Z).

Definition import_name (s : state) (i : nat) : string := si_name (shm_imports (shm s) !!! i).

Lemma import_name_cached A s n i ids :
  store_inv A s -> cachedImportShmRecords_ s !! n = Some (i, ids) -> import_name s i = n.
Proof. intros H E. exact (table_names _ _ _ _ _ _ _ (inv_import _ _ H) _ _ E). Qed.

(** The referenced slots are cached, under different names. *)
Lemma referenced_name A s i p :
  store_inv A s -> look2 (cachedRefShmIdxRecords_ s) i p <> [] ->
  ref_count s (import_name s i) p = length (look2 (cachedRefShmIdxRecords_ s) i p).
Proof.
  intros H Hne. destruct (refs_target _ _ _ _ _ (inv_refs _ _ H) _ _ Hne) as (n & ids & E).
  rewrite (import_name_cached _ _ _ _ _ H E). unfold ref_count. by rewrite E.
Qed.

Lemma referenced_inj A s i p i' p' :
  store_inv A s -> look2 (cachedRefShmIdxRecords_ s) i p <> [] -> look2 (cachedRefShmIdxRecords_ s) i' p' <> [] ->
  import_name s i = import_name s i' -> i = i'.
Proof.
  intros H Hn Hn'. destruct (refs_target _ _ _ _ _ (inv_refs _ _ H) _ _ Hn) as (n & ids & E).
  destruct (refs_target _ _ _ _ _ (inv_refs _ _ H) _ _ Hn') as (n' & ids' & E').
  rewrite (import_name_cached _ _ _ _ _ H E), (import_name_cached _ _ _ _ _ H E'). intros ->. congruence.
Qed.

Definition reported (n : nat) : option Z := if decide (n = 0) then None else Some (u32 (Z.of_nat n)).

Lemma ref_count_pos s n p :
  ref_count s n p <> 0 -> exists i ids, cachedImportShmRecords_ s !! n = Some (i, ids) /\
    look2 (cachedRefShmIdxRecords_ s) i p <> [] /\ ref_count s n p = length (look2 (cachedRefShmIdxRecords_ s) i p).
Proof.
  unfold ref_count. destruct (cachedImportShmRecords_ s !! n) as [[i ids]|]; [|done]. intros Hne. exists i, ids.
  split_and!; [done | | done]. by intros E; rewrite E in Hne.
Qed.

Definition name_key (s : state) (i : nat) (p : Z) : string * Z := (import_name s i, p).

Definition pid_key (s : state) (p : Z) (i : nat) : Z * string := (p, import_name s i).

Lemma ListShmRefRecordNameF_listing A s :
  store_inv A s -> ListShmRefRecordNameF s = listing (cachedRefShmIdxRecords_ s) (name_key s).
Proof. intros H. unfold ListShmRefRecordNameF. rewrite (inv_mapped _ _ H). done. Qed.

Lemma ListShmRefRecordPidF_listing A s :
  store_inv A s -> ListShmRefRecordPidF s = listing (cachedRefShmPidRecords_ s) (pid_key s).
Proof. intros H. unfold ListShmRefRecordPidF. rewrite (inv_mapped _ _ H). done. Qed.

Lemma ListShmRefRecordNameF_count A s n p :
  store_inv A s -> get2 (ListShmRefRecordNameF s) n p = reported (ref_count s n p).
Proof.
  intros H. rewrite (ListShmRefRecordNameF_listing _ _ H). pose proof (refs_wf_idx _ _ _ _ _ (inv_refs _ _ H)) as Hwf.
  assert (Hinj : forall a b a' b', look2 (cachedRefShmIdxRecords_ s) a b <> [] -> look2 (cachedRefShmIdxRecords_ s) a' b' <> [] ->
                   name_key s a b = name_key s a' b' -> a = a' /\ b = b').
  { intros a b a' b' Ha Hb [= Hn ->]. split; [by eapply referenced_inj | done]. }
  unfold reported. destruct (decide (ref_count s n p = 0)) as [Hz|Hne].
  - apply listing_none; [done|]. intros i p' [= Hn ->].
    destruct (look2 (cachedRefShmIdxRecords_ s) i p) as [|x l] eqn:E; [done|].
    pose proof (referenced_name A s i p H) as Hr. rewrite E, Hn, Hz in Hr. by specialize (Hr ltac:(done)).
  - destruct (ref_count_pos _ _ _ Hne) as (i & ids & E & Hl & ->).
    pose proof (listing_get _ _ Hinj Hwf _ _ Hl) as Hg. simpl in Hg. by rewrite (import_name_cached _ _ _ _ _ H E) in Hg.
Qed.

Lemma ListShmRefRecordPidF_count A s n p :
  store_inv A s -> get2 (ListShmRefRecordPidF s) p n = reported (ref_count s n p).
Proof.
  intros H. rewrite (ListShmRefRecordPidF_listing _ _ H). pose proof (refs_wf_pid _ _ _ _ _ (inv_refs _ _ H)) as Hwf.
  pose proof (refs_agree _ _ _ _ _ (inv_refs _ _ H)) as Hag.
  assert (Hinj : forall a b a' b', look2 (cachedRefShmPidRecords_ s) a b <> [] -> look2 (cachedRefShmPidRecords_ s) a' b' <> [] ->
                   pid_key s a b = pid_key s a' b' -> a = a' /\ b = b').
  { intros a b a' b'. rewrite !Hag. intros Ha Hb [= -> Hn]. split; [done | by eapply referenced_inj]. }
  unfold reported. destruct (decide (ref_count s n p = 0)) as [Hz|Hne].
  - apply listing_none; [done|]. intros p' i [= -> Hn]. rewrite Hag.
    destruct (look2 (cachedRefShmIdxRecords_ s) i p) as [|x l] eqn:E; [done|].
    pose proof (referenced_name A s i p H) as Hr. rewrite E, Hn, Hz in Hr. by specialize (Hr ltac:(done)).
  - destruct (ref_count_pos _ _ _ Hne) as (i & ids & E & Hl & ->). rewrite <- Hag in *.
    pose proof (listing_get _ _ Hinj Hwf _ _ Hl) as Hg. simpl in Hg. by rewrite (import_name_cached _ _ _ _ _ H E) in Hg.
Qed.

(** States with the same counts have the same listings. *)
Lemma ref_listings_ext A A' s s' :
  store_inv A s -> store_inv A' s' -> (forall n p, ref_count s' n p = ref_count s n p) ->
  ListShmRefRecordNameF s' = ListShmRefRecordNameF s /\ ListShmRefRecordPidF s' = ListShmRefRecordPidF s.
Proof.
  intros H H' Hc. split; apply get2_ext.
  - rewrite (ListShmRefRecordNameF_listing _ _ H'). apply listing_full.
  - rewrite (ListShmRefRecordNameF_listing _ _ H). apply listing_full.
  - intros n p. rewrite (ListShmRefRecordNameF_count _ _ _ _ H), (ListShmRefRecordNameF_count _ _ _ _ H'). by rewrite Hc.
  - rewrite (ListShmRefRecordPidF_listing _ _ H'). apply listing_full.
  - rewrite (ListShmRefRecordPidF_listing _ _ H). apply listing_full.
  - intros p n. rewrite (ListShmRefRecordPidF_count _ _ _ _ H), (ListShmRefRecordPidF_count _ _ _ _ H'). by rewrite Hc.
Qed.

End Store.
