(* ===== verification/StoreSpec.v ===== *)
(** The abstract store and the refinement theorem.

    [AStore] is what a client sees: three finite maps, the reference counts, the
    suspended processes, the sequence number and the two capacities that are
    not determined by them. [spec_run] gives the result and the next abstract
    state of every operation, a daemon restart included. The detailed store
    computes the same results. *)

From S2P Require Import Prelude StoreTypes IdPool IdPoolSpec RecordAllocator RecordStore StoreTable StoreInv StoreSteps StoreRestart.
Import RecordStore.

(** ** Operations *)

Inductive op :=
  | OpAddRegion (input : CreateRegionInput)
  | OpDelRegion (name : string)
  | OpAddLeaseInput (input : LeaseMallocInput)
  | OpAddLeaseResult (name : string) (result : LeaseMallocResult)
  | OpSetLeaseState (name : string) (st : RecordState)
  | OpSetLeaseOwner (name : string) (context : AppContext) (size : Z)
  | OpDelLease (name : string)
  | OpAddImportInput (input : ShareMemImportInput)
  | OpAddImportResult (name : string) (result : ShareMemImportResult)
  | OpSetImportState (name : string) (st : RecordState)
  | OpDelImport (name : string)
  | OpAddRef (pid : Z) (name : string)
  | OpDelRef (pid : Z) (name : string)
  | OpDelRefsByPid (pid : Z)
  | OpGetSeqNo
  | OpAddSuspend (pid : Z)
  | OpDelSuspend (pid : Z)
  | OpRestart (os : Os) (fd : Z).

(** ** The abstract machine *)

Record AStore := mkAStore {
  a_regions : gmap string CreateRegionInput;
  a_leases : gmap string (LeaseMallocInput * LeaseMallocResult);
  a_imports : gmap string ShareMemImportInfo;
  a_refs : gmap (string * Z) nat;
  a_suspended : gset Z;
  a_seqNo : Z;
  a_lines : nat;
  a_ref_slots : nat;
}.

Definition with_regions (a : AStore) x := mkAStore x (a_leases a) (a_imports a) (a_refs a) (a_suspended a) (a_seqNo a) (a_lines a) (a_ref_slots a).
Definition with_leases (a : AStore) x lines := mkAStore (a_regions a) x (a_imports a) (a_refs a) (a_suspended a) (a_seqNo a) lines (a_ref_slots a).
Definition with_imports (a : AStore) x lines := mkAStore (a_regions a) (a_leases a) x (a_refs a) (a_suspended a) (a_seqNo a) lines (a_ref_slots a).
Definition with_refs (a : AStore) x slots := mkAStore (a_regions a) (a_leases a) (a_imports a) x (a_suspended a) (a_seqNo a) (a_lines a) slots.
Definition with_suspended (a : AStore) x := mkAStore (a_regions a) (a_leases a) (a_imports a) (a_refs a) x (a_seqNo a) (a_lines a) (a_ref_slots a).
Definition with_seqNo (a : AStore) x := mkAStore (a_regions a) (a_leases a) (a_imports a) (a_refs a) (a_suspended a) x (a_lines a) (a_ref_slots a).

(** The number of references process [p] holds on import [n]; only positive ones are kept. *)
Definition a_count (a : AStore) (n : string) (p : Z) : nat := default 0 (a_refs a !! (n, p)).

Definition set_count (f : gmap (string * Z) nat) (n : string) (p : Z) (k : nat) : gmap (string * Z) nat :=
  if decide (k = 0) then delete (n, p) f else <[(n, p) := k]> f.

(** References held by one process over all imports. *)
Definition pid_total (a : AStore) (pid : Z) : nat := sum_list ((fun n => a_count a n pid) <$> (map_to_list (a_imports a)).*1).

(** No process refers to the import. *)
Definition unreferenced (a : AStore) (n : string) : Prop := map_Forall (fun k _ => k.1 <> n) (a_refs a).

#[export] Instance unreferenced_dec a n : Decision (unreferenced a n).
Proof. unfold unreferenced. apply _. Defined.

Section Machine.
Context {G : Geometry}.

Definition refused (a : AStore) : Z * AStore := ((-1)%Z, a).

Definition spec_run (o : op) (a : AStore) : Z * AStore :=
  match o with
  | OpAddRegion i =>
      if decide (region_input_ok i = true /\ a_regions a !! cri_name i = None /\ size (a_regions a) < REGION_MAX_RECORD)
      then (0%Z, with_regions a (<[cri_name i := canonical_region i]> (a_regions a))) else refused a
  | OpDelRegion n =>
      if decide (a_regions a !! n = None) then refused a else (0%Z, with_regions a (delete n (a_regions a)))
  | OpAddLeaseInput i =>
      if decide (a_leases a !! lmi_name i = None /\ size (a_leases a) < MEM_LEASE_MAX_RECORD)
      then (0%Z, with_leases a (<[lmi_name i := (i, pending_result)]> (a_leases a)) (a_lines a)) else refused a
  | OpAddLeaseResult n r =>
      match a_leases a !! n with
      | Some v =>
          if decide (lmr_memIds r <> [] /\ lines_needed (lmr_memIds r) <= a_lines a)
          then (0%Z, with_leases a (<[n := (lease_finished v.1, r)]> (a_leases a)) (a_lines a - lines_needed (lmr_memIds r)))
          else refused a
      | None => refused a
      end
  | OpSetLeaseState n st =>
      match a_leases a !! n with
      | Some v => (0%Z, with_leases a (<[n := lease_restate st v]> (a_leases a)) (a_lines a))
      | None => refused a
      end
  | OpSetLeaseOwner n c sz =>
      match a_leases a !! n with
      | Some v => (0%Z, with_leases a (<[n := lease_reown c sz v]> (a_leases a)) (a_lines a))
      | None => refused a
      end
  | OpDelLease n =>
      match a_leases a !! n with
      | Some v => (0%Z, with_leases a (delete n (a_leases a)) (a_lines a + lines_needed (lmr_memIds v.2)))
      | None => refused a
      end
  | OpAddImportInput i =>
      if decide (a_imports a !! smi_name i = None /\ size (a_imports a) < SHM_MAX_ATTACH_RECORD)
      then (0%Z, with_imports a (<[smi_name i := pending_import i]> (a_imports a)) (a_lines a)) else refused a
  | OpAddImportResult n r =>
      match a_imports a !! n with
      | Some v =>
          if decide (smr_memIds r <> [] /\ lines_needed (smr_memIds r) <= a_lines a)
          then (0%Z, with_imports a (<[n := import_finished r v]> (a_imports a)) (a_lines a - lines_needed (smr_memIds r)))
          else refused a
      | None => refused a
      end
  | OpSetImportState n st =>
      match a_imports a !! n with
      | Some v => (0%Z, with_imports a (<[n := import_restate st v]> (a_imports a)) (a_lines a))
      | None => refused a
      end
  | OpDelImport n =>
      match a_imports a !! n with
      | Some v =>
          if decide (unreferenced a n)
          then (0%Z, with_imports a (delete n (a_imports a)) (a_lines a + lines_needed (smo_memIds v)))
          else refused a
      | None => refused a
      end
  | OpAddRef p n =>
      if decide (p <> 0%Z /\ String.length n < RECORD_NAME_SIZE /\ is_Some (a_imports a !! n) /\ a_ref_slots a <> 0)
      then (0%Z, with_refs a (set_count (a_refs a) n p (S (a_count a n p))) (a_ref_slots a - 1)) else refused a
  | OpDelRef p n =>
      if decide (p <> 0%Z /\ String.length n < RECORD_NAME_SIZE /\ a_count a n p <> 0)
      then (0%Z, with_refs a (set_count (a_refs a) n p (a_count a n p - 1)) (S (a_ref_slots a))) else refused a
  | OpDelRefsByPid p =>
      if decide (p = 0%Z) then refused a
      else (0%Z, with_refs a (filter (fun e => e.1.2 <> p) (a_refs a)) (a_ref_slots a + pid_total a p))
  | OpGetSeqNo => (a_seqNo a, with_seqNo a (u32 (a_seqNo a + 1)))
  | OpAddSuspend p =>
      if decide (p <= 0)%Z then refused a
      else if decide (p ∈ a_suspended a) then (0%Z, a)
      else if decide (size (a_suspended a) = MAX_SUSPEND_CLIENT) then ((-2)%Z, a)
      else (0%Z, with_suspended a ({[p]} ∪ a_suspended a))
  | OpDelSuspend p =>
      if decide (p <= 0)%Z then refused a else (0%Z, with_suspended a (a_suspended a ∖ {[p]}))
  | OpRestart os _ => (0%Z, with_suspended a (filter (fun p => os_alive os p = true) (a_suspended a)))
  end.

(** ** The detailed store behind the same interface *)

Definition run (o : op) (s : state) : Z * state :=
  match o with
  | OpAddRegion i => AddRegionRecord i s
  | OpDelRegion n => DelRegionRecord n s
  | OpAddLeaseInput i => AddMemLeaseInput i s
  | OpAddLeaseResult n r => AddMemLeaseResult n r s
  | OpSetLeaseState n st => UpdateMemLeaseRecordState n st s
  | OpSetLeaseOwner n c sz => UpdateMemLeaseRecord n c sz s
  | OpDelLease n => DelMemLeaseRecord n s
  | OpAddImportInput i => AddShmImportInput i s
  | OpAddImportResult n r => AddShmImportResult n r s
  | OpSetImportState n st => UpdateShmImportRecordState n st s
  | OpDelImport n => DelShmImportRecord n s
  | OpAddRef p n => AddShmRefRecord p n s
  | OpDelRef p n => DelShmRefRecord p n s
  | OpDelRefsByPid p => DelShmRefRecordsByPid p s
  | OpGetSeqNo => GetCreateSeqNo s
  | OpAddSuspend p => AddSuspendClient p s
  | OpDelSuspend p => DelSuspendClient p s
  | OpRestart os fd => Initialize os fd (construct (shm s))
  end.

(** Arguments as the callers pass them: names a [char[64]] can hold, process ids
    of 32 bits, a restart the operating system lets through. *)
Definition op_ok (o : op) : Prop :=
  match o with
  | OpAddRegion i => good_name (cri_name i)
  | OpAddLeaseInput i => good_name (lmi_name i)
  | OpAddImportInput i => good_name (smi_name i)
  | OpAddImportResult n _ => String.length n < RECORD_NAME_SIZE
  | OpAddRef p _ | OpAddSuspend p | OpDelSuspend p => pid_range p
  | OpRestart os fd => (0 <= fd)%Z /\ os_ftruncate_ok os = true /\ os_mmap_ok os = true
  | _ => True
  end.

(** ** Abstraction *)

Definition refs_map (s : state) : gmap (string * Z) nat :=
  list_to_map (map_to_list (cachedImportShmRecords_ s) ≫= fun '(n, (i, _)) =>
    (fun '(p, v) => ((n, p), length v)) <$> map_to_list (default ∅ (cachedRefShmIdxRecords_ s !! i))).

Definition abs (s : state) : AStore :=
  mkAStore (view_regions s) (view_leases s) (view_imports s) (refs_map s) (list_to_set (ListSuspendClients s))
    (shm_createSeqNo (shm s)) (pool_free s) (ref_free s).

End Machine.

Section Refinement.
Context {G : Geometry}.
Implicit Types A : gmap nat (list nat * list Z).

Definition count_opt (n : nat) : option nat := if decide (n = 0) then None else Some n.

Lemma refs_map_entries s n p k :
  wf2 (cachedRefShmIdxRecords_ s) ->
  ((n, p), k) ∈ (map_to_list (cachedImportShmRecords_ s) ≫= fun '(n, (i, _)) =>
    (fun '(p, v) => ((n, p), length v)) <$> map_to_list (default ∅ (cachedRefShmIdxRecords_ s !! i))) <->
  k <> 0 /\ ref_count s n p = k.
Proof.
  intros Hwf. rewrite list_elem_of_bind. unfold ref_count. split.
  - intros ([n' [i ids]] & Hin & Hc%elem_of_map_to_list). apply list_elem_of_fmap in Hin as ([p' v] & [= -> -> ->] & Hv).
    rewrite Hc. apply elem_of_map_to_list in Hv. destruct (cachedRefShmIdxRecords_ s !! i) as [inner|] eqn:E; simpl in Hv;
      [|by rewrite lookup_empty in Hv]. rewrite (look2_inner _ _ _ _ E), Hv. simpl. split; [|done].
    apply (Hwf _ _ E) in Hv. by destruct v.
  - destruct (cachedImportShmRecords_ s !! n) as [[i ids]|] eqn:Hc; [|by intros [? <-]]. intros [Hk Hl].
    exists (n, (i, ids)). split; [|by apply elem_of_map_to_list]. unfold look2 in Hl.
    destruct (cachedRefShmIdxRecords_ s !! i) as [inner|] eqn:E; simpl in *; [|by subst].
    destruct (inner !! p) as [v|] eqn:Ev; simpl in *; [|by subst].
    apply list_elem_of_fmap. exists (p, v). split; [by subst|]. by apply elem_of_map_to_list.
Qed.

Lemma refs_map_lookup A s n p : store_inv A s -> refs_map s !! (n, p) = count_opt (ref_count s n p).
Proof.
  intros H. pose proof (refs_wf_idx _ _ _ _ _ (inv_refs _ _ H)) as Hwf. unfold refs_map, count_opt.
  destruct (decide (ref_count s n p = 0)) as [Hz|Hne].
  - apply not_elem_of_list_to_map. rewrite list_elem_of_fmap. intros ([[n' p'] k] & [= <- <-] & Hin).
    apply refs_map_entries in Hin as [??]; [congruence | done].
  - apply elem_of_list_to_map'; [|by apply refs_map_entries].
    intros k _ Hk. apply refs_map_entries in Hk as [??]; done.
Qed.

Lemma abs_count A s n p : store_inv A s -> a_count (abs s) n p = ref_count s n p.
Proof.
  intros H. unfold a_count. cbn [a_refs abs]. rewrite (refs_map_lookup _ _ _ _ H). unfold count_opt.
  destruct (decide _); simpl; congruence.
Qed.

Lemma abs_unreferenced A s n : store_inv A s -> unreferenced (abs s) n <-> forall p, ref_count s n p = 0.
Proof.
  intros H. unfold unreferenced, map_Forall. cbn [a_refs abs]. split.
  - intros Hu p. destruct (decide (ref_count s n p = 0)) as [|Hne]; [done|]. exfalso.
    apply (Hu (n, p) (ref_count s n p)); [|done]. rewrite (refs_map_lookup _ _ _ _ H). unfold count_opt.
    by rewrite decide_False.
  - intros Hz [n' p] k. rewrite (refs_map_lookup _ _ _ _ H). simpl. intros Hk ->. unfold count_opt in Hk.
    by rewrite decide_True in Hk.
Qed.

Lemma refs_map_ext A A' s s' :
  store_inv A s -> store_inv A' s' -> (forall n p, ref_count s' n p = ref_count s n p) -> refs_map s' = refs_map s.
Proof.
  intros H H' Hc. apply map_eq. intros [n p].
  by rewrite (refs_map_lookup _ _ _ _ H), (refs_map_lookup _ _ _ _ H'), Hc.
Qed.

(** ** Which members an operation touches *)

Lemma region_shape o s :
  match o with OpAddRegion _ | OpDelRegion _ => True | _ => False end ->
  exists a idle c, (run o s).2 = set_region s a idle c.
Proof.
  pose proof (set_region_same s) as Hid. symmetry in Hid.
  destruct o; intros []; simpl run; unfold AddRegionRecord, DelRegionRecord; repeat case_step; simpl; eauto.
Qed.

Lemma lease_shape o s :
  match o with OpAddLeaseInput _ | OpSetLeaseState _ _ | OpSetLeaseOwner _ _ _ => True | _ => False end ->
  exists a idle c, (run o s).2 = set_lease s a idle c.
Proof.
  pose proof (set_lease_same s) as Hid. symmetry in Hid.
  destruct o; intros []; simpl run; unfold AddMemLeaseInput, UpdateMemLeaseRecordState, UpdateMemLeaseRecord;
    repeat case_step; simpl; eauto.
Qed.

Lemma lease_pool_shape o s :
  match o with OpAddLeaseResult _ _ | OpDelLease _ => True | _ => False end ->
  exists p mem a idle c, (run o s).2 = set_lease (set_pool s p mem) a idle c.
Proof.
  assert (Hid : s = set_lease (set_pool s (poolAllocator_ s) (shm_pool (shm s))) (shm_leases (shm s))
                      (memLeaseAllocator_ s) (cachedLeaseRecords_ s)) by (by rewrite set_pool_same, set_lease_same).
  destruct o; intros []; simpl run; unfold AddMemLeaseResult, DelMemLeaseRecord; repeat case_step; simpl; eauto 6.
Qed.

Lemma import_shape o s :
  match o with OpAddImportInput _ | OpSetImportState _ _ => True | _ => False end ->
  exists a idle c, (run o s).2 = set_import s a idle c.
Proof.
  pose proof (set_import_same s) as Hid. symmetry in Hid.
  destruct o; intros []; simpl run; unfold AddShmImportInput, UpdateShmImportRecordState; repeat case_step; simpl; eauto.
Qed.

Lemma import_pool_shape o s :
  match o with OpAddImportResult _ _ | OpDelImport _ => True | _ => False end ->
  exists p mem a idle c, (run o s).2 = set_import (set_pool s p mem) a idle c.
Proof.
  assert (Hid : s = set_import (set_pool s (poolAllocator_ s) (shm_pool (shm s))) (shm_imports (shm s))
                      (shmImportAllocator_ s) (cachedImportShmRecords_ s)) by (by rewrite set_pool_same, set_import_same).
  destruct o; intros []; simpl run; unfold AddShmImportResult, DelShmImportRecord; repeat case_step; simpl; eauto 6.
Qed.

Lemma ref_shape o s :
  match o with OpAddRef _ _ | OpDelRef _ _ | OpDelRefsByPid _ => True | _ => False end ->
  exists a idle ci cp, (run o s).2 = set_ref s a idle ci cp.
Proof.
  pose proof (set_ref_same s) as Hid. symmetry in Hid.
  destruct o; intros []; simpl run; unfold AddShmRefRecord, DelShmRefRecord, DelShmRefRecordsByPid;
    repeat case_step; simpl; eauto 6.
  destruct (foldl _ (_, _) _). eauto 6.
Qed.

Lemma misc_shape o s :
  match o with OpGetSeqNo | OpAddSuspend _ | OpDelSuspend _ => True | _ => False end ->
  exists n a, (run o s).2 = set_misc s n a /\ (o <> OpGetSeqNo -> n = shm_createSeqNo (shm s)).
Proof.
  assert (Hid : s = set_misc s (shm_createSeqNo (shm s)) (shm_suspend (shm s))) by (by destruct s as [[] ?]).
  destruct o; intros []; simpl run; unfold GetCreateSeqNo, AddSuspendClient, DelSuspendClient; repeat case_step; simpl;
    do 2 eexists; (split; [first [reflexivity | exact Hid] | congruence]).
Qed.

(** ** The refinement, operation by operation *)

(** [simulates o s]: the step keeps the invariant and computes what the abstract machine does. *)
Definition simulates (o : op) (s : state) : Prop :=
  (exists A', store_inv A' (run o s).2) /\ spec_run o (abs s) = ((run o s).1, abs (run o s).2).

Lemma abs_set_region s a idle c :
  abs (set_region s a idle c) = with_regions (abs s) (view_regions (set_region s a idle c)).
Proof. done. Qed.

Lemma region_simulates A o s :
  store_inv A s -> op_ok o -> match o with OpAddRegion _ | OpDelRegion _ => True | _ => False end -> simulates o s.
Proof.
  intros H Hok Ho. destruct (region_shape o s Ho) as (a & idle & c & E). unfold simulates. rewrite E, abs_set_region, <- E.
  destruct o as [i|n| | | | | | | | | | | | | | | |]; destruct Ho; simpl in *.
  - pose proof (AddRegionRecord_spec A s i H Hok) as Hs. destruct (AddRegionRecord i s) as [rc s']. simpl in *.
    destruct Hs as (Hi & _ & _ & _ & Hs). split; [eauto|]. destruct (decide _); destruct Hs as [-> ->]; [done|].
    by destruct s.
  - pose proof (DelRegionRecord_spec A s n H) as Hs. destruct (DelRegionRecord n s) as [rc s']. simpl in *.
    destruct Hs as (Hi & _ & _ & -> & ->). split; [eauto|]. destruct (decide _) as [Hn|]; [|done].
    unfold refused. f_equal. rewrite delete_id by done. done.
Qed.

Lemma abs_set_lease s p mem a idle c :
  abs (set_lease (set_pool s p mem) a idle c) =
  with_leases (abs s) (view_leases (set_lease (set_pool s p mem) a idle c)) (pool_free (set_lease (set_pool s p mem) a idle c)).
Proof. done. Qed.

Lemma abs_set_lease0 s a idle c :
  abs (set_lease s a idle c) = with_leases (abs s) (view_leases (set_lease s a idle c)) (pool_free s).
Proof. done. Qed.

Lemma with_leases_same s : with_leases (abs s) (view_leases s) (pool_free s) = abs s.
Proof. done. Qed.

Lemma lease_simulates A o s :
  store_inv A s -> op_ok o ->
  match o with OpAddLeaseInput _ | OpSetLeaseState _ _ | OpSetLeaseOwner _ _ _ => True | _ => False end -> simulates o s.
Proof.
  intros H Hok Ho. destruct (lease_shape o s Ho) as (a & idle & c & E). unfold simulates. rewrite E, abs_set_lease0, <- E.
  destruct o as [| |i| |n st|n cx sz| | | | | | | | | | | |]; destruct Ho; simpl in *.
  - pose proof (AddMemLeaseInput_spec A s i H Hok) as Hs. destruct (AddMemLeaseInput i s) as [rc s']. simpl in *.
    destruct Hs as ([Hi _] & _ & Hs). split; [eauto|]. destruct (decide _); by destruct Hs as [-> ->].
  - pose proof (UpdateMemLeaseRecordState_spec A s n st H) as Hs. destruct (UpdateMemLeaseRecordState n st s) as [rc s'].
    simpl in *. destruct Hs as ([Hi _] & _ & Hs). split; [eauto|]. destruct (view_leases s !! n); destruct Hs as [-> Hs]; by rewrite Hs.
  - pose proof (UpdateMemLeaseRecord_spec A s n cx sz H) as Hs. destruct (UpdateMemLeaseRecord n cx sz s) as [rc s'].
    simpl in *. destruct Hs as ([Hi _] & _ & Hs). split; [eauto|]. destruct (view_leases s !! n); destruct Hs as [-> Hs]; by rewrite Hs.
Qed.

Lemma lease_pool_simulates A o s :
  store_inv A s -> match o with OpAddLeaseResult _ _ | OpDelLease _ => True | _ => False end -> simulates o s.
Proof.
  intros H Ho. destruct (lease_pool_shape o s Ho) as (p & mem & a & idle & c & E). unfold simulates. rewrite E, abs_set_lease, <- E.
  destruct o as [| | |n r| | |n| | | | | | | | | | |]; destruct Ho; simpl in *.
  - pose proof (AddMemLeaseResult_spec A s n r H) as Hs. destruct (AddMemLeaseResult n r s) as [rc s']. simpl in *.
    destruct Hs as [_ Hs]. destruct (view_leases s !! n) as [v|]; [|destruct Hs as [-> ->]; eauto].
    destruct (decide _); [|destruct Hs as [-> ->]; eauto]. destruct Hs as (-> & -> & Hf & A' & Hi & _). split; [eauto|].
    do 2 f_equal. lia.
  - pose proof (DelMemLeaseRecord_spec A s n H) as Hs. destruct (DelMemLeaseRecord n s) as [rc s']. simpl in *.
    destruct Hs as (_ & Hv & (A' & Hi & _) & Hs). split; [eauto|].
    destruct (view_leases s !! n) as [v|]; destruct Hs as [-> Hs]; [by rewrite Hv, Hs | by rewrite Hs].
Qed.

Lemma abs_set_import A A' s s' p mem a idle c :
  s' = set_import (set_pool s p mem) a idle c -> store_inv A s -> store_inv A' s' ->
  (forall n q, ref_count s' n q = ref_count s n q) -> abs s' = with_imports (abs s) (view_imports s') (pool_free s').
Proof.
  intros E H H' Hc. pose proof (refs_map_ext _ _ _ _ H H' Hc) as Hr. subst s'. unfold abs, with_imports. by rewrite Hr.
Qed.

Lemma abs_set_import0 A A' s s' a idle c :
  s' = set_import s a idle c -> store_inv A s -> store_inv A' s' ->
  (forall n q, ref_count s' n q = ref_count s n q) -> abs s' = with_imports (abs s) (view_imports s') (pool_free s).
Proof.
  intros E H H' Hc. pose proof (refs_map_ext _ _ _ _ H H' Hc) as Hr. subst s'. unfold abs, with_imports. by rewrite Hr.
Qed.

Lemma import_simulates A o s :
  store_inv A s -> op_ok o ->
  match o with OpAddImportInput _ | OpSetImportState _ _ => True | _ => False end -> simulates o s.
Proof.
  intros H Hok Ho. destruct (import_shape o s Ho) as (a & idle & c & E). unfold simulates.
  destruct o as [| | | | | | |i| |n st| | | | | | | |]; destruct Ho; simpl in *.
  - pose proof (AddShmImportInput_spec A s i H Hok) as Hs. destruct (AddShmImportInput i s) as [rc s']. simpl in *.
    destruct Hs as ([Hi _] & (_ & _ & Hc) & Hs). rewrite (abs_set_import0 _ _ _ _ _ _ _ E H Hi Hc). split; [eauto|].
    destruct (decide _); by destruct Hs as [-> ->].
  - pose proof (UpdateShmImportRecordState_spec A s n st H) as Hs. destruct (UpdateShmImportRecordState n st s) as [rc s'].
    simpl in *. destruct Hs as ([Hi _] & (_ & _ & Hc) & Hs). rewrite (abs_set_import0 _ _ _ _ _ _ _ E H Hi Hc). split; [eauto|].
    destruct (view_imports s !! n); destruct Hs as [-> Hs]; by rewrite Hs.
Qed.

Lemma import_pool_simulates A o s :
  store_inv A s -> op_ok o -> match o with OpAddImportResult _ _ | OpDelImport _ => True | _ => False end -> simulates o s.
Proof.
  intros H Hok Ho. destruct (import_pool_shape o s Ho) as (p & mem & a & idle & c & E). unfold simulates.
  destruct o as [| | | | | | | |n r| |n| | | | | | |]; destruct Ho; simpl in *.
  - pose proof (AddShmImportResult_spec A s n r H Hok) as Hs. destruct (AddShmImportResult n r s) as [rc s']. simpl in *.
    destruct Hs as [(_ & _ & Hc) Hs]. destruct (view_imports s !! n) as [v|]; [|destruct Hs as [-> ->]; eauto].
    destruct (decide _); [|destruct Hs as [-> ->]; eauto]. destruct Hs as (-> & Hv & Hf & A' & Hi & _).
    rewrite (abs_set_import _ _ _ _ _ _ _ _ _ E H Hi Hc), Hv. split; [eauto|]. do 2 f_equal. lia.
  - pose proof (DelShmImportRecord_spec A s n H) as Hs. destruct (DelShmImportRecord n s) as [rc s']. simpl in *.
    destruct Hs as [(_ & _ & Hc) Hs]. destruct (view_imports s !! n) as [v|]; [|destruct Hs as [-> ->]; eauto].
    destruct Hs as [(-> & -> & (q & Hq))|(-> & Hv & Hz & Hf & A' & Hi & _)].
    + split; [eauto|]. rewrite decide_False; [done|]. rewrite (abs_unreferenced _ _ _ H). intros Hall. by apply Hq.
    + rewrite (abs_set_import _ _ _ _ _ _ _ _ _ E H Hi Hc), Hv, Hf. split; [eauto|].
      rewrite decide_True; [done|]. by apply (abs_unreferenced _ _ _ H).
Qed.

Lemma abs_set_ref s a idle ci cp :
  abs (set_ref s a idle ci cp) =
  with_refs (abs s) (refs_map (set_ref s a idle ci cp)) (ref_free (set_ref s a idle ci cp)).
Proof. done. Qed.

(** The counts of a state determine its reference map. *)
Lemma refs_map_is A s f :
  store_inv A s -> (forall n p, f !! (n, p) = count_opt (ref_count s n p)) -> refs_map s = f.
Proof. intros H Hf. apply map_eq. intros [n p]. by rewrite (refs_map_lookup _ _ _ _ H), Hf. Qed.

Lemma set_count_lookup A s n p k n' p' :
  store_inv A s ->
  set_count (refs_map s) n p k !! (n', p') = count_opt (if decide (n' = n /\ p' = p) then k else ref_count s n' p').
Proof.
  intros H. unfold set_count. destruct (decide (n' = n /\ p' = p)) as [[-> ->]|Hne].
  - unfold count_opt. destruct (decide (k = 0)); [apply lookup_delete_eq | apply lookup_insert_eq].
  - assert ((n, p) <> (n', p')) by (intros [= -> ->]; by apply Hne). rewrite <- (refs_map_lookup _ _ _ _ H).
    destruct (decide (k = 0)); [by apply lookup_delete_ne | by apply lookup_insert_ne].
Qed.

Lemma pid_total_abs A s p : store_inv A s -> pid_total (abs s) p = pid_refs s p.
Proof.
  intros H. unfold pid_total, pid_refs. cbn [abs a_imports]. unfold view_imports.
  rewrite map_to_list_fmap, <- !list_fmap_compose. f_equal. apply list_fmap_ext. intros i [n v] _. simpl.
  by apply (abs_count A).
Qed.

Lemma ref_simulates A o s :
  store_inv A s -> op_ok o -> match o with OpAddRef _ _ | OpDelRef _ _ | OpDelRefsByPid _ => True | _ => False end -> simulates o s.
Proof.
  intros H Hok Ho. destruct (ref_shape o s Ho) as (a & idle & ci & cp & E). unfold simulates. rewrite E, abs_set_ref, <- E.
  destruct o as [| | | | | | | | | | |p n|p n|p| | | |]; destruct Ho; simpl in *.
  - pose proof (AddShmRefRecord_spec A s p n H Hok) as Hs. destruct (AddShmRefRecord p n s) as [rc s']. simpl in *.
    destruct Hs as ([Hi _] & _ & Hs). split; [eauto|]. destruct (decide _); [|destruct Hs as [-> Hs]; by rewrite Hs].
    destruct Hs as (-> & Hf & Hc). rewrite Hf. f_equal.
    rewrite (refs_map_is A s' (set_count (refs_map s) n p (S (a_count (abs s) n p))) Hi); [by rewrite Nat.sub_1_r|].
    intros n' p'. cbn [abs a_refs]. rewrite (set_count_lookup _ _ _ _ _ _ _ H), (abs_count _ _ _ _ H), Hc.
    by destruct (decide _) as [[-> ->]|].
  - pose proof (DelShmRefRecord_spec A s p n H) as Hs. destruct (DelShmRefRecord p n s) as [rc s']. simpl in *.
    destruct Hs as ([Hi _] & _ & Hs). split; [eauto|]. rewrite (abs_count _ _ _ _ H).
    destruct (decide _); destruct Hs as (-> & Hf & Hc); rewrite Hf.
    + f_equal. rewrite (refs_map_is A s' (set_count (refs_map s) n p (ref_count s n p - 1)) Hi); [done|]. intros n' p'. cbn [abs a_refs].
      rewrite (set_count_lookup _ _ _ _ _ _ _ H), Hc. by destruct (decide _) as [[-> ->]|].
    + rewrite (refs_map_ext _ _ _ _ H Hi Hc). done.
  - destruct (decide (p = 0%Z)) as [->|Hp].
    { unfold DelShmRefRecordsByPid in *. simpl in *. eauto. }
    pose proof (DelShmRefRecordsByPid_spec A s p H Hp) as Hs. destruct (DelShmRefRecordsByPid p s) as [rc s']. simpl in *.
    destruct Hs as ([Hi _] & _ & -> & Hf & Hc). split; [eauto|]. rewrite Hf, (pid_total_abs _ _ _ H). f_equal.
    rewrite (refs_map_is A s' (filter (fun e => e.1.2 <> p) (refs_map s)) Hi); [done|].
    intros n' p'. cbn [abs a_refs]. rewrite Hc, map_lookup_filter.
    rewrite (refs_map_lookup _ _ _ _ H). unfold count_opt. destruct (decide (p' = p)) as [->|Hne].
    + destruct (decide (ref_count s n' p = 0)); simpl; [done|]. by rewrite option_guard_False by (simpl; tauto).
    + destruct (decide (ref_count s n' p' = 0)); simpl; [done|]. by rewrite option_guard_True.
Qed.

Lemma abs_set_misc s n a :
  abs (set_misc s n a) = mkAStore (view_regions s) (view_leases s) (view_imports s) (refs_map s)
    (list_to_set (ListSuspendClients (set_misc s n a))) n (pool_free s) (ref_free s).
Proof. done. Qed.

Lemma suspended_size A s : store_inv A s -> size (list_to_set (ListSuspendClients s) : gset Z) = length (ListSuspendClients s).
Proof. intros H. apply size_list_to_set. rewrite (ListSuspendClients_live _ _ H). apply (inv_suspend _ _ H). Qed.

Lemma misc_simulates A o s :
  store_inv A s -> op_ok o -> match o with OpGetSeqNo | OpAddSuspend _ | OpDelSuspend _ => True | _ => False end -> simulates o s.
Proof.
  intros H Hok Ho. unfold simulates. destruct o as [| | | | | | | | | | | | | | |p|p|] eqn:Eo; destruct Ho.
  - simpl. split; [|done]. exists A. apply store_set_misc; [done | apply H].
  - destruct (misc_shape (OpAddSuspend p) s I) as (n & a & E & Hn). specialize (Hn ltac:(done)). subst n.
    rewrite E, abs_set_misc, <- E. simpl in *. destruct (decide (p <= 0)%Z) as [Hp|Hp].
    { unfold AddSuspendClient. destruct (Z.leb_spec p 0); [|lia]. simpl. eauto. }
    pose proof (AddSuspendClient_spec A s p H) as Hs. rewrite (suspended_size _ _ H).
    destruct (AddSuspendClient p s) as [rc s']. simpl in *. destruct Hs as (Hi & Hs); [unfold pid_range in Hok; lia|].
    split; [eauto|]. destruct (decide (p ∈ ListSuspendClients s)) as [Hin|Hin].
    + destruct Hs as [-> Hs]. rewrite decide_True by (by apply elem_of_list_to_set). by rewrite Hs.
    + rewrite decide_False by (by rewrite elem_of_list_to_set). destruct (decide _); destruct Hs as [-> Hs]; rewrite Hs; [done|].
      unfold with_suspended. do 2 f_equal. simpl. set_solver.
  - destruct (misc_shape (OpDelSuspend p) s I) as (n & a & E & Hn). specialize (Hn ltac:(done)). subst n.
    rewrite E, abs_set_misc, <- E. simpl in *. destruct (decide (p <= 0)%Z) as [Hp|Hp].
    { unfold DelSuspendClient. destruct (Z.leb_spec p 0); [|lia]. simpl. eauto. }
    pose proof (DelSuspendClient_spec A s p H) as Hs.
    destruct (DelSuspendClient p s) as [rc s']. simpl in *. destruct Hs as (Hi & -> & Hs); [unfold pid_range in Hok; lia|].
    split; [eauto|]. unfold with_suspended. do 2 f_equal. simpl. destruct (decide (p ∈ ListSuspendClients s)) as [Hin|Hin].
    + assert (Hnd : NoDup (ListSuspendClients s)) by (rewrite (ListSuspendClients_live _ _ H); apply (inv_suspend _ _ H)).
      rewrite Hs in Hnd. apply NoDup_cons in Hnd as [Hni _]. rewrite Hs. simpl. set_solver.
    + rewrite Hs. set_solver.
Qed.

Lemma pool_free_content A s : store_inv A s -> pool_free s + length (chain_lines A) = RECORD_MEM_ID_POOL_LINE_COUNT.
Proof.
  intros H. pose proof (pool_inv_partition _ _ _ (inv_pool _ _ H)) as Hp. apply Permutation_length in Hp.
  by rewrite length_app, length_seq in Hp.
Qed.

Lemma ref_free_content A A' s s' :
  store_inv A s -> store_inv A' s' ->
  (forall i p, look2 (cachedRefShmIdxRecords_ s') i p ≡ₚ look2 (cachedRefShmIdxRecords_ s) i p) -> ref_free s' = ref_free s.
Proof.
  intros H H' Hp. destruct (refs_slots _ _ _ _ _ (inv_refs _ _ H)) as (live & Hs & Hl).
  destruct (refs_slots _ _ _ _ _ (inv_refs _ _ H')) as (live' & Hs' & Hl').
  assert (Hpl : live' ≡ₚ live).
  { apply NoDup_Permutation.
    - by pose proof (BaseRecordAllocator.slots_nodup _ _ _ _ _ Hs') as (_ & _ & ?)%NoDup_app.
    - by pose proof (BaseRecordAllocator.slots_nodup _ _ _ _ _ Hs) as (_ & _ & ?)%NoDup_app.
    - intros r. rewrite Hl, Hl'. by setoid_rewrite Hp. }
  pose proof (Permutation_length (BaseRecordAllocator.slots_partition _ _ _ _ _ Hs)) as L1.
  pose proof (Permutation_length (BaseRecordAllocator.slots_partition _ _ _ _ _ Hs')) as L2.
  rewrite length_app in L1, L2. rewrite Hpl in L2. unfold ref_free. lia.
Qed.

Lemma restart_simulates A os fd s : store_inv A s -> op_ok (OpRestart os fd) -> simulates (OpRestart os fd) s.
Proof.
  intros H (Hfd & Ht & Hm). destruct (Initialize_restart A s os fd H Hfd Ht Hm) as (s' & E & Hi & Hsame & Hsus).
  unfold simulates. simpl. rewrite E. simpl. split; [eauto|]. f_equal.
  destruct (same_views _ _ Hsame) as (V1 & V2 & V3 & V4).
  unfold abs, with_suspended. cbn [a_regions a_leases a_imports a_refs a_suspended a_seqNo a_lines a_ref_slots].
  rewrite V1, V2, V3, (refs_map_ext _ _ _ _ H Hi V4), (ref_free_content _ _ _ _ H Hi (same_refs _ _ Hsame)).
  destruct (same_shm _ _ Hsame) as (_ & _ & _ & _ & _ & ->). f_equal.
  - rewrite (ListSuspendClients_live _ _ H), (ListSuspendClients_live _ _ Hi), Hsus.
    destruct (prune_spec (os_alive os) _ (inv_suspend _ _ H)) as [_ ->].
    apply set_eq. intros x. rewrite elem_of_filter, !elem_of_list_to_set, !list_elem_of_In, List.filter_In. tauto.
  - pose proof (pool_free_content _ _ H). pose proof (pool_free_content _ _ Hi). lia.
Qed.

Lemma run_simulates A o s : store_inv A s -> op_ok o -> simulates o s.
Proof.
  intros H Hok. destruct o; eauto using region_simulates, lease_simulates, lease_pool_simulates, import_simulates,
    import_pool_simulates, ref_simulates, misc_simulates, restart_simulates.
Qed.

End Refinement.
