(* ===== verification/RegionNodes.v ===== *)
(** The node bitmaps of a region: what [AddRegionRecord] writes into the two
    bitmaps is what [ListRegionRecord] reads back, as a sorted set of nodes. *)

From S2P Require Import Prelude StoreTypes IdPool IdPoolSpec RecordAllocator RecordStore StoreTable StoreInv StoreSteps.
Import RecordStore.

(** ** Reading one word *)

Definition is_word (w : Z) : Prop := (0 <= w < 2 ^ 64)%Z.

Lemma word_testbit_high w n : is_word w -> (64 <= n)%Z -> Z.testbit w n = false.
Proof.
  intros [Hw0 Hw] Hn. destruct (Z.eq_dec w 0%Z) as [->|]; [apply Z.bits_0|]. apply Z.bits_above_log2; [done|].
  assert (Z.log2 w < 64)%Z by (apply Z.log2_lt_pow2; lia). lia.
Qed.

Lemma word_from_bits w : (0 <= w)%Z -> (forall n, (64 <= n)%Z -> Z.testbit w n = false) -> is_word w.
Proof.
  intros H0 Hb. split; [done|]. destruct (Z.eq_dec w 0%Z) as [->|]; [lia|]. apply Z.log2_lt_pow2; [lia|].
  destruct (Z.lt_ge_cases (Z.log2 w) 64%Z) as [|Hge]; [done|]. pose proof (Hb _ Hge) as Hf.
  rewrite Z.bit_log2 in Hf by lia. done.
Qed.

Lemma word_no_bits w : is_word w -> List.filter (Z.testbit w) (seqZ 0 64) = [] -> w = 0%Z.
Proof.
  intros Hw Hf. apply Z.bits_inj_0. intros n. destruct (Z.lt_ge_cases n 0%Z); [by apply Z.testbit_neg_r|].
  destruct (Z.lt_ge_cases n 64%Z) as [Hlt|]; [|by apply word_testbit_high].
  destruct (Z.testbit w n) eqn:E; [|done]. assert (Hin : In n (List.filter (Z.testbit w) (seqZ 0 64))).
  { apply List.filter_In. split; [|done]. apply list_elem_of_In, elem_of_seqZ. lia. }
  rewrite Hf in Hin. destruct Hin.
Qed.

Lemma clear_bit_word w b : is_word w -> (0 <= b)%Z -> is_word (Z.land w (Z.lnot (Z.shiftl 1 b))).
Proof.
  intros Hw Hb. apply word_from_bits.
  - apply Z.land_nonneg. left. apply Hw.
  - intros n Hn. by rewrite Z.land_spec, (word_testbit_high _ _ Hw Hn).
Qed.

Lemma clear_bit_testbit w b n :
  (0 <= b)%Z -> (0 <= n)%Z -> Z.testbit (Z.land w (Z.lnot (Z.shiftl 1 b))) n = Z.testbit w n && negb (Z.eqb n b).
Proof.
  intros Hb Hn. rewrite Z.land_spec, Z.lnot_spec by done. f_equal. f_equal.
  rewrite Z.shiftl_1_l, Z.pow2_bits_eqb by done. apply Z.eqb_sym.
Qed.

Lemma find_filter {X} (f : X -> bool) l : List.find f l = head (List.filter f l).
Proof. induction l as [|x l IH]; simpl; [done|]. by destruct (f x). Qed.

Lemma filter_fmap {X Y} (f : Y -> bool) (g : X -> Y) l : List.filter f (g <$> l) = g <$> List.filter (fun x => f (g x)) l.
Proof. induction l as [|x l IH]; [done|]. rewrite fmap_cons. simpl. destruct (f (g x)); simpl; by rewrite IH. Qed.

Lemma filter_concat {X} (f : X -> bool) l : List.filter f (concat l) = concat (List.filter f <$> l).
Proof. induction l as [|x l IH]; [done|]. simpl. by rewrite List.filter_app, IH. Qed.

Lemma filter_filter {X} (f g : X -> bool) l : List.filter f (List.filter g l) = List.filter (fun x => g x && f x) l.
Proof. induction l as [|x l IH]; simpl; [done|]. destruct (g x); simpl; [destruct (f x)|]; by rewrite ?IH. Qed.

(** The loop lists the set bits in increasing order. *)
Lemma bit_loop_filter fuel base w wa :
  is_word w -> length (List.filter (Z.testbit w) (seqZ 0 64)) <= fuel ->
  bit_loop fuel base w wa = (fun b => ((base + b)%Z, Z.testbit wa b)) <$> List.filter (Z.testbit w) (seqZ 0 64).
Proof.
  remember (List.filter (Z.testbit w) (seqZ 0 64)) as L eqn:HL. revert w fuel HL.
  induction L as [|b L IH]; intros w fuel HL Hw Hf.
  - rewrite (word_no_bits w) by done. by destruct fuel.
  - destruct fuel as [|fuel]; [simpl in Hf; lia|]. cbn [bit_loop].
    assert (Hin : In b (List.filter (Z.testbit w) (seqZ 0 64))) by (rewrite <- HL; by left).
    apply List.filter_In in Hin as [Hb%list_elem_of_In%elem_of_seqZ Hbit].
    destruct (Z.eqb_spec w 0) as [->|_]; [by rewrite Z.bits_0 in Hbit|].
    unfold ffsl_minus1. rewrite find_filter, <- HL. simpl. f_equal. apply IH; [| by apply clear_bit_word; [|lia] | simpl in Hf; lia].
    assert (Hnd : NoDup (b :: L)) by (rewrite HL; apply NoDup_ListNoDup, List.NoDup_filter, NoDup_ListNoDup, NoDup_seqZ).
    apply NoDup_cons in Hnd as [Hni _].
    transitivity (List.filter (fun n => negb (Z.eqb n b)) (List.filter (Z.testbit w) (seqZ 0 64))).
    + rewrite <- HL. simpl. rewrite Z.eqb_refl. simpl. symmetry. apply List.forallb_filter_id, List.forallb_forall.
      intros x Hx%list_elem_of_In. apply negb_true_iff, Z.eqb_neq. intros ->. done.
    + rewrite filter_filter. apply List.filter_ext_in. intros n [Hn _]%list_elem_of_In%elem_of_seqZ.
      by rewrite clear_bit_testbit by lia.
Qed.

(** ** Reading a record *)

(** Bit [n] of a bitmap of 16 words. *)
Definition node_bit (bitmap : list Z) (n : Z) : bool :=
  Z.testbit (bitmap !!! Z.to_nat (n / U64_BITS_COUNT)) (n mod U64_BITS_COUNT).

Definition bitmap_ok (bitmap : list Z) : Prop :=
  length bitmap = REGION_NODE_BITMAP_U64SIZE /\ Forall is_word bitmap.

Lemma bitmap_word bitmap i : bitmap_ok bitmap -> i < REGION_NODE_BITMAP_U64SIZE -> is_word (bitmap !!! i).
Proof.
  intros [Hl Hf] Hi. rewrite Forall_lookup in Hf. apply (Hf i). apply list_lookup_lookup_total_lt. lia.
Qed.

Lemma all_nodes :
  seqZ 0 REGION_NODE_BITMAP_COUNT =
  concat ((fun i => (Z.add (Z.of_nat i * U64_BITS_COUNT)) <$> seqZ 0 64) <$> seq 0 REGION_NODE_BITMAP_U64SIZE).
Proof. vm_compute. reflexivity. Qed.

Lemma node_bit_word bitmap i b :
  (0 <= b < 64)%Z -> node_bit bitmap (Z.of_nat i * U64_BITS_COUNT + b) = Z.testbit (bitmap !!! i) b.
Proof.
  intros Hb. unfold node_bit, U64_BITS_COUNT. rewrite Z.add_comm, Z.div_add, Z.mod_add by lia.
  rewrite Z.div_small, Z.mod_small by lia. by rewrite Z.add_0_l, Nat2Z.id.
Qed.

(** One word of a record. *)
Lemma word_nodes bm ba i :
  is_word (bm !!! i) ->
  bit_loop 64 (Z.of_nat i * U64_BITS_COUNT) (bm !!! i) (ba !!! i) =
  (fun n => (n, node_bit ba n)) <$> List.filter (node_bit bm) (Z.add (Z.of_nat i * U64_BITS_COUNT) <$> seqZ 0 64).
Proof.
  intros Hw. rewrite bit_loop_filter; [| done | etransitivity; [apply List.filter_length_le | done]].
  rewrite filter_fmap, <- list_fmap_compose.
  rewrite (List.filter_ext_in (fun x => node_bit bm (Z.of_nat i * U64_BITS_COUNT + x)) (Z.testbit (bm !!! i))).
  - apply list_fmap_ext. intros j b Hb%list_elem_of_lookup_2%list_elem_of_In.
    apply List.filter_In in Hb as [Hb%list_elem_of_In%elem_of_seqZ _]. simpl. by rewrite node_bit_word by lia.
  - intros b Hb%list_elem_of_In%elem_of_seqZ. apply node_bit_word. lia.
Qed.

Lemma words_nodes bm ba l :
  Forall (fun i => is_word (bm !!! i)) l ->
  concat ((fun i => bit_loop 64 (Z.of_nat i * U64_BITS_COUNT) (bm !!! i) (ba !!! i)) <$> l) =
  (fun n => (n, node_bit ba n)) <$>
    List.filter (node_bit bm) (concat ((fun i => Z.add (Z.of_nat i * U64_BITS_COUNT) <$> seqZ 0 64) <$> l)).
Proof.
  induction 1 as [|i l Hi Hl IH]; [done|]. rewrite !fmap_cons. cbn [concat].
  rewrite List.filter_app, fmap_app, IH, word_nodes by done. done.
Qed.

(** The nodes of a record are the set bits, in increasing order. *)
Lemma region_nodes_bits r :
  bitmap_ok (rr_bitmap r) ->
  region_nodes r = (fun n => (n, node_bit (rr_bitmapAffinity r) n)) <$>
    List.filter (node_bit (rr_bitmap r)) (seqZ 0 REGION_NODE_BITMAP_COUNT).
Proof.
  intros Hok. rewrite all_nodes. unfold region_nodes. apply words_nodes, Forall_forall. intros i Hi%elem_of_seq.
  apply bitmap_word; [done | lia].
Qed.

(** ** Writing the bitmaps *)

Lemma set_node_bit_ok bitmap nid :
  bitmap_ok bitmap -> (0 <= nid < REGION_NODE_BITMAP_COUNT)%Z -> bitmap_ok (set_node_bit bitmap nid).
Proof.
  intros [Hl Hf] Hn. unfold set_node_bit. split; [by rewrite length_alter|]. apply Forall_alter; [done|].
  intros w _ [Hw0 Hw]. apply word_from_bits.
  - apply Z.lor_nonneg. split; [done|]. apply Z.shiftl_nonneg. lia.
  - intros n Hn'. rewrite Z.lor_spec, (word_testbit_high w n) by done. simpl. rewrite Z.shiftl_1_l.
    apply Z.pow2_bits_false. unfold U64_BITS_COUNT. pose proof (Z.mod_pos_bound nid 64). lia.
Qed.

Lemma set_node_bit_spec bitmap nid n :
  bitmap_ok bitmap -> (0 <= nid < REGION_NODE_BITMAP_COUNT)%Z -> (0 <= n)%Z ->
  node_bit (set_node_bit bitmap nid) n = node_bit bitmap n || Z.eqb n nid.
Proof.
  intros [Hl Hf] Hn Hn0. unfold node_bit, set_node_bit, U64_BITS_COUNT, REGION_NODE_BITMAP_COUNT in *.
  pose proof (Z.mod_pos_bound nid 64) as Hm1. pose proof (Z.mod_pos_bound n 64) as Hm2.
  pose proof (Z.div_mod nid 64) as Hd1. pose proof (Z.div_mod n 64) as Hd2.
  destruct (decide (Z.to_nat (nid / 64) = Z.to_nat (n / 64))) as [He|Hne].
  - rewrite He, list_lookup_total_alter_eq.
    + rewrite Z.lor_spec, Z.shiftl_1_l, Z.pow2_bits_eqb by lia. f_equal. apply Z2Nat.inj in He; [|apply Z.div_pos; lia..].
      destruct (Z.eqb_spec (nid mod 64) (n mod 64)), (Z.eqb_spec n nid); lia || done.
    + rewrite <- He, Hl. unfold REGION_NODE_BITMAP_U64SIZE in *. apply Nat2Z.inj_lt. rewrite Z2Nat.id by (apply Z.div_pos; lia).
      apply Z.div_lt_upper_bound; lia.
  - rewrite list_lookup_total_alter_ne by done. destruct (Z.eqb_spec n nid) as [->|]; [done|]. by rewrite orb_false_r.
Qed.


Lemma fill_foldl l bm ba :
  Forall (fun e : Z * bool => (0 <= e.1 < REGION_NODE_BITMAP_COUNT)%Z) l -> bitmap_ok bm -> bitmap_ok ba ->
  let '(bm', ba') := foldl (fun '(bitmap, bitmapAffinity) '(nid, aff) =>
     (set_node_bit bitmap nid, if (aff : bool) then set_node_bit bitmapAffinity nid else bitmapAffinity)) (bm, ba) l in
  bitmap_ok bm' /\ bitmap_ok ba' /\
  forall n, (0 <= n)%Z -> node_bit bm' n = node_bit bm n || bool_decide (n ∈ l.*1) /\
                   node_bit ba' n = node_bit ba n || bool_decide ((n, true) ∈ l).
Proof.
  revert bm ba. induction l as [|[nid aff] l IH]; intros bm ba Hl Hbm Hba; simpl.
  - split_and!; [done | done |]. intros n _. by rewrite !orb_false_r.
  - apply Forall_cons in Hl as [Hn Hl]. simpl in Hn. specialize (IH (set_node_bit bm nid)
      (if aff then set_node_bit ba nid else ba) Hl (set_node_bit_ok _ _ Hbm Hn)).
    destruct (foldl _ _ l) as [bm' ba']. destruct IH as (H1 & H2 & H3).
    { destruct aff; [by apply set_node_bit_ok | done]. }
    split_and!; [done | done |]. intros n Hn0. destruct (H3 n Hn0) as [-> ->]. split.
    + rewrite set_node_bit_spec by done. rewrite <- orb_assoc. f_equal.
      destruct (Z.eqb_spec n nid); simpl; [symmetry; apply bool_decide_true, elem_of_cons; by left|].
      apply bool_decide_ext. rewrite elem_of_cons. tauto.
    + assert (Hc : bool_decide ((n, true) ∈ (nid, aff) :: l) = (aff && Z.eqb n nid) || bool_decide ((n, true) ∈ l)).
      { destruct (Z.eqb_spec n nid) as [->|Hne], aff; simpl; (apply bool_decide_true, elem_of_cons; by left) ||
          (apply bool_decide_ext; rewrite elem_of_cons; intuition congruence). }
      rewrite Hc, orb_assoc. f_equal. destruct aff; simpl; [by rewrite set_node_bit_spec | by rewrite orb_false_r].
Qed.

Lemma zero_bitmap_ok : bitmap_ok (replicate REGION_NODE_BITMAP_U64SIZE 0%Z).
Proof. split; [by rewrite length_replicate|]. apply Forall_replicate. split; lia. Qed.

Lemma zero_bitmap_bit n :
  (0 <= n < REGION_NODE_BITMAP_COUNT)%Z -> node_bit (replicate REGION_NODE_BITMAP_U64SIZE 0%Z) n = false.
Proof.
  intros Hn. unfold node_bit, REGION_NODE_BITMAP_COUNT in *. rewrite lookup_total_replicate_2; [apply Z.bits_0|].
  unfold U64_BITS_COUNT, REGION_NODE_BITMAP_U64SIZE. apply Nat2Z.inj_lt. rewrite Z2Nat.id by (apply Z.div_pos; lia).
  apply Z.div_lt_upper_bound; lia.
Qed.

(** Nodes given for a region, in the order the listing reports them. *)
Definition listed_nodes (input : CreateRegionInput) : list Z :=
  List.filter (fun n => bool_decide (n ∈ cri_nodeIds input)) (seqZ 0 REGION_NODE_BITMAP_COUNT).

Lemma filter_nodes_range f n :
  n ∈ List.filter f (seqZ 0 REGION_NODE_BITMAP_COUNT) -> (0 <= n < REGION_NODE_BITMAP_COUNT)%Z.
Proof.
  intros H. apply list_elem_of_In in H. apply List.filter_In in H as [H _]. apply list_elem_of_In, elem_of_seqZ in H. lia.
Qed.

Lemma listed_nodes_range input n : n ∈ listed_nodes input -> (0 <= n < REGION_NODE_BITMAP_COUNT)%Z.
Proof. apply filter_nodes_range. Qed.

Lemma pairs_split {X Y} (f : X -> Y) l : ((fun x => (x, f x)) <$> l).*1 = l /\ ((fun x => (x, f x)) <$> l).*2 = f <$> l.
Proof. induction l as [|x l [IH1 IH2]]; [done|]. rewrite !fmap_cons. simpl. by rewrite IH1, IH2. Qed.

Lemma canonical_region_nodes input :
  region_input_ok input = true -> Forall (fun n => 0 <= n)%Z (cri_nodeIds input) ->
  canonical_region input =
  mkCreateRegionInput (cri_name input) (cri_size input) (listed_nodes input)
    ((fun n => bool_decide ((n, true) ∈ zip (cri_nodeIds input) (cri_affinity input))) <$> listed_nodes input).
Proof.
  intros [Hr Hlen%Nat.eqb_eq]%andb_true_iff Hpos. apply negb_true_iff in Hr.
  assert (Hfst : (zip (cri_nodeIds input) (cri_affinity input)).*1 = cri_nodeIds input) by (apply fst_zip; lia).
  assert (Hrange : Forall (fun e : Z * bool => (0 <= e.1 < REGION_NODE_BITMAP_COUNT)%Z)
                     (zip (cri_nodeIds input) (cri_affinity input))).
  { rewrite Forall_forall in Hpos. apply Forall_forall. intros [n b] Hin. assert (Hn : n ∈ cri_nodeIds input).
    { rewrite <- Hfst. apply list_elem_of_fmap. by exists (n, b). }
    split; [by apply Hpos|]. apply Z.nle_gt. intros Hge. rewrite <- not_true_iff_false in Hr. apply Hr.
    apply existsb_exists. exists n. split; [by apply list_elem_of_In|]. by apply Z.leb_le. }
  unfold canonical_region, fill_bitmaps.
  pose proof (fill_foldl _ _ _ Hrange zero_bitmap_ok zero_bitmap_ok) as Hf. destruct (foldl _ _ _) as [bm ba].
  destruct Hf as (Hbm & Hba & Hbits).
  assert (Hrn : region_nodes (mkRegionRecord (cri_name input) (cri_size input) bm ba) =
                (fun n => (n, node_bit ba n)) <$> listed_nodes input).
  { rewrite region_nodes_bits by done. unfold listed_nodes. f_equal. apply List.filter_ext_in.
    intros n Hn%list_elem_of_In%elem_of_seqZ. destruct (Hbits n ltac:(lia)) as [E _].
    cbn [rr_bitmap]. by rewrite E, zero_bitmap_bit, Hfst by lia. }
  unfold region_of. cbn [rr_name rr_size]. rewrite Hrn. destruct (pairs_split (node_bit ba) (listed_nodes input)) as [-> ->].
  f_equal. apply list_fmap_ext. intros i n Hn%list_elem_of_lookup_2%listed_nodes_range.
  destruct (Hbits n ltac:(lia)) as [_ E]. by rewrite E, zero_bitmap_bit by lia.
Qed.
