(* ===== verification/StoreTheorems.v ===== *)
(** The record store as a whole: its behaviour over any sequence of operations and
    restarts, and the properties its callers rely on. *)

From S2P Require Import Prelude StoreTypes IdPool IdPoolSpec RecordAllocator RecordStore StoreTable StoreInv StoreSteps StoreRestart StoreSpec RegionNodes.
Import RecordStore.

(** Discharges [op_ok] for every operation of an explicit list. *)
Ltac ops_ok := repeat (apply Forall_cons; split); try (by apply Forall_nil); try done.

Section Traces.
Context {G : Geometry}.

(** ** Sequences of operations *)

Fixpoint run_all (ops : list op) (s : state) : list Z * state :=
  match ops with
  | [] => ([], s)
  | o :: ops' => let '(rc, s1) := run o s in let '(rcs, s2) := run_all ops' s1 in (rc :: rcs, s2)
  end.

Fixpoint spec_all (ops : list op) (a : AStore) : list Z * AStore :=
  match ops with
  | [] => ([], a)
  | o :: ops' => let '(rc, a1) := spec_run o a in let '(rcs, a2) := spec_all ops' a1 in (rc :: rcs, a2)
  end.

(** The first start of the daemon on a fresh file, and the empty abstract store. *)
Definition started (os : Os) (fd : Z) : state := (Initialize os fd (construct zero_shm)).2.

Definition empty_abstract : AStore := mkAStore ∅ ∅ ∅ ∅ ∅ 0 RECORD_MEM_ID_POOL_LINE_COUNT SHM_MAX_REFERENCE_RECORD.

Lemma run_all_simulates ops s :
  Forall op_ok ops -> (exists A, store_inv A s) ->
  spec_all ops (abs s) = ((run_all ops s).1, abs (run_all ops s).2) /\ exists A, store_inv A (run_all ops s).2.
Proof.
  intros Hok. revert s. induction Hok as [|o ops Ho Hok IH]; intros s [A H]; [by eauto|].
  destruct (run_simulates A o s H Ho) as [Hi E]. cbn [spec_all run_all]. destruct (run o s) as [rc s1].
  simpl in E, Hi. rewrite E. destruct (IH s1 Hi) as [E' Hi']. destruct (run_all ops s1) as [rcs s2].
  simpl in E', Hi'. by rewrite E'.
Qed.

Lemma started_ok os fd :
  op_ok (OpRestart os fd) -> (exists A, store_inv A (started os fd)) /\ abs (started os fd) = empty_abstract.
Proof.
  intros Hok. destruct (restart_simulates ∅ os fd empty_store empty_store_inv Hok) as [Hi E]. simpl in Hi, E.
  split; [exact Hi|]. transitivity (with_suspended (abs empty_store) (filter (fun p => os_alive os p = true) ∅)).
  - exact (eq_sym (f_equal snd E)).
  - unfold abs, empty_abstract, with_suspended. cbn [a_regions a_leases a_imports a_refs a_suspended a_seqNo a_lines a_ref_slots].
    f_equal; try done.
    + pose proof (pool_free_content _ _ empty_store_inv) as Hp. unfold chain_lines in Hp. rewrite map_to_list_empty in Hp.
      simpl in Hp. lia.
    + unfold ref_free. simpl. by rewrite length_seq.
Qed.

(** C1: From a fresh file, any sequence of operations with arguments as the callers
    pass them ([op_ok]: names that are not empty, have no NUL and fit 64 bytes,
    process ids of 32 bits) and of daemon restarts whose system calls succeed returns
    exactly the results the abstract store returns, and leaves a state whose
    abstraction is the abstract store's state: caches, persisted records, id
    pool and both reference indexes never get out of step, whatever the order.
    An empty name breaks this: [empty_name_lost]. *)
Theorem store_trace_refines os fd ops :
  op_ok (OpRestart os fd) -> Forall op_ok ops ->
  (run_all ops (started os fd)).1 = (spec_all ops empty_abstract).1 /\
  abs (run_all ops (started os fd)).2 = (spec_all ops empty_abstract).2.
Proof.
  intros Hok Hops. destruct (started_ok os fd Hok) as [Hi Ha].
  destruct (run_all_simulates ops _ Hops Hi) as [E _]. rewrite Ha in E. by rewrite E.
Qed.

(** After any sequence of operations the five listings report the abstract
    store: each region, lease and import once, the number of references of every
    process on every import (the same one in both listings), and the
    suspended processes. *)
Theorem store_listings_report os fd ops :
  op_ok (OpRestart os fd) -> Forall op_ok ops ->
  let s := (run_all ops (started os fd)).2 in
  let a := (spec_all ops empty_abstract).2 in
  ListRegionRecord s = (map_to_list (a_regions a)).*2 /\
  ListMemLeaseRecord s = (map_to_list (a_leases a)).*2 /\
  ListShmImportRecord s = (map_to_list (a_imports a)).*2 /\
  (forall n p, get2 (ListShmRefRecordNameF s) n p = reported (a_count a n p) /\
               get2 (ListShmRefRecordPidF s) p n = reported (a_count a n p)) /\
  (forall p, p ∈ ListSuspendClients s <-> p ∈ a_suspended a).
Proof.
  intros Hok Hops s a. destruct (started_ok os fd Hok) as [Hi Ha].
  destruct (run_all_simulates ops _ Hops Hi) as [E [A H]]. rewrite Ha in E. fold s in E, H.
  assert (Ea : a = abs s) by (unfold a; by rewrite E). rewrite Ea.
  split_and!; [by eapply ListRegionRecord_view | by eapply ListMemLeaseRecord_view | by eapply ListShmImportRecord_view | |].
  - intros n p. rewrite (abs_count _ _ _ _ H). split; [by eapply ListShmRefRecordNameF_count | by eapply ListShmRefRecordPidF_count].
  - intros p. cbn [abs a_suspended]. by rewrite elem_of_list_to_set.
Qed.

(** C38: Killing the daemon after any sequence of operations with arguments as the
    callers pass them ([op_ok]: names that are not empty, have no NUL and fit 64 bytes,
    process ids of 32 bits) and starting it again, with system calls that succeed,
    on the file it left brings back every region, lease, import and reference;
    of the suspended processes it keeps exactly those still alive, in order. *)
Theorem store_restart_recovers os fd ops os' fd' :
  op_ok (OpRestart os fd) -> Forall op_ok ops -> op_ok (OpRestart os' fd') ->
  let s := (run_all ops (started os fd)).2 in
  let '(rc, s') := Initialize os' fd' (construct (shm s)) in
  rc = 0%Z /\ ListRegionRecord s' = ListRegionRecord s /\ ListMemLeaseRecord s' = ListMemLeaseRecord s /\
  ListShmImportRecord s' = ListShmImportRecord s /\ ListShmRefRecordNameF s' = ListShmRefRecordNameF s /\
  ListShmRefRecordPidF s' = ListShmRefRecordPidF s /\
  ListSuspendClients s' = List.filter (os_alive os') (ListSuspendClients s).
Proof.
  intros Hok Hops (Hfd & Ht & Hm) s. destruct (started_ok os fd Hok) as [Hi _].
  destruct (run_all_simulates ops _ Hops Hi) as [_ [A H]]. fold s in H.
  destruct (Initialize_restart A s os' fd' H Hfd Ht Hm) as (s' & -> & H' & Hsame & Hsus).
  destruct (same_views _ _ Hsame) as (V1 & V2 & V3 & V4). destruct (ref_listings_ext _ _ _ _ H H' V4) as [L1 L2].
  split_and!; [done | | | | done | done |].
  - by rewrite (ListRegionRecord_view _ _ H), (ListRegionRecord_view _ _ H'), V1.
  - by rewrite (ListMemLeaseRecord_view _ _ H), (ListMemLeaseRecord_view _ _ H'), V2.
  - by rewrite (ListShmImportRecord_view _ _ H), (ListShmImportRecord_view _ _ H'), V3.
  - rewrite (ListSuspendClients_live _ _ H), (ListSuspendClients_live _ _ H'), Hsus. apply prune_spec, H.
Qed.

(** ** Reachable states *)

Definition reachable (s : state) : Prop :=
  exists os fd ops, op_ok (OpRestart os fd) /\ Forall op_ok ops /\ s = (run_all ops (started os fd)).2.

Lemma reachable_inv s : reachable s -> exists A, store_inv A s.
Proof.
  intros (os & fd & ops & Hok & Hops & ->). destruct (started_ok os fd Hok) as [Hi _].
  by destruct (run_all_simulates ops _ Hops Hi).
Qed.

Lemma reachable_run s o : reachable s -> op_ok o -> spec_run o (abs s) = ((run o s).1, abs (run o s).2).
Proof. intros [A H]%reachable_inv Ho. by destruct (run_simulates A o s H Ho). Qed.

Lemma run_all_app ops1 ops2 s :
  run_all (ops1 ++ ops2) s = ((run_all ops1 s).1 ++ (run_all ops2 (run_all ops1 s).2).1, (run_all ops2 (run_all ops1 s).2).2).
Proof.
  revert s. induction ops1 as [|o ops1 IH]; intros s; simpl; [by destruct (run_all ops2 s)|].
  destruct (run o s) as [rc s1]. rewrite IH. by destruct (run_all ops1 s1).
Qed.

Lemma reachable_step s o : reachable s -> op_ok o -> reachable (run o s).2.
Proof.
  intros (os & fd & ops & Hok & Hops & ->) Ho. exists os, fd, (ops ++ [o]). split_and!; [done | by apply Forall_app, conj, Forall_singleton |].
  rewrite run_all_app. simpl. by destruct (run o _).
Qed.

(** Adding a region lists it once more, with its name and size, its nodes in
    increasing order without repetition, and each node's affinity set when some
    occurrence of the node in the request set it; the other regions are
    listed as before. *)
Theorem region_add_lists s input s' :
  reachable s -> good_name (cri_name input) -> Forall (fun n => 0 <= n)%Z (cri_nodeIds input) ->
  AddRegionRecord input s = (0%Z, s') ->
  let nodes := List.filter (fun n => bool_decide (n ∈ cri_nodeIds input)) (seqZ 0 REGION_NODE_BITMAP_COUNT) in
  ListRegionRecord s' ≡ₚ
    mkCreateRegionInput (cri_name input) (cri_size input) nodes
      ((fun n => bool_decide ((n, true) ∈ zip (cri_nodeIds input) (cri_affinity input))) <$> nodes) :: ListRegionRecord s.
Proof.
  intros [A H]%reachable_inv Hn Hpos E nodes. pose proof (AddRegionRecord_spec A s input H Hn) as Hs. rewrite E in Hs.
  destruct Hs as (H' & _ & _ & _ & Hs). rewrite (ListRegionRecord_view _ _ H), (ListRegionRecord_view _ _ H').
  destruct (decide _) as [(Hok & Hf & _)|]; destruct Hs as [? Hs]; [|done]. rewrite Hs.
  rewrite map_to_list_insert by done. cbn [fmap list_fmap snd].
  by rewrite (canonical_region_nodes input Hok Hpos).
Qed.

(** An import with references cannot be deleted: the call fails and changes
    nothing. Without references it is deleted, its id list goes back to the pool
    and no other record is touched. *)
Theorem import_delete_guard s name info :
  reachable s -> view_imports s !! name = Some info ->
  let '(rc, s') := DelShmImportRecord name s in
  if decide (unreferenced (abs s) name)
  then rc = 0%Z /\ view_imports s' = delete name (view_imports s) /\
       pool_free s' = pool_free s + lines_needed (smo_memIds info) /\
       view_regions s' = view_regions s /\ view_leases s' = view_leases s /\ ref_free s' = ref_free s
  else rc = (-1)%Z /\ abs s' = abs s.
Proof.
  intros Hr Hi. pose proof (reachable_run s (OpDelImport name) Hr I) as E. simpl in E. rewrite Hi in E.
  destruct (DelShmImportRecord name s) as [rc s']. simpl in E.
  destruct (decide _); pose proof (f_equal fst E) as E1; pose proof (f_equal snd E) as E2; cbn [fst snd] in E1, E2; [|done].
  split_and!; [done | exact (eq_sym (f_equal a_imports E2)) | exact (eq_sym (f_equal a_lines E2)) |
    exact (eq_sym (f_equal a_regions E2)) | exact (eq_sym (f_equal a_leases E2)) | exact (eq_sym (f_equal a_ref_slots E2))].
Qed.

(** A lease that is requested, granted and released leaves no trace: the three
    calls succeed and the store is as before, free pool lines included. *)
Theorem lease_lifecycle s input result :
  reachable s -> good_name (lmi_name input) ->
  view_leases s !! lmi_name input = None -> size (view_leases s) < MEM_LEASE_MAX_RECORD ->
  lmr_memIds result <> [] -> lines_needed (lmr_memIds result) <= pool_free s ->
  let ops := [OpAddLeaseInput input; OpAddLeaseResult (lmi_name input) result; OpDelLease (lmi_name input)] in
  (run_all ops s).1 = [0; 0; 0]%Z /\ abs (run_all ops s).2 = abs s.
Proof.
  intros [A H]%reachable_inv Hn Hf Hsz Hne Hl ops.
  destruct (run_all_simulates ops s) as [E _]; [unfold ops; ops_ok | by exists A |].
  cbn [ops spec_all] in E. unfold spec_run in E. cbn [abs a_leases a_lines] in E.
  rewrite decide_True in E by done. cbn [with_leases a_leases a_lines] in E. rewrite lookup_insert_eq in E.
  rewrite decide_True in E by done. cbn [with_leases a_leases a_lines] in E. rewrite lookup_insert_eq in E. cbn [snd] in E.
  pose proof (f_equal fst E) as E1. pose proof (f_equal snd E) as E2. cbn [fst snd] in E1, E2. split; [done|].
  rewrite <- E2. unfold with_leases, abs. cbn [a_regions a_leases a_imports a_refs a_suspended a_seqNo a_lines a_ref_slots]. f_equal; [by rewrite insert_insert_eq, delete_insert_id by done | lia].
Qed.

(** ** Pool lines *)

(** Sum of a measure over the values of a map. *)
Definition map_sum {V} (f : V -> nat) (m : gmap string V) : nat := sum_list (f <$> (map_to_list m).*2).

Lemma map_sum_insert {V} (f : V -> nat) m k v : m !! k = None -> map_sum f (<[k := v]> m) = f v + map_sum f m.
Proof. intros H. unfold map_sum. by rewrite map_to_list_insert. Qed.

Lemma map_sum_delete {V} (f : V -> nat) m k v : m !! k = Some v -> map_sum f m = f v + map_sum f (delete k m).
Proof. intros H. rewrite <- (insert_delete_id m k v H) at 1. apply map_sum_insert, lookup_delete_eq. Qed.

Lemma map_sum_replace {V} (f : V -> nat) m k v v' :
  m !! k = Some v -> f v + map_sum f (<[k := v']> m) = f v' + map_sum f m.
Proof.
  intros H. rewrite (map_sum_delete f m k v H), <- insert_delete_eq.
  rewrite map_sum_insert by apply lookup_delete_eq. lia.
Qed.

Definition lease_lines (v : LeaseMallocInput * LeaseMallocResult) : nat := lines_needed (lmr_memIds v.2).
Definition import_lines (v : ShareMemImportInfo) : nat := lines_needed (smo_memIds v).

(** Every line of the pool is free or holds ids of a listed lease or import. *)
Definition lines_accounted (a : AStore) : Prop :=
  a_lines a + map_sum lease_lines (a_leases a) + map_sum import_lines (a_imports a) = RECORD_MEM_ID_POOL_LINE_COUNT.

(** A result is added only to a lease or import that has none yet. *)
Definition result_once (o : op) (a : AStore) : Prop :=
  match o with
  | OpAddLeaseResult n _ => match a_leases a !! n with Some v => lmr_memIds v.2 = [] | None => True end
  | OpAddImportResult n _ => match a_imports a !! n with Some v => smo_memIds v = [] | None => True end
  | _ => True
  end.

Fixpoint results_once (ops : list op) (a : AStore) : Prop :=
  match ops with [] => True | o :: ops' => result_once o a /\ results_once ops' (spec_run o a).2 end.

Lemma lines_accounted_run o a : lines_accounted a -> result_once o a -> lines_accounted (spec_run o a).2.
Proof.
  unfold lines_accounted. intros Ha Ho.
  destruct o as [| |i|n r|n st|n c sz|n|i|n r|n st|n| | | | | | |]; cbn [spec_run result_once] in *;
    try (by repeat case_step).
  - destruct (decide _) as [[Hf _]|]; [|done]. cbn [snd with_leases with_imports a_lines a_leases a_imports]. rewrite map_sum_insert by done. change (lease_lines (i, pending_result)) with 0. lia.
  - destruct (a_leases a !! n) as [v|] eqn:E; [|done]. destruct (decide _) as [[_ Hl]|]; [|done]. cbn [snd with_leases with_imports a_lines a_leases a_imports].
    pose proof (map_sum_replace lease_lines _ _ _ (lease_finished v.1, r) E) as Hm.
    assert (Hz : lease_lines v = 0) by (unfold lease_lines; by rewrite Ho).
    change (lease_lines (lease_finished v.1, r)) with (lines_needed (lmr_memIds r)) in Hm. lia.
  - destruct (a_leases a !! n) as [v|] eqn:E; [|done]. cbn [snd with_leases with_imports a_lines a_leases a_imports].
    pose proof (map_sum_replace lease_lines _ _ _ (lease_restate st v) E) as Hm. unfold lease_lines at 1 3 in Hm.
    cbn [lease_restate lease_reown fst snd] in Hm. lia.
  - destruct (a_leases a !! n) as [v|] eqn:E; [|done]. cbn [snd with_leases with_imports a_lines a_leases a_imports].
    pose proof (map_sum_replace lease_lines _ _ _ (lease_reown c sz v) E) as Hm. unfold lease_lines at 1 3 in Hm.
    cbn [lease_restate lease_reown fst snd] in Hm. lia.
  - destruct (a_leases a !! n) as [v|] eqn:E; [|done]. cbn [snd with_leases with_imports a_lines a_leases a_imports].
    pose proof (map_sum_delete lease_lines _ _ _ E) as Hm. unfold lease_lines at 2 in Hm. lia.
  - destruct (decide _) as [[Hf _]|]; [|done]. cbn [snd with_leases with_imports a_lines a_leases a_imports]. rewrite (map_sum_insert import_lines) by done.
    change (import_lines (pending_import i)) with 0. lia.
  - destruct (a_imports a !! n) as [v|] eqn:E; [|done]. destruct (decide _) as [[_ Hl]|]; [|done]. cbn [snd with_leases with_imports a_lines a_leases a_imports].
    pose proof (map_sum_replace import_lines _ _ _ (import_finished r v) E) as Hm.
    assert (Hz : import_lines v = 0) by (unfold import_lines; by rewrite Ho).
    change (import_lines (import_finished r v)) with (lines_needed (smr_memIds r)) in Hm. lia.
  - destruct (a_imports a !! n) as [v|] eqn:E; [|done]. cbn [snd with_leases with_imports a_lines a_leases a_imports].
    pose proof (map_sum_replace import_lines _ _ _ (import_restate st v) E) as Hm. unfold import_lines at 1 3 in Hm.
    cbn [import_restate smo_memIds] in Hm. lia.
  - destruct (a_imports a !! n) as [v|] eqn:E; [|done]. destruct (decide _); [|done]. cbn [snd with_leases with_imports a_lines a_leases a_imports].
    pose proof (map_sum_delete import_lines _ _ _ E) as Hm. unfold import_lines at 2 in Hm. lia.
Qed.

Lemma lines_accounted_all ops a : lines_accounted a -> results_once ops a -> lines_accounted (spec_all ops a).2.
Proof.
  revert a. induction ops as [|o ops IH]; intros a Ha; [done|]. intros [Ho Hops]. cbn [spec_all].
  pose proof (lines_accounted_run o a Ha Ho) as H1. destruct (spec_run o a) as [rc a1]. specialize (IH a1 H1 Hops).
  by destruct (spec_all ops a1).
Qed.

(** As long as a result is added at most once per lease and per import, no line
    of the memory-id pool is ever lost: after any sequence of operations and
    restarts, the free lines and the lines needed for the listed leases
    and imports add up to the pool. *)
Theorem pool_lines_never_leak os fd ops :
  op_ok (OpRestart os fd) -> Forall op_ok ops -> results_once ops empty_abstract ->
  let s := (run_all ops (started os fd)).2 in
  pool_free s + sum_list ((fun v => lines_needed (lmr_memIds v.2)) <$> ListMemLeaseRecord s) +
    sum_list ((fun v => lines_needed (smo_memIds v)) <$> ListShmImportRecord s) = RECORD_MEM_ID_POOL_LINE_COUNT.
Proof.
  intros Hok Hops Hone s. destruct (started_ok os fd Hok) as [Hi Ha].
  destruct (run_all_simulates ops _ Hops Hi) as [E [A H]]. fold s in E, H. rewrite Ha in E.
  rewrite (ListMemLeaseRecord_view _ _ H), (ListShmImportRecord_view _ _ H).
  pose proof (lines_accounted_all ops empty_abstract) as Hl. rewrite E in Hl. apply Hl; [|done].
  unfold lines_accounted, map_sum. cbn [empty_abstract a_lines a_leases a_imports]. rewrite !map_to_list_empty. simpl. lia.
Qed.

(** Adding a second result to a lease loses the lines of the first for good:
    after the lease is deleted the pool is short of them, although every call
    succeeded. *)
Theorem second_result_leaks s input r1 r2 :
  reachable s -> good_name (lmi_name input) ->
  view_leases s !! lmi_name input = None -> size (view_leases s) < MEM_LEASE_MAX_RECORD ->
  lmr_memIds r1 <> [] -> lmr_memIds r2 <> [] ->
  lines_needed (lmr_memIds r1) + lines_needed (lmr_memIds r2) <= pool_free s ->
  let n := lmi_name input in
  let ops := [OpAddLeaseInput input; OpAddLeaseResult n r1; OpAddLeaseResult n r2; OpDelLease n] in
  (run_all ops s).1 = [0; 0; 0; 0]%Z /\ view_leases (run_all ops s).2 = view_leases s /\
  pool_free (run_all ops s).2 + lines_needed (lmr_memIds r1) = pool_free s.
Proof.
  intros [A H]%reachable_inv Hn Hf Hsz H1 H2 Hl n ops.
  destruct (run_all_simulates ops s) as [E _]; [unfold ops; ops_ok | by exists A |].
  cbn [ops spec_all] in E. unfold spec_run in E. cbn [abs a_leases a_lines] in E.
  rewrite decide_True in E by done. cbn [with_leases a_leases a_lines] in E. unfold n in E.
  do 2 (rewrite lookup_insert_eq in E; rewrite decide_True in E by (split; [done | lia]); cbn [with_leases a_leases a_lines] in E).
  rewrite lookup_insert_eq in E. cbn [snd fst] in E.
  pose proof (f_equal fst E) as E1. pose proof (f_equal snd E) as E2. cbn [fst snd] in E1, E2. split_and!; [done | |].
  - rewrite <- (f_equal a_leases E2 : _ = view_leases _). cbn [with_leases a_leases]. by rewrite !insert_insert_eq, delete_insert_id.
  - pose proof (f_equal a_lines E2 : _ = pool_free _) as E3. cbn [with_leases a_lines] in E3. rewrite <- E3. lia.
Qed.

(** ** References, suspended processes, sequence numbers *)

Lemma set_count_undo A s n p :
  store_inv A s -> set_count (set_count (refs_map s) n p (S (ref_count s n p))) n p (ref_count s n p) = refs_map s.
Proof.
  intros H. unfold set_count. destruct (decide (S (ref_count s n p) = 0)); [done|].
  pose proof (refs_map_lookup _ _ n p H) as Hl. unfold count_opt in Hl.
  destruct (decide (ref_count s n p = 0)).
  - by rewrite delete_insert_id.
  - by rewrite insert_insert_eq, insert_id.
Qed.

(** Taking a reference raises one counter by one and no other, in both
    listings, and dropping it again restores the store, the slot included. *)
Theorem ref_add_del_inverse s pid name s1 :
  reachable s -> pid_range pid -> AddShmRefRecord pid name s = (0%Z, s1) ->
  (forall n p, a_count (abs s1) n p = if decide (n = name /\ p = pid) then S (a_count (abs s) n p) else a_count (abs s) n p) /\
  (DelShmRefRecord pid name s1).1 = 0%Z /\ abs (DelShmRefRecord pid name s1).2 = abs s.
Proof.
  intros Hr Hp E. pose proof (reachable_run _ (OpAddRef pid name) Hr Hp) as E1.
  pose proof (reachable_step _ (OpAddRef pid name) Hr Hp) as Hr1. cbn [spec_run run] in E1, Hr1.
  rewrite E in E1, Hr1. cbn [fst snd] in E1, Hr1.
  destruct (reachable_inv _ Hr) as [A H]. destruct (reachable_inv _ Hr1) as [A1 H1].
  pose proof (AddShmRefRecord_spec A s pid name H Hp) as Hs. rewrite E in Hs. destruct Hs as (_ & _ & Hs).
  destruct (decide _) as [(Hp0 & Hlen & Him & Hfree)|]; destruct Hs as (? & Hs); [|done]. destruct Hs as [Hf Hc].
  pose proof (f_equal snd E1) as E2. cbn [snd] in E2. rewrite (abs_count _ _ _ _ H) in E2.
  split; [intros n p; by rewrite (abs_count _ _ _ _ H), (abs_count _ _ _ _ H1), Hc|].
  pose proof (reachable_run _ (OpDelRef pid name) Hr1 I) as E3. cbn [spec_run run] in E3.
  assert (Hcnt : a_count (abs s1) name pid = S (ref_count s name pid)) 
    by (rewrite (abs_count _ _ _ _ H1), Hc; by rewrite decide_True).
  rewrite Hcnt, decide_True in E3 by (split_and!; [done | done | lia]).
  pose proof (f_equal fst E3) as E4. pose proof (f_equal snd E3) as E5. cbn [fst snd] in E4, E5. split; [done|].
  rewrite <- E5, <- E2. unfold with_refs. cbn [a_regions a_leases a_imports a_refs a_suspended a_seqNo a_lines a_ref_slots].
  rewrite Nat.sub_succ, Nat.sub_0_r, (set_count_undo _ _ _ _ H). unfold abs. f_equal.
  cbn [a_ref_slots]. lia.
Qed.

(** When a process exits, [DelShmRefRecordsByPid] drops every reference it
    held and no other process's, in both listings; imports that only this process
    referred to can then be deleted. *)
Theorem exited_process_cleared s pid :
  reachable s -> pid <> 0%Z ->
  let '(rc, s') := DelShmRefRecordsByPid pid s in
  rc = 0%Z /\
  (forall n p, get2 (ListShmRefRecordNameF s') n p = (if decide (p = pid) then None else get2 (ListShmRefRecordNameF s) n p) /\
               get2 (ListShmRefRecordPidF s') p n = (if decide (p = pid) then None else get2 (ListShmRefRecordPidF s) p n)) /\
  (forall n, is_Some (view_imports s !! n) -> (forall p, p <> pid -> ref_count s n p = 0) -> (DelShmImportRecord n s').1 = 0%Z).
Proof.
  intros Hr H0. destruct (reachable_inv _ Hr) as [A H].
  pose proof (reachable_step _ (OpDelRefsByPid pid) Hr I) as Hr'. simpl in Hr'.
  pose proof (DelShmRefRecordsByPid_spec A s pid H H0) as Hs. destruct (DelShmRefRecordsByPid pid s) as [rc s'].
  destruct Hs as ([H' _] & (_ & _ & Hvi) & Hrc & _ & Hc). split; [done|]. split.
  - intros n p. rewrite (ListShmRefRecordNameF_count _ _ _ _ H), (ListShmRefRecordNameF_count _ _ _ _ H'),
      (ListShmRefRecordPidF_count _ _ _ _ H), (ListShmRefRecordPidF_count _ _ _ _ H'), Hc.
    by destruct (decide (p = pid)).
  - intros n [v Hv] Hother. pose proof (DelShmImportRecord_spec A s' n H') as Hd. destruct (DelShmImportRecord n s') as [rc' s''].
    destruct Hd as [_ Hd]. rewrite Hvi, Hv in Hd. destruct Hd as [(_ & _ & q & Hq)|(? & _)]; [|done].
    rewrite Hc in Hq. destruct (decide (q = pid)); [done|]. by rewrite Hother in Hq.
Qed.

(** A process that was suspended is reported suspended, and still is after the
    daemon restarts, provided it is alive then; a process that died is forgotten. *)
Theorem suspended_until_dead s pid s1 os fd :
  reachable s -> (0 < pid < 2 ^ 31)%Z -> AddSuspendClient pid s = (0%Z, s1) -> op_ok (OpRestart os fd) ->
  IsClientSuspended pid s1 = true /\
  IsClientSuspended pid (Initialize os fd (construct (shm s1))).2 = os_alive os pid.
Proof.
  intros Hr Hp E Hos. assert (Hok : op_ok (OpAddSuspend pid)) by (split; lia).
  pose proof (reachable_step _ _ Hr Hok) as Hr1. simpl in Hr1. rewrite E in Hr1. simpl in Hr1.
  pose proof (reachable_step _ _ Hr1 Hos) as Hr2. simpl in Hr2.
  destruct (reachable_inv _ Hr) as [A H]. destruct (reachable_inv _ Hr1) as [A1 H1]. destruct (reachable_inv _ Hr2) as [A2 H2].
  assert (Hin : pid ∈ ListSuspendClients s1).
  { pose proof (AddSuspendClient_spec A s pid H Hp) as Hs. rewrite E in Hs. destruct Hs as [_ Hs].
    destruct (decide _); [by destruct Hs as [_ ->]|]. destruct (decide _); [by destruct Hs|]. destruct Hs as [_ ->].
    apply elem_of_app. right. by apply list_elem_of_singleton. }
  rewrite (IsClientSuspended_spec _ _ _ H1 Hp), (IsClientSuspended_spec _ _ _ H2 Hp), bool_decide_true by done. split; [done|].
  destruct Hos as (Hfd & Ht & Hm). destruct (Initialize_restart A1 s1 os fd H1 Hfd Ht Hm) as (s2 & E2 & H3 & _ & Hsus).
  rewrite E2 in *. cbn [snd] in *. rewrite (ListSuspendClients_live _ _ H3), Hsus.
  destruct (prune_spec (os_alive os) _ (inv_suspend _ _ H1)) as [_ ->]. rewrite (ListSuspendClients_live _ _ H1) in Hin.
  destruct (os_alive os pid) eqn:Ea; [apply bool_decide_true | apply bool_decide_false];
    rewrite list_elem_of_In, List.filter_In, <- list_elem_of_In; [done | intros [_ ?]; congruence].
Qed.

(** The results of the [GetCreateSeqNo] calls of a sequence. *)
Fixpoint seq_results (ops : list op) (rcs : list Z) : list Z :=
  match ops, rcs with
  | OpGetSeqNo :: ops', r :: rcs' => r :: seq_results ops' rcs'
  | _ :: ops', _ :: rcs' => seq_results ops' rcs'
  | _, _ => []
  end.

Lemma spec_seqNo o a : o <> OpGetSeqNo -> a_seqNo (spec_run o a).2 = a_seqNo a.
Proof. intros Ho. destruct o; cbn [spec_run]; repeat case_step; done. Qed.

Lemma seq_results_spec ops a :
  u32 (a_seqNo a) = a_seqNo a ->
  exists m, m <= length ops /\
    seq_results ops (spec_all ops a).1 = (fun k => u32 (a_seqNo a + Z.of_nat k)) <$> seq 0 m.
Proof.
  revert a. induction ops as [|o ops IH]; intros a Ha; [by exists 0|]. cbn [spec_all].
  assert (Hdec : {o = OpGetSeqNo} + {o <> OpGetSeqNo}) by (destruct o; (by left) || by right). destruct Hdec as [->|Ho].
  - cbn [spec_run]. destruct (IH (with_seqNo a (u32 (a_seqNo a + 1)))) as (m & Hm & E).
    { cbn. apply u32_small, u32_range. }
    destruct (spec_all ops _) as [rcs a2]. cbn [fst] in E. exists (S m). split; [simpl; lia|]. cbn [fst seq_results].
    rewrite E. cbn [seq fmap list_fmap a_seqNo with_seqNo]. rewrite Z.add_0_r, Ha. f_equal.
    rewrite <- (fmap_S_seq 0 m), <- list_fmap_compose. apply list_fmap_ext. intros i k _. cbn [compose].
    unfold u32. rewrite Zplus_mod_idemp_l. f_equal. lia.
  - pose proof (spec_seqNo o a Ho) as Hs. destruct (spec_run o a) as [rc a1]. cbn [snd] in Hs.
    destruct (IH a1) as (m & Hm & E); [by rewrite Hs|]. destruct (spec_all ops a1) as [rcs a2]. cbn [fst] in E.
    rewrite Hs in E. exists m. split; [simpl; lia|]. rewrite <- E. by destruct o.
Qed.

(** The sequence numbers handed out are pairwise different, across restarts and
    whatever happens in between, for as long as fewer than 2^32 calls were made. *)
Theorem seqno_unique os fd ops :
  op_ok (OpRestart os fd) -> Forall op_ok ops -> (Z.of_nat (length ops) < 2 ^ 32)%Z ->
  NoDup (seq_results ops (run_all ops (started os fd)).1).
Proof.
  intros Hok Hops Hlen. destruct (started_ok os fd Hok) as [Hi Ha].
  destruct (run_all_simulates ops _ Hops Hi) as [E _]. rewrite Ha in E.
  destruct (seq_results_spec ops empty_abstract) as (m & Hm & Em); [done|]. rewrite E in Em. cbn [fst] in Em. rewrite Em.
  apply NoDup_fmap_2_strong; [|apply NoDup_seq]. intros x y Hx%elem_of_seq Hy%elem_of_seq. cbn [empty_abstract a_seqNo].
  rewrite !Z.add_0_l, !u32_small by lia. lia.
Qed.

End Traces.

(** ** Layout of the file *)

(** The end of the last array, from the pointers [Initialize] computes. *)
Definition layout_end `{Geometry} : Z :=
  (sizeof_RegionRecord * Z.of_nat REGION_MAX_RECORD + sizeof_MemLeaseRecord * Z.of_nat MEM_LEASE_MAX_RECORD +
   sizeof_MemShareImportRecord * Z.of_nat SHM_MAX_ATTACH_RECORD + sizeof_MemShareRefRecord * Z.of_nat SHM_MAX_REFERENCE_RECORD +
   sizeof_MemIdRecordPool RECORD_MEM_ID_POOL_LINE_COUNT + 4 + sizeof_SuspendClientArray)%Z.

(** With the capacities of the header, everything [Initialize] places in the
    shared memory file lies inside the [SHARE_MEM_SIZE] bytes it maps. *)
Theorem layout_fits : (@layout_end source_geometry <= SHARE_MEM_SIZE)%Z.
Proof.
  unfold layout_end, sizeof_MemIdRecordPool. cbn [REGION_MAX_RECORD MEM_LEASE_MAX_RECORD SHM_MAX_ATTACH_RECORD
    SHM_MAX_REFERENCE_RECORD RECORD_MEM_ID_POOL_LINE_COUNT source_geometry].
  rewrite !Z2Nat.id by (vm_compute; discriminate). vm_compute. discriminate.
Qed.

Section Divergence.
Context {G : Geometry}.

Lemma clear_nameless a i r : rr_name r = "" -> i < length a -> alter ClearRegion i (<[i := r]> a) = <[i := r]> a.
Proof.
  intros Hr Hi. apply list_eq. intros j. destruct (decide (i = j)) as [->|Hne].
  - rewrite list_lookup_alter_eq, list_lookup_insert_eq by done. simpl. destruct r. simpl in Hr. by subst.
  - by rewrite list_lookup_alter_ne.
Qed.

(** [AddRegionRecord] accepts the empty name: it reports success and lists the
    region, but the record it writes counts as idle, so the region is gone after a
    restart. *)
Theorem empty_name_lost s input os fd :
  reachable s -> cri_name input = "" -> region_input_ok input = true -> size (view_regions s) < REGION_MAX_RECORD ->
  op_ok (OpRestart os fd) ->
  let '(rc, s') := AddRegionRecord input s in
  rc = 0%Z /\ length (ListRegionRecord s') = S (length (ListRegionRecord s)) /\
  ListRegionRecord (Initialize os fd (construct (shm s'))).2 = ListRegionRecord s.
Proof.
  intros [A H]%reachable_inv Hn Hok Hsz (Hfd & Ht & Hm). unfold AddRegionRecord. rewrite Hn.
  unfold region_input_ok in Hok. apply andb_true_iff in Hok as [Hr%negb_true_iff Hl]. rewrite Hr, Hl, (inv_mapped _ _ H). cbn.
  pose proof (table_size _ _ _ _ _ _ _ (inv_region _ _ H)) as Hsize.
  assert (Hsv : size (view_regions s) = size (cachedRegionRecords_ s)) by apply map_size_fmap.
  pose proof (BaseRecordAllocator.Allocate_spec (regionAllocator_ s)) as Hal.
  destruct (BaseRecordAllocator.Allocate (regionAllocator_ s)) as [[i|] idle].
  2:{ destruct Hal as [Ha _]. rewrite Ha in Hsize. simpl in Hsize. lia. }
  destruct (fill_bitmaps _ _) as [bm ba]. set (r := mkRegionRecord "" (cri_size input) bm ba).
  assert (Hnone : cachedRegionRecords_ s !! "" = None).
  { destruct (cachedRegionRecords_ s !! "") as [j|] eqn:E; [|done].
    by apply (table_name_nonempty _ _ _ _ region_idle_name _ _ _ _ _ (inv_region _ _ H)) in E. }
  rewrite Hnone. pose proof (inv_region _ _ H) as Htab. rewrite Hal in Htab.
  destruct (table_abandon _ _ ClearRegion _ _ region_idle_name (fun _ => eq_refl) _ _ _ i r Htab) as (a' & E & Htab' & Hs).
  pose proof (table_slots _ _ _ _ _ _ _ Htab) as Hslots.
  assert (Hi : i < REGION_MAX_RECORD).
  { eapply (BaseRecordAllocator.slots_bound _ _ _ _ _ i Hslots). left. apply elem_of_app. right. by apply list_elem_of_singleton. }
  unfold BaseRecordAllocator.Release in E. destruct (Nat.leb_spec REGION_MAX_RECORD i); [lia|].
  rewrite clear_nameless in E by (done || by rewrite (BaseRecordAllocator.slots_length _ _ _ _ _ Hslots)).
  injection E as <-. split_and!; [done | |].
  - unfold ListRegionRecord. rewrite !length_fmap. cbn [set_region cachedRegionRecords_].
    by rewrite map_to_list_insert.
  - set (s1 := set_region s (<[i := r]> (shm_regions (shm s))) (idle ++ [i]) (cachedRegionRecords_ s)).
    assert (H1 : store_inv A s1) by (by apply store_set_region).
    destruct (Initialize_restart A s1 os fd H1 Hfd Ht Hm) as (s2 & E2 & H2 & Hsame & _).
    change (shm _) with (shm s1). rewrite E2. cbn [snd]. destruct (same_views _ _ Hsame) as (V & _).
    rewrite (ListRegionRecord_view _ _ H2), (ListRegionRecord_view _ _ H), V. do 2 f_equal.
    apply fmap_ext_on. intros n v Hv. cbn [s1 set_region shm shm_regions]. f_equal. by apply (Hs n v).
Qed.

End Divergence.

(** ** Witnesses *)

Section Witnesses.
#[local] Existing Instance small_geometry.

Definition demo_os : Os := mkOs true true (fun p => Z.eqb p 7).

Definition demo_region : CreateRegionInput := mkCreateRegionInput "r" 4096 [70; 3; 70]%Z [false; true; true].

Definition demo_lease : LeaseMallocInput := mkLeaseMallocInput true "l" 4096 1 (mkAppContext 7 0 0) PRE_ADD.

Definition demo_result : LeaseMallocResult := mkLeaseMallocResult [11; 12]%Z (-1) 4096 2.

Definition demo_import : ShareMemImportInput := mkShareMemImportInput "m" 8192 7.

Definition demo_ops : list op :=
  [OpAddRegion demo_region; OpAddLeaseInput demo_lease; OpAddLeaseResult "l" demo_result; OpAddImportInput demo_import;
   OpAddImportResult "m" (mkShareMemImportResult [21]%Z 4096 0 0 0 0); OpAddRef 7 "m"; OpAddSuspend 7; OpGetSeqNo; OpGetSeqNo].

Definition demo_store : state := (run_all demo_ops (started demo_os 3)).2.

Lemma good_name_demo n : bool_decide (n <> "" /\ c_str n = n /\ String.length n < RECORD_NAME_SIZE) = true -> good_name n.
Proof. intros H%bool_decide_eq_true. exact H. Qed.

Lemma demo_restart : op_ok (OpRestart demo_os 3).
Proof. done. Qed.

Lemma demo_ops_ok : Forall op_ok demo_ops.
Proof.
  unfold demo_ops. ops_ok; try (by apply good_name_demo); try (simpl; unfold pid_range; lia).
Qed.

Lemma demo_reachable : reachable demo_store.
Proof. exists demo_os, 3%Z, demo_ops. split_and!; [apply demo_restart | apply demo_ops_ok | done]. Qed.

Lemma store_trace_refines_witness :
  (run_all demo_ops (started demo_os 3)).1 = [0; 0; 0; 0; 0; 0; 0; 0; 1]%Z /\
  abs (run_all demo_ops (started demo_os 3)).2 = (spec_all demo_ops empty_abstract).2.
Proof. split; [vm_compute; reflexivity|]. apply (store_trace_refines demo_os 3 demo_ops demo_restart demo_ops_ok). Defined.

Lemma store_listings_report_witness :
  ListRegionRecord demo_store = [mkCreateRegionInput "r" 4096 [3; 70]%Z [true; true]] /\
  get2 (ListShmRefRecordPidF demo_store) 7%Z "m" = reported (a_count (spec_all demo_ops empty_abstract).2 "m" 7).
Proof.
  split; [vm_compute; reflexivity|].
  apply (store_listings_report demo_os 3 demo_ops demo_restart demo_ops_ok).
Defined.

Lemma store_restart_recovers_witness :
  ListMemLeaseRecord demo_store <> [] /\
  ListMemLeaseRecord (Initialize demo_os 4 (construct (shm demo_store))).2 = ListMemLeaseRecord demo_store.
Proof.
  split; [vm_compute; discriminate|].
  pose proof (store_restart_recovers demo_os 3 demo_ops demo_os 4 demo_restart demo_ops_ok ltac:(done)) as H.
  cbv zeta in H. unfold demo_store.
  destruct (Initialize demo_os 4 (construct (shm (run_all demo_ops (started demo_os 3)).2))) as [rc s']. apply H.
Defined.

Definition demo_region2 : CreateRegionInput := mkCreateRegionInput "q" 1 [65; 2]%Z [true; false].

Lemma region_add_lists_witness :
  (AddRegionRecord demo_region2 demo_store).1 = 0%Z /\
  ListRegionRecord (AddRegionRecord demo_region2 demo_store).2 ≡ₚ
    mkCreateRegionInput "q" 1 [2; 65]%Z [false; true] :: ListRegionRecord demo_store.
Proof.
  split; [vm_compute; reflexivity|].
  pose proof (region_add_lists demo_store demo_region2 (AddRegionRecord demo_region2 demo_store).2 demo_reachable
                (good_name_demo "q" eq_refl)) as H.
  assert (Hpos : Forall (fun n => 0 <= n)%Z (cri_nodeIds demo_region2)) by (repeat constructor; lia).
  assert (Hadd : AddRegionRecord demo_region2 demo_store = (0%Z, (AddRegionRecord demo_region2 demo_store).2)) by (vm_compute; reflexivity).
  specialize (H Hpos Hadd). vm_compute in H |- *. exact H.
Defined.

Lemma import_delete_guard_witness :
  (DelShmImportRecord "m" demo_store).1 = (-1)%Z /\ abs (DelShmImportRecord "m" demo_store).2 = abs demo_store.
Proof.
  assert (Hv : exists v, view_imports demo_store !! "m" = Some v) by (eexists; vm_compute; reflexivity).
  destruct Hv as [v Hv]. pose proof (import_delete_guard demo_store "m" v demo_reachable Hv) as H.
  assert (Hr : (DelShmImportRecord "m" demo_store).1 = (-1)%Z) by (vm_compute; reflexivity).
  split; [done|]. destruct (DelShmImportRecord "m" demo_store) as [rc s']. cbn [fst snd] in *.
  destruct (decide _); [destruct H as [? _]; congruence | by destruct H].
Defined.

Definition demo_lease2 : LeaseMallocInput := mkLeaseMallocInput false "k" 1 0 (mkAppContext 1 1 1) PRE_ADD.

Lemma lease_lifecycle_witness :
  abs (run_all [OpAddLeaseInput demo_lease2; OpAddLeaseResult "k" demo_result; OpDelLease "k"] demo_store).2 = abs demo_store.
Proof.
  apply (lease_lifecycle demo_store demo_lease2 demo_result demo_reachable (good_name_demo "k" eq_refl));
    [vm_compute; reflexivity | apply Nat.ltb_lt; vm_compute; reflexivity | discriminate | apply Nat.leb_le; vm_compute; reflexivity].
Defined.

Lemma pool_lines_never_leak_witness :
  pool_free demo_store = 3 /\
  pool_free demo_store + sum_list ((fun v => lines_needed (lmr_memIds v.2)) <$> ListMemLeaseRecord demo_store) +
    sum_list ((fun v => lines_needed (smo_memIds v)) <$> ListShmImportRecord demo_store) = RECORD_MEM_ID_POOL_LINE_COUNT.
Proof.
  split; [vm_compute; reflexivity|]. apply (pool_lines_never_leak demo_os 3 demo_ops demo_restart demo_ops_ok).
  vm_compute. tauto.
Defined.

Lemma second_result_leaks_witness :
  pool_free (run_all [OpAddLeaseInput demo_lease2; OpAddLeaseResult "k" demo_result; OpAddLeaseResult "k" demo_result;
                      OpDelLease "k"] demo_store).2 + 1 = pool_free demo_store.
Proof.
  apply (second_result_leaks demo_store demo_lease2 demo_result demo_result demo_reachable (good_name_demo "k" eq_refl));
    [vm_compute; reflexivity | apply Nat.ltb_lt; vm_compute; reflexivity | discriminate | discriminate |
     apply Nat.leb_le; vm_compute; reflexivity].
Defined.

Lemma ref_add_del_inverse_witness :
  (AddShmRefRecord 9 "m" demo_store).1 = 0%Z /\
  abs (DelShmRefRecord 9 "m" (AddShmRefRecord 9 "m" demo_store).2).2 = abs demo_store.
Proof.
  split; [vm_compute; reflexivity|].
  apply (ref_add_del_inverse demo_store 9 "m" _ demo_reachable); [split; lia | vm_compute; reflexivity].
Defined.

Lemma exited_process_cleared_witness :
  (DelShmRefRecordsByPid 7 demo_store).1 = 0%Z /\
  get2 (ListShmRefRecordNameF (DelShmRefRecordsByPid 7 demo_store).2) "m" 7%Z = None.
Proof.
  pose proof (exited_process_cleared demo_store 7 demo_reachable ltac:(lia)) as H.
  destruct (DelShmRefRecordsByPid 7 demo_store) as [rc s']. cbn [fst snd]. destruct H as (Hrc & Hl & _).
  split; [done|]. destruct (Hl "m" 7%Z) as [E _]. exact E.
Defined.

Lemma suspended_until_dead_witness :
  IsClientSuspended 8 (AddSuspendClient 8 demo_store).2 = true /\
  IsClientSuspended 8 (Initialize demo_os 3 (construct (shm (AddSuspendClient 8 demo_store).2))).2 = false.
Proof.
  apply (suspended_until_dead demo_store 8 _ demo_os 3 demo_reachable ltac:(lia)); [vm_compute; reflexivity | apply demo_restart].
Defined.

Lemma seqno_unique_witness : NoDup (seq_results demo_ops (run_all demo_ops (started demo_os 3)).1).
Proof. apply (seqno_unique demo_os 3 demo_ops demo_restart demo_ops_ok). vm_compute. reflexivity. Defined.

Definition demo_nameless : CreateRegionInput := mkCreateRegionInput "" 1 [2]%Z [false].

Lemma empty_name_lost_witness :
  (AddRegionRecord demo_nameless demo_store).1 = 0%Z /\
  ListRegionRecord (Initialize demo_os 3 (construct (shm (AddRegionRecord demo_nameless demo_store).2))).2 = ListRegionRecord demo_store.
Proof.
  pose proof (empty_name_lost demo_store demo_nameless demo_os 3 demo_reachable eq_refl eq_refl) as H.
  assert (Hsz : size (view_regions demo_store) < REGION_MAX_RECORD) by (apply Nat.ltb_lt; vm_compute; reflexivity).
  specialize (H Hsz demo_restart). destruct (AddRegionRecord demo_nameless demo_store) as [rc s']. cbn [fst snd].
  destruct H as (H1 & _ & H2). by split.
Defined.

End Witnesses.
