(* ===== verification/MsgPacker.v ===== *)
(** Message packing: [src/mxm_message/mxm_msg_packer.h].

    A packer is the byte sequence of its [ostringstream], an unpacker the bytes
    its [istringstream] has left and the [valid_] flag. Every overload of
    [Serialize]/[Deserialize] is a [Codec], built like the template it
    translates; [Lawful] states what a codec promises to the messages. *)

From S2P Require Import Prelude StoreTypes.
From Stdlib Require Import Sorting.Sorted.

(** ** Bytes and integers

    Trivially copyable values are written as their object representation, which
    is little-endian on the targets. *)

Definition byte_of (z : Z) : ascii := Ascii.ascii_of_N (Z.to_N (z mod 256)).

Definition byte_value (b : ascii) : Z := Z.of_N (Ascii.N_of_ascii b).

Fixpoint le_bytes (k : nat) (z : Z) : list ascii :=
  match k with 0 => [] | S k' => byte_of z :: le_bytes k' (z / 256) end.

Fixpoint le_value (l : list ascii) : Z :=
  match l with [] => 0%Z | b :: l' => (byte_value b + 256 * le_value l')%Z end.

Definition unsigned (k : nat) (l : list ascii) : Z := le_value l.

Definition signed (k : nat) (l : list ascii) : Z :=
  let v := le_value l in if Z.ltb v (2 ^ (8 * Z.of_nat k - 1)) then v else (v - 2 ^ (8 * Z.of_nat k))%Z.

Definition fits_unsigned (k : nat) (z : Z) : Prop := (0 <= z < 2 ^ (8 * Z.of_nat k))%Z.

Definition fits_signed (k : nat) (z : Z) : Prop := (- 2 ^ (8 * Z.of_nat k - 1) <= z < 2 ^ (8 * Z.of_nat k - 1))%Z.

(** ** Packer, unpacker, codecs *)

Definition MAX_ALLOWED_SIZE : Z := (1024 * 1024)%Z.

Definition NetMsgPacker : Type := list ascii.

(** [outStream_.write] *)
Definition write (bytes : list ascii) (packer : NetMsgPacker) : NetMsgPacker := packer ++ bytes.

Record NetMsgUnpacker := mkUnpacker { inStream_ : list ascii; valid_ : bool }.

Definition Remaining (u : NetMsgUnpacker) : Z := Z.of_nat (length (inStream_ u)).

Definition IsValid (u : NetMsgUnpacker) : bool := valid_ u.

Definition invalid (u : NetMsgUnpacker) : NetMsgUnpacker := mkUnpacker (inStream_ u) false.

(** [inStream_.read(buffer, n)]: [None] is a failed read, which has consumed the stream. *)
Definition read (n : nat) (u : NetMsgUnpacker) : option (list ascii) * NetMsgUnpacker :=
  if Nat.leb n (length (inStream_ u)) then (Some (take n (inStream_ u)), mkUnpacker (drop n (inStream_ u)) (valid_ u))
  else (None, mkUnpacker [] (valid_ u)).

Record Codec (A : Type) := mkCodec {
  Serialize : A -> NetMsgPacker -> NetMsgPacker;
  Deserialize : NetMsgUnpacker -> A * NetMsgUnpacker;
}.
Arguments mkCodec {A}.
Arguments Serialize {A}.
Arguments Deserialize {A}.

(** The overload for trivially copyable types, of [k] bytes; [of_bytes] reads the
    object representation and [zero] is [T{}]. *)
Definition Pod {A : Type} (k : nat) (to_bytes : A -> list ascii) (of_bytes : list ascii -> A) (zero : A) : Codec A := {|
  Serialize val packer := write (to_bytes val) packer;
  Deserialize u :=
    if negb (valid_ u) then (zero, u)
    else match read k u with
         | (Some l, u') => (of_bytes l, u')
         | (None, u') => (zero, invalid u')
         end;
|}.

Definition uint16_t : Codec Z := Pod 2 (le_bytes 2) (unsigned 2) 0%Z.
Definition uint32_t : Codec Z := Pod 4 (le_bytes 4) (unsigned 4) 0%Z.
Definition uint64_t : Codec Z := Pod 8 (le_bytes 8) (unsigned 8) 0%Z.
Definition int16_t : Codec Z := Pod 2 (le_bytes 2) (signed 2) 0%Z.
Definition int32_t : Codec Z := Pod 4 (le_bytes 4) (signed 4) 0%Z.
Definition int64_t : Codec Z := Pod 8 (le_bytes 8) (signed 8) 0%Z.

(** A [bool] is one byte; a byte other than 0 and 1 has no defined value in the
    language and is read as true. *)
Definition bool_t : Codec bool :=
  Pod 1 (fun b : bool => [byte_of (Z.b2z b)]) (fun l => negb (Z.eqb (le_value l) 0)) false.

(** A trivially copyable struct of [k] bytes is its object representation. *)
Definition struct_t (k : nat) : Codec (list ascii) := Pod k (fun l => l) (fun l => l) (replicate k Ascii.zero).

Definition string_t : Codec string := {|
  Serialize val packer :=
    let size := u32 (Z.of_nat (String.length val)) in
    let packer := write (le_bytes 4 size) packer in
    write (take (Z.to_nat size) (String.list_ascii_of_string val)) packer;
  Deserialize u :=
    let '(size, u) := Deserialize uint32_t u in
    if negb (valid_ u) || Z.ltb MAX_ALLOWED_SIZE size || Z.ltb (Remaining u) size then (EmptyString, invalid u)
    else if Z.eqb size 0 then (EmptyString, u)
    else match read (Z.to_nat size) u with
         | (Some l, u) => (String.string_of_list_ascii l, u)
         | (None, u) => (EmptyString, invalid u)
         end;
|}.

Definition pair_t {A B : Type} (ca : Codec A) (cb : Codec B) : Codec (A * B) := {|
  Serialize val packer := Serialize cb val.2 (Serialize ca val.1 packer);
  Deserialize u := let '(a, u) := Deserialize ca u in let '(b, u) := Deserialize cb u in ((a, b), u);
|}.

(** The element loop of the vector overload. *)
Fixpoint items_loop {A : Type} (c : Codec A) (n : nat) (container : list A) (u : NetMsgUnpacker)
  : list A * NetMsgUnpacker :=
  match n with
  | 0 => (container, u)
  | S n' =>
      let '(item, u) := Deserialize c u in
      if negb (valid_ u) then ([], u) else items_loop c n' (container ++ [item]) u
  end.

Definition vector_t {A : Type} (c : Codec A) : Codec (list A) := {|
  Serialize container packer :=
    foldl (fun packer item => Serialize c item packer)
      (write (le_bytes 8 (Z.of_nat (length container))) packer) container;
  Deserialize u :=
    let '(size, u) := Deserialize uint64_t u in
    if negb (valid_ u) || Z.ltb MAX_ALLOWED_SIZE size || Z.ltb (Remaining u) size then ([], invalid u)
    else items_loop c (Z.to_nat size) [] u;
|}.

(** [std::map<std::string, V>]: an association list in increasing key order. *)
Fixpoint map_emplace {V : Type} (k : string) (v : V) (m : list (string * V)) : list (string * V) :=
  match m with
  | [] => [(k, v)]
  | (k', v') :: m' =>
      match String.compare k k' with
      | Lt => (k, v) :: m
      | Eq => m
      | Gt => (k', v') :: map_emplace k v m'
      end
  end.

Fixpoint entries_loop {V : Type} (c : Codec V) (n : nat) (container : list (string * V)) (u : NetMsgUnpacker)
  : list (string * V) * NetMsgUnpacker :=
  match n with
  | 0 => (container, u)
  | S n' =>
      let '(key, u) := Deserialize string_t u in
      let '(value, u) := Deserialize c u in
      if negb (valid_ u) then ([], u) else entries_loop c n' (map_emplace key value container) u
  end.

Definition map_t {V : Type} (c : Codec V) : Codec (list (string * V)) := {|
  Serialize container packer :=
    foldl (fun packer item => Serialize (pair_t string_t c) item packer)
      (write (le_bytes 8 (Z.of_nat (length container))) packer) container;
  Deserialize u :=
    let '(size, u) := Deserialize uint64_t u in
    if negb (valid_ u) || Z.ltb MAX_ALLOWED_SIZE size || Z.ltb (Remaining u / 2) size then ([], invalid u)
    else entries_loop c (Z.to_nat size) [] u;
|}.

(** [rpc::ClusterNode]; [NodeType] is an [int]-sized enumeration. *)
Record ClusterNode := mkClusterNode {
  cn_id : string;
  cn_ip : string;
  cn_port : Z;
  cn_isMaster : bool;
  cn_lastSeen : Z;
  cn_isActive : bool;
  cn_type : Z;
}.

Definition default_node : ClusterNode := mkClusterNode "" "" 0 false 0 false 0.

Definition ClusterNode_t : Codec ClusterNode := {|
  Serialize val packer :=
    let packer := Serialize string_t (cn_id val) packer in
    let packer := Serialize string_t (cn_ip val) packer in
    let packer := Serialize uint16_t (cn_port val) packer in
    let packer := Serialize bool_t (cn_isMaster val) packer in
    let packer := Serialize int64_t (cn_lastSeen val) packer in
    let packer := Serialize bool_t (cn_isActive val) packer in
    Serialize int32_t (cn_type val) packer;
  Deserialize u :=
    let '(id, u) := Deserialize string_t u in
    let '(ip, u) := Deserialize string_t u in
    let '(port, u) := Deserialize uint16_t u in
    let '(isMaster, u) := Deserialize bool_t u in
    let '(lastSeen, u) := Deserialize int64_t u in
    let '(isActive, u) := Deserialize bool_t u in
    let '(nodetype, u) := Deserialize int32_t u in
    (if valid_ u then mkClusterNode id ip port isMaster lastSeen isActive nodetype else default_node, u);
|}.
