(* ===== verification/MsgCodec.v ===== *)
(** Laws of the codecs: what is serialized is read back, exactly and leaving what
    follows it; a proper prefix of it is refused; an invalid unpacker stays
    invalid. Every codec of the packer satisfies them, so every message does. *)

From S2P Require Import Prelude StoreTypes MsgPacker.
From Stdlib Require Import Sorting.Sorted.

(** ** Integers *)

Lemma byte_value_of z : byte_value (byte_of z) = (z mod 256)%Z.
Proof.
  unfold byte_value, byte_of. pose proof (Z.mod_pos_bound z 256). rewrite Ascii.N_ascii_embedding by lia. lia.
Qed.

Lemma le_bytes_length k z : length (le_bytes k z) = k.
Proof. revert z. induction k as [|k IH]; intros z; simpl; [done|]. by rewrite IH. Qed.

Lemma le_value_bytes k z : le_value (le_bytes k z) = (z mod 2 ^ (8 * Z.of_nat k))%Z.
Proof.
  revert z. induction k as [|k IH]; intros z; cbn [le_bytes le_value].
  - by rewrite Z.mod_1_r.
  - rewrite byte_value_of, IH. replace (8 * Z.of_nat (S k))%Z with (8 + 8 * Z.of_nat k)%Z by lia.
    rewrite Z.pow_add_r by lia. change (2 ^ 8)%Z with 256%Z. rewrite Z.rem_mul_r by lia. lia.
Qed.

Lemma unsigned_bytes k z : fits_unsigned k z -> unsigned k (le_bytes k z) = z.
Proof. intros H. unfold unsigned. rewrite le_value_bytes. by apply Z.mod_small. Qed.

Lemma signed_bytes k z : 0 < k -> fits_signed k z -> signed k (le_bytes k z) = z.
Proof.
  intros Hk [H1 H2]. unfold signed. rewrite le_value_bytes.
  assert (E : (2 ^ (8 * Z.of_nat k) = 2 * 2 ^ (8 * Z.of_nat k - 1))%Z).
  { rewrite <- Z.pow_succ_r by lia. f_equal. lia. }
  destruct (Z.le_gt_cases 0 z) as [Hz|Hz].
  - rewrite Z.mod_small by lia. destruct (Z.ltb_spec z (2 ^ (8 * Z.of_nat k - 1))); lia.
  - rewrite <- (Z.mod_add z 1), Z.mod_small by lia.
    destruct (Z.ltb_spec (z + 1 * 2 ^ (8 * Z.of_nat k)) (2 ^ (8 * Z.of_nat k - 1))); lia.
Qed.

(** ** Laws *)

(** The bytes a value is written as. *)
Definition enc {A : Type} (c : Codec A) (a : A) : list ascii := Serialize c a [].

Record Lawful {A : Type} (c : Codec A) (ok : A -> Prop) : Prop := {
  law_append : forall a p, Serialize c a p = p ++ enc c a;
  law_round : forall a rest, ok a -> Deserialize c (mkUnpacker (enc c a ++ rest) true) = (a, mkUnpacker rest true);
  law_prefix : forall a p q, ok a -> enc c a = p ++ q -> q <> [] -> valid_ (Deserialize c (mkUnpacker p true)).2 = false;
  law_sticky : forall u, valid_ u = false -> valid_ (Deserialize c u).2 = false;
  law_nonempty : forall a, ok a -> enc c a <> [];
}.

(** Codecs of trivially copyable types. *)
Lemma Pod_lawful {A} k to_bytes of_bytes (zero : A) ok :
  0 < k -> (forall a, ok a -> length (to_bytes a) = k /\ of_bytes (to_bytes a) = a) ->
  Lawful (Pod k to_bytes of_bytes zero) ok.
Proof.
  intros Hk Hok. split; unfold enc; cbn [Pod Serialize Deserialize]; unfold write.
  - done.
  - intros a rest Ha. destruct (Hok a Ha) as [Hl Hb]. cbn [valid_ negb app]. unfold read. cbn [inStream_ valid_].
    rewrite length_app. destruct (Nat.leb_spec k (length (to_bytes a) + length rest)); [|lia].
    rewrite <- Hl. by rewrite take_app_length, drop_app_length, Hb.
  - intros a p q Ha E Hq. destruct (Hok a Ha) as [Hl _]. simpl in E. rewrite E, length_app in Hl. cbn [valid_ negb].
    unfold read. cbn [inStream_ valid_]. destruct q; [done|]. simpl in Hl. destruct (Nat.leb_spec k (length p)); [lia|done].
  - intros u Hu. by rewrite Hu.
  - intros a Ha E. destruct (Hok a Ha) as [Hl _]. simpl in E. rewrite E in Hl. simpl in Hl. lia.
Qed.

Lemma unsigned_lawful k zero : 0 < k -> Lawful (Pod k (le_bytes k) (unsigned k) zero) (fits_unsigned k).
Proof. intros Hk. apply Pod_lawful; [done|]. intros a Ha. by rewrite le_bytes_length, unsigned_bytes. Qed.

Lemma signed_lawful k zero : 0 < k -> Lawful (Pod k (le_bytes k) (signed k) zero) (fits_signed k).
Proof. intros Hk. apply Pod_lawful; [done|]. intros a Ha. by rewrite le_bytes_length, signed_bytes. Qed.

Lemma bool_lawful : Lawful bool_t (fun _ => True).
Proof. apply Pod_lawful; [lia|]. intros [] _; done. Qed.

Lemma struct_lawful k : 0 < k -> Lawful (struct_t k) (fun l => length l = k).
Proof. intros Hk. apply Pod_lawful; done. Qed.

(** One codec after the other. *)
Lemma pair_lawful {A B} (ca : Codec A) (cb : Codec B) oka okb :
  Lawful ca oka -> Lawful cb okb -> Lawful (pair_t ca cb) (fun v => oka v.1 /\ okb v.2).
Proof.
  intros La Lb.
  assert (Henc : forall v, enc (pair_t ca cb) v = enc ca v.1 ++ enc cb v.2).
  { intros v. unfold enc at 1. cbn [pair_t Serialize]. by rewrite (law_append _ _ Lb). }
  split.
  - intros v p. rewrite Henc. cbn [pair_t Serialize]. rewrite (law_append _ _ Lb), (law_append _ _ La). by rewrite app_assoc.
  - intros [a b] rest [Ha Hb]. rewrite Henc. cbn [pair_t Deserialize fst snd].
    by rewrite <- app_assoc, (law_round _ _ La), (law_round _ _ Lb).
  - intros [a b] p q [Ha Hb] E Hq. rewrite Henc in E. cbn [fst snd] in *. cbn [pair_t Deserialize].
    apply app_eq_app in E as (m & [[E1 E2]|[E1 E2]]).
    + destruct m as [|x m].
      * rewrite app_nil_r in E1. subst p. rewrite <- (app_nil_r (enc ca a)), (law_round _ _ La) by done.
        pose proof (law_prefix _ _ Lb b [] (enc cb b) Hb eq_refl (law_nonempty _ _ Lb _ Hb)) as Hp.
        by destruct (Deserialize cb (mkUnpacker [] true)).
      * pose proof (law_prefix _ _ La a p (x :: m) Ha E1 ltac:(done)) as Hp.
        destruct (Deserialize ca (mkUnpacker p true)) as [a' u]. cbn [snd] in Hp.
        pose proof (law_sticky _ _ Lb u Hp) as Hs. by destruct (Deserialize cb u).
    + subst p. rewrite (law_round _ _ La) by done. pose proof (law_prefix _ _ Lb b m q Hb E2 Hq) as Hp.
      by destruct (Deserialize cb (mkUnpacker m true)).
  - intros u Hu. cbn [pair_t Deserialize]. pose proof (law_sticky _ _ La u Hu) as Hp.
    destruct (Deserialize ca u) as [a' u']. cbn [snd] in Hp. pose proof (law_sticky _ _ Lb u' Hp) as Hs.
    by destruct (Deserialize cb u').
  - intros [a b] [Ha Hb] E. rewrite Henc in E. apply app_eq_nil in E as [E _]. by apply (law_nonempty _ _ La a Ha).
Qed.

(** ** Length-prefixed codecs *)

Lemma uint32_lawful : Lawful uint32_t (fits_unsigned 4).
Proof. apply unsigned_lawful. lia. Qed.

Lemma uint64_lawful : Lawful uint64_t (fits_unsigned 8).
Proof. apply unsigned_lawful. lia. Qed.

(** A codec that writes a size and then a body: the size is checked, then the body
    is read by [body]. *)
Lemma prefixed_lawful {A} (cs : Codec Z) oks (c : Codec A) (ok : A -> Prop) (size : A -> Z) (bytes : A -> list ascii)
  (bad : Z -> NetMsgUnpacker -> bool) (body : Z -> NetMsgUnpacker -> A * NetMsgUnpacker) (zero : A) :
  Lawful cs oks ->
  (forall a p, ok a -> Serialize c a p = p ++ enc cs (size a) ++ bytes a) ->
  (forall a p, Serialize c a p = p ++ enc c a) ->
  (forall u, Deserialize c u = let '(n, u) := Deserialize cs u in
     if negb (valid_ u) || bad n u then (zero, invalid u) else body n u) ->
  (forall a, ok a -> oks (size a)) ->
  (forall a rest, ok a -> bad (size a) (mkUnpacker (bytes a ++ rest) true) = false /\
     body (size a) (mkUnpacker (bytes a ++ rest) true) = (a, mkUnpacker rest true)) ->
  (forall a p q, ok a -> bytes a = p ++ q -> q <> [] -> bad (size a) (mkUnpacker p true) = false ->
     valid_ (body (size a) (mkUnpacker p true)).2 = false) ->
  Lawful c ok.
Proof.
  intros Ls Hser Happ Hdes Hsz Hround Hpre. assert (Henc : forall a, ok a -> enc c a = enc cs (size a) ++ bytes a).
  { intros a Ha. unfold enc at 1. by rewrite Hser. }
  split; [done | | | |].
  - intros a rest Ha. rewrite Hdes, Henc, <- app_assoc, (law_round _ _ Ls) by auto. cbn [valid_ negb orb].
    by destruct (Hround a rest Ha) as [-> ->].
  - intros a p q Ha E Hq. rewrite Henc in E by done. rewrite Hdes. apply app_eq_app in E as (m & [[E1 E2]|[E1 E2]]).
    + destruct m as [|x m].
      * rewrite app_nil_r in E1. subst p. rewrite <- (app_nil_r (enc cs (size a))), (law_round _ _ Ls) by auto.
        cbn [valid_ negb orb]. destruct (bad _ _) eqn:Eb; [done|].
        apply (Hpre a [] (bytes a)); [done | done | simpl in E2; congruence | done].
      * pose proof (law_prefix _ _ Ls _ p (x :: m) (Hsz a Ha) E1 ltac:(done)) as Hp.
        destruct (Deserialize cs (mkUnpacker p true)) as [n u]. cbn [snd] in Hp. by rewrite Hp.
    + subst p. rewrite (law_round _ _ Ls) by auto. cbn [valid_ negb orb]. destruct (bad _ _) eqn:Eb; [done|].
      by apply (Hpre a m q).
  - intros u Hu. rewrite Hdes. pose proof (law_sticky _ _ Ls u Hu) as Hp. destruct (Deserialize cs u) as [n u'].
    cbn [snd] in Hp. by rewrite Hp.
  - intros a Ha E. rewrite Henc in E by done. apply app_eq_nil in E as [E _]. by apply (law_nonempty _ _ Ls _ (Hsz a Ha)).
Qed.

Definition string_ok (s : string) : Prop := (Z.of_nat (String.length s) <= MAX_ALLOWED_SIZE)%Z.

Lemma length_list_ascii s : length (String.list_ascii_of_string s) = String.length s.
Proof. induction s as [|c s IH]; simpl; [done|]. by rewrite IH. Qed.

Lemma ltb_false a b : (b <= a)%Z -> Z.ltb a b = false.
Proof. intros. by apply Z.ltb_ge. Qed.

Lemma string_lawful : Lawful string_t string_ok.
Proof.
  apply (prefixed_lawful uint32_t _ _ _ (fun s => Z.of_nat (String.length s)) String.list_ascii_of_string
           (fun n u => Z.ltb MAX_ALLOWED_SIZE n || Z.ltb (Remaining u) n)
           (fun n u => if Z.eqb n 0 then (EmptyString, u)
                       else match read (Z.to_nat n) u with
                            | (Some l, u) => (String.string_of_list_ascii l, u)
                            | (None, u) => (EmptyString, invalid u)
                            end) EmptyString uint32_lawful); unfold string_ok, MAX_ALLOWED_SIZE.
  - intros s p Hs. cbn [string_t Serialize]. rewrite u32_small by lia. unfold write, enc. cbn [uint32_t Pod Serialize]. unfold write.
    rewrite Nat2Z.id, <- length_list_ascii, firstn_all. by rewrite <- app_assoc.
  - intros s p. cbn [string_t Serialize]. unfold enc, write. cbn [string_t Serialize]. unfold write. by rewrite <- !app_assoc.
  - intros u. cbn [string_t Deserialize]. destruct (Deserialize uint32_t u) as [n u']. by rewrite orb_assoc.
  - intros s Hs. unfold fits_unsigned. lia.
  - intros s rest Hs. unfold Remaining, read. cbn [inStream_]. rewrite length_app, length_list_ascii.
    rewrite !ltb_false by (unfold MAX_ALLOWED_SIZE; lia). split; [done|].
    destruct (Z.eqb_spec (Z.of_nat (String.length s)) 0) as [E|E]; [destruct s; [done | simpl in E; lia]|].
    rewrite Nat2Z.id. destruct (Nat.leb_spec (String.length s) (String.length s + length rest)); [|lia]. cbn [valid_].
    by rewrite <- length_list_ascii, take_app_length, drop_app_length, String.string_of_list_ascii_of_string.
  - intros s p q Hs E Hq Hb. exfalso. apply orb_false_iff in Hb as [_ Hb%Z.ltb_ge]. unfold Remaining in Hb. cbn [inStream_] in Hb.
    rewrite <- length_list_ascii, E, length_app in Hb. destruct q; [done|]. simpl in Hb. lia.
Qed.

(** *** Vectors *)

Definition enc_all {A} (c : Codec A) (l : list A) : list ascii := concat (enc c <$> l).

Lemma foldl_serialize {A} (c : Codec A) ok l p :
  Lawful c ok -> foldl (fun packer item => Serialize c item packer) p l = p ++ enc_all c l.
Proof.
  intros L. revert p. induction l as [|a l IH]; intros p; cbn [foldl]; [by rewrite app_nil_r|].
  rewrite IH, (law_append _ _ L). unfold enc_all. rewrite fmap_cons. cbn [concat]. by rewrite app_assoc.
Qed.

Lemma enc_all_length {A} (c : Codec A) ok l : Lawful c ok -> Forall ok l -> length l <= length (enc_all c l).
Proof.
  intros L. induction 1 as [|a l Ha Hl IH]; [simpl; lia|]. unfold enc_all in *. rewrite fmap_cons. cbn [concat].
  rewrite length_app. pose proof (law_nonempty _ _ L a Ha). destruct (enc c a); [done|]. simpl. lia.
Qed.

Lemma items_loop_round {A} (c : Codec A) ok l acc rest :
  Lawful c ok -> Forall ok l ->
  items_loop c (length l) acc (mkUnpacker (enc_all c l ++ rest) true) = (acc ++ l, mkUnpacker rest true).
Proof.
  intros L Hl. revert acc. induction Hl as [|a l Ha Hl IH]; intros acc; cbn [length items_loop]; [by rewrite app_nil_r|].
  unfold enc_all. rewrite fmap_cons. cbn [concat]. rewrite <- app_assoc, (law_round _ _ L) by done. cbn [valid_ negb].
  fold (enc_all c l). by rewrite IH, <- app_assoc.
Qed.

Lemma items_loop_prefix {A} (c : Codec A) ok l acc p q :
  Lawful c ok -> Forall ok l -> enc_all c l = p ++ q -> q <> [] ->
  valid_ (items_loop c (length l) acc (mkUnpacker p true)).2 = false.
Proof.
  intros L Hl. revert acc p. induction Hl as [|a l Ha Hl IH]; intros acc p E Hq.
  { unfold enc_all in E. simpl in E. symmetry in E. by apply app_eq_nil in E as [_ ->]. }
  unfold enc_all in E. rewrite fmap_cons in E. cbn [concat] in E. cbn [length items_loop].
  apply app_eq_app in E as (m & [[E1 E2]|[E1 E2]]).
  - destruct m as [|x m].
    + rewrite app_nil_r in E1. subst p. rewrite <- (app_nil_r (enc c a)), (law_round _ _ L) by done. cbn [valid_ negb].
      by apply (IH _ []).
    + pose proof (law_prefix _ _ L a p (x :: m) Ha E1 ltac:(done)) as Hp.
      destruct (Deserialize c (mkUnpacker p true)) as [a' u]. cbn [snd] in Hp. by rewrite Hp.
  - subst p. rewrite (law_round _ _ L) by done. cbn [valid_ negb]. by apply IH.
Qed.

Definition vector_ok {A} (ok : A -> Prop) (l : list A) : Prop := (Z.of_nat (length l) <= MAX_ALLOWED_SIZE)%Z /\ Forall ok l.

Lemma vector_lawful {A} (c : Codec A) ok : Lawful c ok -> Lawful (vector_t c) (vector_ok ok).
Proof.
  intros L. apply (prefixed_lawful uint64_t _ _ _ (fun l : list A => Z.of_nat (length l)) (enc_all c)
    (fun n u => Z.ltb MAX_ALLOWED_SIZE n || Z.ltb (Remaining u) n) (fun n u => items_loop c (Z.to_nat n) [] u) [] uint64_lawful);
    unfold vector_ok, MAX_ALLOWED_SIZE.
  - intros l p _. cbn [vector_t Serialize]. rewrite (foldl_serialize _ _ _ _ L). unfold write. by rewrite <- app_assoc.
  - intros l p. unfold enc. cbn [vector_t Serialize]. rewrite !(foldl_serialize _ _ _ _ L). unfold write. by rewrite <- !app_assoc.
  - intros u. cbn [vector_t Deserialize]. destruct (Deserialize uint64_t u) as [n u']. by rewrite orb_assoc.
  - intros l [Hl _]. unfold fits_unsigned. lia.
  - intros l rest [Hl Hf]. pose proof (enc_all_length _ _ _ L Hf). unfold Remaining. cbn [inStream_]. rewrite length_app.
    rewrite !ltb_false by (unfold MAX_ALLOWED_SIZE; lia). split; [done|]. rewrite Nat2Z.id. by rewrite (items_loop_round _ _ _ _ _ L).
  - intros l p q [Hl Hf] E Hq _. rewrite Nat2Z.id. by eapply items_loop_prefix.
Qed.

(** *** Maps *)

Definition entry_ok {V} (ok : V -> Prop) (e : string * V) : Prop := string_ok e.1 /\ ok e.2.

(** Keys in strictly increasing order, as a [std::map] keeps them. *)
Definition keys_sorted {V} (l : list (string * V)) : Prop := StronglySorted (fun a b => String.compare a.1 b.1 = Lt) l.

Definition map_ok {V} (ok : V -> Prop) (l : list (string * V)) : Prop :=
  (Z.of_nat (length l) <= MAX_ALLOWED_SIZE)%Z /\ keys_sorted l /\ Forall (entry_ok ok) l.

Lemma map_emplace_last {V} k (v : V) l : Forall (fun e => String.compare e.1 k = Lt) l -> map_emplace k v l = l ++ [(k, v)].
Proof.
  induction 1 as [|[k' v'] l Hk Hl IH]; [done|]. cbn [map_emplace]. rewrite String.compare_antisym. simpl in Hk. rewrite Hk.
  simpl. by rewrite IH.
Qed.

Lemma sorted_snoc {V} acc (e : string * V) l :
  keys_sorted (acc ++ e :: l) -> Forall (fun e' => String.compare e'.1 e.1 = Lt) acc.
Proof.
  intros H. apply Forall_forall. intros x Hx. induction acc as [|y acc IH]; [by apply not_elem_of_nil in Hx|].
  simpl in H. apply StronglySorted_inv in H as [H Hy]. apply elem_of_cons in Hx as [->|Hx]; [|by apply IH].
  rewrite List.Forall_forall in Hy. apply Hy, in_or_app. right. by left.
Qed.

Lemma entries_loop_round {V} (c : Codec V) ok l acc rest :
  Lawful c ok -> Forall (entry_ok ok) l -> keys_sorted (acc ++ l) ->
  entries_loop c (length l) acc (mkUnpacker (enc_all (pair_t string_t c) l ++ rest) true) = (acc ++ l, mkUnpacker rest true).
Proof.
  intros L Hl. revert acc. induction Hl as [|[k v] l [Hk Hv] Hl IH]; intros acc Hs; cbn [length entries_loop]; [by rewrite app_nil_r|].
  unfold enc_all. rewrite fmap_cons. cbn [concat].
  replace (enc (pair_t string_t c) (k, v)) with (enc string_t k ++ enc c v).
  2:{ unfold enc at 3. cbn [pair_t Serialize fst snd]. by rewrite (law_append _ _ L). }
  rewrite <- !app_assoc, (law_round _ _ string_lawful), (law_round _ _ L) by done. cbn [valid_ negb].
  fold (enc_all (pair_t string_t c) l). rewrite map_emplace_last by (by apply (sorted_snoc acc (k, v) l)).
  rewrite IH; by rewrite <- app_assoc.
Qed.

Lemma entries_loop_prefix {V} (c : Codec V) ok l acc p q :
  Lawful c ok -> Forall (entry_ok ok) l -> enc_all (pair_t string_t c) l = p ++ q -> q <> [] ->
  valid_ (entries_loop c (length l) acc (mkUnpacker p true)).2 = false.
Proof.
  intros L Hl. pose proof (pair_lawful _ _ _ _ string_lawful L) as Lp. revert acc p.
  induction Hl as [|[k v] l Ha Hl IH]; intros acc p E Hq.
  { unfold enc_all in E. simpl in E. symmetry in E. by apply app_eq_nil in E as [_ ->]. }
  unfold enc_all in E. rewrite fmap_cons in E. cbn [concat] in E.
  assert (Hstep : forall u, entries_loop c (length ((k, v) :: l)) acc u =
            let '(e, u) := Deserialize (pair_t string_t c) u in
            if negb (valid_ u) then ([], u) else entries_loop c (length l) (map_emplace e.1 e.2 acc) u).
  { intros u. cbn [length entries_loop pair_t Deserialize]. destruct (Deserialize string_t u) as [k' u'].
    by destruct (Deserialize c u'). }
  rewrite Hstep. apply app_eq_app in E as (m & [[E1 E2]|[E1 E2]]).
  - destruct m as [|x m].
    + rewrite app_nil_r in E1. subst p. rewrite <- (app_nil_r (enc _ _)), (law_round _ _ Lp) by done. cbn [valid_ negb].
      by apply (IH _ []).
    + pose proof (law_prefix _ _ Lp _ p (x :: m) Ha E1 ltac:(done)) as Hp.
      destruct (Deserialize (pair_t string_t c) (mkUnpacker p true)) as [a' u]. cbn [snd] in Hp. by rewrite Hp.
  - subst p. rewrite (law_round _ _ Lp) by done. cbn [valid_ negb]. by apply IH.
Qed.

Lemma enc_entries_length {V} (c : Codec V) ok l :
  Lawful c ok -> Forall (entry_ok ok) l -> 2 * length l <= length (enc_all (pair_t string_t c) l).
Proof.
  intros L. induction 1 as [|[k v] l [Hk Hv] Hl IH]; [simpl; lia|]. unfold enc_all in *. rewrite fmap_cons. cbn [concat].
  rewrite length_app. unfold enc at 1. cbn [pair_t Serialize fst snd]. rewrite (law_append _ _ L), length_app. fold (enc string_t k).
  pose proof (law_nonempty _ _ string_lawful k Hk). pose proof (law_nonempty _ _ L v Hv).
  destruct (enc string_t k), (enc c v); try done. simpl. lia.
Qed.

Lemma map_lawful {V} (c : Codec V) ok : Lawful c ok -> Lawful (map_t c) (map_ok ok).
Proof.
  intros L. pose proof (pair_lawful _ _ _ _ string_lawful L) as Lp.
  apply (prefixed_lawful uint64_t _ _ _ (fun l : list (string * V) => Z.of_nat (length l)) (enc_all (pair_t string_t c))
    (fun n u => Z.ltb MAX_ALLOWED_SIZE n || Z.ltb (Remaining u / 2) n) (fun n u => entries_loop c (Z.to_nat n) [] u) [] uint64_lawful);
    unfold map_ok, MAX_ALLOWED_SIZE.
  - intros l p _. cbn [map_t Serialize]. rewrite (foldl_serialize _ _ _ _ Lp). unfold write. by rewrite <- app_assoc.
  - intros l p. unfold enc. cbn [map_t Serialize]. rewrite !(foldl_serialize _ _ _ _ Lp). unfold write. by rewrite <- !app_assoc.
  - intros u. cbn [map_t Deserialize]. destruct (Deserialize uint64_t u) as [n u']. by rewrite orb_assoc.
  - intros l (Hl & _). unfold fits_unsigned. lia.
  - intros l rest (Hl & Hs & Hf). pose proof (enc_entries_length _ _ _ L Hf). unfold Remaining. cbn [inStream_].
    rewrite length_app. rewrite !ltb_false by first [unfold MAX_ALLOWED_SIZE; lia | apply Z.div_le_lower_bound; lia].
    split; [done|]. rewrite Nat2Z.id. by rewrite (entries_loop_round _ _ _ _ _ L).
  - intros l p q (Hl & Hs & Hf) E Hq _. rewrite Nat2Z.id. by eapply entries_loop_prefix.
Qed.

(** ** Structs

    A codec that writes and reads the members one after the other behaves like
    the nested pair of its members. *)
Lemma struct_by_members {A B} (c : Codec B) (c0 : Codec A) ok0 (g : B -> A) :
  Lawful c0 ok0 ->
  (forall b p, Serialize c b p = Serialize c0 (g b) p) ->
  (forall u, valid_ (Deserialize c u).2 = valid_ (Deserialize c0 u).2) ->
  (forall b u u', Deserialize c0 u = (g b, u') -> valid_ u' = true -> Deserialize c u = (b, u')) ->
  Lawful c (fun b => ok0 (g b)).
Proof.
  intros L Hser Hval Hdes. assert (Henc : forall b, enc c b = enc c0 (g b)) by (intros b; apply Hser).
  split.
  - intros b p. rewrite Henc, Hser. apply (law_append _ _ L).
  - intros b rest Hb. rewrite Henc. apply Hdes; [by apply (law_round _ _ L) | done].
  - intros b p q Hb E Hq. rewrite Hval. rewrite Henc in E. by apply (law_prefix _ _ L (g b) p q).
  - intros u Hu. rewrite Hval. by apply (law_sticky _ _ L).
  - intros b Hb. rewrite Henc. by apply (law_nonempty _ _ L).
Qed.

Definition node_ok (n : ClusterNode) : Prop :=
  string_ok (cn_id n) /\ string_ok (cn_ip n) /\ fits_unsigned 2 (cn_port n) /\ True /\ fits_signed 8 (cn_lastSeen n) /\ True /\
  fits_signed 4 (cn_type n).

Lemma uint16_lawful : Lawful uint16_t (fits_unsigned 2).
Proof. apply unsigned_lawful. lia. Qed.

Lemma int16_lawful : Lawful int16_t (fits_signed 2).
Proof. apply signed_lawful. lia. Qed.

Lemma int32_lawful : Lawful int32_t (fits_signed 4).
Proof. apply signed_lawful. lia. Qed.

Lemma int64_lawful : Lawful int64_t (fits_signed 8).
Proof. apply signed_lawful. lia. Qed.

Create HintDb codec.
#[export] Hint Resolve uint16_lawful uint32_lawful uint64_lawful int16_lawful int32_lawful int64_lawful bool_lawful
  string_lawful vector_lawful map_lawful struct_lawful pair_lawful : codec.

(** Proves [Lawful] of a struct codec from the nested pair [c0] of its members, [g]
    giving the members of a value. *)
Ltac by_members c0 g :=
  refine (struct_by_members _ c0 _ g _ _ _ _);
  [ eauto 40 with codec
  | reflexivity
  | intros u; cbn -[Pod string_t vector_t map_t];
    repeat (match goal with |- context [let '(_, _) := Deserialize ?c ?u in _] => destruct (Deserialize c u) as [? ?] end);
    reflexivity
  | intros b u u'; cbn -[Pod string_t vector_t map_t];
    repeat (match goal with |- context [let '(_, _) := Deserialize ?c ?u in _] => destruct (Deserialize c u) as [? ?] end);
    intros [=] Hv; subst; rewrite ?Hv; destruct b; reflexivity ].

Lemma ClusterNode_lawful : Lawful ClusterNode_t node_ok.
Proof.
  by_members
    (pair_t string_t (pair_t string_t (pair_t uint16_t (pair_t bool_t (pair_t int64_t (pair_t bool_t int32_t))))))
    (fun n => (cn_id n, (cn_ip n, (cn_port n, (cn_isMaster n, (cn_lastSeen n, (cn_isActive n, cn_type n))))))).
Qed.

#[export] Hint Resolve ClusterNode_lawful : codec.
