(* ===== verification/MsgBase.v ===== *)
(** What all messages share: [src/mxm_message/mxm_msg_base.h], the helper of
    [mxm_msg.h] that turns the unpacker's state into a result code, and the
    trivially copyable structs some messages carry. *)

From S2P Require Import Prelude StoreTypes MsgPacker MsgCodec.

Record MsgBase := mkMsgBase { msgVer : Z; opCode : Z; destRankId : Z }.

Definition UBSM_OK : Z := 0.

Definition MXM_ERR_PARAM_INVALID : Z := 104.

Definition DeserializeResult (unpacker : NetMsgUnpacker) : Z :=
  if negb (IsValid unpacker) then MXM_ERR_PARAM_INVALID else UBSM_OK.

(** The codec of a message: its two member functions without their result codes. *)
Definition message_t {A : Type} (ser : A -> NetMsgPacker -> Z * NetMsgPacker)
  (des : NetMsgUnpacker -> Z * A * NetMsgUnpacker) : Codec A := {|
  Serialize m packer := (ser m packer).2;
  Deserialize u := let '(_, m, u) := des u in (m, u);
|}.

(** ** Structs carried as their object representation

    Sizes on the LP64 ABI, from the member lists of [ubs_mem_def.h], [mx_shm.h]
    and [ubs_common_types.h]. *)

Definition MEM_TOPOLOGY_MAX_HOSTS : Z := 16.
Definition MEM_MAX_ID_LENGTH : Z := 48.
Definition MAX_HOST_NAME_DESC_LENGTH : Z := 64.
Definition MAX_REGIONS_NUM : Z := 6.
Definition MAX_NUMA_NUM : Z := 32.
Definition MAX_NUMA_RESV_LEN : Z := 16.
Definition MAX_HOST_NUM : Z := 16.
Definition MAX_SHM_NAME_LENGTH : Z := 48.
Definition MAX_MEMID_NUM : Z := 2048.

(** Padding of an offset to a multiple of 8. *)
Definition align8 (n : Z) : Z := ((n + 7) / 8 * 8)%Z.

Definition sizeof_SHMRegionDesc : Z :=
  (4 + 4 + 4 + MEM_TOPOLOGY_MAX_HOSTS + MEM_TOPOLOGY_MAX_HOSTS * MEM_MAX_ID_LENGTH +
   MEM_TOPOLOGY_MAX_HOSTS * MAX_HOST_NAME_DESC_LENGTH)%Z.

Definition sizeof_SHMRegions : Z := (4 + MAX_REGIONS_NUM * sizeof_SHMRegionDesc)%Z.

Definition sizeof_ubsmemNumaMem : Z := (4 * 4 + 4 * 8 + MAX_NUMA_RESV_LEN)%Z.

Definition sizeof_ubsmemHostFnfo : Z := (align8 (MAX_HOST_NAME_DESC_LENGTH + 4) + MAX_NUMA_NUM * sizeof_ubsmemNumaMem)%Z.

Definition sizeof_ubsmemClusterInfo : Z := (align8 4 + MAX_HOST_NUM * sizeof_ubsmemHostFnfo)%Z.

Definition sizeof_ubsmem_shmem_desc_t : Z := (align8 (MAX_SHM_NAME_LENGTH + 1) + 8)%Z.

Definition sizeof_ubsmem_shmem_info_t : Z := (align8 (align8 (MAX_SHM_NAME_LENGTH + 1) + 8 + 4) + 8 + MAX_MEMID_NUM * 8)%Z.

Definition SHMRegionDesc : Type := list ascii.
Definition SHMRegions : Type := list ascii.
Definition ubsmemClusterInfo : Type := list ascii.
Definition ubsmem_shmem_desc_t : Type := list ascii.
Definition ubsmem_shmem_info_t : Type := list ascii.

Definition SHMRegionDesc_t : Codec SHMRegionDesc := struct_t (Z.to_nat sizeof_SHMRegionDesc).
Definition SHMRegions_t : Codec SHMRegions := struct_t (Z.to_nat sizeof_SHMRegions).
Definition ubsmemClusterInfo_t : Codec ubsmemClusterInfo := struct_t (Z.to_nat sizeof_ubsmemClusterInfo).
Definition shmem_desc_t : Codec ubsmem_shmem_desc_t := struct_t (Z.to_nat sizeof_ubsmem_shmem_desc_t).
Definition shmem_info_t : Codec ubsmem_shmem_info_t := struct_t (Z.to_nat sizeof_ubsmem_shmem_info_t).

Definition struct_ok (size : Z) (l : list ascii) : Prop := length l = Z.to_nat size.

Lemma struct_size_lawful size : (0 < size)%Z -> Lawful (struct_t (Z.to_nat size)) (struct_ok size).
Proof. intros H. apply struct_lawful. lia. Qed.

Lemma SHMRegionDesc_lawful : Lawful SHMRegionDesc_t (struct_ok sizeof_SHMRegionDesc).
Proof. by apply struct_size_lawful. Qed.

Lemma SHMRegions_lawful : Lawful SHMRegions_t (struct_ok sizeof_SHMRegions).
Proof. by apply struct_size_lawful. Qed.

Lemma ubsmemClusterInfo_lawful : Lawful ubsmemClusterInfo_t (struct_ok sizeof_ubsmemClusterInfo).
Proof. by apply struct_size_lawful. Qed.

Lemma shmem_desc_lawful : Lawful shmem_desc_t (struct_ok sizeof_ubsmem_shmem_desc_t).
Proof. by apply struct_size_lawful. Qed.

Lemma shmem_info_lawful : Lawful shmem_info_t (struct_ok sizeof_ubsmem_shmem_info_t).
Proof. by apply struct_size_lawful. Qed.

#[export] Hint Resolve SHMRegionDesc_lawful SHMRegions_lawful ubsmemClusterInfo_lawful shmem_desc_lawful
  shmem_info_lawful : codec.
#[export] Hint Opaque SHMRegionDesc_t SHMRegions_t ubsmemClusterInfo_t shmem_desc_t shmem_info_t : codec.

(** Member lists: codecs one after the other, and the values they write. *)
Declare Scope member_scope.
Delimit Scope member_scope with member.
Notation "c1 ⊗ c2" := (pair_t c1 c2) (at level 41, right associativity) : member_scope.
Notation "x ,, y" := (pair x y) (at level 60, right associativity) : member_scope.

(** [by_members] for a message, whose reading function is [des]. *)
Ltac read_members :=
  repeat (match goal with |- context [let '(_, _) := Deserialize ?c ?u in _] => destruct (Deserialize c u) as [? ?] end).

Ltac message_by_members ct des c0 g :=
  unfold ct;
  refine (struct_by_members _ c0 _ g _ _ _ _);
  [ eauto 40 with codec
  | reflexivity
  | intros u; cbn [message_t pair_t Deserialize]; unfold des; read_members; reflexivity
  | intros b u u'; cbn [message_t pair_t Deserialize]; unfold des; read_members;
    intros [=] Hv; subst; destruct b as [[]]; reflexivity ].
