(* ===== verification/MsgRequests.v ===== *)
(** The request structs of [src/mxm_message/mxm_msg.h]: their members, and their
    [Serialize] and [Deserialize], statement by statement. *)

From S2P Require Import Prelude StoreTypes MsgPacker MsgCodec MsgBase.

(** ** [CheckMemoryLeaseRequest] *)

Record CheckMemoryLeaseRequest := mkCheckMemoryLeaseRequest {
  CheckMemoryLeaseRequest_base : MsgBase;
  CheckMemoryLeaseRequest_names_ : list string;
}.

Definition CheckMemoryLeaseRequest_Serialize (m : CheckMemoryLeaseRequest) (packer : NetMsgPacker) : Z * NetMsgPacker :=
  let packer := Serialize int16_t (msgVer (CheckMemoryLeaseRequest_base m)) packer in
  let packer := Serialize int16_t (opCode (CheckMemoryLeaseRequest_base m)) packer in
  let packer := Serialize uint32_t (destRankId (CheckMemoryLeaseRequest_base m)) packer in
  let packer := Serialize (vector_t string_t) (CheckMemoryLeaseRequest_names_ m) packer in
  (UBSM_OK, packer).

Definition CheckMemoryLeaseRequest_Deserialize (unpacker : NetMsgUnpacker) : Z * CheckMemoryLeaseRequest * NetMsgUnpacker :=
  let '(ver, unpacker) := Deserialize int16_t unpacker in
  let '(op, unpacker) := Deserialize int16_t unpacker in
  let '(dest, unpacker) := Deserialize uint32_t unpacker in
  let '(names_, unpacker) := Deserialize (vector_t string_t) unpacker in
  (DeserializeResult unpacker, mkCheckMemoryLeaseRequest (mkMsgBase ver op dest) names_, unpacker).

Definition CheckMemoryLeaseRequest_t : Codec CheckMemoryLeaseRequest := message_t CheckMemoryLeaseRequest_Serialize CheckMemoryLeaseRequest_Deserialize.

Definition CheckMemoryLeaseRequest_ok (m : CheckMemoryLeaseRequest) : Prop :=
  fits_signed 2 (msgVer (CheckMemoryLeaseRequest_base m)) /\
  fits_signed 2 (opCode (CheckMemoryLeaseRequest_base m)) /\
  fits_unsigned 4 (destRankId (CheckMemoryLeaseRequest_base m)) /\
  vector_ok string_ok (CheckMemoryLeaseRequest_names_ m).

Lemma CheckMemoryLeaseRequest_lawful : Lawful CheckMemoryLeaseRequest_t CheckMemoryLeaseRequest_ok.
Proof.
  message_by_members CheckMemoryLeaseRequest_t CheckMemoryLeaseRequest_Deserialize
    (int16_t ⊗ int16_t ⊗ uint32_t ⊗ (vector_t string_t))%member
    (fun m => msgVer (CheckMemoryLeaseRequest_base m) ,, opCode (CheckMemoryLeaseRequest_base m) ,,
               destRankId (CheckMemoryLeaseRequest_base m) ,, CheckMemoryLeaseRequest_names_ m)%member.
Qed.

(** ** [CheckShareMemoryMapRequest] *)

Record CheckShareMemoryMapRequest := mkCheckShareMemoryMapRequest {
  CheckShareMemoryMapRequest_base : MsgBase;
  CheckShareMemoryMapRequest_names_ : list string;
}.

Definition CheckShareMemoryMapRequest_Serialize (m : CheckShareMemoryMapRequest) (packer : NetMsgPacker) : Z * NetMsgPacker :=
  let packer := Serialize int16_t (msgVer (CheckShareMemoryMapRequest_base m)) packer in
  let packer := Serialize int16_t (opCode (CheckShareMemoryMapRequest_base m)) packer in
  let packer := Serialize uint32_t (destRankId (CheckShareMemoryMapRequest_base m)) packer in
  let packer := Serialize (vector_t string_t) (CheckShareMemoryMapRequest_names_ m) packer in
  (UBSM_OK, packer).

Definition CheckShareMemoryMapRequest_Deserialize (unpacker : NetMsgUnpacker) : Z * CheckShareMemoryMapRequest * NetMsgUnpacker :=
  let '(ver, unpacker) := Deserialize int16_t unpacker in
  let '(op, unpacker) := Deserialize int16_t unpacker in
  let '(dest, unpacker) := Deserialize uint32_t unpacker in
  let '(names_, unpacker) := Deserialize (vector_t string_t) unpacker in
  (DeserializeResult unpacker, mkCheckShareMemoryMapRequest (mkMsgBase ver op dest) names_, unpacker).

Definition CheckShareMemoryMapRequest_t : Codec CheckShareMemoryMapRequest := message_t CheckShareMemoryMapRequest_Serialize CheckShareMemoryMapRequest_Deserialize.

Definition CheckShareMemoryMapRequest_ok (m : CheckShareMemoryMapRequest) : Prop :=
  fits_signed 2 (msgVer (CheckShareMemoryMapRequest_base m)) /\
  fits_signed 2 (opCode (CheckShareMemoryMapRequest_base m)) /\
  fits_unsigned 4 (destRankId (CheckShareMemoryMapRequest_base m)) /\
  vector_ok string_ok (CheckShareMemoryMapRequest_names_ m).

Lemma CheckShareMemoryMapRequest_lawful : Lawful CheckShareMemoryMapRequest_t CheckShareMemoryMapRequest_ok.
Proof.
  message_by_members CheckShareMemoryMapRequest_t CheckShareMemoryMapRequest_Deserialize
    (int16_t ⊗ int16_t ⊗ uint32_t ⊗ (vector_t string_t))%member
    (fun m => msgVer (CheckShareMemoryMapRequest_base m) ,, opCode (CheckShareMemoryMapRequest_base m) ,,
               destRankId (CheckShareMemoryMapRequest_base m) ,, CheckShareMemoryMapRequest_names_ m)%member.
Qed.

(** ** [CommonRequest] *)

Record CommonRequest := mkCommonRequest {
  CommonRequest_base : MsgBase;
  CommonRequest_input_ : Z;
}.

Definition CommonRequest_Serialize (m : CommonRequest) (packer : NetMsgPacker) : Z * NetMsgPacker :=
  let packer := Serialize int16_t (msgVer (CommonRequest_base m)) packer in
  let packer := Serialize int16_t (opCode (CommonRequest_base m)) packer in
  let packer := Serialize uint32_t (destRankId (CommonRequest_base m)) packer in
  let packer := Serialize uint32_t (CommonRequest_input_ m) packer in
  (UBSM_OK, packer).

Definition CommonRequest_Deserialize (unpacker : NetMsgUnpacker) : Z * CommonRequest * NetMsgUnpacker :=
  let '(ver, unpacker) := Deserialize int16_t unpacker in
  let '(op, unpacker) := Deserialize int16_t unpacker in
  let '(dest, unpacker) := Deserialize uint32_t unpacker in
  let '(input_, unpacker) := Deserialize uint32_t unpacker in
  (DeserializeResult unpacker, mkCommonRequest (mkMsgBase ver op dest) input_, unpacker).

Definition CommonRequest_t : Codec CommonRequest := message_t CommonRequest_Serialize CommonRequest_Deserialize.

Definition CommonRequest_ok (m : CommonRequest) : Prop :=
  fits_signed 2 (msgVer (CommonRequest_base m)) /\ fits_signed 2 (opCode (CommonRequest_base m)) /\
  fits_unsigned 4 (destRankId (CommonRequest_base m)) /\ fits_unsigned 4 (CommonRequest_input_ m).

Lemma CommonRequest_lawful : Lawful CommonRequest_t CommonRequest_ok.
Proof.
  message_by_members CommonRequest_t CommonRequest_Deserialize
    (int16_t ⊗ int16_t ⊗ uint32_t ⊗ uint32_t)%member
    (fun m => msgVer (CommonRequest_base m) ,, opCode (CommonRequest_base m) ,,
               destRankId (CommonRequest_base m) ,, CommonRequest_input_ m)%member.
Qed.

(** ** [ShmemAllocateRequest] *)

Record ShmemAllocateRequest := mkShmemAllocateRequest {
  ShmemAllocateRequest_base : MsgBase;
  ShmemAllocateRequest_regionName_ : string;
  ShmemAllocateRequest_shmName_ : string;
  ShmemAllocateRequest_size_ : Z;
  ShmemAllocateRequest_mode_ : Z;
  ShmemAllocateRequest_flag_ : Z;
}.

Definition ShmemAllocateRequest_Serialize (m : ShmemAllocateRequest) (packer : NetMsgPacker) : Z * NetMsgPacker :=
  let packer := Serialize int16_t (msgVer (ShmemAllocateRequest_base m)) packer in
  let packer := Serialize int16_t (opCode (ShmemAllocateRequest_base m)) packer in
  let packer := Serialize uint32_t (destRankId (ShmemAllocateRequest_base m)) packer in
  let packer := Serialize string_t (ShmemAllocateRequest_regionName_ m) packer in
  let packer := Serialize string_t (ShmemAllocateRequest_shmName_ m) packer in
  let packer := Serialize uint64_t (ShmemAllocateRequest_size_ m) packer in
  let packer := Serialize uint32_t (ShmemAllocateRequest_mode_ m) packer in
  let packer := Serialize uint64_t (ShmemAllocateRequest_flag_ m) packer in
  (UBSM_OK, packer).

Definition ShmemAllocateRequest_Deserialize (unpacker : NetMsgUnpacker) : Z * ShmemAllocateRequest * NetMsgUnpacker :=
  let '(ver, unpacker) := Deserialize int16_t unpacker in
  let '(op, unpacker) := Deserialize int16_t unpacker in
  let '(dest, unpacker) := Deserialize uint32_t unpacker in
  let '(regionName_, unpacker) := Deserialize string_t unpacker in
  let '(shmName_, unpacker) := Deserialize string_t unpacker in
  let '(size_, unpacker) := Deserialize uint64_t unpacker in
  let '(mode_, unpacker) := Deserialize uint32_t unpacker in
  let '(flag_, unpacker) := Deserialize uint64_t unpacker in
  (DeserializeResult unpacker, mkShmemAllocateRequest (mkMsgBase ver op dest) regionName_ shmName_ size_ mode_ flag_, unpacker).

Definition ShmemAllocateRequest_t : Codec ShmemAllocateRequest := message_t ShmemAllocateRequest_Serialize ShmemAllocateRequest_Deserialize.

Definition ShmemAllocateRequest_ok (m : ShmemAllocateRequest) : Prop :=
  fits_signed 2 (msgVer (ShmemAllocateRequest_base m)) /\ fits_signed 2 (opCode (ShmemAllocateRequest_base m)) /\
  fits_unsigned 4 (destRankId (ShmemAllocateRequest_base m)) /\ string_ok (ShmemAllocateRequest_regionName_ m) /\
  string_ok (ShmemAllocateRequest_shmName_ m) /\ fits_unsigned 8 (ShmemAllocateRequest_size_ m) /\
  fits_unsigned 4 (ShmemAllocateRequest_mode_ m) /\ fits_unsigned 8 (ShmemAllocateRequest_flag_ m).

Lemma ShmemAllocateRequest_lawful : Lawful ShmemAllocateRequest_t ShmemAllocateRequest_ok.
Proof.
  message_by_members ShmemAllocateRequest_t ShmemAllocateRequest_Deserialize
    (int16_t ⊗ int16_t ⊗ uint32_t ⊗ string_t ⊗ string_t ⊗ uint64_t ⊗ uint32_t ⊗ uint64_t)%member
    (fun m => msgVer (ShmemAllocateRequest_base m) ,, opCode (ShmemAllocateRequest_base m) ,,
               destRankId (ShmemAllocateRequest_base m) ,, ShmemAllocateRequest_regionName_ m ,,
               ShmemAllocateRequest_shmName_ m ,, ShmemAllocateRequest_size_ m ,, ShmemAllocateRequest_mode_ m ,,
               ShmemAllocateRequest_flag_ m)%member.
Qed.

(** ** [ShmemDeallocateRequest] *)

Record ShmemDeallocateRequest := mkShmemDeallocateRequest {
  ShmemDeallocateRequest_base : MsgBase;
  ShmemDeallocateRequest_shmName_ : string;
}.

Definition ShmemDeallocateRequest_Serialize (m : ShmemDeallocateRequest) (packer : NetMsgPacker) : Z * NetMsgPacker :=
  let packer := Serialize int16_t (msgVer (ShmemDeallocateRequest_base m)) packer in
  let packer := Serialize int16_t (opCode (ShmemDeallocateRequest_base m)) packer in
  let packer := Serialize uint32_t (destRankId (ShmemDeallocateRequest_base m)) packer in
  let packer := Serialize string_t (ShmemDeallocateRequest_shmName_ m) packer in
  (UBSM_OK, packer).

Definition ShmemDeallocateRequest_Deserialize (unpacker : NetMsgUnpacker) : Z * ShmemDeallocateRequest * NetMsgUnpacker :=
  let '(ver, unpacker) := Deserialize int16_t unpacker in
  let '(op, unpacker) := Deserialize int16_t unpacker in
  let '(dest, unpacker) := Deserialize uint32_t unpacker in
  let '(shmName_, unpacker) := Deserialize string_t unpacker in
  (DeserializeResult unpacker, mkShmemDeallocateRequest (mkMsgBase ver op dest) shmName_, unpacker).

Definition ShmemDeallocateRequest_t : Codec ShmemDeallocateRequest := message_t ShmemDeallocateRequest_Serialize ShmemDeallocateRequest_Deserialize.

Definition ShmemDeallocateRequest_ok (m : ShmemDeallocateRequest) : Prop :=
  fits_signed 2 (msgVer (ShmemDeallocateRequest_base m)) /\
  fits_signed 2 (opCode (ShmemDeallocateRequest_base m)) /\
  fits_unsigned 4 (destRankId (ShmemDeallocateRequest_base m)) /\ string_ok (ShmemDeallocateRequest_shmName_ m).

Lemma ShmemDeallocateRequest_lawful : Lawful ShmemDeallocateRequest_t ShmemDeallocateRequest_ok.
Proof.
  message_by_members ShmemDeallocateRequest_t ShmemDeallocateRequest_Deserialize
    (int16_t ⊗ int16_t ⊗ uint32_t ⊗ string_t)%member
    (fun m => msgVer (ShmemDeallocateRequest_base m) ,, opCode (ShmemDeallocateRequest_base m) ,,
               destRankId (ShmemDeallocateRequest_base m) ,, ShmemDeallocateRequest_shmName_ m)%member.
Qed.

(** ** [AppMallocMemoryRequest] *)

Record AppMallocMemoryRequest := mkAppMallocMemoryRequest {
  AppMallocMemoryRequest_base : MsgBase;
  AppMallocMemoryRequest_size_ : Z;
  AppMallocMemoryRequest_perflevel_ : Z;
  AppMallocMemoryRequest_isNuma_ : Z;
  AppMallocMemoryRequest_regionName_ : string;
}.

Definition AppMallocMemoryRequest_Serialize (m : AppMallocMemoryRequest) (packer : NetMsgPacker) : Z * NetMsgPacker :=
  let packer := Serialize int16_t (msgVer (AppMallocMemoryRequest_base m)) packer in
  let packer := Serialize int16_t (opCode (AppMallocMemoryRequest_base m)) packer in
  let packer := Serialize uint32_t (destRankId (AppMallocMemoryRequest_base m)) packer in
  let packer := Serialize uint64_t (AppMallocMemoryRequest_size_ m) packer in
  let packer := Serialize uint16_t (AppMallocMemoryRequest_perflevel_ m) packer in
  let packer := Serialize uint16_t (AppMallocMemoryRequest_isNuma_ m) packer in
  let packer := Serialize string_t (AppMallocMemoryRequest_regionName_ m) packer in
  (UBSM_OK, packer).

Definition AppMallocMemoryRequest_Deserialize (unpacker : NetMsgUnpacker) : Z * AppMallocMemoryRequest * NetMsgUnpacker :=
  let '(ver, unpacker) := Deserialize int16_t unpacker in
  let '(op, unpacker) := Deserialize int16_t unpacker in
  let '(dest, unpacker) := Deserialize uint32_t unpacker in
  let '(size_, unpacker) := Deserialize uint64_t unpacker in
  let '(perflevel_, unpacker) := Deserialize uint16_t unpacker in
  let '(isNuma_, unpacker) := Deserialize uint16_t unpacker in
  let '(regionName_, unpacker) := Deserialize string_t unpacker in
  (DeserializeResult unpacker, mkAppMallocMemoryRequest (mkMsgBase ver op dest) size_ perflevel_ isNuma_ regionName_, unpacker).

Definition AppMallocMemoryRequest_t : Codec AppMallocMemoryRequest := message_t AppMallocMemoryRequest_Serialize AppMallocMemoryRequest_Deserialize.

Definition AppMallocMemoryRequest_ok (m : AppMallocMemoryRequest) : Prop :=
  fits_signed 2 (msgVer (AppMallocMemoryRequest_base m)) /\
  fits_signed 2 (opCode (AppMallocMemoryRequest_base m)) /\
  fits_unsigned 4 (destRankId (AppMallocMemoryRequest_base m)) /\
  fits_unsigned 8 (AppMallocMemoryRequest_size_ m) /\ fits_unsigned 2 (AppMallocMemoryRequest_perflevel_ m) /\
  fits_unsigned 2 (AppMallocMemoryRequest_isNuma_ m) /\ string_ok (AppMallocMemoryRequest_regionName_ m).

Lemma AppMallocMemoryRequest_lawful : Lawful AppMallocMemoryRequest_t AppMallocMemoryRequest_ok.
Proof.
  message_by_members AppMallocMemoryRequest_t AppMallocMemoryRequest_Deserialize
    (int16_t ⊗ int16_t ⊗ uint32_t ⊗ uint64_t ⊗ uint16_t ⊗ uint16_t ⊗ string_t)%member
    (fun m => msgVer (AppMallocMemoryRequest_base m) ,, opCode (AppMallocMemoryRequest_base m) ,,
               destRankId (AppMallocMemoryRequest_base m) ,, AppMallocMemoryRequest_size_ m ,,
               AppMallocMemoryRequest_perflevel_ m ,, AppMallocMemoryRequest_isNuma_ m ,,
               AppMallocMemoryRequest_regionName_ m)%member.
Qed.

(** ** [AppMallocMemoryWithLocRequest] *)

Record AppMallocMemoryWithLocRequest := mkAppMallocMemoryWithLocRequest {
  AppMallocMemoryWithLocRequest_base : MsgBase;
  AppMallocMemoryWithLocRequest_size_ : Z;
  AppMallocMemoryWithLocRequest_isNuma_ : Z;
  AppMallocMemoryWithLocRequest_slotId_ : Z;
  AppMallocMemoryWithLocRequest_socketId_ : Z;
  AppMallocMemoryWithLocRequest_numaId_ : Z;
  AppMallocMemoryWithLocRequest_portId_ : Z;
}.

Definition AppMallocMemoryWithLocRequest_Serialize (m : AppMallocMemoryWithLocRequest) (packer : NetMsgPacker) : Z * NetMsgPacker :=
  let packer := Serialize int16_t (msgVer (AppMallocMemoryWithLocRequest_base m)) packer in
  let packer := Serialize int16_t (opCode (AppMallocMemoryWithLocRequest_base m)) packer in
  let packer := Serialize uint32_t (destRankId (AppMallocMemoryWithLocRequest_base m)) packer in
  let packer := Serialize uint64_t (AppMallocMemoryWithLocRequest_size_ m) packer in
  let packer := Serialize uint16_t (AppMallocMemoryWithLocRequest_isNuma_ m) packer in
  let packer := Serialize uint32_t (AppMallocMemoryWithLocRequest_slotId_ m) packer in
  let packer := Serialize uint32_t (AppMallocMemoryWithLocRequest_socketId_ m) packer in
  let packer := Serialize uint32_t (AppMallocMemoryWithLocRequest_numaId_ m) packer in
  let packer := Serialize uint32_t (AppMallocMemoryWithLocRequest_portId_ m) packer in
  (UBSM_OK, packer).

Definition AppMallocMemoryWithLocRequest_Deserialize (unpacker : NetMsgUnpacker) : Z * AppMallocMemoryWithLocRequest * NetMsgUnpacker :=
  let '(ver, unpacker) := Deserialize int16_t unpacker in
  let '(op, unpacker) := Deserialize int16_t unpacker in
  let '(dest, unpacker) := Deserialize uint32_t unpacker in
  let '(size_, unpacker) := Deserialize uint64_t unpacker in
  let '(isNuma_, unpacker) := Deserialize uint16_t unpacker in
  let '(slotId_, unpacker) := Deserialize uint32_t unpacker in
  let '(socketId_, unpacker) := Deserialize uint32_t unpacker in
  let '(numaId_, unpacker) := Deserialize uint32_t unpacker in
  let '(portId_, unpacker) := Deserialize uint32_t unpacker in
  (DeserializeResult unpacker, mkAppMallocMemoryWithLocRequest (mkMsgBase ver op dest) size_ isNuma_ slotId_ socketId_ numaId_ portId_, unpacker).

Definition AppMallocMemoryWithLocRequest_t : Codec AppMallocMemoryWithLocRequest := message_t AppMallocMemoryWithLocRequest_Serialize AppMallocMemoryWithLocRequest_Deserialize.

Definition AppMallocMemoryWithLocRequest_ok (m : AppMallocMemoryWithLocRequest) : Prop :=
  fits_signed 2 (msgVer (AppMallocMemoryWithLocRequest_base m)) /\
  fits_signed 2 (opCode (AppMallocMemoryWithLocRequest_base m)) /\
  fits_unsigned 4 (destRankId (AppMallocMemoryWithLocRequest_base m)) /\
  fits_unsigned 8 (AppMallocMemoryWithLocRequest_size_ m) /\
  fits_unsigned 2 (AppMallocMemoryWithLocRequest_isNuma_ m) /\
  fits_unsigned 4 (AppMallocMemoryWithLocRequest_slotId_ m) /\
  fits_unsigned 4 (AppMallocMemoryWithLocRequest_socketId_ m) /\
  fits_unsigned 4 (AppMallocMemoryWithLocRequest_numaId_ m) /\
  fits_unsigned 4 (AppMallocMemoryWithLocRequest_portId_ m).

Lemma AppMallocMemoryWithLocRequest_lawful : Lawful AppMallocMemoryWithLocRequest_t AppMallocMemoryWithLocRequest_ok.
Proof.
  message_by_members AppMallocMemoryWithLocRequest_t AppMallocMemoryWithLocRequest_Deserialize
    (int16_t ⊗ int16_t ⊗ uint32_t ⊗ uint64_t ⊗ uint16_t ⊗ uint32_t ⊗ uint32_t ⊗ uint32_t ⊗ uint32_t)%member
    (fun m => msgVer (AppMallocMemoryWithLocRequest_base m) ,, opCode (AppMallocMemoryWithLocRequest_base m) ,,
               destRankId (AppMallocMemoryWithLocRequest_base m) ,, AppMallocMemoryWithLocRequest_size_ m ,,
               AppMallocMemoryWithLocRequest_isNuma_ m ,, AppMallocMemoryWithLocRequest_slotId_ m ,,
               AppMallocMemoryWithLocRequest_socketId_ m ,, AppMallocMemoryWithLocRequest_numaId_ m ,,
               AppMallocMemoryWithLocRequest_portId_ m)%member.
Qed.

(** ** [AppFreeMemoryRequest] *)

Record AppFreeMemoryRequest := mkAppFreeMemoryRequest {
  AppFreeMemoryRequest_base : MsgBase;
  AppFreeMemoryRequest_memIds_ : list Z;
  AppFreeMemoryRequest_regionName_ : string;
  AppFreeMemoryRequest_name_ : string;
}.

Definition AppFreeMemoryRequest_Serialize (m : AppFreeMemoryRequest) (packer : NetMsgPacker) : Z * NetMsgPacker :=
  let packer := Serialize int16_t (msgVer (AppFreeMemoryRequest_base m)) packer in
  let packer := Serialize int16_t (opCode (AppFreeMemoryRequest_base m)) packer in
  let packer := Serialize uint32_t (destRankId (AppFreeMemoryRequest_base m)) packer in
  let packer := Serialize (vector_t uint64_t) (AppFreeMemoryRequest_memIds_ m) packer in
  let packer := Serialize string_t (AppFreeMemoryRequest_regionName_ m) packer in
  let packer := Serialize string_t (AppFreeMemoryRequest_name_ m) packer in
  (UBSM_OK, packer).

Definition AppFreeMemoryRequest_Deserialize (unpacker : NetMsgUnpacker) : Z * AppFreeMemoryRequest * NetMsgUnpacker :=
  let '(ver, unpacker) := Deserialize int16_t unpacker in
  let '(op, unpacker) := Deserialize int16_t unpacker in
  let '(dest, unpacker) := Deserialize uint32_t unpacker in
  let '(memIds_, unpacker) := Deserialize (vector_t uint64_t) unpacker in
  let '(regionName_, unpacker) := Deserialize string_t unpacker in
  let '(name_, unpacker) := Deserialize string_t unpacker in
  (DeserializeResult unpacker, mkAppFreeMemoryRequest (mkMsgBase ver op dest) memIds_ regionName_ name_, unpacker).

Definition AppFreeMemoryRequest_t : Codec AppFreeMemoryRequest := message_t AppFreeMemoryRequest_Serialize AppFreeMemoryRequest_Deserialize.

Definition AppFreeMemoryRequest_ok (m : AppFreeMemoryRequest) : Prop :=
  fits_signed 2 (msgVer (AppFreeMemoryRequest_base m)) /\ fits_signed 2 (opCode (AppFreeMemoryRequest_base m)) /\
  fits_unsigned 4 (destRankId (AppFreeMemoryRequest_base m)) /\
  vector_ok (fits_unsigned 8) (AppFreeMemoryRequest_memIds_ m) /\ string_ok (AppFreeMemoryRequest_regionName_ m) /\
  string_ok (AppFreeMemoryRequest_name_ m).

Lemma AppFreeMemoryRequest_lawful : Lawful AppFreeMemoryRequest_t AppFreeMemoryRequest_ok.
Proof.
  message_by_members AppFreeMemoryRequest_t AppFreeMemoryRequest_Deserialize
    (int16_t ⊗ int16_t ⊗ uint32_t ⊗ (vector_t uint64_t) ⊗ string_t ⊗ string_t)%member
    (fun m => msgVer (AppFreeMemoryRequest_base m) ,, opCode (AppFreeMemoryRequest_base m) ,,
               destRankId (AppFreeMemoryRequest_base m) ,, AppFreeMemoryRequest_memIds_ m ,,
               AppFreeMemoryRequest_regionName_ m ,, AppFreeMemoryRequest_name_ m)%member.
Qed.

(** ** [ShmLookRegionListRequest] *)

Record ShmLookRegionListRequest := mkShmLookRegionListRequest {
  ShmLookRegionListRequest_base : MsgBase;
  ShmLookRegionListRequest_baseNid_ : string;
  ShmLookRegionListRequest_regionType_ : Z;
}.

Definition ShmLookRegionListRequest_Serialize (m : ShmLookRegionListRequest) (packer : NetMsgPacker) : Z * NetMsgPacker :=
  let packer := Serialize int16_t (msgVer (ShmLookRegionListRequest_base m)) packer in
  let packer := Serialize int16_t (opCode (ShmLookRegionListRequest_base m)) packer in
  let packer := Serialize uint32_t (destRankId (ShmLookRegionListRequest_base m)) packer in
  let packer := Serialize string_t (ShmLookRegionListRequest_baseNid_ m) packer in
  let packer := Serialize int32_t (ShmLookRegionListRequest_regionType_ m) packer in
  (UBSM_OK, packer).

Definition ShmLookRegionListRequest_Deserialize (unpacker : NetMsgUnpacker) : Z * ShmLookRegionListRequest * NetMsgUnpacker :=
  let '(ver, unpacker) := Deserialize int16_t unpacker in
  let '(op, unpacker) := Deserialize int16_t unpacker in
  let '(dest, unpacker) := Deserialize uint32_t unpacker in
  let '(baseNid_, unpacker) := Deserialize string_t unpacker in
  let '(regionType_, unpacker) := Deserialize int32_t unpacker in
  (DeserializeResult unpacker, mkShmLookRegionListRequest (mkMsgBase ver op dest) baseNid_ regionType_, unpacker).

Definition ShmLookRegionListRequest_t : Codec ShmLookRegionListRequest := message_t ShmLookRegionListRequest_Serialize ShmLookRegionListRequest_Deserialize.

Definition ShmLookRegionListRequest_ok (m : ShmLookRegionListRequest) : Prop :=
  fits_signed 2 (msgVer (ShmLookRegionListRequest_base m)) /\
  fits_signed 2 (opCode (ShmLookRegionListRequest_base m)) /\
  fits_unsigned 4 (destRankId (ShmLookRegionListRequest_base m)) /\
  string_ok (ShmLookRegionListRequest_baseNid_ m) /\ fits_signed 4 (ShmLookRegionListRequest_regionType_ m).

Lemma ShmLookRegionListRequest_lawful : Lawful ShmLookRegionListRequest_t ShmLookRegionListRequest_ok.
Proof.
  message_by_members ShmLookRegionListRequest_t ShmLookRegionListRequest_Deserialize
    (int16_t ⊗ int16_t ⊗ uint32_t ⊗ string_t ⊗ int32_t)%member
    (fun m => msgVer (ShmLookRegionListRequest_base m) ,, opCode (ShmLookRegionListRequest_base m) ,,
               destRankId (ShmLookRegionListRequest_base m) ,, ShmLookRegionListRequest_baseNid_ m ,,
               ShmLookRegionListRequest_regionType_ m)%member.
Qed.

(** ** [ShmCreateRegionRequest] *)

Record ShmCreateRegionRequest := mkShmCreateRegionRequest {
  ShmCreateRegionRequest_base : MsgBase;
  ShmCreateRegionRequest_regionName_ : string;
  ShmCreateRegionRequest_region_ : SHMRegionDesc;
}.

Definition ShmCreateRegionRequest_Serialize (m : ShmCreateRegionRequest) (packer : NetMsgPacker) : Z * NetMsgPacker :=
  let packer := Serialize int16_t (msgVer (ShmCreateRegionRequest_base m)) packer in
  let packer := Serialize int16_t (opCode (ShmCreateRegionRequest_base m)) packer in
  let packer := Serialize uint32_t (destRankId (ShmCreateRegionRequest_base m)) packer in
  let packer := Serialize string_t (ShmCreateRegionRequest_regionName_ m) packer in
  let packer := Serialize SHMRegionDesc_t (ShmCreateRegionRequest_region_ m) packer in
  (UBSM_OK, packer).

Definition ShmCreateRegionRequest_Deserialize (unpacker : NetMsgUnpacker) : Z * ShmCreateRegionRequest * NetMsgUnpacker :=
  let '(ver, unpacker) := Deserialize int16_t unpacker in
  let '(op, unpacker) := Deserialize int16_t unpacker in
  let '(dest, unpacker) := Deserialize uint32_t unpacker in
  let '(regionName_, unpacker) := Deserialize string_t unpacker in
  let '(region_, unpacker) := Deserialize SHMRegionDesc_t unpacker in
  (DeserializeResult unpacker, mkShmCreateRegionRequest (mkMsgBase ver op dest) regionName_ region_, unpacker).

Definition ShmCreateRegionRequest_t : Codec ShmCreateRegionRequest := message_t ShmCreateRegionRequest_Serialize ShmCreateRegionRequest_Deserialize.

Definition ShmCreateRegionRequest_ok (m : ShmCreateRegionRequest) : Prop :=
  fits_signed 2 (msgVer (ShmCreateRegionRequest_base m)) /\
  fits_signed 2 (opCode (ShmCreateRegionRequest_base m)) /\
  fits_unsigned 4 (destRankId (ShmCreateRegionRequest_base m)) /\
  string_ok (ShmCreateRegionRequest_regionName_ m) /\
  struct_ok sizeof_SHMRegionDesc (ShmCreateRegionRequest_region_ m).

Lemma ShmCreateRegionRequest_lawful : Lawful ShmCreateRegionRequest_t ShmCreateRegionRequest_ok.
Proof.
  message_by_members ShmCreateRegionRequest_t ShmCreateRegionRequest_Deserialize
    (int16_t ⊗ int16_t ⊗ uint32_t ⊗ string_t ⊗ SHMRegionDesc_t)%member
    (fun m => msgVer (ShmCreateRegionRequest_base m) ,, opCode (ShmCreateRegionRequest_base m) ,,
               destRankId (ShmCreateRegionRequest_base m) ,, ShmCreateRegionRequest_regionName_ m ,,
               ShmCreateRegionRequest_region_ m)%member.
Qed.

(** ** [ShmLookupRegionRequest] *)

Record ShmLookupRegionRequest := mkShmLookupRegionRequest {
  ShmLookupRegionRequest_base : MsgBase;
  ShmLookupRegionRequest_regionName_ : string;
}.

Definition ShmLookupRegionRequest_Serialize (m : ShmLookupRegionRequest) (packer : NetMsgPacker) : Z * NetMsgPacker :=
  let packer := Serialize int16_t (msgVer (ShmLookupRegionRequest_base m)) packer in
  let packer := Serialize int16_t (opCode (ShmLookupRegionRequest_base m)) packer in
  let packer := Serialize uint32_t (destRankId (ShmLookupRegionRequest_base m)) packer in
  let packer := Serialize string_t (ShmLookupRegionRequest_regionName_ m) packer in
  (UBSM_OK, packer).

Definition ShmLookupRegionRequest_Deserialize (unpacker : NetMsgUnpacker) : Z * ShmLookupRegionRequest * NetMsgUnpacker :=
  let '(ver, unpacker) := Deserialize int16_t unpacker in
  let '(op, unpacker) := Deserialize int16_t unpacker in
  let '(dest, unpacker) := Deserialize uint32_t unpacker in
  let '(regionName_, unpacker) := Deserialize string_t unpacker in
  (DeserializeResult unpacker, mkShmLookupRegionRequest (mkMsgBase ver op dest) regionName_, unpacker).

Definition ShmLookupRegionRequest_t : Codec ShmLookupRegionRequest := message_t ShmLookupRegionRequest_Serialize ShmLookupRegionRequest_Deserialize.

Definition ShmLookupRegionRequest_ok (m : ShmLookupRegionRequest) : Prop :=
  fits_signed 2 (msgVer (ShmLookupRegionRequest_base m)) /\
  fits_signed 2 (opCode (ShmLookupRegionRequest_base m)) /\
  fits_unsigned 4 (destRankId (ShmLookupRegionRequest_base m)) /\
  string_ok (ShmLookupRegionRequest_regionName_ m).

Lemma ShmLookupRegionRequest_lawful : Lawful ShmLookupRegionRequest_t ShmLookupRegionRequest_ok.
Proof.
  message_by_members ShmLookupRegionRequest_t ShmLookupRegionRequest_Deserialize
    (int16_t ⊗ int16_t ⊗ uint32_t ⊗ string_t)%member
    (fun m => msgVer (ShmLookupRegionRequest_base m) ,, opCode (ShmLookupRegionRequest_base m) ,,
               destRankId (ShmLookupRegionRequest_base m) ,, ShmLookupRegionRequest_regionName_ m)%member.
Qed.

(** ** [ShmDestroyRegionRequest] *)

Record ShmDestroyRegionRequest := mkShmDestroyRegionRequest {
  ShmDestroyRegionRequest_base : MsgBase;
  ShmDestroyRegionRequest_regionName_ : string;
}.

Definition ShmDestroyRegionRequest_Serialize (m : ShmDestroyRegionRequest) (packer : NetMsgPacker) : Z * NetMsgPacker :=
  let packer := Serialize int16_t (msgVer (ShmDestroyRegionRequest_base m)) packer in
  let packer := Serialize int16_t (opCode (ShmDestroyRegionRequest_base m)) packer in
  let packer := Serialize uint32_t (destRankId (ShmDestroyRegionRequest_base m)) packer in
  let packer := Serialize string_t (ShmDestroyRegionRequest_regionName_ m) packer in
  (UBSM_OK, packer).

Definition ShmDestroyRegionRequest_Deserialize (unpacker : NetMsgUnpacker) : Z * ShmDestroyRegionRequest * NetMsgUnpacker :=
  let '(ver, unpacker) := Deserialize int16_t unpacker in
  let '(op, unpacker) := Deserialize int16_t unpacker in
  let '(dest, unpacker) := Deserialize uint32_t unpacker in
  let '(regionName_, unpacker) := Deserialize string_t unpacker in
  (DeserializeResult unpacker, mkShmDestroyRegionRequest (mkMsgBase ver op dest) regionName_, unpacker).

Definition ShmDestroyRegionRequest_t : Codec ShmDestroyRegionRequest := message_t ShmDestroyRegionRequest_Serialize ShmDestroyRegionRequest_Deserialize.

Definition ShmDestroyRegionRequest_ok (m : ShmDestroyRegionRequest) : Prop :=
  fits_signed 2 (msgVer (ShmDestroyRegionRequest_base m)) /\
  fits_signed 2 (opCode (ShmDestroyRegionRequest_base m)) /\
  fits_unsigned 4 (destRankId (ShmDestroyRegionRequest_base m)) /\
  string_ok (ShmDestroyRegionRequest_regionName_ m).

Lemma ShmDestroyRegionRequest_lawful : Lawful ShmDestroyRegionRequest_t ShmDestroyRegionRequest_ok.
Proof.
  message_by_members ShmDestroyRegionRequest_t ShmDestroyRegionRequest_Deserialize
    (int16_t ⊗ int16_t ⊗ uint32_t ⊗ string_t)%member
    (fun m => msgVer (ShmDestroyRegionRequest_base m) ,, opCode (ShmDestroyRegionRequest_base m) ,,
               destRankId (ShmDestroyRegionRequest_base m) ,, ShmDestroyRegionRequest_regionName_ m)%member.
Qed.

(** ** [ShmCreateRequest] *)

Record ShmCreateRequest := mkShmCreateRequest {
  ShmCreateRequest_base : MsgBase;
  ShmCreateRequest_regionName_ : string;
  ShmCreateRequest_name_ : string;
  ShmCreateRequest_size_ : Z;
  ShmCreateRequest_baseNid_ : string;
  ShmCreateRequest_regionDesc_ : SHMRegionDesc;
  ShmCreateRequest_flags_ : Z;
  ShmCreateRequest_mode_ : Z;
}.

Definition ShmCreateRequest_Serialize (m : ShmCreateRequest) (packer : NetMsgPacker) : Z * NetMsgPacker :=
  let packer := Serialize int16_t (msgVer (ShmCreateRequest_base m)) packer in
  let packer := Serialize int16_t (opCode (ShmCreateRequest_base m)) packer in
  let packer := Serialize uint32_t (destRankId (ShmCreateRequest_base m)) packer in
  let packer := Serialize string_t (ShmCreateRequest_regionName_ m) packer in
  let packer := Serialize string_t (ShmCreateRequest_name_ m) packer in
  let packer := Serialize uint64_t (ShmCreateRequest_size_ m) packer in
  let packer := Serialize string_t (ShmCreateRequest_baseNid_ m) packer in
  let packer := Serialize SHMRegionDesc_t (ShmCreateRequest_regionDesc_ m) packer in
  let packer := Serialize uint64_t (ShmCreateRequest_flags_ m) packer in
  let packer := Serialize uint32_t (ShmCreateRequest_mode_ m) packer in
  (UBSM_OK, packer).

Definition ShmCreateRequest_Deserialize (unpacker : NetMsgUnpacker) : Z * ShmCreateRequest * NetMsgUnpacker :=
  let '(ver, unpacker) := Deserialize int16_t unpacker in
  let '(op, unpacker) := Deserialize int16_t unpacker in
  let '(dest, unpacker) := Deserialize uint32_t unpacker in
  let '(regionName_, unpacker) := Deserialize string_t unpacker in
  let '(name_, unpacker) := Deserialize string_t unpacker in
  let '(size_, unpacker) := Deserialize uint64_t unpacker in
  let '(baseNid_, unpacker) := Deserialize string_t unpacker in
  let '(regionDesc_, unpacker) := Deserialize SHMRegionDesc_t unpacker in
  let '(flags_, unpacker) := Deserialize uint64_t unpacker in
  let '(mode_, unpacker) := Deserialize uint32_t unpacker in
  (DeserializeResult unpacker, mkShmCreateRequest (mkMsgBase ver op dest) regionName_ name_ size_ baseNid_ regionDesc_ flags_ mode_, unpacker).

Definition ShmCreateRequest_t : Codec ShmCreateRequest := message_t ShmCreateRequest_Serialize ShmCreateRequest_Deserialize.

Definition ShmCreateRequest_ok (m : ShmCreateRequest) : Prop :=
  fits_signed 2 (msgVer (ShmCreateRequest_base m)) /\ fits_signed 2 (opCode (ShmCreateRequest_base m)) /\
  fits_unsigned 4 (destRankId (ShmCreateRequest_base m)) /\ string_ok (ShmCreateRequest_regionName_ m) /\
  string_ok (ShmCreateRequest_name_ m) /\ fits_unsigned 8 (ShmCreateRequest_size_ m) /\
  string_ok (ShmCreateRequest_baseNid_ m) /\ struct_ok sizeof_SHMRegionDesc (ShmCreateRequest_regionDesc_ m) /\
  fits_unsigned 8 (ShmCreateRequest_flags_ m) /\ fits_unsigned 4 (ShmCreateRequest_mode_ m).

Lemma ShmCreateRequest_lawful : Lawful ShmCreateRequest_t ShmCreateRequest_ok.
Proof.
  message_by_members ShmCreateRequest_t ShmCreateRequest_Deserialize
    (int16_t ⊗ int16_t ⊗ uint32_t ⊗ string_t ⊗ string_t ⊗ uint64_t ⊗ string_t ⊗ SHMRegionDesc_t ⊗ uint64_t ⊗
     uint32_t)%member
    (fun m => msgVer (ShmCreateRequest_base m) ,, opCode (ShmCreateRequest_base m) ,,
               destRankId (ShmCreateRequest_base m) ,, ShmCreateRequest_regionName_ m ,,
               ShmCreateRequest_name_ m ,, ShmCreateRequest_size_ m ,, ShmCreateRequest_baseNid_ m ,,
               ShmCreateRequest_regionDesc_ m ,, ShmCreateRequest_flags_ m ,, ShmCreateRequest_mode_ m)%member.
Qed.

(** ** [ShmCreateWithProviderRequest] *)

Record ShmCreateWithProviderRequest := mkShmCreateWithProviderRequest {
  ShmCreateWithProviderRequest_base : MsgBase;
  ShmCreateWithProviderRequest_hostName_ : string;
  ShmCreateWithProviderRequest_socketId_ : Z;
  ShmCreateWithProviderRequest_numaId_ : Z;
  ShmCreateWithProviderRequest_portId_ : Z;
  ShmCreateWithProviderRequest_name_ : string;
  ShmCreateWithProviderRequest_size_ : Z;
  ShmCreateWithProviderRequest_flags_ : Z;
  ShmCreateWithProviderRequest_mode_ : Z;
}.

Definition ShmCreateWithProviderRequest_Serialize (m : ShmCreateWithProviderRequest) (packer : NetMsgPacker) : Z * NetMsgPacker :=
  let packer := Serialize int16_t (msgVer (ShmCreateWithProviderRequest_base m)) packer in
  let packer := Serialize int16_t (opCode (ShmCreateWithProviderRequest_base m)) packer in
  let packer := Serialize uint32_t (destRankId (ShmCreateWithProviderRequest_base m)) packer in
  let packer := Serialize string_t (ShmCreateWithProviderRequest_hostName_ m) packer in
  let packer := Serialize uint32_t (ShmCreateWithProviderRequest_socketId_ m) packer in
  let packer := Serialize uint32_t (ShmCreateWithProviderRequest_numaId_ m) packer in
  let packer := Serialize uint32_t (ShmCreateWithProviderRequest_portId_ m) packer in
  let packer := Serialize string_t (ShmCreateWithProviderRequest_name_ m) packer in
  let packer := Serialize uint64_t (ShmCreateWithProviderRequest_size_ m) packer in
  let packer := Serialize uint64_t (ShmCreateWithProviderRequest_flags_ m) packer in
  let packer := Serialize uint32_t (ShmCreateWithProviderRequest_mode_ m) packer in
  (UBSM_OK, packer).

Definition ShmCreateWithProviderRequest_Deserialize (unpacker : NetMsgUnpacker) : Z * ShmCreateWithProviderRequest * NetMsgUnpacker :=
  let '(ver, unpacker) := Deserialize int16_t unpacker in
  let '(op, unpacker) := Deserialize int16_t unpacker in
  let '(dest, unpacker) := Deserialize uint32_t unpacker in
  let '(hostName_, unpacker) := Deserialize string_t unpacker in
  let '(socketId_, unpacker) := Deserialize uint32_t unpacker in
  let '(numaId_, unpacker) := Deserialize uint32_t unpacker in
  let '(portId_, unpacker) := Deserialize uint32_t unpacker in
  let '(name_, unpacker) := Deserialize string_t unpacker in
  let '(size_, unpacker) := Deserialize uint64_t unpacker in
  let '(flags_, unpacker) := Deserialize uint64_t unpacker in
  let '(mode_, unpacker) := Deserialize uint32_t unpacker in
  (DeserializeResult unpacker, mkShmCreateWithProviderRequest (mkMsgBase ver op dest) hostName_ socketId_ numaId_ portId_ name_ size_ flags_ mode_, unpacker).

Definition ShmCreateWithProviderRequest_t : Codec ShmCreateWithProviderRequest := message_t ShmCreateWithProviderRequest_Serialize ShmCreateWithProviderRequest_Deserialize.

Definition ShmCreateWithProviderRequest_ok (m : ShmCreateWithProviderRequest) : Prop :=
  fits_signed 2 (msgVer (ShmCreateWithProviderRequest_base m)) /\
  fits_signed 2 (opCode (ShmCreateWithProviderRequest_base m)) /\
  fits_unsigned 4 (destRankId (ShmCreateWithProviderRequest_base m)) /\
  string_ok (ShmCreateWithProviderRequest_hostName_ m) /\
  fits_unsigned 4 (ShmCreateWithProviderRequest_socketId_ m) /\
  fits_unsigned 4 (ShmCreateWithProviderRequest_numaId_ m) /\
  fits_unsigned 4 (ShmCreateWithProviderRequest_portId_ m) /\ string_ok (ShmCreateWithProviderRequest_name_ m) /\
  fits_unsigned 8 (ShmCreateWithProviderRequest_size_ m) /\
  fits_unsigned 8 (ShmCreateWithProviderRequest_flags_ m) /\
  fits_unsigned 4 (ShmCreateWithProviderRequest_mode_ m).

Lemma ShmCreateWithProviderRequest_lawful : Lawful ShmCreateWithProviderRequest_t ShmCreateWithProviderRequest_ok.
Proof.
  message_by_members ShmCreateWithProviderRequest_t ShmCreateWithProviderRequest_Deserialize
    (int16_t ⊗ int16_t ⊗ uint32_t ⊗ string_t ⊗ uint32_t ⊗ uint32_t ⊗ uint32_t ⊗ string_t ⊗ uint64_t ⊗ uint64_t ⊗
     uint32_t)%member
    (fun m => msgVer (ShmCreateWithProviderRequest_base m) ,, opCode (ShmCreateWithProviderRequest_base m) ,,
               destRankId (ShmCreateWithProviderRequest_base m) ,, ShmCreateWithProviderRequest_hostName_ m ,,
               ShmCreateWithProviderRequest_socketId_ m ,, ShmCreateWithProviderRequest_numaId_ m ,,
               ShmCreateWithProviderRequest_portId_ m ,, ShmCreateWithProviderRequest_name_ m ,,
               ShmCreateWithProviderRequest_size_ m ,, ShmCreateWithProviderRequest_flags_ m ,,
               ShmCreateWithProviderRequest_mode_ m)%member.
Qed.

(** ** [ShmDeleteRequest] *)

Record ShmDeleteRequest := mkShmDeleteRequest {
  ShmDeleteRequest_base : MsgBase;
  ShmDeleteRequest_regionName_ : string;
  ShmDeleteRequest_name_ : string;
}.

Definition ShmDeleteRequest_Serialize (m : ShmDeleteRequest) (packer : NetMsgPacker) : Z * NetMsgPacker :=
  let packer := Serialize int16_t (msgVer (ShmDeleteRequest_base m)) packer in
  let packer := Serialize int16_t (opCode (ShmDeleteRequest_base m)) packer in
  let packer := Serialize uint32_t (destRankId (ShmDeleteRequest_base m)) packer in
  let packer := Serialize string_t (ShmDeleteRequest_regionName_ m) packer in
  let packer := Serialize string_t (ShmDeleteRequest_name_ m) packer in
  (UBSM_OK, packer).

Definition ShmDeleteRequest_Deserialize (unpacker : NetMsgUnpacker) : Z * ShmDeleteRequest * NetMsgUnpacker :=
  let '(ver, unpacker) := Deserialize int16_t unpacker in
  let '(op, unpacker) := Deserialize int16_t unpacker in
  let '(dest, unpacker) := Deserialize uint32_t unpacker in
  let '(regionName_, unpacker) := Deserialize string_t unpacker in
  let '(name_, unpacker) := Deserialize string_t unpacker in
  (DeserializeResult unpacker, mkShmDeleteRequest (mkMsgBase ver op dest) regionName_ name_, unpacker).

Definition ShmDeleteRequest_t : Codec ShmDeleteRequest := message_t ShmDeleteRequest_Serialize ShmDeleteRequest_Deserialize.

Definition ShmDeleteRequest_ok (m : ShmDeleteRequest) : Prop :=
  fits_signed 2 (msgVer (ShmDeleteRequest_base m)) /\ fits_signed 2 (opCode (ShmDeleteRequest_base m)) /\
  fits_unsigned 4 (destRankId (ShmDeleteRequest_base m)) /\ string_ok (ShmDeleteRequest_regionName_ m) /\
  string_ok (ShmDeleteRequest_name_ m).

Lemma ShmDeleteRequest_lawful : Lawful ShmDeleteRequest_t ShmDeleteRequest_ok.
Proof.
  message_by_members ShmDeleteRequest_t ShmDeleteRequest_Deserialize
    (int16_t ⊗ int16_t ⊗ uint32_t ⊗ string_t ⊗ string_t)%member
    (fun m => msgVer (ShmDeleteRequest_base m) ,, opCode (ShmDeleteRequest_base m) ,,
               destRankId (ShmDeleteRequest_base m) ,, ShmDeleteRequest_regionName_ m ,,
               ShmDeleteRequest_name_ m)%member.
Qed.

(** ** [ShmMapRequest] *)

Record ShmMapRequest := mkShmMapRequest {
  ShmMapRequest_base : MsgBase;
  ShmMapRequest_regionName_ : string;
  ShmMapRequest_name_ : string;
  ShmMapRequest_size_ : Z;
  ShmMapRequest_mode_ : Z;
  ShmMapRequest_prot_ : Z;
}.

Definition ShmMapRequest_Serialize (m : ShmMapRequest) (packer : NetMsgPacker) : Z * NetMsgPacker :=
  let packer := Serialize int16_t (msgVer (ShmMapRequest_base m)) packer in
  let packer := Serialize int16_t (opCode (ShmMapRequest_base m)) packer in
  let packer := Serialize uint32_t (destRankId (ShmMapRequest_base m)) packer in
  let packer := Serialize string_t (ShmMapRequest_regionName_ m) packer in
  let packer := Serialize string_t (ShmMapRequest_name_ m) packer in
  let packer := Serialize uint64_t (ShmMapRequest_size_ m) packer in
  let packer := Serialize uint32_t (ShmMapRequest_mode_ m) packer in
  let packer := Serialize int32_t (ShmMapRequest_prot_ m) packer in
  (UBSM_OK, packer).

Definition ShmMapRequest_Deserialize (unpacker : NetMsgUnpacker) : Z * ShmMapRequest * NetMsgUnpacker :=
  let '(ver, unpacker) := Deserialize int16_t unpacker in
  let '(op, unpacker) := Deserialize int16_t unpacker in
  let '(dest, unpacker) := Deserialize uint32_t unpacker in
  let '(regionName_, unpacker) := Deserialize string_t unpacker in
  let '(name_, unpacker) := Deserialize string_t unpacker in
  let '(size_, unpacker) := Deserialize uint64_t unpacker in
  let '(mode_, unpacker) := Deserialize uint32_t unpacker in
  let '(prot_, unpacker) := Deserialize int32_t unpacker in
  (DeserializeResult unpacker, mkShmMapRequest (mkMsgBase ver op dest) regionName_ name_ size_ mode_ prot_, unpacker).

Definition ShmMapRequest_t : Codec ShmMapRequest := message_t ShmMapRequest_Serialize ShmMapRequest_Deserialize.

Definition ShmMapRequest_ok (m : ShmMapRequest) : Prop :=
  fits_signed 2 (msgVer (ShmMapRequest_base m)) /\ fits_signed 2 (opCode (ShmMapRequest_base m)) /\
  fits_unsigned 4 (destRankId (ShmMapRequest_base m)) /\ string_ok (ShmMapRequest_regionName_ m) /\
  string_ok (ShmMapRequest_name_ m) /\ fits_unsigned 8 (ShmMapRequest_size_ m) /\
  fits_unsigned 4 (ShmMapRequest_mode_ m) /\ fits_signed 4 (ShmMapRequest_prot_ m).

Lemma ShmMapRequest_lawful : Lawful ShmMapRequest_t ShmMapRequest_ok.
Proof.
  message_by_members ShmMapRequest_t ShmMapRequest_Deserialize
    (int16_t ⊗ int16_t ⊗ uint32_t ⊗ string_t ⊗ string_t ⊗ uint64_t ⊗ uint32_t ⊗ int32_t)%member
    (fun m => msgVer (ShmMapRequest_base m) ,, opCode (ShmMapRequest_base m) ,,
               destRankId (ShmMapRequest_base m) ,, ShmMapRequest_regionName_ m ,, ShmMapRequest_name_ m ,,
               ShmMapRequest_size_ m ,, ShmMapRequest_mode_ m ,, ShmMapRequest_prot_ m)%member.
Qed.

(** ** [ShmUnmapRequest] *)

Record ShmUnmapRequest := mkShmUnmapRequest {
  ShmUnmapRequest_base : MsgBase;
  ShmUnmapRequest_regionName_ : string;
  ShmUnmapRequest_name_ : string;
}.

Definition ShmUnmapRequest_Serialize (m : ShmUnmapRequest) (packer : NetMsgPacker) : Z * NetMsgPacker :=
  let packer := Serialize int16_t (msgVer (ShmUnmapRequest_base m)) packer in
  let packer := Serialize int16_t (opCode (ShmUnmapRequest_base m)) packer in
  let packer := Serialize uint32_t (destRankId (ShmUnmapRequest_base m)) packer in
  let packer := Serialize string_t (ShmUnmapRequest_regionName_ m) packer in
  let packer := Serialize string_t (ShmUnmapRequest_name_ m) packer in
  (UBSM_OK, packer).

Definition ShmUnmapRequest_Deserialize (unpacker : NetMsgUnpacker) : Z * ShmUnmapRequest * NetMsgUnpacker :=
  let '(ver, unpacker) := Deserialize int16_t unpacker in
  let '(op, unpacker) := Deserialize int16_t unpacker in
  let '(dest, unpacker) := Deserialize uint32_t unpacker in
  let '(regionName_, unpacker) := Deserialize string_t unpacker in
  let '(name_, unpacker) := Deserialize string_t unpacker in
  (DeserializeResult unpacker, mkShmUnmapRequest (mkMsgBase ver op dest) regionName_ name_, unpacker).

Definition ShmUnmapRequest_t : Codec ShmUnmapRequest := message_t ShmUnmapRequest_Serialize ShmUnmapRequest_Deserialize.

Definition ShmUnmapRequest_ok (m : ShmUnmapRequest) : Prop :=
  fits_signed 2 (msgVer (ShmUnmapRequest_base m)) /\ fits_signed 2 (opCode (ShmUnmapRequest_base m)) /\
  fits_unsigned 4 (destRankId (ShmUnmapRequest_base m)) /\ string_ok (ShmUnmapRequest_regionName_ m) /\
  string_ok (ShmUnmapRequest_name_ m).

Lemma ShmUnmapRequest_lawful : Lawful ShmUnmapRequest_t ShmUnmapRequest_ok.
Proof.
  message_by_members ShmUnmapRequest_t ShmUnmapRequest_Deserialize
    (int16_t ⊗ int16_t ⊗ uint32_t ⊗ string_t ⊗ string_t)%member
    (fun m => msgVer (ShmUnmapRequest_base m) ,, opCode (ShmUnmapRequest_base m) ,,
               destRankId (ShmUnmapRequest_base m) ,, ShmUnmapRequest_regionName_ m ,,
               ShmUnmapRequest_name_ m)%member.
Qed.

(** ** [ShmQueryMemFaultStatusRequest] *)

Record ShmQueryMemFaultStatusRequest := mkShmQueryMemFaultStatusRequest {
  ShmQueryMemFaultStatusRequest_base : MsgBase;
  ShmQueryMemFaultStatusRequest_name_ : string;
}.

Definition ShmQueryMemFaultStatusRequest_Serialize (m : ShmQueryMemFaultStatusRequest) (packer : NetMsgPacker) : Z * NetMsgPacker :=
  let packer := Serialize int16_t (msgVer (ShmQueryMemFaultStatusRequest_base m)) packer in
  let packer := Serialize int16_t (opCode (ShmQueryMemFaultStatusRequest_base m)) packer in
  let packer := Serialize uint32_t (destRankId (ShmQueryMemFaultStatusRequest_base m)) packer in
  let packer := Serialize string_t (ShmQueryMemFaultStatusRequest_name_ m) packer in
  (UBSM_OK, packer).

Definition ShmQueryMemFaultStatusRequest_Deserialize (unpacker : NetMsgUnpacker) : Z * ShmQueryMemFaultStatusRequest * NetMsgUnpacker :=
  let '(ver, unpacker) := Deserialize int16_t unpacker in
  let '(op, unpacker) := Deserialize int16_t unpacker in
  let '(dest, unpacker) := Deserialize uint32_t unpacker in
  let '(name_, unpacker) := Deserialize string_t unpacker in
  (DeserializeResult unpacker, mkShmQueryMemFaultStatusRequest (mkMsgBase ver op dest) name_, unpacker).

Definition ShmQueryMemFaultStatusRequest_t : Codec ShmQueryMemFaultStatusRequest := message_t ShmQueryMemFaultStatusRequest_Serialize ShmQueryMemFaultStatusRequest_Deserialize.

Definition ShmQueryMemFaultStatusRequest_ok (m : ShmQueryMemFaultStatusRequest) : Prop :=
  fits_signed 2 (msgVer (ShmQueryMemFaultStatusRequest_base m)) /\
  fits_signed 2 (opCode (ShmQueryMemFaultStatusRequest_base m)) /\
  fits_unsigned 4 (destRankId (ShmQueryMemFaultStatusRequest_base m)) /\
  string_ok (ShmQueryMemFaultStatusRequest_name_ m).

Lemma ShmQueryMemFaultStatusRequest_lawful : Lawful ShmQueryMemFaultStatusRequest_t ShmQueryMemFaultStatusRequest_ok.
Proof.
  message_by_members ShmQueryMemFaultStatusRequest_t ShmQueryMemFaultStatusRequest_Deserialize
    (int16_t ⊗ int16_t ⊗ uint32_t ⊗ string_t)%member
    (fun m => msgVer (ShmQueryMemFaultStatusRequest_base m) ,, opCode (ShmQueryMemFaultStatusRequest_base m) ,,
               destRankId (ShmQueryMemFaultStatusRequest_base m) ,, ShmQueryMemFaultStatusRequest_name_ m)%member.
Qed.

(** ** [PingRequest] *)

Record PingRequest := mkPingRequest {
  PingRequest_base : MsgBase;
  PingRequest_nodeId_ : string;
}.

Definition PingRequest_Serialize (m : PingRequest) (packer : NetMsgPacker) : Z * NetMsgPacker :=
  let packer := Serialize int16_t (msgVer (PingRequest_base m)) packer in
  let packer := Serialize int16_t (opCode (PingRequest_base m)) packer in
  let packer := Serialize uint32_t (destRankId (PingRequest_base m)) packer in
  let packer := Serialize string_t (PingRequest_nodeId_ m) packer in
  (UBSM_OK, packer).

Definition PingRequest_Deserialize (unpacker : NetMsgUnpacker) : Z * PingRequest * NetMsgUnpacker :=
  let '(ver, unpacker) := Deserialize int16_t unpacker in
  let '(op, unpacker) := Deserialize int16_t unpacker in
  let '(dest, unpacker) := Deserialize uint32_t unpacker in
  let '(nodeId_, unpacker) := Deserialize string_t unpacker in
  (DeserializeResult unpacker, mkPingRequest (mkMsgBase ver op dest) nodeId_, unpacker).

Definition PingRequest_t : Codec PingRequest := message_t PingRequest_Serialize PingRequest_Deserialize.

Definition PingRequest_ok (m : PingRequest) : Prop :=
  fits_signed 2 (msgVer (PingRequest_base m)) /\ fits_signed 2 (opCode (PingRequest_base m)) /\
  fits_unsigned 4 (destRankId (PingRequest_base m)) /\ string_ok (PingRequest_nodeId_ m).

Lemma PingRequest_lawful : Lawful PingRequest_t PingRequest_ok.
Proof.
  message_by_members PingRequest_t PingRequest_Deserialize
    (int16_t ⊗ int16_t ⊗ uint32_t ⊗ string_t)%member
    (fun m => msgVer (PingRequest_base m) ,, opCode (PingRequest_base m) ,, destRankId (PingRequest_base m) ,,
               PingRequest_nodeId_ m)%member.
Qed.

(** ** [VoteRequest] *)

Record VoteRequest := mkVoteRequest {
  VoteRequest_base : MsgBase;
  VoteRequest_nodeId_ : string;
  VoteRequest_masterNode_ : string;
  VoteRequest_term_ : Z;
}.

Definition VoteRequest_Serialize (m : VoteRequest) (packer : NetMsgPacker) : Z * NetMsgPacker :=
  let packer := Serialize int16_t (msgVer (VoteRequest_base m)) packer in
  let packer := Serialize int16_t (opCode (VoteRequest_base m)) packer in
  let packer := Serialize uint32_t (destRankId (VoteRequest_base m)) packer in
  let packer := Serialize string_t (VoteRequest_nodeId_ m) packer in
  let packer := Serialize string_t (VoteRequest_masterNode_ m) packer in
  let packer := Serialize int32_t (VoteRequest_term_ m) packer in
  (UBSM_OK, packer).

Definition VoteRequest_Deserialize (unpacker : NetMsgUnpacker) : Z * VoteRequest * NetMsgUnpacker :=
  let '(ver, unpacker) := Deserialize int16_t unpacker in
  let '(op, unpacker) := Deserialize int16_t unpacker in
  let '(dest, unpacker) := Deserialize uint32_t unpacker in
  let '(nodeId_, unpacker) := Deserialize string_t unpacker in
  let '(masterNode_, unpacker) := Deserialize string_t unpacker in
  let '(term_, unpacker) := Deserialize int32_t unpacker in
  (DeserializeResult unpacker, mkVoteRequest (mkMsgBase ver op dest) nodeId_ masterNode_ term_, unpacker).

Definition VoteRequest_t : Codec VoteRequest := message_t VoteRequest_Serialize VoteRequest_Deserialize.

Definition VoteRequest_ok (m : VoteRequest) : Prop :=
  fits_signed 2 (msgVer (VoteRequest_base m)) /\ fits_signed 2 (opCode (VoteRequest_base m)) /\
  fits_unsigned 4 (destRankId (VoteRequest_base m)) /\ string_ok (VoteRequest_nodeId_ m) /\
  string_ok (VoteRequest_masterNode_ m) /\ fits_signed 4 (VoteRequest_term_ m).

Lemma VoteRequest_lawful : Lawful VoteRequest_t VoteRequest_ok.
Proof.
  message_by_members VoteRequest_t VoteRequest_Deserialize
    (int16_t ⊗ int16_t ⊗ uint32_t ⊗ string_t ⊗ string_t ⊗ int32_t)%member
    (fun m => msgVer (VoteRequest_base m) ,, opCode (VoteRequest_base m) ,, destRankId (VoteRequest_base m) ,,
               VoteRequest_nodeId_ m ,, VoteRequest_masterNode_ m ,, VoteRequest_term_ m)%member.
Qed.

(** ** [BroadcastRequest] *)

Record BroadcastRequest := mkBroadcastRequest {
  BroadcastRequest_base : MsgBase;
  BroadcastRequest_nodeId_ : string;
  BroadcastRequest_isSeverInited_ : bool;
  BroadcastRequest_nodes_ : list (string * ClusterNode);
}.

Definition BroadcastRequest_Serialize (m : BroadcastRequest) (packer : NetMsgPacker) : Z * NetMsgPacker :=
  let packer := Serialize int16_t (msgVer (BroadcastRequest_base m)) packer in
  let packer := Serialize int16_t (opCode (BroadcastRequest_base m)) packer in
  let packer := Serialize uint32_t (destRankId (BroadcastRequest_base m)) packer in
  let packer := Serialize string_t (BroadcastRequest_nodeId_ m) packer in
  let packer := Serialize (map_t ClusterNode_t) (BroadcastRequest_nodes_ m) packer in
  let packer := Serialize bool_t (BroadcastRequest_isSeverInited_ m) packer in
  (UBSM_OK, packer).

Definition BroadcastRequest_Deserialize (unpacker : NetMsgUnpacker) : Z * BroadcastRequest * NetMsgUnpacker :=
  let '(ver, unpacker) := Deserialize int16_t unpacker in
  let '(op, unpacker) := Deserialize int16_t unpacker in
  let '(dest, unpacker) := Deserialize uint32_t unpacker in
  let '(nodeId_, unpacker) := Deserialize string_t unpacker in
  let '(nodes_, unpacker) := Deserialize (map_t ClusterNode_t) unpacker in
  let '(isSeverInited_, unpacker) := Deserialize bool_t unpacker in
  (DeserializeResult unpacker, mkBroadcastRequest (mkMsgBase ver op dest) nodeId_ isSeverInited_ nodes_, unpacker).

Definition BroadcastRequest_t : Codec BroadcastRequest := message_t BroadcastRequest_Serialize BroadcastRequest_Deserialize.

Definition BroadcastRequest_ok (m : BroadcastRequest) : Prop :=
  fits_signed 2 (msgVer (BroadcastRequest_base m)) /\ fits_signed 2 (opCode (BroadcastRequest_base m)) /\
  fits_unsigned 4 (destRankId (BroadcastRequest_base m)) /\ string_ok (BroadcastRequest_nodeId_ m) /\
  map_ok node_ok (BroadcastRequest_nodes_ m) /\ True.

Lemma BroadcastRequest_lawful : Lawful BroadcastRequest_t BroadcastRequest_ok.
Proof.
  message_by_members BroadcastRequest_t BroadcastRequest_Deserialize
    (int16_t ⊗ int16_t ⊗ uint32_t ⊗ string_t ⊗ (map_t ClusterNode_t) ⊗ bool_t)%member
    (fun m => msgVer (BroadcastRequest_base m) ,, opCode (BroadcastRequest_base m) ,,
               destRankId (BroadcastRequest_base m) ,, BroadcastRequest_nodeId_ m ,, BroadcastRequest_nodes_ m ,,
               BroadcastRequest_isSeverInited_ m)%member.
Qed.

(** ** [TransElectedRequest] *)

Record TransElectedRequest := mkTransElectedRequest {
  TransElectedRequest_base : MsgBase;
  TransElectedRequest_nodeId_ : string;
  TransElectedRequest_nodes_ : list string;
  TransElectedRequest_term_ : Z;
}.

Definition TransElectedRequest_Serialize (m : TransElectedRequest) (packer : NetMsgPacker) : Z * NetMsgPacker :=
  let packer := Serialize int16_t (msgVer (TransElectedRequest_base m)) packer in
  let packer := Serialize int16_t (opCode (TransElectedRequest_base m)) packer in
  let packer := Serialize uint32_t (destRankId (TransElectedRequest_base m)) packer in
  let packer := Serialize string_t (TransElectedRequest_nodeId_ m) packer in
  let packer := Serialize (vector_t string_t) (TransElectedRequest_nodes_ m) packer in
  let packer := Serialize int32_t (TransElectedRequest_term_ m) packer in
  (UBSM_OK, packer).

Definition TransElectedRequest_Deserialize (unpacker : NetMsgUnpacker) : Z * TransElectedRequest * NetMsgUnpacker :=
  let '(ver, unpacker) := Deserialize int16_t unpacker in
  let '(op, unpacker) := Deserialize int16_t unpacker in
  let '(dest, unpacker) := Deserialize uint32_t unpacker in
  let '(nodeId_, unpacker) := Deserialize string_t unpacker in
  let '(nodes_, unpacker) := Deserialize (vector_t string_t) unpacker in
  let '(term_, unpacker) := Deserialize int32_t unpacker in
  (DeserializeResult unpacker, mkTransElectedRequest (mkMsgBase ver op dest) nodeId_ nodes_ term_, unpacker).

Definition TransElectedRequest_t : Codec TransElectedRequest := message_t TransElectedRequest_Serialize TransElectedRequest_Deserialize.

Definition TransElectedRequest_ok (m : TransElectedRequest) : Prop :=
  fits_signed 2 (msgVer (TransElectedRequest_base m)) /\ fits_signed 2 (opCode (TransElectedRequest_base m)) /\
  fits_unsigned 4 (destRankId (TransElectedRequest_base m)) /\ string_ok (TransElectedRequest_nodeId_ m) /\
  vector_ok string_ok (TransElectedRequest_nodes_ m) /\ fits_signed 4 (TransElectedRequest_term_ m).

Lemma TransElectedRequest_lawful : Lawful TransElectedRequest_t TransElectedRequest_ok.
Proof.
  message_by_members TransElectedRequest_t TransElectedRequest_Deserialize
    (int16_t ⊗ int16_t ⊗ uint32_t ⊗ string_t ⊗ (vector_t string_t) ⊗ int32_t)%member
    (fun m => msgVer (TransElectedRequest_base m) ,, opCode (TransElectedRequest_base m) ,,
               destRankId (TransElectedRequest_base m) ,, TransElectedRequest_nodeId_ m ,,
               TransElectedRequest_nodes_ m ,, TransElectedRequest_term_ m)%member.
Qed.

(** ** [ShmWriteLockRequest] *)

Record ShmWriteLockRequest := mkShmWriteLockRequest {
  ShmWriteLockRequest_base : MsgBase;
  ShmWriteLockRequest_regionName_ : string;
  ShmWriteLockRequest_name_ : string;
}.

Definition ShmWriteLockRequest_Serialize (m : ShmWriteLockRequest) (packer : NetMsgPacker) : Z * NetMsgPacker :=
  let packer := Serialize int16_t (msgVer (ShmWriteLockRequest_base m)) packer in
  let packer := Serialize int16_t (opCode (ShmWriteLockRequest_base m)) packer in
  let packer := Serialize uint32_t (destRankId (ShmWriteLockRequest_base m)) packer in
  let packer := Serialize string_t (ShmWriteLockRequest_regionName_ m) packer in
  let packer := Serialize string_t (ShmWriteLockRequest_name_ m) packer in
  (UBSM_OK, packer).

Definition ShmWriteLockRequest_Deserialize (unpacker : NetMsgUnpacker) : Z * ShmWriteLockRequest * NetMsgUnpacker :=
  let '(ver, unpacker) := Deserialize int16_t unpacker in
  let '(op, unpacker) := Deserialize int16_t unpacker in
  let '(dest, unpacker) := Deserialize uint32_t unpacker in
  let '(regionName_, unpacker) := Deserialize string_t unpacker in
  let '(name_, unpacker) := Deserialize string_t unpacker in
  (DeserializeResult unpacker, mkShmWriteLockRequest (mkMsgBase ver op dest) regionName_ name_, unpacker).

Definition ShmWriteLockRequest_t : Codec ShmWriteLockRequest := message_t ShmWriteLockRequest_Serialize ShmWriteLockRequest_Deserialize.

Definition ShmWriteLockRequest_ok (m : ShmWriteLockRequest) : Prop :=
  fits_signed 2 (msgVer (ShmWriteLockRequest_base m)) /\ fits_signed 2 (opCode (ShmWriteLockRequest_base m)) /\
  fits_unsigned 4 (destRankId (ShmWriteLockRequest_base m)) /\ string_ok (ShmWriteLockRequest_regionName_ m) /\
  string_ok (ShmWriteLockRequest_name_ m).

Lemma ShmWriteLockRequest_lawful : Lawful ShmWriteLockRequest_t ShmWriteLockRequest_ok.
Proof.
  message_by_members ShmWriteLockRequest_t ShmWriteLockRequest_Deserialize
    (int16_t ⊗ int16_t ⊗ uint32_t ⊗ string_t ⊗ string_t)%member
    (fun m => msgVer (ShmWriteLockRequest_base m) ,, opCode (ShmWriteLockRequest_base m) ,,
               destRankId (ShmWriteLockRequest_base m) ,, ShmWriteLockRequest_regionName_ m ,,
               ShmWriteLockRequest_name_ m)%member.
Qed.

(** ** [ShmReadLockRequest] *)

Record ShmReadLockRequest := mkShmReadLockRequest {
  ShmReadLockRequest_base : MsgBase;
  ShmReadLockRequest_regionName_ : string;
  ShmReadLockRequest_name_ : string;
}.

Definition ShmReadLockRequest_Serialize (m : ShmReadLockRequest) (packer : NetMsgPacker) : Z * NetMsgPacker :=
  let packer := Serialize int16_t (msgVer (ShmReadLockRequest_base m)) packer in
  let packer := Serialize int16_t (opCode (ShmReadLockRequest_base m)) packer in
  let packer := Serialize uint32_t (destRankId (ShmReadLockRequest_base m)) packer in
  let packer := Serialize string_t (ShmReadLockRequest_regionName_ m) packer in
  let packer := Serialize string_t (ShmReadLockRequest_name_ m) packer in
  (UBSM_OK, packer).

Definition ShmReadLockRequest_Deserialize (unpacker : NetMsgUnpacker) : Z * ShmReadLockRequest * NetMsgUnpacker :=
  let '(ver, unpacker) := Deserialize int16_t unpacker in
  let '(op, unpacker) := Deserialize int16_t unpacker in
  let '(dest, unpacker) := Deserialize uint32_t unpacker in
  let '(regionName_, unpacker) := Deserialize string_t unpacker in
  let '(name_, unpacker) := Deserialize string_t unpacker in
  (DeserializeResult unpacker, mkShmReadLockRequest (mkMsgBase ver op dest) regionName_ name_, unpacker).

Definition ShmReadLockRequest_t : Codec ShmReadLockRequest := message_t ShmReadLockRequest_Serialize ShmReadLockRequest_Deserialize.

Definition ShmReadLockRequest_ok (m : ShmReadLockRequest) : Prop :=
  fits_signed 2 (msgVer (ShmReadLockRequest_base m)) /\ fits_signed 2 (opCode (ShmReadLockRequest_base m)) /\
  fits_unsigned 4 (destRankId (ShmReadLockRequest_base m)) /\ string_ok (ShmReadLockRequest_regionName_ m) /\
  string_ok (ShmReadLockRequest_name_ m).

Lemma ShmReadLockRequest_lawful : Lawful ShmReadLockRequest_t ShmReadLockRequest_ok.
Proof.
  message_by_members ShmReadLockRequest_t ShmReadLockRequest_Deserialize
    (int16_t ⊗ int16_t ⊗ uint32_t ⊗ string_t ⊗ string_t)%member
    (fun m => msgVer (ShmReadLockRequest_base m) ,, opCode (ShmReadLockRequest_base m) ,,
               destRankId (ShmReadLockRequest_base m) ,, ShmReadLockRequest_regionName_ m ,,
               ShmReadLockRequest_name_ m)%member.
Qed.

(** ** [ShmUnLockRequest] *)

Record ShmUnLockRequest := mkShmUnLockRequest {
  ShmUnLockRequest_base : MsgBase;
  ShmUnLockRequest_regionName_ : string;
  ShmUnLockRequest_name_ : string;
}.

Definition ShmUnLockRequest_Serialize (m : ShmUnLockRequest) (packer : NetMsgPacker) : Z * NetMsgPacker :=
  let packer := Serialize int16_t (msgVer (ShmUnLockRequest_base m)) packer in
  let packer := Serialize int16_t (opCode (ShmUnLockRequest_base m)) packer in
  let packer := Serialize uint32_t (destRankId (ShmUnLockRequest_base m)) packer in
  let packer := Serialize string_t (ShmUnLockRequest_regionName_ m) packer in
  let packer := Serialize string_t (ShmUnLockRequest_name_ m) packer in
  (UBSM_OK, packer).

Definition ShmUnLockRequest_Deserialize (unpacker : NetMsgUnpacker) : Z * ShmUnLockRequest * NetMsgUnpacker :=
  let '(ver, unpacker) := Deserialize int16_t unpacker in
  let '(op, unpacker) := Deserialize int16_t unpacker in
  let '(dest, unpacker) := Deserialize uint32_t unpacker in
  let '(regionName_, unpacker) := Deserialize string_t unpacker in
  let '(name_, unpacker) := Deserialize string_t unpacker in
  (DeserializeResult unpacker, mkShmUnLockRequest (mkMsgBase ver op dest) regionName_ name_, unpacker).

Definition ShmUnLockRequest_t : Codec ShmUnLockRequest := message_t ShmUnLockRequest_Serialize ShmUnLockRequest_Deserialize.

Definition ShmUnLockRequest_ok (m : ShmUnLockRequest) : Prop :=
  fits_signed 2 (msgVer (ShmUnLockRequest_base m)) /\ fits_signed 2 (opCode (ShmUnLockRequest_base m)) /\
  fits_unsigned 4 (destRankId (ShmUnLockRequest_base m)) /\ string_ok (ShmUnLockRequest_regionName_ m) /\
  string_ok (ShmUnLockRequest_name_ m).

Lemma ShmUnLockRequest_lawful : Lawful ShmUnLockRequest_t ShmUnLockRequest_ok.
Proof.
  message_by_members ShmUnLockRequest_t ShmUnLockRequest_Deserialize
    (int16_t ⊗ int16_t ⊗ uint32_t ⊗ string_t ⊗ string_t)%member
    (fun m => msgVer (ShmUnLockRequest_base m) ,, opCode (ShmUnLockRequest_base m) ,,
               destRankId (ShmUnLockRequest_base m) ,, ShmUnLockRequest_regionName_ m ,,
               ShmUnLockRequest_name_ m)%member.
Qed.

(** ** [DLockClientReinitRequest] *)

Record DLockClientReinitRequest := mkDLockClientReinitRequest {
  DLockClientReinitRequest_base : MsgBase;
  DLockClientReinitRequest_serverIp_ : string;
}.

Definition DLockClientReinitRequest_Serialize (m : DLockClientReinitRequest) (packer : NetMsgPacker) : Z * NetMsgPacker :=
  let packer := Serialize int16_t (msgVer (DLockClientReinitRequest_base m)) packer in
  let packer := Serialize int16_t (opCode (DLockClientReinitRequest_base m)) packer in
  let packer := Serialize uint32_t (destRankId (DLockClientReinitRequest_base m)) packer in
  let packer := Serialize string_t (DLockClientReinitRequest_serverIp_ m) packer in
  (UBSM_OK, packer).

Definition DLockClientReinitRequest_Deserialize (unpacker : NetMsgUnpacker) : Z * DLockClientReinitRequest * NetMsgUnpacker :=
  let '(ver, unpacker) := Deserialize int16_t unpacker in
  let '(op, unpacker) := Deserialize int16_t unpacker in
  let '(dest, unpacker) := Deserialize uint32_t unpacker in
  let '(serverIp_, unpacker) := Deserialize string_t unpacker in
  (DeserializeResult unpacker, mkDLockClientReinitRequest (mkMsgBase ver op dest) serverIp_, unpacker).

Definition DLockClientReinitRequest_t : Codec DLockClientReinitRequest := message_t DLockClientReinitRequest_Serialize DLockClientReinitRequest_Deserialize.

Definition DLockClientReinitRequest_ok (m : DLockClientReinitRequest) : Prop :=
  fits_signed 2 (msgVer (DLockClientReinitRequest_base m)) /\
  fits_signed 2 (opCode (DLockClientReinitRequest_base m)) /\
  fits_unsigned 4 (destRankId (DLockClientReinitRequest_base m)) /\
  string_ok (DLockClientReinitRequest_serverIp_ m).

Lemma DLockClientReinitRequest_lawful : Lawful DLockClientReinitRequest_t DLockClientReinitRequest_ok.
Proof.
  message_by_members DLockClientReinitRequest_t DLockClientReinitRequest_Deserialize
    (int16_t ⊗ int16_t ⊗ uint32_t ⊗ string_t)%member
    (fun m => msgVer (DLockClientReinitRequest_base m) ,, opCode (DLockClientReinitRequest_base m) ,,
               destRankId (DLockClientReinitRequest_base m) ,, DLockClientReinitRequest_serverIp_ m)%member.
Qed.

(** ** [LockRequest] *)

Record LockRequest := mkLockRequest {
  LockRequest_base : MsgBase;
  LockRequest_memName_ : string;
  LockRequest_isExclusive_ : bool;
  LockRequest_pid_ : Z;
  LockRequest_uid_ : Z;
  LockRequest_gid_ : Z;
}.

Definition LockRequest_Serialize (m : LockRequest) (packer : NetMsgPacker) : Z * NetMsgPacker :=
  let packer := Serialize int16_t (msgVer (LockRequest_base m)) packer in
  let packer := Serialize int16_t (opCode (LockRequest_base m)) packer in
  let packer := Serialize uint32_t (destRankId (LockRequest_base m)) packer in
  let packer := Serialize string_t (LockRequest_memName_ m) packer in
  let packer := Serialize bool_t (LockRequest_isExclusive_ m) packer in
  let packer := Serialize uint32_t (LockRequest_pid_ m) packer in
  let packer := Serialize uint32_t (LockRequest_uid_ m) packer in
  let packer := Serialize uint32_t (LockRequest_gid_ m) packer in
  (UBSM_OK, packer).

Definition LockRequest_Deserialize (unpacker : NetMsgUnpacker) : Z * LockRequest * NetMsgUnpacker :=
  let '(ver, unpacker) := Deserialize int16_t unpacker in
  let '(op, unpacker) := Deserialize int16_t unpacker in
  let '(dest, unpacker) := Deserialize uint32_t unpacker in
  let '(memName_, unpacker) := Deserialize string_t unpacker in
  let '(isExclusive_, unpacker) := Deserialize bool_t unpacker in
  let '(pid_, unpacker) := Deserialize uint32_t unpacker in
  let '(uid_, unpacker) := Deserialize uint32_t unpacker in
  let '(gid_, unpacker) := Deserialize uint32_t unpacker in
  (DeserializeResult unpacker, mkLockRequest (mkMsgBase ver op dest) memName_ isExclusive_ pid_ uid_ gid_, unpacker).

Definition LockRequest_t : Codec LockRequest := message_t LockRequest_Serialize LockRequest_Deserialize.

Definition LockRequest_ok (m : LockRequest) : Prop :=
  fits_signed 2 (msgVer (LockRequest_base m)) /\ fits_signed 2 (opCode (LockRequest_base m)) /\
  fits_unsigned 4 (destRankId (LockRequest_base m)) /\ string_ok (LockRequest_memName_ m) /\ True /\
  fits_unsigned 4 (LockRequest_pid_ m) /\ fits_unsigned 4 (LockRequest_uid_ m) /\
  fits_unsigned 4 (LockRequest_gid_ m).

Lemma LockRequest_lawful : Lawful LockRequest_t LockRequest_ok.
Proof.
  message_by_members LockRequest_t LockRequest_Deserialize
    (int16_t ⊗ int16_t ⊗ uint32_t ⊗ string_t ⊗ bool_t ⊗ uint32_t ⊗ uint32_t ⊗ uint32_t)%member
    (fun m => msgVer (LockRequest_base m) ,, opCode (LockRequest_base m) ,, destRankId (LockRequest_base m) ,,
               LockRequest_memName_ m ,, LockRequest_isExclusive_ m ,, LockRequest_pid_ m ,, LockRequest_uid_ m ,,
               LockRequest_gid_ m)%member.
Qed.

(** ** [UnLockRequest] *)

Record UnLockRequest := mkUnLockRequest {
  UnLockRequest_base : MsgBase;
  UnLockRequest_memName_ : string;
  UnLockRequest_pid_ : Z;
  UnLockRequest_uid_ : Z;
  UnLockRequest_gid_ : Z;
}.

Definition UnLockRequest_Serialize (m : UnLockRequest) (packer : NetMsgPacker) : Z * NetMsgPacker :=
  let packer := Serialize int16_t (msgVer (UnLockRequest_base m)) packer in
  let packer := Serialize int16_t (opCode (UnLockRequest_base m)) packer in
  let packer := Serialize uint32_t (destRankId (UnLockRequest_base m)) packer in
  let packer := Serialize string_t (UnLockRequest_memName_ m) packer in
  let packer := Serialize uint32_t (UnLockRequest_pid_ m) packer in
  let packer := Serialize uint32_t (UnLockRequest_uid_ m) packer in
  let packer := Serialize uint32_t (UnLockRequest_gid_ m) packer in
  (UBSM_OK, packer).

Definition UnLockRequest_Deserialize (unpacker : NetMsgUnpacker) : Z * UnLockRequest * NetMsgUnpacker :=
  let '(ver, unpacker) := Deserialize int16_t unpacker in
  let '(op, unpacker) := Deserialize int16_t unpacker in
  let '(dest, unpacker) := Deserialize uint32_t unpacker in
  let '(memName_, unpacker) := Deserialize string_t unpacker in
  let '(pid_, unpacker) := Deserialize uint32_t unpacker in
  let '(uid_, unpacker) := Deserialize uint32_t unpacker in
  let '(gid_, unpacker) := Deserialize uint32_t unpacker in
  (DeserializeResult unpacker, mkUnLockRequest (mkMsgBase ver op dest) memName_ pid_ uid_ gid_, unpacker).

Definition UnLockRequest_t : Codec UnLockRequest := message_t UnLockRequest_Serialize UnLockRequest_Deserialize.

Definition UnLockRequest_ok (m : UnLockRequest) : Prop :=
  fits_signed 2 (msgVer (UnLockRequest_base m)) /\ fits_signed 2 (opCode (UnLockRequest_base m)) /\
  fits_unsigned 4 (destRankId (UnLockRequest_base m)) /\ string_ok (UnLockRequest_memName_ m) /\
  fits_unsigned 4 (UnLockRequest_pid_ m) /\ fits_unsigned 4 (UnLockRequest_uid_ m) /\
  fits_unsigned 4 (UnLockRequest_gid_ m).

Lemma UnLockRequest_lawful : Lawful UnLockRequest_t UnLockRequest_ok.
Proof.
  message_by_members UnLockRequest_t UnLockRequest_Deserialize
    (int16_t ⊗ int16_t ⊗ uint32_t ⊗ string_t ⊗ uint32_t ⊗ uint32_t ⊗ uint32_t)%member
    (fun m => msgVer (UnLockRequest_base m) ,, opCode (UnLockRequest_base m) ,,
               destRankId (UnLockRequest_base m) ,, UnLockRequest_memName_ m ,, UnLockRequest_pid_ m ,,
               UnLockRequest_uid_ m ,, UnLockRequest_gid_ m)%member.
Qed.

(** ** [ShmAttachRequest] *)

Record ShmAttachRequest := mkShmAttachRequest {
  ShmAttachRequest_base : MsgBase;
  ShmAttachRequest_regionName_ : string;
  ShmAttachRequest_name_ : string;
}.

Definition ShmAttachRequest_Serialize (m : ShmAttachRequest) (packer : NetMsgPacker) : Z * NetMsgPacker :=
  let packer := Serialize int16_t (msgVer (ShmAttachRequest_base m)) packer in
  let packer := Serialize int16_t (opCode (ShmAttachRequest_base m)) packer in
  let packer := Serialize uint32_t (destRankId (ShmAttachRequest_base m)) packer in
  let packer := Serialize string_t (ShmAttachRequest_regionName_ m) packer in
  let packer := Serialize string_t (ShmAttachRequest_name_ m) packer in
  (UBSM_OK, packer).

Definition ShmAttachRequest_Deserialize (unpacker : NetMsgUnpacker) : Z * ShmAttachRequest * NetMsgUnpacker :=
  let '(ver, unpacker) := Deserialize int16_t unpacker in
  let '(op, unpacker) := Deserialize int16_t unpacker in
  let '(dest, unpacker) := Deserialize uint32_t unpacker in
  let '(regionName_, unpacker) := Deserialize string_t unpacker in
  let '(name_, unpacker) := Deserialize string_t unpacker in
  (DeserializeResult unpacker, mkShmAttachRequest (mkMsgBase ver op dest) regionName_ name_, unpacker).

Definition ShmAttachRequest_t : Codec ShmAttachRequest := message_t ShmAttachRequest_Serialize ShmAttachRequest_Deserialize.

Definition ShmAttachRequest_ok (m : ShmAttachRequest) : Prop :=
  fits_signed 2 (msgVer (ShmAttachRequest_base m)) /\ fits_signed 2 (opCode (ShmAttachRequest_base m)) /\
  fits_unsigned 4 (destRankId (ShmAttachRequest_base m)) /\ string_ok (ShmAttachRequest_regionName_ m) /\
  string_ok (ShmAttachRequest_name_ m).

Lemma ShmAttachRequest_lawful : Lawful ShmAttachRequest_t ShmAttachRequest_ok.
Proof.
  message_by_members ShmAttachRequest_t ShmAttachRequest_Deserialize
    (int16_t ⊗ int16_t ⊗ uint32_t ⊗ string_t ⊗ string_t)%member
    (fun m => msgVer (ShmAttachRequest_base m) ,, opCode (ShmAttachRequest_base m) ,,
               destRankId (ShmAttachRequest_base m) ,, ShmAttachRequest_regionName_ m ,,
               ShmAttachRequest_name_ m)%member.
Qed.

(** ** [ShmDetachRequest] *)

Record ShmDetachRequest := mkShmDetachRequest {
  ShmDetachRequest_base : MsgBase;
  ShmDetachRequest_regionName_ : string;
  ShmDetachRequest_name_ : string;
}.

Definition ShmDetachRequest_Serialize (m : ShmDetachRequest) (packer : NetMsgPacker) : Z * NetMsgPacker :=
  let packer := Serialize int16_t (msgVer (ShmDetachRequest_base m)) packer in
  let packer := Serialize int16_t (opCode (ShmDetachRequest_base m)) packer in
  let packer := Serialize uint32_t (destRankId (ShmDetachRequest_base m)) packer in
  let packer := Serialize string_t (ShmDetachRequest_regionName_ m) packer in
  let packer := Serialize string_t (ShmDetachRequest_name_ m) packer in
  (UBSM_OK, packer).

Definition ShmDetachRequest_Deserialize (unpacker : NetMsgUnpacker) : Z * ShmDetachRequest * NetMsgUnpacker :=
  let '(ver, unpacker) := Deserialize int16_t unpacker in
  let '(op, unpacker) := Deserialize int16_t unpacker in
  let '(dest, unpacker) := Deserialize uint32_t unpacker in
  let '(regionName_, unpacker) := Deserialize string_t unpacker in
  let '(name_, unpacker) := Deserialize string_t unpacker in
  (DeserializeResult unpacker, mkShmDetachRequest (mkMsgBase ver op dest) regionName_ name_, unpacker).

Definition ShmDetachRequest_t : Codec ShmDetachRequest := message_t ShmDetachRequest_Serialize ShmDetachRequest_Deserialize.

Definition ShmDetachRequest_ok (m : ShmDetachRequest) : Prop :=
  fits_signed 2 (msgVer (ShmDetachRequest_base m)) /\ fits_signed 2 (opCode (ShmDetachRequest_base m)) /\
  fits_unsigned 4 (destRankId (ShmDetachRequest_base m)) /\ string_ok (ShmDetachRequest_regionName_ m) /\
  string_ok (ShmDetachRequest_name_ m).

Lemma ShmDetachRequest_lawful : Lawful ShmDetachRequest_t ShmDetachRequest_ok.
Proof.
  message_by_members ShmDetachRequest_t ShmDetachRequest_Deserialize
    (int16_t ⊗ int16_t ⊗ uint32_t ⊗ string_t ⊗ string_t)%member
    (fun m => msgVer (ShmDetachRequest_base m) ,, opCode (ShmDetachRequest_base m) ,,
               destRankId (ShmDetachRequest_base m) ,, ShmDetachRequest_regionName_ m ,,
               ShmDetachRequest_name_ m)%member.
Qed.

(** ** [ShmLookupRequest] *)

Record ShmLookupRequest := mkShmLookupRequest {
  ShmLookupRequest_base : MsgBase;
  ShmLookupRequest_regionName_ : string;
  ShmLookupRequest_name_ : string;
}.

Definition ShmLookupRequest_Serialize (m : ShmLookupRequest) (packer : NetMsgPacker) : Z * NetMsgPacker :=
  let packer := Serialize int16_t (msgVer (ShmLookupRequest_base m)) packer in
  let packer := Serialize int16_t (opCode (ShmLookupRequest_base m)) packer in
  let packer := Serialize uint32_t (destRankId (ShmLookupRequest_base m)) packer in
  let packer := Serialize string_t (ShmLookupRequest_regionName_ m) packer in
  let packer := Serialize string_t (ShmLookupRequest_name_ m) packer in
  (UBSM_OK, packer).

Definition ShmLookupRequest_Deserialize (unpacker : NetMsgUnpacker) : Z * ShmLookupRequest * NetMsgUnpacker :=
  let '(ver, unpacker) := Deserialize int16_t unpacker in
  let '(op, unpacker) := Deserialize int16_t unpacker in
  let '(dest, unpacker) := Deserialize uint32_t unpacker in
  let '(regionName_, unpacker) := Deserialize string_t unpacker in
  let '(name_, unpacker) := Deserialize string_t unpacker in
  (DeserializeResult unpacker, mkShmLookupRequest (mkMsgBase ver op dest) regionName_ name_, unpacker).

Definition ShmLookupRequest_t : Codec ShmLookupRequest := message_t ShmLookupRequest_Serialize ShmLookupRequest_Deserialize.

Definition ShmLookupRequest_ok (m : ShmLookupRequest) : Prop :=
  fits_signed 2 (msgVer (ShmLookupRequest_base m)) /\ fits_signed 2 (opCode (ShmLookupRequest_base m)) /\
  fits_unsigned 4 (destRankId (ShmLookupRequest_base m)) /\ string_ok (ShmLookupRequest_regionName_ m) /\
  string_ok (ShmLookupRequest_name_ m).

Lemma ShmLookupRequest_lawful : Lawful ShmLookupRequest_t ShmLookupRequest_ok.
Proof.
  message_by_members ShmLookupRequest_t ShmLookupRequest_Deserialize
    (int16_t ⊗ int16_t ⊗ uint32_t ⊗ string_t ⊗ string_t)%member
    (fun m => msgVer (ShmLookupRequest_base m) ,, opCode (ShmLookupRequest_base m) ,,
               destRankId (ShmLookupRequest_base m) ,, ShmLookupRequest_regionName_ m ,,
               ShmLookupRequest_name_ m)%member.
Qed.

(** ** [QueryNodeRequest] *)

Record QueryNodeRequest := mkQueryNodeRequest {
  QueryNodeRequest_base : MsgBase;
  QueryNodeRequest_queryMasterNodeFlag_ : bool;
}.

Definition QueryNodeRequest_Serialize (m : QueryNodeRequest) (packer : NetMsgPacker) : Z * NetMsgPacker :=
  let packer := Serialize int16_t (msgVer (QueryNodeRequest_base m)) packer in
  let packer := Serialize int16_t (opCode (QueryNodeRequest_base m)) packer in
  let packer := Serialize uint32_t (destRankId (QueryNodeRequest_base m)) packer in
  let packer := Serialize bool_t (QueryNodeRequest_queryMasterNodeFlag_ m) packer in
  (UBSM_OK, packer).

Definition QueryNodeRequest_Deserialize (unpacker : NetMsgUnpacker) : Z * QueryNodeRequest * NetMsgUnpacker :=
  let '(ver, unpacker) := Deserialize int16_t unpacker in
  let '(op, unpacker) := Deserialize int16_t unpacker in
  let '(dest, unpacker) := Deserialize uint32_t unpacker in
  let '(queryMasterNodeFlag_, unpacker) := Deserialize bool_t unpacker in
  (DeserializeResult unpacker, mkQueryNodeRequest (mkMsgBase ver op dest) queryMasterNodeFlag_, unpacker).

Definition QueryNodeRequest_t : Codec QueryNodeRequest := message_t QueryNodeRequest_Serialize QueryNodeRequest_Deserialize.

Definition QueryNodeRequest_ok (m : QueryNodeRequest) : Prop :=
  fits_signed 2 (msgVer (QueryNodeRequest_base m)) /\ fits_signed 2 (opCode (QueryNodeRequest_base m)) /\
  fits_unsigned 4 (destRankId (QueryNodeRequest_base m)) /\ True.

Lemma QueryNodeRequest_lawful : Lawful QueryNodeRequest_t QueryNodeRequest_ok.
Proof.
  message_by_members QueryNodeRequest_t QueryNodeRequest_Deserialize
    (int16_t ⊗ int16_t ⊗ uint32_t ⊗ bool_t)%member
    (fun m => msgVer (QueryNodeRequest_base m) ,, opCode (QueryNodeRequest_base m) ,,
               destRankId (QueryNodeRequest_base m) ,, QueryNodeRequest_queryMasterNodeFlag_ m)%member.
Qed.

(** ** [ShmListLookupRequest] *)

Record ShmListLookupRequest := mkShmListLookupRequest {
  ShmListLookupRequest_base : MsgBase;
  ShmListLookupRequest_regionName_ : string;
  ShmListLookupRequest_prefix_ : string;
}.

Definition ShmListLookupRequest_Serialize (m : ShmListLookupRequest) (packer : NetMsgPacker) : Z * NetMsgPacker :=
  let packer := Serialize int16_t (msgVer (ShmListLookupRequest_base m)) packer in
  let packer := Serialize int16_t (opCode (ShmListLookupRequest_base m)) packer in
  let packer := Serialize uint32_t (destRankId (ShmListLookupRequest_base m)) packer in
  let packer := Serialize string_t (ShmListLookupRequest_regionName_ m) packer in
  let packer := Serialize string_t (ShmListLookupRequest_prefix_ m) packer in
  (UBSM_OK, packer).

Definition ShmListLookupRequest_Deserialize (unpacker : NetMsgUnpacker) : Z * ShmListLookupRequest * NetMsgUnpacker :=
  let '(ver, unpacker) := Deserialize int16_t unpacker in
  let '(op, unpacker) := Deserialize int16_t unpacker in
  let '(dest, unpacker) := Deserialize uint32_t unpacker in
  let '(regionName_, unpacker) := Deserialize string_t unpacker in
  let '(prefix_, unpacker) := Deserialize string_t unpacker in
  (DeserializeResult unpacker, mkShmListLookupRequest (mkMsgBase ver op dest) regionName_ prefix_, unpacker).

Definition ShmListLookupRequest_t : Codec ShmListLookupRequest := message_t ShmListLookupRequest_Serialize ShmListLookupRequest_Deserialize.

Definition ShmListLookupRequest_ok (m : ShmListLookupRequest) : Prop :=
  fits_signed 2 (msgVer (ShmListLookupRequest_base m)) /\ fits_signed 2 (opCode (ShmListLookupRequest_base m)) /\
  fits_unsigned 4 (destRankId (ShmListLookupRequest_base m)) /\ string_ok (ShmListLookupRequest_regionName_ m) /\
  string_ok (ShmListLookupRequest_prefix_ m).

Lemma ShmListLookupRequest_lawful : Lawful ShmListLookupRequest_t ShmListLookupRequest_ok.
Proof.
  message_by_members ShmListLookupRequest_t ShmListLookupRequest_Deserialize
    (int16_t ⊗ int16_t ⊗ uint32_t ⊗ string_t ⊗ string_t)%member
    (fun m => msgVer (ShmListLookupRequest_base m) ,, opCode (ShmListLookupRequest_base m) ,,
               destRankId (ShmListLookupRequest_base m) ,, ShmListLookupRequest_regionName_ m ,,
               ShmListLookupRequest_prefix_ m)%member.
Qed.

(** ** [IpcSuspendRequest] *)

Record IpcSuspendRequest := mkIpcSuspendRequest {
  IpcSuspendRequest_base : MsgBase;
}.

Definition IpcSuspendRequest_Serialize (m : IpcSuspendRequest) (packer : NetMsgPacker) : Z * NetMsgPacker :=
  let packer := Serialize int16_t (msgVer (IpcSuspendRequest_base m)) packer in
  let packer := Serialize int16_t (opCode (IpcSuspendRequest_base m)) packer in
  let packer := Serialize uint32_t (destRankId (IpcSuspendRequest_base m)) packer in
  (UBSM_OK, packer).

Definition IpcSuspendRequest_Deserialize (unpacker : NetMsgUnpacker) : Z * IpcSuspendRequest * NetMsgUnpacker :=
  let '(ver, unpacker) := Deserialize int16_t unpacker in
  let '(op, unpacker) := Deserialize int16_t unpacker in
  let '(dest, unpacker) := Deserialize uint32_t unpacker in
  (DeserializeResult unpacker, mkIpcSuspendRequest (mkMsgBase ver op dest), unpacker).

Definition IpcSuspendRequest_t : Codec IpcSuspendRequest := message_t IpcSuspendRequest_Serialize IpcSuspendRequest_Deserialize.

Definition IpcSuspendRequest_ok (m : IpcSuspendRequest) : Prop :=
  fits_signed 2 (msgVer (IpcSuspendRequest_base m)) /\ fits_signed 2 (opCode (IpcSuspendRequest_base m)) /\
  fits_unsigned 4 (destRankId (IpcSuspendRequest_base m)).

Lemma IpcSuspendRequest_lawful : Lawful IpcSuspendRequest_t IpcSuspendRequest_ok.
Proof.
  message_by_members IpcSuspendRequest_t IpcSuspendRequest_Deserialize
    (int16_t ⊗ int16_t ⊗ uint32_t)%member
    (fun m => msgVer (IpcSuspendRequest_base m) ,, opCode (IpcSuspendRequest_base m) ,,
               destRankId (IpcSuspendRequest_base m))%member.
Qed.

(** ** [IpcResumeRequest] *)

Record IpcResumeRequest := mkIpcResumeRequest {
  IpcResumeRequest_base : MsgBase;
}.

Definition IpcResumeRequest_Serialize (m : IpcResumeRequest) (packer : NetMsgPacker) : Z * NetMsgPacker :=
  let packer := Serialize int16_t (msgVer (IpcResumeRequest_base m)) packer in
  let packer := Serialize int16_t (opCode (IpcResumeRequest_base m)) packer in
  let packer := Serialize uint32_t (destRankId (IpcResumeRequest_base m)) packer in
  (UBSM_OK, packer).

Definition IpcResumeRequest_Deserialize (unpacker : NetMsgUnpacker) : Z * IpcResumeRequest * NetMsgUnpacker :=
  let '(ver, unpacker) := Deserialize int16_t unpacker in
  let '(op, unpacker) := Deserialize int16_t unpacker in
  let '(dest, unpacker) := Deserialize uint32_t unpacker in
  (DeserializeResult unpacker, mkIpcResumeRequest (mkMsgBase ver op dest), unpacker).

Definition IpcResumeRequest_t : Codec IpcResumeRequest := message_t IpcResumeRequest_Serialize IpcResumeRequest_Deserialize.

Definition IpcResumeRequest_ok (m : IpcResumeRequest) : Prop :=
  fits_signed 2 (msgVer (IpcResumeRequest_base m)) /\ fits_signed 2 (opCode (IpcResumeRequest_base m)) /\
  fits_unsigned 4 (destRankId (IpcResumeRequest_base m)).

Lemma IpcResumeRequest_lawful : Lawful IpcResumeRequest_t IpcResumeRequest_ok.
Proof.
  message_by_members IpcResumeRequest_t IpcResumeRequest_Deserialize
    (int16_t ⊗ int16_t ⊗ uint32_t)%member
    (fun m => msgVer (IpcResumeRequest_base m) ,, opCode (IpcResumeRequest_base m) ,,
               destRankId (IpcResumeRequest_base m))%member.
Qed.
