(* ===== verification/MsgResponses.v ===== *)
(** The response structs of [src/mxm_message/mxm_msg.h]: their members, and their
    [Serialize] and [Deserialize], statement by statement. *)

From S2P Require Import Prelude StoreTypes MsgPacker MsgCodec MsgBase.

(** ** [CommonResponse] *)

Record CommonResponse := mkCommonResponse {
  CommonResponse_base : MsgBase;
  CommonResponse_errCode_ : Z;
}.

Definition CommonResponse_Serialize (m : CommonResponse) (packer : NetMsgPacker) : Z * NetMsgPacker :=
  let packer := Serialize int16_t (msgVer (CommonResponse_base m)) packer in
  let packer := Serialize int16_t (opCode (CommonResponse_base m)) packer in
  let packer := Serialize uint32_t (destRankId (CommonResponse_base m)) packer in
  let packer := Serialize int32_t (CommonResponse_errCode_ m) packer in
  (UBSM_OK, packer).

Definition CommonResponse_Deserialize (unpacker : NetMsgUnpacker) : Z * CommonResponse * NetMsgUnpacker :=
  let '(ver, unpacker) := Deserialize int16_t unpacker in
  let '(op, unpacker) := Deserialize int16_t unpacker in
  let '(dest, unpacker) := Deserialize uint32_t unpacker in
  let '(errCode_, unpacker) := Deserialize int32_t unpacker in
  (DeserializeResult unpacker, mkCommonResponse (mkMsgBase ver op dest) errCode_, unpacker).

Definition CommonResponse_t : Codec CommonResponse := message_t CommonResponse_Serialize CommonResponse_Deserialize.

Definition CommonResponse_ok (m : CommonResponse) : Prop :=
  fits_signed 2 (msgVer (CommonResponse_base m)) /\ fits_signed 2 (opCode (CommonResponse_base m)) /\
  fits_unsigned 4 (destRankId (CommonResponse_base m)) /\ fits_signed 4 (CommonResponse_errCode_ m).

Lemma CommonResponse_lawful : Lawful CommonResponse_t CommonResponse_ok.
Proof.
  message_by_members CommonResponse_t CommonResponse_Deserialize
    (int16_t ⊗ int16_t ⊗ uint32_t ⊗ int32_t)%member
    (fun m => msgVer (CommonResponse_base m) ,, opCode (CommonResponse_base m) ,,
               destRankId (CommonResponse_base m) ,, CommonResponse_errCode_ m)%member.
Qed.

(** ** [AppMallocMemoryResponse] *)

Record AppMallocMemoryResponse := mkAppMallocMemoryResponse {
  AppMallocMemoryResponse_base : MsgBase;
  AppMallocMemoryResponse_errCode_ : Z;
  AppMallocMemoryResponse_memIds_ : list Z;
  AppMallocMemoryResponse_numaId_ : Z;
  AppMallocMemoryResponse_isNuma_ : bool;
  AppMallocMemoryResponse_unitSize_ : Z;
  AppMallocMemoryResponse_name_ : string;
}.

Definition AppMallocMemoryResponse_Serialize (m : AppMallocMemoryResponse) (packer : NetMsgPacker) : Z * NetMsgPacker :=
  let packer := Serialize int16_t (msgVer (AppMallocMemoryResponse_base m)) packer in
  let packer := Serialize int16_t (opCode (AppMallocMemoryResponse_base m)) packer in
  let packer := Serialize uint32_t (destRankId (AppMallocMemoryResponse_base m)) packer in
  let packer := Serialize int32_t (AppMallocMemoryResponse_errCode_ m) packer in
  let packer := Serialize (vector_t uint64_t) (AppMallocMemoryResponse_memIds_ m) packer in
  let packer := Serialize int64_t (AppMallocMemoryResponse_numaId_ m) packer in
  let packer := Serialize bool_t (AppMallocMemoryResponse_isNuma_ m) packer in
  let packer := Serialize uint64_t (AppMallocMemoryResponse_unitSize_ m) packer in
  let packer := Serialize string_t (AppMallocMemoryResponse_name_ m) packer in
  (UBSM_OK, packer).

Definition AppMallocMemoryResponse_Deserialize (unpacker : NetMsgUnpacker) : Z * AppMallocMemoryResponse * NetMsgUnpacker :=
  let '(ver, unpacker) := Deserialize int16_t unpacker in
  let '(op, unpacker) := Deserialize int16_t unpacker in
  let '(dest, unpacker) := Deserialize uint32_t unpacker in
  let '(errCode_, unpacker) := Deserialize int32_t unpacker in
  let '(memIds_, unpacker) := Deserialize (vector_t uint64_t) unpacker in
  let '(numaId_, unpacker) := Deserialize int64_t unpacker in
  let '(isNuma_, unpacker) := Deserialize bool_t unpacker in
  let '(unitSize_, unpacker) := Deserialize uint64_t unpacker in
  let '(name_, unpacker) := Deserialize string_t unpacker in
  (DeserializeResult unpacker, mkAppMallocMemoryResponse (mkMsgBase ver op dest) errCode_ memIds_ numaId_ isNuma_ unitSize_ name_, unpacker).

Definition AppMallocMemoryResponse_t : Codec AppMallocMemoryResponse := message_t AppMallocMemoryResponse_Serialize AppMallocMemoryResponse_Deserialize.

Definition AppMallocMemoryResponse_ok (m : AppMallocMemoryResponse) : Prop :=
  fits_signed 2 (msgVer (AppMallocMemoryResponse_base m)) /\
  fits_signed 2 (opCode (AppMallocMemoryResponse_base m)) /\
  fits_unsigned 4 (destRankId (AppMallocMemoryResponse_base m)) /\
  fits_signed 4 (AppMallocMemoryResponse_errCode_ m) /\
  vector_ok (fits_unsigned 8) (AppMallocMemoryResponse_memIds_ m) /\
  fits_signed 8 (AppMallocMemoryResponse_numaId_ m) /\ True /\
  fits_unsigned 8 (AppMallocMemoryResponse_unitSize_ m) /\ string_ok (AppMallocMemoryResponse_name_ m).

Lemma AppMallocMemoryResponse_lawful : Lawful AppMallocMemoryResponse_t AppMallocMemoryResponse_ok.
Proof.
  message_by_members AppMallocMemoryResponse_t AppMallocMemoryResponse_Deserialize
    (int16_t ⊗ int16_t ⊗ uint32_t ⊗ int32_t ⊗ (vector_t uint64_t) ⊗ int64_t ⊗ bool_t ⊗ uint64_t ⊗ string_t)%member
    (fun m => msgVer (AppMallocMemoryResponse_base m) ,, opCode (AppMallocMemoryResponse_base m) ,,
               destRankId (AppMallocMemoryResponse_base m) ,, AppMallocMemoryResponse_errCode_ m ,,
               AppMallocMemoryResponse_memIds_ m ,, AppMallocMemoryResponse_numaId_ m ,,
               AppMallocMemoryResponse_isNuma_ m ,, AppMallocMemoryResponse_unitSize_ m ,,
               AppMallocMemoryResponse_name_ m)%member.
Qed.

(** ** [AppQueryClusterInfoResponse] *)

Record AppQueryClusterInfoResponse := mkAppQueryClusterInfoResponse {
  AppQueryClusterInfoResponse_base : MsgBase;
  AppQueryClusterInfoResponse_errCode_ : Z;
  AppQueryClusterInfoResponse_info_ : ubsmemClusterInfo;
}.

Definition AppQueryClusterInfoResponse_Serialize (m : AppQueryClusterInfoResponse) (packer : NetMsgPacker) : Z * NetMsgPacker :=
  let packer := Serialize int16_t (msgVer (AppQueryClusterInfoResponse_base m)) packer in
  let packer := Serialize int16_t (opCode (AppQueryClusterInfoResponse_base m)) packer in
  let packer := Serialize uint32_t (destRankId (AppQueryClusterInfoResponse_base m)) packer in
  let packer := Serialize int32_t (AppQueryClusterInfoResponse_errCode_ m) packer in
  let packer := Serialize ubsmemClusterInfo_t (AppQueryClusterInfoResponse_info_ m) packer in
  (UBSM_OK, packer).

Definition AppQueryClusterInfoResponse_Deserialize (unpacker : NetMsgUnpacker) : Z * AppQueryClusterInfoResponse * NetMsgUnpacker :=
  let '(ver, unpacker) := Deserialize int16_t unpacker in
  let '(op, unpacker) := Deserialize int16_t unpacker in
  let '(dest, unpacker) := Deserialize uint32_t unpacker in
  let '(errCode_, unpacker) := Deserialize int32_t unpacker in
  let '(info_, unpacker) := Deserialize ubsmemClusterInfo_t unpacker in
  (DeserializeResult unpacker, mkAppQueryClusterInfoResponse (mkMsgBase ver op dest) errCode_ info_, unpacker).

Definition AppQueryClusterInfoResponse_t : Codec AppQueryClusterInfoResponse := message_t AppQueryClusterInfoResponse_Serialize AppQueryClusterInfoResponse_Deserialize.

Definition AppQueryClusterInfoResponse_ok (m : AppQueryClusterInfoResponse) : Prop :=
  fits_signed 2 (msgVer (AppQueryClusterInfoResponse_base m)) /\
  fits_signed 2 (opCode (AppQueryClusterInfoResponse_base m)) /\
  fits_unsigned 4 (destRankId (AppQueryClusterInfoResponse_base m)) /\
  fits_signed 4 (AppQueryClusterInfoResponse_errCode_ m) /\
  struct_ok sizeof_ubsmemClusterInfo (AppQueryClusterInfoResponse_info_ m).

Lemma AppQueryClusterInfoResponse_lawful : Lawful AppQueryClusterInfoResponse_t AppQueryClusterInfoResponse_ok.
Proof.
  message_by_members AppQueryClusterInfoResponse_t AppQueryClusterInfoResponse_Deserialize
    (int16_t ⊗ int16_t ⊗ uint32_t ⊗ int32_t ⊗ ubsmemClusterInfo_t)%member
    (fun m => msgVer (AppQueryClusterInfoResponse_base m) ,, opCode (AppQueryClusterInfoResponse_base m) ,,
               destRankId (AppQueryClusterInfoResponse_base m) ,, AppQueryClusterInfoResponse_errCode_ m ,,
               AppQueryClusterInfoResponse_info_ m)%member.
Qed.

(** ** [AppQueryCachedMemoryResponse] *)

Record AppQueryCachedMemoryResponse := mkAppQueryCachedMemoryResponse {
  AppQueryCachedMemoryResponse_base : MsgBase;
  AppQueryCachedMemoryResponse_errCode_ : Z;
  AppQueryCachedMemoryResponse_records_ : list string;
}.

Definition AppQueryCachedMemoryResponse_Serialize (m : AppQueryCachedMemoryResponse) (packer : NetMsgPacker) : Z * NetMsgPacker :=
  let packer := Serialize int16_t (msgVer (AppQueryCachedMemoryResponse_base m)) packer in
  let packer := Serialize int16_t (opCode (AppQueryCachedMemoryResponse_base m)) packer in
  let packer := Serialize uint32_t (destRankId (AppQueryCachedMemoryResponse_base m)) packer in
  let packer := Serialize int32_t (AppQueryCachedMemoryResponse_errCode_ m) packer in
  let packer := Serialize (vector_t string_t) (AppQueryCachedMemoryResponse_records_ m) packer in
  (UBSM_OK, packer).

Definition AppQueryCachedMemoryResponse_Deserialize (unpacker : NetMsgUnpacker) : Z * AppQueryCachedMemoryResponse * NetMsgUnpacker :=
  let '(ver, unpacker) := Deserialize int16_t unpacker in
  let '(op, unpacker) := Deserialize int16_t unpacker in
  let '(dest, unpacker) := Deserialize uint32_t unpacker in
  let '(errCode_, unpacker) := Deserialize int32_t unpacker in
  let '(records_, unpacker) := Deserialize (vector_t string_t) unpacker in
  (DeserializeResult unpacker, mkAppQueryCachedMemoryResponse (mkMsgBase ver op dest) errCode_ records_, unpacker).

Definition AppQueryCachedMemoryResponse_t : Codec AppQueryCachedMemoryResponse := message_t AppQueryCachedMemoryResponse_Serialize AppQueryCachedMemoryResponse_Deserialize.

Definition AppQueryCachedMemoryResponse_ok (m : AppQueryCachedMemoryResponse) : Prop :=
  fits_signed 2 (msgVer (AppQueryCachedMemoryResponse_base m)) /\
  fits_signed 2 (opCode (AppQueryCachedMemoryResponse_base m)) /\
  fits_unsigned 4 (destRankId (AppQueryCachedMemoryResponse_base m)) /\
  fits_signed 4 (AppQueryCachedMemoryResponse_errCode_ m) /\
  vector_ok string_ok (AppQueryCachedMemoryResponse_records_ m).

Lemma AppQueryCachedMemoryResponse_lawful : Lawful AppQueryCachedMemoryResponse_t AppQueryCachedMemoryResponse_ok.
Proof.
  message_by_members AppQueryCachedMemoryResponse_t AppQueryCachedMemoryResponse_Deserialize
    (int16_t ⊗ int16_t ⊗ uint32_t ⊗ int32_t ⊗ (vector_t string_t))%member
    (fun m => msgVer (AppQueryCachedMemoryResponse_base m) ,, opCode (AppQueryCachedMemoryResponse_base m) ,,
               destRankId (AppQueryCachedMemoryResponse_base m) ,, AppQueryCachedMemoryResponse_errCode_ m ,,
               AppQueryCachedMemoryResponse_records_ m)%member.
Qed.

(** ** [ShmLookRegionListResponse] *)

Record ShmLookRegionListResponse := mkShmLookRegionListResponse {
  ShmLookRegionListResponse_base : MsgBase;
  ShmLookRegionListResponse_errCode_ : Z;
  ShmLookRegionListResponse_regions_ : SHMRegions;
}.

Definition ShmLookRegionListResponse_Serialize (m : ShmLookRegionListResponse) (packer : NetMsgPacker) : Z * NetMsgPacker :=
  let packer := Serialize int16_t (msgVer (ShmLookRegionListResponse_base m)) packer in
  let packer := Serialize int16_t (opCode (ShmLookRegionListResponse_base m)) packer in
  let packer := Serialize uint32_t (destRankId (ShmLookRegionListResponse_base m)) packer in
  let packer := Serialize int32_t (ShmLookRegionListResponse_errCode_ m) packer in
  let packer := Serialize SHMRegions_t (ShmLookRegionListResponse_regions_ m) packer in
  (UBSM_OK, packer).

Definition ShmLookRegionListResponse_Deserialize (unpacker : NetMsgUnpacker) : Z * ShmLookRegionListResponse * NetMsgUnpacker :=
  let '(ver, unpacker) := Deserialize int16_t unpacker in
  let '(op, unpacker) := Deserialize int16_t unpacker in
  let '(dest, unpacker) := Deserialize uint32_t unpacker in
  let '(errCode_, unpacker) := Deserialize int32_t unpacker in
  let '(regions_, unpacker) := Deserialize SHMRegions_t unpacker in
  (DeserializeResult unpacker, mkShmLookRegionListResponse (mkMsgBase ver op dest) errCode_ regions_, unpacker).

Definition ShmLookRegionListResponse_t : Codec ShmLookRegionListResponse := message_t ShmLookRegionListResponse_Serialize ShmLookRegionListResponse_Deserialize.

Definition ShmLookRegionListResponse_ok (m : ShmLookRegionListResponse) : Prop :=
  fits_signed 2 (msgVer (ShmLookRegionListResponse_base m)) /\
  fits_signed 2 (opCode (ShmLookRegionListResponse_base m)) /\
  fits_unsigned 4 (destRankId (ShmLookRegionListResponse_base m)) /\
  fits_signed 4 (ShmLookRegionListResponse_errCode_ m) /\
  struct_ok sizeof_SHMRegions (ShmLookRegionListResponse_regions_ m).

Lemma ShmLookRegionListResponse_lawful : Lawful ShmLookRegionListResponse_t ShmLookRegionListResponse_ok.
Proof.
  message_by_members ShmLookRegionListResponse_t ShmLookRegionListResponse_Deserialize
    (int16_t ⊗ int16_t ⊗ uint32_t ⊗ int32_t ⊗ SHMRegions_t)%member
    (fun m => msgVer (ShmLookRegionListResponse_base m) ,, opCode (ShmLookRegionListResponse_base m) ,,
               destRankId (ShmLookRegionListResponse_base m) ,, ShmLookRegionListResponse_errCode_ m ,,
               ShmLookRegionListResponse_regions_ m)%member.
Qed.

(** ** [ShmCreateRegionResponse] *)

Record ShmCreateRegionResponse := mkShmCreateRegionResponse {
  ShmCreateRegionResponse_base : MsgBase;
  ShmCreateRegionResponse_errCode_ : Z;
}.

Definition ShmCreateRegionResponse_Serialize (m : ShmCreateRegionResponse) (packer : NetMsgPacker) : Z * NetMsgPacker :=
  let packer := Serialize int16_t (msgVer (ShmCreateRegionResponse_base m)) packer in
  let packer := Serialize int16_t (opCode (ShmCreateRegionResponse_base m)) packer in
  let packer := Serialize uint32_t (destRankId (ShmCreateRegionResponse_base m)) packer in
  let packer := Serialize int32_t (ShmCreateRegionResponse_errCode_ m) packer in
  (UBSM_OK, packer).

Definition ShmCreateRegionResponse_Deserialize (unpacker : NetMsgUnpacker) : Z * ShmCreateRegionResponse * NetMsgUnpacker :=
  let '(ver, unpacker) := Deserialize int16_t unpacker in
  let '(op, unpacker) := Deserialize int16_t unpacker in
  let '(dest, unpacker) := Deserialize uint32_t unpacker in
  let '(errCode_, unpacker) := Deserialize int32_t unpacker in
  (DeserializeResult unpacker, mkShmCreateRegionResponse (mkMsgBase ver op dest) errCode_, unpacker).

Definition ShmCreateRegionResponse_t : Codec ShmCreateRegionResponse := message_t ShmCreateRegionResponse_Serialize ShmCreateRegionResponse_Deserialize.

Definition ShmCreateRegionResponse_ok (m : ShmCreateRegionResponse) : Prop :=
  fits_signed 2 (msgVer (ShmCreateRegionResponse_base m)) /\
  fits_signed 2 (opCode (ShmCreateRegionResponse_base m)) /\
  fits_unsigned 4 (destRankId (ShmCreateRegionResponse_base m)) /\
  fits_signed 4 (ShmCreateRegionResponse_errCode_ m).

Lemma ShmCreateRegionResponse_lawful : Lawful ShmCreateRegionResponse_t ShmCreateRegionResponse_ok.
Proof.
  message_by_members ShmCreateRegionResponse_t ShmCreateRegionResponse_Deserialize
    (int16_t ⊗ int16_t ⊗ uint32_t ⊗ int32_t)%member
    (fun m => msgVer (ShmCreateRegionResponse_base m) ,, opCode (ShmCreateRegionResponse_base m) ,,
               destRankId (ShmCreateRegionResponse_base m) ,, ShmCreateRegionResponse_errCode_ m)%member.
Qed.

(** ** [ShmLookupRegionResponse] *)

Record ShmLookupRegionResponse := mkShmLookupRegionResponse {
  ShmLookupRegionResponse_base : MsgBase;
  ShmLookupRegionResponse_errCode_ : Z;
  ShmLookupRegionResponse_region_ : SHMRegionDesc;
}.

Definition ShmLookupRegionResponse_Serialize (m : ShmLookupRegionResponse) (packer : NetMsgPacker) : Z * NetMsgPacker :=
  let packer := Serialize int16_t (msgVer (ShmLookupRegionResponse_base m)) packer in
  let packer := Serialize int16_t (opCode (ShmLookupRegionResponse_base m)) packer in
  let packer := Serialize uint32_t (destRankId (ShmLookupRegionResponse_base m)) packer in
  let packer := Serialize int32_t (ShmLookupRegionResponse_errCode_ m) packer in
  let packer := Serialize SHMRegionDesc_t (ShmLookupRegionResponse_region_ m) packer in
  (UBSM_OK, packer).

Definition ShmLookupRegionResponse_Deserialize (unpacker : NetMsgUnpacker) : Z * ShmLookupRegionResponse * NetMsgUnpacker :=
  let '(ver, unpacker) := Deserialize int16_t unpacker in
  let '(op, unpacker) := Deserialize int16_t unpacker in
  let '(dest, unpacker) := Deserialize uint32_t unpacker in
  let '(errCode_, unpacker) := Deserialize int32_t unpacker in
  let '(region_, unpacker) := Deserialize SHMRegionDesc_t unpacker in
  (DeserializeResult unpacker, mkShmLookupRegionResponse (mkMsgBase ver op dest) errCode_ region_, unpacker).

Definition ShmLookupRegionResponse_t : Codec ShmLookupRegionResponse := message_t ShmLookupRegionResponse_Serialize ShmLookupRegionResponse_Deserialize.

Definition ShmLookupRegionResponse_ok (m : ShmLookupRegionResponse) : Prop :=
  fits_signed 2 (msgVer (ShmLookupRegionResponse_base m)) /\
  fits_signed 2 (opCode (ShmLookupRegionResponse_base m)) /\
  fits_unsigned 4 (destRankId (ShmLookupRegionResponse_base m)) /\
  fits_signed 4 (ShmLookupRegionResponse_errCode_ m) /\
  struct_ok sizeof_SHMRegionDesc (ShmLookupRegionResponse_region_ m).

Lemma ShmLookupRegionResponse_lawful : Lawful ShmLookupRegionResponse_t ShmLookupRegionResponse_ok.
Proof.
  message_by_members ShmLookupRegionResponse_t ShmLookupRegionResponse_Deserialize
    (int16_t ⊗ int16_t ⊗ uint32_t ⊗ int32_t ⊗ SHMRegionDesc_t)%member
    (fun m => msgVer (ShmLookupRegionResponse_base m) ,, opCode (ShmLookupRegionResponse_base m) ,,
               destRankId (ShmLookupRegionResponse_base m) ,, ShmLookupRegionResponse_errCode_ m ,,
               ShmLookupRegionResponse_region_ m)%member.
Qed.

(** ** [ShmDestroyRegionResponse] *)

Record ShmDestroyRegionResponse := mkShmDestroyRegionResponse {
  ShmDestroyRegionResponse_base : MsgBase;
  ShmDestroyRegionResponse_errCode_ : Z;
}.

Definition ShmDestroyRegionResponse_Serialize (m : ShmDestroyRegionResponse) (packer : NetMsgPacker) : Z * NetMsgPacker :=
  let packer := Serialize int16_t (msgVer (ShmDestroyRegionResponse_base m)) packer in
  let packer := Serialize int16_t (opCode (ShmDestroyRegionResponse_base m)) packer in
  let packer := Serialize uint32_t (destRankId (ShmDestroyRegionResponse_base m)) packer in
  let packer := Serialize int32_t (ShmDestroyRegionResponse_errCode_ m) packer in
  (UBSM_OK, packer).

Definition ShmDestroyRegionResponse_Deserialize (unpacker : NetMsgUnpacker) : Z * ShmDestroyRegionResponse * NetMsgUnpacker :=
  let '(ver, unpacker) := Deserialize int16_t unpacker in
  let '(op, unpacker) := Deserialize int16_t unpacker in
  let '(dest, unpacker) := Deserialize uint32_t unpacker in
  let '(errCode_, unpacker) := Deserialize int32_t unpacker in
  (DeserializeResult unpacker, mkShmDestroyRegionResponse (mkMsgBase ver op dest) errCode_, unpacker).

Definition ShmDestroyRegionResponse_t : Codec ShmDestroyRegionResponse := message_t ShmDestroyRegionResponse_Serialize ShmDestroyRegionResponse_Deserialize.

Definition ShmDestroyRegionResponse_ok (m : ShmDestroyRegionResponse) : Prop :=
  fits_signed 2 (msgVer (ShmDestroyRegionResponse_base m)) /\
  fits_signed 2 (opCode (ShmDestroyRegionResponse_base m)) /\
  fits_unsigned 4 (destRankId (ShmDestroyRegionResponse_base m)) /\
  fits_signed 4 (ShmDestroyRegionResponse_errCode_ m).

Lemma ShmDestroyRegionResponse_lawful : Lawful ShmDestroyRegionResponse_t ShmDestroyRegionResponse_ok.
Proof.
  message_by_members ShmDestroyRegionResponse_t ShmDestroyRegionResponse_Deserialize
    (int16_t ⊗ int16_t ⊗ uint32_t ⊗ int32_t)%member
    (fun m => msgVer (ShmDestroyRegionResponse_base m) ,, opCode (ShmDestroyRegionResponse_base m) ,,
               destRankId (ShmDestroyRegionResponse_base m) ,, ShmDestroyRegionResponse_errCode_ m)%member.
Qed.

(** ** [ShmMapResponse] *)

Record ShmMapResponse := mkShmMapResponse {
  ShmMapResponse_base : MsgBase;
  ShmMapResponse_errCode_ : Z;
  ShmMapResponse_memIds_ : list Z;
  ShmMapResponse_shmSize_ : Z;
  ShmMapResponse_unitSize_ : Z;
  ShmMapResponse_flag_ : Z;
  ShmMapResponse_oflag_ : Z;
}.

Definition ShmMapResponse_Serialize (m : ShmMapResponse) (packer : NetMsgPacker) : Z * NetMsgPacker :=
  let packer := Serialize int16_t (msgVer (ShmMapResponse_base m)) packer in
  let packer := Serialize int16_t (opCode (ShmMapResponse_base m)) packer in
  let packer := Serialize uint32_t (destRankId (ShmMapResponse_base m)) packer in
  let packer := Serialize int32_t (ShmMapResponse_errCode_ m) packer in
  let packer := Serialize (vector_t uint64_t) (ShmMapResponse_memIds_ m) packer in
  let packer := Serialize uint64_t (ShmMapResponse_shmSize_ m) packer in
  let packer := Serialize uint64_t (ShmMapResponse_unitSize_ m) packer in
  let packer := Serialize uint64_t (ShmMapResponse_flag_ m) packer in
  let packer := Serialize int32_t (ShmMapResponse_oflag_ m) packer in
  (UBSM_OK, packer).

Definition ShmMapResponse_Deserialize (unpacker : NetMsgUnpacker) : Z * ShmMapResponse * NetMsgUnpacker :=
  let '(ver, unpacker) := Deserialize int16_t unpacker in
  let '(op, unpacker) := Deserialize int16_t unpacker in
  let '(dest, unpacker) := Deserialize uint32_t unpacker in
  let '(errCode_, unpacker) := Deserialize int32_t unpacker in
  let '(memIds_, unpacker) := Deserialize (vector_t uint64_t) unpacker in
  let '(shmSize_, unpacker) := Deserialize uint64_t unpacker in
  let '(unitSize_, unpacker) := Deserialize uint64_t unpacker in
  let '(flag_, unpacker) := Deserialize uint64_t unpacker in
  let '(oflag_, unpacker) := Deserialize int32_t unpacker in
  (DeserializeResult unpacker, mkShmMapResponse (mkMsgBase ver op dest) errCode_ memIds_ shmSize_ unitSize_ flag_ oflag_, unpacker).

Definition ShmMapResponse_t : Codec ShmMapResponse := message_t ShmMapResponse_Serialize ShmMapResponse_Deserialize.

Definition ShmMapResponse_ok (m : ShmMapResponse) : Prop :=
  fits_signed 2 (msgVer (ShmMapResponse_base m)) /\ fits_signed 2 (opCode (ShmMapResponse_base m)) /\
  fits_unsigned 4 (destRankId (ShmMapResponse_base m)) /\ fits_signed 4 (ShmMapResponse_errCode_ m) /\
  vector_ok (fits_unsigned 8) (ShmMapResponse_memIds_ m) /\ fits_unsigned 8 (ShmMapResponse_shmSize_ m) /\
  fits_unsigned 8 (ShmMapResponse_unitSize_ m) /\ fits_unsigned 8 (ShmMapResponse_flag_ m) /\
  fits_signed 4 (ShmMapResponse_oflag_ m).

Lemma ShmMapResponse_lawful : Lawful ShmMapResponse_t ShmMapResponse_ok.
Proof.
  message_by_members ShmMapResponse_t ShmMapResponse_Deserialize
    (int16_t ⊗ int16_t ⊗ uint32_t ⊗ int32_t ⊗ (vector_t uint64_t) ⊗ uint64_t ⊗ uint64_t ⊗ uint64_t ⊗ int32_t)%member
    (fun m => msgVer (ShmMapResponse_base m) ,, opCode (ShmMapResponse_base m) ,,
               destRankId (ShmMapResponse_base m) ,, ShmMapResponse_errCode_ m ,, ShmMapResponse_memIds_ m ,,
               ShmMapResponse_shmSize_ m ,, ShmMapResponse_unitSize_ m ,, ShmMapResponse_flag_ m ,,
               ShmMapResponse_oflag_ m)%member.
Qed.

(** ** [ShmQueryMemFaultStatusResponse] *)

Record ShmQueryMemFaultStatusResponse := mkShmQueryMemFaultStatusResponse {
  ShmQueryMemFaultStatusResponse_base : MsgBase;
  ShmQueryMemFaultStatusResponse_errCode_ : Z;
  ShmQueryMemFaultStatusResponse_isMemFault_ : bool;
}.

Definition ShmQueryMemFaultStatusResponse_Serialize (m : ShmQueryMemFaultStatusResponse) (packer : NetMsgPacker) : Z * NetMsgPacker :=
  let packer := Serialize int16_t (msgVer (ShmQueryMemFaultStatusResponse_base m)) packer in
  let packer := Serialize int16_t (opCode (ShmQueryMemFaultStatusResponse_base m)) packer in
  let packer := Serialize uint32_t (destRankId (ShmQueryMemFaultStatusResponse_base m)) packer in
  let packer := Serialize int32_t (ShmQueryMemFaultStatusResponse_errCode_ m) packer in
  let packer := Serialize bool_t (ShmQueryMemFaultStatusResponse_isMemFault_ m) packer in
  (UBSM_OK, packer).

Definition ShmQueryMemFaultStatusResponse_Deserialize (unpacker : NetMsgUnpacker) : Z * ShmQueryMemFaultStatusResponse * NetMsgUnpacker :=
  let '(ver, unpacker) := Deserialize int16_t unpacker in
  let '(op, unpacker) := Deserialize int16_t unpacker in
  let '(dest, unpacker) := Deserialize uint32_t unpacker in
  let '(errCode_, unpacker) := Deserialize int32_t unpacker in
  let '(isMemFault_, unpacker) := Deserialize bool_t unpacker in
  (DeserializeResult unpacker, mkShmQueryMemFaultStatusResponse (mkMsgBase ver op dest) errCode_ isMemFault_, unpacker).

Definition ShmQueryMemFaultStatusResponse_t : Codec ShmQueryMemFaultStatusResponse := message_t ShmQueryMemFaultStatusResponse_Serialize ShmQueryMemFaultStatusResponse_Deserialize.

Definition ShmQueryMemFaultStatusResponse_ok (m : ShmQueryMemFaultStatusResponse) : Prop :=
  fits_signed 2 (msgVer (ShmQueryMemFaultStatusResponse_base m)) /\
  fits_signed 2 (opCode (ShmQueryMemFaultStatusResponse_base m)) /\
  fits_unsigned 4 (destRankId (ShmQueryMemFaultStatusResponse_base m)) /\
  fits_signed 4 (ShmQueryMemFaultStatusResponse_errCode_ m) /\ True.

Lemma ShmQueryMemFaultStatusResponse_lawful : Lawful ShmQueryMemFaultStatusResponse_t ShmQueryMemFaultStatusResponse_ok.
Proof.
  message_by_members ShmQueryMemFaultStatusResponse_t ShmQueryMemFaultStatusResponse_Deserialize
    (int16_t ⊗ int16_t ⊗ uint32_t ⊗ int32_t ⊗ bool_t)%member
    (fun m => msgVer (ShmQueryMemFaultStatusResponse_base m) ,, opCode (ShmQueryMemFaultStatusResponse_base m) ,,
               destRankId (ShmQueryMemFaultStatusResponse_base m) ,, ShmQueryMemFaultStatusResponse_errCode_ m ,,
               ShmQueryMemFaultStatusResponse_isMemFault_ m)%member.
Qed.

(** ** [ShmWriteLockResponse] *)

Record ShmWriteLockResponse := mkShmWriteLockResponse {
  ShmWriteLockResponse_base : MsgBase;
  ShmWriteLockResponse_errCode_ : Z;
}.

Definition ShmWriteLockResponse_Serialize (m : ShmWriteLockResponse) (packer : NetMsgPacker) : Z * NetMsgPacker :=
  let packer := Serialize int16_t (msgVer (ShmWriteLockResponse_base m)) packer in
  let packer := Serialize int16_t (opCode (ShmWriteLockResponse_base m)) packer in
  let packer := Serialize uint32_t (destRankId (ShmWriteLockResponse_base m)) packer in
  let packer := Serialize int32_t (ShmWriteLockResponse_errCode_ m) packer in
  (UBSM_OK, packer).

Definition ShmWriteLockResponse_Deserialize (unpacker : NetMsgUnpacker) : Z * ShmWriteLockResponse * NetMsgUnpacker :=
  let '(ver, unpacker) := Deserialize int16_t unpacker in
  let '(op, unpacker) := Deserialize int16_t unpacker in
  let '(dest, unpacker) := Deserialize uint32_t unpacker in
  let '(errCode_, unpacker) := Deserialize int32_t unpacker in
  (DeserializeResult unpacker, mkShmWriteLockResponse (mkMsgBase ver op dest) errCode_, unpacker).

Definition ShmWriteLockResponse_t : Codec ShmWriteLockResponse := message_t ShmWriteLockResponse_Serialize ShmWriteLockResponse_Deserialize.

Definition ShmWriteLockResponse_ok (m : ShmWriteLockResponse) : Prop :=
  fits_signed 2 (msgVer (ShmWriteLockResponse_base m)) /\ fits_signed 2 (opCode (ShmWriteLockResponse_base m)) /\
  fits_unsigned 4 (destRankId (ShmWriteLockResponse_base m)) /\ fits_signed 4 (ShmWriteLockResponse_errCode_ m).

Lemma ShmWriteLockResponse_lawful : Lawful ShmWriteLockResponse_t ShmWriteLockResponse_ok.
Proof.
  message_by_members ShmWriteLockResponse_t ShmWriteLockResponse_Deserialize
    (int16_t ⊗ int16_t ⊗ uint32_t ⊗ int32_t)%member
    (fun m => msgVer (ShmWriteLockResponse_base m) ,, opCode (ShmWriteLockResponse_base m) ,,
               destRankId (ShmWriteLockResponse_base m) ,, ShmWriteLockResponse_errCode_ m)%member.
Qed.

(** ** [ShmReadLockResponse] *)

Record ShmReadLockResponse := mkShmReadLockResponse {
  ShmReadLockResponse_base : MsgBase;
  ShmReadLockResponse_errCode_ : Z;
}.

Definition ShmReadLockResponse_Serialize (m : ShmReadLockResponse) (packer : NetMsgPacker) : Z * NetMsgPacker :=
  let packer := Serialize int16_t (msgVer (ShmReadLockResponse_base m)) packer in
  let packer := Serialize int16_t (opCode (ShmReadLockResponse_base m)) packer in
  let packer := Serialize uint32_t (destRankId (ShmReadLockResponse_base m)) packer in
  let packer := Serialize int32_t (ShmReadLockResponse_errCode_ m) packer in
  (UBSM_OK, packer).

Definition ShmReadLockResponse_Deserialize (unpacker : NetMsgUnpacker) : Z * ShmReadLockResponse * NetMsgUnpacker :=
  let '(ver, unpacker) := Deserialize int16_t unpacker in
  let '(op, unpacker) := Deserialize int16_t unpacker in
  let '(dest, unpacker) := Deserialize uint32_t unpacker in
  let '(errCode_, unpacker) := Deserialize int32_t unpacker in
  (DeserializeResult unpacker, mkShmReadLockResponse (mkMsgBase ver op dest) errCode_, unpacker).

Definition ShmReadLockResponse_t : Codec ShmReadLockResponse := message_t ShmReadLockResponse_Serialize ShmReadLockResponse_Deserialize.

Definition ShmReadLockResponse_ok (m : ShmReadLockResponse) : Prop :=
  fits_signed 2 (msgVer (ShmReadLockResponse_base m)) /\ fits_signed 2 (opCode (ShmReadLockResponse_base m)) /\
  fits_unsigned 4 (destRankId (ShmReadLockResponse_base m)) /\ fits_signed 4 (ShmReadLockResponse_errCode_ m).

Lemma ShmReadLockResponse_lawful : Lawful ShmReadLockResponse_t ShmReadLockResponse_ok.
Proof.
  message_by_members ShmReadLockResponse_t ShmReadLockResponse_Deserialize
    (int16_t ⊗ int16_t ⊗ uint32_t ⊗ int32_t)%member
    (fun m => msgVer (ShmReadLockResponse_base m) ,, opCode (ShmReadLockResponse_base m) ,,
               destRankId (ShmReadLockResponse_base m) ,, ShmReadLockResponse_errCode_ m)%member.
Qed.

(** ** [ShmUnLockResponse] *)

Record ShmUnLockResponse := mkShmUnLockResponse {
  ShmUnLockResponse_base : MsgBase;
  ShmUnLockResponse_errCode_ : Z;
}.

Definition ShmUnLockResponse_Serialize (m : ShmUnLockResponse) (packer : NetMsgPacker) : Z * NetMsgPacker :=
  let packer := Serialize int16_t (msgVer (ShmUnLockResponse_base m)) packer in
  let packer := Serialize int16_t (opCode (ShmUnLockResponse_base m)) packer in
  let packer := Serialize uint32_t (destRankId (ShmUnLockResponse_base m)) packer in
  let packer := Serialize int32_t (ShmUnLockResponse_errCode_ m) packer in
  (UBSM_OK, packer).

Definition ShmUnLockResponse_Deserialize (unpacker : NetMsgUnpacker) : Z * ShmUnLockResponse * NetMsgUnpacker :=
  let '(ver, unpacker) := Deserialize int16_t unpacker in
  let '(op, unpacker) := Deserialize int16_t unpacker in
  let '(dest, unpacker) := Deserialize uint32_t unpacker in
  let '(errCode_, unpacker) := Deserialize int32_t unpacker in
  (DeserializeResult unpacker, mkShmUnLockResponse (mkMsgBase ver op dest) errCode_, unpacker).

Definition ShmUnLockResponse_t : Codec ShmUnLockResponse := message_t ShmUnLockResponse_Serialize ShmUnLockResponse_Deserialize.

Definition ShmUnLockResponse_ok (m : ShmUnLockResponse) : Prop :=
  fits_signed 2 (msgVer (ShmUnLockResponse_base m)) /\ fits_signed 2 (opCode (ShmUnLockResponse_base m)) /\
  fits_unsigned 4 (destRankId (ShmUnLockResponse_base m)) /\ fits_signed 4 (ShmUnLockResponse_errCode_ m).

Lemma ShmUnLockResponse_lawful : Lawful ShmUnLockResponse_t ShmUnLockResponse_ok.
Proof.
  message_by_members ShmUnLockResponse_t ShmUnLockResponse_Deserialize
    (int16_t ⊗ int16_t ⊗ uint32_t ⊗ int32_t)%member
    (fun m => msgVer (ShmUnLockResponse_base m) ,, opCode (ShmUnLockResponse_base m) ,,
               destRankId (ShmUnLockResponse_base m) ,, ShmUnLockResponse_errCode_ m)%member.
Qed.

(** ** [RpcQueryInfoResponse] *)

Record RpcQueryInfoResponse := mkRpcQueryInfoResponse {
  RpcQueryInfoResponse_base : MsgBase;
  RpcQueryInfoResponse_errCode_ : Z;
  RpcQueryInfoResponse_name_ : string;
}.

Definition RpcQueryInfoResponse_Serialize (m : RpcQueryInfoResponse) (packer : NetMsgPacker) : Z * NetMsgPacker :=
  let packer := Serialize int16_t (msgVer (RpcQueryInfoResponse_base m)) packer in
  let packer := Serialize int16_t (opCode (RpcQueryInfoResponse_base m)) packer in
  let packer := Serialize uint32_t (destRankId (RpcQueryInfoResponse_base m)) packer in
  let packer := Serialize int32_t (RpcQueryInfoResponse_errCode_ m) packer in
  let packer := Serialize string_t (RpcQueryInfoResponse_name_ m) packer in
  (UBSM_OK, packer).

Definition RpcQueryInfoResponse_Deserialize (unpacker : NetMsgUnpacker) : Z * RpcQueryInfoResponse * NetMsgUnpacker :=
  let '(ver, unpacker) := Deserialize int16_t unpacker in
  let '(op, unpacker) := Deserialize int16_t unpacker in
  let '(dest, unpacker) := Deserialize uint32_t unpacker in
  let '(errCode_, unpacker) := Deserialize int32_t unpacker in
  let '(name_, unpacker) := Deserialize string_t unpacker in
  (DeserializeResult unpacker, mkRpcQueryInfoResponse (mkMsgBase ver op dest) errCode_ name_, unpacker).

Definition RpcQueryInfoResponse_t : Codec RpcQueryInfoResponse := message_t RpcQueryInfoResponse_Serialize RpcQueryInfoResponse_Deserialize.

Definition RpcQueryInfoResponse_ok (m : RpcQueryInfoResponse) : Prop :=
  fits_signed 2 (msgVer (RpcQueryInfoResponse_base m)) /\ fits_signed 2 (opCode (RpcQueryInfoResponse_base m)) /\
  fits_unsigned 4 (destRankId (RpcQueryInfoResponse_base m)) /\ fits_signed 4 (RpcQueryInfoResponse_errCode_ m) /\
  string_ok (RpcQueryInfoResponse_name_ m).

Lemma RpcQueryInfoResponse_lawful : Lawful RpcQueryInfoResponse_t RpcQueryInfoResponse_ok.
Proof.
  message_by_members RpcQueryInfoResponse_t RpcQueryInfoResponse_Deserialize
    (int16_t ⊗ int16_t ⊗ uint32_t ⊗ int32_t ⊗ string_t)%member
    (fun m => msgVer (RpcQueryInfoResponse_base m) ,, opCode (RpcQueryInfoResponse_base m) ,,
               destRankId (RpcQueryInfoResponse_base m) ,, RpcQueryInfoResponse_errCode_ m ,,
               RpcQueryInfoResponse_name_ m)%member.
Qed.

(** ** [DLockClientReinitResponse] *)

Record DLockClientReinitResponse := mkDLockClientReinitResponse {
  DLockClientReinitResponse_base : MsgBase;
  DLockClientReinitResponse_errCode_ : Z;
  DLockClientReinitResponse_dLockCode_ : Z;
}.

Definition DLockClientReinitResponse_Serialize (m : DLockClientReinitResponse) (packer : NetMsgPacker) : Z * NetMsgPacker :=
  let packer := Serialize int16_t (msgVer (DLockClientReinitResponse_base m)) packer in
  let packer := Serialize int16_t (opCode (DLockClientReinitResponse_base m)) packer in
  let packer := Serialize uint32_t (destRankId (DLockClientReinitResponse_base m)) packer in
  let packer := Serialize int32_t (DLockClientReinitResponse_errCode_ m) packer in
  let packer := Serialize int32_t (DLockClientReinitResponse_dLockCode_ m) packer in
  (UBSM_OK, packer).

Definition DLockClientReinitResponse_Deserialize (unpacker : NetMsgUnpacker) : Z * DLockClientReinitResponse * NetMsgUnpacker :=
  let '(ver, unpacker) := Deserialize int16_t unpacker in
  let '(op, unpacker) := Deserialize int16_t unpacker in
  let '(dest, unpacker) := Deserialize uint32_t unpacker in
  let '(errCode_, unpacker) := Deserialize int32_t unpacker in
  let '(dLockCode_, unpacker) := Deserialize int32_t unpacker in
  (DeserializeResult unpacker, mkDLockClientReinitResponse (mkMsgBase ver op dest) errCode_ dLockCode_, unpacker).

Definition DLockClientReinitResponse_t : Codec DLockClientReinitResponse := message_t DLockClientReinitResponse_Serialize DLockClientReinitResponse_Deserialize.

Definition DLockClientReinitResponse_ok (m : DLockClientReinitResponse) : Prop :=
  fits_signed 2 (msgVer (DLockClientReinitResponse_base m)) /\
  fits_signed 2 (opCode (DLockClientReinitResponse_base m)) /\
  fits_unsigned 4 (destRankId (DLockClientReinitResponse_base m)) /\
  fits_signed 4 (DLockClientReinitResponse_errCode_ m) /\
  fits_signed 4 (DLockClientReinitResponse_dLockCode_ m).

Lemma DLockClientReinitResponse_lawful : Lawful DLockClientReinitResponse_t DLockClientReinitResponse_ok.
Proof.
  message_by_members DLockClientReinitResponse_t DLockClientReinitResponse_Deserialize
    (int16_t ⊗ int16_t ⊗ uint32_t ⊗ int32_t ⊗ int32_t)%member
    (fun m => msgVer (DLockClientReinitResponse_base m) ,, opCode (DLockClientReinitResponse_base m) ,,
               destRankId (DLockClientReinitResponse_base m) ,, DLockClientReinitResponse_errCode_ m ,,
               DLockClientReinitResponse_dLockCode_ m)%member.
Qed.

(** ** [DLockResponse] *)

Record DLockResponse := mkDLockResponse {
  DLockResponse_base : MsgBase;
  DLockResponse_errCode_ : Z;
  DLockResponse_dLockCode_ : Z;
}.

Definition DLockResponse_Serialize (m : DLockResponse) (packer : NetMsgPacker) : Z * NetMsgPacker :=
  let packer := Serialize int16_t (msgVer (DLockResponse_base m)) packer in
  let packer := Serialize int16_t (opCode (DLockResponse_base m)) packer in
  let packer := Serialize uint32_t (destRankId (DLockResponse_base m)) packer in
  let packer := Serialize int32_t (DLockResponse_errCode_ m) packer in
  let packer := Serialize int32_t (DLockResponse_dLockCode_ m) packer in
  (UBSM_OK, packer).

Definition DLockResponse_Deserialize (unpacker : NetMsgUnpacker) : Z * DLockResponse * NetMsgUnpacker :=
  let '(ver, unpacker) := Deserialize int16_t unpacker in
  let '(op, unpacker) := Deserialize int16_t unpacker in
  let '(dest, unpacker) := Deserialize uint32_t unpacker in
  let '(errCode_, unpacker) := Deserialize int32_t unpacker in
  let '(dLockCode_, unpacker) := Deserialize int32_t unpacker in
  (DeserializeResult unpacker, mkDLockResponse (mkMsgBase ver op dest) errCode_ dLockCode_, unpacker).

Definition DLockResponse_t : Codec DLockResponse := message_t DLockResponse_Serialize DLockResponse_Deserialize.

Definition DLockResponse_ok (m : DLockResponse) : Prop :=
  fits_signed 2 (msgVer (DLockResponse_base m)) /\ fits_signed 2 (opCode (DLockResponse_base m)) /\
  fits_unsigned 4 (destRankId (DLockResponse_base m)) /\ fits_signed 4 (DLockResponse_errCode_ m) /\
  fits_signed 4 (DLockResponse_dLockCode_ m).

Lemma DLockResponse_lawful : Lawful DLockResponse_t DLockResponse_ok.
Proof.
  message_by_members DLockResponse_t DLockResponse_Deserialize
    (int16_t ⊗ int16_t ⊗ uint32_t ⊗ int32_t ⊗ int32_t)%member
    (fun m => msgVer (DLockResponse_base m) ,, opCode (DLockResponse_base m) ,,
               destRankId (DLockResponse_base m) ,, DLockResponse_errCode_ m ,, DLockResponse_dLockCode_ m)%member.
Qed.

(** ** [RpcJoinInfoResponse] *)

Record RpcJoinInfoResponse := mkRpcJoinInfoResponse {
  RpcJoinInfoResponse_base : MsgBase;
  RpcJoinInfoResponse_errCode_ : Z;
  RpcJoinInfoResponse_nodetype_ : Z;
}.

Definition RpcJoinInfoResponse_Serialize (m : RpcJoinInfoResponse) (packer : NetMsgPacker) : Z * NetMsgPacker :=
  let packer := Serialize int16_t (msgVer (RpcJoinInfoResponse_base m)) packer in
  let packer := Serialize int16_t (opCode (RpcJoinInfoResponse_base m)) packer in
  let packer := Serialize uint32_t (destRankId (RpcJoinInfoResponse_base m)) packer in
  let packer := Serialize int32_t (RpcJoinInfoResponse_errCode_ m) packer in
  let packer := Serialize int32_t (RpcJoinInfoResponse_nodetype_ m) packer in
  (UBSM_OK, packer).

Definition RpcJoinInfoResponse_Deserialize (unpacker : NetMsgUnpacker) : Z * RpcJoinInfoResponse * NetMsgUnpacker :=
  let '(ver, unpacker) := Deserialize int16_t unpacker in
  let '(op, unpacker) := Deserialize int16_t unpacker in
  let '(dest, unpacker) := Deserialize uint32_t unpacker in
  let '(errCode_, unpacker) := Deserialize int32_t unpacker in
  let '(nodetype_, unpacker) := Deserialize int32_t unpacker in
  (DeserializeResult unpacker, mkRpcJoinInfoResponse (mkMsgBase ver op dest) errCode_ nodetype_, unpacker).

Definition RpcJoinInfoResponse_t : Codec RpcJoinInfoResponse := message_t RpcJoinInfoResponse_Serialize RpcJoinInfoResponse_Deserialize.

Definition RpcJoinInfoResponse_ok (m : RpcJoinInfoResponse) : Prop :=
  fits_signed 2 (msgVer (RpcJoinInfoResponse_base m)) /\ fits_signed 2 (opCode (RpcJoinInfoResponse_base m)) /\
  fits_unsigned 4 (destRankId (RpcJoinInfoResponse_base m)) /\ fits_signed 4 (RpcJoinInfoResponse_errCode_ m) /\
  fits_signed 4 (RpcJoinInfoResponse_nodetype_ m).

Lemma RpcJoinInfoResponse_lawful : Lawful RpcJoinInfoResponse_t RpcJoinInfoResponse_ok.
Proof.
  message_by_members RpcJoinInfoResponse_t RpcJoinInfoResponse_Deserialize
    (int16_t ⊗ int16_t ⊗ uint32_t ⊗ int32_t ⊗ int32_t)%member
    (fun m => msgVer (RpcJoinInfoResponse_base m) ,, opCode (RpcJoinInfoResponse_base m) ,,
               destRankId (RpcJoinInfoResponse_base m) ,, RpcJoinInfoResponse_errCode_ m ,,
               RpcJoinInfoResponse_nodetype_ m)%member.
Qed.

(** ** [RpcVoteInfoResponse] *)

Record RpcVoteInfoResponse := mkRpcVoteInfoResponse {
  RpcVoteInfoResponse_base : MsgBase;
  RpcVoteInfoResponse_errCode_ : Z;
  RpcVoteInfoResponse_name_ : string;
  RpcVoteInfoResponse_isGranted_ : bool;
}.

Definition RpcVoteInfoResponse_Serialize (m : RpcVoteInfoResponse) (packer : NetMsgPacker) : Z * NetMsgPacker :=
  let packer := Serialize int16_t (msgVer (RpcVoteInfoResponse_base m)) packer in
  let packer := Serialize int16_t (opCode (RpcVoteInfoResponse_base m)) packer in
  let packer := Serialize uint32_t (destRankId (RpcVoteInfoResponse_base m)) packer in
  let packer := Serialize int32_t (RpcVoteInfoResponse_errCode_ m) packer in
  let packer := Serialize string_t (RpcVoteInfoResponse_name_ m) packer in
  let packer := Serialize bool_t (RpcVoteInfoResponse_isGranted_ m) packer in
  (UBSM_OK, packer).

Definition RpcVoteInfoResponse_Deserialize (unpacker : NetMsgUnpacker) : Z * RpcVoteInfoResponse * NetMsgUnpacker :=
  let '(ver, unpacker) := Deserialize int16_t unpacker in
  let '(op, unpacker) := Deserialize int16_t unpacker in
  let '(dest, unpacker) := Deserialize uint32_t unpacker in
  let '(errCode_, unpacker) := Deserialize int32_t unpacker in
  let '(name_, unpacker) := Deserialize string_t unpacker in
  let '(isGranted_, unpacker) := Deserialize bool_t unpacker in
  (DeserializeResult unpacker, mkRpcVoteInfoResponse (mkMsgBase ver op dest) errCode_ name_ isGranted_, unpacker).

Definition RpcVoteInfoResponse_t : Codec RpcVoteInfoResponse := message_t RpcVoteInfoResponse_Serialize RpcVoteInfoResponse_Deserialize.

Definition RpcVoteInfoResponse_ok (m : RpcVoteInfoResponse) : Prop :=
  fits_signed 2 (msgVer (RpcVoteInfoResponse_base m)) /\ fits_signed 2 (opCode (RpcVoteInfoResponse_base m)) /\
  fits_unsigned 4 (destRankId (RpcVoteInfoResponse_base m)) /\ fits_signed 4 (RpcVoteInfoResponse_errCode_ m) /\
  string_ok (RpcVoteInfoResponse_name_ m) /\ True.

Lemma RpcVoteInfoResponse_lawful : Lawful RpcVoteInfoResponse_t RpcVoteInfoResponse_ok.
Proof.
  message_by_members RpcVoteInfoResponse_t RpcVoteInfoResponse_Deserialize
    (int16_t ⊗ int16_t ⊗ uint32_t ⊗ int32_t ⊗ string_t ⊗ bool_t)%member
    (fun m => msgVer (RpcVoteInfoResponse_base m) ,, opCode (RpcVoteInfoResponse_base m) ,,
               destRankId (RpcVoteInfoResponse_base m) ,, RpcVoteInfoResponse_errCode_ m ,,
               RpcVoteInfoResponse_name_ m ,, RpcVoteInfoResponse_isGranted_ m)%member.
Qed.

(** ** [ShmAttachResponse] *)

Record ShmAttachResponse := mkShmAttachResponse {
  ShmAttachResponse_base : MsgBase;
  ShmAttachResponse_errCode_ : Z;
  ShmAttachResponse_memIds_ : list Z;
  ShmAttachResponse_shmSize_ : Z;
  ShmAttachResponse_unitSize_ : Z;
  ShmAttachResponse_flag_ : Z;
  ShmAttachResponse_oflag_ : Z;
}.

Definition ShmAttachResponse_Serialize (m : ShmAttachResponse) (packer : NetMsgPacker) : Z * NetMsgPacker :=
  let packer := Serialize int16_t (msgVer (ShmAttachResponse_base m)) packer in
  let packer := Serialize int16_t (opCode (ShmAttachResponse_base m)) packer in
  let packer := Serialize uint32_t (destRankId (ShmAttachResponse_base m)) packer in
  let packer := Serialize int32_t (ShmAttachResponse_errCode_ m) packer in
  let packer := Serialize (vector_t uint64_t) (ShmAttachResponse_memIds_ m) packer in
  let packer := Serialize uint64_t (ShmAttachResponse_shmSize_ m) packer in
  let packer := Serialize uint64_t (ShmAttachResponse_unitSize_ m) packer in
  let packer := Serialize uint64_t (ShmAttachResponse_flag_ m) packer in
  let packer := Serialize int32_t (ShmAttachResponse_oflag_ m) packer in
  (UBSM_OK, packer).

Definition ShmAttachResponse_Deserialize (unpacker : NetMsgUnpacker) : Z * ShmAttachResponse * NetMsgUnpacker :=
  let '(ver, unpacker) := Deserialize int16_t unpacker in
  let '(op, unpacker) := Deserialize int16_t unpacker in
  let '(dest, unpacker) := Deserialize uint32_t unpacker in
  let '(errCode_, unpacker) := Deserialize int32_t unpacker in
  let '(memIds_, unpacker) := Deserialize (vector_t uint64_t) unpacker in
  let '(shmSize_, unpacker) := Deserialize uint64_t unpacker in
  let '(unitSize_, unpacker) := Deserialize uint64_t unpacker in
  let '(flag_, unpacker) := Deserialize uint64_t unpacker in
  let '(oflag_, unpacker) := Deserialize int32_t unpacker in
  (DeserializeResult unpacker, mkShmAttachResponse (mkMsgBase ver op dest) errCode_ memIds_ shmSize_ unitSize_ flag_ oflag_, unpacker).

Definition ShmAttachResponse_t : Codec ShmAttachResponse := message_t ShmAttachResponse_Serialize ShmAttachResponse_Deserialize.

Definition ShmAttachResponse_ok (m : ShmAttachResponse) : Prop :=
  fits_signed 2 (msgVer (ShmAttachResponse_base m)) /\ fits_signed 2 (opCode (ShmAttachResponse_base m)) /\
  fits_unsigned 4 (destRankId (ShmAttachResponse_base m)) /\ fits_signed 4 (ShmAttachResponse_errCode_ m) /\
  vector_ok (fits_unsigned 8) (ShmAttachResponse_memIds_ m) /\ fits_unsigned 8 (ShmAttachResponse_shmSize_ m) /\
  fits_unsigned 8 (ShmAttachResponse_unitSize_ m) /\ fits_unsigned 8 (ShmAttachResponse_flag_ m) /\
  fits_signed 4 (ShmAttachResponse_oflag_ m).

Lemma ShmAttachResponse_lawful : Lawful ShmAttachResponse_t ShmAttachResponse_ok.
Proof.
  message_by_members ShmAttachResponse_t ShmAttachResponse_Deserialize
    (int16_t ⊗ int16_t ⊗ uint32_t ⊗ int32_t ⊗ (vector_t uint64_t) ⊗ uint64_t ⊗ uint64_t ⊗ uint64_t ⊗ int32_t)%member
    (fun m => msgVer (ShmAttachResponse_base m) ,, opCode (ShmAttachResponse_base m) ,,
               destRankId (ShmAttachResponse_base m) ,, ShmAttachResponse_errCode_ m ,,
               ShmAttachResponse_memIds_ m ,, ShmAttachResponse_shmSize_ m ,, ShmAttachResponse_unitSize_ m ,,
               ShmAttachResponse_flag_ m ,, ShmAttachResponse_oflag_ m)%member.
Qed.

(** ** [ShmLookupResponse] *)

Record ShmLookupResponse := mkShmLookupResponse {
  ShmLookupResponse_base : MsgBase;
  ShmLookupResponse_errCode_ : Z;
  ShmLookupResponse_shmInfo_ : ubsmem_shmem_info_t;
}.

Definition ShmLookupResponse_Serialize (m : ShmLookupResponse) (packer : NetMsgPacker) : Z * NetMsgPacker :=
  let packer := Serialize int16_t (msgVer (ShmLookupResponse_base m)) packer in
  let packer := Serialize int16_t (opCode (ShmLookupResponse_base m)) packer in
  let packer := Serialize uint32_t (destRankId (ShmLookupResponse_base m)) packer in
  let packer := Serialize int32_t (ShmLookupResponse_errCode_ m) packer in
  let packer := Serialize shmem_info_t (ShmLookupResponse_shmInfo_ m) packer in
  (UBSM_OK, packer).

Definition ShmLookupResponse_Deserialize (unpacker : NetMsgUnpacker) : Z * ShmLookupResponse * NetMsgUnpacker :=
  let '(ver, unpacker) := Deserialize int16_t unpacker in
  let '(op, unpacker) := Deserialize int16_t unpacker in
  let '(dest, unpacker) := Deserialize uint32_t unpacker in
  let '(errCode_, unpacker) := Deserialize int32_t unpacker in
  let '(shmInfo_, unpacker) := Deserialize shmem_info_t unpacker in
  (DeserializeResult unpacker, mkShmLookupResponse (mkMsgBase ver op dest) errCode_ shmInfo_, unpacker).

Definition ShmLookupResponse_t : Codec ShmLookupResponse := message_t ShmLookupResponse_Serialize ShmLookupResponse_Deserialize.

Definition ShmLookupResponse_ok (m : ShmLookupResponse) : Prop :=
  fits_signed 2 (msgVer (ShmLookupResponse_base m)) /\ fits_signed 2 (opCode (ShmLookupResponse_base m)) /\
  fits_unsigned 4 (destRankId (ShmLookupResponse_base m)) /\ fits_signed 4 (ShmLookupResponse_errCode_ m) /\
  struct_ok sizeof_ubsmem_shmem_info_t (ShmLookupResponse_shmInfo_ m).

Lemma ShmLookupResponse_lawful : Lawful ShmLookupResponse_t ShmLookupResponse_ok.
Proof.
  message_by_members ShmLookupResponse_t ShmLookupResponse_Deserialize
    (int16_t ⊗ int16_t ⊗ uint32_t ⊗ int32_t ⊗ shmem_info_t)%member
    (fun m => msgVer (ShmLookupResponse_base m) ,, opCode (ShmLookupResponse_base m) ,,
               destRankId (ShmLookupResponse_base m) ,, ShmLookupResponse_errCode_ m ,,
               ShmLookupResponse_shmInfo_ m)%member.
Qed.

(** ** [QueryNodeResponse] *)

Record QueryNodeResponse := mkQueryNodeResponse {
  QueryNodeResponse_base : MsgBase;
  QueryNodeResponse_errCode_ : Z;
  QueryNodeResponse_nodeId_ : string;
  QueryNodeResponse_nodeIsReady_ : bool;
}.

Definition QueryNodeResponse_Serialize (m : QueryNodeResponse) (packer : NetMsgPacker) : Z * NetMsgPacker :=
  let packer := Serialize int16_t (msgVer (QueryNodeResponse_base m)) packer in
  let packer := Serialize int16_t (opCode (QueryNodeResponse_base m)) packer in
  let packer := Serialize uint32_t (destRankId (QueryNodeResponse_base m)) packer in
  let packer := Serialize int32_t (QueryNodeResponse_errCode_ m) packer in
  let packer := Serialize string_t (QueryNodeResponse_nodeId_ m) packer in
  let packer := Serialize bool_t (QueryNodeResponse_nodeIsReady_ m) packer in
  (UBSM_OK, packer).

Definition QueryNodeResponse_Deserialize (unpacker : NetMsgUnpacker) : Z * QueryNodeResponse * NetMsgUnpacker :=
  let '(ver, unpacker) := Deserialize int16_t unpacker in
  let '(op, unpacker) := Deserialize int16_t unpacker in
  let '(dest, unpacker) := Deserialize uint32_t unpacker in
  let '(errCode_, unpacker) := Deserialize int32_t unpacker in
  let '(nodeId_, unpacker) := Deserialize string_t unpacker in
  let '(nodeIsReady_, unpacker) := Deserialize bool_t unpacker in
  (DeserializeResult unpacker, mkQueryNodeResponse (mkMsgBase ver op dest) errCode_ nodeId_ nodeIsReady_, unpacker).

Definition QueryNodeResponse_t : Codec QueryNodeResponse := message_t QueryNodeResponse_Serialize QueryNodeResponse_Deserialize.

Definition QueryNodeResponse_ok (m : QueryNodeResponse) : Prop :=
  fits_signed 2 (msgVer (QueryNodeResponse_base m)) /\ fits_signed 2 (opCode (QueryNodeResponse_base m)) /\
  fits_unsigned 4 (destRankId (QueryNodeResponse_base m)) /\ fits_signed 4 (QueryNodeResponse_errCode_ m) /\
  string_ok (QueryNodeResponse_nodeId_ m) /\ True.

Lemma QueryNodeResponse_lawful : Lawful QueryNodeResponse_t QueryNodeResponse_ok.
Proof.
  message_by_members QueryNodeResponse_t QueryNodeResponse_Deserialize
    (int16_t ⊗ int16_t ⊗ uint32_t ⊗ int32_t ⊗ string_t ⊗ bool_t)%member
    (fun m => msgVer (QueryNodeResponse_base m) ,, opCode (QueryNodeResponse_base m) ,,
               destRankId (QueryNodeResponse_base m) ,, QueryNodeResponse_errCode_ m ,,
               QueryNodeResponse_nodeId_ m ,, QueryNodeResponse_nodeIsReady_ m)%member.
Qed.

(** ** [QueryDlockStatusResponse] *)

Record QueryDlockStatusResponse := mkQueryDlockStatusResponse {
  QueryDlockStatusResponse_base : MsgBase;
  QueryDlockStatusResponse_errCode_ : Z;
  QueryDlockStatusResponse_isReady_ : bool;
}.

Definition QueryDlockStatusResponse_Serialize (m : QueryDlockStatusResponse) (packer : NetMsgPacker) : Z * NetMsgPacker :=
  let packer := Serialize int16_t (msgVer (QueryDlockStatusResponse_base m)) packer in
  let packer := Serialize int16_t (opCode (QueryDlockStatusResponse_base m)) packer in
  let packer := Serialize uint32_t (destRankId (QueryDlockStatusResponse_base m)) packer in
  let packer := Serialize int32_t (QueryDlockStatusResponse_errCode_ m) packer in
  let packer := Serialize bool_t (QueryDlockStatusResponse_isReady_ m) packer in
  (UBSM_OK, packer).

Definition QueryDlockStatusResponse_Deserialize (unpacker : NetMsgUnpacker) : Z * QueryDlockStatusResponse * NetMsgUnpacker :=
  let '(ver, unpacker) := Deserialize int16_t unpacker in
  let '(op, unpacker) := Deserialize int16_t unpacker in
  let '(dest, unpacker) := Deserialize uint32_t unpacker in
  let '(errCode_, unpacker) := Deserialize int32_t unpacker in
  let '(isReady_, unpacker) := Deserialize bool_t unpacker in
  (DeserializeResult unpacker, mkQueryDlockStatusResponse (mkMsgBase ver op dest) errCode_ isReady_, unpacker).

Definition QueryDlockStatusResponse_t : Codec QueryDlockStatusResponse := message_t QueryDlockStatusResponse_Serialize QueryDlockStatusResponse_Deserialize.

Definition QueryDlockStatusResponse_ok (m : QueryDlockStatusResponse) : Prop :=
  fits_signed 2 (msgVer (QueryDlockStatusResponse_base m)) /\
  fits_signed 2 (opCode (QueryDlockStatusResponse_base m)) /\
  fits_unsigned 4 (destRankId (QueryDlockStatusResponse_base m)) /\
  fits_signed 4 (QueryDlockStatusResponse_errCode_ m) /\ True.

Lemma QueryDlockStatusResponse_lawful : Lawful QueryDlockStatusResponse_t QueryDlockStatusResponse_ok.
Proof.
  message_by_members QueryDlockStatusResponse_t QueryDlockStatusResponse_Deserialize
    (int16_t ⊗ int16_t ⊗ uint32_t ⊗ int32_t ⊗ bool_t)%member
    (fun m => msgVer (QueryDlockStatusResponse_base m) ,, opCode (QueryDlockStatusResponse_base m) ,,
               destRankId (QueryDlockStatusResponse_base m) ,, QueryDlockStatusResponse_errCode_ m ,,
               QueryDlockStatusResponse_isReady_ m)%member.
Qed.

(** ** [ShmListLookupResponse] *)

Record ShmListLookupResponse := mkShmListLookupResponse {
  ShmListLookupResponse_base : MsgBase;
  ShmListLookupResponse_errCode_ : Z;
  ShmListLookupResponse_shmNames_ : list ubsmem_shmem_desc_t;
}.

Definition ShmListLookupResponse_Serialize (m : ShmListLookupResponse) (packer : NetMsgPacker) : Z * NetMsgPacker :=
  let packer := Serialize int16_t (msgVer (ShmListLookupResponse_base m)) packer in
  let packer := Serialize int16_t (opCode (ShmListLookupResponse_base m)) packer in
  let packer := Serialize uint32_t (destRankId (ShmListLookupResponse_base m)) packer in
  let packer := Serialize int32_t (ShmListLookupResponse_errCode_ m) packer in
  let packer := Serialize (vector_t shmem_desc_t) (ShmListLookupResponse_shmNames_ m) packer in
  (UBSM_OK, packer).

Definition ShmListLookupResponse_Deserialize (unpacker : NetMsgUnpacker) : Z * ShmListLookupResponse * NetMsgUnpacker :=
  let '(ver, unpacker) := Deserialize int16_t unpacker in
  let '(op, unpacker) := Deserialize int16_t unpacker in
  let '(dest, unpacker) := Deserialize uint32_t unpacker in
  let '(errCode_, unpacker) := Deserialize int32_t unpacker in
  let '(shmNames_, unpacker) := Deserialize (vector_t shmem_desc_t) unpacker in
  (DeserializeResult unpacker, mkShmListLookupResponse (mkMsgBase ver op dest) errCode_ shmNames_, unpacker).

Definition ShmListLookupResponse_t : Codec ShmListLookupResponse := message_t ShmListLookupResponse_Serialize ShmListLookupResponse_Deserialize.

Definition ShmListLookupResponse_ok (m : ShmListLookupResponse) : Prop :=
  fits_signed 2 (msgVer (ShmListLookupResponse_base m)) /\ fits_signed 2 (opCode (ShmListLookupResponse_base m)) /\
  fits_unsigned 4 (destRankId (ShmListLookupResponse_base m)) /\
  fits_signed 4 (ShmListLookupResponse_errCode_ m) /\
  vector_ok (struct_ok sizeof_ubsmem_shmem_desc_t) (ShmListLookupResponse_shmNames_ m).

Lemma ShmListLookupResponse_lawful : Lawful ShmListLookupResponse_t ShmListLookupResponse_ok.
Proof.
  message_by_members ShmListLookupResponse_t ShmListLookupResponse_Deserialize
    (int16_t ⊗ int16_t ⊗ uint32_t ⊗ int32_t ⊗ (vector_t shmem_desc_t))%member
    (fun m => msgVer (ShmListLookupResponse_base m) ,, opCode (ShmListLookupResponse_base m) ,,
               destRankId (ShmListLookupResponse_base m) ,, ShmListLookupResponse_errCode_ m ,,
               ShmListLookupResponse_shmNames_ m)%member.
Qed.

(** ** [LookupSlotIdResponse] *)

Record LookupSlotIdResponse := mkLookupSlotIdResponse {
  LookupSlotIdResponse_base : MsgBase;
  LookupSlotIdResponse_errCode_ : Z;
  LookupSlotIdResponse_slotId_ : Z;
}.

Definition LookupSlotIdResponse_Serialize (m : LookupSlotIdResponse) (packer : NetMsgPacker) : Z * NetMsgPacker :=
  let packer := Serialize int16_t (msgVer (LookupSlotIdResponse_base m)) packer in
  let packer := Serialize int16_t (opCode (LookupSlotIdResponse_base m)) packer in
  let packer := Serialize uint32_t (destRankId (LookupSlotIdResponse_base m)) packer in
  let packer := Serialize int32_t (LookupSlotIdResponse_errCode_ m) packer in
  let packer := Serialize uint32_t (LookupSlotIdResponse_slotId_ m) packer in
  (UBSM_OK, packer).

Definition LookupSlotIdResponse_Deserialize (unpacker : NetMsgUnpacker) : Z * LookupSlotIdResponse * NetMsgUnpacker :=
  let '(ver, unpacker) := Deserialize int16_t unpacker in
  let '(op, unpacker) := Deserialize int16_t unpacker in
  let '(dest, unpacker) := Deserialize uint32_t unpacker in
  let '(errCode_, unpacker) := Deserialize int32_t unpacker in
  let '(slotId_, unpacker) := Deserialize uint32_t unpacker in
  (DeserializeResult unpacker, mkLookupSlotIdResponse (mkMsgBase ver op dest) errCode_ slotId_, unpacker).

Definition LookupSlotIdResponse_t : Codec LookupSlotIdResponse := message_t LookupSlotIdResponse_Serialize LookupSlotIdResponse_Deserialize.

Definition LookupSlotIdResponse_ok (m : LookupSlotIdResponse) : Prop :=
  fits_signed 2 (msgVer (LookupSlotIdResponse_base m)) /\ fits_signed 2 (opCode (LookupSlotIdResponse_base m)) /\
  fits_unsigned 4 (destRankId (LookupSlotIdResponse_base m)) /\ fits_signed 4 (LookupSlotIdResponse_errCode_ m) /\
  fits_unsigned 4 (LookupSlotIdResponse_slotId_ m).

Lemma LookupSlotIdResponse_lawful : Lawful LookupSlotIdResponse_t LookupSlotIdResponse_ok.
Proof.
  message_by_members LookupSlotIdResponse_t LookupSlotIdResponse_Deserialize
    (int16_t ⊗ int16_t ⊗ uint32_t ⊗ int32_t ⊗ uint32_t)%member
    (fun m => msgVer (LookupSlotIdResponse_base m) ,, opCode (LookupSlotIdResponse_base m) ,,
               destRankId (LookupSlotIdResponse_base m) ,, LookupSlotIdResponse_errCode_ m ,,
               LookupSlotIdResponse_slotId_ m)%member.
Qed.
