(* ===== verification/MsgFactory.v ===== *)
(** Message kinds and the two factories of [src/mxm_message/mxm_msg.cpp].

    A [MsgKind] stands for the dynamic class of a [MsgBase] pointer; the virtual
    member functions are dispatched on it. The operation codes are those of
    [message_op.h] and [mxm_msg_base.h]. *)

From S2P Require Import Prelude StoreTypes MsgPacker MsgCodec MsgBase MsgRequests MsgResponses.

(** ** Operation codes *)

(** [RmMemOpCodeIpc] *)
Definition MEM_OP_SERVER_BEGIN : Z := 0.
Definition IPC_FREE_RACKMEM : Z := 1.
Definition IPC_MALLOC_MEMORY : Z := 2.
Definition IPC_MALLOC_MEMORY_LOC : Z := 3.
Definition IPC_CHECK_MEMORY_LEASE : Z := 4.
Definition IPC_RACKMEMSHM_LOOKUP_SHAREREGIONS : Z := 5.
Definition IPC_RACKMEMSHM_LOOKUP_REGIONINFO : Z := 6.
Definition IPC_RACKMEMSHM_CREATE : Z := 7.
Definition IPC_RACKMEMSHM_CREATE_WITH_PROVIDER : Z := 8.
Definition IPC_RACKMEMSHM_MMAP : Z := 9.
Definition IPC_RACKMEMSHM_UNMMAP : Z := 10.
Definition IPC_RACKMEMSHM_DELETE : Z := 11.
Definition IPC_RACKMEMSHM_QUERY_MEM_FAULT_STATUS : Z := 12.
Definition IPC_CHECK_SHARE_MEMORY : Z := 13.
Definition IPC_REGION_LOOKUP_REGION_LIST : Z := 14.
Definition IPC_REGION_CREATE_REGION : Z := 15.
Definition IPC_REGION_LOOKUP_REGION : Z := 16.
Definition IPC_REGION_DESTROY_REGION : Z := 17.
Definition IPC_RACKMEMSHM_WRITELOCK : Z := 18.
Definition IPC_RACKMEMSHM_READLOCK : Z := 19.
Definition IPC_RACKMEMSHM_UNLOCK : Z := 20.
Definition IPC_QUERY_CLUSTERINFO : Z := 21.
Definition IPC_FORCE_FREE_CACHED_MEMORY : Z := 22.
Definition IPC_QUERY_CACHED_MEMORY : Z := 23.
Definition IPC_RACKMEMSHM_LOOKUP_LIST : Z := 24.
Definition IPC_RACKMEMSHM_LOOKUP : Z := 25.
Definition IPC_RACKMEMSHM_ATTACH : Z := 26.
Definition IPC_RACKMEMSHM_DETACH : Z := 27.
Definition IPC_RACKMEMSHM_QUERY_DLOCK_STATUS : Z := 28.
Definition IPC_RACKMEMSHM_QUERY_NODE : Z := 29.
Definition IPC_RACKMEMSHM_QUERY_SLOT_ID : Z := 30.
Definition IPC_SUSPEND_CLIENT : Z := 31.
Definition IPC_RESUME_CLIENT : Z := 32.

(** [RmMemOpCodeRpc] *)
Definition RPC_AGENT_QUERY_NODE_INFO : Z := 100.
Definition RPC_DLOCK_CLIENT_REINIT : Z := 101.
Definition RPC_LOCK : Z := 102.
Definition RPC_UNLOCK : Z := 103.
Definition RPC_PING_NODE_INFO : Z := 104.
Definition RPC_JOIN_NODE_INFO : Z := 105.
Definition RPC_MASTER_ELECTED_NODE_INFO : Z := 106.
Definition RPC_SEND_ELECTED_MASTER_INFO : Z := 107.
Definition RPC_VOTE_NODE_INFO : Z := 108.
Definition RPC_BROADCAST_NODE_INFO : Z := 109.

(** [MXM_MSG_OPCODE] *)
Definition MXM_MSG_SHM_ALLOCATE : Z := 66.
Definition MXM_MSG_SHM_DEALLOCATE : Z := 67.
Definition MXM_MSG_BUTT : Z := 68.

(** Every enumerator of [RmMemOpCodeIpc]. *)
Definition ipc_opcodes : list Z :=
  [MEM_OP_SERVER_BEGIN; IPC_FREE_RACKMEM; IPC_MALLOC_MEMORY; IPC_MALLOC_MEMORY_LOC; IPC_CHECK_MEMORY_LEASE;
   IPC_RACKMEMSHM_LOOKUP_SHAREREGIONS; IPC_RACKMEMSHM_LOOKUP_REGIONINFO; IPC_RACKMEMSHM_CREATE;
   IPC_RACKMEMSHM_CREATE_WITH_PROVIDER; IPC_RACKMEMSHM_MMAP; IPC_RACKMEMSHM_UNMMAP; IPC_RACKMEMSHM_DELETE;
   IPC_RACKMEMSHM_QUERY_MEM_FAULT_STATUS; IPC_CHECK_SHARE_MEMORY; IPC_REGION_LOOKUP_REGION_LIST;
   IPC_REGION_CREATE_REGION; IPC_REGION_LOOKUP_REGION; IPC_REGION_DESTROY_REGION; IPC_RACKMEMSHM_WRITELOCK;
   IPC_RACKMEMSHM_READLOCK; IPC_RACKMEMSHM_UNLOCK; IPC_QUERY_CLUSTERINFO; IPC_FORCE_FREE_CACHED_MEMORY;
   IPC_QUERY_CACHED_MEMORY; IPC_RACKMEMSHM_LOOKUP_LIST; IPC_RACKMEMSHM_LOOKUP; IPC_RACKMEMSHM_ATTACH;
   IPC_RACKMEMSHM_DETACH; IPC_RACKMEMSHM_QUERY_DLOCK_STATUS; IPC_RACKMEMSHM_QUERY_NODE;
   IPC_RACKMEMSHM_QUERY_SLOT_ID; IPC_SUSPEND_CLIENT; IPC_RESUME_CLIENT].

(** Every enumerator of [RmMemOpCodeRpc]. *)
Definition rpc_opcodes : list Z :=
  [RPC_AGENT_QUERY_NODE_INFO; RPC_DLOCK_CLIENT_REINIT; RPC_LOCK; RPC_UNLOCK; RPC_PING_NODE_INFO;
   RPC_JOIN_NODE_INFO; RPC_MASTER_ELECTED_NODE_INFO; RPC_SEND_ELECTED_MASTER_INFO; RPC_VOTE_NODE_INFO;
   RPC_BROADCAST_NODE_INFO].

(** ** Message kinds *)

Inductive MsgKind :=
  | K_CheckMemoryLeaseRequest
  | K_CheckShareMemoryMapRequest
  | K_CommonRequest
  | K_CommonResponse
  | K_ShmemAllocateRequest
  | K_ShmemDeallocateRequest
  | K_AppMallocMemoryRequest
  | K_AppMallocMemoryWithLocRequest
  | K_AppFreeMemoryRequest
  | K_AppMallocMemoryResponse
  | K_AppQueryClusterInfoResponse
  | K_AppQueryCachedMemoryResponse
  | K_ShmLookRegionListRequest
  | K_ShmCreateRegionRequest
  | K_ShmLookupRegionRequest
  | K_ShmDestroyRegionRequest
  | K_ShmCreateRequest
  | K_ShmCreateWithProviderRequest
  | K_ShmDeleteRequest
  | K_ShmMapRequest
  | K_ShmUnmapRequest
  | K_ShmQueryMemFaultStatusRequest
  | K_PingRequest
  | K_VoteRequest
  | K_BroadcastRequest
  | K_TransElectedRequest
  | K_ShmLookRegionListResponse
  | K_ShmCreateRegionResponse
  | K_ShmLookupRegionResponse
  | K_ShmDestroyRegionResponse
  | K_ShmMapResponse
  | K_ShmQueryMemFaultStatusResponse
  | K_ShmWriteLockRequest
  | K_ShmWriteLockResponse
  | K_ShmReadLockRequest
  | K_ShmReadLockResponse
  | K_ShmUnLockRequest
  | K_ShmUnLockResponse
  | K_RpcQueryInfoResponse
  | K_DLockClientReinitRequest
  | K_DLockClientReinitResponse
  | K_LockRequest
  | K_UnLockRequest
  | K_DLockResponse
  | K_RpcJoinInfoResponse
  | K_RpcVoteInfoResponse
  | K_ShmAttachRequest
  | K_ShmAttachResponse
  | K_ShmDetachRequest
  | K_ShmLookupRequest
  | K_ShmLookupResponse
  | K_QueryNodeRequest
  | K_QueryNodeResponse
  | K_QueryDlockStatusResponse
  | K_ShmListLookupRequest
  | K_ShmListLookupResponse
  | K_LookupSlotIdResponse
  | K_IpcSuspendRequest
  | K_IpcResumeRequest.

#[export] Instance MsgKind_eq_dec : EqDecision MsgKind.
Proof. solve_decision. Defined.

(** The struct of each kind. *)
Definition msg_type (k : MsgKind) : Type :=
  match k with
  | K_CheckMemoryLeaseRequest => CheckMemoryLeaseRequest
  | K_CheckShareMemoryMapRequest => CheckShareMemoryMapRequest
  | K_CommonRequest => CommonRequest
  | K_CommonResponse => CommonResponse
  | K_ShmemAllocateRequest => ShmemAllocateRequest
  | K_ShmemDeallocateRequest => ShmemDeallocateRequest
  | K_AppMallocMemoryRequest => AppMallocMemoryRequest
  | K_AppMallocMemoryWithLocRequest => AppMallocMemoryWithLocRequest
  | K_AppFreeMemoryRequest => AppFreeMemoryRequest
  | K_AppMallocMemoryResponse => AppMallocMemoryResponse
  | K_AppQueryClusterInfoResponse => AppQueryClusterInfoResponse
  | K_AppQueryCachedMemoryResponse => AppQueryCachedMemoryResponse
  | K_ShmLookRegionListRequest => ShmLookRegionListRequest
  | K_ShmCreateRegionRequest => ShmCreateRegionRequest
  | K_ShmLookupRegionRequest => ShmLookupRegionRequest
  | K_ShmDestroyRegionRequest => ShmDestroyRegionRequest
  | K_ShmCreateRequest => ShmCreateRequest
  | K_ShmCreateWithProviderRequest => ShmCreateWithProviderRequest
  | K_ShmDeleteRequest => ShmDeleteRequest
  | K_ShmMapRequest => ShmMapRequest
  | K_ShmUnmapRequest => ShmUnmapRequest
  | K_ShmQueryMemFaultStatusRequest => ShmQueryMemFaultStatusRequest
  | K_PingRequest => PingRequest
  | K_VoteRequest => VoteRequest
  | K_BroadcastRequest => BroadcastRequest
  | K_TransElectedRequest => TransElectedRequest
  | K_ShmLookRegionListResponse => ShmLookRegionListResponse
  | K_ShmCreateRegionResponse => ShmCreateRegionResponse
  | K_ShmLookupRegionResponse => ShmLookupRegionResponse
  | K_ShmDestroyRegionResponse => ShmDestroyRegionResponse
  | K_ShmMapResponse => ShmMapResponse
  | K_ShmQueryMemFaultStatusResponse => ShmQueryMemFaultStatusResponse
  | K_ShmWriteLockRequest => ShmWriteLockRequest
  | K_ShmWriteLockResponse => ShmWriteLockResponse
  | K_ShmReadLockRequest => ShmReadLockRequest
  | K_ShmReadLockResponse => ShmReadLockResponse
  | K_ShmUnLockRequest => ShmUnLockRequest
  | K_ShmUnLockResponse => ShmUnLockResponse
  | K_RpcQueryInfoResponse => RpcQueryInfoResponse
  | K_DLockClientReinitRequest => DLockClientReinitRequest
  | K_DLockClientReinitResponse => DLockClientReinitResponse
  | K_LockRequest => LockRequest
  | K_UnLockRequest => UnLockRequest
  | K_DLockResponse => DLockResponse
  | K_RpcJoinInfoResponse => RpcJoinInfoResponse
  | K_RpcVoteInfoResponse => RpcVoteInfoResponse
  | K_ShmAttachRequest => ShmAttachRequest
  | K_ShmAttachResponse => ShmAttachResponse
  | K_ShmDetachRequest => ShmDetachRequest
  | K_ShmLookupRequest => ShmLookupRequest
  | K_ShmLookupResponse => ShmLookupResponse
  | K_QueryNodeRequest => QueryNodeRequest
  | K_QueryNodeResponse => QueryNodeResponse
  | K_QueryDlockStatusResponse => QueryDlockStatusResponse
  | K_ShmListLookupRequest => ShmListLookupRequest
  | K_ShmListLookupResponse => ShmListLookupResponse
  | K_LookupSlotIdResponse => LookupSlotIdResponse
  | K_IpcSuspendRequest => IpcSuspendRequest
  | K_IpcResumeRequest => IpcResumeRequest
  end.

(** [MsgBase::Serialize], dispatched. *)
Definition Msg_Serialize (k : MsgKind) : msg_type k -> NetMsgPacker -> Z * NetMsgPacker :=
  match k return msg_type k -> NetMsgPacker -> Z * NetMsgPacker with
  | K_CheckMemoryLeaseRequest => CheckMemoryLeaseRequest_Serialize
  | K_CheckShareMemoryMapRequest => CheckShareMemoryMapRequest_Serialize
  | K_CommonRequest => CommonRequest_Serialize
  | K_CommonResponse => CommonResponse_Serialize
  | K_ShmemAllocateRequest => ShmemAllocateRequest_Serialize
  | K_ShmemDeallocateRequest => ShmemDeallocateRequest_Serialize
  | K_AppMallocMemoryRequest => AppMallocMemoryRequest_Serialize
  | K_AppMallocMemoryWithLocRequest => AppMallocMemoryWithLocRequest_Serialize
  | K_AppFreeMemoryRequest => AppFreeMemoryRequest_Serialize
  | K_AppMallocMemoryResponse => AppMallocMemoryResponse_Serialize
  | K_AppQueryClusterInfoResponse => AppQueryClusterInfoResponse_Serialize
  | K_AppQueryCachedMemoryResponse => AppQueryCachedMemoryResponse_Serialize
  | K_ShmLookRegionListRequest => ShmLookRegionListRequest_Serialize
  | K_ShmCreateRegionRequest => ShmCreateRegionRequest_Serialize
  | K_ShmLookupRegionRequest => ShmLookupRegionRequest_Serialize
  | K_ShmDestroyRegionRequest => ShmDestroyRegionRequest_Serialize
  | K_ShmCreateRequest => ShmCreateRequest_Serialize
  | K_ShmCreateWithProviderRequest => ShmCreateWithProviderRequest_Serialize
  | K_ShmDeleteRequest => ShmDeleteRequest_Serialize
  | K_ShmMapRequest => ShmMapRequest_Serialize
  | K_ShmUnmapRequest => ShmUnmapRequest_Serialize
  | K_ShmQueryMemFaultStatusRequest => ShmQueryMemFaultStatusRequest_Serialize
  | K_PingRequest => PingRequest_Serialize
  | K_VoteRequest => VoteRequest_Serialize
  | K_BroadcastRequest => BroadcastRequest_Serialize
  | K_TransElectedRequest => TransElectedRequest_Serialize
  | K_ShmLookRegionListResponse => ShmLookRegionListResponse_Serialize
  | K_ShmCreateRegionResponse => ShmCreateRegionResponse_Serialize
  | K_ShmLookupRegionResponse => ShmLookupRegionResponse_Serialize
  | K_ShmDestroyRegionResponse => ShmDestroyRegionResponse_Serialize
  | K_ShmMapResponse => ShmMapResponse_Serialize
  | K_ShmQueryMemFaultStatusResponse => ShmQueryMemFaultStatusResponse_Serialize
  | K_ShmWriteLockRequest => ShmWriteLockRequest_Serialize
  | K_ShmWriteLockResponse => ShmWriteLockResponse_Serialize
  | K_ShmReadLockRequest => ShmReadLockRequest_Serialize
  | K_ShmReadLockResponse => ShmReadLockResponse_Serialize
  | K_ShmUnLockRequest => ShmUnLockRequest_Serialize
  | K_ShmUnLockResponse => ShmUnLockResponse_Serialize
  | K_RpcQueryInfoResponse => RpcQueryInfoResponse_Serialize
  | K_DLockClientReinitRequest => DLockClientReinitRequest_Serialize
  | K_DLockClientReinitResponse => DLockClientReinitResponse_Serialize
  | K_LockRequest => LockRequest_Serialize
  | K_UnLockRequest => UnLockRequest_Serialize
  | K_DLockResponse => DLockResponse_Serialize
  | K_RpcJoinInfoResponse => RpcJoinInfoResponse_Serialize
  | K_RpcVoteInfoResponse => RpcVoteInfoResponse_Serialize
  | K_ShmAttachRequest => ShmAttachRequest_Serialize
  | K_ShmAttachResponse => ShmAttachResponse_Serialize
  | K_ShmDetachRequest => ShmDetachRequest_Serialize
  | K_ShmLookupRequest => ShmLookupRequest_Serialize
  | K_ShmLookupResponse => ShmLookupResponse_Serialize
  | K_QueryNodeRequest => QueryNodeRequest_Serialize
  | K_QueryNodeResponse => QueryNodeResponse_Serialize
  | K_QueryDlockStatusResponse => QueryDlockStatusResponse_Serialize
  | K_ShmListLookupRequest => ShmListLookupRequest_Serialize
  | K_ShmListLookupResponse => ShmListLookupResponse_Serialize
  | K_LookupSlotIdResponse => LookupSlotIdResponse_Serialize
  | K_IpcSuspendRequest => IpcSuspendRequest_Serialize
  | K_IpcResumeRequest => IpcResumeRequest_Serialize
  end.

(** [MsgBase::Deserialize], dispatched. *)
Definition Msg_Deserialize (k : MsgKind) : NetMsgUnpacker -> Z * msg_type k * NetMsgUnpacker :=
  match k return NetMsgUnpacker -> Z * msg_type k * NetMsgUnpacker with
  | K_CheckMemoryLeaseRequest => CheckMemoryLeaseRequest_Deserialize
  | K_CheckShareMemoryMapRequest => CheckShareMemoryMapRequest_Deserialize
  | K_CommonRequest => CommonRequest_Deserialize
  | K_CommonResponse => CommonResponse_Deserialize
  | K_ShmemAllocateRequest => ShmemAllocateRequest_Deserialize
  | K_ShmemDeallocateRequest => ShmemDeallocateRequest_Deserialize
  | K_AppMallocMemoryRequest => AppMallocMemoryRequest_Deserialize
  | K_AppMallocMemoryWithLocRequest => AppMallocMemoryWithLocRequest_Deserialize
  | K_AppFreeMemoryRequest => AppFreeMemoryRequest_Deserialize
  | K_AppMallocMemoryResponse => AppMallocMemoryResponse_Deserialize
  | K_AppQueryClusterInfoResponse => AppQueryClusterInfoResponse_Deserialize
  | K_AppQueryCachedMemoryResponse => AppQueryCachedMemoryResponse_Deserialize
  | K_ShmLookRegionListRequest => ShmLookRegionListRequest_Deserialize
  | K_ShmCreateRegionRequest => ShmCreateRegionRequest_Deserialize
  | K_ShmLookupRegionRequest => ShmLookupRegionRequest_Deserialize
  | K_ShmDestroyRegionRequest => ShmDestroyRegionRequest_Deserialize
  | K_ShmCreateRequest => ShmCreateRequest_Deserialize
  | K_ShmCreateWithProviderRequest => ShmCreateWithProviderRequest_Deserialize
  | K_ShmDeleteRequest => ShmDeleteRequest_Deserialize
  | K_ShmMapRequest => ShmMapRequest_Deserialize
  | K_ShmUnmapRequest => ShmUnmapRequest_Deserialize
  | K_ShmQueryMemFaultStatusRequest => ShmQueryMemFaultStatusRequest_Deserialize
  | K_PingRequest => PingRequest_Deserialize
  | K_VoteRequest => VoteRequest_Deserialize
  | K_BroadcastRequest => BroadcastRequest_Deserialize
  | K_TransElectedRequest => TransElectedRequest_Deserialize
  | K_ShmLookRegionListResponse => ShmLookRegionListResponse_Deserialize
  | K_ShmCreateRegionResponse => ShmCreateRegionResponse_Deserialize
  | K_ShmLookupRegionResponse => ShmLookupRegionResponse_Deserialize
  | K_ShmDestroyRegionResponse => ShmDestroyRegionResponse_Deserialize
  | K_ShmMapResponse => ShmMapResponse_Deserialize
  | K_ShmQueryMemFaultStatusResponse => ShmQueryMemFaultStatusResponse_Deserialize
  | K_ShmWriteLockRequest => ShmWriteLockRequest_Deserialize
  | K_ShmWriteLockResponse => ShmWriteLockResponse_Deserialize
  | K_ShmReadLockRequest => ShmReadLockRequest_Deserialize
  | K_ShmReadLockResponse => ShmReadLockResponse_Deserialize
  | K_ShmUnLockRequest => ShmUnLockRequest_Deserialize
  | K_ShmUnLockResponse => ShmUnLockResponse_Deserialize
  | K_RpcQueryInfoResponse => RpcQueryInfoResponse_Deserialize
  | K_DLockClientReinitRequest => DLockClientReinitRequest_Deserialize
  | K_DLockClientReinitResponse => DLockClientReinitResponse_Deserialize
  | K_LockRequest => LockRequest_Deserialize
  | K_UnLockRequest => UnLockRequest_Deserialize
  | K_DLockResponse => DLockResponse_Deserialize
  | K_RpcJoinInfoResponse => RpcJoinInfoResponse_Deserialize
  | K_RpcVoteInfoResponse => RpcVoteInfoResponse_Deserialize
  | K_ShmAttachRequest => ShmAttachRequest_Deserialize
  | K_ShmAttachResponse => ShmAttachResponse_Deserialize
  | K_ShmDetachRequest => ShmDetachRequest_Deserialize
  | K_ShmLookupRequest => ShmLookupRequest_Deserialize
  | K_ShmLookupResponse => ShmLookupResponse_Deserialize
  | K_QueryNodeRequest => QueryNodeRequest_Deserialize
  | K_QueryNodeResponse => QueryNodeResponse_Deserialize
  | K_QueryDlockStatusResponse => QueryDlockStatusResponse_Deserialize
  | K_ShmListLookupRequest => ShmListLookupRequest_Deserialize
  | K_ShmListLookupResponse => ShmListLookupResponse_Deserialize
  | K_LookupSlotIdResponse => LookupSlotIdResponse_Deserialize
  | K_IpcSuspendRequest => IpcSuspendRequest_Deserialize
  | K_IpcResumeRequest => IpcResumeRequest_Deserialize
  end.

(** Members in the range of their C++ types, strings and containers within the size limit of the unpacker. *)
Definition msg_ok (k : MsgKind) : msg_type k -> Prop :=
  match k return msg_type k -> Prop with
  | K_CheckMemoryLeaseRequest => CheckMemoryLeaseRequest_ok
  | K_CheckShareMemoryMapRequest => CheckShareMemoryMapRequest_ok
  | K_CommonRequest => CommonRequest_ok
  | K_CommonResponse => CommonResponse_ok
  | K_ShmemAllocateRequest => ShmemAllocateRequest_ok
  | K_ShmemDeallocateRequest => ShmemDeallocateRequest_ok
  | K_AppMallocMemoryRequest => AppMallocMemoryRequest_ok
  | K_AppMallocMemoryWithLocRequest => AppMallocMemoryWithLocRequest_ok
  | K_AppFreeMemoryRequest => AppFreeMemoryRequest_ok
  | K_AppMallocMemoryResponse => AppMallocMemoryResponse_ok
  | K_AppQueryClusterInfoResponse => AppQueryClusterInfoResponse_ok
  | K_AppQueryCachedMemoryResponse => AppQueryCachedMemoryResponse_ok
  | K_ShmLookRegionListRequest => ShmLookRegionListRequest_ok
  | K_ShmCreateRegionRequest => ShmCreateRegionRequest_ok
  | K_ShmLookupRegionRequest => ShmLookupRegionRequest_ok
  | K_ShmDestroyRegionRequest => ShmDestroyRegionRequest_ok
  | K_ShmCreateRequest => ShmCreateRequest_ok
  | K_ShmCreateWithProviderRequest => ShmCreateWithProviderRequest_ok
  | K_ShmDeleteRequest => ShmDeleteRequest_ok
  | K_ShmMapRequest => ShmMapRequest_ok
  | K_ShmUnmapRequest => ShmUnmapRequest_ok
  | K_ShmQueryMemFaultStatusRequest => ShmQueryMemFaultStatusRequest_ok
  | K_PingRequest => PingRequest_ok
  | K_VoteRequest => VoteRequest_ok
  | K_BroadcastRequest => BroadcastRequest_ok
  | K_TransElectedRequest => TransElectedRequest_ok
  | K_ShmLookRegionListResponse => ShmLookRegionListResponse_ok
  | K_ShmCreateRegionResponse => ShmCreateRegionResponse_ok
  | K_ShmLookupRegionResponse => ShmLookupRegionResponse_ok
  | K_ShmDestroyRegionResponse => ShmDestroyRegionResponse_ok
  | K_ShmMapResponse => ShmMapResponse_ok
  | K_ShmQueryMemFaultStatusResponse => ShmQueryMemFaultStatusResponse_ok
  | K_ShmWriteLockRequest => ShmWriteLockRequest_ok
  | K_ShmWriteLockResponse => ShmWriteLockResponse_ok
  | K_ShmReadLockRequest => ShmReadLockRequest_ok
  | K_ShmReadLockResponse => ShmReadLockResponse_ok
  | K_ShmUnLockRequest => ShmUnLockRequest_ok
  | K_ShmUnLockResponse => ShmUnLockResponse_ok
  | K_RpcQueryInfoResponse => RpcQueryInfoResponse_ok
  | K_DLockClientReinitRequest => DLockClientReinitRequest_ok
  | K_DLockClientReinitResponse => DLockClientReinitResponse_ok
  | K_LockRequest => LockRequest_ok
  | K_UnLockRequest => UnLockRequest_ok
  | K_DLockResponse => DLockResponse_ok
  | K_RpcJoinInfoResponse => RpcJoinInfoResponse_ok
  | K_RpcVoteInfoResponse => RpcVoteInfoResponse_ok
  | K_ShmAttachRequest => ShmAttachRequest_ok
  | K_ShmAttachResponse => ShmAttachResponse_ok
  | K_ShmDetachRequest => ShmDetachRequest_ok
  | K_ShmLookupRequest => ShmLookupRequest_ok
  | K_ShmLookupResponse => ShmLookupResponse_ok
  | K_QueryNodeRequest => QueryNodeRequest_ok
  | K_QueryNodeResponse => QueryNodeResponse_ok
  | K_QueryDlockStatusResponse => QueryDlockStatusResponse_ok
  | K_ShmListLookupRequest => ShmListLookupRequest_ok
  | K_ShmListLookupResponse => ShmListLookupResponse_ok
  | K_LookupSlotIdResponse => LookupSlotIdResponse_ok
  | K_IpcSuspendRequest => IpcSuspendRequest_ok
  | K_IpcResumeRequest => IpcResumeRequest_ok
  end.

(** The operation code the default constructor stores. *)
Definition default_opCode (k : MsgKind) : Z :=
  match k with
  | K_CheckMemoryLeaseRequest => IPC_CHECK_MEMORY_LEASE
  | K_CheckShareMemoryMapRequest => IPC_CHECK_SHARE_MEMORY
  | K_CommonRequest => MXM_MSG_BUTT
  | K_CommonResponse => MXM_MSG_BUTT
  | K_ShmemAllocateRequest => MXM_MSG_SHM_ALLOCATE
  | K_ShmemDeallocateRequest => MXM_MSG_SHM_DEALLOCATE
  | K_AppMallocMemoryRequest => IPC_MALLOC_MEMORY
  | K_AppMallocMemoryWithLocRequest => IPC_MALLOC_MEMORY_LOC
  | K_AppFreeMemoryRequest => IPC_FREE_RACKMEM
  | K_AppMallocMemoryResponse => MXM_MSG_BUTT
  | K_AppQueryClusterInfoResponse => MXM_MSG_BUTT
  | K_AppQueryCachedMemoryResponse => MXM_MSG_BUTT
  | K_ShmLookRegionListRequest => IPC_RACKMEMSHM_LOOKUP_SHAREREGIONS
  | K_ShmCreateRegionRequest => IPC_REGION_CREATE_REGION
  | K_ShmLookupRegionRequest => IPC_REGION_LOOKUP_REGION
  | K_ShmDestroyRegionRequest => IPC_REGION_DESTROY_REGION
  | K_ShmCreateRequest => IPC_RACKMEMSHM_CREATE
  | K_ShmCreateWithProviderRequest => IPC_RACKMEMSHM_CREATE_WITH_PROVIDER
  | K_ShmDeleteRequest => IPC_RACKMEMSHM_DELETE
  | K_ShmMapRequest => IPC_RACKMEMSHM_MMAP
  | K_ShmUnmapRequest => IPC_RACKMEMSHM_UNMMAP
  | K_ShmQueryMemFaultStatusRequest => IPC_RACKMEMSHM_QUERY_MEM_FAULT_STATUS
  | K_PingRequest => MXM_MSG_SHM_ALLOCATE
  | K_VoteRequest => MXM_MSG_SHM_ALLOCATE
  | K_BroadcastRequest => MXM_MSG_SHM_ALLOCATE
  | K_TransElectedRequest => MXM_MSG_SHM_ALLOCATE
  | K_ShmLookRegionListResponse => MXM_MSG_BUTT
  | K_ShmCreateRegionResponse => MXM_MSG_BUTT
  | K_ShmLookupRegionResponse => MXM_MSG_BUTT
  | K_ShmDestroyRegionResponse => MXM_MSG_BUTT
  | K_ShmMapResponse => MXM_MSG_BUTT
  | K_ShmQueryMemFaultStatusResponse => MXM_MSG_BUTT
  | K_ShmWriteLockRequest => IPC_RACKMEMSHM_WRITELOCK
  | K_ShmWriteLockResponse => MXM_MSG_BUTT
  | K_ShmReadLockRequest => IPC_RACKMEMSHM_READLOCK
  | K_ShmReadLockResponse => MXM_MSG_BUTT
  | K_ShmUnLockRequest => IPC_RACKMEMSHM_UNLOCK
  | K_ShmUnLockResponse => MXM_MSG_BUTT
  | K_RpcQueryInfoResponse => MXM_MSG_BUTT
  | K_DLockClientReinitRequest => MXM_MSG_BUTT
  | K_DLockClientReinitResponse => MXM_MSG_BUTT
  | K_LockRequest => MXM_MSG_BUTT
  | K_UnLockRequest => MXM_MSG_BUTT
  | K_DLockResponse => MXM_MSG_BUTT
  | K_RpcJoinInfoResponse => MXM_MSG_BUTT
  | K_RpcVoteInfoResponse => MXM_MSG_BUTT
  | K_ShmAttachRequest => IPC_RACKMEMSHM_ATTACH
  | K_ShmAttachResponse => MXM_MSG_BUTT
  | K_ShmDetachRequest => IPC_RACKMEMSHM_DETACH
  | K_ShmLookupRequest => IPC_RACKMEMSHM_LOOKUP
  | K_ShmLookupResponse => MXM_MSG_BUTT
  | K_QueryNodeRequest => IPC_RACKMEMSHM_QUERY_NODE
  | K_QueryNodeResponse => MXM_MSG_BUTT
  | K_QueryDlockStatusResponse => MXM_MSG_BUTT
  | K_ShmListLookupRequest => IPC_RACKMEMSHM_LOOKUP_LIST
  | K_ShmListLookupResponse => MXM_MSG_BUTT
  | K_LookupSlotIdResponse => MXM_MSG_BUTT
  | K_IpcSuspendRequest => IPC_SUSPEND_CLIENT
  | K_IpcResumeRequest => IPC_RESUME_CLIENT
  end.

(** ** Factories *)

(** [requestMap] *)
Definition requestMap : list (Z * MsgKind) := [
  (MXM_MSG_SHM_ALLOCATE, K_ShmemAllocateRequest);
  (MXM_MSG_SHM_DEALLOCATE, K_ShmemDeallocateRequest);
  (IPC_MALLOC_MEMORY, K_AppMallocMemoryRequest);
  (IPC_MALLOC_MEMORY_LOC, K_AppMallocMemoryWithLocRequest);
  (IPC_FREE_RACKMEM, K_AppFreeMemoryRequest);
  (IPC_QUERY_CLUSTERINFO, K_CommonRequest);
  (IPC_RACKMEMSHM_LOOKUP_SHAREREGIONS, K_ShmLookRegionListRequest);
  (IPC_RACKMEMSHM_CREATE, K_ShmCreateRequest);
  (IPC_RACKMEMSHM_CREATE_WITH_PROVIDER, K_ShmCreateWithProviderRequest);
  (IPC_RACKMEMSHM_DELETE, K_ShmDeleteRequest);
  (IPC_RACKMEMSHM_MMAP, K_ShmMapRequest);
  (IPC_RACKMEMSHM_UNMMAP, K_ShmUnmapRequest);
  (IPC_RACKMEMSHM_QUERY_MEM_FAULT_STATUS, K_ShmQueryMemFaultStatusRequest);
  (IPC_RACKMEMSHM_WRITELOCK, K_ShmWriteLockRequest);
  (IPC_RACKMEMSHM_READLOCK, K_ShmReadLockRequest);
  (IPC_RACKMEMSHM_UNLOCK, K_ShmUnLockRequest);
  (IPC_RACKMEMSHM_ATTACH, K_ShmAttachRequest);
  (IPC_RACKMEMSHM_DETACH, K_ShmDetachRequest);
  (IPC_RACKMEMSHM_LOOKUP_LIST, K_ShmListLookupRequest);
  (IPC_RACKMEMSHM_LOOKUP, K_ShmLookupRequest);
  (RPC_AGENT_QUERY_NODE_INFO, K_CommonRequest);
  (RPC_DLOCK_CLIENT_REINIT, K_DLockClientReinitRequest);
  (IPC_RACKMEMSHM_QUERY_NODE, K_QueryNodeRequest);
  (IPC_RACKMEMSHM_QUERY_DLOCK_STATUS, K_CommonRequest);
  (IPC_CHECK_SHARE_MEMORY, K_CheckShareMemoryMapRequest);
  (IPC_CHECK_MEMORY_LEASE, K_CheckMemoryLeaseRequest);
  (IPC_RACKMEMSHM_QUERY_SLOT_ID, K_CommonRequest);
  (IPC_SUSPEND_CLIENT, K_IpcSuspendRequest);
  (IPC_RESUME_CLIENT, K_IpcResumeRequest)
].

(** [responseMap] *)
Definition responseMap : list (Z * MsgKind) := [
  (MXM_MSG_SHM_ALLOCATE, K_CommonResponse);
  (MXM_MSG_SHM_DEALLOCATE, K_CommonResponse);
  (IPC_MALLOC_MEMORY, K_AppMallocMemoryResponse);
  (IPC_MALLOC_MEMORY_LOC, K_AppMallocMemoryResponse);
  (IPC_FREE_RACKMEM, K_CommonResponse);
  (IPC_QUERY_CLUSTERINFO, K_AppQueryClusterInfoResponse);
  (IPC_RACKMEMSHM_LOOKUP_SHAREREGIONS, K_ShmLookRegionListResponse);
  (IPC_RACKMEMSHM_CREATE, K_CommonResponse);
  (IPC_RACKMEMSHM_CREATE_WITH_PROVIDER, K_CommonResponse);
  (IPC_RACKMEMSHM_DELETE, K_CommonResponse);
  (IPC_RACKMEMSHM_MMAP, K_ShmMapResponse);
  (IPC_RACKMEMSHM_UNMMAP, K_CommonResponse);
  (IPC_RACKMEMSHM_QUERY_MEM_FAULT_STATUS, K_ShmQueryMemFaultStatusResponse);
  (IPC_RACKMEMSHM_WRITELOCK, K_ShmWriteLockResponse);
  (IPC_RACKMEMSHM_READLOCK, K_ShmReadLockResponse);
  (IPC_RACKMEMSHM_UNLOCK, K_ShmUnLockResponse);
  (IPC_RACKMEMSHM_ATTACH, K_ShmAttachResponse);
  (IPC_RACKMEMSHM_DETACH, K_CommonResponse);
  (IPC_RACKMEMSHM_LOOKUP_LIST, K_ShmListLookupResponse);
  (IPC_RACKMEMSHM_LOOKUP, K_ShmLookupResponse);
  (RPC_AGENT_QUERY_NODE_INFO, K_RpcQueryInfoResponse);
  (RPC_DLOCK_CLIENT_REINIT, K_DLockClientReinitResponse);
  (IPC_RACKMEMSHM_QUERY_NODE, K_QueryNodeResponse);
  (IPC_RACKMEMSHM_QUERY_DLOCK_STATUS, K_QueryDlockStatusResponse);
  (IPC_CHECK_SHARE_MEMORY, K_CommonResponse);
  (IPC_CHECK_MEMORY_LEASE, K_CommonResponse);
  (IPC_RACKMEMSHM_QUERY_SLOT_ID, K_LookupSlotIdResponse);
  (IPC_SUSPEND_CLIENT, K_CommonResponse);
  (IPC_RESUME_CLIENT, K_CommonResponse)
].

(** [find] in an unordered map given by its initializer list. *)
Definition find_op (m : list (Z * MsgKind)) (op : Z) : option MsgKind :=
  snd <$> List.find (fun e => Z.eqb e.1 op) m.

(** [CreateRequestByOpCodeInner]: the [switch]; [None] is [nullptr]. *)
Definition CreateRequestByOpCodeInner (op : Z) : option MsgKind :=
  if Z.eqb op IPC_REGION_LOOKUP_REGION_LIST then Some K_ShmLookRegionListRequest else
  if Z.eqb op IPC_REGION_CREATE_REGION then Some K_ShmCreateRegionRequest else
  if Z.eqb op IPC_REGION_LOOKUP_REGION then Some K_ShmLookupRegionRequest else
  if Z.eqb op IPC_REGION_DESTROY_REGION then Some K_ShmDestroyRegionRequest else
  if Z.eqb op IPC_FORCE_FREE_CACHED_MEMORY then Some K_CommonRequest else
  if Z.eqb op IPC_QUERY_CACHED_MEMORY then Some K_CommonRequest else
  if Z.eqb op RPC_PING_NODE_INFO then Some K_PingRequest else
  if Z.eqb op RPC_JOIN_NODE_INFO then Some K_PingRequest else
  if Z.eqb op RPC_MASTER_ELECTED_NODE_INFO then Some K_BroadcastRequest else
  if Z.eqb op RPC_SEND_ELECTED_MASTER_INFO then Some K_TransElectedRequest else
  if Z.eqb op RPC_VOTE_NODE_INFO then Some K_VoteRequest else
  if Z.eqb op RPC_BROADCAST_NODE_INFO then Some K_BroadcastRequest else
  if Z.eqb op RPC_LOCK then Some K_LockRequest else
  if Z.eqb op RPC_UNLOCK then Some K_UnLockRequest else
  None.

(** [CreateResponseByOpCodeInner]: the [switch]; [None] is [nullptr]. *)
Definition CreateResponseByOpCodeInner (op : Z) : option MsgKind :=
  if Z.eqb op IPC_REGION_LOOKUP_REGION_LIST then Some K_ShmLookRegionListResponse else
  if Z.eqb op IPC_REGION_CREATE_REGION then Some K_ShmCreateRegionResponse else
  if Z.eqb op IPC_REGION_LOOKUP_REGION then Some K_ShmLookupRegionResponse else
  if Z.eqb op IPC_REGION_DESTROY_REGION then Some K_ShmDestroyRegionResponse else
  if Z.eqb op IPC_FORCE_FREE_CACHED_MEMORY then Some K_CommonResponse else
  if Z.eqb op IPC_QUERY_CACHED_MEMORY then Some K_AppQueryCachedMemoryResponse else
  if Z.eqb op RPC_PING_NODE_INFO then Some K_RpcQueryInfoResponse else
  if Z.eqb op RPC_JOIN_NODE_INFO then Some K_RpcJoinInfoResponse else
  if Z.eqb op RPC_MASTER_ELECTED_NODE_INFO then Some K_RpcQueryInfoResponse else
  if Z.eqb op RPC_SEND_ELECTED_MASTER_INFO then Some K_RpcQueryInfoResponse else
  if Z.eqb op RPC_VOTE_NODE_INFO then Some K_RpcVoteInfoResponse else
  if Z.eqb op RPC_BROADCAST_NODE_INFO then Some K_RpcQueryInfoResponse else
  if Z.eqb op RPC_LOCK then Some K_DLockResponse else
  if Z.eqb op RPC_UNLOCK then Some K_DLockResponse else
  None.

Definition CreateRequestByOpCode (op : Z) : option MsgKind :=
  match find_op requestMap op with Some k => Some k | None => CreateRequestByOpCodeInner op end.

Definition CreateResponseByOpCode (op : Z) : option MsgKind :=
  match find_op responseMap op with Some k => Some k | None => CreateResponseByOpCodeInner op end.

(** ** The laws, for every kind *)

Definition msg_codec (k : MsgKind) : Codec (msg_type k) := message_t (Msg_Serialize k) (Msg_Deserialize k).

Lemma msg_lawful k : Lawful (msg_codec k) (msg_ok k).
Proof.
  destruct k;
    [ apply CheckMemoryLeaseRequest_lawful
    | apply CheckShareMemoryMapRequest_lawful
    | apply CommonRequest_lawful
    | apply CommonResponse_lawful
    | apply ShmemAllocateRequest_lawful
    | apply ShmemDeallocateRequest_lawful
    | apply AppMallocMemoryRequest_lawful
    | apply AppMallocMemoryWithLocRequest_lawful
    | apply AppFreeMemoryRequest_lawful
    | apply AppMallocMemoryResponse_lawful
    | apply AppQueryClusterInfoResponse_lawful
    | apply AppQueryCachedMemoryResponse_lawful
    | apply ShmLookRegionListRequest_lawful
    | apply ShmCreateRegionRequest_lawful
    | apply ShmLookupRegionRequest_lawful
    | apply ShmDestroyRegionRequest_lawful
    | apply ShmCreateRequest_lawful
    | apply ShmCreateWithProviderRequest_lawful
    | apply ShmDeleteRequest_lawful
    | apply ShmMapRequest_lawful
    | apply ShmUnmapRequest_lawful
    | apply ShmQueryMemFaultStatusRequest_lawful
    | apply PingRequest_lawful
    | apply VoteRequest_lawful
    | apply BroadcastRequest_lawful
    | apply TransElectedRequest_lawful
    | apply ShmLookRegionListResponse_lawful
    | apply ShmCreateRegionResponse_lawful
    | apply ShmLookupRegionResponse_lawful
    | apply ShmDestroyRegionResponse_lawful
    | apply ShmMapResponse_lawful
    | apply ShmQueryMemFaultStatusResponse_lawful
    | apply ShmWriteLockRequest_lawful
    | apply ShmWriteLockResponse_lawful
    | apply ShmReadLockRequest_lawful
    | apply ShmReadLockResponse_lawful
    | apply ShmUnLockRequest_lawful
    | apply ShmUnLockResponse_lawful
    | apply RpcQueryInfoResponse_lawful
    | apply DLockClientReinitRequest_lawful
    | apply DLockClientReinitResponse_lawful
    | apply LockRequest_lawful
    | apply UnLockRequest_lawful
    | apply DLockResponse_lawful
    | apply RpcJoinInfoResponse_lawful
    | apply RpcVoteInfoResponse_lawful
    | apply ShmAttachRequest_lawful
    | apply ShmAttachResponse_lawful
    | apply ShmDetachRequest_lawful
    | apply ShmLookupRequest_lawful
    | apply ShmLookupResponse_lawful
    | apply QueryNodeRequest_lawful
    | apply QueryNodeResponse_lawful
    | apply QueryDlockStatusResponse_lawful
    | apply ShmListLookupRequest_lawful
    | apply ShmListLookupResponse_lawful
    | apply LookupSlotIdResponse_lawful
    | apply IpcSuspendRequest_lawful
    | apply IpcResumeRequest_lawful ].
Qed.

Lemma Msg_Serialize_code k m packer : (Msg_Serialize k m packer).1 = UBSM_OK.
Proof. by destruct k. Qed.

Lemma Msg_Deserialize_code k u : (Msg_Deserialize k u).1.1 = DeserializeResult (Msg_Deserialize k u).2.
Proof.
  destruct k; cbn [Msg_Deserialize];
    match goal with |- context [?d u] => unfold d end; read_members; reflexivity.
Qed.
