(* ===== verification/MsgTheorems.v ===== *)
(** Properties of the messages: every message survives the way through packer and
    unpacker, a truncated one is refused, hostile sizes are bounded by the
    bytes received, and the two factories agree. *)

From S2P Require Import Prelude StoreTypes MsgPacker MsgCodec MsgBase MsgRequests MsgResponses MsgFactory.

(** C36: For every message class and every value whose members fit their types and
    the unpacker's size limit, [Serialize] succeeds and [Deserialize] on the bytes,
    whatever follows them, returns success, the same value, and leaves exactly
    what follows. *)
Theorem message_roundtrip k (m : msg_type k) rest :
  msg_ok k m ->
  (Msg_Serialize k m []).1 = UBSM_OK /\
  Msg_Deserialize k (mkUnpacker ((Msg_Serialize k m []).2 ++ rest) true) = (UBSM_OK, m, mkUnpacker rest true).
Proof.
  intros Hm. split; [apply Msg_Serialize_code|]. pose proof (law_round _ _ (msg_lawful k) m rest Hm) as E.
  pose proof (Msg_Deserialize_code k (mkUnpacker ((Msg_Serialize k m []).2 ++ rest) true)) as Hc.
  unfold enc in E. cbn [msg_codec message_t Serialize Deserialize] in E.
  destruct (Msg_Deserialize k _) as [[rc m'] u']. injection E as -> ->. cbn [fst snd] in Hc. by rewrite Hc.
Qed.

(** A message cut off anywhere before its end is refused with
    [MXM_ERR_PARAM_INVALID], for every message class. *)
Theorem truncated_message_refused k (m : msg_type k) received missing :
  msg_ok k m -> (Msg_Serialize k m []).2 = received ++ missing -> missing <> [] ->
  (Msg_Deserialize k (mkUnpacker received true)).1.1 = MXM_ERR_PARAM_INVALID.
Proof.
  intros Hm E Hq. pose proof (law_prefix _ _ (msg_lawful k) m received missing Hm E Hq) as Hv.
  rewrite Msg_Deserialize_code. cbn [msg_codec message_t Deserialize] in Hv.
  destruct (Msg_Deserialize k _) as [[rc m'] u']. cbn [snd] in *. unfold DeserializeResult, IsValid. by rewrite Hv.
Qed.

(** ** Hostile input *)

Lemma items_loop_length {A} (c : Codec A) n acc u : length (items_loop c n acc u).1 <= length acc + n.
Proof.
  revert acc u. induction n as [|n IH]; intros acc u; cbn [items_loop fst]; [lia|].
  destruct (Deserialize c u) as [item u']. destruct (negb (valid_ u')); [simpl; lia|].
  etransitivity; [apply IH|]. rewrite length_app. simpl. lia.
Qed.

Lemma map_emplace_length {V} k (v : V) l : length (map_emplace k v l) <= S (length l).
Proof. induction l as [|[k' v'] l IH]; simpl; [lia|]. destruct (String.compare k k'); simpl; lia. Qed.

Lemma entries_loop_length {V} (c : Codec V) n acc u : length (entries_loop c n acc u).1 <= length acc + n.
Proof.
  revert acc u. induction n as [|n IH]; intros acc u; cbn [entries_loop fst]; [lia|].
  destruct (Deserialize string_t u) as [key u1]. destruct (Deserialize c u1) as [value u2].
  destruct (negb (valid_ u2)); [simpl; lia|]. etransitivity; [apply IH|]. pose proof (map_emplace_length key value acc). lia.
Qed.

(** Reading a size consumes bytes and never adds any. *)
Lemma size_read_shrinks k of_bytes u :
  length (inStream_ (Deserialize (Pod k (le_bytes k) of_bytes 0%Z) u).2) <= length (inStream_ u).
Proof.
  cbn [Pod Deserialize]. destruct (negb (valid_ u)); [done|]. unfold read.
  destruct (Nat.leb k (length (inStream_ u))); simpl; [rewrite length_drop; lia | lia].
Qed.

(** C40: Whatever bytes arrive, a decoded string, vector or map never has more
    elements than bytes were left in the message, nor more than
    [MAX_ALLOWED_SIZE]: a forged size field cannot make the receiver allocate or
    loop beyond the data it was sent. *)
Theorem hostile_sizes_bounded {A V} (c : Codec A) (cv : Codec V) u :
  let bound (n : nat) := (Z.of_nat n <= Z.min MAX_ALLOWED_SIZE (Remaining u))%Z in
  bound (String.length (Deserialize string_t u).1) /\ bound (length (Deserialize (vector_t c) u).1) /\
  bound (length (Deserialize (map_t cv) u).1).
Proof.
  unfold Remaining. split_and!.
  - cbn [string_t Deserialize]. pose proof (size_read_shrinks 4 (unsigned 4) u) as Hs. fold uint32_t in Hs.
    destruct (Deserialize uint32_t u) as [n u']. cbn [snd] in Hs.
    destruct (negb (valid_ u') || _ || _) eqn:E; [simpl; unfold MAX_ALLOWED_SIZE; lia|].
    apply orb_false_iff in E as [[_ E1%Z.ltb_ge]%orb_false_iff E2%Z.ltb_ge]. unfold Remaining in E2.
    destruct (Z.eqb n 0); [simpl; unfold MAX_ALLOWED_SIZE; lia|]. unfold read.
    destruct (Nat.leb_spec (Z.to_nat n) (length (inStream_ u'))); [|simpl; unfold MAX_ALLOWED_SIZE; lia].
    cbn [fst]. rewrite <- length_list_ascii, String.list_ascii_of_string_of_list_ascii, length_take.
    unfold MAX_ALLOWED_SIZE in *. lia.
  - cbn [vector_t Deserialize]. pose proof (size_read_shrinks 8 (unsigned 8) u) as Hs. fold uint64_t in Hs.
    destruct (Deserialize uint64_t u) as [n u']. cbn [snd] in Hs.
    destruct (negb (valid_ u') || _ || _) eqn:E; [simpl; unfold MAX_ALLOWED_SIZE; lia|].
    apply orb_false_iff in E as [[_ E1%Z.ltb_ge]%orb_false_iff E2%Z.ltb_ge]. unfold Remaining in E2.
    pose proof (items_loop_length c (Z.to_nat n) [] u') as Hl. cbn [length] in Hl. unfold MAX_ALLOWED_SIZE in *. lia.
  - cbn [map_t Deserialize]. pose proof (size_read_shrinks 8 (unsigned 8) u) as Hs. fold uint64_t in Hs.
    destruct (Deserialize uint64_t u) as [n u']. cbn [snd] in Hs.
    destruct (negb (valid_ u') || _ || _) eqn:E; [simpl; unfold MAX_ALLOWED_SIZE; lia|].
    apply orb_false_iff in E as [[_ E1%Z.ltb_ge]%orb_false_iff E2%Z.ltb_ge]. unfold Remaining in E2.
    pose proof (entries_loop_length cv (Z.to_nat n) [] u') as Hl. cbn [length] in Hl.
    pose proof (Z.div_le_upper_bound (Z.of_nat (length (inStream_ u'))) 2 (Z.of_nat (length (inStream_ u')))).
    unfold MAX_ALLOWED_SIZE in *. lia.
Qed.

(** ** Factories *)

(** The request and the response factory know exactly the same operation
    codes, so a request that can be decoded can always be answered. *)
Theorem factories_agree op : CreateRequestByOpCode op = None <-> CreateResponseByOpCode op = None.
Proof.
  unfold CreateRequestByOpCode, CreateResponseByOpCode, CreateRequestByOpCodeInner, CreateResponseByOpCodeInner, find_op.
  unfold requestMap, responseMap. cbn [List.find fst].
  repeat match goal with
    | |- context [if Z.eqb ?a op then _ else _] => destruct (Z.eqb a op); [by cbn | cbv beta iota]
    | |- context [if Z.eqb op ?a then _ else _] => destruct (Z.eqb op a); [by cbn | cbn]
    end.
  done.
Qed.

(** Every operation code of the protocol has a request class, except the two
    enumerators [MEM_OP_SERVER_BEGIN] and [IPC_RACKMEMSHM_LOOKUP_REGIONINFO],
    for which the server can create none and answers nothing. *)
Theorem opcodes_covered op :
  op ∈ ipc_opcodes ++ rpc_opcodes ->
  (CreateRequestByOpCode op = None <-> op = MEM_OP_SERVER_BEGIN \/ op = IPC_RACKMEMSHM_LOOKUP_REGIONINFO).
Proof.
  intros H. assert (Hall : Forall (fun o => bool_decide (CreateRequestByOpCode o = None) =
    bool_decide (o = MEM_OP_SERVER_BEGIN \/ o = IPC_RACKMEMSHM_LOOKUP_REGIONINFO)) (ipc_opcodes ++ rpc_opcodes)).
  { apply Forall_forall. apply Forall_forall. vm_compute. repeat constructor. }
  rewrite Forall_forall in Hall. specialize (Hall op H). cbv beta in Hall.
  rewrite <- (bool_decide_eq_true (CreateRequestByOpCode op = None)), Hall. apply bool_decide_eq_true.
Qed.

(** ** Witnesses *)

Definition demo_map_request : ShmMapRequest :=
  mkShmMapRequest (mkMsgBase 0 IPC_RACKMEMSHM_MMAP 0) "default" "shm1" 4096 384 3.

Lemma demo_map_request_ok : msg_ok K_ShmMapRequest demo_map_request.
Proof.
  cbn [msg_ok]. unfold ShmMapRequest_ok, fits_signed, fits_unsigned, string_ok.
  split_and!; vm_compute; first [reflexivity | discriminate].
Qed.

Lemma message_roundtrip_witness :
  Msg_Deserialize K_ShmMapRequest (mkUnpacker ((Msg_Serialize K_ShmMapRequest demo_map_request []).2 ++ [Ascii.zero]) true) =
  (UBSM_OK, demo_map_request, mkUnpacker [Ascii.zero] true).
Proof. apply (message_roundtrip K_ShmMapRequest demo_map_request [Ascii.zero] demo_map_request_ok). Defined.

Lemma truncated_message_refused_witness :
  (Msg_Deserialize K_ShmMapRequest (mkUnpacker (take 20 (Msg_Serialize K_ShmMapRequest demo_map_request []).2) true)).1.1 =
  MXM_ERR_PARAM_INVALID.
Proof.
  apply (truncated_message_refused K_ShmMapRequest demo_map_request _
           (drop 20 (Msg_Serialize K_ShmMapRequest demo_map_request []).2) demo_map_request_ok).
  - by rewrite take_drop.
  - vm_compute. discriminate.
Defined.

Lemma opcodes_covered_witness : CreateRequestByOpCode IPC_RACKMEMSHM_LOOKUP_REGIONINFO = None.
Proof.
  apply (opcodes_covered IPC_RACKMEMSHM_LOOKUP_REGIONINFO).
  - apply (bool_decide_eq_true (IPC_RACKMEMSHM_LOOKUP_REGIONINFO ∈ ipc_opcodes ++ rpc_opcodes)). vm_compute. reflexivity.
  - by right.
Defined.
