(* ===== verification/StoreInterface.v ===== *)
(** What the record store promises to the services above it.

    The services call the store through [RecordStoreAPI] and are verified
    against [RecordStoreLaws]: every call computes what the abstract store
    computes, and the listings report the abstract store. The detailed store of
    [record_store.cpp] is an instance. *)

From S2P Require Import Prelude StoreTypes IdPool IdPoolSpec RecordAllocator RecordStore StoreTable StoreInv StoreSteps StoreRestart StoreSpec RegionNodes StoreTheorems.

(** ** Well-formed abstract stores *)

Record wf_abs (a : AStore) : Prop := {
  wf_import : forall n v, a_imports a !! n = Some v -> smo_name v = n /\ good_name n;
  wf_lease : forall n v, a_leases a !! n = Some v -> lmi_name v.1 = n /\ good_name n;
  wf_refs : forall n p k, a_refs a !! (n, p) = Some k -> k <> 0 /\ is_Some (a_imports a !! n) /\ p <> 0%Z /\ pid_range p;
}.

Section Abstract.
Context {G : Geometry}.

Lemma a_count_ref a n p : wf_abs a -> a_count a n p <> 0 -> a_refs a !! (n, p) = Some (a_count a n p).
Proof. unfold a_count. by destruct (a_refs a !! (n, p)). Qed.

Lemma a_count_import a n p : wf_abs a -> a_count a n p <> 0 -> is_Some (a_imports a !! n) /\ p <> 0%Z /\ pid_range p.
Proof. intros W H. by destruct (wf_refs _ W _ _ _ (a_count_ref _ _ _ W H)) as (_ & ? & ? & ?). Qed.

Lemma unreferenced_count a n : wf_abs a -> unreferenced a n <-> forall p, a_count a n p = 0.
Proof.
  intros W. unfold unreferenced, map_Forall. split.
  - intros Hu p. unfold a_count. destruct (a_refs a !! (n, p)) as [k|] eqn:E; [|done]. by destruct (Hu _ _ E).
  - intros Hz [n' p] k E. simpl. intros ->. specialize (Hz p). unfold a_count in Hz. rewrite E in Hz. simpl in Hz. subst.
    by destruct (wf_refs _ W _ _ _ E).
Qed.

Lemma set_count_at a n p k n' p' x :
  a_count (with_refs a (set_count (a_refs a) n p k) x) n' p' = if decide (n' = n /\ p' = p) then k else a_count a n' p'.
Proof.
  unfold a_count, set_count. cbn [with_refs a_refs]. destruct (decide (n' = n /\ p' = p)) as [[-> ->]|Hne].
  - destruct (decide (k = 0)) as [->|]; [by rewrite lookup_delete_eq | by rewrite lookup_insert_eq].
  - assert ((n, p) <> (n', p')) by (intros [= -> ->]; by apply Hne).
    destruct (decide (k = 0)); [by rewrite lookup_delete_ne | by rewrite lookup_insert_ne].
Qed.

Lemma wf_with_imports a x l :
  wf_abs a -> (forall n v, x !! n = Some v -> smo_name v = n /\ good_name n) ->
  (forall n p, a_count a n p <> 0 -> is_Some (x !! n)) -> wf_abs (with_imports a x l).
Proof.
  intros W Hn Hd. split; cbn; [done | apply W |]. intros n p k E. destruct (wf_refs _ W _ _ _ E) as (Hk & _ & Hp).
  split_and!; [done | | apply Hp | apply Hp]. apply (Hd n p). unfold a_count. by rewrite E.
Qed.

Lemma wf_with_refs a x l :
  wf_abs a -> (forall n p k, x !! (n, p) = Some k -> k <> 0 /\ is_Some (a_imports a !! n) /\ p <> 0%Z /\ pid_range p) ->
  wf_abs (with_refs a x l).
Proof. intros W H. split; cbn; [apply W | apply W | done]. Qed.

Lemma wf_set_count a n p k l :
  wf_abs a -> is_Some (a_imports a !! n) -> p <> 0%Z -> pid_range p -> wf_abs (with_refs a (set_count (a_refs a) n p k) l).
Proof.
  intros W Hn Hp Hr. apply wf_with_refs; [done|]. intros n' p' k'. unfold set_count.
  destruct (decide (k = 0)).
  - rewrite lookup_delete_Some. intros [_ E]. by apply (wf_refs _ W) in E.
  - rewrite lookup_insert_Some. intros [[[= <- <-] <-]|[_ E]]; [done|]. by apply (wf_refs _ W) in E.
Qed.

Lemma wf_with_leases a x l :
  wf_abs a -> (forall n v, x !! n = Some v -> lmi_name v.1 = n /\ good_name n) -> wf_abs (with_leases a x l).
Proof. intros W H. split; cbn; [apply W | done | apply W]. Qed.

(** An update of one entry that keeps its name. *)
Lemma insert_named {V} (name : V -> string) (m : gmap string V) k v :
  (forall n w, m !! n = Some w -> name w = n /\ good_name n) -> name v = k -> good_name k ->
  forall n w, <[k := v]> m !! n = Some w -> name w = n /\ good_name n.
Proof. intros H ? ? n w [[<- <-]|[_ E]]%lookup_insert_Some; [done | by apply H]. Qed.

Lemma delete_named {V} (name : V -> string) (m : gmap string V) k :
  (forall n w, m !! n = Some w -> name w = n /\ good_name n) ->
  forall n w, delete k m !! n = Some w -> name w = n /\ good_name n.
Proof. intros H n w [_ E]%lookup_delete_Some. by apply H. Qed.

Lemma spec_run_wf o a : wf_abs a -> op_ok o -> wf_abs (spec_run o a).2.
Proof.
  intros W Hok. pose proof (wf_import _ W) as Wi. pose proof (wf_lease _ W) as Wl.
  assert (Wc : forall n p, a_count a n p <> 0 -> is_Some (a_imports a !! n)) by (intros n p Hc; by apply (a_count_import a n p W)).
  assert (Hsplit : forall r l s q, wf_abs (mkAStore r (a_leases a) (a_imports a) (a_refs a) s q l (a_ref_slots a)))
    by (intros; split; cbn; apply W).
  destruct o; cbn [spec_run op_ok] in *; unfold refused, with_regions, with_suspended, with_seqNo;
    repeat case_match; subst; cbn [snd]; try done; try apply Hsplit;
    try (apply wf_with_leases; [done|]); try (apply wf_with_imports; [done| |]);
    try (apply (insert_named (fun v => lmi_name v.1)); [done | | ]); try (apply (insert_named smo_name); [done | |]);
    try (apply (delete_named (fun v => lmi_name v.1)); done); try (apply (delete_named smo_name); done);
    try match goal with
        | H : a_leases a !! _ = Some _ |- _ => first [exact (proj1 (Wl _ _ H)) | exact (proj2 (Wl _ _ H))]
        | H : a_imports a !! _ = Some _ |- _ => first [exact (proj1 (Wi _ _ H)) | exact (proj2 (Wi _ _ H))]
        end; try done;
    try (intros n' p' Hc%Wc; rewrite lookup_insert_is_Some; match goal with |- ?k = _ \/ _ => destruct (decide (k = n')); eauto end).
  - intros n' p' Hc. rewrite lookup_delete_is_Some. split; [|by eapply Wc]. intros <-. by apply Hc, unreferenced_count.
  - destruct_and?. by apply wf_set_count.
  - destruct_and?. destruct (a_count_import a name pid W) as (? & ? & ?); [done|]. by apply wf_set_count.
  - apply wf_with_refs; [done|]. intros n' p' k E. apply map_lookup_filter_Some in E as [E _]. by apply (wf_refs _ W) in E.
Qed.

Lemma empty_abstract_wf : wf_abs empty_abstract.
Proof. split; cbn; intros *; by rewrite lookup_empty. Qed.

End Abstract.

(** ** The interface *)

Class RecordStoreAPI (S : Type) := {
  exec : op -> S -> Z * S;
  list_imports : S -> list ShareMemImportInfo;
  list_leases : S -> list (LeaseMallocInput * LeaseMallocResult);
  list_refs : S -> gmap string (gmap Z Z);
  list_regions : S -> list CreateRegionInput;
}.

Class RecordStoreLaws `{G : Geometry} (S : Type) `{!RecordStoreAPI S} := {
  view : S -> AStore;
  valid : S -> Prop;
  valid_wf s : valid s -> wf_abs (view s);
  exec_valid s o : valid s -> op_ok o -> valid (exec o s).2;
  exec_view s o : valid s -> op_ok o -> spec_run o (view s) = ((exec o s).1, view (exec o s).2);
  list_imports_view s : valid s -> list_imports s = (map_to_list (a_imports (view s))).*2;
  list_leases_view s : valid s -> list_leases s = (map_to_list (a_leases (view s))).*2;
  list_refs_view s n p : valid s -> get2 (list_refs s) n p = reported (a_count (view s) n p);
  list_refs_full s : valid s -> full2 (list_refs s);
  list_regions_view s : valid s -> list_regions s = (map_to_list (a_regions (view s))).*2;
}.

(** ** The abstract store behind the interface

    A client run on the abstract store computes what it computes on any store
    that obeys the laws (see [tracks] below). *)

Section Model.
Context {G : Geometry}.

Definition model_refs (a : AStore) : gmap string (gmap Z Z) := add_all ∅ (map_to_list (a_refs a)).

#[export] Instance AStore_API : RecordStoreAPI AStore := {
  exec := spec_run;
  list_imports a := (map_to_list (a_imports a)).*2;
  list_leases a := (map_to_list (a_leases a)).*2;
  list_refs := model_refs;
  list_regions a := (map_to_list (a_regions a)).*2;
}.

Lemma model_refs_full a : full2 (model_refs a).
Proof. apply add_all_full. intros n inner. by rewrite lookup_empty. Qed.

Lemma model_refs_count a n p : wf_abs a -> get2 (model_refs a) n p = reported (a_count a n p).
Proof.
  intros W. unfold model_refs, reported, a_count. destruct (a_refs a !! (n, p)) as [k|] eqn:E; simpl.
  - rewrite decide_False by (by destruct (wf_refs _ W _ _ _ E)).
    apply add_all_in; [apply NoDup_fst_map_to_list | done | by apply elem_of_map_to_list].
  - rewrite add_all_other; [done|]. rewrite list_elem_of_fmap. intros ([[n' p'] k] & [= <- <-] & Hin%elem_of_map_to_list).
    congruence.
Qed.

Lemma list_refs_model {S} `{!RecordStoreAPI S} `{!RecordStoreLaws S} (s : S) : valid s -> list_refs s = list_refs (view s).
Proof.
  intros V. apply get2_ext; [by apply list_refs_full | apply model_refs_full |]. intros n p.
  rewrite (list_refs_view _ _ _ V). symmetry. by apply model_refs_count, valid_wf.
Qed.

End Model.

(** ** The detailed store implements it *)

Section Instance_.
Context {G : Geometry}.

#[export] Instance RecordStore_API : RecordStoreAPI RecordStore.state := {
  exec := run;
  list_imports := RecordStore.ListShmImportRecord;
  list_leases := RecordStore.ListMemLeaseRecord;
  list_refs := RecordStore.ListShmRefRecordNameF;
  list_regions := RecordStore.ListRegionRecord;
}.

Definition store_valid (s : RecordStore.state) : Prop := (exists A, store_inv A s) /\ wf_abs (abs s).

#[export] Program Instance RecordStore_laws : RecordStoreLaws RecordStore.state := {
  view := abs;
  valid := store_valid;
}.
Next Obligation. by intros s []. Qed.
Next Obligation.
  intros s o [[A H] W] Hok. destruct (run_simulates A o s H Hok) as [Hi E]. split; [exact Hi|].
  change (wf_abs (abs (run o s).2)). pose proof (spec_run_wf o _ W Hok) as W'. by rewrite E in W'.
Qed.
Next Obligation. intros s o [[A H] W] Hok. by destruct (run_simulates A o s H Hok). Qed.
Next Obligation. intros s [[A H] _]. by eapply ListShmImportRecord_view. Qed.
Next Obligation. intros s [[A H] _]. by eapply ListMemLeaseRecord_view. Qed.
Next Obligation. intros s n p [[A H] _]. cbn. rewrite (abs_count _ _ _ _ H). by eapply ListShmRefRecordNameF_count. Qed.
Next Obligation. intros s [[A H] _]. cbn. rewrite (ListShmRefRecordNameF_listing _ _ H). apply listing_full. Qed.
Next Obligation. intros s [[A H] _]. by eapply ListRegionRecord_view. Qed.

Lemma started_valid os fd : op_ok (OpRestart os fd) -> store_valid (started os fd).
Proof. intros H. destruct (started_ok os fd H) as [Hi E]. split; [done|]. rewrite E. apply empty_abstract_wf. Qed.

End Instance_.
