(* ===== verification/Daemon.v ===== *)
(** The daemon's state as its request handlers share it, the effects they have,
    and the adapter to the UBS engine.

    A handler is a function of type [M A]: it reads and changes the managers'
    maps, the record store, the monitor's delayed removals, and appends to the
    trace of the engine calls that have an effect. What the engine answers (a
    library outside the repository) is the argument [Engine]; the theorems
    hold for all answers. Sources: [under_api/ubse/ubse_mem_adapter.cpp],
    [process/monitor/ubs_mem_monitor.cpp], [common/rack_mem_err.h]. *)

From S2P Require Import Prelude StoreTypes IdPool IdPoolSpec RecordAllocator RecordStore StoreTable StoreInv StoreSteps StoreRestart StoreSpec RegionNodes StoreTheorems StoreInterface.

(** ** Return codes *)

Definition MXM_OK : Z := 0.
Definition MXM_ERR_MALLOC_FAIL : Z := 102.
Definition MXM_ERR_RECORD_DELETE : Z := 400.
Definition MXM_ERR_RECORD_ADD : Z := 401.
Definition MXM_ERR_RECORD_CHANGE_STATE : Z := 402.
Definition MXM_ERR_SHM_NOT_FOUND : Z := 600.
Definition MXM_ERR_SHM_ALREADY_EXIST : Z := 601.
Definition MXM_ERR_SHM_PERMISSION_DENIED : Z := 602.
Definition MXM_ERR_SHM_IN_USING : Z := 603.
Definition MXM_ERR_SHM_NOT_EXIST : Z := 606.
Definition MXM_ERR_NAME_BUSY : Z := 650.
Definition MXM_ERR_UBSE_INNER : Z := 800.
Definition MXM_ERR_UBSE_LIB : Z := 801.
Definition MXM_ERR_UBSE_NOT_ATTACH : Z := 802.
Definition MXM_ERR_UBSE_NOT_SUPPORTED : Z := 803.
Definition MXM_TIME_OUT_TASK_NEED_RETRY : Z := 950.

Definition UBS_SUCCESS : Z := 0.
Definition UBS_ERR_NOT_SUPPORTED : Z := 41.
Definition UBS_ERR_TIMED_OUT : Z := 43.
Definition UBS_ENGINE_ERR_EXISTED : Z := 1006.
Definition UBS_ENGINE_ERR_NOT_EXIST : Z := 1007.
Definition UBS_ENGINE_ERR_SHM_NO_ATTACH : Z := 1015.
Definition UBS_ENGINE_ERR_SHM_ATTACH_USING : Z := 1024.
Definition UBS_TOPO_MAX_NODE_NUM : nat := 512.
Definition UBSM_FLAG_ONLY_IMPORT_NONCACHE : Z := 8.

(** ** Data *)

Inductive ubs_mem_stage :=
  | UBSE_NOT_EXIST | UBSE_CREATING | UBSE_DELETING | UBSE_EXIST | UBSE_ERR_ONLY_IMPORT | UBSE_ERR_WAIT_UNEXPORT | UBSE_END.

#[export] Instance ubs_mem_stage_eq_dec : EqDecision ubs_mem_stage.
Proof. solve_decision. Defined.

(** The peer of a connection; [pid] is a [uint32_t]. *)
Record MxmComUdsInfo := mkUds { uds_pid : Z; uds_uid : Z; uds_gid : Z }.

Record ubse_user_info_t := mkUserInfo {
  ui_uid : Z;
  ui_gid : Z;
  ui_pid : Z;
  ui_mode : Z;
  ui_flag : Z;
  ui_seqNo : Z;
}.

Record AttachShmResult := mkAttach {
  at_shmSize : Z;
  at_unitSize : Z;
  at_memIds : list Z;
  at_flag : Z;
  at_oflag : Z;
}.

(** What the engine says of a shared memory: [import_desc] has one entry per
    node that attached it. *)
Record import_desc_t := mkImportDesc { id_slot : Z; id_stage : ubs_mem_stage; id_memids : list Z }.

Record ubs_mem_shm_desc_t := mkShmDesc {
  sd_mem_size : Z;
  sd_unit_size : Z;
  sd_export_slot : Z;
  sd_mem_stage : ubs_mem_stage;
  sd_import : list import_desc_t;
  sd_usr_info : ubse_user_info_t;
}.

(** The engine's answers to one request, and the clock. *)
Record Engine := mkEngine {
  eng_now : Z;
  eng_Initialize : Z;
  eng_loaded : bool;
  pUbseNodeLocalGet : Z * Z;
  pUbseMemShmGet : string -> Z * option ubs_mem_shm_desc_t;
  pUbseMemShmAttach : string -> ubse_user_info_t -> Z * option ubs_mem_shm_desc_t;
  pUbseMemShmDetach : string -> Z;
  pUbseMemShmDelete : string -> Z;
}.

Record ubs_mem_lender_t := mkLender {
  ld_slot_id : Z;
  ld_socket_id : Z;
  ld_numa_id : Z;
  ld_port_id : Z;
  ld_lender_size : Z;
}.

(** A call that creates a shared memory: near a socket, anywhere in the region,
    or at one lender. [region] and [provider] are the slots of a [ubs_mem_nodes_t]. *)
Inductive CreateCall :=
  | CreateWithAffinity (name : string) (size socketId : Z) (info : ubse_user_info_t) (flags : Z) (region provider : list Z)
  | CreateInRegion (name : string) (size : Z) (info : ubse_user_info_t) (flags : Z) (region provider : list Z)
  | CreateWithLender (name : string) (info : ubse_user_info_t) (flags : Z) (lender : ubs_mem_lender_t).

(** Calls that change something in the engine, with its answer. *)
Inductive EngineCall :=
  | CallCreate (how : CreateCall) (ret : Z)
  | CallAttach (name : string) (ret : Z)
  | CallDetach (name : string) (ret : Z)
  | CallDelete (name : string) (ret : Z)
  | CallLend (name : string) (isNuma : bool) (ret : Z)
  | CallPermission (name : string) (owner : AppContext) (ret : Z)
  | CallReturn (name : string) (isNuma : bool) (ret : Z).

Record AttachedShareMemory := mkAttached {
  asm_name : string;
  asm_size : Z;
  asm_state : RecordState;
  asm_pids : gset Z;
  asm_result : ShareMemImportResult;
}.

Record DelayRemovedKey := mkDelay {
  dk_isLease : bool;
  dk_retryTimes : Z;
  dk_expiresTime : Z;
  dk_name : string;
  dk_appCtx : AppContext;
  dk_changed : bool;
  dk_isNumaLease : bool;
  dk_timeOutScene : bool;
  dk_isAttach : bool;
  dk_createSeqNo : Z;
}.

Definition ONE_MINUTE_MS : Z := (60 * 1000)%Z.

(** ** Leases *)

Record MLSMemKey := mkMLSMemKey { mk_size : Z; mk_name : string }.

Record MLSMemInfo := mkMLSMemInfo {
  mi_name : string;
  mi_appContext : AppContext;
  mi_size : Z;
  mi_numaId : Z;
  mi_memIds : list Z;
  mi_unitSize : Z;
  mi_perflevel : Z;
  mi_slotId : Z;
  mi_isNuma : bool;
  mi_state : RecordState;
}.

Definition DEFAULT_MAX_BUFFER_MEM_NUM : nat := 5.

(** The members of [MLSManager]; a [std::map] ordered by [MLSMemKey] is a sorted list. *)
Record MLSState := mkMLSState {
  usedMemory_ : gmap string MLSMemInfo;
  numaBufferedMemory_ : list (MLSMemKey * MLSMemInfo);
  fdBufferedMemory_ : list (MLSMemKey * MLSMemInfo);
  isEnableLeaseBuffered_ : bool;
  maxBufferedMemNum_ : nat;
}.

Definition no_leases : MLSState := mkMLSState ∅ [] [] true DEFAULT_MAX_BUFFER_MEM_NUM.

(** ** The shared state *)

Record Daemon (S : Type) := mkDaemon {
  attachedShareMemory_ : gmap string AttachedShareMemory;
  store_ : S;
  delayedRemoveKeys : list DelayRemovedKey;
  delayedRemoveKeysByName : list DelayRemovedKey;
  engine_trace : list EngineCall;
  leases_ : MLSState;
}.
Arguments mkDaemon {S}.
Arguments attachedShareMemory_ {S}.
Arguments store_ {S}.
Arguments delayedRemoveKeys {S}.
Arguments delayedRemoveKeysByName {S}.
Arguments engine_trace {S}.
Arguments leases_ {S}.

(** [std::set::insert]: nothing happens when an equivalent key is there. *)
Fixpoint set_insert (lt : DelayRemovedKey -> DelayRemovedKey -> bool) (k : DelayRemovedKey) (l : list DelayRemovedKey)
  : list DelayRemovedKey :=
  match l with
  | [] => [k]
  | x :: l' => if lt k x then k :: l else if lt x k then x :: set_insert lt k l' else l
  end.

Definition DelayKeyComparator (k1 k2 : DelayRemovedKey) : bool :=
  if negb (Z.eqb (dk_expiresTime k1) (dk_expiresTime k2)) then Z.ltb (dk_expiresTime k1) (dk_expiresTime k2)
  else string_lt (dk_name k1) (dk_name k2).

Definition DelayKeyIsBusyComparator (k1 k2 : DelayRemovedKey) : bool := string_lt (dk_name k1) (dk_name k2).

Section Effects.
Context {S : Type} `{!RecordStoreAPI S}.

Definition M (A : Type) : Type := Daemon S -> A * Daemon S.

Definition ret {A} (a : A) : M A := fun d => (a, d).

Definition bind {A B} (m : M A) (k : A -> M B) : M B := fun d => let '(a, d1) := m d in k a d1.

Definition get_attached : M (gmap string AttachedShareMemory) := fun d => (attachedShareMemory_ d, d).

Definition set_attached (m : gmap string AttachedShareMemory) : M unit := fun d =>
  (tt, mkDaemon m (store_ d) (delayedRemoveKeys d) (delayedRemoveKeysByName d) (engine_trace d) (leases_ d)).

(** One call of the record store. *)
Definition call (o : op) : M Z := fun d =>
  let '(r, s) := exec o (store_ d) in
  (r, mkDaemon (attachedShareMemory_ d) s (delayedRemoveKeys d) (delayedRemoveKeysByName d) (engine_trace d) (leases_ d)).

Definition get_leases : M MLSState := fun d => (leases_ d, d).

Definition set_leases (l : MLSState) : M unit := fun d =>
  (tt, mkDaemon (attachedShareMemory_ d) (store_ d) (delayedRemoveKeys d) (delayedRemoveKeysByName d) (engine_trace d) l).

(** A query of the record store. *)
Definition query {A} (f : S -> A) : M A := fun d => (f (store_ d), d).

Definition trace (c : EngineCall) : M unit := fun d =>
  (tt, mkDaemon (attachedShareMemory_ d) (store_ d) (delayedRemoveKeys d) (delayedRemoveKeysByName d) (engine_trace d ++ [c]) (leases_ d)).

End Effects.

Declare Scope daemon_scope.
Delimit Scope daemon_scope with daemon.
Notation "'let*' x := m 'in' k" := (bind m (fun x => k)) (at level 10, x name, m at level 100, k at level 200) : daemon_scope.
Notation "m ;; k" := (bind m (fun _ => k)) (at level 100, k at level 200, right associativity) : daemon_scope.
Open Scope daemon_scope.

(** ** The monitor's delayed removals *)

Section Monitor.
Context {S : Type}.

Definition AddDelayRemoveRecord (key : DelayRemovedKey) : M (S := S) unit := fun d =>
  (tt, mkDaemon (attachedShareMemory_ d) (store_ d) (set_insert DelayKeyComparator key (delayedRemoveKeys d))
         (set_insert DelayKeyIsBusyComparator key (delayedRemoveKeysByName d)) (engine_trace d) (leases_ d)).

(** Only the name of the key counts for the lookup. *)
Definition GetDelayRemoveRecord (name : string) : M (S := S) bool := fun d =>
  (existsb (fun k => String.eqb (dk_name k) name) (delayedRemoveKeysByName d), d).

End Monitor.

(** ** The adapter to the engine *)

Section Adapter.
Context {S : Type}.

(** The stage of the first import on this node. *)
Definition local_stage (slot : Z) (imports : list import_desc_t) : option ubs_mem_stage :=
  match List.find (fun i => Z.eqb (id_slot i) slot) imports with Some i => Some (id_stage i) | None => None end.

(** [GetShareMemoryStage]: the code and the stage, which is only set when the code is [MXM_OK]. *)
Definition GetShareMemoryStage (e : Engine) (name : string) : Z * ubs_mem_stage :=
  if negb (eng_loaded e) then (MXM_ERR_UBSE_LIB, UBSE_END)
  else
    let '(r, slot) := pUbseNodeLocalGet e in
    if negb (Z.eqb r 0) then (MXM_ERR_UBSE_INNER, UBSE_END)
    else
      match pUbseMemShmGet e name with
      | (r, desc) =>
          if Z.eqb r UBS_ENGINE_ERR_NOT_EXIST then (MXM_ERR_SHM_NOT_EXIST, UBSE_END)
          else if negb (Z.eqb r 0) then (MXM_ERR_UBSE_INNER, UBSE_END)
          else
            match desc with
            | None => (MXM_ERR_UBSE_INNER, UBSE_END)
            | Some desc =>
                match sd_import desc with
                | [] => (MXM_ERR_SHM_NOT_EXIST, UBSE_END)
                | _ => (MXM_OK, default UBSE_NOT_EXIST (local_stage slot (sd_import desc)))
                end
            end
      end.

Definition ShmGetUserData (e : Engine) (name : string) : Z * ubse_user_info_t :=
  let none := mkUserInfo 0 0 0 0 0 0 in
  if negb (Z.eqb (eng_Initialize e) 0) then (eng_Initialize e, none)
  else if negb (eng_loaded e) then (MXM_ERR_UBSE_INNER, none)
  else
    let '(r, desc) := pUbseMemShmGet e name in
    if negb (Z.eqb r UBS_SUCCESS) then
      (if Z.eqb r UBS_ENGINE_ERR_NOT_EXIST then MXM_ERR_SHM_NOT_EXIST else MXM_ERR_UBSE_INNER, none)
    else match desc with None => (MXM_ERR_UBSE_INNER, none) | Some desc => (MXM_OK, sd_usr_info desc) end.

(** The flags a client gets: on the exporting node the non-cacheable flag is dropped. *)
Definition attach_flag (flag : Z) (desc : ubs_mem_shm_desc_t) (i : import_desc_t) : Z :=
  if negb (Z.eqb (Z.land flag UBSM_FLAG_ONLY_IMPORT_NONCACHE) 0) && Z.eqb (sd_export_slot desc) (id_slot i)
  then Z.ldiff flag UBSM_FLAG_ONLY_IMPORT_NONCACHE else flag.

Definition ShmAttach (e : Engine) (name : string) (ubsUserInfo : ubse_user_info_t) (result : AttachShmResult)
  : M (S := S) (Z * AttachShmResult) :=
  if negb (Z.eqb (eng_Initialize e) 0) then ret (eng_Initialize e, result)
  else if negb (eng_loaded e) then ret (MXM_ERR_UBSE_INNER, result)
  else
    let '(r, shmDes) := pUbseMemShmAttach e name ubsUserInfo in
    trace (CallAttach name r) ;;
    if Z.eqb r UBS_ERR_TIMED_OUT then
      AddDelayRemoveRecord (mkDelay false 0 (eng_now e + ONE_MINUTE_MS) name
        (mkAppContext (u32 (ui_pid ubsUserInfo)) (ui_uid ubsUserInfo) (ui_gid ubsUserInfo)) false false true true 0) ;;
      ret (UBS_ERR_TIMED_OUT, result)
    else if negb (Z.eqb r UBS_SUCCESS) && negb (Z.eqb r UBS_ENGINE_ERR_EXISTED) then
      ret (if Z.eqb r UBS_ERR_NOT_SUPPORTED then MXM_ERR_UBSE_NOT_SUPPORTED else MXM_ERR_UBSE_INNER, result)
    else
      match shmDes with
      | None => ret (MXM_ERR_UBSE_INNER, result)
      | Some desc =>
          match sd_import desc with
          | [i] => ret (MXM_OK, mkAttach (sd_mem_size desc) (sd_unit_size desc) (at_memIds result ++ id_memids i)
                                  (attach_flag (ui_flag ubsUserInfo) desc i) (at_oflag result))
          | _ => ret (MXM_ERR_UBSE_INNER, result)
          end
      end.

Definition ShmDetach (e : Engine) (name : string) : M (S := S) Z :=
  if negb (Z.eqb (eng_Initialize e) 0) then ret (eng_Initialize e)
  else if negb (eng_loaded e) then ret MXM_ERR_UBSE_INNER
  else
    let r := pUbseMemShmDetach e name in
    trace (CallDetach name r) ;;
    if negb (Z.eqb r UBS_SUCCESS) then
      ret (if Z.eqb r UBS_ENGINE_ERR_SHM_NO_ATTACH then MXM_ERR_UBSE_NOT_ATTACH
           else if Z.eqb r UBS_ERR_NOT_SUPPORTED then MXM_ERR_UBSE_NOT_SUPPORTED else MXM_ERR_UBSE_INNER)
    else ret MXM_OK.

Definition ShmDelete (e : Engine) (name : string) : M (S := S) Z :=
  if negb (Z.eqb (eng_Initialize e) 0) then ret (eng_Initialize e)
  else if negb (eng_loaded e) then ret MXM_ERR_UBSE_INNER
  else
    let r := pUbseMemShmDelete e name in
    trace (CallDelete name r) ;;
    if negb (Z.eqb r UBS_SUCCESS) then
      ret (if Z.eqb r UBS_ENGINE_ERR_SHM_ATTACH_USING then MXM_ERR_SHM_IN_USING
           else if Z.eqb r UBS_ENGINE_ERR_NOT_EXIST then MXM_ERR_SHM_NOT_EXIST
           else if Z.eqb r UBS_ERR_NOT_SUPPORTED then MXM_ERR_UBSE_NOT_SUPPORTED else MXM_ERR_UBSE_INNER)
    else ret MXM_OK.

(** [GetTimeOutShmTaskStatus]: the code, the stage (the caller starts it with
    [UBSE_END]) and the sequence number (started with [UINT32_MAX]). *)
Definition GetTimeOutShmTaskStatus (e : Engine) (name : string) (isAttach : bool) : Z * ubs_mem_stage * Z :=
  let no r := (r, UBSE_END, (2 ^ 32 - 1)%Z) in
  let '(r, desc) := pUbseMemShmGet e name in
  if negb (Z.eqb r UBS_SUCCESS) then no (if Z.eqb r UBS_ENGINE_ERR_NOT_EXIST then MXM_ERR_SHM_NOT_EXIST else MXM_ERR_UBSE_INNER)
  else
    match desc with
    | None => no MXM_ERR_UBSE_INNER
    | Some desc =>
        if Nat.ltb UBS_TOPO_MAX_NODE_NUM (length (sd_import desc)) then no MXM_ERR_UBSE_INNER
        else
          let '(r, slot) := pUbseNodeLocalGet e in
          if negb (Z.eqb r UBS_SUCCESS) then no MXM_ERR_UBSE_INNER
          else if negb isAttach then
            match sd_import desc with
            | [] => (MXM_OK, sd_mem_stage desc, ui_seqNo (sd_usr_info desc))
            | _ => no MXM_ERR_SHM_IN_USING
            end
          else
            match local_stage slot (sd_import desc) with
            | None => no MXM_ERR_SHM_NOT_EXIST
            | Some stage => (MXM_OK, stage, (2 ^ 32 - 1)%Z)
            end
    end.

End Adapter.
