(* ===== verification/ShmManager.v ===== *)
(** The shared-memory manager: [src/src/mxm_shm/shm_manager.cpp].

    [attachedShareMemory_] maps the name of an imported shared memory to its
    size, state, users and attach result; every change goes to the record store
    first. *)

From S2P Require Import Prelude StoreTypes IdPool IdPoolSpec RecordAllocator RecordStore StoreTable StoreInv StoreSteps StoreRestart StoreSpec RegionNodes StoreTheorems StoreInterface Daemon.

Module SHMManager.

Definition no_result : ShareMemImportResult := mkShareMemImportResult [] 0 0 0 0 0.

Definition with_pids (memory : AttachedShareMemory) (pids : gset Z) : AttachedShareMemory :=
  mkAttached (asm_name memory) (asm_size memory) (asm_state memory) pids (asm_result memory).

Definition with_state (memory : AttachedShareMemory) (st : RecordState) : AttachedShareMemory :=
  mkAttached (asm_name memory) (asm_size memory) st (asm_pids memory) (asm_result memory).

Section Operations.
Context {S : Type} `{!RecordStoreAPI S}.

Definition AddMemoryUserInfo (name : string) (userProcessId : Z) : M (S := S) Z :=
  let* m := get_attached in
  match m !! name with
  | None => ret MXM_ERR_SHM_NOT_FOUND
  | Some memory =>
      let* r := call (OpAddRef userProcessId name) in
      if negb (Z.eqb r 0) then ret MXM_ERR_SHM_NOT_FOUND
      else
        set_attached (<[name := with_pids memory ({[userProcessId]} ∪ asm_pids memory)]> m) ;;
        ret MXM_OK
  end.

Definition RemoveMemoryUserInfo (name : string) (userProcessId : Z) : M (S := S) Z :=
  let* m := get_attached in
  match m !! name with
  | None => ret MXM_ERR_SHM_NOT_FOUND
  | Some memory =>
      if decide (userProcessId ∈ asm_pids memory) then
        let* r := call (OpDelRef userProcessId name) in
        if negb (Z.eqb r 0) then ret MXM_ERR_SHM_NOT_FOUND
        else
          set_attached (<[name := with_pids memory (asm_pids memory ∖ {[userProcessId]})]> m) ;;
          ret MXM_OK
      else ret MXM_ERR_SHM_NOT_FOUND
  end.

Definition PrepareAddShareMemoryInfo (name : string) (size processId : Z) : M (S := S) Z :=
  let* m := get_attached in
  match m !! name with
  | Some _ => ret MXM_ERR_SHM_ALREADY_EXIST
  | None =>
      let* r := call (OpAddImportInput (mkShareMemImportInput name size processId)) in
      if negb (Z.eqb r 0) then ret MXM_ERR_RECORD_ADD
      else
        set_attached (<[name := mkAttached name size PRE_ADD ∅ no_result]> m) ;;
        ret MXM_OK
  end.

Definition AddFullShareMemoryInfo (name : string) (pid : Z) (result : ShareMemImportResult) : M (S := S) Z :=
  let* m := get_attached in
  match m !! name with
  | None => ret MXM_ERR_SHM_NOT_FOUND
  | Some memory =>
      let* r := call (OpAddImportResult name result) in
      if negb (Z.eqb r 0) then ret MXM_ERR_RECORD_ADD
      else
        let* r := call (OpAddRef pid name) in
        if negb (Z.eqb r 0) then
          call (OpDelImport name) ;;
          ret MXM_ERR_SHM_NOT_FOUND
        else
          set_attached (<[name := mkAttached (asm_name memory) (asm_size memory) FINISH ({[pid]} ∪ asm_pids memory) result]> m) ;;
          ret MXM_OK
  end.

Definition UpdateShareMemoryRecordState (name : string) (st : RecordState) : M (S := S) Z :=
  let* m := get_attached in
  match m !! name with
  | None => ret MXM_ERR_SHM_NOT_FOUND
  | Some memory =>
      let* r := call (OpSetImportState name st) in
      if negb (Z.eqb r 0) then ret MXM_ERR_RECORD_CHANGE_STATE
      else
        set_attached (<[name := with_state memory st]> m) ;;
        ret MXM_OK
  end.

(** The loop over the users of a memory that is removed by force. *)
Fixpoint del_refs (name : string) (pids : list Z) : M (S := S) bool :=
  match pids with
  | [] => ret true
  | pid :: pids =>
      let* r := call (OpDelRef pid name) in
      if negb (Z.eqb r 0) then ret false else del_refs name pids
  end.

(** The second half of [RemoveMemoryInfo]: an unused memory is removed. *)
Definition remove_unused (name : string) : M (S := S) Z :=
  let* m := get_attached in
  match m !! name with
  | None => ret MXM_ERR_SHM_NOT_FOUND
  | Some memory =>
      if negb (bool_decide (asm_pids memory = ∅)) then ret MXM_ERR_SHM_IN_USING
      else
        let* r := call (OpDelImport name) in
        if negb (Z.eqb r 0) then ret MXM_ERR_SHM_NOT_FOUND
        else
          set_attached (delete name m) ;;
          ret MXM_OK
  end.

Definition RemoveMemoryInfo (name : string) (force : bool) : M (S := S) Z :=
  let* m := get_attached in
  match m !! name with
  | None => ret MXM_ERR_SHM_NOT_FOUND
  | Some memory =>
      if force && bool_decide (asm_state memory = DELETED) then
        let* ok := del_refs name (elements (asm_pids memory)) in
        if negb ok then ret MXM_ERR_SHM_NOT_FOUND
        else
          set_attached (<[name := with_pids memory ∅]> m) ;;
          remove_unused name
      else remove_unused name
  end.

(** The code and, when it is [MXM_OK], the memory. *)
Definition GetShareMemoryInfo (name : string) : M (S := S) (Z * option AttachedShareMemory) :=
  let* m := get_attached in
  match m !! name with
  | None => ret (MXM_ERR_SHM_NOT_FOUND, None)
  | Some memory => ret (MXM_OK, Some memory)
  end.

Definition GetMemoryUsersByPid (pid : Z) : M (S := S) (list AttachedShareMemory) :=
  let* m := get_attached in
  ret (List.filter (fun memory => bool_decide (s32 pid ∈ asm_pids memory)) (map_to_list m).*2).

Definition GetMemoryUsersCountByName (name : string) : M (S := S) nat :=
  let* m := get_attached in
  ret (match m !! name with None => 0 | Some memory => size (asm_pids memory) end).

Definition GetAllUsers : M (S := S) (gset Z) :=
  let* m := get_attached in
  ret (⋃ (asm_pids <$> (map_to_list m).*2)).

(** ** Recovery *)

(** [needToDelete]; the return code is ignored by the caller. *)
Definition RemovePreAddRecord (e : Engine) (record : ShareMemImportInfo) : M (S := S) bool :=
  let '(r, stage) := GetShareMemoryStage e (smo_name record) in
  if Z.eqb r MXM_ERR_SHM_NOT_EXIST then
    call (OpDelImport (smo_name record)) ;;
    ret true
  else if negb (Z.eqb r 0) then ret false
  else if bool_decide (stage = UBSE_NOT_EXIST) || bool_decide (stage = UBSE_DELETING) then
    call (OpDelImport (smo_name record)) ;;
    ret true
  else
    AddDelayRemoveRecord (mkDelay false 0 (eng_now e + ONE_MINUTE_MS) (smo_name record) (smo_appContext record) false false true true 0) ;;
    ret false.

Definition RollbackPreDeleteRecord (e : Engine) (record : ShareMemImportInfo) : M (S := S) (Z * RecordState) :=
  let '(r, stage) := GetShareMemoryStage e (smo_name record) in
  if Z.eqb r MXM_ERR_SHM_NOT_EXIST then
    call (OpSetImportState (smo_name record) DELETED) ;;
    ret (MXM_OK, DELETED)
  else if negb (Z.eqb r 0) then ret (r, smo_state record)
  else if bool_decide (stage = UBSE_NOT_EXIST) || bool_decide (stage = UBSE_DELETING) || bool_decide (stage = UBSE_ERR_WAIT_UNEXPORT) then
    call (OpSetImportState (smo_name record) DELETED) ;;
    ret (MXM_OK, DELETED)
  else
    call (OpSetImportState (smo_name record) FINISH) ;;
    ret (0%Z, FINISH).

Definition recovered (record : ShareMemImportInfo) (st : RecordState) : AttachedShareMemory :=
  mkAttached (smo_name record) (smo_size record) st ∅
    (mkShareMemImportResult (smo_memIds record) (smo_unitSize record) (smo_flag record) (smo_oflag record)
       (ac_uid (smo_appContext record)) (ac_gid (smo_appContext record))).

(** The body of the loop of [RecoverFromRecord]; [None] is [continue], the
    other cases give the state with which the record enters the map. *)
Definition recover_state (e : Engine) (record : ShareMemImportInfo) : M (S := S) (option RecordState) :=
  let* gone := (if bool_decide (smo_state record = PRE_ADD) then RemovePreAddRecord e record else ret false) in
  if gone : bool then ret None
  else if bool_decide (smo_state record = PRE_DEL) then
    let* rs := RollbackPreDeleteRecord e record in
    if negb (Z.eqb rs.1 0) then ret None else ret (Some rs.2)
  else ret (Some (smo_state record)).

Fixpoint recover_records (e : Engine) (attachRecords : list ShareMemImportInfo) : M (S := S) Z :=
  match attachRecords with
  | [] => ret MXM_OK
  | record :: rest =>
      let* m := get_attached in
      match m !! smo_name record with
      | Some _ => ret MXM_ERR_SHM_ALREADY_EXIST
      | None =>
          let* st := recover_state e record in
          match st with
          | None => recover_records e rest
          | Some st =>
              set_attached (<[smo_name record := recovered record st]> m) ;;
              recover_records e rest
          end
      end
  end.

Definition RecoverFromRecord (e : Engine) : M (S := S) Z :=
  let* attachRecords := query list_imports in
  recover_records e attachRecords.

Fixpoint recover_users (refs : list (string * gmap Z Z)) : M (S := S) Z :=
  match refs with
  | [] => ret MXM_OK
  | (name, users) :: rest =>
      let* m := get_attached in
      match m !! name with
      | None => ret MXM_ERR_SHM_NOT_FOUND
      | Some memory =>
          set_attached (<[name := with_pids memory (list_to_set (map_to_list users).*1 ∪ asm_pids memory)]> m) ;;
          recover_users rest
      end
  end.

(** The loop that deletes records without users, over a copy of the map. *)
Fixpoint drop_unused (backup : list (string * AttachedShareMemory)) : M (S := S) Z :=
  match backup with
  | [] => ret MXM_OK
  | (name, memory) :: rest =>
      if bool_decide (asm_state memory = PRE_ADD) then drop_unused rest
      else if bool_decide (asm_pids memory = ∅) then
        let* r := call (OpDelImport name) in
        if negb (Z.eqb r 0) then drop_unused rest
        else
          let* m := get_attached in
          set_attached (delete name m) ;;
          drop_unused rest
      else drop_unused rest
  end.

Definition RecoverFromRefRecord : M (S := S) Z :=
  let* refRecords := query list_refs in
  let* r := recover_users (map_to_list refRecords) in
  if negb (Z.eqb r MXM_OK) then ret r
  else
    let* backup := get_attached in
    drop_unused (map_to_list backup).

Definition Recovery (e : Engine) : M (S := S) Z :=
  let* r := RecoverFromRecord e in
  if negb (Z.eqb r MXM_OK) then ret r else RecoverFromRefRecord.

End Operations.

End SHMManager.
