(* ===== verification/ShmHandlers.v ===== *)
(** The request handlers of the shared-memory service that change its state
    ([ShmMap], [ShmUnmap], [ShmDelete] of [src/src/mxm_shm/ipc_handler.cpp]), the
    permission check they use, and the leak cleaner's part for shared memory
    ([src/src/process/monitor/ubs_mem_leak_cleaner.cpp]).

    A handler gets the decoded request, the peer's credentials and the response
    to fill. It runs under the mutex of the memory's name. *)

From S2P Require Import Prelude StoreTypes IdPool IdPoolSpec RecordAllocator RecordStore StoreTable StoreInv StoreSteps StoreRestart StoreSpec RegionNodes StoreTheorems MsgPacker MsgBase MsgRequests MsgResponses StoreInterface Daemon ShmManager.
Import SHMManager.

(** ** Permissions *)

Definition PROT_NONE : Z := 0.
Definition PROT_READ : Z := 1.
Definition PROT_WRITE : Z := 2.
Definition PROT_EXEC : Z := 4.
Definition O_RDONLY : Z := 0.
Definition O_RDWR : Z := 2.

(** [S_IRUSR], [S_IWUSR], ... of the C library. *)
Definition S_IRUSR : Z := 256.
Definition S_IWUSR : Z := 128.
Definition S_IXUSR : Z := 64.
Definition S_IRGRP : Z := 32.
Definition S_IWGRP : Z := 16.
Definition S_IXGRP : Z := 8.
Definition S_IROTH : Z := 4.
Definition S_IWOTH : Z := 2.
Definition S_IXOTH : Z := 1.

(** [a & b] as a condition. *)
Definition has (a b : Z) : bool := negb (Z.eqb (Z.land a b) 0).

Definition GetMaxOflag (provided_perms : Z) : Z :=
  if has provided_perms PROT_READ && has provided_perms PROT_WRITE then O_RDWR
  else if has provided_perms PROT_READ then O_RDONLY
  else if has provided_perms PROT_EXEC then O_RDWR
  else (-1)%Z.

(** The three [if (mode & bit) provided_perms |= prot] of one class. *)
Definition class_perms (mode r w x : Z) : Z :=
  let p := PROT_NONE in
  let p := if has mode r then Z.lor p PROT_READ else p in
  let p := if has mode w then Z.lor p PROT_WRITE else p in
  if has mode x then Z.lor p PROT_EXEC else p.

Definition CalculateProvidedPermissions (caller_uid caller_gid owner_uid owner_gid mode : Z) : Z :=
  let is_owner := Z.eqb caller_uid owner_uid in
  let in_group := Z.eqb caller_gid owner_gid in
  if is_owner then class_perms mode S_IRUSR S_IWUSR S_IXUSR
  else if in_group then class_perms mode S_IRGRP S_IWGRP S_IXGRP
  else class_perms mode S_IROTH S_IWOTH S_IXOTH.

(** The code and [oflag]. *)
Definition CheckPermission (caller_uid caller_gid : Z) (ubsUserInfo : ubse_user_info_t) (port : Z) : Z * Z :=
  let provided_perms := CalculateProvidedPermissions caller_uid caller_gid (ui_uid ubsUserInfo) (ui_gid ubsUserInfo) (ui_mode ubsUserInfo) in
  let oflag := GetMaxOflag provided_perms in
  let ok := negb (Z.eqb oflag (-1)) in
  let ok := if has port PROT_READ && negb (has provided_perms PROT_READ) then false else ok in
  let ok := if has port PROT_WRITE && negb (has provided_perms PROT_WRITE) then false else ok in
  let ok := if has port PROT_EXEC && negb (has provided_perms PROT_EXEC) then false else ok in
  (if ok then 0 else MXM_ERR_SHM_PERMISSION_DENIED, oflag)%Z.

Section Handlers.
Context {S : Type} `{!RecordStoreAPI S}.

(** ** Mapping *)

Definition RollBackAttachShareMemory (e : Engine) (name : string) : M (S := S) unit :=
  let* r := UpdateShareMemoryRecordState name PRE_DEL in
  if negb (Z.eqb r 0) then ret tt
  else
    let* r := ShmDetach e name in
    if negb (Z.eqb r 0) && negb (Z.eqb r MXM_ERR_UBSE_NOT_ATTACH) then
      UpdateShareMemoryRecordState name FINISH ;;
      ret tt
    else
      RemoveMemoryInfo name false ;;
      ret tt.

(** [ShmMmapInner] for the request of a caller; the code and the attach result. *)
Definition ShmMmapInner (e : Engine) (name : string) (length prot : Z) (caller : MxmComUdsInfo) : M (S := S) (Z * AttachShmResult) :=
  let result := mkAttach 0 0 [] 0 0 in
  let '(rt, ubsUserInfo) := ShmGetUserData e name in
  if negb (Z.eqb rt 0) then ret (rt, result)
  else
    let '(res, oflag) := CheckPermission (uds_uid caller) (uds_gid caller) ubsUserInfo prot in
    let result := mkAttach 0 0 [] 0 oflag in
    if negb (Z.eqb res 0) then ret (res, result)
    else
      let owner_uid := ui_uid ubsUserInfo in
      let owner_gid := ui_gid ubsUserInfo in
      let ubsUserInfo := mkUserInfo (ui_uid ubsUserInfo) (ui_gid ubsUserInfo) (s32 (uds_pid caller)) (ui_mode ubsUserInfo)
                           (ui_flag ubsUserInfo) (ui_seqNo ubsUserInfo) in
      let* hr := PrepareAddShareMemoryInfo name length (s32 (uds_pid caller)) in
      if negb (Z.eqb hr 0) then ret (hr, result)
      else
        let* hr := ShmAttach e name ubsUserInfo result in
        if negb (Z.eqb hr.1 0) then
          RemoveMemoryInfo name false ;;
          ret hr
        else
          let result := hr.2 in
          let attachResult := mkShareMemImportResult (at_memIds result) (at_unitSize result) (at_flag result) (at_oflag result)
                                owner_uid owner_gid in
          let* hr := AddFullShareMemoryInfo name (s32 (uds_pid caller)) attachResult in
          if negb (Z.eqb hr 0) then
            RollBackAttachShareMemory e name ;;
            ret (hr, result)
          else ret (MXM_OK, result).

Definition map_error (rsp : ShmMapResponse) (code : Z) : ShmMapResponse :=
  mkShmMapResponse (ShmMapResponse_base rsp) code (ShmMapResponse_memIds_ rsp) (ShmMapResponse_shmSize_ rsp)
    (ShmMapResponse_unitSize_ rsp) (ShmMapResponse_flag_ rsp) (ShmMapResponse_oflag_ rsp).

Definition HandleExistingShm (req : ShmMapRequest) (rsp : ShmMapResponse) (udsInfo : MxmComUdsInfo) (memory : AttachedShareMemory)
  : M (S := S) (Z * ShmMapResponse) :=
  if decide (s32 (uds_pid udsInfo) ∈ asm_pids memory) then
    ret (MXM_ERR_SHM_ALREADY_EXIST, map_error rsp MXM_ERR_SHM_ALREADY_EXIST)
  else
    let* r := AddMemoryUserInfo (ShmMapRequest_name_ req) (s32 (uds_pid udsInfo)) in
    if negb (Z.eqb r MXM_OK) then ret (r, map_error rsp r)
    else
      let result := asm_result memory in
      ret (MXM_OK, mkShmMapResponse (ShmMapResponse_base rsp) (ShmMapResponse_errCode_ rsp) (smr_memIds result) (asm_size memory)
                     (smr_unitSize result) (smr_createFlags result) (smr_openFlag result)).

Definition map_new (e : Engine) (req : ShmMapRequest) (rsp : ShmMapResponse) (udsInfo : MxmComUdsInfo) : M (S := S) (Z * ShmMapResponse) :=
  let* r := ShmMmapInner e (ShmMapRequest_name_ req) (ShmMapRequest_size_ req) (ShmMapRequest_prot_ req) udsInfo in
  if negb (Z.eqb r.1 MXM_OK) then ret (r.1, map_error rsp r.1)
  else ret (0%Z, mkShmMapResponse (ShmMapResponse_base rsp) (ShmMapResponse_errCode_ rsp) (at_memIds r.2) (at_shmSize r.2)
                   (at_unitSize r.2) (at_flag r.2) (at_oflag r.2)).

Definition ShmMap (e : Engine) (req : ShmMapRequest) (rsp : ShmMapResponse) (udsInfo : MxmComUdsInfo) : M (S := S) (Z * ShmMapResponse) :=
  let name := ShmMapRequest_name_ req in
  let* busy := GetDelayRemoveRecord name in
  if busy : bool then ret (MXM_ERR_NAME_BUSY, map_error rsp MXM_ERR_NAME_BUSY)
  else
    let rsp := map_error rsp MXM_OK in
    let* info := GetShareMemoryInfo name in
    match info.2 with
    | None => map_new e req rsp udsInfo
    | Some memory =>
        if bool_decide (asm_state memory = FINISH) then HandleExistingShm req rsp udsInfo memory
        else if bool_decide (asm_state memory = DELETED) then
          let* r := RemoveMemoryInfo (asm_name memory) true in
          if negb (Z.eqb r 0) then ret (r, map_error rsp r) else map_new e req rsp udsInfo
        else map_new e req rsp udsInfo
    end.

(** ** Unmapping *)

Definition ShmUnMapInner (e : Engine) (name : string) (usrInfo : MxmComUdsInfo) : M (S := S) Z :=
  let pid := s32 (uds_pid usrInfo) in
  let* r := UpdateShareMemoryRecordState name PRE_DEL in
  if negb (Z.eqb r MXM_OK) then ret r
  else
    let* r := ShmDetach e name in
    if negb (Z.eqb r MXM_OK) && negb (Z.eqb r MXM_ERR_UBSE_NOT_ATTACH) then
      UpdateShareMemoryRecordState name FINISH ;;
      ret r
    else
      let* r := RemoveMemoryUserInfo name pid in
      if negb (Z.eqb r MXM_OK) then ret r
      else
        let* r := RemoveMemoryInfo name false in
        if negb (Z.eqb r MXM_OK) then
          AddMemoryUserInfo name pid ;;
          ret r
        else ret MXM_OK.

(** The code, which is also the response's [errCode_]. *)
Definition ShmUnmap (e : Engine) (name : string) (udsInfo : MxmComUdsInfo) : M (S := S) Z :=
  let* info := GetShareMemoryInfo name in
  match info.2 with
  | None => ret info.1
  | Some memory =>
      if bool_decide (asm_state memory = DELETED) then RemoveMemoryInfo name true
      else
        let* userNum := GetMemoryUsersCountByName name in
        if Nat.ltb 1 userNum then RemoveMemoryUserInfo name (s32 (uds_pid udsInfo))
        else ShmUnMapInner e name udsInfo
  end.

(** ** Deletion *)

Definition ShmPermissionCheck (e : Engine) (name : string) (udsInfo : MxmComUdsInfo) : Z :=
  let '(r, info) := ShmGetUserData e name in
  if negb (Z.eqb r 0) then r
  else if negb (Z.eqb (uds_uid udsInfo) (ui_uid info)) || negb (Z.eqb (uds_gid udsInfo) (ui_gid info)) then
    MXM_ERR_SHM_PERMISSION_DENIED
  else MXM_OK.

Definition ShmDeleteRequested (e : Engine) (name : string) (udsInfo : MxmComUdsInfo) : M (S := S) Z :=
  let* busy := GetDelayRemoveRecord name in
  if busy : bool then ret MXM_ERR_NAME_BUSY
  else
    let res := ShmPermissionCheck e name udsInfo in
    if negb (Z.eqb res 0) then ret res
    else
      let* usrNum := GetMemoryUsersCountByName name in
      if Nat.ltb 0 usrNum then ret MXM_ERR_SHM_IN_USING else ShmDelete e name.

(** ** The leak cleaner *)

(** The loop over the memories that the dead process uses. *)
Fixpoint leave_memories (e : Engine) (pid : Z) (memoryArr : list AttachedShareMemory) : M (S := S) Z :=
  match memoryArr with
  | [] => ret MXM_OK
  | memory :: rest =>
      if negb (bool_decide (pid ∈ asm_pids memory)) then leave_memories e pid rest
      else if Nat.ltb 1 (size (asm_pids memory)) then
        RemoveMemoryUserInfo (asm_name memory) pid ;;
        leave_memories e pid rest
      else
        let* pending := GetDelayRemoveRecord (asm_name memory) in
        if pending : bool then leave_memories e pid rest
        else
          AddDelayRemoveRecord (mkDelay false 0 (eng_now e) (asm_name memory)
            (mkAppContext (u32 pid) (smr_ownerUserId (asm_result memory)) (smr_ownerGroupId (asm_result memory)))
            false false false false 0) ;;
          leave_memories e pid rest
  end.

Definition SHMProcessDeadProcess (e : Engine) (pid : Z) : M (S := S) Z :=
  let* memoryArr := GetMemoryUsersByPid pid in
  leave_memories e pid memoryArr.

Definition TryRollBackTimeoutShmTask (e : Engine) (name : string) (isAttach : bool) (createSeqNo : Z) : M (S := S) Z :=
  let '(r, status, storedSeqNo) := GetTimeOutShmTaskStatus e name isAttach in
  if Z.eqb r MXM_ERR_SHM_NOT_EXIST || bool_decide (status = UBSE_NOT_EXIST) then
    if isAttach then
      RemoveMemoryInfo name false ;;
      ret MXM_OK
    else ret MXM_OK
  else if Z.eqb r MXM_ERR_SHM_IN_USING then ret MXM_OK
  else if negb (Z.eqb r MXM_OK) || bool_decide (status = UBSE_CREATING) || bool_decide (status = UBSE_DELETING) then
    ret MXM_TIME_OUT_TASK_NEED_RETRY
  else if isAttach then
    let* hr := ShmDetach e name in
    RemoveMemoryInfo name false ;;
    ret hr
  else if negb (Z.eqb createSeqNo storedSeqNo) then ret MXM_OK
  else ShmDelete e name.

Definition CleanShareMemoryLeakInner (e : Engine) (name : string) (ctx : AppContext) (isTimeOutScene isAttach : bool) (createSeqNo : Z)
  : M (S := S) Z :=
  let pid := s32 (ac_pid ctx) in
  if bool_decide (name = "") then ret MXM_ERR_PARAM_INVALID
  else if isTimeOutScene then TryRollBackTimeoutShmTask e name isAttach createSeqNo
  else
    let* r := RemoveMemoryUserInfo name pid in
    if negb (Z.eqb r 0) && negb (Z.eqb r MXM_ERR_SHM_NOT_FOUND) then ret r
    else
      let* r := UpdateShareMemoryRecordState name PRE_DEL in
      if negb (Z.eqb r 0) && negb (Z.eqb r MXM_ERR_SHM_NOT_FOUND) then ret r
      else
        let* hr := ShmDetach e name in
        if negb (Z.eqb hr 0) && negb (Z.eqb hr MXM_ERR_UBSE_NOT_ATTACH) then
          UpdateShareMemoryRecordState name FINISH ;;
          AddMemoryUserInfo name pid ;;
          ret hr
        else
          let* r := RemoveMemoryInfo name false in
          if negb (Z.eqb r 0) && negb (Z.eqb hr MXM_ERR_UBSE_NOT_ATTACH) then
            UpdateShareMemoryRecordState name DELETED ;;
            AddMemoryUserInfo name pid ;;
            ret r
          else ret MXM_OK.

End Handlers.
