(* ===== verification/DaemonSim.v ===== *)
(** Running a client on the abstract store.

    [tracks p q]: program [p] over a store that obeys the laws does what [q]
    does over the abstract store. The managers and handlers track themselves,
    so their properties are proved on the abstract store and hold for
    every store behind the interface. *)

From S2P Require Import Prelude StoreTypes IdPool IdPoolSpec RecordAllocator RecordStore StoreTable StoreInv StoreSteps StoreRestart StoreSpec RegionNodes StoreTheorems MsgPacker MsgBase MsgRequests MsgResponses StoreInterface Daemon ShmManager ShmHandlers.
Import SHMManager.

Create HintDb tracks.

Section Tracks.
Context {G : Geometry} {S : Type} `{!RecordStoreAPI S} `{!RecordStoreLaws S}.

Definition model (d : Daemon S) : Daemon AStore :=
  mkDaemon (attachedShareMemory_ d) (view (store_ d)) (delayedRemoveKeys d) (delayedRemoveKeysByName d) (engine_trace d) (leases_ d).

Definition tracks {A} (p : M (S := S) A) (q : M (S := AStore) A) : Prop :=
  forall d, valid (store_ d) -> valid (store_ (p d).2) /\ q (model d) = ((p d).1, model (p d).2).

Lemma tracks_ret {A} (a : A) : tracks (ret a) (ret a).
Proof. by intros d V. Qed.

Lemma tracks_bind {A B} (p : M A) q (k : A -> M B) h :
  tracks p q -> (forall a, tracks (k a) (h a)) -> tracks (bind p k) (bind q h).
Proof.
  intros Hp Hk d V. destruct (Hp d V) as [V1 E]. unfold bind. destruct (p d) as [a d1]. simpl in *. rewrite E.
  by apply Hk.
Qed.

Lemma tracks_get : tracks get_attached get_attached.
Proof. by intros d V. Qed.

Lemma tracks_set m : tracks (set_attached m) (set_attached m).
Proof. by intros d V. Qed.

Lemma tracks_call o : op_ok o -> tracks (call o) (call o).
Proof.
  intros Hok d V. pose proof (exec_valid _ _ V Hok) as V'. pose proof (exec_view _ _ V Hok) as E. unfold call, model in *. simpl.
  rewrite E. by destruct (exec o (store_ d)).
Qed.

Lemma tracks_imports : tracks (query list_imports) (query list_imports).
Proof. intros d V. unfold query. simpl. by rewrite (list_imports_view _ V). Qed.

Lemma tracks_refs : tracks (query list_refs) (query list_refs).
Proof. intros d V. unfold query. simpl. by rewrite (list_refs_model _ V). Qed.

Lemma tracks_trace c : tracks (trace c) (trace c).
Proof. by intros d V. Qed.

Lemma tracks_delay k : tracks (AddDelayRemoveRecord k) (AddDelayRemoveRecord k).
Proof. by intros d V. Qed.

Lemma tracks_busy n : tracks (GetDelayRemoveRecord n) (GetDelayRemoveRecord n).
Proof. by intros d V. Qed.

End Tracks.

#[export] Hint Resolve tracks_ret tracks_get tracks_set tracks_imports tracks_refs tracks_trace tracks_delay tracks_busy : tracks.

(** One construct of a program at a time. *)
Ltac track :=
  repeat first
    [ progress intros
    | solve [eauto with tracks]
    | apply tracks_call; cbn [op_ok]; solve [done | eauto with tracks]
    | apply tracks_bind
    | match goal with
      | |- tracks (match ?x with _ => _ end) _ => destruct x
      | |- tracks (if ?x then _ else _) _ => destruct x
      | |- tracks (let '(_, _) := ?x in _) _ => destruct x
      end ].

Lemma s32_pid z : pid_range (s32 z).
Proof. unfold pid_range, s32. pose proof (Z.mod_pos_bound (z + 2 ^ 31) (2 ^ 32)). lia. Qed.

Lemma good_name_length n : good_name n -> String.length n < RECORD_NAME_SIZE.
Proof. by intros (_ & _ & ?). Qed.

#[export] Hint Resolve s32_pid good_name_length : tracks.

Section Clients.
Context {G : Geometry} {S : Type} `{!RecordStoreAPI S} `{!RecordStoreLaws S}.

Lemma tracks_AddMemoryUserInfo n p : pid_range p -> tracks (AddMemoryUserInfo (S := S) n p) (AddMemoryUserInfo n p).
Proof. intros H. unfold AddMemoryUserInfo. track. Qed.

Lemma tracks_RemoveMemoryUserInfo n p : tracks (RemoveMemoryUserInfo (S := S) n p) (RemoveMemoryUserInfo n p).
Proof. unfold RemoveMemoryUserInfo. track. Qed.

Lemma tracks_PrepareAdd n sz p : good_name n -> tracks (PrepareAddShareMemoryInfo (S := S) n sz p) (PrepareAddShareMemoryInfo n sz p).
Proof. intros H. unfold PrepareAddShareMemoryInfo. track. Qed.

Lemma tracks_AddFull n p r :
  good_name n -> pid_range p -> tracks (AddFullShareMemoryInfo (S := S) n p r) (AddFullShareMemoryInfo n p r).
Proof. intros H Hp. unfold AddFullShareMemoryInfo. track. Qed.

Lemma tracks_UpdateState n st : tracks (UpdateShareMemoryRecordState (S := S) n st) (UpdateShareMemoryRecordState n st).
Proof. unfold UpdateShareMemoryRecordState. track. Qed.

Lemma tracks_del_refs n l : tracks (del_refs (S := S) n l) (del_refs n l).
Proof. induction l; simpl; track. Qed.

Lemma tracks_remove_unused n : tracks (remove_unused (S := S) n) (remove_unused n).
Proof. unfold remove_unused. track. Qed.

#[local] Hint Resolve tracks_del_refs tracks_remove_unused : tracks.

Lemma tracks_RemoveMemoryInfo n f : tracks (RemoveMemoryInfo (S := S) n f) (RemoveMemoryInfo n f).
Proof. unfold RemoveMemoryInfo. track. Qed.

Lemma tracks_GetInfo n : tracks (GetShareMemoryInfo (S := S) n) (GetShareMemoryInfo n).
Proof. unfold GetShareMemoryInfo. track. Qed.

Lemma tracks_GetByPid p : tracks (GetMemoryUsersByPid (S := S) p) (GetMemoryUsersByPid p).
Proof. unfold GetMemoryUsersByPid. track. Qed.

Lemma tracks_GetCount n : tracks (GetMemoryUsersCountByName (S := S) n) (GetMemoryUsersCountByName n).
Proof. unfold GetMemoryUsersCountByName. track. Qed.

#[local] Hint Resolve tracks_AddMemoryUserInfo tracks_RemoveMemoryUserInfo tracks_PrepareAdd tracks_AddFull tracks_UpdateState
  tracks_RemoveMemoryInfo tracks_GetInfo tracks_GetByPid tracks_GetCount : tracks.

(** ** Recovery *)

Lemma tracks_RemovePreAdd e r : tracks (RemovePreAddRecord (S := S) e r) (RemovePreAddRecord e r).
Proof. unfold RemovePreAddRecord. track. Qed.

Lemma tracks_RollbackPreDelete e r : tracks (RollbackPreDeleteRecord (S := S) e r) (RollbackPreDeleteRecord e r).
Proof. unfold RollbackPreDeleteRecord. track. Qed.

#[local] Hint Resolve tracks_RemovePreAdd tracks_RollbackPreDelete : tracks.

Lemma tracks_recover_records e l : tracks (recover_records (S := S) e l) (recover_records e l).
Proof. induction l; simpl; [|unfold recover_state]; track. Qed.

Lemma tracks_recover_users l : tracks (recover_users (S := S) l) (recover_users l).
Proof. induction l; simpl; track. Qed.

Lemma tracks_drop_unused l : tracks (drop_unused (S := S) l) (drop_unused l).
Proof. induction l; simpl; track. Qed.

#[local] Hint Resolve tracks_recover_records tracks_recover_users tracks_drop_unused : tracks.

Lemma tracks_Recovery e : tracks (Recovery (S := S) e) (Recovery e).
Proof. unfold Recovery, RecoverFromRecord, RecoverFromRefRecord. track. Qed.

(** ** Handlers *)

Lemma tracks_ShmAttach e n i r : tracks (ShmAttach (S := S) e n i r) (ShmAttach e n i r).
Proof. unfold ShmAttach. track. Qed.

Lemma tracks_ShmDetach e n : tracks (ShmDetach (S := S) e n) (ShmDetach e n).
Proof. unfold ShmDetach. track. Qed.

Lemma tracks_ShmDelete e n : tracks (ShmDelete (S := S) e n) (ShmDelete e n).
Proof. unfold ShmDelete. track. Qed.

#[local] Hint Resolve tracks_ShmAttach tracks_ShmDetach tracks_ShmDelete : tracks.

Lemma tracks_RollBackAttach e n : tracks (RollBackAttachShareMemory (S := S) e n) (RollBackAttachShareMemory e n).
Proof. unfold RollBackAttachShareMemory. track. Qed.

#[local] Hint Resolve tracks_RollBackAttach : tracks.

Lemma tracks_map_new e req rsp u :
  good_name (ShmMapRequest_name_ req) -> tracks (map_new (S := S) e req rsp u) (map_new e req rsp u).
Proof. intros H. unfold map_new, ShmMmapInner. track. Qed.

#[local] Hint Resolve tracks_map_new : tracks.

Lemma tracks_ShmMap e req rsp u : good_name (ShmMapRequest_name_ req) -> tracks (ShmMap (S := S) e req rsp u) (ShmMap e req rsp u).
Proof. intros H. unfold ShmMap, HandleExistingShm. track. Qed.

Lemma tracks_ShmUnmap e n u : tracks (ShmUnmap (S := S) e n u) (ShmUnmap e n u).
Proof. unfold ShmUnmap, ShmUnMapInner. track. Qed.

Lemma tracks_ShmDeleteRequested e n u : tracks (ShmDeleteRequested (S := S) e n u) (ShmDeleteRequested e n u).
Proof. unfold ShmDeleteRequested. track. Qed.

Lemma tracks_DeadProcess e p : tracks (SHMProcessDeadProcess (S := S) e p) (SHMProcessDeadProcess e p).
Proof. unfold SHMProcessDeadProcess. apply tracks_bind; [track|]. intros l. induction l; simpl; track. Qed.

Lemma tracks_CleanLeak e n c t i q : tracks (CleanShareMemoryLeakInner (S := S) e n c t i q) (CleanShareMemoryLeakInner e n c t i q).
Proof. unfold CleanShareMemoryLeakInner, TryRollBackTimeoutShmTask. track. Qed.

End Clients.

#[export] Hint Resolve tracks_Recovery tracks_ShmMap tracks_ShmUnmap tracks_ShmDeleteRequested tracks_DeadProcess tracks_CleanLeak : tracks.
