(* ===== verification/ShmCoherence.v ===== *)
(** The manager's map and the record store agree.

    [coherent d]: every attached memory has an import record of the same size,
    state and attach result and no other import record exists; the users of a
    memory are exactly the processes with a reference in the store, one each.
    Stated and proved on the abstract store. *)

From S2P Require Import Prelude StoreTypes IdPool IdPoolSpec RecordAllocator RecordStore StoreTable StoreInv StoreSteps StoreRestart StoreSpec RegionNodes StoreTheorems MsgPacker MsgBase MsgRequests MsgResponses StoreInterface Daemon ShmManager ShmHandlers DaemonSim.
Import SHMManager.

(** ** Agreement of a map and an abstract store *)

Definition result_of (v : ShareMemImportInfo) : ShareMemImportResult :=
  mkShareMemImportResult (smo_memIds v) (smo_unitSize v) (smo_flag v) (smo_oflag v)
    (ac_uid (smo_appContext v)) (ac_gid (smo_appContext v)).

(** The entry of the map for an import record. *)
Definition entry_of (v : ShareMemImportInfo) (pids : gset Z) : AttachedShareMemory :=
  mkAttached (smo_name v) (smo_size v) (smo_state v) pids (result_of v).

(** The processes that hold a reference, each exactly one. *)
Definition users_are (a : AStore) (n : string) (pids : gset Z) : Prop :=
  forall p, a_count a n p = if decide (p ∈ pids) then 1 else 0.

Definition agrees (o : option AttachedShareMemory) (a : AStore) (n : string) : Prop :=
  match a_imports a !! n with
  | None => o = None
  | Some v => exists pids, o = Some (entry_of v pids) /\ users_are a n pids
  end.

Definition agree (m : gmap string AttachedShareMemory) (a : AStore) : Prop := forall n, agrees (m !! n) a n.

Definition coherent (d : Daemon AStore) : Prop := wf_abs (store_ d) /\ agree (attachedShareMemory_ d) (store_ d).

Section Agreement.
Context {G : Geometry}.
Implicit Types (m : gmap string AttachedShareMemory) (a : AStore) (d : Daemon AStore).

Lemma agree_lookup m a n mem :
  agree m a -> m !! n = Some mem -> exists v, a_imports a !! n = Some v /\ mem = entry_of v (asm_pids mem) /\ users_are a n (asm_pids mem).
Proof.
  intros H E. specialize (H n). unfold agrees in H. rewrite E in H. destruct (a_imports a !! n) as [v|]; [|done].
  destruct H as (pids & [= ->] & Hu). by exists v.
Qed.

Lemma agree_none m a n : agree m a -> m !! n = None -> a_imports a !! n = None.
Proof. intros H E. specialize (H n). unfold agrees in H. rewrite E in H. destruct (a_imports a !! n); [by destruct H as (? & ? & _) | done]. Qed.

(** A change that only concerns [n]. *)
Lemma agree_upd m a n o a' :
  agree m a -> (forall n', n' <> n -> a_imports a' !! n' = a_imports a !! n' /\ forall p, a_count a' n' p = a_count a n' p) ->
  agrees o a' n -> agree (partial_alter (fun _ => o) n m) a'.
Proof.
  intros H Ho Hn n'. destruct (decide (n' = n)) as [->|Hne].
  - by rewrite lookup_partial_alter_eq.
  - rewrite lookup_partial_alter_ne by done. specialize (H n'). destruct (Ho n' Hne) as [Ei Ec]. unfold agrees in *. rewrite Ei.
    destruct (a_imports a !! n'); [|done]. destruct H as (pids & -> & Hu). exists pids. split; [done|]. intros p. by rewrite Ec.
Qed.

Lemma agree_insert m a n mem a' :
  agree m a -> (forall n', n' <> n -> a_imports a' !! n' = a_imports a !! n' /\ forall p, a_count a' n' p = a_count a n' p) ->
  agrees (Some mem) a' n -> agree (<[n := mem]> m) a'.
Proof. apply agree_upd. Qed.

Lemma agree_set_count m a n p k l :
  agree m a -> forall n', n' <> n ->
  a_imports (with_refs a (set_count (a_refs a) n p k) l) !! n' = a_imports a !! n' /\
  forall q, a_count (with_refs a (set_count (a_refs a) n p k) l) n' q = a_count a n' q.
Proof. intros H n' Hne. split; [done|]. intros q. rewrite set_count_at, decide_False; [done | by intros [-> _]]. Qed.

Lemma agree_add_user m a n mem p l :
  agree m a -> m !! n = Some mem -> p ∉ asm_pids mem ->
  agree (<[n := with_pids mem ({[p]} ∪ asm_pids mem)]> m) (with_refs a (set_count (a_refs a) n p (S (a_count a n p))) l).
Proof.
  intros H E Hp. eapply agree_insert; [exact H | by eapply agree_set_count |].
  destruct (agree_lookup _ _ _ _ H E) as (v & Ev & Em & Hu). unfold agrees. cbn [with_refs a_imports]. rewrite Ev.
  exists ({[p]} ∪ asm_pids mem). split; [by rewrite Em|]. intros q. rewrite set_count_at, (Hu p), (Hu q).
  rewrite (decide_False (P := p ∈ _)) by done. destruct (decide (n = n /\ q = p)) as [[_ ->]|Hne].
  - rewrite decide_True; [done | set_solver].
  - destruct (decide (q ∈ asm_pids mem)); [rewrite decide_True by set_solver | rewrite decide_False by set_solver]; done.
Qed.

Lemma agree_del_user m a n mem p l :
  agree m a -> m !! n = Some mem -> p ∈ asm_pids mem ->
  agree (<[n := with_pids mem (asm_pids mem ∖ {[p]})]> m) (with_refs a (set_count (a_refs a) n p (a_count a n p - 1)) l).
Proof.
  intros H E Hp. eapply agree_insert; [exact H | by eapply agree_set_count |].
  destruct (agree_lookup _ _ _ _ H E) as (v & Ev & Em & Hu). unfold agrees. cbn [with_refs a_imports]. rewrite Ev.
  exists (asm_pids mem ∖ {[p]}). split; [by rewrite Em|]. intros q. rewrite set_count_at, (Hu p), (Hu q).
  rewrite (decide_True (P := p ∈ _)) by done. destruct (decide (n = n /\ q = p)) as [[_ ->]|Hne].
  - rewrite decide_False; [done | set_solver].
  - destruct (decide (q ∈ asm_pids mem)); [rewrite decide_True by set_solver | rewrite decide_False by set_solver]; done.
Qed.

Lemma imports_other a n x l :
  (forall n', n' <> n -> x !! n' = a_imports a !! n') -> forall n', n' <> n ->
  a_imports (with_imports a x l) !! n' = a_imports a !! n' /\ forall p, a_count (with_imports a x l) n' p = a_count a n' p.
Proof. intros Hx n' Hne. split; [by apply Hx | done]. Qed.

Lemma agree_new m a i l :
  wf_abs a -> agree m a -> m !! smi_name i = None ->
  agree (<[smi_name i := mkAttached (smi_name i) (smi_size i) PRE_ADD ∅ no_result]> m)
    (with_imports a (<[smi_name i := pending_import i]> (a_imports a)) l).
Proof.
  intros W H E. eapply agree_insert; [exact H | apply imports_other; intros; by rewrite lookup_insert_ne|].
  unfold agrees. cbn [with_imports a_imports]. rewrite lookup_insert_eq. exists ∅. split; [done|].
  intros p. rewrite decide_False by set_solver. pose proof (agree_none _ _ _ H E) as En.
  change (a_count a (smi_name i) p = 0). destruct (decide (a_count a (smi_name i) p = 0)) as [|Hc]; [done|].
  destruct (a_count_import _ _ _ W Hc) as [[v Ev] _]. congruence.
Qed.

(** Replacing the record of an import and the entry of the map alike. *)
Lemma agree_replace m a n v mem mem' v' l :
  agree m a -> m !! n = Some mem -> a_imports a !! n = Some v -> mem' = entry_of v' (asm_pids mem) ->
  agree (<[n := mem']> m) (with_imports a (<[n := v']> (a_imports a)) l).
Proof.
  intros H E Ev ->. eapply agree_insert; [exact H | apply imports_other; intros; by rewrite lookup_insert_ne|].
  unfold agrees. cbn [with_imports a_imports]. rewrite lookup_insert_eq. exists (asm_pids mem). split; [done|].
  by destruct (agree_lookup _ _ _ _ H E) as (? & _ & _ & Hu).
Qed.

Lemma agree_remove m a n l : agree m a -> agree (delete n m) (with_imports a (delete n (a_imports a)) l).
Proof.
  intros H. apply (agree_upd m a n None); [done | apply imports_other; intros; by rewrite lookup_delete_ne|].
  unfold agrees. cbn [with_imports a_imports]. by rewrite lookup_delete_eq.
Qed.

Lemma agree_unused m a n mem : wf_abs a -> agree m a -> m !! n = Some mem -> asm_pids mem = ∅ -> unreferenced a n.
Proof.
  intros W H E Hp. apply unreferenced_count; [done|]. intros p. destruct (agree_lookup _ _ _ _ H E) as (v & _ & _ & Hu).
  rewrite (Hu p), Hp. by rewrite decide_False by set_solver.
Qed.

End Agreement.

(** ** The operations of the manager on a coherent daemon *)

(** What the manager's operations leave alone. *)
Definition quiet (d d' : Daemon AStore) : Prop :=
  delayedRemoveKeys d' = delayedRemoveKeys d /\ delayedRemoveKeysByName d' = delayedRemoveKeysByName d /\
  engine_trace d' = engine_trace d.

#[export] Instance quiet_preorder : PreOrder quiet.
Proof. split; [by intros d | intros d d1 d2 (? & ? & ?) (? & ? & ?); split_and!; congruence]. Qed.

(** One operation, from [d] to [d'], with the map after it. *)
Record stepped (d d' : Daemon AStore) (m' : gmap string AttachedShareMemory) : Prop := {
  stepped_map : attachedShareMemory_ d' = m';
  stepped_quiet : quiet d d';
  stepped_coherent : coherent d';
  stepped_slots : a_ref_slots (store_ d) <= a_ref_slots (store_ d');
}.

Section Operations.
Context {G : Geometry}.
Implicit Types (d : Daemon AStore).
Abbreviation att := attachedShareMemory_.

Definition no_slots d : Prop := a_ref_slots (store_ d) = 0.

Lemma entry_good d n mem : coherent d -> att d !! n = Some mem -> good_name n /\ asm_name mem = n.
Proof.
  intros [W H] E. destruct (agree_lookup _ _ _ _ H E) as (v & Ev & -> & _). destruct (wf_import _ W _ _ Ev). by simpl.
Qed.

Lemma wf_exec o d : coherent d -> op_ok o -> wf_abs (spec_run o (store_ d)).2.
Proof. intros [W _]. by apply spec_run_wf. Qed.

Lemma spec_add_ref d n p mem :
  coherent d -> att d !! n = Some mem ->
  spec_run (OpAddRef p n) (store_ d) =
    if decide (p <> 0%Z /\ ~ no_slots d)
    then (0%Z, with_refs (store_ d) (set_count (a_refs (store_ d)) n p (S (a_count (store_ d) n p))) (a_ref_slots (store_ d) - 1))
    else ((-1)%Z, store_ d).
Proof.
  intros [W H] E. destruct (agree_lookup _ _ _ _ H E) as (v & Ev & _). destruct (wf_import _ W _ _ Ev) as [_ Hg].
  cbn [spec_run]. unfold no_slots. destruct Hg as (_ & _ & Hl). destruct (decide (p <> 0%Z /\ ~ a_ref_slots (store_ d) = 0)) as [[Hp Hs]|Hn].
  - rewrite decide_True; [done|]. rewrite Ev. by split_and!.
  - rewrite decide_False; [done|]. intros (? & ? & ? & ?). by apply Hn.
Qed.

Lemma AddMemoryUserInfo_spec d n p :
  coherent d -> pid_range p ->
  match att d !! n with
  | None => AddMemoryUserInfo n p d = (MXM_ERR_SHM_NOT_FOUND, d)
  | Some mem =>
      if decide (p <> 0%Z /\ ~ no_slots d)
      then exists d', AddMemoryUserInfo n p d = (MXM_OK, d') /\
             att d' = <[n := with_pids mem ({[p]} ∪ asm_pids mem)]> (att d) /\ quiet d d' /\ (p ∉ asm_pids mem -> coherent d')
      else AddMemoryUserInfo n p d = (MXM_ERR_SHM_NOT_FOUND, d)
  end.
Proof.
  intros C Hp. destruct (att d !! n) as [mem|] eqn:E; unfold AddMemoryUserInfo, bind, get_attached; rewrite E; [|done].
  unfold call. pose proof (wf_exec (OpAddRef p n) d C Hp) as W'. cbn [exec AStore_API]. rewrite (spec_add_ref _ _ _ _ C E) in *.
  destruct (decide _) as [[H0 Hs]|]; [|by destruct d]. eexists. split; [reflexivity|]. split; [done|]. split; [done|].
  intros Hni. split; [exact W'|]. by apply agree_add_user; [apply C|..].
Qed.

Lemma RemoveMemoryUserInfo_spec d n p :
  coherent d ->
  match att d !! n with
  | None => RemoveMemoryUserInfo n p d = (MXM_ERR_SHM_NOT_FOUND, d)
  | Some mem =>
      if decide (p ∈ asm_pids mem)
      then exists d', RemoveMemoryUserInfo n p d = (MXM_OK, d') /\
             stepped d d' (<[n := with_pids mem (asm_pids mem ∖ {[p]})]> (att d))
      else RemoveMemoryUserInfo n p d = (MXM_ERR_SHM_NOT_FOUND, d)
  end.
Proof.
  intros C. destruct (att d !! n) as [mem|] eqn:E; unfold RemoveMemoryUserInfo, bind, get_attached; rewrite E; [|done].
  destruct (decide (p ∈ asm_pids mem)) as [Hin|]; [|done]. unfold call. pose proof (wf_exec (OpDelRef p n) d C I) as W'.
  destruct C as [W H]. destruct (agree_lookup _ _ _ _ H E) as (v & Ev & _ & Hu).
  assert (Hc : a_count (store_ d) n p = 1) by (rewrite (Hu p); by rewrite decide_True).
  destruct (a_count_import _ n p W) as (_ & Hp & _); [lia|]. destruct (wf_import _ W _ _ Ev) as [_ (_ & _ & Hl)].
  cbn [exec AStore_API spec_run] in *. rewrite decide_True in * by (split_and!; [done | done | lia]).
  eexists. split; [reflexivity|]. split; [done | done | split; [exact W'|] | cbn; lia]. by apply agree_del_user.
Qed.

Lemma PrepareAdd_spec d n sz p :
  coherent d -> good_name n ->
  match att d !! n with
  | Some _ => PrepareAddShareMemoryInfo n sz p d = (MXM_ERR_SHM_ALREADY_EXIST, d)
  | None =>
      if decide (size (a_imports (store_ d)) < SHM_MAX_ATTACH_RECORD)
      then exists d', PrepareAddShareMemoryInfo n sz p d = (MXM_OK, d') /\
             stepped d d' (<[n := mkAttached n sz PRE_ADD ∅ no_result]> (att d)) /\
             a_ref_slots (store_ d') = a_ref_slots (store_ d) /\ a_lines (store_ d') = a_lines (store_ d)
      else PrepareAddShareMemoryInfo n sz p d = (MXM_ERR_RECORD_ADD, d)
  end.
Proof.
  intros C Hg. destruct (att d !! n) as [mem|] eqn:E; unfold PrepareAddShareMemoryInfo, bind, get_attached; rewrite E; [done|].
  set (i := mkShareMemImportInput n sz p). unfold call. pose proof (wf_exec (OpAddImportInput i) d C Hg) as W'. destruct C as [W H].
  pose proof (agree_none _ _ _ H E) as En. cbn [exec AStore_API spec_run] in *. cbn [smi_name i] in *.
  destruct (decide (size _ < _)) as [Hs|Hs].
  - rewrite decide_True in * by done. eexists. split; [reflexivity|]. split; [|done]. split; [done | done | split; [exact W'|] | done].
    by apply (agree_new (att d) (store_ d) i).
  - rewrite decide_False by tauto. by destruct d.
Qed.

(** The two failures of [AddFullShareMemoryInfo] differ: when the result cannot
    be stored nothing has changed; when the reference cannot be stored the
    import record is deleted and the entry of the map stays. *)
Lemma AddFull_spec d n p r mem :
  coherent d -> pid_range p -> att d !! n = Some mem ->
  if decide (smr_memIds r <> [] /\ lines_needed (smr_memIds r) <= a_lines (store_ d)) then
    if decide (p <> 0%Z /\ ~ no_slots d) then
      exists d', AddFullShareMemoryInfo n p r d = (MXM_OK, d') /\
        att d' = <[n := mkAttached n (asm_size mem) FINISH ({[p]} ∪ asm_pids mem) r]> (att d) /\ quiet d d' /\
        (p ∉ asm_pids mem -> coherent d')
    else
      exists d', AddFullShareMemoryInfo n p r d = (MXM_ERR_SHM_NOT_FOUND, d') /\ att d' = att d /\ quiet d d' /\
        (asm_pids mem = ∅ -> wf_abs (store_ d') /\ a_imports (store_ d') = delete n (a_imports (store_ d)) /\
                             a_refs (store_ d') = a_refs (store_ d))
  else AddFullShareMemoryInfo n p r d = (MXM_ERR_RECORD_ADD, d).
Proof.
  intros C Hp E. destruct (entry_good _ _ _ C E) as [Hg Hn]. destruct (agree_lookup _ _ _ _ (proj2 C) E) as (v & Ev & Em & Hu).
  set (a1 := with_imports (store_ d) (<[n := import_finished r v]> (a_imports (store_ d))) (a_lines (store_ d) - lines_needed (smr_memIds r))).
  assert (S1 : spec_run (OpAddImportResult n r) (store_ d) =
    if decide (smr_memIds r <> [] /\ lines_needed (smr_memIds r) <= a_lines (store_ d)) then (0%Z, a1) else ((-1)%Z, store_ d))
    by (cbn [spec_run]; by rewrite Ev).
  pose proof (wf_exec (OpAddImportResult n r) d C (good_name_length _ Hg)) as W1.
  unfold AddFullShareMemoryInfo, bind, get_attached, call. rewrite E. cbn [exec AStore_API]. rewrite S1 in *.
  destruct (decide (smr_memIds r <> [] /\ _)) as [Hids|]; [|by destruct d]. cbn [fst snd] in W1. cbn [negb Z.eqb store_].
  assert (C1 : coherent (mkDaemon (<[n := mkAttached n (asm_size mem) FINISH (asm_pids mem) r]> (att d)) a1 (delayedRemoveKeys d)
                           (delayedRemoveKeysByName d) (engine_trace d) (leases_ d))).
  { split; [exact W1|]. eapply agree_replace; [apply C | done | done |]. rewrite Em in Hn |- *. simpl in Hn. unfold entry_of, import_finished, result_of.
    simpl. rewrite Hn. by destruct r. }
  assert (E1 : att (mkDaemon (<[n := mkAttached n (asm_size mem) FINISH (asm_pids mem) r]> (att d)) a1 (delayedRemoveKeys d)
                 (delayedRemoveKeysByName d) (engine_trace d) (leases_ d)) !! n = Some (mkAttached n (asm_size mem) FINISH (asm_pids mem) r))
    by apply lookup_insert_eq.
  pose proof (spec_add_ref _ n p _ C1 E1) as Hs. cbn [store_] in Hs. unfold no_slots in Hs. cbn [store_] in Hs.
  change (a_ref_slots a1) with (a_ref_slots (store_ d)) in Hs. fold (no_slots d) in Hs.
  pose proof (spec_run_wf (OpAddRef p n) a1 W1 Hp) as W2. rewrite Hs in *.
  destruct (decide (p <> 0%Z /\ _)) as [Hok|].
  - eexists. rewrite Hn. split; [reflexivity|]. split; [done|]. split; [done|]. intros Hni. split; [exact W2|].
    pose proof (agree_add_user _ _ _ _ p (a_ref_slots a1 - 1) (proj2 C1) E1 Hni) as Ha. cbn [att] in Ha.
    by rewrite insert_insert_eq in Ha.
  - cbn [negb Z.eqb store_]. pose proof (spec_run_wf (OpDelImport n) a1 W1 I) as W3.
    destruct (spec_run (OpDelImport n) a1) as [r3 a3] eqn:E3. eexists. split; [reflexivity|]. split; [done|]. split; [done|].
    intros Hempty. split; [exact W3|]. pose proof (agree_unused _ _ _ _ W1 (proj2 C1) E1 Hempty) as Hun.
    cbn [spec_run] in E3. unfold a1 in E3. cbn [with_imports a_imports] in E3. rewrite lookup_insert_eq, decide_True in E3 by exact Hun.
    injection E3 as <- <-. cbn. by rewrite delete_insert_eq.
Qed.

Lemma UpdateState_spec d n st :
  coherent d ->
  match att d !! n with
  | None => UpdateShareMemoryRecordState n st d = (MXM_ERR_SHM_NOT_FOUND, d)
  | Some mem => exists d', UpdateShareMemoryRecordState n st d = (MXM_OK, d') /\ stepped d d' (<[n := with_state mem st]> (att d))
  end.
Proof.
  intros C. destruct (att d !! n) as [mem|] eqn:E; unfold UpdateShareMemoryRecordState, bind, get_attached; rewrite E; [|done].
  unfold call. pose proof (wf_exec (OpSetImportState n st) d C I) as W'. destruct C as [W H].
  destruct (agree_lookup _ _ _ _ H E) as (v & Ev & Em & _). cbn [exec AStore_API spec_run] in *. rewrite Ev in *.
  eexists. split; [reflexivity|]. split; [done | done | split; [exact W'|] | done]. eapply agree_replace; try done. by rewrite Em.
Qed.

Lemma remove_unused_spec d n :
  coherent d ->
  match att d !! n with
  | None => remove_unused n d = (MXM_ERR_SHM_NOT_FOUND, d)
  | Some mem =>
      if decide (asm_pids mem = ∅)
      then exists d', remove_unused n d = (MXM_OK, d') /\ stepped d d' (delete n (att d))
      else remove_unused n d = (MXM_ERR_SHM_IN_USING, d)
  end.
Proof.
  intros C. destruct (att d !! n) as [mem|] eqn:E; unfold remove_unused, bind, get_attached; rewrite E; [|done].
  destruct (decide (asm_pids mem = ∅)) as [Hp|Hp]; [rewrite bool_decide_true by done | by rewrite bool_decide_false].
  cbn [negb]. unfold call. pose proof (wf_exec (OpDelImport n) d C I) as W'. destruct C as [W H].
  pose proof (agree_unused _ _ _ _ W H E Hp) as Hun. destruct (agree_lookup _ _ _ _ H E) as (v & Ev & _).
  cbn [exec AStore_API spec_run] in *. rewrite Ev, decide_True in * by done.
  eexists. split; [reflexivity|]. split; [done | done | split; [exact W'|] | done]. by apply agree_remove.
Qed.

(** Dropping the references of some users one by one. *)
Lemma del_refs_spec l d n mem :
  coherent d -> att d !! n = Some mem -> NoDup l -> (forall p, p ∈ l -> p ∈ asm_pids mem) ->
  exists d', del_refs n l d = (true, d') /\ att d' = att d /\ quiet d d' /\ a_ref_slots (store_ d) <= a_ref_slots (store_ d') /\
    coherent (mkDaemon (<[n := with_pids mem (asm_pids mem ∖ list_to_set l)]> (att d')) (store_ d') (delayedRemoveKeys d')
                (delayedRemoveKeysByName d') (engine_trace d') (leases_ d')).
Proof.
  intros C E Hnd Hsub.
  assert (Hgen : forall l d mem, NoDup l -> (forall p, p ∈ l -> p ∈ asm_pids mem) -> asm_name mem = n ->
    coherent (mkDaemon (<[n := mem]> (att d)) (store_ d) (delayedRemoveKeys d) (delayedRemoveKeysByName d) (engine_trace d) (leases_ d)) ->
    exists d', del_refs n l d = (true, d') /\ att d' = att d /\ quiet d d' /\ a_ref_slots (store_ d) <= a_ref_slots (store_ d') /\
      coherent (mkDaemon (<[n := with_pids mem (asm_pids mem ∖ list_to_set l)]> (att d')) (store_ d') (delayedRemoveKeys d')
                  (delayedRemoveKeysByName d') (engine_trace d') (leases_ d'))).
  { clear. induction l as [|p l IH]; intros d mem Hnd Hsub Hn C.
    - exists d. split_and!; [done | done | done | done |]. simpl. replace (asm_pids mem ∖ ∅) with (asm_pids mem) by set_solver.
      by destruct mem.
    - apply NoDup_cons in Hnd as [Hni Hnd]. set (dm := mkDaemon (<[n := mem]> (att d)) _ _ _ _ _) in *.
      pose proof (RemoveMemoryUserInfo_spec dm n p C) as Hs. unfold RemoveMemoryUserInfo, bind, get_attached in Hs.
      cbn [att dm] in Hs. rewrite lookup_insert_eq in Hs. rewrite decide_True in Hs by (apply Hsub; by left).
      destruct Hs as (d1 & Hs & St). rewrite decide_True in Hs by (apply Hsub; by left). cbn [del_refs]. unfold bind, call in *. cbn [store_ dm] in Hs.
      destruct (exec (OpDelRef p n) (store_ d)) as [r s] eqn:Ex.
      destruct (Z.eqb r 0) eqn:Er; unfold ret, set_attached in Hs; cbn [negb] in *; [|discriminate Hs]. injection Hs as Hs. subst d1.
      destruct (IH (mkDaemon (att d) s (delayedRemoveKeys d) (delayedRemoveKeysByName d) (engine_trace d) (leases_ d))
                  (with_pids mem (asm_pids mem ∖ {[p]}))) as (d' & Ed & Ha & Hq & Hsl & Hc).
      + done.
      + intros q Hq. simpl. apply elem_of_difference. split; [apply Hsub; by right|]. intros ->%elem_of_singleton. done.
      + done.
      + destruct St as [_ _ St _]. cbn in St |- *. by rewrite insert_insert_eq in St.
      + exists d'. rewrite Ed. split_and!; [done | by rewrite Ha | by rewrite <- Hq | destruct St as [_ _ _ Hl]; cbn in Hl, Hsl; lia |]. simpl in Hc |- *.
        replace (asm_pids mem ∖ ({[p]} ∪ list_to_set l)) with ((asm_pids mem ∖ {[p]}) ∖ list_to_set l) by set_solver. exact Hc. }
  destruct (entry_good _ _ _ C E) as [_ Hn].
  apply (Hgen l d mem Hnd Hsub Hn). rewrite insert_id by done. by destruct d.
Qed.

Lemma RemoveMemoryInfo_spec d n force :
  coherent d ->
  match att d !! n with
  | None => RemoveMemoryInfo n force d = (MXM_ERR_SHM_NOT_FOUND, d)
  | Some mem =>
      if decide (asm_pids mem = ∅ \/ force = true /\ asm_state mem = DELETED)
      then exists d', RemoveMemoryInfo n force d = (MXM_OK, d') /\ stepped d d' (delete n (att d))
      else RemoveMemoryInfo n force d = (MXM_ERR_SHM_IN_USING, d)
  end.
Proof.
  intros C. unfold RemoveMemoryInfo, bind, get_attached. destruct (att d !! n) as [mem|] eqn:E; [|done].
  destruct (decide (force = true /\ asm_state mem = DELETED)) as [[-> Hd]|Hnf].
  - rewrite decide_True by tauto. rewrite bool_decide_true by done. cbn [andb].
    destruct (del_refs_spec (elements (asm_pids mem)) d n mem C E) as (d1 & Ed & Ha & Hq & Hsl & C1);
      [apply NoDup_elements | intros p; by rewrite elem_of_elements |].
    rewrite Ed. cbn [negb]. unfold set_attached.
    replace (asm_pids mem ∖ list_to_set (elements (asm_pids mem))) with (∅ : gset Z) in C1 by set_solver.
    rewrite <- Ha. set (d2 := mkDaemon _ _ _ _ _ _) in *. pose proof (remove_unused_spec d2 n C1) as Hr.
    cbn [att d2] in Hr. rewrite lookup_insert_eq, decide_True in Hr by done. destruct Hr as (d' & Er & [M Q K L]).
    exists d'. split; [exact Er|]. split; [by rewrite M, delete_insert_eq, Ha | | done | cbn in L; lia]. rewrite Hq. exact Q.
  - assert (force && bool_decide (asm_state mem = DELETED) = false) as ->.
    { destruct force; [|done]. simpl. apply bool_decide_eq_false. tauto. }
    pose proof (remove_unused_spec d n C) as Hr. rewrite E in Hr.
    destruct (decide (asm_pids mem = ∅)); [rewrite decide_True by tauto | rewrite decide_False by tauto]; exact Hr.
Qed.

End Operations.

(** * The handlers of the shared-memory service keep the daemon coherent. *)

Section Keeps.
Context {G : Geometry}.
Implicit Types (d : Daemon AStore).
Abbreviation att := attachedShareMemory_.

(** Process [p] is not a user of [n]. *)
Definition not_user d (n : string) (p : Z) : Prop := forall mem, att d !! n = Some mem -> p ∉ asm_pids mem.

(** An effect that touches neither the map nor the store. *)
Definition outside d d' : Prop := att d' = att d /\ store_ d' = store_ d.

Lemma outside_coherent d d' : outside d d' -> coherent d -> coherent d'.
Proof. intros [Ha Hs] C. unfold coherent. by rewrite Ha, Hs. Qed.

Lemma ShmAttach_outside e n i r d : outside d (ShmAttach e n i r d).2.
Proof. unfold ShmAttach, bind, trace, AddDelayRemoveRecord, ret. repeat case_match; simplify_eq/=; done. Qed.

Lemma ShmDetach_outside e n d : outside d (ShmDetach e n d).2.
Proof. unfold ShmDetach, bind, trace, ret. repeat case_match; simplify_eq/=; done. Qed.

Lemma ShmDelete_outside e n d : outside d (ShmDelete e n d).2.
Proof. unfold ShmDelete, bind, trace, ret. repeat case_match; simplify_eq/=; done. Qed.

(** ** Each operation of the manager *)

Lemma keep_add d n p : coherent d -> pid_range p -> not_user d n p -> coherent (AddMemoryUserInfo n p d).2.
Proof.
  intros C Hp Hn. pose proof (AddMemoryUserInfo_spec d n p C Hp) as Hs. unfold not_user in Hn.
  destruct (att d !! n) as [mem|]; [|by rewrite Hs]. destruct (decide _); [|by rewrite Hs].
  destruct Hs as (d' & -> & _ & _ & K). by apply K, Hn.
Qed.

Lemma keep_remove_user d n p :
  coherent d -> coherent (RemoveMemoryUserInfo n p d).2 /\ not_user (RemoveMemoryUserInfo n p d).2 n p.
Proof.
  intros C. pose proof (RemoveMemoryUserInfo_spec d n p C) as Hs. destruct (att d !! n) as [mem|] eqn:E.
  - destruct (decide _) as [|Hn].
    + destruct Hs as (d' & -> & [M _ K _]). split; [done|]. intros mem'. simpl. rewrite M, lookup_insert_eq. intros [= <-].
      simpl. set_solver.
    + rewrite Hs. split; [done|]. intros mem'. simpl. rewrite E. by intros [= <-].
  - rewrite Hs. split; [done|]. intros mem'. simpl. by rewrite E.
Qed.

Lemma keep_state d n st p :
  coherent d -> coherent (UpdateShareMemoryRecordState n st d).2 /\
  (not_user d n p -> not_user (UpdateShareMemoryRecordState n st d).2 n p).
Proof.
  intros C. pose proof (UpdateState_spec d n st C) as Hs. unfold not_user. destruct (att d !! n) as [mem|] eqn:E.
  - destruct Hs as (d' & -> & [M _ K _]). split; [done|]. intros Hn mem'. simpl. rewrite M, lookup_insert_eq. intros [= <-].
    simpl. by apply Hn.
  - rewrite Hs. split; [done|]. simpl. by rewrite E.
Qed.

Lemma keep_remove d n f p :
  coherent d -> coherent (RemoveMemoryInfo n f d).2 /\ (not_user d n p -> not_user (RemoveMemoryInfo n f d).2 n p).
Proof.
  intros C. pose proof (RemoveMemoryInfo_spec d n f C) as Hs. unfold not_user. destruct (att d !! n) as [mem|] eqn:E.
  - destruct (decide _).
    + destruct Hs as (d' & -> & [M _ K _]). split; [done|]. intros _ mem'. simpl. by rewrite M, lookup_delete_eq.
    + rewrite Hs. simpl. by rewrite E.
  - rewrite Hs. simpl. by rewrite E.
Qed.

Lemma keep_prepare d n sz p : coherent d -> good_name n -> coherent (PrepareAddShareMemoryInfo n sz p d).2.
Proof.
  intros C Hg. pose proof (PrepareAdd_spec d n sz p C Hg) as H. destruct (att d !! n); [by rewrite H|].
  destruct (decide _); [|by rewrite H]. by destruct H as (d' & -> & [_ _ K _] & _).
Qed.

(** ** The handlers *)

Ltac run p := let r := fresh "r" in let d1 := fresh "d1" in let E := fresh "E" in destruct p as [r d1] eqn:E.

Lemma keep_rollback e n d : coherent d -> coherent (RollBackAttachShareMemory e n d).2.
Proof.
  intros C. unfold RollBackAttachShareMemory, bind. destruct (keep_state d n PRE_DEL 0 C) as [C1 _].
  run (UpdateShareMemoryRecordState n PRE_DEL d). cbn [snd] in C1. destruct (negb _); [done|].
  pose proof (outside_coherent _ _ (ShmDetach_outside e n d1) C1) as C2. run (ShmDetach e n d1). cbn [snd] in C2. destruct (_ && _).
  - destruct (keep_state d0 n FINISH 0 C2) as [C3 _]. by run (UpdateShareMemoryRecordState n FINISH d0).
  - destruct (keep_remove d0 n false 0 C2) as [C3 _]. by run (RemoveMemoryInfo n false d0).
Qed.

Lemma keep_map_new e req rsp u d :
  coherent d -> good_name (ShmMapRequest_name_ req) -> s32 (uds_pid u) <> 0%Z -> ~ no_slots d -> coherent (map_new e req rsp u d).2.
Proof.
  intros C Hg Hp Hs. unfold map_new, bind at 1.
  assert (K : coherent (ShmMmapInner e (ShmMapRequest_name_ req) (ShmMapRequest_size_ req) (ShmMapRequest_prot_ req) u d).2);
    [|run (ShmMmapInner e (ShmMapRequest_name_ req) (ShmMapRequest_size_ req) (ShmMapRequest_prot_ req) u d); by destruct (negb _)].
  unfold ShmMmapInner. set (n := ShmMapRequest_name_ req) in *. destruct (ShmGetUserData e n) as [rt i]. destruct (negb _); [done|].
  destruct (CheckPermission _ _ _ _) as [res oflag]. destruct (negb _); [done|]. unfold bind.
  pose proof (PrepareAdd_spec d n (ShmMapRequest_size_ req) (s32 (uds_pid u)) C Hg) as H1.
  destruct (att d !! n) as [mem|] eqn:E0; [by rewrite H1|]. destruct (decide _); [|by rewrite H1].
  destruct H1 as (d1 & -> & [M1 _ C1 _] & Hs1 & Hl1). cbn [negb Z.eqb MXM_OK].
  pose proof (ShmAttach_outside e n) as Ho. set (ui := mkUserInfo _ _ _ _ _ _). set (ar := mkAttach _ _ _ _ _).
  specialize (Ho ui ar d1). pose proof (outside_coherent _ _ Ho C1) as C2. run (ShmAttach e n ui ar d1). cbn [snd] in Ho, C2.
  destruct (negb _).
  { destruct (keep_remove d0 n false 0 C2) as [C3 _]. by run (RemoveMemoryInfo n false d0). }
  destruct Ho as [Ha Hst]. set (res0 := mkShareMemImportResult _ _ _ _ _ _).
  assert (E2 : att d0 !! n = Some (mkAttached n (ShmMapRequest_size_ req) PRE_ADD ∅ no_result)) by (by rewrite Ha, M1, lookup_insert_eq).
  pose proof (AddFull_spec d0 n (s32 (uds_pid u)) res0 _ C2 (s32_pid _) E2) as H2. destruct (decide _).
  - rewrite decide_True in H2 by (split; [done | unfold no_slots in *; by rewrite Hst, Hs1]).
    destruct H2 as (d2 & -> & _ & _ & K). cbn [negb Z.eqb MXM_OK]. apply K. simpl. set_solver.
  - rewrite H2. cbn [negb Z.eqb MXM_ERR_RECORD_ADD]. pose proof (keep_rollback e n d0 C2) as C3. by run (RollBackAttachShareMemory e n d0).
Qed.

Lemma keep_ShmMap e req rsp u d :
  coherent d -> good_name (ShmMapRequest_name_ req) -> s32 (uds_pid u) <> 0%Z -> ~ no_slots d -> coherent (ShmMap e req rsp u d).2.
Proof.
  intros C Hg Hp Hs. unfold ShmMap, bind at 1, GetDelayRemoveRecord. destruct (existsb _ _); [done|].
  unfold bind at 1, GetShareMemoryInfo, bind at 1, get_attached. destruct (att d !! _) as [mem|] eqn:E; cbn [snd ret].
  - destruct (bool_decide (asm_state mem = FINISH)).
    + unfold HandleExistingShm. destruct (decide _); [done|].
      pose proof (keep_add d (ShmMapRequest_name_ req) (s32 (uds_pid u)) C (s32_pid _)) as K. unfold bind.
      run (AddMemoryUserInfo (ShmMapRequest_name_ req) (s32 (uds_pid u)) d). destruct (negb _); apply K; intros mem'; by rewrite E; intros [= <-].
    + destruct (bool_decide (asm_state mem = DELETED)) eqn:Ed; [|by apply keep_map_new].
      pose proof (RemoveMemoryInfo_spec d (ShmMapRequest_name_ req) true C) as Hr. rewrite E in Hr.
      rewrite decide_True in Hr by (right; split; [done | by apply bool_decide_eq_true in Ed]).
      destruct Hr as (d' & Er & [_ _ K L]). unfold bind. destruct (entry_good _ _ _ C E) as [_ ->]. rewrite Er. cbn [negb Z.eqb MXM_OK].
      apply keep_map_new; try done. unfold no_slots in *. lia.
  - by apply keep_map_new.
Qed.

Lemma keep_ShmUnmap e n u d : coherent d -> coherent (ShmUnmap e n u d).2.
Proof.
  intros C. unfold ShmUnmap, bind at 1, GetShareMemoryInfo, bind at 1, get_attached.
  destruct (att d !! n) as [mem|] eqn:E; cbn [snd ret]; [|done]. destruct (bool_decide _); [by apply (keep_remove d n true 0)|].
  unfold bind at 1, GetMemoryUsersCountByName, bind at 1, get_attached. cbn [ret]. destruct (Nat.ltb _ _); [by apply keep_remove_user|].
  unfold ShmUnMapInner, bind. destruct (keep_state d n PRE_DEL 0 C) as [C1 _]. run (UpdateShareMemoryRecordState n PRE_DEL d).
  destruct (negb _); [done|]. pose proof (outside_coherent _ _ (ShmDetach_outside e n d1) C1) as C2. run (ShmDetach e n d1).
  destruct (_ && _). { destruct (keep_state d0 n FINISH 0 C2) as [C3 _]. by run (UpdateShareMemoryRecordState n FINISH d0). }
  destruct (keep_remove_user d0 n (s32 (uds_pid u)) C2) as [C3 N3]. run (RemoveMemoryUserInfo n (s32 (uds_pid u)) d0).
  destruct (negb _); [done|]. destruct (keep_remove d2 n false (s32 (uds_pid u)) C3) as [C4 N4].
  run (RemoveMemoryInfo n false d2). destruct (negb _); [|done].
  pose proof (keep_add d3 n (s32 (uds_pid u)) C4 (s32_pid _) (N4 N3)). by run (AddMemoryUserInfo n (s32 (uds_pid u)) d3).
Qed.

Lemma keep_delete e n u d : coherent d -> coherent (ShmDeleteRequested e n u d).2.
Proof.
  intros C. unfold ShmDeleteRequested, bind at 1, GetDelayRemoveRecord. destruct (existsb _ _); [done|]. destruct (negb _); [done|].
  unfold bind, GetMemoryUsersCountByName, bind, get_attached. cbn [ret]. destruct (Nat.ltb _ _); [done|].
  apply (outside_coherent d); [apply ShmDelete_outside | done].
Qed.

Lemma keep_dead e p d : coherent d -> coherent (SHMProcessDeadProcess e p d).2.
Proof.
  unfold SHMProcessDeadProcess, bind at 1, GetMemoryUsersByPid, bind at 1, get_attached. cbn [ret].
  generalize (List.filter (fun memory => bool_decide (s32 p ∈ asm_pids memory)) (map_to_list (att d)).*2). intros l. revert d.
  induction l as [|mem l IH]; intros d C; [done|]. cbn [leave_memories]. destruct (negb _); [by apply IH|]. destruct (Nat.ltb _ _).
  - unfold bind. destruct (keep_remove_user d (asm_name mem) p C) as [C1 _]. run (RemoveMemoryUserInfo (asm_name mem) p d). by apply IH.
  - unfold bind, GetDelayRemoveRecord. destruct (existsb _ _); [by apply IH|]. by apply IH.
Qed.

Lemma keep_clean e n c t i q d : coherent d -> coherent (CleanShareMemoryLeakInner e n c t i q d).2.
Proof.
  intros C. unfold CleanShareMemoryLeakInner. destruct (bool_decide _); [done|]. destruct t.
  { unfold TryRollBackTimeoutShmTask. destruct (GetTimeOutShmTaskStatus e n i) as [[r st] sq]. unfold bind.
    destruct (keep_remove d n false 0 C) as [C1 _]. destruct (_ || _).
    { destruct i; [|done]. by run (RemoveMemoryInfo n false d). }
    destruct (Z.eqb _ _); [done|]. destruct (_ || _); [done|]. destruct i.
    - pose proof (outside_coherent _ _ (ShmDetach_outside e n d) C) as C2. run (ShmDetach e n d).
      destruct (keep_remove d1 n false 0 C2) as [C3 _]. by run (RemoveMemoryInfo n false d1).
    - destruct (negb _); [done|]. apply (outside_coherent d); [apply ShmDelete_outside | done]. }
  unfold bind. set (p := s32 (ac_pid c)). destruct (keep_remove_user d n p C) as [C1 N1]. run (RemoveMemoryUserInfo n p d).
  destruct (_ && _); [done|]. destruct (keep_state d1 n PRE_DEL p C1) as [C2 N2]. run (UpdateShareMemoryRecordState n PRE_DEL d1).
  destruct (_ && _); [done|]. cbn [snd] in *. specialize (N2 N1). pose proof (ShmDetach_outside e n d0) as Ho.
  pose proof (outside_coherent _ _ Ho C2) as C3. run (ShmDetach e n d0). destruct Ho as [Ha _]. cbn [snd] in *.
  assert (N3 : not_user d2 n p) by (unfold not_user; by rewrite Ha). destruct (_ && _).
  - destruct (keep_state d2 n FINISH p C3) as [C4 N4]. run (UpdateShareMemoryRecordState n FINISH d2).
    pose proof (keep_add d3 n p C4 (s32_pid _) (N4 N3)). by run (AddMemoryUserInfo n p d3).
  - destruct (keep_remove d2 n false p C3) as [C4 N4]. run (RemoveMemoryInfo n false d2). destruct (_ && _); [|done].
    destruct (keep_state d3 n DELETED p C4) as [C5 N5]. run (UpdateShareMemoryRecordState n DELETED d3).
    pose proof (keep_add d4 n p C5 (s32_pid _) (N5 (N4 N3))). by run (AddMemoryUserInfo n p d4).
Qed.

End Keeps.
