(* ===== verification/ShmRecovery.v ===== *)
(** Recovery of the shared-memory manager after a restart of the daemon. *)

From S2P Require Import Prelude StoreTypes IdPool IdPoolSpec RecordAllocator RecordStore StoreTable StoreInv StoreSteps StoreRestart StoreSpec RegionNodes StoreTheorems MsgPacker MsgBase MsgRequests MsgResponses StoreInterface Daemon ShmManager ShmHandlers DaemonSim ShmCoherence.
Import SHMManager.

(** The engine answers the question for the stage of a memory, be it that the
    memory does not exist. *)
Definition answered (e : Engine) (n : string) : Prop :=
  (GetShareMemoryStage e n).1 = MXM_OK \/ (GetShareMemoryStage e n).1 = MXM_ERR_SHM_NOT_EXIST.

#[export] Instance answered_dec e n : Decision (answered e n).
Proof. unfold answered. apply _. Defined.

Lemma NoDup_fmap_elem {A B} (f : A -> B) (l : list A) x y : NoDup (f <$> l) -> x ∈ l -> y ∈ l -> f x = f y -> x = y.
Proof.
  induction l as [|z l IH]; [by intros _ ?%not_elem_of_nil|]. rewrite fmap_cons, NoDup_cons. intros [Hz Hl].
  intros [->|Hx]%elem_of_cons [->|Hy]%elem_of_cons E; [done | | | by apply IH];
    exfalso; apply Hz; [rewrite E | rewrite <- E]; apply list_elem_of_fmap; eauto.
Qed.

Section Recovery.
Context {G : Geometry}.
Implicit Types (d : Daemon AStore).
Abbreviation att := attachedShareMemory_.
Abbreviation imports d := (a_imports (store_ d)).

(** ** First pass: the import records *)

(** What the recovery may rely on for one record. *)
Definition recoverable (e : Engine) (a : AStore) (v : ShareMemImportInfo) : Prop :=
  (smo_state v = PRE_DEL -> answered e (smo_name v)) /\ (smo_state v = PRE_ADD -> unreferenced a (smo_name v)).

(** The outcome of one record: deleted, or kept with a state. *)
Definition outcome (v : ShareMemImportInfo) (st : option RecordState) (i : gmap string ShareMemImportInfo)
  : gmap string ShareMemImportInfo :=
  match st with
  | None => delete (smo_name v) i
  | Some st => <[smo_name v := import_restate st v]> i
  end.

Lemma spec_del_import a n v :
  a_imports a !! n = Some v -> unreferenced a n ->
  exists l, spec_run (OpDelImport n) a = (0%Z, with_imports a (delete n (a_imports a)) l).
Proof. intros E Hu. cbn [spec_run]. rewrite E, decide_True by done. by eexists. Qed.

Lemma spec_set_import a n v st :
  a_imports a !! n = Some v ->
  spec_run (OpSetImportState n st) a = (0%Z, with_imports a (<[n := import_restate st v]> (a_imports a)) (a_lines a)).
Proof. intros E. cbn [spec_run]. by rewrite E. Qed.

Lemma restate_id v : import_restate (smo_state v) v = v.
Proof. by destruct v. Qed.

(** The record of a name has become [i]; the map, the references and the trace are untouched. *)
Definition settled (d d1 : Daemon AStore) (i : gmap string ShareMemImportInfo) : Prop :=
  att d1 = att d /\ wf_abs (store_ d1) /\ a_refs (store_ d1) = a_refs (store_ d) /\ engine_trace d1 = engine_trace d /\ imports d1 = i.

Lemma RemovePreAdd_spec e v d :
  wf_abs (store_ d) -> imports d !! smo_name v = Some v -> unreferenced (store_ d) (smo_name v) ->
  exists gone d1, RemovePreAddRecord e v d = (gone, d1) /\ settled d d1 (if gone : bool then delete (smo_name v) (imports d) else imports d).
Proof.
  intros W E Hu. destruct (spec_del_import _ _ _ E Hu) as [l El]. pose proof (spec_run_wf (OpDelImport (smo_name v)) _ W I) as Wd.
  rewrite El in Wd. unfold RemovePreAddRecord. destruct (GetShareMemoryStage e (smo_name v)) as [r stage].
  assert (Hdel : exists gone d1, (call (OpDelImport (smo_name v)) ;; ret true) d = (gone, d1) /\
                   settled d d1 (if gone : bool then delete (smo_name v) (imports d) else imports d)).
  { unfold bind, call, ret. cbn [exec AStore_API]. rewrite El. do 2 eexists. split; [reflexivity|]. done. }
  destruct (Z.eqb r _); [done|]. destruct (negb _); [by do 2 eexists|]. destruct (_ || _); [done|]. by do 2 eexists.
Qed.

Lemma RollbackPreDelete_spec e v d :
  wf_abs (store_ d) -> imports d !! smo_name v = Some v -> answered e (smo_name v) ->
  exists st d1, RollbackPreDeleteRecord e v d = ((MXM_OK, st), d1) /\ settled d d1 (<[smo_name v := import_restate st v]> (imports d)).
Proof.
  intros W E Ha. unfold RollbackPreDeleteRecord, answered in *. destruct (GetShareMemoryStage e (smo_name v)) as [r stage]. cbn [fst] in Ha.
  assert (Hset : forall st, exists st' d1, (call (OpSetImportState (smo_name v) st) ;; ret (MXM_OK, st)) d = ((MXM_OK, st'), d1) /\
                   settled d d1 (<[smo_name v := import_restate st' v]> (imports d))).
  { intros st. pose proof (spec_run_wf (OpSetImportState (smo_name v) st) _ W I) as Ws. rewrite (spec_set_import _ _ _ st E) in Ws.
    unfold bind, call, ret. cbn [exec AStore_API]. rewrite (spec_set_import _ _ _ st E). do 2 eexists. split; [reflexivity|]. done. }
  destruct (Z.eqb r MXM_ERR_SHM_NOT_EXIST) eqn:Er; [apply Hset|]. destruct Ha as [-> | ->]; [|by rewrite Z.eqb_refl in Er].
  cbn [negb Z.eqb MXM_OK]. destruct (_ || _); apply Hset.
Qed.

Lemma recover_state_spec e v d :
  wf_abs (store_ d) -> imports d !! smo_name v = Some v -> recoverable e (store_ d) v ->
  exists st d1, recover_state e v d = (st, d1) /\ settled d d1 (outcome v st (imports d)) /\ (smo_state v = FINISH -> st = Some FINISH).
Proof.
  intros W E [Hdel Hadd]. unfold recover_state.
  assert (Hid : imports d = outcome v (Some (smo_state v)) (imports d)).
  { cbn [outcome]. rewrite restate_id. symmetry. by apply insert_id. }
  destruct (decide (smo_state v = PRE_ADD)) as [Hs|Hs].
  { rewrite (bool_decide_true (smo_state v = PRE_ADD)), (bool_decide_false (smo_state v = PRE_DEL)) by (rewrite ?Hs; done).
    destruct (RemovePreAdd_spec e v d W E (Hadd Hs)) as (gone & d1 & Eg & Hg). unfold bind. rewrite Eg.
    destruct gone; do 2 eexists; (split; [reflexivity|]); split; try (by rewrite Hs); [done|]. by rewrite <- Hid. }
  rewrite (bool_decide_false (smo_state v = PRE_ADD)) by done. unfold bind at 1. cbn [ret].
  destruct (decide (smo_state v = PRE_DEL)) as [Hp|Hp].
  - rewrite bool_decide_true by done. destruct (RollbackPreDelete_spec e v d W E (Hdel Hp)) as (st & d1 & Er & Hr).
    unfold bind. rewrite Er. cbn [fst negb Z.eqb MXM_OK snd]. do 2 eexists. split; [reflexivity|]. split; [done | by rewrite Hp].
  - rewrite bool_decide_false by done. do 2 eexists. split; [reflexivity|]. split; [by rewrite <- Hid | by intros ->].
Qed.

(** The entry of a record whose users are not loaded yet. *)
Definition loaded (m : gmap string AttachedShareMemory) (i : gmap string ShareMemImportInfo) (n : string) : Prop :=
  m !! n = (fun v => entry_of v ∅) <$> i !! n.

Lemma recover_records_spec e l d :
  wf_abs (store_ d) -> NoDup (smo_name <$> l) ->
  (forall v, v ∈ l -> imports d !! smo_name v = Some v /\ att d !! smo_name v = None /\ recoverable e (store_ d) v) ->
  (forall n, n ∉ smo_name <$> l -> loaded (att d) (imports d) n) ->
  exists d', recover_records e l d = (MXM_OK, d') /\ wf_abs (store_ d') /\ a_refs (store_ d') = a_refs (store_ d) /\
    engine_trace d' = engine_trace d /\ (forall n, loaded (att d') (imports d') n) /\
    (forall n v, imports d !! n = Some v -> smo_state v = FINISH -> imports d' !! n = Some v).
Proof.
  revert d. induction l as [|v l IH]; intros d W Hnd Hl Hout.
  - exists d. split_and!; try done. intros n. apply Hout, not_elem_of_nil.
  - rewrite fmap_cons, NoDup_cons in Hnd. destruct Hnd as [Hni Hnd]. set (n := smo_name v) in *.
    destruct (Hl v ltac:(by left)) as (Ev & En & Hr). destruct (recover_state_spec e v d W Ev Hr) as (st & d1 & Es & (Ha & W1 & R1 & T1 & I1) & F1).
    cbn [recover_records]. unfold bind, get_attached. fold n in Ev, En |- *. rewrite En, Es.
    set (m2 := match st with None => att d | Some st => <[n := recovered v st]> (att d) end).
    set (d2 := mkDaemon m2 (store_ d1) (delayedRemoveKeys d1) (delayedRemoveKeysByName d1) (engine_trace d1) (leases_ d1)).
    assert (Ed : (match st with
                  | None => recover_records e l
                  | Some st0 => fun d0 => let '(_, d3) := set_attached (<[n := recovered v st0]> (att d)) d0 in recover_records e l d3
                  end) d1 = recover_records e l d2).
    { destruct st; [done|]. unfold d2, m2. rewrite <- Ha. by destruct d1. }
    assert (Io : forall n', n' <> n -> imports d1 !! n' = imports d !! n').
    { intros n' Hne. rewrite I1. destruct st; simpl; fold n; [by rewrite lookup_insert_ne | by rewrite lookup_delete_ne]. }
    assert (Mo : forall n', n' <> n -> m2 !! n' = att d !! n').
    { intros n' Hne. unfold m2. destruct st; [by rewrite lookup_insert_ne | done]. }
    destruct (IH d2) as (d' & E' & W' & R' & T' & L' & F').
    + done.
    + done.
    + intros w Hw. assert (smo_name w <> n) by (intros Hn; apply Hni; rewrite <- Hn; apply list_elem_of_fmap; eauto).
      destruct (Hl w ltac:(by right)) as (Ew & Eaw & Hrw). cbn [d2 att store_]. rewrite Io, Mo by done.
      split_and!; [done | done |]. split; [apply Hrw|]. intros Hp. apply Hrw in Hp. unfold unreferenced in *. by rewrite R1.
    + intros n' Hn'. unfold loaded. cbn [d2 att store_]. destruct (decide (n' = n)) as [->|Hne].
      * rewrite I1. unfold m2. destruct st; simpl; fold n; [by rewrite !lookup_insert_eq | by rewrite lookup_delete_eq, En].
      * rewrite Io, Mo by done. apply Hout. rewrite fmap_cons, not_elem_of_cons. done.
    + exists d'. split_and!; [|done | by rewrite R' | by rewrite T' | done |].
      * change ((match st with
                 | None => recover_records e l
                 | Some st0 => fun d0 => let '(_, d3) := set_attached (<[n := recovered v st0]> (att d)) d0 in recover_records e l d3
                 end) d1 = (MXM_OK, d')). by rewrite Ed.
      * intros n' w Ew Hf. apply F'; [|done]. cbn [d2 store_]. destruct (decide (n' = n)) as [->|Hne]; [|by rewrite Io].
        assert (w = v) as -> by congruence. rewrite I1, (F1 Hf). simpl. fold n. rewrite lookup_insert_eq, <- Hf. by rewrite restate_id.
Qed.

(** ** Second pass: the references *)

Lemma recover_users_spec l d :
  NoDup l.*1 -> (forall n us, (n, us) ∈ l -> is_Some (att d !! n)) ->
  exists d', recover_users l d = (MXM_OK, d') /\ store_ d' = store_ d /\ engine_trace d' = engine_trace d /\
    forall n, att d' !! n = match (list_to_map l : gmap string (gmap Z Z)) !! n with
                            | Some us => (fun mem => with_pids mem (list_to_set (map_to_list us).*1 ∪ asm_pids mem)) <$> att d !! n
                            | None => att d !! n
                            end.
Proof.
  revert d. induction l as [|[n us] l IH]; intros d Hnd Hin.
  - exists d. split_and!; try done.
  - rewrite fmap_cons, NoDup_cons in Hnd. destruct Hnd as [Hni Hnd]. cbn [fst] in Hni.
    destruct (Hin n us ltac:(by left)) as [mem E]. cbn [recover_users]. unfold bind, get_attached. rewrite E. unfold set_attached.
    edestruct IH as (d' & E' & S' & T' & L'); [done | | exists d'; split_and!; [exact E' | done | done |]].
    + intros n' us' Hl. cbn [att]. apply lookup_insert_is_Some. destruct (decide (n = n')); [by left|]. right. split; [done|]. eapply Hin. by right.
    + intros n'. rewrite L'. cbn [att list_to_map foldr]. simpl. destruct (decide (n' = n)) as [->|Hne].
      * rewrite lookup_insert_eq, not_elem_of_list_to_map_1 by done. by rewrite lookup_insert_eq, E.
      * by rewrite !lookup_insert_ne by done.
Qed.

(** ** Third pass: memories without users *)

Lemma drop_unused_spec l d :
  coherent d -> NoDup l.*1 -> (forall n mem, (n, mem) ∈ l -> att d !! n = Some mem) ->
  exists d', drop_unused l d = (MXM_OK, d') /\ coherent d' /\ engine_trace d' = engine_trace d /\
    (forall n mem, att d !! n = Some mem -> asm_pids mem <> ∅ -> att d' !! n = Some mem) /\
    (forall n mem, att d' !! n = Some mem -> (n, mem) ∈ l -> asm_state mem = PRE_ADD \/ asm_pids mem <> ∅) /\
    (forall n mem, att d' !! n = Some mem -> att d !! n = Some mem).
Proof.
  revert d. induction l as [|[n mem] l IH]; intros d C Hnd Hin.
  - exists d. split_and!; try done. intros ? ? ? []%not_elem_of_nil.
  - rewrite fmap_cons, NoDup_cons in Hnd. destruct Hnd as [Hni Hnd]. cbn [fst] in Hni. pose proof (Hin n mem ltac:(by left)) as E.
    assert (Hskip : asm_state mem = PRE_ADD \/ asm_pids mem <> ∅ -> drop_unused ((n, mem) :: l) d = drop_unused l d).
    { cbn [drop_unused]. intros [H|H]; [by rewrite bool_decide_true by done|]. by rewrite (bool_decide_false (asm_pids mem = ∅)), Tauto.if_same by done. }
    destruct (decide (asm_state mem = PRE_ADD \/ asm_pids mem <> ∅)) as [Hs|Hs].
    + rewrite (Hskip Hs). destruct (IH d C Hnd) as (d' & E' & C' & T' & K1 & K2 & K3); [intros; apply Hin; by right|].
      exists d'. split_and!; try done. intros n' mem' E'' [[= -> ->]|Hl]%elem_of_cons; [done | by eapply K2].
    + assert (Hst : asm_state mem <> PRE_ADD) by tauto. assert (Hp : asm_pids mem = ∅) by (destruct (decide (asm_pids mem = ∅)); tauto).
      pose proof (remove_unused_spec d n C) as Hr. rewrite E, decide_True in Hr by done. destruct Hr as (d1 & Er & [M1 (_ & _ & Q1) C1 _]).
      assert (Ed : drop_unused ((n, mem) :: l) d = drop_unused l d1).
      { cbn [drop_unused]. rewrite bool_decide_false, bool_decide_true by done. unfold remove_unused, bind, get_attached in Er.
        rewrite E, (bool_decide_true (asm_pids mem = ∅)) in Er by done. cbn [negb] in Er. unfold bind, get_attached. unfold call in *.
        destruct (exec (OpDelImport n) (store_ d)) as [r s]. destruct (negb (Z.eqb r 0)); [discriminate Er|]. by injection Er as <-. }
      destruct (IH d1 C1 Hnd) as (d' & E' & C' & T' & K1 & K2 & K3).
      { intros n' mem' Hl. rewrite M1, lookup_delete_ne; [apply Hin; by right|]. intros <-. apply Hni, list_elem_of_fmap. by exists (n, mem'). }
      exists d'. rewrite Ed. split_and!; [done | done | by rewrite T' | | |].
      * intros n' mem' E1 Hne. apply K1; [|done]. rewrite M1, lookup_delete_ne; [done|]. intros <-. congruence.
      * intros n' mem' E1 [[= -> ->]|Hl]%elem_of_cons; [|by eapply K2]. apply K3 in E1. by rewrite M1, lookup_delete_eq in E1.
      * intros n' mem' E1%K3. rewrite M1 in E1. by apply lookup_delete_Some in E1 as [_ ?].
Qed.

(** ** The whole recovery *)

Lemma users_loaded a n us p :
  wf_abs a -> model_refs a !! n = Some us -> p ∈ (list_to_set (map_to_list us).*1 : gset Z) <-> a_count a n p <> 0.
Proof.
  intros W E. pose proof (model_refs_count a n p W) as Hc. unfold get2 in Hc. rewrite E in Hc. simpl in Hc.
  rewrite elem_of_list_to_set, list_elem_of_fmap. unfold reported in Hc. split.
  - intros ([p' z] & -> & Hin%elem_of_map_to_list). simpl in *. rewrite Hin in Hc. by destruct (decide _).
  - intros Hne. rewrite decide_False in Hc by done. exists (p, u32 (Z.of_nat (a_count a n p))). split; [done|]. by apply elem_of_map_to_list.
Qed.

Lemma users_none a n p : wf_abs a -> model_refs a !! n = None -> a_count a n p = 0.
Proof.
  intros W E. pose proof (model_refs_count a n p W) as Hc. unfold get2 in Hc. rewrite E in Hc. simpl in Hc. unfold reported in Hc.
  by destruct (decide _).
Qed.

(** Loading the users that [d] had into a map without users makes it coherent. *)
Lemma reload_coherent m0 a d1 d2 :
  wf_abs a -> agree m0 a -> wf_abs (store_ d1) -> a_refs (store_ d1) = a_refs a -> store_ d2 = store_ d1 ->
  (forall n, loaded (att d1) (imports d1) n) ->
  (forall n, att d2 !! n = match model_refs (store_ d1) !! n with
                           | Some us => (fun mem => with_pids mem (list_to_set (map_to_list us).*1 ∪ asm_pids mem)) <$> att d1 !! n
                           | None => att d1 !! n
                           end) -> coherent d2.
Proof.
  intros W H W1 R1 S2 L1 L2. split; [by rewrite S2|]. intros n. unfold agrees. rewrite S2, L2, (L1 n).
  assert (Hcnt : forall p, a_count (store_ d1) n p = a_count a n p) by (intros p; unfold a_count; by rewrite R1).
  specialize (H n). unfold agrees in H. destruct (imports d1 !! n) as [v|] eqn:Ev; [|by destruct (model_refs _ !! n)].
  assert (Hle : forall p, a_count (store_ d1) n p <= 1).
  { intros p. rewrite Hcnt. destruct (a_imports a !! n) as [v0|] eqn:E0.
    - destruct H as (pids & _ & Hu). rewrite (Hu p). destruct (decide _); lia.
    - destruct (decide (a_count a n p = 0)) as [->|Hc]; [lia|]. destruct (a_count_import _ _ _ W Hc) as [[? ?] _]. congruence. }
  destruct (model_refs (store_ d1) !! n) as [us|] eqn:Eu.
  - eexists. split; [reflexivity|]. intros p. simpl. specialize (Hle p). pose proof (users_loaded _ _ _ p W1 Eu) as Hp.
    destruct (decide _) as [Hd|Hd]; [apply elem_of_union in Hd as [Hd|Hd]; [apply Hp in Hd; lia | by apply elem_of_empty in Hd]|].
    destruct (decide (a_count (store_ d1) n p = 0)); [done|]. exfalso. apply Hd, elem_of_union. left. by apply Hp.
  - exists ∅. split; [done|]. intros p. by rewrite (users_none _ _ _ W1 Eu).
Qed.

Lemma Recovery_spec e m0 d :
  coherent (mkDaemon m0 (store_ d) [] [] [] (leases_ d)) -> att d = ∅ ->
  (forall n v, imports d !! n = Some v -> recoverable e (store_ d) v) ->
  exists d', Recovery e d = (MXM_OK, d') /\ coherent d' /\ engine_trace d' = engine_trace d /\
    (forall n mem, m0 !! n = Some mem -> asm_state mem = FINISH -> asm_pids mem <> ∅ -> att d' !! n = Some mem) /\
    (forall n mem, att d' !! n = Some mem -> asm_state mem = PRE_ADD \/ asm_pids mem <> ∅).
Proof.
  intros [W H] Hm Hrec. cbn [store_ att] in W, H. pose proof (wf_import _ W) as Wn.
  assert (Hnames : smo_name <$> (map_to_list (imports d)).*2 = (map_to_list (imports d)).*1).
  { rewrite <- list_fmap_compose. apply list_fmap_ext. intros i [n v] Hi. apply list_elem_of_lookup_2, elem_of_map_to_list in Hi. by apply Wn. }
  destruct (recover_records_spec e (map_to_list (imports d)).*2 d W) as (d1 & E1 & W1 & R1 & T1 & L1 & F1).
  { rewrite Hnames. apply NoDup_fst_map_to_list. }
  { intros v ([n w] & -> & Hin%elem_of_map_to_list)%list_elem_of_fmap. cbn [snd]. destruct (Wn _ _ Hin) as [-> _].
    split_and!; [done | by rewrite Hm | by eapply Hrec]. }
  { intros n. rewrite Hnames. intros Hn. unfold loaded. rewrite Hm, lookup_empty. destruct (imports d !! n) as [v|] eqn:Ev; [|done].
    exfalso. apply Hn, list_elem_of_fmap. exists (n, v). split; [done|]. by apply elem_of_map_to_list. }
  destruct (recover_users_spec (map_to_list (model_refs (store_ d1))) d1) as (d2 & E2 & S2 & T2 & L2).
  { apply NoDup_fst_map_to_list. }
  { intros n us Hin%elem_of_map_to_list. destruct (map_choose us (model_refs_full _ _ _ Hin)) as (p & z & Hz).
    assert (Hc : a_count (store_ d1) n p <> 0).
    { apply (users_loaded _ _ _ p W1 Hin). apply elem_of_list_to_set, list_elem_of_fmap. exists (p, z). split; [done|]. by apply elem_of_map_to_list. }
    destruct (a_count_import _ _ _ W1 Hc) as [[v Ev] _]. rewrite (L1 n), Ev. by eexists. }
  rewrite list_to_map_to_list in L2.
  pose proof (reload_coherent m0 _ d1 d2 W H W1 R1 S2 L1 L2) as C2.
  destruct (drop_unused_spec (map_to_list (att d2)) d2 C2) as (d3 & E3 & C3 & T3 & K1 & K2 & K3).
  { apply NoDup_fst_map_to_list. }
  { intros n mem. by rewrite elem_of_map_to_list. }
  exists d3. split_and!; [| done | by rewrite T3, T2, T1 | |].
  - unfold Recovery, RecoverFromRecord, RecoverFromRefRecord, bind, query, get_attached. cbn [list_imports list_refs AStore_API].
    rewrite E1. cbn [negb Z.eqb MXM_OK]. rewrite E2. cbn [negb Z.eqb MXM_OK]. exact E3.
  - intros n mem Em Hf Hp. apply K1; [|done]. destruct (agree_lookup _ _ _ _ H Em) as (v & Ev & Hv & Hu).
    assert (smo_state v = FINISH) as Hfv by (by rewrite Hv in Hf). rewrite L2, (L1 n), (F1 _ _ Ev Hfv). simpl.
    assert (Hcnt : forall p, a_count (store_ d1) n p = a_count (store_ d) n p) by (intros p; unfold a_count; by rewrite R1).
    destruct (model_refs (store_ d1) !! n) as [us|] eqn:Eu.
    + simpl. rewrite Hv. f_equal. unfold with_pids, entry_of. simpl. f_equal. apply set_eq. intros p. rewrite elem_of_union.
      rewrite (users_loaded _ _ _ p W1 Eu), Hcnt, (Hu p). destruct (decide (p ∈ asm_pids mem)); set_solver.
    + exfalso. apply Hp, set_eq. intros p. pose proof (users_none _ n p W1 Eu) as Hz. rewrite Hcnt, (Hu p) in Hz.
      destruct (decide (p ∈ asm_pids mem)); [done | set_solver].
  - intros n mem E. apply (K2 n mem E), elem_of_map_to_list. by apply K3.
Qed.

(** ** Recovery when the engine does not answer *)

Lemma recover_state_att e v d :
  att (recover_state e v d).2 = att d /\ a_refs (store_ (recover_state e v d).2) = a_refs (store_ d) /\
  (wf_abs (store_ d) -> wf_abs (store_ (recover_state e v d).2)).
Proof.
  assert (Hc : forall o d0, (exists n, o = OpDelImport n) \/ (exists n st, o = OpSetImportState n st) ->
    att (call o d0).2 = att d0 /\ a_refs (store_ (call o d0).2) = a_refs (store_ d0) /\ (wf_abs (store_ d0) -> wf_abs (store_ (call o d0).2))).
  { intros o d0 Ho. assert (Hok : op_ok o) by (by destruct Ho as [[? ->]|(? & ? & ->)]). unfold call.
    pose proof (spec_run_wf o (store_ d0)) as Hw. cbn [exec AStore_API] in *. destruct (spec_run o (store_ d0)) as [r a] eqn:Er. cbn in *.
    split_and!; [done | | by auto]. destruct Ho as [[n ->]|(n & st & ->)]; cbn [spec_run] in Er; repeat case_match; by injection Er as <- <-. }
  unfold recover_state, RemovePreAddRecord, RollbackPreDeleteRecord, AddDelayRemoveRecord, bind, ret.
  repeat first [progress cbn | match goal with
    | |- context [call (OpDelImport ?n) ?d0] => let H := fresh in pose proof (Hc (OpDelImport n) d0 ltac:(eauto)) as H; destruct (call (OpDelImport n) d0)
    | |- context [call (OpSetImportState ?n ?st) ?d0] =>
        let H := fresh in pose proof (Hc (OpSetImportState n st) d0 ltac:(eauto)) as H; destruct (call (OpSetImportState n st) d0)
    | |- context [GetShareMemoryStage ?e ?n] => destruct (GetShareMemoryStage e n)
    | |- context [if ?b then _ else _] => destruct b
    end]; done.
Qed.

(** A memory whose detach was in progress and for which the engine has no answer is not loaded. *)
Lemma recover_state_unanswered e v d : smo_state v = PRE_DEL -> ~ answered e (smo_name v) -> recover_state e v d = (None, d).
Proof.
  intros Hs Ha. unfold recover_state, RollbackPreDeleteRecord, answered in *. rewrite Hs, (bool_decide_false (PRE_DEL = PRE_ADD)), bool_decide_true by done.
  unfold bind, ret. destruct (GetShareMemoryStage e (smo_name v)) as [r st]. cbn [fst] in Ha.
  destruct (Z.eqb_spec r MXM_ERR_SHM_NOT_EXIST); [tauto|]. destruct (Z.eqb_spec r 0) as [->|Hr]; [by destruct Ha; left|]. cbn.
  by rewrite (proj2 (Z.eqb_neq _ _) Hr).
Qed.

Lemma recover_records_unanswered e l d v :
  wf_abs (store_ d) -> NoDup (smo_name <$> l) -> (forall w, w ∈ l -> att d !! smo_name w = None) ->
  v ∈ l -> smo_state v = PRE_DEL -> ~ answered e (smo_name v) ->
  exists d', recover_records e l d = (MXM_OK, d') /\ wf_abs (store_ d') /\ a_refs (store_ d') = a_refs (store_ d) /\ att d' !! smo_name v = None.
Proof.
  intros W Hnd Hl Hv Hs Ha.
  enough (Hgen : forall l d, wf_abs (store_ d) -> NoDup (smo_name <$> l) -> (forall w, w ∈ l -> att d !! smo_name w = None) ->
    att d !! smo_name v = None -> (forall w, w ∈ l -> smo_name w = smo_name v -> w = v) ->
    exists d', recover_records e l d = (MXM_OK, d') /\ wf_abs (store_ d') /\ a_refs (store_ d') = a_refs (store_ d) /\ att d' !! smo_name v = None).
  { apply Hgen; [done | done | done | by apply Hl |]. intros w Hw Hn. by eapply NoDup_fmap_elem. }
  clear l d W Hnd Hl Hv. induction l as [|w l IH]; intros d W Hnd Hl Hnv Hone; [by exists d|].
  rewrite fmap_cons, NoDup_cons in Hnd. destruct Hnd as [Hni Hnd]. cbn [recover_records]. unfold bind, get_attached. rewrite (Hl w) by (by left).
  pose proof (recover_state_att e w d) as (A1 & R1 & W1). pose proof (recover_state_unanswered e w d) as Hu.
  destruct (recover_state e w d) as [st d1] eqn:Est. cbn [snd] in *. assert (Hne : forall w', w' ∈ l -> smo_name w' <> smo_name w).
  { intros w' Hw' Hn. apply Hni. rewrite <- Hn. apply list_elem_of_fmap. eauto. }
  rewrite <- R1. destruct st as [st|].
  - unfold set_attached.
    apply (IH (mkDaemon (<[smo_name w := recovered w st]> (att d)) (store_ d1) (delayedRemoveKeys d1) (delayedRemoveKeysByName d1) (engine_trace d1) (leases_ d1)));
      cbn; [by auto | done | | | intros; apply Hone; [by right | done]].
    + intros w' Hw'. rewrite lookup_insert_ne by (intros ?; by eapply Hne). apply Hl. by right.
    + destruct (decide (smo_name w = smo_name v)) as [Hn|Hn]; [|by rewrite lookup_insert_ne].
      assert (w = v) as -> by (apply Hone; [by left | done]). discriminate (Hu Hs Ha).
  - apply IH; [by auto | done | intros; rewrite A1; apply Hl; by right | by rewrite A1 | intros; apply Hone; [by right | done]].
Qed.

Lemma recover_users_missing l d n us : (n, us) ∈ l -> att d !! n = None -> (recover_users l d).1 = MXM_ERR_SHM_NOT_FOUND.
Proof.
  revert d. induction l as [|[n' us'] l IH]; intros d; [by intros ?%not_elem_of_nil|]. intros Hin En. cbn [recover_users].
  unfold bind, get_attached. destruct (att d !! n') as [mem|] eqn:E; [|done]. unfold set_attached.
  apply elem_of_cons in Hin as [[= <- <-]|Hin]; [congruence|]. apply IH; [done|]. cbn. rewrite lookup_insert_ne; [done|]. congruence.
Qed.

Lemma Recovery_unanswered e d n v p :
  wf_abs (store_ d) -> att d = ∅ -> imports d !! n = Some v -> smo_state v = PRE_DEL -> ~ answered e n -> a_count (store_ d) n p <> 0 ->
  (Recovery e d).1 = MXM_ERR_SHM_NOT_FOUND.
Proof.
  intros W Hm Ev Hs Ha Hc. pose proof (wf_import _ W) as Wn. destruct (Wn _ _ Ev) as [Hn _].
  assert (Hnames : smo_name <$> (map_to_list (imports d)).*2 = (map_to_list (imports d)).*1).
  { rewrite <- list_fmap_compose. apply list_fmap_ext. intros i [m w] Hi. apply list_elem_of_lookup_2, elem_of_map_to_list in Hi. by apply Wn. }
  destruct (recover_records_unanswered e (map_to_list (imports d)).*2 d v) as (d1 & E1 & W1 & R1 & A1); try done.
  { rewrite Hnames. apply NoDup_fst_map_to_list. }
  { intros w _. by rewrite Hm. }
  { apply list_elem_of_fmap. exists (n, v). by rewrite elem_of_map_to_list. }
  { by rewrite Hn. }
  unfold Recovery, RecoverFromRecord, RecoverFromRefRecord, bind, query. cbn [list_imports list_refs AStore_API]. rewrite E1. cbn [negb Z.eqb MXM_OK].
  assert (Hc1 : a_count (store_ d1) n p <> 0) by (unfold a_count; by rewrite R1).
  destruct (model_refs (store_ d1) !! n) as [us|] eqn:Eu; [|by rewrite (users_none _ n p W1 Eu) in Hc1].
  pose proof (recover_users_missing (map_to_list (model_refs (store_ d1))) d1 n us) as Hu. rewrite Hn in A1.
  specialize (Hu ltac:(by apply elem_of_map_to_list) A1). destruct (recover_users _ d1) as [r d2]. cbn [fst] in Hu. by subst r.
Qed.

End Recovery.
