(* ===== verification/ShmResults.v ===== *)
(** What the handlers of the shared-memory service return, on the abstract
    store: the outcome of each on a coherent daemon. *)

From S2P Require Import Prelude StoreTypes IdPool IdPoolSpec RecordAllocator RecordStore StoreTable StoreInv StoreSteps StoreRestart StoreSpec RegionNodes StoreTheorems MsgPacker MsgBase MsgRequests MsgResponses StoreInterface Daemon ShmManager ShmHandlers DaemonSim ShmCoherence.
Import SHMManager.

(** ** Permissions *)

(** The place of the three permission bits of the caller's class in a mode. *)
Definition class_shift (caller_uid caller_gid : Z) (info : ubse_user_info_t) : Z :=
  if Z.eqb caller_uid (ui_uid info) then 6 else if Z.eqb caller_gid (ui_gid info) then 3 else 0.

(** A permission bit of the class: 2 is read, 1 is write, 0 is execute. *)
Definition granted (caller_uid caller_gid : Z) (info : ubse_user_info_t) (b : Z) : bool :=
  Z.testbit (ui_mode info) (class_shift caller_uid caller_gid info + b).

Lemma has_pow2 a k : (0 <= k)%Z -> has a (2 ^ k) = Z.testbit a k.
Proof.
  intros Hk. unfold has. destruct (Z.testbit a k) eqn:Hb.
  - destruct (Z.eqb_spec (Z.land a (2 ^ k)) 0) as [E|E]; [|done]. exfalso.
    assert (Hl : Z.testbit (Z.land a (2 ^ k)) k = false) by (rewrite E; apply Z.bits_0).
    by rewrite Z.land_spec, Z.pow2_bits_true, Hb in Hl.
  - assert (Z.land a (2 ^ k) = 0%Z) as ->; [|done]. apply Z.bits_inj_0. intros i. rewrite Z.land_spec.
    destruct (Z.eq_dec i k) as [->|Hne]; [by rewrite Hb|].
    destruct (Z.ltb_spec i 0) as [|Hi]; [by rewrite Z.testbit_neg_r|]. by rewrite Z.pow2_bits_false, andb_false_r by lia.
Qed.

Lemma class_perms_bits mode r w x :
  has (class_perms mode r w x) PROT_READ = has mode r /\ has (class_perms mode r w x) PROT_WRITE = has mode w /\
  has (class_perms mode r w x) PROT_EXEC = has mode x.
Proof. unfold class_perms. by destruct (has mode r), (has mode w), (has mode x). Qed.

Lemma provided_bits cu cg info :
  let p := CalculateProvidedPermissions cu cg (ui_uid info) (ui_gid info) (ui_mode info) in
  has p PROT_READ = granted cu cg info 2 /\ has p PROT_WRITE = granted cu cg info 1 /\ has p PROT_EXEC = granted cu cg info 0.
Proof.
  unfold CalculateProvidedPermissions, granted, class_shift. cbv zeta.
  destruct (Z.eqb cu _); [|destruct (Z.eqb cg _)];
    match goal with |- context [class_perms ?m ?r ?w ?x] => destruct (class_perms_bits m r w x) as (-> & -> & ->) end.
  - by rewrite <- !has_pow2.
  - by rewrite <- !has_pow2.
  - by rewrite <- !has_pow2.
Qed.

Lemma CheckPermission_spec cu cg info port :
  (CheckPermission cu cg info port).1 = 0%Z <->
  (granted cu cg info 2 = true \/ granted cu cg info 0 = true) /\
  (has port PROT_READ = true -> granted cu cg info 2 = true) /\ (has port PROT_WRITE = true -> granted cu cg info 1 = true) /\
  (has port PROT_EXEC = true -> granted cu cg info 0 = true).
Proof.
  unfold CheckPermission, GetMaxOflag. cbv zeta. destruct (provided_bits cu cg info) as (-> & -> & ->). cbn [fst].
  destruct (granted cu cg info 2), (granted cu cg info 1), (granted cu cg info 0), (has port PROT_READ), (has port PROT_WRITE),
    (has port PROT_EXEC); cbn; unfold MXM_ERR_SHM_PERMISSION_DENIED; intuition congruence.
Qed.

(** The flag to open the memory with: read-write exactly when the class may read and write, or may only execute. *)
Lemma CheckPermission_oflag cu cg info port :
  (CheckPermission cu cg info port).1 = 0%Z ->
  (CheckPermission cu cg info port).2 = if granted cu cg info 2 && negb (granted cu cg info 1) then O_RDONLY else O_RDWR.
Proof.
  intros H%CheckPermission_spec. unfold CheckPermission, GetMaxOflag. cbv zeta. destruct (provided_bits cu cg info) as (-> & -> & ->).
  cbn [snd]. destruct H as [H _]. destruct (granted cu cg info 2), (granted cu cg info 1), (granted cu cg info 0); naive_solver.
Qed.

(** ** The adapter's calls *)

(** The daemon after a call of the engine that schedules nothing. *)
Definition called {S} (d : Daemon S) (c : EngineCall) : Daemon S :=
  mkDaemon (attachedShareMemory_ d) (store_ d) (delayedRemoveKeys d) (delayedRemoveKeysByName d) (engine_trace d ++ [c]) (leases_ d).

Lemma ShmAttach_ok {S} e n i r0 (d : Daemon S) r d' :
  ShmAttach e n i r0 d = ((0%Z, r), d') ->
  exists code, (code = UBS_SUCCESS \/ code = UBS_ENGINE_ERR_EXISTED) /\ d' = called d (CallAttach n code) /\ at_oflag r = at_oflag r0.
Proof.
  unfold ShmAttach. destruct (Z.eqb_spec (eng_Initialize e) 0) as [|Hn]; cbn [negb]; [|by intros [= E]].
  destruct (eng_loaded e); [|done]. cbn [negb]. destruct (pUbseMemShmAttach e n i) as [code desc]. unfold bind, trace.
  destruct (Z.eqb_spec code UBS_ERR_TIMED_OUT); [done|]. destruct (Z.eqb_spec code UBS_SUCCESS) as [|H1]; cbn [negb andb];
    [|destruct (Z.eqb_spec code UBS_ENGINE_ERR_EXISTED) as [|H2]; cbn [negb]; [|by destruct (Z.eqb code UBS_ERR_NOT_SUPPORTED)]];
    (destruct desc as [desc|]; [|done]); (destruct (sd_import desc) as [|x [|]]; try done); intros [= <- <-]; eauto.
Qed.

(** The adapter is ready, so that a detach reaches the engine. *)
Definition ready (e : Engine) : bool := Z.eqb (eng_Initialize e) 0 && eng_loaded e.

Definition detach_code (e : Engine) (n : string) : Z :=
  if negb (Z.eqb (eng_Initialize e) 0) then eng_Initialize e
  else if negb (eng_loaded e) then MXM_ERR_UBSE_INNER
  else
    let r := pUbseMemShmDetach e n in
    if Z.eqb r UBS_SUCCESS then MXM_OK
    else if Z.eqb r UBS_ENGINE_ERR_SHM_NO_ATTACH then MXM_ERR_UBSE_NOT_ATTACH
    else if Z.eqb r UBS_ERR_NOT_SUPPORTED then MXM_ERR_UBSE_NOT_SUPPORTED else MXM_ERR_UBSE_INNER.

Definition detach_daemon {S} (e : Engine) (n : string) (d : Daemon S) : Daemon S :=
  if ready e then called d (CallDetach n (pUbseMemShmDetach e n)) else d.

(** The memory is detached afterwards: the handlers go on. *)
Definition detach_ok (e : Engine) (n : string) : bool :=
  Z.eqb (detach_code e n) MXM_OK || Z.eqb (detach_code e n) MXM_ERR_UBSE_NOT_ATTACH.

Lemma ShmDetach_run {S} e n (d : Daemon S) : ShmDetach e n d = (detach_code e n, detach_daemon e n d).
Proof.
  unfold ShmDetach, detach_code, detach_daemon, ready. destruct (Z.eqb (eng_Initialize e) 0); [|done]. destruct (eng_loaded e); [|done].
  cbn [negb andb]. unfold bind, trace, called. by destruct (Z.eqb _ UBS_SUCCESS).
Qed.

Lemma detach_ok_negb e n :
  negb (Z.eqb (detach_code e n) MXM_OK) && negb (Z.eqb (detach_code e n) MXM_ERR_UBSE_NOT_ATTACH) = negb (detach_ok e n).
Proof. unfold detach_ok. by destruct (Z.eqb _ MXM_OK). Qed.

Section Outcomes.
Context {G : Geometry}.
Implicit Types (d : Daemon AStore).
Abbreviation att := attachedShareMemory_.

(** ** Mapping *)

Lemma ShmMmapInner_ok e n len prot u d r d' :
  coherent d -> good_name n -> ShmMmapInner e n len prot u d = ((0%Z, r), d') ->
  exists info code mem, ShmGetUserData e n = (0%Z, info) /\ (CheckPermission (uds_uid u) (uds_gid u) info prot).1 = 0%Z /\
    at_oflag r = (CheckPermission (uds_uid u) (uds_gid u) info prot).2 /\
    (code = UBS_SUCCESS \/ code = UBS_ENGINE_ERR_EXISTED) /\ att d !! n = None /\ att d' = <[n := mem]> (att d) /\
    engine_trace d' = engine_trace d ++ [CallAttach n code] /\
    mem = mkAttached n len FINISH {[s32 (uds_pid u)]}
            (mkShareMemImportResult (at_memIds r) (at_unitSize r) (at_flag r) (at_oflag r) (ui_uid info) (ui_gid info)).
Proof.
  intros C Hg. unfold ShmMmapInner. destruct (ShmGetUserData e n) as [rt info].
  destruct (Z.eqb_spec rt 0) as [->|]; cbn [negb]; [|by intros [= ? _]].
  destruct (CheckPermission (uds_uid u) (uds_gid u) info prot) as [res oflag] eqn:Ep.
  destruct (Z.eqb_spec res 0) as [->|]; cbn [negb]; [|by intros [= ? _]]. unfold bind.
  pose proof (PrepareAdd_spec d n len (s32 (uds_pid u)) C Hg) as H1. destruct (att d !! n) as [mem|] eqn:E0; [by rewrite H1|].
  destruct (decide _); [|by rewrite H1]. destruct H1 as (d1 & -> & [M1 Q1 C1 _] & _). cbn [negb Z.eqb MXM_OK].
  set (ui := mkUserInfo _ _ _ _ _ _). set (ar := mkAttach _ _ _ _ _). destruct (ShmAttach e n ui ar d1) as [[hr r1] d2] eqn:Ea.
  cbn [fst snd]. destruct (Z.eqb_spec hr 0) as [->|Hne]; cbn [negb]; [|destruct (RemoveMemoryInfo n false d2); by intros [= ? _]].
  destruct (ShmAttach_ok _ _ _ _ _ _ _ Ea) as (code & Hcode & -> & Hof).
  set (res0 := mkShareMemImportResult _ _ _ _ _ _). set (d2 := called d1 _) in *.
  assert (C2 : coherent d2) by (split; apply C1).
  assert (E2 : att d2 !! n = Some (mkAttached n len PRE_ADD ∅ no_result)) by (unfold d2; cbn; by rewrite M1, lookup_insert_eq).
  pose proof (AddFull_spec d2 n (s32 (uds_pid u)) res0 _ C2 (s32_pid _) E2) as H2. cbn [asm_size asm_pids] in H2.
  destruct (decide _); [destruct (decide _)|].
  - destruct H2 as (d3 & -> & M3 & Q3 & _). cbn [negb Z.eqb MXM_OK]. intros [= <- <-]. destruct Q1 as (_ & _ & T1), Q3 as (_ & _ & T3).
    exists info, code, (mkAttached n len FINISH {[s32 (uds_pid u)]} res0). rewrite Ep, M3, T3. unfold d2. cbn [called att engine_trace].
    rewrite M1, T1, insert_insert_eq, union_empty_r_L. done.
  - destruct H2 as (d3 & -> & _). cbn [negb Z.eqb MXM_ERR_SHM_NOT_FOUND]. by destruct (RollBackAttachShareMemory e n d3).
  - rewrite H2. cbn [negb Z.eqb MXM_ERR_RECORD_ADD]. by destruct (RollBackAttachShareMemory e n d2).
Qed.

(** The fields of the response that describe the memory. *)
Definition describes (rsp : ShmMapResponse) (mem : AttachedShareMemory) : Prop :=
  ShmMapResponse_errCode_ rsp = MXM_OK /\ ShmMapResponse_memIds_ rsp = smr_memIds (asm_result mem) /\
  ShmMapResponse_unitSize_ rsp = smr_unitSize (asm_result mem) /\ ShmMapResponse_flag_ rsp = smr_createFlags (asm_result mem) /\
  ShmMapResponse_oflag_ rsp = smr_openFlag (asm_result mem).

(** The engine attached [n] for a caller that [CheckPermission] accepted. *)
Definition first_mapped (e : Engine) (req : ShmMapRequest) (u : MxmComUdsInfo) (tr : list EngineCall) d' (mem : AttachedShareMemory) : Prop :=
  exists info code, ShmGetUserData e (ShmMapRequest_name_ req) = (0%Z, info) /\
    CheckPermission (uds_uid u) (uds_gid u) info (ShmMapRequest_prot_ req) = (0%Z, smr_openFlag (asm_result mem)) /\
    (code = UBS_SUCCESS \/ code = UBS_ENGINE_ERR_EXISTED) /\
    engine_trace d' = tr ++ [CallAttach (ShmMapRequest_name_ req) code] /\ asm_pids mem = {[s32 (uds_pid u)]}.

Lemma map_new_ok e req rsp u d rsp' d' :
  coherent d -> good_name (ShmMapRequest_name_ req) -> ShmMapResponse_errCode_ rsp = MXM_OK -> map_new e req rsp u d = ((0%Z, rsp'), d') ->
  att d !! ShmMapRequest_name_ req = None /\
  exists mem, att d' = <[ShmMapRequest_name_ req := mem]> (att d) /\ asm_state mem = FINISH /\ describes rsp' mem /\
    first_mapped e req u (engine_trace d) d' mem.
Proof.
  intros C Hg Hc. unfold map_new, bind.
  destruct (ShmMmapInner e (ShmMapRequest_name_ req) (ShmMapRequest_size_ req) (ShmMapRequest_prot_ req) u d) as [[c r] d1] eqn:Ei.
  cbn [fst snd]. destruct (Z.eqb_spec c MXM_OK) as [->|]; cbn [negb]; [|by intros [= ? _]]. intros [= <- <-].
  destruct (ShmMmapInner_ok _ _ _ _ _ _ _ _ C Hg Ei) as (info & code & mem & Eu & Ep & Eo & Hcode & En & Em & Et & ->).
  split; [done|]. eexists. split; [done|]. split; [done|]. split; [done|]. exists info, code. split_and!; try done.
  destruct (CheckPermission _ _ _ _) as [x y]. cbn in *. by rewrite Ep, Eo.
Qed.

Lemma ShmMap_ok e req rsp u d rsp' d' :
  coherent d -> good_name (ShmMapRequest_name_ req) -> ShmMap e req rsp u d = ((0%Z, rsp'), d') ->
  exists mem, att d' !! ShmMapRequest_name_ req = Some mem /\ asm_state mem = FINISH /\ s32 (uds_pid u) ∈ asm_pids mem /\ describes rsp' mem /\
    match att d !! ShmMapRequest_name_ req with
    | Some old => asm_state old = FINISH /\ engine_trace d' = engine_trace d /\ mem = with_pids old ({[s32 (uds_pid u)]} ∪ asm_pids old)
                  \/ asm_state old = DELETED /\ first_mapped e req u (engine_trace d) d' mem
    | None => first_mapped e req u (engine_trace d) d' mem
    end.
Proof.
  intros C Hg. set (n := ShmMapRequest_name_ req) in *. unfold ShmMap, bind at 1, GetDelayRemoveRecord. destruct (existsb _ _); [done|].
  unfold bind at 1, GetShareMemoryInfo, bind at 1, get_attached. fold n. destruct (att d !! n) as [old|] eqn:E; cbn [snd ret].
  - destruct (bool_decide_reflect (asm_state old = FINISH)) as [Hf|Hf].
    + unfold HandleExistingShm. destruct (decide _) as [|Hni]; [done|]. fold n.
      pose proof (AddMemoryUserInfo_spec d n (s32 (uds_pid u)) C (s32_pid _)) as Hs. rewrite E in Hs. unfold bind.
      destruct (decide _); [|by rewrite Hs]. destruct Hs as (d1 & -> & M1 & (_ & _ & T1) & _). cbn [negb Z.eqb MXM_OK]. intros [= <- <-].
      eexists. split; [by rewrite M1, lookup_insert_eq|]. split; [done|]. split; [cbn; set_solver|]. split; [done|]. left. by rewrite T1.
    + destruct (bool_decide_reflect (asm_state old = DELETED)) as [Hd|Hd].
      * pose proof (RemoveMemoryInfo_spec d n true C) as Hr. rewrite E, decide_True in Hr by tauto. destruct Hr as (d1 & Er & [M1 (_ & _ & T1) K1 _]).
        unfold bind. destruct (entry_good _ _ _ C E) as [_ ->]. rewrite Er. cbn [negb Z.eqb MXM_OK]. intros Hm.
        destruct (map_new_ok e req (map_error rsp MXM_OK) u _ _ _ K1 Hg eq_refl Hm) as (_ & mem & Em & Hs & Hdesc & Hfm). exists mem. fold n in Em. rewrite T1 in Hfm.
        split_and!; [by rewrite Em, lookup_insert_eq | done | | done | by right]. destruct Hfm as (? & ? & _ & _ & _ & _ & ->). set_solver.
      * intros Hm. destruct (map_new_ok e req (map_error rsp MXM_OK) u _ _ _ C Hg eq_refl Hm) as (Hnone & _). fold n in Hnone. congruence.
  - intros Hm. destruct (map_new_ok e req (map_error rsp MXM_OK) u _ _ _ C Hg eq_refl Hm) as (_ & mem & Em & Hs & Hdesc & Hfm). exists mem. fold n in Em.
    split_and!; [by rewrite Em, lookup_insert_eq | done | | done | done]. destruct Hfm as (? & ? & _ & _ & _ & _ & ->). set_solver.
Qed.

(** A name that is in the map cannot be attached again. *)
Lemma map_new_busy {S} `{!RecordStoreAPI S} e req rsp u (d : Daemon S) :
  is_Some (att d !! ShmMapRequest_name_ req) -> (map_new e req rsp u d).1.1 <> MXM_OK.
Proof.
  intros [mem E]. unfold map_new, ShmMmapInner, bind, MXM_OK. destruct (ShmGetUserData _ _) as [rt info].
  destruct (Z.eqb_spec rt 0) as [->|Hrt]; cbn [negb Z.eqb fst snd ret]; [|by rewrite (proj2 (Z.eqb_neq _ _) Hrt)].
  destruct (CheckPermission _ _ _ _) as [res oflag]. destruct (Z.eqb_spec res 0) as [->|Hres]; cbn [negb Z.eqb fst snd ret]; [|by rewrite (proj2 (Z.eqb_neq _ _) Hres)].
  unfold PrepareAddShareMemoryInfo, bind, get_attached. by rewrite E.
Qed.

(** The engine's answer to the attach of [n] for [u]: the memory of [desc], with its one import [i]. *)
Record attaches (e : Engine) (n : string) (u : MxmComUdsInfo) (info : ubse_user_info_t) (i : import_desc_t) : Prop := {
  attaches_ready : ready e = true;
  attaches_user : ShmGetUserData e n = (MXM_OK, info);
  attaches_ids : id_memids i <> [];
  attaches_call : exists desc, sd_import desc = [i] /\
    pUbseMemShmAttach e n (mkUserInfo (ui_uid info) (ui_gid info) (s32 (uds_pid u)) (ui_mode info) (ui_flag info) (ui_seqNo info)) = (UBS_SUCCESS, Some desc);
}.

Lemma map_reference_full e req rsp u d info i :
  let n := ShmMapRequest_name_ req in
  coherent d -> good_name n -> att d !! n = None -> no_slots d -> attaches e n u info i ->
  (CheckPermission (uds_uid u) (uds_gid u) info (ShmMapRequest_prot_ req)).1 = MXM_OK ->
  size (a_imports (store_ d)) < SHM_MAX_ATTACH_RECORD -> lines_needed (id_memids i) <= a_lines (store_ d) ->
  exists rsp' d', map_new e req rsp u d = ((MXM_ERR_SHM_NOT_FOUND, rsp'), d') /\
    engine_trace d' = engine_trace d ++ [CallAttach n UBS_SUCCESS] /\
    att d' !! n = Some (mkAttached n (ShmMapRequest_size_ req) PRE_ADD ∅ no_result) /\ a_imports (store_ d') !! n = None.
Proof.
  intros n C Hg E Hs [Hrdy Hu Hids (desc & Hdesc & Hatt)] Hperm Himp Hlines. unfold map_new, ShmMmapInner, bind. fold n. rewrite Hu. cbn [negb Z.eqb MXM_OK].
  destruct (CheckPermission _ _ _ _) as [res oflag]. cbn [fst] in Hperm. subst res. cbn [negb Z.eqb MXM_OK].
  pose proof (PrepareAdd_spec d n (ShmMapRequest_size_ req) (s32 (uds_pid u)) C Hg) as H1. rewrite E, decide_True in H1 by done.
  destruct H1 as (d1 & -> & [M1 (_ & _ & T1) C1 _] & Hs1 & Hl1). cbn [negb Z.eqb MXM_OK].
  unfold ShmAttach, bind, trace. unfold ready in Hrdy. apply andb_prop in Hrdy as [Hi ->]. rewrite Hi, Hatt. cbn [negb Z.eqb UBS_ERR_TIMED_OUT UBS_SUCCESS andb].
  rewrite Hdesc. cbn [fst snd negb Z.eqb MXM_OK ret]. set (d2 := mkDaemon _ _ _ _ (engine_trace d1 ++ _) _). set (res0 := mkShareMemImportResult _ _ _ _ _ _).
  assert (C2 : coherent d2) by (split; apply C1).
  assert (E2 : att d2 !! n = Some (mkAttached n (ShmMapRequest_size_ req) PRE_ADD ∅ no_result)) by (unfold d2; cbn; by rewrite M1, lookup_insert_eq).
  pose proof (AddFull_spec d2 n (s32 (uds_pid u)) res0 _ C2 (s32_pid _) E2) as H2.
  rewrite decide_True in H2 by (split; [done | unfold d2; cbn; by rewrite Hl1]). unfold no_slots in *.
  rewrite decide_False in H2 by (intros [_ Hne]; apply Hne; unfold d2; cbn; by rewrite Hs1).
  destruct H2 as (d3 & -> & M3 & (_ & _ & T3) & K3). destruct (K3 eq_refl) as (_ & Hi3 & _). cbn [negb Z.eqb MXM_ERR_SHM_NOT_FOUND].
  assert (N3 : a_imports (store_ d3) !! n = None) by (by rewrite Hi3, lookup_delete_eq).
  assert (Hu3 : UpdateShareMemoryRecordState n PRE_DEL d3 = (MXM_ERR_RECORD_CHANGE_STATE, d3)).
  { unfold UpdateShareMemoryRecordState, bind, get_attached, call. rewrite M3, E2. cbn [exec AStore_API spec_run]. rewrite N3. by destruct d3. }
  unfold RollBackAttachShareMemory, bind. rewrite Hu3. do 2 eexists. split; [reflexivity|].
  split_and!; [rewrite T3; unfold d2; cbn; by rewrite T1 | by rewrite M3 | done].
Qed.

(** ** Unmapping *)

Lemma detach_coherent e n d : coherent d -> coherent (detach_daemon e n d).
Proof. intros C. unfold detach_daemon. by destruct (ready e). Qed.

Lemma detach_att e n d : att (detach_daemon e n d) = att d.
Proof. unfold detach_daemon. by destruct (ready e). Qed.

(** The engine calls of one detach. *)
Definition detach_calls (e : Engine) (n : string) : list EngineCall := if ready e then [CallDetach n (pUbseMemShmDetach e n)] else [].

Lemma detach_trace e n d : engine_trace (detach_daemon e n d) = engine_trace d ++ detach_calls e n.
Proof. unfold detach_daemon, detach_calls. destruct (ready e); [done | by rewrite app_nil_r]. Qed.

Lemma ShmUnMapInner_spec e n u d mem :
  let p := s32 (uds_pid u) in
  coherent d -> att d !! n = Some mem -> size (asm_pids mem) <= 1 ->
  exists d', coherent d' /\ engine_trace d' = engine_trace d ++ detach_calls e n /\ delayedRemoveKeysByName d' = delayedRemoveKeysByName d /\
    if detach_ok e n then
      if decide (p ∈ asm_pids mem) then ShmUnMapInner e n u d = (MXM_OK, d') /\ att d' = delete n (att d)
      else ShmUnMapInner e n u d = (MXM_ERR_SHM_NOT_FOUND, d') /\ att d' = <[n := with_state mem PRE_DEL]> (att d)
    else ShmUnMapInner e n u d = (detach_code e n, d') /\ att d' = <[n := with_state mem FINISH]> (att d).
Proof.
  intros p C E Hsz. unfold ShmUnMapInner, bind. pose proof (UpdateState_spec d n PRE_DEL C) as H1. rewrite E in H1.
  destruct H1 as (d1 & -> & [M1 Q1 C1 _]). cbn [negb Z.eqb MXM_OK]. rewrite ShmDetach_run. fold MXM_OK. rewrite detach_ok_negb.
  pose proof (detach_coherent e n d1 C1) as C2. pose proof (detach_att e n d1) as A2. pose proof (detach_trace e n d1) as T2.
  assert (B2 : delayedRemoveKeysByName (detach_daemon e n d1) = delayedRemoveKeysByName d1) by (unfold detach_daemon; by destruct (ready e)).
  set (d2 := detach_daemon e n d1) in *. assert (E2 : att d2 !! n = Some (with_state mem PRE_DEL)) by (by rewrite A2, M1, lookup_insert_eq).
  destruct Q1 as (_ & B1 & T1). rewrite B1 in B2. rewrite T1 in T2. destruct (detach_ok e n); cbn [negb].
  - pose proof (RemoveMemoryUserInfo_spec d2 n p C2) as H3. rewrite E2 in H3. cbn [asm_pids with_state] in H3.
    destruct (decide (p ∈ asm_pids mem)) as [Hin|Hni].
    + destruct H3 as (d3 & H3 & [M3 (_ & B3 & T3) C3 _]). unfold p in H3. rewrite H3. cbn [negb Z.eqb MXM_OK].
      assert (Hemp : asm_pids mem ∖ {[p]} = ∅).
      { apply set_eq. intros q. rewrite elem_of_difference, elem_of_singleton. split; [|by intros []%elem_of_empty]. intros [Hq Hne].
        exfalso. apply Hne. apply (size_singleton_inv (asm_pids mem)); [|done|done].
        assert (size (asm_pids mem) <> 0); [|lia]. intros H0%size_empty_inv. set_solver. }
      pose proof (RemoveMemoryInfo_spec d3 n false C3) as H4. rewrite M3, lookup_insert_eq in H4. cbn [asm_pids with_pids with_state] in H4.
      rewrite decide_True in H4 by (left; exact Hemp). destruct H4 as (d4 & -> & [M4 (_ & B4 & T4) C4 _]). cbn [negb Z.eqb MXM_OK].
      exists d4. split_and!; [done | by rewrite T4, T3, T2 | by rewrite B4, B3, B2 | done |].
      by rewrite M4, delete_insert_eq, A2, M1, delete_insert_eq.
    + unfold p in H3. rewrite H3. cbn [negb Z.eqb MXM_ERR_SHM_NOT_FOUND]. exists d2. split_and!; try done. by rewrite A2.
  - pose proof (UpdateState_spec d2 n FINISH C2) as H3. rewrite E2 in H3. destruct H3 as (d3 & -> & [M3 (_ & B3 & T3) C3 _]).
    exists d3. split_and!; [done | by rewrite T3, T2 | by rewrite B3, B2 | done |]. by rewrite M3, A2, M1, insert_insert_eq.
Qed.

Lemma ShmUnmap_spec e n u d mem :
  let p := s32 (uds_pid u) in
  coherent d -> att d !! n = Some mem -> asm_state mem <> DELETED ->
  exists d', coherent d' /\ delayedRemoveKeysByName d' = delayedRemoveKeysByName d /\
    if decide (1 < size (asm_pids mem)) then
      engine_trace d' = engine_trace d /\
      if decide (p ∈ asm_pids mem) then ShmUnmap e n u d = (MXM_OK, d') /\ att d' = <[n := with_pids mem (asm_pids mem ∖ {[p]})]> (att d)
      else ShmUnmap e n u d = (MXM_ERR_SHM_NOT_FOUND, d') /\ att d' = att d
    else
      engine_trace d' = engine_trace d ++ detach_calls e n /\
      if detach_ok e n then
        if decide (p ∈ asm_pids mem) then ShmUnmap e n u d = (MXM_OK, d') /\ att d' = delete n (att d)
        else ShmUnmap e n u d = (MXM_ERR_SHM_NOT_FOUND, d') /\ att d' = <[n := with_state mem PRE_DEL]> (att d)
      else ShmUnmap e n u d = (detach_code e n, d') /\ att d' = <[n := with_state mem FINISH]> (att d).
Proof.
  intros p C E Hd. assert (Hrun : ShmUnmap e n u d = if Nat.ltb 1 (size (asm_pids mem)) then RemoveMemoryUserInfo n p d else ShmUnMapInner e n u d).
  { unfold ShmUnmap, GetShareMemoryInfo, GetMemoryUsersCountByName, bind, get_attached. rewrite E. cbn [snd ret].
    rewrite bool_decide_false, E by done. by destruct (Nat.ltb 1 _). }
  rewrite Hrun. destruct (decide _) as [Hl|Hl].
  - rewrite (proj2 (Nat.ltb_lt _ _)) by done. pose proof (RemoveMemoryUserInfo_spec d n p C) as H. rewrite E in H.
    destruct (decide (p ∈ _)); [destruct H as (d' & -> & [M (_ & B & T) K _]); by exists d' | by exists d].
  - rewrite (proj2 (Nat.ltb_ge _ _)) by lia. destruct (ShmUnMapInner_spec e n u d mem C E) as (d' & K & T & B & H); [lia|].
    exists d'. split_and!; done.
Qed.

(** ** Deletion *)

Lemma ShmDelete_calls e n d : engine_trace (ShmDelete e n d).2 <> engine_trace d -> exists r, engine_trace (ShmDelete e n d).2 = engine_trace d ++ [CallDelete n r].
Proof.
  unfold ShmDelete. destruct (negb _); [done|]. destruct (negb _); [done|]. unfold bind, trace. destruct (negb _); by eexists.
Qed.

Lemma ShmDeleteRequested_calls e n u d :
  engine_trace (ShmDeleteRequested e n u d).2 <> engine_trace d ->
  exists info r, ShmGetUserData e n = (MXM_OK, info) /\ uds_uid u = ui_uid info /\ uds_gid u = ui_gid info /\
    (forall mem, att d !! n = Some mem -> asm_pids mem = ∅) /\
    Forall (fun k => dk_name k <> n) (delayedRemoveKeysByName d) /\
    engine_trace (ShmDeleteRequested e n u d).2 = engine_trace d ++ [CallDelete n r].
Proof.
  unfold ShmDeleteRequested, GetDelayRemoveRecord, bind at 1 3. destruct (existsb _ _) eqn:Eb; [done|].
  unfold ShmPermissionCheck. destruct (ShmGetUserData e n) as [r info]. destruct (Z.eqb_spec r 0) as [->|Hr]; cbn [negb];
    [|by rewrite (proj2 (Z.eqb_neq _ _) Hr)].
  destruct (Z.eqb_spec (uds_uid u) (ui_uid info)) as [Hu|]; [|done]. destruct (Z.eqb_spec (uds_gid u) (ui_gid info)) as [Hg|]; [|done].
  cbn [negb orb Z.eqb MXM_OK]. unfold GetMemoryUsersCountByName, bind, get_attached. cbn [ret].
  destruct (Nat.ltb 0 _) eqn:En; [done|]. intros (r & H)%ShmDelete_calls. exists info, r. split_and!; try done.
  - intros mem E. rewrite E in En. apply Nat.ltb_ge in En. apply leibniz_equiv, size_empty_inv. lia.
  - apply Forall_forall. intros k Hk Hn. enough (existsb (fun k => String.eqb (dk_name k) n) (delayedRemoveKeysByName d) = true) by congruence.
    apply existsb_exists. exists k. split; [by apply list_elem_of_In|]. by apply String.eqb_eq.
Qed.

(** ** Death of a process *)

(** [n] waits for its background removal. *)
Definition scheduled {S} (d : Daemon S) (n : string) : Prop := exists k, k ∈ delayedRemoveKeysByName d /\ dk_name k = n.

Lemma existsb_scheduled d n : existsb (fun k => String.eqb (dk_name k) n) (delayedRemoveKeysByName d) = true <-> scheduled d n.
Proof.
  rewrite existsb_exists. split; intros (k & Hk & E).
  - exists k. by rewrite list_elem_of_In, <- String.eqb_eq.
  - exists k. by rewrite <- list_elem_of_In, String.eqb_eq.
Qed.

Lemma set_insert_elem lt k l x : x ∈ set_insert lt k l -> x = k \/ x ∈ l.
Proof.
  induction l as [|y l IH]; simpl; [by intros ->%list_elem_of_singleton; left|]. destruct (lt k y); [by intros [->|]%elem_of_cons; auto|].
  destruct (lt y k); [|by right]. intros [->|H]%elem_of_cons; [by right; left|]. destruct (IH H); [by left | right; by right].
Qed.

Lemma set_insert_keeps lt k l x : x ∈ l -> x ∈ set_insert lt k l.
Proof.
  induction l as [|y l IH]; simpl; [by intros []%not_elem_of_nil|]. destruct (lt k y); [by right|]. destruct (lt y k); [|done].
  intros [->|H]%elem_of_cons; [by left | right; auto].
Qed.

(** The key is there, or one that the order does not tell from it. *)
Lemma set_insert_in lt k l : exists x, x ∈ set_insert lt k l /\ (x = k \/ lt k x = false /\ lt x k = false).
Proof.
  induction l as [|y l IH]; simpl; [exists k; split; [by apply list_elem_of_singleton | by left]|]. destruct (lt k y) eqn:E1; [exists k; split; [by left | by left]|].
  destruct (lt y k) eqn:E2; [|exists y; split; [by left | by right]]. destruct IH as (x & Hx & Hk). exists x. split; [by right | done].
Qed.

(** What the death of [p] makes of the memory [n] with entry [mem]. *)
Definition left_by (p : Z) (d' : Daemon AStore) (n : string) (mem : AttachedShareMemory) : Prop :=
  if decide (p ∈ asm_pids mem) then
    if decide (1 < size (asm_pids mem)) then att d' !! n = Some (with_pids mem (asm_pids mem ∖ {[p]}))
    else att d' !! n = Some mem /\ scheduled d' n
  else att d' !! n = Some mem.

Lemma leave_spec e p l d :
  coherent d -> NoDup (asm_name <$> l) -> (forall mem, mem ∈ l -> att d !! asm_name mem = Some mem) ->
  exists d', leave_memories e p l d = (MXM_OK, d') /\ coherent d' /\ engine_trace d' = engine_trace d /\
    (forall n, scheduled d n -> scheduled d' n) /\ (forall n, n ∉ asm_name <$> l -> att d' !! n = att d !! n) /\
    (forall mem, mem ∈ l -> left_by p d' (asm_name mem) mem).
Proof.
  revert d. induction l as [|mem l IH]; intros d C Hnd Hin.
  { exists d. split_and!; try done. intros mem []%not_elem_of_nil. }
  rewrite fmap_cons, NoDup_cons in Hnd. destruct Hnd as [Hni Hnd]. set (n := asm_name mem) in *. pose proof (Hin mem ltac:(by left)) as E. fold n in E.
  (* after the step for [mem] the rest is as before *)
  assert (Hstep : forall d1, coherent d1 -> engine_trace d1 = engine_trace d -> (forall n', scheduled d n' -> scheduled d1 n') ->
    (forall n', n' <> n -> att d1 !! n' = att d !! n') ->
    (forall d', att d' !! n = att d1 !! n -> (scheduled d1 n -> scheduled d' n) -> left_by p d' n mem) ->
    exists d', leave_memories e p l d1 = (MXM_OK, d') /\ coherent d' /\ engine_trace d' = engine_trace d /\
      (forall n, scheduled d n -> scheduled d' n) /\ (forall n', n' ∉ n :: (asm_name <$> l) -> att d' !! n' = att d !! n') /\
      (forall mem', mem' ∈ mem :: l -> left_by p d' (asm_name mem') mem')).
  { intros d1 C1 T1 S1 A1 L1. destruct (IH d1 C1 Hnd) as (d' & E' & C' & T' & S' & A' & L').
    - intros mem' Hm. rewrite A1; [apply Hin; by right|]. intros Hn. apply Hni. rewrite <- Hn. apply list_elem_of_fmap. eauto.
    - exists d'. split_and!; [done | done | by rewrite T' | eauto | |].
      + intros n' [Hne Hn']%not_elem_of_cons. by rewrite A', A1.
      + intros mem' [->|Hm]%elem_of_cons; [|by apply L']. fold n. apply L1; [by apply A' | apply S']. }
  cbn [leave_memories]. fold n. destruct (bool_decide_reflect (p ∈ asm_pids mem)) as [Hp|Hp]; cbn [negb].
  - destruct (Nat.ltb_spec 1 (size (asm_pids mem))) as [Hs|Hs].
    + pose proof (RemoveMemoryUserInfo_spec d n p C) as Hr. rewrite E, decide_True in Hr by done. destruct Hr as (d1 & Er & [M1 (_ & B1 & T1) C1 _]).
      unfold bind. rewrite Er. apply Hstep; try done.
      * unfold scheduled. by rewrite B1.
      * intros n' Hne. by rewrite M1, lookup_insert_ne.
      * intros d' Ed' _. unfold left_by. by rewrite !decide_True, Ed', M1, lookup_insert_eq by done.
    + unfold bind, GetDelayRemoveRecord. assert (Hl : forall d1 d', att d1 = att d -> scheduled d1 n -> att d' !! n = att d1 !! n -> (scheduled d1 n -> scheduled d' n) -> left_by p d' n mem).
      { intros d1 d' Ha Hsc Ed' Hs'. unfold left_by. rewrite decide_True, decide_False by (done || lia). rewrite Ed', Ha. split; [done | auto]. }
      destruct (existsb _ _) eqn:Eb.
      * apply Hstep; try done. intros d'. apply Hl; [done | by apply existsb_scheduled].
      * unfold AddDelayRemoveRecord. apply Hstep; try done.
        -- intros n' (k & Hk & Hn). exists k. split; [by apply set_insert_keeps | done].
        -- intros d'. apply Hl; [done|]. cbn. set (k := mkDelay _ _ _ _ _ _ _ _ _ _).
           destruct (set_insert_in DelayKeyIsBusyComparator k (delayedRemoveKeysByName d)) as (x & Hx & Hk). exists x. split; [done|].
           destruct Hk as [->|[H1 H2]]; [done|]. unfold DelayKeyIsBusyComparator in H1, H2. symmetry. by apply (string_lt_total (dk_name k)).
  - apply Hstep; try done. intros d' Ed' _. unfold left_by. by rewrite decide_False, Ed' by done.
Qed.

Lemma dead_spec e p d :
  coherent d -> s32 p = p ->
  exists d', SHMProcessDeadProcess e p d = (MXM_OK, d') /\ coherent d' /\ engine_trace d' = engine_trace d /\
    forall n, match att d !! n with Some mem => left_by p d' n mem | None => att d' !! n = None end.
Proof.
  intros C Hp. unfold SHMProcessDeadProcess, GetMemoryUsersByPid, bind, get_attached. cbn [ret]. rewrite Hp.
  set (f := fun memory => bool_decide (p ∈ asm_pids memory)).
  assert (Hn : forall n mem, att d !! n = Some mem -> asm_name mem = n) by (intros n mem E; by apply (entry_good d n mem C E)).
  assert (Hl : forall mem, mem ∈ List.filter f (map_to_list (att d)).*2 <-> att d !! asm_name mem = Some mem /\ p ∈ asm_pids mem).
  { intros mem. rewrite list_elem_of_In, filter_In, <- list_elem_of_In, list_elem_of_fmap. unfold f. rewrite bool_decide_eq_true. split.
    - intros [([n w] & -> & E%elem_of_map_to_list) ?]. cbn [snd] in *. by rewrite (Hn _ _ E).
    - intros [E ?]. split; [|done]. exists (asm_name mem, mem). by rewrite elem_of_map_to_list. }
  destruct (leave_spec e p (List.filter f (map_to_list (att d)).*2) d C) as (d' & E' & C' & T' & _ & A' & L').
  - assert (Hnd : NoDup (asm_name <$> (map_to_list (att d)).*2)).
    { replace (asm_name <$> (map_to_list (att d)).*2) with (map_to_list (att d)).*1; [apply NoDup_fst_map_to_list|].
      rewrite <- list_fmap_compose. apply list_fmap_ext. intros i [n mem] Hi. symmetry. apply Hn.
      by apply elem_of_map_to_list, list_elem_of_lookup_2 with i. }
    revert Hnd. generalize ((map_to_list (att d)).*2). intros l. induction l as [|x l IH]; [done|]. rewrite fmap_cons, NoDup_cons. intros [H1 H2].
    cbn. destruct (f x); [|by apply IH]. rewrite fmap_cons, NoDup_cons. split; [|by apply IH]. intros Hx. apply H1.
    apply list_elem_of_fmap in Hx as (y & -> & Hy). apply list_elem_of_fmap. exists y. split; [done|].
    rewrite list_elem_of_In, filter_In in Hy. destruct Hy as [Hy _]. by apply list_elem_of_In in Hy.
  - intros mem Hm. by apply Hl.
  - exists d'. split_and!; try done. intros n. destruct (att d !! n) as [mem|] eqn:E.
    + destruct (decide (p ∈ asm_pids mem)) as [Hin|Hni].
      * pose proof (L' mem) as H. rewrite (Hn _ _ E) in H. apply H, Hl. by rewrite (Hn _ _ E).
      * unfold left_by. rewrite decide_False by done. rewrite A'; [done|]. intros (w & -> & [Ew Hw]%Hl)%list_elem_of_fmap. congruence.
    + rewrite A'; [done|]. intros (w & -> & [Ew Hw]%Hl)%list_elem_of_fmap. congruence.
Qed.

(** ** Background removal *)

(** A removed user leaves a free slot. *)
Lemma RemoveMemoryUserInfo_slot d n p d' :
  RemoveMemoryUserInfo n p d = (MXM_OK, d') -> p <> 0%Z /\ ~ no_slots d'.
Proof.
  unfold RemoveMemoryUserInfo, bind, get_attached, call, no_slots. destruct (att d !! n) as [mem|]; [|done]. destruct (decide _); [|done].
  cbn [exec AStore_API spec_run]. destruct (decide _) as [(Hp & _)|]; cbn; intros [= <-]. by cbn.
Qed.

Lemma UpdateState_slots d n st d' : coherent d -> UpdateShareMemoryRecordState n st d = (MXM_OK, d') -> no_slots d' -> no_slots d.
Proof.
  intros C E. pose proof (UpdateState_spec d n st C) as H. destruct (att d !! n) as [mem|]; [|by rewrite H in E].
  destruct H as (d1 & H & [_ _ _ L]). rewrite H in E. injection E as <-. unfold no_slots. lia.
Qed.

Lemma clean_spec e n c q i d mem :
  let p := s32 (ac_pid c) in
  coherent d -> n <> "" -> att d !! n = Some mem -> asm_pids mem = {[p]} ->
  exists d', coherent d' /\ engine_trace d' = engine_trace d ++ detach_calls e n /\
    if detach_ok e n then CleanShareMemoryLeakInner e n c false i q d = (MXM_OK, d') /\ att d' = delete n (att d)
    else CleanShareMemoryLeakInner e n c false i q d = (detach_code e n, d') /\ att d' = <[n := with_state mem FINISH]> (att d).
Proof.
  intros p C Hn E Hp. unfold CleanShareMemoryLeakInner. fold p. rewrite bool_decide_false by done. unfold bind.
  pose proof (RemoveMemoryUserInfo_spec d n p C) as H1. rewrite E, decide_True in H1 by (rewrite Hp; set_solver).
  destruct H1 as (d1 & H1 & [M1 (_ & _ & T1) C1 _]). destruct (RemoveMemoryUserInfo_slot _ _ _ _ H1) as [Hp0 Hs1]. rewrite H1. cbn [negb Z.eqb MXM_OK andb].
  replace (asm_pids mem ∖ {[p]}) with (∅ : gset Z) in M1 by (rewrite Hp; set_solver).
  pose proof (UpdateState_spec d1 n PRE_DEL C1) as H2. rewrite M1, lookup_insert_eq in H2. destruct H2 as (d2 & H2 & [M2 (_ & _ & T2) C2 _]).
  pose proof (UpdateState_slots _ _ _ _ C1 H2) as Hs2. rewrite H2. cbn [negb Z.eqb MXM_OK andb]. rewrite ShmDetach_run. fold MXM_OK. rewrite detach_ok_negb.
  pose proof (detach_coherent e n d2 C2) as C3. pose proof (detach_att e n d2) as A3. pose proof (detach_trace e n d2) as T3.
  assert (Hs3 : no_slots (detach_daemon e n d2) -> no_slots d2) by (unfold detach_daemon; by destruct (ready e)).
  set (d3 := detach_daemon e n d2) in *. rewrite T2, T1 in T3. rewrite M2, insert_insert_eq in A3.
  assert (E3 : att d3 !! n = Some (with_state (with_pids mem ∅) PRE_DEL)) by (by rewrite A3, lookup_insert_eq). destruct (detach_ok e n) eqn:Eok; cbn [negb].
  - pose proof (RemoveMemoryInfo_spec d3 n false C3) as H4. rewrite E3, decide_True in H4 by (by left). destruct H4 as (d4 & -> & [M4 (_ & _ & T4) C4 _]).
    cbn [negb Z.eqb MXM_OK andb]. exists d4. split_and!; [done | by rewrite T4 | done |]. by rewrite M4, A3, delete_insert_eq.
  - pose proof (UpdateState_spec d3 n FINISH C3) as H4. rewrite E3 in H4. destruct H4 as (d4 & H4 & [M4 (_ & _ & T4) C4 _]). rewrite H4.
    pose proof (UpdateState_slots _ _ _ _ C3 H4) as Hs4. pose proof (AddMemoryUserInfo_spec d4 n p C4 (s32_pid _)) as H5.
    rewrite M4, lookup_insert_eq, decide_True in H5 by (split; [done | tauto]). destruct H5 as (d5 & -> & M5 & (_ & _ & T5) & C5).
    exists d5. split_and!; [apply C5; cbn; set_solver | by rewrite T5, T4 | done |].
    rewrite M5, A3, !insert_insert_eq. f_equal. unfold with_pids, with_state. cbn. by rewrite union_empty_r_L, Hp.
Qed.

End Outcomes.
