(* ===== verification/ShmTheorems.v ===== *)
(** What the shared-memory service guarantees.

    The theorems hold for every record store behind [RecordStoreLaws], in
    particular for the one of [record_store.cpp]; the witnesses run them on it. *)

From S2P Require Import Prelude StoreTypes IdPool IdPoolSpec RecordAllocator RecordStore StoreTable StoreInv StoreSteps StoreRestart StoreSpec RegionNodes StoreTheorems MsgPacker MsgBase MsgRequests MsgResponses StoreInterface Daemon ShmManager ShmHandlers DaemonSim ShmCoherence ShmRecovery ShmResults.
Import SHMManager.

(** ** Runs of the service *)

Section Runs.
Context {G : Geometry} {S : Type} `{!RecordStoreAPI S} `{!RecordStoreLaws S}.
Implicit Types (d : Daemon S).
Abbreviation att := attachedShareMemory_.

(** One handler of the service, with any answers of the engine. The names of
    requests pass the length check of the client library, a caller has a
    process id, and the reference table is not full when a memory is mapped. *)
Inductive shm_step : Daemon S -> Daemon S -> Prop :=
  | StepMap d e req rsp u :
      good_name (ShmMapRequest_name_ req) -> s32 (uds_pid u) <> 0%Z -> a_ref_slots (view (store_ d)) <> 0 ->
      shm_step d (ShmMap e req rsp u d).2
  | StepUnmap d e n u : shm_step d (ShmUnmap e n u d).2
  | StepDelete d e n u : shm_step d (ShmDeleteRequested e n u d).2
  | StepDead d e p : shm_step d (SHMProcessDeadProcess e p d).2
  | StepClean d e n c t i q : shm_step d (CleanShareMemoryLeakInner e n c t i q d).2.

(** The store holds exactly what the map of the manager says: one import
    record per entry, with the entry's fields, and one reference per user. *)
Record persisted d : Prop := {
  persisted_entry : forall n mem, att d !! n = Some mem ->
    exists v, v ∈ list_imports (store_ d) /\ smo_name v = n /\ mem = entry_of v (asm_pids mem);
  persisted_record : forall v, v ∈ list_imports (store_ d) -> is_Some (att d !! smo_name v);
  persisted_users : forall n p, get2 (list_refs (store_ d)) n p =
    match att d !! n with
    | Some mem => if decide (p ∈ asm_pids mem) then Some 1%Z else None
    | None => None
    end;
}.

Definition good_daemon d : Prop := valid (store_ d) /\ coherent (model d).

Lemma good_persisted d : good_daemon d -> persisted d.
Proof.
  intros [V [W H]]. cbn [model store_ att] in W, H.
  assert (Hl : forall v, v ∈ list_imports (store_ d) <-> a_imports (view (store_ d)) !! smo_name v = Some v).
  { intros v. rewrite (list_imports_view _ V), list_elem_of_fmap. split.
    - intros ([n w] & -> & Hin%elem_of_map_to_list). cbn [snd]. by destruct (wf_import _ W _ _ Hin) as [-> _].
    - intros E. exists (smo_name v, v). by rewrite elem_of_map_to_list. }
  split.
  - intros n mem E. destruct (agree_lookup _ _ _ _ H E) as (v & Ev & Em & _). destruct (wf_import _ W _ _ Ev) as [Hn _].
    exists v. split_and!; [apply Hl; by rewrite Hn | done | done].
  - intros v Hv%Hl. specialize (H (smo_name v)). unfold agrees in H. rewrite Hv in H. destruct H as (? & -> & _). by eexists.
  - intros n p. rewrite (list_refs_view _ _ _ V). unfold reported. destruct (att d !! n) as [mem|] eqn:E.
    + destruct (agree_lookup _ _ _ _ H E) as (v & _ & _ & Hu). rewrite (Hu p). by destruct (decide (p ∈ _)).
    + pose proof (agree_none _ _ _ H E) as En. destruct (decide (a_count (view (store_ d)) n p = 0)) as [|Hc]; [done|].
      destruct (a_count_import _ _ _ W Hc) as [[v Ev] _]. congruence.
Qed.

Lemma tracks_good {A} (p : M (S := S) A) q d : tracks p q -> good_daemon d -> coherent (q (model d)).2 -> good_daemon (p d).2.
Proof. intros Ht [V C] H. destruct (Ht d V) as [V' E]. split; [done|]. by rewrite E in H. Qed.

Lemma shm_step_good d d' : shm_step d d' -> good_daemon d -> good_daemon d'.
Proof.
  intros [d0 e req rsp u Hg Hp Hs | d0 e n u | d0 e n u | d0 e p | d0 e n c t i q] D;
    (eapply tracks_good; [eauto with tracks | done |]); destruct D as [_ C].
  - by apply keep_ShmMap.
  - by apply keep_ShmUnmap.
  - by apply keep_delete.
  - by apply keep_dead.
  - by apply keep_clean.
Qed.

Lemma shm_steps_good d d' : rtc shm_step d d' -> good_daemon d -> good_daemon d'.
Proof. induction 1; eauto using shm_step_good. Qed.

(** A daemon that has just started on an empty store. *)
Definition fresh (s : S) : Daemon S := mkDaemon ∅ s [] [] [] no_leases.

Lemma fresh_good s : valid s -> a_imports (view s) = ∅ -> good_daemon (fresh s).
Proof.
  intros V E. split; [done|]. split; [by apply valid_wf|]. intros n. unfold agrees. cbn. by rewrite E, lookup_empty.
Qed.

(** After any sequence of map, unmap and delete requests, deaths of
    processes and leak cleanings, with any answers of the engine, the record
    store holds exactly the manager's map: an import record per entry with the
    same size, state and attach result, no other import record, and exactly one
    reference per user. *)
Theorem shm_map_is_persisted s d :
  valid s -> a_imports (view s) = ∅ -> rtc shm_step (fresh s) d -> valid (store_ d) /\ persisted d.
Proof.
  intros V E H. pose proof (shm_steps_good _ _ H (fresh_good _ V E)) as D. split; [apply D | by apply good_persisted].
Qed.

(** The daemon after a restart, before its recovery: the store is opened again, the map is empty. *)
Definition restarted (os : RecordStore.Os) (fd : Z) d : Daemon S := fresh (exec (OpRestart os fd) (store_ d)).2.

(** C37: a daemon that dies at any moment at which its map and its store agree
    and starts again, with system calls that succeed, recovers if the engine
    answers for the memories whose detach was in progress ([shm_recovery_stopped]
    shows that it fails otherwise) and those whose attach was in progress have
    no users: [Recovery] succeeds, makes no change in the
    engine, brings back every finished memory that has users with the same
    size, users and attach result, keeps no memory without users other than
    imports whose attach was in progress, and again agrees with the store. *)
Theorem shm_recovery_restores os fd e d :
  good_daemon d -> op_ok (OpRestart os fd) ->
  (forall n mem, att d !! n = Some mem -> asm_state mem = PRE_DEL -> answered e n) ->
  (forall n mem, att d !! n = Some mem -> asm_state mem = PRE_ADD -> asm_pids mem = ∅) ->
  let d' := (Recovery e (restarted os fd d)).2 in
  (Recovery e (restarted os fd d)).1 = MXM_OK /\ persisted d' /\ engine_trace d' = [] /\
  (forall n mem, att d !! n = Some mem -> asm_state mem = FINISH -> asm_pids mem <> ∅ -> att d' !! n = Some mem) /\
  (forall n mem, att d' !! n = Some mem -> asm_state mem = PRE_ADD \/ asm_pids mem <> ∅).
Proof.
  intros [V C] Hok Hdel Hadd. pose proof (exec_valid _ _ V Hok) as Vr. pose proof (exec_view _ _ V Hok) as Er. cbn [spec_run] in Er.
  injection Er as _ Er. destruct C as [W H]. cbn [model store_ att] in W, H.
  set (ar := view (exec (OpRestart os fd) (store_ d)).2) in *.
  assert (Ei : a_imports ar = a_imports (view (store_ d))) by (by rewrite <- Er).
  assert (Ec : forall n p, a_count ar n p = a_count (view (store_ d)) n p) by (intros; by rewrite <- Er).
  assert (Hr : agree (att d) ar).
  { intros n. specialize (H n). unfold agrees in *. rewrite Ei. destruct (a_imports _ !! n); [|done]. destruct H as (pids & -> & Hu).
    exists pids. split; [done|]. intros p. by rewrite Ec. }
  destruct (Recovery_spec e (att d) (model (restarted os fd d))) as (m' & Em & Cm & Tm & Km & Um).
  - split; [by apply valid_wf | exact Hr].
  - done.
  - intros n v Ev. cbn [model restarted fresh store_] in Ev. fold ar in Ev. specialize (Hr n). unfold agrees in Hr. rewrite Ev in Hr.
    destruct Hr as (pids & E & Hu). assert (smo_name v = n) as Hn by (by apply (wf_import _ (valid_wf _ Vr)) in Ev as [? _]).
    split; rewrite Hn; intros Hst; [by eapply Hdel|]. apply unreferenced_count; [by apply valid_wf|]. intros p.
    cbn [model restarted fresh store_]. fold ar. rewrite (Hu p). specialize (Hadd _ _ E Hst). cbn in Hadd. rewrite Hadd.
    by rewrite decide_False by set_solver.
  - destruct (tracks_Recovery e (restarted os fd d) Vr) as [V' E']. rewrite Em in E'. injection E' as Eret Ed. cbv zeta.
    destruct (Recovery e (restarted os fd d)) as [r d']. cbn [fst snd] in *. subst m'.
    split_and!; [done | by apply good_persisted | exact Tm | exact Km | exact Um].
Qed.

(** One memory can stop the whole recovery: if the daemon dies between the
    detach of a memory and the removal of its user, and the engine does not
    answer for this memory when the daemon starts again, [Recovery] fails. *)
Theorem shm_recovery_stopped os fd e d n mem :
  good_daemon d -> op_ok (OpRestart os fd) -> att d !! n = Some mem -> asm_state mem = PRE_DEL -> asm_pids mem <> ∅ -> ~ answered e n ->
  (Recovery e (restarted os fd d)).1 = MXM_ERR_SHM_NOT_FOUND.
Proof.
  intros [V [W H]] Hok E Hs Hp Ha. pose proof (exec_valid _ _ V Hok) as Vr. pose proof (exec_view _ _ V Hok) as Er. cbn [spec_run] in Er. injection Er as _ Er.
  destruct (tracks_Recovery e (restarted os fd d) Vr) as [_ Ht]. destruct (agree_lookup _ _ _ _ H E) as (v & Ev & Em & Hu). cbn [model store_ att] in *.
  destruct (set_choose_L _ Hp) as [p Hin].
  pose proof (Recovery_unanswered e (model (restarted os fd d)) n v p) as Hr. rewrite Ht in Hr. cbn [fst] in Hr.
  cbn [model restarted fresh store_] in Hr. rewrite <- Er in Hr. apply Hr; try done.
  - rewrite Er. by apply valid_wf.
  - by rewrite Em in Hs.
  - change (a_count (view (store_ d)) n p <> 0). rewrite (Hu p). by rewrite decide_True.
Qed.

(** An import whose attach was in progress and for which the engine gives
    no stage is loaded again as [PRE_ADD] and not scheduled for a background
    removal: nothing but the map changes. *)
Theorem shm_pre_add_kept e v d r stage :
  smo_state v = PRE_ADD -> GetShareMemoryStage e (smo_name v) = (r, stage) -> r <> MXM_OK -> r <> MXM_ERR_SHM_NOT_EXIST ->
  att d !! smo_name v = None ->
  recover_records e [v] d =
    (MXM_OK, mkDaemon (<[smo_name v := recovered v PRE_ADD]> (att d)) (store_ d) (delayedRemoveKeys d) (delayedRemoveKeysByName d) (engine_trace d) (leases_ d)).
Proof.
  intros Hs Hg H0 H1 E. cbn [recover_records]. unfold bind, get_attached. rewrite E. unfold recover_state, RemovePreAddRecord, bind, ret.
  rewrite Hs, (bool_decide_true (PRE_ADD = PRE_ADD)), (bool_decide_false (PRE_ADD = PRE_DEL)), Hg by done.
  rewrite (proj2 (Z.eqb_neq _ _) H1), (proj2 (Z.eqb_neq r 0) H0). done.
Qed.

End Runs.

(** ** Requests *)

(** The permission check of a mapping is exact: it passes if and only if
    the permission bits of the caller's class (owner, group of the owner, or
    others) contain every requested kind of access and allow reading or
    executing. The memory is then opened read-only if the class may read and
    not write, and read-write otherwise. *)
Theorem check_permission_exact caller_uid caller_gid info port :
  let class := granted caller_uid caller_gid info in
  let res := CheckPermission caller_uid caller_gid info port in
  (res.1 = 0%Z <-> (class 2%Z = true \/ class 0%Z = true) /\ (has port PROT_READ = true -> class 2%Z = true) /\
                   (has port PROT_WRITE = true -> class 1%Z = true) /\ (has port PROT_EXEC = true -> class 0%Z = true)) /\
  (res.1 = 0%Z \/ res.1 = MXM_ERR_SHM_PERMISSION_DENIED) /\
  (res.1 = 0%Z -> res.2 = if class 2%Z && negb (class 1%Z) then O_RDONLY else O_RDWR).
Proof.
  cbv zeta. split; [apply CheckPermission_spec|]. split; [|apply CheckPermission_oflag].
  unfold CheckPermission. cbn [fst]. repeat case_match; auto.
Qed.

Section Requests.
Context {G : Geometry} {S : Type} `{!RecordStoreAPI S} `{!RecordStoreLaws S}.
Implicit Types (d : Daemon S).
Abbreviation att := attachedShareMemory_.

(** C39: a map request that succeeds makes the caller a user of a finished
    memory and answers with that memory's ids, unit size and flags. If the
    memory was not attached before, or was found deleted, the mode of
    the memory grants the requested access, and the request calls the engine
    once, to attach the memory; otherwise only the user is added. *)
Theorem shm_map_success e req rsp u d rsp' d' :
  let n := ShmMapRequest_name_ req in
  good_daemon d -> good_name n -> ShmMap e req rsp u d = ((MXM_OK, rsp'), d') ->
  exists mem, att d' !! n = Some mem /\ asm_state mem = FINISH /\ s32 (uds_pid u) ∈ asm_pids mem /\ describes rsp' mem /\
    match att d !! n with
    | Some old => asm_state old = FINISH /\ engine_trace d' = engine_trace d /\ mem = with_pids old ({[s32 (uds_pid u)]} ∪ asm_pids old)
                  \/ asm_state old = DELETED /\ first_mapped e req u (engine_trace d) (model d') mem
    | None => first_mapped e req u (engine_trace d) (model d') mem
    end.
Proof.
  intros n [V C] Hg E. destruct (tracks_ShmMap e req rsp u Hg d V) as [_ H]. rewrite E in H. cbn [fst snd] in H.
  exact (ShmMap_ok _ _ _ _ _ _ _ C Hg H).
Qed.

(** An unmap request of a user. One user of several is removed and the
    engine is not called. The last user's request detaches the memory: when
    the engine did so, or says that it is not attached, the entry, the import
    record and the reference are gone; when it failed, its code is returned
    and the memory stays, finished, with its user. *)
Theorem shm_unmap_by_user e n u d mem :
  let p := s32 (uds_pid u) in
  good_daemon d -> att d !! n = Some mem -> asm_state mem <> DELETED -> p ∈ asm_pids mem ->
  exists d', good_daemon d' /\
    if decide (1 < size (asm_pids mem)) then
      ShmUnmap e n u d = (MXM_OK, d') /\ engine_trace d' = engine_trace d /\ att d' = <[n := with_pids mem (asm_pids mem ∖ {[p]})]> (att d)
    else
      engine_trace d' = engine_trace d ++ detach_calls e n /\
      if detach_ok e n then ShmUnmap e n u d = (MXM_OK, d') /\ att d' = delete n (att d)
      else ShmUnmap e n u d = (detach_code e n, d') /\ att d' = <[n := with_state mem FINISH]> (att d).
Proof.
  intros p [V C] E Hd Hp. destruct (tracks_ShmUnmap e n u d V) as [V' H]. destruct (ShmUnmap e n u d) as [r d1]. cbn [fst snd] in *.
  destruct (ShmUnmap_spec e n u (model d) mem C E Hd) as (dm & Cm & _ & Hs). rewrite H in Hs. fold p in Hs.
  exists d1. destruct (decide (1 < _)); [|destruct (detach_ok e n)]; rewrite ?(decide_True (P := p ∈ _)) in Hs by done;
    [destruct Hs as (T & [= -> <-] & A) | destruct Hs as (T & [= -> <-] & A) | destruct Hs as (T & [= -> <-] & A)]; by split_and!.
Qed.

(** An unmap request of a process that does not use the memory is
    refused, but if at most one process uses the memory it is detached in the
    engine before the refusal: the user stays listed with a memory in the state
    [PRE_DEL], for which every later map request fails. *)
Theorem shm_unmap_by_stranger e n u d mem :
  let p := s32 (uds_pid u) in
  good_daemon d -> att d !! n = Some mem -> asm_state mem <> DELETED -> p ∉ asm_pids mem -> size (asm_pids mem) <= 1 ->
  detach_ok e n = true ->
  exists d', ShmUnmap e n u d = (MXM_ERR_SHM_NOT_FOUND, d') /\ engine_trace d' = engine_trace d ++ detach_calls e n /\
    att d' !! n = Some (with_state mem PRE_DEL) /\
    forall e' req rsp u', ShmMapRequest_name_ req = n -> (ShmMap e' req rsp u' d').1.1 <> MXM_OK.
Proof.
  intros p [V C] E Hd Hp Hsz Hok. destruct (tracks_ShmUnmap e n u d V) as [V' H]. destruct (ShmUnmap e n u d) as [r d1]. cbn [fst snd] in *.
  destruct (ShmUnmap_spec e n u (model d) mem C E Hd) as (dm & Cm & _ & Hs). rewrite H, Hok in Hs. fold p in Hs.
  rewrite !decide_False in Hs by (done || lia). destruct Hs as (T & [= -> <-] & A). exists d1.
  assert (E1 : att d1 !! n = Some (with_state mem PRE_DEL)) by (change (att (model d1) !! n = Some (with_state mem PRE_DEL)); by rewrite A, lookup_insert_eq).
  split_and!; [done | done | done |]. intros e' req rsp u' Hn Hm. destruct (entry_good (model d1) n _ Cm E1) as [Hg _].
  destruct (ShmMap e' req rsp u' d1) as [[c rsp'] d2] eqn:Em. cbn [fst] in Hm. subst c.
  destruct (tracks_ShmMap e' req rsp u' ltac:(by rewrite Hn) d1 V') as [_ Ht]. rewrite Em in Ht. cbn [fst snd] in Ht.
  destruct (ShmMap_ok _ _ _ _ _ _ _ Cm ltac:(by rewrite Hn) Ht) as (mem' & _ & _ & _ & _ & Hc). rewrite Hn in Hc.
  change (att (model d1) !! n) with (att d1 !! n) in Hc. rewrite E1 in Hc. by destruct Hc as [[? _]|[? _]].
Qed.

(** A memory that one process has mapped is mapped for any other process
    without a look at its mode: the request succeeds with any answers of the
    engine, even when the caller's class has no permission. *)
Theorem shm_map_existing_unchecked e req rsp u d mem info :
  let n := ShmMapRequest_name_ req in let p := s32 (uds_pid u) in
  good_daemon d -> att d !! n = Some mem -> asm_state mem = FINISH -> ~ scheduled d n -> p ∉ asm_pids mem -> p <> 0%Z ->
  a_ref_slots (view (store_ d)) <> 0 ->
  ShmGetUserData e n = (MXM_OK, info) ->
  (CheckPermission (uds_uid u) (uds_gid u) info (ShmMapRequest_prot_ req)).1 = MXM_ERR_SHM_PERMISSION_DENIED ->
  (ShmMap e req rsp u d).1.1 = MXM_OK /\
  att (ShmMap e req rsp u d).2 !! n = Some (with_pids mem ({[p]} ∪ asm_pids mem)).
Proof.
  intros n p [V C] E Hf Hns Hp Hp0 Hs _ _. destruct (entry_good (model d) n mem C E) as [Hg _].
  destruct (tracks_ShmMap e req rsp u Hg d V) as [_ H]. destruct (ShmMap e req rsp u d) as [[c rsp'] d']. cbn [fst snd] in *.
  enough (Hr : exists rsp'' dm, ShmMap e req rsp u (model d) = ((MXM_OK, rsp''), dm) /\ att dm !! n = Some (with_pids mem ({[p]} ∪ asm_pids mem))).
  { destruct Hr as (rsp'' & dm & Hr & Ha). rewrite H in Hr. by injection Hr as -> -> <-. }
  unfold ShmMap, bind at 1, GetDelayRemoveRecord. fold n.
  destruct (existsb _ _) eqn:Eb; [exfalso; apply Hns; by apply (existsb_scheduled (model d))|].
  unfold bind at 1, GetShareMemoryInfo, bind at 1, get_attached. change (att (model d) !! n) with (att d !! n). rewrite E. cbn [snd ret].
  rewrite bool_decide_true by done. unfold HandleExistingShm. fold p n. rewrite decide_False by done.
  pose proof (AddMemoryUserInfo_spec (model d) n p C (s32_pid _)) as Ha. change (att (model d) !! n) with (att d !! n) in Ha.
  rewrite E, decide_True in Ha by done. destruct Ha as (d1 & Ha & M1 & _). unfold bind. rewrite Ha. cbn [negb Z.eqb MXM_OK].
  do 2 eexists. split; [reflexivity|]. by rewrite M1, lookup_insert_eq.
Qed.

(** When the reference table of the store is full, the first mapping of a
    memory fails after the engine attached it and leaves it behind: the memory
    is not detached, its import record is deleted, and its entry stays in the
    map as [PRE_ADD], so that the map no longer agrees with the store and every
    later map request for the name fails. *)
Theorem shm_map_reference_table_full e req rsp u d info i :
  let n := ShmMapRequest_name_ req in
  good_daemon d -> good_name n -> att d !! n = None -> ~ scheduled d n -> a_ref_slots (view (store_ d)) = 0 -> attaches e n u info i ->
  (CheckPermission (uds_uid u) (uds_gid u) info (ShmMapRequest_prot_ req)).1 = MXM_OK ->
  length (list_imports (store_ d)) < SHM_MAX_ATTACH_RECORD -> lines_needed (id_memids i) <= a_lines (view (store_ d)) ->
  let d' := (ShmMap e req rsp u d).2 in
  (ShmMap e req rsp u d).1.1 = MXM_ERR_SHM_NOT_FOUND /\ engine_trace d' = engine_trace d ++ [CallAttach n UBS_SUCCESS] /\
  att d' !! n = Some (mkAttached n (ShmMapRequest_size_ req) PRE_ADD ∅ no_result) /\ ~ persisted d' /\
  forall e' req' rsp' u', ShmMapRequest_name_ req' = n -> (ShmMap e' req' rsp' u' d').1.1 <> MXM_OK.
Proof.
  intros n [V C] Hg E Hns Hs Hatt Hperm Himp Hlines. cbv zeta. destruct (tracks_ShmMap e req rsp u Hg d V) as [V' H].
  destruct (ShmMap e req rsp u d) as [[c rsp1] d']. cbn [fst snd] in *.
  assert (Hsz : size (a_imports (store_ (model d))) < SHM_MAX_ATTACH_RECORD).
  { rewrite (list_imports_view _ V), length_fmap, length_map_to_list in Himp. exact Himp. }
  destruct (map_reference_full e req (map_error rsp MXM_OK) u (model d) info i C Hg E Hs Hatt Hperm Hsz Hlines) as (rsp2 & dm & Em & Tm & Am & Im).
  assert (Hm : ShmMap e req rsp u (model d) = map_new e req (map_error rsp MXM_OK) u (model d)).
  { unfold ShmMap, bind at 1, GetDelayRemoveRecord. fold n.
    destruct (existsb _ _) eqn:Eb; [exfalso; apply Hns; by apply (existsb_scheduled (model d))|].
    unfold bind at 1, GetShareMemoryInfo, bind at 1, get_attached. change (att (model d) !! n) with (att d !! n). by rewrite E. }
  rewrite Hm, Em in H. injection H as <- <- ->. fold n in Am, Tm, Im. change (att d' !! n = Some (mkAttached n (ShmMapRequest_size_ req) PRE_ADD ∅ no_result)) in Am. split_and!; [done | done | done | |].
  - intros [Hp _ _]. destruct (Hp _ _ Am) as (v & Hv & Hn & _). rewrite (list_imports_view _ V') in Hv.
    apply list_elem_of_fmap in Hv as ([n' w] & -> & Hin%elem_of_map_to_list). cbn [snd] in Hn.
    destruct (wf_import _ (valid_wf _ V') _ _ Hin) as [Hw _]. rewrite Hn in Hw. subst n'. change (a_imports (view (store_ d')) !! n = None) in Im. congruence.
  - intros e' req' rsp' u' Hn. unfold ShmMap, bind at 1, GetDelayRemoveRecord. destruct (existsb _ _); [done|].
    unfold bind at 1, GetShareMemoryInfo, bind at 1, get_attached. rewrite Hn, Am. cbn [snd ret].
    rewrite !bool_decide_false by done. apply map_new_busy. rewrite Hn, Am. by eexists.
Qed.

(** A delete request reaches the engine only for the owner of the memory
    (user and group), only when no process of this node uses the memory and
    no background removal of its name is pending; it is then the only call. *)
Theorem shm_delete_guarded e n u d :
  engine_trace (ShmDeleteRequested e n u d).2 <> engine_trace d -> valid (store_ d) ->
  exists info r, ShmGetUserData e n = (MXM_OK, info) /\ uds_uid u = ui_uid info /\ uds_gid u = ui_gid info /\
    (forall mem, att d !! n = Some mem -> asm_pids mem = ∅) /\ ~ scheduled d n /\
    engine_trace (ShmDeleteRequested e n u d).2 = engine_trace d ++ [CallDelete n r].
Proof.
  intros H V. destruct (tracks_ShmDeleteRequested e n u d V) as [_ Ht]. pose proof (ShmDeleteRequested_calls e n u (model d)) as Hc.
  rewrite Ht in Hc. cbn [snd] in Hc. destruct (Hc H) as (info & r & ? & ? & ? & ? & Hf & ?). exists info, r. split_and!; try done.
  intros (k & Hk & Hn). by apply (proj1 (Forall_forall _ _) Hf k Hk).
Qed.

(** ** Processes that die *)

(** When a process dies it is removed from every memory that others use as
    well, every memory that it alone uses waits for its background removal,
    all other memories are untouched and the engine is not called. *)
Theorem shm_dead_process e p d :
  good_daemon d -> s32 p = p ->
  exists d', SHMProcessDeadProcess e p d = (MXM_OK, d') /\ good_daemon d' /\ engine_trace d' = engine_trace d /\
    forall n, match att d !! n with Some mem => left_by p (model d') n mem | None => att d' !! n = None end.
Proof.
  intros [V C] Hp. destruct (tracks_DeadProcess e p d V) as [V' H]. destruct (SHMProcessDeadProcess e p d) as [r d']. cbn [fst snd] in *.
  destruct (dead_spec e p (model d) C Hp) as (dm & Ed & Cm & T & K). rewrite H in Ed. injection Ed as -> <-. by exists d'.
Qed.

(** The background removal of a memory whose only user is dead detaches it
    once: when the engine did so, or says that it is not attached, the entry
    and its records are gone; when it failed, its code is returned and the
    memory is again finished with the dead user, so that the removal can be
    tried again. *)
Theorem shm_leak_cleaned e n c i q d mem :
  good_daemon d -> n <> "" -> att d !! n = Some mem -> asm_pids mem = {[s32 (ac_pid c)]} ->
  exists d', good_daemon d' /\ engine_trace d' = engine_trace d ++ detach_calls e n /\
    if detach_ok e n then CleanShareMemoryLeakInner e n c false i q d = (MXM_OK, d') /\ att d' = delete n (att d)
    else CleanShareMemoryLeakInner e n c false i q d = (detach_code e n, d') /\ att d' = <[n := with_state mem FINISH]> (att d).
Proof.
  intros [V C] Hn E Hp. destruct (tracks_CleanLeak e n c false i q d V) as [V' H].
  destruct (CleanShareMemoryLeakInner e n c false i q d) as [r d']. cbn [fst snd] in *.
  destruct (clean_spec e n c q i (model d) mem C Hn E Hp) as (dm & Cm & T & K). rewrite H in K. exists d'.
  destruct (detach_ok e n); destruct K as ([= -> <-] & A); by split_and!.
Qed.

End Requests.

(** ** Witnesses *)

Section Witnesses.
#[local] Existing Instance small_geometry.
Abbreviation att := attachedShareMemory_.
Abbreviation D := (Daemon RecordStore.state).

(** An engine that knows one shared memory, of user 1000 with mode 0600. *)
Definition demo_owner : ubse_user_info_t := mkUserInfo 1000 1000 0 384 0 0.

Definition demo_desc : ubs_mem_shm_desc_t := mkShmDesc 4096 4096 2 UBSE_EXIST [mkImportDesc 1 UBSE_EXIST [21]%Z] demo_owner.

Definition demo_engine : Engine :=
  mkEngine 0 0 true (0, 1)%Z (fun _ => (0%Z, Some demo_desc)) (fun _ _ => (0%Z, Some demo_desc)) (fun _ => 0%Z) (fun _ => 0%Z).

(** One that has no answer. *)
Definition silent_engine : Engine := mkEngine 0 0 true (1, 0)%Z (fun _ => (1%Z, None)) (fun _ _ => (1%Z, None)) (fun _ => 1%Z) (fun _ => 1%Z).

Definition demo_req (n : string) : ShmMapRequest := mkShmMapRequest (mkMsgBase 0 0 0) "" n 4096 0 3.

Definition demo_rsp : ShmMapResponse := mkShmMapResponse (mkMsgBase 0 0 0) 0 [] 0 0 0 0.

Definition owner (pid : Z) : MxmComUdsInfo := mkUds pid 1000 1000.

Definition other (pid : Z) : MxmComUdsInfo := mkUds pid 2000 2000.

Definition demo0 : D := fresh (started demo_os 3).

Definition demo_map (n : string) (u : MxmComUdsInfo) (d : D) : D := (ShmMap demo_engine (demo_req n) demo_rsp u d).2.

(** "m" is mapped by process 7; by 7 and 8; by four processes, which fill the reference table. *)
Definition demo1 : D := demo_map "m" (owner 7) demo0.

Definition demo2 : D := demo_map "m" (owner 8) demo1.

Definition demo4 : D := demo_map "m" (owner 10) (demo_map "m" (owner 9) demo2).

Definition demo_entry (pids : gset Z) : AttachedShareMemory :=
  mkAttached "m" 4096 FINISH pids (mkShareMemImportResult [21]%Z 4096 0 2 1000 1000).

Lemma demo0_good : good_daemon demo0.
Proof. apply fresh_good; [by apply started_valid, demo_restart | vm_compute; reflexivity]. Qed.

Lemma demo_map_good n u d :
  good_daemon d -> good_name n -> s32 (uds_pid u) <> 0%Z -> a_ref_slots (view (store_ d)) <> 0 -> good_daemon (demo_map n u d).
Proof. intros D Hg Hp Hs. eapply shm_step_good; [|exact D]. by apply StepMap. Qed.

Ltac demo_steps :=
  repeat match goal with
    | |- good_daemon demo0 => apply demo0_good
    | |- good_daemon (demo_map _ _ _) => apply demo_map_good
    | |- good_name _ => apply good_name_demo; reflexivity
    | |- _ <> _ => vm_compute; discriminate
    end.

Lemma demo1_good : good_daemon demo1.
Proof. unfold demo1. demo_steps. Qed.

Lemma demo2_good : good_daemon demo2.
Proof. unfold demo2, demo1. demo_steps. Qed.

Lemma demo4_good : good_daemon demo4.
Proof. unfold demo4, demo2, demo1. demo_steps. Qed.

Lemma demo1_entry : att demo1 = {["m" := demo_entry {[7%Z]}]}.
Proof. vm_compute. reflexivity. Qed.

Lemma demo2_entry : att demo2 = {["m" := demo_entry {[7%Z; 8%Z]}]}.
Proof. vm_compute. reflexivity. Qed.

(** Intermediate states in which the daemon may die: "k" is being attached; "m" is being detached. *)
Definition demo_attaching : D := (PrepareAddShareMemoryInfo "k" 4096 8 demo1).2.

Definition demo_detaching : D := (UpdateShareMemoryRecordState "m" PRE_DEL demo1).2.

Lemma demo_attaching_good : good_daemon demo_attaching.
Proof.
  assert (Hg : good_name "k") by (by apply good_name_demo).
  apply (tracks_good _ _ _ (tracks_PrepareAdd "k" 4096 8 Hg) demo1_good). apply keep_prepare; [apply demo1_good | exact Hg].
Qed.

Lemma demo_detaching_good : good_daemon demo_detaching.
Proof.
  apply (tracks_good _ _ _ (tracks_UpdateState "m" PRE_DEL) demo1_good). apply (keep_state (model demo1) "m" PRE_DEL 0), demo1_good.
Qed.

Lemma shm_map_is_persisted_witness : rtc shm_step demo0 demo2 /\ valid (store_ demo2) /\ persisted demo2.
Proof.
  assert (H : rtc shm_step demo0 demo2).
  { apply rtc_l with demo1; [|apply rtc_once]; apply StepMap; first [apply good_name_demo; reflexivity | vm_compute; discriminate]. }
  split; [exact H|]. refine (shm_map_is_persisted (started demo_os 3) demo2 _ _ H); [by apply started_valid, demo_restart | vm_compute; reflexivity].
Defined.

Lemma shm_recovery_restores_witness :
  att (Recovery demo_engine (restarted demo_os 4 demo_attaching)).2 !! "m" = Some (demo_entry {[7%Z]}) /\
  persisted (Recovery demo_engine (restarted demo_os 4 demo_attaching)).2.
Proof.
  destruct (shm_recovery_restores demo_os 4 demo_engine demo_attaching) as (_ & Hp & _ & Hk & _).
  - apply demo_attaching_good.
  - done.
  - intros n mem _ _. by left.
  - apply (bool_decide_unpack (map_Forall (fun _ mem => asm_state mem = PRE_ADD -> asm_pids mem = ∅) (att demo_attaching))). vm_compute. exact I.
  - split; [|exact Hp]. apply Hk; [vm_compute; reflexivity | done | done].
Defined.

Lemma shm_recovery_stopped_witness : (Recovery silent_engine (restarted demo_os 4 demo_detaching)).1 = MXM_ERR_SHM_NOT_FOUND.
Proof.
  apply (shm_recovery_stopped demo_os 4 silent_engine demo_detaching "m" (with_state (demo_entry {[7%Z]}) PRE_DEL)).
  - apply demo_detaching_good.
  - done.
  - vm_compute. reflexivity.
  - done.
  - done.
  - intros [H|H]; discriminate H.
Defined.

Lemma shm_pre_add_kept_witness :
  delayedRemoveKeysByName (recover_records silent_engine [pending_import (mkShareMemImportInput "k" 4096 8)] demo0).2 = [].
Proof.
  rewrite (shm_pre_add_kept silent_engine (pending_import (mkShareMemImportInput "k" 4096 8)) demo0 MXM_ERR_UBSE_INNER UBSE_END eq_refl eq_refl);
    [reflexivity | done | done | reflexivity].
Defined.

Lemma shm_map_success_witness :
  exists mem, att demo1 !! "m" = Some mem /\ s32 7 ∈ asm_pids mem /\ engine_trace demo1 = [CallAttach "m" 0].
Proof.
  assert (E : ShmMap demo_engine (demo_req "m") demo_rsp (owner 7) demo0 = ((MXM_OK, mkShmMapResponse (mkMsgBase 0 0 0) 0 [21]%Z 4096 4096 0 2), demo1))
    by (vm_compute; reflexivity).
  destruct (shm_map_success demo_engine (demo_req "m") demo_rsp (owner 7) demo0 _ _ demo0_good (good_name_demo "m" eq_refl) E)
    as (mem & Em & _ & Hp & _).
  exists mem. split_and!; [exact Em | exact Hp | vm_compute; reflexivity].
Defined.

Lemma shm_unmap_by_user_witness :
  exists d', good_daemon d' /\ ShmUnmap demo_engine "m" (owner 7) demo1 = (MXM_OK, d') /\ att d' = delete "m" (att demo1) /\
    engine_trace d' = [CallAttach "m" 0; CallDetach "m" 0].
Proof.
  destruct (shm_unmap_by_user demo_engine "m" (owner 7) demo1 (demo_entry {[7%Z]}) demo1_good) as (d' & Hg & H).
  - vm_compute. reflexivity.
  - done.
  - apply (bool_decide_unpack (s32 (uds_pid (owner 7)) ∈ asm_pids (demo_entry {[7%Z]}))). vm_compute. exact I.
  - exists d'. split; [exact Hg|]. destruct H as (T & E & A). split_and!; [exact E | exact A | rewrite T; vm_compute; reflexivity].
Defined.

Lemma shm_unmap_by_stranger_witness :
  exists d', ShmUnmap demo_engine "m" (other 9) demo1 = (MXM_ERR_SHM_NOT_FOUND, d') /\
    engine_trace d' = [CallAttach "m" 0; CallDetach "m" 0] /\ att d' !! "m" = Some (with_state (demo_entry {[7%Z]}) PRE_DEL).
Proof.
  destruct (shm_unmap_by_stranger demo_engine "m" (other 9) demo1 (demo_entry {[7%Z]}) demo1_good) as (d' & E & T & A & _).
  - vm_compute. reflexivity.
  - done.
  - apply (bool_decide_unpack (s32 (uds_pid (other 9)) ∉ asm_pids (demo_entry {[7%Z]}))). vm_compute. exact I.
  - vm_compute. lia.
  - reflexivity.
  - exists d'. split_and!; [exact E | rewrite T; vm_compute; reflexivity | exact A].
Defined.

Lemma shm_map_existing_unchecked_witness :
  (CheckPermission 2000 2000 demo_owner 3).1 = MXM_ERR_SHM_PERMISSION_DENIED /\
  (ShmMap demo_engine (demo_req "m") demo_rsp (other 9) demo1).1.1 = MXM_OK.
Proof.
  split; [reflexivity|].
  refine (proj1 (shm_map_existing_unchecked demo_engine (demo_req "m") demo_rsp (other 9) demo1 (demo_entry {[7%Z]}) demo_owner
                   demo1_good _ _ _ _ _ _ _ _)).
  - vm_compute. reflexivity.
  - done.
  - intros (k & Hk & _). vm_compute in Hk. by apply not_elem_of_nil in Hk.
  - apply (bool_decide_unpack (s32 (uds_pid (other 9)) ∉ asm_pids (demo_entry {[7%Z]}))). vm_compute. exact I.
  - done.
  - vm_compute. discriminate.
  - reflexivity.
  - reflexivity.
Defined.

Lemma shm_map_reference_table_full_witness :
  (ShmMap demo_engine (demo_req "k") demo_rsp (owner 7) demo4).1.1 = MXM_ERR_SHM_NOT_FOUND /\
  ~ persisted (ShmMap demo_engine (demo_req "k") demo_rsp (owner 7) demo4).2.
Proof.
  destruct (shm_map_reference_table_full demo_engine (demo_req "k") demo_rsp (owner 7) demo4 demo_owner (mkImportDesc 1 UBSE_EXIST [21]%Z))
    as (Hr & _ & _ & Hp & _).
  - apply demo4_good.
  - by apply good_name_demo.
  - vm_compute. reflexivity.
  - intros (k & Hk & _). vm_compute in Hk. by apply not_elem_of_nil in Hk.
  - vm_compute. reflexivity.
  - split; [reflexivity | reflexivity | done | exists demo_desc; split; reflexivity].
  - reflexivity.
  - vm_compute. lia.
  - vm_compute. lia.
  - split; [exact Hr | exact Hp].
Defined.

Lemma shm_delete_guarded_witness :
  exists info r, uds_uid (owner 7) = ui_uid info /\
    engine_trace (ShmDeleteRequested demo_engine "m" (owner 7) demo0).2 = engine_trace demo0 ++ [CallDelete "m" r].
Proof.
  destruct (shm_delete_guarded demo_engine "m" (owner 7) demo0) as (info & r & _ & Hu & _ & _ & _ & T).
  - vm_compute. discriminate.
  - exact (proj1 demo0_good).
  - exists info, r. split; [exact Hu | exact T].
Defined.

Lemma shm_dead_process_witness :
  exists d', SHMProcessDeadProcess demo_engine 7 demo2 = (MXM_OK, d') /\ att d' !! "m" = Some (demo_entry {[8%Z]}).
Proof.
  destruct (shm_dead_process demo_engine 7 demo2 demo2_good eq_refl) as (d' & E & _ & _ & H). exists d'. split; [exact E|].
  specialize (H "m"). rewrite demo2_entry, lookup_singleton_eq in H. unfold left_by in H.
  rewrite (decide_True (P := 7%Z ∈ _)), (decide_True (P := 1 < _)) in H
    by first [apply (bool_decide_unpack (7%Z ∈ asm_pids (demo_entry {[7%Z; 8%Z]}))); vm_compute; exact I | vm_compute; lia].
  cbn [model att] in H. rewrite H. vm_compute. reflexivity.
Defined.

Lemma shm_leak_cleaned_witness :
  exists d', CleanShareMemoryLeakInner demo_engine "m" (mkAppContext 7 1000 1000) false false 0 demo1 = (MXM_OK, d') /\ att d' = delete "m" (att demo1).
Proof.
  destruct (shm_leak_cleaned demo_engine "m" (mkAppContext 7 1000 1000) false 0 demo1 (demo_entry {[7%Z]}) demo1_good) as (d' & _ & _ & H).
  - done.
  - vm_compute. reflexivity.
  - reflexivity.
  - exists d'. assert (Ho : detach_ok demo_engine "m" = true) by reflexivity. rewrite Ho in H. destruct H as [E A]. by split.
Defined.

End Witnesses.
