(* ===== verification/LeaseEngine.v ===== *)
(** The adapter's calls for leases: [LeaseMalloc], [LeaseMallocWithLoc],
    [LeaseFree], [FdPermissionChange] and the stage queries of
    [src/src/under_api/ubse/ubse_mem_adapter.cpp], over the engine's answers. *)

From S2P Require Import Prelude StoreTypes IdPool IdPoolSpec RecordAllocator RecordStore StoreTable StoreInv StoreSteps StoreRestart StoreSpec RegionNodes StoreTheorems StoreInterface Daemon.

Definition MXM_ERR_LEASE_NOT_FOUND : Z := 700.
Definition MXM_ERR_LEASE_NOT_EXIST : Z := 701.
Definition UBS_ENGINE_ERR_UNIMPORT_SUCCESS : Z := 1012.

Definition u8 (z : Z) : Z := (z mod 2 ^ 8)%Z.

(** What the engine says of borrowed memory: as a file descriptor per memory id, or as a NUMA node. *)
Record ubs_mem_fd_desc_t := mkFdDesc { fd_memids : list Z; fd_unit_size : Z; fd_export_slot : Z; fd_mem_stage : ubs_mem_stage }.

Record ubs_mem_numa_desc_t := mkNumaDesc { nd_numaid : Z; nd_export_slot : Z; nd_mem_stage : ubs_mem_stage }.

Record LeaseMallocParam := mkMallocParam {
  mp_name : string;
  mp_regionName : string;
  mp_size : Z;
  mp_isNuma : bool;
  mp_appContext : AppContext;
}.

Record LeaseMallocWithLocParam := mkMallocLocParam {
  ml_name : string;
  ml_size : Z;
  ml_isNuma : bool;
  ml_appContext : AppContext;
  ml_slotId : Z;
  ml_socketId : Z;
  ml_numaId : Z;
  ml_portId : Z;
}.

(** The answers of the engine to the calls for leases, what the region service
    says of a region, the name that the clock and the thread id give a new
    lease, and the daemon's own user, group and process. *)
Record LeaseEngine := mkLeaseEngine {
  le_base :> Engine;
  GetRegionInfo : string -> Z * list Z;
  le_new_name : Z -> string;
  le_self : AppContext;
  pUbseMemNumaCreateWithCandidate : string -> Z -> list Z -> Z * ubs_mem_numa_desc_t;
  pUbseMemFdCreateWithCandidate : string -> Z -> AppContext -> list Z -> Z * ubs_mem_fd_desc_t;
  pUbseMemNumaCreateWithLender : string -> ubs_mem_lender_t -> Z * ubs_mem_numa_desc_t;
  pUbseMemFdCreateWithLender : string -> AppContext -> ubs_mem_lender_t -> Z * ubs_mem_fd_desc_t;
  pUbseMemFdPermission : string -> AppContext -> Z;
  pUbseMemFdDelete : string -> Z;
  pUbseMemNumaDelete : string -> Z;
  pUbseMemFdGet : string -> Z * ubs_mem_fd_desc_t;
  pUbseMemNumaGet : string -> Z * ubs_mem_numa_desc_t;
}.

Section Adapter.
Context {S : Type}.

(** A value-initialised result. *)
Definition empty_result : LeaseMallocResult := mkLeaseMallocResult [] 0 0 0.

(** The return code of a failed creation. *)
Definition create_error (hr : Z) : Z := if Z.eqb hr UBS_ERR_NOT_SUPPORTED then MXM_ERR_UBSE_NOT_SUPPORTED else MXM_ERR_UBSE_INNER.

(** What both allocation calls do with the engine's code: a failure is
    converted, a timeout is remembered for a background removal. *)
Definition created (e : LeaseEngine) (name : string) (ctx : AppContext) (isNuma : bool) (hr : Z) (result : LeaseMallocResult)
  : M (S := S) (Z * LeaseMallocResult) :=
  trace (CallLend name isNuma hr) ;;
  if negb (Z.eqb hr UBS_SUCCESS) && negb (Z.eqb hr UBS_ERR_TIMED_OUT) then ret (create_error hr, empty_result)
  else if Z.eqb hr UBS_ERR_TIMED_OUT then
    AddDelayRemoveRecord (mkDelay true 0 (eng_now e + ONE_MINUTE_MS) name ctx false isNuma true false 0) ;;
    ret (UBS_ERR_TIMED_OUT, empty_result)
  else ret (hr, result).

Definition numa_result (d : ubs_mem_numa_desc_t) : LeaseMallocResult := mkLeaseMallocResult [0%Z] (nd_numaid d) 0 (nd_export_slot d).

Definition fd_result (d : ubs_mem_fd_desc_t) : LeaseMallocResult :=
  mkLeaseMallocResult (fd_memids d) (-1) (fd_unit_size d) (fd_export_slot d).

Definition LeaseMalloc (e : LeaseEngine) (param : LeaseMallocParam) : M (S := S) (Z * LeaseMallocResult) :=
  if negb (Z.eqb (eng_Initialize e) 0) then ret (eng_Initialize e, empty_result)
  else
    let '(hr, slotIds) := GetRegionInfo e (mp_regionName param) in
    if negb (Z.eqb hr 0) then ret (hr, empty_result)
    else if negb (Z.eqb (pUbseNodeLocalGet e).1 0) then ret (MXM_ERR_UBSE_INNER, empty_result)
    else if mp_isNuma param then
      let '(hr, numaDesc) := pUbseMemNumaCreateWithCandidate e (mp_name param) (mp_size param) slotIds in
      created e (mp_name param) (mp_appContext param) true hr (numa_result numaDesc)
    else if negb (eng_loaded e) then ret (MXM_ERR_UBSE_INNER, empty_result)
    else
      let '(hr, fdDesc) := pUbseMemFdCreateWithCandidate e (mp_name param) (mp_size param) (mp_appContext param) slotIds in
      created e (mp_name param) (mp_appContext param) false hr (fd_result fdDesc).

Definition LeaseMallocWithLoc (e : LeaseEngine) (param : LeaseMallocWithLocParam) : M (S := S) (Z * LeaseMallocResult) :=
  if negb (Z.eqb (eng_Initialize e) 0) then ret (eng_Initialize e, empty_result)
  else
    let lender := mkLender (ml_slotId param) (ml_socketId param) (ml_numaId param) (ml_portId param) (ml_size param) in
    if ml_isNuma param then
      let '(hr, numaDesc) := pUbseMemNumaCreateWithLender e (ml_name param) lender in
      created e (ml_name param) (ml_appContext param) true hr (numa_result numaDesc)
    else if negb (eng_loaded e) then ret (MXM_ERR_UBSE_INNER, empty_result)
    else
      let '(hr, fdDesc) := pUbseMemFdCreateWithLender e (ml_name param) (ml_appContext param) lender in
      created e (ml_name param) (ml_appContext param) false hr (fd_result fdDesc).

(** The mode is always read and write for the owner. *)
Definition FdPermissionChange (e : LeaseEngine) (name : string) (appContext : AppContext) : M (S := S) Z :=
  if negb (Z.eqb (eng_Initialize e) 0) then ret (eng_Initialize e)
  else
    let r := pUbseMemFdPermission e name appContext in
    trace (CallPermission name appContext r) ;;
    if negb (Z.eqb r 0) then ret MXM_ERR_UBSE_INNER else ret MXM_OK.

Definition LeaseFree (e : LeaseEngine) (name : string) (isNuma : bool) : M (S := S) Z :=
  if negb (Z.eqb (eng_Initialize e) 0) then ret (eng_Initialize e)
  else if negb (eng_loaded e) then ret MXM_ERR_UBSE_INNER
  else
    let res := if isNuma then pUbseMemNumaDelete e name else pUbseMemFdDelete e name in
    trace (CallReturn name isNuma res) ;;
    if negb (Z.eqb res 0) then
      ret (if Z.eqb res UBS_ENGINE_ERR_UNIMPORT_SUCCESS then MXM_OK
           else if Z.eqb res UBS_ENGINE_ERR_NOT_EXIST then MXM_ERR_LEASE_NOT_EXIST
           else if Z.eqb res UBS_ERR_NOT_SUPPORTED then MXM_ERR_UBSE_NOT_SUPPORTED else MXM_ERR_UBSE_INNER)
    else ret MXM_OK.

(** The code and the stage, which is only set when the code is [MXM_OK]. *)
Definition GetLeaseMemoryStage (e : LeaseEngine) (name : string) (isNuma : bool) : Z * ubs_mem_stage :=
  if negb (eng_loaded e) then (MXM_ERR_UBSE_LIB, UBSE_END)
  else
    let '(r, stage) := if isNuma then let '(r, d) := pUbseMemNumaGet e name in (r, nd_mem_stage d)
                       else let '(r, d) := pUbseMemFdGet e name in (r, fd_mem_stage d) in
    if Z.eqb r UBS_ENGINE_ERR_NOT_EXIST then (MXM_ERR_LEASE_NOT_EXIST, UBSE_END)
    else if negb (Z.eqb r 0) then (MXM_ERR_UBSE_INNER, UBSE_END)
    else (MXM_OK, stage).

(** [GetTimeOutTaskStatus] for a lease; the caller starts the stage with [UBSE_END]. *)
Definition GetTimeOutTaskStatus (e : LeaseEngine) (name : string) (isNumaLease : bool) : Z * ubs_mem_stage :=
  let '(res, stage) := if isNumaLease then let '(r, d) := pUbseMemNumaGet e name in (r, nd_mem_stage d)
                       else let '(r, d) := pUbseMemFdGet e name in (r, fd_mem_stage d) in
  if negb (Z.eqb res 0) then (if Z.eqb res UBS_ENGINE_ERR_NOT_EXIST then MXM_ERR_LEASE_NOT_EXIST else MXM_ERR_UBSE_INNER, UBSE_END)
  else (MXM_OK, stage).

End Adapter.
