(* ===== verification/LeaseManager.v ===== *)
(** The lease manager: [src/src/mxm_lease/mls_manager.cpp], over the record
    store (through [mls_repository.cpp], which only forwards its calls).

    [usedMemory_] maps the name of a lease to its description; freed memory is
    kept in one of two caches, ordered by size and name, from which later
    requests are served. *)

From S2P Require Import Prelude StoreTypes IdPool IdPoolSpec RecordAllocator RecordStore StoreTable StoreInv StoreSteps StoreRestart StoreSpec RegionNodes StoreTheorems StoreInterface Daemon LeaseEngine.

(** [MLSMemKey::operator<]. *)
Definition MLSMemKey_lt (k1 k2 : MLSMemKey) : bool :=
  if negb (Z.eqb (mk_size k1) (mk_size k2)) then Z.ltb (mk_size k1) (mk_size k2) else string_lt (mk_name k1) (mk_name k2).

Abbreviation buffer := (list (MLSMemKey * MLSMemInfo)).

(** [std::map::insert]: an entry with an equivalent key stays. *)
Fixpoint buffer_insert (k : MLSMemKey) (info : MLSMemInfo) (l : buffer) : buffer :=
  match l with
  | [] => [(k, info)]
  | x :: l' => if MLSMemKey_lt k x.1 then (k, info) :: l else if MLSMemKey_lt x.1 k then x :: buffer_insert k info l' else l
  end.

(** The entries before [lower_bound], and those from it on. *)
Fixpoint lower_bound (k : MLSMemKey) (l : buffer) : buffer * buffer :=
  match l with
  | [] => ([], [])
  | x :: l' => if MLSMemKey_lt x.1 k then let '(a, b) := lower_bound k l' in (x :: a, b) else ([], l)
  end.

(** The loop of [ReuseMemInSlotId]: the entries skipped, the first one on a wanted slot, the rest. *)
Fixpoint find_slot (slotIds : list Z) (l : buffer) : option (buffer * (MLSMemKey * MLSMemInfo) * buffer) :=
  match l with
  | [] => None
  | x :: l' =>
      if existsb (Z.eqb (mi_slotId x.2)) slotIds then Some ([], x, l')
      else match find_slot slotIds l' with Some (a, y, b) => Some (x :: a, y, b) | None => None end
  end.

Definition with_used (L : MLSState) (u : gmap string MLSMemInfo) : MLSState :=
  mkMLSState u (numaBufferedMemory_ L) (fdBufferedMemory_ L) (isEnableLeaseBuffered_ L) (maxBufferedMemNum_ L).

Definition buffered (L : MLSState) (isNuma : bool) : buffer := if isNuma then numaBufferedMemory_ L else fdBufferedMemory_ L.

Definition with_buffered (L : MLSState) (isNuma : bool) (b : buffer) : MLSState :=
  if isNuma then mkMLSState (usedMemory_ L) b (fdBufferedMemory_ L) (isEnableLeaseBuffered_ L) (maxBufferedMemNum_ L)
  else mkMLSState (usedMemory_ L) (numaBufferedMemory_ L) b (isEnableLeaseBuffered_ L) (maxBufferedMemNum_ L).

Definition mi_restate (st : RecordState) (i : MLSMemInfo) : MLSMemInfo :=
  mkMLSMemInfo (mi_name i) (mi_appContext i) (mi_size i) (mi_numaId i) (mi_memIds i) (mi_unitSize i) (mi_perflevel i) (mi_slotId i)
    (mi_isNuma i) st.

(** The description with another owner and size. *)
Definition mi_reown (c : AppContext) (sz : Z) (i : MLSMemInfo) : MLSMemInfo :=
  mkMLSMemInfo (mi_name i) c sz (mi_numaId i) (mi_memIds i) (mi_unitSize i) (mi_perflevel i) (mi_slotId i) (mi_isNuma i) (mi_state i).

(** [std::vector::resize]. *)
Definition resize (n : nat) (l : list Z) : list Z := take n l ++ replicate (n - length l) 0%Z.

Module MLSManager.

Section Operations.
Context {S : Type} `{!RecordStoreAPI S}.

Definition SetBufferedNum (num : nat) : M (S := S) unit :=
  let* L := get_leases in
  set_leases (mkMLSState (usedMemory_ L) (numaBufferedMemory_ L) (fdBufferedMemory_ L) (isEnableLeaseBuffered_ L) num).

(** ** The cache *)

(** The code and, when it is 0, the entry taken from the cache. *)
Definition ReuseMemInSlotId (size : Z) (isNuma : bool) (slotIds : list Z) (context : AppContext) : M (S := S) (Z * option MLSMemInfo) :=
  let* L := get_leases in
  let '(before, from) := lower_bound (mkMLSMemKey size "") (buffered L isNuma) in
  match find_slot slotIds from with
  | None => ret ((-1)%Z, None)
  | Some (skipped, found, rest) =>
      let* r := call (OpSetLeaseOwner (mi_name found.2) context size) in
      if negb (Z.eqb r 0) then ret (r, None)
      else
        set_leases (with_buffered L isNuma (before ++ skipped ++ rest)) ;;
        ret (0%Z, Some found.2)
  end.

(** The code and, when it is 0, the description given to the caller. *)
Definition ReuseBufferedMem (e : LeaseEngine) (size : Z) (isNuma : bool) (regionName : string) (context : AppContext)
  : M (S := S) (Z * option MLSMemInfo) :=
  let* L := get_leases in
  if negb (isEnableLeaseBuffered_ L) then ret ((-1)%Z, None)
  else
    let '(hr, slotIds) := GetRegionInfo e regionName in
    if negb (Z.eqb hr 0) then ret (hr, None)
    else
      let* r := ReuseMemInSlotId size isNuma slotIds context in
      match r.2 with
      | None => ret ((-1)%Z, None)
      | Some bufferInfo =>
          let info := mkMLSMemInfo (mi_name bufferInfo) context size (mi_numaId bufferInfo) (mi_memIds bufferInfo) (mi_unitSize bufferInfo)
                        (mi_perflevel bufferInfo) (mi_slotId bufferInfo) isNuma (mi_state bufferInfo) in
          let* L := get_leases in
          set_leases (with_used L (RecordStore.emplace (mi_name info) info (usedMemory_ L))) ;;
          if Z.eqb (mi_unitSize info) 0 then ret ((-1)%Z, None)
          else if Z.ltb 0 (mi_unitSize info) && Z.ltb (2 ^ 64 - 1 - mi_unitSize info) size then ret ((-1)%Z, None)
          else
            let unitCount := (u64 (size + mi_unitSize info - 1) / mi_unitSize info)%Z in
            ret (0%Z, Some (mkMLSMemInfo (mi_name info) (mi_appContext info) (mi_size info) (mi_numaId info)
                              (resize (Z.to_nat unitCount) (mi_memIds info)) (mi_unitSize info) (mi_perflevel info) (mi_slotId info)
                              (mi_isNuma info) (mi_state info)))
      end.

(** 1: cached; 0: the cache is full; another value: error. *)
Definition BufferUsedMemory (usedInfo : MLSMemInfo) : M (S := S) Z :=
  let context := mkAppContext 0 (ac_uid (mi_appContext usedInfo)) (ac_gid (mi_appContext usedInfo)) in
  let newSize := u64 (mi_unitSize usedInfo * Z.of_nat (length (mi_memIds usedInfo))) in
  let* L := get_leases in
  if Nat.ltb (length (buffered L (mi_isNuma usedInfo))) (maxBufferedMemNum_ L) then
    let* r := call (OpSetLeaseOwner (mi_name usedInfo) context newSize) in
    if negb (Z.eqb r 0) then ret r
    else
      set_leases (with_buffered L (mi_isNuma usedInfo)
        (buffer_insert (mkMLSMemKey newSize (mi_name usedInfo)) (mi_reown context newSize usedInfo) (buffered L (mi_isNuma usedInfo)))) ;;
      ret 1%Z
  else ret 0%Z.

(** ** Used memory *)

Definition PreDeleteUsedMem (name : string) : M (S := S) Z :=
  let* L := get_leases in
  match usedMemory_ L !! name with
  | None => ret MXM_ERR_LEASE_NOT_FOUND
  | Some info =>
      let* ret_ := (if isEnableLeaseBuffered_ L then BufferUsedMemory info else ret 0%Z) in
      if Z.eqb ret_ 1 then
        let* L := get_leases in
        set_leases (with_used L (delete name (usedMemory_ L))) ;;
        ret ret_
      else if negb (Z.eqb ret_ 0) then ret ret_
      else
        let* r := call (OpSetLeaseState name PRE_DEL) in
        if negb (Z.eqb r 0) then ret r else ret 0%Z
  end.

Definition DeleteUsedMem (name : string) : M (S := S) Z :=
  let* L := get_leases in
  match usedMemory_ L !! name with
  | None => ret MXM_ERR_LEASE_NOT_FOUND
  | Some _ =>
      let* r := call (OpDelLease name) in
      if negb (Z.eqb r 0) then ret r
      else
        set_leases (with_used L (delete name (usedMemory_ L))) ;;
        ret 0%Z
  end.

Definition PreAddUsedMem (name : string) (size : Z) (usr : AppContext) (isNuma : bool) (perfLevel : Z) : M (S := S) Z :=
  let* L := get_leases in
  match usedMemory_ L !! name with
  | Some _ => ret MXM_ERR_SHM_ALREADY_EXIST
  | None =>
      let* r := call (OpAddLeaseInput (mkLeaseMallocInput (negb isNuma) name size (u8 perfLevel) usr PRE_ADD)) in
      if negb (Z.eqb r 0) then ret MXM_ERR_RECORD_ADD
      else
        set_leases (with_used L (<[name := mkMLSMemInfo name usr size 0 [] 0 perfLevel 0 isNuma PRE_ADD]> (usedMemory_ L))) ;;
        ret MXM_OK
  end.

Definition FinishAddUsedMem (name : string) (numaId unitSize slotId : Z) (memIds : list Z) : M (S := S) Z :=
  let* L := get_leases in
  match usedMemory_ L !! name with
  | None => ret MXM_ERR_LEASE_NOT_FOUND
  | Some memory =>
      let* r := call (OpAddLeaseResult name (mkLeaseMallocResult memIds numaId unitSize slotId)) in
      if negb (Z.eqb r 0) then ret MXM_ERR_RECORD_ADD
      else
        set_leases (with_used L (<[name := mkMLSMemInfo (mi_name memory) (mi_appContext memory) (mi_size memory) numaId memIds unitSize
                                             (mi_perflevel memory) slotId (mi_isNuma memory) FINISH]> (usedMemory_ L))) ;;
        ret MXM_OK
  end.

Definition UpdateMemRecordState (name : string) (st : RecordState) : M (S := S) Z :=
  let* L := get_leases in
  match usedMemory_ L !! name with
  | None => ret MXM_ERR_LEASE_NOT_FOUND
  | Some memory =>
      let* r := call (OpSetLeaseState name st) in
      if negb (Z.eqb r 0) then ret MXM_ERR_RECORD_CHANGE_STATE
      else
        set_leases (with_used L (<[name := mi_restate st memory]> (usedMemory_ L))) ;;
        ret MXM_OK
  end.

(** ** Emptying the cache *)

Definition LeaseFreeMemory (e : LeaseEngine) (name : string) (isNuma : bool) : M (S := S) Z :=
  let* r := call (OpSetLeaseState name PRE_DEL) in
  if negb (Z.eqb r 0) then ret r
  else
    let* r := LeaseFree e name isNuma in
    if negb (Z.eqb r 0) && negb (Z.eqb r MXM_ERR_LEASE_NOT_EXIST) then
      call (OpSetLeaseState name FINISH) ;;
      ret r
    else
      let* r := call (OpDelLease name) in
      if negb (Z.eqb r 0) then ret MXM_ERR_RECORD_DELETE else ret r.

(** The loop over one cache; the entries that stay are returned. *)
Fixpoint free_buffered (e : LeaseEngine) (isNuma : bool) (l : buffer) : M (S := S) buffer :=
  match l with
  | [] => ret []
  | x :: l' =>
      let* r := LeaseFreeMemory e (mi_name x.2) isNuma in
      let* rest := free_buffered e isNuma l' in
      ret (if negb (Z.eqb r 0) then x :: rest else rest)
  end.

Definition DeleteAllBufferedMem (e : LeaseEngine) : M (S := S) Z :=
  let* L := get_leases in
  if negb (isEnableLeaseBuffered_ L) then ret 0%Z
  else
    let* numa := free_buffered e true (numaBufferedMemory_ L) in
    let* fd := free_buffered e false (fdBufferedMemory_ L) in
    set_leases (mkMLSState (usedMemory_ L) numa fd (isEnableLeaseBuffered_ L) (maxBufferedMemNum_ L)) ;;
    ret 0%Z.

(** ** Queries *)

Definition ListAllMem : M (S := S) (list MLSMemInfo) :=
  let* L := get_leases in
  let used := (map_to_list (usedMemory_ L)).*2 in
  ret (if negb (isEnableLeaseBuffered_ L) then used else used ++ (numaBufferedMemory_ L).*2 ++ (fdBufferedMemory_ L).*2).

Definition GetUsedMemByName (name : string) : M (S := S) (Z * option MLSMemInfo) :=
  let* L := get_leases in
  match usedMemory_ L !! name with
  | None => ret (MXM_ERR_LEASE_NOT_FOUND, None)
  | Some info => ret (0%Z, Some info)
  end.

Definition GetUsedMemByPid (pid : Z) : M (S := S) (list MLSMemInfo) :=
  let* L := get_leases in
  ret (List.filter (fun i => Z.eqb (ac_pid (mi_appContext i)) pid) (map_to_list (usedMemory_ L)).*2).

(** ** Recovery *)

(** The code and [needToDelete]. *)
Definition RemovePreAddRecord (e : LeaseEngine) (record : LeaseMallocInput * LeaseMallocResult) : M (S := S) (Z * bool) :=
  let name := lmi_name record.1 in
  let isNuma := negb (lmi_fdMode record.1) in
  let '(r, stage) := GetLeaseMemoryStage e name isNuma in
  if Z.eqb r MXM_ERR_LEASE_NOT_EXIST then
    call (OpDelLease name) ;;
    ret (MXM_OK, true)
  else if negb (Z.eqb r 0) then ret (r, false)
  else if bool_decide (stage = UBSE_NOT_EXIST) || bool_decide (stage = UBSE_DELETING) then
    call (OpDelLease name) ;;
    ret (MXM_OK, true)
  else
    AddDelayRemoveRecord (mkDelay true 0 (eng_now e + ONE_MINUTE_MS) name (lmi_appContext record.1) true isNuma true false 0) ;;
    ret (MXM_OK, false).

Definition RollbackPreDeleteRecord (e : LeaseEngine) (record : LeaseMallocInput * LeaseMallocResult) : M (S := S) (Z * RecordState) :=
  let name := lmi_name record.1 in
  let '(r, stage) := GetLeaseMemoryStage e name (negb (lmi_fdMode record.1)) in
  if Z.eqb r MXM_ERR_LEASE_NOT_EXIST then
    call (OpSetLeaseState name DELETED) ;;
    ret (MXM_OK, DELETED)
  else if negb (Z.eqb r 0) then ret (r, lmi_state record.1)
  else if bool_decide (stage = UBSE_NOT_EXIST) || bool_decide (stage = UBSE_DELETING) || bool_decide (stage = UBSE_ERR_WAIT_UNEXPORT) then
    call (OpSetLeaseState name DELETED) ;;
    ret (MXM_OK, DELETED)
  else
    call (OpSetLeaseState name FINISH) ;;
    ret (0%Z, FINISH).

Definition recovered_info (record : LeaseMallocInput * LeaseMallocResult) (st : RecordState) : MLSMemInfo :=
  mkMLSMemInfo (lmi_name record.1) (lmi_appContext record.1) (lmi_size record.1) (lmr_numaId record.2) (lmr_memIds record.2)
    (lmr_unitSize record.2) (lmi_distance record.1) (lmr_slotId record.2) (negb (lmi_fdMode record.1)) st.

(** The state a record enters the maps with; [None] is [continue]. *)
Definition recover_lease_state (e : LeaseEngine) (record : LeaseMallocInput * LeaseMallocResult) : M (S := S) (option RecordState) :=
  let* skip := (if bool_decide (lmi_state record.1 = PRE_ADD) then
                  let* rd := RemovePreAddRecord e record in
                  ret (negb (Z.eqb rd.1 0) || rd.2)
                else ret false) in
  if skip : bool then ret None
  else if bool_decide (lmi_state record.1 = PRE_DEL) then
    let* rs := RollbackPreDeleteRecord e record in
    if negb (Z.eqb rs.1 0) then ret None else ret (Some rs.2)
  else ret (Some (lmi_state record.1)).

(** Entering a record into the map or the cache it belongs to. *)
Definition load_lease (info : MLSMemInfo) (L : MLSState) : MLSState :=
  if Z.eqb (ac_pid (mi_appContext info)) 0 then
    with_buffered L (mi_isNuma info) (buffer_insert (mkMLSMemKey (mi_size info) (mi_name info)) info (buffered L (mi_isNuma info)))
  else with_used L (RecordStore.emplace (mi_name info) info (usedMemory_ L)).

Fixpoint recover_leases (e : LeaseEngine) (records : list (LeaseMallocInput * LeaseMallocResult)) : M (S := S) unit :=
  match records with
  | [] => ret tt
  | record :: rest =>
      let* st := recover_lease_state e record in
      match st with
      | None => recover_leases e rest
      | Some st =>
          if bool_decide (st = DELETED) then
            call (OpDelLease (lmi_name record.1)) ;;
            recover_leases e rest
          else
            let* L := get_leases in
            set_leases (load_lease (recovered_info record st) L) ;;
            recover_leases e rest
      end
  end.

(** [cachedSwitch] is the configuration's switch for the cache. *)
Definition RecoverFromRecord (e : LeaseEngine) (cachedSwitch : bool) : M (S := S) Z :=
  let* records := query list_leases in
  recover_leases e records ;;
  let* L := get_leases in
  set_leases (mkMLSState (usedMemory_ L) (numaBufferedMemory_ L) (fdBufferedMemory_ L) cachedSwitch (maxBufferedMemNum_ L)) ;;
  ret 0%Z.

End Operations.

End MLSManager.

(** * The ordered caches of the lease manager as sorted lists: insertion keeps
    them sorted, and the search finds the first fitting entry. *)

(** ** The order of keys *)

Ltac key_cases := unfold MLSMemKey_lt in *; repeat case_match; rewrite ?negb_true_iff, ?negb_false_iff, ?Z.eqb_eq, ?Z.eqb_neq, ?Z.ltb_lt, ?Z.ltb_ge in *.

Lemma key_lt_irrefl k : MLSMemKey_lt k k = false.
Proof. unfold MLSMemKey_lt. rewrite Z.eqb_refl. apply string_lt_irrefl. Qed.

Lemma key_lt_trans a b c : MLSMemKey_lt a b = true -> MLSMemKey_lt b c = true -> MLSMemKey_lt a c = true.
Proof.
  unfold MLSMemKey_lt. destruct (Z.eqb_spec (mk_size a) (mk_size b)), (Z.eqb_spec (mk_size b) (mk_size c)), (Z.eqb_spec (mk_size a) (mk_size c));
    cbn [negb]; rewrite ?Z.ltb_lt; try lia. apply string_lt_trans.
Qed.

Lemma key_lt_total a b : MLSMemKey_lt a b = false -> MLSMemKey_lt b a = false -> a = b.
Proof.
  unfold MLSMemKey_lt. destruct (Z.eqb_spec (mk_size a) (mk_size b)), (Z.eqb_spec (mk_size b) (mk_size a)); cbn [negb]; rewrite ?Z.ltb_ge; try lia.
  intros H1 H2. destruct a, b. simpl in *. f_equal; [done | by apply string_lt_total].
Qed.

(** A key is not before the bound of a size exactly if it has this size at least. *)
Lemma key_lt_bound k sz : MLSMemKey_lt k (mkMLSMemKey sz "") = Z.ltb (mk_size k) sz.
Proof.
  unfold MLSMemKey_lt. cbn [mk_size mk_name]. destruct (Z.eqb_spec (mk_size k) sz); cbn [negb]; [|done].
  rewrite string_lt_empty. symmetry. apply Z.ltb_ge. lia.
Qed.

(** ** Sorted caches *)

Definition key_before (x y : MLSMemKey * MLSMemInfo) : Prop := MLSMemKey_lt x.1 y.1 = true.

Abbreviation sorted := (StronglySorted key_before).

Lemma sorted_key_inj l x y : sorted l -> x ∈ l -> y ∈ l -> x.1 = y.1 -> x = y.
Proof.
  induction 1 as [|z l Hl IH Hz]; [by intros ?%not_elem_of_nil|]. rewrite Forall_forall in Hz.
  intros [->|Hx]%elem_of_cons [->|Hy]%elem_of_cons E; [done | | | by apply IH]; exfalso.
  - specialize (Hz _ Hy). unfold key_before in Hz. by rewrite E, key_lt_irrefl in Hz.
  - specialize (Hz _ Hx). unfold key_before in Hz. by rewrite E, key_lt_irrefl in Hz.
Qed.

Lemma sorted_NoDup l : sorted l -> NoDup l.
Proof.
  induction 1 as [|x l Hl IH Hx]; constructor; [|done]. rewrite Forall_forall in Hx. intros Hin. specialize (Hx _ Hin).
  unfold key_before in Hx. by rewrite key_lt_irrefl in Hx.
Qed.

Lemma buffer_insert_elem k i l x : (forall j, (k, j) ∉ l) -> x ∈ buffer_insert k i l <-> x = (k, i) \/ x ∈ l.
Proof.
  induction l as [|y l IH]; intros Hk; cbn [buffer_insert].
  - rewrite list_elem_of_singleton. split; [by left | by intros [?|?%not_elem_of_nil]].
  - destruct (MLSMemKey_lt k y.1) eqn:E1; [by rewrite elem_of_cons|]. destruct (MLSMemKey_lt y.1 k) eqn:E2.
    + rewrite !elem_of_cons, IH; [tauto|]. intros j Hj. apply (Hk j). by right.
    + exfalso. destruct y as [k' j]. simpl in *. rewrite <- (key_lt_total _ _ E1 E2) in Hk. apply (Hk j). by left.
Qed.

Lemma buffer_insert_in k i l x : x ∈ buffer_insert k i l -> x = (k, i) \/ x ∈ l.
Proof.
  induction l as [|y l IH]; cbn [buffer_insert]; [intros ->%list_elem_of_singleton; by left|].
  destruct (MLSMemKey_lt k y.1); [by intros [?|?]%elem_of_cons; [left|right]|]. destruct (MLSMemKey_lt y.1 k); [|by right].
  intros [->|[->|H]%IH]%elem_of_cons; [right; by left | by left | right; by right].
Qed.

Lemma buffer_insert_length k i l : length (buffer_insert k i l) <= S (length l).
Proof. induction l as [|y l IH]; simpl; [done|]. destruct (MLSMemKey_lt k y.1); [done|]. destruct (MLSMemKey_lt y.1 k); simpl; lia. Qed.

Lemma buffer_insert_sorted k i l : sorted l -> sorted (buffer_insert k i l).
Proof.
  induction 1 as [|y l Hl IH Hy]; cbn [buffer_insert]; [by repeat constructor|].
  destruct (MLSMemKey_lt k y.1) eqn:E1.
  - constructor; [by constructor|]. constructor; [done|]. rewrite Forall_forall in Hy |- *. intros z Hz. specialize (Hy z Hz).
    unfold key_before in *. simpl. by eapply key_lt_trans.
  - destruct (MLSMemKey_lt y.1 k) eqn:E2; [|by constructor]. constructor; [done|]. rewrite Forall_forall in Hy |- *.
    intros z [->|Hz]%buffer_insert_in; [done | by apply Hy].
Qed.

Lemma sorted_drop_one a x b : sorted (a ++ x :: b) -> sorted (a ++ b).
Proof.
  rewrite !StronglySorted_app. intros (H & Ha & Hb). split_and!; [|done | by apply StronglySorted_inv in Hb as []].
  intros y z Hy Hz. apply H; [done | by right].
Qed.

(** ** Searching *)

Lemma lower_bound_spec k l a b :
  lower_bound k l = (a, b) -> l = a ++ b /\ Forall (fun x => MLSMemKey_lt x.1 k = true) a /\
  (forall x, head b = Some x -> MLSMemKey_lt x.1 k = false).
Proof.
  revert a b. induction l as [|y l IH]; intros a b; cbn [lower_bound]; [by intros [= <- <-]|].
  destruct (MLSMemKey_lt y.1 k) eqn:E.
  - destruct (lower_bound k l) as [a' b'] eqn:El. intros [= <- <-]. destruct (IH _ _ eq_refl) as (-> & Ha & Hb). split_and!; [done | by constructor | done].
  - intros [= <- <-]. split_and!; [done | constructor |]. by intros x [= <-].
Qed.

(** From the bound of a size on, the entries are the ones of at least this size. *)
Lemma lower_bound_sizes sz l a b :
  sorted l -> lower_bound (mkMLSMemKey sz "") l = (a, b) ->
  l = a ++ b /\ Forall (fun x => (mk_size x.1 < sz)%Z) a /\ Forall (fun x => (sz <= mk_size x.1)%Z) b.
Proof.
  intros Hs E. destruct (lower_bound_spec _ _ _ _ E) as (-> & Ha & Hb). split_and!; [done | |].
  - eapply Forall_impl; [exact Ha|]. intros x Hx. cbn beta in Hx. rewrite key_lt_bound in Hx. by apply Z.ltb_lt.
  - apply StronglySorted_app_1_r in Hs. destruct b as [|y b]; [constructor|]. specialize (Hb y eq_refl). rewrite key_lt_bound, Z.ltb_ge in Hb.
    constructor; [done|]. apply StronglySorted_inv in Hs as [_ Hy]. eapply Forall_impl; [exact Hy|]. intros x Hx.
    unfold key_before, MLSMemKey_lt in Hx. destruct (Z.eqb_spec (mk_size y.1) (mk_size x.1)) as [He|]; cbn [negb] in Hx; [lia|]. apply Z.ltb_lt in Hx. lia.
Qed.

Lemma find_slot_spec slots l :
  match find_slot slots l with
  | Some (a, x, b) => l = a ++ x :: b /\ mi_slotId x.2 ∈ slots /\ Forall (fun y => mi_slotId y.2 ∉ slots) a
  | None => Forall (fun y => mi_slotId y.2 ∉ slots) l
  end.
Proof.
  assert (Hin : forall i, existsb (Z.eqb i) slots = true <-> i ∈ slots).
  { intros i. rewrite existsb_exists. split; [intros (x & Hx & ->%Z.eqb_eq); by apply list_elem_of_In | intros H; exists i; rewrite Z.eqb_refl; by apply list_elem_of_In in H]. }
  induction l as [|y l IH]; cbn [find_slot]; [constructor|]. destruct (existsb _ _) eqn:E.
  - apply Hin in E. split_and!; [done | done | constructor].
  - assert (mi_slotId y.2 ∉ slots) by (rewrite <- Hin, E; done). destruct (find_slot slots l) as [[[a x] b]|].
    + destruct IH as (-> & ? & ?). split_and!; [done | done | by constructor].
    + by constructor.
Qed.

(** [find_slot] past the bound gives the smallest entry of at least size [sz] on a wanted slot. *)
Lemma reuse_smallest sz slots l a from skipped x rest :
  sorted l -> lower_bound (mkMLSMemKey sz "") l = (a, from) -> find_slot slots from = Some (skipped, x, rest) ->
  l = (a ++ skipped) ++ x :: rest /\ (sz <= mk_size x.1)%Z /\ mi_slotId x.2 ∈ slots /\
  forall y, y ∈ l -> (sz <= mk_size y.1)%Z -> mi_slotId y.2 ∈ slots -> y = x \/ MLSMemKey_lt x.1 y.1 = true.
Proof.
  intros Hs El Ef. destruct (lower_bound_sizes _ _ _ _ Hs El) as (-> & Ha & Hb). pose proof (find_slot_spec slots from) as Hf. rewrite Ef in Hf.
  destruct Hf as (-> & Hx & Hsk). rewrite Forall_forall in Ha, Hb, Hsk. split_and!; [by rewrite <- app_assoc | apply Hb; apply elem_of_app; right; by left | done |].
  intros y Hy Hsz Hyslot. rewrite !elem_of_app, elem_of_cons in Hy. destruct Hy as [Hy|[Hy|[->|Hy]]]; [apply Ha in Hy; lia | by apply Hsk in Hy | by left | right].
  apply StronglySorted_app_1_r, StronglySorted_app_1_r, StronglySorted_inv in Hs as [_ Hs]. rewrite Forall_forall in Hs. by apply Hs.
Qed.
