(* ===== verification/LeaseHandlers.v ===== *)
(** The request handlers of the lease service
    ([src/src/mxm_lease/ipc_handler.cpp]) and the leak cleaner's part for leases
    ([src/src/process/monitor/ubs_mem_leak_cleaner.cpp]). *)

From S2P Require Import Prelude StoreTypes IdPool IdPoolSpec RecordAllocator RecordStore StoreTable StoreInv StoreSteps StoreRestart StoreSpec RegionNodes StoreTheorems MsgPacker MsgBase MsgRequests MsgResponses StoreInterface Daemon LeaseEngine LeaseManager.
Import MLSManager.

Definition IsSameApp (owner : AppContext) (caller : MxmComUdsInfo) : bool :=
  Z.eqb (ac_pid owner) (uds_pid caller) && Z.eqb (ac_uid owner) (uds_uid caller) && Z.eqb (ac_gid owner) (uds_gid caller).

Definition context_of (u : MxmComUdsInfo) : AppContext := mkAppContext (uds_pid u) (uds_uid u) (uds_gid u).

(** A [uint16_t] used as a truth value. *)
Definition truth (z : Z) : bool := negb (Z.eqb z 0).

Definition malloc_error (rsp : AppMallocMemoryResponse) (code : Z) : AppMallocMemoryResponse :=
  mkAppMallocMemoryResponse (AppMallocMemoryResponse_base rsp) code (AppMallocMemoryResponse_memIds_ rsp) (AppMallocMemoryResponse_numaId_ rsp)
    (AppMallocMemoryResponse_isNuma_ rsp) (AppMallocMemoryResponse_unitSize_ rsp) (AppMallocMemoryResponse_name_ rsp).

Section Handlers.
Context {S : Type} `{!RecordStoreAPI S}.

(** [LeaseFree] has returned the memory, or it was not there. *)
Definition freed (r : Z) : bool := Z.eqb r 0 || Z.eqb r MXM_ERR_LEASE_NOT_EXIST.

(** ** Borrowing *)

Definition RollBackReuseCacheMemory (e : LeaseEngine) (name : string) (isNuma : bool) : M (S := S) Z :=
  let* hr := PreDeleteUsedMem name in
  if Z.eqb hr 0 then
    let* r := LeaseFree e name isNuma in
    if negb (freed r) then
      UpdateMemRecordState name FINISH ;;
      ret r
    else
      let* r := DeleteUsedMem name in
      if negb (Z.eqb r 0) then ret r else ret MXM_OK
  else ret MXM_OK.

Definition ReuseCachedLeaseMemory (e : LeaseEngine) (size : Z) (regionName : string) (isNuma : bool) (user : AppContext)
  (rsp : AppMallocMemoryResponse) : M (S := S) (Z * AppMallocMemoryResponse) :=
  let* r := ReuseBufferedMem e size isNuma regionName user in
  match r.2 with
  | None => ret (r.1, rsp)
  | Some memory =>
      let rsp := mkAppMallocMemoryResponse (AppMallocMemoryResponse_base rsp) 0 (mi_memIds memory) (mi_numaId memory) (mi_isNuma memory)
                   (mi_unitSize memory) (mi_name memory) in
      if negb isNuma then
        let* hr := FdPermissionChange e (mi_name memory) user in
        if negb (Z.eqb hr 0) then
          RollBackReuseCacheMemory e (mi_name memory) (AppMallocMemoryResponse_isNuma_ rsp) ;;
          ret (hr, malloc_error rsp hr)
        else ret (MXM_OK, rsp)
      else ret (MXM_OK, rsp)
  end.

Definition RollBackBorrowNewMemory (e : LeaseEngine) (name : string) (isNuma : bool) : M (S := S) unit :=
  UpdateMemRecordState name PRE_DEL ;;
  LeaseFree e name isNuma ;;
  DeleteUsedMem name ;;
  ret tt.

(** The end of both ways to borrow: the record is completed and the response filled. *)
Definition finish_borrow (e : LeaseEngine) (name : string) (isNuma : bool) (size unitSize : Z) (result : LeaseMallocResult)
  (rsp : AppMallocMemoryResponse) : M (S := S) (Z * AppMallocMemoryResponse) :=
  let* hr := FinishAddUsedMem name (lmr_numaId result) unitSize (lmr_slotId result) (lmr_memIds result) in
  if negb (Z.eqb hr 0) then
    RollBackBorrowNewMemory e name isNuma ;;
    ret (hr, malloc_error rsp hr)
  else
    let numa := negb (Z.eqb (lmr_numaId result) (-1)) in
    ret (MXM_OK, mkAppMallocMemoryResponse (AppMallocMemoryResponse_base rsp) 0 (lmr_memIds result) (lmr_numaId result) numa
                   (if numa then size else lmr_unitSize result) name).

Definition BorrowNewMemory (e : LeaseEngine) (req : AppMallocMemoryRequest) (rsp : AppMallocMemoryResponse) (u : MxmComUdsInfo)
  : M (S := S) (Z * AppMallocMemoryResponse) :=
  let size := AppMallocMemoryRequest_size_ req in
  let name := le_new_name e size in
  let isNuma := truth (AppMallocMemoryRequest_isNuma_ req) in
  let* hr := PreAddUsedMem name size (context_of u) isNuma (AppMallocMemoryRequest_perflevel_ req) in
  if negb (Z.eqb hr 0) then ret (hr, malloc_error rsp hr)
  else
    let* r := LeaseMalloc e (mkMallocParam name (AppMallocMemoryRequest_regionName_ req) size isNuma (context_of u)) in
    if negb (Z.eqb r.1 0) then
      DeleteUsedMem name ;;
      ret (r.1, malloc_error rsp r.1)
    else finish_borrow e name isNuma size (if isNuma then size else lmr_unitSize r.2) r.2 rsp.

Definition BorrowMemory (e : LeaseEngine) (req : AppMallocMemoryRequest) (rsp : AppMallocMemoryResponse) (u : MxmComUdsInfo)
  : M (S := S) (Z * AppMallocMemoryResponse) :=
  let* r := ReuseCachedLeaseMemory e (AppMallocMemoryRequest_size_ req) (AppMallocMemoryRequest_regionName_ req)
              (truth (AppMallocMemoryRequest_isNuma_ req)) (context_of u) rsp in
  if Z.eqb r.1 MXM_OK then ret r else BorrowNewMemory e req r.2 u.

Definition AppMallocMemory (e : LeaseEngine) (req : AppMallocMemoryRequest) (rsp : AppMallocMemoryResponse) (u : MxmComUdsInfo)
  : M (S := S) (Z * AppMallocMemoryResponse) :=
  if Z.eqb (AppMallocMemoryRequest_size_ req) 0 then ret (MXM_ERR_PARAM_INVALID, malloc_error rsp MXM_ERR_PARAM_INVALID)
  else BorrowMemory e req rsp u.

Definition BorrowMemoryWithLender (e : LeaseEngine) (req : AppMallocMemoryWithLocRequest) (rsp : AppMallocMemoryResponse) (u : MxmComUdsInfo)
  : M (S := S) (Z * AppMallocMemoryResponse) :=
  let size := AppMallocMemoryWithLocRequest_size_ req in
  let name := le_new_name e size in
  let isNuma := truth (AppMallocMemoryWithLocRequest_isNuma_ req) in
  let* hr := PreAddUsedMem name size (context_of u) isNuma 0 in
  if negb (Z.eqb hr MXM_OK) then ret (hr, malloc_error rsp hr)
  else
    let* r := LeaseMallocWithLoc e (mkMallocLocParam name size isNuma (context_of u) (AppMallocMemoryWithLocRequest_slotId_ req)
                (AppMallocMemoryWithLocRequest_socketId_ req) (AppMallocMemoryWithLocRequest_numaId_ req)
                (AppMallocMemoryWithLocRequest_portId_ req)) in
    if negb (Z.eqb r.1 0) then
      DeleteUsedMem name ;;
      ret (r.1, malloc_error rsp r.1)
    else finish_borrow e name isNuma size (lmr_unitSize r.2) r.2 rsp.

Definition AppMallocMemoryWithLoc (e : LeaseEngine) (req : AppMallocMemoryWithLocRequest) (rsp : AppMallocMemoryResponse) (u : MxmComUdsInfo)
  : M (S := S) (Z * AppMallocMemoryResponse) :=
  if Z.eqb (AppMallocMemoryWithLocRequest_size_ req) 0 then ret (MXM_ERR_PARAM_INVALID, malloc_error rsp MXM_ERR_PARAM_INVALID)
  else BorrowMemoryWithLender e req rsp u.

(** ** Returning *)

(** The code, which is also the response's [errCode_]. *)
Definition AppFreeMemory (e : LeaseEngine) (name : string) (u : MxmComUdsInfo) : M (S := S) Z :=
  if bool_decide (name = "") then ret MXM_ERR_PARAM_INVALID
  else
    let* busy := GetDelayRemoveRecord name in
    if busy : bool then ret MXM_ERR_NAME_BUSY
    else
      let* r := GetUsedMemByName name in
      match r.2 with
      | None => ret r.1
      | Some memory =>
          if negb (IsSameApp (mi_appContext memory) u) then ret MXM_ERR_SHM_PERMISSION_DENIED
          else if bool_decide (mi_state memory = DELETED) then
            DeleteUsedMem name ;;
            ret MXM_OK
          else
            let* hr := (if negb (mi_isNuma memory) then FdPermissionChange e name (le_self e) else ret 0%Z) in
            if negb (Z.eqb hr 0) then ret hr
            else
              let* r := PreDeleteUsedMem name in
              if Z.eqb r 0 then
                let* hr := LeaseFree e name (mi_isNuma memory) in
                if negb (freed hr) then
                  UpdateMemRecordState (mi_name memory) FINISH ;;
                  ret hr
                else
                  let* hr := DeleteUsedMem name in
                  if negb (Z.eqb hr 0) then ret hr else ret 0%Z
              else ret 0%Z
      end.

Definition AppForceFreeCachedMemory (e : LeaseEngine) : M (S := S) Z := DeleteAllBufferedMem e.

Definition CleanNotUsedRecordLeaseMemory (e : LeaseEngine) (memory : MLSMemInfo) : M (S := S) Z :=
  let c := mi_appContext memory in
  AppFreeMemory e (mi_name memory) (mkUds (ac_pid c) (ac_uid c) (ac_gid c)).

(** The loop over the caller's leases: those that it does not list are returned. *)
Fixpoint free_unlisted (e : LeaseEngine) (names : list string) (records : list MLSMemInfo) : M (S := S) Z :=
  match records with
  | [] => ret MXM_OK
  | record :: rest =>
      if negb (existsb (String.eqb (mi_name record)) names) then
        CleanNotUsedRecordLeaseMemory e record ;;
        free_unlisted e names rest
      else free_unlisted e names rest
  end.

Definition AppCheckMemoryLease (e : LeaseEngine) (names : list string) (u : MxmComUdsInfo) : M (S := S) Z :=
  let* records := GetUsedMemByPid (uds_pid u) in
  free_unlisted e names records.

(** ** The leak cleaner *)

(** The code and [changed]. *)
Definition CleanLeaseMemoryLeakInner (e : LeaseEngine) (name : string) (ctx : AppContext) (changed isTimeOutScene isNumaLease : bool)
  : M (S := S) (Z * bool) :=
  if isTimeOutScene then
    let '(r, status) := GetTimeOutTaskStatus e name isNumaLease in
    if Z.eqb r MXM_ERR_LEASE_NOT_EXIST || bool_decide (status = UBSE_NOT_EXIST) then
      DeleteUsedMem name ;;
      ret (MXM_OK, changed)
    else if negb (Z.eqb r MXM_OK) || bool_decide (status = UBSE_CREATING) || bool_decide (status = UBSE_DELETING) then
      ret (MXM_TIME_OUT_TASK_NEED_RETRY, changed)
    else
      let* hr := LeaseFree e name isNumaLease in
      if negb (freed hr) then ret (hr, changed)
      else
        let* hr := DeleteUsedMem name in
        ret (hr, changed)
  else
    let* r := GetUsedMemByName name in
    match r.2 with
    | None => ret (MXM_ERR_PARAM_INVALID, changed)
    | Some memory =>
        if bool_decide (mi_state memory = DELETED) then
          DeleteUsedMem name ;;
          ret (MXM_OK, changed)
        else
          let* hr := (if negb (mi_isNuma memory) && negb changed then FdPermissionChange e name ctx else ret 0%Z) in
          if negb (Z.eqb hr 0) then ret (hr, changed)
          else
            let changed := changed || negb (mi_isNuma memory) in
            let* r := PreDeleteUsedMem name in
            if Z.eqb r 0 then
              let* hr := LeaseFree e name (mi_isNuma memory) in
              if negb (freed hr) then ret (hr, changed)
              else
                let* hr := DeleteUsedMem name in
                if negb (Z.eqb hr 0) then ret (MXM_ERR_RECORD_DELETE, changed) else ret (0%Z, changed)
            else if negb (Z.eqb r 1) then ret (r, changed)
            else ret (0%Z, changed)
    end.

End Handlers.
