(* ===== verification/Monitor.v ===== *)
(** The monitor's background work ([src/src/process/monitor/ubs_mem_monitor.cpp])
    and the clean-up at start ([ubs_mem_leak_cleaner.cpp]): what is scheduled for
    processes that are gone, and how scheduled removals are tried and retried.

    The monitor is running; every time it reads the clock it reads [eng_now]. *)

From S2P Require Import Prelude StoreTypes IdPool IdPoolSpec RecordAllocator RecordStore StoreTable StoreInv StoreSteps StoreRestart StoreSpec RegionNodes StoreTheorems MsgPacker MsgBase MsgRequests MsgResponses StoreInterface Daemon ShmManager ShmHandlers LeaseEngine LeaseManager LeaseHandlers.

Definition MAX_DELAY_TIME_MS : Z := (60 * ONE_MINUTE_MS)%Z.

Definition UINT64_MAX : Z := (2 ^ 64 - 1)%Z.

(** The time of the next try, in 64-bit arithmetic. *)
Definition LinearDelayMs (nowTime retryTimes stepMs maxDelayMs : Z) : Z :=
  let delay := nowTime in
  let delay :=
    if Z.ltb 0 retryTimes then
      if Z.ltb (UINT64_MAX / retryTimes) stepMs then UINT64_MAX
      else
        let stepProduct := u64 (stepMs * retryTimes) in
        if Z.ltb (UINT64_MAX - stepProduct) delay then UINT64_MAX else u64 (delay + stepProduct)
    else delay in
  Z.min delay (u64 (maxDelayMs + nowTime)).

(** [std::set::erase]: the element equivalent to the key, if there is one. *)
Fixpoint set_erase (lt : DelayRemovedKey -> DelayRemovedKey -> bool) (k : DelayRemovedKey) (l : list DelayRemovedKey) : list DelayRemovedKey :=
  match l with
  | [] => []
  | x :: l' => if lt k x || lt x k then x :: set_erase lt k l' else l'
  end.

Section Monitor.
Context {S : Type} `{!RecordStoreAPI S}.

(** ** Scheduling *)

(** A lease of a process that is gone is scheduled, unless its name is already. *)
Definition schedule_lease (e : Engine) (ls : MLSMemInfo) : M (S := S) unit :=
  let* pending := GetDelayRemoveRecord (mi_name ls) in
  if pending : bool then ret tt
  else AddDelayRemoveRecord (mkDelay true 0 (eng_now e) (mi_name ls) (mi_appContext ls) false (mi_isNuma ls) false false 0).

(** The loops over all leases, with the condition under which one is scheduled. *)
Fixpoint schedule_leases (e : Engine) (dead : MLSMemInfo -> bool) (l : list MLSMemInfo) : M (S := S) unit :=
  match l with
  | [] => ret tt
  | ls :: rest =>
      if dead ls then
        schedule_lease e ls ;;
        schedule_leases e dead rest
      else schedule_leases e dead rest
  end.

(** [alive] is what the process directory of the system says. *)
Definition CleanLeaseMemoryLeakWhenStart (e : Engine) (alive : Z -> bool) : M (S := S) Z :=
  let* lsMap := MLSManager.ListAllMem in
  schedule_leases e (fun ls => negb (Z.eqb (ac_pid (mi_appContext ls)) 0 || alive (ac_pid (mi_appContext ls)))) lsMap ;;
  ret UBSM_OK.

Fixpoint process_dead (e : Engine) (deadProcess : list Z) : M (S := S) Z :=
  match deadProcess with
  | [] => ret UBSM_OK
  | pid :: rest =>
      let* r := SHMProcessDeadProcess e pid in
      if negb (Z.eqb r UBSM_OK) then ret r else process_dead e rest
  end.

Definition CleanShareMemoryLeakWhenStart (e : Engine) (alive : Z -> bool) : M (S := S) Z :=
  let* users := SHMManager.GetAllUsers in
  process_dead e (List.filter (fun usr => negb (alive (u32 usr))) (elements users)).

Definition Start (e : Engine) (alive : Z -> bool) : M (S := S) Z :=
  let* r := CleanLeaseMemoryLeakWhenStart e alive in
  if negb (Z.eqb r UBSM_OK) then ret r
  else
    let* r := CleanShareMemoryLeakWhenStart e alive in
    if negb (Z.eqb r UBSM_OK) then ret r else ret UBSM_OK.

(** [pid] is a [pid_t]; it is compared with an unsigned field. *)
Definition ClientProcessExited (e : Engine) (pid : Z) : M (S := S) unit :=
  let* leaseRecord := MLSManager.ListAllMem in
  schedule_leases e (fun record => Z.eqb (ac_pid (mi_appContext record)) (u32 pid)) leaseRecord ;;
  SHMProcessDeadProcess e pid ;;
  call (OpDelSuspend pid) ;;
  ret tt.

Fixpoint clients_exited (e : Engine) (pids : list Z) : M (S := S) unit :=
  match pids with
  | [] => ret tt
  | pid :: rest => ClientProcessExited e (s32 pid) ;; clients_exited e rest
  end.

(** [pids] are the exited processes that were reported. *)
Definition RemoveImmediatelyBorrows (e : Engine) (alive : Z -> bool) (pids : list Z) : M (S := S) unit :=
  clients_exited e pids ;;
  Start e alive ;;
  ret tt.

(** ** Removing *)

Definition EraseDelayRemoveRecord (key : DelayRemovedKey) : M (S := S) unit := fun d =>
  (tt, mkDaemon (attachedShareMemory_ d) (store_ d) (set_erase DelayKeyComparator key (delayedRemoveKeys d))
         (set_erase DelayKeyIsBusyComparator key (delayedRemoveKeysByName d)) (engine_trace d) (leases_ d)).

Definition retried (k : DelayRemovedKey) (changed : bool) (expires : Z) : DelayRemovedKey :=
  mkDelay (dk_isLease k) (u64 (dk_retryTimes k + 1)) expires (dk_name k) (dk_appCtx k) changed (dk_isNumaLease k) (dk_timeOutScene k)
    (dk_isAttach k) (dk_createSeqNo k).

(** One expired key: the code of the removal and the key's [changed]. *)
Definition remove_key (e : LeaseEngine) (k : DelayRemovedKey) : M (S := S) (Z * bool) :=
  if dk_isLease k then CleanLeaseMemoryLeakInner e (dk_name k) (dk_appCtx k) (dk_changed k) (dk_timeOutScene k) (dk_isNumaLease k)
  else
    let* r := CleanShareMemoryLeakInner e (dk_name k) (dk_appCtx k) (dk_timeOutScene k) (dk_isAttach k) (dk_createSeqNo k) in
    ret (r, dk_changed k).

(** The loop over the expired keys; the keys to try again are returned. *)
Fixpoint remove_keys (e : LeaseEngine) (expired : list DelayRemovedKey) : M (S := S) (list DelayRemovedKey) :=
  match expired with
  | [] => ret []
  | k :: rest =>
      let* r := remove_key e k in
      EraseDelayRemoveRecord k ;;
      let* failed := remove_keys e rest in
      ret (if negb (Z.eqb r.1 0) then
             retried k r.2 (LinearDelayMs (eng_now e) (u64 (dk_retryTimes k + 1)) ONE_MINUTE_MS MAX_DELAY_TIME_MS) :: failed
           else failed)
  end.

Fixpoint add_keys (l : list DelayRemovedKey) : M (S := S) unit :=
  match l with
  | [] => ret tt
  | k :: rest => AddDelayRemoveRecord k ;; add_keys rest
  end.

Definition get_delayed : M (S := S) (list DelayRemovedKey) := fun d => (delayedRemoveKeys d, d).

Definition RemoveDelayBorrows (e : LeaseEngine) : M (S := S) unit :=
  let* keys := get_delayed in
  let* failed := remove_keys e (List.filter (fun k => Z.leb (dk_expiresTime k) (eng_now e)) keys) in
  add_keys failed.

End Monitor.
