(* ===== verification/LeaseInv.v ===== *)
(** The lease manager's maps and the record store agree.

    [lease_coherent d]: a lease of the store with an owner is in [usedMemory_],
    one without (process id 0) is in the cache of its kind, with the recorded
    fields, and the maps hold nothing else. Stated and proved on the abstract
    store, operation by operation. *)

From S2P Require Import Prelude StoreTypes IdPool IdPoolSpec RecordAllocator RecordStore StoreTable StoreInv StoreSteps StoreRestart StoreSpec RegionNodes StoreTheorems StoreInterface Daemon LeaseEngine LeaseManager.
Import MLSManager.

(** ** Agreement *)

(** The state in the map lags behind the store's while a lease is being
    returned: only the store is told that the return has begun or failed. *)
Definition state_follows (i : MLSMemInfo) (st : RecordState) : Prop := st = mi_state i \/ st = PRE_DEL \/ st = FINISH.

(** A description and a record of the store say the same. Before a lease is
    finished the store has -1 as its NUMA node and the map 0. *)
Record lease_rec (i : MLSMemInfo) (v : LeaseMallocInput * LeaseMallocResult) : Prop := {
  lr_name : lmi_name v.1 = mi_name i;
  lr_owner : lmi_appContext v.1 = mi_appContext i;
  lr_size : lmi_size v.1 = mi_size i;
  lr_kind : lmi_fdMode v.1 = negb (mi_isNuma i);
  lr_level : u8 (mi_perflevel i) = u8 (lmi_distance v.1);
  lr_state : state_follows i (lmi_state v.1);
  lr_ids : lmr_memIds v.2 = mi_memIds i;
  lr_unit : lmr_unitSize v.2 = mi_unitSize i;
  lr_slot : lmr_slotId v.2 = mi_slotId i;
  lr_numa : lmr_numaId v.2 = mi_numaId i \/ mi_memIds i = [];
}.

Abbreviation owner v := (ac_pid (lmi_appContext v.1)).

Abbreviation cache_size i := (u64 (mi_unitSize i * Z.of_nat (length (mi_memIds i)))).

Definition not_cached (L : MLSState) (n : string) : Prop := forall b x, x ∈ buffered L b -> mi_name x.2 <> n.

Definition cached_as (L : MLSState) (n : string) (v : LeaseMallocInput * LeaseMallocResult) (b : bool) (x : MLSMemKey * MLSMemInfo) : Prop :=
  b = negb (lmi_fdMode v.1) /\ x.1 = mkMLSMemKey (mi_size x.2) n /\ mi_size x.2 = cache_size x.2 /\ lease_rec x.2 v.

(** One name. *)
Definition lease_at (L : MLSState) (a : AStore) (n : string) : Prop :=
  match a_leases a !! n with
  | None => usedMemory_ L !! n = None /\ not_cached L n
  | Some v =>
      if decide (owner v = 0%Z) then
        usedMemory_ L !! n = None /\ (exists x, x ∈ buffered L (negb (lmi_fdMode v.1)) /\ mi_name x.2 = n) /\
        (forall b x, x ∈ buffered L b -> mi_name x.2 = n -> cached_as L n v b x)
      else (exists i, usedMemory_ L !! n = Some i /\ lease_rec i v) /\ not_cached L n
  end.

(** The caches are ordered and no larger than they may be. *)
Definition caches_ok (L : MLSState) : Prop := forall b, sorted (buffered L b) /\ length (buffered L b) <= maxBufferedMemNum_ L.

Definition lease_inv (L : MLSState) (a : AStore) : Prop := caches_ok L /\ forall n, lease_at L a n.

Definition lease_coherent (d : Daemon AStore) : Prop := wf_abs (store_ d) /\ lease_inv (leases_ d) (store_ d).

Lemma buffered_used L u b : buffered (with_used L u) b = buffered L b.
Proof. by destruct b. Qed.

Lemma buffered_with L b l b' : buffered (with_buffered L b l) b' = if decide (b' = b) then l else buffered L b'.
Proof. by destruct b, b'. Qed.

Lemma used_with L b l : usedMemory_ (with_buffered L b l) = usedMemory_ L.
Proof. by destruct b. Qed.

Lemma max_with L b l : maxBufferedMemNum_ (with_buffered L b l) = maxBufferedMemNum_ L.
Proof. by destruct b. Qed.

Section Agreement.
Context {G : Geometry}.
Implicit Types (L : MLSState) (a : AStore) (d : Daemon AStore).

(** The two maps mention the same leases other than [n]. *)
Definition same_but (n : string) L L' : Prop :=
  (forall n', n' <> n -> usedMemory_ L' !! n' = usedMemory_ L !! n') /\
  (forall b x, mi_name x.2 <> n -> x ∈ buffered L' b <-> x ∈ buffered L b).

Lemma lease_at_other n L L' a a' n' :
  n' <> n -> same_but n L L' -> a_leases a' !! n' = a_leases a !! n' -> lease_at L a n' -> lease_at L' a' n'.
Proof.
  intros Hne [Hu Hb] Ea H. unfold lease_at in *. rewrite Ea. destruct (a_leases a !! n') as [v|].
  - destruct (decide _).
    + destruct H as (H0 & (x & Hx & Hn) & Hall). rewrite Hu by done. split_and!; [done | |].
      * exists x. split; [apply Hb; [by rewrite Hn | done] | done].
      * intros b y Hy Hny. apply Hall; [apply Hb in Hy; [done | by rewrite Hny] | done].
    + destruct H as ((i & Ei & R) & Hno). split; [exists i; by rewrite Hu|]. intros b x Hx E. apply (Hno b x); [apply Hb in Hx; [done | by rewrite E] | done].
  - destruct H as [H0 Hno]. split; [by rewrite Hu|]. intros b x Hx E. apply (Hno b x); [apply Hb in Hx; [done | by rewrite E] | done].
Qed.

(** A change that only concerns [n]. *)
Lemma lease_upd n L L' a a' :
  lease_inv L a -> caches_ok L' -> same_but n L L' -> (forall n', n' <> n -> a_leases a' !! n' = a_leases a !! n') ->
  lease_at L' a' n -> lease_inv L' a'.
Proof.
  intros [_ H] Hc Hs Ha Hn. split; [done|]. intros n'. destruct (decide (n' = n)) as [->|Hne]; [done|].
  apply (lease_at_other n L L' a a' n'); auto.
Qed.

Lemma same_but_used n L u : (forall n', n' <> n -> u !! n' = usedMemory_ L !! n') -> same_but n L (with_used L u).
Proof. intros Hu. split; [exact Hu|]. intros b x _. by rewrite buffered_used. Qed.

Lemma same_but_refl n L : same_but n L L.
Proof. by split. Qed.

Lemma caches_used L u : caches_ok L -> caches_ok (with_used L u).
Proof. intros H b. rewrite buffered_used. apply H. Qed.

(** *** What the invariant says of an entry *)

Lemma used_entry L a n i :
  lease_inv L a -> usedMemory_ L !! n = Some i -> exists v, a_leases a !! n = Some v /\ owner v <> 0%Z /\ lease_rec i v /\ not_cached L n.
Proof.
  intros [_ H] E. specialize (H n). unfold lease_at in H. rewrite E in H. destruct (a_leases a !! n) as [v|]; [|by destruct H].
  destruct (decide _); [by destruct H as [? _]|]. destruct H as ((? & [= <-] & R) & Hno). by exists v.
Qed.

Lemma cached_entry L a b x :
  lease_inv L a -> x ∈ buffered L b ->
  exists v, a_leases a !! mi_name x.2 = Some v /\ owner v = 0%Z /\ cached_as L (mi_name x.2) v b x /\ usedMemory_ L !! mi_name x.2 = None.
Proof.
  intros [_ H] Hx. specialize (H (mi_name x.2)). unfold lease_at in H. destruct (a_leases a !! mi_name x.2) as [v|]; [|by destruct H as [_ H]; destruct (H b x)].
  destruct (decide _); [|by destruct H as [_ H]; destruct (H b x)]. destruct H as (? & _ & Hall). exists v. split_and!; [done | done | by apply Hall | done].
Qed.

Lemma unused_entry L a n : lease_inv L a -> a_leases a !! n = None -> usedMemory_ L !! n = None /\ not_cached L n.
Proof. intros [_ H] E. specialize (H n). unfold lease_at in H. by rewrite E in H. Qed.

(** Entries of one cache with the same name are the same. *)
Lemma cached_inj L a b x b' y : lease_inv L a -> x ∈ buffered L b -> y ∈ buffered L b' -> mi_name x.2 = mi_name y.2 -> b = b' /\ x = y.
Proof.
  intros H Hx Hy E. destruct (cached_entry _ _ _ _ H Hx) as (v & Ev & _ & (Hb & Hk & _ & R) & _).
  destruct (cached_entry _ _ _ _ H Hy) as (w & Ew & _ & (Hb' & Hk' & _ & R') & _). rewrite E in *. simplify_eq.
  split; [done|]. eapply sorted_key_inj; [apply (proj1 H) | done | done |]. rewrite Hk, Hk'. f_equal. by rewrite <- (lr_size _ _ R), <- (lr_size _ _ R').
Qed.

(** *** Updates *)

Lemma owner_used_at L a n v i :
  a_leases a !! n = Some v -> owner v <> 0%Z -> usedMemory_ L !! n = Some i -> lease_rec i v -> not_cached L n -> lease_at L a n.
Proof. intros E Hp Eu R Hno. unfold lease_at. rewrite E, decide_False by done. split; [by exists i | done]. Qed.

Lemma not_cached_used L u n : not_cached L n -> not_cached (with_used L u) n.
Proof. intros H b x. rewrite buffered_used. apply H. Qed.

(** A used lease whose description and record change alike. *)
Lemma used_replace L a n i v' i' l :
  lease_inv L a -> not_cached L n -> owner v' <> 0%Z -> lease_rec i' v' ->
  i = i' -> lease_inv (with_used L (<[n := i]> (usedMemory_ L))) (with_leases a (<[n := v']> (a_leases a)) l).
Proof.
  intros H Hno Hp R ->. eapply (lease_upd n L); [done | apply caches_used, H | apply same_but_used; intros; by rewrite lookup_insert_ne | |].
  - intros n' ?. cbn. by rewrite lookup_insert_ne.
  - eapply owner_used_at; [apply lookup_insert_eq | done | apply lookup_insert_eq | done | by apply not_cached_used].
Qed.

(** A used lease whose record changes to another that the description also follows. *)
Lemma used_record L a n i v' l :
  lease_inv L a -> usedMemory_ L !! n = Some i -> owner v' <> 0%Z -> lease_rec i v' ->
  lease_inv L (with_leases a (<[n := v']> (a_leases a)) l).
Proof.
  intros H E Hp R. destruct (used_entry _ _ _ _ H E) as (_ & _ & _ & _ & Hno).
  eapply (lease_upd n L); [done | apply H | apply same_but_refl | intros n' ?; cbn; by rewrite lookup_insert_ne |].
  eapply owner_used_at; [apply lookup_insert_eq | done | done | done | done].
Qed.

Lemma used_remove L a n i l :
  lease_inv L a -> usedMemory_ L !! n = Some i ->
  lease_inv (with_used L (delete n (usedMemory_ L))) (with_leases a (delete n (a_leases a)) l).
Proof.
  intros H E. destruct (used_entry _ _ _ _ H E) as (_ & _ & _ & _ & Hno).
  eapply (lease_upd n L); [done | apply caches_used, H | apply same_but_used; intros; by rewrite lookup_delete_ne | intros n' ?; cbn; by rewrite lookup_delete_ne |].
  unfold lease_at. cbn. rewrite !lookup_delete_eq. split; [done | by apply not_cached_used].
Qed.

Lemma restate_rec i v st : lease_rec i v -> st = mi_state i \/ st = PRE_DEL \/ st = FINISH -> lease_rec i (lease_restate st v).
Proof. intros [] Hs. by split. Qed.

Lemma restate_both i v st : lease_rec i v -> lease_rec (mi_restate st i) (lease_restate st v).
Proof. intros []. split; try done. by left. Qed.

(** *** Between the used leases and the caches *)

Lemma cache_insert_other k i l n' : (forall j, (k, j) ∉ l) -> mi_name i = n' ->
  forall x : MLSMemKey * MLSMemInfo, mi_name x.2 <> n' -> x ∈ buffer_insert k i l <-> x ∈ l.
Proof. intros Hk Hn x Hx. rewrite buffer_insert_elem by done. split; [intros [->|?]; [by rewrite <- Hn in Hx | done] | by right]. Qed.

(** An owned lease enters the cache of its kind without an owner. *)
Lemma used_to_cache L a n i v c :
  lease_inv L a -> a_leases a !! n = Some v -> usedMemory_ L !! n = Some i -> mi_name i = n -> ac_pid c = 0%Z ->
  length (buffered L (mi_isNuma i)) < maxBufferedMemNum_ L ->
  lease_inv (with_used (with_buffered L (mi_isNuma i) (buffer_insert (mkMLSMemKey (cache_size i) n) (mi_reown c (cache_size i) i) (buffered L (mi_isNuma i))))
               (delete n (usedMemory_ L)))
    (with_leases a (<[n := lease_reown c (cache_size i) v]> (a_leases a)) (a_lines a)).
Proof.
  intros H Ev E Hi Hc Hlen. destruct (used_entry _ _ _ _ H E) as (v' & Ev' & _ & R & Hno). simplify_eq.
  set (b := mi_isNuma i) in *. set (n := mi_name i) in *. set (l := buffered L b) in *.
  assert (Hk : forall j, (mkMLSMemKey (cache_size i) n, j) ∉ l).
  { intros j Hj. destruct (cached_entry _ _ _ _ H Hj) as (w & _ & _ & (_ & Hk & _) & _). apply (Hno b _ Hj). by injection Hk as _ ->. }
  eapply (lease_upd n L); [done | | | intros n' ?; cbn; by rewrite lookup_insert_ne |].
  - apply caches_used. intros b'. rewrite buffered_with, max_with. destruct (decide (b' = b)); [|apply H].
    split; [by apply buffer_insert_sorted, H|]. etrans; [apply buffer_insert_length | fold l; lia].
  - split; [intros n' ?; cbn; by rewrite lookup_delete_ne|]. intros b' x Hx. rewrite buffered_used, buffered_with.
    destruct (decide (b' = b)) as [->|]; [|done]. by apply (cache_insert_other _ _ _ n).
  - unfold lease_at. cbn [with_leases a_leases with_used usedMemory_]. rewrite lookup_insert_eq, decide_True by done.
    assert (Hb : negb (lmi_fdMode (lease_reown c (cache_size i) v).1) = b) by (cbn; rewrite (lr_kind _ _ R); apply negb_involutive).
    rewrite Hb. split_and!; [apply lookup_delete_eq | |].
    + exists (mkMLSMemKey (cache_size i) n, mi_reown c (cache_size i) i). split; [|done].
      rewrite buffered_used, buffered_with, decide_True by done. apply buffer_insert_elem; [done | by left].
    + intros b' x. rewrite buffered_used, buffered_with. destruct (decide (b' = b)) as [->|].
      * intros [->|Hx]%buffer_insert_in Hn; [|by destruct (Hno b x)]. split_and!; [by rewrite Hb | done | done |].
        destruct R. by split.
      * intros Hx Hn. by destruct (Hno b' x).
Qed.

(** The part of a cache without one of its entries. *)
Lemma cache_without L a b l1 x l2 :
  lease_inv L a -> buffered L b = l1 ++ x :: l2 ->
  let L' := with_buffered L b (l1 ++ l2) in
  caches_ok L' /\ not_cached L' (mi_name x.2) /\ (forall b' y, mi_name y.2 <> mi_name x.2 -> y ∈ buffered L' b' <-> y ∈ buffered L b').
Proof.
  intros H E L'. assert (Hin : forall y, y ∈ buffered L b <-> y = x \/ y ∈ l1 ++ l2) by (intros y; rewrite E, !elem_of_app, elem_of_cons; tauto).
  assert (Hs := proj1 (proj1 H b)). rewrite E in Hs. split_and!.
  - intros b'. subst L'. rewrite buffered_with, max_with. destruct (decide (b' = b)) as [->|]; [|apply H].
    split; [by eapply sorted_drop_one|]. pose proof (proj2 (proj1 H b)) as Hl. rewrite E, !length_app in *. cbn in Hl. lia.
  - intros b' y Hy Hn. subst L'. rewrite buffered_with in Hy. destruct (decide (b' = b)) as [->|Hne].
    + assert (y = x) as ->.
      { eapply (cached_inj L a b y b x H); [apply Hin; by right | apply Hin; by left | done]. }
      pose proof (sorted_NoDup _ Hs) as Hnd.
      apply NoDup_app in Hnd as (_ & Hd & Hnd). apply NoDup_cons in Hnd as [Hx2 _]. apply elem_of_app in Hy as [Hy|Hy]; [|done].
      apply (Hd x Hy). by left.
    + destruct (cached_inj L a b' y b x H Hy) as [? _]; [apply Hin; by left | done | done].
  - intros b' y Hy. subst L'. rewrite buffered_with. destruct (decide (b' = b)) as [->|]; [|done]. rewrite Hin.
    split; [by right | by intros [->|?]].
Qed.

(** A cached lease leaves the cache for an owner. *)
Lemma cache_to_used L a b l1 x l2 v c sz :
  lease_inv L a -> buffered L b = l1 ++ x :: l2 -> a_leases a !! mi_name x.2 = Some v -> ac_pid c <> 0%Z ->
  lease_inv (with_used (with_buffered L b (l1 ++ l2)) (<[mi_name x.2 := mi_reown c sz x.2]> (usedMemory_ L)))
    (with_leases a (<[mi_name x.2 := lease_reown c sz v]> (a_leases a)) (a_lines a)).
Proof.
  intros H E Ev Hc. destruct (cache_without _ _ _ _ _ _ H E) as (Hok & Hno & Hs).
  destruct (cached_entry L a b x H) as (w & Ew & _ & (_ & _ & _ & R) & _); [rewrite E; apply elem_of_app; right; by left|]. simplify_eq.
  eapply (lease_upd (mi_name x.2) L); [done | by apply caches_used | | intros n' ?; cbn; by rewrite lookup_insert_ne |].
  - split; [intros n' ?; cbn; by rewrite lookup_insert_ne|]. intros b' y Hy. rewrite buffered_used. by apply Hs.
  - eapply owner_used_at; [apply lookup_insert_eq | done | apply lookup_insert_eq | | by apply not_cached_used]. destruct R. by split.
Qed.

(** A cached lease is returned: its record and its entry go. *)
Lemma cache_remove L a b l1 x l2 l :
  lease_inv L a -> buffered L b = l1 ++ x :: l2 ->
  lease_inv (with_buffered L b (l1 ++ l2)) (with_leases a (delete (mi_name x.2) (a_leases a)) l).
Proof.
  intros H E. destruct (cache_without _ _ _ _ _ _ H E) as (Hok & Hno & Hs).
  destruct (cached_entry L a b x H) as (w & Ew & _ & _ & Hu); [rewrite E; apply elem_of_app; right; by left|].
  eapply (lease_upd (mi_name x.2) L); [done | done | | intros n' ?; cbn; by rewrite lookup_delete_ne |].
  - split; [intros n' ?; by rewrite used_with | exact Hs].
  - unfold lease_at. cbn. rewrite lookup_delete_eq. by rewrite used_with.
Qed.

(** The state of a cached lease's record changes. *)
Lemma cache_restate L a b x v st :
  lease_inv L a -> x ∈ buffered L b -> a_leases a !! mi_name x.2 = Some v -> st = PRE_DEL \/ st = FINISH ->
  lease_inv L (with_leases a (<[mi_name x.2 := lease_restate st v]> (a_leases a)) (a_lines a)).
Proof.
  intros H Hx Ev Hst. destruct (cached_entry _ _ _ _ H Hx) as (w & Ew & Hp & (Hb & Hk & Hz & R) & Hu). simplify_eq.
  eapply (lease_upd (mi_name x.2) L); [done | apply H | apply same_but_refl | intros n' ?; cbn; by rewrite lookup_insert_ne |].
  unfold lease_at. cbn [with_leases a_leases]. rewrite lookup_insert_eq, decide_True by done. split_and!; [done | by exists x |].
  intros b' y Hy Hn. destruct (cached_inj L a b' y _ x H Hy Hx Hn) as [-> ->]. split_and!; [done | done | done |]. apply restate_rec; [done | tauto].
Qed.

End Agreement.

(** * The operations of the lease manager keep its maps and the store in agreement. *)

(** ** Programs that keep a property of the daemon *)

Definition keeps (P : Daemon AStore -> Prop) {A} (m : M (S := AStore) A) : Prop := forall d, P d -> P (m d).2.

Create HintDb keeps.

Section Programs.
Context (P : Daemon AStore -> Prop).

Lemma keeps_ret {A} (x : A) : keeps P (ret x).
Proof. by intros d. Qed.

Lemma keeps_bind {A B} (m : M A) (k : A -> M B) : keeps P m -> (forall x, keeps P (k x)) -> keeps P (bind m k).
Proof. intros Hm Hk d H. unfold bind. specialize (Hm d H). destruct (m d) as [x d1]. by apply Hk. Qed.

Lemma keeps_get_attached : keeps P get_attached.
Proof. by intros d. Qed.

Lemma keeps_get_leases : keeps P get_leases.
Proof. by intros d. Qed.

Lemma keeps_query {A} (f : AStore -> A) : keeps P (query f).
Proof. by intros d. Qed.

Lemma keeps_busy n : keeps P (GetDelayRemoveRecord n).
Proof. by intros d. Qed.

End Programs.

#[export] Hint Resolve keeps_ret keeps_get_attached keeps_get_leases keeps_query keeps_busy : keeps.

(** One construct of a program at a time. *)
Ltac keep :=
  repeat first
    [ progress intros
    | solve [eauto with keeps]
    | apply keeps_bind
    | match goal with
      | |- keeps _ (match ?x with _ => _ end) => destruct x
      | |- keeps _ (if ?x then _ else _) => destruct x
      | |- keeps _ (let '(_, _) := ?x in _) => destruct x
      end ].

(** ** The manager *)

Section Operations.
Context {G : Geometry}.
Implicit Types (d : Daemon AStore).

(** Effects that touch neither the leases nor the store. *)
Lemma keeps_trace_lease c : keeps lease_coherent (trace c).
Proof. by intros d. Qed.

Lemma keeps_delay_lease k : keeps lease_coherent (AddDelayRemoveRecord k).
Proof. by intros d. Qed.

Lemma keeps_attached_lease m : keeps lease_coherent (set_attached m).
Proof. by intros d. Qed.

Ltac op_start := unfold keeps, bind, get_leases, call, set_leases, ret; intros d [W H].

(** A manager operation on a used lease: its entry, its record, and a well-formed store after the call. *)
Ltac used_case n o Hok :=
  let E := fresh "E" in
  destruct (usedMemory_ (leases_ _) !! n) as [i|] eqn:E; [|done];
  match goal with W : wf_abs (store_ ?d), H : lease_inv _ _ |- _ =>
    pose proof (spec_run_wf o (store_ d) W Hok) as W';
    destruct (used_entry _ _ _ _ H E) as (v & Ev & Hp & R & Hno);
    destruct (wf_lease _ W _ _ Ev) as [Hn Hg]
  end.

Lemma keeps_BufferUsed n i d :
  wf_abs (store_ d) -> lease_inv (leases_ d) (store_ d) -> usedMemory_ (leases_ d) !! n = Some i ->
  let '(r, d') := BufferUsedMemory i d in
  usedMemory_ (leases_ d') = usedMemory_ (leases_ d) /\ wf_abs (store_ d') /\
  if Z.eqb r 1 then lease_inv (with_used (leases_ d') (delete n (usedMemory_ (leases_ d')))) (store_ d') else d' = d /\ r = 0%Z.
Proof.
  intros W H E. destruct (used_entry _ _ _ _ H E) as (v & Ev & Hp & R & Hno). destruct (wf_lease _ W _ _ Ev) as [Hn Hg].
  assert (Hi : mi_name i = n) by (by rewrite <- (lr_name _ _ R)). unfold BufferUsedMemory, bind, get_leases.
  destruct (Nat.ltb_spec (length (buffered (leases_ d) (mi_isNuma i))) (maxBufferedMemNum_ (leases_ d))) as [Hl|]; [|by cbn].
  set (c := mkAppContext 0 _ _). pose proof (spec_run_wf (OpSetLeaseOwner n c (cache_size i)) (store_ d) W I) as W'.
  unfold call. rewrite Hi. cbn [exec AStore_API spec_run] in *. rewrite Ev in *. cbn [negb Z.eqb set_leases ret leases_ store_]. split_and!; [by rewrite used_with | exact W' |].
  cbn [Z.eqb]. rewrite used_with. rewrite <- Hi in *. by apply used_to_cache.
Qed.

Lemma keeps_PreDelete n : keeps lease_coherent (PreDeleteUsedMem n).
Proof.
  intros d [W H]. unfold PreDeleteUsedMem, bind at 1, get_leases. used_case n (OpSetLeaseState n PRE_DEL) I.
  assert (Hset : forall d', d' = d -> lease_coherent ((let* r := call (OpSetLeaseState n PRE_DEL) in if negb (Z.eqb r 0) then ret r else ret 0%Z) d').2).
  { intros d' ->. unfold bind, call. cbn [exec AStore_API spec_run] in *. rewrite Ev in *. cbn. split; [exact W'|].
    eapply used_record; [done | done | done | apply restate_rec; [done | by auto]]. }
  destruct (isEnableLeaseBuffered_ (leases_ d)); [|by apply Hset]. unfold bind at 1. pose proof (keeps_BufferUsed n i d W H E) as Hb.
  destruct (BufferUsedMemory i d) as [r d1]. destruct Hb as (Hu & W1 & Hb). destruct (Z.eqb r 1).
  - by split.
  - destruct Hb as [-> ->]. by apply Hset.
Qed.

Lemma keeps_Delete n : keeps lease_coherent (DeleteUsedMem n).
Proof.
  unfold DeleteUsedMem. op_start. used_case n (OpDelLease n) I. cbn [exec AStore_API spec_run] in *. rewrite Ev in *. cbn.
  split; [exact W'|]. by eapply used_remove.
Qed.

Lemma keeps_PreAdd n sz c isNuma level : good_name n -> ac_pid c <> 0%Z -> keeps lease_coherent (PreAddUsedMem n sz c isNuma level).
Proof.
  intros Hg Hp. unfold PreAddUsedMem. op_start. destruct (usedMemory_ (leases_ d) !! n) eqn:E; [done|].
  set (input := mkLeaseMallocInput _ _ _ _ _ _). pose proof (spec_run_wf (OpAddLeaseInput input) (store_ d) W Hg) as W'.
  cbn [exec AStore_API spec_run] in *. destruct (decide _) as [[En _]|]; [|by destruct d]. cbn in *. split; [exact W'|].
  destruct (unused_entry _ _ _ H En) as [_ Hno].
  eapply used_replace; [done | done | exact Hp | | reflexivity]. split; try done; [|by left | by right].
  cbn. unfold u8. by rewrite Zmod_mod.
Qed.

Lemma keeps_FinishAdd n numa unit slot ids : keeps lease_coherent (FinishAddUsedMem n numa unit slot ids).
Proof.
  unfold FinishAddUsedMem. op_start. destruct (usedMemory_ (leases_ d) !! n) as [i|] eqn:E; [|done].
  destruct (used_entry _ _ _ _ H E) as (v & Ev & Hp & R & Hno). destruct (wf_lease _ W _ _ Ev) as [Hn Hg].
  set (res := mkLeaseMallocResult _ _ _ _). pose proof (spec_run_wf (OpAddLeaseResult n res) (store_ d) W I) as W'.
  cbn [exec AStore_API spec_run] in *. rewrite Ev in *. destruct (decide _); [|by destruct d]. cbn in *. split; [exact W'|].
  eapply used_replace; [done | done | exact Hp | | reflexivity]. destruct R. split; try done; by left.
Qed.

Lemma keeps_UpdateState n st : keeps lease_coherent (UpdateMemRecordState n st).
Proof.
  unfold UpdateMemRecordState. op_start. used_case n (OpSetLeaseState n st) I. cbn [exec AStore_API spec_run] in *. rewrite Ev in *. cbn.
  split; [exact W'|]. eapply used_replace; [done | done | exact Hp | by apply restate_both | done].
Qed.

Lemma keeps_ReuseBuffered e sz isNuma region c : ac_pid c <> 0%Z -> keeps lease_coherent (ReuseBufferedMem e sz isNuma region c).
Proof.
  intros Hc d [W H]. unfold ReuseBufferedMem, bind at 1, get_leases. destruct (negb (isEnableLeaseBuffered_ _)); [done|].
  destruct (GetRegionInfo e region) as [hr slots]. destruct (negb (Z.eqb hr 0)); [done|]. unfold ReuseMemInSlotId, bind, get_leases.
  destruct (lower_bound _ _) as [l0 from] eqn:El. pose proof (find_slot_spec slots from) as Hf. destruct (find_slot slots from) as [[[l1 x] l2]|]; [|done].
  destruct Hf as (-> & _). destruct (lower_bound_spec _ _ _ _ El) as (Eb & _). rewrite app_assoc in Eb. rewrite (app_assoc l0 l1 l2).
  destruct (cached_entry (leases_ d) (store_ d) isNuma x H) as (v & Ev & Hp & (Hb & Hk & Hz & R) & Hu); [rewrite Eb; apply elem_of_app; right; by left|].
  pose proof (spec_run_wf (OpSetLeaseOwner (mi_name x.2) c sz) (store_ d) W I) as W'. unfold call. cbn [exec AStore_API spec_run] in *. rewrite Ev in *.
  pose proof (cache_to_used _ _ _ _ _ _ _ c sz H Eb Ev Hc) as Hfin. cbn [fst snd negb Z.eqb ret set_leases leases_ store_ mi_name] in *.
  assert (He : RecordStore.emplace (mi_name x.2)
            (mkMLSMemInfo (mi_name x.2) c sz (mi_numaId x.2) (mi_memIds x.2) (mi_unitSize x.2) (mi_perflevel x.2) (mi_slotId x.2) isNuma (mi_state x.2))
            (usedMemory_ (leases_ d)) = <[mi_name x.2 := mi_reown c sz x.2]> (usedMemory_ (leases_ d))).
  { unfold RecordStore.emplace. rewrite Hu. unfold mi_reown. do 2 f_equal. rewrite Hb, (lr_kind _ _ R). apply negb_involutive. }
  rewrite used_with, He. repeat case_match; by split.
Qed.

(** ** Emptying the caches *)

Lemma keeps_LeaseFree e n b : keeps lease_coherent (LeaseFree e n b).
Proof. unfold LeaseFree. pose proof keeps_trace_lease. keep. Qed.

Lemma LeaseFree_outside e n b d : store_ (LeaseFree e n b d).2 = store_ d /\ leases_ (LeaseFree e n b d).2 = leases_ d.
Proof. unfold LeaseFree, bind, trace, ret. repeat case_match; simplify_eq/=; done. Qed.

(** Returning one cached lease: the manager's maps are not touched yet; when it
    succeeds the store agrees with the cache without this entry. *)
Lemma LeaseFreeMemory_spec e L b l1 x l2 d :
  wf_abs (store_ d) -> lease_inv L (store_ d) -> buffered L b = l1 ++ x :: l2 ->
  let '(r, d') := LeaseFreeMemory e (mi_name x.2) b d in
  leases_ d' = leases_ d /\ wf_abs (store_ d') /\ lease_inv (if Z.eqb r 0 then with_buffered L b (l1 ++ l2) else L) (store_ d').
Proof.
  intros W H Eb. assert (Hx : x ∈ buffered L b) by (rewrite Eb; apply elem_of_app; right; by left).
  destruct (cached_entry _ _ _ _ H Hx) as (v & Ev & _). set (n := mi_name x.2) in *. unfold LeaseFreeMemory, bind at 1, call at 1.
  pose proof (spec_run_wf (OpSetLeaseState n PRE_DEL) (store_ d) W I) as W1. cbn [exec AStore_API spec_run] in *. rewrite Ev in *. cbn [negb Z.eqb].
  pose proof (cache_restate _ _ _ _ _ PRE_DEL H Hx Ev (or_introl eq_refl)) as H1. cbn [snd] in W1. set (a1 := with_leases _ _ _) in *.
  set (d1 := mkDaemon _ a1 _ _ _ _). unfold bind at 1. destruct (LeaseFree_outside e n b d1) as [Es El]. destruct (LeaseFree e n b d1) as [r d2]. cbn [fst snd] in *.
  assert (Ev1 : a_leases a1 !! n = Some (lease_restate PRE_DEL v)) by apply lookup_insert_eq.
  destruct (negb (Z.eqb r 0) && _) eqn:Er; unfold bind, call; rewrite Es; cbn [store_ d1].
  - pose proof (spec_run_wf (OpSetLeaseState n FINISH) a1 W1 I) as W2. cbn [exec AStore_API spec_run] in *. rewrite Ev1 in *.
    cbn [ret leases_ store_]. split_and!; [done | exact W2 |]. apply andb_true_iff in Er as [Er%negb_true_iff _]. rewrite Er. by apply (cache_restate L a1 b); auto.
  - pose proof (spec_run_wf (OpDelLease n) a1 W1 I) as W2. cbn [exec AStore_API spec_run] in *. rewrite Ev1 in *.
    cbn [negb Z.eqb ret leases_ store_]. split_and!; [done | exact W2 |]. by apply (cache_remove L a1 b).
Qed.

Lemma with_buffered_twice L b l l' : with_buffered (with_buffered L b l) b l' = with_buffered L b l'.
Proof. by destruct b. Qed.

(** The loop over one cache: [kept] stays in front of the entries not yet visited. *)
Lemma free_buffered_spec e b l kept L d :
  wf_abs (store_ d) -> lease_inv (with_buffered L b (kept ++ l)) (store_ d) ->
  let '(rest, d') := free_buffered e b l d in
  leases_ d' = leases_ d /\ wf_abs (store_ d') /\ lease_inv (with_buffered L b (kept ++ rest)) (store_ d').
Proof.
  revert kept d. induction l as [|x l IH]; intros kept d W H; [done|]. cbn [free_buffered]. unfold bind at 1.
  pose proof (LeaseFreeMemory_spec e _ b kept x l d W H) as Hs. rewrite buffered_with, decide_True in Hs by done. specialize (Hs eq_refl).
  destruct (LeaseFreeMemory e (mi_name x.2) b d) as [r d1]. destruct Hs as (El & W1 & H1). unfold bind. rewrite with_buffered_twice in H1.
  destruct (Z.eqb r 0); cbn [negb].
  - specialize (IH kept d1 W1 H1). destruct (free_buffered e b l d1) as [rest d2]. destruct IH as (E2 & W2 & H2). cbn [ret]. by rewrite E2.
  - specialize (IH (kept ++ [x]) d1 W1). rewrite <- app_assoc in IH. specialize (IH H1).
    destruct (free_buffered e b l d1) as [rest d2]. destruct IH as (E2 & W2 & H2). cbn [ret]. rewrite <- app_assoc in H2. by rewrite E2.
Qed.

Lemma keeps_DeleteAll e : keeps lease_coherent (DeleteAllBufferedMem e).
Proof.
  intros d [W H]. unfold DeleteAllBufferedMem, bind, get_leases. destruct (negb _); [done|]. set (L := leases_ d) in *.
  pose proof (free_buffered_spec e true (numaBufferedMemory_ L) [] L d W) as H1. cbn [app] in H1.
  assert (with_buffered L true (numaBufferedMemory_ L) = L) as E1 by (by destruct L). rewrite E1 in H1. specialize (H1 H).
  destruct (free_buffered e true _ d) as [numa d1]. destruct H1 as (_ & W1 & H1).
  pose proof (free_buffered_spec e false (fdBufferedMemory_ L) [] (with_buffered L true numa) d1 W1) as H2. cbn [app] in H2.
  assert (with_buffered (with_buffered L true numa) false (fdBufferedMemory_ L) = with_buffered L true numa) as E2 by (by destruct L).
  rewrite E2 in H2. specialize (H2 H1). destruct (free_buffered e false _ d1) as [fd d2]. destruct H2 as (_ & W2 & H2). by split.
Qed.

End Operations.

#[export] Hint Resolve keeps_trace_lease keeps_delay_lease keeps_attached_lease keeps_PreDelete keeps_Delete keeps_PreAdd keeps_FinishAdd
  keeps_UpdateState keeps_ReuseBuffered keeps_LeaseFree keeps_DeleteAll : keeps.
