(* ===== verification/DaemonKeeps.v ===== *)
(** Every handler of the daemon keeps both services' maps in agreement with the
    store, leaves the region records alone, and runs on the abstract store as it runs on any store behind the
    interface. *)

From S2P Require Import Prelude StoreTypes IdPool IdPoolSpec RecordAllocator RecordStore StoreTable StoreInv StoreSteps StoreRestart StoreSpec RegionNodes StoreTheorems MsgPacker MsgBase MsgRequests MsgResponses StoreInterface Daemon ShmManager ShmHandlers DaemonSim ShmCoherence LeaseEngine LeaseManager LeaseHandlers Monitor LeaseInv.
Import SHMManager MLSManager.

(** ** Calls of the store for one service leave the other's records alone *)

Definition lease_op (o : op) : bool :=
  match o with
  | OpAddLeaseInput _ | OpAddLeaseResult _ _ | OpSetLeaseState _ _ | OpSetLeaseOwner _ _ _ | OpDelLease _ => true
  | _ => false
  end.

Definition shm_op (o : op) : bool :=
  match o with
  | OpAddImportInput _ | OpAddImportResult _ _ | OpSetImportState _ _ | OpDelImport _ | OpAddRef _ _ | OpDelRef _ _ | OpDelRefsByPid _ => true
  | _ => false
  end.

Definition region_op (o : op) : bool := match o with OpAddRegion _ | OpDelRegion _ => true | _ => false end.

(** The region records are [X]. *)
Definition regions_are (X : gmap string CreateRegionInput) (d : Daemon AStore) : Prop :=
  wf_abs (store_ d) /\ a_regions (store_ d) = X.

(** The properties that all handlers keep. *)
Definition kept_property (P : Daemon AStore -> Prop) : Prop :=
  P = coherent \/ P = lease_coherent \/ exists X, P = regions_are X.

Section Frames.
Context {G : Geometry}.

Lemma spec_run_regions o a : region_op o = false -> a_regions (spec_run o a).2 = a_regions a.
Proof. destruct o; cbn [region_op spec_run]; try done; intros _; unfold refused; repeat case_match; done. Qed.

Lemma keeps_call_regions X o : op_ok o -> region_op o = false -> keeps (regions_are X) (call o).
Proof.
  intros Hok Ho d [W H]. unfold call. cbn [exec AStore_API]. pose proof (spec_run_regions o (store_ d) Ho) as Er.
  pose proof (spec_run_wf o (store_ d) W Hok) as W'. destruct (spec_run o (store_ d)) as [r a]. split; [done|]. cbn in *. congruence.
Qed.

Lemma keeps_trace_regions X c : keeps (regions_are X) (trace c).
Proof. by intros d. Qed.

Lemma keeps_delay_regions X k : keeps (regions_are X) (AddDelayRemoveRecord k).
Proof. by intros d. Qed.

Lemma keeps_leases_regions X L : keeps (regions_are X) (set_leases L).
Proof. by intros d. Qed.

Lemma keeps_attached_regions X m : keeps (regions_are X) (set_attached m).
Proof. by intros d. Qed.

Lemma spec_run_leases o a : lease_op o = false -> a_leases (spec_run o a).2 = a_leases a.
Proof. destruct o; cbn [lease_op spec_run]; try done; intros _; unfold refused; repeat case_match; done. Qed.

Lemma spec_run_imports o a :
  shm_op o = false -> a_imports (spec_run o a).2 = a_imports a /\ a_refs (spec_run o a).2 = a_refs a.
Proof. destruct o; cbn [shm_op spec_run]; try done; intros _; unfold refused; repeat case_match; done. Qed.

Lemma keeps_call_lease o : op_ok o -> lease_op o = false -> keeps lease_coherent (call o).
Proof.
  intros Hok Ho d [W [Hc H]]. unfold call. cbn [exec AStore_API]. pose proof (spec_run_leases o (store_ d) Ho) as El.
  pose proof (spec_run_wf o (store_ d) W Hok) as W'. destruct (spec_run o (store_ d)) as [r a]. split; [done|]. split; [done|].
  intros n. specialize (H n). unfold lease_at in *. cbn in *. by rewrite El.
Qed.

Lemma keeps_call_shm o : op_ok o -> shm_op o = false -> keeps coherent (call o).
Proof.
  intros Hok Ho d [W H]. unfold call. cbn [exec AStore_API]. destruct (spec_run_imports o (store_ d) Ho) as [Ei Er].
  pose proof (spec_run_wf o (store_ d) W Hok) as W'. destruct (spec_run o (store_ d)) as [r a]. split; [done|]. cbn in *.
  intros n. specialize (H n). unfold agrees in *. rewrite Ei. destruct (a_imports (store_ d) !! n); [|done].
  destruct H as (pids & E & Hu). exists pids. split; [done|]. intros p. unfold a_count. rewrite Er. apply Hu.
Qed.

Lemma keeps_trace_shm c : keeps coherent (trace c).
Proof. by intros d. Qed.

Lemma keeps_delay_shm k : keeps coherent (AddDelayRemoveRecord k).
Proof. by intros d. Qed.

Lemma keeps_leases_shm L : keeps coherent (set_leases L).
Proof. by intros d. Qed.

Lemma keeps_erase (P : Daemon AStore -> Prop) k :
  kept_property P -> keeps P (EraseDelayRemoveRecord k).
Proof. by intros [-> | [-> | [X ->]]] d. Qed.

Lemma keeps_delayed P : keeps P get_delayed.
Proof. by intros d. Qed.

End Frames.

#[export] Hint Extern 1 (op_ok _) => cbn [op_ok]; solve [done | eauto with tracks] : keeps.
#[export] Hint Extern 1 (lease_op _ = _) => reflexivity : keeps.
#[export] Hint Extern 1 (shm_op _ = _) => reflexivity : keeps.
#[export] Hint Extern 1 (region_op _ = _) => reflexivity : keeps.
#[export] Hint Resolve keeps_call_regions keeps_trace_regions keeps_delay_regions keeps_leases_regions keeps_attached_regions : keeps.
#[export] Hint Resolve keeps_call_lease keeps_call_shm keeps_trace_shm keeps_delay_shm keeps_leases_shm keeps_erase keeps_delayed s32_pid : keeps.

(** ** The shared-memory handlers and the leases *)

Section ShmLeases.
Context {G : Geometry}.
Abbreviation kept m := (keeps lease_coherent m).

Lemma leases_AddUser n p : pid_range p -> kept (AddMemoryUserInfo n p).
Proof. intros H. unfold AddMemoryUserInfo. keep. Qed.

Lemma leases_RemoveUser n p : kept (RemoveMemoryUserInfo n p).
Proof. unfold RemoveMemoryUserInfo. keep. Qed.

Lemma leases_PrepareAdd n sz p : good_name n -> kept (PrepareAddShareMemoryInfo n sz p).
Proof. intros H. unfold PrepareAddShareMemoryInfo. keep. Qed.

Lemma leases_AddFull n p r : good_name n -> pid_range p -> kept (AddFullShareMemoryInfo n p r).
Proof. intros H Hp. unfold AddFullShareMemoryInfo. keep. Qed.

Lemma leases_UpdateState n st : kept (UpdateShareMemoryRecordState n st).
Proof. unfold UpdateShareMemoryRecordState. keep. Qed.

Lemma leases_RemoveInfo n f : kept (RemoveMemoryInfo n f).
Proof.
  unfold RemoveMemoryInfo, remove_unused. assert (forall l, kept (del_refs n l)) by (induction l; simpl; keep). keep.
Qed.

#[local] Hint Resolve leases_AddUser leases_RemoveUser leases_PrepareAdd leases_AddFull leases_UpdateState leases_RemoveInfo : keeps.

Lemma leases_Attach e n i r : kept (ShmAttach e n i r).
Proof. unfold ShmAttach. keep. Qed.

Lemma leases_Detach e n : kept (ShmDetach e n).
Proof. unfold ShmDetach. keep. Qed.

Lemma leases_ShmDelete e n : kept (ShmDelete e n).
Proof. unfold ShmDelete. keep. Qed.

#[local] Hint Resolve leases_Attach leases_Detach leases_ShmDelete : keeps.

Lemma leases_ShmMap e req rsp u : good_name (ShmMapRequest_name_ req) -> kept (ShmMap e req rsp u).
Proof.
  intros H. unfold ShmMap, GetShareMemoryInfo, HandleExistingShm, map_new, ShmMmapInner, RollBackAttachShareMemory. keep.
Qed.

Lemma leases_ShmUnmap e n u : kept (ShmUnmap e n u).
Proof. unfold ShmUnmap, ShmUnMapInner, GetShareMemoryInfo, GetMemoryUsersCountByName. keep. Qed.

Lemma leases_Delete e n u : kept (ShmDeleteRequested e n u).
Proof. unfold ShmDeleteRequested, GetMemoryUsersCountByName, GetShareMemoryInfo. keep. Qed.

Lemma leases_Dead e p : kept (SHMProcessDeadProcess e p).
Proof. unfold SHMProcessDeadProcess, GetMemoryUsersByPid. apply keeps_bind; [keep|]. intros l. induction l; simpl; keep. Qed.

Lemma leases_Clean e n c t i q : kept (CleanShareMemoryLeakInner e n c t i q).
Proof. unfold CleanShareMemoryLeakInner, TryRollBackTimeoutShmTask. keep. Qed.

End ShmLeases.

#[export] Hint Resolve leases_ShmMap leases_ShmUnmap leases_Delete leases_Dead leases_Clean : keeps.

(** ** The lease handlers and the shared memories *)

Section LeasesShm.
Context {G : Geometry}.
Abbreviation kept m := (keeps coherent m).

Lemma shm_BufferUsed i : kept (BufferUsedMemory i).
Proof. unfold BufferUsedMemory. keep. Qed.

#[local] Hint Resolve shm_BufferUsed : keeps.

Lemma shm_PreDelete n : kept (PreDeleteUsedMem n).
Proof. unfold PreDeleteUsedMem. keep. Qed.

Lemma shm_DeleteUsed n : kept (DeleteUsedMem n).
Proof. unfold DeleteUsedMem. keep. Qed.

Lemma shm_PreAdd n sz c b p : good_name n -> kept (PreAddUsedMem n sz c b p).
Proof. intros H. unfold PreAddUsedMem. keep. Qed.

Lemma shm_FinishAdd n a b c l : kept (FinishAddUsedMem n a b c l).
Proof. unfold FinishAddUsedMem. keep. Qed.

Lemma shm_UpdateLease n st : kept (UpdateMemRecordState n st).
Proof. unfold UpdateMemRecordState. keep. Qed.

Lemma shm_ReuseBuffered e sz b r c : kept (ReuseBufferedMem e sz b r c).
Proof. unfold ReuseBufferedMem, ReuseMemInSlotId. keep. Qed.

Lemma shm_LeaseFree e n b : kept (LeaseFree e n b).
Proof. unfold LeaseFree. keep. Qed.

#[local] Hint Resolve shm_LeaseFree : keeps.

Lemma shm_free_buffered e b l : kept (free_buffered e b l).
Proof. induction l; cbn [free_buffered]; [|unfold LeaseFreeMemory]; keep. Qed.

#[local] Hint Resolve shm_free_buffered : keeps.

Lemma shm_DeleteAll e : kept (DeleteAllBufferedMem e).
Proof. unfold DeleteAllBufferedMem. keep. Qed.

End LeasesShm.

#[export] Hint Resolve shm_PreDelete shm_DeleteUsed shm_PreAdd shm_FinishAdd shm_UpdateLease shm_ReuseBuffered shm_LeaseFree shm_DeleteAll : keeps.

(** ** All handlers and the regions *)

Section Regions.
Context {G : Geometry} (X : gmap string CreateRegionInput).
Abbreviation kept m := (keeps (regions_are X) m).

Lemma regions_BufferUsed i : kept (BufferUsedMemory i).
Proof. unfold BufferUsedMemory. keep. Qed.

#[local] Hint Resolve regions_BufferUsed : keeps.

Lemma regions_PreDelete n : kept (PreDeleteUsedMem n).
Proof. unfold PreDeleteUsedMem. keep. Qed.

Lemma regions_DeleteUsed n : kept (DeleteUsedMem n).
Proof. unfold DeleteUsedMem. keep. Qed.

Lemma regions_PreAdd n sz c b p : good_name n -> kept (PreAddUsedMem n sz c b p).
Proof. intros H. unfold PreAddUsedMem. keep. Qed.

Lemma regions_FinishAdd n a b c l : kept (FinishAddUsedMem n a b c l).
Proof. unfold FinishAddUsedMem. keep. Qed.

Lemma regions_UpdateLease n st : kept (UpdateMemRecordState n st).
Proof. unfold UpdateMemRecordState. keep. Qed.

Lemma regions_ReuseBuffered e sz b r c : kept (ReuseBufferedMem e sz b r c).
Proof. unfold ReuseBufferedMem, ReuseMemInSlotId. keep. Qed.

Lemma regions_LeaseFree e n b : kept (LeaseFree e n b).
Proof. unfold LeaseFree. keep. Qed.

#[local] Hint Resolve regions_LeaseFree : keeps.

Lemma regions_free_buffered e b l : kept (free_buffered e b l).
Proof. induction l; cbn [free_buffered]; [|unfold LeaseFreeMemory]; keep. Qed.

#[local] Hint Resolve regions_free_buffered : keeps.

Lemma regions_DeleteAll e : kept (DeleteAllBufferedMem e).
Proof. unfold DeleteAllBufferedMem. keep. Qed.

Lemma regions_AddUser n p : pid_range p -> kept (AddMemoryUserInfo n p).
Proof. intros H. unfold AddMemoryUserInfo. keep. Qed.

Lemma regions_RemoveUser n p : kept (RemoveMemoryUserInfo n p).
Proof. unfold RemoveMemoryUserInfo. keep. Qed.

Lemma regions_PrepareAdd n sz p : good_name n -> kept (PrepareAddShareMemoryInfo n sz p).
Proof. intros H. unfold PrepareAddShareMemoryInfo. keep. Qed.

Lemma regions_AddFull n p r : good_name n -> pid_range p -> kept (AddFullShareMemoryInfo n p r).
Proof. intros H Hp. unfold AddFullShareMemoryInfo. keep. Qed.

Lemma regions_UpdateState n st : kept (UpdateShareMemoryRecordState n st).
Proof. unfold UpdateShareMemoryRecordState. keep. Qed.

Lemma regions_RemoveInfo n f : kept (RemoveMemoryInfo n f).
Proof. unfold RemoveMemoryInfo, remove_unused. assert (forall l, kept (del_refs n l)) by (induction l; simpl; keep). keep. Qed.

#[local] Hint Resolve regions_AddUser regions_RemoveUser regions_PrepareAdd regions_AddFull regions_UpdateState regions_RemoveInfo : keeps.

Lemma regions_Attach e n i r : kept (ShmAttach e n i r).
Proof. unfold ShmAttach. keep. Qed.

Lemma regions_Detach e n : kept (ShmDetach e n).
Proof. unfold ShmDetach. keep. Qed.

Lemma regions_ShmDelete e n : kept (ShmDelete e n).
Proof. unfold ShmDelete. keep. Qed.

#[local] Hint Resolve regions_Attach regions_Detach regions_ShmDelete : keeps.

Lemma regions_ShmMap e req rsp u : good_name (ShmMapRequest_name_ req) -> kept (ShmMap e req rsp u).
Proof.
  intros H. unfold ShmMap, GetShareMemoryInfo, HandleExistingShm, map_new, ShmMmapInner, RollBackAttachShareMemory. keep.
Qed.

Lemma regions_ShmUnmap e n u : kept (ShmUnmap e n u).
Proof. unfold ShmUnmap, ShmUnMapInner, GetShareMemoryInfo, GetMemoryUsersCountByName. keep. Qed.

Lemma regions_Delete e n u : kept (ShmDeleteRequested e n u).
Proof. unfold ShmDeleteRequested, GetMemoryUsersCountByName, GetShareMemoryInfo. keep. Qed.

Lemma regions_Dead e p : kept (SHMProcessDeadProcess e p).
Proof. unfold SHMProcessDeadProcess, GetMemoryUsersByPid. apply keeps_bind; [keep|]. intros l. induction l; simpl; keep. Qed.

Lemma regions_Clean e n c t i q : kept (CleanShareMemoryLeakInner e n c t i q).
Proof. unfold CleanShareMemoryLeakInner, TryRollBackTimeoutShmTask. keep. Qed.

End Regions.

#[export] Hint Resolve regions_PreDelete regions_DeleteUsed regions_PreAdd regions_FinishAdd regions_UpdateLease regions_ReuseBuffered
  regions_LeaseFree regions_DeleteAll regions_Attach regions_Detach regions_ShmMap regions_ShmUnmap regions_Delete regions_Dead regions_Clean : keeps.

(** ** The lease handlers and the monitor, for the three properties

    What is used of [P] are the operations of the managers and the effects outside them. *)

Section Handlers.
Context {G : Geometry} (P : Daemon AStore -> Prop) (HP : kept_property P).

Ltac both := destruct HP as [-> | [-> | [X ->]]]; keep.

Lemma both_trace c : keeps P (trace c).
Proof. both. Qed.

Lemma both_delay k : keeps P (AddDelayRemoveRecord k).
Proof. both. Qed.

Lemma both_LeaseFree e n b : keeps P (LeaseFree e n b).
Proof. both. Qed.

Lemma both_PreDelete n : keeps P (PreDeleteUsedMem n).
Proof. both. Qed.

Lemma both_Delete n : keeps P (DeleteUsedMem n).
Proof. both. Qed.

Lemma both_PreAdd n sz c b p : good_name n -> ac_pid c <> 0%Z -> keeps P (PreAddUsedMem n sz c b p).
Proof. intros. both. Qed.

Lemma both_FinishAdd n a b c l : keeps P (FinishAddUsedMem n a b c l).
Proof. both. Qed.

Lemma both_UpdateLease n st : keeps P (UpdateMemRecordState n st).
Proof. both. Qed.

Lemma both_Reuse e sz b r c : ac_pid c <> 0%Z -> keeps P (ReuseBufferedMem e sz b r c).
Proof. intros. both. Qed.

#[local] Hint Resolve both_trace both_delay both_LeaseFree both_PreDelete both_Delete both_PreAdd both_FinishAdd both_UpdateLease both_Reuse : keeps.

Lemma both_Permission e n c : keeps P (FdPermissionChange e n c).
Proof. unfold FdPermissionChange. keep. Qed.

Lemma both_Malloc e p : keeps P (LeaseMalloc e p).
Proof. unfold LeaseMalloc, created. keep. Qed.

Lemma both_MallocLoc e p : keeps P (LeaseMallocWithLoc e p).
Proof. unfold LeaseMallocWithLoc, created. keep. Qed.

#[local] Hint Resolve both_Permission both_Malloc both_MallocLoc : keeps.

Lemma both_finish e n b sz un r rsp : keeps P (finish_borrow e n b sz un r rsp).
Proof. unfold finish_borrow, RollBackBorrowNewMemory. keep. Qed.

Lemma both_cached e sz r b c rsp : ac_pid c <> 0%Z -> keeps P (ReuseCachedLeaseMemory e sz r b c rsp).
Proof. intros H. unfold ReuseCachedLeaseMemory, RollBackReuseCacheMemory. keep. Qed.

#[local] Hint Resolve both_finish both_cached : keeps.

Lemma both_AppMalloc e req rsp u :
  good_name (le_new_name e (AppMallocMemoryRequest_size_ req)) -> uds_pid u <> 0%Z -> keeps P (AppMallocMemory e req rsp u).
Proof. intros Hn Hu. unfold AppMallocMemory, BorrowMemory, BorrowNewMemory. keep. Qed.

Lemma both_AppMallocLoc e req rsp u :
  good_name (le_new_name e (AppMallocMemoryWithLocRequest_size_ req)) -> uds_pid u <> 0%Z -> keeps P (AppMallocMemoryWithLoc e req rsp u).
Proof. intros Hn Hu. unfold AppMallocMemoryWithLoc, BorrowMemoryWithLender. keep. Qed.

Lemma both_AppFree e n u : keeps P (AppFreeMemory e n u).
Proof. unfold AppFreeMemory, GetUsedMemByName. keep. Qed.

#[local] Hint Resolve both_AppFree : keeps.

Lemma both_ForceFree e : keeps P (AppForceFreeCachedMemory e).
Proof. unfold AppForceFreeCachedMemory. both. Qed.

Lemma both_Check e names u : keeps P (AppCheckMemoryLease e names u).
Proof.
  unfold AppCheckMemoryLease, GetUsedMemByPid. apply keeps_bind; [keep|]. intros l. induction l; cbn [free_unlisted]; [|unfold CleanNotUsedRecordLeaseMemory]; keep.
Qed.

Lemma both_CleanLease e n c ch t b : keeps P (CleanLeaseMemoryLeakInner e n c ch t b).
Proof. unfold CleanLeaseMemoryLeakInner, GetUsedMemByName. keep. Qed.

Lemma both_CleanShm e n c t i q : keeps P (CleanShareMemoryLeakInner e n c t i q).
Proof. destruct HP as [-> | [-> | [X ->]]]; [intros d; apply keep_clean | keep | keep]. Qed.

Lemma both_Dead e p : keeps P (SHMProcessDeadProcess e p).
Proof. destruct HP as [-> | [-> | [X ->]]]; [intros d; apply keep_dead | keep | keep]. Qed.

Lemma both_Suspend p : pid_range p -> keeps P (call (OpDelSuspend p)).
Proof. intros H. both. Qed.

#[local] Hint Resolve both_CleanLease both_CleanShm both_Dead both_Suspend : keeps.

Lemma both_schedule e f l : keeps P (schedule_leases e f l).
Proof. induction l; cbn [schedule_leases]; [|unfold schedule_lease]; keep. Qed.

#[local] Hint Resolve both_schedule : keeps.

Lemma both_process_dead e l : keeps P (process_dead e l).
Proof. induction l; cbn [process_dead]; keep. Qed.

#[local] Hint Resolve both_process_dead : keeps.

Lemma both_Start e alive : keeps P (Start e alive).
Proof. unfold Start, CleanLeaseMemoryLeakWhenStart, ListAllMem, CleanShareMemoryLeakWhenStart, GetAllUsers. keep. Qed.

Lemma both_ClientExited e pid : pid_range pid -> keeps P (ClientProcessExited e pid).
Proof. intros H. unfold ClientProcessExited, ListAllMem. keep. Qed.

#[local] Hint Resolve both_ClientExited : keeps.

Lemma both_exited e pids : keeps P (clients_exited e pids).
Proof. induction pids; cbn [clients_exited]; keep. Qed.

#[local] Hint Resolve both_Start both_exited : keeps.

Lemma both_RemoveImmediately e alive pids : keeps P (RemoveImmediatelyBorrows e alive pids).
Proof. unfold RemoveImmediatelyBorrows. keep. Qed.

Lemma both_remove_keys e l : keeps P (remove_keys e l).
Proof. induction l; cbn [remove_keys]; [|unfold remove_key]; keep. Qed.

Lemma both_add_keys l : keeps P (add_keys l).
Proof. induction l; cbn [add_keys]; keep. Qed.

#[local] Hint Resolve both_remove_keys both_add_keys : keeps.

Lemma both_RemoveDelay e : keeps P (RemoveDelayBorrows e).
Proof. unfold RemoveDelayBorrows. keep. Qed.

End Handlers.

(** * The lease service and the monitor run on the abstract store as they run on
    any store behind the interface. *)

Import MLSManager.

Section Effects.
Context {G : Geometry} {S : Type} `{!RecordStoreAPI S} `{!RecordStoreLaws S}.

Lemma tracks_get_leases : tracks (S := S) get_leases get_leases.
Proof. by intros d V. Qed.

Lemma tracks_set_leases L : tracks (S := S) (set_leases L) (set_leases L).
Proof. by intros d V. Qed.

Lemma tracks_leases : tracks (S := S) (query list_leases) (query list_leases).
Proof. intros d V. unfold query. simpl. by rewrite (list_leases_view _ V). Qed.

Lemma tracks_erase k : tracks (S := S) (EraseDelayRemoveRecord k) (EraseDelayRemoveRecord k).
Proof. by intros d V. Qed.

Lemma tracks_delayed : tracks (S := S) get_delayed get_delayed.
Proof. by intros d V. Qed.

End Effects.

#[export] Hint Resolve tracks_get_leases tracks_set_leases tracks_leases tracks_erase tracks_delayed : tracks.

Section Clients.
Context {G : Geometry} {S : Type} `{!RecordStoreAPI S} `{!RecordStoreLaws S}.

(** ** The manager *)

Lemma tracks_BufferUsed i : tracks (BufferUsedMemory (S := S) i) (BufferUsedMemory i).
Proof. unfold BufferUsedMemory. track. Qed.

#[local] Hint Resolve tracks_BufferUsed : tracks.

Lemma tracks_PreDelete n : tracks (PreDeleteUsedMem (S := S) n) (PreDeleteUsedMem n).
Proof. unfold PreDeleteUsedMem. track. Qed.

Lemma tracks_DeleteUsed n : tracks (DeleteUsedMem (S := S) n) (DeleteUsedMem n).
Proof. unfold DeleteUsedMem. track. Qed.

Lemma tracks_PreAdd n sz c b p : good_name n -> tracks (PreAddUsedMem (S := S) n sz c b p) (PreAddUsedMem n sz c b p).
Proof. intros H. unfold PreAddUsedMem. track. Qed.

Lemma tracks_FinishAdd n x y z l : tracks (FinishAddUsedMem (S := S) n x y z l) (FinishAddUsedMem n x y z l).
Proof. unfold FinishAddUsedMem. track. Qed.

Lemma tracks_UpdateLease n st : tracks (UpdateMemRecordState (S := S) n st) (UpdateMemRecordState n st).
Proof. unfold UpdateMemRecordState. track. Qed.

Lemma tracks_Reuse e sz b r c : tracks (ReuseBufferedMem (S := S) e sz b r c) (ReuseBufferedMem e sz b r c).
Proof. unfold ReuseBufferedMem, ReuseMemInSlotId. track. Qed.

Lemma tracks_LeaseFree e n b : tracks (LeaseFree (S := S) e n b) (LeaseFree e n b).
Proof. unfold LeaseFree. track. Qed.

#[local] Hint Resolve tracks_PreDelete tracks_DeleteUsed tracks_PreAdd tracks_FinishAdd tracks_UpdateLease tracks_Reuse tracks_LeaseFree : tracks.

Lemma tracks_free_buffered e b l : tracks (free_buffered (S := S) e b l) (free_buffered e b l).
Proof. induction l; cbn [free_buffered]; [|unfold LeaseFreeMemory]; track. Qed.

#[local] Hint Resolve tracks_free_buffered : tracks.

Lemma tracks_DeleteAll e : tracks (DeleteAllBufferedMem (S := S) e) (DeleteAllBufferedMem e).
Proof. unfold DeleteAllBufferedMem. track. Qed.

#[local] Hint Resolve tracks_DeleteAll : tracks.

Lemma tracks_ListAll : tracks (ListAllMem (S := S)) ListAllMem.
Proof. unfold ListAllMem. track. Qed.

Lemma tracks_UsedByName n : tracks (GetUsedMemByName (S := S) n) (GetUsedMemByName n).
Proof. unfold GetUsedMemByName. track. Qed.

Lemma tracks_UsedByPid p : tracks (GetUsedMemByPid (S := S) p) (GetUsedMemByPid p).
Proof. unfold GetUsedMemByPid. track. Qed.

#[local] Hint Resolve tracks_ListAll tracks_UsedByName tracks_UsedByPid : tracks.

Lemma tracks_recover_leases e l : tracks (recover_leases (S := S) e l) (recover_leases e l).
Proof. induction l; cbn [recover_leases]; [|unfold recover_lease_state, RemovePreAddRecord, RollbackPreDeleteRecord]; track. Qed.

#[local] Hint Resolve tracks_recover_leases : tracks.

Lemma tracks_LeaseRecovery e sw : tracks (RecoverFromRecord (S := S) e sw) (RecoverFromRecord e sw).
Proof. unfold RecoverFromRecord. track. Qed.

(** ** The handlers *)

Lemma tracks_Permission e n c : tracks (FdPermissionChange (S := S) e n c) (FdPermissionChange e n c).
Proof. unfold FdPermissionChange. track. Qed.

Lemma tracks_Malloc e p : tracks (LeaseMalloc (S := S) e p) (LeaseMalloc e p).
Proof. unfold LeaseMalloc, created. track. Qed.

Lemma tracks_MallocLoc e p : tracks (LeaseMallocWithLoc (S := S) e p) (LeaseMallocWithLoc e p).
Proof. unfold LeaseMallocWithLoc, created. track. Qed.

#[local] Hint Resolve tracks_Permission tracks_Malloc tracks_MallocLoc : tracks.

Lemma tracks_finish e n b sz un r rsp : tracks (finish_borrow (S := S) e n b sz un r rsp) (finish_borrow e n b sz un r rsp).
Proof. unfold finish_borrow, RollBackBorrowNewMemory. track. Qed.

Lemma tracks_cached e sz r b c rsp : tracks (ReuseCachedLeaseMemory (S := S) e sz r b c rsp) (ReuseCachedLeaseMemory e sz r b c rsp).
Proof. unfold ReuseCachedLeaseMemory, RollBackReuseCacheMemory. track. Qed.

#[local] Hint Resolve tracks_finish tracks_cached : tracks.

Lemma tracks_AppMalloc e req rsp u :
  good_name (le_new_name e (AppMallocMemoryRequest_size_ req)) ->
  tracks (AppMallocMemory (S := S) e req rsp u) (AppMallocMemory e req rsp u).
Proof. intros H. unfold AppMallocMemory, BorrowMemory, BorrowNewMemory. track. Qed.

Lemma tracks_AppMallocLoc e req rsp u :
  good_name (le_new_name e (AppMallocMemoryWithLocRequest_size_ req)) ->
  tracks (AppMallocMemoryWithLoc (S := S) e req rsp u) (AppMallocMemoryWithLoc e req rsp u).
Proof. intros H. unfold AppMallocMemoryWithLoc, BorrowMemoryWithLender. track. Qed.

Lemma tracks_AppFree e n u : tracks (AppFreeMemory (S := S) e n u) (AppFreeMemory e n u).
Proof. unfold AppFreeMemory. track. Qed.

#[local] Hint Resolve tracks_AppFree : tracks.

Lemma tracks_ForceFree e : tracks (AppForceFreeCachedMemory (S := S) e) (AppForceFreeCachedMemory e).
Proof. unfold AppForceFreeCachedMemory. track. Qed.

Lemma tracks_Check e names u : tracks (AppCheckMemoryLease (S := S) e names u) (AppCheckMemoryLease e names u).
Proof.
  unfold AppCheckMemoryLease. apply tracks_bind; [track|]. intros l. induction l; cbn [free_unlisted]; [|unfold CleanNotUsedRecordLeaseMemory]; track.
Qed.

Lemma tracks_CleanLease e n c ch t b : tracks (CleanLeaseMemoryLeakInner (S := S) e n c ch t b) (CleanLeaseMemoryLeakInner e n c ch t b).
Proof. unfold CleanLeaseMemoryLeakInner. track. Qed.

#[local] Hint Resolve tracks_CleanLease : tracks.

(** ** The monitor *)

Lemma tracks_schedule e f l : tracks (schedule_leases (S := S) e f l) (schedule_leases e f l).
Proof. induction l; cbn [schedule_leases]; [|unfold schedule_lease]; track. Qed.

Lemma tracks_process_dead e l : tracks (process_dead (S := S) e l) (process_dead e l).
Proof. induction l; cbn [process_dead]; track. Qed.

#[local] Hint Resolve tracks_schedule tracks_process_dead : tracks.

Lemma tracks_Start e alive : tracks (Start (S := S) e alive) (Start e alive).
Proof. unfold Start, CleanLeaseMemoryLeakWhenStart, CleanShareMemoryLeakWhenStart, SHMManager.GetAllUsers. track. Qed.

Lemma tracks_ClientExited e pid : pid_range pid -> tracks (ClientProcessExited (S := S) e pid) (ClientProcessExited e pid).
Proof. intros H. unfold ClientProcessExited. track. Qed.

#[local] Hint Resolve tracks_ClientExited : tracks.

Lemma tracks_exited e pids : tracks (clients_exited (S := S) e pids) (clients_exited e pids).
Proof. induction pids; cbn [clients_exited]; track. Qed.

#[local] Hint Resolve tracks_Start tracks_exited : tracks.

Lemma tracks_RemoveImmediately e alive pids : tracks (RemoveImmediatelyBorrows (S := S) e alive pids) (RemoveImmediatelyBorrows e alive pids).
Proof. unfold RemoveImmediatelyBorrows. track. Qed.

Lemma tracks_remove_keys e l : tracks (remove_keys (S := S) e l) (remove_keys e l).
Proof. induction l; cbn [remove_keys]; [|unfold remove_key]; track. Qed.

Lemma tracks_add_keys l : tracks (add_keys (S := S) l) (add_keys l).
Proof. induction l; cbn [add_keys]; track. Qed.

#[local] Hint Resolve tracks_remove_keys tracks_add_keys : tracks.

Lemma tracks_RemoveDelay e : tracks (RemoveDelayBorrows (S := S) e) (RemoveDelayBorrows e).
Proof. unfold RemoveDelayBorrows. track. Qed.

End Clients.

#[export] Hint Resolve tracks_LeaseRecovery tracks_AppMalloc tracks_AppMallocLoc tracks_AppFree tracks_ForceFree tracks_Check tracks_CleanLease
  tracks_ClientExited tracks_RemoveImmediately tracks_RemoveDelay : tracks.
