(* ===== verification/LeaseRecovery.v ===== *)
(** Recovery of the lease manager after a restart of the daemon. *)

From S2P Require Import Prelude StoreTypes IdPool IdPoolSpec RecordAllocator RecordStore StoreTable StoreInv StoreSteps StoreRestart StoreSpec RegionNodes StoreTheorems StoreInterface Daemon LeaseEngine LeaseManager LeaseInv.
Import MLSManager.

(** The engine says in which stage the memory of a lease is, be it that there is none. *)
Definition lease_answered (e : LeaseEngine) (v : LeaseMallocInput * LeaseMallocResult) : Prop :=
  let r := (GetLeaseMemoryStage e (lmi_name v.1) (negb (lmi_fdMode v.1))).1 in r = MXM_OK \/ r = MXM_ERR_LEASE_NOT_EXIST.

#[export] Instance lease_answered_dec e v : Decision (lease_answered e v).
Proof. unfold lease_answered. apply _. Defined.

Section Recovery.
Context {G : Geometry}.
Implicit Types (d : Daemon AStore).
Abbreviation records d := (a_leases (store_ d)).
Abbreviation named v := (lmi_name v.1).

(** What the recovery relies on for a record: the engine answers when it is
    asked, and a cached lease has the size of its memory. *)
Definition recoverable_lease (e : LeaseEngine) (v : LeaseMallocInput * LeaseMallocResult) : Prop :=
  (lmi_state v.1 = PRE_ADD \/ lmi_state v.1 = PRE_DEL -> lease_answered e v) /\
  (owner v = 0%Z -> lmi_size v.1 = u64 (lmr_unitSize v.2 * Z.of_nat (length (lmr_memIds v.2)))).

(** Only the records and the scheduled removals have changed. *)
Definition only_records d d1 (x : gmap string (LeaseMallocInput * LeaseMallocResult)) : Prop :=
  leases_ d1 = leases_ d /\ engine_trace d1 = engine_trace d /\ wf_abs (store_ d1) /\ records d1 = x.

Lemma restate_same v : lease_restate (lmi_state v.1) v = v.
Proof. by destruct v as [[] ?]. Qed.

Lemma call_state d n v st :
  wf_abs (store_ d) -> records d !! n = Some v ->
  exists d1, call (OpSetLeaseState n st) d = (0%Z, d1) /\ only_records d d1 (<[n := lease_restate st v]> (records d)).
Proof.
  intros W E. pose proof (spec_run_wf (OpSetLeaseState n st) (store_ d) W I) as W'. unfold call. cbn [exec AStore_API spec_run] in *. rewrite E in *.
  eexists. split; [reflexivity|]. by split_and!.
Qed.

Lemma call_delete d n v :
  wf_abs (store_ d) -> records d !! n = Some v ->
  exists d1, call (OpDelLease n) d = (0%Z, d1) /\ only_records d d1 (delete n (records d)).
Proof.
  intros W E. pose proof (spec_run_wf (OpDelLease n) (store_ d) W I) as W'. unfold call. cbn [exec AStore_API spec_run] in *. rewrite E in *.
  eexists. split; [reflexivity|]. by split_and!.
Qed.

(** One record: it is deleted, or its state is settled and it enters the maps. *)
Lemma lease_state_spec e v d :
  wf_abs (store_ d) -> records d !! named v = Some v -> recoverable_lease e v ->
  exists st d1, recover_lease_state e v d = (st, d1) /\
    only_records d d1 (match st with None => delete (named v) (records d) | Some st => <[named v := lease_restate st v]> (records d) end) /\
    (lmi_state v.1 = FINISH -> st = Some FINISH).
Proof.
  intros W E [Ha _]. destruct (call_delete d (named v) v W E) as (dd & Ed & Hd). unfold recover_lease_state.
  assert (Hsame : only_records d d (<[named v := lease_restate (lmi_state v.1) v]> (records d))) by (rewrite restate_same, insert_id by done; by split_and!).
  destruct (decide (lmi_state v.1 = PRE_ADD)) as [Hs|Hs].
  - rewrite bool_decide_true by done. rewrite (bool_decide_false (_ = PRE_DEL)) by (by rewrite Hs).
    assert (Ha' : lease_answered e v) by (by apply Ha; left). unfold RemovePreAddRecord, lease_answered in *. unfold bind.
    destruct (GetLeaseMemoryStage e _ _) as [r stage]. cbn [fst] in Ha'. destruct (Z.eqb_spec r MXM_ERR_LEASE_NOT_EXIST).
    { rewrite Ed. eexists None, dd. split; [done|]. split; [done | by rewrite Hs]. }
    destruct Ha' as [-> | ?]; [change (negb (Z.eqb MXM_OK 0)) with false; cbn beta iota | done]. destruct (_ || _).
    { rewrite Ed. eexists None, dd. split; [done|]. split; [done | by rewrite Hs]. }
    unfold AddDelayRemoveRecord. cbn. eexists (Some _), _. split; [reflexivity|]. split; [exact Hsame | by rewrite Hs].
  - rewrite bool_decide_false by done. unfold bind at 1. cbn [ret]. destruct (decide (lmi_state v.1 = PRE_DEL)) as [Hp|Hp].
    + rewrite bool_decide_true by done. assert (Ha' : lease_answered e v) by (by apply Ha; right). unfold RollbackPreDeleteRecord, lease_answered in *.
      unfold bind at 1. destruct (GetLeaseMemoryStage e _ _) as [r stage]. cbn [fst] in Ha'.
      assert (Hst : forall st (z : Z), z = 0%Z -> exists d1, (let* _ := call (OpSetLeaseState (named v) st) in ret (z, st)) d = ((0%Z, st), d1) /\
        only_records d d1 (<[named v := lease_restate st v]> (records d))).
      { intros st z ->. destruct (call_state d (named v) v st W E) as (d1 & E1 & H1). exists d1. unfold bind. by rewrite E1. }
      destruct (Hst DELETED MXM_OK eq_refl) as (d1 & E1 & H1). destruct (Hst FINISH 0%Z eq_refl) as (d2 & E2 & H2).
      destruct (Z.eqb_spec r MXM_ERR_LEASE_NOT_EXIST); [rewrite E1; eexists (Some _), _; split_and!; [done | apply H1 .. | by rewrite Hp]|].
      destruct Ha' as [-> | ?]; [change (negb (Z.eqb MXM_OK 0)) with false; cbn beta iota | done]. destruct (_ || _).
      * rewrite E1. eexists (Some _), _. split_and!; [done | apply H1 .. | by rewrite Hp].
      * rewrite E2. eexists (Some _), _. split_and!; [done | apply H2 .. | by rewrite Hp].
    + rewrite bool_decide_false by done. eexists (Some _), d. split; [done|]. split; [exact Hsame | by intros ->].
Qed.

(** ** Entering the maps *)

Definition caches_sorted (L : MLSState) : Prop := forall b, sorted (buffered L b).

Lemma recovered_rec v st : lease_rec (recovered_info v st) (lease_restate st v).
Proof. split; try done; [by destruct v as [[[] ] ?] | by left | by left]. Qed.

Lemma load_cached_lookup L v st :
  owner v = 0%Z ->
  load_lease (recovered_info v st) L =
    with_buffered L (negb (lmi_fdMode v.1)) (buffer_insert (mkMLSMemKey (lmi_size v.1) (named v)) (recovered_info v st) (buffered L (negb (lmi_fdMode v.1)))).
Proof. intros H. unfold load_lease. cbn. by rewrite H. Qed.

Lemma load_used_lookup L v st :
  owner v <> 0%Z -> usedMemory_ L !! named v = None ->
  load_lease (recovered_info v st) L = with_used L (<[named v := recovered_info v st]> (usedMemory_ L)).
Proof.
  intros H E. unfold load_lease. cbn. destruct (Z.eqb_spec (owner v) 0); [done|]. f_equal. unfold RecordStore.emplace. by rewrite E.
Qed.

(** Where an owned or unowned description is. *)
Definition placed (L : MLSState) (i : MLSMemInfo) : Prop :=
  if decide (ac_pid (mi_appContext i) = 0%Z) then (mkMLSMemKey (mi_size i) (mi_name i), i) ∈ buffered L (mi_isNuma i)
  else usedMemory_ L !! mi_name i = Some i.

Lemma load_spec L a v st l :
  caches_sorted L -> usedMemory_ L !! named v = None -> not_cached L (named v) ->
  (forall b x, x ∈ buffered L b -> mk_name x.1 = mi_name x.2) ->
  (owner v = 0%Z -> lmi_size v.1 = u64 (lmr_unitSize v.2 * Z.of_nat (length (lmr_memIds v.2)))) ->
  let L' := load_lease (recovered_info v st) L in
  caches_sorted L' /\ same_but (named v) L L' /\ (forall b x, x ∈ buffered L' b -> mk_name x.1 = mi_name x.2) /\
  lease_at L' (with_leases a (<[named v := lease_restate st v]> (a_leases a)) l) (named v) /\ placed L' (recovered_info v st) /\
  maxBufferedMemNum_ L' = maxBufferedMemNum_ L.
Proof.
  intros Hs Hu Hno Hkeys Hz. cbv zeta. destruct (decide (owner v = 0%Z)) as [Ho|Ho].
  - rewrite load_cached_lookup by done. set (b := negb (lmi_fdMode v.1)). set (k := mkMLSMemKey (lmi_size v.1) (named v)).
    assert (Hk : forall j, (k, j) ∉ buffered L b).
    { intros j Hj. pose proof (Hkeys _ _ Hj) as Hn. cbn in Hn. by destruct (Hno b (k, j) Hj). }
    split_and!.
    + intros b'. rewrite buffered_with. destruct (decide _); [by apply buffer_insert_sorted | apply Hs].
    + split; [intros n' _; by rewrite used_with|]. intros b' x Hx. rewrite buffered_with. destruct (decide (b' = b)) as [->|]; [|done].
      by apply (cache_insert_other _ _ _ (named v)).
    + intros b' x. rewrite buffered_with. destruct (decide (b' = b)) as [->|]; [|apply Hkeys]. intros [->|Hx]%buffer_insert_in; [done | by eapply Hkeys].
    + unfold lease_at. cbn [with_leases a_leases]. rewrite lookup_insert_eq, decide_True by done. rewrite used_with. split_and!; [done | |].
      * exists (k, recovered_info v st). split; [|done]. rewrite buffered_with, decide_True by done. apply buffer_insert_elem; [done | by left].
      * intros b' x. rewrite buffered_with. destruct (decide (b' = b)) as [->|]; [|by intros Hx Hn; destruct (Hno b' x)].
        intros [->|Hx]%buffer_insert_in Hn; [|by destruct (Hno b x)]. split_and!; [done | done | by apply Hz | apply recovered_rec].
    + unfold placed. cbn. rewrite decide_True by done. rewrite buffered_with, decide_True by done. apply buffer_insert_elem; [done | by left].
    + apply max_with.
  - rewrite load_used_lookup by done. split_and!.
    + intros b. rewrite buffered_used. apply Hs.
    + apply same_but_used. intros. by rewrite lookup_insert_ne.
    + intros b x. rewrite buffered_used. apply Hkeys.
    + eapply owner_used_at; [apply lookup_insert_eq | done | apply lookup_insert_eq | apply recovered_rec | by apply not_cached_used].
    + unfold placed. cbn. rewrite decide_False by done. apply lookup_insert_eq.
    + done.
Qed.

(** ** The loop *)

(** The records [l] are still to come; the others are settled. *)
Record pending (e : LeaseEngine) (l : list (LeaseMallocInput * LeaseMallocResult)) (d : Daemon AStore) : Prop := {
  pd_wf : wf_abs (store_ d);
  pd_sorted : caches_sorted (leases_ d);
  pd_keys : forall b x, x ∈ buffered (leases_ d) b -> mk_name x.1 = mi_name x.2;
  pd_names : NoDup ((fun v => named v) <$> l);
  pd_record : forall v, v ∈ l -> records d !! named v = Some v /\ recoverable_lease e v;
  pd_absent : forall v, v ∈ l -> usedMemory_ (leases_ d) !! named v = None /\ not_cached (leases_ d) (named v);
  pd_settled : forall n, n ∉ (fun v => named v) <$> l -> lease_at (leases_ d) (store_ d) n;
}.

Lemma pending_head e v l d : pending e (v :: l) d -> named v ∉ (fun v => named v) <$> l.
Proof. intros H. pose proof (pd_names _ _ _ H) as Hn. by apply NoDup_cons in Hn as []. Qed.

(** The maps and the records change for the first record only. *)
Lemma pending_next e v l d d1 :
  pending e (v :: l) d -> wf_abs (store_ d1) -> caches_sorted (leases_ d1) ->
  (forall b x, x ∈ buffered (leases_ d1) b -> mk_name x.1 = mi_name x.2) ->
  same_but (named v) (leases_ d) (leases_ d1) -> (forall n, n <> named v -> records d1 !! n = records d !! n) ->
  lease_at (leases_ d1) (store_ d1) (named v) -> pending e l d1.
Proof.
  intros H W Hs Hk Hb Hr Hat. pose proof (pending_head _ _ _ _ H) as Hv. assert (Hne : forall w, w ∈ l -> named w <> named v).
  { intros w Hw E. apply Hv. rewrite <- E. by apply (list_elem_of_fmap_2 (fun v => named v)). }
  split; try done.
  - pose proof (pd_names _ _ _ H) as Hn. by apply NoDup_cons in Hn as [].
  - intros w Hw. rewrite Hr by (by apply Hne). apply (pd_record _ _ _ H). by right.
  - intros w Hw. destruct (pd_absent _ _ _ H w) as [Hu Hc]; [by right|]. destruct Hb as [Bu Bc]. split; [rewrite Bu; auto|].
    intros b x Hx E. apply (Hc b x); [apply Bc in Hx; [done | rewrite E; auto] | done].
  - intros n Hn. destruct (decide (n = named v)) as [->|Hne']; [done|]. eapply lease_at_other; [done | done | by apply Hr|].
    apply (pd_settled _ _ _ H). rewrite fmap_cons, elem_of_cons. tauto.
Qed.

Lemma placed_other n L L' i : same_but n L L' -> mi_name i <> n -> placed L i -> placed L' i.
Proof. intros [Hu Hb] Hn. unfold placed. destruct (decide _); [by rewrite Hb | by rewrite Hu]. Qed.

(** From before to after: records are deleted or keep all but their state. *)
Definition shrunk d d' : Prop := forall n w, records d' !! n = Some w -> exists v st, records d !! n = Some v /\ w = lease_restate st v.

(** What recovering the records [l] makes of a daemon. *)
Record recovers (e : LeaseEngine) (l : list (LeaseMallocInput * LeaseMallocResult)) (d d' : Daemon AStore) : Prop := {
  rc_done : pending e [] d';
  rc_trace : engine_trace d' = engine_trace d;
  rc_max : maxBufferedMemNum_ (leases_ d') = maxBufferedMemNum_ (leases_ d);
  rc_shrunk : shrunk d d';
  rc_finished : forall v, v ∈ l -> lmi_state v.1 = FINISH -> placed (leases_ d') (recovered_info v FINISH);
  rc_others : forall i, placed (leases_ d) i -> mi_name i ∉ (fun v => named v) <$> l -> placed (leases_ d') i;
}.

(** [v] is settled on the way from [d] to [d2], and nothing else is touched. *)
Record settles (v : LeaseMallocInput * LeaseMallocResult) (d d2 : Daemon AStore) : Prop := {
  st_trace : engine_trace d2 = engine_trace d;
  st_max : maxBufferedMemNum_ (leases_ d2) = maxBufferedMemNum_ (leases_ d);
  st_maps : same_but (named v) (leases_ d) (leases_ d2);
  st_others : forall n, n <> named v -> records d2 !! n = records d !! n;
  st_record : forall w, records d2 !! named v = Some w -> exists st, w = lease_restate st v;
  st_finished : lmi_state v.1 = FINISH -> placed (leases_ d2) (recovered_info v FINISH);
}.

Lemma recovers_cons e v l d d2 d' :
  records d !! named v = Some v -> named v ∉ (fun v => named v) <$> l -> settles v d d2 -> recovers e l d2 d' -> recovers e (v :: l) d d'.
Proof.
  intros Ev Hv [T2 M2 B2 R2 RV F2] [P' T' M' S' F' K']. split; [done | congruence | congruence | | |].
  - intros n w Ew. destruct (S' n w Ew) as (v2 & st2 & E2 & ->). destruct (decide (n = named v)) as [->|Hne].
    + destruct (RV v2 E2) as (st3 & ->). by exists v, st2.
    + rewrite R2 in E2 by done. eauto.
  - intros w [->|Hw]%elem_of_cons Hs; [|by apply F']. apply K'; [by apply F2 | done].
  - intros i Hi Hn. rewrite fmap_cons, elem_of_cons in Hn. apply K'; [|tauto]. eapply placed_other; [done | tauto | done].
Qed.

(** The record is gone and the maps are as before. *)
Lemma settles_deleted e v l d d2 :
  pending e (v :: l) d -> leases_ d2 = leases_ d -> engine_trace d2 = engine_trace d -> wf_abs (store_ d2) ->
  records d2 = delete (named v) (records d) -> lmi_state v.1 <> FINISH -> pending e l d2 /\ settles v d d2.
Proof.
  intros H EL ET W ER Hs. destruct (pd_absent _ _ _ H v) as [Hu Hno]; [by left|].
  assert (Hb : same_but (named v) (leases_ d) (leases_ d2)) by (rewrite EL; apply same_but_refl).
  assert (Ho : forall n, n <> named v -> records d2 !! n = records d !! n) by (intros; rewrite ER; by rewrite lookup_delete_ne). split.
  - eapply (pending_next e v l d d2); try done; try (rewrite EL; apply H). unfold lease_at. by rewrite ER, lookup_delete_eq, EL.
  - split; try done; [by rewrite EL | intros w; by rewrite ER, lookup_delete_eq].
Qed.

(** The record is kept and entered into the maps. *)
Lemma settles_loaded e v l d d1 st :
  pending e (v :: l) d -> leases_ d1 = leases_ d -> engine_trace d1 = engine_trace d -> wf_abs (store_ d1) ->
  records d1 = <[named v := lease_restate st v]> (records d) -> (lmi_state v.1 = FINISH -> Some st = Some FINISH) ->
  let d2 := (set_leases (load_lease (recovered_info v st) (leases_ d)) d1).2 in pending e l d2 /\ settles v d d2.
Proof.
  intros H EL ET W ER Hfin. cbv zeta. destruct (pd_absent _ _ _ H v) as [Hu Hno]; [by left|]. destruct (pd_record _ _ _ H v) as [Ev Hr]; [by left|].
  assert (Ev1 : records d1 !! named v = Some (lease_restate st v)) by (rewrite ER; apply lookup_insert_eq).
  assert (Ho : forall n, n <> named v -> records d1 !! n = records d !! n) by (intros; rewrite ER; by rewrite lookup_insert_ne).
  destruct (load_spec (leases_ d) (store_ d1) v st 0 (pd_sorted _ _ _ H) Hu Hno (pd_keys _ _ _ H) (proj2 Hr)) as (Hs & Hb & Hk & Hat & Hpl & Hm). split.
  - eapply (pending_next e v l d); cbn [set_leases snd leases_ store_]; try done.
    unfold lease_at in *. cbn [with_leases a_leases] in Hat. rewrite lookup_insert_eq in Hat. by rewrite Ev1.
  - split; cbn [set_leases snd leases_ store_ engine_trace]; try done.
    + intros w. rewrite Ev1. intros [= <-]. eauto.
    + intros [= ->]%Hfin. exact Hpl.
Qed.

Lemma recover_leases_spec e l d : pending e l d -> exists d', recover_leases e l d = (tt, d') /\ recovers e l d d'.
Proof.
  revert d. induction l as [|v l IH]; intros d H.
  { exists d. split; [done|]. split; [done | done | done | | by intros ? ?%not_elem_of_nil | done].
    intros n w E. exists w, (lmi_state w.1). by rewrite restate_same. }
  destruct (pd_record _ _ _ H v) as [Ev Hr]; [by left|]. pose proof (pending_head _ _ _ _ H) as Hv.
  destruct (lease_state_spec e v d (pd_wf _ _ _ H) Ev Hr) as (st & d1 & E1 & (EL & ET & W1 & ER) & Hfin).
  assert (Hgo : forall d2, pending e l d2 /\ settles v d d2 -> exists d', recover_leases e l d2 = (tt, d') /\ recovers e (v :: l) d d').
  { intros d2 [P2 S2]. destruct (IH d2 P2) as (d' & E' & R'). exists d'. split; [done|]. by eapply recovers_cons. }
  cbn [recover_leases]. unfold bind at 1. rewrite E1. destruct st as [st|].
  - destruct (decide (st = DELETED)) as [->|Hst].
    + rewrite bool_decide_true by done. unfold bind at 1.
      destruct (call_delete d1 (named v) (lease_restate DELETED v) W1) as (d2 & -> & (EL2 & ET2 & W2 & ER2)); [by rewrite ER, lookup_insert_eq|].
      rewrite ER, delete_insert_eq in ER2. apply Hgo. eapply settles_deleted; try done; try congruence. by intros Hs%Hfin.
    + rewrite bool_decide_false by done. unfold bind, get_leases. rewrite EL. by apply Hgo, settles_loaded.
  - apply Hgo. eapply settles_deleted; try done. by intros Hs%Hfin.
Qed.

(** ** The whole recovery

    [L0] are the maps before the restart, with which the store still agrees. *)

Lemma buffer_names_NoDup L a b : lease_inv L a -> NoDup ((fun x => mi_name x.2) <$> buffered L b).
Proof.
  intros H. pose proof (sorted_NoDup _ (proj1 (proj1 H b))) as Hn. apply NoDup_fmap_2_strong; [|done].
  intros x y Hx Hy E. by destruct (cached_inj _ _ _ _ _ _ H Hx Hy E).
Qed.

Lemma recovered_bound L0 L d d' b :
  lease_inv L0 (store_ d) -> lease_inv L (store_ d') -> shrunk d d' -> length (buffered L b) <= length (buffered L0 b).
Proof.
  intros H0 H Hs. rewrite <- !(length_fmap (fun x => mi_name x.2)). apply submseteq_length, NoDup_submseteq; [by eapply buffer_names_NoDup|].
  intros n (x & -> & Hx)%list_elem_of_fmap. destruct (cached_entry _ _ _ _ H Hx) as (w & Ew & Hw & (Hb & _) & _).
  destruct (Hs _ _ Ew) as (v & st & Ev & ->). destruct H0 as [_ H0]. specialize (H0 (mi_name x.2)). unfold lease_at in H0.
  rewrite Ev, decide_True in H0 by done. destruct H0 as (_ & (y & Hy & Hn) & _). rewrite Hb. rewrite <- Hn.
  by apply (list_elem_of_fmap_2 (fun x => mi_name x.2)).
Qed.

Definition resized (L : MLSState) (sw : bool) (max : nat) : MLSState := mkMLSState (usedMemory_ L) (numaBufferedMemory_ L) (fdBufferedMemory_ L) sw max.

Lemma resized_at L a sw max n : lease_at L a n -> lease_at (resized L sw max) a n.
Proof. intros H. exact H. Qed.

Lemma done_inv L sw max a :
  caches_sorted L -> (forall n, lease_at L a n) -> (forall b, length (buffered L b) <= max) -> lease_inv (resized L sw max) a.
Proof. intros Hs H Hl. split; [|exact H]. intros b. split; [by destruct b; apply (Hs true) || apply (Hs false) | by destruct b; apply (Hl true) || apply (Hl false)]. Qed.

Lemma all_pending e d : wf_abs (store_ d) -> leases_ d = no_leases -> (forall n v, records d !! n = Some v -> recoverable_lease e v) ->
  pending e (map_to_list (records d)).*2 d.
Proof.
  intros W EL Hr. assert (Hb : forall b x, x ∉ buffered (leases_ d) b) by (intros b x; rewrite EL; destruct b; apply not_elem_of_nil).
  assert (Hn : (fun v => named v) <$> (map_to_list (records d)).*2 = (map_to_list (records d)).*1).
  { rewrite <- list_fmap_compose. apply list_fmap_ext. intros i [n v] Hi. cbn.
    apply list_elem_of_lookup_2, elem_of_map_to_list in Hi. by destruct (wf_lease _ W _ _ Hi). }
  assert (Hin : forall v, v ∈ (map_to_list (records d)).*2 -> records d !! named v = Some v).
  { intros v ([n w] & -> & Hi%elem_of_map_to_list)%list_elem_of_fmap. cbn. by destruct (wf_lease _ W _ _ Hi) as [-> _]. }
  split; [done | | | | | |].
  - intros b. rewrite EL. destruct b; constructor.
  - intros b x Hx. by destruct (Hb b x).
  - rewrite Hn. apply NoDup_fst_map_to_list.
  - intros v Hv%Hin. eauto.
  - intros v _. split; [by rewrite EL | intros b x Hx; by destruct (Hb b x)].
  - intros n. rewrite Hn. intros Hni. assert (records d !! n = None) as E.
    { destruct (records d !! n) as [v|] eqn:E; [|done]. destruct Hni. apply list_elem_of_fmap. exists (n, v). by rewrite elem_of_map_to_list. }
    unfold lease_at. rewrite E, EL. split; [apply lookup_empty | intros b x Hx; rewrite EL in Hb; by destruct (Hb b x)].
Qed.

Lemma RecoverFromRecord_spec e sw L0 d :
  wf_abs (store_ d) -> leases_ d = no_leases -> lease_inv L0 (store_ d) -> maxBufferedMemNum_ L0 <= DEFAULT_MAX_BUFFER_MEM_NUM ->
  (forall n v, records d !! n = Some v -> recoverable_lease e v) ->
  exists d', RecoverFromRecord e sw d = (0%Z, d') /\ lease_coherent d' /\ engine_trace d' = engine_trace d /\ shrunk d d' /\
    isEnableLeaseBuffered_ (leases_ d') = sw /\ (forall n v, records d !! n = Some v -> lmi_state v.1 = FINISH -> placed (leases_ d') (recovered_info v FINISH)).
Proof.
  intros W EL H0 Hmax Hr. destruct (recover_leases_spec e _ d (all_pending e d W EL Hr)) as (d1 & E1 & [P T M Sh F _]).
  unfold RecoverFromRecord, bind, query, get_leases, set_leases. cbn [list_leases AStore_API]. rewrite E1. eexists. split; [reflexivity|].
  pose proof (pd_settled _ _ _ P) as Hat. set (L := leases_ d1) in *.
  assert (Hall : forall n, lease_at L (store_ d1) n) by (intros n; apply Hat; apply not_elem_of_nil).
  assert (Hbound : forall b, length (buffered L b) <= maxBufferedMemNum_ L).
  { intros b. rewrite M, EL. cbn. etrans; [|exact Hmax]. etrans; [|apply (proj1 H0 b)].
    pose proof (done_inv L true (length (numaBufferedMemory_ L) + length (fdBufferedMemory_ L)) (store_ d1) (pd_sorted _ _ _ P) Hall) as HL.
    assert (Hb : forall b, length (buffered L b) <= length (numaBufferedMemory_ L) + length (fdBufferedMemory_ L)) by (intros []; cbn; lia).
    exact (recovered_bound L0 _ d d1 b H0 (HL Hb) Sh). }
  split_and!; [split; [apply P|] | done | done | done |].
  - by apply (done_inv L sw (maxBufferedMemNum_ L)); [apply P|..].
  - intros n v Ev Hs. apply F; [|done]. apply list_elem_of_fmap. exists (n, v). by rewrite elem_of_map_to_list.
Qed.

End Recovery.
