(* ===== verification/LeaseResults.v ===== *)
(** What the operations of the lease service do, on the abstract store. *)

From S2P Require Import Prelude StoreTypes IdPool IdPoolSpec RecordAllocator RecordStore StoreTable StoreInv StoreSteps StoreRestart StoreSpec RegionNodes StoreTheorems MsgPacker MsgBase MsgRequests MsgResponses StoreInterface Daemon ShmManager ShmHandlers DaemonSim ShmCoherence LeaseEngine LeaseManager LeaseHandlers Monitor LeaseInv DaemonKeeps.
Import MLSManager.

(** ** Whole units *)

Lemma u64_le z : (0 <= z)%Z -> (u64 z <= z)%Z.
Proof. intros H. unfold u64. apply Z.mod_le; lia. Qed.

(** The units that cover a size: enough, and none too many. *)
Lemma units_cover size unit n :
  (0 < unit)%Z -> (0 < size)%Z -> (size + unit < 2 ^ 64)%Z -> (size <= u64 (unit * Z.of_nat n))%Z ->
  let k := Z.to_nat (u64 (size + unit - 1) / unit) in
  k <= n /\ (size <= unit * Z.of_nat k)%Z /\ (unit * (Z.of_nat k - 1) < size)%Z.
Proof.
  intros Hu Hs Ho Hn. assert (u64 (size + unit - 1) = size + unit - 1)%Z as -> by (apply Z.mod_small; lia).
  pose proof (u64_le (unit * Z.of_nat n)) as Hle. set (q := ((size + unit - 1) / unit)%Z).
  pose proof (Z.div_mod (size + unit - 1) unit) as Hd. pose proof (Z.mod_pos_bound (size + unit - 1) unit Hu) as Hm. fold q in Hd.
  assert (0 <= q)%Z by (apply Z.div_pos; lia). cbv zeta; rewrite Z2Nat.id by done; split_and!; [|nia|nia].
  apply Nat2Z.inj_le. rewrite Z2Nat.id by done. nia.
Qed.

Lemma resize_take n l : n <= length l -> resize n l = take n l.
Proof. intros H. unfold resize. replace (n - length l) with 0 by lia. apply app_nil_r. Qed.

Section Results.
Context {G : Geometry}.
Implicit Types (d : Daemon AStore) (e : LeaseEngine).
Abbreviation used d := (usedMemory_ (leases_ d)).

(** ** Serving a request from the cache *)

Definition fits (size : Z) (slots : list Z) (x : MLSMemKey * MLSMemInfo) : Prop := (size <= mi_size x.2)%Z /\ mi_slotId x.2 ∈ slots.

#[export] Instance fits_dec size slots x : Decision (fits size slots x).
Proof. unfold fits. apply _. Defined.

(** [i] is what the caller gets of the cached [x]: its first units that cover the size. *)
Record serves (size : Z) (c : AppContext) (x : MLSMemKey * MLSMemInfo) (i : MLSMemInfo) : Prop := {
  sv_name : mi_name i = mi_name x.2;
  sv_owner : mi_appContext i = c;
  sv_size : mi_size i = size;
  sv_unit : mi_unitSize i = mi_unitSize x.2;
  sv_numa : mi_numaId i = mi_numaId x.2;
  sv_prefix : mi_memIds i `prefix_of` mi_memIds x.2;
  sv_enough : (size <= mi_unitSize x.2 * Z.of_nat (length (mi_memIds i)))%Z;
  sv_tight : (mi_unitSize x.2 * (Z.of_nat (length (mi_memIds i)) - 1) < size)%Z;
}.

Lemma key_size d b x : lease_coherent d -> x ∈ buffered (leases_ d) b -> mk_size x.1 = mi_size x.2.
Proof. intros [_ H] Hx. destruct (cached_entry _ _ _ _ H Hx) as (v & _ & _ & (_ & -> & _) & _). done. Qed.

(** The search in the cache: the smallest fitting entry is taken out, if there is one. *)
Lemma ReuseSlot_spec size b slots c d :
  lease_coherent d ->
  (ReuseMemInSlotId size b slots c d = (((-1)%Z, None), d) /\ forall x, x ∈ buffered (leases_ d) b -> ~ fits size slots x) \/
  exists x l1 l2 d', ReuseMemInSlotId size b slots c d = ((0%Z, Some x.2), d') /\ buffered (leases_ d) b = l1 ++ x :: l2 /\ fits size slots x /\
    (forall y, y ∈ buffered (leases_ d) b -> fits size slots y -> (mi_size x.2 <= mi_size y.2)%Z) /\
    leases_ d' = with_buffered (leases_ d) b (l1 ++ l2) /\ engine_trace d' = engine_trace d /\
    used d !! mi_name x.2 = None /\ mi_isNuma x.2 = b /\ mi_size x.2 = cache_size x.2.
Proof.
  intros C. pose proof C as [W H]. unfold ReuseMemInSlotId, bind, get_leases. destruct (lower_bound _ _) as [l0 from] eqn:El.
  pose proof (proj1 (proj1 H b)) as Hsort. destruct (lower_bound_sizes _ _ _ _ Hsort El) as (Eb & Hlt & _).
  destruct (find_slot slots from) as [[[l1 x] l2]|] eqn:Ef.
  - right. destruct (reuse_smallest _ _ _ _ _ _ _ _ Hsort El Ef) as (El' & Hge & Hslot & Hmin). rewrite (app_assoc l0 l1 l2).
    assert (Hin : x ∈ buffered (leases_ d) b) by (rewrite El', elem_of_app, elem_of_cons; tauto). rewrite (key_size d b x C Hin) in Hge.
    destruct (cached_entry _ _ _ _ H Hin) as (v & Ev & Hp & (Hb & Hk & Hz & R) & Hu).
    unfold call. cbn [exec AStore_API spec_run]. rewrite Ev. exists x, (l0 ++ l1), l2. eexists. split; [reflexivity|].
    split_and!; try done; [|rewrite Hb, (lr_kind _ _ R); by rewrite negb_involutive].
    intros y Hy [Hy1 Hy2]. rewrite <- (key_size d b x C Hin), <- (key_size d b y C Hy). destruct (Hmin y Hy) as [->|Hlt']; [by rewrite (key_size d b y C Hy) | done | lia |].
    unfold MLSMemKey_lt in Hlt'. destruct (Z.eqb_spec (mk_size x.1) (mk_size y.1)); cbn [negb] in Hlt'; [lia|]. apply Z.ltb_lt in Hlt'. lia.
  - left. split; [done|]. intros x Hx [Hf Hs]. pose proof (find_slot_spec slots from) as Hn. rewrite Ef in Hn. rewrite Forall_forall in Hn, Hlt.
    pose proof (key_size d b x C Hx) as Hkx. rewrite Eb in Hx. apply elem_of_app in Hx as [Hx|Hx]; [|by apply (Hn x)]. specialize (Hlt x Hx). cbn beta in Hlt. lia.
Qed.

(** What a request to the cache does: nothing; or a lease leaves the cache for
    the caller, who is told so unless the unit size is 0 or the arithmetic on
    the size would overflow. *)
Lemma ReuseBuffered_spec e size b region c d :
  lease_coherent d -> (0 < size)%Z -> (forall x, x ∈ buffered (leases_ d) b -> (0 <= mi_unitSize x.2)%Z) ->
  (exists r, r <> 0%Z /\ ReuseBufferedMem e size b region c d = ((r, None), d) /\
     (forall slots, isEnableLeaseBuffered_ (leases_ d) = true -> GetRegionInfo e region = (0%Z, slots) ->
        r = (-1)%Z /\ forall x, x ∈ buffered (leases_ d) b -> ~ fits size slots x)) \/
  exists slots x l1 l2 r d', ReuseBufferedMem e size b region c d = (r, d') /\ GetRegionInfo e region = (0%Z, slots) /\
    buffered (leases_ d) b = l1 ++ x :: l2 /\ fits size slots x /\
    (forall y, y ∈ buffered (leases_ d) b -> fits size slots y -> (mi_size x.2 <= mi_size y.2)%Z) /\
    leases_ d' = with_used (with_buffered (leases_ d) b (l1 ++ l2)) (<[mi_name x.2 := mi_reown c size x.2]> (used d)) /\
    used d !! mi_name x.2 = None /\ engine_trace d' = engine_trace d /\
    if decide (size + mi_unitSize x.2 < 2 ^ 64)%Z then exists i, r = (0%Z, Some i) /\ serves size c x i /\ mi_isNuma i = b else r = ((-1)%Z, None).
Proof.
  intros C Hsz Hun. destruct (ReuseBufferedMem e size b region c d) as [r d'] eqn:E. unfold ReuseBufferedMem, bind at 1, get_leases in E.
  destruct (isEnableLeaseBuffered_ (leases_ d)); cbn [negb] in E; [|injection E as <- <-; left; by exists (-1)%Z].
  destruct (GetRegionInfo e region) as [hr slots]. destruct (Z.eqb_spec hr 0) as [->|Hhr]; cbn [negb] in E;
    [|injection E as <- <-; left; exists hr; split_and!; [done | done | by intros ? _ [= ? _]]].
  unfold bind at 1 in E. destruct (ReuseSlot_spec size b slots c d C) as [(Es & Hno)|(x & l1 & l2 & d1 & Es & Eb & Hfit & Hmin & EL & ET & Hu & Hb & Hz)]; rewrite Es in E.
  { injection E as <- <-. left. exists (-1)%Z. split_and!; [done | done |]. by intros ? _ [= <-]. }
  subst b. right. exists slots, x, l1, l2, r, d'. cbn [snd] in E. unfold bind, get_leases, set_leases in E. cbn beta iota in E. rewrite EL, used_with in E.
  assert (Hin : x ∈ buffered (leases_ d) (mi_isNuma x.2)) by (rewrite Eb, elem_of_app, elem_of_cons; tauto). pose proof (Hun x Hin) as Hu0.
  assert (Hpos : (0 < mi_unitSize x.2)%Z).
  { destruct Hfit as [Hf _]. rewrite Hz in Hf. destruct (Z.eq_dec (mi_unitSize x.2) 0%Z) as [E0|]; [|lia].
    rewrite E0, Z.mul_0_l in Hf. change (u64 0) with 0%Z in Hf. lia. }
  cbn [mi_name mi_unitSize mi_memIds mi_appContext mi_size] in E. unfold RecordStore.emplace in E. rewrite Hu in E.
  rewrite (proj2 (Z.eqb_neq _ _)) in E by lia. rewrite (proj2 (Z.ltb_lt 0 _)) in E by done. cbn [andb] in E.
  destruct (decide (size + mi_unitSize x.2 < 2 ^ 64)%Z) as [Hov|Hov].
  - rewrite (proj2 (Z.ltb_ge (2 ^ 64 - 1 - _) size)) in E by lia. injection E as <- <-. split_and!; try done. eexists. split; [done|]. split; [|done].
    destruct (units_cover size (mi_unitSize x.2) (length (mi_memIds x.2))) as (Hk1 & Hk2 & Hk3); [done | done | done | rewrite <- Hz; apply Hfit |].
    set (k := Z.to_nat _) in *. rewrite (resize_take k) by done. assert (length (take k (mi_memIds x.2)) = k) as Hlen by (rewrite length_take; lia).
    split; cbn [mi_name mi_appContext mi_size mi_unitSize mi_numaId mi_memIds]; try done; [apply prefix_take | by rewrite Hlen | by rewrite Hlen].
  - rewrite (proj2 (Z.ltb_lt (2 ^ 64 - 1 - _) size)) in E by lia. injection E as <- <-. by split_and!.
Qed.

(** ** Returning a lease *)

(** The daemon apart from the leases and the store. *)
Definition outer d d' : Prop :=
  engine_trace d' = engine_trace d /\ delayedRemoveKeys d' = delayedRemoveKeys d /\ delayedRemoveKeysByName d' = delayedRemoveKeysByName d.

Definition is_cached d (n : string) : Prop := exists b x, x ∈ buffered (leases_ d) b /\ mi_name x.2 = n.

Definition has_room d (b : bool) : Prop :=
  isEnableLeaseBuffered_ (leases_ d) = true /\ length (buffered (leases_ d) b) < maxBufferedMemNum_ (leases_ d).

#[export] Instance has_room_dec d b : Decision (has_room d b).
Proof. unfold has_room. apply _. Defined.

(** The record of a cached lease: it has no owner. *)
Definition recorded_unowned d (n : string) : Prop := exists v, a_leases (store_ d) !! n = Some v /\ owner v = 0%Z.

Lemma used_name d n i : lease_coherent d -> used d !! n = Some i -> mi_name i = n /\ good_name n.
Proof.
  intros [W H] E. destruct (used_entry _ _ _ _ H E) as (v & Ev & _ & R & _). destruct (wf_lease _ W _ _ Ev) as [Hn Hg].
  split; [by rewrite <- (lr_name _ _ R) | done].
Qed.

Lemma PreDelete_run d n i v :
  usedMemory_ (leases_ d) !! n = Some i -> mi_name i = n -> a_leases (store_ d) !! n = Some v ->
  exists d', PreDeleteUsedMem n d = (if decide (has_room d (mi_isNuma i)) then 1%Z else 0%Z, d') /\ outer d d' /\
    if decide (has_room d (mi_isNuma i)) then used d' = delete n (used d) /\ exists c sz, a_leases (store_ d') !! n = Some (lease_reown c sz v) /\ ac_pid c = 0%Z
    else leases_ d' = leases_ d.
Proof.
  intros E Hi Ev. unfold PreDeleteUsedMem, bind, get_leases. rewrite E. unfold BufferUsedMemory, bind, get_leases, call. rewrite Hi.
  destruct (decide (has_room d (mi_isNuma i))) as [[He Hl]|Hn].
  - rewrite He. apply Nat.ltb_lt in Hl. rewrite Hl. cbn. rewrite Ev. cbn. eexists. split; [reflexivity|]. split; [done|]. split; [cbn; by destruct (mi_isNuma i)|].
    cbn. rewrite lookup_insert_eq. by do 2 eexists.
  - destruct (isEnableLeaseBuffered_ (leases_ d)) eqn:He; [|cbn; rewrite Ev; by eexists].
    rewrite (proj2 (Nat.ltb_ge _ _)); [cbn; rewrite Ev; by eexists|]. destruct (decide (length (buffered (leases_ d) (mi_isNuma i)) < maxBufferedMemNum_ (leases_ d))); [|lia].
    by destruct Hn.
Qed.

Lemma PreDelete_spec d n i :
  lease_coherent d -> used d !! n = Some i ->
  exists r d', PreDeleteUsedMem n d = (r, d') /\ outer d d' /\ lease_coherent d' /\
    if decide (has_room d (mi_isNuma i)) then r = 1%Z /\ used d' = delete n (used d) /\ is_cached d' n /\ recorded_unowned d' n
    else r = 0%Z /\ leases_ d' = leases_ d.
Proof.
  intros C E. pose proof (keeps_PreDelete n d C) as C'. destruct (used_name _ _ _ C E) as [Hi _]. destruct C as [W H].
  destruct (used_entry _ _ _ _ H E) as (v & Ev & _). destruct (PreDelete_run d n i v E Hi Ev) as (d' & Er & Ho & Hr). rewrite Er in C'. cbn [snd] in C'.
  do 2 eexists. split; [exact Er|]. split; [done|]. split; [done|]. destruct (decide _); [|by split]. split; [done|]. destruct Hr as (Hu & c & sz & Ew & Hw). split; [done|].
  split; [|by eexists]. destruct C' as [_ [_ Hat]]. specialize (Hat n). unfold lease_at in Hat. rewrite Ew, decide_True in Hat by done. destruct Hat as (_ & (x & Hx & Hn) & _). by exists (negb (lmi_fdMode v.1)), x.
Qed.

Lemma DeleteUsed_spec d n i :
  lease_coherent d -> used d !! n = Some i ->
  exists d', DeleteUsedMem n d = (0%Z, d') /\ outer d d' /\ lease_coherent d' /\ used d' = delete n (used d) /\ a_leases (store_ d') !! n = None.
Proof.
  intros C E. pose proof (keeps_Delete n d C) as C'. destruct C as [W H]. destruct (used_entry _ _ _ _ H E) as (v & Ev & _).
  unfold DeleteUsedMem, bind, get_leases, call, set_leases, ret in *. rewrite E in *. cbn [exec AStore_API spec_run] in *. rewrite Ev in *. cbn in *.
  eexists. split; [reflexivity|]. split; [done|]. split; [done|]. split; [done|]. cbn. apply lookup_delete_eq.
Qed.

Lemma UpdateLease_spec d n i st :
  lease_coherent d -> used d !! n = Some i ->
  exists d', UpdateMemRecordState n st d = (MXM_OK, d') /\ outer d d' /\ used d' = <[n := mi_restate st i]> (used d).
Proof.
  intros C E. destruct C as [W H]. destruct (used_entry _ _ _ _ H E) as (v & Ev & _).
  unfold UpdateMemRecordState, bind, get_leases, call, set_leases, ret. rewrite E. cbn [exec AStore_API spec_run]. rewrite Ev. cbn.
  eexists. split; [reflexivity|]. by split_and!.
Qed.

(** The answers of the engine with which the memory counts as returned. *)
Definition return_code (res : Z) : Prop := res = 0%Z \/ res = UBS_ENGINE_ERR_UNIMPORT_SUCCESS \/ res = UBS_ENGINE_ERR_NOT_EXIST.

Lemma freed_true r : freed r = true <-> r = 0%Z \/ r = MXM_ERR_LEASE_NOT_EXIST.
Proof. unfold freed. by rewrite orb_true_iff, !Z.eqb_eq. Qed.

Lemma LeaseFree_spec e n b d :
  eng_Initialize e <> MXM_ERR_LEASE_NOT_EXIST ->
  let '(r, d') := LeaseFree e n b d in
  leases_ d' = leases_ d /\ store_ d' = store_ d /\ delayedRemoveKeys d' = delayedRemoveKeys d /\ delayedRemoveKeysByName d' = delayedRemoveKeysByName d /\
  (freed r = true -> exists res, engine_trace d' = engine_trace d ++ [CallReturn n b res] /\ return_code res).
Proof.
  intros Hi. unfold LeaseFree, bind, trace, ret, return_code. destruct (Z.eqb_spec (eng_Initialize e) 0) as [_|H0]; cbn [negb].
  - destruct (eng_loaded e); cbn [negb]; [|split_and!; try done; by rewrite freed_true; intros [?|?]].
    set (res := if b then _ else _). destruct (Z.eqb_spec res 0) as [E|]; cbn [negb]; [split_and!; try done; intros _; exists res; rewrite E; auto|].
    destruct (Z.eqb_spec res UBS_ENGINE_ERR_UNIMPORT_SUCCESS) as [E|]; [split_and!; try done; intros _; exists res; rewrite E; auto|].
    destruct (Z.eqb_spec res UBS_ENGINE_ERR_NOT_EXIST) as [E|]; [split_and!; try done; intros _; exists res; rewrite E; auto|].
    split_and!; try done. rewrite freed_true. destruct (Z.eqb _ _); by intros [?|?].
  - split_and!; try done. rewrite freed_true. by intros [?|?].
Qed.

(** A lease of descriptors is first made the daemon's own again. *)
Definition own_calls (e : LeaseEngine) (n : string) (i : MLSMemInfo) : list EngineCall :=
  if mi_isNuma i then [] else [CallPermission n (le_self e) 0].

Lemma Permission_outside e n c d : leases_ (FdPermissionChange e n c d).2 = leases_ d /\ store_ (FdPermissionChange e n c d).2 = store_ d.
Proof. unfold FdPermissionChange, bind, trace, ret. repeat case_match; simplify_eq/=; done. Qed.

Lemma Permission_run (e : LeaseEngine) n i d :
  exists hr d1, (if negb (mi_isNuma i) then FdPermissionChange e n (le_self e) else ret 0%Z) d = (hr, d1) /\ leases_ d1 = leases_ d /\
    store_ d1 = store_ d /\ (hr = 0%Z -> engine_trace d1 = engine_trace d ++ own_calls e n i).
Proof.
  unfold own_calls. destruct (mi_isNuma i); cbn [negb]; [exists 0%Z, d; by rewrite app_nil_r|].
  unfold FdPermissionChange, bind, trace, ret. destruct (Z.eqb_spec (eng_Initialize e) 0); cbn [negb]; [|by eexists _, _].
  destruct (Z.eqb_spec (pUbseMemFdPermission e n (le_self e)) 0) as [->|]; cbn [negb]; by eexists _, _.
Qed.

(** What a return that succeeds leaves of the lease [i], by its state and the room in the cache: nobody owns it; its
    record is gone and the engine was not called; or it is cached and recorded without an owner, and was not returned; or
    its record is gone, and the engine took the memory back. *)
Definition given_back (e : LeaseEngine) (n : string) (i : MLSMemInfo) d d' : Prop :=
  used d' = delete n (used d) /\
  if decide (mi_state i = DELETED) then a_leases (store_ d') !! n = None /\ engine_trace d' = engine_trace d
  else if decide (has_room d (mi_isNuma i)) then
    is_cached d' n /\ recorded_unowned d' n /\ engine_trace d' = engine_trace d ++ own_calls e n i
  else
    a_leases (store_ d') !! n = None /\
    exists res, engine_trace d' = engine_trace d ++ own_calls e n i ++ [CallReturn n (mi_isNuma i) res] /\ return_code res.

(** A lease its owner returns: on success it is given back; otherwise the caller still owns it. *)
Lemma AppFree_owner e n u i d :
  lease_coherent d -> eng_Initialize e <> MXM_ERR_LEASE_NOT_EXIST -> (GetDelayRemoveRecord n d).1 = false ->
  used d !! n = Some i -> IsSameApp (mi_appContext i) u = true ->
  let '(r, d') := AppFreeMemory e n u d in
  if decide (r = 0%Z) then given_back e n i d d' else exists i', used d' = <[n := i']> (used d) /\ mi_appContext i' = mi_appContext i.
Proof.
  intros C Hinit Hb E Hs. destruct (used_name _ _ _ C E) as [Hi Hg]. unfold AppFreeMemory. rewrite bool_decide_false by (intros ->; by destruct Hg as [? _]).
  unfold GetDelayRemoveRecord in Hb. cbn [fst] in Hb. unfold bind at 1, GetDelayRemoveRecord. rewrite Hb. unfold bind at 1, GetUsedMemByName, bind at 1, get_leases. rewrite E. cbn [ret fst snd].
  rewrite Hs. cbn [negb]. unfold given_back. destruct (decide (mi_state i = DELETED)) as [Hd|Hd].
  { rewrite bool_decide_true by done. unfold bind. destruct (DeleteUsed_spec d n i C E) as (d' & -> & (T & _) & _ & Hr & Hrec). cbn [ret]. by rewrite decide_True. }
  rewrite bool_decide_false by done. unfold bind at 1. destruct (Permission_run e n i d) as (hr & d1 & -> & EL & ES & Et).
  assert (C1 : lease_coherent d1) by (unfold lease_coherent in *; by rewrite EL, ES). destruct (Z.eqb_spec hr 0) as [->|Hhr]; cbn [negb].
  2: { cbn. rewrite decide_False by done. exists i. by rewrite EL, insert_id. }
  assert (E1 : used d1 !! n = Some i) by (by rewrite EL). unfold bind at 1. destruct (PreDelete_spec d1 n i C1 E1) as (r & d2 & -> & (T2 & _) & C2 & Hr).
  assert (Hroom : has_room d1 (mi_isNuma i) <-> has_room d (mi_isNuma i)) by (unfold has_room; by rewrite EL).
  rewrite (decide_ext _ _ _ _ Hroom) in Hr. destruct (decide (has_room d _)) as [Hm|Hm].
  { destruct Hr as (-> & Hu & Hca & Hrec). cbn. split_and!; [by rewrite Hu, EL | done | done | by rewrite T2, Et by done]. }
  destruct Hr as [-> EL2]. cbn [Z.eqb]. unfold bind at 1. pose proof (LeaseFree_spec e n (mi_isNuma i) d2 Hinit) as Hf. destruct (LeaseFree e n (mi_isNuma i) d2) as [hr d3].
  destruct Hf as (EL3 & ES3 & _ & _ & Hret). assert (C3 : lease_coherent d3) by (unfold lease_coherent in *; by rewrite EL3, ES3).
  assert (E3 : used d3 !! n = Some i) by (by rewrite EL3, EL2). assert (EU : used d3 = used d) by (by rewrite EL3, EL2, EL). destruct (freed hr) eqn:Ef; cbn [negb]; unfold bind.
  - destruct (DeleteUsed_spec d3 n i C3 E3) as (d' & -> & (Ht & _) & _ & Hu & Hr). cbn. split; [by rewrite Hu, EU|]. split; [done|].
    destruct (Hret eq_refl) as (res & Er & Hc). exists res. by rewrite Ht, Er, T2, Et, <- app_assoc by done.
  - rewrite Hi. destruct (UpdateLease_spec d3 n i FINISH C3 E3) as (d' & -> & _ & Hu). cbn. rewrite decide_False by (intros ->; by cbn in Ef).
    exists (mi_restate FINISH i). by rewrite Hu, EU.
Qed.

(** ** Borrowing *)

(** The used leases are [u], [n] excepted. *)
Definition off (n : string) (u : gmap string MLSMemInfo) d : Prop := forall n', n' <> n -> used d !! n' = u !! n'.

Ltac off_tac :=
  unfold keeps, bind, get_leases, call, set_leases, ret; intros d H; repeat case_match; simplify_eq/=;
  intros n' Hne; cbn; rewrite ?used_with, ?lookup_delete_ne, ?lookup_insert_ne by done; by apply H.

Lemma off_PreDelete n u : keeps (off n u) (PreDeleteUsedMem n).
Proof. unfold PreDeleteUsedMem, BufferUsedMemory. off_tac. Qed.

Lemma off_Delete n u : keeps (off n u) (DeleteUsedMem n).
Proof. unfold DeleteUsedMem. off_tac. Qed.

Lemma off_FinishAdd n u x y z l : keeps (off n u) (FinishAddUsedMem n x y z l).
Proof. unfold FinishAddUsedMem. off_tac. Qed.

Lemma off_UpdateLease n u st : keeps (off n u) (UpdateMemRecordState n st).
Proof. unfold UpdateMemRecordState. off_tac. Qed.

Lemma off_trace n u c : keeps (off n u) (trace c).
Proof. by intros d. Qed.

Lemma off_delay n u k : keeps (off n u) (AddDelayRemoveRecord k).
Proof. by intros d. Qed.

#[local] Hint Resolve off_PreDelete off_Delete off_FinishAdd off_UpdateLease off_trace off_delay : keeps.

Lemma off_LeaseFree n u e m b : keeps (off n u) (LeaseFree e m b).
Proof. unfold LeaseFree. keep. Qed.

#[local] Hint Resolve off_LeaseFree : keeps.

Lemma off_rollback n u e b : keeps (off n u) (RollBackReuseCacheMemory e n b).
Proof. unfold RollBackReuseCacheMemory. keep. Qed.

Lemma off_finish n u e b sz un r rsp : keeps (off n u) (finish_borrow e n b sz un r rsp).
Proof. unfold finish_borrow, RollBackBorrowNewMemory. keep. Qed.

Lemma Malloc_outside e p d : leases_ (LeaseMalloc e p d).2 = leases_ d.
Proof. unfold LeaseMalloc, created, bind, trace, AddDelayRemoveRecord, ret. repeat case_match; simplify_eq/=; done. Qed.

(** Nobody loses a lease. *)
Definition grows d d' : Prop := forall n i, used d !! n = Some i -> used d' !! n = Some i.

Lemma off_grows n d d' : used d !! n = None -> off n (used d) d' -> grows d d'.
Proof. intros E H n' i Ei. rewrite H; [done|]. intros ->. congruence. Qed.

Lemma grows_trans d d1 d2 : grows d d1 -> grows d1 d2 -> grows d d2.
Proof. unfold grows. eauto. Qed.

(** The caller holds the lease that the response names: it was nobody's before. *)
Definition granted d d' (c : AppContext) (size : Z) (rsp : AppMallocMemoryResponse) : Prop :=
  used d !! AppMallocMemoryResponse_name_ rsp = None /\
  exists i, used d' !! AppMallocMemoryResponse_name_ rsp = Some i /\ mi_appContext i = c /\ mi_size i = size /\
    AppMallocMemoryResponse_memIds_ rsp `prefix_of` mi_memIds i.

Lemma finish_borrow_ok e n b sz un res rsp d i :
  used d !! n = Some i ->
  let '(r, d') := finish_borrow e n b sz un res rsp d in
  r.1 = MXM_OK -> AppMallocMemoryResponse_name_ r.2 = n /\ AppMallocMemoryResponse_memIds_ r.2 = lmr_memIds res /\
    exists i', used d' !! n = Some i' /\ mi_appContext i' = mi_appContext i /\ mi_size i' = mi_size i /\ mi_memIds i' = lmr_memIds res /\
      mi_unitSize i' = un /\ mi_isNuma i' = mi_isNuma i /\ mi_state i' = FINISH.
Proof.
  intros E. unfold finish_borrow, FinishAddUsedMem, bind at 1, bind at 1, get_leases. rewrite E. unfold bind at 1, call. destruct (exec _ _) as [r s].
  destruct (Z.eqb r 0); cbn [negb].
  - unfold bind, set_leases, ret. cbn. intros _. split_and!; [done | done |]. eexists. split; [apply lookup_insert_eq | done].
  - unfold ret. change (negb (Z.eqb MXM_ERR_RECORD_ADD 0)) with true. cbn iota. unfold bind. match goal with |- context [RollBackBorrowNewMemory e n b ?x] => destruct (RollBackBorrowNewMemory e n b x) end. by cbn.
Qed.

Lemma BorrowNew_spec e req rsp u d :
  let '(r, d') := BorrowNewMemory e req rsp u d in
  grows d d' /\ (r.1 = MXM_OK -> granted d d' (context_of u) (AppMallocMemoryRequest_size_ req) r.2).
Proof.
  unfold BorrowNewMemory, PreAddUsedMem, bind at 1, bind at 1, get_leases. set (n := le_new_name e _). destruct (used d !! n) as [i|] eqn:E; [cbn; split; [by intros ? ? | by intros ?]|].
  unfold bind at 1, call. destruct (exec _ _) as [r s]. destruct (Z.eqb r 0); [cbn [negb]; unfold bind at 1, set_leases at 1 | cbn; split; [by intros ? ? | by intros ?]].
  cbn [ret negb Z.eqb MXM_OK]. set (d1 := mkDaemon _ _ _ _ _ _). assert (H1 : off n (used d) d1) by (intros n' Hne; cbn; by rewrite lookup_insert_ne).
  unfold bind at 1. match goal with |- context [LeaseMalloc e ?p d1] => pose proof (Malloc_outside e p d1) as EL; destruct (LeaseMalloc e p d1) as [[r2 res] d2] end.
  cbn [fst snd] in *. assert (H2 : off n (used d) d2) by (intros n' Hne; rewrite EL; by apply H1). destruct (Z.eqb_spec r2 0) as [->|Hr]; cbn [negb].
  - assert (E2 : is_Some (used d2 !! n)) by (rewrite EL; cbn; rewrite lookup_insert_eq; by eexists). destruct E2 as [i2 E2].
    match goal with |- context [finish_borrow e n ?b ?sz ?un res rsp d2] =>
      pose proof (finish_borrow_ok e n b sz un res rsp d2 i2 E2) as Hf; pose proof (off_finish n (used d) e b sz un res rsp d2 H2) as H3;
      destruct (finish_borrow e n b sz un res rsp d2) as [r3 d3] end.
    split; [by eapply off_grows|]. intros (Hn & Hids & i' & Ei & Ho & Hs & Hm & _)%Hf. split; [by rewrite Hn|]. exists i'. rewrite Hn. split; [done|].
    rewrite EL in E2. cbn in E2. rewrite lookup_insert_eq in E2. injection E2 as <-. cbn in *. split_and!; [done | done |]. by rewrite Hids, Hm.
  - unfold bind. pose proof (off_Delete n (used d) d2 H2) as H3. destruct (DeleteUsedMem n d2) as [r3 d3]. cbn. split; [by eapply off_grows | by intros ?].
Qed.

Lemma ReuseCached_spec e size region b c rsp d :
  lease_coherent d -> (0 < size)%Z -> (forall x, x ∈ buffered (leases_ d) b -> (0 <= mi_unitSize x.2)%Z) ->
  let '(r, d') := ReuseCachedLeaseMemory e size region b c rsp d in
  grows d d' /\ (r.1 = MXM_OK -> granted d d' c size r.2).
Proof.
  intros C Hsz Hun. unfold ReuseCachedLeaseMemory, bind at 1.
  destruct (ReuseBuffered_spec e size b region c d C Hsz Hun) as [(r & Hr & -> & _)|(slots & x & l1 & l2 & r & d1 & -> & _ & _ & _ & _ & EL & Hu & _ & Hi)].
  { cbn. split; [by intros ? ? | by intros ->]. }
  assert (H1 : off (mi_name x.2) (used d) d1) by (intros n' Hne; rewrite EL; cbn; by rewrite lookup_insert_ne).
  destruct (decide _); [|subst r; cbn; split; [by eapply off_grows | by intros ?]]. destruct Hi as (i & -> & Sv & Hb). cbn [snd].
  assert (Hg : granted d d1 c size (mkAppMallocMemoryResponse (AppMallocMemoryResponse_base rsp) 0 (mi_memIds i) (mi_numaId i) (mi_isNuma i) (mi_unitSize i) (mi_name i))).
  { split; cbn; rewrite (sv_name _ _ _ _ Sv); [done|]. eexists. rewrite EL. cbn. split; [apply lookup_insert_eq|]. split_and!; [done | done | apply Sv]. }
  destruct b; cbn [negb]; [by cbn; split; [eapply off_grows|]|]. unfold bind at 1. rewrite (sv_name _ _ _ _ Sv) in *.
  destruct (Permission_outside e (mi_name x.2) c d1) as [EL2 _]. destruct (FdPermissionChange e (mi_name x.2) c d1) as [hr d2]. cbn [snd] in EL2.
  assert (H2 : off (mi_name x.2) (used d) d2) by (intros n' Hne; rewrite EL2; by apply H1). destruct (Z.eqb_spec hr 0) as [->|Hhr]; cbn [negb].
  - cbn. split; [by eapply off_grows|]. intros _. destruct Hg as [Hg1 (j & Hj & ?)]. split; [done|]. exists j. by rewrite EL2.
  - unfold bind. match goal with |- context [RollBackReuseCacheMemory e ?n ?b d2] =>
      pose proof (off_rollback n (used d) e b d2 H2) as H3; destruct (RollBackReuseCacheMemory e n b d2) as [r3 d3] end.
    cbn. split; [by eapply off_grows | by intros ->].
Qed.

Lemma AppMalloc_spec e req rsp u d :
  lease_coherent d -> (0 <= AppMallocMemoryRequest_size_ req)%Z ->
  (forall b x, x ∈ buffered (leases_ d) b -> (0 <= mi_unitSize x.2)%Z) ->
  let '(r, d') := AppMallocMemory e req rsp u d in
  grows d d' /\ (r.1 = MXM_OK -> granted d d' (context_of u) (AppMallocMemoryRequest_size_ req) r.2).
Proof.
  intros C Hsz Hun. unfold AppMallocMemory. destruct (Z.eqb_spec (AppMallocMemoryRequest_size_ req) 0); [cbn; split; [by intros ? ? | by intros ?]|].
  unfold BorrowMemory, bind at 1.
  match goal with |- context [ReuseCachedLeaseMemory e ?sz ?rg ?b ?c rsp d] =>
    pose proof (ReuseCached_spec e sz rg b c rsp d C ltac:(lia) (Hun b)) as H1; destruct (ReuseCachedLeaseMemory e sz rg b c rsp d) as [r1 d1] end.
  destruct H1 as [Hg1 H1]. destruct (Z.eqb_spec r1.1 MXM_OK) as [Ho|Ho]; [cbn; auto|].
  pose proof (BorrowNew_spec e req r1.2 u d1) as H2. destruct (BorrowNewMemory e req r1.2 u d1) as [r2 d2]. destruct H2 as [Hg2 H2].
  split; [by eapply grows_trans|]. intros [Hn Hi]%H2. split; [|done]. destruct (used d !! _) as [i|] eqn:E; [|done]. apply Hg1 in E. congruence.
Qed.

(** ** NUMA leases from a chosen lender *)

Lemma MallocLoc_numa e p d :
  ml_isNuma p = true -> leases_ (LeaseMallocWithLoc e p d).2 = leases_ d /\
  ((LeaseMallocWithLoc e p d).1.1 = 0%Z -> (LeaseMallocWithLoc e p d).1.2 = empty_result \/ exists nd, (LeaseMallocWithLoc e p d).1.2 = numa_result nd).
Proof.
  intros Hp. unfold LeaseMallocWithLoc. destruct (Z.eqb_spec (eng_Initialize e) 0); cbn [negb]; [|by cbn; split]. rewrite Hp.
  destruct (pUbseMemNumaCreateWithLender _ _ _) as [hr nd]. unfold created, bind, trace, AddDelayRemoveRecord, ret. destruct (_ && _); [cbn; by split; [|left]|].
  destruct (Z.eqb _ _); cbn; (split; [done|]); intros _; [by left | right; by eexists].
Qed.

(** Such a lease is recorded with unit size 0. *)
Lemma MallocLoc_unit e req rsp u d :
  truth (AppMallocMemoryWithLocRequest_isNuma_ req) = true ->
  let '(r, d') := AppMallocMemoryWithLoc e req rsp u d in
  r.1 = MXM_OK -> exists i, used d' !! AppMallocMemoryResponse_name_ r.2 = Some i /\ mi_appContext i = context_of u /\
    mi_isNuma i = true /\ mi_state i = FINISH /\ mi_unitSize i = 0%Z.
Proof.
  intros Hnuma. unfold AppMallocMemoryWithLoc. destruct (Z.eqb _ _); [by cbn; intros ?|]. unfold BorrowMemoryWithLender, PreAddUsedMem, bind at 1, bind at 1, get_leases.
  rewrite Hnuma. set (n := le_new_name e _). destruct (used d !! n) as [i|] eqn:E; [by cbn; intros ?|]. unfold bind at 1, call. destruct (exec _ _) as [r s].
  destruct (Z.eqb r 0); [cbn [negb]; unfold bind at 1, set_leases at 1 | by cbn; intros ?]. cbn [ret]. change (negb (Z.eqb MXM_OK MXM_OK)) with false. cbn iota. set (d1 := mkDaemon _ _ _ _ _ _).
  unfold bind at 1. match goal with |- context [LeaseMallocWithLoc e ?p d1] => destruct (MallocLoc_numa e p d1 eq_refl) as [EL Hres]; destruct (LeaseMallocWithLoc e p d1) as [[r2 res] d2] end.
  cbn [fst snd] in *. destruct (Z.eqb_spec r2 0) as [->|Hr]; cbn [negb].
  - assert (E2 : used d2 !! n = Some (mkMLSMemInfo n (context_of u) (AppMallocMemoryWithLocRequest_size_ req) 0 [] 0 0 0 true PRE_ADD)) by (rewrite EL; cbn; by rewrite lookup_insert_eq).
    match goal with |- context [finish_borrow e n ?b ?sz ?un res rsp d2] => pose proof (finish_borrow_ok e n b sz un res rsp d2 _ E2) as Hf; destruct (finish_borrow e n b sz un res rsp d2) as [r3 d3] end.
    intros (Hn & _ & i' & Ei & Ho & _ & _ & Hu & Hb & Hs)%Hf. exists i'. rewrite Hn. split_and!; try done. rewrite Hu. by destruct (Hres eq_refl) as [-> | [nd ->]].
  - unfold bind. destruct (DeleteUsedMem n d2) as [r3 d3]. by cbn.
Qed.

(** When its owner returns it and there is room, it is cached under size 0. *)
Lemma AppFree_numa_cached e n u i d :
  lease_coherent d -> (GetDelayRemoveRecord n d).1 = false -> used d !! n = Some i -> IsSameApp (mi_appContext i) u = true ->
  mi_isNuma i = true -> mi_state i <> DELETED -> has_room d true ->
  exists d' x, AppFreeMemory e n u d = (0%Z, d') /\ x ∈ buffered (leases_ d') true /\ mi_name x.2 = n /\ mi_unitSize x.2 = mi_unitSize i /\ mi_size x.2 = cache_size x.2.
Proof.
  intros C Hb E Hs Hn Hd Hroom. destruct (used_name _ _ _ C E) as [Hi Hg]. pose proof (keeps_PreDelete n d C) as C'.
  destruct (used_entry _ _ _ _ (proj2 C) E) as (v & Ev & _ & R & _). destruct (PreDelete_run d n i v E Hi Ev) as (d' & Er & _ & Hr). rewrite Hn in *.
  rewrite decide_True in Hr by done. rewrite decide_True in Er by done. rewrite Er in C'. destruct Hr as (_ & c & sz & Ew & Hc).
  pose proof (proj2 (proj2 C') n) as Hat. unfold lease_at in Hat. cbn [snd] in Hat. rewrite Ew, decide_True in Hat by done. cbn [fst lease_reown lmi_fdMode] in Hat.
  destruct Hat as (_ & (x & Hx & Hxn) & Hall). destruct (Hall _ _ Hx Hxn) as (_ & _ & Hz & Rx). exists d', x. split_and!; try done.
  - unfold AppFreeMemory. rewrite bool_decide_false by (intros ->; by destruct Hg as [? _]). unfold GetDelayRemoveRecord in Hb. cbn [fst] in Hb.
    unfold bind, GetDelayRemoveRecord. rewrite Hb. unfold GetUsedMemByName, bind, get_leases. rewrite E. cbn [ret fst snd]. rewrite Hs. cbn [negb].
    rewrite bool_decide_false by done. rewrite Hn. cbn [negb]. unfold ret. cbn [negb Z.eqb]. by rewrite Er.
  - rewrite (lr_kind _ _ R), Hn in Hx. exact Hx.
  - by rewrite <- (lr_unit _ _ Rx), <- (lr_unit _ _ R).
Qed.

(** A cached lease with unit size 0 serves no request. *)
Lemma unit_zero_stays e size region c d x :
  lease_coherent d -> (0 < size)%Z -> (forall y, y ∈ buffered (leases_ d) true -> (0 <= mi_unitSize y.2)%Z) ->
  x ∈ buffered (leases_ d) true -> mi_unitSize x.2 = 0%Z -> mi_size x.2 = cache_size x.2 ->
  x ∈ buffered (leases_ (ReuseBufferedMem e size true region c d).2) true.
Proof.
  intros C Hsz Hun Hx Hu Hz. destruct (ReuseBuffered_spec e size true region c d C Hsz Hun) as [(r & _ & -> & _)|(slots & y & l1 & l2 & r & d' & -> & _ & Eb & [Hf _] & _ & EL & _)]; [done|].
  cbn [snd]. rewrite EL, buffered_used, buffered_with, decide_True by done. rewrite Eb in Hx. rewrite elem_of_app, elem_of_cons in Hx.
  rewrite elem_of_app. destruct Hx as [?|[->|?]]; [by left | | by right]. rewrite Hz, Hu, Z.mul_0_l in Hf. change (u64 0) with 0%Z in Hf. lia.
Qed.

End Results.

(** ** Refused requests *)

Lemma AppFree_refused {S} `{!RecordStoreAPI S} (e : LeaseEngine) n u (d : Daemon S) :
  (n = "" -> AppFreeMemory e n u d = (MXM_ERR_PARAM_INVALID, d)) /\
  (n <> "" -> (GetDelayRemoveRecord n d).1 = true -> AppFreeMemory e n u d = (MXM_ERR_NAME_BUSY, d)) /\
  (n <> "" -> (GetDelayRemoveRecord n d).1 = false -> usedMemory_ (leases_ d) !! n = None -> AppFreeMemory e n u d = (MXM_ERR_LEASE_NOT_FOUND, d)) /\
  (forall i, n <> "" -> (GetDelayRemoveRecord n d).1 = false -> usedMemory_ (leases_ d) !! n = Some i -> IsSameApp (mi_appContext i) u = false ->
     AppFreeMemory e n u d = (MXM_ERR_SHM_PERMISSION_DENIED, d)).
Proof.
  assert (Hgo : n <> "" -> AppFreeMemory e n u d = (if (GetDelayRemoveRecord n d).1 then (MXM_ERR_NAME_BUSY, d) else AppFreeMemory e n u d)).
  { intros Hn. unfold AppFreeMemory. rewrite bool_decide_false by done. unfold bind, GetDelayRemoveRecord. cbn. by destruct (existsb _ _). }
  split_and!; [by intros -> | intros Hn Hb; by rewrite Hgo, Hb by done | |].
  - intros Hn Hb E. unfold AppFreeMemory. rewrite bool_decide_false by done. unfold bind, GetDelayRemoveRecord in *. cbn in Hb |- *. rewrite Hb.
    unfold GetUsedMemByName, bind, get_leases. by rewrite E.
  - intros i Hn Hb E Hs. unfold AppFreeMemory. rewrite bool_decide_false by done. unfold bind, GetDelayRemoveRecord in *. cbn in Hb |- *. rewrite Hb.
    unfold GetUsedMemByName, bind, get_leases. rewrite E. cbn. by rewrite Hs.
Qed.
