(* ===== verification/MonitorResults.v ===== *)
(** What the monitor achieves, on the abstract store: the leases of a process
    that is gone are scheduled and, by an engine that works, released; and how
    long a failed removal waits. *)

From S2P Require Import Prelude StoreTypes IdPool IdPoolSpec RecordAllocator RecordStore StoreTable StoreInv StoreSteps StoreRestart StoreSpec RegionNodes StoreTheorems MsgPacker MsgBase MsgRequests MsgResponses StoreInterface Daemon ShmManager ShmHandlers DaemonSim ShmCoherence ShmRecovery ShmResults LeaseEngine LeaseManager LeaseHandlers Monitor LeaseInv DaemonKeeps LeaseResults.
Import MLSManager.

(** ** The sets of scheduled removals *)

(** Keys with different names are never equivalent. *)
Definition by_name (lt : DelayRemovedKey -> DelayRemovedKey -> bool) : Prop :=
  forall x y, lt x y = false -> lt y x = false -> dk_name x = dk_name y.

Lemma comparator_by_name : by_name DelayKeyComparator.
Proof.
  intros x y. unfold DelayKeyComparator. destruct (Z.eqb_spec (dk_expiresTime x) (dk_expiresTime y)), (Z.eqb_spec (dk_expiresTime y) (dk_expiresTime x));
    cbn [negb]; rewrite ?Z.ltb_ge; try lia. apply string_lt_total.
Qed.

Lemma busy_comparator_by_name : by_name DelayKeyIsBusyComparator.
Proof. intros x y. apply string_lt_total. Qed.

(** The key, or one with its name, is there. *)
Lemma set_insert_new lt k l : by_name lt -> k ∈ set_insert lt k l \/ exists x, x ∈ l /\ dk_name x = dk_name k.
Proof.
  intros Hlt. induction l as [|y l IH]; cbn [set_insert]; [left; by left|]. destruct (lt k y) eqn:E1; [left; by left|]. destruct (lt y k) eqn:E2.
  - destruct IH as [H|(x & Hx & Hn)]; [left; by right | right; exists x; split; [by right | done]].
  - right. exists y. split; [by left | by apply Hlt].
Qed.

(** ** Programs and the used leases *)

Section Monitor.
Context {G : Geometry}.
Implicit Types (d : Daemon AStore) (e : LeaseEngine).
Abbreviation used d := (usedMemory_ (leases_ d)).

(** A property of the leases alone. *)
Definition leases_only (P : Daemon AStore -> Prop) : Prop := forall d d', leases_ d' = leases_ d -> P d -> P d'.

Section Framed.
Context (P : Daemon AStore -> Prop) (HP : leases_only P).

Lemma framed_attached m : keeps P (set_attached m).
Proof. intros d. by apply HP. Qed.

Lemma framed_call o : keeps P (call o).
Proof. intros d. apply HP. unfold call. by destruct (exec o _). Qed.

Lemma framed_trace c : keeps P (trace c).
Proof. intros d. by apply HP. Qed.

Lemma framed_delay k : keeps P (AddDelayRemoveRecord k).
Proof. intros d. by apply HP. Qed.

Lemma framed_erase k : keeps P (EraseDelayRemoveRecord k).
Proof. intros d. by apply HP. Qed.

#[local] Hint Resolve framed_attached framed_call framed_trace framed_delay framed_erase : keeps.

Lemma framed_Dead (e : Engine) p : keeps P (SHMProcessDeadProcess e p).
Proof.
  unfold SHMProcessDeadProcess, SHMManager.GetMemoryUsersByPid. apply keeps_bind; [keep|]. intros l. induction l; simpl; [|unfold SHMManager.RemoveMemoryUserInfo]; keep.
Qed.

Lemma framed_RemoveInfo n f : keeps P (SHMManager.RemoveMemoryInfo n f).
Proof. unfold SHMManager.RemoveMemoryInfo, SHMManager.remove_unused. assert (forall l, keeps P (SHMManager.del_refs n l)) by (induction l; simpl; keep). keep. Qed.

#[local] Hint Resolve framed_RemoveInfo : keeps.

Lemma framed_CleanShm (e : Engine) n c t i q : keeps P (CleanShareMemoryLeakInner e n c t i q).
Proof.
  unfold CleanShareMemoryLeakInner, TryRollBackTimeoutShmTask, ShmDetach, ShmDelete, SHMManager.RemoveMemoryUserInfo, SHMManager.UpdateShareMemoryRecordState,
    SHMManager.AddMemoryUserInfo. keep.
Qed.

Lemma framed_LeaseFree e n b : keeps P (LeaseFree e n b).
Proof. unfold LeaseFree. keep. Qed.

Lemma framed_Permission e n c : keeps P (FdPermissionChange e n c).
Proof. unfold FdPermissionChange. keep. Qed.

#[local] Hint Resolve framed_LeaseFree framed_Permission : keeps.

(** The leak cleaner for one lease, if its manager operations keep [P]. *)
Lemma framed_CleanLease e n c ch t b :
  keeps P (PreDeleteUsedMem n) -> keeps P (DeleteUsedMem n) -> keeps P (CleanLeaseMemoryLeakInner e n c ch t b).
Proof. intros H1 H2. unfold CleanLeaseMemoryLeakInner, GetUsedMemByName. keep. Qed.

Lemma framed_schedule (e : Engine) f l : keeps P (schedule_leases e f l).
Proof. induction l; cbn [schedule_leases]; [|unfold schedule_lease]; keep. Qed.

Lemma framed_exited (e : Engine) p : keeps P (ClientProcessExited e p).
Proof. unfold ClientProcessExited, ListAllMem. pose proof framed_schedule. pose proof framed_Dead. keep. Qed.

Lemma framed_add_keys l : keeps P (add_keys l).
Proof. induction l; cbn [add_keys]; keep. Qed.

End Framed.

(** *** No lease is added *)

Definition within (u : gmap string MLSMemInfo) d : Prop := used d ⊆ u.

Lemma within_only u : leases_only (within u).
Proof. intros d d' E. unfold within. by rewrite E. Qed.

Lemma within_refl d : within (used d) d.
Proof. unfold within. reflexivity. Qed.

Lemma within_PreDelete u n : keeps (within u) (PreDeleteUsedMem n).
Proof.
  unfold PreDeleteUsedMem, BufferUsedMemory, keeps, bind, get_leases, call, set_leases, ret, within. intros d H. repeat case_match; simplify_eq/=;
    rewrite ?used_with; try done; (etrans; [apply delete_subseteq | done]).
Qed.

Lemma within_Delete u n : keeps (within u) (DeleteUsedMem n).
Proof.
  unfold DeleteUsedMem, keeps, bind, get_leases, call, set_leases, ret, within. intros d H. repeat case_match; simplify_eq/=; try done; (etrans; [apply delete_subseteq | done]).
Qed.

Lemma within_remove_key u e k : keeps (within u) (remove_key e k).
Proof.
  unfold remove_key. pose proof (framed_CleanLease _ (within_only u)) as H1. pose proof (framed_CleanShm _ (within_only u)) as H2.
  pose proof within_PreDelete. pose proof within_Delete. keep.
Qed.

Lemma within_remove_keys u e l : keeps (within u) (remove_keys e l).
Proof. induction l; cbn [remove_keys]; pose proof (within_remove_key u); pose proof (framed_erase _ (within_only u)); keep. Qed.

Lemma within_RemoveDelay u e : keeps (within u) (RemoveDelayBorrows e).
Proof.
  unfold RemoveDelayBorrows. pose proof (within_remove_keys u). pose proof (framed_add_keys _ (within_only u)). pose proof (keeps_delayed (within u)). keep.
Qed.

(** ** A working engine *)

(** The engine is up, changes permissions and takes memory back. *)
Record working (e : LeaseEngine) : Prop := {
  wk_init : eng_Initialize e = 0%Z;
  wk_loaded : eng_loaded e = true;
  wk_permission : forall n c, pUbseMemFdPermission e n c = 0%Z;
  wk_numa : forall n, return_code (pUbseMemNumaDelete e n);
  wk_fd : forall n, return_code (pUbseMemFdDelete e n);
}.

Lemma LeaseFree_works e n b d : working e -> exists r d', LeaseFree e n b d = (r, d') /\ freed r = true /\ leases_ d' = leases_ d /\ store_ d' = store_ d.
Proof.
  intros [Hi Hl _ Hn Hf]. unfold LeaseFree, bind, trace, ret. rewrite Hi, Hl. cbn [negb Z.eqb]. set (res := if b then _ else _).
  assert (Hr : return_code res) by (subst res; destruct b; auto). destruct Hr as [-> | [-> | ->]]; do 2 eexists; by split_and!.
Qed.

(** The leak cleaner releases a lease that is in use. *)
Lemma CleanLease_releases e n c ch b d i :
  working e -> lease_coherent d -> used d !! n = Some i ->
  let '(r, d') := CleanLeaseMemoryLeakInner e n c ch false b d in r.1 = 0%Z /\ used d' !! n = None.
Proof.
  intros Hw C E. unfold CleanLeaseMemoryLeakInner, bind at 1, GetUsedMemByName, bind at 1, get_leases. rewrite E. cbn [ret fst snd].
  destruct (bool_decide (mi_state i = DELETED)).
  { unfold bind. destruct (DeleteUsed_spec d n i C E) as (d' & -> & _ & _ & Hu & _). cbn. split; [done|]. by rewrite Hu, lookup_delete_eq. }
  unfold bind at 1.
  assert (Hp : exists d1, (if negb (mi_isNuma i) && negb ch then FdPermissionChange e n c else ret 0%Z) d = (0%Z, d1) /\ leases_ d1 = leases_ d /\ store_ d1 = store_ d).
  { destruct (_ && _); [|by exists d]. unfold FdPermissionChange, bind, trace, ret. rewrite (wk_init _ Hw), (wk_permission _ Hw). by eexists. }
  destruct Hp as (d1 & -> & EL & ES). cbn [negb Z.eqb]. assert (C1 : lease_coherent d1) by (unfold lease_coherent in *; by rewrite EL, ES).
  unfold bind at 1. destruct (PreDelete_spec d1 n i C1 ltac:(by rewrite EL)) as (r & d2 & -> & _ & C2 & Hr). destruct (decide _).
  { destruct Hr as [-> [Hu _]]. cbn. split; [done|]. by rewrite Hu, lookup_delete_eq. }
  destruct Hr as [-> EL2]. cbn [Z.eqb]. unfold bind. destruct (LeaseFree_works e n (mi_isNuma i) d2 Hw) as (r & d3 & -> & -> & EL3 & ES3). cbn [negb].
  assert (C3 : lease_coherent d3) by (unfold lease_coherent in *; by rewrite EL3, ES3).
  destruct (DeleteUsed_spec d3 n i C3 ltac:(by rewrite EL3, EL2, EL)) as (d' & -> & _ & _ & Hu & _). cbn. split; [done|]. by rewrite Hu, lookup_delete_eq.
Qed.

(** A key that asks for the removal of lease [n] from a process that is gone. *)
Definition removes (n : string) (k : DelayRemovedKey) : Prop := dk_isLease k = true /\ dk_timeOutScene k = false /\ dk_name k = n.

Lemma remove_key_releases e n k d : working e -> lease_coherent d -> removes n k -> used (remove_key e k d).2 !! n = None.
Proof.
  intros Hw C (Hl & Ht & <-). pose proof (within_remove_key (used d) e k d (within_refl d)) as Hin. destruct (used d !! dk_name k) as [i|] eqn:E.
  - unfold remove_key. rewrite Hl, Ht. pose proof (CleanLease_releases e (dk_name k) (dk_appCtx k) (dk_changed k) (dk_isNumaLease k) d i Hw C E) as H.
    destruct (CleanLeaseMemoryLeakInner _ _ _ _ _ _ d) as [r d']. apply H.
  - destruct (used (remove_key e k d).2 !! dk_name k) as [j|] eqn:E'; [|done]. eapply lookup_weaken in E'; [|exact Hin]. congruence.
Qed.

Lemma remove_keys_release e n k l d :
  working e -> coherent d -> lease_coherent d -> k ∈ l -> removes n k -> used (remove_keys e l d).2 !! n = None.
Proof.
  intros Hw Cs C Hk Hr. revert d Cs C. induction l as [|x l IH]; intros d Cs C; [by apply not_elem_of_nil in Hk|]. cbn [remove_keys]. unfold bind.
  pose proof (both_remove_keys lease_coherent (or_intror (or_introl eq_refl)) e [x] d C) as C1. pose proof (both_remove_keys coherent (or_introl eq_refl) e [x] d Cs) as Cs1.
  cbn [remove_keys] in C1, Cs1. unfold bind in C1, Cs1. destruct (remove_key e x d) as [r d1] eqn:E1. cbn [ret] in C1, Cs1.
  destruct (EraseDelayRemoveRecord x d1) as [[] d2] eqn:E2. cbn [snd] in C1, Cs1. assert (EL : leases_ d2 = leases_ d1) by (by injection E2 as <-).
  apply elem_of_cons in Hk as [<-|Hk].
  - pose proof (remove_key_releases e n k d Hw C Hr) as H1. rewrite E1 in H1. cbn [snd] in H1. pose proof (within_remove_keys (used d2) e l d2 (within_refl d2)) as Hin.
    destruct (remove_keys e l d2) as [f d3]. cbn in *. destruct (used d3 !! n) as [j|] eqn:E'; [|done]. eapply lookup_weaken in E'; [|exact Hin]. rewrite EL in E'. congruence.
  - specialize (IH Hk d2 Cs1 C1). by destruct (remove_keys e l d2) as [f d3].
Qed.

(** ** Scheduling *)

(** What is scheduled for the names [N] is their removal. *)
Record scheduling (e : Engine) (N : string -> Prop) d : Prop := {
  sc_keys : forall k, k ∈ delayedRemoveKeys d -> N (dk_name k) -> removes (dk_name k) k /\ dk_expiresTime k = eng_now e;
  sc_names : forall k, k ∈ delayedRemoveKeysByName d -> N (dk_name k) -> exists k', k' ∈ delayedRemoveKeys d /\ dk_name k' = dk_name k;
}.

Lemma pending_name n d : (GetDelayRemoveRecord n d).1 = true <-> exists k, k ∈ delayedRemoveKeysByName d /\ dk_name k = n.
Proof.
  cbn. rewrite existsb_exists. split; intros (k & Hk & Hn); exists k; [apply list_elem_of_In in Hk; by apply String.eqb_eq in Hn | apply list_elem_of_In in Hk; by rewrite Hn, String.eqb_refl].
Qed.

(** One insertion: of the removal of a name in [N], or of something else. *)
Lemma scheduling_add (e : Engine) N k d :
  scheduling e N d -> (N (dk_name k) -> removes (dk_name k) k /\ dk_expiresTime k = eng_now e) ->
  let d' := (AddDelayRemoveRecord k d).2 in
  scheduling e N d' /\ (exists k', k' ∈ delayedRemoveKeys d' /\ dk_name k' = dk_name k) /\ (forall x, x ∈ delayedRemoveKeys d -> x ∈ delayedRemoveKeys d').
Proof.
  intros [Hk Hn] Hg. cbv zeta. cbn [AddDelayRemoveRecord snd]. assert (Hex : exists k', k' ∈ set_insert DelayKeyComparator k (delayedRemoveKeys d) /\ dk_name k' = dk_name k).
  { destruct (set_insert_new DelayKeyComparator k (delayedRemoveKeys d) comparator_by_name) as [H|(x & Hx & E)]; [eauto|]. exists x. split; [by apply set_insert_keeps | done]. }
  split_and!; [split; cbn | done | intros x; apply set_insert_keeps].
  - intros x [->|Hx]%set_insert_elem; [done | by apply Hk].
  - intros x [->|Hx]%set_insert_elem HN; [done|]. destruct (Hn x Hx HN) as (k' & Hk' & E). exists k'. split; [by apply set_insert_keeps | done].
Qed.

Lemma schedule_spec (e : Engine) (N : string -> Prop) f l d :
  scheduling e N d ->
  let d' := (schedule_leases e f l d).2 in
  scheduling e N d' /\ (forall ls, ls ∈ l -> f ls = true -> N (mi_name ls) -> exists k, k ∈ delayedRemoveKeys d' /\ dk_name k = mi_name ls) /\
  (forall x, x ∈ delayedRemoveKeys d -> x ∈ delayedRemoveKeys d').
Proof.
  revert d. induction l as [|ls l IH]; intros d Hs; cbn [schedule_leases].
  { cbn. split_and!; [done | by intros ? ?%not_elem_of_nil | done]. }
  destruct (f ls) eqn:Ef.
  2: { destruct (IH d Hs) as (? & H2 & ?). split_and!; [done | | done]. intros x [->|Hx]%elem_of_cons Hf HN; [congruence | eauto]. }
  unfold schedule_lease, bind.
  pose proof (pending_name (mi_name ls) d) as Hp. destruct (GetDelayRemoveRecord (mi_name ls) d) as [p d0] eqn:Eg. injection Eg as Eg <-. cbn [fst] in Hp. destruct p.
  - unfold ret. cbn beta iota zeta. destruct (IH d Hs) as (? & H2 & H3). split_and!; [done | | done]. intros x [->|Hx]%elem_of_cons Hf HN; [|eauto].
    destruct (proj1 Hp eq_refl) as (k & Hk & Hkn). destruct (sc_names _ _ _ Hs k Hk) as (k' & Hk' & E'); [by rewrite Hkn|]. exists k'. split; [auto | congruence].
  - set (k := mkDelay _ _ _ _ _ _ _ _ _ _). destruct (scheduling_add e N k d Hs) as (Hs1 & (k' & Hk' & En') & H31); [done|].
    destruct (AddDelayRemoveRecord k d) as [[] d1]. cbn [snd] in *. destruct (IH d1 Hs1) as (? & H2 & H3). split_and!; [done | | auto].
    intros x [->|Hx]%elem_of_cons Hf HN; [|eauto]. exists k'. split; [auto | done].
Qed.

(** The shared memories of the process add keys; none is lost. *)
Lemma dead_keeps_keys (e : Engine) p k : keeps (fun d => k ∈ delayedRemoveKeys d) (SHMProcessDeadProcess e p).
Proof.
  set (P := fun d : Daemon AStore => k ∈ delayedRemoveKeys d). assert (H1 : forall m, keeps P (set_attached m)) by (by intros m d).
  assert (H2 : forall o, keeps P (call o)) by (intros o d; unfold call; by destruct (exec o _)).
  assert (H3 : forall x, keeps P (AddDelayRemoveRecord x)) by (intros x d Hd; by apply set_insert_keeps).
  unfold SHMProcessDeadProcess, SHMManager.GetMemoryUsersByPid. apply keeps_bind; [keep|]. intros l. induction l; simpl; [|unfold SHMManager.RemoveMemoryUserInfo]; keep.
Qed.

(** After the exit of a process every lease of it is scheduled for removal. *)
Lemma exited_scheduled (e : Engine) pid n i d :
  used d !! n = Some i -> mi_name i = n -> ac_pid (mi_appContext i) = u32 pid -> 
  (forall k, k ∈ delayedRemoveKeys d -> dk_name k <> n) -> (GetDelayRemoveRecord n d).1 = false ->
  exists k, k ∈ delayedRemoveKeys (ClientProcessExited e pid d).2 /\ removes n k /\ dk_expiresTime k = eng_now e.
Proof.
  intros E Hn Ho Hkeys Hnames. unfold ClientProcessExited, bind at 1, ListAllMem, bind at 1, get_leases. set (all := if negb _ then _ else _). cbn [ret].
  assert (Hin : i ∈ all).
  { assert (i ∈ (map_to_list (used d)).*2) by (apply list_elem_of_fmap; exists (n, i); by rewrite elem_of_map_to_list). subst all. destruct (negb _); [done|]. apply elem_of_app. by left. }
  clearbody all. unfold bind at 1. set (f := fun record => Z.eqb _ _).
  destruct (schedule_spec e (fun m => m = n) f all d) as (Hs & Hex & _).
  { split; [by intros k Hk E'; destruct (Hkeys k)|]. intros k Hk E'. assert ((GetDelayRemoveRecord n d).1 = true) by (apply pending_name; eauto). congruence. }
  destruct (Hex i Hin) as (k & Hk & Ek); [subst f; cbn; rewrite Ho; apply Z.eqb_refl | done |].
  destruct (schedule_leases e f all d) as [[] d1]. cbn [snd] in *. unfold bind. pose proof (dead_keeps_keys e pid k d1 Hk) as Hk2.
  destruct (SHMProcessDeadProcess e pid d1) as [r2 d2]. unfold call. destruct (exec _ _) as [r3 s3]. cbn in *.
  destruct (sc_keys _ _ _ Hs k Hk) as [Hr Ht]; [congruence|]. exists k. rewrite <- Hn, <- Ek. by split_and!.
Qed.

(** The next round of removals releases every lease of the process. *)
Lemma exited_released (e : Engine) e' pid n i d :
  coherent d -> lease_coherent d -> pid_range pid -> used d !! n = Some i -> ac_pid (mi_appContext i) = u32 pid ->
  (forall k, k ∈ delayedRemoveKeys d -> dk_name k <> n) -> (GetDelayRemoveRecord n d).1 = false ->
  working e' -> (eng_now e <= eng_now e')%Z ->
  used (RemoveDelayBorrows e' (ClientProcessExited e pid d).2).2 !! n = None.
Proof.
  intros Cs C Hpid E Ho Hkeys Hnames Hw Hnow. destruct (used_name _ _ _ C E) as [Hn _].
  destruct (exited_scheduled e pid n i d E Hn Ho Hkeys Hnames) as (k & Hk & Hr & Ht).
  assert (C1 : coherent (ClientProcessExited e pid d).2 /\ lease_coherent (ClientProcessExited e pid d).2) by (split; (apply both_ClientExited; [unfold kept_property; auto | auto | auto])).
  destruct C1 as [Cs1 C1]. destruct (ClientProcessExited e pid d) as [u d1]. cbn [snd] in *. unfold RemoveDelayBorrows, bind, get_delayed.
  assert (Hin : k ∈ List.filter (fun k => Z.leb (dk_expiresTime k) (eng_now e')) (delayedRemoveKeys d1)).
  { apply list_elem_of_In, filter_In. split; [by apply list_elem_of_In | apply Z.leb_le; lia]. }
  pose proof (remove_keys_release e' n k _ d1 Hw Cs1 C1 Hin Hr) as H. destruct (remove_keys _ _ d1) as [f d2]. cbn [snd] in H.
  assert (Hl : leases_only (fun d => used d !! n = None)) by (intros x y Exy; cbn; by rewrite Exy). exact (framed_add_keys _ Hl f d2 H).
Qed.

End Monitor.

(** ** The time of the next try *)

(** One minute more for every failure, up to an hour. *)
Lemma LinearDelay_exact now retry :
  (0 <= now)%Z -> (now + MAX_DELAY_TIME_MS < 2 ^ 64)%Z -> (0 <= retry < 2 ^ 64)%Z ->
  LinearDelayMs now retry ONE_MINUTE_MS MAX_DELAY_TIME_MS = (now + Z.min (retry * ONE_MINUTE_MS) MAX_DELAY_TIME_MS)%Z.
Proof.
  intros Hn Hm Hr. unfold LinearDelayMs, UINT64_MAX, MAX_DELAY_TIME_MS, ONE_MINUTE_MS in *.
  assert (u64 (60 * (60 * 1000) + now) = 60 * (60 * 1000) + now)%Z as -> by (apply Z.mod_small; lia).
  destruct (Z.ltb_spec 0 retry) as [Hp|]; [|assert (retry = 0)%Z as -> by lia; lia].
  pose proof (Z.mul_succ_div_gt (2 ^ 64 - 1) retry Hp) as Hg. pose proof (Z.mul_div_le (2 ^ 64 - 1) retry Hp) as Hle.
  destruct (Z.ltb_spec ((2 ^ 64 - 1) / retry) (60 * 1000)); [nia|].
  assert (60 * 1000 * retry <= 2 ^ 64 - 1)%Z by nia. assert (u64 (60 * 1000 * retry) = 60 * 1000 * retry)%Z as -> by (apply Z.mod_small; lia).
  destruct (Z.ltb_spec (2 ^ 64 - 1 - 60 * 1000 * retry) now); [lia|]. assert (u64 (now + 60 * 1000 * retry) = now + 60 * 1000 * retry)%Z as -> by (apply Z.mod_small; lia). lia.
Qed.
