(* ===== verification/LeaseTheorems.v ===== *)
(** What the lease service and the monitor guarantee, together with the
    shared-memory service they share the daemon and the store with.

    The theorems hold for every record store behind [RecordStoreLaws]; the
    witnesses run them on the one of [record_store.cpp]. *)

From S2P Require Import Prelude StoreTypes IdPool IdPoolSpec RecordAllocator RecordStore StoreTable StoreInv StoreSteps StoreRestart StoreSpec RegionNodes StoreTheorems MsgPacker MsgBase MsgRequests MsgResponses StoreInterface Daemon ShmManager ShmHandlers DaemonSim ShmCoherence ShmRecovery ShmResults ShmTheorems LeaseEngine LeaseManager LeaseHandlers Monitor LeaseInv DaemonKeeps LeaseRecovery LeaseResults MonitorResults.
Import MLSManager.

(** ** Runs of the daemon *)

Section Runs.
Context {G : Geometry} {S : Type} `{!RecordStoreAPI S} `{!RecordStoreLaws S}.
Implicit Types (d : Daemon S) (e : LeaseEngine).
Abbreviation used d := (usedMemory_ (leases_ d)).

(** One request or one round of background work, with any answers of the
    engine. A caller has a process id, and the names that the clock gives new
    leases fit a record. *)
Inductive daemon_step : Daemon S -> Daemon S -> Prop :=
  | StepShm d d' : shm_step d d' -> daemon_step d d'
  | StepMalloc d e req rsp u :
      good_name (le_new_name e (AppMallocMemoryRequest_size_ req)) -> uds_pid u <> 0%Z -> daemon_step d (AppMallocMemory e req rsp u d).2
  | StepMallocLoc d e req rsp u :
      good_name (le_new_name e (AppMallocMemoryWithLocRequest_size_ req)) -> uds_pid u <> 0%Z ->
      daemon_step d (AppMallocMemoryWithLoc e req rsp u d).2
  | StepFree d e n u : daemon_step d (AppFreeMemory e n u d).2
  | StepForceFree d e : daemon_step d (AppForceFreeCachedMemory e d).2
  | StepCheck d e names u : daemon_step d (AppCheckMemoryLease e names u d).2
  | StepExited d (e : Engine) alive pids : daemon_step d (RemoveImmediatelyBorrows e alive pids d).2
  | StepRound d e : daemon_step d (RemoveDelayBorrows e d).2.

Definition sound d : Prop := valid (store_ d) /\ coherent (model d) /\ lease_coherent (model d).

(** The store holds exactly what the maps of the lease manager say: leases
    with an owner are in use, those without are in the cache of their kind. *)
Record leases_persisted d : Prop := {
  lp_used : forall n i, used d !! n = Some i -> exists v, v ∈ list_leases (store_ d) /\ lmi_name v.1 = n /\ owner v <> 0%Z /\ lease_rec i v;
  lp_cached : forall b x, x ∈ buffered (leases_ d) b ->
    exists v, v ∈ list_leases (store_ d) /\ owner v = 0%Z /\ lease_rec x.2 v /\ mi_isNuma x.2 = b /\ mi_size x.2 = cache_size x.2;
  lp_record : forall v, v ∈ list_leases (store_ d) ->
    if decide (owner v = 0%Z) then exists x, x ∈ buffered (leases_ d) (negb (lmi_fdMode v.1)) /\ lease_rec x.2 v
    else exists i, used d !! lmi_name v.1 = Some i /\ lease_rec i v;
  lp_once : forall n i b x, used d !! n = Some i -> x ∈ buffered (leases_ d) b -> mi_name x.2 <> n;
  lp_bound : forall b, length (buffered (leases_ d) b) <= maxBufferedMemNum_ (leases_ d);
}.

Lemma listed_lease d v : valid (store_ d) -> v ∈ list_leases (store_ d) <-> a_leases (view (store_ d)) !! lmi_name v.1 = Some v.
Proof.
  intros V. rewrite (list_leases_view _ V), list_elem_of_fmap. split.
  - intros ([n w] & -> & Hin%elem_of_map_to_list). cbn. by destruct (wf_lease _ (valid_wf _ V) _ _ Hin) as [-> _].
  - intros E. exists (lmi_name v.1, v). by rewrite elem_of_map_to_list.
Qed.

Lemma lease_coherent_persisted d : valid (store_ d) -> lease_coherent (model d) -> leases_persisted d.
Proof.
  intros V (W & H). cbn [model store_ leases_] in W, H.
  assert (Hl : forall n v, a_leases (view (store_ d)) !! n = Some v -> v ∈ list_leases (store_ d) /\ lmi_name v.1 = n).
  { intros n v E. destruct (wf_lease _ W _ _ E) as [Hn _]. split; [apply (listed_lease d v V); by rewrite Hn | done]. }
  split.
  - intros n i E. destruct (used_entry _ _ _ _ H E) as (v & Ev & Hp & R & _). destruct (Hl n v Ev). by exists v.
  - intros b x Hx. destruct (cached_entry _ _ _ _ H Hx) as (v & Ev & Hp & (Hb & _ & Hz & R) & _). destruct (Hl _ v Ev). exists v.
    split_and!; try done. rewrite Hb, (lr_kind _ _ R). by rewrite negb_involutive.
  - intros v Hv%(listed_lease d v V). pose proof (proj2 H (lmi_name v.1)) as Hat. unfold lease_at in Hat. rewrite Hv in Hat. destruct (decide _).
    + destruct Hat as (_ & (x & Hx & Hn) & Hall). exists x. split; [done|]. by destruct (Hall _ x Hx Hn) as (_ & _ & _ & ?).
    + by destruct Hat as [? _].
  - intros n i b x E. destruct (used_entry _ _ _ _ H E) as (_ & _ & _ & _ & Hno). apply Hno.
  - intros b. apply H.
Qed.

Lemma tracks_sound {A} (p : M (S := S) A) q d :
  tracks p q -> sound d -> coherent (q (model d)).2 -> lease_coherent (q (model d)).2 -> sound (p d).2.
Proof. intros Ht (V & C & L) H1 H2. destruct (Ht d V) as [V' E]. rewrite E in H1, H2. by split_and!. Qed.

Lemma both_sound {A} (p : M (S := S) A) q d :
  tracks p q -> (forall P, kept_property P -> keeps P q) -> sound d -> sound (p d).2.
Proof.
  intros Ht Hk D. eapply tracks_sound; [done | done | apply (Hk coherent); [by left | apply D] | apply (Hk lease_coherent); [by right; left | apply D]].
Qed.

Lemma shm_step_sound d d' : shm_step d d' -> sound d -> sound d'.
Proof.
  intros Hs (V & C & L). destruct (shm_step_good d d' Hs) as [V' C']; [by split|]. split_and!; [done | done |].
  destruct Hs as [d0 e req rsp u Hg Hp Hr | d0 e n u | d0 e n u | d0 e p | d0 e n c t i q].
  - destruct (tracks_ShmMap e req rsp u Hg d0 V) as [_ E]. pose proof (leases_ShmMap e req rsp u Hg _ L) as K. by rewrite E in K.
  - destruct (tracks_ShmUnmap e n u d0 V) as [_ E]. pose proof (leases_ShmUnmap e n u _ L) as K. by rewrite E in K.
  - destruct (tracks_ShmDeleteRequested e n u d0 V) as [_ E]. pose proof (leases_Delete e n u _ L) as K. by rewrite E in K.
  - destruct (tracks_DeadProcess e p d0 V) as [_ E]. pose proof (leases_Dead e p _ L) as K. by rewrite E in K.
  - destruct (tracks_CleanLeak e n c t i q d0 V) as [_ E]. pose proof (leases_Clean e n c t i q _ L) as K. by rewrite E in K.
Qed.

Lemma daemon_step_sound d d' : daemon_step d d' -> sound d -> sound d'.
Proof.
  intros [d0 d1 Hs | d0 e req rsp u Hn Hu | d0 e req rsp u Hn Hu | d0 e n u | d0 e | d0 e names u | d0 e alive pids | d0 e] D; [by eapply shm_step_sound| ..];
    (eapply both_sound; [eauto with tracks | intros P HP | exact D]).
  - by apply both_AppMalloc.
  - by apply both_AppMallocLoc.
  - by apply both_AppFree.
  - by apply both_ForceFree.
  - by apply both_Check.
  - by apply both_RemoveImmediately.
  - by apply both_RemoveDelay.
Qed.

Lemma daemon_steps_sound d d' : rtc daemon_step d d' -> sound d -> sound d'.
Proof. induction 1; eauto using daemon_step_sound. Qed.

Lemma fresh_sound s : valid s -> a_imports (view s) = ∅ -> a_leases (view s) = ∅ -> sound (fresh s).
Proof.
  intros V Ei El. destruct (fresh_good s V Ei) as [_ C]. split_and!; [done | done |]. split; [by apply valid_wf|]. split.
  - intros b. destruct b; split; cbn; try constructor; lia.
  - intros n. unfold lease_at. cbn. rewrite El, lookup_empty. split; [apply lookup_empty|]. intros [] x Hx; by apply not_elem_of_nil in Hx.
Qed.

(** After any sequence of requests of both services, process exits and
    rounds of the monitor, with any answers of the engine, the record store
    holds exactly what the managers' maps say: an import record per attached
    memory and a reference per user; a lease record with an owner per lease in
    use, one without an owner per cached lease, in the cache of its kind, and
    nothing else. No lease is both in use and cached, a cached lease has the
    size of all its units, and the caches do not exceed their limit. *)
Theorem daemon_maps_are_persisted s d :
  valid s -> a_imports (view s) = ∅ -> a_leases (view s) = ∅ -> rtc daemon_step (fresh s) d ->
  valid (store_ d) /\ persisted d /\ leases_persisted d.
Proof.
  intros V Ei El H. pose proof (daemon_steps_sound _ _ H (fresh_sound _ V Ei El)) as D. split_and!; [apply D | | apply lease_coherent_persisted; apply D].
  apply good_persisted. split; apply D.
Qed.

(** A handler on the abstract store ends with the same result and leases. *)
Lemma on_model {A} (p : M (S := S) A) q d : tracks p q -> sound d -> exists d', p d = ((p d).1, d') /\ q (model d) = ((p d).1, model d').
Proof. intros Ht (V & _). destruct (Ht d V) as [_ E]. exists (p d).2. by destruct (p d). Qed.

(** ** Borrowing *)

(** C15: a successful request for memory makes the caller the owner of the lease
    that the response names, which nobody owned before, with the requested size
    and at least the memory ids of the response; and no request, successful or
    not, changes a lease that is in use. *)
Theorem malloc_grants_free_lease e req rsp u d :
  sound d -> (0 <= AppMallocMemoryRequest_size_ req)%Z -> good_name (le_new_name e (AppMallocMemoryRequest_size_ req)) ->
  (forall b x, x ∈ buffered (leases_ d) b -> (0 <= mi_unitSize x.2)%Z) ->
  let '((r, rsp'), d') := AppMallocMemory e req rsp u d in
  (forall n i, used d !! n = Some i -> used d' !! n = Some i) /\
  (r = MXM_OK -> used d !! AppMallocMemoryResponse_name_ rsp' = None /\
     exists i, used d' !! AppMallocMemoryResponse_name_ rsp' = Some i /\ mi_appContext i = context_of u /\
       mi_size i = AppMallocMemoryRequest_size_ req /\ AppMallocMemoryResponse_memIds_ rsp' `prefix_of` mi_memIds i).
Proof.
  intros D Hsz Hn Hun. destruct (on_model _ _ d (tracks_AppMalloc e req rsp u Hn) D) as (d' & Ed & Em).
  pose proof (AppMalloc_spec e req rsp u (model d) ltac:(apply D) Hsz Hun) as H. rewrite Em in H. rewrite Ed. destruct (AppMallocMemory e req rsp u d).1 as [r rsp']. exact H.
Qed.

(** C17: a request that the cache can serve gets the smallest cached lease of its
    kind that has the size and lies on a node of the region: the response's
    memory ids are the first units of the lease, enough for the size and none
    too many; the lease leaves the cache and is recorded for the caller. If no
    cached lease fits, the answer is -1 and nothing changes. *)
Theorem reuse_serves_smallest e size b region c slots d :
  sound d -> isEnableLeaseBuffered_ (leases_ d) = true -> GetRegionInfo e region = (0%Z, slots) -> (0 < size)%Z ->
  (forall x, x ∈ buffered (leases_ d) b -> (0 <= mi_unitSize x.2)%Z /\ (size + mi_unitSize x.2 < 2 ^ 64)%Z) ->
  let '(r, d') := ReuseBufferedMem e size b region c d in
  engine_trace d' = engine_trace d /\
  match r.2 with
  | Some i =>
      exists x l1 l2, r.1 = 0%Z /\ buffered (leases_ d) b = l1 ++ x :: l2 /\ fits size slots x /\
        (forall y, y ∈ buffered (leases_ d) b -> fits size slots y -> (mi_size x.2 <= mi_size y.2)%Z) /\ serves size c x i /\
        buffered (leases_ d') b = l1 ++ l2 /\ used d !! mi_name i = None /\ used d' = <[mi_name i := mi_reown c size x.2]> (used d)
  | None => r.1 = (-1)%Z /\ leases_ d' = leases_ d /\ forall x, x ∈ buffered (leases_ d) b -> ~ fits size slots x
  end.
Proof.
  intros D He Hr Hsz Hun. destruct (on_model _ _ d (tracks_Reuse e size b region c) D) as (d' & Ed & Em). rewrite Ed.
  destruct (ReuseBuffered_spec e size b region c (model d) ltac:(apply D) Hsz ltac:(intros x Hx; by apply Hun)) as
    [(r & _ & E & Hno)|(sl & x & l1 & l2 & r & dm & E & Hsl & Eb & Hf & Hmin & EL & Hu & ET & Hi)].
  - rewrite Em in E. injection E as Er _ _ _ _ ET EL. rewrite Er. destruct (Hno slots He Hr) as [-> Hno']. cbn [fst snd].
    by split_and!.
  - rewrite Em in E. injection E as -> <-. rewrite Hr in Hsl. injection Hsl as <-. rewrite decide_True in Hi.
    2: { apply Hun. change (x ∈ buffered (leases_ (model d)) b). rewrite Eb, elem_of_app, elem_of_cons. tauto. }
    destruct Hi as (i & -> & Sv & _). cbn [fst snd]. split; [done|]. exists x, l1, l2. cbn [model leases_] in *. rewrite EL, (sv_name _ _ _ _ Sv).
    split_and!; try done. rewrite buffered_used, buffered_with, decide_True by done. done.
Qed.

(** ** Returning *)

(** C16: only its owner (process, user and group) can return a lease: a request
    without a name, for a name that waits for its background removal, for a
    lease that does not exist or by somebody else is refused and changes
    nothing. When the owner's request succeeds nobody owns the lease any more,
    and: if it was already marked as deleted, its record is gone and the engine is not
    called; otherwise, if the cache has room, it is cached, its record stays
    without an owner and it is not returned to the engine; otherwise its
    record is gone and the engine was called last to take the memory back,
    and has done so. (A lease of descriptors is first made the daemon's
    own.) When the request fails, the lease still belongs to its owner. *)
Theorem free_by_owner_only e n u d :
  sound d -> eng_Initialize e <> MXM_ERR_LEASE_NOT_EXIST ->
  let '(r, d') := AppFreeMemory e n u d in
  if decide (n = "") then r = MXM_ERR_PARAM_INVALID /\ d' = d
  else if (GetDelayRemoveRecord n d).1 then r = MXM_ERR_NAME_BUSY /\ d' = d
  else match used d !! n with
  | None => r = MXM_ERR_LEASE_NOT_FOUND /\ d' = d
  | Some i =>
      if IsSameApp (mi_appContext i) u then
        if decide (r = 0%Z) then given_back e n i (model d) (model d')
        else exists i', used d' = <[n := i']> (used d) /\ mi_appContext i' = mi_appContext i
      else r = MXM_ERR_SHM_PERMISSION_DENIED /\ d' = d
  end.
Proof.
  intros D Hi. destruct (AppFree_refused e n u d) as (H1 & H2 & H3 & H4). destruct (decide (n = "")) as [Hn|Hn]; [by rewrite H1|].
  destruct (GetDelayRemoveRecord n d).1 eqn:Hb; [by rewrite H2|]. destruct (used d !! n) as [i|] eqn:E; [|by rewrite H3].
  destruct (IsSameApp (mi_appContext i) u) eqn:Hs; [|by rewrite (H4 i)]. destruct (on_model _ _ d (tracks_AppFree e n u) D) as (d' & Ed & Em).
  pose proof (AppFree_owner e n u i (model d) ltac:(apply D) Hi Hb E Hs) as H. rewrite Em in H. by rewrite Ed.
Qed.

(** ** Recovery *)

(** C18: a daemon that dies and starts again, with system calls that succeed
    and the default size of the cache, recovers the leases if the engine answers
    for those whose borrowing or return was under way: recovery succeeds,
    changes nothing in the engine, agrees with the store again, and
    every finished lease is back where it was, in use by its owner or cached. *)
Theorem lease_recovery_restores os fd e sw d :
  sound d -> op_ok (OpRestart os fd) -> maxBufferedMemNum_ (leases_ d) = DEFAULT_MAX_BUFFER_MEM_NUM ->
  (forall v, v ∈ list_leases (store_ d) -> lmi_state v.1 = PRE_ADD \/ lmi_state v.1 = PRE_DEL -> lease_answered e v) ->
  let '(r, d') := RecoverFromRecord e sw (restarted os fd d) in
  r = 0%Z /\ engine_trace d' = [] /\ leases_persisted d' /\ isEnableLeaseBuffered_ (leases_ d') = sw /\
  forall v, v ∈ list_leases (store_ d) -> lmi_state v.1 = FINISH -> placed (leases_ d') (recovered_info v FINISH).
Proof.
  intros (V & C & W & H) Hok Hmax Hans. pose proof (exec_valid _ _ V Hok) as Vr. pose proof (exec_view _ _ V Hok) as Er. cbn [spec_run] in Er.
  injection Er as _ Er. cbn [model store_ leases_] in W, H. set (ar := view (exec (OpRestart os fd) (store_ d)).2) in *.
  assert (El : a_leases ar = a_leases (view (store_ d))) by (by rewrite <- Er). destruct (tracks_LeaseRecovery e sw (restarted os fd d) Vr) as [V' Em].
  destruct (RecoverFromRecord_spec e sw (leases_ d) (model (restarted os fd d))) as (dm & Hm & Cm & Tm & _ & Sm & Fm); cbn [model restarted fresh store_ leases_].
  - by apply valid_wf.
  - done.
  - split; [apply H|]. intros n. pose proof (proj2 H n) as Hat. unfold lease_at in *. fold ar. by rewrite El.
  - by rewrite Hmax.
  - fold ar. rewrite El. intros n v Ev. destruct (wf_lease _ W _ _ Ev) as [Hn _]. assert (Hv : v ∈ list_leases (store_ d)) by (apply (listed_lease d v V); by rewrite Hn).
    split; [by apply Hans|]. intros Ho. pose proof (proj2 H n) as Hat. unfold lease_at in Hat. rewrite Ev, decide_True in Hat by done.
    destruct Hat as (_ & (x & Hx & Hxn) & Hall). destruct (Hall _ x Hx Hxn) as (_ & _ & Hz & R). by rewrite (lr_size _ _ R), (lr_unit _ _ R), (lr_ids _ _ R).
  - rewrite Em in Hm. destruct (RecoverFromRecord e sw (restarted os fd d)) as [r d'] eqn:Ed. injection Hm as -> <-. cbn [fst snd] in *. split_and!; try done.
    + by apply lease_coherent_persisted.
    + intros v Hv Hs. apply (Fm (lmi_name v.1) v); [|done]. cbn [model restarted fresh store_]. fold ar. rewrite El. by apply (listed_lease d v V).
Qed.

(** ** Processes that exit *)

(** C19: the leases of a process that exits do not stay: once the monitor has
    noticed the exit, the next round of removals by a working engine, not
    earlier than that, leaves no lease of the process in use, provided that no
    removal of the names of its leases was already scheduled by something
    else before. *)
Theorem exited_process_leaves_no_lease (e : Engine) e' pid d :
  sound d -> pid_range pid -> working e' -> (eng_now e <= eng_now e')%Z ->
  (forall n i, used d !! n = Some i -> ac_pid (mi_appContext i) = u32 pid ->
     (GetDelayRemoveRecord n d).1 = false /\ forall k, k ∈ delayedRemoveKeys d -> dk_name k <> n) ->
  let d' := (RemoveDelayBorrows e' (ClientProcessExited e pid d).2).2 in
  forall n i, used d' !! n = Some i -> ac_pid (mi_appContext i) <> u32 pid.
Proof.
  intros D Hpid Hw Hnow Hfree. cbv zeta. destruct (on_model _ _ d (tracks_ClientExited e pid Hpid) D) as (d1 & E1 & M1). rewrite E1. cbn [snd].
  assert (D1 : sound d1).
  { pose proof (both_sound _ _ d (tracks_ClientExited e pid Hpid) (fun P HP => both_ClientExited P HP e pid Hpid) D) as H. by rewrite E1 in H. }
  destruct (on_model _ _ d1 (tracks_RemoveDelay e') D1) as (d2 & E2 & M2). rewrite E2. cbn [snd]. intros n i Ei Ho.
  set (dm := (RemoveDelayBorrows e' (ClientProcessExited e pid (model d)).2).2). assert (Hdm : dm = model d2) by (subst dm; rewrite M1; cbn [snd]; by rewrite M2).
  assert (Hin : within (used d) dm).
  { apply (within_RemoveDelay (used d) e'). apply (framed_exited _ (within_only (used d)) e pid (model d)). apply within_refl. }
  rewrite Hdm in Hin. assert (E0 : used d !! n = Some i) by (eapply lookup_weaken; [exact Ei | exact Hin]). destruct (Hfree n i E0 Ho) as [Hb Hk].
  pose proof (exited_released e e' pid n i (model d) ltac:(apply D) ltac:(apply D) Hpid E0 Ho Hk Hb Hw Hnow) as Hnone. fold dm in Hnone. rewrite Hdm in Hnone.
  cbn [model leases_] in Hnone. congruence.
Qed.

(** A removal that failed is tried again one minute later for every failure
    so far and after an hour at the latest, for any clock below 2^64 - 1 hour
    and any 64-bit retry count: the arithmetic does not overflow. *)
Theorem retry_delay_exact now retry :
  (0 <= now)%Z -> (now + MAX_DELAY_TIME_MS < 2 ^ 64)%Z -> (0 <= retry < 2 ^ 64)%Z ->
  LinearDelayMs now retry ONE_MINUTE_MS MAX_DELAY_TIME_MS = (now + Z.min (retry * ONE_MINUTE_MS) MAX_DELAY_TIME_MS)%Z.
Proof. apply LinearDelay_exact. Qed.

(** A NUMA lease from a chosen lender is recorded with unit size 0, while
    the other way to borrow records the size: when its owner returns it and the
    cache has room, it takes a place there and no request can ever get it out
    again. *)
Theorem lender_numa_lease_never_reused e req rsp u d :
  sound d -> good_name (le_new_name e (AppMallocMemoryWithLocRequest_size_ req)) -> uds_pid u <> 0%Z ->
  truth (AppMallocMemoryWithLocRequest_isNuma_ req) = true ->
  let '((r, rsp'), d1) := AppMallocMemoryWithLoc e req rsp u d in
  let n := AppMallocMemoryResponse_name_ rsp' in
  r = MXM_OK -> has_room (model d1) true -> (GetDelayRemoveRecord n d1).1 = false ->
  forall e', let '(r', d2) := AppFreeMemory e' n u d1 in
  r' = 0%Z /\ exists x, x ∈ buffered (leases_ d2) true /\ mi_name x.2 = n /\
    forall e3 size region c, (0 < size)%Z -> (forall y, y ∈ buffered (leases_ d2) true -> (0 <= mi_unitSize y.2)%Z) ->
      x ∈ buffered (leases_ (ReuseBufferedMem e3 size true region c d2).2) true.
Proof.
  intros D Hn Hu Hb. destruct (on_model _ _ d (tracks_AppMallocLoc e req rsp u Hn) D) as (d1 & E1 & M1).
  assert (D1 : sound d1).
  { pose proof (both_sound _ _ d (tracks_AppMallocLoc e req rsp u Hn) (fun P HP => both_AppMallocLoc P HP e req rsp u Hn Hu) D) as H. by rewrite E1 in H. }
  pose proof (MallocLoc_unit e req rsp u (model d) Hb) as H1. rewrite M1 in H1. rewrite E1. destruct (AppMallocMemoryWithLoc e req rsp u d).1 as [r rsp']. cbn [fst snd] in H1.
  intros n Hr Hroom Hbusy e'. destruct (H1 Hr) as (i & Ei & Ho & Hk & Hs & Hz). destruct (on_model _ _ d1 (tracks_AppFree e' n u) D1) as (d2 & E2 & M2).
  destruct (AppFree_numa_cached e' n u i (model d1)) as (dm & x & Em & Hx & Hxn & Hxu & Hxz); try done; [apply D1 | | by rewrite Hs |].
  { rewrite Ho. unfold IsSameApp, context_of. cbn. by rewrite !Z.eqb_refl. }
  assert (D2 : sound d2).
  { pose proof (both_sound _ _ d1 (tracks_AppFree e' n u) (fun P HP => both_AppFree P HP e' n u) D1) as H. by rewrite E2 in H. }
  rewrite M2 in Em. injection Em as Er <-. rewrite E2, Er. split; [done|]. exists x. split_and!; [done | done |]. intros e3 size region c Hsz Hun.
  destruct (on_model _ _ d2 (tracks_Reuse e3 size true region c) D2) as (d3 & E3 & M3).
  pose proof (unit_zero_stays e3 size region c (model d2) x ltac:(apply D2) Hsz Hun Hx ltac:(congruence) Hxz) as H3. rewrite M3 in H3. by rewrite E3.
Qed.

End Runs.

(** ** Witnesses *)

Section Witnesses.
#[local] Existing Instance small_geometry.
Abbreviation D := (Daemon RecordStore.state).
Abbreviation caller pid := (mkUds pid 1000 1000).
Abbreviation used d := (usedMemory_ (leases_ d)).

Definition demo_fd : ubs_mem_fd_desc_t := mkFdDesc [31; 32; 33]%Z 4096 2 UBSE_EXIST.

Definition demo_numa : ubs_mem_numa_desc_t := mkNumaDesc 3 2 UBSE_EXIST.

(** An engine that lends what is asked for, from node 2; a new lease is called [n]. *)
Definition demo_lender (n : string) : LeaseEngine :=
  mkLeaseEngine demo_engine (fun _ => (0, [2])%Z) (fun _ => n) (mkAppContext 1 0 0) (fun _ _ _ => (0%Z, demo_numa)) (fun _ _ _ _ => (0%Z, demo_fd))
    (fun _ _ => (0%Z, demo_numa)) (fun _ _ _ => (0%Z, demo_fd)) (fun _ _ => 0%Z) (fun _ => 0%Z) (fun _ => 0%Z) (fun _ => (0%Z, demo_fd)) (fun _ => (0%Z, demo_numa)).

Definition demo_malloc_req (size : Z) : AppMallocMemoryRequest := mkAppMallocMemoryRequest (mkMsgBase 0 0 0) size 0 0 "default".

Definition demo_loc_req : AppMallocMemoryWithLocRequest := mkAppMallocMemoryWithLocRequest (mkMsgBase 0 0 0) 8192 1 2 0 3 0.

Definition demo_malloc_rsp : AppMallocMemoryResponse := mkAppMallocMemoryResponse (mkMsgBase 0 0 0) 0 [] 0 false 0 "".

(** Process 7 borrows "a"; it returns it, which is then cached; it maps the shared memory "m". *)
Definition lease1 : D := (AppMallocMemory (demo_lender "a") (demo_malloc_req 12288) demo_malloc_rsp (caller 7) demo0).2.

Definition lease2 : D := (AppFreeMemory (demo_lender "a") "a" (caller 7) lease1).2.

Definition lease3 : D := demo_map "m" (caller 7) lease1.

Definition lease_a (c : AppContext) : MLSMemInfo := mkMLSMemInfo "a" c 12288 (-1) [31; 32; 33]%Z 4096 0 2 false FINISH.

Definition cached_a : MLSMemKey * MLSMemInfo := (mkMLSMemKey 12288 "a", lease_a (mkAppContext 0 1000 1000)).

Lemma demo0_sound : sound demo0.
Proof. apply fresh_sound; [by apply started_valid, demo_restart | vm_compute; reflexivity | vm_compute; reflexivity]. Qed.

Lemma lease1_step : daemon_step demo0 lease1.
Proof. apply StepMalloc; [by apply (good_name_demo "a") | done]. Qed.

Lemma lease1_sound : sound lease1.
Proof. eapply daemon_step_sound; [apply lease1_step | apply demo0_sound]. Qed.

Lemma lease2_sound : sound lease2.
Proof. eapply daemon_step_sound; [apply StepFree | apply lease1_sound]. Qed.

Lemma lease3_step : daemon_step lease1 lease3.
Proof. apply StepShm, StepMap; first [by apply good_name_demo | vm_compute; discriminate]. Qed.

Lemma lease1_used : used lease1 = {["a" := lease_a (mkAppContext 7 1000 1000)]}.
Proof. vm_compute. reflexivity. Qed.

Lemma lease2_cached : buffered (leases_ lease2) false = [cached_a].
Proof. vm_compute. reflexivity. Qed.

Lemma demo_lender_works n : working (demo_lender n).
Proof. split; try done; by left. Qed.

Lemma daemon_maps_are_persisted_witness : persisted lease3 /\ leases_persisted lease3 /\ list_leases (store_ lease3) <> [].
Proof.
  destruct (daemon_maps_are_persisted (started demo_os 3) lease3) as (_ & Hp & Hl).
  - by apply started_valid, demo_restart.
  - vm_compute. reflexivity.
  - vm_compute. reflexivity.
  - apply rtc_l with lease1; [apply lease1_step | apply rtc_once, lease3_step].
  - split_and!; [exact Hp | exact Hl | vm_compute; discriminate].
Defined.

Lemma malloc_grants_free_lease_witness :
  exists i, used (AppMallocMemory (demo_lender "b") (demo_malloc_req 5000) demo_malloc_rsp (caller 8) lease2).2 !! "a" = Some i /\
    mi_appContext i = mkAppContext 8 1000 1000.
Proof.
  pose proof (malloc_grants_free_lease (demo_lender "b") (demo_malloc_req 5000) demo_malloc_rsp (caller 8) lease2 lease2_sound) as H.
  destruct (AppMallocMemory (demo_lender "b") (demo_malloc_req 5000) demo_malloc_rsp (caller 8) lease2) as [[r rsp'] d'] eqn:E. destruct H as [_ H].
  - vm_compute. discriminate.
  - by apply (good_name_demo "b").
  - intros [] x Hx.
    + assert (Eb : buffered (leases_ lease2) true = []) by (vm_compute; reflexivity). rewrite Eb in Hx. destruct (not_elem_of_nil x Hx).
    + rewrite lease2_cached in Hx. apply list_elem_of_singleton in Hx as ->. done.
  - assert (Hr : (r, AppMallocMemoryResponse_name_ rsp') = (MXM_OK, "a")).
    { transitivity (let x := (AppMallocMemory (demo_lender "b") (demo_malloc_req 5000) demo_malloc_rsp (caller 8) lease2).1 in (x.1, AppMallocMemoryResponse_name_ x.2)); [by rewrite E | vm_compute; reflexivity]. }
    injection Hr as -> Hn. destruct (H eq_refl) as (_ & i & Hi & Ho & _). rewrite Hn in Hi. exists i. exact (conj Hi Ho).
Defined.

Lemma reuse_serves_smallest_witness :
  exists i, (ReuseBufferedMem (demo_lender "b") 5000 false "default" (mkAppContext 8 1000 1000) lease2).1 = (0%Z, Some i) /\
    serves 5000 (mkAppContext 8 1000 1000) cached_a i /\ mi_memIds i = [31; 32]%Z.
Proof.
  pose proof (reuse_serves_smallest (demo_lender "b") 5000 false "default" (mkAppContext 8 1000 1000) [2%Z] lease2 lease2_sound) as H.
  assert (E : (ReuseBufferedMem (demo_lender "b") 5000 false "default" (mkAppContext 8 1000 1000) lease2).1 =
    (0%Z, Some (mkMLSMemInfo "a" (mkAppContext 8 1000 1000) 5000 (-1) [31; 32]%Z 4096 0 2 false FINISH))) by (vm_compute; reflexivity).
  destruct (ReuseBufferedMem (demo_lender "b") 5000 false "default" (mkAppContext 8 1000 1000) lease2) as [r d']. cbn [fst] in *. subst r. destruct H as (_ & x & l1 & l2 & _ & Eb & _ & _ & Sv & _).
  - vm_compute. reflexivity.
  - reflexivity.
  - lia.
  - rewrite lease2_cached. intros x ->%list_elem_of_singleton. done.
  - eexists. split; [reflexivity|]. split; [|reflexivity]. rewrite lease2_cached in Eb. destruct l1 as [|y l1]; injection Eb as Eb; [by subst x|]. by destruct l1.
Defined.

Lemma free_by_owner_only_witness :
  given_back (demo_lender "a") "a" (lease_a (mkAppContext 7 1000 1000)) (model lease1) (model lease2) /\
  has_room (model lease1) false /\ (AppFreeMemory (demo_lender "a") "a" (caller 8) lease1).1 = MXM_ERR_SHM_PERMISSION_DENIED.
Proof.
  split_and!.
  - pose proof (free_by_owner_only (demo_lender "a") "a" (caller 7) lease1 lease1_sound ltac:(done)) as H. rewrite lease1_used in H.
    assert (E : (AppFreeMemory (demo_lender "a") "a" (caller 7) lease1).1 = 0%Z) by (vm_compute; reflexivity). fold lease2 in *.
    change lease2 with (AppFreeMemory (demo_lender "a") "a" (caller 7) lease1).2.
    destruct (AppFreeMemory (demo_lender "a") "a" (caller 7) lease1) as [r d']. cbn [fst snd] in *. subst r.
    assert (Eb : (GetDelayRemoveRecord "a" lease1).1 = false) by (vm_compute; reflexivity). rewrite decide_False, Eb, lookup_singleton_eq in H by done. exact H.
  - split; vm_compute; [reflexivity | lia].
  - pose proof (free_by_owner_only (demo_lender "a") "a" (caller 8) lease1 lease1_sound ltac:(done)) as H. rewrite lease1_used in H.
    destruct (AppFreeMemory (demo_lender "a") "a" (caller 8) lease1) as [r d']. cbn [fst].
    assert (Eb : (GetDelayRemoveRecord "a" lease1).1 = false) by (vm_compute; reflexivity). rewrite decide_False, Eb, lookup_singleton_eq in H by done. exact (proj1 H).
Defined.

Lemma lease_recovery_restores_witness :
  leases_persisted (RecoverFromRecord (demo_lender "b") true (restarted demo_os 4 lease1)).2 /\
  used (RecoverFromRecord (demo_lender "b") true (restarted demo_os 4 lease1)).2 !! "a" = Some (lease_a (mkAppContext 7 1000 1000)).
Proof.
  pose proof (lease_recovery_restores demo_os 4 (demo_lender "b") true lease1 lease1_sound) as H.
  destruct (RecoverFromRecord (demo_lender "b") true (restarted demo_os 4 lease1)) as [r d']. cbn [snd].
  destruct H as (_ & _ & Hp & _ & Hf).
  - done.
  - reflexivity.
  - intros v _ _. left. unfold GetLeaseMemoryStage. cbn. by destruct (lmi_fdMode v.1).
  - split; [exact Hp|]. apply (Hf (mkLeaseMallocInput true "a" 12288 0 (mkAppContext 7 1000 1000) FINISH, mkLeaseMallocResult [31; 32; 33]%Z (-1) 4096 2)); [|done].
    assert (list_leases (store_ lease1) = [(mkLeaseMallocInput true "a" 12288 0 (mkAppContext 7 1000 1000) FINISH, mkLeaseMallocResult [31; 32; 33]%Z (-1) 4096 2)]) as ->
      by (vm_compute; reflexivity). by left.
Defined.

Lemma exited_process_leaves_no_lease_witness :
  Forall (fun p => ac_pid (mi_appContext p.2) <> 7%Z) (map_to_list (used (RemoveDelayBorrows (demo_lender "b") (ClientProcessExited demo_engine 7 lease1).2).2)).
Proof.
  rewrite Forall_forall. intros [n i] Hi%elem_of_map_to_list. revert Hi.
  apply (exited_process_leaves_no_lease demo_engine (demo_lender "b") 7 lease1 lease1_sound); [unfold pid_range; lia | apply demo_lender_works | done |].
  intros m j _ _. split; [vm_compute; reflexivity|]. assert (Ek : delayedRemoveKeys lease1 = []) by (vm_compute; reflexivity). rewrite Ek. intros k Hk. by apply not_elem_of_nil in Hk.
Defined.

Lemma retry_delay_exact_witness : LinearDelayMs 1000 (2 ^ 63) ONE_MINUTE_MS MAX_DELAY_TIME_MS = (1000 + MAX_DELAY_TIME_MS)%Z.
Proof. apply (retry_delay_exact 1000 (2 ^ 63)); vm_compute; repeat split; discriminate. Defined.

Lemma lender_numa_lease_never_reused_witness :
  let d1 := (AppMallocMemoryWithLoc (demo_lender "c") demo_loc_req demo_malloc_rsp (caller 7) demo0).2 in
  let d2 := (AppFreeMemory (demo_lender "c") "c" (caller 7) d1).2 in
  exists x, x ∈ buffered (leases_ d2) true /\ mi_name x.2 = "c" /\
    x ∈ buffered (leases_ (ReuseBufferedMem (demo_lender "d") 1 true "default" (mkAppContext 8 1000 1000) d2).2) true.
Proof.
  intros d1 d2. pose proof (lender_numa_lease_never_reused (demo_lender "c") demo_loc_req demo_malloc_rsp (caller 7) demo0 demo0_sound) as H.
  assert (E : (AppMallocMemoryWithLoc (demo_lender "c") demo_loc_req demo_malloc_rsp (caller 7) demo0).1 =
    (MXM_OK, mkAppMallocMemoryResponse (mkMsgBase 0 0 0) 0 [0]%Z 3 true 8192 "c")) by (vm_compute; reflexivity).
  assert (Eb : buffered (leases_ d2) true = [(mkMLSMemKey 0 "c", mkMLSMemInfo "c" (mkAppContext 0 1000 1000) 0 3 [0]%Z 0 0 2 true FINISH)]) by (vm_compute; reflexivity).
  assert (Hroom : has_room (model d1) true) by (apply (bool_decide_unpack (has_room (model d1) true)); vm_compute; exact I).
  assert (Hbusy : (GetDelayRemoveRecord "c" d1).1 = false) by (vm_compute; reflexivity). subst d2. revert Hroom Hbusy Eb. subst d1.
  destruct (AppMallocMemoryWithLoc (demo_lender "c") demo_loc_req demo_malloc_rsp (caller 7) demo0) as [rr d1]. cbn [fst snd] in *. subst rr. intros Hroom Hbusy Eb.
  specialize (H ltac:(by apply (good_name_demo "c")) ltac:(done) ltac:(done) ltac:(done) Hroom Hbusy (demo_lender "c")). cbn [AppMallocMemoryResponse_name_] in H.
  destruct (AppFreeMemory (demo_lender "c") "c" (caller 7) d1) as [r' d2]. cbn [snd] in *. destruct H as (_ & x & Hx & Hn & Hs). exists x. split_and!; [exact Hx | exact Hn |].
  apply Hs; [lia|]. rewrite Eb. intros y ->%list_elem_of_singleton. done.
Defined.

End Witnesses.
