(* ===== verification/NodeAddress.v ===== *)
(** Node identities: [src/src/common/rpc_config.h], and the number parser
    [StrUtil::StrToUint] of [src/src/common/hdagger/strings/dg_str_util.h].

    A node is named by its address and port, ["ip:port"]; the name is built from
    the configuration and parsed again whenever a connection is opened. *)

From S2P Require Import Prelude StoreTypes MsgPacker MsgCodec MsgBase.

Record RpcNode := mkRpcNode { rn_name : string; rn_ip : string; rn_port : Z }.

(** ** [std::to_string] and [std::strtoul] *)

Definition digit (n : Z) : ascii := ascii_of_N (Z.to_N (48 + n)).

(** The decimal digits of [n], most significant first; a number below [10 ^ fuel]. *)
Fixpoint to_string (fuel : nat) (n : Z) : string :=
  match fuel with
  | O => ""
  | S fuel => if Z.ltb n 10 then String (digit n) "" else (to_string fuel (n / 10) +:+ String (digit (n mod 10)) "")%string
  end.

(** [uint16_t] has at most five digits. *)
Definition port_to_string (port : Z) : string := to_string 5 port.

Definition code (c : ascii) : Z := Z.of_N (N_of_ascii c).

Definition isspace (c : ascii) : bool := (Z.leb 9 (code c) && Z.leb (code c) 13) || Z.eqb (code c) 32.

Definition isdigit (c : ascii) : bool := Z.leb 48 (code c) && Z.leb (code c) 57.

(** [c_str()] of a string: what comes before the first null character. *)
Fixpoint c_str (s : string) : string :=
  match s with
  | "" => ""
  | String c s' => if Z.eqb (code c) 0 then "" else String c (c_str s')
  end%string.

Fixpoint skip_space (s : string) : string :=
  match s with
  | String c s' => if isspace c then skip_space s' else s
  | "" => ""
  end%string.

(** The digits at the front of [s], their value added to [acc], and the rest. *)
Fixpoint take_digits (acc : Z) (s : string) : Z * string :=
  match s with
  | String c s' => if isdigit c then take_digits (10 * acc + (code c - 48)) s' else (acc, s)
  | "" => (acc, "")
  end%string%Z.

Definition starts_digit (s : string) : bool := match s with String c _ => isdigit c | _ => false end.

Definition ULONG_MAX : Z := (2 ^ 64 - 1)%Z.

(** [std::strtoul(src, &remain, 10)]: the value, the unparsed rest and whether
    [errno] is [ERANGE]. *)
Definition strtoul (src : string) : Z * string * bool :=
  let s := skip_space src in
  let '(neg, s) := match s with String "-" s' => (true, s') | String "+" s' => (false, s') | _ => (false, s) end in
  if starts_digit s then
    let '(v, remain) := take_digits 0 s in
    if Z.ltb ULONG_MAX v then (ULONG_MAX, remain, true) else (if neg : bool then u64 (- v) else v, remain, false)
  else (0%Z, src, false).

Module StrUtil.

(** The value is an [uint32_t]: [strtoul]'s result is truncated. *)
Definition StrToUint (src : string) : bool * Z :=
  let '(v, remain, erange) := strtoul (c_str src) in
  let value := u32 v in
  if (Z.eqb value 0 && negb (bool_decide (src = "0"))) || Nat.ltb 0 (String.length remain) || erange then (false, value)
  else (true, value).

End StrUtil.

Module NetRpcConfig.

Definition MXM_OK : Z := 0.
Definition UINT16_MAX : Z := 65535.
Definition IP_PORT_SIZE : nat := 2.

(** The node that [SetLocalNode] and [SetRemoteNodes] make of an address and a port. *)
Definition make_node (ip : string) (port : Z) : RpcNode := mkRpcNode (ip +:+ ":" +:+ port_to_string port)%string ip port.

Definition SetLocalNode (ipAndPort : string * Z) : RpcNode := make_node ipAndPort.1 ipAndPort.2.

Definition SetRemoteNodes (ipAndPortList : list (string * Z)) (mNodes : list RpcNode) : list RpcNode :=
  mNodes ++ ((fun item => make_node item.1 item.2) <$> ipAndPortList).

(** [std::getline(ss, item, ':')] until it fails: an empty last item is not read. *)
Fixpoint getlines (item : string) (s : string) : list string :=
  match s with
  | "" => if bool_decide (item = "") then [] else [item]
  | String ":" s' => item :: getlines "" s'
  | String c s' => getlines (item +:+ String c "") s'
  end%string.

(** The return code, and the node when it is [MXM_OK]. *)
Definition ParseRpcNodeFromId (nodeId : string) : Z * option RpcNode :=
  let result := getlines "" nodeId in
  if negb (Nat.eqb (length result) IP_PORT_SIZE) then (MXM_ERR_PARAM_INVALID, None)
  else
    let ip := default "" (head result) in
    let '(ok, port) := StrUtil.StrToUint (default "" (last result)) in
    if negb ok then (MXM_ERR_PARAM_INVALID, None)
    else if Z.ltb UINT16_MAX port then (MXM_ERR_PARAM_INVALID, None)
    else (MXM_OK, Some (mkRpcNode nodeId ip (port mod 2 ^ 16)%Z)).

End NetRpcConfig.
Import NetRpcConfig.

(** ** Decimal numbers *)

Fixpoint all_chars (P : ascii -> Prop) (s : string) : Prop :=
  match s with "" => True | String c s' => P c /\ all_chars P s' end%string.

Lemma all_chars_app P s t : all_chars P (s +:+ t) <-> all_chars P s /\ all_chars P t.
Proof. induction s as [|c s IH]; simpl; [tauto|]. rewrite IH. tauto. Qed.

Lemma code_digit n : (0 <= n < 10)%Z -> code (digit n) = (48 + n)%Z.
Proof. intros Hn. unfold code, digit. rewrite N_ascii_embedding; lia. Qed.

Definition is_dec (c : ascii) : Prop := (48 <= code c <= 57)%Z.

Lemma to_string_dec fuel n : (0 <= n)%Z -> all_chars is_dec (to_string fuel n).
Proof.
  revert n. induction fuel as [|fuel IH]; intros n Hn; simpl; [done|].
  destruct (Z.ltb_spec n 10) as [Hs|Hb].
  - simpl. unfold is_dec. rewrite code_digit by lia. split; [lia | done].
  - apply all_chars_app. split; [apply IH, Z.div_pos; lia|]. simpl. unfold is_dec.
    pose proof (Z.mod_pos_bound n 10). rewrite code_digit by lia. split; [lia | done].
Qed.

Lemma isdigit_dec c : is_dec c -> isdigit c = true.
Proof. unfold is_dec, isdigit. intros. apply andb_true_iff. rewrite !Z.leb_le. lia. Qed.

Lemma take_digits_app acc s t :
  all_chars is_dec s -> take_digits acc (s +:+ t) = take_digits (take_digits acc s).1 t.
Proof.
  revert acc. induction s as [|c s IH]; intros acc H; simpl; [done|]. destruct H as [Hc Hs].
  rewrite isdigit_dec by done. by apply IH.
Qed.

Lemma take_digits_to_string fuel n : (0 <= n < 10 ^ Z.of_nat fuel)%Z -> take_digits 0 (to_string fuel n) = (n, "").
Proof.
  revert n. induction fuel as [|fuel IH]; intros n Hn; simpl.
  - simpl in Hn. f_equal. lia.
  - rewrite Nat2Z.inj_succ, Z.pow_succ_r in Hn by lia. pose proof (Z.mod_pos_bound n 10) as Hm.
    destruct (Z.ltb_spec n 10) as [Hs|Hb].
    + cbn -[Z.mul Z.sub Z.add]. rewrite isdigit_dec; [|unfold is_dec; rewrite code_digit; lia]. rewrite code_digit by lia. f_equal. lia.
    + rewrite take_digits_app by (apply to_string_dec; apply Z.div_pos; lia).
      rewrite IH by (split; [apply Z.div_pos; lia | apply Z.div_lt_upper_bound; lia]).
      cbn -[Z.mul Z.sub Z.add Z.div Z.modulo]. rewrite isdigit_dec; [|unfold is_dec; rewrite code_digit; lia].
      rewrite code_digit by lia. f_equal. pose proof (Z.div_mod n 10). lia.
Qed.

Lemma to_string_cons fuel n : (0 < fuel) -> (0 <= n)%Z -> exists c s, to_string fuel n = String c s /\ is_dec c.
Proof.
  intros Hf Hn. pose proof (to_string_dec fuel n Hn) as Hd. destruct fuel as [|fuel]; [lia|].
  destruct (to_string (S fuel) n) as [|c s] eqn:E; [|by exists c, s; destruct Hd].
  exfalso. simpl in E. destruct (Z.ltb n 10); [done|]. by destruct (to_string fuel (n / 10)).
Qed.

Lemma dec_not_special c : is_dec c -> isspace c = false /\ c <> "-"%char /\ c <> "+"%char /\ c <> ":"%char /\ code c <> 0%Z.
Proof.
  unfold is_dec. intros Hc. split_and!; [|intros ->; unfold code in Hc; simpl in Hc; lia..|lia].
  unfold isspace. apply orb_false_iff. rewrite andb_false_iff, !Z.leb_gt, Z.eqb_neq. lia.
Qed.

Lemma c_str_dec s : all_chars is_dec s -> c_str s = s.
Proof.
  induction s as [|c s IH]; simpl; [done|]. intros [Hc Hs]. rewrite (proj2 (Z.eqb_neq _ _)) by apply (dec_not_special c Hc).
  by rewrite IH.
Qed.

Lemma strtoul_dec c s :
  is_dec c -> strtoul (String c s) =
    let '(v, remain) := take_digits 0 (String c s) in
    if Z.ltb ULONG_MAX v then (ULONG_MAX, remain, true) else (v, remain, false).
Proof.
  intros Hc. destruct (dec_not_special c Hc) as (Hsp & Hm & Hp & _). unfold strtoul. cbn [skip_space]. rewrite Hsp.
  assert (Hmatch : match String c s with String "-" s' => (true, s') | String "+" s' => (false, s') | _ => (false, String c s) end
    = (false, String c s)).
  { destruct c as [[] [] [] [] [] [] [] []]; try reflexivity; congruence. }
  rewrite Hmatch. cbn [starts_digit]. rewrite isdigit_dec by done. by destruct (take_digits 0 (String c s)) as [v r].
Qed.

Lemma StrToUint_decimal fuel n :
  0 < fuel -> (0 <= n < 10 ^ Z.of_nat fuel)%Z -> (n <= ULONG_MAX)%Z -> (u32 n <> 0 \/ n = 0)%Z ->
  StrUtil.StrToUint (to_string fuel n) = (true, u32 n).
Proof.
  intros Hf Hn Hu Hz. unfold StrUtil.StrToUint. rewrite c_str_dec by (apply to_string_dec; lia).
  destruct (to_string_cons fuel n Hf) as (c & s & E & Hc); [lia|].
  rewrite E, strtoul_dec by done. rewrite <- E, take_digits_to_string by done.
  rewrite (proj2 (Z.ltb_ge _ _)) by done. cbn [String.length]. rewrite Nat.ltb_irrefl, !orb_false_r.
  destruct (Z.eqb_spec (u32 n) 0) as [H0|H0]; [|done]. destruct Hz as [Hz|Hz]; [done|]. subst n. by destruct fuel.
Qed.

(** ** Splitting at colons *)

Lemma string_app_cons c s t : (String c s +:+ t = String c (s +:+ t))%string.
Proof. reflexivity. Qed.

Lemma string_app_nil_r s : (s +:+ "")%string = s.
Proof. induction s as [|c s IH]; [done|]. by rewrite string_app_cons, IH. Qed.

Lemma string_app_assoc s t u : ((s +:+ t) +:+ u = s +:+ (t +:+ u))%string.
Proof. induction s as [|c s IH]; [done|]. by rewrite !string_app_cons, IH. Qed.

Lemma string_length_app s t : String.length (s +:+ t) = String.length s + String.length t.
Proof. induction s as [|c s IH]; [done|]. rewrite string_app_cons. cbn. by rewrite IH. Qed.

Definition no_colon (s : string) : Prop := all_chars (fun c => c <> ":"%char) s.

Lemma getlines_step item c s : c <> ":"%char -> getlines item (String c s) = getlines (item +:+ String c "") s.
Proof. intros H. destruct c as [[] [] [] [] [] [] [] []]; try reflexivity. congruence. Qed.

Lemma getlines_prefix item s t : no_colon s -> getlines item (s +:+ t) = getlines (item +:+ s) t.
Proof.
  revert item. induction s as [|c s IH]; intros item H.
  - by rewrite string_app_nil_r.
  - destruct H as [Hc Hs]. rewrite string_app_cons, getlines_step, IH by done. by rewrite string_app_assoc.
Qed.

Lemma getlines_plain item s : no_colon s -> (item +:+ s)%string <> "" -> getlines item s = [(item +:+ s)%string].
Proof.
  intros H Hne. rewrite <- (string_app_nil_r s) at 1. rewrite getlines_prefix by done. simpl. by rewrite bool_decide_eq_false_2.
Qed.

Lemma dec_no_colon s : all_chars is_dec s -> no_colon s.
Proof. induction s as [|c s IH]; simpl; [done|]. intros [Hc Hs]. split; [apply (dec_not_special c Hc) | by apply IH]. Qed.

Lemma getlines_address ip port :
  no_colon ip -> (0 <= port)%Z -> getlines "" (ip +:+ ":" +:+ port_to_string port) = [ip; port_to_string port].
Proof.
  intros Hip Hp. rewrite getlines_prefix by done. simpl. f_equal. apply getlines_plain; simpl.
  - apply dec_no_colon, to_string_dec. done.
  - destruct (to_string_cons 5 port) as (c & s & E & _); [lia | done |]. unfold port_to_string. by rewrite E.
Qed.

(** The name of a configured node is parsed to that node. *)
Lemma ParseRpcNodeFromId_make ip port :
  no_colon ip -> (0 <= port <= UINT16_MAX)%Z -> ParseRpcNodeFromId (rn_name (make_node ip port)) = (MXM_OK, Some (make_node ip port)).
Proof.
  intros Hip Hp. unfold UINT16_MAX in Hp. unfold ParseRpcNodeFromId, make_node. cbn [rn_name]. rewrite getlines_address by (done || lia).
  cbn [length Nat.eqb IP_PORT_SIZE negb head last default from_option id]. unfold port_to_string.
  assert (Hu : u32 port = port) by (apply u32_small; lia).
  rewrite StrToUint_decimal by (unfold ULONG_MAX; rewrite ?Hu; lia). rewrite Hu. cbn [negb].
  unfold UINT16_MAX. rewrite (proj2 (Z.ltb_ge _ _)) by lia. by rewrite Z.mod_small by lia.
Qed.

Fixpoint colons (s : string) : nat :=
  match s with "" => 0 | String c s' => (if decide (c = ":"%char) then 1 else 0) + colons s' end%string.

Lemma getlines_length item s : colons s <= length (getlines item s).
Proof.
  revert item. induction s as [|c s IH]; intros item; [apply Nat.le_0_l|]. cbn [colons]. destruct (decide (c = ":"%char)) as [->|Hc].
  - cbn [getlines length]. specialize (IH ""%string). lia.
  - rewrite getlines_step by done. apply IH.
Qed.

(** A name with three colons or more, such as that of an IPv6 address, is refused. *)
Lemma ParseRpcNodeFromId_many_colons nodeId :
  3 <= colons nodeId -> ParseRpcNodeFromId nodeId = (MXM_ERR_PARAM_INVALID, None).
Proof.
  intros H. unfold ParseRpcNodeFromId. pose proof (getlines_length "" nodeId) as Hl.
  destruct (Nat.eqb_spec (length (getlines "" nodeId)) IP_PORT_SIZE) as [E|]; [|done]. unfold IP_PORT_SIZE in E. lia.
Qed.
