(* ===== verification/Election.v ===== *)
(** Master election: one node ([src/src/zen_discovery/zen_discovery.cpp] and
    [election_module.cpp]).

    A node keeps a table of the nodes it knows and the election's bookkeeping.
    This file has the operations that touch one node only: the handlers of the
    requests of other nodes, the changes of state, and the decisions of the
    threads. [ElectionNet] has what involves the network. *)

From S2P Require Import Prelude StoreTypes MsgPacker MsgCodec MsgBase StoreInterface Daemon NodeAddress.

Inductive NodeState :=
  | UNINITIALIZED | INITIAL | JOINING_MASTER | JOINED_CLUSTER | MASTER_CANDIDATE | TEMP_MASTER | ELECTED_MASTER.

#[export] Instance NodeState_eq_dec : EqDecision NodeState.
Proof. solve_decision. Defined.

(** [NodeType] is sent as its number. *)
Definition ELIGIBLE_NODE : Z := 0.
Definition VOTING_ONLY_NODE : Z := 1.

Inductive ZenElectionEventType :=
  | ELECTION_STARTED | VOTING_COMPLETED | MASTER_ELECTED | ELECTION_FAILED | NODE_DEMOTED | BECOME_VOTE_NODE | HAVE_JOINED
  | BROADCAST.

Record ListenerParam := mkListenerParam { lp_event : ZenElectionEventType; lp_masterId : string; lp_voteOnlyId : string }.

(** The members of [ElectionModule]. A listener is named by a number; an empty
    [std::function] is [None]. *)
Record ElectionModule := mkElectionModule {
  electionInProgress_ : bool;
  currentTerm_ : Z;
  module_electedMaster_ : string;
  votesReceived_ : gset string;
  joinsReceived_ : gset string;
  listenerQueue_ : list ListenerParam;
  electionListeners_ : list (Z * option Z);
  nextListenerId_ : Z;
}.

(** The members of [ZenDiscovery] that never change, and the addresses that
    [NetRpcConfig] holds. *)
Record ZenConfig := mkZenConfig {
  zc_nodeId : string;
  pingTimeoutMs_ : Z;
  joinTimeoutMs_ : Z;
  electionTimeoutMs_ : Z;
  minimumMasterNodes_ : Z;
  config_mNodes : list RpcNode;
  config_mNode : RpcNode;
}.

(** The members of [ZenDiscovery]. The last three say where its threads are:
    the three loops run; the discovery thread is in [InviteNodesToJoin] since
    a point in time; the join requests that are not answered yet. *)
Record ZenDiscovery := mkZen {
  config_ : ZenConfig;
  state_ : NodeState;
  running_ : bool;
  masterNodeToJoin_ : string;
  electedMaster_ : string;
  tempNodeList_ : list string;
  nodes_ : gmap string ClusterNode;
  type_ : Z;
  electionModule_ : ElectionModule;
  looping_ : bool;
  inviting_ : option Z;
  pendingJoins_ : list string;
}.

Definition nodeId_ (z : ZenDiscovery) : string := zc_nodeId (config_ z).

(** ** Assignments *)

Section Assign.
Implicit Type z : ZenDiscovery.

Definition set_state (s : NodeState) z : ZenDiscovery :=
  mkZen (config_ z) s (running_ z) (masterNodeToJoin_ z) (electedMaster_ z) (tempNodeList_ z) (nodes_ z) (type_ z)
    (electionModule_ z) (looping_ z) (inviting_ z) (pendingJoins_ z).

Definition set_master (m : string) z : ZenDiscovery :=
  mkZen (config_ z) (state_ z) (running_ z) (masterNodeToJoin_ z) m (tempNodeList_ z) (nodes_ z) (type_ z)
    (electionModule_ z) (looping_ z) (inviting_ z) (pendingJoins_ z).

Definition set_toJoin (m : string) z : ZenDiscovery :=
  mkZen (config_ z) (state_ z) (running_ z) m (electedMaster_ z) (tempNodeList_ z) (nodes_ z) (type_ z)
    (electionModule_ z) (looping_ z) (inviting_ z) (pendingJoins_ z).

Definition set_temp (l : list string) z : ZenDiscovery :=
  mkZen (config_ z) (state_ z) (running_ z) (masterNodeToJoin_ z) (electedMaster_ z) l (nodes_ z) (type_ z)
    (electionModule_ z) (looping_ z) (inviting_ z) (pendingJoins_ z).

Definition set_nodes (n : gmap string ClusterNode) z : ZenDiscovery :=
  mkZen (config_ z) (state_ z) (running_ z) (masterNodeToJoin_ z) (electedMaster_ z) (tempNodeList_ z) n (type_ z)
    (electionModule_ z) (looping_ z) (inviting_ z) (pendingJoins_ z).

Definition set_type (t : Z) z : ZenDiscovery :=
  mkZen (config_ z) (state_ z) (running_ z) (masterNodeToJoin_ z) (electedMaster_ z) (tempNodeList_ z) (nodes_ z) t
    (electionModule_ z) (looping_ z) (inviting_ z) (pendingJoins_ z).

Definition on_module (f : ElectionModule -> ElectionModule) z : ZenDiscovery :=
  mkZen (config_ z) (state_ z) (running_ z) (masterNodeToJoin_ z) (electedMaster_ z) (tempNodeList_ z) (nodes_ z) (type_ z)
    (f (electionModule_ z)) (looping_ z) (inviting_ z) (pendingJoins_ z).

Definition set_threads (running looping : bool) (inviting : option Z) (pending : list string) z : ZenDiscovery :=
  mkZen (config_ z) (state_ z) running (masterNodeToJoin_ z) (electedMaster_ z) (tempNodeList_ z) (nodes_ z) (type_ z)
    (electionModule_ z) looping inviting pending.

End Assign.

(** ** [ElectionModule] *)

Module ElectionModule.

Definition SetInProgress (b : bool) (m : ElectionModule) : ElectionModule :=
  mkElectionModule b (currentTerm_ m) (module_electedMaster_ m) (votesReceived_ m) (joinsReceived_ m) (listenerQueue_ m)
    (electionListeners_ m) (nextListenerId_ m).

Definition SetCurrentTerm (term : Z) (m : ElectionModule) : ElectionModule :=
  mkElectionModule (electionInProgress_ m) term (module_electedMaster_ m) (votesReceived_ m) (joinsReceived_ m)
    (listenerQueue_ m) (electionListeners_ m) (nextListenerId_ m).

Definition SetElectedMaster (id : string) (m : ElectionModule) : ElectionModule :=
  mkElectionModule (electionInProgress_ m) (currentTerm_ m) id (votesReceived_ m) (joinsReceived_ m) (listenerQueue_ m)
    (electionListeners_ m) (nextListenerId_ m).

Definition SetVotes (v : gset string) (m : ElectionModule) : ElectionModule :=
  mkElectionModule (electionInProgress_ m) (currentTerm_ m) (module_electedMaster_ m) v (joinsReceived_ m)
    (listenerQueue_ m) (electionListeners_ m) (nextListenerId_ m).

Definition SetJoins (j : gset string) (m : ElectionModule) : ElectionModule :=
  mkElectionModule (electionInProgress_ m) (currentTerm_ m) (module_electedMaster_ m) (votesReceived_ m) j
    (listenerQueue_ m) (electionListeners_ m) (nextListenerId_ m).

Definition SetQueue (q : list ListenerParam) (m : ElectionModule) : ElectionModule :=
  mkElectionModule (electionInProgress_ m) (currentTerm_ m) (module_electedMaster_ m) (votesReceived_ m) (joinsReceived_ m)
    q (electionListeners_ m) (nextListenerId_ m).

Definition SetListeners (l : list (Z * option Z)) (next : Z) (m : ElectionModule) : ElectionModule :=
  mkElectionModule (electionInProgress_ m) (currentTerm_ m) (module_electedMaster_ m) (votesReceived_ m) (joinsReceived_ m)
    (listenerQueue_ m) l next.

Definition ClearJoinsReceived (m : ElectionModule) : ElectionModule := SetJoins ∅ m.

Definition AddJoinsReceived (nodeId : string) (m : ElectionModule) : ElectionModule :=
  SetJoins ({[nodeId]} ∪ joinsReceived_ m) m.

Definition RecordVote (nodeId : string) (m : ElectionModule) : ElectionModule :=
  SetVotes ({[nodeId]} ∪ votesReceived_ m) m.

Definition notifyListeners (event : ZenElectionEventType) (masterId voteOnlyId : string) (m : ElectionModule)
  : ElectionModule := SetQueue (listenerQueue_ m ++ [mkListenerParam event masterId voteOnlyId]) m.

(** The id returned, and the module. *)
Definition AddElectionListener (listener : option Z) (m : ElectionModule) : Z * ElectionModule :=
  let id := s32 (nextListenerId_ m + 1) in (id, SetListeners (electionListeners_ m ++ [(id, listener)]) id m).

Definition RemoveElectionListener (listenerId : Z) (m : ElectionModule) : ElectionModule :=
  SetListeners (filter (fun item => item.1 <> listenerId) (electionListeners_ m)) (nextListenerId_ m) m.

(** The calls [NotifyListenerParam] makes. *)
Definition NotifyListenerParam (p : ListenerParam) (m : ElectionModule) : list (Z * ListenerParam) :=
  omap (fun item => (fun l => (l, p)) <$> item.2) (electionListeners_ m).

(** One turn of [ListenerLoop] while the module runs: the calls it makes, and the module. *)
Definition ListenerLoop (m : ElectionModule) : list (Z * ListenerParam) * ElectionModule :=
  match listenerQueue_ m with
  | [] => ([], m)
  | p :: q => (NotifyListenerParam p m, SetQueue q m)
  end.

Definition new : ElectionModule := mkElectionModule false 0 "" ∅ ∅ [] [] 0.

End ElectionModule.
Import ElectionModule.

Definition notify (event : ZenElectionEventType) (masterId voteOnlyId : string) : ZenDiscovery -> ZenDiscovery :=
  on_module (notifyListeners event masterId voteOnlyId).

(** ** Iteration order

    [std::map] and [std::set] are visited in the order of their keys. *)

Definition key_le {A} (x y : string * A) : Prop := String.le x.1 y.1.

#[export] Instance key_le_dec {A} : RelDecision (@key_le A).
Proof. intros x y. unfold key_le. apply _. Defined.

Definition entries {A} (m : gmap string A) : list (string * A) := merge_sort key_le (map_to_list m).

Definition sorted_ids (X : gset string) : list string := merge_sort String.le (elements X).

(** ** Clock and memory

    What one operation reads of its surroundings besides the network:
    the system clock, and the values that [port] and [type] of a [ClusterNode]
    that was not initialised happen to have. *)
Record Ambient := mkAmbient { am_now : Z; am_port : Z; am_type : Z }.

Definition set_lastSeen (t : Z) (n : ClusterNode) : ClusterNode :=
  mkClusterNode (cn_id n) (cn_ip n) (cn_port n) (cn_isMaster n) t (cn_isActive n) (cn_type n).

Definition set_active (b : bool) (n : ClusterNode) : ClusterNode :=
  mkClusterNode (cn_id n) (cn_ip n) (cn_port n) (cn_isMaster n) (cn_lastSeen n) b (cn_type n).

Definition set_isMaster (b : bool) (n : ClusterNode) : ClusterNode :=
  mkClusterNode (cn_id n) (cn_ip n) (cn_port n) b (cn_lastSeen n) (cn_isActive n) (cn_type n).

Definition set_nodeType (t : Z) (n : ClusterNode) : ClusterNode :=
  mkClusterNode (cn_id n) (cn_ip n) (cn_port n) (cn_isMaster n) (cn_lastSeen n) (cn_isActive n) t.

Definition is_voting (n : ClusterNode) : bool := Z.eqb (cn_type n) VOTING_ONLY_NODE.
Definition is_eligible (n : ClusterNode) : bool := Z.eqb (cn_type n) ELIGIBLE_NODE.

(** ** [ZenDiscovery]: the table of nodes *)

Module Zen.

Definition UpdateNodeLastSeen (am : Ambient) (nodeId : string) (z : ZenDiscovery) : ZenDiscovery :=
  match nodes_ z !! nodeId with
  | Some n => set_nodes (<[nodeId := set_lastSeen (am_now am) n]> (nodes_ z)) z
  | None =>
      set_nodes (<[nodeId := mkClusterNode nodeId "" (am_port am) false (am_now am) true (am_type am)]> (nodes_ z)) z
  end.

Definition MarkNodeActive (nodeId : string) (active : bool) (z : ZenDiscovery) : ZenDiscovery :=
  set_nodes (alter (set_active active) nodeId (nodes_ z)) z.

(** The pair of calls that most callers make. *)
Definition saw (am : Ambient) (nodeId : string) (active : bool) (z : ZenDiscovery) : ZenDiscovery :=
  MarkNodeActive nodeId active (UpdateNodeLastSeen am nodeId z).

Definition GetSmallestNodeId (z : ZenDiscovery) : string :=
  foldl (fun minId entry => if string_lt entry.1 minId && cn_isActive entry.2 then entry.1 else minId) (nodeId_ z)
    (entries (nodes_ z)).

Definition GetBiggestNodeId (z : ZenDiscovery) : string :=
  foldl (fun maxId entry =>
    if string_lt maxId entry.1 && cn_isActive entry.2 && negb (cn_isMaster entry.2) then entry.1 else maxId) ""
    (entries (nodes_ z)).

Definition GetClusterNodes (z : ZenDiscovery) : list ClusterNode := snd <$> entries (nodes_ z).

(** The return code and the node found. *)
Definition GetVoteOnlyNode (z : ZenDiscovery) : Z * option string :=
  match list_find (fun entry => cn_isActive entry.2 = true /\ is_voting entry.2 = true) (entries (nodes_ z)) with
  | Some (_, entry) => (0%Z, Some (cn_id entry.2))
  | None => ((-1)%Z, None)
  end.

Definition GetCurrentMaster (z : ZenDiscovery) : string := electedMaster_ z.
Definition IsMaster (z : ZenDiscovery) : bool := bool_decide (state_ z = ELECTED_MASTER).
Definition IsTempMaster (z : ZenDiscovery) : bool := bool_decide (state_ z = TEMP_MASTER).

(** ** Changes of state *)

Definition BecomeTempMaster (candidates : list string) (z : ZenDiscovery) : ZenDiscovery :=
  if IsTempMaster z || IsMaster z then z
  else set_temp candidates (set_master (nodeId_ z) (set_state TEMP_MASTER z)).

Definition SetMasterToJoin (master : string) (z : ZenDiscovery) : ZenDiscovery :=
  set_toJoin master (set_state JOINING_MASTER z).

Definition StepDownAsMaster (z : ZenDiscovery) : ZenDiscovery :=
  notify NODE_DEMOTED "" "" (set_nodes (set_isMaster false <$> nodes_ z) (set_master "" (set_state MASTER_CANDIDATE z))).

(** ** Handlers of the requests of other nodes *)

Definition HandlePingRequest (am : Ambient) (fromNodeId : string) (z : ZenDiscovery) : ZenDiscovery := saw am fromNodeId true z.

Definition HandlePingResponse (am : Ambient) (fromNodeId : string) (z : ZenDiscovery) : ZenDiscovery := saw am fromNodeId true z.

Definition HandleJoinRequest (am : Ambient) (fromNodeId : string) (z : ZenDiscovery) : Z * ZenDiscovery :=
  let z := saw am fromNodeId true z in (type_ z, z).

Definition raise_term (term : Z) (z : ZenDiscovery) : ZenDiscovery :=
  if Z.ltb (currentTerm_ (electionModule_ z)) term then on_module (SetCurrentTerm term) z else z.

Definition HandleVoteRequest (candidate : string) (term : Z) (z : ZenDiscovery) : bool * ZenDiscovery :=
  let smallestId := GetSmallestNodeId z in
  let z := raise_term term z in
  (bool_decide (smallestId = candidate), z).

Definition HandleVoteResponse (fromNodeId : string) (granted : bool) (z : ZenDiscovery) : ZenDiscovery :=
  if granted then on_module (RecordVote fromNodeId) z else z.

Definition HandleSendTransElected (nodeList : list string) (term : Z) (z : ZenDiscovery) : ZenDiscovery :=
  if Z.ltb term (currentTerm_ (electionModule_ z)) then z else BecomeTempMaster nodeList (raise_term term z).

(** The body of the loop of [HandleBroadCastRequest]. *)
Definition broadcast_entry (isSeverInited : bool) (z : ZenDiscovery) (entry : string * ClusterNode) : ZenDiscovery :=
  let node := entry.2 in
  if bool_decide (cn_id node = nodeId_ z) && is_voting node then
    let z := set_type VOTING_ONLY_NODE z in
    if isSeverInited then notify BECOME_VOTE_NODE (electedMaster_ z) (nodeId_ z) z else z
  else if bool_decide (cn_id node = nodeId_ z) && is_eligible node && Z.eqb (type_ z) VOTING_ONLY_NODE then
    notify NODE_DEMOTED (electedMaster_ z) (nodeId_ z) (set_type ELIGIBLE_NODE z)
  else z.

Definition HandleBroadCastRequest (fromNodeId : string) (nodeList : gmap string ClusterNode) (isSeverInited : bool)
  (z : ZenDiscovery) : ZenDiscovery :=
  let z := set_state JOINED_CLUSTER (set_master fromNodeId (set_nodes nodeList z)) in
  foldl (broadcast_entry isSeverInited) z (entries (nodes_ z)).

(** ** Decisions of the discovery thread *)

Definition initial_node (now : Z) (rpcNode : RpcNode) : ClusterNode :=
  mkClusterNode (rn_name rpcNode) (rn_ip rpcNode) (rn_port rpcNode) false now true ELIGIBLE_NODE.

Definition PerformInitialDiscovery (am : Ambient) (z : ZenDiscovery) : ZenDiscovery :=
  if Z.eqb (type_ z) VOTING_ONLY_NODE then set_state MASTER_CANDIDATE z
  else
    let wholeNodes := config_mNodes (config_ z) ++ [config_mNode (config_ z)] in
    set_state MASTER_CANDIDATE
      (set_nodes (foldl (fun nodes rpcNode => <[rn_name rpcNode := initial_node (am_now am) rpcNode]> nodes) (nodes_ z) wholeNodes) z).

(** [int] compared with [size_t]: converted to 64 unsigned bits. *)
Definition minimum_size (z : ZenDiscovery) : Z := u64 (minimumMasterNodes_ (config_ z)).

(** What [InviteNodesToJoin] does before it waits: the invitations are sent by
    tasks of their own. *)
Definition InviteNodesToJoin (now : Z) (z : ZenDiscovery) : ZenDiscovery :=
  let z := on_module ClearJoinsReceived z in
  let futures := filter (fun nodeId => nodeId <> nodeId_ z) (tempNodeList_ z) in
  let z := on_module (AddJoinsReceived (nodeId_ z)) z in
  set_threads (running_ z) (looping_ z) (Some now) futures z.

Definition ModifyNodeList (z : ZenDiscovery) : ZenDiscovery :=
  let joinsReceived := joinsReceived_ (electionModule_ z) in
  set_nodes (map_imap (fun nodeId node => Some
    (if bool_decide (nodeId = nodeId_ z) then set_isMaster true (set_active true node)
     else set_isMaster false (set_active (bool_decide (nodeId ∈ joinsReceived)) node))) (nodes_ z)) z.

Definition HandleAllJoined (z : ZenDiscovery) : ZenDiscovery :=
  let z := ModifyNodeList (notify MASTER_ELECTED (nodeId_ z) "" z) in
  let z := foldl (fun z entry =>
    if cn_isActive entry.2 && is_voting entry.2 then notify HAVE_JOINED (nodeId_ z) entry.1 z else z) z (entries (nodes_ z)) in
  set_state ELECTED_MASTER z.

(** A duration in milliseconds, in the nanoseconds of the clocks. *)
Definition ms (t : Z) : Z := (t * 1000000)%Z.

Definition CheckElectionResult (startTime now : Z) (z : ZenDiscovery) : bool * ZenDiscovery :=
  let joins := Z.of_nat (size (joinsReceived_ (electionModule_ z))) in
  if Z.ltb (ms (joinTimeoutMs_ (config_ z))) (now - startTime) then
    if Z.leb (minimum_size z) joins then (true, HandleAllJoined z)
    else (true, set_state MASTER_CANDIDATE (notify NODE_DEMOTED (nodeId_ z) "" z))
  else if Z.leb (Z.of_nat (length (tempNodeList_ z))) joins then (true, HandleAllJoined z)
  else (false, z).

(** One turn of the loop in [InviteNodesToJoin]. *)
Definition PollInvitation (startTime now : Z) (z : ZenDiscovery) : ZenDiscovery :=
  let '(finished, z) := CheckElectionResult startTime now z in
  if finished then set_threads (running_ z) (looping_ z) None (pendingJoins_ z) z else z.

Definition MaintainAsClusterMember (z : ZenDiscovery) : ZenDiscovery :=
  if bool_decide (electedMaster_ z = "") then set_state INITIAL z
  else if decide (cn_isActive <$> nodes_ z !! electedMaster_ z = Some true) then z
  else set_master "" (set_state INITIAL z).

(** The constructor, [Start] and [Stop]. *)
Definition new (config : ZenConfig) : ZenDiscovery :=
  mkZen config UNINITIALIZED false "" "" [] ∅ ELIGIBLE_NODE ElectionModule.new false None [].

Definition Start (z : ZenDiscovery) : ZenDiscovery :=
  if running_ z then z else set_state INITIAL (set_threads true (looping_ z) (inviting_ z) (pendingJoins_ z) z).

Definition Stop (z : ZenDiscovery) : ZenDiscovery :=
  if running_ z then set_threads false false None (pendingJoins_ z) z else z.

End Zen.
