(* ===== verification/ElectionNet.v ===== *)
(** Master election across a cluster: requests between nodes, the threads of
    every node, and their interleavings ([zen_discovery.cpp],
    [election_module.cpp], the handlers of [src/src/mxm_shm/rpc_handler.cpp] and
    [InitializeZenDiscovery] of [process/daemon/ock_daemon.cpp]).

    A [Cluster] maps the id of a node to its instance of [ZenDiscovery], if
    the daemon has made it. A request runs the peer's handler during the call;
    whether the peer is reached and what the transport answers is the argument
    [Net]. *)

From S2P Require Import Prelude StoreTypes MsgPacker MsgCodec MsgBase MsgRequests MsgResponses MsgFactory StoreInterface Daemon NodeAddress Election.
Import ElectionModule Zen.

Definition MXM_ERR_NULLPTR : Z := 101.
Definition UBSM_ERR_UNIMPL : Z := 6013.

Abbreviation Cluster := (gmap string ZenDiscovery).

(** The surroundings of one operation: [RpcServer::Connect] and
    [RpcServer::SendMsg] for each peer, the latter with whether the request
    reached the peer although the call failed; [UbsmLock::IsUbsmLockInit]. *)
Record Net := mkNet {
  net_ambient : Ambient;
  net_Connect : string -> Z;
  net_SendMsg : string -> Z * bool;
  net_lockInit : bool;
}.

(** ** The peer's side: [MxmServerMsgHandle]

    [None] is a daemon whose instance does not exist yet. *)

Definition base (op : Z) : MsgBase := mkMsgBase 0 op 0.

Definition default_query : RpcQueryInfoResponse := mkRpcQueryInfoResponse (base MXM_MSG_BUTT) UBSM_ERR_UNIMPL "".
Definition default_join : RpcJoinInfoResponse := mkRpcJoinInfoResponse (base MXM_MSG_BUTT) UBSM_ERR_UNIMPL 0.
Definition default_vote : RpcVoteInfoResponse := mkRpcVoteInfoResponse (base MXM_MSG_BUTT) UBSM_ERR_UNIMPL "" false.

Section Handlers.
Context (am : Ambient).

Definition query_response (rsp : RpcQueryInfoResponse) (name : string) : RpcQueryInfoResponse :=
  mkRpcQueryInfoResponse (RpcQueryInfoResponse_base rsp) 0 name.

Definition PingRequestInfo (req : PingRequest) (rsp : RpcQueryInfoResponse) (inst : option ZenDiscovery)
  : Z * RpcQueryInfoResponse * option ZenDiscovery :=
  match inst with
  | None => (MXM_ERR_NULLPTR, rsp, None)
  | Some z =>
      let z := HandlePingRequest am (PingRequest_nodeId_ req) z in
      (0%Z, query_response rsp (rn_name (config_mNode (config_ z))), Some z)
  end.

Definition JoinRequestInfo (req : PingRequest) (rsp : RpcJoinInfoResponse) (inst : option ZenDiscovery)
  : Z * RpcJoinInfoResponse * option ZenDiscovery :=
  match inst with
  | None => (MXM_ERR_NULLPTR, rsp, None)
  | Some z =>
      let z := (HandleJoinRequest am (PingRequest_nodeId_ req) z).2 in
      (0%Z, mkRpcJoinInfoResponse (RpcJoinInfoResponse_base rsp) 0 (type_ z), Some z)
  end.

Definition VoteRequestInfo (req : VoteRequest) (rsp : RpcVoteInfoResponse) (inst : option ZenDiscovery)
  : Z * RpcVoteInfoResponse * option ZenDiscovery :=
  match inst with
  | None => (MXM_ERR_NULLPTR, rsp, None)
  | Some z =>
      let '(granted, z) := HandleVoteRequest (VoteRequest_masterNode_ req) (VoteRequest_term_ req) z in
      (0%Z, mkRpcVoteInfoResponse (RpcVoteInfoResponse_base rsp) 0 (rn_name (config_mNode (config_ z))) granted, Some z)
  end.

Definition SendTransElectedInfo (req : TransElectedRequest) (rsp : RpcQueryInfoResponse) (inst : option ZenDiscovery)
  : Z * RpcQueryInfoResponse * option ZenDiscovery :=
  match inst with
  | None => (MXM_ERR_NULLPTR, rsp, None)
  | Some z =>
      (0%Z, query_response rsp "Transfer Master Elected Notification Processed",
       Some (HandleSendTransElected (TransElectedRequest_nodes_ req) (TransElectedRequest_term_ req) z))
  end.

Definition MasterElectedInfo (req : VoteRequest) (rsp : RpcQueryInfoResponse) (inst : option ZenDiscovery)
  : Z * RpcQueryInfoResponse * option ZenDiscovery :=
  match inst with
  | None => (MXM_ERR_NULLPTR, rsp, None)
  | Some z => (0%Z, query_response rsp "Master Elected Notification Processed", Some z)
  end.

Definition BroadCastRequestInfo (req : BroadcastRequest) (rsp : RpcQueryInfoResponse) (inst : option ZenDiscovery)
  : Z * RpcQueryInfoResponse * option ZenDiscovery :=
  match inst with
  | None => (MXM_ERR_NULLPTR, rsp, None)
  | Some z =>
      (0%Z, query_response rsp "Broadcast Request Processed",
       Some (HandleBroadCastRequest (BroadcastRequest_nodeId_ req) (list_to_map (BroadcastRequest_nodes_ req))
               (BroadcastRequest_isSeverInited_ req) z))
  end.

End Handlers.

(** [RpcServer::SendMsg], with [RpcServer::Handle] at the peer: the handler's return
    code is only logged there, and the response is sent back as it is. The
    caller's response object is unchanged when the call fails. *)
Definition SendMsg {Rsp : Type} (net : Net) (handler : Rsp -> option ZenDiscovery -> Z * Rsp * option ZenDiscovery)
  (rsp : Rsp) (nodeId : string) (cl : Cluster) : Z * Rsp * Cluster :=
  let '(ret, reached) := net_SendMsg net nodeId in
  if Z.eqb ret 0 || reached then
    let '(_, answer, inst) := handler rsp (cl !! nodeId) in
    (ret, if Z.eqb ret 0 then answer else rsp, partial_alter (fun _ => inst) nodeId cl)
  else (ret, rsp, cl).

Section Send.
Context (net : Net) (me : string).

Definition here (f : ZenDiscovery -> ZenDiscovery) (cl : Cluster) : Cluster := alter f me cl.

Definition ConnectToRpcNode (nodeId : string) (cl : Cluster) : Z * Cluster :=
  let '(ret, _) := NetRpcConfig.ParseRpcNodeFromId nodeId in
  if negb (Z.eqb ret UBSM_OK) then (ret, cl)
  else if negb (Z.eqb (net_Connect net nodeId) 0) then
    (net_Connect net nodeId, here (saw (net_ambient net) nodeId false) cl)
  else (0%Z, cl).

(** What a failed ping does to the sender's table. *)
Definition ping_failed (nodeId : string) (z : ZenDiscovery) : ZenDiscovery :=
  let z := saw (net_ambient net) nodeId false z in
  if bool_decide (state_ z = ELECTED_MASTER) && bool_decide (is_voting <$> nodes_ z !! nodeId = Some true)
  then set_nodes (alter (set_nodeType ELIGIBLE_NODE) nodeId (nodes_ z)) z
  else z.

Definition SendPingRequest (nodeId : string) (cl : Cluster) : Z * Cluster :=
  let rpcReq := mkPingRequest (base MXM_MSG_BUTT) me in
  let '(retConnect, cl) := ConnectToRpcNode nodeId cl in
  if negb (Z.eqb retConnect 0) then (retConnect, here (ping_failed nodeId) cl)
  else
    let '(ret, _, cl) := SendMsg net (PingRequestInfo (net_ambient net) rpcReq) default_query nodeId cl in
    if negb (Z.eqb ret 0) then (ret, here (ping_failed nodeId) cl)
    else (0%Z, here (saw (net_ambient net) nodeId true) cl).

(** The request carries the id of the node it is sent to. *)
Definition SendJoinRequest (nodeId : string) (cl : Cluster) : Z * Cluster :=
  let rpcReq := mkPingRequest (base MXM_MSG_BUTT) nodeId in
  let '(retConnect, cl) := ConnectToRpcNode nodeId cl in
  if negb (Z.eqb retConnect 0) then (retConnect, cl)
  else
    let '(ret, rpcRsp, cl) := SendMsg net (JoinRequestInfo (net_ambient net) rpcReq) default_join nodeId cl in
    if negb (Z.eqb ret 0) then (ret, cl)
    else
      let cl :=
        if Z.eqb (RpcJoinInfoResponse_nodetype_ rpcRsp) 1
        then here (fun z => set_nodes (<[nodeId := set_nodeType VOTING_ONLY_NODE (default default_node (nodes_ z !! nodeId))]> (nodes_ z)) z) cl
        else cl in
      (0%Z, here (on_module (AddJoinsReceived nodeId)) cl).

Definition SendTransElectedRequest (nodes : list string) (electedMaster : string) (term : Z) (cl : Cluster) : Z * Cluster :=
  let rpcReq := mkTransElectedRequest (base MXM_MSG_SHM_ALLOCATE) electedMaster nodes term in
  let '(retConnect, cl) := ConnectToRpcNode electedMaster cl in
  if negb (Z.eqb retConnect 0) then (retConnect, cl)
  else
    let '(ret, _, cl) := SendMsg net (SendTransElectedInfo rpcReq) default_query electedMaster cl in
    (ret, cl).

Definition SendMasterElected (nodeId masterNode : string) (term : Z) (cl : Cluster) : Z * Cluster :=
  let rpcReq := mkVoteRequest (base MXM_MSG_SHM_ALLOCATE) me masterNode term in
  let '(retConnect, cl) := ConnectToRpcNode nodeId cl in
  if negb (Z.eqb retConnect 0) then (retConnect, cl)
  else
    let '(ret, _, cl) := SendMsg net (MasterElectedInfo rpcReq) default_query nodeId cl in
    (ret, cl).

Definition SendVoteRequest (nodeId masterNode : string) (term : Z) (cl : Cluster) : Z * Cluster :=
  let rpcReq := mkVoteRequest (base MXM_MSG_SHM_ALLOCATE) me masterNode term in
  let '(retConnect, cl) := ConnectToRpcNode nodeId cl in
  if negb (Z.eqb retConnect 0) then (retConnect, cl)
  else
    let '(ret, rpcRsp, cl) := SendMsg net (VoteRequestInfo rpcReq) default_vote nodeId cl in
    if negb (Z.eqb ret 0) then (ret, cl)
    else (0%Z, here (HandleVoteResponse nodeId (RpcVoteInfoResponse_isGranted_ rpcRsp)) cl).

Definition SendBroadcastRequest (nodes : gmap string ClusterNode) (nodeId : string) (cl : Cluster) : Z * Cluster :=
  let rpcReq := mkBroadcastRequest (base MXM_MSG_SHM_ALLOCATE) (from_option GetCurrentMaster "" (cl !! me))
    (net_lockInit net) (entries nodes) in
  let '(retConnect, cl) := ConnectToRpcNode nodeId cl in
  if negb (Z.eqb retConnect 0) then (retConnect, cl)
  else
    let '(ret, _, cl) := SendMsg net (BroadCastRequestInfo rpcReq) default_query nodeId cl in
    (ret, cl).

(** ** The discovery thread *)

Definition active_count (z : ZenDiscovery) : nat := length (filter (fun entry => cn_isActive entry.2 = true) (entries (nodes_ z))).

Definition has_voter (z : ZenDiscovery) : bool :=
  existsb (fun entry => is_voting entry.2 && cn_isActive entry.2) (entries (nodes_ z)).

Definition MaintainAsMaster (cl : Cluster) : Cluster :=
  match cl !! me with
  | None => cl
  | Some z =>
      let activeCount := (Z.of_nat (active_count z) + 1)%Z in
      if Z.ltb activeCount (minimumMasterNodes_ (config_ z)) then here StepDownAsMaster cl
      else
        let z := if has_voter z then z
                 else set_nodes (alter (set_nodeType VOTING_ONLY_NODE) (GetBiggestNodeId z) (nodes_ z)) z in
        let cl := <[me := z]> cl in
        foldl (fun cl entry =>
          if bool_decide (entry.1 <> nodeId_ z) && cn_isActive entry.2 then (SendBroadcastRequest (nodes_ z) entry.1 cl).2 else cl)
          cl (entries (nodes_ z))
  end.

(** One turn of [DiscoveryLoop]. *)
Definition DiscoveryLoop (now : Z) (cl : Cluster) : Cluster :=
  match cl !! me with
  | None => cl
  | Some z =>
      match state_ z with
      | INITIAL => here (PerformInitialDiscovery (net_ambient net)) cl
      | TEMP_MASTER => here (InviteNodesToJoin now) cl
      | ELECTED_MASTER => MaintainAsMaster cl
      | JOINED_CLUSTER => here MaintainAsClusterMember cl
      | _ => cl
      end
  end.

End Send.

(** ** The election thread: [ElectionModule::RunElection] *)

Record NodeCollections := mkNodeCollections {
  activeMasters : gset string;
  masterCandidates : gset string;
  voteOnlyNode : string;
}.

Definition collect_node (c : NodeCollections) (node : ClusterNode) : NodeCollections :=
  if is_voting node then mkNodeCollections (activeMasters c) (masterCandidates c) (cn_id node)
  else if cn_isActive node && is_eligible node then
    mkNodeCollections (if cn_isMaster node then {[cn_id node]} ∪ activeMasters c else activeMasters c)
      ({[cn_id node]} ∪ masterCandidates c) (voteOnlyNode c)
  else c.

Definition CollectNodeInfo (z : ZenDiscovery) : NodeCollections :=
  let c := foldl collect_node (mkNodeCollections ∅ ∅ "") (GetClusterNodes z) in
  mkNodeCollections (activeMasters c) ({[nodeId_ z]} ∪ masterCandidates c) (voteOnlyNode c).

(** [*std::min_element] of a set that is not empty. *)
Definition min_element (X : gset string) : string := default "" (head (sorted_ids X)).

Definition SelectTemporaryMaster (c : NodeCollections) : string :=
  if bool_decide (activeMasters c = ∅) then min_element (masterCandidates c) else min_element (activeMasters c).

(** The loop that waits for votes: [clock i] is the time since the start at the
    beginning of turn [i]. [None]: the loop has not ended after [fuel] turns. *)
Fixpoint wait_votes (timeout votes minimum : Z) (clock : nat -> Z) (i fuel : nat) : option bool :=
  match fuel with
  | O => None
  | S fuel =>
      if Z.ltb (ms timeout) (clock i) then Some false
      else if Z.leb minimum votes then Some true
      else wait_votes timeout votes minimum clock (S i) fuel
  end.

(** A turn takes a second at least. *)
Definition voting_turns (timeout : Z) : nat := Z.to_nat (timeout / 1000) + 2.

Definition vote_targets (c : NodeCollections) : gset string :=
  if bool_decide (voteOnlyNode c = "") then masterCandidates c else {[voteOnlyNode c]} ∪ masterCandidates c.

Section Vote.
Context (net : Net) (clock : nat -> Z) (me : string).

Definition votes_of (cl : Cluster) : Z := from_option (fun z => Z.of_nat (size (votesReceived_ (electionModule_ z)))) 0%Z (cl !! me).

Definition ConductVoting (tempMaster : string) (c : NodeCollections) (z : ZenDiscovery) (cl : Cluster) : option bool * Cluster :=
  let cl := here me (on_module (RecordVote me)) cl in
  let cl := foldl (fun cl nodeId =>
    if bool_decide (nodeId <> me) then (SendVoteRequest net me nodeId tempMaster (currentTerm_ (electionModule_ z)) cl).2 else cl)
    cl (sorted_ids (vote_targets c)) in
  let electionTimeout := electionTimeoutMs_ (config_ z) in
  (wait_votes electionTimeout (votes_of cl) (minimum_size z) clock 0 (voting_turns electionTimeout), cl).

Definition ProcessVotingResults (tempMaster : string) (candidates : list string) (z : ZenDiscovery) (cl : Cluster) : Cluster :=
  let votesCount := votes_of cl in
  let cl := here me (notify VOTING_COMPLETED "" "") cl in
  if Z.ltb votesCount (minimum_size z) then here me (notify ELECTION_FAILED "" "") cl
  else if bool_decide (tempMaster <> me) then
    let cl := (SendTransElectedRequest net me candidates tempMaster (currentTerm_ (electionModule_ z)) cl).2 in
    here me (on_module (SetElectedMaster tempMaster)) cl
  else here me (BecomeTempMaster candidates) cl.

(** What [RunElection] does to its own node before it looks at the others. *)
Definition begin_election (z : ZenDiscovery) : ZenDiscovery :=
  notify ELECTION_STARTED "" ""
    (on_module (fun m => SetVotes ∅ (SetCurrentTerm (s32 (currentTerm_ m + 1)) (SetInProgress true m))) z).

Definition end_election : ZenDiscovery -> ZenDiscovery := on_module (SetInProgress false).

(** [None]: the wait for votes has not ended. *)
Definition RunElection (cl : Cluster) : option Cluster :=
  match cl !! me with
  | None => Some cl
  | Some z =>
      if electionInProgress_ (electionModule_ z) then Some cl
      else
        let z := begin_election z in
        let cl := <[me := z]> cl in
        let collections := CollectNodeInfo z in
        if Z.ltb (Z.of_nat (size (masterCandidates collections))) (minimum_size z) then
          Some (here me (fun z => notify ELECTION_FAILED "" "" (end_election z)) cl)
        else
          let tempMaster := SelectTemporaryMaster collections in
          match ConductVoting tempMaster collections z cl with
          | (None, _) => None
          | (Some true, cl) =>
              let masterList := sorted_ids (masterCandidates collections) in
              Some (here me end_election (ProcessVotingResults tempMaster masterList z cl))
          | (Some false, cl) => Some (here me end_election cl)
          end
  end.

(** One turn of [ElectionLoop]. *)
Definition ElectionLoop (cl : Cluster) : option Cluster :=
  match cl !! me with
  | Some z => if bool_decide (state_ z = MASTER_CANDIDATE) then RunElection cl else Some cl
  | None => Some cl
  end.

(** [BroadcastElectionResult] has no caller in the program. *)
Definition BroadcastElectionResult (electedMaster : string) (cl : Cluster) : Cluster :=
  match cl !! me with
  | None => cl
  | Some z =>
      let cl := foldl (fun cl node =>
        if bool_decide (cn_id node <> me) then (SendMasterElected net me (cn_id node) electedMaster (currentTerm_ (electionModule_ z)) cl).2
        else cl) cl (GetClusterNodes z) in
      here me (on_module (SetElectedMaster electedMaster)) cl
  end.

End Vote.

(** ** The ping thread *)

(** Up to [retries] further attempts while the last one failed; [nets] gives the
    network of each attempt. *)
Fixpoint ping_retry (nets : nat -> Net) (me nodeId : string) (i retries : nat) (ret : Z) (cl : Cluster) : Cluster :=
  match retries with
  | O => cl
  | S retries =>
      if negb (Z.eqb ret 0) then
        let '(ret, cl) := SendPingRequest (nets i) me nodeId cl in ping_retry nets me nodeId (S i) retries ret cl
      else cl
  end.

Definition PerformPingCycle (nets : nat -> Net) (needRetry : bool) (me : string) (cl : Cluster) : Cluster :=
  match cl !! me with
  | None => cl
  | Some z =>
      let activeNodes := fst <$> filter (fun entry => entry.1 <> nodeId_ z /\ cn_isActive entry.2 = true) (entries (nodes_ z)) in
      foldl (fun cl nodeId =>
        let '(ret, cl) := SendPingRequest (nets 0) me nodeId cl in
        ping_retry nets me nodeId 1 (if needRetry then 3 else 0) ret cl) cl activeNodes
  end.

(** One turn of [PingLoop]. *)
Definition PingLoop (nets : nat -> Net) (me : string) (cl : Cluster) : Cluster := PerformPingCycle nets false me cl.

(** The thread that [Start] creates; it starts the three loops. *)
Definition FirstPing (nets : nat -> Net) (me : string) (cl : Cluster) : Cluster :=
  let cl := here me (PerformInitialDiscovery (net_ambient (nets 0))) cl in
  let cl := PerformPingCycle nets true me cl in
  here me (fun z => set_threads (running_ z) true (inviting_ z) (pendingJoins_ z) z) cl.

(** [PingDLock] has no caller; [heartbeat i] is the answer to the heartbeat of attempt [i]. *)
Definition HEART_BEAT_RETRY_COUNT : nat := 3.

Definition PingDLock (am : Ambient) (heartbeat : nat -> Z) (nodeId : string) (z : ZenDiscovery) : ZenDiscovery :=
  if bool_decide (nodeId <> GetCurrentMaster z) then z
  else if existsb (fun i => Z.eqb (heartbeat i) 0) (seq 0 (S HEART_BEAT_RETRY_COUNT)) then z
  else saw am nodeId false z.

(** ** Runs of a cluster

    The threads of a node and the daemon's start as events. Requests are
    handled during the event that sends them, except that the invitations of
    [InviteNodesToJoin] are separate events that happen in any order while the
    discovery thread polls for their answers, among all other events. *)

Inductive Event :=
  | EInitialize (local : string * Z) (remote : list (string * Z)) (joinTimeout minNodes : Z)
  | EFirstPing (me : string) (nets : nat -> Net)
  | EDiscovery (me : string) (net : Net) (now : Z)
  | EJoin (me nodeId : string) (net : Net)
  | EPoll (me : string) (now : Z)
  | EElection (me : string) (net : Net) (clock : nat -> Z)
  | EPing (me : string) (nets : nat -> Net)
  | EListener (me : string)
  | EStop (me : string).

(** [OckDaemon::InitializeZenDiscovery]. *)
Definition InitializeZenDiscovery (local : string * Z) (remote : list (string * Z)) (joinTimeout minNodes : Z) (cl : Cluster) : Cluster :=
  let mNode := NetRpcConfig.SetLocalNode local in
  let config := mkZenConfig (rn_name mNode) 3000 5000 joinTimeout minNodes (NetRpcConfig.SetRemoteNodes remote []) mNode in
  let cl := match cl !! rn_name mNode with Some _ => cl | None => <[rn_name mNode := new config]> cl end in
  alter (fun z => Start (on_module (fun m => (AddElectionListener (Some 0%Z) m).2) z)) (rn_name mNode) cl.

(** One task of [InviteNodesToJoin] has ended. *)
Fixpoint remove_first (nodeId : string) (l : list string) : list string :=
  match l with
  | [] => []
  | x :: l' => if bool_decide (x = nodeId) then l' else x :: remove_first nodeId l'
  end.

(** The three loops of a node turn, and no invitation occupies the discovery thread. *)
Definition discovery_free (z : ZenDiscovery) : bool :=
  running_ z && looping_ z && bool_decide (inviting_ z = None) && bool_decide (pendingJoins_ z = []).

Definition at_node (me : string) (cl : Cluster) (guard : ZenDiscovery -> bool) (k : ZenDiscovery -> option Cluster) : option Cluster :=
  match cl !! me with Some z => if guard z then k z else None | None => None end.

Definition step (ev : Event) (cl : Cluster) : option Cluster :=
  match ev with
  | EInitialize local remote joinTimeout minNodes => Some (InitializeZenDiscovery local remote joinTimeout minNodes cl)
  | EFirstPing me nets =>
      at_node me cl (fun z => running_ z && negb (looping_ z)) (fun _ => Some (FirstPing nets me cl))
  | EDiscovery me net now => at_node me cl discovery_free (fun _ => Some (DiscoveryLoop net me now cl))
  | EJoin me nodeId net =>
      at_node me cl (fun z => bool_decide (nodeId ∈ pendingJoins_ z)) (fun z =>
        let cl := here me (fun z =>
          set_threads (running_ z) (looping_ z) (inviting_ z) (remove_first nodeId (pendingJoins_ z)) z) cl in
        Some (SendJoinRequest net me nodeId cl).2)
  | EPoll me now =>
      at_node me cl (fun z => running_ z) (fun z =>
        match inviting_ z with Some startTime => Some (here me (PollInvitation startTime now) cl) | None => None end)
  | EElection me net clock =>
      at_node me cl (fun z => running_ z && looping_ z) (fun _ => ElectionLoop net clock me cl)
  | EPing me nets => at_node me cl (fun z => running_ z && looping_ z) (fun _ => Some (PingLoop nets me cl))
  | EListener me => at_node me cl (fun _ => true) (fun _ => Some (here me (on_module (fun m => (ListenerLoop m).2)) cl))
  | EStop me => at_node me cl (fun _ => true) (fun _ => Some (here me Stop cl))
  end.

Fixpoint run (evs : list Event) (cl : Cluster) : option Cluster :=
  match evs with
  | [] => Some cl
  | ev :: evs => match step ev cl with Some cl' => run evs cl' | None => None end
  end.

(** What a cluster may be after daemons have started. *)
Definition reachable (cl : Cluster) : Prop := exists evs, run evs ∅ = Some cl.
