(* ===== verification/ElectionInv.v ===== *)
(** What every event of a cluster does to every node: a sequence of local
    changes; and the invariant that they keep. *)

From S2P Require Import Prelude StoreTypes MsgPacker MsgCodec MsgBase MsgRequests MsgResponses MsgFactory StoreInterface Daemon NodeAddress Election ElectionNet.
Import ElectionModule Zen.

(** ** Iteration *)

Lemma entries_perm {A} (m : gmap string A) : entries m ≡ₚ map_to_list m.
Proof. apply merge_sort_Permutation. Qed.

Lemma elem_of_node_entries {A} (m : gmap string A) k x : (k, x) ∈ entries m <-> m !! k = Some x.
Proof. rewrite entries_perm. apply elem_of_map_to_list. Qed.

Lemma NoDup_entries {A} (m : gmap string A) : NoDup (entries m).*1.
Proof. rewrite entries_perm. apply NoDup_fst_map_to_list. Qed.

Lemma list_to_map_entries {A} (m : gmap string A) : list_to_map (entries m) = m.
Proof.
  rewrite <- (list_to_map_to_list m) at 2. apply list_to_map_proper; [apply NoDup_entries | apply entries_perm].
Qed.

Lemma sorted_ids_perm X : sorted_ids X ≡ₚ elements X.
Proof. apply merge_sort_Permutation. Qed.

Lemma elem_of_sorted_ids X x : x ∈ sorted_ids X <-> x ∈ X.
Proof. rewrite sorted_ids_perm. apply elem_of_elements. Qed.

Lemma length_sorted_ids X : length (sorted_ids X) = size X.
Proof. by rewrite sorted_ids_perm. Qed.

(** ** Local changes

    [nstep m ev k]: what node [k] may do within event [ev] of a cluster whose
    nodes all require [m] nodes at least. *)

Section Local.
Context (m : Z) (ev : Event).

Definition self_active (z : ZenDiscovery) : Prop := cn_isActive <$> nodes_ z !! nodeId_ z = Some true.

Inductive nstep (k : string) : ZenDiscovery -> ZenDiscovery -> Prop :=
  | ns_saw am id b z : id <> k \/ b = true -> nstep k z (saw am id b z)
  | ns_type t id z : nstep k z (set_nodes (alter (set_nodeType t) id (nodes_ z)) z)
  | ns_join_type t id z : id <> k -> nstep k z (set_nodes (<[id := set_nodeType t (default default_node (nodes_ z !! id))]> (nodes_ z)) z)
  | ns_module f z : nstep k z (on_module f z)
  | ns_become l z : (m <= Z.of_nat (length l))%Z -> nstep k z (BecomeTempMaster l z)
  | ns_broadcast from nodes b z : cn_isActive <$> nodes !! k = Some true -> nstep k z (HandleBroadCastRequest from nodes b z)
  | ns_initial am z : nstep k z (PerformInitialDiscovery am z)
  | ns_invite now z : state_ z = TEMP_MASTER -> nstep k z (InviteNodesToJoin now z)
  | ns_poll start now z : ev = EPoll k now -> inviting_ z = Some start -> nstep k z (PollInvitation start now z)
  | ns_stepdown z : nstep k z (StepDownAsMaster z)
  | ns_member z : nstep k z (MaintainAsClusterMember z)
  | ns_threads run loop inv pend z :
      (inv = inviting_ z \/ inv = None) -> (forall x, x ∈ pend -> x ∈ pendingJoins_ z) -> (loop = true -> looping_ z = true) ->
      nstep k z (set_threads run loop inv pend z)
  | ns_loop z : self_active z -> nstep k z (set_threads (running_ z) true (inviting_ z) (pendingJoins_ z) z)
  | ns_start z : nstep k z (Start z).

(** The invariant of node [k]. *)
Record node_ok (k : string) (z : ZenDiscovery) : Prop := mkNodeOk {
  ok_id : nodeId_ z = k;
  ok_config : rn_name (config_mNode (config_ z)) = k;
  ok_minimum : (m <= minimum_size z)%Z;
  ok_pending : k ∉ pendingJoins_ z;
  ok_self : looping_ z = true \/ type_ z = VOTING_ONLY_NODE -> self_active z;
  ok_temp : state_ z = TEMP_MASTER \/ inviting_ z <> None -> (m <= Z.of_nat (length (tempNodeList_ z)))%Z;
}.

Definition cluster_ok (cl : Cluster) : Prop := forall k z, cl !! k = Some z -> node_ok k z.

(** Every node changes by local steps only. *)
Definition csteps (cl cl' : Cluster) : Prop :=
  forall k, match cl !! k, cl' !! k with
            | Some z, Some z' => rtc (nstep k) z z'
            | None, None => True
            | _, _ => False
            end.

#[global] Instance csteps_preorder : PreOrder csteps.
Proof.
  split.
  - intros cl k. destruct (cl !! k); [constructor | done].
  - intros cl1 cl2 cl3 H1 H2 k. specialize (H1 k). specialize (H2 k).
    destruct (cl1 !! k), (cl2 !! k), (cl3 !! k); try done. by etrans.
Qed.

Lemma csteps_here me f cl :
  (forall z, cl !! me = Some z -> rtc (nstep me) z (f z)) -> csteps cl (here me f cl).
Proof.
  intros H k. unfold here. destruct (decide (k = me)) as [->|Hk].
  - rewrite lookup_alter_eq. destruct (cl !! me) as [z|]; simpl; [by apply H | done].
  - rewrite lookup_alter_ne by done. destruct (cl !! k); [constructor | done].
Qed.

Lemma csteps_insert me z z' cl : cl !! me = Some z -> rtc (nstep me) z z' -> csteps cl (<[me := z']> cl).
Proof.
  intros Hz H k. destruct (decide (k = me)) as [->|Hk].
  - by rewrite lookup_insert_eq, Hz.
  - rewrite lookup_insert_ne by done. destruct (cl !! k); [constructor | done].
Qed.

Lemma csteps_dom cl cl' k z : csteps cl cl' -> cl !! k = Some z -> exists z', cl' !! k = Some z' /\ rtc (nstep k) z z'.
Proof. intros H Hz. specialize (H k). rewrite Hz in H. destruct (cl' !! k) as [z'|]; [by exists z' | done]. Qed.

Lemma csteps_foldl {A} (f : Cluster -> A -> Cluster) (l : list A) cl :
  (forall cl x, x ∈ l -> csteps cl (f cl x)) -> csteps cl (foldl f cl l).
Proof.
  revert cl. induction l as [|x l IH]; intros cl H; simpl; [reflexivity|].
  etrans; [apply H; left|]. apply IH. intros. apply H. by right.
Qed.

End Local.

(** ** Requests change nodes by local steps *)

Section Requests.
Context (m : Z) (ev : Event) (net : Net) (me : string).
#[local] Abbreviation csteps := (csteps m ev).
#[local] Abbreviation nstep := (nstep m ev).

Lemma nstep_once k z z' : nstep k z z' -> rtc (nstep k) z z'.
Proof. apply rtc_once. Qed.

(** A handler that keeps a missing instance missing and changes an instance by local steps. *)
Definition handler_ok {Rsp} (k : string) (h : Rsp -> option ZenDiscovery -> Z * Rsp * option ZenDiscovery) : Prop :=
  forall rsp, (h rsp None).2 = None /\ forall z, exists z', (h rsp (Some z)).2 = Some z' /\ rtc (nstep k) z z'.

Lemma SendMsg_csteps {Rsp} h (rsp : Rsp) k cl : handler_ok k h -> csteps cl (SendMsg net h rsp k cl).2.
Proof.
  intros Hh. unfold SendMsg. destruct (net_SendMsg net k) as [ret reached]. case_match; [|reflexivity].
  destruct (Hh rsp) as [HN HS]. intros k'. destruct (decide (k' = k)) as [->|Hk].
  - destruct (cl !! k) as [z|] eqn:E.
    + destruct (HS z) as (z' & Ez & Hz). destruct (h rsp (Some z)) as [[r a] i]. simpl in *. subst i.
      by rewrite lookup_partial_alter_eq.
    + destruct (h rsp None) as [[r a] i]. simpl in *. subst i. by rewrite lookup_partial_alter_eq.
  - destruct (h rsp (cl !! k)) as [[r a] i]. simpl. rewrite lookup_partial_alter_ne by done.
    destruct (cl !! k'); [constructor | done].
Qed.

Lemma ConnectToRpcNode_csteps id cl : id <> me -> csteps cl (ConnectToRpcNode net me id cl).2.
Proof.
  intros Hid. unfold ConnectToRpcNode. destruct (NetRpcConfig.ParseRpcNodeFromId id) as [ret n].
  repeat case_match; simpl; try reflexivity. apply csteps_here. intros z _. apply nstep_once. constructor. by left.
Qed.

(** Goes through a request: the connection, the message, what follows. *)
Ltac request_steps :=
  match goal with
  | |- csteps ?cl (let '(_, _) := ConnectToRpcNode ?n ?me ?id ?cl in _).2 =>
      pose proof (ConnectToRpcNode_csteps id cl) as HC; destruct (ConnectToRpcNode n me id cl) as [rc cl1]; cbn [snd] in HC
  end.

Lemma raise_term_steps k t z : rtc (nstep k) z (raise_term t z).
Proof. unfold raise_term. case_match; [apply nstep_once; constructor | constructor]. Qed.

Lemma ping_failed_steps id z : id <> me -> rtc (nstep me) z (ping_failed net id z).
Proof.
  intros Hid. unfold ping_failed. eapply rtc_l; [apply ns_saw; by left|]. case_match; [apply nstep_once; constructor | constructor].
Qed.

Lemma PingRequestInfo_ok k req : handler_ok k (PingRequestInfo (net_ambient net) req).
Proof. intros rsp. split; [done|]. intros z. eexists. split; [reflexivity|]. apply nstep_once, ns_saw. by right. Qed.

Lemma JoinRequestInfo_ok k req : handler_ok k (JoinRequestInfo (net_ambient net) req).
Proof. intros rsp. split; [done|]. intros z. eexists. split; [reflexivity|]. apply nstep_once, ns_saw. by right. Qed.

Lemma VoteRequestInfo_ok k req : handler_ok k (VoteRequestInfo req).
Proof. intros rsp. split; [done|]. intros z. eexists. split; [reflexivity|]. apply raise_term_steps. Qed.

Lemma SendTransElectedInfo_ok k req :
  (m <= Z.of_nat (length (TransElectedRequest_nodes_ req)))%Z -> handler_ok k (SendTransElectedInfo req).
Proof.
  intros Hm rsp. split; [done|]. intros z. eexists. split; [reflexivity|]. unfold HandleSendTransElected. case_match; [constructor|].
  etrans; [apply raise_term_steps | apply nstep_once; by constructor].
Qed.

Lemma MasterElectedInfo_ok k req : handler_ok k (MasterElectedInfo req).
Proof. intros rsp. split; [done|]. intros z. eexists. split; [reflexivity | constructor]. Qed.

Lemma BroadCastRequestInfo_ok k req :
  cn_isActive <$> (list_to_map (BroadcastRequest_nodes_ req) : gmap string ClusterNode) !! k = Some true ->
  handler_ok k (BroadCastRequestInfo req).
Proof. intros Hk rsp. split; [done|]. intros z. eexists. split; [reflexivity|]. apply nstep_once. by constructor. Qed.

#[local] Hint Resolve PingRequestInfo_ok JoinRequestInfo_ok VoteRequestInfo_ok MasterElectedInfo_ok : core.

Lemma SendPingRequest_csteps id cl : id <> me -> csteps cl (SendPingRequest net me id cl).2.
Proof.
  intros Hid. unfold SendPingRequest. request_steps. specialize (HC Hid). case_match; simpl.
  { etrans; [exact HC|]. apply csteps_here. intros. by apply ping_failed_steps. }
  pose proof (SendMsg_csteps (PingRequestInfo (net_ambient net) (mkPingRequest (base MXM_MSG_BUTT) me)) default_query id cl1) as HS.
  destruct (SendMsg _ _ _ id cl1) as [[ret a] cl2]. simpl in HS. specialize (HS (PingRequestInfo_ok _ _)).
  case_match; simpl; (etrans; [exact HC|]); (etrans; [exact HS|]); apply csteps_here; intros.
  - by apply ping_failed_steps.
  - apply nstep_once, ns_saw. by left.
Qed.

Lemma SendJoinRequest_csteps id cl : id <> me -> csteps cl (SendJoinRequest net me id cl).2.
Proof.
  intros Hid. unfold SendJoinRequest. request_steps. specialize (HC Hid). case_match; simpl; [exact HC|].
  pose proof (SendMsg_csteps (JoinRequestInfo (net_ambient net) (mkPingRequest (base MXM_MSG_BUTT) id)) default_join id cl1) as HS.
  destruct (SendMsg _ _ _ id cl1) as [[ret a] cl2]. simpl in HS. specialize (HS (JoinRequestInfo_ok _ _)).
  case_match; simpl; [by etrans|]. etrans; [exact HC|]. etrans; [exact HS|].
  etrans; [|apply csteps_here; intros; apply nstep_once; constructor].
  case_match; [|reflexivity]. apply csteps_here. intros. apply nstep_once. by constructor.
Qed.

Lemma SendTransElectedRequest_csteps l id t cl :
  id <> me -> (m <= Z.of_nat (length l))%Z -> csteps cl (SendTransElectedRequest net me l id t cl).2.
Proof.
  intros Hid Hm. unfold SendTransElectedRequest. request_steps. specialize (HC Hid). case_match; simpl; [exact HC|].
  pose proof (SendMsg_csteps (SendTransElectedInfo (mkTransElectedRequest (base MXM_MSG_SHM_ALLOCATE) id l t)) default_query id cl1) as HS.
  destruct (SendMsg _ _ _ id cl1) as [[ret a] cl2]. simpl in *. etrans; [exact HC|]. by apply HS, SendTransElectedInfo_ok.
Qed.

Lemma SendVoteRequest_csteps id mn t cl : id <> me -> csteps cl (SendVoteRequest net me id mn t cl).2.
Proof.
  intros Hid. unfold SendVoteRequest. request_steps. specialize (HC Hid). case_match; simpl; [exact HC|].
  pose proof (SendMsg_csteps (VoteRequestInfo (mkVoteRequest (base MXM_MSG_SHM_ALLOCATE) me mn t)) default_vote id cl1) as HS.
  destruct (SendMsg _ _ _ id cl1) as [[ret a] cl2]. simpl in *. specialize (HS (VoteRequestInfo_ok _ _)).
  case_match; simpl; [by etrans|]. etrans; [exact HC|]. etrans; [exact HS|]. apply csteps_here. intros.
  unfold HandleVoteResponse. case_match; [apply nstep_once; constructor | constructor].
Qed.

Lemma SendBroadcastRequest_csteps nodes id cl :
  id <> me -> cn_isActive <$> nodes !! id = Some true -> csteps cl (SendBroadcastRequest net me nodes id cl).2.
Proof.
  intros Hid Ha. unfold SendBroadcastRequest. request_steps. specialize (HC Hid). case_match; simpl; [exact HC|].
  set (req := mkBroadcastRequest _ _ _ _).
  pose proof (SendMsg_csteps (BroadCastRequestInfo req) default_query id cl1) as HS.
  destruct (SendMsg _ _ _ id cl1) as [[ret a] cl2]. simpl in *. etrans; [exact HC|]. apply HS, BroadCastRequestInfo_ok.
  subst req. cbn [BroadcastRequest_nodes_]. by rewrite list_to_map_entries.
Qed.

End Requests.

(** ** Events change nodes by local steps *)

Section Events.
Context (m : Z) (ev : Event).
#[local] Abbreviation csteps := (csteps m ev).
#[local] Abbreviation nstep := (nstep m ev).

Lemma MaintainAsMaster_csteps net me cl : cluster_ok m cl -> csteps cl (MaintainAsMaster net me cl).
Proof.
  intros Hok. unfold MaintainAsMaster. destruct (cl !! me) as [z|] eqn:Ez; [|reflexivity]. pose proof (ok_id _ _ _ (Hok _ _ Ez)) as Hid.
  case_match; [apply csteps_here; intros; apply nstep_once; constructor|].
  set (z1 := if has_voter z then z else _).
  assert (H1 : rtc (nstep me) z z1) by (subst z1; case_match; [constructor | apply nstep_once; constructor]).
  assert (Hid1 : nodeId_ z1 = me) by (subst z1; by destruct (has_voter z)).
  etrans; [by apply (csteps_insert m ev me z z1)|]. apply csteps_foldl. intros cl' [id n] Hin.
  case_match eqn:Hc; [|reflexivity]. apply andb_true_iff in Hc as [Hne Ha]. apply bool_decide_eq_true in Hne. simpl in *. rewrite Hid1 in Hne.
  apply SendBroadcastRequest_csteps; [done|]. apply elem_of_node_entries in Hin. rewrite Hin. simpl. by rewrite Ha.
Qed.

Lemma DiscoveryLoop_csteps net me now cl : cluster_ok m cl -> csteps cl (DiscoveryLoop net me now cl).
Proof.
  intros Hok. unfold DiscoveryLoop. destruct (cl !! me) as [z|] eqn:Ez; [|reflexivity].
  destruct (state_ z) eqn:Es; try reflexivity; [apply csteps_here; intros ? E; apply nstep_once; constructor..| |by apply MaintainAsMaster_csteps].
  apply csteps_here. intros z' E. apply nstep_once. constructor. congruence.
Qed.

Lemma ping_retry_csteps nets me id i n ret cl : id <> me -> csteps cl (ping_retry nets me id i n ret cl).
Proof.
  intros Hid. revert i ret cl. induction n as [|n IH]; intros i ret cl; simpl; [reflexivity|]. case_match; [|reflexivity].
  pose proof (SendPingRequest_csteps m ev (nets i) me id cl Hid) as HS. destruct (SendPingRequest (nets i) me id cl) as [r cl1].
  etrans; [exact HS | apply IH].
Qed.

Lemma PerformPingCycle_csteps nets retry me cl : cluster_ok m cl -> csteps cl (PerformPingCycle nets retry me cl).
Proof.
  intros Hok. unfold PerformPingCycle. destruct (cl !! me) as [z|] eqn:Ez; [|reflexivity]. pose proof (ok_id _ _ _ (Hok _ _ Ez)) as Hid.
  apply csteps_foldl. intros cl' id Hin. apply list_elem_of_fmap in Hin as ([id' n] & -> & Hin). apply list_elem_of_filter in Hin as [[Hne _] _].
  simpl in *. rewrite Hid in Hne.
  pose proof (SendPingRequest_csteps m ev (nets 0) me id' cl' Hne) as HS. destruct (SendPingRequest (nets 0) me id' cl') as [r cl1].
  etrans; [exact HS | by apply ping_retry_csteps].
Qed.

Lemma ConductVoting_csteps net clock me tm c z cl : csteps cl (ConductVoting net clock me tm c z cl).2.
Proof.
  unfold ConductVoting. cbn [snd]. transitivity (here me (on_module (RecordVote me)) cl).
  { apply csteps_here. intros. apply nstep_once. constructor. }
  apply csteps_foldl. intros cl' id _. case_match eqn:Hc; [|reflexivity]. apply bool_decide_eq_true in Hc. by apply SendVoteRequest_csteps.
Qed.

Lemma ProcessVotingResults_csteps net me tm l z cl :
  (m <= Z.of_nat (length l))%Z -> csteps cl (ProcessVotingResults net me tm l z cl).
Proof.
  intros Hm. unfold ProcessVotingResults. set (cl1 := here me _ cl).
  assert (H1 : csteps cl cl1) by (apply csteps_here; intros; apply nstep_once; constructor).
  repeat case_match; (etrans; [exact H1|]).
  - apply csteps_here. intros. apply nstep_once. constructor.
  - etrans; [apply (SendTransElectedRequest_csteps m ev net me l tm (currentTerm_ (electionModule_ z)) cl1)|].
    + by apply bool_decide_eq_true in H0.
    + done.
    + apply csteps_here. intros. apply nstep_once. constructor.
  - apply csteps_here. intros. apply nstep_once. by constructor.
Qed.

Lemma RunElection_csteps net clock me cl cl' : cluster_ok m cl -> RunElection net clock me cl = Some cl' -> csteps cl cl'.
Proof.
  intros Hok. unfold RunElection. destruct (cl !! me) as [z|] eqn:Ez; [|intros [= <-]; reflexivity].
  case_match; [intros [= <-]; reflexivity|]. set (z1 := begin_election z). pose proof (ok_minimum _ _ _ (Hok _ _ Ez)) as Hmin.
  assert (H1 : csteps cl (<[me := z1]> cl)).
  { apply (csteps_insert m ev me z z1); [done|]. eapply rtc_l; [apply ns_module | apply nstep_once; apply ns_module]. }
  case_match eqn:Hlt.
  { intros [= <-]. etrans; [exact H1|]. apply csteps_here. intros. eapply rtc_l; [apply ns_module | apply nstep_once; apply ns_module]. }
  apply Z.ltb_ge in Hlt. change (minimum_size z1) with (minimum_size z) in Hlt.
  pose proof (ConductVoting_csteps net clock me (SelectTemporaryMaster (CollectNodeInfo z1)) (CollectNodeInfo z1) z1 (<[me := z1]> cl)) as HV.
  destruct (ConductVoting _ _ _ _ _ _ _) as [[[]|] cl2]; intros E; try done; injection E as <-; cbn [snd] in HV;
    (etrans; [exact H1|]); (etrans; [exact HV|]).
  - etrans; [|apply csteps_here; intros; apply nstep_once; constructor]. apply ProcessVotingResults_csteps.
    rewrite length_sorted_ids. by etrans.
  - apply csteps_here. intros. apply nstep_once. constructor.
Qed.

End Events.

(** ** What the larger local steps leave alone *)

Lemma foldl_preserves {A B} (P : A -> Prop) (f : A -> B -> A) (l : list B) a :
  (forall a b, P a -> P (f a b)) -> P a -> P (foldl f a l).
Proof. intros Hf. revert a. induction l as [|b l IH]; intros a Ha; simpl; [done|]. apply IH, Hf, Ha. Qed.

(** Equal but for the type, the module and the fields named. *)
Definition same_but_type (z z' : ZenDiscovery) : Prop :=
  config_ z' = config_ z /\ state_ z' = state_ z /\ electedMaster_ z' = electedMaster_ z /\ tempNodeList_ z' = tempNodeList_ z /\
  nodes_ z' = nodes_ z /\ running_ z' = running_ z /\ looping_ z' = looping_ z /\ inviting_ z' = inviting_ z /\
  pendingJoins_ z' = pendingJoins_ z.

Lemma broadcast_same b l z : same_but_type z (foldl (broadcast_entry b) z l).
Proof.
  apply (foldl_preserves (same_but_type z)); [|done]. intros z' e H. unfold broadcast_entry. repeat case_match; exact H.
Qed.

Lemma HandleBroadCastRequest_fields from nodes b z :
  same_but_type (set_state JOINED_CLUSTER (set_master from (set_nodes nodes z))) (HandleBroadCastRequest from nodes b z).
Proof. apply broadcast_same. Qed.

Definition same_but_module (z z' : ZenDiscovery) : Prop := same_but_type z z' /\ type_ z' = type_ z.

Lemma HandleAllJoined_fields z :
  config_ (HandleAllJoined z) = config_ z /\ state_ (HandleAllJoined z) = ELECTED_MASTER /\
  electedMaster_ (HandleAllJoined z) = electedMaster_ z /\ tempNodeList_ (HandleAllJoined z) = tempNodeList_ z /\
  nodes_ (HandleAllJoined z) = nodes_ (ModifyNodeList z) /\ looping_ (HandleAllJoined z) = looping_ z /\
  inviting_ (HandleAllJoined z) = inviting_ z /\ pendingJoins_ (HandleAllJoined z) = pendingJoins_ z /\
  type_ (HandleAllJoined z) = type_ z /\ running_ (HandleAllJoined z) = running_ z.
Proof.
  unfold HandleAllJoined. set (z0 := ModifyNodeList (notify _ _ _ z)). set (f := fun z entry => _).
  assert (H : same_but_module z0 (foldl f z0 (entries (nodes_ z0)))).
  { apply (foldl_preserves (same_but_module z0)); [|done]. intros z' e H. subst f. simpl. case_match; exact H. }
  destruct H as [(H1 & H2 & H3 & H4 & H5 & H6 & H7 & H8 & H9) H10].
  set (z1 := foldl f z0 _) in *. clearbody z1. subst z0. repeat split; simpl; try assumption.
Qed.

Lemma ModifyNodeList_lookup z id :
  nodes_ (ModifyNodeList z) !! id =
  (fun node => if bool_decide (id = nodeId_ z) then set_isMaster true (set_active true node)
               else set_isMaster false (set_active (bool_decide (id ∈ joinsReceived_ (electionModule_ z))) node)) <$> nodes_ z !! id.
Proof. unfold ModifyNodeList, set_nodes. cbn [nodes_]. rewrite map_lookup_imap. by destruct (nodes_ z !! id). Qed.

(** ** The invariant *)

Section Invariant.
Context (m : Z) (ev : Event) (k : string).
Implicit Type z : ZenDiscovery.
#[local] Abbreviation nstep := (nstep m ev).

Lemma saw_fields am id b z :
  same_but_module (set_nodes (nodes_ (saw am id b z)) z) (saw am id b z).
Proof. unfold saw, MarkNodeActive, UpdateNodeLastSeen. by destruct (nodes_ z !! id). Qed.

Lemma saw_nodes am id b z :
  nodes_ (saw am id b z) = <[id := match nodes_ z !! id with
    | Some n => set_active b (set_lastSeen (am_now am) n)
    | None => mkClusterNode id "" (am_port am) false (am_now am) b (am_type am) end]> (nodes_ z).
Proof.
  unfold saw, MarkNodeActive, UpdateNodeLastSeen. destruct (nodes_ z !! id); cbn [set_nodes nodes_]; by rewrite alter_insert_eq.
Qed.

Lemma saw_lookup_self am id b z : id <> nodeId_ z \/ b = true -> self_active z -> self_active (saw am id b z).
Proof.
  intros Hid H. unfold self_active. destruct (saw_fields am id b z) as ((Hc & _) & _). unfold nodeId_ in *. rewrite Hc, saw_nodes. simpl in *.
  destruct (decide (id = zc_nodeId (config_ z))) as [->|Hne].
  - rewrite lookup_insert_eq. destruct Hid as [? | ->]; [done|]. by case_match.
  - by rewrite lookup_insert_ne.
Qed.

Lemma initial_self am z : rn_name (config_mNode (config_ z)) = nodeId_ z -> type_ z <> VOTING_ONLY_NODE -> self_active (PerformInitialDiscovery am z).
Proof.
  intros Hc Ht. unfold PerformInitialDiscovery. rewrite (proj2 (Z.eqb_neq _ _) Ht). unfold self_active.
  change (nodeId_ (set_state _ _)) with (nodeId_ z). cbn [set_state set_nodes nodes_]. rewrite foldl_app. simpl.
  by rewrite Hc, lookup_insert_eq.
Qed.

Lemma initial_fold_self am z l (n0 : gmap string ClusterNode) :
  cn_isActive <$> n0 !! nodeId_ z = Some true ->
  cn_isActive <$> foldl (fun nodes rpcNode => <[rn_name rpcNode := initial_node (am_now am) rpcNode]> nodes) n0 l !! nodeId_ z = Some true.
Proof.
  apply (foldl_preserves (fun n : gmap string ClusterNode => cn_isActive <$> n !! nodeId_ z = Some true)). intros n r H.
  destruct (decide (rn_name r = nodeId_ z)) as [E|E]; [by rewrite E, lookup_insert_eq | by rewrite lookup_insert_ne].
Qed.

Lemma alter_active f id (n : gmap string ClusterNode) k' :
  (forall x, cn_isActive (f x) = cn_isActive x) -> cn_isActive <$> alter f id n !! k' = cn_isActive <$> n !! k'.
Proof.
  intros Hf. destruct (decide (id = k')) as [->|Hne]; [rewrite lookup_alter_eq | by rewrite lookup_alter_ne].
  destruct (n !! k'); simpl; [by rewrite Hf | done].
Qed.

Lemma joined_self z : self_active z -> self_active (HandleAllJoined z).
Proof.
  unfold self_active. intros H. destruct (HandleAllJoined_fields z) as (Hc & _ & _ & _ & Hn & _).
  unfold nodeId_ in *. rewrite Hc, Hn, ModifyNodeList_lookup. unfold nodeId_. rewrite bool_decide_eq_true_2 by done.
  destruct (nodes_ z !! zc_nodeId (config_ z)); done.
Qed.

Lemma check_fields start now z z' fin :
  CheckElectionResult start now z = (fin, z') ->
  config_ z' = config_ z /\ tempNodeList_ z' = tempNodeList_ z /\ type_ z' = type_ z /\ looping_ z' = looping_ z /\
  inviting_ z' = inviting_ z /\ pendingJoins_ z' = pendingJoins_ z /\ (self_active z -> self_active z') /\
  (state_ z' = TEMP_MASTER -> state_ z = TEMP_MASTER).
Proof.
  unfold CheckElectionResult. destruct (HandleAllJoined_fields z) as (H1 & H2 & H3 & H4 & H5 & H6 & H7 & H8 & H9 & H10).
  pose proof (joined_self z). repeat case_match; intros [= <- <-]; split_and!; try assumption; try done; by rewrite H2.
Qed.

Lemma nstep_config z z' : nstep k z z' -> config_ z' = config_ z.
Proof.
  intros H. destruct H; try done.
  - apply saw_fields.
  - unfold BecomeTempMaster. by case_match.
  - apply HandleBroadCastRequest_fields.
  - unfold PerformInitialDiscovery. by case_match.
  - unfold PollInvitation. destruct (CheckElectionResult _ _ _) as [[] z'] eqn:E; apply check_fields in E; apply E.
  - unfold MaintainAsClusterMember. by repeat case_match.
  - unfold Start. by case_match.
Qed.

Lemma nstep_self z z' : nodeId_ z = k -> nstep k z z' -> self_active z -> self_active z'.
Proof.
  intros Hk H Hs. pose proof (nstep_config z z' H) as Hc. destruct H.
  - apply saw_lookup_self; [by rewrite Hk | done].
  - unfold self_active, nodeId_. cbn [set_nodes nodes_ config_]. by rewrite alter_active.
  - unfold self_active, nodeId_ in *. cbn [set_nodes nodes_ config_]. rewrite lookup_insert_ne; [done|]. congruence.
  - exact Hs.
  - unfold BecomeTempMaster. by case_match.
  - destruct (HandleBroadCastRequest_fields from nodes b z) as (_ & _ & _ & _ & Hn & _). unfold self_active, nodeId_ in *.
    rewrite Hc, Hn, Hk. done.
  - unfold PerformInitialDiscovery. case_match; [exact Hs|]. unfold self_active. by apply initial_fold_self.
  - exact Hs.
  - unfold PollInvitation. destruct (CheckElectionResult _ _ _) as [[] z'] eqn:E; apply check_fields in E as (_ & _ & _ & _ & _ & _ & HS & _); by apply HS.
  - unfold self_active, nodeId_ in *. cbn. rewrite lookup_fmap. by destruct (nodes_ z !! zc_nodeId (config_ z)).
  - unfold MaintainAsClusterMember. by repeat case_match.
  - exact Hs.
  - exact Hs.
  - unfold Start. by case_match.
Qed.

Lemma nstep_pending z z' : nodeId_ z = k -> nstep k z z' -> k ∉ pendingJoins_ z -> k ∉ pendingJoins_ z'.
Proof.
  intros Hk H Hs. destruct H; try exact Hs.
  - destruct (saw_fields am id b z) as ((_ & _ & _ & _ & _ & _ & _ & _ & Hp) & _). by rewrite Hp.
  - unfold BecomeTempMaster. by case_match.
  - destruct (HandleBroadCastRequest_fields from nodes b z) as (_ & _ & _ & _ & _ & _ & _ & _ & Hp). by rewrite Hp.
  - unfold PerformInitialDiscovery. by case_match.
  - unfold InviteNodesToJoin. cbn. rewrite list_elem_of_filter. unfold nodeId_ in *. cbn. intros [Hne _]. congruence.
  - unfold PollInvitation. destruct (CheckElectionResult _ _ _) as [[] z'] eqn:E; apply check_fields in E as (_ & _ & _ & _ & _ & Hp & _); cbn; by rewrite Hp.
  - unfold MaintainAsClusterMember. by repeat case_match.
  - cbn. intros Hin. by apply Hs, H0.
  - unfold Start. by case_match.
Qed.

Lemma nstep_flags z z' :
  nodeId_ z = k -> nstep k z z' -> self_active z' \/ (looping_ z' = true -> looping_ z = true) /\ type_ z' = type_ z.
Proof.
  intros Hk H. pose proof (nstep_config z z' H) as Hc. destruct H; try (right; done).
  - right. destruct (saw_fields am id b z) as ((_ & _ & _ & _ & _ & _ & Hl & _) & Ht). by rewrite Hl, Ht.
  - right. unfold BecomeTempMaster. by case_match.
  - left. destruct (HandleBroadCastRequest_fields from nodes b z) as (_ & _ & _ & _ & Hn & _). unfold self_active, nodeId_ in *.
    rewrite Hc, Hn, Hk. done.
  - right. unfold PerformInitialDiscovery. by case_match.
  - right. unfold PollInvitation. destruct (CheckElectionResult _ _ _) as [[] z'] eqn:E; apply check_fields in E as (_ & _ & Ht & Hl & _); cbn; by rewrite Ht, Hl.
  - right. unfold MaintainAsClusterMember. by repeat case_match.
  - by left.
  - right. unfold Start. by case_match.
Qed.

Lemma nstep_temp z z' : nstep k z z' ->
  (state_ z = TEMP_MASTER \/ inviting_ z <> None -> (m <= Z.of_nat (length (tempNodeList_ z)))%Z) ->
  state_ z' = TEMP_MASTER \/ inviting_ z' <> None -> (m <= Z.of_nat (length (tempNodeList_ z')))%Z.
Proof.
  intros H Ht. destruct H; try exact Ht.
  - destruct (saw_fields am id b z) as ((_ & Hs & _ & Hl & _ & _ & _ & Hi & _) & _). by rewrite Hs, Hl, Hi.
  - unfold BecomeTempMaster. by case_match.
  - destruct (HandleBroadCastRequest_fields from nodes b z) as (_ & Hs & _ & Hl & _ & _ & _ & Hi & _). rewrite Hs, Hl, Hi. cbn.
    intros [?|?]; [done | auto].
  - unfold PerformInitialDiscovery. case_match; cbn; intros [?|?]; try done; auto.
  - cbn. auto.
  - unfold PollInvitation. destruct (CheckElectionResult _ _ _) as [[] z'] eqn:E; apply check_fields in E as (_ & Hl & _ & _ & Hi & _ & _ & Hs); cbn;
      rewrite Hl, ?Hi; intros [?|?]; try done; auto.
  - cbn. intros [?|?]; [done | auto].
  - unfold MaintainAsClusterMember. repeat case_match; cbn; intros [?|?]; try done; auto.
  - cbn. intros [?|?]; [auto|]. destruct H as [->| ->]; [auto | done].
  - unfold Start. case_match; cbn; intros [?|?]; try done; auto.
Qed.

Lemma nstep_ok z z' : nstep k z z' -> node_ok m k z -> node_ok m k z'.
Proof.
  intros H [Hid Hcf Hmin Hp Hs Ht]. pose proof (nstep_config z z' H) as Hc. split.
  - unfold nodeId_. by rewrite Hc.
  - by rewrite Hc.
  - unfold minimum_size. by rewrite Hc.
  - by apply (nstep_pending z).
  - destruct (nstep_flags z z' Hid H) as [?|[Hl Hty]]; [done|]. rewrite Hty. intros [Hlo|Hv]; apply (nstep_self z); auto.
  - by apply (nstep_temp z).
Qed.

Lemma nsteps_ok z z' : rtc (nstep k) z z' -> node_ok m k z -> node_ok m k z'.
Proof. induction 1 as [|z z1 z' H _ IH]; [done|]. intros Hok. apply IH. by eapply nstep_ok. Qed.

(** A node becomes the elected master by polling its invitations only. *)
Lemma nstep_elected z z' :
  nstep k z z' -> state_ z' = ELECTED_MASTER -> state_ z = ELECTED_MASTER \/ exists now, ev = EPoll k now.
Proof.
  intros H Hs. destruct H; try (by left); try (by right; eexists); try done.
  - destruct (saw_fields am id b z) as ((_ & E & _) & _). rewrite E in Hs. by left.
  - unfold BecomeTempMaster in Hs. case_match; [by left | done].
  - destruct (HandleBroadCastRequest_fields from nodes b z) as (_ & E & _). by rewrite E in Hs.
  - unfold PerformInitialDiscovery in Hs. by case_match.
  - unfold MaintainAsClusterMember in Hs. repeat case_match; try done. by left.
  - unfold Start in Hs. case_match; [by left | done].
Qed.

Lemma nsteps_elected z z' :
  rtc (nstep k) z z' -> state_ z' = ELECTED_MASTER -> state_ z = ELECTED_MASTER \/ exists now, ev = EPoll k now.
Proof.
  induction 1 as [|z z1 z' H _ IH]; intros Hs; [by left|]. destruct (IH Hs) as [H1|]; [|by right]. by eapply nstep_elected.
Qed.

End Invariant.

(** ** Whole events *)

Lemma csteps_ok m ev cl cl' : csteps m ev cl cl' -> cluster_ok m cl -> cluster_ok m cl'.
Proof.
  intros H Hok k z' Hz'. specialize (H k). rewrite Hz' in H. destruct (cl !! k) as [z|] eqn:Ez; [|done].
  eapply nsteps_ok; [exact H | by apply Hok].
Qed.

Lemma nsteps_self m ev k z z' : rtc (nstep m ev k) z z' -> nodeId_ z = k -> self_active z -> self_active z'.
Proof.
  induction 1 as [|z z1 z' H _ IH]; [done|]. intros Hk Hs. apply IH; [|by eapply nstep_self].
  unfold nodeId_. by rewrite (nstep_config _ _ _ _ _ H).
Qed.

Lemma remove_first_subset id l x : x ∈ remove_first id l -> x ∈ l.
Proof.
  induction l as [|y l IH]; simpl; [done|]. case_match; [by right|]. rewrite !elem_of_cons. intros [-> | Hx]; [by left|]. right. auto.
Qed.

Definition is_init (ev : Event) : bool := match ev with EInitialize _ _ _ _ => true | _ => false end.

Definition min_ok (m : Z) (ev : Event) : Prop :=
  match ev with EInitialize _ _ _ minNodes => (m <= u64 minNodes)%Z | _ => True end.

Lemma first_ping_csteps m ev me nets cl z :
  cluster_ok m cl -> cl !! me = Some z ->
  csteps m ev cl (FirstPing nets me cl).
Proof.
  intros Hok Hz. unfold FirstPing. set (cl1 := here me _ cl).
  assert (H1 : csteps m ev cl cl1) by (apply csteps_here; intros; apply nstep_once; constructor).
  pose proof (csteps_ok m ev _ _ H1 Hok) as Hok1. pose proof (PerformPingCycle_csteps m ev nets true me cl1 Hok1) as H2.
  etrans; [exact H1|]. etrans; [exact H2|]. apply csteps_here. intros z2 Hz2. apply nstep_once, ns_loop.
  assert (Hz1 : cl1 !! me = Some (PerformInitialDiscovery (net_ambient (nets 0)) z)) by (unfold cl1, here; by rewrite lookup_alter_eq, Hz).
  destruct (csteps_dom _ _ _ _ _ _ H2 Hz1) as (z2' & E & Hr). simplify_eq.
  destruct (Hok _ _ Hz) as [Hid Hc _ _ Hs _]. destruct (Hok1 _ _ Hz1) as [Hid1 _ _ _ _ _].
  eapply nsteps_self; [exact Hr | done |].
  destruct (decide (type_ z = VOTING_ONLY_NODE)) as [Hv|Hv]; [|apply initial_self; congruence].
  unfold PerformInitialDiscovery. rewrite Hv, Z.eqb_refl. apply Hs. by right.
Qed.

Lemma step_csteps m ev cl cl' : cluster_ok m cl -> is_init ev = false -> step ev cl = Some cl' -> csteps m ev cl cl'.
Proof.
  intros Hok Hi. destruct ev; try done; cbn [step]; unfold at_node; destruct (cl !! me) as [z|] eqn:Ez; try done;
    cbn beta; try (case_match eqn:Hg; [|done]); try intros [= <-].
  - by apply (first_ping_csteps m _ me nets cl z).
  - by apply DiscoveryLoop_csteps.
  - apply bool_decide_eq_true in Hg. etrans; [apply (csteps_here m _ me)|].
    + intros z' _. apply nstep_once. constructor; [by left | intros x; apply remove_first_subset | done].
    + apply SendJoinRequest_csteps. intros ->. by apply (ok_pending _ _ _ (Hok _ _ Ez)).
  - destruct (inviting_ z) as [start|] eqn:Ei; [|done]. intros [= <-]. apply csteps_here. intros z' E. simplify_eq. apply nstep_once. by constructor.
  - unfold ElectionLoop. rewrite Ez. case_match; [by apply RunElection_csteps | intros [= <-]; reflexivity].
  - by apply PerformPingCycle_csteps.
  - apply csteps_here. intros. apply nstep_once. constructor.
  - apply csteps_here. intros z' _. unfold Stop. case_match; [|constructor]. apply nstep_once. constructor; [by right | done | done].
Qed.

Lemma init_ok m local remote jt mn cl :
  (m <= u64 mn)%Z -> cluster_ok m cl -> cluster_ok m (InitializeZenDiscovery local remote jt mn cl).
Proof.
  intros Hm Hok. unfold InitializeZenDiscovery. set (name := rn_name _). set (cl1 := match cl !! name with Some _ => cl | None => _ end).
  assert (H1 : cluster_ok m cl1).
  { unfold cl1. destruct (cl !! name) as [z0|] eqn:E0; [done|]. intros k z. destruct (decide (k = name)) as [->|Hne].
    - rewrite lookup_insert_eq. intros [= <-]. split; try done; [apply not_elem_of_nil | by intros [|] | by intros [|]].
    - rewrite lookup_insert_ne by done. apply Hok. }
  eapply (csteps_ok m (EStop "")); [|exact H1]. apply (csteps_here m (EStop "") name). intros z _.
  eapply rtc_l; [apply ns_module | apply nstep_once; constructor].
Qed.

Lemma init_not_elected local remote jt mn cl id z z' :
  cl !! id = Some z -> InitializeZenDiscovery local remote jt mn cl !! id = Some z' ->
  state_ z <> ELECTED_MASTER -> state_ z' <> ELECTED_MASTER.
Proof.
  intros Hz. unfold InitializeZenDiscovery. set (name := rn_name _). destruct (decide (id = name)) as [->|Hne].
  - rewrite Hz, lookup_alter_eq, Hz. intros [= <-]. unfold Start. by case_match.
  - rewrite lookup_alter_ne by done. destruct (cl !! name); [|rewrite lookup_insert_ne by done]; rewrite Hz; by intros [= <-].
Qed.

Lemma step_ok m ev cl cl' : min_ok m ev -> step ev cl = Some cl' -> cluster_ok m cl -> cluster_ok m cl'.
Proof.
  intros Hm Hs Hok. destruct (is_init ev) eqn:Hi.
  - destruct ev; try done. injection Hs as <-. by apply init_ok.
  - eapply csteps_ok; [by eapply step_csteps | done].
Qed.

Lemma run_ok m evs cl cl' : Forall (min_ok m) evs -> run evs cl = Some cl' -> cluster_ok m cl -> cluster_ok m cl'.
Proof.
  intros Hm. revert cl. induction Hm as [|ev evs Hev _ IH]; intros cl; simpl; [by intros [= <-]|].
  destruct (step ev cl) as [cl1|] eqn:E; [|done]. intros Hr Hok. eapply IH; [exact Hr|]. by eapply step_ok.
Qed.

Lemma empty_ok m : cluster_ok m ∅.
Proof. intros k z. by rewrite lookup_empty. Qed.

Lemma run_app evs1 evs2 cl : run (evs1 ++ evs2) cl = match run evs1 cl with Some cl' => run evs2 cl' | None => None end.
Proof. revert cl. induction evs1 as [|ev evs IH]; intros cl; simpl; [done|]. destruct (step ev cl); [apply IH | done]. Qed.
