(* ===== verification/ElectionResults.v ===== *)
(** What the operations of the election do. *)

From S2P Require Import Prelude StoreTypes MsgPacker MsgCodec MsgBase MsgRequests MsgResponses MsgFactory StoreInterface Daemon NodeAddress Election ElectionNet ElectionInv.
Import ElectionModule Zen.

(** ** The smallest active node *)

Definition string_le (a b : string) : Prop := string_lt b a = false.

Lemma string_le_refl a : string_le a a.
Proof. apply string_lt_irrefl. Qed.

Lemma string_lt_le a b : string_lt a b = true -> string_le a b.
Proof.
  unfold string_le. intros H. destruct (string_lt b a) eqn:E; [|done]. pose proof (string_lt_trans _ _ _ H E) as H'.
  by rewrite string_lt_irrefl in H'.
Qed.

Lemma string_le_trans a b c : string_le a b -> string_le b c -> string_le a c.
Proof.
  unfold string_le. intros H1 H2. destruct (string_lt c a) eqn:E; [|done].
  destruct (string_lt b c) eqn:Ebc; [rewrite (string_lt_trans _ _ _ Ebc E) in H1; done|].
  rewrite (string_lt_total _ _ Ebc H2) in H1. congruence.
Qed.

Lemma string_le_antisym a b : string_le a b -> string_le b a -> a = b.
Proof. intros H1 H2. by apply string_lt_total. Qed.

(** [x] is the least of the node itself and the active nodes of its table. *)
Definition is_smallest (z : ZenDiscovery) (x : string) : Prop :=
  (x = nodeId_ z \/ exists n, nodes_ z !! x = Some n /\ cn_isActive n = true) /\ string_le x (nodeId_ z) /\
  forall id n, nodes_ z !! id = Some n -> cn_isActive n = true -> string_le x id.

Lemma smallest_fold (l : list (string * ClusterNode)) x0 :
  let x := foldl (fun minId entry => if string_lt entry.1 minId && cn_isActive entry.2 then entry.1 else minId) x0 l in
  (x = x0 \/ exists n, (x, n) ∈ l /\ cn_isActive n = true) /\ string_le x x0 /\
  forall id n, (id, n) ∈ l -> cn_isActive n = true -> string_le x id.
Proof.
  revert x0. induction l as [|[id n] l IH]; intros x0; cbn [foldl fst snd].
  - split_and!; [by left | apply string_le_refl |]. intros ? ? []%not_elem_of_nil.
  - set (x1 := if string_lt id x0 && cn_isActive n then id else x0). specialize (IH x1). cbn zeta in *.
    destruct IH as (Hin & Hle & Hall).
    assert (H1 : (x1 = x0 \/ x1 = id /\ cn_isActive n = true) /\ string_le x1 x0 /\ (cn_isActive n = true -> string_le x1 id)).
    { subst x1. destruct (string_lt id x0) eqn:E, (cn_isActive n) eqn:Ea; simpl; split_and!; try done; auto using string_le_refl, string_lt_le. }
    destruct H1 as (Hx & Hx0 & Hxid). split_and!.
    + destruct Hin as [->|(n' & Hn' & Ha)]; [|right; exists n'; split; [by right | done]].
      destruct Hx as [->|[-> Ha]]; [by left|]. right. exists n. split; [by left | done].
    + by eapply string_le_trans.
    + intros id' n' [[= -> ->]|Hin']%elem_of_cons Ha; [eapply string_le_trans; [exact Hle | by apply Hxid] | by eapply Hall].
Qed.

Lemma GetSmallestNodeId_spec z : is_smallest z (GetSmallestNodeId z).
Proof.
  pose proof (smallest_fold (entries (nodes_ z)) (nodeId_ z)) as H. fold (GetSmallestNodeId z) in H. cbn zeta in H.
  destruct H as (H1 & H2 & H3). split_and!; [|exact H2|].
  - destruct H1 as [->|(n & Hn & Ha)]; [by left|]. right. exists n. split; [by apply elem_of_node_entries | done].
  - intros id n Hn. apply H3. by apply elem_of_node_entries.
Qed.

Lemma is_smallest_unique z x y : is_smallest z x -> is_smallest z y -> x = y.
Proof.
  intros (Hx & Hxs & Hxl) (Hy & Hys & Hyl). apply string_le_antisym.
  - destruct Hy as [->|(n & Hn & Ha)]; [done | by eapply Hxl].
  - destruct Hx as [->|(n & Hn & Ha)]; [done | by eapply Hyl].
Qed.

(** ** Polling *)

Lemma poll_elected m k start now z :
  node_ok m k z -> inviting_ z = Some start -> state_ z <> ELECTED_MASTER -> state_ (PollInvitation start now z) = ELECTED_MASTER ->
  PollInvitation start now z = set_threads (running_ z) (looping_ z) None (pendingJoins_ z) (HandleAllJoined z) /\
  (m <= Z.of_nat (size (joinsReceived_ (electionModule_ z))))%Z.
Proof.
  intros Hok Hi Hne. unfold PollInvitation, CheckElectionResult.
  destruct (HandleAllJoined_fields z) as (_ & _ & _ & _ & _ & Hl & _ & Hp & _ & Hr).
  repeat case_match; intros Hs; simplify_eq; try done; (split; [by rewrite Hl, Hp, Hr|]).
  - match goal with E : Z.leb _ _ = true |- _ => apply Z.leb_le in E end. pose proof (ok_minimum _ _ _ Hok). lia.
  - match goal with E : Z.leb _ _ = true |- _ => apply Z.leb_le in E end.
    assert (m <= Z.of_nat (length (tempNodeList_ z)))%Z; [|lia]. apply (ok_temp _ _ _ Hok). right. by rewrite Hi.
Qed.

(** ** Requests, node by node *)

Section Requests.
Context (net : Net) (me : string).

Lemma connect_other id cl k : k <> me -> (ConnectToRpcNode net me id cl).2 !! k = cl !! k.
Proof.
  intros Hk. unfold ConnectToRpcNode. destruct (NetRpcConfig.ParseRpcNodeFromId id). repeat case_match; try done.
  unfold here. cbn [snd]. by rewrite lookup_alter_ne.
Qed.

Lemma connect_me id cl :
  (ConnectToRpcNode net me id cl).2 = cl \/ (ConnectToRpcNode net me id cl).2 = here me (saw (net_ambient net) id false) cl.
Proof. unfold ConnectToRpcNode. destruct (NetRpcConfig.ParseRpcNodeFromId id). repeat case_match; auto. Qed.

(** The node can be reached: its id parses, and the transport connects and delivers. *)
Definition reaches (id : string) : Prop :=
  (NetRpcConfig.ParseRpcNodeFromId id).1 = UBSM_OK /\ net_Connect net id = 0%Z /\ (net_SendMsg net id).1 = 0%Z.

Definition reachesb (id : string) : bool :=
  Z.eqb (NetRpcConfig.ParseRpcNodeFromId id).1 UBSM_OK && Z.eqb (net_Connect net id) 0 && Z.eqb (net_SendMsg net id).1 0.

Lemma reachesb_ok id : reachesb id = true -> reaches id.
Proof. unfold reachesb, reaches. rewrite !andb_true_iff, !Z.eqb_eq. tauto. Qed.

Lemma connect_ok id cl : reaches id -> ConnectToRpcNode net me id cl = (0%Z, cl).
Proof.
  intros (Hp & Hc & _). unfold ConnectToRpcNode. destruct (NetRpcConfig.ParseRpcNodeFromId id) as [r n]. simpl in Hp. subst r.
  by rewrite Hc.
Qed.

Lemma SendMsg_other {Rsp} h (rsp : Rsp) id cl k : k <> id -> (SendMsg net h rsp id cl).2 !! k = cl !! k.
Proof.
  intros Hk. unfold SendMsg. destruct (net_SendMsg net id) as [r b]. case_match; [|done].
  destruct (h rsp (cl !! id)) as [[x y] i]. cbn [snd]. by rewrite lookup_partial_alter_ne.
Qed.

Lemma SendMsg_reaches {Rsp} h (rsp : Rsp) id cl :
  reaches id -> SendMsg net h rsp id cl =
    (0%Z, (h rsp (cl !! id)).1.2, partial_alter (fun _ => (h rsp (cl !! id)).2) id cl).
Proof.
  intros (_ & _ & Hs). unfold SendMsg. destruct (net_SendMsg net id) as [r b]. simpl in Hs. subst r. simpl.
  by destruct (h rsp (cl !! id)) as [[x y] i].
Qed.

(** ** The master's round *)

Lemma broadcast_other nodes id cl k : k <> me -> k <> id -> (SendBroadcastRequest net me nodes id cl).2 !! k = cl !! k.
Proof.
  intros Hk Hid. unfold SendBroadcastRequest. set (req := mkBroadcastRequest _ _ _ _). pose proof (connect_other id cl k Hk) as HC.
  destruct (ConnectToRpcNode net me id cl) as [r cl1]. cbn [snd] in HC. case_match; [exact HC|].
  pose proof (SendMsg_other (BroadCastRequestInfo req) default_query id cl1 k Hid) as HS. destruct (SendMsg _ _ _ _ _) as [[r2 a] cl2].
  cbn [snd] in *. by rewrite HS.
Qed.

Lemma broadcast_me nodes id cl z :
  id <> me -> cl !! me = Some z ->
  exists z', (SendBroadcastRequest net me nodes id cl).2 !! me = Some z' /\ (z' = z \/ z' = saw (net_ambient net) id false z).
Proof.
  intros Hid Hz. unfold SendBroadcastRequest. set (req := mkBroadcastRequest _ _ _ _).
  assert (HC : exists z', (ConnectToRpcNode net me id cl).2 !! me = Some z' /\ (z' = z \/ z' = saw (net_ambient net) id false z)).
  { destruct (connect_me id cl) as [-> | ->]; [by exists z; auto|]. unfold here. rewrite lookup_alter_eq, Hz. eexists. split; [done | by right]. }
  destruct (ConnectToRpcNode net me id cl) as [r cl1]. cbn [snd] in HC. case_match; [exact HC|].
  pose proof (SendMsg_other (BroadCastRequestInfo req) default_query id cl1 me (not_eq_sym Hid)) as HS. destruct (SendMsg _ _ _ _ _) as [[r2 a] cl2].
  cbn [snd] in *. by rewrite HS.
Qed.

Lemma broadcasts_me (nodes : gmap string ClusterNode) (l : list (string * ClusterNode)) z cl :
  cl !! me = Some z ->
  exists z', foldl (fun cl entry =>
      if bool_decide (entry.1 <> me) && cn_isActive entry.2 then (SendBroadcastRequest net me nodes entry.1 cl).2 else cl) cl l !! me = Some z' /\
    config_ z' = config_ z /\ state_ z' = state_ z /\ electedMaster_ z' = electedMaster_ z.
Proof.
  revert cl z. induction l as [|[id n] l IH]; intros cl z Hz; cbn [foldl fst snd]; [by exists z|]. case_match eqn:Hc; [|by apply IH].
  apply andb_true_iff in Hc as [Hne%bool_decide_eq_true _]. destruct (broadcast_me nodes id cl z Hne Hz) as (z1 & Hz1 & Hor).
  destruct (IH _ _ Hz1) as (z' & Hz' & H1 & H2 & H3). exists z'. split; [done|]. rewrite H1, H2, H3.
  destruct Hor as [-> | ->]; [done|]. destruct (saw_fields (net_ambient net) id false z) as ((Ha & Hb & Hd & _) & _). done.
Qed.

End Requests.

(** The state of a master after its round. *)
Lemma MaintainAsMaster_me net me cl z :
  cl !! me = Some z -> nodeId_ z = me ->
  exists z', MaintainAsMaster net me cl !! me = Some z' /\
    state_ z' = (if Z.ltb (Z.of_nat (active_count z) + 1) (minimumMasterNodes_ (config_ z)) then MASTER_CANDIDATE else state_ z).
Proof.
  intros Hz Hid. unfold MaintainAsMaster. rewrite Hz. case_match.
  - unfold here. rewrite lookup_alter_eq, Hz. by eexists.
  - set (z1 := if has_voter z then z else _).
    assert (H1 : nodeId_ z1 = me /\ state_ z1 = state_ z) by (subst z1; by destruct (has_voter z)). destruct H1 as [Hi1 Hs1]. rewrite Hi1.
    destruct (broadcasts_me net me (nodes_ z1) (entries (nodes_ z1)) z1 (<[me := z1]> cl)) as (z' & Hz' & _ & Hs & _); [by rewrite lookup_insert_eq|].
    exists z'. split; [exact Hz' | congruence].
Qed.

(** The active nodes of the table other than the node itself. *)
Definition active_peers (z : ZenDiscovery) : gmap string ClusterNode :=
  filter (fun entry => entry.1 <> nodeId_ z /\ cn_isActive entry.2 = true) (nodes_ z).

Lemma active_count_size z : active_count z = size (filter (fun entry => cn_isActive entry.2 = true) (nodes_ z)).
Proof.
  unfold active_count. rewrite entries_perm, <- length_map_to_list. apply Permutation_length, NoDup_Permutation.
  - apply NoDup_filter, NoDup_map_to_list.
  - apply NoDup_map_to_list.
  - intros [k n]. rewrite list_elem_of_filter, !elem_of_map_to_list, map_lookup_filter_Some. simpl. tauto.
Qed.

Lemma active_count_self z : self_active z -> active_count z = S (size (active_peers z)).
Proof.
  unfold self_active. intros (n & Hn & Ha)%fmap_Some. rewrite active_count_size.
  rewrite <- (map_size_insert_None (nodeId_ z) n (active_peers z)).
  - f_equal. apply map_eq. intros k. destruct (decide (k = nodeId_ z)) as [->|Hk].
    + rewrite lookup_insert_eq. apply map_lookup_filter_Some. split; [exact Hn | by rewrite Ha].
    + rewrite lookup_insert_ne by done. unfold active_peers. apply option_eq. intros x. rewrite !map_lookup_filter_Some. simpl. tauto.
  - unfold active_peers. apply map_lookup_filter_None. right. simpl. tauto.
Qed.

Section Broadcast.
Context (net : Net) (me : string) (nodes : gmap string ClusterNode).

Lemma broadcast_reaches id cl :
  reaches net id ->
  (SendBroadcastRequest net me nodes id cl).2 =
    partial_alter (fun _ => HandleBroadCastRequest (from_option GetCurrentMaster "" (cl !! me)) nodes (net_lockInit net) <$> cl !! id) id cl.
Proof.
  intros Hr. unfold SendBroadcastRequest. rewrite connect_ok by done. cbn [Z.eqb negb]. rewrite SendMsg_reaches by done. cbn [snd].
  apply map_eq. intros k. destruct (decide (k = id)) as [->|Hk]; [rewrite !lookup_partial_alter_eq | by rewrite !lookup_partial_alter_ne].
  destruct (cl !! id) as [zp|]; [|done]. simpl. by rewrite list_to_map_entries.
Qed.

Lemma broadcasts_reach l cl z :
  NoDup l.*1 -> cl !! me = Some z -> (forall id n, (id, n) ∈ l -> id <> me -> cn_isActive n = true -> reaches net id) ->
  let cl' := foldl (fun cl entry =>
    if bool_decide (entry.1 <> me) && cn_isActive entry.2 then (SendBroadcastRequest net me nodes entry.1 cl).2 else cl) cl l in
  (forall k, k ∉ l.*1 -> cl' !! k = cl !! k) /\
  (forall id n, (id, n) ∈ l -> id <> me -> cn_isActive n = true ->
    cl' !! id = HandleBroadCastRequest (electedMaster_ z) nodes (net_lockInit net) <$> cl !! id).
Proof.
  revert cl. induction l as [|[id n] l IH]; intros cl Hnd Hz Hr; cbn [foldl fst snd fmap list_fmap] in *.
  { split; [done|]. intros ? ? []%not_elem_of_nil. }
  apply NoDup_cons in Hnd as [Hni Hnd]. set (cl1 := if _ && _ then _ else cl).
  assert (H1 : cl1 !! me = Some z /\ (forall k, k <> id -> cl1 !! k = cl !! k) /\
    (id <> me -> cn_isActive n = true -> cl1 !! id = HandleBroadCastRequest (electedMaster_ z) nodes (net_lockInit net) <$> cl !! id)).
  { subst cl1. case_match eqn:Hc; [|split_and!; [done | done |]; intros Hne Ha; rewrite bool_decide_eq_true_2, Ha in Hc by done; done].
    apply andb_true_iff in Hc as [Hne%bool_decide_eq_true Ha]. rewrite broadcast_reaches by (apply (Hr id n); [left | done | done]).
    rewrite Hz. simpl. split_and!; [by rewrite lookup_partial_alter_ne | intros; by rewrite lookup_partial_alter_ne |].
    intros _ _. by rewrite lookup_partial_alter_eq. }
  destruct H1 as (Hme & Hoth & Hid). destruct (IH cl1 Hnd Hme) as [IH1 IH2]; [intros; eapply Hr; [right|..]; done|]. split.
  - intros k [Hk Hkl]%not_elem_of_cons. rewrite IH1 by done. by apply Hoth.
  - intros id' n' [[= -> ->]|Hin]%elem_of_cons Hne Ha.
    + rewrite IH1 by done. by apply Hid.
    + rewrite (IH2 id' n') by done. f_equal. apply Hoth. intros ->. apply Hni. by apply (list_elem_of_fmap_2 fst _ (id, n')).
Qed.

End Broadcast.

(** The table that a master sends: with a voter when it had none. *)
Definition with_voter (z : ZenDiscovery) : ZenDiscovery :=
  if has_voter z then z else set_nodes (alter (set_nodeType VOTING_ONLY_NODE) (GetBiggestNodeId z) (nodes_ z)) z.

Lemma with_voter_active z id : cn_isActive <$> nodes_ (with_voter z) !! id = cn_isActive <$> nodes_ z !! id.
Proof. unfold with_voter. case_match; [done|]. cbn [set_nodes nodes_]. by apply alter_active. Qed.

Lemma MaintainAsMaster_reaches net me cl z :
  cl !! me = Some z -> nodeId_ z = me ->
  (minimumMasterNodes_ (config_ z) <= Z.of_nat (active_count z) + 1)%Z ->
  (forall id n, nodes_ z !! id = Some n -> id <> me -> cn_isActive n = true -> reaches net id) ->
  forall id n zp, nodes_ z !! id = Some n -> id <> me -> cn_isActive n = true -> cl !! id = Some zp ->
    MaintainAsMaster net me cl !! id = Some (HandleBroadCastRequest (electedMaster_ z) (nodes_ (with_voter z)) (net_lockInit net) zp).
Proof.
  intros Hz Hid Hc Hr id n zp Hn Hne Ha Hzp. unfold MaintainAsMaster. rewrite Hz, (proj2 (Z.ltb_ge _ _) Hc).
  fold (with_voter z). set (z1 := with_voter z).
  assert (Hi1 : nodeId_ z1 = me /\ electedMaster_ z1 = electedMaster_ z) by (unfold z1, with_voter; by destruct (has_voter z)).
  destruct Hi1 as [Hi1 Hm1]. rewrite Hi1.
  assert (Hact : forall k x, (k, x) ∈ entries (nodes_ z1) -> cn_isActive x = true -> exists x0, nodes_ z !! k = Some x0 /\ cn_isActive x0 = true).
  { intros k x Hx%elem_of_node_entries Hxa. pose proof (with_voter_active z k) as E. fold z1 in E. rewrite Hx in E. simpl in E. rewrite Hxa in E.
    symmetry in E. by apply fmap_Some in E as (x0 & ? & ?); exists x0. }
  pose proof (with_voter_active z id) as E. fold z1 in E. rewrite Hn in E. simpl in E. rewrite Ha in E. apply fmap_Some in E as (n1 & Hn1 & Ha1).
  destruct (broadcasts_reach net me (nodes_ z1) (entries (nodes_ z1)) (<[me := z1]> cl) z1) as [_ H].
  - apply NoDup_entries.
  - by rewrite lookup_insert_eq.
  - intros k x Hx Hk Hxa. destruct (Hact k x Hx Hxa) as (x0 & ? & ?). by eapply Hr.
  - rewrite (H id n1); [|by apply elem_of_node_entries|done|done]. rewrite lookup_insert_ne by done. rewrite Hzp. simpl. by rewrite Hm1.
Qed.

(** ** Voting *)

Lemma wait_votes_total timeout votes mn clock :
  (forall i, (Z.of_nat i * 1000000000 <= clock i)%Z) -> exists b, wait_votes timeout votes mn clock 0 (voting_turns timeout) = Some b.
Proof.
  intros Hc. unfold voting_turns.
  assert (H : forall fuel i, Z.to_nat (timeout / 1000) + 1 < i + fuel -> i <= Z.to_nat (timeout / 1000) + 1 ->
    exists b, wait_votes timeout votes mn clock i fuel = Some b); [|apply H; lia].
  induction fuel as [|fuel IH]; intros i Hf Hi; [lia|]. simpl. case_match eqn:E; [by eexists|]. case_match; [by eexists|].
  apply IH; [lia|]. apply Z.ltb_ge in E. specialize (Hc i). unfold ms in E. pose proof (Z.div_mod timeout 1000). pose proof (Z.mod_pos_bound timeout 1000).
  destruct (decide (i = Z.to_nat (timeout / 1000) + 1)) as [->|]; lia.
Qed.

Lemma wait_votes_true timeout votes mn clock i fuel : wait_votes timeout votes mn clock i fuel = Some true -> (mn <= votes)%Z.
Proof.
  revert i. induction fuel as [|fuel IH]; intros i; simpl; [done|]. case_match; [done|]. case_match eqn:E; [|apply IH].
  intros _. by apply Z.leb_le.
Qed.

(** What voting leaves alone: at a peer, all but the election module; at the
    node that holds the election, its state. *)
Definition peer_same (z z' : ZenDiscovery) : Prop := config_ z' = config_ z /\ state_ z' = state_ z /\ nodes_ z' = nodes_ z.
Definition own_same (z z' : ZenDiscovery) : Prop := config_ z' = config_ z /\ state_ z' = state_ z.

#[export] Instance peer_same_preorder : PreOrder peer_same.
Proof. split; [done|]. intros z1 z2 z3 (? & ? & ?) (? & ? & ?). repeat split; congruence. Qed.

#[export] Instance own_same_preorder : PreOrder own_same.
Proof. split; [done|]. intros z1 z2 z3 (? & ?) (? & ?). split; congruence. Qed.

Lemma peer_same_smallest z z' : peer_same z z' -> GetSmallestNodeId z' = GetSmallestNodeId z.
Proof. intros (Hc & _ & Hn). unfold GetSmallestNodeId, nodeId_. by rewrite Hc, Hn. Qed.

Lemma raise_term_same t z : peer_same z (raise_term t z).
Proof. unfold raise_term. by case_match. Qed.

Definition votes (z : ZenDiscovery) : gset string := votesReceived_ (electionModule_ z).

Section Votes.
Context (net : Net) (me tm : string).

Lemma saw_votes am id b z : own_same z (saw am id b z) /\ votes (saw am id b z) = votes z.
Proof. unfold saw, UpdateNodeLastSeen. by case_match. Qed.

Lemma vote_step id t cl z :
  id <> me -> cl !! me = Some z ->
  let cl' := (SendVoteRequest net me id tm t cl).2 in
  (forall k, k <> me -> option_Forall2 peer_same (cl !! k) (cl' !! k)) /\
  exists z', cl' !! me = Some z' /\ own_same z z' /\
    (votes z' = votes z \/ votes z' = {[id]} ∪ votes z /\ exists zv, cl !! id = Some zv /\ GetSmallestNodeId zv = tm).
Proof.
  intros Hid Hz. unfold SendVoteRequest. set (req := mkVoteRequest _ _ _ _).
  pose proof (connect_other net me id cl) as HC. pose proof (connect_me net me id cl) as HM.
  destruct (ConnectToRpcNode net me id cl) as [r cl1]. cbn [snd] in *.
  assert (H1 : exists z1, cl1 !! me = Some z1 /\ own_same z z1 /\ votes z1 = votes z).
  { destruct HM as [-> | ->]; [by exists z|]. unfold here. rewrite lookup_alter_eq, Hz. eexists. split; [done|]. apply saw_votes. }
  destruct H1 as (z1 & Hz1 & Hown & Hv1). case_match.
  { cbn [snd]. split; [intros k Hk; rewrite HC by done; by apply option_Forall2_refl|]. exists z1. auto. }
  assert (HS : (SendMsg net (VoteRequestInfo req) default_vote id cl1).2 !! me = Some z1 /\
    (forall k, k <> me -> option_Forall2 peer_same (cl !! k) ((SendMsg net (VoteRequestInfo req) default_vote id cl1).2 !! k)) /\
    (RpcVoteInfoResponse_isGranted_ (SendMsg net (VoteRequestInfo req) default_vote id cl1).1.2 = true ->
      exists zv, cl !! id = Some zv /\ GetSmallestNodeId zv = tm)).
  { rewrite SendMsg_other by congruence. split; [done|]. unfold SendMsg. destruct (net_SendMsg net id) as [r2 b]. case_match.
    2: { split; [|done]. intros k Hk. cbn [snd]. rewrite HC by done. by apply option_Forall2_refl. }
    rewrite (HC id Hid). destruct (cl !! id) as [zv|] eqn:Ev; cbn [snd fst VoteRequestInfo HandleVoteRequest]; split.
    - intros k Hk. destruct (decide (k = id)) as [->|Hki]; [rewrite lookup_partial_alter_eq, Ev; constructor; apply raise_term_same|].
      rewrite lookup_partial_alter_ne, HC by done. by apply option_Forall2_refl.
    - case_match; [|done]. cbn. intros Hg%bool_decide_eq_true. by exists zv.
    - intros k Hk. destruct (decide (k = id)) as [->|Hki]; [rewrite lookup_partial_alter_eq, Ev; constructor|].
      rewrite lookup_partial_alter_ne, HC by done. by apply option_Forall2_refl.
    - by case_match. }
  destruct (SendMsg _ _ _ _ _) as [[r2 a] cl2]. cbn [snd fst] in *. destruct HS as (Hm2 & Ho2 & Hg2). case_match; cbn [snd].
  { split; [done|]. exists z1. auto. }
  unfold here. split; [intros k Hk; rewrite lookup_alter_ne by done; by apply Ho2|].
  rewrite lookup_alter_eq, Hm2. eexists. split; [done|]. unfold HandleVoteResponse. case_match; [|auto].
  split; [exact Hown|]. right. split; [|by apply Hg2]. unfold votes in *. cbn. by rewrite Hv1.
Qed.

(** The votes of an election come from nodes whose smallest active node is the candidate. *)
Lemma votes_fold l t (cl0 cl : Cluster) z :
  cl !! me = Some z ->
  (forall k, k <> me -> option_Forall2 peer_same (cl0 !! k) (cl !! k)) ->
  (forall v, v ∈ votes z -> v = me \/ exists zv, cl0 !! v = Some zv /\ GetSmallestNodeId zv = tm) ->
  let cl' := foldl (fun cl id => if bool_decide (id <> me) then (SendVoteRequest net me id tm t cl).2 else cl) cl l in
  (forall k, k <> me -> option_Forall2 peer_same (cl0 !! k) (cl' !! k)) /\
  exists z', cl' !! me = Some z' /\ own_same z z' /\
    (forall v, v ∈ votes z' -> v = me \/ exists zv, cl0 !! v = Some zv /\ GetSmallestNodeId zv = tm).
Proof.
  revert cl z. induction l as [|id l IH]; intros cl z Hz Hp Hv; cbn [foldl]; [split; [done|]; by exists z|].
  case_match eqn:Hc; [|by apply IH]. apply bool_decide_eq_true in Hc.
  destruct (vote_step id t cl z Hc Hz) as [Hp1 (z1 & Hz1 & Hown & Hvote)].
  destruct (IH _ z1 Hz1) as [Hp2 (z2 & Hz2 & Hown2 & Hv2)].
  - intros k Hk. specialize (Hp k Hk). specialize (Hp1 k Hk). destruct Hp as [x y Hxy|]; inversion Hp1; subst; constructor. by etrans.
  - destruct Hvote as [-> | [-> (zv & Hzv & Hs)]]; [done|]. intros v [Hin%elem_of_singleton|Hin]%elem_of_union; [|by apply Hv]. subst v. right.
    specialize (Hp id Hc). rewrite Hzv in Hp. inversion Hp as [x y Hxy E1 E2|]; subst. exists x. split; [done|].
    by rewrite <- (peer_same_smallest _ _ Hxy).
  - split; [exact Hp2|]. exists z2. split_and!; [done | by etrans | done].
Qed.

End Votes.

(** ** A whole election *)

Section Election.
Context (net : Net) (clock : nat -> Z) (me : string).

Lemma trans_others l id t cl k : k <> me -> k <> id -> (SendTransElectedRequest net me l id t cl).2 !! k = cl !! k.
Proof.
  intros Hk Hid. unfold SendTransElectedRequest. set (req := mkTransElectedRequest _ _ _ _). pose proof (connect_other net me id cl k Hk) as HC.
  destruct (ConnectToRpcNode net me id cl) as [r cl1]. cbn [snd] in HC. case_match; [exact HC|].
  pose proof (SendMsg_other net (SendTransElectedInfo req) default_query id cl1 k Hid) as HS. destruct (SendMsg _ _ _ _ _) as [[r2 a] cl2].
  cbn [snd] in *. by rewrite HS.
Qed.

Lemma trans_me l id t cl z :
  id <> me -> cl !! me = Some z ->
  exists z', (SendTransElectedRequest net me l id t cl).2 !! me = Some z' /\ own_same z z' /\ votes z' = votes z.
Proof.
  intros Hid Hz. unfold SendTransElectedRequest. set (req := mkTransElectedRequest _ _ _ _).
  assert (HC : exists z', (ConnectToRpcNode net me id cl).2 !! me = Some z' /\ own_same z z' /\ votes z' = votes z).
  { destruct (connect_me net me id cl) as [-> | ->]; [by exists z|]. unfold here. rewrite lookup_alter_eq, Hz. eexists. split; [done|]. apply saw_votes. }
  destruct (ConnectToRpcNode net me id cl) as [r cl1]. cbn [snd] in HC. case_match; [exact HC|].
  pose proof (SendMsg_other net (SendTransElectedInfo req) default_query id cl1 me (not_eq_sym Hid)) as HS. destruct (SendMsg _ _ _ _ _) as [[r2 a] cl2].
  cbn [snd] in *. by rewrite HS.
Qed.

(** The result of counting: only the candidate becomes temporary master, and
    only with enough votes. *)
Lemma ProcessVotingResults_outcome tm l z cl z2 :
  cl !! me = Some z2 ->
  exists z', ProcessVotingResults net me tm l z cl !! me = Some z' /\ votes z' = votes z2 /\ (tm <> me -> own_same z2 z') /\
  (forall k, k <> me -> k <> tm -> ProcessVotingResults net me tm l z cl !! k = cl !! k).
Proof.
  intros Hz. unfold ProcessVotingResults. set (cl1 := here me _ cl).
  assert (H1 : cl1 !! me = Some (notify VOTING_COMPLETED "" "" z2)) by (unfold cl1, here; by rewrite lookup_alter_eq, Hz).
  assert (Ho : forall k, k <> me -> cl1 !! k = cl !! k) by (intros; unfold cl1, here; by rewrite lookup_alter_ne).
  unfold here at 1 4. repeat case_match.
  - rewrite lookup_alter_eq, H1. eexists. split_and!; [done | done | done |]. intros k Hk _. rewrite lookup_alter_ne by done. by apply Ho.
  - apply bool_decide_eq_true in H0. destruct (trans_me l tm (currentTerm_ (electionModule_ z)) cl1 _ H0 H1) as (z3 & Hz3 & Hown & Hv).
    unfold here. rewrite lookup_alter_eq, Hz3. eexists. split_and!; [done | exact Hv | intros _; exact Hown |].
    intros k Hk Hkt. rewrite lookup_alter_ne, trans_others by done. by apply Ho.
  - apply bool_decide_eq_false, dec_stable in H0. unfold here. rewrite lookup_alter_eq, H1. eexists.
    split_and!; [done | unfold BecomeTempMaster; by case_match | done |].
    intros k Hk _. rewrite lookup_alter_ne by done. by apply Ho.
Qed.

Definition selected (z : ZenDiscovery) : string := SelectTemporaryMaster (CollectNodeInfo z).

Lemma ConductVoting_outcome tm c z cl z1 :
  cl !! me = Some z1 -> votes z1 = ∅ ->
  let r := ConductVoting net clock me tm c z cl in
  (forall k, k <> me -> option_Forall2 peer_same (cl !! k) (r.2 !! k)) /\
  exists z2, r.2 !! me = Some z2 /\ own_same z1 z2 /\
    (forall v, v ∈ votes z2 -> v = me \/ exists zv, cl !! v = Some zv /\ GetSmallestNodeId zv = tm) /\
    (r.1 = Some true -> (minimum_size z <= Z.of_nat (size (votes z2)))%Z) /\
    ((forall i, (Z.of_nat i * 1000000000 <= clock i)%Z) -> r.1 <> None).
Proof.
  intros Hz1 Hv1. unfold ConductVoting. cbn [fst snd]. set (cl1 := here me _ cl).
  assert (H1 : cl1 !! me = Some (on_module (RecordVote me) z1)) by (unfold cl1, here; by rewrite lookup_alter_eq, Hz1).
  destruct (votes_fold net me tm (sorted_ids (vote_targets c)) (currentTerm_ (electionModule_ z)) cl cl1 _ H1) as [Hp (z2 & Hz2 & Hown & Hv)].
  - intros k Hk. unfold cl1, here. rewrite lookup_alter_ne by done. by apply option_Forall2_refl.
  - intros v. unfold votes in *. cbn. rewrite Hv1, union_empty_r_L, elem_of_singleton. auto.
  - split; [exact Hp|]. exists z2. split; [exact Hz2|]. split; [exact Hown|]. split; [exact Hv|].
    unfold votes_of. rewrite Hz2. cbn [from_option]. split; [apply wait_votes_true|].
    intros Hc. destruct (wait_votes_total (electionTimeoutMs_ (config_ z)) (Z.of_nat (size (votesReceived_ (electionModule_ z2)))) (minimum_size z) clock Hc) as (b & ->). done.
Qed.

Lemma RunElection_outcome cl z :
  cl !! me = Some z -> electionInProgress_ (electionModule_ z) = false ->
  ((forall i, (Z.of_nat i * 1000000000 <= clock i)%Z) -> RunElection net clock me cl <> None) /\
  forall cl', RunElection net clock me cl = Some cl' ->
  exists z', cl' !! me = Some z' /\ electionInProgress_ (electionModule_ z') = false /\
  forall x zx zx', cl !! x = Some zx -> cl' !! x = Some zx' -> state_ zx <> TEMP_MASTER -> state_ zx' = TEMP_MASTER ->
    x = selected z /\ (minimum_size z <= Z.of_nat (size (votes z')))%Z /\
    forall v, v ∈ votes z' -> v = me \/ exists zv, cl !! v = Some zv /\ GetSmallestNodeId zv = x.
Proof.
  intros Hz Hp. unfold RunElection. rewrite Hz, Hp. set (z1 := begin_election z). set (cl1 := <[me := z1]> cl).
  assert (H1 : cl1 !! me = Some z1) by (unfold cl1; by rewrite lookup_insert_eq).
  assert (Ho1 : forall k, k <> me -> cl1 !! k = cl !! k) by (intros; unfold cl1; by rewrite lookup_insert_ne).
  change (CollectNodeInfo z1) with (CollectNodeInfo z). change (minimum_size z1) with (minimum_size z). case_match.
  { split; [done|]. intros cl' [= <-]. unfold here. rewrite lookup_alter_eq, H1. eexists. split_and!; [done | done |].
    intros x zx zx' Hx Hx' Hs Hs'. destruct (decide (x = me)) as [->|Hxm].
    - rewrite lookup_alter_eq, H1 in Hx'. injection Hx' as <-. simplify_eq.
    - rewrite lookup_alter_ne, Ho1 in Hx' by done. congruence. }
  destruct (ConductVoting_outcome (SelectTemporaryMaster (CollectNodeInfo z)) (CollectNodeInfo z) z1 cl1 z1 H1) as [Hpeer (z2 & Hz2 & Hown & Hv & Hmin & Htot)]; [done|].
  destruct (ConductVoting _ _ _ _ _ _ _) as [b cl2]. cbn [fst snd] in *.
  split; [intros Hc; specialize (Htot Hc); by destruct b as [[]|]|]. intros cl' E.
  assert (Hst2 : forall x zx zx2, cl !! x = Some zx -> cl2 !! x = Some zx2 -> state_ zx2 = state_ zx).
  { intros x zx zx2 Hx Hx2. destruct (decide (x = me)) as [->|Hxm]; [simplify_eq; destruct Hown as [_ ->]; done|].
    specialize (Hpeer x Hxm). rewrite Ho1, Hx, Hx2 in Hpeer by done. inversion Hpeer as [? ? (_ & HH & _)|]; subst. done. }
  destruct b as [[]|]; [| |done]; injection E as <-.
  - match goal with |- context [ProcessVotingResults net me (SelectTemporaryMaster ?c) ?l z1 cl2] =>
      change (SelectTemporaryMaster c) with (selected z);
      destruct (ProcessVotingResults_outcome (selected z) l z1 cl2 z2 Hz2) as (z3 & Hz3 & Hv3 & Hown3 & Ho3) end.
    unfold here. rewrite lookup_alter_eq, Hz3. eexists. split_and!; [done | done |]. intros x zx zx' Hx Hx' Hs Hs'.
    assert (Hxs : x = selected z).
    { destruct (decide (x = selected z)) as [|Hne]; [done|]. exfalso. apply Hs. destruct (decide (x = me)) as [->|Hxm].
      - rewrite lookup_alter_eq, Hz3 in Hx'. injection Hx' as <-. cbn in Hs'.
        assert (E3 : state_ z3 = state_ z2) by (apply Hown3; congruence). rewrite <- (Hst2 me zx z2 Hx Hz2). congruence.
      - rewrite lookup_alter_ne in Hx' by done. pose proof (Ho3 x Hxm Hne) as E3. rewrite Hx' in E3. symmetry in E3. rewrite <- (Hst2 x zx zx' Hx E3). done. }
    split; [done|]. change (votes (end_election z3)) with (votes z3). rewrite Hv3. split; [by apply Hmin|].
    intros v Hin. destruct (Hv v Hin) as [->|(zv & Hzv & Hsm)]; [by left|]. destruct (decide (v = me)) as [->|Hvm]; [by left|].
    right. exists zv. rewrite Ho1 in Hzv by done. split; [done|]. by rewrite Hxs.
  - unfold here. rewrite lookup_alter_eq, Hz2. eexists. split_and!; [done | done |]. intros x zx zx' Hx Hx' Hs Hs'. exfalso. apply Hs.
    destruct (decide (x = me)) as [->|Hxm].
    + rewrite lookup_alter_eq, Hz2 in Hx'. injection Hx' as <-. rewrite <- (Hst2 me zx z2 Hx Hz2). done.
    + rewrite lookup_alter_ne in Hx' by done. rewrite <- (Hst2 x zx zx' Hx Hx'). done.
Qed.

End Election.
