(* ===== verification/ElectionTheorems.v ===== *)
(** What master election guarantees, and where it falls short.

    A run is any sequence of events of any number of nodes, with any answers of
    the network; [min_ok m] says that a node is configured to require [m] nodes
    at least. The examples use three nodes that require two, a majority. *)

From S2P Require Import Prelude StoreTypes MsgPacker MsgCodec MsgBase MsgRequests MsgResponses MsgFactory StoreInterface Daemon NodeAddress Election ElectionNet ElectionInv ElectionResults.
Import ElectionModule Zen NetRpcConfig.

(** ** Example runs *)

Definition nodeA : string := "10.0.0.1:1".
Definition nodeB : string := "10.0.0.2:1".
Definition nodeC : string := "10.0.0.3:1".

Definition start_nodes (minNodes : Z) : list Event := [
  EInitialize ("10.0.0.1", 1%Z) [("10.0.0.2", 1%Z); ("10.0.0.3", 1%Z)] 5000 minNodes;
  EInitialize ("10.0.0.2", 1%Z) [("10.0.0.1", 1%Z); ("10.0.0.3", 1%Z)] 5000 minNodes;
  EInitialize ("10.0.0.3", 1%Z) [("10.0.0.1", 1%Z); ("10.0.0.2", 1%Z)] 5000 minNodes].

(** A network in which some nodes cannot be connected to. *)
Definition cut (down : list string) : Net :=
  mkNet (mkAmbient 7 0 0) (fun n => if bool_decide (n ∈ down) then 1%Z else 0%Z) (fun _ => (0%Z, false)) false.

Definition healed : Net := cut [].

Definition seconds (i : nat) : Z := (Z.of_nat i * 1000000000)%Z.

Definition first_pings : list Event :=
  [EFirstPing nodeA (fun _ => healed); EFirstPing nodeB (fun _ => healed); EFirstPing nodeC (fun _ => healed)].

(** A is voted temporary master and invites B and C. *)
Definition invited : list Event :=
  start_nodes 2 ++ first_pings ++ [EElection nodeA healed seconds; EDiscovery nodeA healed 0; EJoin nodeA nodeB healed; EJoin nodeA nodeC healed].

(** A becomes master and tells B and C. *)
Definition elected : list Event := invited ++ [EPoll nodeA 0; EDiscovery nodeA healed 0].

(** A loses the other two, who elect B. *)
Definition divided : list Event := elected ++ [
  EPing nodeA (fun _ => cut [nodeB; nodeC]); EPing nodeB (fun _ => cut [nodeA]); EPing nodeC (fun _ => cut [nodeA]);
  EDiscovery nodeB (cut [nodeA]) 0; EDiscovery nodeC (cut [nodeA]) 0; EDiscovery nodeB (cut [nodeA]) 0; EDiscovery nodeC (cut [nodeA]) 0;
  EPing nodeB (fun _ => cut [nodeA]); EPing nodeC (fun _ => cut [nodeA]);
  EElection nodeB (cut [nodeA]) seconds; EDiscovery nodeB (cut [nodeA]) 0; EJoin nodeB nodeC (cut [nodeA]); EPoll nodeB 0].

(** All threads of all nodes turn once, with a network that works again. *)
Definition round : list Event :=
  [EPing nodeA (fun _ => healed); EPing nodeB (fun _ => healed); EPing nodeC (fun _ => healed);
   EDiscovery nodeA healed 0; EDiscovery nodeB healed 0; EDiscovery nodeC healed 0].

Definition after (evs : list Event) : Cluster := default ∅ (run evs ∅).

Definition state_of (cl : Cluster) (id : string) : option NodeState := state_ <$> cl !! id.

Lemma divided_run : run divided ∅ = Some (after divided).
Proof. vm_compute. reflexivity. Qed.

Lemma divided_round : run round (after (divided ++ round)) = Some (after (divided ++ round)).
Proof. vm_compute. reflexivity. Qed.

(** ** Invariant *)

(** C23: in every run of nodes that all require [m] nodes, every node is filed
    under its own id; a node whose threads turn has itself as an active node in
    its table, whatever tables other nodes sent it; a node never invites
    itself; and a node that is temporary master or waits for joins has at least
    [m] candidates on its list. *)
Theorem election_invariant (m : Z) (evs : list Event) (cl : Cluster) (id : string) (z : ZenDiscovery)
  (Hmin : Forall (min_ok m) evs) (Hrun : run evs ∅ = Some cl) (Hz : cl !! id = Some z) :
  nodeId_ z = id /\
  (looping_ z = true -> (cn_isActive <$> (nodes_ z !! id)) = Some true) /\
  (id ∉ pendingJoins_ z) /\
  (state_ z = TEMP_MASTER \/ inviting_ z <> None -> (m <= Z.of_nat (length (tempNodeList_ z)))%Z).
Proof.
  destruct (run_ok m evs ∅ cl Hmin Hrun (empty_ok m) id z Hz) as [Hid _ _ Hp Hs Ht]. split_and!; try done.
  intros Hl. subst id. apply Hs. by left.
Qed.

Lemma election_invariant_witness :
  run invited ∅ = Some (after invited) /\
  forall z, after invited !! nodeA = Some z -> (2 <= Z.of_nat (length (tempNodeList_ z)))%Z.
Proof.
  split; [vm_compute; reflexivity|]. intros z Hz.
  destruct (election_invariant 2 invited (after invited) nodeA z) as (_ & _ & _ & H).
  - repeat constructor; vm_compute; discriminate.
  - vm_compute. reflexivity.
  - exact Hz.
  - apply H. right. vm_compute in Hz. injection Hz as <-. discriminate.
Defined.

(** ** Becoming master *)

Definition joins (z : ZenDiscovery) : gset string := joinsReceived_ (electionModule_ z).

(** C20: in a run of nodes that all require [m] nodes, the only event by which a
    node becomes the elected master is a turn of its own wait for joins, in
    which at least [m] distinct nodes, itself counted, have joined it; it
    then takes for active exactly those nodes of its table that joined, and
    itself; and no other node is touched. *)
Theorem elected_master_has_quorum (m : Z) (evs : list Event) (ev : Event) (cl cl' : Cluster) (id : string) (z z' : ZenDiscovery)
  (Hmin : Forall (min_ok m) evs) (Hrun : run evs ∅ = Some cl) (Hstep : step ev cl = Some cl')
  (Hz : cl !! id = Some z) (Hz' : cl' !! id = Some z') (Hnot : state_ z <> ELECTED_MASTER) (Hyes : state_ z' = ELECTED_MASTER) :
  (exists now, ev = EPoll id now) /\ inviting_ z <> None /\
  (m <= Z.of_nat (size (joins z)))%Z /\
  (forall p n, nodes_ z' !! p = Some n -> (cn_isActive n = true <-> p = id \/ p ∈ joins z)) /\
  (forall k, k <> id -> cl' !! k = cl !! k).
Proof.
  pose proof (run_ok m evs ∅ cl Hmin Hrun (empty_ok m)) as Hok.
  assert (Hev : exists now, ev = EPoll id now).
  { destruct (is_init ev) eqn:Hi.
    - exfalso. destruct ev; try done. injection Hstep as <-. apply (init_not_elected local remote joinTimeout minNodes cl id z z'); done.
    - pose proof (step_csteps m ev cl cl' Hok Hi Hstep id) as H. rewrite Hz, Hz' in H. by destruct (nsteps_elected m ev id z z' H Hyes). }
  destruct Hev as (now & ->). cbn [step] in Hstep. unfold at_node in Hstep. rewrite Hz in Hstep. case_match; [|done].
  destruct (inviting_ z) as [start|] eqn:Ei; [|done]. injection Hstep as <-. unfold here in *. rewrite lookup_alter_eq, Hz in Hz'. injection Hz' as <-.
  destruct (poll_elected m id start now z (Hok _ _ Hz) Ei Hnot Hyes) as [E Hj]. split_and!; [by eexists | done | done | |].
  - intros p n. rewrite E. cbn [set_threads nodes_]. destruct (HandleAllJoined_fields z) as (_ & _ & _ & _ & -> & _).
    rewrite ModifyNodeList_lookup, (ok_id _ _ _ (Hok _ _ Hz)). intros (n0 & _ & ->)%fmap_Some. unfold joins.
    repeat case_bool_decide; cbn; split; intros; naive_solver.
  - intros k Hk. by rewrite lookup_alter_ne.
Qed.

Lemma elected_master_has_quorum_witness :
  run invited ∅ = Some (after invited) /\ step (EPoll nodeA 0) (after invited) = Some (after (invited ++ [EPoll nodeA 0])) /\
  forall z z', after invited !! nodeA = Some z -> after (invited ++ [EPoll nodeA 0]) !! nodeA = Some z' -> (2 <= Z.of_nat (size (joins z)))%Z.
Proof.
  assert (Hr : run invited ∅ = Some (after invited)) by (vm_compute; reflexivity).
  assert (Hs : step (EPoll nodeA 0) (after invited) = Some (after (invited ++ [EPoll nodeA 0]))) by (vm_compute; reflexivity).
  split; [exact Hr|]. split; [exact Hs|]. intros z z' Hz Hz'.
  apply (elected_master_has_quorum 2 invited (EPoll nodeA 0) (after invited) (after (invited ++ [EPoll nodeA 0])) nodeA z z');
    [repeat constructor; vm_compute; discriminate | exact Hr | exact Hs | exact Hz | exact Hz' | |].
  - vm_compute in Hz. injection Hz as <-. discriminate.
  - vm_compute in Hz'. injection Hz' as <-. reflexivity.
Defined.

(** C21: an election that a node starts ends, if every turn of its wait takes a
    second; afterwards no election is marked as in progress. A node that becomes
    temporary master by it is the one that the election selected, the
    election has the votes of as many nodes as the configuration requires, and
    every vote other than the organiser's own comes from a node for which the
    new temporary master is the smallest active one. *)
Theorem election_ends_with_votes (net : Net) (clock : nat -> Z) (me : string) (cl : Cluster) (z : ZenDiscovery)
  (Hclock : forall i, (Z.of_nat i * 1000000000 <= clock i)%Z)
  (Hz : cl !! me = Some z) (Hfree : electionInProgress_ (electionModule_ z) = false) :
  exists cl' z', RunElection net clock me cl = Some cl' /\ cl' !! me = Some z' /\ electionInProgress_ (electionModule_ z') = false /\
  forall x zx zx', cl !! x = Some zx -> cl' !! x = Some zx' -> state_ zx <> TEMP_MASTER -> state_ zx' = TEMP_MASTER ->
    x = SelectTemporaryMaster (CollectNodeInfo z) /\
    (minimum_size z <= Z.of_nat (size (votes z')))%Z /\
    forall v, v ∈ votes z' -> v = me \/ exists zv, cl !! v = Some zv /\ is_smallest zv x.
Proof.
  destruct (RunElection_outcome net clock me cl z Hz Hfree) as [Htot H].
  destruct (RunElection net clock me cl) as [cl'|] eqn:E; [|by destruct (Htot Hclock)].
  destruct (H cl' eq_refl) as (z' & Hz' & Hp & Hx). exists cl', z'. split_and!; try done. intros x zx zx' H1 H2 H3 H4.
  destruct (Hx x zx zx' H1 H2 H3 H4) as (Hs & Hm & Hv). split_and!; [done | done |]. intros v Hin.
  destruct (Hv v Hin) as [->|(zv & Hzv & Hsm)]; [by left|]. right. exists zv. split; [done|]. rewrite <- Hsm. apply GetSmallestNodeId_spec.
Qed.

Definition candidates : Cluster := after (start_nodes 2 ++ first_pings).

Lemma election_ends_with_votes_witness :
  state_of candidates nodeA = Some MASTER_CANDIDATE /\ forall z, candidates !! nodeA = Some z ->
  exists cl' z', RunElection healed seconds nodeA candidates = Some cl' /\ cl' !! nodeA = Some z' /\ electionInProgress_ (electionModule_ z') = false.
Proof.
  split; [vm_compute; reflexivity|]. intros z Hz. destruct (election_ends_with_votes healed seconds nodeA candidates z) as (cl' & z' & H1 & H2 & H3 & _).
  - intros i. unfold seconds. lia.
  - exact Hz.
  - vm_compute in Hz. injection Hz as <-. reflexivity.
  - exists cl', z'. auto.
Defined.

(** A node grants its vote to a candidate exactly when the candidate is the
    least of the node itself and the active nodes of its table; so of two
    candidates it refuses at least one. The request raises its term and changes
    nothing else. *)
Theorem vote_for_smallest_only (candidate other : string) (term : Z) (z : ZenDiscovery) :
  ((HandleVoteRequest candidate term z).1 = true <-> is_smallest z candidate) /\
  ((HandleVoteRequest candidate term z).1 && (HandleVoteRequest other term z).1 = true -> candidate = other) /\
  (exists m', (HandleVoteRequest candidate term z).2 = on_module (fun _ => m') z /\
    currentTerm_ m' = Z.max (currentTerm_ (electionModule_ z)) term).
Proof.
  unfold HandleVoteRequest. cbn [fst snd]. split_and!.
  - rewrite bool_decide_eq_true. split; [intros <-; apply GetSmallestNodeId_spec|].
    intros H. eapply is_smallest_unique; [apply GetSmallestNodeId_spec | exact H].
  - rewrite andb_true_iff, !bool_decide_eq_true. intros [<- <-]. done.
  - unfold raise_term. case_match eqn:E; [apply Z.ltb_lt in E | apply Z.ltb_ge in E].
    + eexists. split; [reflexivity|]. cbn. lia.
    + exists (electionModule_ z). split; [by destruct z | lia].
Qed.

(** ** Keeping the cluster together *)

(** After a round of a master that may stay one and reaches all the nodes it
    takes for active, each of them that runs follows the same master and has
    the master's table of nodes. *)
Theorem broadcast_converges (net : Net) (me id : string) (cl : Cluster) (z zp : ZenDiscovery) (n : ClusterNode)
  (Hz : cl !! me = Some z) (Hid : nodeId_ z = me)
  (Hstay : (minimumMasterNodes_ (config_ z) <= Z.of_nat (active_count z) + 1)%Z)
  (Hreach : forall k x, nodes_ z !! k = Some x -> k <> me -> cn_isActive x = true -> reaches net k)
  (Hn : nodes_ z !! id = Some n) (Hne : id <> me) (Ha : cn_isActive n = true) (Hzp : cl !! id = Some zp) :
  exists zp', MaintainAsMaster net me cl !! id = Some zp' /\
    state_ zp' = JOINED_CLUSTER /\ electedMaster_ zp' = electedMaster_ z /\ nodes_ zp' = nodes_ (with_voter z) /\
    tempNodeList_ zp' = tempNodeList_ zp /\ inviting_ zp' = inviting_ zp.
Proof.
  eexists. split; [by eapply MaintainAsMaster_reaches|].
  destruct (HandleBroadCastRequest_fields (electedMaster_ z) (nodes_ (with_voter z)) (net_lockInit net) zp) as (_ & H1 & H2 & H3 & H4 & _ & _ & H5 & _).
  rewrite H1, H2, H3, H4, H5. done.
Qed.

Lemma broadcast_converges_witness :
  state_of (after (invited ++ [EPoll nodeA 0])) nodeA = Some ELECTED_MASTER /\
  forall z zp n, after (invited ++ [EPoll nodeA 0]) !! nodeA = Some z -> after (invited ++ [EPoll nodeA 0]) !! nodeB = Some zp ->
  nodes_ z !! nodeB = Some n ->
  exists zp', MaintainAsMaster healed nodeA (after (invited ++ [EPoll nodeA 0])) !! nodeB = Some zp' /\ state_ zp' = JOINED_CLUSTER.
Proof.
  split; [vm_compute; reflexivity|]. intros z zp n Hz Hzp Hn.
  destruct (broadcast_converges healed nodeA nodeB (after (invited ++ [EPoll nodeA 0])) z zp n) as (zp' & H1 & H2 & _);
    [exact Hz | | | | exact Hn | discriminate | | exact Hzp | exists zp'; exact (conj H1 H2)].
  - vm_compute in Hz. injection Hz as <-. reflexivity.
  - vm_compute in Hz. injection Hz as <-. vm_compute. discriminate.
  - intros k x Hk _ _.
    assert (Hall : forallb (fun e => reachesb healed e.1) (map_to_list (nodes_ z)) = true).
    { clear Hn Hk. vm_compute in Hz. injection Hz as <-. vm_compute. reflexivity. }
    rewrite forallb_forall in Hall. apply reachesb_ok, (Hall (k, x)), list_elem_of_In, elem_of_map_to_list, Hk.
  - vm_compute in Hz. injection Hz as <-. vm_compute in Hn. injection Hn as <-. reflexivity.
Defined.

(** The invitation to join, sent over a network that works, counts the peer
    as joined whether or not the peer's daemon has an election instance at all
    (its refusal is not looked at); and a peer that has one does not learn
    from it that the inviter is alive: the request names the peer itself, so the
    peer's entry of every other node stays as it was. *)
Theorem join_request_effects (net : Net) (me id : string) (cl : Cluster) (z : ZenDiscovery)
  (Hreach : reaches net id) (Hne : id <> me) (Hz : cl !! me = Some z) :
  (SendJoinRequest net me id cl).1 = 0%Z /\
  (exists z', (SendJoinRequest net me id cl).2 !! me = Some z' /\ joins z' = {[id]} ∪ joins z) /\
  (cl !! id = None -> (SendJoinRequest net me id cl).2 !! id = None) /\
  (forall zp, cl !! id = Some zp -> exists zp', (SendJoinRequest net me id cl).2 !! id = Some zp' /\
    forall k, k <> id -> nodes_ zp' !! k = nodes_ zp !! k).
Proof.
  unfold SendJoinRequest. rewrite connect_ok by done. cbn [Z.eqb negb]. rewrite SendMsg_reaches by done. cbn [Z.eqb negb fst snd].
  set (cl1 := partial_alter _ id cl). set (cl2 := if Z.eqb _ 1 then _ else cl1).
  assert (H2 : (forall k, k <> me -> cl2 !! k = cl1 !! k) /\ exists z2, cl2 !! me = Some z2 /\ joins z2 = joins z).
  { assert (H1 : cl1 !! me = Some z) by (unfold cl1; by rewrite lookup_partial_alter_ne).
    unfold cl2. case_match; [|by split; [|exists z]]. unfold here. split; [intros; by rewrite lookup_alter_ne|].
    rewrite lookup_alter_eq, H1. by eexists. }
  destruct H2 as [Ho (z2 & Hz2 & Hj)]. unfold here. split; [done|]. rewrite lookup_alter_eq, Hz2. split_and!.
  - eexists. split; [done|]. unfold joins in *. cbn. by rewrite Hj.
  - intros HN. rewrite lookup_alter_ne, Ho by done. unfold cl1. by rewrite lookup_partial_alter_eq, HN.
  - intros zp Hp. rewrite lookup_alter_ne, Ho by done. unfold cl1. rewrite lookup_partial_alter_eq, Hp. eexists. split; [done|].
    intros k Hk. unfold HandleJoinRequest. cbn [snd PingRequest_nodeId_]. rewrite saw_nodes. by rewrite lookup_insert_ne.
Qed.

Lemma join_request_effects_witness :
  after (take 2 (start_nodes 2)) !! nodeC = None /\
  forall z, after (take 2 (start_nodes 2)) !! nodeA = Some z ->
  exists z', (SendJoinRequest healed nodeA nodeC (after (take 2 (start_nodes 2)))).2 !! nodeA = Some z' /\ joins z' = {[nodeC]} ∪ joins z.
Proof.
  split; [vm_compute; reflexivity|]. intros z Hz.
  apply (join_request_effects healed nodeA nodeC (after (take 2 (start_nodes 2))) z); [apply reachesb_ok; vm_compute; reflexivity | discriminate | exact Hz].
Defined.

(** ** Where election falls short *)




Lemma divided_rounds n : run (mjoin (replicate n round)) (after (divided ++ round)) = Some (after (divided ++ round)).
Proof. induction n as [|n IH]; [reflexivity|]. cbn [replicate mjoin list_join]. by rewrite run_app, divided_round. Qed.

(** Three nodes that require a majority of two can have two masters for
    good. After a run in which A, elected by all, is cut off and the others elect
    B, both are masters; and when the network works again, any number of
    rounds in which every thread of every node turns leaves them both masters,
    since neither side contacts nodes that it took for dead. *)
Theorem split_brain_persists :
  exists cl, run divided ∅ = Some cl /\
  Forall (min_ok 2) divided /\ size cl = 3 /\
  forall n, exists cl', run (mjoin (replicate n round)) cl = Some cl' /\
    state_of cl' nodeA = Some ELECTED_MASTER /\ state_of cl' nodeB = Some ELECTED_MASTER.
Proof.
  exists (after divided). split; [apply divided_run|]. split; [repeat constructor; vm_compute; discriminate|]. split; [vm_compute; reflexivity|].
  intros [|n]; [exists (after divided); split; [reflexivity|]; split; vm_compute; reflexivity|].
  exists (after (divided ++ round)). cbn [replicate mjoin list_join]. rewrite run_app.
  assert (E : run round (after divided) = Some (after (divided ++ round))) by (vm_compute; reflexivity). rewrite E, divided_rounds.
  split; [reflexivity|]. split; vm_compute; reflexivity.
Qed.

(** A has one join when B, which has lost A, is elected by B and C; then A can
    be reached again, and B's table reaches A while A still waits for joins. *)
Definition overtaken : list Event :=
  start_nodes 2 ++ first_pings ++ [
  EElection nodeA healed seconds; EDiscovery nodeA healed 0; EJoin nodeA nodeB healed;
  EPing nodeB (fun _ => cut [nodeA]); EPing nodeC (fun _ => cut [nodeA]);
  EElection nodeB (cut [nodeA]) seconds; EDiscovery nodeB (cut [nodeA]) 0; EJoin nodeB nodeC (cut [nodeA]); EPoll nodeB 0;
  EPing nodeA (fun _ => healed); EDiscovery nodeB healed 0].

(** A node that waits for joins and meanwhile accepts another master still
    makes itself master when the wait ends: there is a run after which A follows
    B, and one turn of A's wait later A is an elected master while it
    takes B for the current master, and B is a master too. *)
Theorem follower_becomes_master :
  exists cl cl', run overtaken ∅ = Some cl /\ step (EPoll nodeA (ms 5001)) cl = Some cl' /\
  state_of cl nodeA = Some JOINED_CLUSTER /\ state_of cl' nodeA = Some ELECTED_MASTER /\
  (electedMaster_ <$> (cl' !! nodeA)) = Some nodeB /\ state_of cl' nodeB = Some ELECTED_MASTER.
Proof.
  exists (after overtaken), (after (overtaken ++ [EPoll nodeA (ms 5001)])). split_and!; vm_compute; reflexivity.
Qed.

(** ** Names of nodes *)

(** The name that the configuration gives a node parses back to its address
    and port, for every address without a colon and every 16-bit port; a name
    with three colons or more, as every IPv6 address gives, is refused. *)
Theorem node_id_round_trip (ip : string) (port : Z) (Hip : no_colon ip) (Hport : (0 <= port <= UINT16_MAX)%Z) :
  ParseRpcNodeFromId (rn_name (SetLocalNode (ip, port))) = (MXM_OK, Some (SetLocalNode (ip, port))) /\
  forall nodeId, 3 <= colons nodeId -> ParseRpcNodeFromId nodeId = (MXM_ERR_PARAM_INVALID, None).
Proof. split; [by apply ParseRpcNodeFromId_make | apply ParseRpcNodeFromId_many_colons]. Qed.

Lemma node_id_round_trip_witness :
  ParseRpcNodeFromId "10.0.0.1:65535" = (MXM_OK, Some (mkRpcNode "10.0.0.1:65535" "10.0.0.1" 65535)) /\
  ParseRpcNodeFromId "fe80::1:80" = (MXM_ERR_PARAM_INVALID, None).
Proof.
  destruct (node_id_round_trip "10.0.0.1" 65535) as [H1 H2]; [repeat split; discriminate | unfold UINT16_MAX; lia |].
  split; [exact H1|]. apply H2. vm_compute. lia.
Defined.

(** The parser takes the port modulo [2 ^ 32] before it checks the range: a
    number of more than 32 bits whose low half is a port is accepted as that
    port. *)
Theorem long_port_accepted (ip : string) (port k : Z)
  (Hip : no_colon ip) (Hport : (0 < port <= UINT16_MAX)%Z) (Hk : (0 <= k < 2 ^ 31)%Z) :
  let nodeId := (ip +:+ ":" +:+ to_string 20 (port + k * 2 ^ 32))%string in
  ParseRpcNodeFromId nodeId = (MXM_OK, Some (mkRpcNode nodeId ip port)).
Proof.
  unfold UINT16_MAX in Hport. set (n := (port + k * 2 ^ 32)%Z). assert (Hu : u32 n = port) by (unfold u32, n; rewrite Z.mod_add by lia; apply Z.mod_small; lia).
  assert (Hn : (0 <= n < 10 ^ Z.of_nat 20)%Z) by (unfold n; lia). intros nodeId. unfold ParseRpcNodeFromId, nodeId.
  rewrite getlines_prefix by done. destruct (to_string_cons 20 n) as (c & s & E & _); [lia | lia |].
  assert (Hg : getlines "" (to_string 20 n) = [to_string 20 n]).
  { apply getlines_plain; [apply dec_no_colon, to_string_dec; lia | by rewrite E]. }
  change (getlines ("" +:+ ip) (":" +:+ to_string 20 n)) with (ip :: getlines "" (to_string 20 n)). rewrite Hg.
  cbn [length Nat.eqb IP_PORT_SIZE negb head last default from_option id]. unfold id.
  rewrite StrToUint_decimal by (unfold ULONG_MAX, n in *; rewrite ?Hu; lia). rewrite Hu. cbn [negb]. unfold UINT16_MAX.
  rewrite (proj2 (Z.ltb_ge _ _)) by lia. by rewrite Z.mod_small by lia.
Qed.

Lemma long_port_accepted_witness :
  ParseRpcNodeFromId "10.0.0.1:4294967376" = (MXM_OK, Some (mkRpcNode "10.0.0.1:4294967376" "10.0.0.1" 80)).
Proof.
  exact (long_port_accepted "10.0.0.1" 80 1 ltac:(repeat split; discriminate) ltac:(unfold UINT16_MAX; lia) ltac:(lia)).
Defined.
