(* ===== verification/Locks.v ===== *)
(** Distributed locks: the bookkeeping of one daemon over the lock library
    ([src/src/dlock_utils]).

    The daemon on the cluster's voting-only node is the client of the lock server
    on behalf of all processes of the cluster; it records which process holds
    which lock until when, and counts the references to every lock. The lock
    library is outside the repository: what it answers to each call is an
    argument, and the calls are recorded. This file has the data: the clients,
    the context, the function pointers of the library, and the monad. *)

From S2P Require Import Prelude StoreTypes MsgPacker MsgCodec MsgBase MsgRequests MsgResponses StoreInterface NodeAddress Election ElectionNet.

(** ** Codes *)

Definition MXM_OK : Z := 0.

Definition MXM_ERR_LOCK_NOT_READY : Z := 300.
Definition MXM_ERR_LOCK_ALREADY_LOCKED : Z := 301.
Definition MXM_ERR_LOCK_NOT_FOUND : Z := 302.
Definition MXM_ERR_DLOCK_LIB : Z := 303.
Definition MXM_ERR_DLOCK_INNER : Z := 304.

Definition DLOCK_SUCCESS : Z := 0.
Definition DLOCK_EAGAIN : Z := 4096.
Definition DLOCK_ENOMEM : Z := 4097.
Definition DLOCK_EINVAL : Z := 4099.
Definition DLOCK_EASYNC : Z := 4101.
Definition DLOCK_CLIENT_NOT_INIT : Z := 8192.
Definition DLOCK_LOCK_NOT_GET : Z := 8193.
Definition DLOCK_ALREADY_LOCKED : Z := 8194.
Definition DLOCK_ALREADY_UNLOCKED : Z := 8195.
Definition DLOCK_BAD_RESPONSE : Z := 8197.
Definition DLOCK_FAIL : Z := 8198.
Definition DLOCK_CLIENTMGR_NOT_INIT : Z := 8199.
Definition DLOCK_NOT_READY : Z := 8200.
Definition DLOCK_CLIENT_REMOVED_BY_SERVER : Z := 8205.
Definition DLOCK_SERVER_NO_RESOURCE : Z := 8207.

Definition MAX_CLIENT_NUM : Z := 500.
Definition DEFAULT_TRY_LOCK_COUNT : nat := 5.
Definition DEFAULT_TRY_COUNT : Z := 3.
Definition STARTING_REF_COUNT : Z := 1.
Definition NOT_FOUND : Z := -1.

Definition DLOCKS_PATH : string := "/usr/lib64/libdlocks.so.0".
Definition DLOCKC_PATH : string := "/usr/lib64/libdlockc.so.0".

(** ** [ClientDesc]: one client of the lock library

    [LockUdsInfo]s are compared by process, user and group; a set of them is a map
    from these to [validTime]. *)

Abbreviation UdsKey := (Z * Z * Z)%type.

Record LockUdsInfo := mkLockUds { lu_pid : Z; lu_uid : Z; lu_gid : Z; lu_validTime : Z }.

Definition uds_key (u : LockUdsInfo) : UdsKey := (lu_pid u, lu_uid u, lu_gid u).

Record ClientDesc := mkClientDesc {
  clientId_ : Z;
  name2LockId : gmap string Z;
  name2UdsInfo : gmap string (gmap UdsKey Z);
}.

(** [LockUdsInfo::operator<], as an order on keys. *)
Definition key_leb (a b : UdsKey) : bool :=
  let '(p1, u1, g1) := a in
  let '(p2, u2, g2) := b in
  if negb (Z.eqb p1 p2) then Z.ltb p1 p2 else if negb (Z.eqb u1 u2) then Z.ltb u1 u2 else Z.leb g1 g2.

Definition uds_le (a b : UdsKey * Z) : Prop := key_leb a.1 b.1 = true.

#[export] Instance uds_le_dec : RelDecision uds_le.
Proof. intros a b. unfold uds_le. apply _. Defined.

Definition uds_entries (s : gmap UdsKey Z) : list (UdsKey * Z) := merge_sort uds_le (map_to_list s).

Module ClientDesc.

Definition GetLockId (name : string) (c : ClientDesc) : option Z := name2LockId c !! name.

Definition RemoveLockId (name : string) (c : ClientDesc) : ClientDesc :=
  mkClientDesc (clientId_ c) (delete name (name2LockId c)) (name2UdsInfo c).

Definition SetLockId (name : string) (lockId : Z) (c : ClientDesc) : ClientDesc :=
  mkClientDesc (clientId_ c) (<[name := lockId]> (name2LockId c)) (name2UdsInfo c).

Definition holders (name : string) (c : ClientDesc) : gmap UdsKey Z := default ∅ (name2UdsInfo c !! name).

Definition SetLockUdsInfo (name : string) (u : LockUdsInfo) (c : ClientDesc) : ClientDesc :=
  mkClientDesc (clientId_ c) (name2LockId c) (<[name := <[uds_key u := lu_validTime u]> (holders name c)]> (name2UdsInfo c)).

Definition RemoveLockUdsInfoByName (name : string) (u : LockUdsInfo) (c : ClientDesc) : ClientDesc :=
  mkClientDesc (clientId_ c) (name2LockId c) (alter (delete (uds_key u)) name (name2UdsInfo c)).

Definition RemoveLockUdsInfo (name : string) (c : ClientDesc) : ClientDesc :=
  mkClientDesc (clientId_ c) (name2LockId c) (delete name (name2UdsInfo c)).

Definition IsLockUdsValid (name : string) (u : LockUdsInfo) (c : ClientDesc) : bool :=
  match name2UdsInfo c !! name with Some s => bool_decide (is_Some (s !! uds_key u)) | None => false end.

(** [IsLockInValidTime] of one holder, and of a lock: some holder's time is not over. *)
Definition IsHolderInValidTime (name : string) (u : LockUdsInfo) (timeNow : Z) (c : ClientDesc) : bool :=
  match name2UdsInfo c !! name with
  | Some s => match s !! uds_key u with Some t => Z.ltb timeNow t | None => false end
  | None => false
  end.

Definition IsLockInValidTime (name : string) (timeNow : Z) (c : ClientDesc) : bool :=
  match name2UdsInfo c !! name with
  | Some s => existsb (fun x => Z.ltb timeNow x.2) (uds_entries s)
  | None => true
  end.

Definition GetInValidUdsInfo (name : string) (timeNow : Z) (c : ClientDesc) : list LockUdsInfo :=
  match name2UdsInfo c !! name with
  | Some s =>
      (fun x : UdsKey * Z => let '(p, u, g, t) := x in mkLockUds p u g t) <$> filter (fun x => (x.2 <= timeNow)%Z) (uds_entries s)
  | None => []
  end.

End ClientDesc.

(** ** [DLockContext] *)

(** The members of [DLockConfig] that the code below reads or writes. *)
Record DLockConfig := mkDLockConfig {
  recoveryClientNum : Z;
  dlockClientNum : Z;
  isDlockServer : bool;
  isDlockClient : bool;
  maxServerNum : Z;
  serverId : Z;
  serverIp : string;
  clientIp : string;
  dlockDevEid : string;
  lockExpireTime : Z;
  enableTls : bool;
}.

(** A pointer to a [ClientDesc] is its place in [dlockClients], which only grows
    or is emptied together with [metaMap]. *)
Record DLockContext := mkDLockContext {
  clientIndex : Z;
  isNeedServerDeinit : bool;
  isHeartBeatActive : bool;
  cfg : DLockConfig;
  index2ClientId : list Z;
  dlockClients : list ClientDesc;
  metaMap : gmap string nat;
  refCount : gmap string Z;
}.

(** ** The library, the world and the monad *)

(** Calls out of the daemon: the dynamic loader's, and the library's through a
    function pointer. *)
Inductive LibCall :=
  | DlOpen (path : string)
  | DlSym (symbol : string)
  | DlClose (path : string)
  | ServerLibInit (maxServerNum : Z)
  | ServerLibDeInit
  | ServerStart (ip : string) (recovery serverId : Z)
  | ServerStop (serverId : Z)
  | ClientLibInit
  | ClientLibDeInit
  | ClientInit (ip : string)
  | ClientReinit (clientId : Z) (ip : string)
  | ClientDeInit (clientId : Z)
  | ClientReinitDone (clientId : Z)
  | ClientHeartbeat (clientId : Z)
  | ClientGetLock (clientId : Z) (name : string)
  | ReleaseLock (clientId lockId : Z)
  | TryLockCall (clientId lockId : Z) (isExclusive : bool) (expire : Z)
  | UnlockCall (clientId lockId : Z)
  | UpdateAllLocks (clientId : Z).

(** The symbol whose pointer a call goes through. *)
Definition symbol_of (c : LibCall) : option string :=
  match c with
  | DlOpen _ | DlSym _ | DlClose _ => None
  | ServerLibInit _ => Some "dserver_lib_init"
  | ServerLibDeInit => Some "dserver_lib_deinit"
  | ServerStart _ _ _ => Some "server_start"
  | ServerStop _ => Some "server_stop"
  | ClientLibInit => Some "dclient_lib_init"
  | ClientLibDeInit => Some "dclient_lib_deinit"
  | ClientInit _ => Some "client_init"
  | ClientReinit _ _ => Some "client_reinit"
  | ClientDeInit _ => Some "client_deinit"
  | ClientReinitDone _ => Some "client_reinit_done"
  | ClientHeartbeat _ => Some "client_heartbeat"
  | ClientGetLock _ _ => Some "get_lock"
  | ReleaseLock _ _ => Some "release_lock"
  | TryLockCall _ _ _ _ => Some "trylock"
  | UnlockCall _ _ => Some "unlock"
  | UpdateAllLocks _ => Some "update_all_locks"
  end.

(** [DLockExecutor]: the handles and the pointers that are not null. *)
Record DLockExecutor := mkDLockExecutor {
  isInitialized : bool;
  serverHandle : bool;
  clientHandle : bool;
  pointers : gset string;
}.

(** The context, the members of [UbsmLock] (whether the service is ready, the
    clean-up thread runs, the TLS set-up is done), the library's pointers, the
    calls made with their codes, latest first, how often the clock was read, and
    whether the process is lost: a call through a null pointer or a division
    by zero. *)
Record LockWorld := mkLockWorld {
  lw_ctx : DLockContext;
  isUbsmLockInit : bool;
  isCleanupThreadRunning : bool;
  tls_ssl_enable : bool;
  lw_lib : DLockExecutor;
  lib_trace : list (LibCall * Z);
  clock_reads : nat;
  lw_lost : bool;
}.

(** What surrounds an operation: the answer to the i-th call of all (a code and
    an output), the i-th reading of the clock, the election's instance and this
    node, [inet_pton], the set-up of the TLS paths, and the transport's answers
    to the connection and the request of each attempt. *)
Record LockEnv := mkLockEnv {
  le_lib : nat -> LibCall -> Z * Z;
  le_now : nat -> Z;
  le_zen : option ZenDiscovery;
  le_local : RpcNode;
  le_eid_ok : string -> bool;
  le_tls_paths : Z;
  le_Connect : nat -> string -> Z;
  le_SendMsg : nat -> string -> Z * Z;
}.

Definition LM (A : Type) : Type := LockEnv -> LockWorld -> A * LockWorld.

#[export] Instance lm_ret : MRet LM := fun A x _ w => (x, w).
#[export] Instance lm_bind : MBind LM := fun A B f m env w => let '(x, w) := m env w in f x env w.

Definition asks {A} (f : LockEnv -> A) : LM A := fun env w => (f env, w).
Definition gets {A} (f : LockWorld -> A) : LM A := fun _ w => (f w, w).
Definition modify (f : LockWorld -> LockWorld) : LM unit := fun _ w => (tt, f w).

Definition set_ctx (f : DLockContext -> DLockContext) (w : LockWorld) : LockWorld :=
  mkLockWorld (f (lw_ctx w)) (isUbsmLockInit w) (isCleanupThreadRunning w) (tls_ssl_enable w) (lw_lib w) (lib_trace w)
    (clock_reads w) (lw_lost w).

Definition set_lib (f : DLockExecutor -> DLockExecutor) (w : LockWorld) : LockWorld :=
  mkLockWorld (lw_ctx w) (isUbsmLockInit w) (isCleanupThreadRunning w) (tls_ssl_enable w) (f (lw_lib w)) (lib_trace w)
    (clock_reads w) (lw_lost w).

Definition set_cleanup_running (w : LockWorld) : LockWorld :=
  mkLockWorld (lw_ctx w) (isUbsmLockInit w) true (tls_ssl_enable w) (lw_lib w) (lib_trace w) (clock_reads w) (lw_lost w).

Definition set_tls (v : bool) (w : LockWorld) : LockWorld :=
  mkLockWorld (lw_ctx w) (isUbsmLockInit w) (isCleanupThreadRunning w) v (lw_lib w) (lib_trace w) (clock_reads w) (lw_lost w).

Definition log_call (c : LibCall) (code : Z) (w : LockWorld) : LockWorld :=
  mkLockWorld (lw_ctx w) (isUbsmLockInit w) (isCleanupThreadRunning w) (tls_ssl_enable w) (lw_lib w)
    ((c, code) :: lib_trace w) (clock_reads w) (lw_lost w).

Definition lose (w : LockWorld) : LockWorld :=
  mkLockWorld (lw_ctx w) (isUbsmLockInit w) (isCleanupThreadRunning w) (tls_ssl_enable w) (lw_lib w) (lib_trace w)
    (clock_reads w) true.

Definition UbsmLockInitSet (v : bool) (w : LockWorld) : LockWorld :=
  mkLockWorld (lw_ctx w) v (isCleanupThreadRunning w) (tls_ssl_enable w) (lw_lib w) (lib_trace w) (clock_reads w) (lw_lost w).

(** A call, recorded. *)
Definition call (c : LibCall) : LM (Z * Z) :=
  fun env w => let a := le_lib env (length (lib_trace w)) c in (a, log_call c a.1 w).

Definition pointer_set (c : LibCall) (w : LockWorld) : bool :=
  match symbol_of c with Some s => bool_decide (s ∈ pointers (lw_lib w)) | None => true end.

(** A call through its pointer, and one that the code guards by a test of the
    pointer. *)
Definition call_fn (c : LibCall) : LM (Z * Z) :=
  ok ← gets (pointer_set c); if ok : bool then call c else modify lose ;; mret (0%Z, 0%Z).

Definition call_if (c : LibCall) (otherwise : Z * Z) : LM (Z * Z) :=
  ok ← gets (pointer_set c); if ok : bool then call c else mret otherwise.

Definition TimeUs : LM Z :=
  fun env w =>
    (le_now env (clock_reads w),
     mkLockWorld (lw_ctx w) (isUbsmLockInit w) (isCleanupThreadRunning w) (tls_ssl_enable w) (lw_lib w) (lib_trace w)
       (S (clock_reads w)) (lw_lost w)).

(** ** [DLockExecutor] *)

Module Executor.

Definition set_pointer (s : string) (v : bool) (e : DLockExecutor) : DLockExecutor :=
  mkDLockExecutor (isInitialized e) (serverHandle e) (clientHandle e)
    (if v then {[ s ]} ∪ pointers e else pointers e ∖ {[ s ]}).

(** A run of [DlSym] calls, given up at the first that finds nothing. *)
Fixpoint DlSyms (symbols : list string) : LM Z :=
  match symbols with
  | [] => mret UBSM_OK
  | s :: symbols =>
      a ← call (DlSym s);
      modify (set_lib (set_pointer s (negb (Z.eqb a.1 0)))) ;;
      if Z.eqb a.1 0 then mret MXM_ERR_DLOCK_LIB else DlSyms symbols
  end.

Definition server_symbols : list string := ["dserver_lib_init"; "dserver_lib_deinit"; "server_start"; "server_stop"].

Definition InitDLockServerDlopenLib : LM Z :=
  a ← call (DlOpen DLOCKS_PATH);
  modify (set_lib (fun e => mkDLockExecutor (isInitialized e) (negb (Z.eqb a.1 0)) (clientHandle e) (pointers e))) ;;
  if Z.eqb a.1 0 then mret MXM_ERR_DLOCK_LIB else DlSyms server_symbols.

Definition init_symbols : list string :=
  ["dclient_lib_init"; "dclient_lib_deinit"; "client_init"; "client_reinit"; "client_deinit"; "client_reinit_done";
   "client_heartbeat"].

Definition InitDLockClientLockInitLib : LM Z := DlSyms init_symbols.

Definition get_symbols : list string := ["get_lock"; "release_lock"; "trylock"; "lock"; "unlock"; "lock_extend"].

Definition InitDLockClientLockGetLib : LM Z := DlSyms get_symbols.

Definition mgmt_symbols : list string :=
  ["update_all_locks"; "lock_request_async"; "lock_result_check"; "get_client_debug_stats"].

Definition InitDLockClientLockMgmtLib : LM Z := DlSyms mgmt_symbols.

Definition InitDLockClientDlopenLib : LM Z :=
  a ← call (DlOpen DLOCKC_PATH);
  modify (set_lib (fun e => mkDLockExecutor (isInitialized e) (serverHandle e) (negb (Z.eqb a.1 0)) (pointers e))) ;;
  if Z.eqb a.1 0 then mret MXM_ERR_DLOCK_LIB
  else
    r ← InitDLockClientLockInitLib;
    if negb (Z.eqb r UBSM_OK) then mret MXM_ERR_DLOCK_LIB
    else
      r ← InitDLockClientLockGetLib;
      if negb (Z.eqb r UBSM_OK) then mret MXM_ERR_DLOCK_LIB
      else
        r ← InitDLockClientLockMgmtLib;
        if negb (Z.eqb r UBSM_OK) then mret MXM_ERR_DLOCK_LIB else mret UBSM_OK.

Definition InitDLockDlopenLib : LM Z :=
  initialized ← gets (fun w => isInitialized (lw_lib w));
  if initialized : bool then mret UBSM_OK
  else
    r ← InitDLockServerDlopenLib;
    if negb (Z.eqb r UBSM_OK) then mret MXM_ERR_DLOCK_LIB
    else
      r ← InitDLockClientDlopenLib;
      if negb (Z.eqb r UBSM_OK) then mret MXM_ERR_DLOCK_LIB
      else
        modify (set_lib (fun e => mkDLockExecutor true (serverHandle e) (clientHandle e) (pointers e))) ;;
        mret UBSM_OK.

Definition DestroyDLockDlopenLib : LM unit :=
  server ← gets (fun w => serverHandle (lw_lib w));
  (if server : bool then call (DlClose DLOCKS_PATH) ;; mret tt else mret tt) ;;
  client ← gets (fun w => clientHandle (lw_lib w));
  (if client : bool then call (DlClose DLOCKC_PATH) ;; mret tt else mret tt) ;;
  modify (set_lib (fun _ => mkDLockExecutor false false false ∅)).

Definition ClientInitWrapper (serverIp : string) : LM (Z * Z) := call_if (ClientInit serverIp) (DLOCK_FAIL, 0%Z).

Definition ClientReinitWrapper (clientId : Z) (serverIp : string) : LM Z :=
  a ← call_if (ClientReinit clientId serverIp) (DLOCK_FAIL, 0%Z); mret a.1.

Definition ServerStartWrapper (ip : string) (recovery serverId : Z) : LM Z :=
  a ← call_fn (ServerStart ip recovery serverId); mret a.1.

End Executor.
