(* ===== verification/LockService.v ===== *)
(** Distributed locks: the operations of [DLockContext] and the lock requests of
    [UbsmLock] ([src/src/dlock_utils/{dlock_context.h,dlock_context.cpp,ubsm_lock.cpp}]),
    with the endpoints of [rpc_handler.cpp] and [ipc_handler.cpp] that call them. *)

From S2P Require Import Prelude StoreTypes MsgPacker MsgCodec MsgBase MsgRequests MsgResponses StoreInterface NodeAddress Election ElectionNet Locks.

(** ** [DLockContext] *)

Module Context.

Section Assign.
Implicit Type c : DLockContext.

Definition set_cfg (f : DLockConfig -> DLockConfig) c : DLockContext :=
  mkDLockContext (clientIndex c) (isNeedServerDeinit c) (isHeartBeatActive c) (f (cfg c)) (index2ClientId c)
    (dlockClients c) (metaMap c) (refCount c).

Definition set_clients (f : list ClientDesc -> list ClientDesc) c : DLockContext :=
  mkDLockContext (clientIndex c) (isNeedServerDeinit c) (isHeartBeatActive c) (cfg c) (index2ClientId c)
    (f (dlockClients c)) (metaMap c) (refCount c).

Definition set_metaMap (f : gmap string nat -> gmap string nat) c : DLockContext :=
  mkDLockContext (clientIndex c) (isNeedServerDeinit c) (isHeartBeatActive c) (cfg c) (index2ClientId c)
    (dlockClients c) (f (metaMap c)) (refCount c).

Definition set_refCount (f : gmap string Z -> gmap string Z) c : DLockContext :=
  mkDLockContext (clientIndex c) (isNeedServerDeinit c) (isHeartBeatActive c) (cfg c) (index2ClientId c)
    (dlockClients c) (metaMap c) (f (refCount c)).

Definition SetServerDeinitFlag (flag : bool) c : DLockContext :=
  mkDLockContext (clientIndex c) flag (isHeartBeatActive c) (cfg c) (index2ClientId c) (dlockClients c) (metaMap c)
    (refCount c).

Definition bump_clientIndex c : DLockContext :=
  mkDLockContext (u64 (clientIndex c + 1)) (isNeedServerDeinit c) (isHeartBeatActive c) (cfg c) (index2ClientId c)
    (dlockClients c) (metaMap c) (refCount c).

Definition push_client (clientId : Z) c : DLockContext :=
  mkDLockContext (clientIndex c) (isNeedServerDeinit c) (isHeartBeatActive c) (cfg c) (index2ClientId c ++ [clientId])
    (dlockClients c ++ [mkClientDesc clientId ∅ ∅]) (metaMap c) (refCount c).

Definition forget_clients c : DLockContext :=
  mkDLockContext 0 (isNeedServerDeinit c) (isHeartBeatActive c) (cfg c) [] [] ∅ ∅.

End Assign.

(** [GetDlockClient]: the clients in turn. *)
Definition GetDlockClient : LM (option nat) :=
  index ← gets (fun w => clientIndex (lw_ctx w));
  modify (set_ctx bump_clientIndex) ;;
  num ← gets (fun w => dlockClientNum (cfg (lw_ctx w)));
  if Z.eqb num 0 then modify lose ;; mret None
  else
    size ← gets (fun w => length (dlockClients (lw_ctx w)));
    if Z.leb (Z.of_nat size) (index mod num) then mret None else mret (Some (Z.to_nat (index mod num))).

Definition ContainClientDesc (name : string) : LM bool :=
  gets (fun w => bool_decide (is_Some (metaMap (lw_ctx w) !! name))).

Definition GetClientDesc (name : string) : LM (option nat) := gets (fun w => metaMap (lw_ctx w) !! name).

Definition SetClientDesc (name : string) (meta : nat) : LM unit := modify (set_ctx (set_metaMap (insert name meta))).

Definition RemoveClientDesc (name : string) : LM unit := modify (set_ctx (set_metaMap (delete name))).

Definition ref_add (name : string) (m : gmap string Z) : gmap string Z := <[name := u32 (default 0%Z (m !! name) + 1)]> m.

Definition AddClientDescRef (name : string) : LM unit := modify (set_ctx (set_refCount (ref_add name))).

Definition GetClientDescRef (name : string) : LM Z :=
  gets (fun w => match refCount (lw_ctx w) !! name with Some r => s32 r | None => NOT_FOUND end).

Definition ref_release (name : string) (m : gmap string Z) : Z * gmap string Z :=
  match m !! name with
  | None => (NOT_FOUND, m)
  | Some r => if Z.eqb (u32 (r - 1)) 0 then (0%Z, delete name m) else (s32 (u32 (r - 1)), <[name := u32 (r - 1)]> m)
  end.

Definition ReleaseClientDescRef (name : string) : LM Z :=
  r ← gets (fun w => ref_release name (refCount (lw_ctx w)));
  modify (set_ctx (set_refCount (fun _ => r.2))) ;; mret r.1.

Definition RemoveClientDescRef (name : string) : LM unit := modify (set_ctx (set_refCount (delete name))).

Definition GetAllShmLockName : LM (list string) := gets (fun w => (map_to_list (metaMap (lw_ctx w))).*1).

(** Deinitialises the clients one by one, whatever the library answers. *)
Fixpoint deinit_clients (ids : list Z) : LM unit :=
  match ids with [] => mret tt | id :: ids => call_fn (ClientDeInit id) ;; deinit_clients ids end.

Definition UnInitDlockClient : LM unit :=
  ok ← gets (pointer_set (ClientDeInit 0));
  if negb ok then mret tt
  else
    ids ← gets (fun w => index2ClientId (lw_ctx w));
    deinit_clients ids ;;
    modify (set_ctx forget_clients).

Fixpoint init_clients (n : nat) (serverIp : string) : LM Z :=
  match n with
  | O => mret UBSM_OK
  | S n =>
      a ← Executor.ClientInitWrapper serverIp;
      if negb (Z.eqb a.1 DLOCK_SUCCESS) then UnInitDlockClient ;; mret a.1
      else modify (set_ctx (push_client a.2)) ;; init_clients n serverIp
  end.

Definition InitDlockClient : LM Z :=
  serverIp ← gets (fun w => serverIp (cfg (lw_ctx w)));
  clientNum ← gets (fun w => dlockClientNum (cfg (lw_ctx w)));
  if Z.leb MAX_CLIENT_NUM clientNum then mret MXM_ERR_PARAM_INVALID else init_clients (Z.to_nat clientNum) serverIp.

End Context.

Import Context Zen.

(** ** Access to a client through its pointer *)

Definition client_at (i : nat) (w : LockWorld) : ClientDesc := default (mkClientDesc 0 ∅ ∅) (dlockClients (lw_ctx w) !! i).

Definition on_client (i : nat) (f : ClientDesc -> ClientDesc) : LM unit := modify (set_ctx (set_clients (alter f i))).

(** ** Lock requests *)

Definition GetLock (name : string) : LM (option nat) :=
  known ← ContainClientDesc name;
  if known : bool then
    desc ← GetClientDesc name;
    AddClientDescRef name ;; mret desc
  else
    desc ← GetDlockClient;
    match desc with
    | None => mret None
    | Some i =>
        clientId ← gets (fun w => clientId_ (client_at i w));
        a ← call_fn (ClientGetLock clientId name);
        if negb (Z.eqb a.1 DLOCK_SUCCESS) then mret None
        else
          on_client i (ClientDesc.SetLockId name a.2) ;;
          SetClientDesc name i ;;
          AddClientDescRef name ;;
          mret (Some i)
    end.

Definition retryable (ret : Z) : bool := Z.eqb ret DLOCK_NOT_READY || Z.eqb ret DLOCK_EASYNC.

(** The loop of [TryLock]; [n] further attempts follow this one. *)
Fixpoint try_lock_loop (n : nat) (name : string) (i : nat) (clientId lockId : Z) (isExclusive : bool) (expire : Z)
  (u : LockUdsInfo) : LM Z :=
  a ← call_fn (TryLockCall clientId lockId isExclusive expire);
  if Z.eqb a.1 DLOCK_BAD_RESPONSE then mret MXM_ERR_DLOCK_INNER
  else if Z.eqb a.1 DLOCK_EAGAIN then call_fn (UnlockCall clientId lockId) ;; mret MXM_ERR_DLOCK_INNER
  else if Z.eqb a.1 DLOCK_EINVAL || Z.eqb a.1 DLOCK_CLIENTMGR_NOT_INIT || Z.eqb a.1 DLOCK_CLIENT_NOT_INIT ||
          Z.eqb a.1 DLOCK_LOCK_NOT_GET || Z.eqb a.1 DLOCK_FAIL then mret MXM_ERR_DLOCK_INNER
  else if Z.eqb a.1 DLOCK_SUCCESS || Z.eqb a.1 DLOCK_ALREADY_LOCKED then
    now ← TimeUs;
    on_client i
      (ClientDesc.SetLockUdsInfo name (mkLockUds (lu_pid u) (lu_uid u) (lu_gid u) (u64 (now + expire * 1000000)))) ;;
    mret MXM_OK
  else
    match n with
    | O => mret MXM_ERR_DLOCK_INNER
    | S n => if retryable a.1 then try_lock_loop n name i clientId lockId isExclusive expire u else mret MXM_ERR_DLOCK_INNER
    end.

Definition TryLock (name : string) (i : nat) (isExclusive : bool) (u : LockUdsInfo) : LM Z :=
  ref ← GetClientDescRef name;
  if isExclusive && Z.ltb STARTING_REF_COUNT ref then mret MXM_ERR_LOCK_ALREADY_LOCKED
  else
    c ← gets (client_at i);
    match ClientDesc.GetLockId name c with
    | None => mret MXM_ERR_LOCK_NOT_FOUND
    | Some lockId =>
        expire ← gets (fun w => lockExpireTime (cfg (lw_ctx w)));
        try_lock_loop DEFAULT_TRY_LOCK_COUNT name i (clientId_ c) lockId isExclusive expire u
    end.

Definition TryReleaseLock (name : string) (lockId : Z) : LM Z :=
  desc ← GetClientDesc name;
  match desc with
  | None => mret MXM_ERR_NULLPTR
  | Some i =>
      RemoveClientDesc name ;;
      on_client i (ClientDesc.RemoveLockId name) ;;
      clientId ← gets (fun w => clientId_ (client_at i w));
      a ← call_fn (ReleaseLock clientId lockId);
      mret a.1
  end.

(** [IsUbsmLockInElection]. *)
Definition in_election (env : LockEnv) : bool :=
  match le_zen env with None => true | Some z => electionInProgress_ (electionModule_ z) end.

Definition ready : LM bool :=
  init ← gets isUbsmLockInit; election ← asks in_election; mret (init && negb election).

Definition HandleLock (name : string) (isExclusive : bool) (u : LockUdsInfo) : LM Z :=
  ok ← ready;
  if negb ok then mret MXM_ERR_LOCK_NOT_READY
  else
    modify set_cleanup_running ;;
    desc ← GetLock name;
    match desc with
    | None => mret MXM_ERR_LOCK_NOT_FOUND
    | Some i =>
        ret ← TryLock name i isExclusive u;
        c ← gets (client_at i);
        match ClientDesc.GetLockId name c with
        | None => mret MXM_ERR_LOCK_NOT_FOUND
        | Some lockId =>
            if negb (Z.eqb ret MXM_OK) then
              ref ← ReleaseClientDescRef name;
              (if Z.ltb ref 0 then TryReleaseLock name lockId else mret 0%Z) ;;
              mret ret
            else mret ret
        end
    end.

(** The loop of [UnlockWithDesc]; [n] further attempts follow this one. *)
Fixpoint unlock_loop (n : nat) (name : string) (i : nat) (clientId lockId : Z) (u : LockUdsInfo) : LM Z :=
  a ← call_fn (UnlockCall clientId lockId);
  if Z.eqb a.1 DLOCK_ALREADY_UNLOCKED || Z.eqb a.1 DLOCK_FAIL then
    RemoveClientDescRef name ;; TryReleaseLock name lockId ;; mret MXM_ERR_DLOCK_INNER
  else if Z.eqb a.1 DLOCK_ALREADY_LOCKED || Z.eqb a.1 DLOCK_SUCCESS then
    ref ← ReleaseClientDescRef name;
    (if Z.leb ref 0 then TryReleaseLock name lockId ;; on_client i (ClientDesc.RemoveLockUdsInfoByName name u) else mret tt) ;;
    mret MXM_OK
  else if Z.eqb a.1 DLOCK_EINVAL || Z.eqb a.1 DLOCK_LOCK_NOT_GET || Z.eqb a.1 DLOCK_CLIENTMGR_NOT_INIT ||
          Z.eqb a.1 DLOCK_BAD_RESPONSE || Z.eqb a.1 DLOCK_CLIENT_NOT_INIT then mret MXM_ERR_DLOCK_INNER
  else
    match n with
    | O => mret MXM_ERR_DLOCK_INNER
    | S n => if retryable a.1 then unlock_loop n name i clientId lockId u else mret MXM_ERR_DLOCK_INNER
    end.

Definition UnlockWithDesc (name : string) (i : nat) (u : LockUdsInfo) : LM Z :=
  c ← gets (client_at i);
  match ClientDesc.GetLockId name c with
  | None => mret MXM_ERR_LOCK_NOT_FOUND
  | Some lockId => unlock_loop DEFAULT_TRY_LOCK_COUNT name i (clientId_ c) lockId u
  end.

Definition HandleUnlock (name : string) (u : LockUdsInfo) : LM Z :=
  ok ← ready;
  if negb ok then mret MXM_ERR_LOCK_NOT_READY
  else
    desc ← GetClientDesc name;
    match desc with
    | None => mret MXM_ERR_LOCK_NOT_FOUND
    | Some i =>
        c ← gets (client_at i);
        if negb (ClientDesc.IsLockUdsValid name u c) then mret MXM_ERR_LOCK_NOT_FOUND
        else
          now ← TimeUs;
          if negb (ClientDesc.IsHolderInValidTime name u now c) then UnlockWithDesc name i u ;; mret MXM_OK
          else UnlockWithDesc name i u
    end.

(** ** Expired locks *)

Fixpoint unlock_all (name : string) (i : nat) (us : list LockUdsInfo) : LM unit :=
  match us with [] => mret tt | u :: us => UnlockWithDesc name i u ;; unlock_all name i us end.

Definition CleanUpExpiredLocksForName (name : string) (i : nat) : LM unit :=
  now ← TimeUs;
  us ← gets (fun w => ClientDesc.GetInValidUdsInfo name now (client_at i w));
  unlock_all name i us ;;
  c ← gets (client_at i);
  match ClientDesc.GetLockId name c with
  | None => on_client i (ClientDesc.RemoveLockUdsInfo name)
  | Some _ => mret tt
  end.

Definition cleanup_name (name : string) : LM unit :=
  desc ← GetClientDesc name;
  match desc with
  | None => mret tt
  | Some i =>
      now ← TimeUs;
      c ← gets (client_at i);
      if negb (ClientDesc.IsLockInValidTime name now c) then CleanUpExpiredLocksForName name i else mret tt
  end.

Fixpoint cleanup_names (names : list string) : LM unit :=
  match names with [] => mret tt | name :: names => cleanup_name name ;; cleanup_names names end.

(** One turn of [CleanupExpiredLocksThread]. *)
Definition cleanup_turn : LM unit :=
  ok ← ready;
  if negb ok then mret tt else names ← GetAllShmLockName; cleanup_names names.

(** ** Requests of this node's processes *)

Definition GetClientNode : LM (Z * string) :=
  zen ← asks le_zen;
  match zen with
  | None => mret (MXM_ERR_LOCK_NOT_READY, "")
  | Some z =>
      let '(ret, id) := GetVoteOnlyNode z in
      if negb (Z.eqb ret UBSM_OK) then mret (MXM_ERR_LOCK_NOT_READY, "") else mret (MXM_OK, default "" id)
  end.

Definition is_local (local : RpcNode) (clientNodeId : string) : bool :=
  negb (String.eqb (rn_name local) "") && String.eqb (rn_name local) clientNodeId.

(** The request at the client's node: a connection, then the message, whose
    response has a code. *)
Definition ask_client_node (clientNodeId : string) : LM Z :=
  match NetRpcConfig.ParseRpcNodeFromId clientNodeId with
  | (ret, node) =>
      if negb (Z.eqb ret UBSM_OK) then mret ret
      else
        let name := from_option rn_name "" node in
        rc ← asks (fun env => le_Connect env 0 name);
        if negb (Z.eqb rc 0) then mret rc
        else
          rsp ← asks (fun env => le_SendMsg env 0 name);
          if negb (Z.eqb rsp.1 UBSM_OK) then mret rsp.1 else mret rsp.2
  end.

Definition Lock (name : string) (isExclusive : bool) (u : LockUdsInfo) : LM Z :=
  r ← GetClientNode;
  if negb (Z.eqb r.1 MXM_OK) then mret r.1
  else
    local ← asks le_local;
    if is_local local r.2 then HandleLock name isExclusive u else ask_client_node r.2.

Definition Unlock (name : string) (u : LockUdsInfo) : LM Z :=
  r ← GetClientNode;
  if negb (Z.eqb r.1 MXM_OK) then mret r.1
  else
    local ← asks le_local;
    if is_local local r.2 then HandleUnlock name u else ask_client_node r.2.
