(* ===== verification/LockEvents.v ===== *)
(** Distributed locks: start, stop and recovery of the lock service
    ([src/src/dlock_utils/{ubsm_lock.cpp,ubsm_lock_event.cpp}]), and its endpoints
    ([src/src/mxm_shm/{rpc_handler.cpp,ipc_handler.cpp}]). *)

From S2P Require Import Prelude StoreTypes MsgPacker MsgCodec MsgBase MsgRequests MsgResponses StoreInterface NodeAddress Election ElectionNet Locks LockService.
Import Context Zen.

(** ** Start and stop *)

(** [InitTlsConfig], with what [InitializeTlsPaths] answers. *)
Definition InitTlsConfig : LM Z :=
  enabled ← gets (fun w => enableTls (cfg (lw_ctx w)));
  if negb enabled then mret MXM_OK
  else
    done ← gets tls_ssl_enable;
    if done : bool then mret MXM_OK
    else
      ret ← asks le_tls_paths;
      if negb (Z.eqb ret MXM_OK) then mret ret else modify (set_tls true) ;; mret MXM_OK.

Definition DeinitTlsConfig : LM unit := modify (set_tls false).

Definition SetEid (devEid : string) : LM Z :=
  if String.eqb devEid "" then mret MXM_ERR_PARAM_INVALID
  else
    ok ← asks (fun env => le_eid_ok env devEid);
    if negb ok then mret MXM_ERR_PARAM_INVALID else mret MXM_OK.

Definition DlockServerInit : LM Z :=
  cfg ← gets (fun w => cfg (lw_ctx w));
  ret ← SetEid (dlockDevEid cfg);
  if negb (Z.eqb ret 0) then mret MXM_ERR_PARAM_INVALID
  else
    a ← call_fn (ServerLibInit (maxServerNum cfg));
    if negb (Z.eqb a.1 DLOCK_SUCCESS) then mret MXM_ERR_DLOCK_INNER
    else
      ret ← Executor.ServerStartWrapper (serverIp cfg) (recoveryClientNum cfg) (serverId cfg);
      if negb (Z.eqb ret DLOCK_SUCCESS) then call_if ServerLibDeInit (0%Z, 0%Z) ;; mret MXM_ERR_DLOCK_INNER
      else mret UBSM_OK.

Definition DlockClientLibInit : LM Z :=
  cfg ← gets (fun w => cfg (lw_ctx w));
  ret ← SetEid (dlockDevEid cfg);
  if negb (Z.eqb ret MXM_OK) then mret ret
  else
    a ← call_fn ClientLibInit;
    if negb (Z.eqb a.1 DLOCK_SUCCESS) then mret MXM_ERR_DLOCK_INNER else mret MXM_OK.

Definition DeInitDlockServer : LM Z :=
  cfg ← gets (fun w => cfg (lw_ctx w));
  need ← gets (fun w => isNeedServerDeinit (lw_ctx w));
  if negb (isDlockServer cfg) || negb need then mret DLOCK_SUCCESS
  else
    ok ← gets (pointer_set (ServerStop 0));
    if negb ok then mret MXM_ERR_DLOCK_LIB
    else
      a ← call_fn (ServerStop (serverId cfg));
      if negb (Z.eqb a.1 DLOCK_SUCCESS) then mret MXM_ERR_DLOCK_INNER
      else call_fn ServerLibDeInit ;; modify (set_ctx (SetServerDeinitFlag false)) ;; mret MXM_OK.

Definition DeInit : LM Z :=
  modify (UbsmLockInitSet false) ;;
  server ← gets (fun w => isDlockServer (cfg (lw_ctx w)));
  (if server : bool then DeInitDlockServer ;; mret tt else mret tt) ;;
  client ← gets (fun w => isDlockClient (cfg (lw_ctx w)));
  (if client : bool then UnInitDlockClient ;; call_if ClientLibDeInit (0%Z, 0%Z) ;; mret tt else mret tt) ;;
  Executor.DestroyDLockDlopenLib ;;
  DeinitTlsConfig ;;
  mret DLOCK_SUCCESS.

(** The client's part of [Init], and what follows a failure. *)
Definition init_client : LM Z :=
  client ← gets (fun w => isDlockClient (cfg (lw_ctx w)));
  if negb client then mret UBSM_OK
  else
    ret ← DlockClientLibInit;
    if negb (Z.eqb ret UBSM_OK) then mret ret else InitDlockClient.

Definition init_server : LM Z :=
  server ← gets (fun w => isDlockServer (cfg (lw_ctx w)));
  if negb server then mret UBSM_OK
  else
    ret ← DlockServerInit;
    if negb (Z.eqb ret UBSM_OK) then mret ret else modify (set_ctx (SetServerDeinitFlag true)) ;; mret UBSM_OK.

(** The library and the TLS set-up, or neither: the beginning of [Init] and of
    [Reinit]. *)
Definition open_library : LM Z :=
  modify (UbsmLockInitSet false) ;;
  ret ← Executor.InitDLockDlopenLib;
  if negb (Z.eqb ret UBSM_OK) then Executor.DestroyDLockDlopenLib ;; mret ret
  else
    ret ← InitTlsConfig;
    if negb (Z.eqb ret MXM_OK) then DeinitTlsConfig ;; Executor.DestroyDLockDlopenLib ;; mret ret else mret UBSM_OK.

Definition Init : LM Z :=
  ret ← open_library;
  if negb (Z.eqb ret UBSM_OK) then mret ret
  else
    ret ← init_server;
    if negb (Z.eqb ret UBSM_OK) then DeInit ;; mret ret
    else
      ret ← init_client;
      if negb (Z.eqb ret UBSM_OK) then DeInit ;; mret ret
      else modify (UbsmLockInitSet true) ;; mret UBSM_OK.

(** ** Recovery *)

Inductive REINIT_STAGES := CLIENT_REINIT | UPDATE_LOCK | CLIENT_REINIT_DONE.

#[export] Instance REINIT_STAGES_eq : EqDecision REINIT_STAGES.
Proof. solve_decision. Defined.

Definition GetReinitStageName (stage : REINIT_STAGES) : string :=
  match stage with
  | CLIENT_REINIT => "CLIENT_REINIT"
  | UPDATE_LOCK => "UPDATE_LOCK"
  | CLIENT_REINIT_DONE => "CLIENT_REINIT_DONE"
  end.

(** The code and the new [retryCount]. *)
Definition ClientReInitStagesClientReInit (clientId : Z) (serverIp : string) (retryCount : Z) : LM (Z * Z) :=
  ret ← Executor.ClientReinitWrapper clientId serverIp;
  if Z.eqb ret (-1) || Z.eqb ret DLOCK_SERVER_NO_RESOURCE || Z.eqb ret DLOCK_EINVAL then mret (ret, retryCount)
  else if Z.eqb ret DLOCK_NOT_READY then
    if Z.leb DEFAULT_TRY_COUNT retryCount then mret ((-1)%Z, u32 (retryCount + 1)) else mret (ret, u32 (retryCount + 1))
  else mret (ret, retryCount).

(** The code, the new [updateRetryTimes] and the stage. *)
Definition ClientReInitStagesUpdateLocks (clientId updateRetryTimes : Z) (stages : REINIT_STAGES) : LM (Z * Z * REINIT_STAGES) :=
  a ← call_fn (UpdateAllLocks clientId);
  if Z.eqb a.1 DLOCK_BAD_RESPONSE then mret (a.1, updateRetryTimes, stages)
  else if Z.eqb a.1 DLOCK_EAGAIN then mret (a.1, updateRetryTimes, UPDATE_LOCK)
  else if Z.eqb a.1 DLOCK_ENOMEM then
    if Z.leb DEFAULT_TRY_COUNT updateRetryTimes then mret ((-1)%Z, (updateRetryTimes + 1)%Z, stages)
    else mret (a.1, (updateRetryTimes + 1)%Z, UPDATE_LOCK)
  else mret (a.1, updateRetryTimes, stages).

Definition ClientReInitStagesClientReInitDone (clientId : Z) (stages : REINIT_STAGES) : LM (Z * REINIT_STAGES) :=
  a ← call_fn (ClientReinitDone clientId);
  if Z.eqb a.1 DLOCK_BAD_RESPONSE then mret (a.1, CLIENT_REINIT)
  else if Z.eqb a.1 DLOCK_ENOMEM || Z.eqb a.1 DLOCK_SUCCESS then mret (a.1, CLIENT_REINIT_DONE)
  else mret (a.1, stages).

(** The locals of [DlockClientReinit]. *)
Record ReinitLocals := mkReinit {
  ri_ret : Z;
  ri_stages : REINIT_STAGES;
  ri_skipUpdate : bool;
  ri_retryCount : Z;
  ri_updateRetryTimes : Z;
}.

Definition DoClientReInitStagesClientReInit (clientId : Z) (l : ReinitLocals) : LM ReinitLocals :=
  r ← ClientReInitStagesClientReInitDone clientId (ri_stages l);
  mret (mkReinit r.1 r.2 (if Z.eqb r.1 DLOCK_BAD_RESPONSE then true else ri_skipUpdate l) (ri_retryCount l)
          (ri_updateRetryTimes l)).

(** One round of the loop: the code to return at once, or the locals after the
    [switch]. *)
Definition reinit_round (clientId : Z) (serverIp : string) (l : ReinitLocals) : LM (Z + ReinitLocals) :=
  match ri_stages l with
  | CLIENT_REINIT =>
      r ← ClientReInitStagesClientReInit clientId serverIp (ri_retryCount l);
      if Z.eqb r.1 DLOCK_SUCCESS then
        mret (inr (mkReinit r.1 (if ri_skipUpdate l then CLIENT_REINIT_DONE else UPDATE_LOCK) false r.2 (ri_updateRetryTimes l)))
      else mret (inr (mkReinit r.1 CLIENT_REINIT (ri_skipUpdate l) r.2 (ri_updateRetryTimes l)))
  | UPDATE_LOCK =>
      r ← ClientReInitStagesUpdateLocks clientId (ri_updateRetryTimes l) (ri_stages l);
      let '(ret, times, stages) := r in
      let l := mkReinit ret stages (ri_skipUpdate l) (ri_retryCount l) times in
      if Z.eqb ret DLOCK_BAD_RESPONSE then mret (inl ret)
      else if negb (Z.eqb ret DLOCK_SUCCESS) then mret (inr l)
      else l ← DoClientReInitStagesClientReInit clientId l; mret (inr l)
  | CLIENT_REINIT_DONE => l ← DoClientReInitStagesClientReInit clientId l; mret (inr l)
  end.

Definition reinit_gives_up (ret : Z) : bool :=
  Z.eqb ret (-1) || Z.eqb ret DLOCK_EINVAL || Z.eqb ret DLOCK_CLIENT_NOT_INIT || Z.eqb ret DLOCK_CLIENT_REMOVED_BY_SERVER ||
  Z.eqb ret DLOCK_SERVER_NO_RESOURCE.

Definition reinit_finished (l : ReinitLocals) : bool :=
  Z.eqb (ri_ret l) DLOCK_SUCCESS && bool_decide (ri_stages l = CLIENT_REINIT_DONE).

(** The loop, whose rounds the code does not bound; [None] when it still runs
    after [fuel] rounds. *)
Fixpoint reinit_loop (fuel : nat) (clientId : Z) (serverIp : string) (l : ReinitLocals) : LM (option Z) :=
  if reinit_gives_up (ri_ret l) then mret (Some (ri_ret l))
  else
    match fuel with
    | O => mret None
    | S fuel =>
        r ← reinit_round clientId serverIp l;
        match r with
        | inl ret => mret (Some ret)
        | inr l => if reinit_finished l then mret (Some (ri_ret l)) else reinit_loop fuel clientId serverIp l
        end
    end.

Definition DlockClientReinit (fuel : nat) (clientId : Z) (serverIp : string) : LM (option Z) :=
  reinit_loop fuel clientId serverIp (mkReinit DLOCK_BAD_RESPONSE CLIENT_REINIT false 0 0).

(** [GetPrimCfg]: the number of clients to wait for. *)
Definition GetPrimCfg (c : DLockConfig) : Z * Z :=
  if negb (Z.eqb (dlockClientNum c) 0) && Z.ltb ((2 ^ 32 - 1) / dlockClientNum c) (recoveryClientNum c)
  then (MXM_ERR_PARAM_INVALID, 0%Z)
  else (MXM_OK, u32 (recoveryClientNum c * dlockClientNum c)).

(** The server's library is initialised, or the running server is stopped;
    whether the former was done, or the code to return. *)
Definition stop_or_init_server : LM (Z + bool) :=
  need ← gets (fun w => isNeedServerDeinit (lw_ctx w));
  cfg ← gets (fun w => cfg (lw_ctx w));
  if need : bool then call_fn (ServerStop (serverId cfg)) ;; mret (inr false)
  else
    a ← call_fn (ServerLibInit (maxServerNum cfg));
    if negb (Z.eqb a.1 DLOCK_SUCCESS) then mret (inl MXM_ERR_DLOCK_INNER)
    else modify (set_ctx (SetServerDeinitFlag true)) ;; mret (inr true).

Definition DlockServerReinit (serverIp : string) : LM Z :=
  if String.eqb serverIp "" then mret MXM_ERR_PARAM_INVALID
  else
    cfg ← gets (fun w => cfg (lw_ctx w));
    let '(retCode, recovery) := GetPrimCfg cfg in
    if negb (Z.eqb retCode MXM_OK) then mret retCode
    else
      retCode ← SetEid (dlockDevEid cfg);
      if negb (Z.eqb retCode MXM_OK) then mret retCode
      else
        r ← stop_or_init_server;
        match r with
        | inl ret => mret ret
        | inr initializedServerLib =>
            ret ← Executor.ServerStartWrapper serverIp recovery (serverId cfg);
            if negb (Z.eqb ret DLOCK_SUCCESS) then
              (if initializedServerLib : bool
               then call_if ServerLibDeInit (0%Z, 0%Z) ;; modify (set_ctx (SetServerDeinitFlag false))
               else mret tt) ;;
              mret MXM_ERR_DLOCK_INNER
            else mret UBSM_OK
        end.

Fixpoint reinit_clients (fuel : nat) (ids : list Z) : LM (option Z) :=
  match ids with
  | [] => mret (Some MXM_OK)
  | id :: ids =>
      serverIp ← gets (fun w => serverIp (cfg (lw_ctx w)));
      r ← DlockClientReinit fuel id serverIp;
      match r with
      | None => mret None
      | Some result => if negb (Z.eqb result MXM_OK) then mret (Some MXM_ERR_DLOCK_INNER) else reinit_clients fuel ids
      end
  end.

Definition Reinit (fuel : nat) : LM (option Z) :=
  ret ← open_library;
  if negb (Z.eqb ret UBSM_OK) then mret (Some ret)
  else
    server ← gets (fun w => isDlockServer (cfg (lw_ctx w)));
    ip ← gets (fun w => serverIp (cfg (lw_ctx w)));
    result ← (if server : bool then DlockServerReinit ip else mret UBSM_OK);
    if negb (Z.eqb result UBSM_OK) then mret (Some result)
    else
      client ← gets (fun w => isDlockClient (cfg (lw_ctx w)));
      if negb client then mret (Some MXM_OK)
      else
        ids ← gets (fun w => clientId_ <$> dlockClients (lw_ctx w));
        r ← reinit_clients fuel ids;
        match r with
        | Some ret => if Z.eqb ret MXM_OK then modify (UbsmLockInitSet true) ;; mret r else mret r
        | None => mret None
        end.

(** [Heartbeat]; its only caller, [ZenDiscovery::PingDLock], is never called. *)
Fixpoint heartbeat_clients (ids : list Z) : LM Z :=
  match ids with
  | [] => mret DLOCK_SUCCESS
  | id :: ids =>
      a ← call_fn (ClientHeartbeat id);
      if negb (Z.eqb a.1 DLOCK_SUCCESS) && negb (Z.eqb a.1 DLOCK_NOT_READY) then mret a.1 else heartbeat_clients ids
  end.

Definition Heartbeat : LM Z :=
  active ← gets (fun w => isHeartBeatActive (lw_ctx w));
  if negb active then mret DLOCK_SUCCESS
  else ids ← gets (fun w => clientId_ <$> dlockClients (lw_ctx w)); heartbeat_clients ids.

(** ** Events of the election *)

(** The loops of [DoDLockServerInit] and [OnDLockClientInit]; [n] further
    attempts follow this one. *)
Fixpoint init_attempts (n : nat) : LM Z :=
  ret ← Init;
  if Z.eqb ret UBSM_OK then mret ret
  else
    DeInit ;;
    match n with O => mret ret | S n => init_attempts n end.

Definition MORE_ATTEMPTS : nat := Z.to_nat (DEFAULT_TRY_COUNT - 1).

(** [isDlockServer], [isDlockClient], [serverIp], [clientIp] and
    [recoveryClientNum] assigned. *)
Definition set_roles (server client : bool) (ip cip : string) (recovery : Z) (c : DLockConfig) : DLockConfig :=
  mkDLockConfig recovery (dlockClientNum c) server client (maxServerNum c) (serverId c) ip cip (dlockDevEid c)
    (lockExpireTime c) (enableTls c).

Definition DoDLockServerInit (ip : string) : LM unit :=
  modify (set_ctx (set_cfg (fun c => set_roles true (isDlockClient c) ip (clientIp c) (recoveryClientNum c) c))) ;;
  init_attempts MORE_ATTEMPTS ;;
  mret tt.

Definition OnMasterElected (masterId : string) : LM unit :=
  local ← asks le_local;
  if negb (String.eqb (rn_name local) masterId) then mret tt
  else
    init ← gets isUbsmLockInit;
    if init : bool then mret tt else DoDLockServerInit (rn_ip local).

Definition OnDLockClientInit (masterId : string) : LM unit :=
  init ← gets isUbsmLockInit;
  if init : bool then mret tt
  else
    match NetRpcConfig.ParseRpcNodeFromId masterId with
    | (ret, node) =>
        if negb (Z.eqb ret UBSM_OK) then mret tt
        else
          local ← asks le_local;
          modify (set_ctx (set_cfg (fun c =>
            set_roles false true (from_option rn_ip "" node) (rn_ip local) (recoveryClientNum c) c))) ;;
          init_attempts MORE_ATTEMPTS ;;
          mret tt
    end.

Definition demote_server : LM unit :=
  call_if ServerLibDeInit (0%Z, 0%Z) ;;
  modify (set_ctx (SetServerDeinitFlag false)) ;;
  modify (set_ctx (set_cfg (fun c => set_roles false (isDlockClient c) (serverIp c) (clientIp c) 0 c))).

Definition demote_client : LM unit :=
  call_if ClientLibDeInit (0%Z, 0%Z) ;;
  modify (set_ctx (set_cfg (fun c => set_roles (isDlockServer c) false (serverIp c) (clientIp c) (recoveryClientNum c) c))).

Definition OnDLockDemoted : LM unit :=
  server ← gets (fun w => isDlockServer (cfg (lw_ctx w)));
  (if server : bool then demote_server else mret tt) ;;
  client ← gets (fun w => isDlockClient (cfg (lw_ctx w)));
  (if client : bool then demote_client else mret tt) ;;
  modify (UbsmLockInitSet false).

(** One attempt of [DoRecovery], and the loop; [n] further attempts follow. *)
Definition recovery_attempt (fuel : nat) (attempt : nat) (reinitNode : RpcNode) : LM (option Z) :=
  r ← Reinit fuel;
  match r with
  | None => mret None
  | Some ret =>
      if negb (Z.eqb ret DLOCK_SUCCESS) then DeinitTlsConfig ;; mret (Some ret)
      else
        rc ← asks (fun env => le_Connect env attempt (rn_name reinitNode));
        if negb (Z.eqb rc 0) then mret (Some rc)
        else
          rsp ← asks (fun env => le_SendMsg env attempt (rn_name reinitNode));
          if negb (Z.eqb rsp.1 DLOCK_SUCCESS) then mret (Some rsp.1)
          else if negb (Z.eqb rsp.2 UBSM_OK) then mret (Some rsp.2)
          else modify (UbsmLockInitSet true) ;; mret (Some rsp.2)
  end.

Fixpoint recovery_attempts (fuel n attempt : nat) (reinitNode : RpcNode) : LM (option Z) :=
  r ← recovery_attempt fuel attempt reinitNode;
  match r with
  | None => mret None
  | Some ret =>
      if Z.eqb ret DLOCK_SUCCESS then mret r
      else match n with O => mret r | S n => recovery_attempts fuel n (S attempt) reinitNode end
  end.

Definition DoRecovery (fuel : nat) (masterNode reinitNode : RpcNode) : LM (option Z) :=
  modify (set_ctx (set_cfg (fun c => set_roles true false (rn_ip masterNode) (clientIp c) 1 c))) ;;
  recovery_attempts fuel MORE_ATTEMPTS 0 reinitNode.

Definition OnDLockServerRecovery (fuel : nat) (masterId clientId : string) : LM (option unit) :=
  match NetRpcConfig.ParseRpcNodeFromId masterId, NetRpcConfig.ParseRpcNodeFromId clientId with
  | (0%Z, Some masterNode), (0%Z, Some reinitNode) =>
      r ← DoRecovery fuel masterNode reinitNode; mret (const tt <$> r)
  | _, _ => mret (Some tt)
  end.

Definition HandleElectionEvent (fuel : nat) (event : ZenElectionEventType) (masterId clientId : string) : LM (option unit) :=
  match event with
  | HAVE_JOINED => OnDLockServerRecovery fuel masterId clientId
  | MASTER_ELECTED => OnMasterElected masterId ;; mret (Some tt)
  | NODE_DEMOTED => OnDLockDemoted ;; mret (Some tt)
  | BECOME_VOTE_NODE => OnDLockClientInit masterId ;; mret (Some tt)
  | _ => mret (Some tt)
  end.

(** ** Endpoints *)

Module LockEndpoints.

Definition DLockClientReinit (fuel : nat) (req : DLockClientReinitRequest) (rsp : DLockClientReinitResponse)
  : LM (option (Z * DLockClientReinitResponse)) :=
  modify (set_ctx (set_cfg (fun c =>
    set_roles (isDlockServer c) (isDlockClient c) (DLockClientReinitRequest_serverIp_ req) (clientIp c) (recoveryClientNum c) c))) ;;
  r ← Reinit fuel;
  match r with
  | None => mret None
  | Some ret =>
      if negb (Z.eqb ret 0) then
        DeinitTlsConfig ;; mret (Some (ret, mkDLockClientReinitResponse (DLockClientReinitResponse_base rsp) ret ret))
      else mret (Some (UBSM_OK, mkDLockClientReinitResponse (DLockClientReinitResponse_base rsp) UBSM_OK 0))
  end.

Definition HandleMemLock (req : LockRequest) (rsp : DLockResponse) : LM (Z * DLockResponse) :=
  code ← Lock (LockRequest_memName_ req) (LockRequest_isExclusive_ req)
           (mkLockUds (LockRequest_pid_ req) (LockRequest_uid_ req) (LockRequest_gid_ req) 0);
  mret (UBSM_OK, mkDLockResponse (DLockResponse_base rsp) (DLockResponse_errCode_ rsp) code).

Definition HandleMemUnLock (req : UnLockRequest) (rsp : DLockResponse) : LM (Z * DLockResponse) :=
  code ← Unlock (UnLockRequest_memName_ req)
           (mkLockUds (UnLockRequest_pid_ req) (UnLockRequest_uid_ req) (UnLockRequest_gid_ req) 0);
  mret (UBSM_OK, mkDLockResponse (DLockResponse_base rsp) (DLockResponse_errCode_ rsp) code).

(** The processes' requests; [validTime] is not set before the lock is taken. *)
Definition ShmWriteLock (req : ShmWriteLockRequest) (rsp : ShmWriteLockResponse) (pid uid gid validTime : Z)
  : LM (Z * ShmWriteLockResponse) :=
  ret ← Lock (ShmWriteLockRequest_name_ req) true (mkLockUds pid uid gid validTime);
  mret (ret, mkShmWriteLockResponse (ShmWriteLockResponse_base rsp) ret).

Definition ShmReadLock (req : ShmReadLockRequest) (rsp : ShmReadLockResponse) (pid uid gid validTime : Z)
  : LM (Z * ShmReadLockResponse) :=
  ret ← Lock (ShmReadLockRequest_name_ req) false (mkLockUds pid uid gid validTime);
  mret (ret, mkShmReadLockResponse (ShmReadLockResponse_base rsp) ret).

Definition ShmUnLock (req : ShmUnLockRequest) (rsp : ShmUnLockResponse) (pid uid gid validTime : Z)
  : LM (Z * ShmUnLockResponse) :=
  ret ← Unlock (ShmUnLockRequest_name_ req) (mkLockUds pid uid gid validTime);
  mret (ret, mkShmUnLockResponse (ShmUnLockResponse_base rsp) ret).

Definition ShmQueryNode (req : QueryNodeRequest) (rsp : QueryNodeResponse) : LM (Z * QueryNodeResponse) :=
  zen ← asks le_zen;
  match zen with
  | None =>
      mret (0%Z, mkQueryNodeResponse (QueryNodeResponse_base rsp) MXM_ERR_LOCK_NOT_READY (QueryNodeResponse_nodeId_ rsp) false)
  | Some z =>
      let nodeId := if QueryNodeRequest_queryMasterNodeFlag_ req then GetCurrentMaster z else default "" (GetVoteOnlyNode z).2 in
      if String.eqb nodeId "" then
        mret (0%Z, mkQueryNodeResponse (QueryNodeResponse_base rsp) 0 (QueryNodeResponse_nodeId_ rsp) false)
      else mret (0%Z, mkQueryNodeResponse (QueryNodeResponse_base rsp) 0 nodeId true)
  end.

Definition ShmQueryDlockStatus (rsp : QueryDlockStatusResponse) : LM (Z * QueryDlockStatusResponse) :=
  isReady ← ready;
  mret (0%Z, mkQueryDlockStatusResponse (QueryDlockStatusResponse_base rsp) 0 isReady).

End LockEndpoints.
