(* ===== verification/LockInv.v ===== *)
(** Distributed locks: weakest preconditions of the operations, the invariant of
    the bookkeeping, and that every operation keeps it. *)

From S2P Require Import Prelude StoreTypes MsgPacker MsgCodec MsgBase MsgRequests MsgResponses StoreInterface NodeAddress Election ElectionNet Locks LockService LockEvents.
Import Context Zen.

(** ** Weakest preconditions *)

Definition wp {A} (m : LM A) (Q : A -> LockWorld -> Prop) (env : LockEnv) (w : LockWorld) : Prop :=
  Q (m env w).1 (m env w).2.

Section Wp.
Context (env : LockEnv).

Lemma wp_bind {A B} (m : LM A) (f : A -> LM B) Q w :
  wp m (fun x w' => wp (f x) Q env w') env w -> wp (m ≫= f) Q env w.
Proof. unfold wp, mbind, lm_bind. destruct (m env w). auto. Qed.

Lemma wp_ret {A} (x : A) (Q : A -> LockWorld -> Prop) w : Q x w -> wp (mret x) Q env w.
Proof. auto. Qed.

Lemma wp_gets {A} (f : LockWorld -> A) (Q : A -> LockWorld -> Prop) w : Q (f w) w -> wp (gets f) Q env w.
Proof. auto. Qed.

Lemma wp_asks {A} (f : LockEnv -> A) (Q : A -> LockWorld -> Prop) w : Q (f env) w -> wp (asks f) Q env w.
Proof. auto. Qed.

Lemma wp_modify f (Q : unit -> LockWorld -> Prop) w : Q tt (f w) -> wp (modify f) Q env w.
Proof. auto. Qed.

Lemma wp_call c (Q : Z * Z -> LockWorld -> Prop) w :
  (forall a, a = le_lib env (length (lib_trace w)) c -> Q a (log_call c a.1 w)) -> wp (call c) Q env w.
Proof. intros H. by apply H. Qed.

Lemma wp_call_fn c (Q : Z * Z -> LockWorld -> Prop) w :
  pointer_set c w = true -> (forall a, a = le_lib env (length (lib_trace w)) c -> Q a (log_call c a.1 w)) -> wp (call_fn c) Q env w.
Proof. intros Hc H. apply wp_bind, wp_gets. rewrite Hc. by apply wp_call. Qed.

Lemma wp_call_if c d (Q : Z * Z -> LockWorld -> Prop) w :
  (pointer_set c w = true -> forall a, a = le_lib env (length (lib_trace w)) c -> Q a (log_call c a.1 w)) ->
  (pointer_set c w = false -> Q d w) -> wp (call_if c d) Q env w.
Proof. intros H1 H2. apply wp_bind, wp_gets. destruct (pointer_set c w); [by apply wp_call, H1 | by apply wp_ret, H2]. Qed.

Lemma wp_mono {A} (m : LM A) (P Q : A -> LockWorld -> Prop) w : wp m P env w -> (forall x w', P x w' -> Q x w') -> wp m Q env w.
Proof. unfold wp. auto. Qed.

End Wp.

(** Goes through the operations without a lemma of their own. *)
Ltac wstep :=
  lazymatch goal with
  | |- wp (_ ≫= _) _ _ _ => apply wp_bind
  | |- wp (mret _) _ _ _ => apply wp_ret
  | |- wp (gets _) _ _ _ => apply wp_gets
  | |- wp (asks _) _ _ _ => apply wp_asks
  | |- wp (modify _) _ _ _ => apply wp_modify
  end.

Ltac wsteps := cbn [negb]; repeat (wstep; cbv beta; cbn [negb]).

Ltac wif := match goal with |- wp (if ?b then _ else _) _ _ _ => destruct b eqn:? end.

(** Uses what is known of a part of the operation. *)
Ltac wuse H := eapply wp_mono; [apply H | cbv beta].

(** ** The invariant *)

Definition all_symbols : list string :=
  Executor.server_symbols ++ Executor.init_symbols ++ Executor.get_symbols ++ Executor.mgmt_symbols.

(** Every function of the library is there once it is loaded, none before. *)
Definition lib_inv (e : DLockExecutor) : Prop :=
  if isInitialized e then forall s, s ∈ all_symbols -> s ∈ pointers e else pointers e = ∅.

(** A name has a client exactly when that client has a lock for it; counted names have
    a client; the counts are positive and at most [k]; the clients' ids are listed. *)
Record ctx_inv (k : Z) (c : DLockContext) : Prop := mk_ctx_inv {
  meta_lock : forall name i, metaMap c !! name = Some i <-> exists d, dlockClients c !! i = Some d /\ is_Some (name2LockId d !! name);
  ref_meta : forall name, is_Some (refCount c !! name) -> is_Some (metaMap c !! name);
  ref_range : forall name r, refCount c !! name = Some r -> (1 <= r <= k)%Z;
  ids_listed : index2ClientId c = clientId_ <$> dlockClients c;
  num_positive : (1 <= dlockClientNum (cfg c))%Z;
}.

(** In addition the process is not lost, and the service is ready only with the library loaded. *)
Record lock_inv (k : Z) (w : LockWorld) : Prop := mk_lock_inv {
  inv_lib : lib_inv (lw_lib w);
  inv_ready : isUbsmLockInit w = true -> isInitialized (lw_lib w) = true;
  inv_ctx : ctx_inv k (lw_ctx w);
  inv_alive : lw_lost w = false;
}.

Definition loaded (w : LockWorld) : Prop := isInitialized (lw_lib w) = true.

(** The invariant while the library is in use. *)
Definition serving (k : Z) (w : LockWorld) : Prop := lock_inv k w /\ loaded w.

Lemma symbols_listed c s : symbol_of c = Some s -> s ∈ all_symbols.
Proof. destruct c; intros [= <-]; apply (bool_decide_unpack _); vm_compute; reflexivity. Qed.

Lemma loaded_pointer k c w : lock_inv k w -> loaded w -> pointer_set c w = true.
Proof.
  intros I L. unfold pointer_set. destruct (symbol_of c) as [s|] eqn:E; [|done]. apply bool_decide_eq_true.
  pose proof (inv_lib _ _ I) as H. unfold lib_inv in H. rewrite L in H. by apply H, (symbols_listed c).
Qed.

Lemma pointer_loaded k c w : lock_inv k w -> symbol_of c <> None -> pointer_set c w = true -> loaded w.
Proof.
  intros I Hc. unfold pointer_set. destruct (symbol_of c) as [s|]; [|done]. intros H. apply bool_decide_eq_true in H.
  pose proof (inv_lib _ _ I) as HL. unfold lib_inv in HL. unfold loaded. destruct (isInitialized (lw_lib w)); [done|].
  rewrite HL in H. set_solver.
Qed.

Lemma pointer_serving k c w : lock_inv k w -> pointer_set c w = true -> symbol_of c <> None -> serving k w.
Proof. intros I P H. split; [done | by apply (pointer_loaded k c)]. Qed.

Lemma wp_serve env k c (Q : Z * Z -> LockWorld -> Prop) w :
  serving k w -> (forall a, a = le_lib env (length (lib_trace w)) c -> serving k (log_call c a.1 w) -> Q a (log_call c a.1 w)) ->
  wp (call_fn c) Q env w.
Proof.
  intros [I L] H. apply wp_call_fn; [by eapply loaded_pointer|]. intros a Ha. apply H; [done|]. destruct I. by split.
Qed.

Lemma lock_inv_log k c r w : lock_inv k w -> lock_inv k (log_call c r w).
Proof. by destruct 1. Qed.

Lemma lock_inv_ctx k k' f w : lock_inv k w -> ctx_inv k' (f (lw_ctx w)) -> lock_inv k' (set_ctx f w).
Proof. by destruct 1. Qed.

Lemma serving_ctx k k' f w : serving k w -> ctx_inv k' (f (lw_ctx w)) -> serving k' (set_ctx f w).
Proof. intros [I L] H. split; [by eapply lock_inv_ctx | done]. Qed.

Lemma serving_clock env k w : serving k w -> serving k (TimeUs env w).2.
Proof. intros [[] L]. by split. Qed.

Create HintDb locks.
#[export] Hint Resolve lock_inv_log serving_clock : locks.

(** ** Changes of the context *)

Lemma ctx_inv_weaken k k' c : ctx_inv k c -> (k <= k')%Z -> ctx_inv k' c.
Proof. intros [H1 H2 H3 H4 H5] Hk. split; try done. intros name r Hr. apply H3 in Hr. lia. Qed.

(** A change of the clients that leaves locks and ids. *)
Lemma ctx_inv_clients k f i c :
  (forall d, name2LockId (f d) = name2LockId d) -> (forall d, clientId_ (f d) = clientId_ d) ->
  ctx_inv k c -> ctx_inv k (set_clients (alter f i) c).
Proof.
  intros Hl Hc [H1 H2 H3 H4 H5]. split; try done; cbn.
  - intros name j. rewrite H1. destruct (decide (i = j)) as [->|]; [|by rewrite list_lookup_alter_ne].
    rewrite list_lookup_alter_eq. split.
    + intros (d & Hd & Hn). exists (f d). rewrite Hd, Hl. done.
    + intros (d & Hd & Hn). apply fmap_Some in Hd as (d' & Hd & ->). exists d'. by rewrite Hl in Hn.
  - rewrite H4. apply list_eq. intros j. rewrite !list_lookup_fmap.
    destruct (decide (i = j)) as [->|]; [|by rewrite list_lookup_alter_ne].
    rewrite list_lookup_alter_eq. destruct (dlockClients c !! j); simpl; [by rewrite Hc | done].
Qed.

(** A change of the configuration that leaves the number of clients. *)
Lemma ctx_inv_cfg k f c : (forall g, dlockClientNum (f g) = dlockClientNum g) -> ctx_inv k c -> ctx_inv k (set_cfg f c).
Proof. intros Hf [H1 H2 H3 H4 H5]. split; try done. cbn. by rewrite Hf. Qed.

(** A name is counted once more. *)
Lemma ctx_inv_ref_add k name c :
  (k + 1 < 2 ^ 31)%Z -> (0 <= k)%Z -> is_Some (metaMap c !! name) -> ctx_inv k c -> ctx_inv (k + 1) (set_refCount (ref_add name) c).
Proof.
  intros Hk H0 Hm [H1 H2 H3 H4 H5]. split; try done; cbn; unfold ref_add.
  - intros n. destruct (decide (name = n)) as [->|]; [done|]. rewrite lookup_insert_ne by done. apply H2.
  - intros n r. destruct (decide (name = n)) as [->|].
    + rewrite lookup_insert_eq. intros [= <-]. destruct (refCount c !! n) as [r|] eqn:E; simpl.
      * apply H3 in E. rewrite u32_small; lia.
      * rewrite u32_small; lia.
    + rewrite lookup_insert_ne by done. intros Hr. apply H3 in Hr. lia.
Qed.

Lemma ref_release_cases k name (c : DLockContext) :
  ctx_inv k c -> (k < 2 ^ 31)%Z ->
  ref_release name (refCount c) =
    match refCount c !! name with
    | None => (NOT_FOUND, refCount c)
    | Some r => ((r - 1)%Z, if Z.eqb r 1 then delete name (refCount c) else <[name := (r - 1)%Z]> (refCount c))
    end.
Proof.
  intros I Hk. unfold ref_release. destruct (refCount c !! name) as [r|] eqn:E; [|done]. apply (ref_range _ _ I) in E.
  rewrite u32_small, s32_small by lia. destruct (Z.eqb_spec (r - 1) 0), (Z.eqb_spec r 1); try lia; [|done]. by subst.
Qed.

(** Fewer counts. *)
Lemma ctx_inv_refs k m c :
  (forall name r, m !! name = Some r -> (1 <= r <= k)%Z /\ is_Some (refCount c !! name)) ->
  ctx_inv k c -> ctx_inv k (set_refCount (fun _ => m) c).
Proof.
  intros Hm [H1 H2 H3 H4 H5]. split; try done; cbn.
  - intros name [r Hr]. apply Hm in Hr as [_ Hr]. auto.
  - intros name r Hr. by apply Hm in Hr as [? _].
Qed.

Lemma ctx_inv_release k name c :
  (k < 2 ^ 31)%Z -> ctx_inv k c -> ctx_inv k (set_refCount (fun _ => (ref_release name (refCount c)).2) c).
Proof.
  intros Hk I. apply ctx_inv_refs; [|done]. rewrite (ref_release_cases k) by done. intros n r.
  destruct (refCount c !! name) as [r0|] eqn:E; cbn; [|intros Hr; split; [by apply (ref_range _ _ I) in Hr | done]].
  pose proof (ref_range _ _ I _ _ E) as H0. destruct (Z.eqb_spec r0 1) as [->|].
  - intros Hr. apply lookup_delete_Some in Hr as [_ Hr]. split; [by apply (ref_range _ _ I) in Hr | done].
  - destruct (decide (name = n)) as [->|].
    + rewrite lookup_insert_eq. intros [= <-]. split; [lia | done].
    + rewrite lookup_insert_ne by done. intros Hr. split; [by apply (ref_range _ _ I) in Hr | done].
Qed.

Lemma ctx_inv_ref_delete k name c : ctx_inv k c -> ctx_inv k (set_refCount (delete name) c).
Proof.
  intros I. apply (ctx_inv_refs k (delete name (refCount c))); [|done]. intros n r Hr. apply lookup_delete_Some in Hr as [_ Hr].
  split; [by apply (ref_range _ _ I) in Hr | done].
Qed.

(** A lock is forgotten: its client and the client's lock id. *)
Lemma ctx_inv_forget k name i c :
  metaMap c !! name = Some i -> refCount c !! name = None -> ctx_inv k c ->
  ctx_inv k (set_clients (alter (ClientDesc.RemoveLockId name) i) (set_metaMap (delete name) c)).
Proof.
  intros Hm Hr [H1 H2 H3 H4 H5]. split; try done; cbn.
  - intros n j. rewrite lookup_delete_Some, H1. destruct (decide (i = j)) as [->|].
    + rewrite list_lookup_alter_eq. split.
      * intros (Hn & d & Hd & Hl). exists (ClientDesc.RemoveLockId name d). rewrite Hd. cbn. by rewrite lookup_delete_ne.
      * intros (d & Hd & l & Hl). apply fmap_Some in Hd as (d' & Hd & ->). cbn in Hl. apply lookup_delete_Some in Hl as [Hn Hl].
        split; [done|]. by exists d'.
    + rewrite list_lookup_alter_ne by done. split; [by intros [_ H]|]. intros H. split; [|done]. intros <-.
      apply H1 in H. congruence.
  - intros n Hn. assert (name <> n) by (intros <-; rewrite Hr in Hn; by destruct Hn). rewrite lookup_delete_ne by done. auto.
  - rewrite H4. apply list_eq. intros j. rewrite !list_lookup_fmap.
    destruct (decide (i = j)) as [->|]; [|by rewrite list_lookup_alter_ne].
    rewrite list_lookup_alter_eq. by destruct (dlockClients c !! j).
Qed.

(** A lock is learnt. *)
Lemma ctx_inv_learn k name i lockId c :
  metaMap c !! name = None -> i < length (dlockClients c) -> ctx_inv k c ->
  ctx_inv k (set_metaMap (insert name i) (set_clients (alter (ClientDesc.SetLockId name lockId) i) c)).
Proof.
  intros Hm Hi [H1 H2 H3 H4 H5]. apply lookup_lt_is_Some_2 in Hi as [d0 Hd0]. split; try done; cbn.
  - intros n j. destruct (decide (name = n)) as [<-|Hn].
    + rewrite lookup_insert_eq. split.
      * intros [= <-]. rewrite list_lookup_alter_eq, Hd0. cbn. eexists; split; [done|]. cbn. by rewrite lookup_insert_eq.
      * intros (d & Hd & Hl). destruct (decide (i = j)) as [->|]; [done|]. rewrite list_lookup_alter_ne in Hd by done.
        assert (metaMap c !! name = Some j) by (apply H1; eauto). congruence.
    + rewrite lookup_insert_ne, H1 by done. destruct (decide (i = j)) as [->|]; [|by rewrite list_lookup_alter_ne].
      rewrite list_lookup_alter_eq, Hd0. cbn. split.
      * intros (d & [= <-] & Hl). eexists; split; [done|]. cbn. by rewrite lookup_insert_ne.
      * intros (d & [= <-] & Hl). cbn in Hl. rewrite lookup_insert_ne in Hl by done. eauto.
  - intros n Hn. destruct (decide (name = n)) as [->|]; [by rewrite lookup_insert_eq | rewrite lookup_insert_ne by done; auto].
  - rewrite H4. apply list_eq. intros j. rewrite !list_lookup_fmap.
    destruct (decide (i = j)) as [->|]; [|by rewrite list_lookup_alter_ne].
    rewrite list_lookup_alter_eq. by destruct (dlockClients c !! j).
Qed.

(** ** The calls *)

(** The calls that were made are not releases of a lock. *)
Definition no_release (w w' : LockWorld) : Prop :=
  exists l, lib_trace w' = l ++ lib_trace w /\ forall clientId lockId code, (ReleaseLock clientId lockId, code) ∉ l.

Lemma no_release_refl w : no_release w w.
Proof. exists []. split; [done|]. set_solver. Qed.

Lemma no_release_trans w1 w2 w3 : no_release w1 w2 -> no_release w2 w3 -> no_release w1 w3.
Proof. intros (l1 & E1 & H1) (l2 & E2 & H2). exists (l2 ++ l1). rewrite E2, E1, app_assoc. split; [done|]. set_solver. Qed.

Lemma no_release_log c r w : (forall clientId lockId, c <> ReleaseLock clientId lockId) -> no_release w (log_call c r w).
Proof.
  intros Hc. exists [(c, r)]. split; [done|]. intros clientId lockId code H%list_elem_of_singleton.
  inversion H. by apply (Hc clientId lockId).
Qed.
