(* ===== verification/LockOps.v ===== *)
(** Distributed locks: what each operation on locks does to the bookkeeping, and
    that it keeps the invariant. *)

From S2P Require Import Prelude StoreTypes MsgPacker MsgCodec MsgBase MsgRequests MsgResponses StoreInterface NodeAddress Election ElectionNet Locks LockService LockEvents LockInv.
Import Context Zen.

Section Ops.
Context (env : LockEnv) (k : Z) (Hk : (0 <= k < 2 ^ 31)%Z).
Implicit Types (w : LockWorld) (name : string) (u : LockUdsInfo).

Definition forget_lock name (i : nat) (c : DLockContext) : DLockContext :=
  set_clients (alter (ClientDesc.RemoveLockId name) i) (set_metaMap (delete name) c).

Lemma TryReleaseLock_spec name lockId i w :
  serving k w -> metaMap (lw_ctx w) !! name = Some i -> refCount (lw_ctx w) !! name = None ->
  wp (TryReleaseLock name lockId) (fun _ w' => serving k w' /\ lw_ctx w' = forget_lock name i (lw_ctx w)) env w.
Proof.
  intros S Hm Hr. unfold TryReleaseLock, GetClientDesc, RemoveClientDesc, on_client. wsteps. rewrite Hm. wsteps.
  assert (S' : serving k (set_ctx (set_clients (alter (ClientDesc.RemoveLockId name) i)) (set_ctx (set_metaMap (delete name)) w))).
  { destruct S as [I L]. split; [|done]. destruct I as [I1 I2 I3 I4]. split; try done. by apply ctx_inv_forget. }
  eapply wp_serve; [done|]. intros a _ Sa. wsteps. done.
Qed.

Definition granted name (i : nat) u (now : Z) (c : DLockContext) : DLockContext :=
  set_clients
    (alter (ClientDesc.SetLockUdsInfo name
              (mkLockUds (lu_pid u) (lu_uid u) (lu_gid u) (u64 (now + lockExpireTime (cfg c) * 1000000)))) i) c.

Lemma ctx_inv_granted name i u now c : ctx_inv k c -> ctx_inv k (granted name i u now c).
Proof. by apply ctx_inv_clients. Qed.

(** The lock is granted and recorded, or nothing changes. *)
Definition try_outcome name (i : nat) u w (ret : Z) w' : Prop :=
  serving k w' /\ no_release w w' /\
  (ret = MXM_OK /\ lw_ctx w' = granted name i u (le_now env (clock_reads w)) (lw_ctx w) \/
   ret <> MXM_OK /\ lw_ctx w' = lw_ctx w).

Lemma try_lock_loop_spec n name i clientId lockId isExclusive u w :
  serving k w ->
  wp (try_lock_loop n name i clientId lockId isExclusive (lockExpireTime (cfg (lw_ctx w))) u) (try_outcome name i u w) env w.
Proof.
  assert (F : forall ret w1, serving k w1 -> no_release w w1 -> ret <> MXM_OK -> lw_ctx w1 = lw_ctx w -> try_outcome name i u w ret w1).
  { intros ret w1 S1 N1 Hr E1. split; [done|]. split; [done | by right]. }
  revert F. revert w. induction n as [|n IH]; intros w F S; cbn [try_lock_loop].
  all: apply wp_bind; eapply wp_serve; [done|]; intros a _ Sa.
  all: pose proof (no_release_log (TryLockCall clientId lockId isExclusive (lockExpireTime (cfg (lw_ctx w)))) a.1 w
                     (fun _ _ => ltac:(discriminate))) as Na.
  all: wif; [by wsteps; apply F|].
  all: wif; [apply wp_bind; eapply wp_serve; [done|]; intros b _ Sb; wsteps; apply F; [done | | done | done];
             by eapply no_release_trans; [exact Na | apply no_release_log]|].
  all: wif; [by wsteps; apply F|].
  all: wif.
  1, 3: wsteps; unfold wp; cbn [fst snd TimeUs]; unfold on_client; unfold modify, mbind, lm_bind, mret, lm_ret; cbn [fst snd].
  1, 2: split; [|split; [exact Na | by left]].
  1, 2: destruct Sa as [[I1 I2 I3 I4] L]; split; [|done]; split; try done; by apply ctx_inv_granted.
  - wsteps. by apply F.
  - wif; [|wsteps; by apply F]. eapply wp_mono; [refine (IH _ _ Sa)|].
    + intros ret w1 S1 N1 Hr E1. split; [done|]. split; [done | by right].
    + intros ret w' (S' & N' & H). split; [done|]. split; [exact (no_release_trans _ _ _ Na N') | exact H].
Qed.

Lemma ctx_lock_id name i c :
  ctx_inv k c -> metaMap c !! name = Some i -> exists d l, dlockClients c !! i = Some d /\ name2LockId d !! name = Some l.
Proof. intros I Hm. apply (meta_lock _ _ I) in Hm as (d & Hd & l & Hl). eauto. Qed.

Lemma TryLock_spec name i isExclusive u w :
  serving k w -> metaMap (lw_ctx w) !! name = Some i ->
  wp (TryLock name i isExclusive u) (fun ret w' =>
    try_outcome name i u w ret w' /\
    (ret = MXM_OK -> isExclusive = true -> forall r, refCount (lw_ctx w) !! name = Some r -> (r <= 1)%Z)) env w.
Proof.
  intros S Hm. unfold TryLock, GetClientDescRef. wsteps. wif.
  - wsteps. split; [split; [done | split; [apply no_release_refl | by right]] | done].
  - wsteps. destruct (ctx_lock_id name i (lw_ctx w)) as (d & l & Hd & Hl); [apply S | done|].
    unfold client_at, ClientDesc.GetLockId. rewrite Hd. cbn [default from_option id]. unfold id. rewrite Hl. wsteps.
    wuse try_lock_loop_spec; [done|]. intros ret w' H. split; [done|]. intros _ -> r Hr. cbn in Heqb. rewrite Hr in Heqb.
    apply Z.ltb_ge in Heqb. rewrite s32_small in Heqb; [done|]. apply (ref_range k) in Hr; [lia | apply S].
Qed.

Definition released name (c : DLockContext) : DLockContext := set_refCount (fun _ => (ref_release name (refCount c)).2) c.

(** What a successful [unlock] of the library does: one reference less, and the
    lock and the record of the holder are dropped with the last one. *)
Definition unlocked name (i : nat) u (c : DLockContext) : DLockContext :=
  if Z.leb (ref_release name (refCount c)).1 0
  then set_clients (alter (ClientDesc.RemoveLockUdsInfoByName name u) i) (forget_lock name i (released name c))
  else released name c.

Definition unlock_outcome name (i : nat) u w (ret : Z) w' : Prop :=
  serving k w' /\
  (ret = MXM_OK /\ lw_ctx w' = unlocked name i u (lw_ctx w) \/
   ret <> MXM_OK /\ (lw_ctx w' = lw_ctx w \/ lw_ctx w' = forget_lock name i (set_refCount (delete name) (lw_ctx w)))).

Lemma released_none name c : ctx_inv k c -> ((ref_release name (refCount c)).1 <= 0)%Z -> refCount (released name c) !! name = None.
Proof.
  intros I. cbn. rewrite (ref_release_cases k) by (done || lia). destruct (refCount c !! name) as [r|] eqn:E; cbn; [|done].
  apply (ref_range k) in E; [|done]. intros Hr. replace r with 1%Z by lia. cbn. apply lookup_delete_eq.
Qed.

Lemma unlock_success_spec name i u lockId w :
  serving k w -> metaMap (lw_ctx w) !! name = Some i ->
  wp (ref ← ReleaseClientDescRef name;
      (if Z.leb ref 0 then TryReleaseLock name lockId ;; on_client i (ClientDesc.RemoveLockUdsInfoByName name u) else mret tt) ;;
      mret MXM_OK) (fun ret w' => serving k w' /\ ret = MXM_OK /\ lw_ctx w' = unlocked name i u (lw_ctx w)) env w.
Proof.
  intros S Hm. unfold ReleaseClientDescRef. wsteps. unfold unlocked.
  assert (S1 : serving k (set_ctx (released name) w)) by (eapply serving_ctx; [done|]; apply ctx_inv_release; [lia | apply S]).
  destruct (Z.leb_spec (ref_release name (refCount (lw_ctx w))).1 0) as [Hr|Hr]; wsteps.
  - wuse (TryReleaseLock_spec name lockId i); [done | done | by apply released_none; [apply S|]|].
    intros _ w' [S' E]. unfold on_client. wsteps. split; [|split; [done|]].
    + eapply serving_ctx; [done|]. apply ctx_inv_clients; [done | done | apply S'].
    + cbn. by rewrite E.
  - done.
Qed.

Lemma unlock_loop_spec n name i clientId lockId u w :
  serving k w -> metaMap (lw_ctx w) !! name = Some i ->
  wp (unlock_loop n name i clientId lockId u) (unlock_outcome name i u w) env w.
Proof.
  revert w. induction n as [|n IH]; intros w S Hm; cbn [unlock_loop].
  all: apply wp_bind; eapply wp_serve; [done|]; intros a _ Sa.
  all: wif; [unfold RemoveClientDescRef; wsteps;
             wuse (TryReleaseLock_spec name lockId i);
             [eapply serving_ctx; [done|]; apply ctx_inv_ref_delete, Sa | done | apply lookup_delete_eq
             | intros _ w' [S' E]; wsteps; split; [done|]; right; split; [done | by right]]|].
  all: wif; [wuse unlock_success_spec; [done | done | intros ret w' (S' & -> & E); split; [done | by left]]|].
  all: wif; [wsteps; split; [done|]; right; split; [done | by left]|].
  - wsteps. split; [done|]; right; split; [done | by left].
  - wif; [|wsteps; split; [done|]; right; split; [done | by left]]. wuse IH; [done | done|]. intros ret w' H. exact H.
Qed.

Lemma UnlockWithDesc_spec name i u w :
  serving k w -> metaMap (lw_ctx w) !! name = Some i -> wp (UnlockWithDesc name i u) (unlock_outcome name i u w) env w.
Proof.
  intros S Hm. unfold UnlockWithDesc. wsteps. destruct (ctx_lock_id name i (lw_ctx w)) as (d & l & Hd & Hl); [apply S | done|].
  unfold client_at, ClientDesc.GetLockId. rewrite Hd. cbn [default from_option id]. unfold id. rewrite Hl.
  by apply unlock_loop_spec.
Qed.

(** Without a lock of the client nothing happens. *)
Lemma UnlockWithDesc_none name i u w :
  serving k w -> metaMap (lw_ctx w) !! name <> Some i -> UnlockWithDesc name i u env w = (MXM_ERR_LOCK_NOT_FOUND, w).
Proof.
  intros S Hm. unfold UnlockWithDesc, gets, mbind, lm_bind, ClientDesc.GetLockId, client_at.
  destruct (dlockClients (lw_ctx w) !! i) as [d|] eqn:Hd; cbn; [|done].
  destruct (name2LockId d !! name) eqn:Hl; [|done]. destruct Hm. apply (meta_lock k); [apply S | eauto].
Qed.

Lemma unlock_outcome_serving name i u w ret w' : unlock_outcome name i u w ret w' -> serving k w'.
Proof. by intros [? _]. Qed.

Lemma UnlockWithDesc_serving name i u w : serving k w -> wp (UnlockWithDesc name i u) (fun _ => serving k) env w.
Proof.
  intros S. destruct (decide (metaMap (lw_ctx w) !! name = Some i)) as [Hm|Hm].
  - wuse UnlockWithDesc_spec; [done | done|]. intros ret w'. apply unlock_outcome_serving.
  - unfold wp. by rewrite UnlockWithDesc_none.
Qed.

(** ** The requests *)

Lemma GetDlockClient_spec w :
  serving k w ->
  wp GetDlockClient (fun d w' => w' = set_ctx bump_clientIndex w /\ forall i, d = Some i -> i < length (dlockClients (lw_ctx w))) env w.
Proof.
  intros S. unfold GetDlockClient. wsteps. cbn. destruct (Z.eqb_spec (dlockClientNum (cfg (lw_ctx w))) 0) as [E|E].
  - pose proof (num_positive k (lw_ctx w) (inv_ctx _ _ (proj1 S))). lia.
  - wsteps. cbn. pose proof (num_positive k (lw_ctx w) (inv_ctx _ _ (proj1 S))).
    pose proof (Z.mod_pos_bound (clientIndex (lw_ctx w)) (dlockClientNum (cfg (lw_ctx w))) ltac:(lia)) as Hb.
    match goal with |- context [Z.leb ?a ?b] => destruct (Z.leb_spec a b) end; wsteps; (split; [done|]); [by intros|].
    intros i [= <-]. lia.
Qed.

(** The context after [GetLock] has found or made the lock of a name. *)
Definition referenced name (i : nat) (c c' : DLockContext) : Prop :=
  metaMap c !! name = Some i /\ c' = set_refCount (ref_add name) c \/
  metaMap c !! name = None /\ i < length (dlockClients c) /\
  exists lockId, c' = set_refCount (ref_add name) (set_metaMap (insert name i)
                       (set_clients (alter (ClientDesc.SetLockId name lockId) i) (bump_clientIndex c))).

Lemma serving_ref_add name i w :
  (k + 1 < 2 ^ 31)%Z -> serving k w -> metaMap (lw_ctx w) !! name = Some i -> serving (k + 1) (set_ctx (set_refCount (ref_add name)) w).
Proof. intros Hk1 S Hm. eapply serving_ctx; [done|]. apply ctx_inv_ref_add; [lia | lia | done | apply S]. Qed.

Definition get_lock_outcome name w w' (d : option nat) : Prop :=
  match d with
  | None => serving k w' /\ lw_ctx w' = bump_clientIndex (lw_ctx w) /\ metaMap (lw_ctx w) !! name = None
  | Some i => serving (k + 1) w' /\ referenced name i (lw_ctx w) (lw_ctx w')
  end.

Lemma GetLock_spec name w :
  (k + 1 < 2 ^ 31)%Z -> serving k w ->
  wp (GetLock name) (fun d w' => clock_reads w' = clock_reads w /\ no_release w w' /\ get_lock_outcome name w w' d) env w.
Proof.
  intros Hk1 S. unfold GetLock, ContainClientDesc, GetClientDesc, AddClientDescRef, SetClientDesc, on_client. wsteps.
  destruct (metaMap (lw_ctx w) !! name) as [i|] eqn:Hm.
  - rewrite bool_decide_eq_true_2 by done. wsteps. split; [done|]. split; [apply (no_release_refl w)|]. rewrite Hm.
    split; [by eapply serving_ref_add | by left].
  - rewrite bool_decide_eq_false_2 by (by intros []). wsteps. wuse GetDlockClient_spec; [done|]. intros d w1 [-> Hd].
    assert (S1 : serving k (set_ctx bump_clientIndex w)).
    { eapply serving_ctx; [done|]. destruct S as [[_ _ [] _] _]. by split. }
    destruct d as [i|]; wsteps; [|by split; [|split; [apply (no_release_refl w)|]]]. eapply wp_serve; [done|]. intros a _ Sa.
    set (wa := log_call _ _ _) in *. assert (Na : no_release w wa) by (by apply (no_release_log _ a.1 w)).
    wif; wsteps; [done|]. split; [done|]. split; [exact Na|]. split; [|right; eauto 10].
    assert (S2 : serving k (set_ctx (set_metaMap (insert name i)) (set_ctx (set_clients (alter (ClientDesc.SetLockId name a.2) i)) wa))).
    { destruct Sa as [[I1 I2 I3 I4] L]. split; [|done]. split; try done. apply ctx_inv_learn; [done | by apply Hd | done]. }
    apply (serving_ref_add name i _ Hk1 S2). apply lookup_insert_eq.
Qed.

(** The records of the processes, client by client. *)
Definition holders (c : DLockContext) : list (gmap string (gmap UdsKey Z)) := name2UdsInfo <$> dlockClients c.

Lemma holders_alter f i c : (forall d, name2UdsInfo (f d) = name2UdsInfo d) -> holders (set_clients (alter f i) c) = holders c.
Proof.
  intros Hf. unfold holders. cbn. apply list_eq. intros j. rewrite !list_lookup_fmap.
  destruct (decide (i = j)) as [->|]; [|by rewrite list_lookup_alter_ne]. rewrite list_lookup_alter_eq.
  destruct (dlockClients c !! j); cbn; [by rewrite Hf | done].
Qed.

Lemma referenced_facts name i c c' :
  ctx_inv k c -> referenced name i c c' ->
  metaMap c' !! name = Some i /\ refCount c' = ref_add name (refCount c) /\ holders c' = holders c /\ cfg c' = cfg c.
Proof.
  intros I [[Hm ->]|(Hm & Hi & lockId & ->)]; [done|]. cbn. rewrite lookup_insert_eq. split; [done|]. split; [done|]. split; [|done].
  exact (holders_alter (ClientDesc.SetLockId name lockId) i (bump_clientIndex c) (fun _ => eq_refl)).
Qed.

(** A reference taken and given back. *)
Lemma ref_add_release name c :
  ctx_inv k c -> (k + 1 < 2 ^ 31)%Z ->
  (0 <= (ref_release name (ref_add name (refCount c))).1)%Z /\ (ref_release name (ref_add name (refCount c))).2 = refCount c.
Proof.
  intros I Hk1. unfold ref_release, ref_add. rewrite lookup_insert_eq. destruct (refCount c !! name) as [r|] eqn:E; cbn [default from_option id].
  - unfold id. pose proof (ref_range _ _ I _ _ E). rewrite (u32_small (r + 1)), u32_small by lia. replace (r + 1 - 1)%Z with r by lia.
    destruct (Z.eqb_spec r 0); [lia|]. cbn. rewrite s32_small by lia. split; [lia|]. by rewrite insert_insert_eq, insert_id.
  - cbn. rewrite delete_insert_id by done. done.
Qed.

Definition record_holder name u (validTime : Z) (m : gmap string (gmap UdsKey Z)) : gmap string (gmap UdsKey Z) :=
  <[name := <[uds_key u := validTime]> (default ∅ (m !! name))]> m.

Lemma holders_granted name i u now c :
  holders (granted name i u now c) = alter (record_holder name u (u64 (now + lockExpireTime (cfg c) * 1000000))) i (holders c).
Proof.
  unfold holders, granted. cbn. apply list_eq. intros j. rewrite list_lookup_fmap.
  destruct (decide (i = j)) as [->|].
  - rewrite !list_lookup_alter_eq, list_lookup_fmap. by destruct (dlockClients c !! j).
  - by rewrite !list_lookup_alter_ne, list_lookup_fmap by done.
Qed.

(** What a lock request comes to. *)
Definition lock_outcome name (isExclusive : bool) u w (ret : Z) w' : Prop :=
  (ret = MXM_OK /\ refCount (lw_ctx w') = ref_add name (refCount (lw_ctx w)) /\
   (isExclusive = true -> refCount (lw_ctx w) !! name = None) /\
   exists i, metaMap (lw_ctx w') !! name = Some i /\
     holders (lw_ctx w') =
       alter (record_holder name u (u64 (le_now env (clock_reads w) + lockExpireTime (cfg (lw_ctx w)) * 1000000))) i
         (holders (lw_ctx w))) \/
  (ret <> MXM_OK /\ refCount (lw_ctx w') = refCount (lw_ctx w) /\ holders (lw_ctx w') = holders (lw_ctx w)).

End Ops.

(** The calls after [GetLock], at one reference more. *)
Lemma lock_attempt_spec env k name i isExclusive u w w1 :
  (0 <= k)%Z -> (k + 1 < 2 ^ 31)%Z -> serving k w -> serving (k + 1) w1 -> referenced name i (lw_ctx w) (lw_ctx w1) ->
  clock_reads w1 = clock_reads w ->
  wp (ret ← TryLock name i isExclusive u;
      c ← gets (client_at i);
      match ClientDesc.GetLockId name c with
      | None => mret MXM_ERR_LOCK_NOT_FOUND
      | Some lockId =>
          if negb (Z.eqb ret MXM_OK) then
            ref ← ReleaseClientDescRef name;
            (if Z.ltb ref 0 then TryReleaseLock name lockId else mret 0%Z) ;; mret ret
          else mret ret
      end) (fun ret w' => serving (k + 1) w' /\ lock_outcome env name isExclusive u w ret w' /\
              metaMap (lw_ctx w') !! name = Some i /\ no_release w1 w') env w1.
Proof.
  intros H0 Hk1 S S1 R Hc. destruct (referenced_facts k name i _ _ (inv_ctx _ _ (proj1 S)) R) as (Hm & Hr & Hh & Hg).
  apply wp_bind. wuse (TryLock_spec env (k + 1)); [lia | done | done|]. intros ret w2 [(S2 & N2 & T) X]. wsteps.
  assert (Hm2 : metaMap (lw_ctx w2) !! name = Some i) by (by destruct T as [[_ ->]|[_ ->]]).
  destruct (ctx_lock_id (k + 1) name i (lw_ctx w2)) as (d & l & Hd & Hl); [apply S2 | done|].
  unfold client_at, ClientDesc.GetLockId. rewrite Hd. cbn [default from_option id]. unfold id. rewrite Hl.
  destruct T as [[-> E]|[Hret E]].
  - cbn [Z.eqb MXM_OK negb]. wsteps. split; [done|]. split; [|done]. left. split; [done|]. rewrite E. split; [done|]. split; [|exists i; split; [done|]].
    + intros ->. specialize (X eq_refl eq_refl). rewrite Hr in X. unfold ref_add in X. rewrite lookup_insert_eq in X. specialize (X _ eq_refl).
      destruct (refCount (lw_ctx w) !! name) as [r|] eqn:Er; [|done]. cbn in X. apply (ref_range k) in Er; [|apply S].
      rewrite u32_small in X; lia.
    + by rewrite holders_granted, Hh, Hc, Hg.
  - rewrite (proj2 (Z.eqb_neq _ _) Hret). cbn [negb]. unfold ReleaseClientDescRef. wsteps. rewrite E, Hr.
    destruct (ref_add_release k name (lw_ctx w) (inv_ctx _ _ (proj1 S)) Hk1) as [Hp Hback].
    rewrite (proj2 (Z.ltb_ge _ _)) by done. wsteps. split.
    + eapply serving_ctx; [done|]. rewrite <- Hr, <- E. apply ctx_inv_release; [lia | apply S2].
    + split; [|done]. right. split; [done|]. cbn. rewrite Hback. split; [done|]. etransitivity; [|apply Hh]. by rewrite <- E.
Qed.

(** ** The handlers *)

Definition is_ready (env : LockEnv) (w : LockWorld) : bool := isUbsmLockInit w && negb (in_election env).

Lemma wp_ready env (Q : bool -> LockWorld -> Prop) w : Q (is_ready env w) w -> wp ready Q env w.
Proof. auto. Qed.

Lemma ready_serving env k w : lock_inv k w -> is_ready env w = true -> serving k w.
Proof. intros I. unfold is_ready. rewrite andb_true_iff. intros [H _]. split; [done | by apply (inv_ready _ _ I)]. Qed.

Section Handlers.
Context (env : LockEnv) (k : Z) (H0 : (0 <= k)%Z).
Implicit Types (w : LockWorld) (name : string) (u : LockUdsInfo).

Lemma lock_inv_weaken w k' : (k <= k')%Z -> lock_inv k w -> lock_inv k' w.
Proof. intros Hk' [I1 I2 I3 I4]. split; try done. by apply (ctx_inv_weaken k). Qed.

Lemma HandleLock_spec name isExclusive u w :
  (k + 1 < 2 ^ 31)%Z -> lock_inv k w ->
  wp (HandleLock name isExclusive u) (fun ret w' =>
    lock_inv (k + 1) w' /\ lock_outcome env name isExclusive u w ret w' /\
    (is_ready env w = false -> ret = MXM_ERR_LOCK_NOT_READY /\ w' = w) /\ no_release w w' /\
    (is_ready env w = true -> ret <> MXM_ERR_LOCK_NOT_FOUND -> is_Some (metaMap (lw_ctx w') !! name))) env w.
Proof.
  intros Hk1 I. unfold HandleLock. apply wp_bind, wp_ready. destruct (is_ready env w) eqn:R; cbn [negb]; wsteps.
  - pose proof (ready_serving _ _ _ I R) as S. assert (S1 : serving k (set_cleanup_running w)) by (by destruct S as [[] L]).
    wuse (GetLock_spec env k); [lia | done | done|]. intros [i|] w1 (Hc & N1 & G).
    + destruct G as [S2 G]. wuse (lock_attempt_spec env k name i isExclusive u (set_cleanup_running w) w1); [done | done | done | done | done | done|].
      intros ret w' (S' & O & Hm & N'). split; [apply S'|]. split; [exact O|]. split; [done|].
      split; [exact (no_release_trans w w1 w' N1 N') | by rewrite Hm].
    + destruct G as ([I' _] & E & _). wsteps. split; [apply lock_inv_weaken; [lia | done]|]. split; [right; by rewrite E|]. done.
  - split; [apply lock_inv_weaken; [lia | done]|]. split; [by right|]. split; [done|]. split; [apply no_release_refl | done].
Qed.

(** A process without a record is refused, and nothing changes but the clock. *)
Definition has_record name u w : Prop :=
  exists i, metaMap (lw_ctx w) !! name = Some i /\ ClientDesc.IsLockUdsValid name u (client_at i w) = true.

Definition handle_unlock_outcome name u w (ret : Z) w' : Prop :=
  (is_ready env w = false /\ ret = MXM_ERR_LOCK_NOT_READY /\ w' = w) \/
  (is_ready env w = true /\ ~ has_record name u w /\ ret = MXM_ERR_LOCK_NOT_FOUND /\ w' = w) \/
  (is_ready env w = true /\ exists i code,
     metaMap (lw_ctx w) !! name = Some i /\ ClientDesc.IsLockUdsValid name u (client_at i w) = true /\
     unlock_outcome k name i u w code w' /\
     ret = if ClientDesc.IsHolderInValidTime name u (le_now env (clock_reads w)) (client_at i w) then code else MXM_OK).

Lemma HandleUnlock_spec name u w :
  (k < 2 ^ 31)%Z -> lock_inv k w ->
  wp (HandleUnlock name u) (fun ret w' => lock_inv k w' /\ handle_unlock_outcome name u w ret w') env w.
Proof.
  intros Hk I. unfold HandleUnlock, GetClientDesc. apply wp_bind, wp_ready. destruct (is_ready env w) eqn:R; cbn [negb]; wsteps.
  2: { split; [done | by left]. }
  pose proof (ready_serving _ _ _ I R) as S. destruct (metaMap (lw_ctx w) !! name) as [i|] eqn:Hm; wsteps.
  2: { split; [done|]. right. left. split; [done|]. split; [|done]. intros (i & Hi & _). congruence. }
  destruct (ClientDesc.IsLockUdsValid name u (client_at i w)) eqn:V; cbn [negb]; wsteps.
  2: { split; [done|]. right. left. split; [done|]. split; [|done]. intros (j & Hj & Vj). congruence. }
  change (wp TimeUs (fun x w' => wp (if negb (ClientDesc.IsHolderInValidTime name u x (client_at i w))
    then UnlockWithDesc name i u ;; mret MXM_OK else UnlockWithDesc name i u)
    (fun ret w' => lock_inv k w' /\ handle_unlock_outcome name u w ret w') env w') env w).
  unfold wp at 1. set (w1 := (TimeUs env w).2). assert (S1 : serving k w1) by (by apply serving_clock).
  change ((TimeUs env w).1) with (le_now env (clock_reads w)).
  destruct (ClientDesc.IsHolderInValidTime _ _ _ _) eqn:T; cbn [negb].
  - wuse (UnlockWithDesc_spec env k); [lia | done | done|]. intros ret w' O. split; [apply O|]. right. right. split; [done|].
    exists i, ret. rewrite T. done.
  - apply wp_bind. wuse (UnlockWithDesc_spec env k); [lia | done | done|]. intros ret w' O. wsteps. split; [apply O|]. right. right.
    split; [done|]. exists i, ret. rewrite T. done.
Qed.

End Handlers.

(** * Distributed locks: the clean-up of expired locks, start, stop and recovery keep
    the invariant. *)

Section Cleanup.
Context (env : LockEnv) (k : Z) (Hk : (0 <= k < 2 ^ 31)%Z).
Implicit Types (w : LockWorld) (name : string) (u : LockUdsInfo).

Lemma wp_time (Q : Z -> LockWorld -> Prop) w :
  serving k w -> (serving k (TimeUs env w).2 -> Q (le_now env (clock_reads w)) (TimeUs env w).2) -> wp TimeUs Q env w.
Proof. intros S H. apply H. by apply serving_clock. Qed.

Lemma unlock_all_serving name i us w : serving k w -> wp (unlock_all name i us) (fun _ => serving k) env w.
Proof.
  revert w. induction us as [|u us IH]; intros w S; cbn [unlock_all]; wsteps; [done|].
  wuse (UnlockWithDesc_serving env k); [done | done|]. intros _ w' S'. by apply IH.
Qed.

Lemma CleanUpExpiredLocksForName_serving name i w : serving k w -> wp (CleanUpExpiredLocksForName name i) (fun _ => serving k) env w.
Proof.
  intros S. unfold CleanUpExpiredLocksForName. apply wp_bind, wp_time; [done|]. intros S1. wsteps.
  wuse unlock_all_serving; [done|]. intros _ w' S'. wsteps. destruct (ClientDesc.GetLockId name _); wsteps; [done|].
  unfold on_client. wsteps. eapply serving_ctx; [done|]. apply ctx_inv_clients; [done | done | apply S'].
Qed.

Lemma cleanup_names_serving names w : serving k w -> wp (cleanup_names names) (fun _ => serving k) env w.
Proof.
  revert w. induction names as [|name names IH]; intros w S; cbn [cleanup_names]; wsteps; [done|].
  apply (wp_mono _ _ (fun _ => serving k)); [|intros _ w' S'; by apply IH].
  unfold cleanup_name, GetClientDesc. wsteps. destruct (metaMap (lw_ctx w) !! name); wsteps; [|done].
  apply wp_time; [done|]. intros S1. wsteps. wif; wsteps; [by apply CleanUpExpiredLocksForName_serving | done].
Qed.

Lemma cleanup_turn_keeps w : lock_inv k w -> wp cleanup_turn (fun _ => lock_inv k) env w.
Proof.
  intros I. unfold cleanup_turn, GetAllShmLockName. apply wp_bind, wp_ready. destruct (is_ready env w) eqn:R; cbn [negb]; wsteps; [|done].
  wuse cleanup_names_serving; [by eapply ready_serving|]. by intros _ w' [? _].
Qed.

End Cleanup.

(** ** The library *)

Section Library.
Context (env : LockEnv).
Implicit Types w : LockWorld.

(** Nothing but the library's pointers and the calls has changed. *)
Definition lib_only w w' : Prop :=
  lw_ctx w' = lw_ctx w /\ isUbsmLockInit w' = isUbsmLockInit w /\ lw_lost w' = lw_lost w.

Lemma lib_only_trans w1 w2 w3 : lib_only w1 w2 -> lib_only w2 w3 -> lib_only w1 w3.
Proof. unfold lib_only. intuition congruence. Qed.

Lemma DlSyms_spec l w :
  wp (Executor.DlSyms l) (fun ret w' =>
    lib_only w w' /\ (ret = UBSM_OK -> (forall s, s ∈ pointers (lw_lib w) -> s ∈ pointers (lw_lib w')) /\
                                       (forall s, s ∈ l -> s ∈ pointers (lw_lib w')))) env w.
Proof.
  revert w. induction l as [|s l IH]; intros w; cbn [Executor.DlSyms].
  - wsteps. split; [done|]. intros _. split; [done|]. intros s Hs. by apply not_elem_of_nil in Hs.
  - apply wp_bind, wp_call. intros a _. wsteps. wif; wsteps; [done|]. wuse IH. intros ret w' [F H]. split; [exact F|].
    intros E. destruct (H E) as [H1 H2]. cbn in H1. split.
    + intros t Ht. apply H1. set_solver.
    + intros t [->|Ht]%elem_of_cons; [apply H1; set_solver | by apply H2].
Qed.

Lemma server_lib_spec w :
  wp Executor.InitDLockServerDlopenLib (fun ret w' =>
    lib_only w w' /\ (ret = UBSM_OK -> forall s, s ∈ Executor.server_symbols -> s ∈ pointers (lw_lib w'))) env w.
Proof.
  unfold Executor.InitDLockServerDlopenLib. apply wp_bind, wp_call. intros a _. wsteps. wif; wsteps; [done|].
  wuse DlSyms_spec. intros ret w' [F H]. split; [exact F|]. intros E. by apply H.
Qed.

Lemma client_lib_spec w :
  wp Executor.InitDLockClientDlopenLib (fun ret w' =>
    lib_only w w' /\ (ret = UBSM_OK -> (forall s, s ∈ pointers (lw_lib w) -> s ∈ pointers (lw_lib w')) /\
       forall s, s ∈ Executor.init_symbols ++ Executor.get_symbols ++ Executor.mgmt_symbols -> s ∈ pointers (lw_lib w'))) env w.
Proof.
  unfold Executor.InitDLockClientDlopenLib, Executor.InitDLockClientLockInitLib, Executor.InitDLockClientLockGetLib,
    Executor.InitDLockClientLockMgmtLib. apply wp_bind, wp_call. intros a _. wsteps. wif; wsteps; [done|].
  wuse DlSyms_spec. intros r1 w1 [F1 H1]. destruct (Z.eqb_spec r1 UBSM_OK) as [E1|]; wsteps; [|by split].
  wuse DlSyms_spec. intros r2 w2 [F2 H2]. pose proof (lib_only_trans _ _ _ F1 F2) as F12.
  destruct (Z.eqb_spec r2 UBSM_OK) as [E2|]; wsteps; [|by split].
  wuse DlSyms_spec. intros r3 w3 [F3 H3]. pose proof (lib_only_trans _ _ _ F12 F3) as F.
  destruct (Z.eqb_spec r3 UBSM_OK) as [E3|]; wsteps; [|by split]. split; [exact F|]. intros _.
  destruct (H1 E1) as [H1a H1b], (H2 E2) as [H2a H2b], (H3 E3) as [H3a H3b]. split; [auto|].
  intros s. rewrite !elem_of_app. intros [Hs|[Hs|Hs]]; auto.
Qed.

Lemma InitDLockDlopenLib_spec w :
  lib_inv (lw_lib w) ->
  wp Executor.InitDLockDlopenLib (fun ret w' => lib_only w w' /\ (ret = UBSM_OK -> lib_inv (lw_lib w') /\ loaded w')) env w.
Proof.
  intros I. unfold Executor.InitDLockDlopenLib. wsteps. wif; wsteps; [done|].
  wuse server_lib_spec. intros r1 w1 [F1 H1]. destruct (Z.eqb_spec r1 UBSM_OK) as [E1|]; wsteps; [|by split].
  wuse client_lib_spec. intros r2 w2 [F2 H2]. pose proof (lib_only_trans _ _ _ F1 F2) as F.
  destruct (Z.eqb_spec r2 UBSM_OK) as [E2|]; wsteps; [|by split]. split; [exact F|]. intros _. split; [|done].
  destruct (H2 E2) as [Ha Hb]. intros s. unfold all_symbols. rewrite elem_of_app. cbn. intros [Hs|Hs]; [by apply Ha, H1 | by apply Hb].
Qed.

Lemma DestroyDLockDlopenLib_spec w :
  wp Executor.DestroyDLockDlopenLib (fun _ w' => lib_only w w' /\ lw_lib w' = mkDLockExecutor false false false ∅) env w.
Proof.
  unfold Executor.DestroyDLockDlopenLib. wsteps. wif; wsteps; [apply wp_call; intros ? _; wsteps|].
  all: wif; wsteps; [apply wp_call; intros ? _; by wsteps | done].
Qed.

Lemma stopped_inv k w w' :
  lock_inv k w -> lib_only w w' -> isUbsmLockInit w = false -> lib_inv (lw_lib w') -> lock_inv k w'.
Proof. intros [I1 I2 I3 I4] (E1 & E2 & E3) S L. split; [done | rewrite E2, S; done | by rewrite E1 | by rewrite E3]. Qed.

Lemma Destroy_keeps k w :
  lock_inv k w -> isUbsmLockInit w = false ->
  wp Executor.DestroyDLockDlopenLib (fun _ w' => lock_inv k w' /\ isUbsmLockInit w' = false /\ lw_ctx w' = lw_ctx w) env w.
Proof.
  intros I S. wuse DestroyDLockDlopenLib_spec. intros _ w' [F E]. split; [eapply stopped_inv; [done..|]; by rewrite E|].
  destruct F as (E1 & E2 & _). by rewrite E2.
Qed.

Lemma lock_inv_set_init k v w : lock_inv k w -> (v = true -> loaded w) -> lock_inv k (UbsmLockInitSet v w).
Proof. intros [] H. by split. Qed.

Lemma lock_inv_set_tls k v w : lock_inv k w -> lock_inv k (set_tls v w).
Proof. by intros []. Qed.

Lemma InitTlsConfig_spec k w :
  serving k w -> wp InitTlsConfig (fun _ w' => serving k w' /\ lib_only w w') env w.
Proof.
  intros [I L]. unfold InitTlsConfig. wsteps. wif; wsteps; [done|]. wif; wsteps; [done|]. wif; wsteps; [done|].
  split; [|done]. split; [by apply lock_inv_set_tls | done].
Qed.

(** The library and the TLS set-up are there, or the service is down. *)
Lemma open_library_spec k w :
  lock_inv k w ->
  wp open_library (fun ret w' =>
    lock_inv k w' /\ isUbsmLockInit w' = false /\ lw_ctx w' = lw_ctx w /\ (ret = UBSM_OK -> loaded w')) env w.
Proof.
  intros I. unfold open_library, DeinitTlsConfig. wsteps. set (w0 := UbsmLockInitSet false w).
  assert (I0 : lock_inv k w0) by (by apply lock_inv_set_init).
  wuse InitDLockDlopenLib_spec; [apply I0|]. intros r1 w1 [F1 H1]. destruct (Z.eqb_spec r1 UBSM_OK) as [E1|Hr]; wsteps.
  - destruct (H1 E1) as [L1 L2]. assert (S1 : serving k w1) by (split; [by eapply stopped_inv | done]).
    wuse InitTlsConfig_spec; [done|]. intros r2 w2 [S2 F2]. destruct (lib_only_trans _ _ _ F1 F2) as (E2 & E3 & _). wif; wsteps.
    + wuse (Destroy_keeps k); [by apply lock_inv_set_tls, S2 | done|]. intros _ w' (I' & S' & E'). wsteps.
      split; [done|]. split; [done|]. split; [by rewrite E'|]. intros ->. by apply negb_true_iff, Z.eqb_neq in Heqb.
    + split; [apply S2|]. split; [done|]. split; [done|]. intros _. apply S2.
  - wuse DestroyDLockDlopenLib_spec. intros _ w2 [F2 E2]. pose proof (lib_only_trans _ _ _ F1 F2) as F. wsteps.
    split; [eapply stopped_inv; [done | exact F | done | by rewrite E2]|]. destruct F as (Ea & Eb & _). split; [by rewrite Eb|].
    split; [by rewrite Ea | done].
Qed.

End Library.

(** ** Start and stop *)

Section Service.
Context (env : LockEnv) (k : Z).
Implicit Types w : LockWorld.

Lemma ctx_inv_push id c : ctx_inv k c -> ctx_inv k (push_client id c).
Proof.
  intros [H1 H2 H3 H4 H5]. split; try done; cbn; [|by rewrite fmap_app, H4]. intros name i. rewrite H1.
  destruct (decide (i < length (dlockClients c))) as [Hi|Hi]; [by rewrite lookup_app_l|].
  split.
  - intros (d & Hd & _). apply lookup_lt_Some in Hd. lia.
  - intros (d & Hd & l & Hl). rewrite lookup_app_r in Hd by lia. apply list_lookup_singleton_Some in Hd as [_ <-]. done.
Qed.

Lemma ctx_inv_forget_all c : ctx_inv k c -> ctx_inv k (forget_clients c).
Proof.
  intros [_ _ _ _ H5]. split; try done; cbn; try by intros ? [].
  intros name i. split; [done|]. by intros (d & Hd & _).
Qed.

Lemma ctx_inv_flag v c : ctx_inv k c -> ctx_inv k (SetServerDeinitFlag v c).
Proof. by intros []. Qed.

(** Whether the service is ready and how it is configured have not changed. *)
Definition kept w w' : Prop :=
  lock_inv k w' /\ lw_lib w' = lw_lib w /\ isUbsmLockInit w' = isUbsmLockInit w /\ cfg (lw_ctx w') = cfg (lw_ctx w).

Lemma kept_same w : lock_inv k w -> kept w w.
Proof. done. Qed.

Lemma kept_trans w1 w2 w3 : kept w1 w2 -> kept w2 w3 -> kept w1 w3.
Proof. unfold kept. intuition congruence. Qed.

Lemma kept_log c r w : lock_inv k w -> kept w (log_call c r w).
Proof. intros I. split; [by apply lock_inv_log | done]. Qed.

Lemma kept_serving w w' : kept w w' -> loaded w -> serving k w'.
Proof. intros (I & E & _) L. split; [done|]. unfold loaded. by rewrite E. Qed.

Lemma deinit_clients_spec ids w :
  serving k w -> wp (deinit_clients ids) (fun _ w' => kept w w' /\ lw_ctx w' = lw_ctx w) env w.
Proof.
  revert w. induction ids as [|id ids IH]; intros w S; cbn [deinit_clients]; wsteps; [by split; [apply kept_same, S|]|].
  eapply wp_serve; [done|]. intros a _ Sa. wuse IH; [done|]. intros _ w' [K E]. done.
Qed.

Lemma UnInitDlockClient_spec w : lock_inv k w -> wp UnInitDlockClient (fun _ w' => kept w w') env w.
Proof.
  intros I. unfold UnInitDlockClient. wsteps. destruct (pointer_set (ClientDeInit 0) w) eqn:P; wsteps; [|by apply kept_same].
  assert (S : serving k w) by (by apply (pointer_serving _ _ _ I P)).
  wuse deinit_clients_spec; [done|]. intros _ w1 [(I1 & E1 & E2 & E3) E]. wsteps. split; [|done].
  eapply lock_inv_ctx; [done|]. apply ctx_inv_forget_all, I1.
Qed.

(** [n] new clients, after those there were. *)
Definition appended (n : nat) (c c' : DLockContext) : Prop :=
  exists ids, length ids = n /\ dlockClients c' = dlockClients c ++ ((fun id => mkClientDesc id ∅ ∅) <$> ids) /\
    metaMap c' = metaMap c /\ refCount c' = refCount c /\ clientIndex c' = clientIndex c.

Lemma init_clients_spec n ip w :
  serving k w -> wp (init_clients n ip) (fun ret w' => kept w w' /\ (ret = UBSM_OK -> appended n (lw_ctx w) (lw_ctx w'))) env w.
Proof.
  revert w. induction n as [|n IH]; intros w S; cbn [init_clients]; wsteps.
  - split; [apply kept_same, S|]. intros _. exists []. by rewrite app_nil_r.
  - unfold Executor.ClientInitWrapper. apply wp_call_if.
    2: { destruct S as [I L]. by rewrite (loaded_pointer _ _ _ I L). }
    intros _ a _. destruct (Z.eqb_spec a.1 DLOCK_SUCCESS) as [E|E]; wsteps.
    + assert (K : kept w (set_ctx (push_client a.2) (log_call (ClientInit ip) a.1 w))).
      { split; [|done]. eapply lock_inv_ctx; [apply lock_inv_log, S|]. apply ctx_inv_push, S. }
      wuse IH; [exact (kept_serving _ _ K (proj2 S))|]. intros ret w' [K' H]. split; [exact (kept_trans _ _ _ K K')|]. intros Hr.
      destruct (H Hr) as (ids & Hl & Hc & Hrest). exists (a.2 :: ids). cbn in *. rewrite Hc, <- app_assoc. auto.
    + wuse UnInitDlockClient_spec; [apply lock_inv_log, S|]. intros _ w' K. wsteps. split; [exact K | done].
Qed.

Lemma SetEid_spec s w : wp (SetEid s) (fun _ w' => w' = w) env w.
Proof. unfold SetEid. wif; wsteps; [done|]. wif; by wsteps. Qed.

(** Only calls have been made. *)
Definition calls_only w w' : Prop := kept w w' /\ lw_ctx w' = lw_ctx w.

Lemma calls_only_trans w1 w2 w3 : calls_only w1 w2 -> calls_only w2 w3 -> calls_only w1 w3.
Proof. intros [K1 E1] [K2 E2]. split; [by eapply kept_trans | congruence]. Qed.

Lemma calls_only_log c r w : lock_inv k w -> calls_only w (log_call c r w).
Proof. intros I. by split; [apply kept_log|]. Qed.

Lemma wp_serve_calls c (Q : Z * Z -> LockWorld -> Prop) w :
  serving k w -> (forall a w', calls_only w w' -> serving k w' -> Q a w') -> wp (call_fn c) Q env w.
Proof. intros S H. eapply wp_serve; [done|]. intros a _ Sa. apply H; [apply calls_only_log, S | done]. Qed.

Lemma wp_if_calls c d (Q : Z * Z -> LockWorld -> Prop) w :
  lock_inv k w -> (forall a w', calls_only w w' -> Q a w') -> wp (call_if c d) Q env w.
Proof. intros I H. apply wp_call_if; intros; apply H; [by apply calls_only_log | done]. Qed.

Lemma DlockServerInit_spec w : serving k w -> wp DlockServerInit (fun _ w' => calls_only w w') env w.
Proof.
  intros S. unfold DlockServerInit, Executor.ServerStartWrapper. wsteps. wuse SetEid_spec. intros ret w0 ->. wif; wsteps; [by split; [apply kept_same, S|]|].
  apply wp_serve_calls; [done|]. intros a w1 C1 S1. wif; wsteps; [done|].
  apply wp_serve_calls; [done|]. intros b w2 C2 S2. pose proof (calls_only_trans _ _ _ C1 C2) as C. wsteps. wif; wsteps; [|done].
  apply wp_if_calls; [apply S2|]. intros e w3 C3. wsteps. exact (calls_only_trans _ _ _ C C3).
Qed.

Lemma DlockClientLibInit_spec w : serving k w -> wp DlockClientLibInit (fun _ w' => calls_only w w') env w.
Proof.
  intros S. unfold DlockClientLibInit. wsteps. wuse SetEid_spec. intros ret w0 ->. wif; wsteps; [by split; [apply kept_same, S|]|].
  apply wp_serve_calls; [done|]. intros a w1 C1 S1. wif; by wsteps.
Qed.

Lemma DeInitDlockServer_spec w : lock_inv k w -> wp DeInitDlockServer (fun _ w' => kept w w') env w.
Proof.
  intros I. unfold DeInitDlockServer. wsteps. wif; wsteps; [by apply kept_same|].
  destruct (pointer_set (ServerStop 0) w) eqn:P; wsteps; [|by apply kept_same].
  assert (S : serving k w) by (by apply (pointer_serving _ _ _ I P)).
  apply wp_serve_calls; [done|]. intros a w1 [C1 _] S1. wif; wsteps; [done|].
  apply wp_serve_calls; [done|]. intros b w2 [C2 _] S2. wsteps. eapply kept_trans; [exact C1|]. eapply kept_trans; [exact C2|].
  split; [|done]. eapply lock_inv_ctx; [apply S2|]. apply ctx_inv_flag, S2.
Qed.

Definition stopped w : Prop := lock_inv k w /\ isUbsmLockInit w = false.

Lemma stopped_kept w w' : stopped w -> kept w w' -> stopped w'.
Proof. intros [_ S] (I & _ & E & _). split; [done|]. by rewrite E. Qed.

Lemma DeInit_spec w : lock_inv k w -> wp DeInit (fun _ w' => stopped w' /\ cfg (lw_ctx w') = cfg (lw_ctx w)) env w.
Proof.
  intros I. unfold DeInit, DeinitTlsConfig. wsteps. set (w0 := UbsmLockInitSet false w).
  assert (I0 : lock_inv k w0) by (by apply lock_inv_set_init).
  apply (wp_mono _ _ (fun _ w' => kept w0 w')).
  { wif; wsteps; [|by apply kept_same]. wuse DeInitDlockServer_spec; [done|]. intros _ w1 K1. by wsteps. }
  intros _ w1 K1. wsteps. apply (wp_mono _ _ (fun _ w' => kept w0 w')).
  { wif; wsteps; [|done]. wuse UnInitDlockClient_spec; [apply K1|]. intros _ w2 K2. wsteps. apply wp_if_calls; [apply K2|].
    intros a w3 [K3 _]. wsteps. exact (kept_trans _ _ _ K1 (kept_trans _ _ _ K2 K3)). }
  intros _ w2 (I2 & _ & E2 & E3). wsteps. wuse (Destroy_keeps env k); [done | by rewrite E2|].
  intros _ w3 (I3 & E4 & E5). wsteps. split; [split; [by apply lock_inv_set_tls | done]|]. cbn. by rewrite E5, E3.
Qed.

End Service.
