(* ===== verification/LockLifecycle.v ===== *)
(** Distributed locks: [Init], [Reinit], the events of the election and the endpoints
    keep the invariant; what the service's clients are after a start. *)

From S2P Require Import Prelude StoreTypes MsgPacker MsgCodec MsgBase MsgRequests MsgResponses StoreInterface NodeAddress Election ElectionNet Locks LockService LockEvents LockInv LockOps.
Import Context Zen.

Section Lifecycle.
Context (env : LockEnv) (k : Z).
Implicit Types w : LockWorld.

(** The context but for the server's flag. *)
Definition flagged (c c' : DLockContext) : Prop := exists v, c' = SetServerDeinitFlag v c.

Lemma flagged_refl c : flagged c c.
Proof. exists (isNeedServerDeinit c). by destruct c. Qed.

Lemma flagged_trans c1 c2 c3 : flagged c1 c2 -> flagged c2 c3 -> flagged c1 c3.
Proof. intros [v ->] [v' ->]. by exists v'. Qed.

Lemma flagged_cfg c c' : flagged c c' -> cfg c' = cfg c.
Proof. by intros [v ->]. Qed.

Lemma appended_flagged n c c1 c' : flagged c c1 -> appended n c1 c' -> appended n c c'.
Proof. by intros [v ->]. Qed.

Lemma init_server_spec w :
  serving k w -> wp init_server (fun _ w' => kept k w w' /\ flagged (lw_ctx w) (lw_ctx w')) env w.
Proof.
  intros S. unfold init_server. wsteps. wif; wsteps; [split; [apply kept_same, S | apply flagged_refl]|].
  wuse (DlockServerInit_spec env k); [done|]. intros ret w1 [K1 E1]. wif; wsteps; [split; [done | rewrite E1; apply flagged_refl]|].
  split; [|exists true; cbn; by rewrite E1]. destruct K1 as (I1 & K1). split; [|done]. eapply lock_inv_ctx; [done|]. apply ctx_inv_flag, I1.
Qed.

Lemma init_client_spec w :
  serving k w ->
  wp init_client (fun ret w' => kept k w w' /\
    (ret = UBSM_OK -> isDlockClient (cfg (lw_ctx w)) = true ->
     appended (Z.to_nat (dlockClientNum (cfg (lw_ctx w)))) (lw_ctx w) (lw_ctx w'))) env w.
Proof.
  intros S. unfold init_client, InitDlockClient. wsteps. destruct (isDlockClient (cfg (lw_ctx w))) eqn:C; wsteps; [|by split; [apply kept_same, S|]].
  wuse (DlockClientLibInit_spec env k); [done|]. intros ret w1 [K1 E1].
  destruct (Z.eqb_spec ret UBSM_OK) as [|Hr]; wsteps; [|by split; [|intros]]. rewrite E1. wif; wsteps; [by split; [|intros]|].
  wuse (init_clients_spec env k); [by apply (kept_serving _ _ _ K1), S|]. intros ret2 w2 [K2 H2].
  split; [exact (kept_trans _ _ _ _ K1 K2)|]. intros Hr _. rewrite E1 in H2. by apply H2.
Qed.

Lemma Init_spec w :
  lock_inv k w ->
  wp Init (fun ret w' => lock_inv k w' /\ cfg (lw_ctx w') = cfg (lw_ctx w) /\ isUbsmLockInit w' = Z.eqb ret UBSM_OK /\
    (ret = UBSM_OK -> isDlockClient (cfg (lw_ctx w)) = true ->
     appended (Z.to_nat (dlockClientNum (cfg (lw_ctx w)))) (lw_ctx w) (lw_ctx w'))) env w.
Proof.
  intros I. unfold Init. wsteps. wuse (open_library_spec env k); [done|]. intros r1 w1 (I1 & S1 & E1 & L1).
  destruct (Z.eqb_spec r1 UBSM_OK) as [Hr1|Hr1]; wsteps.
  2: { split; [done|]. split; [by rewrite E1|]. split; [rewrite S1; by destruct (Z.eqb_spec r1 UBSM_OK) | done]. }
  wuse init_server_spec; [split; auto|]. intros r2 w2 [K2 F2].
  assert (Hdown : forall r w3, r <> UBSM_OK -> kept k w1 w3 ->
    wp (DeInit ;; mret r) (fun ret w' => lock_inv k w' /\ cfg (lw_ctx w') = cfg (lw_ctx w) /\
      isUbsmLockInit w' = Z.eqb ret UBSM_OK /\ (ret = UBSM_OK -> isDlockClient (cfg (lw_ctx w)) = true ->
        appended (Z.to_nat (dlockClientNum (cfg (lw_ctx w)))) (lw_ctx w) (lw_ctx w'))) env w3).
  { intros r w3 Hr (I3 & _ & _ & E3). wsteps. wuse (DeInit_spec env k); [done|]. intros _ w4 [[I4 S4] E4]. wsteps.
    split; [done|]. split; [by rewrite E4, E3, E1|]. split; [rewrite S4; by destruct (Z.eqb_spec r UBSM_OK) | done]. }
  destruct (Z.eqb_spec r2 UBSM_OK) as [Hr2|Hr2]; cbn [negb]; [|by apply Hdown]. wsteps.
  assert (L2 : serving k w2) by (eapply kept_serving; [done | auto]).
  wuse init_client_spec; [done|]. intros r3 w3 [K3 A3]. pose proof (kept_trans _ _ _ _ K2 K3) as K.
  destruct (Z.eqb_spec r3 UBSM_OK) as [Hr3|Hr3]; cbn [negb]; [|by apply Hdown]. wsteps.
  split; [apply lock_inv_set_init; [apply K|]; intros _; eapply kept_serving; [exact K | auto]|].
  assert (E2 : cfg (lw_ctx w2) = cfg (lw_ctx w)) by (by rewrite (flagged_cfg _ _ F2), E1).
  split; [cbn; destruct K3 as (_ & _ & _ & ->); done|]. split; [done|]. intros _ C. cbn. eapply (appended_flagged _ _ (lw_ctx w2)); [by rewrite <- E1|].
  rewrite <- E2 in C |- *. by apply A3.
Qed.

(** ** Recovery *)

Lemma reinit_round_spec clientId ip l w :
  serving k w -> wp (reinit_round clientId ip l) (fun _ w' => calls_only k w w' /\ serving k w') env w.
Proof.
  intros S. assert (D : forall l w1, calls_only k w w1 -> serving k w1 ->
    wp (DoClientReInitStagesClientReInit clientId l) (fun _ w' => calls_only k w w' /\ serving k w') env w1).
  { intros l' w1 C1 S1. unfold DoClientReInitStagesClientReInit, ClientReInitStagesClientReInitDone. wsteps.
    apply (wp_serve_calls env k); [done|]. intros a w2 C2 S2. pose proof (calls_only_trans _ _ _ _ C1 C2) as C.
    wif; wsteps; [done|]. wif; by wsteps. }
  unfold reinit_round, ClientReInitStagesClientReInit, ClientReInitStagesUpdateLocks, Executor.ClientReinitWrapper.
  destruct (ri_stages l); wsteps.
  - apply (wp_if_calls env k); [apply S|]. intros a w1 C1. assert (S1 : serving k w1) by (eapply kept_serving; [apply C1 | apply S]).
    wsteps. wif; wsteps; [|wif; wsteps; [wif; wsteps|]]; wif; by wsteps.
  - apply (wp_serve_calls env k); [done|]. intros a w1 C1 S1.
    repeat (wif; wsteps; cbn [fst snd]); try done; (wuse D; [done | done|]; intros l' w2 H2; by wsteps).
  - wuse D; [by split; [apply kept_same, S|] | done|]. intros l' w2 H2. by wsteps.
Qed.

Lemma calls_only_refl w : lock_inv k w -> calls_only k w w.
Proof. intros I. by split; [apply kept_same|]. Qed.

Lemma reinit_loop_spec fuel clientId ip l w :
  serving k w -> wp (reinit_loop fuel clientId ip l) (fun _ w' => calls_only k w w' /\ serving k w') env w.
Proof.
  revert l w. induction fuel as [|fuel IH]; intros l w S; cbn [reinit_loop]; wif; wsteps; try by split; [apply calls_only_refl, S|].
  wuse reinit_round_spec; [done|]. intros [ret|l'] w1 [C1 S1]; wsteps; [done|]. wif; wsteps; [done|].
  wuse IH; [done|]. intros r w2 [C2 S2]. split; [exact (calls_only_trans _ _ _ _ C1 C2) | done].
Qed.

Lemma reinit_clients_spec fuel ids w :
  serving k w -> wp (reinit_clients fuel ids) (fun _ w' => calls_only k w w' /\ serving k w') env w.
Proof.
  revert w. induction ids as [|id ids IH]; intros w S; cbn [reinit_clients]; wsteps; [by split; [apply calls_only_refl, S|]|].
  wuse reinit_loop_spec; [done|]. intros [r|] w1 [C1 S1]; wsteps; [|done]. wif; wsteps; [done|].
  wuse IH; [done|]. intros r' w2 [C2 S2]. split; [exact (calls_only_trans _ _ _ _ C1 C2) | done].
Qed.

Lemma kept_flag v w : lock_inv k w -> kept k w (set_ctx (SetServerDeinitFlag v) w).
Proof. intros I. split; [|done]. eapply lock_inv_ctx; [done|]. apply ctx_inv_flag, I. Qed.

Lemma stop_or_init_server_spec w :
  serving k w -> wp stop_or_init_server (fun _ w' => kept k w w' /\ flagged (lw_ctx w) (lw_ctx w')) env w.
Proof.
  intros S. unfold stop_or_init_server. wsteps. wif; wsteps; (apply (wp_serve_calls env k); [done|]); intros a w1 [K1 E1] S1.
  - wsteps. split; [done | rewrite E1; apply flagged_refl].
  - wif; wsteps; [split; [done | rewrite E1; apply flagged_refl]|].
    split; [exact (kept_trans _ _ _ _ K1 (kept_flag true _ (proj1 S1))) | exists true; cbn; by rewrite E1].
Qed.

Lemma DlockServerReinit_spec ip w :
  serving k w -> wp (DlockServerReinit ip) (fun _ w' => kept k w w' /\ flagged (lw_ctx w) (lw_ctx w')) env w.
Proof.
  intros S. assert (Z0 : kept k w w /\ flagged (lw_ctx w) (lw_ctx w)) by (split; [apply kept_same, S | apply flagged_refl]).
  unfold DlockServerReinit, Executor.ServerStartWrapper. wif; wsteps; [done|].
  destruct (GetPrimCfg (cfg (lw_ctx w))) as [rc recovery]. wif; wsteps; [done|]. wuse SetEid_spec. intros r w0 ->. wif; wsteps; [done|].
  wuse stop_or_init_server_spec; [done|]. intros [r1|b1] w1 [K1 F1]; wsteps; [done|].
  assert (S1 : serving k w1) by (eapply kept_serving; [done | apply S]).
  apply (wp_serve_calls env k); [done|]. intros a w2 [K2 E2] S2. pose proof (kept_trans _ _ _ _ K1 K2) as K. rewrite <- E2 in F1. wsteps.
  wif; wsteps; [|done]. wif; wsteps; [|done]. apply (wp_if_calls env k); [apply S2|]. intros b w3 [K3 E3]. wsteps.
  split; [exact (kept_trans _ _ _ _ K (kept_trans _ _ _ _ K3 (kept_flag false _ (proj1 K3))))|].
  eapply flagged_trans; [exact F1|]. exists false. cbn. by rewrite E3.
Qed.

Lemma Reinit_spec fuel w :
  lock_inv k w ->
  wp (Reinit fuel) (fun r w' => lock_inv k w' /\ flagged (lw_ctx w) (lw_ctx w') /\ (r = Some MXM_OK -> loaded w') /\
    (isDlockClient (cfg (lw_ctx w)) = false -> r <> None)) env w.
Proof.
  intros I. unfold Reinit. wsteps. wuse (open_library_spec env k); [done|]. intros r1 w1 (I1 & S1 & E1 & L1).
  destruct (Z.eqb_spec r1 UBSM_OK) as [Hr1|Hr1]; wsteps.
  2: { split; [done|]. split; [rewrite E1; apply flagged_refl|]. split; [by intros [= ->] | done]. }
  assert (Sv : serving k w1) by (split; auto).
  apply (wp_mono _ _ (fun r w' => kept k w1 w' /\ flagged (lw_ctx w1) (lw_ctx w'))).
  { wif; wsteps; [by apply DlockServerReinit_spec | split; [by apply kept_same | apply flagged_refl]]. }
  intros r2 w2 [K2 F2]. rewrite E1 in F2. assert (S2 : serving k w2) by (eapply kept_serving; [done | apply Sv]).
  wif; wsteps; [split; [apply S2|]; split; [done|]; split; [intros _; apply S2 | done]|].
  rewrite (flagged_cfg _ _ F2). destruct (isDlockClient (cfg (lw_ctx w))) eqn:C; wsteps.
  2: { split; [apply S2|]. split; [done|]. split; [intros _; apply S2 | done]. }
  wuse reinit_clients_spec; [done|]. intros r3 w3 [[K3 E3] S3]. rewrite <- E3 in F2. destruct r3 as [r3|]; wsteps; [wif; wsteps|].
  - split; [apply lock_inv_set_init; [apply S3 | intros _; apply S3]|]. split; [done|]. split; [intros _; apply S3 | done].
  - split; [apply S3|]. split; [done|]. split; [intros _; apply S3 | done].
  - split; [apply S3|]. split; [done|]. done.
Qed.

(** ** The events *)

Lemma init_attempts_keeps n w : lock_inv k w -> wp (init_attempts n) (fun _ => lock_inv k) env w.
Proof.
  revert w. induction n as [|n IH]; intros w I; cbn [init_attempts]; wsteps.
  all: wuse Init_spec; [done|]; intros ret w1 (I1 & _); wif; wsteps; [done|].
  all: wuse (DeInit_spec env k); [done|]; intros _ w2 [[I2 _] _]; wsteps.
  - done.
  - by apply IH.
Qed.

Lemma lock_inv_roles server client ip cip recovery w :
  lock_inv k w ->
  lock_inv k (set_ctx (set_cfg (fun c => set_roles (server c) (client c) (ip c) (cip c) (recovery c) c)) w).
Proof. intros I. eapply lock_inv_ctx; [done|]. apply ctx_inv_cfg; [done | apply I]. Qed.

Lemma OnMasterElected_keeps masterId w : lock_inv k w -> wp (OnMasterElected masterId) (fun _ => lock_inv k) env w.
Proof.
  intros I. unfold OnMasterElected, DoDLockServerInit. wsteps. wif; wsteps; [done|]. wif; wsteps; [done|].
  wuse init_attempts_keeps; [by apply (lock_inv_roles (fun _ => true) _ (fun _ => rn_ip (le_local env)))|].
  intros _ w' I'. by wsteps.
Qed.

Lemma OnDLockClientInit_keeps masterId w : lock_inv k w -> wp (OnDLockClientInit masterId) (fun _ => lock_inv k) env w.
Proof.
  intros I. unfold OnDLockClientInit. wsteps. wif; wsteps; [done|].
  destruct (NetRpcConfig.ParseRpcNodeFromId masterId) as [r node]. wif; wsteps; [done|].
  wuse init_attempts_keeps;
    [by apply (lock_inv_roles (fun _ => false) (fun _ => true) (fun _ => from_option rn_ip "" node) (fun _ => rn_ip (le_local env)))|].
  intros _ w' I'. by wsteps.
Qed.

(** Demotion leaves clients and locks as they are. *)
Definition same_locks (c c' : DLockContext) : Prop :=
  dlockClients c' = dlockClients c /\ metaMap c' = metaMap c /\ refCount c' = refCount c /\
  dlockClientNum (cfg c') = dlockClientNum (cfg c) /\ clientIndex c' = clientIndex c.

Lemma OnDLockDemoted_spec w :
  lock_inv k w -> wp OnDLockDemoted (fun _ w' => lock_inv k w' /\ same_locks (lw_ctx w) (lw_ctx w')) env w.
Proof.
  intros I. unfold OnDLockDemoted. wsteps. apply (wp_mono _ _ (fun _ w' => lock_inv k w' /\ same_locks (lw_ctx w) (lw_ctx w'))).
  { wif; wsteps; [|done]. unfold demote_server. wsteps. apply (wp_if_calls env k); [done|]. intros a w1 [(I1 & _) E1]. wsteps.
    split; [|cbn; rewrite E1; done].
    refine (lock_inv_roles (fun _ => false) _ _ _ (fun _ => 0%Z) _ _). eapply lock_inv_ctx; [done|]. apply ctx_inv_flag, I1. }
  intros _ w1 [I1 E1]. wsteps. apply (wp_mono _ _ (fun _ w' => lock_inv k w' /\ same_locks (lw_ctx w) (lw_ctx w'))).
  { wif; wsteps; [|done]. unfold demote_client. wsteps. apply (wp_if_calls env k); [done|]. intros a w2 [(I2 & _) E2]. wsteps.
    split; [by apply (lock_inv_roles _ (fun _ => false)) | cbn; rewrite E2; done]. }
  intros _ w2 [I2 E2]. wsteps. split; [by apply lock_inv_set_init | done].
Qed.

Lemma recovery_attempt_spec fuel attempt node w :
  lock_inv k w -> isDlockClient (cfg (lw_ctx w)) = false ->
  wp (recovery_attempt fuel attempt node) (fun r w' =>
    r <> None /\ lock_inv k w' /\ isDlockClient (cfg (lw_ctx w')) = false) env w.
Proof.
  intros I C. unfold recovery_attempt, DeinitTlsConfig. wsteps. wuse Reinit_spec; [done|]. intros r w1 (I1 & F1 & L1 & N1).
  specialize (N1 C). pose proof C as C1. rewrite <- (flagged_cfg _ _ F1) in C1. destruct r as [r|]; [|done].
  destruct (Z.eqb_spec r DLOCK_SUCCESS) as [->|Hr]; wsteps; [|by split; [|split; [apply lock_inv_set_tls|]]].
  wif; wsteps; [done|]. wif; wsteps; [done|]. wif; wsteps; [done|].
  split; [done|]. split; [|done]. apply lock_inv_set_init; [done|]. intros _. by apply L1.
Qed.

Lemma recovery_attempts_spec fuel n attempt node w :
  lock_inv k w -> isDlockClient (cfg (lw_ctx w)) = false ->
  wp (recovery_attempts fuel n attempt node) (fun r w' => r <> None /\ lock_inv k w') env w.
Proof.
  revert attempt w. induction n as [|n IH]; intros attempt w I C; cbn [recovery_attempts]; wsteps.
  all: wuse recovery_attempt_spec; [done | done|]; intros [r|] w1 (Hr & I1 & C1); [|done]; wif; wsteps; [done|].
  - done.
  - by apply IH.
Qed.

(** Every event is handled in the end. *)
Lemma HandleElectionEvent_spec fuel event masterId clientId w :
  lock_inv k w ->
  wp (HandleElectionEvent fuel event masterId clientId) (fun r w' => r = Some tt /\ lock_inv k w') env w.
Proof.
  intros I. destruct event; cbn [HandleElectionEvent]; wsteps; try done.
  - wuse OnMasterElected_keeps; [done|]. intros _ w' I'. by wsteps.
  - wuse OnDLockDemoted_spec; [done|]. intros _ w' [I' _]. by wsteps.
  - wuse OnDLockClientInit_keeps; [done|]. intros _ w' I'. by wsteps.
  - unfold OnDLockServerRecovery, DoRecovery.
    destruct (NetRpcConfig.ParseRpcNodeFromId masterId) as [[] [m|]]; try done.
    destruct (NetRpcConfig.ParseRpcNodeFromId clientId) as [[] [r|]]; try done. wsteps.
    wuse recovery_attempts_spec; [|done|].
    { by apply (lock_inv_roles (fun _ => true) (fun _ => false) (fun _ => rn_ip m) _ (fun _ => 1%Z)). }
    intros [x|] w' [Hx I']; [|done]. by wsteps.
Qed.

Lemma DLockClientReinit_keeps fuel req rsp w :
  lock_inv k w -> wp (LockEndpoints.DLockClientReinit fuel req rsp) (fun _ => lock_inv k) env w.
Proof.
  intros I. unfold LockEndpoints.DLockClientReinit, DeinitTlsConfig. wsteps.
  wuse Reinit_spec; [by apply (lock_inv_roles _ _ (fun _ => DLockClientReinitRequest_serverIp_ req))|].
  intros [r|] w1 (I1 & _); wsteps; [|done]. wif; wsteps; [by apply lock_inv_set_tls | done].
Qed.

End Lifecycle.
