(* ===== verification/LockTheorems.v ===== *)
(** Distributed locks: the theorems. *)

From S2P Require Import Prelude StoreTypes MsgPacker MsgCodec MsgBase MsgRequests MsgResponses StoreInterface NodeAddress Election ElectionNet Locks LockService LockEvents LockInv LockOps LockLifecycle.
Import Context Zen.

(** ** Runs *)

(** What happens to the lock service of one daemon: requests of its processes or of
    other daemons, a turn of the clean-up thread, an event of the election, a
    request to recover. *)
Inductive LockOp :=
  | DoLock (name : string) (isExclusive : bool) (u : LockUdsInfo)
  | DoUnlock (name : string) (u : LockUdsInfo)
  | DoCleanup
  | DoEvent (event : ZenElectionEventType) (masterId clientId : string)
  | DoReinit (fuel : nat) (req : DLockClientReinitRequest) (rsp : DLockClientReinitResponse).

Definition perform (op : LockOp) : LM unit :=
  match op with
  | DoLock name isExclusive u => Lock name isExclusive u ;; mret tt
  | DoUnlock name u => Unlock name u ;; mret tt
  | DoCleanup => cleanup_turn
  | DoEvent event masterId clientId => HandleElectionEvent 0 event masterId clientId ;; mret tt
  | DoReinit fuel req rsp => LockEndpoints.DLockClientReinit fuel req rsp ;; mret tt
  end.

Definition run (ops : list (LockEnv * LockOp)) (w : LockWorld) : LockWorld :=
  foldl (fun w '(env, op) => (perform op env w).2) w ops.

(** The service of a daemon that has just started. *)
Definition fresh (c : DLockConfig) : LockWorld :=
  mkLockWorld (mkDLockContext 0 false true c [] [] ∅ ∅) false false false (mkDLockExecutor false false false ∅) [] 0 false.

Lemma fresh_inv c : (1 <= dlockClientNum c)%Z -> lock_inv 0 (fresh c).
Proof.
  intros H. split; try done. split; try done; cbn.
  - intros name i. split; [done|]. by intros (d & Hd & _).
  - by intros name [].
Qed.

Lemma perform_keeps env op k w :
  (0 <= k)%Z -> (k + 1 < 2 ^ 31)%Z -> lock_inv k w -> lock_inv (k + 1) (perform op env w).2.
Proof.
  intros H0 Hk I. assert (Up : forall w', lock_inv k w' -> lock_inv (k + 1) w') by (intros w'; apply lock_inv_weaken; lia).
  assert (R : forall (h : LM Z), wp h (fun _ => lock_inv (k + 1)) env w ->
    wp (r ← GetClientNode; if negb (Z.eqb r.1 MXM_OK) then mret r.1
        else local ← asks le_local; if is_local local r.2 then h else ask_client_node r.2) (fun _ => lock_inv (k + 1)) env w).
  { intros h Hh. unfold GetClientNode. wsteps. destruct (le_zen env) as [z|]; wsteps; [|by apply Up]. destruct (GetVoteOnlyNode z) as [r id].
    unfold ask_client_node. destruct (NetRpcConfig.ParseRpcNodeFromId (default "" id)) as [r' node] eqn:P.
    wif; wsteps; [by apply Up|]. cbn [fst snd Z.eqb MXM_OK negb]. wsteps. wif; [done|]. rewrite P.
    repeat (wif; wsteps); by apply Up. }
  change (wp (perform op) (fun _ => lock_inv (k + 1)) env w). destruct op as [name x u|name u| |ev m c|fuel req rsp]; cbn [perform]; wsteps.
  - apply (wp_mono _ _ (fun _ => lock_inv (k + 1))); [|intros _ w' I'; by wsteps].
    apply R. wuse (HandleLock_spec env k); [done | done | done|]. by intros ret w' [? _].
  - apply (wp_mono _ _ (fun _ => lock_inv (k + 1))); [|intros _ w' I'; by wsteps].
    apply R. wuse (HandleUnlock_spec env k); [done | lia | done|]. intros ret w' [I' _]. by apply Up.
  - wuse (cleanup_turn_keeps env k); [lia | done|]. intros _ w'. apply Up.
  - wuse (HandleElectionEvent_spec env k); [done|]. intros _ w' [_ I']. wsteps. by apply Up.
  - wuse (DLockClientReinit_keeps env k); [done|]. intros _ w' I'. wsteps. by apply Up.
Qed.

Lemma run_inv ops k w :
  (0 <= k)%Z -> (k + Z.of_nat (length ops) < 2 ^ 31)%Z -> lock_inv k w -> lock_inv (k + Z.of_nat (length ops)) (run ops w).
Proof.
  revert k w. induction ops as [|[env op] ops IH]; intros k w H0 Hk I; [by rewrite Z.add_0_r|]. cbn [length] in *.
  replace (k + Z.of_nat (S (length ops)))%Z with (k + 1 + Z.of_nat (length ops))%Z by lia. apply IH; [lia | lia|].
  apply perform_keeps; [done | lia | done].
Qed.

(** C24: whatever the lock library, the loader and the other daemons answer, after
    any run of lock requests, clean-up turns, election events and recoveries (fewer
    than [2 ^ 31]) no call has gone through a null pointer, the service is ready
    only while the library is loaded, a name has a client exactly when that
    client has a lock id for it, only such names are counted, and every count
    is positive. *)
Theorem locks_invariant (c : DLockConfig) (ops : list (LockEnv * LockOp)) :
  (1 <= dlockClientNum c)%Z -> (Z.of_nat (length ops) < 2 ^ 31)%Z ->
  let w := run ops (fresh c) in
  lw_lost w = false /\
  (isUbsmLockInit w = true -> forall s, s ∈ all_symbols -> s ∈ pointers (lw_lib w)) /\
  (forall name i, metaMap (lw_ctx w) !! name = Some i <->
     exists d, dlockClients (lw_ctx w) !! i = Some d /\ is_Some (name2LockId d !! name)) /\
  (forall name r, refCount (lw_ctx w) !! name = Some r -> (1 <= r)%Z /\ is_Some (metaMap (lw_ctx w) !! name)).
Proof.
  intros Hn Hl w. destruct (run_inv ops 0 (fresh c)) as [I1 I2 I3 I4]; [lia | lia | by apply fresh_inv|]. fold w in I1, I2, I3, I4.
  split; [done|]. split; [|split].
  - intros R. apply I2 in R. unfold lib_inv in I1. by rewrite R in I1.
  - apply (meta_lock _ _ I3).
  - intros name r Hr. split; [apply (ref_range _ _ I3) in Hr; lia|]. by apply (ref_meta _ _ I3).
Qed.

(** ** Concrete surroundings for the witnesses *)

Definition config (num : Z) : DLockConfig := mkDLockConfig 0 num false false 1 1 "" "" "::1" 300 false.

(** A library that finds every symbol, numbers locks by the calls and grants
    everything; the answers of given calls are replaced. *)
Definition library (special : list (nat * Z)) (n : nat) (c : LibCall) : Z * Z :=
  match c with
  | DlOpen _ | DlSym _ => (1%Z, 0%Z)
  | _ => (default 0%Z (snd <$> head (filter (fun x => x.1 = n) special)), Z.of_nat n)
  end.

Definition idle_election : ElectionModule := mkElectionModule false 0 "" ∅ ∅ [] [] 0.

Definition here_node : RpcNode := mkRpcNode "10.0.0.1:1" "10.0.0.1" 1.

(** The node itself is the voting-only node, and no election is going on. *)
Definition here_zen : ZenDiscovery :=
  mkZen (mkZenConfig "10.0.0.1:1" 0 0 0 1 [here_node] here_node) JOINED_CLUSTER true "" "10.0.0.2:1" [] 
    {[ "10.0.0.1:1" := mkClusterNode "10.0.0.1:1" "10.0.0.1" 1 false 0 true VOTING_ONLY_NODE ]} 0 idle_election true None [].

Definition surroundings (special : list (nat * Z)) (now : Z) : LockEnv :=
  mkLockEnv (library special) (fun _ => now) (Some here_zen) here_node (fun _ => true) 0 (fun _ _ => 0%Z) (fun _ _ => (0%Z, 0%Z)).

Definition process (pid : Z) : LockUdsInfo := mkLockUds pid 1000 1000 0.

Lemma locks_invariant_witness :
  let w := run [(surroundings [] 5, DoEvent BECOME_VOTE_NODE "10.0.0.2:1" ""); (surroundings [] 6, DoLock "m" false (process 7));
                (surroundings [] 6, DoLock "m" false (process 8)); (surroundings [] 7, DoUnlock "m" (process 7))] (fresh (config 2)) in
  lw_lost w = false /\ isUbsmLockInit w = true /\ refCount (lw_ctx w) !! "m" = Some 1%Z.
Proof.
  intros w. split; [|vm_compute; split; reflexivity].
  apply (locks_invariant (config 2)
           [(surroundings [] 5, DoEvent BECOME_VOTE_NODE "10.0.0.2:1" ""); (surroundings [] 6, DoLock "m" false (process 7));
            (surroundings [] 6, DoLock "m" false (process 8)); (surroundings [] 7, DoUnlock "m" (process 7))]); vm_compute; [discriminate | reflexivity].
Defined.

(** ** Requests *)

(** The record of a process at a client. *)
Definition record_at (w : LockWorld) (i : nat) (name : string) (u : LockUdsInfo) : option Z :=
  m ← holders (lw_ctx w) !! i; s ← m !! name; s !! uds_key u.

(** C25: a lock request that is granted takes one reference more and records the
    process until now plus the configured time, an exclusive one only when
    the name had no reference at all; one that is refused leaves every count and
    every record as it was; nothing happens while the service is not ready or an
    election is going on. *)
Theorem lock_request_outcome (env : LockEnv) (k : Z) (name : string) (isExclusive : bool) (u : LockUdsInfo) (w : LockWorld) :
  (0 <= k)%Z -> (k + 1 < 2 ^ 31)%Z -> lock_inv k w ->
  let '(ret, w') := HandleLock name isExclusive u env w in
  (ret = MXM_OK ->
     refCount (lw_ctx w') !! name = Some (default 0 (refCount (lw_ctx w) !! name) + 1)%Z /\
     (forall n, n <> name -> refCount (lw_ctx w') !! n = refCount (lw_ctx w) !! n) /\
     (isExclusive = true -> refCount (lw_ctx w) !! name = None) /\
     exists i, metaMap (lw_ctx w') !! name = Some i /\
       record_at w' i name u = Some (u64 (le_now env (clock_reads w) + lockExpireTime (cfg (lw_ctx w)) * 1000000))) /\
  (ret <> MXM_OK -> refCount (lw_ctx w') = refCount (lw_ctx w) /\ holders (lw_ctx w') = holders (lw_ctx w)) /\
  (is_ready env w = false -> ret = MXM_ERR_LOCK_NOT_READY /\ w' = w).
Proof.
  intros H0 Hk I. pose proof (HandleLock_spec env k H0 name isExclusive u w Hk I) as H. unfold wp in H.
  destruct (HandleLock name isExclusive u env w) as [ret w']. cbn in H. destruct H as (I' & O & N & _). split; [|split; [|done]].
  - intros ->. destruct O as [(_ & Hr & Hx & i & Hm & Hh)|[? _]]; [|done]. rewrite Hr. unfold ref_add. split; [|split; [|split; [done|]]].
    + rewrite lookup_insert_eq, u32_small; [done|]. destruct (refCount (lw_ctx w) !! name) as [r|] eqn:E; cbn; [|lia].
      apply (ref_range _ _ (inv_ctx _ _ I)) in E. lia.
    + intros n Hn. by rewrite lookup_insert_ne.
    + exists i. split; [done|]. destruct (ctx_lock_id (k + 1) name i (lw_ctx w') (inv_ctx _ _ I') Hm) as (d & l & Hd & _).
      assert (Hi : is_Some (holders (lw_ctx w') !! i)) by (unfold holders; rewrite list_lookup_fmap, Hd; eauto). unfold record_at.
      rewrite Hh in Hi |- *. rewrite list_lookup_alter_eq in Hi |- *. destruct (holders (lw_ctx w) !! i) as [m|]; [|by destruct Hi].
      cbn. unfold record_holder. rewrite lookup_insert_eq. cbn. by rewrite lookup_insert_eq.
  - intros Hret. destruct O as [[? _]|(_ & O)]; done.
Qed.

(** A service with one client that holds nothing. *)
Definition started (num : Z) : LockWorld :=
  (perform (DoEvent BECOME_VOTE_NODE "10.0.0.2:1" "") (surroundings [] 5) (fresh (config num))).2.

Lemma started_inv num : (1 <= num)%Z -> lock_inv 1 (started num).
Proof. intros H. apply (perform_keeps _ _ 0); [lia | lia | by apply fresh_inv]. Qed.

Lemma lock_request_outcome_witness :
  let w' := (HandleLock "m" true (process 7) (surroundings [] 6) (started 1)).2 in
  refCount (lw_ctx w') !! "m" = Some 1%Z /\ exists i, metaMap (lw_ctx w') !! "m" = Some i /\ record_at w' i "m" (process 7) = Some 300000006%Z.
Proof.
  pose proof (lock_request_outcome (surroundings [] 6) 1 "m" true (process 7) (started 1) ltac:(lia) ltac:(lia)
    (started_inv 1 ltac:(lia))) as H.
  destruct (HandleLock "m" true (process 7) (surroundings [] 6) (started 1)) as [ret w'] eqn:E.
  assert (Hr : ret = MXM_OK) by (change ret with (ret, w').1; rewrite <- E; vm_compute; reflexivity).
  destruct H as [H _]. destruct (H Hr) as (H1 & _ & _ & i & Hi & H2). split; [exact H1|]. exists i. split; [exact Hi|]. exact H2.
Defined.

(** The library grants every [unlock]. *)
Definition unlocks (env : LockEnv) : Prop := forall n clientId lockId, (le_lib env n (UnlockCall clientId lockId)).1 = DLOCK_SUCCESS.

Lemma UnlockWithDesc_success env k name i u w :
  (0 <= k < 2 ^ 31)%Z -> unlocks env -> serving k w -> metaMap (lw_ctx w) !! name = Some i ->
  wp (UnlockWithDesc name i u) (fun ret w' => serving k w' /\ ret = MXM_OK /\ lw_ctx w' = unlocked name i u (lw_ctx w)) env w.
Proof.
  intros Hk U S Hm. unfold UnlockWithDesc. wsteps.
  destruct (ctx_lock_id k name i (lw_ctx w) (inv_ctx _ _ (proj1 S)) Hm) as (d & l & Hd & Hl).
  unfold client_at, ClientDesc.GetLockId. rewrite Hd. cbn [default from_option id]. unfold id. rewrite Hl.
  unfold DEFAULT_TRY_LOCK_COUNT. cbn [unlock_loop]. apply wp_bind. eapply wp_serve; [done|]. intros a -> Sa. rewrite U in *.
  cbn [Z.eqb DLOCK_SUCCESS DLOCK_ALREADY_UNLOCKED DLOCK_FAIL DLOCK_ALREADY_LOCKED orb].
  by apply (unlock_success_spec env k Hk name i u l _ Sa).
Qed.

Lemma HandleUnlock_success env k name i u w :
  (0 <= k < 2 ^ 31)%Z -> unlocks env -> lock_inv k w -> is_ready env w = true -> metaMap (lw_ctx w) !! name = Some i ->
  ClientDesc.IsLockUdsValid name u (client_at i w) = true ->
  wp (HandleUnlock name u) (fun ret w' => serving k w' /\ ret = MXM_OK /\ lw_ctx w' = unlocked name i u (lw_ctx w)) env w.
Proof.
  intros Hk U I R Hm V. pose proof (ready_serving _ _ _ I R) as S. unfold HandleUnlock, GetClientDesc. apply wp_bind, wp_ready. rewrite R. wsteps.
  rewrite Hm. wsteps. rewrite V. wsteps. apply (wp_time env k); [done|]. intros S1.
  pose proof (UnlockWithDesc_success env k name i u _ Hk U S1 Hm) as H. wif; [|exact H]. wsteps. wuse H. intros ret w' (S' & _ & E). by wsteps.
Qed.

Lemma unlocked_facts k name i u c :
  (0 <= k < 2 ^ 31)%Z -> ctx_inv k c -> metaMap c !! name = Some i ->
  refCount (unlocked name i u c) !! name = (r ← refCount c !! name; if Z.eqb r 1 then None else Some (r - 1)%Z) /\
  (metaMap (unlocked name i u c) !! name = if decide (refCount (unlocked name i u c) !! name = None) then None else Some i) /\
  forall n, n <> name -> refCount (unlocked name i u c) !! n = refCount c !! n /\ metaMap (unlocked name i u c) !! n = metaMap c !! n.
Proof.
  intros Hk I Hm. unfold unlocked, released. rewrite !(ref_release_cases k) by (done || lia).
  destruct (refCount c !! name) as [r|] eqn:Hr; cbn [fst snd NOT_FOUND].
  - pose proof (ref_range _ _ I _ _ Hr). destruct (Z.eqb_spec r 1) as [->|Hr1]; [change (Z.leb (1 - 1) 0) with true; cbv iota|].
    + cbn. rewrite lookup_delete_eq. split; [done|]. rewrite lookup_delete_eq. split; [by case_decide|].
      intros n Hn. by rewrite !lookup_delete_ne.
    + rewrite (proj2 (Z.leb_gt _ _)) by lia. cbn. rewrite lookup_insert_eq. destruct (Z.eqb_spec r 1) as [|_]; [lia|]. split; [done|].
      split; [by rewrite decide_False, Hm|]. intros n Hn. by rewrite lookup_insert_ne.
  - change (Z.leb (-1) 0) with true. cbn. rewrite Hr. split; [done|]. rewrite lookup_delete_eq. split; [by case_decide|]. intros n Hn. by rewrite lookup_delete_ne.
Qed.

(** ** The answer of the library *)

(** The answer that settles an unlock: the call is repeated while the library is not ready. *)
Fixpoint unlock_answer (env : LockEnv) (n calls : nat) (clientId lockId : Z) : Z :=
  let a := (le_lib env calls (UnlockCall clientId lockId)).1 in
  match n with
  | O => a
  | S n => if retryable a then unlock_answer env n (S calls) clientId lockId else a
  end.

(** The lock is given back; the library has lost it; any other answer is a failure. *)
Definition answer_granted (a : Z) : bool := Z.eqb a DLOCK_ALREADY_LOCKED || Z.eqb a DLOCK_SUCCESS.
Definition answer_lost (a : Z) : bool := Z.eqb a DLOCK_ALREADY_UNLOCKED || Z.eqb a DLOCK_FAIL.

(** All references and the lock of a name are dropped; the records of its holders are not. *)
Definition dropped (name : string) (i : nat) (c : DLockContext) : DLockContext := forget_lock name i (set_refCount (delete name) c).

Definition unlock_effect (name : string) (i : nat) (u : LockUdsInfo) (a : Z) (c : DLockContext) : Z * DLockContext :=
  if answer_lost a then (MXM_ERR_DLOCK_INNER, dropped name i c)
  else if answer_granted a then (MXM_OK, unlocked name i u c)
  else (MXM_ERR_DLOCK_INNER, c).

Lemma retryable_settles a : retryable a = true -> answer_lost a = false /\ answer_granted a = false.
Proof.
  unfold retryable, answer_lost, answer_granted. rewrite orb_true_iff, !Z.eqb_eq. by intros [-> | ->].
Qed.

Lemma unlock_loop_exact env k n name i clientId lockId u w :
  (0 <= k < 2 ^ 31)%Z -> serving k w -> metaMap (lw_ctx w) !! name = Some i ->
  wp (unlock_loop n name i clientId lockId u) (fun ret w' => serving k w' /\
    (ret, lw_ctx w') = unlock_effect name i u (unlock_answer env n (length (lib_trace w)) clientId lockId) (lw_ctx w)) env w.
Proof.
  intros Hk. revert w. induction n as [|n IH]; intros w S Hm; cbn [unlock_loop unlock_answer].
  all: apply wp_bind; eapply wp_serve; [done|]; intros a -> Sa; set (a := le_lib _ _ _) in *.
  all: fold (answer_lost a.1) (answer_granted a.1).
  all: pose proof (retryable_settles a.1) as Hs.
  all: destruct (answer_lost a.1) eqn:El.
  1, 3: (try (destruct (retryable a.1); [by destruct (Hs eq_refl)|])); unfold unlock_effect; rewrite El; unfold RemoveClientDescRef; wsteps;
    wuse (TryReleaseLock_spec env k name lockId i); [eapply serving_ctx; [done|]; apply ctx_inv_ref_delete, Sa | done | apply lookup_delete_eq
      | intros _ w' [S' E]; wsteps; split; [done|]; by rewrite E].
  all: destruct (answer_granted a.1) eqn:Eg.
  1, 3: (try (destruct (retryable a.1); [by destruct (Hs eq_refl)|])); unfold unlock_effect; rewrite El, Eg;
    wuse (unlock_success_spec env k Hk); [done | done | intros ret w' (S' & -> & E); split; [done | by rewrite E]].
  - unfold unlock_effect. rewrite El, Eg. by wif; wsteps.
  - destruct (retryable a.1) eqn:Er.
    + match goal with |- wp (if ?b then _ else _) _ _ _ => destruct b eqn:Eb end.
      { exfalso. unfold retryable in Er. rewrite orb_true_iff, !Z.eqb_eq in Er. rewrite !orb_true_iff, !Z.eqb_eq in Eb.
        unfold DLOCK_NOT_READY, DLOCK_EASYNC, DLOCK_EINVAL, DLOCK_LOCK_NOT_GET, DLOCK_CLIENTMGR_NOT_INIT, DLOCK_BAD_RESPONSE, DLOCK_CLIENT_NOT_INIT in *. lia. }
      wuse IH; [done | done|]. by intros ret w' H.
    + unfold unlock_effect. rewrite El, Eg. by wif; wsteps.
Qed.

Lemma HandleUnlock_exact env k name i lockId u w :
  (0 <= k < 2 ^ 31)%Z -> lock_inv k w -> is_ready env w = true -> metaMap (lw_ctx w) !! name = Some i ->
  ClientDesc.IsLockUdsValid name u (client_at i w) = true -> ClientDesc.GetLockId name (client_at i w) = Some lockId ->
  wp (HandleUnlock name u) (fun ret w' => serving k w' /\
    let e := unlock_effect name i u (unlock_answer env DEFAULT_TRY_LOCK_COUNT (length (lib_trace w)) (clientId_ (client_at i w)) lockId) (lw_ctx w) in
    ret = (if ClientDesc.IsHolderInValidTime name u (le_now env (clock_reads w)) (client_at i w) then e.1 else MXM_OK) /\ lw_ctx w' = e.2) env w.
Proof.
  intros Hk I R Hm V Hl. pose proof (ready_serving _ _ _ I R) as S. unfold HandleUnlock, GetClientDesc. apply wp_bind, wp_ready. rewrite R. wsteps.
  rewrite Hm. wsteps. rewrite V. wsteps. apply (wp_time env k); [done|]. intros S1. set (w1 := (TimeUs env w).2) in *.
  pose proof (unlock_loop_exact env k DEFAULT_TRY_LOCK_COUNT name i (clientId_ (client_at i w)) lockId u w1 Hk S1 Hm) as H.
  change (lib_trace w1) with (lib_trace w) in H. change (lw_ctx w1) with (lw_ctx w) in H.
  assert (Hu : forall Q, wp (unlock_loop DEFAULT_TRY_LOCK_COUNT name i (clientId_ (client_at i w)) lockId u) Q env w1 -> wp (UnlockWithDesc name i u) Q env w1).
  { intros Q HQ. unfold UnlockWithDesc. wsteps. change (client_at i w1) with (client_at i w). rewrite Hl. exact HQ. }
  destruct (ClientDesc.IsHolderInValidTime _ _ _ _); cbn [negb].
  - apply Hu. wuse H. intros ret w' (S' & E). by rewrite <- E.
  - apply wp_bind, Hu. wuse H. intros ret w' (S' & E). wsteps. by rewrite <- E.
Qed.

Lemma dropped_facts name i c :
  refCount (dropped name i c) !! name = None /\ metaMap (dropped name i c) !! name = None /\
  forall n, n <> name -> refCount (dropped name i c) !! n = refCount c !! n /\ metaMap (dropped name i c) !! n = metaMap c !! n.
Proof. unfold dropped, forget_lock. cbn. rewrite !lookup_delete_eq. split_and!; [done..|]. intros n Hn. by rewrite !lookup_delete_ne. Qed.

(** C26: an unlock request while the service is not ready, or of a process that has no record for the name, is refused
    and changes nothing. With a record, what happens depends on the answer of the library, which is asked again while it is
    not ready. When the lock is given back, the request succeeds, takes one reference away and drops the
    name exactly with the last reference. When the library has lost the lock, or fails, all references and the name are
    dropped. After any other answer nothing has changed. In the last two cases the process gets an
    error, unless its time was over. Other names are left alone, and the invariant of the service holds in every case. *)
Theorem unlock_request_outcome (env : LockEnv) (k : Z) (name : string) (u : LockUdsInfo) (w : LockWorld) :
  (0 <= k < 2 ^ 31)%Z -> lock_inv k w ->
  let '(ret, w') := HandleUnlock name u env w in
  lock_inv k w' /\
  if negb (is_ready env w) then ret = MXM_ERR_LOCK_NOT_READY /\ w' = w
  else
    (~ has_record name u w -> ret = MXM_ERR_LOCK_NOT_FOUND /\ w' = w) /\
    forall i, metaMap (lw_ctx w) !! name = Some i -> ClientDesc.IsLockUdsValid name u (client_at i w) = true ->
      exists lockId, ClientDesc.GetLockId name (client_at i w) = Some lockId /\
      let a := unlock_answer env DEFAULT_TRY_LOCK_COUNT (length (lib_trace w)) (clientId_ (client_at i w)) lockId in
      let failure := if ClientDesc.IsHolderInValidTime name u (le_now env (clock_reads w)) (client_at i w) then MXM_ERR_DLOCK_INNER else MXM_OK in
      (forall n, n <> name -> refCount (lw_ctx w') !! n = refCount (lw_ctx w) !! n /\ metaMap (lw_ctx w') !! n = metaMap (lw_ctx w) !! n) /\
      if answer_granted a then
        ret = MXM_OK /\
        refCount (lw_ctx w') !! name = (r ← refCount (lw_ctx w) !! name; if Z.eqb r 1 then None else Some (r - 1)%Z) /\
        (is_Some (metaMap (lw_ctx w') !! name) <-> is_Some (refCount (lw_ctx w') !! name))
      else if answer_lost a then
        ret = failure /\ refCount (lw_ctx w') !! name = None /\ metaMap (lw_ctx w') !! name = None
      else ret = failure /\ lw_ctx w' = lw_ctx w.
Proof.
  intros Hk I. pose proof (HandleUnlock_spec env k (proj1 Hk) name u w (proj2 Hk) I) as H. unfold wp in H.
  pose proof (fun i l => HandleUnlock_exact env k name i l u w Hk I) as G. unfold wp in G.
  destruct (HandleUnlock name u env w) as [ret w']. cbn [fst snd] in *. destruct H as [I' H]. split; [done|]. destruct (is_ready env w) eqn:R; cbn [negb].
  2: { destruct H as [(_ & H)|[(? & _)|(? & _)]]; [done | congruence..]. }
  split.
  - intros N. destruct H as [(? & _)|[(_ & _ & H)|(_ & i & code & Hm & V & _)]]; [congruence | done | destruct N; by exists i].
  - intros i Hm V. destruct (ctx_lock_id k name i (lw_ctx w) (inv_ctx _ _ I) Hm) as (d & l & Hd & Hl).
    assert (Hid : ClientDesc.GetLockId name (client_at i w) = Some l) by (unfold client_at, ClientDesc.GetLockId; rewrite Hd; exact Hl).
    exists l. split; [exact Hid|]. destruct (G i l eq_refl Hm V Hid) as (_ & Hret & E). cbv zeta. set (a := unlock_answer _ _ _ _ _) in *.
    unfold unlock_effect in *. assert (Hx : answer_granted a = true -> answer_lost a = false).
    { unfold answer_granted, answer_lost. rewrite orb_true_iff, !Z.eqb_eq. by intros [-> | ->]. }
    destruct (answer_granted a); [rewrite Hx in * by done | destruct (answer_lost a)]; cbn [fst snd] in *; rewrite E.
    + destruct (unlocked_facts k name i u (lw_ctx w) Hk (inv_ctx _ _ I) Hm) as (H1 & H2 & H3). split; [exact H3|]. split; [by destruct (ClientDesc.IsHolderInValidTime _ _ _ _)|].
      split; [exact H1|]. rewrite H2. destruct (refCount (unlocked name i u (lw_ctx w)) !! name); cbn; [by rewrite decide_False|]. by rewrite decide_True.
    + destruct (dropped_facts name i (lw_ctx w)) as (H1 & H2 & H3). by split_and!.
    + by split_and!.
Qed.

Lemma unlocks_library special now : Forall (fun x => x.2 = DLOCK_SUCCESS) special -> unlocks (surroundings special now).
Proof.
  intros H n clientId lockId. cbn. destruct (filter (fun x => x.1 = n) special) as [|x l] eqn:E; cbn; [done|].
  assert (Hx : x ∈ filter (fun x => x.1 = n) special) by (rewrite E; left). apply list_elem_of_filter in Hx as [_ Hx].
  rewrite Forall_forall in H. by rewrite H.
Qed.

(** A name with two readers. *)
Definition two_readers : LockWorld :=
  run [(surroundings [] 6, DoLock "m" false (process 7)); (surroundings [] 6, DoLock "m" false (process 8))] (started 1).

Lemma two_readers_inv : lock_inv 3 two_readers.
Proof. unfold two_readers. apply (run_inv [_; _] 1); [lia | cbn; lia | by apply started_inv]. Qed.

(** A library that has lost the lock. *)
Definition losing : LockEnv := surroundings ((fun n => (n, DLOCK_FAIL)) <$> seq 0 100) 7.

Lemma unlock_request_outcome_witness :
  HandleUnlock "m" (process 9) (surroundings [] 7) two_readers = (MXM_ERR_LOCK_NOT_FOUND, two_readers) /\
  refCount (lw_ctx (HandleUnlock "m" (process 7) (surroundings [] 7) two_readers).2) !! "m" = Some 1%Z /\
  refCount (lw_ctx (HandleUnlock "m" (process 7) losing two_readers).2) !! "m" = None.
Proof.
  split_and!.
  - pose proof (unlock_request_outcome (surroundings [] 7) 3 "m" (process 9) two_readers ltac:(lia) two_readers_inv) as H.
    destruct (HandleUnlock "m" (process 9) (surroundings [] 7) two_readers) as [ret w']. destruct H as [_ H].
    replace (is_ready (surroundings [] 7) two_readers) with true in H by (vm_compute; reflexivity). destruct H as [H _].
    destruct H as [-> ->]; [|reflexivity]. intros (i & Hi & V).
    assert (E : i = 0) by (apply (f_equal (default 5)) in Hi; vm_compute in Hi; by symmetry). subst i. vm_compute in V. discriminate V.
  - pose proof (unlock_request_outcome (surroundings [] 7) 3 "m" (process 7) two_readers ltac:(lia) two_readers_inv) as H.
    destruct (HandleUnlock "m" (process 7) (surroundings [] 7) two_readers) as [ret w']. destruct H as [_ H].
    replace (is_ready (surroundings [] 7) two_readers) with true in H by (vm_compute; reflexivity). destruct H as [_ H].
    destruct (H 0 ltac:(vm_compute; reflexivity) ltac:(vm_compute; reflexivity)) as (l & Hl & _ & H'). clear H.
    apply (f_equal (default 5%Z)) in Hl. vm_compute in Hl. cbv zeta in H'. change (default 5%Z (Some l)) with l in Hl. subst l.
    replace (answer_granted _) with true in H' by (vm_compute; reflexivity). destruct H' as (_ & H' & _). cbn [snd]. rewrite H'. vm_compute. reflexivity.
  - pose proof (unlock_request_outcome losing 3 "m" (process 7) two_readers ltac:(lia) two_readers_inv) as H.
    destruct (HandleUnlock "m" (process 7) losing two_readers) as [ret w']. destruct H as [_ H].
    replace (is_ready losing two_readers) with true in H by (vm_compute; reflexivity). destruct H as [_ H].
    destruct (H 0 ltac:(vm_compute; reflexivity) ltac:(vm_compute; reflexivity)) as (l & Hl & _ & H'). clear H.
    apply (f_equal (default 5%Z)) in Hl. vm_compute in Hl. cbv zeta in H'. change (default 5%Z (Some l)) with l in Hl. subst l.
    replace (answer_granted _) with false in H' by (vm_compute; reflexivity). replace (answer_lost _) with true in H' by (vm_compute; reflexivity).
    destruct H' as (_ & H' & _). cbn [snd]. exact H'.
Defined.

(** ** What an unlock request leaves alone *)

Lemma wp_call_flag env b c w :
  isUbsmLockInit w = b -> wp (call_fn c) (fun _ w' => isUbsmLockInit w' = b) env w.
Proof. intros H. unfold call_fn. wsteps. wif; [by apply wp_call|]. by wsteps. Qed.

Lemma TryReleaseLock_flag env b name lockId w :
  isUbsmLockInit w = b -> wp (TryReleaseLock name lockId) (fun _ w' => isUbsmLockInit w' = b) env w.
Proof.
  intros H. unfold TryReleaseLock, GetClientDesc, RemoveClientDesc, on_client. wsteps. case_match; wsteps; [|done].
  wuse wp_call_flag; [done|]. intros a w' Hw. by wsteps.
Qed.

Lemma unlock_loop_flag env b n name i clientId lockId u w :
  isUbsmLockInit w = b -> wp (unlock_loop n name i clientId lockId u) (fun _ w' => isUbsmLockInit w' = b) env w.
Proof.
  revert w. induction n as [|n IH]; intros w H; cbn [unlock_loop].
  all: apply wp_bind; wuse wp_call_flag; [done|]; intros a w1 H1.
  all: wif; [unfold RemoveClientDescRef; wsteps; wuse TryReleaseLock_flag; [exact H1|]; intros _ w2 H2; by wsteps|].
  all: wif; [unfold ReleaseClientDescRef; wsteps; wif; wsteps; [|done]; wuse TryReleaseLock_flag; [exact H1|];
             intros _ w2 H2; unfold on_client; by wsteps|].
  all: wif; [by wsteps|].
  - by wsteps.
  - wif; [by apply IH | by wsteps].
Qed.

Lemma HandleUnlock_flag env name u w : wp (HandleUnlock name u) (fun _ w' => isUbsmLockInit w' = isUbsmLockInit w) env w.
Proof.
  assert (D : forall i w1, isUbsmLockInit w1 = isUbsmLockInit w -> wp (UnlockWithDesc name i u) (fun _ w' => isUbsmLockInit w' = isUbsmLockInit w) env w1).
  { intros i w1 H. unfold UnlockWithDesc. wsteps. case_match; [by apply unlock_loop_flag | by wsteps]. }
  unfold HandleUnlock, GetClientDesc. apply wp_bind, wp_ready. wif; wsteps; [done|]. case_match; wsteps; [|done]. wif; wsteps; [done|].
  unfold wp at 1. wif; wsteps; [wuse D; [done|]; intros _ w' H'; by wsteps | by apply D].
Qed.

(** ** Weaknesses of the bookkeeping *)

(** A process that shares a lock with one other can unlock it twice: the record of
    the first process is only dropped with the last reference, so both its requests
    succeed, the second gives up the other's reference and releases the lock,
    and the other process, which never unlocked, is then told that there is no
    such lock, although its record is still there. *)
Theorem shared_lock_unlocked_twice (env1 env2 env3 : LockEnv) (k : Z) (name : string) (i : nat) (a b : LockUdsInfo) (w : LockWorld) :
  (0 <= k < 2 ^ 31)%Z -> lock_inv k w -> isUbsmLockInit w = true ->
  in_election env1 = false -> in_election env2 = false -> in_election env3 = false -> unlocks env1 -> unlocks env2 ->
  metaMap (lw_ctx w) !! name = Some i -> refCount (lw_ctx w) !! name = Some 2%Z -> uds_key a <> uds_key b ->
  is_Some (record_at w i name a) -> is_Some (record_at w i name b) ->
  let '(ret1, w1) := HandleUnlock name a env1 w in
  let '(ret2, w2) := HandleUnlock name a env2 w1 in
  ret1 = MXM_OK /\ ret2 = MXM_OK /\ metaMap (lw_ctx w2) !! name = None /\ refCount (lw_ctx w2) !! name = None /\
  record_at w2 i name b = record_at w i name b /\ HandleUnlock name b env3 w2 = (MXM_ERR_LOCK_NOT_FOUND, w2).
Proof.
  intros Hk I B E1 E2 E3 U1 U2 Hm Hr Hab Ha Hb.
  assert (V : forall w', dlockClients (lw_ctx w') = dlockClients (lw_ctx w) -> ClientDesc.IsLockUdsValid name a (client_at i w') = true).
  { intros w' Ew. unfold record_at, holders in Ha. rewrite list_lookup_fmap in Ha. unfold client_at. rewrite Ew.
    destruct (dlockClients (lw_ctx w) !! i) as [d|]; cbn in *; [|by destruct Ha]. unfold ClientDesc.IsLockUdsValid.
    destruct (name2UdsInfo d !! name) as [s|]; cbn in *; [by apply bool_decide_eq_true | by destruct Ha]. }
  assert (R : forall env w', in_election env = false -> isUbsmLockInit w' = true -> is_ready env w' = true) by (intros ? ? HE HB; unfold is_ready; by rewrite HE, HB).
  pose proof (HandleUnlock_success env1 k name i a w Hk U1 I (R _ _ E1 B) Hm (V w eq_refl)) as H1. unfold wp in H1.
  pose proof (HandleUnlock_flag env1 name a w) as B1. unfold wp in B1.
  destruct (HandleUnlock name a env1 w) as [ret1 w1]. cbn [fst snd] in *. destruct H1 as ([I1 L1] & -> & C1).
  assert (C1' : lw_ctx w1 = set_refCount (fun _ => <[name := 1%Z]> (refCount (lw_ctx w))) (lw_ctx w)).
  { rewrite C1. unfold unlocked, released. rewrite !(ref_release_cases k), Hr by (apply I || lia). done. }
  assert (Hm1 : metaMap (lw_ctx w1) !! name = Some i) by (by rewrite C1').
  pose proof (HandleUnlock_success env2 k name i a w1 Hk U2 I1 (R _ _ E2 (eq_trans B1 B)) Hm1 ltac:(apply V; by rewrite C1')) as H2. unfold wp in H2.
  pose proof (HandleUnlock_flag env2 name a w1) as B2. unfold wp in B2.
  destruct (HandleUnlock name a env2 w1) as [ret2 w2]. cbn [fst snd] in *. destruct H2 as ([I2 L2] & -> & C2).
  destruct (unlocked_facts k name i a (lw_ctx w1) Hk (inv_ctx _ _ I1) Hm1) as (F1 & F2 & _). rewrite <- C2 in F1, F2.
  assert (Hr1 : refCount (lw_ctx w1) !! name = Some 1%Z) by (rewrite C1'; apply lookup_insert_eq).
  rewrite Hr1 in F1. cbn in F1. rewrite F1, decide_True in F2 by done. split; [done|]. split; [done|]. split; [done|]. split; [done|]. split.
  - unfold record_at, holders. rewrite C2. unfold unlocked. rewrite (ref_release_cases k), Hr1 by (apply I1 || lia).
    cbn [fst]. change (Z.leb (1 - 1) 0) with true. cbv iota. unfold forget_lock, released. cbn [set_clients set_metaMap set_refCount dlockClients].
    rewrite C1'. cbn [set_refCount dlockClients]. rewrite !list_lookup_fmap, !list_lookup_alter_eq.
    destruct (dlockClients (lw_ctx w) !! i) as [d|]; [|done]. cbn. rewrite lookup_alter_eq. destruct (name2UdsInfo d !! name); [|done].
    cbn. by rewrite lookup_delete_ne.
  - unfold HandleUnlock, ready, GetClientDesc, gets, asks, mbind, lm_bind, mret, lm_ret. rewrite B2, B1, B, E3. cbn. by rewrite F2.
Qed.

Lemma shared_lock_unlocked_twice_witness :
  let env := surroundings [] 7 in
  let w1 := (HandleUnlock "m" (process 7) env two_readers).2 in
  let w2 := (HandleUnlock "m" (process 7) env w1).2 in
  is_Some (record_at two_readers 0 "m" (process 8)) /\ HandleUnlock "m" (process 8) env w2 = (MXM_ERR_LOCK_NOT_FOUND, w2).
Proof.
  intros env w1 w2. split; [vm_compute; eauto|].
  pose proof (shared_lock_unlocked_twice env env env 3 "m" 0 (process 7) (process 8) two_readers ltac:(lia) two_readers_inv
    ltac:(vm_compute; reflexivity) ltac:(vm_compute; reflexivity) ltac:(vm_compute; reflexivity) ltac:(vm_compute; reflexivity)
    ltac:(by apply unlocks_library) ltac:(by apply unlocks_library) ltac:(vm_compute; reflexivity) ltac:(vm_compute; reflexivity)
    ltac:(discriminate) ltac:(vm_compute; eauto) ltac:(vm_compute; eauto)) as H.
  unfold w2, w1. destruct (HandleUnlock "m" (process 7) env two_readers) as [r1 x1]. cbn [snd] in *.
  destruct (HandleUnlock "m" (process 7) env x1) as [r2 x2]. cbn [snd] in *. apply H.
Defined.

(** When a request for a new lock is refused after the library has made the lock,
    the reference that was taken is given back, but the branch that should
    release the lock is never entered: its test is for a negative count, and the
    count is zero. No release is ever called, and the name keeps its lock. *)
Theorem refused_lock_never_released (env : LockEnv) (k : Z) (name : string) (isExclusive : bool) (u : LockUdsInfo) (w : LockWorld) :
  (0 <= k)%Z -> (k + 1 < 2 ^ 31)%Z -> lock_inv k w -> is_ready env w = true ->
  let '(ret, w') := HandleLock name isExclusive u env w in
  ret <> MXM_OK -> ret <> MXM_ERR_LOCK_NOT_FOUND ->
  no_release w w' /\ refCount (lw_ctx w') = refCount (lw_ctx w) /\
  exists i d, metaMap (lw_ctx w') !! name = Some i /\ dlockClients (lw_ctx w') !! i = Some d /\ is_Some (name2LockId d !! name).
Proof.
  intros H0 Hk I R. pose proof (HandleLock_spec env k H0 name isExclusive u w Hk I) as H. unfold wp in H.
  destruct (HandleLock name isExclusive u env w) as [ret w']. cbn in H. destruct H as (I' & O & _ & N & M). intros Hr1 Hr2.
  split; [done|]. split; [by destruct O as [[? _]|(_ & ? & _)]|]. destruct (M R Hr2) as [i Hi].
  destruct (ctx_lock_id (k + 1) name i (lw_ctx w') (inv_ctx _ _ I') Hi) as (d & l & Hd & Hl). exists i, d. rewrite Hl. eauto.
Qed.

(** The lock is made, but the library's answer to the second call, the try, is bad. *)
Definition bad_answer : LockEnv := surroundings [(length (lib_trace (started 1)) + 1, DLOCK_BAD_RESPONSE)] 6.

Lemma refused_lock_never_released_witness :
  let r := HandleLock "m" true (process 7) bad_answer (started 1) in
  r.1 = MXM_ERR_DLOCK_INNER /\ metaMap (lw_ctx (started 1)) !! "m" = None /\ no_release (started 1) r.2 /\
  exists i d, metaMap (lw_ctx r.2) !! "m" = Some i /\ dlockClients (lw_ctx r.2) !! i = Some d /\ is_Some (name2LockId d !! "m").
Proof.
  intros r. assert (Hr : r.1 = MXM_ERR_DLOCK_INNER) by (vm_compute; reflexivity). split; [exact Hr|]. split; [vm_compute; reflexivity|].
  pose proof (refused_lock_never_released bad_answer 1 "m" true (process 7) (started 1) ltac:(lia) ltac:(lia) (started_inv 1 ltac:(lia))
    ltac:(vm_compute; reflexivity)) as H. fold r in H. destruct r as [ret w']. cbn [fst snd] in *. subst ret.
  destruct H as (H1 & _ & H2); [discriminate | discriminate |]. split; [exact H1 | exact H2].
Defined.
