(* ===== verification/LockRecovery.v ===== *)
(** Distributed locks: theorems on the clean-up of expired locks, on the recovery of a
    client and on demotion. *)

From S2P Require Import Prelude StoreTypes MsgPacker MsgCodec MsgBase MsgRequests MsgResponses StoreInterface NodeAddress Election ElectionNet Locks LockService LockEvents LockInv LockOps LockLifecycle LockTheorems.
Import Context Zen.

(** ** Expired locks *)

Section Expired.
Context (env : LockEnv) (k : Z) (Hk : (0 <= k < 2 ^ 31)%Z) (U : unlocks env).
Implicit Types (w : LockWorld) (name : string).

(** One [unlock] per record: the count goes down by their number, or the name goes. *)
Lemma unlock_all_counts name i us r w :
  serving k w -> metaMap (lw_ctx w) !! name = Some i -> refCount (lw_ctx w) !! name = Some r ->
  wp (unlock_all name i us) (fun _ w' =>
    serving k w' /\
    if Z.ltb (Z.of_nat (length us)) r
    then refCount (lw_ctx w') !! name = Some (r - Z.of_nat (length us))%Z /\ metaMap (lw_ctx w') = metaMap (lw_ctx w) /\
         dlockClients (lw_ctx w') = dlockClients (lw_ctx w)
    else metaMap (lw_ctx w') !! name = None) env w.
Proof.
  revert r w. induction us as [|u us IH]; intros r w S Hm Hr; cbn [unlock_all length].
  - wsteps. split; [done|]. pose proof (ref_range _ _ (inv_ctx _ _ (proj1 S)) _ _ Hr).
    rewrite (proj2 (Z.ltb_lt _ _)) by lia. by replace (r - Z.of_nat 0)%Z with r by lia.
  - apply wp_bind. wuse (UnlockWithDesc_success env k name i u w Hk U S Hm). intros ret w1 (S1 & _ & C1).
    destruct (unlocked_facts k name i u (lw_ctx w) Hk (inv_ctx _ _ (proj1 S)) Hm) as (F1 & F2 & _). rewrite <- C1 in F1, F2.
    rewrite Hr in F1. cbn in F1. pose proof (ref_range _ _ (inv_ctx _ _ (proj1 S)) _ _ Hr). destruct (Z.eqb_spec r 1) as [->|Hr1].
    + rewrite F1, decide_True in F2 by done. rewrite (proj2 (Z.ltb_ge _ _)) by lia. clear IH C1 F1. revert w1 S1 F2.
      induction us as [|u' us IH]; intros w1 S1 F2; cbn [unlock_all]; wsteps; [done|].
      unfold wp. rewrite (UnlockWithDesc_none env k) by (done || by rewrite F2). by apply IH.
    + assert (C1' : lw_ctx w1 = released name (lw_ctx w)).
      { rewrite C1. unfold unlocked. rewrite (ref_release_cases k), Hr by (apply S || lia). cbn [fst].
        by rewrite (proj2 (Z.leb_gt _ _)) by lia. }
      wuse (IH (r - 1)%Z); [done | by rewrite C1' | done|]. intros _ w' [S' H']. split; [done|].
      replace (Z.ltb (Z.of_nat (Datatypes.S (length us))) r) with (Z.ltb (Z.of_nat (length us)) (r - 1))
        by (destruct (Z.ltb_spec (Z.of_nat (length us)) (r - 1)), (Z.ltb_spec (Z.of_nat (Datatypes.S (length us))) r); lia).
      destruct (Z.ltb _ _); [|done]. rewrite C1' in H'. destruct H' as (H1 & H2 & H3).
      split; [rewrite H1; f_equal; lia | done].
Qed.

(** Every holder's time is over at the next two readings of the clock. *)
Definition all_expired (s : gmap UdsKey Z) w : Prop :=
  forall key t, s !! key = Some t -> (t <= le_now env (clock_reads w))%Z /\ (t <= le_now env (S (clock_reads w)))%Z.

Lemma filter_all {A} (P : A -> Prop) `{forall x, Decision (P x)} (l : list A) : Forall P l -> filter P l = l.
Proof. induction 1 as [|x l Hx _ IH]; [done|]. by rewrite filter_cons_True, IH. Qed.

Lemma uds_entries_elem s key t : (key, t) ∈ uds_entries s <-> s !! key = Some t.
Proof. unfold uds_entries. rewrite (merge_sort_Permutation uds_le). apply elem_of_map_to_list. Qed.

Lemma expired_not_valid name d s t :
  name2UdsInfo d !! name = Some s -> (forall key v, s !! key = Some v -> (v <= t)%Z) -> ClientDesc.IsLockInValidTime name t d = false.
Proof.
  intros Hs He. unfold ClientDesc.IsLockInValidTime. rewrite Hs. apply not_true_is_false. intros H%existsb_exists.
  destruct H as ([key v] & Hin & Hv). apply list_elem_of_In, uds_entries_elem, He in Hin. apply Z.ltb_lt in Hv. cbn in Hv. lia.
Qed.

Lemma expired_all_listed name d s t :
  name2UdsInfo d !! name = Some s -> (forall key v, s !! key = Some v -> (v <= t)%Z) ->
  length (ClientDesc.GetInValidUdsInfo name t d) = size s.
Proof.
  intros Hs He. unfold ClientDesc.GetInValidUdsInfo. rewrite Hs, length_fmap, filter_all.
  - unfold uds_entries. rewrite merge_sort_Permutation. apply length_map_to_list.
  - apply Forall_forall. intros [key v] Hin. apply uds_entries_elem, He in Hin. done.
Qed.

Lemma client_at_lookup i w d : dlockClients (lw_ctx w) !! i = Some d -> client_at i w = d.
Proof. unfold client_at. by intros ->. Qed.

(** What the clean-up of one name comes to. *)
Lemma cleanup_name_counts name i d s r w :
  serving k w -> metaMap (lw_ctx w) !! name = Some i -> refCount (lw_ctx w) !! name = Some r ->
  dlockClients (lw_ctx w) !! i = Some d -> name2UdsInfo d !! name = Some s -> all_expired s w ->
  wp (cleanup_name name) (fun _ w' =>
    serving k w' /\
    if Z.ltb (Z.of_nat (size s)) r
    then refCount (lw_ctx w') !! name = Some (r - Z.of_nat (size s))%Z /\ metaMap (lw_ctx w') = metaMap (lw_ctx w) /\
         dlockClients (lw_ctx w') = dlockClients (lw_ctx w)
    else metaMap (lw_ctx w') !! name = None /\ name2UdsInfo (client_at i w') !! name = None) env w.
Proof.
  intros S Hm Hr Hd Hs He. unfold cleanup_name, GetClientDesc. wsteps. rewrite Hm. apply wp_bind, (wp_time env k); [done|]. intros S1. wsteps.
  set (w1 := (TimeUs env w).2) in *. rewrite (client_at_lookup i w1 d Hd).
  rewrite (expired_not_valid name d s) by (done || (intros key v Hv; by apply He in Hv as [? _])). wsteps.
  unfold CleanUpExpiredLocksForName. apply wp_bind, (wp_time env k); [done|]. intros S2. set (w2 := (TimeUs env w1).2) in *. wsteps.
  rewrite (client_at_lookup i w2 d Hd). wuse unlock_all_counts; [done | exact Hm | exact Hr|]. intros _ w3 [S3 H3]. wsteps.
  rewrite (expired_all_listed name d s) in H3 by (done || (intros key v Hv; by apply He in Hv as [_ ?])).
  destruct (Z.ltb (Z.of_nat (size s)) r).
  - destruct H3 as (H1 & H2 & H3). assert (Hl : is_Some (ClientDesc.GetLockId name (client_at i w3))).
    { destruct (ctx_lock_id k name i (lw_ctx w3)) as (d' & l & Hd' & Hl); [apply S3 | by rewrite H2|].
      rewrite (client_at_lookup i w3 d' Hd'). by exists l. }
    destruct Hl as [l ->]. by wsteps.
  - assert (Hl : ClientDesc.GetLockId name (client_at i w3) = None).
    { unfold ClientDesc.GetLockId, client_at. destruct (dlockClients (lw_ctx w3) !! i) as [d'|] eqn:Hd'; [|done]. cbn.
      destruct (name2LockId d' !! name) eqn:Hl; [|done]. assert (metaMap (lw_ctx w3) !! name = Some i); [|congruence].
      apply (meta_lock k); [apply S3 | eauto]. }
    rewrite Hl. unfold on_client. wsteps. split; [eapply serving_ctx; [done|]; apply ctx_inv_clients; [done | done | apply S3]|].
    split; [exact H3|]. unfold client_at. cbn. rewrite list_lookup_alter_eq. destruct (dlockClients (lw_ctx w3) !! i); [|done]. cbn.
    apply lookup_delete_eq.
Qed.

End Expired.

(** C27: the clean-up of a name whose holders are all past their time, while the
    service is ready and with a library that grants every unlock: it takes as many
    references away as there are records, and when that is all of them it drops
    the name and the records; otherwise the name and the records stay for the
    next turn. *)
Theorem cleanup_reclaims (env : LockEnv) (k : Z) (name : string) (i : nat) (d : ClientDesc) (s : gmap UdsKey Z) (r : Z) (w : LockWorld) :
  (0 <= k < 2 ^ 31)%Z -> unlocks env -> lock_inv k w -> is_ready env w = true ->
  metaMap (lw_ctx w) !! name = Some i -> refCount (lw_ctx w) !! name = Some r ->
  dlockClients (lw_ctx w) !! i = Some d -> name2UdsInfo d !! name = Some s -> all_expired env s w ->
  let w' := (cleanup_name name env w).2 in
  lock_inv k w' /\
  (r <= Z.of_nat (size s) -> metaMap (lw_ctx w') !! name = None /\ name2UdsInfo (client_at i w') !! name = None)%Z /\
  (Z.of_nat (size s) < r -> refCount (lw_ctx w') !! name = Some (r - Z.of_nat (size s)) /\
     metaMap (lw_ctx w') = metaMap (lw_ctx w) /\ dlockClients (lw_ctx w') = dlockClients (lw_ctx w))%Z.
Proof.
  intros Hk U I R Hm Hr Hd Hs He w'.
  destruct (cleanup_name_counts env k Hk U name i d s r w (ready_serving _ _ _ I R) Hm Hr Hd Hs He) as [[I' _] H].
  fold w' in I', H. split; [done|]. destruct (Z.ltb_spec (Z.of_nat (size s)) r); (split; [|lia || done]); [lia | done].
Qed.

Lemma bounded_values (s : gmap UdsKey Z) (b : Z) :
  forallb (fun x => Z.leb x.2 b) (map_to_list s) = true -> forall key t, s !! key = Some t -> (t <= b)%Z.
Proof.
  intros Hf key t Ht. rewrite forallb_forall in Hf. apply (Z.leb_le t), (Hf (key, t)), list_elem_of_In, elem_of_map_to_list, Ht.
Qed.

Lemma cleanup_reclaims_witness :
  let w' := (cleanup_name "m" (surroundings [] 999999999999) two_readers).2 in
  is_Some (metaMap (lw_ctx two_readers) !! "m") /\ metaMap (lw_ctx w') !! "m" = None.
Proof.
  intros w'. split; [vm_compute; eauto|].
  set (d := client_at 0 two_readers). set (s := default ∅ (name2UdsInfo d !! "m")).
  refine (proj1 (proj1 (proj2 (cleanup_reclaims (surroundings [] 999999999999) 3 "m" 0 d s 2 two_readers _ _ two_readers_inv _ _ _ _ _ _)) _)).
  - lia.
  - by apply unlocks_library.
  - vm_compute. reflexivity.
  - vm_compute. reflexivity.
  - vm_compute. reflexivity.
  - vm_compute. reflexivity.
  - vm_compute. reflexivity.
  - intros key t Ht.
    pose proof (bounded_values s 999999999999 ltac:(vm_compute; reflexivity) key t Ht) as Hb. split; exact Hb.
  - vm_compute. discriminate.
Defined.

(** ** The recovery of a client *)

Section Reinit.
Context (env : LockEnv) (k : Z) (clientId : Z) (ip : string).
Implicit Types (w : LockWorld) (l : ReinitLocals).

(** The calls of one round, and how the round can be the last. *)
Definition round_outcome l w (x : Z + ReinitLocals) w' : Prop :=
  exists tr, lib_trace w' = tr ++ lib_trace w /\ tr <> [] /\
  match x with
  | inl ret => ret = DLOCK_BAD_RESPONSE
  | inr l' =>
      (ri_skipUpdate l' = true -> ri_skipUpdate l = true \/ (ClientReinitDone clientId, DLOCK_BAD_RESPONSE) ∈ tr) /\
      (reinit_finished l' = true ->
         head tr = Some (ClientReinitDone clientId, DLOCK_SUCCESS) \/
         head tr = Some (ClientReinit clientId ip, DLOCK_SUCCESS) /\ ri_skipUpdate l = true)
  end.

Lemma done_outcome l0 l w w1 tr :
  serving k w1 -> lib_trace w1 = tr ++ lib_trace w -> ri_skipUpdate l = ri_skipUpdate l0 ->
  wp (l ← DoClientReInitStagesClientReInit clientId l; mret (inr l)) (round_outcome l0 w) env w1.
Proof.
  intros S Htr Hs. unfold DoClientReInitStagesClientReInit, ClientReInitStagesClientReInitDone. wsteps.
  eapply wp_serve; [done|]. intros a _ Sa.
  assert (T : lib_trace (log_call (ClientReinitDone clientId) a.1 w1) = ((ClientReinitDone clientId, a.1) :: tr) ++ lib_trace w) by (cbn; by rewrite Htr).
  destruct (Z.eqb_spec a.1 DLOCK_BAD_RESPONSE) as [E|E]; wsteps; [|wif; wsteps].
  all: exists ((ClientReinitDone clientId, a.1) :: tr); split; [exact T|]; split; [done|]; unfold reinit_finished; cbn.
  - rewrite E. split; [right; by left | done].
  - destruct (Z.eqb_spec a.1 DLOCK_BAD_RESPONSE); [done|]. split; [rewrite Hs; by left|]. rewrite andb_true_iff, Z.eqb_eq. intros [-> _]. by left.
  - destruct (Z.eqb_spec a.1 DLOCK_BAD_RESPONSE); [done|]. split; [rewrite Hs; by left|]. rewrite andb_true_iff, Z.eqb_eq. intros [-> _]. by left.
Qed.

Lemma round_calls l w : serving k w -> wp (reinit_round clientId ip l) (round_outcome l w) env w.
Proof.
  intros S. unfold reinit_round, ClientReInitStagesClientReInit, ClientReInitStagesUpdateLocks, Executor.ClientReinitWrapper.
  destruct (ri_stages l); [wsteps | wsteps |].
  - apply wp_call_if; [intros _ a _|destruct S as [I L]; by rewrite (loaded_pointer _ _ _ I L)]. wsteps.
    assert (F : forall ret c, ret = a.1 \/ ret <> DLOCK_SUCCESS ->
      wp (if Z.eqb (ret, c).1 DLOCK_SUCCESS
          then mret (inr (mkReinit (ret, c).1 (if ri_skipUpdate l then CLIENT_REINIT_DONE else UPDATE_LOCK) false (ret, c).2 (ri_updateRetryTimes l)))
          else mret (inr (mkReinit (ret, c).1 CLIENT_REINIT (ri_skipUpdate l) (ret, c).2 (ri_updateRetryTimes l))))
        (round_outcome l w) env (log_call (ClientReinit clientId ip) a.1 w)).
    { intros ret c Hret. cbn [fst snd]. destruct (Z.eqb_spec ret DLOCK_SUCCESS) as [E|E]; wsteps; exists [(ClientReinit clientId ip, a.1)];
        (split; [done|]); (split; [done|]).
      - split; [done|]. intros H. destruct Hret as [Ha|]; [|done]. right. cbn. rewrite <- Ha, E. split; [done|].
        destruct (ri_skipUpdate l); [done|]. unfold reinit_finished in H. cbn in H. by rewrite andb_false_r in H.
      - split; [by left|]. unfold reinit_finished. cbn. rewrite andb_true_iff, Z.eqb_eq. by intros []. }
    wif; wsteps; [apply F; by left|]. wif; wsteps; [|apply F; by left]. wif; wsteps; apply F; [by right | by left].
  - eapply wp_serve; [done|]. intros a _ Sa.
    assert (N : forall ret t st, ret <> DLOCK_SUCCESS -> round_outcome l w (inr (mkReinit ret st (ri_skipUpdate l) (ri_retryCount l) t)) (log_call (UpdateAllLocks clientId) a.1 w)).
    { intros ret t st Hr. exists [(UpdateAllLocks clientId, a.1)]. split; [done|]. split; [done|]. split; [by left|].
      unfold reinit_finished. cbn. rewrite andb_true_iff, Z.eqb_eq. by intros []. }
    assert (G : forall c (x y : LM (Z + ReinitLocals)), c <> DLOCK_BAD_RESPONSE -> c <> DLOCK_SUCCESS -> forall t st,
      wp (if Z.eqb c DLOCK_BAD_RESPONSE then x
          else if negb (Z.eqb c DLOCK_SUCCESS) then mret (inr (mkReinit c st (ri_skipUpdate l) (ri_retryCount l) t)) else y)
        (round_outcome l w) env (log_call (UpdateAllLocks clientId) a.1 w)).
    { intros c x y H1 H2 t st. destruct (Z.eqb_spec c DLOCK_BAD_RESPONSE); [done|]. destruct (Z.eqb_spec c DLOCK_SUCCESS); [done|]. wsteps. by apply N. }
    destruct (Z.eqb_spec a.1 DLOCK_BAD_RESPONSE) as [E|E]; wsteps; cbv iota.
    { destruct (Z.eqb_spec a.1 DLOCK_BAD_RESPONSE); [wsteps | done]. by exists [(UpdateAllLocks clientId, a.1)]. }
    destruct (Z.eqb_spec a.1 DLOCK_EAGAIN) as [E1|E1]; wsteps; cbv iota; [apply G; [done | by rewrite E1]|].
    destruct (Z.eqb_spec a.1 DLOCK_ENOMEM) as [E2|E2]; [wif; wsteps; cbv iota; [by apply N | apply G; [done | by rewrite E2]]|].
    wsteps. cbv iota. destruct (Z.eqb_spec a.1 DLOCK_BAD_RESPONSE); [done|]. destruct (Z.eqb_spec a.1 DLOCK_SUCCESS) as [E3|E3]; cbn [negb]; [|wsteps; by apply N].
    by apply (done_outcome l _ w _ [(UpdateAllLocks clientId, a.1)]).
  - by apply (done_outcome l l w w []).
Qed.

(** The calls of the loop since [w0]. *)
Definition loop_inv w0 l w : Prop :=
  exists tr, lib_trace w = tr ++ lib_trace w0 /\
    (ri_skipUpdate l = true -> (ClientReinitDone clientId, DLOCK_BAD_RESPONSE) ∈ tr).

Definition loop_outcome w0 (r : option Z) w : Prop :=
  r = Some DLOCK_SUCCESS ->
  exists tr, lib_trace w = tr ++ lib_trace w0 /\
    (head tr = Some (ClientReinitDone clientId, DLOCK_SUCCESS) \/
     head tr = Some (ClientReinit clientId ip, DLOCK_SUCCESS) /\ (ClientReinitDone clientId, DLOCK_BAD_RESPONSE) ∈ tr).

Lemma reinit_loop_calls fuel w0 l w :
  serving k w -> loop_inv w0 l w -> wp (reinit_loop fuel clientId ip l) (fun r w' => loop_outcome w0 r w') env w.
Proof.
  revert l w. induction fuel as [|fuel IH]; intros l w S (tr & Htr & Hs); cbn [reinit_loop].
  all: destruct (reinit_gives_up (ri_ret l)) eqn:G; wsteps; [intros [= E]; by rewrite E in G|].
  { done. }
  eapply wp_mono.
  { apply (fun P Q => conj P Q : wp _ (fun x w' => (calls_only k w w' /\ serving k w') /\ round_outcome l w x w') env w);
      [by apply reinit_round_spec | by apply round_calls]. }
  intros [ret|l'] w1 [[_ S1] (tr1 & Htr1 & Hne & H)]; wsteps; [intros [= ->]; by rewrite H|].
  assert (Htr' : lib_trace w1 = (tr1 ++ tr) ++ lib_trace w0) by (by rewrite Htr1, Htr, app_assoc). destruct H as [H1 H2].
  destruct (reinit_finished l') eqn:F; wsteps.
  - intros _. exists (tr1 ++ tr). split; [done|]. destruct tr1 as [|c tr1]; [done|]. destruct (H2 eq_refl) as [?|[? Hk]]; [by left|]. right.
    split; [done|]. set_solver.
  - apply IH; [done|]. exists (tr1 ++ tr). split; [done|]. intros Hl. destruct (H1 Hl) as [?|?]; set_solver.
Qed.

End Reinit.

(** When the recovery of a client reports success, its last call has told the
    server that the recovery is done, and the server agreed; or else the last
    call was a successful [client_reinit] after a [client_reinit_done] that was
    answered badly. *)
Theorem reinit_success_calls (env : LockEnv) (k : Z) (fuel : nat) (clientId : Z) (ip : string) (w : LockWorld) :
  lock_inv k w -> loaded w ->
  let '(r, w') := DlockClientReinit fuel clientId ip env w in
  r = Some DLOCK_SUCCESS ->
  exists tr, lib_trace w' = tr ++ lib_trace w /\
    (head tr = Some (ClientReinitDone clientId, DLOCK_SUCCESS) \/
     head tr = Some (ClientReinit clientId ip, DLOCK_SUCCESS) /\ (ClientReinitDone clientId, DLOCK_BAD_RESPONSE) ∈ tr).
Proof.
  intros I L. pose proof (reinit_loop_calls env k clientId ip fuel w (mkReinit DLOCK_BAD_RESPONSE CLIENT_REINIT false 0 0) w (conj I L)) as H.
  unfold wp, loop_outcome in H. unfold DlockClientReinit. destruct (reinit_loop _ _ _ _ env w) as [r w']. apply H. by exists [].
Qed.

Lemma reinit_success_calls_witness :
  let '(r, w') := DlockClientReinit 2 1 "s" (surroundings [] 6) (started 1) in
  r = Some DLOCK_SUCCESS /\ exists tr, lib_trace w' = tr ++ lib_trace (started 1) /\
    (head tr = Some (ClientReinitDone 1, DLOCK_SUCCESS) \/
     head tr = Some (ClientReinit 1 "s", DLOCK_SUCCESS) /\ (ClientReinitDone 1, DLOCK_BAD_RESPONSE) ∈ tr).
Proof.
  pose proof (reinit_success_calls (surroundings [] 6) 1 2 1 "s" (started 1) (started_inv 1 ltac:(lia)) ltac:(vm_compute; reflexivity)) as H.
  assert (Hr : (DlockClientReinit 2 1 "s" (surroundings [] 6) (started 1)).1 = Some DLOCK_SUCCESS) by (vm_compute; reflexivity).
  destruct (DlockClientReinit 2 1 "s" (surroundings [] 6) (started 1)) as [r w']. cbn [fst] in Hr. split; [exact Hr | exact (H Hr)].
Defined.

(** ** The rounds, call by call *)

Section Rounds.
Context (env : LockEnv) (k : Z) (clientId : Z) (ip : string).
Implicit Types (w : LockWorld) (l : ReinitLocals).

Lemma call_serving c w : serving k w -> call_fn c env w = call c env w.
Proof.
  intros [I L]. unfold call_fn, gets, mbind, lm_bind. by rewrite (loaded_pointer _ _ _ I L).
Qed.

Lemma call_if_serving c d w : serving k w -> call_if c d env w = call c env w.
Proof.
  intros [I L]. unfold call_if, gets, mbind, lm_bind. by rewrite (loaded_pointer _ _ _ I L).
Qed.

Lemma serving_log c r w : serving k w -> serving k (log_call c r w).
Proof. intros [I L]. split; [by apply lock_inv_log | done]. Qed.

Lemma round_reinit_ok l w :
  serving k w -> ri_stages l = CLIENT_REINIT -> (le_lib env (length (lib_trace w)) (ClientReinit clientId ip)).1 = DLOCK_SUCCESS ->
  reinit_round clientId ip l env w =
    (inr (mkReinit DLOCK_SUCCESS (if ri_skipUpdate l then CLIENT_REINIT_DONE else UPDATE_LOCK) false (ri_retryCount l) (ri_updateRetryTimes l)),
     log_call (ClientReinit clientId ip) DLOCK_SUCCESS w).
Proof.
  intros S El Ea. unfold reinit_round. rewrite El. unfold ClientReInitStagesClientReInit, Executor.ClientReinitWrapper.
  unfold mbind, lm_bind at 1 2 3. rewrite call_if_serving by done. unfold call. cbv zeta beta iota. rewrite Ea. reflexivity.
Qed.

(** The stage after [client_reinit_done] has answered. *)
Definition stage_after (code : Z) (st : REINIT_STAGES) : REINIT_STAGES :=
  if Z.eqb code DLOCK_BAD_RESPONSE then CLIENT_REINIT
  else if Z.eqb code DLOCK_ENOMEM || Z.eqb code DLOCK_SUCCESS then CLIENT_REINIT_DONE else st.

Lemma done_call l w :
  serving k w -> let code := (le_lib env (length (lib_trace w)) (ClientReinitDone clientId)).1 in
  DoClientReInitStagesClientReInit clientId l env w =
    (mkReinit code (stage_after code (ri_stages l)) (if Z.eqb code DLOCK_BAD_RESPONSE then true else ri_skipUpdate l) (ri_retryCount l)
       (ri_updateRetryTimes l), log_call (ClientReinitDone clientId) code w).
Proof.
  intros S code. unfold DoClientReInitStagesClientReInit, ClientReInitStagesClientReInitDone, mbind, lm_bind at 1 2.
  rewrite call_serving by done. unfold call. cbv zeta beta iota. fold code. unfold stage_after.
  destruct (Z.eqb code DLOCK_BAD_RESPONSE) eqn:E1, (Z.eqb code DLOCK_ENOMEM || Z.eqb code DLOCK_SUCCESS).
  all: unfold mret, lm_ret; cbn [fst snd]; by rewrite E1.
Qed.

Lemma round_update_done l w code :
  serving k w -> ri_stages l = UPDATE_LOCK -> (le_lib env (length (lib_trace w)) (UpdateAllLocks clientId)).1 = DLOCK_SUCCESS ->
  (le_lib env (S (length (lib_trace w))) (ClientReinitDone clientId)).1 = code ->
  reinit_round clientId ip l env w =
    (inr (mkReinit code (stage_after code UPDATE_LOCK) (if Z.eqb code DLOCK_BAD_RESPONSE then true else ri_skipUpdate l) (ri_retryCount l)
            (ri_updateRetryTimes l)),
     log_call (ClientReinitDone clientId) code (log_call (UpdateAllLocks clientId) DLOCK_SUCCESS w)).
Proof.
  intros S El Ea Ed. unfold reinit_round. rewrite El. unfold ClientReInitStagesUpdateLocks, mbind, lm_bind, mret, lm_ret.
  rewrite call_serving by done. unfold call. cbv zeta beta iota. rewrite Ea.
  change (Z.eqb DLOCK_SUCCESS DLOCK_BAD_RESPONSE) with false. change (Z.eqb DLOCK_SUCCESS DLOCK_EAGAIN) with false.
  change (Z.eqb DLOCK_SUCCESS DLOCK_ENOMEM) with false. cbv iota beta.
  change (Z.eqb DLOCK_SUCCESS DLOCK_BAD_RESPONSE) with false. change (Z.eqb DLOCK_SUCCESS DLOCK_SUCCESS) with true. cbn [negb].
  rewrite done_call by (by apply serving_log). cbn [length lib_trace log_call]. by rewrite Ed.
Qed.

Lemma loop_continues fuel l l' w w' :
  reinit_round clientId ip l env w = (inr l', w') -> reinit_gives_up (ri_ret l) = false -> reinit_finished l' = false ->
  reinit_loop (S fuel) clientId ip l env w = reinit_loop fuel clientId ip l' env w'.
Proof. intros E G F. cbn [reinit_loop]. rewrite G. unfold mbind, lm_bind at 1. by rewrite E, F. Qed.

Lemma loop_finishes fuel l l' w w' :
  reinit_round clientId ip l env w = (inr l', w') -> reinit_gives_up (ri_ret l) = false -> reinit_finished l' = true ->
  reinit_loop (S fuel) clientId ip l env w = (Some (ri_ret l'), w').
Proof. intros E G F. cbn [reinit_loop]. rewrite G. unfold mbind, lm_bind at 1. by rewrite E, F. Qed.

End Rounds.

(** After a badly answered [client_reinit_done] the client is initialised once
    more, and the loop then stops with success: its test for the last stage
    succeeds at once because that stage has just been chosen, so [client_reinit_done] is
    not called again. *)
Theorem reinit_skips_done (env : LockEnv) (k : Z) (fuel : nat) (clientId : Z) (ip : string) (w : LockWorld) :
  lock_inv k w -> loaded w ->
  let n := length (lib_trace w) in
  (le_lib env n (ClientReinit clientId ip)).1 = DLOCK_SUCCESS ->
  (le_lib env (1 + n) (UpdateAllLocks clientId)).1 = DLOCK_SUCCESS ->
  (le_lib env (2 + n) (ClientReinitDone clientId)).1 = DLOCK_BAD_RESPONSE ->
  (le_lib env (3 + n) (ClientReinit clientId ip)).1 = DLOCK_SUCCESS ->
  let '(r, w') := DlockClientReinit (3 + fuel) clientId ip env w in
  r = Some DLOCK_SUCCESS /\
  lib_trace w' = [(ClientReinit clientId ip, DLOCK_SUCCESS); (ClientReinitDone clientId, DLOCK_BAD_RESPONSE);
                  (UpdateAllLocks clientId, DLOCK_SUCCESS); (ClientReinit clientId ip, DLOCK_SUCCESS)] ++ lib_trace w.
Proof.
  intros I L n H1 H2 H3 H4.
  pose proof (conj I L : serving k w) as Sv. unfold DlockClientReinit. cbn [Nat.add].
  set (l0 := mkReinit DLOCK_BAD_RESPONSE CLIENT_REINIT false 0 0). set (l1 := mkReinit DLOCK_SUCCESS UPDATE_LOCK false 0 0).
  set (l2 := mkReinit DLOCK_BAD_RESPONSE CLIENT_REINIT true 0 0). set (w1 := log_call (ClientReinit clientId ip) DLOCK_SUCCESS w).
  set (w2 := log_call (ClientReinitDone clientId) DLOCK_BAD_RESPONSE (log_call (UpdateAllLocks clientId) DLOCK_SUCCESS w1)).
  assert (S1 : serving k w1) by (by apply serving_log). assert (S2 : serving k w2) by (by apply serving_log, serving_log).
  rewrite (loop_continues env clientId ip (S (S fuel)) l0 l1 w w1 (round_reinit_ok env k clientId ip l0 w Sv eq_refl H1) eq_refl eq_refl).
  rewrite (loop_continues env clientId ip (S fuel) l1 l2 w1 w2 (round_update_done env k clientId ip l1 w1 _ S1 eq_refl H2 H3) eq_refl eq_refl).
  by rewrite (loop_finishes env clientId ip fuel l2 _ w2 _ (round_reinit_ok env k clientId ip l2 w2 S2 eq_refl H4) eq_refl eq_refl).
Qed.

(** The [client_reinit_done] of the first recovery after the start is answered badly. *)
Definition bad_done : LockEnv := surroundings [(2 + length (lib_trace (started 1)), DLOCK_BAD_RESPONSE)] 6.

Lemma reinit_skips_done_witness :
  let '(r, w') := DlockClientReinit 3 1 "s" bad_done (started 1) in
  r = Some DLOCK_SUCCESS /\
  lib_trace w' = [(ClientReinit 1 "s", DLOCK_SUCCESS); (ClientReinitDone 1, DLOCK_BAD_RESPONSE);
                  (UpdateAllLocks 1, DLOCK_SUCCESS); (ClientReinit 1 "s", DLOCK_SUCCESS)] ++ lib_trace (started 1).
Proof.
  apply (reinit_skips_done bad_done 1 0 1 "s" (started 1) (started_inv 1 ltac:(lia)) ltac:(vm_compute; reflexivity)); vm_compute; reflexivity.
Defined.

(** ** The end of the recovery *)

Section Returns.
Context (env : LockEnv) (k : Z) (N : nat) (clientId : Z) (ip : string).
Context (HN : forall n c, N <= n -> symbol_of c <> None -> (le_lib env n c).1 = DLOCK_SUCCESS).
Implicit Types (w : LockWorld) (l : ReinitLocals).

Definition returns fuel l w : Prop := exists r, (reinit_loop fuel clientId ip l env w).1 = Some r.

Lemma returns_given_up fuel l w : reinit_gives_up (ri_ret l) = true -> returns fuel l w.
Proof. intros G. exists (ri_ret l). destruct fuel; cbn [reinit_loop]; by rewrite G. Qed.

Lemma stable_last fuel l w :
  serving k w -> N <= length (lib_trace w) -> ri_stages l <> CLIENT_REINIT -> returns (S fuel) l w.
Proof.
  intros Sv Hs Hl. destruct (reinit_gives_up (ri_ret l)) eqn:G; [by apply returns_given_up|]. eexists. destruct (ri_stages l) eqn:El; [done| |].
  - erewrite loop_finishes; [reflexivity | | exact G |].
    + eapply (round_update_done env k); [done | done | by apply HN | apply HN; [lia | done]].
    + done.
  - erewrite loop_finishes; [reflexivity | | exact G |].
    + unfold reinit_round. rewrite El. unfold mbind, lm_bind. rewrite (done_call env k) by done. rewrite HN by done. reflexivity.
    + done.
Qed.

Lemma stable_returns fuel l w : serving k w -> N <= length (lib_trace w) -> returns (S (S fuel)) l w.
Proof.
  intros Sv Hs. destruct (decide (ri_stages l = CLIENT_REINIT)) as [El|El]; [|by apply stable_last].
  destruct (reinit_gives_up (ri_ret l)) eqn:G; [by apply returns_given_up|].
  pose proof (round_reinit_ok env k clientId ip l w Sv El (HN _ (ClientReinit clientId ip) Hs ltac:(done))) as R. destruct (ri_skipUpdate l).
  - eexists. by erewrite loop_finishes by (apply R || done).
  - unfold returns. erewrite loop_continues by (apply R || done). apply stable_last; [by apply serving_log | cbn; lia | done].
Qed.

Lemma eventually_returns fuel l w : serving k w -> N + 2 <= fuel + length (lib_trace w) -> 2 <= fuel -> returns fuel l w.
Proof.
  revert l w. induction fuel as [|fuel IH]; intros l w Sv Hf H2; [lia|].
  destruct (decide (N <= length (lib_trace w))) as [Hs|Hs]; [destruct fuel; [lia | by apply stable_returns]|].
  destruct (reinit_gives_up (ri_ret l)) eqn:G; [by apply returns_given_up|].
  pose proof (reinit_round_spec env k clientId ip l w Sv) as [_ S1]. pose proof (round_calls env k clientId ip l w Sv) as (tr & Htr & Hne & _).
  destruct (reinit_round clientId ip l env w) as [x w1] eqn:R. cbn [fst snd] in *.
  assert (Hl : S (length (lib_trace w)) <= length (lib_trace w1)) by (rewrite Htr, length_app; destruct tr; [done | cbn; lia]).
  destruct x as [ret|l1].
  - exists ret. cbn [reinit_loop]. rewrite G. unfold mbind, lm_bind. by rewrite R.
  - destruct (reinit_finished l1) eqn:F.
    + eexists. by erewrite loop_finishes by (apply R || done).
    + unfold returns. erewrite loop_continues by (apply R || done). apply IH; [done | lia | lia].
Qed.

End Returns.

(** C28: the recovery of a client comes to an end when the library answers every call
    from some point on with success: as many rounds as there are calls before that
    point, and two more, are enough. (Nothing else bounds the loop: see the next
    lemma.) *)
Theorem reinit_returns (env : LockEnv) (k : Z) (N fuel : nat) (clientId : Z) (ip : string) (w : LockWorld) :
  lock_inv k w -> loaded w -> (forall n c, N <= n -> symbol_of c <> None -> (le_lib env n c).1 = DLOCK_SUCCESS) ->
  N + 2 <= fuel + length (lib_trace w) -> 2 <= fuel ->
  exists r, (DlockClientReinit fuel clientId ip env w).1 = Some r.
Proof.
  intros I L HN Hf H2. by apply (eventually_returns env k N clientId ip HN).
Qed.

Lemma library_settles special n c :
  symbol_of c <> None -> Forall (fun x => x.1 < n) special -> (library special n c).1 = DLOCK_SUCCESS.
Proof.
  intros Hc Hs. assert (F : filter (fun x : nat * Z => x.1 = n) special = []).
  { apply list_nil_subseteq. intros x [Hx Hin]%list_elem_of_filter. rewrite Forall_forall in Hs. apply Hs in Hin. lia. }
  destruct c; try done; cbn; by rewrite F.
Qed.

Lemma reinit_returns_witness :
  exists r, (DlockClientReinit 9 1 "s" (surroundings [(length (lib_trace (started 1)), DLOCK_FAIL)] 6) (started 1)).1 = Some r.
Proof.
  apply (reinit_returns _ 1 (S (length (lib_trace (started 1)))) 9 1 "s" (started 1) (started_inv 1 ltac:(lia)) ltac:(vm_compute; reflexivity)); [|lia|lia].
  intros n c Hn Hc. apply library_settles; [exact Hc|]. apply Forall_singleton. cbn [fst]. lia.
Defined.

(** A library that keeps answering [client_reinit] with [DLOCK_FAIL] keeps the recovery
    going for ever: only the answers "not ready" and "no memory" are counted. *)
Theorem reinit_spins (env : LockEnv) (k : Z) (fuel : nat) (clientId : Z) (ip : string) (w : LockWorld) :
  lock_inv k w -> loaded w -> (forall n, (le_lib env n (ClientReinit clientId ip)).1 = DLOCK_FAIL) ->
  (DlockClientReinit fuel clientId ip env w).1 = None.
Proof.
  intros I L HF. unfold DlockClientReinit. assert (G : reinit_gives_up DLOCK_BAD_RESPONSE = false) by done. revert G.
  generalize DLOCK_BAD_RESPONSE. intros ret G. pose proof (conj I L : serving k w) as Sv. clear I L. revert ret G w Sv.
  induction fuel as [|fuel IH]; intros ret G w Sv; [cbn; by rewrite G|].
  erewrite (loop_continues env clientId ip fuel _ (mkReinit DLOCK_FAIL CLIENT_REINIT false 0 0)); [apply IH; [done | by apply serving_log] | | exact G | done].
  unfold reinit_round, ClientReInitStagesClientReInit, Executor.ClientReinitWrapper, mbind, lm_bind, mret, lm_ret. cbn [ri_stages].
  rewrite (call_if_serving env k) by done. unfold call. cbv zeta beta iota. rewrite HF. reflexivity.
Qed.

(** ** Demotion *)

(** Demotion does not give up the clients of the lock library: when the node later
    becomes the client again and [Init] succeeds, the new clients are appended behind
    the old ones, and every lock is asked of an old client, which the library has
    forgotten; the counts and the names of before are kept, too. *)
Theorem stale_clients_after_demotion (env1 env2 env3 : LockEnv) (k : Z) (f : DLockConfig -> DLockConfig) (w : LockWorld) :
  lock_inv k w -> (dlockClientNum (cfg (lw_ctx w)) <= Z.of_nat (length (dlockClients (lw_ctx w))))%Z ->
  (forall c, dlockClientNum (f c) = dlockClientNum c /\ isDlockClient (f c) = true) ->
  let w1 := set_ctx (set_cfg f) (OnDLockDemoted env1 w).2 in
  let '(ret, w2) := Init env2 w1 in
  ret = UBSM_OK ->
  refCount (lw_ctx w2) = refCount (lw_ctx w) /\ metaMap (lw_ctx w2) = metaMap (lw_ctx w) /\
  length (dlockClients (lw_ctx w2)) = length (dlockClients (lw_ctx w)) + Z.to_nat (dlockClientNum (cfg (lw_ctx w))) /\
  exists i d, (GetDlockClient env3 w2).1 = Some i /\ dlockClients (lw_ctx w) !! i = Some d /\ dlockClients (lw_ctx w2) !! i = Some d.
Proof.
  intros I Hn Hf w1. destruct (OnDLockDemoted_spec env1 k w I) as [I0 (D1 & D2 & D3 & D4 & D5)].
  assert (I1 : lock_inv k w1) by (eapply lock_inv_ctx; [exact I0|]; apply ctx_inv_cfg; [intros g; apply Hf | apply I0]).
  pose proof (Init_spec env2 k w1 I1) as H. unfold wp in H. destruct (Init env2 w1) as [ret w2]. cbn [fst snd] in H.
  destruct H as (I2 & C2 & _ & A). intros Hr. destruct (A Hr) as (ids & Hl & Hc & Hm & Hrc & Hci); [apply Hf|]. clear A.
  change (dlockClients (lw_ctx w1)) with (dlockClients (lw_ctx (OnDLockDemoted env1 w).2)) in Hc. rewrite D1 in Hc.
  assert (N1 : dlockClientNum (cfg (lw_ctx w1)) = dlockClientNum (cfg (lw_ctx w))) by (etransitivity; [apply Hf | exact D4]).
  rewrite N1 in Hl. split; [rewrite Hrc; exact D3|]. split; [rewrite Hm; exact D2|]. split; [by rewrite Hc, length_app, length_fmap, Hl|].
  pose proof (num_positive _ _ (inv_ctx _ _ I)) as Hp. set (n := dlockClientNum (cfg (lw_ctx w))) in *.
  set (i := Z.to_nat (clientIndex (lw_ctx w2) mod n)). pose proof (Z.mod_pos_bound (clientIndex (lw_ctx w2)) n ltac:(lia)) as Hb.
  assert (Hi : i < length (dlockClients (lw_ctx w))) by lia. destruct (lookup_lt_is_Some_2 _ _ Hi) as [d Hd].
  exists i, d. split; [|split; [done | by rewrite Hc, lookup_app_l]].
  change (wp GetDlockClient (fun x _ => x = Some i) env3 w2). unfold GetDlockClient. wsteps. cbn. rewrite C2, N1.
  destruct (Z.eqb_spec n 0); [lia|]. wsteps. cbn. rewrite Hc, length_app. rewrite (proj2 (Z.leb_gt _ _)) by lia. by wsteps.
Qed.

(** The voting-only node's configuration. *)
Definition as_client (c : DLockConfig) : DLockConfig := set_roles false true "10.0.0.2" "10.0.0.1" (recoveryClientNum c) c.

Lemma stale_clients_after_demotion_witness :
  let env := surroundings [] 8 in
  let '(ret, w2) := Init env (set_ctx (set_cfg as_client) (OnDLockDemoted env two_readers).2) in
  ret = UBSM_OK /\ exists i d, (GetDlockClient env w2).1 = Some i /\ dlockClients (lw_ctx two_readers) !! i = Some d /\
    dlockClients (lw_ctx w2) !! i = Some d.
Proof.
  cbv zeta. pose proof (stale_clients_after_demotion (surroundings [] 8) (surroundings [] 8) (surroundings [] 8) 3 as_client two_readers two_readers_inv
    ltac:(vm_compute; discriminate) ltac:(intros c; split; reflexivity)) as H.
  assert (Hr : (Init (surroundings [] 8) (set_ctx (set_cfg as_client) (OnDLockDemoted (surroundings [] 8) two_readers).2)).1 = UBSM_OK)
    by (vm_compute; reflexivity). cbv zeta in H.
  destruct (Init (surroundings [] 8) _) as [ret w2]. cbn [fst] in Hr. split; [exact Hr | apply (H Hr)].
Defined.

(** The number of clients to wait for never wraps around, and the check refuses
    no number that would fit. *)
Lemma GetPrimCfg_exact (c : DLockConfig) :
  (0 <= recoveryClientNum c)%Z -> (0 <= dlockClientNum c)%Z ->
  GetPrimCfg c = if Z.ltb (recoveryClientNum c * dlockClientNum c) (2 ^ 32) then (MXM_OK, (recoveryClientNum c * dlockClientNum c)%Z)
                 else (MXM_ERR_PARAM_INVALID, 0%Z).
Proof.
  intros Hr Hn. unfold GetPrimCfg. set (r := recoveryClientNum c) in *. set (n := dlockClientNum c) in *.
  destruct (Z.eqb_spec n 0) as [->|Hn0]; cbn [negb andb]; [by rewrite Z.mul_0_r|].
  pose proof (Z.mul_div_le (2 ^ 32 - 1) n ltac:(lia)). pose proof (Z.mul_succ_div_gt (2 ^ 32 - 1) n ltac:(lia)).
  destruct (Z.ltb_spec ((2 ^ 32 - 1) / n) r), (Z.ltb_spec (r * n) (2 ^ 32)); try done; [nia | | nia]. rewrite u32_small; [done | nia].
Qed.
