(* ===== verification/RegionTypes.v ===== *)
(** The descriptions of regions that the client library and the daemon exchange
    ([src/src/app_lib/include/mx_shm.h]), member by member.

    A [char] array is the string before its first null character, or all of its
    bytes when it has none. Entries from [num] on are not part of a description. *)

From S2P Require Import Prelude.

Definition ALL2ALL_SHARE : Z := 0.
Definition ONE2ALL_SHARE : Z := 1.
Definition INCLUDE_ALL_TYPE : Z := 2.

Record SHMRegionDesc := mkRegionDesc {
  perfLevel : Z;
  rd_type : Z;
  rd_num : Z;
  rd_affinity : list bool;
  rd_nodeId : list string;
  rd_hostName : list string;
}.

#[export] Instance SHMRegionDesc_inhabited : Inhabited SHMRegionDesc := populate (mkRegionDesc 0 0 0 [] [] []).

Record SHMRegions := mkRegions { rs_num : Z; rs_region : list SHMRegionDesc }.

(** The arrays have sixteen entries each. *)
Definition region_shape (r : SHMRegionDesc) : Prop :=
  length (rd_affinity r) = 16 /\ length (rd_nodeId r) = 16 /\ length (rd_hostName r) = 16.

(** The nodes of a region: identifier, host and affinity. *)
Definition nodes_of (r : SHMRegionDesc) : list (string * string * bool) :=
  zip (zip (take (Z.to_nat (rd_num r)) (rd_nodeId r)) (take (Z.to_nat (rd_num r)) (rd_hostName r))) (take (Z.to_nat (rd_num r)) (rd_affinity r)).
