(* ===== verification/UbseLibrary.v ===== *)
(** The engine's client library in the adapter: loading it, forgetting it and reading the
    feature word ([Initialize], [DlopenLibUbse], [ResetLibUbseDl] and [Destroy] of
    [src/src/under_api/ubse/ubse_mem_adapter.cpp]).

    The function pointers are the set of the symbols whose pointers are not null. The
    other models of the adapter take one answer, [eng_loaded], for all of their null checks; the
    theorem of this file says why one is enough. *)

From S2P Require Import Prelude StoreTypes IdPool IdPoolSpec RecordAllocator RecordStore StoreTable StoreInv StoreSteps StoreRestart StoreSpec RegionNodes StoreTheorems StoreInterface Daemon.

(** Calls that have an effect outside. *)
Inductive LibraryCall :=
  | LibOpen
  | LibClose
  | LibLogCallBackRegister
  | LibClientFinalize.

(** The static members of [UbseMemAdapter] that belong to the library, and the calls made. *)
Record UbseLibrary := mkUbseLibrary {
  lib_initialized : bool;
  lib_pointers : gset string;
  ubFeature_ : Z;
  ubFeatureLoaded_ : bool;
  ubFeatureValid_ : bool;
  lib_calls : list LibraryCall;
}.

(** What the system answers: whether the library opens, which symbols it has, and the feature word if it can be read. *)
Record LibraryEnv := mkLibraryEnv {
  env_opens : bool;
  env_symbol : string -> bool;
  env_feature : option Z;
}.

Definition no_library : UbseLibrary := mkUbseLibrary false ∅ 0 false false [].

Definition set_pointers (X : gset string) (l : UbseLibrary) : UbseLibrary :=
  mkUbseLibrary (lib_initialized l) X (ubFeature_ l) (ubFeatureLoaded_ l) (ubFeatureValid_ l) (lib_calls l).

Definition set_initialized (b : bool) (l : UbseLibrary) : UbseLibrary :=
  mkUbseLibrary b (lib_pointers l) (ubFeature_ l) (ubFeatureLoaded_ l) (ubFeatureValid_ l) (lib_calls l).

Definition lib_call (c : LibraryCall) (l : UbseLibrary) : UbseLibrary :=
  mkUbseLibrary (lib_initialized l) (lib_pointers l) (ubFeature_ l) (ubFeatureLoaded_ l) (ubFeatureValid_ l) (lib_calls l ++ [c]).

(** The symbols in the order in which they are looked up. *)
Definition ubse_symbols : list string :=
  ["ubs_engine_client_initialize"; "ubs_engine_client_finalize"; "ubs_topo_node_list"; "ubs_topo_node_local_get"; "ubs_topo_link_list";
   "ubs_mem_numastat_get"; "ubs_mem_fd_create"; "ubs_mem_fd_create_with_lender"; "ubs_mem_fd_create_with_candidate"; "ubs_mem_fd_permission";
   "ubs_mem_fd_get"; "ubs_mem_fd_delete"; "ubs_mem_numa_create"; "ubs_mem_numa_create_with_lender"; "ubs_mem_numa_create_with_candidate";
   "ubs_mem_numa_get"; "ubs_mem_numa_delete"; "ubs_mem_shm_create"; "ubs_mem_shm_create_with_lender"; "ubs_mem_shm_create_with_affinity";
   "ubs_mem_shm_attach"; "ubs_mem_shm_get"; "ubs_mem_shm_list"; "ubs_mem_shm_detach"; "ubs_mem_shm_delete"; "ubs_engine_log_callback_register"].

(** All pointers are set to null, each by its own assignment. *)
Definition ResetLibUbseDl (l : UbseLibrary) : UbseLibrary :=
  set_pointers (lib_pointers l ∖ list_to_set ubse_symbols) l.

(** The lookups: the first symbol that is missing resets the pointers and closes the library. *)
Fixpoint load_symbols (env : LibraryEnv) (symbols : list string) (l : UbseLibrary) : Z * UbseLibrary :=
  match symbols with
  | [] => (MXM_OK, l)
  | s :: symbols =>
      if env_symbol env s then load_symbols env symbols (set_pointers ({[s]} ∪ lib_pointers l) l)
      else (MXM_ERR_UBSE_LIB, lib_call LibClose (ResetLibUbseDl (set_pointers (lib_pointers l ∖ {[s]}) l)))
  end.

Definition DlopenLibUbse (env : LibraryEnv) (l : UbseLibrary) : Z * UbseLibrary :=
  if negb (env_opens env) then (MXM_ERR_UBSE_LIB, l) else load_symbols env ubse_symbols (lib_call LibOpen l).

(** The feature word is read once. *)
Definition load_feature (env : LibraryEnv) (l : UbseLibrary) : UbseLibrary :=
  if ubFeatureLoaded_ l then l
  else
    match env_feature env with
    | Some value => mkUbseLibrary (lib_initialized l) (lib_pointers l) value true true (lib_calls l)
    | None => mkUbseLibrary (lib_initialized l) (lib_pointers l) (ubFeature_ l) true false (lib_calls l)
    end.

Definition LibInitialize (env : LibraryEnv) (l : UbseLibrary) : Z * UbseLibrary :=
  if lib_initialized l then (MXM_OK, l)
  else
    let '(ret, l) := DlopenLibUbse env l in
    if negb (Z.eqb ret 0) then (MXM_ERR_UBSE_LIB, l)
    else
      let l := if bool_decide ("ubs_engine_log_callback_register" ∈ lib_pointers l) then lib_call LibLogCallBackRegister l else l in
      (MXM_OK, load_feature env (set_initialized true l)).

Definition LibDestroy (l : UbseLibrary) : UbseLibrary :=
  let l := if bool_decide ("ubs_engine_client_finalize" ∈ lib_pointers l) then lib_call LibClientFinalize l else l in
  set_initialized false (ResetLibUbseDl l).

(** ** Theorems *)

Definition all_symbols : gset string := list_to_set ubse_symbols.

Definition call_eqb (a b : LibraryCall) : bool :=
  match a, b with
  | LibOpen, LibOpen | LibClose, LibClose | LibLogCallBackRegister, LibLogCallBackRegister | LibClientFinalize, LibClientFinalize => true
  | _, _ => false
  end.

(** Calls of one kind. *)
Definition count_calls (c : LibraryCall) (l : UbseLibrary) : nat := length (List.filter (call_eqb c) (lib_calls l)).

Lemma count_call c c' l : count_calls c (lib_call c' l) = count_calls c l + (if call_eqb c c' then 1 else 0).
Proof. unfold count_calls. cbn. rewrite List.filter_app, length_app. cbn. by destruct (call_eqb c c'). Qed.

Lemma load_symbols_spec env symbols l :
  (forall s, s ∈ lib_pointers l -> s ∈ all_symbols) -> (forall s, s ∈ symbols -> s ∈ all_symbols) ->
  load_symbols env symbols l =
    if forallb (env_symbol env) symbols then (MXM_OK, set_pointers (list_to_set symbols ∪ lib_pointers l) l)
    else (MXM_ERR_UBSE_LIB, lib_call LibClose (set_pointers ∅ l)).
Proof.
  revert l. induction symbols as [|s symbols IH]; intros l Hl Hs; cbn [load_symbols forallb].
  - destruct l. unfold set_pointers. cbn. do 2 f_equal. set_solver.
  - destruct (env_symbol env s) eqn:E; cbn [andb].
    + rewrite IH; [|cbn; intros x [->%elem_of_singleton|?]%elem_of_union; [apply Hs; by left | by apply Hl] | intros x Hx; apply Hs; by right].
      destruct (forallb _ symbols); [|done]. unfold set_pointers. cbn. do 2 f_equal. set_solver.
    + unfold ResetLibUbseDl, set_pointers, lib_call. cbn [lib_pointers lib_initialized ubFeature_ ubFeatureLoaded_ ubFeatureValid_ lib_calls]. do 2 f_equal. fold all_symbols.
      apply leibniz_equiv, elem_of_equiv_empty. intros x Hx. apply elem_of_difference in Hx as [Hx Hn]. apply Hn, Hl. set_solver.
Qed.

(** One use of the adapter. *)
Inductive library_step : UbseLibrary -> UbseLibrary -> Prop :=
  | StepInitialize env l : library_step l (LibInitialize env l).2
  | StepDestroy l : library_step l (LibDestroy l).

(** The pointers are all set or all null, as [initialized_] says; every library that was opened and not closed was initialised. *)
Record library_inv (l : UbseLibrary) : Prop := {
  li_pointers : lib_pointers l = if lib_initialized l then all_symbols else ∅;
  li_handles : count_calls LibOpen l = count_calls LibClose l + count_calls LibLogCallBackRegister l;
  li_finalized : count_calls LibLogCallBackRegister l = count_calls LibClientFinalize l + (if lib_initialized l then 1 else 0);
  li_feature : lib_initialized l = true -> ubFeatureLoaded_ l = true;
}.

Lemma load_feature_keeps env l :
  lib_initialized (load_feature env l) = lib_initialized l /\ lib_pointers (load_feature env l) = lib_pointers l /\ lib_calls (load_feature env l) = lib_calls l /\
  ubFeatureLoaded_ (load_feature env l) = true.
Proof. unfold load_feature. destruct (ubFeatureLoaded_ l) eqn:E; [done|]. by destruct (env_feature env). Qed.

Lemma Initialize_run env l :
  library_inv l ->
  LibInitialize env l =
    if lib_initialized l then (MXM_OK, l)
    else if negb (env_opens env) then (MXM_ERR_UBSE_LIB, l)
    else if forallb (env_symbol env) ubse_symbols then
      (MXM_OK, load_feature env (set_initialized true (lib_call LibLogCallBackRegister (set_pointers all_symbols (lib_call LibOpen l)))))
    else (MXM_ERR_UBSE_LIB, lib_call LibClose (lib_call LibOpen l)).
Proof.
  intros [Hp _ _ _]. unfold LibInitialize, DlopenLibUbse. destruct (lib_initialized l) eqn:Ei; [done|]. destruct (env_opens env); cbn [negb]; [|done].
  rewrite load_symbols_spec; [|cbn; rewrite Hp; set_solver | intros s Hs; by apply elem_of_list_to_set].
  destruct (forallb _ _); cbn [MXM_OK MXM_ERR_UBSE_LIB Z.eqb negb].
  - assert (Hu : list_to_set ubse_symbols ∪ lib_pointers (lib_call LibOpen l) = all_symbols) by (cbn [lib_call lib_pointers]; rewrite Hp; unfold all_symbols; set_solver).
    rewrite Hu. rewrite bool_decide_eq_true_2; [done|]. cbn [set_pointers lib_pointers]. unfold all_symbols. apply elem_of_list_to_set. unfold ubse_symbols.
    do 25 right. left.
  - do 2 f_equal. unfold set_pointers, lib_call. cbn. by rewrite Hp.
Qed.

Lemma count_same c l l' cs : lib_calls l' = lib_calls l ++ cs -> count_calls c l' = count_calls c l + length (List.filter (call_eqb c) cs).
Proof. intros E. unfold count_calls. by rewrite E, List.filter_app, length_app. Qed.

Lemma library_step_inv l l' : library_step l l' -> library_inv l -> library_inv l'.
Proof.
  intros [env l0|l0] H; pose proof H as [Hp Hh Hf Hl].
  - rewrite Initialize_run by done. destruct (lib_initialized l0) eqn:Ei; [done|]. destruct (negb (env_opens env)); [done|].
    destruct (forallb _ _); cbn [snd].
    + set (l1 := set_initialized true _). destruct (load_feature_keeps env l1) as (E1 & E2 & E3 & E4).
      assert (Hc : forall c, count_calls c (load_feature env l1) = count_calls c l0 + length (List.filter (call_eqb c) [LibOpen; LibLogCallBackRegister])).
      { intros c. apply count_same. rewrite E3. cbn. by rewrite <- app_assoc. }
      split; [by rewrite E2, E1 | rewrite !Hc; cbn; lia | rewrite !Hc, E1; cbn; lia | done].
    + split; [cbn; by rewrite Ei | rewrite !count_call; cbn; lia | rewrite !count_call; cbn; rewrite Ei; lia | by cbn; rewrite Ei].
  - unfold LibDestroy. destruct (lib_initialized l0) eqn:Ei; rewrite Hp.
    + rewrite bool_decide_eq_true_2 by (apply elem_of_list_to_set; unfold ubse_symbols; right; left). split.
      * cbn [set_initialized ResetLibUbseDl set_pointers lib_call lib_pointers lib_initialized]. rewrite Hp. fold all_symbols. set_solver.
      * change (count_calls ?c (set_initialized false (ResetLibUbseDl ?l))) with (count_calls c l). rewrite !count_call. cbn. lia.
      * change (count_calls ?c (set_initialized false (ResetLibUbseDl ?l))) with (count_calls c l). rewrite !count_call. cbn. lia.
      * done.
    + rewrite bool_decide_eq_false_2 by set_solver. split; [cbn [set_initialized ResetLibUbseDl set_pointers lib_pointers lib_initialized]; rewrite Hp; set_solver | exact Hh | exact Hf | done].
Qed.

(** The library's pointers. After any uses of [Initialize] and [Destroy], whatever the system answers, the pointers to the engine's functions are all
    set when the adapter is initialised and all null when it is not, so one answer stands for all null checks of the
    adapter; the feature word has been read when it is initialised. Of the libraries that were opened, those that were
    initialised are never closed, also not by [Destroy], whose comment says that it closes the handle. *)
Theorem library_pointers_together l :
  rtc library_step no_library l ->
  lib_pointers l = (if lib_initialized l then list_to_set ubse_symbols else ∅) /\ (lib_initialized l = true -> ubFeatureLoaded_ l = true) /\
  count_calls LibOpen l = count_calls LibClose l + count_calls LibClientFinalize l + (if lib_initialized l then 1 else 0).
Proof.
  intros H. assert (I : library_inv l).
  { assert (I0 : library_inv no_library) by (by split). induction H; eauto using library_step_inv. }
  destruct I as [H1 H2 H3 H4]. split_and!; [exact H1 | exact H4 | lia].
Qed.

(** A library without one of the symbols, then a complete one, then the end. *)
Lemma library_pointers_together_witness :
  let l := LibDestroy (LibInitialize (mkLibraryEnv true (fun _ => true) (Some 8%Z)) (LibInitialize (mkLibraryEnv true (fun s => negb (String.eqb s "ubs_mem_shm_list")) None) no_library).2).2 in
  lib_pointers l = ∅ /\ lib_calls l = [LibOpen; LibClose; LibOpen; LibLogCallBackRegister; LibClientFinalize].
Proof.
  intros l. split; [|vm_compute; reflexivity]. destruct (library_pointers_together l) as [H _]; [|exact H].
  eapply rtc_l; [apply StepInitialize|]. eapply rtc_l; [apply StepInitialize|]. apply rtc_once, StepDestroy.
Defined.
