(* ===== verification/Topology.v ===== *)
(** The topology part of the adapter to the UBS engine: which regions the nodes
    around this one form, how hosts and slots are named, and what the cluster
    reports ([src/src/under_api/ubse/ubse_mem_adapter.cpp]), with the check of a process's
    NUMA binding ([src/src/process/common/util/numa_cpu_utils.cpp]).

    The answers of the engine and of the operating system are the argument
    [Topology]. A [std::set<uint32_t>] is a [gset Z] that is read in increasing order. *)

From S2P Require Import Prelude StoreTypes IdPool IdPoolSpec RecordAllocator RecordStore StoreTable StoreInv StoreSteps StoreRestart StoreSpec RegionNodes StoreTheorems MsgPacker MsgCodec MsgBase StoreInterface Daemon NodeAddress RegionTypes.
From stdpp Require Import sorting.

Definition MXM_ERR_MEMORY : Z := 103.
Definition MXM_ERR_REGION_NOT_FOUND : Z := 500.
Definition MXM_ERR_REGION_PARAM_INVALID : Z := 501.
Definition MXM_ERR_REGION_EXIST : Z := 502.
Definition MXM_ERR_REGION_NOT_EXIST : Z := 503.
Definition MXM_ERR_SHM_INVALID_NUMA : Z := 605.

Definition UBS_MEM_MAX_SLOT_NUM : nat := 16.
Definition UBS_TOPO_MAX_CPU_LINK_NUM : nat := 1024.
Definition UBS_TOPO_NUMA_NUM : nat := 4.
Definition MIN_NODE_NUM : nat := 2.
Definition CPU_SETSIZE : Z := 1024.

(** The code of the secure string functions for a destination that is too small. *)
Definition ERANGE_AND_RESET : Z := 162.

(** ** What the engine and the operating system answer *)

Record ubs_topo_node_t := mkTopoNode { tn_slot_id : Z; tn_host_name : string }.

Record ubs_topo_link_t := mkTopoLink {
  tl_slot_id : Z;
  tl_socket_id : Z;
  tl_port_id : Z;
  tl_peer_slot_id : Z;
  tl_peer_socket_id : Z;
  tl_peer_port_id : Z;
}.

Record ubs_mem_numastat_t := mkNumaStat {
  ns_slot_id : Z;
  ns_socket_id : Z;
  ns_numa_id : Z;
  ns_mem_lend_ratio : Z;
  ns_mem_total : Z;
  ns_mem_free : Z;
  ns_mem_borrow : Z;
  ns_mem_lend : Z;
}.

(** A null pointer is [None]. *)
Record Topology := mkTopology {
  tp_base :> Engine;
  initialized_ : bool;
  pUbseNodeList : Z * option (list ubs_topo_node_t);
  pUbseTopLinkList : Z * option (list ubs_topo_link_t);
  local_sockets : list (Z * list Z);  (* socket_id[i], numa_ids[i] of the local node *)
  pUbseNumaStatGet : Z -> Z * option (list ubs_mem_numastat_t);
  pUbseMemShmList : Z * list (string * Z);
  shm_desc_name : string -> string;  (* the name in the description of a memory *)
  pUbseMemShmCreateAny : CreateCall -> Z;  (* the three calls that create a memory *)
  ubFeature : option Z;  (* [None]: the feature word could not be read *)
  sched_getaffinity : Z -> option (Z -> bool);
  nprocessors_conf : Z;
  nprocessors_onln : Z;
  numa_node_of_cpu : Z -> Z;
}.

(** ** Regions *)

Definition zero_desc : SHMRegionDesc := mkRegionDesc 0 0 0 (replicate 16 false) (replicate 16 "") (replicate 16 "").

(** [SHMRegions regions{}]. *)
Definition zero_regions : SHMRegions := mkRegions 0 (replicate 6 zero_desc).

(** A set in increasing order. *)
Definition in_order (X : gset Z) : list Z := merge_sort Z.le (elements X).

(** [std::to_string] of an [uint32_t], which has at most ten digits. *)
Definition slot_to_string (n : Z) : string := to_string 10 n.

(** [strcpy_s] of a C string into a buffer of [n] bytes succeeds. *)
Definition fits (n : Z) (s : string) : bool := Z.ltb (Z.of_nat (String.length s)) n.

Definition with_nodeIds (r : SHMRegionDesc) (l : list string) : SHMRegionDesc :=
  mkRegionDesc (perfLevel r) (rd_type r) (rd_num r) (rd_affinity r) l (rd_hostName r).

Definition with_hosts (r : SHMRegionDesc) (l : list string) : SHMRegionDesc :=
  mkRegionDesc (perfLevel r) (rd_type r) (rd_num r) (rd_affinity r) (rd_nodeId r) l.

(** The loop of [FillRegionDesc] from [index] on. *)
Fixpoint fill_nodes (index : nat) (items : list Z) (r : SHMRegionDesc) : Z * SHMRegionDesc :=
  match items with
  | [] => (MXM_OK, r)
  | item :: rest =>
      if Z.leb MEM_TOPOLOGY_MAX_HOSTS (Z.of_nat index) then (MXM_ERR_REGION_PARAM_INVALID, r)
      else if negb (fits MEM_MAX_ID_LENGTH (slot_to_string item)) then (MXM_ERR_MEMORY, r)
      else fill_nodes (S index) rest (with_nodeIds r (<[index := slot_to_string item]> (rd_nodeId r)))
  end.

Definition FillRegionDesc (r : SHMRegionDesc) (intersection : gset Z) : Z * SHMRegionDesc :=
  fill_nodes 0 (in_order intersection)
    (mkRegionDesc 0 ALL2ALL_SHARE (Z.of_nat (size intersection)) (rd_affinity r) (rd_nodeId r) (rd_hostName r)).

(** The neighbours of each node, over the links in both directions. *)
Definition add_neighbour (slot peer : Z) (neiBorNode : gmap Z (gset Z)) : gmap Z (gset Z) :=
  match neiBorNode !! slot with
  | None => <[slot := {[peer]}]> neiBorNode
  | Some s => <[slot := {[peer]} ∪ s]> neiBorNode
  end.

Definition add_link (neiBorNode : gmap Z (gset Z)) (l : ubs_topo_link_t) : gmap Z (gset Z) :=
  add_neighbour (tl_peer_slot_id l) (tl_slot_id l) (add_neighbour (tl_slot_id l) (tl_peer_slot_id l) neiBorNode).

(** A region of more than one node is appended. *)
Definition append_region (intersection : gset Z) (regions : SHMRegions) : Z * SHMRegions :=
  if Nat.ltb 1 (size intersection) then
    let '(r, desc) := FillRegionDesc zero_desc intersection in
    if negb (Z.eqb r 0) then (r, regions)
    else (0%Z, mkRegions (rs_num regions + 1) (<[Z.to_nat (rs_num regions) := desc]> (rs_region regions)))
  else (0%Z, regions).

Definition InitializeRegionList (t : Topology) (regions : SHMRegions) : Z * SHMRegions :=
  if negb (eng_loaded t) then (MXM_ERR_UBSE_INNER, regions)
  else
    let '(res, local) := pUbseNodeLocalGet t in
    if negb (Z.eqb res 0) then (MXM_ERR_UBSE_INNER, regions)
    else
      match pUbseTopLinkList t with
      | (_, None) => (MXM_ERR_UBSE_INNER, regions)
      | (res, Some links) =>
          if negb (Z.eqb res 0) then (MXM_ERR_UBSE_INNER, regions)
          else if Nat.ltb UBS_TOPO_MAX_CPU_LINK_NUM (length links) then (MXM_ERR_UBSE_INNER, regions)
          else
            let neiBorNode := foldl add_link ∅ links in
            match neiBorNode !! local with
            | None => (MXM_ERR_REGION_PARAM_INVALID, regions)
            | Some mine =>
                match in_order mine with
                | [] => (MXM_ERR_REGION_PARAM_INVALID, regions)
                | firstNeiBorNode :: _ =>
                    let intersection1 := {[firstNeiBorNode]} ∪ ({[local]} ∪ (mine ∩ default ∅ (neiBorNode !! firstNeiBorNode))) in
                    let intersection2 := {[local]} ∪ (mine ∖ intersection1) in
                    let regions := mkRegions 0 (rs_region regions) in
                    let '(r, regions) := append_region intersection1 regions in
                    if negb (Z.eqb r 0) then (r, regions)
                    else
                      let '(r, regions) := append_region intersection2 regions in
                      if negb (Z.eqb r 0) then (r, regions)
                      else if Z.eqb (rs_num regions) 0 then (MXM_ERR_REGION_PARAM_INVALID, regions)
                      else (UBSM_OK, regions)
                end
            end
      end.

(** ** Host names *)

(** The node list of the engine, as the adapter accepts it. *)
Definition node_list (t : Topology) : Z + list ubs_topo_node_t :=
  match pUbseNodeList t with
  | (r, nodes) =>
      if negb (Z.eqb r UBS_SUCCESS) then inl MXM_ERR_UBSE_INNER
      else
        match nodes with
        | None => inl MXM_ERR_UBSE_INNER
        | Some nodes =>
            if Nat.eqb (length nodes) 0 || Nat.ltb UBS_MEM_MAX_SLOT_NUM (length nodes) then inl MXM_ERR_UBSE_INNER
            else inr nodes
        end
  end.

Definition slotToHostName (nodes : list ubs_topo_node_t) : gmap Z string :=
  foldl (fun m n => <[tn_slot_id n := tn_host_name n]> m) ∅ nodes.

(** The inner loop over the nodes [js] of one region. *)
Fixpoint name_nodes (hosts : gmap Z string) (js : list nat) (r : SHMRegionDesc) : Z * SHMRegionDesc :=
  match js with
  | [] => (MXM_OK, r)
  | j :: js =>
      let '(ok, nodeId) := StrUtil.StrToUint (rd_nodeId r !!! j) in
      if negb ok then (MXM_ERR_PARAM_INVALID, r)
      else
        match hosts !! nodeId with
        | None => name_nodes hosts js r
        | Some host =>
            if negb (fits MAX_HOST_NAME_DESC_LENGTH host) then (ERANGE_AND_RESET, r)
            else name_nodes hosts js (with_hosts r (<[j := host]> (rd_hostName r)))
        end
  end.

(** The outer loop over the regions [idx]. *)
Fixpoint name_regions (hosts : gmap Z string) (idx : list nat) (regions : SHMRegions) : Z * SHMRegions :=
  match idx with
  | [] => (MXM_OK, regions)
  | i :: idx =>
      let region := rs_region regions !!! i in
      if Z.ltb (rd_num region) 0 || Z.ltb MEM_TOPOLOGY_MAX_HOSTS (rd_num region) then (MXM_ERR_REGION_PARAM_INVALID, regions)
      else
        let '(r, region) := name_nodes hosts (seq 0 (Z.to_nat (rd_num region))) region in
        let regions := mkRegions (rs_num regions) (<[i := region]> (rs_region regions)) in
        if negb (Z.eqb r 0) then (r, regions) else name_regions hosts idx regions
  end.

Definition PopulateHostNameMap (t : Topology) (regions : SHMRegions) : Z * SHMRegions :=
  if negb (eng_loaded t) then (MXM_ERR_UBSE_INNER, regions)
  else
    match node_list t with
    | inl r => (r, regions)
    | inr nodes =>
        if Nat.ltb (length nodes) MIN_NODE_NUM then (MXM_ERR_UBSE_INNER, regions)
        else if Z.ltb (rs_num regions) 0 || Z.ltb MAX_REGIONS_NUM (rs_num regions) then (MXM_ERR_REGION_PARAM_INVALID, regions)
        else name_regions (slotToHostName nodes) (seq 0 (Z.to_nat (rs_num regions))) regions
    end.

(** The loop over the nodes [js] of a static region: those with an id and a
    host name are copied to the front of [active]; their number is returned. *)
Fixpoint copy_active (region : SHMRegionDesc) (js : list nat) (nodeCnt : nat) (active : SHMRegionDesc) : nat * SHMRegionDesc :=
  match js with
  | [] => (nodeCnt, active)
  | j :: js =>
      if bool_decide (rd_nodeId region !!! j = "") || bool_decide (rd_hostName region !!! j = "") then copy_active region js nodeCnt active
      else
        copy_active region js (S nodeCnt)
          (with_hosts (with_nodeIds active (<[nodeCnt := rd_nodeId region !!! j]> (rd_nodeId active)))
             (<[nodeCnt := rd_hostName region !!! j]> (rd_hostName active)))
  end.

(** The loop over the static regions [idx]: a region without a node is dropped. *)
Fixpoint copy_regions (static : SHMRegions) (idx : list nat) (regionsCnt : nat) (active : SHMRegions) : Z * SHMRegions :=
  match idx with
  | [] => (UBSM_OK, mkRegions (Z.of_nat regionsCnt) (rs_region active))
  | i :: idx =>
      let region := rs_region static !!! i in
      if Z.ltb MEM_TOPOLOGY_MAX_HOSTS (rd_num region) then (MXM_ERR_PARAM_INVALID, active)
      else
        let a := rs_region active !!! regionsCnt in
        let a := mkRegionDesc (perfLevel region) (rd_type region) (rd_num a) (rd_affinity a) (rd_nodeId a) (rd_hostName a) in
        let '(nodeCnt, a) := copy_active region (seq 0 (Z.to_nat (rd_num region))) 0 a in
        let a := mkRegionDesc (perfLevel a) (rd_type a) (Z.of_nat nodeCnt) (rd_affinity a) (rd_nodeId a) (rd_hostName a) in
        let active := mkRegions (rs_num active) (<[regionsCnt := a]> (rs_region active)) in
        copy_regions static idx (if Nat.eqb nodeCnt 0 then regionsCnt else S regionsCnt) active
  end.

Definition CheckAndCopyRegionStatus (static active : SHMRegions) : Z * SHMRegions :=
  if Z.ltb MAX_REGIONS_NUM (rs_num static) then (MXM_ERR_PARAM_INVALID, active)
  else copy_regions static (seq 0 (Z.to_nat (rs_num static))) 0 active.

(** [regions] is filled in place; what it held before stays in the entries that are not written. *)
Definition LookupRegionList (t : Topology) (regions : SHMRegions) : Z * SHMRegions :=
  if negb (Z.eqb (eng_Initialize t) 0) then (eng_Initialize t, regions)
  else
    let '(r, static) := InitializeRegionList t zero_regions in
    if negb (Z.eqb r UBSM_OK) then (r, regions)
    else
      let '(r, static) := PopulateHostNameMap t static in
      if negb (Z.eqb r UBSM_OK) then (r, regions) else CheckAndCopyRegionStatus static regions.

(** ** Slots and sockets *)

Definition hostToSlotId (nodes : list ubs_topo_node_t) : gmap string Z :=
  foldl (fun m n => <[tn_host_name n := tn_slot_id n]> m) ∅ nodes.

Definition GetSlotIdFromHostName (t : Topology) (hostName : string) : Z + Z :=
  if negb (Z.eqb (eng_Initialize t) 0) then inl (eng_Initialize t)
  else if bool_decide (hostName = "") then inl MXM_ERR_PARAM_INVALID
  else
    match node_list t with
    | inl r => inl r
    | inr nodes => match hostToSlotId nodes !! hostName with None => inl MXM_ERR_SHM_NOT_FOUND | Some slot => inr slot end
    end.

(** The first socket that has the NUMA node. *)
Definition GetSocketIdWithNumaNode (t : Topology) (numaNode : Z) : Z + Z :=
  if negb (eng_loaded t) then inl MXM_ERR_UBSE_INNER
  else if negb (Z.eqb (pUbseNodeLocalGet t).1 0) then inl MXM_ERR_UBSE_INNER
  else
    match List.find (fun s => existsb (Z.eqb (u32 numaNode)) s.2) (local_sockets t) with
    | Some s => inr s.1
    | None => inl MXM_ERR_SHM_INVALID_NUMA
    end.

Definition GetLocalNodeId (t : Topology) (initialized : bool) : Z + Z :=
  if negb initialized then inl MXM_ERR_UBSE_LIB
  else if negb (eng_loaded t) then inl MXM_ERR_UBSE_LIB
  else
    let '(r, slot) := pUbseNodeLocalGet t in
    if negb (Z.eqb r UBS_SUCCESS) then inl MXM_ERR_UBSE_INNER else inr slot.

(** ** The NUMA node of a process *)

Module NumaCpuUtils.

(** An unbound process has no list. *)
Definition SchedGetaffinityGetCpuList (t : Topology) (pid : Z) : list Z :=
  match sched_getaffinity t pid with
  | None => []
  | Some mask =>
      let total_cpus := if Z.leb (nprocessors_conf t) 0 then CPU_SETSIZE else nprocessors_conf t in
      let total_cpus := Z.min total_cpus CPU_SETSIZE in
      let cpuList := List.filter mask (seqZ 0 total_cpus) in
      if Z.eqb (Z.of_nat (length cpuList)) total_cpus then [] else cpuList
  end.

Definition NumaNodeOfCpuGetMapping (t : Topology) (cpuId : Z) : Z :=
  if Z.ltb cpuId 0 || Z.ltb (nprocessors_onln t - 1) cpuId then (-1)%Z else numa_node_of_cpu t cpuId.

Definition GetAppBoundNumaNodes (t : Topology) (pid : Z) : gset Z :=
  list_to_set (List.filter (fun n => negb (Z.eqb n (-1))) (NumaNodeOfCpuGetMapping t <$> SchedGetaffinityGetCpuList t pid)).

Definition IsAppBoundToOneNumaNode (t : Topology) (pid : Z) : Z :=
  match elements (GetAppBoundNumaNodes t pid) with [node] => node | _ => (-1)%Z end.

End NumaCpuUtils.

(** ** Queries *)

(** One host of the cluster: its name and its NUMA nodes. *)
Record host_info := mkHostInfo { hi_host_name : string; hi_numa : list ubs_mem_numastat_t }.

(** The loop over the nodes: hosts without an answer are left out. *)
Fixpoint cluster_hosts (t : Topology) (nodes : list ubs_topo_node_t) (hosts : list host_info) : Z * list host_info :=
  match nodes with
  | [] => (UBSM_OK, hosts)
  | n :: nodes =>
      let '(r, numaMems) := pUbseNumaStatGet t (tn_slot_id n) in
      match numaMems with
      | Some (m :: mems) =>
          if negb (Z.eqb r UBS_SUCCESS) || Nat.ltb UBS_TOPO_NUMA_NUM (length (m :: mems)) then cluster_hosts t nodes hosts
          else if negb (fits MAX_HOST_NAME_DESC_LENGTH (tn_host_name n)) then (MXM_ERR_UBSE_INNER, hosts)
          else cluster_hosts t nodes (hosts ++ [mkHostInfo (tn_host_name n) (m :: mems)])
      | _ => cluster_hosts t nodes hosts
      end
  end.

Definition LookUpClusterStatistic (t : Topology) : Z * list host_info :=
  if negb (eng_loaded t) then (MXM_ERR_UBSE_INNER, [])
  else match node_list t with inl r => (r, []) | inr nodes => cluster_hosts t nodes [] end.

(** [strncmp(name, prefix.c_str(), prefix.length()) == 0]: a null character in
    the prefix ends the comparison. *)
Definition starts_with (prefix name : string) : bool :=
  if bool_decide (c_str prefix = prefix) then String.prefix prefix name else String.eqb name (c_str prefix).

(** The descriptions whose name starts with the prefix, as far as they can be copied. *)
Fixpoint list_names (prefix : string) (descs nameList : list (string * Z)) : Z * list (string * Z) :=
  match descs with
  | [] => (MXM_OK, nameList)
  | d :: descs =>
      if starts_with prefix d.1 then
        if negb (fits (MAX_SHM_NAME_LENGTH + 1) d.1) then (ERANGE_AND_RESET, nameList)
        else list_names prefix descs (nameList ++ [d])
      else list_names prefix descs nameList
  end.

Definition ShmListLookup (t : Topology) (prefix : string) : Z * list (string * Z) :=
  if negb (Z.eqb (eng_Initialize t) 0) then (eng_Initialize t, [])
  else if negb (eng_loaded t) then (MXM_ERR_UBSE_LIB, [])
  else
    let '(r, descs) := pUbseMemShmList t in
    if negb (Z.eqb r UBS_SUCCESS) then
      (if Z.eqb r UBS_ENGINE_ERR_NOT_EXIST then MXM_ERR_SHM_NOT_FOUND
       else if Z.eqb r UBS_ERR_NOT_SUPPORTED then MXM_ERR_UBSE_NOT_SUPPORTED else MXM_ERR_UBSE_INNER, [])
    else list_names prefix descs [].

Record shmem_info := mkShmemInfo { in_name : string; in_size : Z; in_unit_size : Z; in_memids : list Z }.

Definition ShmLookup (t : Topology) (name : string) : Z + shmem_info :=
  if negb (Z.eqb (eng_Initialize t) 0) then inl MXM_ERR_UBSE_LIB
  else if negb (eng_loaded t) then inl MXM_ERR_UBSE_LIB
  else
    let '(r, slot) := pUbseNodeLocalGet t in
    if negb (Z.eqb r 0) then inl MXM_ERR_UBSE_INNER
    else
      let '(r, desc) := pUbseMemShmGet t name in
      if negb (Z.eqb r UBS_SUCCESS) then
        inl (if Z.eqb r UBS_ENGINE_ERR_NOT_EXIST then MXM_ERR_SHM_NOT_FOUND
             else if Z.eqb r UBS_ERR_NOT_SUPPORTED then MXM_ERR_UBSE_NOT_SUPPORTED else MXM_ERR_UBSE_INNER)
      else
        match desc with
        | None => inl MXM_ERR_UBSE_INNER
        | Some desc =>
            match List.find (fun i => Z.eqb (id_slot i) slot) (sd_import desc) with
            | None => inl MXM_ERR_SHM_NOT_FOUND
            | Some i =>
                if negb (fits (MAX_SHM_NAME_LENGTH + 1) (shm_desc_name t name)) then inl MXM_ERR_MEMORY
                else inr (mkShmemInfo (shm_desc_name t name) (sd_mem_size desc) (sd_unit_size desc) (id_memids i))
            end
        end.
