(* ===== verification/RegionService.v ===== *)
(** The region service: the region manager and its repository
    ([src/src/mxm_shm/region_manager.h], [region_manager.cpp],
    [region_repository.cpp]), the requests on regions ([src/src/mxm_shm/ipc_handler.cpp]) and
    the slots that a region offers to leases ([UbseMemAdapter::GetRegionInfo]).

    [Service] is the daemon's state with the members of [RegionManager] and the
    cached node id of [UbseMemAdapter]; a request of this file is a function of
    type [SM A]. *)

From S2P Require Import Prelude StoreTypes IdPool IdPoolSpec RecordAllocator RecordStore StoreTable StoreInv StoreSteps StoreRestart StoreSpec RegionNodes StoreTheorems MsgPacker MsgCodec MsgBase StoreInterface Daemon NodeAddress RegionTypes Topology.

Definition UINT32_MAX : Z := (2 ^ 32 - 1)%Z.

Record RegionInfo := mkRegionInfo { ri_name : string; ri_size : Z; ri_region : SHMRegionDesc }.

(** ** State and effects *)

Record Service (S : Type) := mkService {
  sv_daemon : Daemon S;
  mRegionMap : gmap string RegionInfo;
  nodeId_ : Z;
}.
Arguments mkService {S}.
Arguments sv_daemon {S}.
Arguments mRegionMap {S}.
Arguments nodeId_ {S}.

Section Effects.
Context {S : Type} `{!RecordStoreAPI S}.

Definition SM (A : Type) : Type := Service S -> A * Service S.

Definition sret {A} (a : A) : SM A := fun v => (a, v).

Definition sbind {A B} (m : SM A) (k : A -> SM B) : SM B := fun v => let '(a, v1) := m v in k a v1.

(** An effect on the daemon's state. *)
Definition lift {A} (m : M (S := S) A) : SM A := fun v =>
  let '(a, d) := m (sv_daemon v) in (a, mkService d (mRegionMap v) (nodeId_ v)).

Definition get_regions : SM (gmap string RegionInfo) := fun v => (mRegionMap v, v).

Definition set_regions (m : gmap string RegionInfo) : SM unit := fun v => (tt, mkService (sv_daemon v) m (nodeId_ v)).

Definition get_nodeId : SM Z := fun v => (nodeId_ v, v).

Definition set_nodeId (n : Z) : SM unit := fun v => (tt, mkService (sv_daemon v) (mRegionMap v) n).

End Effects.

Declare Scope service_scope.
Delimit Scope service_scope with service.
Notation "'let!' x := m 'in' k" := (sbind m (fun x => k)) (at level 10, x name, m at level 100, k at level 200) : service_scope.
Notation "m ;! k" := (sbind m (fun _ => k)) (at level 100, k at level 200, right associativity) : service_scope.
Open Scope service_scope.

(** ** Records and regions *)

(** The ids and affinities of the first [num] nodes. *)
Definition ToNodeIds (r : SHMRegionDesc) : option (list Z * list bool) :=
  if Z.ltb (rd_num r) 0 || Z.ltb MEM_TOPOLOGY_MAX_HOSTS (rd_num r) then None
  else
    nodes ← mapM (fun i => let '(ok, nodeId) := StrUtil.StrToUint (rd_nodeId r !!! i) in
                           if ok then Some (nodeId, rd_affinity r !!! i) else None) (seq 0 (Z.to_nat (rd_num r)));
    Some (nodes.*1, nodes.*2).

(** The search loop of [CheckRegionMatched] for one id: [None] is an id of the
    example that is no number, [Some None] a search without result. *)
Fixpoint find_node (nodeId : Z) (ids : list string) (flag : list bool) (js : list nat) : option (option nat) :=
  match js with
  | [] => Some None
  | i :: js =>
      if flag !!! i : bool then find_node nodeId ids flag js
      else
        let '(ok, n) := StrUtil.StrToUint (ids !!! i) in
        if negb ok then None else if Z.eqb n nodeId then Some (Some i) else find_node nodeId ids flag js
  end.

(** The loop over the recorded nodes: which nodes of the example are taken, and with which affinity. *)
Fixpoint match_nodes (nodes : list (Z * bool)) (ids : list string) (num : nat) (flag affinity : list bool) : option (list bool * list bool) :=
  match nodes with
  | [] => Some (flag, affinity)
  | (nodeId, aff) :: nodes =>
      match find_node nodeId ids flag (seq 0 num) with
      | Some (Some i) => match_nodes nodes ids num (<[i := true]> flag) (<[i := aff]> affinity)
      | _ => None
      end
  end.

Definition write_node (out : SHMRegionDesc) (num : nat) (nodeId host : string) (aff : bool) : SHMRegionDesc :=
  mkRegionDesc (perfLevel out) (rd_type out) (rd_num out) (<[num := aff]> (rd_affinity out)) (<[num := nodeId]> (rd_nodeId out))
    (<[num := host]> (rd_hostName out)).

(** The loop that copies the taken nodes to the front of the output. *)
Fixpoint copy_taken (example : SHMRegionDesc) (flag affinity : list bool) (js : list nat) (num : nat) (out : SHMRegionDesc)
  : bool * nat * SHMRegionDesc :=
  match js with
  | [] => (true, num, out)
  | i :: js =>
      if negb (flag !!! i : bool) then copy_taken example flag affinity js num out
      else if negb (fits MEM_MAX_ID_LENGTH (rd_nodeId example !!! i)) then (false, num, out)
      else if negb (fits MAX_HOST_NAME_DESC_LENGTH (rd_hostName example !!! i)) then
        (false, num, with_nodeIds out (<[num := rd_nodeId example !!! i]> (rd_nodeId out)))
      else copy_taken example flag affinity js (S num) (write_node out num (rd_nodeId example !!! i) (rd_hostName example !!! i) (affinity !!! i))
  end.

(** The output's region is written in place, also when the match fails half way. *)
Definition CheckRegionMatched (input : CreateRegionInput) (output : SHMRegionDesc) (example : SHMRegionDesc) : bool * SHMRegionDesc :=
  if Z.ltb (rd_num example) 0 || Z.ltb MEM_TOPOLOGY_MAX_HOSTS (rd_num example) ||
     negb (Nat.eqb (length (cri_nodeIds input)) (length (cri_affinity input))) ||
     Z.ltb (rd_num example) (Z.of_nat (length (cri_nodeIds input))) then (false, output)
  else
    let num := Z.to_nat (rd_num example) in
    match match_nodes (zip (cri_nodeIds input) (cri_affinity input)) (rd_nodeId example) num (replicate 16 false) (replicate 16 false) with
    | None => (false, output)
    | Some (flag, affinity) =>
        let output := mkRegionDesc (perfLevel example) (rd_type example) (rd_num output) (rd_affinity output) (rd_nodeId output) (rd_hostName output) in
        let '(ok, n, output) := copy_taken example flag affinity (seq 0 num) 0 output in
        if negb ok then (false, output)
        else (true, mkRegionDesc (perfLevel output) (rd_type output) (Z.of_nat n) (rd_affinity output) (rd_nodeId output) (rd_hostName output))
    end.

Fixpoint match_regions (input : CreateRegionInput) (output : SHMRegionDesc) (examples : list SHMRegionDesc) : option SHMRegionDesc :=
  match examples with
  | [] => None
  | example :: examples =>
      let '(ok, output) := CheckRegionMatched input output example in
      if ok then Some output else match_regions input output examples
  end.

(** [None] is the result [-1]. [fresh] is the region of a [RegionInfo] that is not initialised. *)
Definition TransRecordToRegionCache (input : CreateRegionInput) (fresh : SHMRegionDesc) (regions : SHMRegions) : option RegionInfo :=
  region ← match_regions input fresh (take (Z.to_nat (rs_num regions)) (rs_region regions));
  Some (mkRegionInfo (cri_name input) (cri_size input) region).

Section RegionManager.
Context {S : Type} `{!RecordStoreAPI S}.

(** ** The repository *)

Definition UpdateRegionInfo (region : RegionInfo) : SM (S := S) bool :=
  match ToNodeIds (ri_region region) with
  | None => sret false
  | Some (nodeIds, affinitys) =>
      let! hr := lift (call (OpAddRegion (mkCreateRegionInput (ri_name region) (ri_size region) nodeIds affinitys))) in
      sret (Z.eqb hr 0)
  end.

Definition RemoveRegionInfo (name : string) : SM (S := S) bool :=
  let! hr := lift (call (OpDelRegion name)) in
  sret (Z.eqb hr 0).

(** The regions of all records; [None] is a failure. [junk] and [fresh] are the
    contents of the local variables [regionList] and [region] (one for each record), which the code does not initialise. *)
Definition Recovery (t : Topology) (junk : SHMRegions) (fresh : string -> SHMRegionDesc) : SM (S := S) (option (list RegionInfo)) :=
  let! records := lift (query list_regions) in
  let '(hr, regionList) := LookupRegionList t junk in
  sret (if negb (Z.eqb hr 0) then None else mapM (fun elem => TransRecordToRegionCache elem (fresh (cri_name elem)) regionList) records).

(** ** The manager *)

Definition CreateRegionInfo (region : RegionInfo) : SM (S := S) bool :=
  let! m := get_regions in
  match m !! ri_name region with
  | Some _ => sret false
  | None =>
      set_regions (<[ri_name region := region]> m) ;!
      let! res := UpdateRegionInfo region in
      if negb res then
        let! m := get_regions in
        set_regions (delete (ri_name region) m) ;!
        sret false
      else sret true
  end.

Definition DeleteRegionInfo (name : string) : SM (S := S) bool :=
  let! m := get_regions in
  match m !! name with
  | None => sret false
  | Some region =>
      set_regions (delete name m) ;!
      let! res := RemoveRegionInfo name in
      if negb res then
        let! m := get_regions in
        set_regions (<[ri_name region := region]> m) ;!
        sret false
      else sret true
  end.

Definition GetRegionInfo (name : string) : SM (S := S) (option RegionInfo) :=
  let! m := get_regions in
  sret (m !! name).

(** The loop that enters the recovered regions; [false] when one is there already. *)
Fixpoint enter_regions (regions : list RegionInfo) : SM (S := S) bool :=
  match regions with
  | [] => sret true
  | elem :: rest =>
      let! m := get_regions in
      match m !! ri_name elem with
      | Some _ => sret false
      | None =>
          set_regions (<[ri_name elem := elem]> m) ;!
          enter_regions rest
      end
  end.

Definition RecoverFromRamFS (t : Topology) (junk : SHMRegions) (fresh : string -> SHMRegionDesc) : SM (S := S) bool :=
  let! regions := Recovery t junk fresh in
  match regions with None => sret false | Some regions => enter_regions regions end.

(** [RegionManager::Recovery]. *)
Definition RegionRecovery (t : Topology) (junk : SHMRegions) (fresh : string -> SHMRegionDesc) : SM (S := S) Z :=
  let! ok := RecoverFromRamFS t junk fresh in
  sret (if negb ok then MXM_ERR_PARAM_INVALID else MXM_OK).

(** ** Requests *)

(** [strnlen(value, capacity) < capacity]. *)
Definition IsBoundedString (value : string) (capacity : Z) : bool := fits capacity value.

Definition ValidateRegionDesc (r : SHMRegionDesc) : bool :=
  if Z.ltb (rd_num r) 0 || Z.ltb MEM_TOPOLOGY_MAX_HOSTS (rd_num r) || Z.ltb (Z.of_nat UBS_MEM_MAX_SLOT_NUM) (rd_num r) then false
  else forallb (fun i => IsBoundedString (rd_nodeId r !!! i) MEM_MAX_ID_LENGTH && IsBoundedString (rd_hostName r !!! i) MAX_HOST_NAME_DESC_LENGTH)
         (seq 0 (Z.to_nat (rd_num r))).

(** [ShmLookRegionList] and [RegionLookupRegionList] answer alike. *)
Definition ShmLookRegionList (t : Topology) : Z * option SHMRegions :=
  let '(hr, regions) := LookupRegionList t zero_regions in
  if negb (Z.eqb hr 0) then (hr, None) else (0%Z, Some regions).

Definition RegionLookupRegionList (t : Topology) : Z * option SHMRegions :=
  let '(hr, regions) := LookupRegionList t zero_regions in
  if negb (Z.eqb hr 0) then (hr, None) else (MXM_OK, Some regions).

Definition RegionCreateRegion (regionName : string) (region : SHMRegionDesc) : SM (S := S) Z :=
  if negb (ValidateRegionDesc region) then sret MXM_ERR_PARAM_INVALID
  else
    let! ok := CreateRegionInfo (mkRegionInfo regionName 0 region) in
    sret (if negb ok then MXM_ERR_REGION_EXIST else 0%Z).

Definition RegionLookupRegion (regionName : string) : SM (S := S) (Z * option SHMRegionDesc) :=
  let! r := GetRegionInfo regionName in
  sret (match r with None => (MXM_ERR_REGION_NOT_EXIST, None) | Some info => (0%Z, Some (ri_region info)) end).

Definition RegionDestroyRegion (regionName : string) : SM (S := S) Z :=
  let! ok := DeleteRegionInfo regionName in
  sret (if negb ok then MXM_ERR_REGION_NOT_EXIST else 0%Z).

End RegionManager.

(** ** The slots that leases are offered *)

Module UbseMemAdapter.

(** The slots of the nodes with affinity. *)
Fixpoint affine_slots (r : SHMRegionDesc) (js : list nat) (slotIds : list Z) : Z * list Z :=
  match js with
  | [] => (MXM_OK, slotIds)
  | i :: js =>
      if rd_affinity r !!! i : bool then
        let '(ok, slot) := StrUtil.StrToUint (rd_nodeId r !!! i) in
        if negb ok then (MXM_ERR_PARAM_INVALID, slotIds) else affine_slots r js (slotIds ++ [slot])
      else affine_slots r js slotIds
  end.

Definition region_slots (r : SHMRegionDesc) : Z * list Z :=
  let '(ret, slotIds) := affine_slots r (seq 0 (Z.to_nat (rd_num r))) [] in
  if negb (Z.eqb ret MXM_OK) then (ret, slotIds)
  else match slotIds with [] => (MXM_ERR_PARAM_INVALID, []) | _ => (MXM_OK, slotIds) end.

(** The first region of the topology, with affinity to all its nodes. *)
Definition default_region (r : SHMRegionDesc) : SHMRegionDesc :=
  mkRegionDesc (perfLevel r) (rd_type r) (rd_num r)
    (replicate (Z.to_nat (rd_num r)) true ++ drop (Z.to_nat (rd_num r)) (rd_affinity r)) (rd_nodeId r) (rd_hostName r).

(** [junk] is the content of the local variable [regions]. *)
Definition GetRegionInfo (t : Topology) (regionMap : gmap string RegionInfo) (junk : SHMRegions) (regionName : string) : Z * list Z :=
  if bool_decide (regionName = "default") then
    let '(hr, regions) := LookupRegionList t junk in
    if negb (Z.eqb hr 0) || Z.eqb (rs_num regions) 0 then (hr, [])
    else region_slots (default_region (rs_region regions !!! 0))
  else
    match regionMap !! regionName with
    | None => (MXM_ERR_REGION_NOT_FOUND, [])
    | Some info => region_slots (ri_region info)
    end.

End UbseMemAdapter.
