(* ===== verification/ShmCreation.v ===== *)
(** Creation of shared memory: the adapter's calls ([src/src/under_api/ubse/ubse_mem_adapter.cpp])
    and the remaining requests of the shared-memory and the lease service ([src/src/mxm_shm/ipc_handler.cpp], [src/src/mxm_lease/ipc_handler.cpp]):
    [ShmCreate], [ShmCreateWithProvider], [ShmAttach], [ShmDetach], the queries,
    [AppCheckShareMemoryMap], [IpcSuspend] and [IpcResume].

    The bytes of the user information that the engine keeps with a memory are
    the structure they are copied from. *)

From S2P Require Import Prelude StoreTypes IdPool IdPoolSpec RecordAllocator RecordStore StoreTable StoreInv StoreSteps StoreRestart StoreSpec RegionNodes StoreTheorems MsgPacker MsgCodec MsgBase MsgRequests MsgResponses StoreInterface Daemon ShmManager ShmHandlers LeaseEngine LeaseManager NodeAddress RegionTypes Topology RegionService.
Import SHMManager.

Definition UBSM_FLAG_NONCACHE : Z := 2.
Definition UBSM_FLAG_WR_DELAY_COMP : Z := 4.
Definition UBSM_FLAG_MEM_ANONYMOUS : Z := 16.
Definition UBS_MEM_FLAG_NO_WR_DELAY : Z := 1.
Definition UBS_MEM_FLAG_SHM_ANONYMOUS : Z := 2.
Definition UBS_MEM_FLAG_CACHEABLE : Z := 4.
Definition UBS_FEATURE_BIT_CC_CACHEABLE : Z := 8.
Definition UBS_MEM_MAX_USR_INFO_LEN : Z := 32.

(** [sizeof(ubse_user_info_t)]: three ids and the mode of four bytes each, the
    flags and the sequence number of eight. *)
Definition sizeof_ubse_user_info_t : Z := (4 * 4 + 2 * 8)%Z.

(** [privider] holds the first [node_cnt] entries of [slot_ids]. *)
Record CreateShmParam := mkCreateParam {
  cp_name : string;
  cp_size : Z;
  cp_appContext : AppContext;
  cp_baseNid : string;
  cp_desc : SHMRegionDesc;
  cp_flag : Z;
  cp_mode : Z;
  cp_privider : list Z;
}.

Record CreateShmWithProviderParam := mkProviderParam {
  pp_hostName : string;
  pp_socketId : Z;
  pp_numaId : Z;
  pp_portId : Z;
  pp_name : string;
  pp_size : Z;
  pp_appContext : AppContext;
  pp_flag : Z;
  pp_mode : Z;
}.

(** ** Flags *)

(** The feature word says whether memory can be cacheable; without it nothing is checked. *)
Definition CheckFeatureCompatibility (t : Topology) (flags : Z) : Z :=
  match ubFeature t with
  | None => MXM_OK
  | Some feature =>
      if has flags UBSM_FLAG_ONLY_IMPORT_NONCACHE then
        if has feature UBS_FEATURE_BIT_CC_CACHEABLE then MXM_ERR_UBSE_NOT_SUPPORTED else MXM_OK
      else if negb (has flags UBSM_FLAG_NONCACHE) then
        if negb (has feature UBS_FEATURE_BIT_CC_CACHEABLE) then MXM_ERR_UBSE_NOT_SUPPORTED else MXM_OK
      else MXM_OK
  end.

Definition ubse_flags (flag : Z) : Z :=
  let flags := 0%Z in
  let flags := if has flag UBSM_FLAG_WR_DELAY_COMP then Z.lor flags UBS_MEM_FLAG_NO_WR_DELAY else flags in
  let flags := if has flag UBSM_FLAG_MEM_ANONYMOUS then Z.lor flags UBS_MEM_FLAG_SHM_ANONYMOUS else flags in
  if negb (has flag UBSM_FLAG_NONCACHE) && negb (has flag UBSM_FLAG_ONLY_IMPORT_NONCACHE) then Z.lor flags UBS_MEM_FLAG_CACHEABLE else flags.

(** The code and the engine's flags; [memcpy_s] refuses more than the destination holds. *)
Definition PrepareUserInfoAndFlags (ubsUserInfo : ubse_user_info_t) : Z + Z :=
  if Z.ltb UBS_MEM_MAX_USR_INFO_LEN sizeof_ubse_user_info_t then inl MXM_ERR_MALLOC_FAIL else inr (ubse_flags (ui_flag ubsUserInfo)).

(** ** The adapter *)

Section Adapter.
Context {S : Type} `{!RecordStoreAPI S}.

(** The slot of this node, asked for once. *)
Definition EnsureGetLocalNodeId (t : Topology) (initialized : bool) : SM (S := S) (Z + Z) :=
  let! n := get_nodeId in
  if negb (Z.eqb n UINT32_MAX) then sret (inr n)
  else
    match GetLocalNodeId t initialized with
    | inl r => sret (inl r)
    | inr slot =>
        set_nodeId slot ;!
        sret (inr slot)
    end.

Definition GenerateCreateSeqNo (slotId : Z) : SM (S := S) Z :=
  let! n := lift (call OpGetSeqNo) in
  sret (Z.lor (Z.shiftl slotId 32) n).

(** Called after [Initialize] succeeded. *)
Definition FillUserInfo (t : Topology) (owner : AppContext) (flags mode : Z) : SM (S := S) (Z + ubse_user_info_t) :=
  let! r := EnsureGetLocalNodeId t true in
  match r with
  | inl r => sret (inl r)
  | inr nodeId =>
      let! seqNo := GenerateCreateSeqNo nodeId in
      sret (inr (mkUserInfo (ac_uid owner) (ac_gid owner) (s32 (ac_pid owner)) mode flags seqNo))
  end.

(** A creation that timed out is undone later, unless another one took the name. *)
Definition undo_later (e : Engine) (name : string) (ctx : AppContext) (seqNo : Z) : M (S := S) unit :=
  AddDelayRemoveRecord (mkDelay false 0 (eng_now e + ONE_MINUTE_MS) name ctx false false true false seqNo).

Definition ShmCreateWithAffinity (t : Topology) (param : CreateShmParam) (region : list Z) (ubseFlags : Z) (usrInfo : ubse_user_info_t)
  (createSeqNo : Z) : M (S := S) Z :=
  if negb (eng_loaded t) then ret MXM_ERR_UBSE_INNER
  else
    let numaNode := NumaCpuUtils.IsAppBoundToOneNumaNode t (s32 (ac_pid (cp_appContext param))) in
    if Z.eqb numaNode (-1) then ret MXM_ERR_SHM_INVALID_NUMA
    else
      match GetSocketIdWithNumaNode t numaNode with
      | inl res => ret res
      | inr socketId =>
          let c := CreateWithAffinity (cp_name param) (cp_size param) socketId usrInfo ubseFlags region (cp_privider param) in
          let r := pUbseMemShmCreateAny t c in
          trace (CallCreate c r) ;;
          if negb (Z.eqb r UBS_SUCCESS) && negb (Z.eqb r UBS_ERR_TIMED_OUT) then
            ret (if Z.eqb r UBS_ERR_NOT_SUPPORTED then MXM_ERR_UBSE_NOT_SUPPORTED else MXM_ERR_UBSE_INNER)
          else if Z.eqb r UBS_ERR_TIMED_OUT then
            undo_later t (cp_name param) (cp_appContext param) createSeqNo ;;
            ret UBS_ERR_TIMED_OUT
          else ret MXM_OK
      end.

(** What a creation without affinity does with the engine's answer. *)
Definition create_result (t : Topology) (c : CreateCall) (name : string) (ctx : AppContext) (seqNo : Z) : M (S := S) Z :=
  let r := pUbseMemShmCreateAny t c in
  trace (CallCreate c r) ;;
  if negb (Z.eqb r UBS_SUCCESS) && negb (Z.eqb r UBS_ERR_TIMED_OUT) then
    ret (if Z.eqb r UBS_ENGINE_ERR_EXISTED then MXM_ERR_SHM_ALREADY_EXIST
         else if Z.eqb r UBS_ERR_NOT_SUPPORTED then MXM_ERR_UBSE_NOT_SUPPORTED else MXM_ERR_UBSE_INNER)
  else if Z.eqb r UBS_ERR_TIMED_OUT then
    undo_later t name ctx seqNo ;;
    ret UBS_ERR_TIMED_OUT
  else ret MXM_OK.

(** The slots of the nodes of a description; [None] is an id that is no number. *)
Definition desc_slots (r : SHMRegionDesc) : option (list Z) :=
  mapM (fun i => let '(ok, nodeId) := StrUtil.StrToUint (rd_nodeId r !!! i) in if ok then Some nodeId else None)
    (seq 0 (Z.to_nat (rd_num r))).

Definition ShmCreate (t : Topology) (param : CreateShmParam) : SM (S := S) Z :=
  if negb (Z.eqb (eng_Initialize t) 0) then sret (eng_Initialize t)
  else if negb (eng_loaded t) then sret MXM_ERR_UBSE_INNER
  else
    match desc_slots (cp_desc param) with
    | None => sret MXM_ERR_PARAM_INVALID
    | Some region =>
        let! r := FillUserInfo t (cp_appContext param) (cp_flag param) (cp_mode param) in
        match r with
        | inl r => sret r
        | inr ubsUserInfo =>
            match PrepareUserInfoAndFlags ubsUserInfo with
            | inl r => sret r
            | inr ubseFlags =>
                let r := CheckFeatureCompatibility t (cp_flag param) in
                if negb (Z.eqb r MXM_OK) then sret r
                else
                  let seqNo := ui_seqNo ubsUserInfo in
                  let! r := lift (ShmCreateWithAffinity t param region ubseFlags ubsUserInfo seqNo) in
                  if Z.eqb r MXM_OK then sret r
                  else lift (create_result t (CreateInRegion (cp_name param) (cp_size param) ubsUserInfo ubseFlags region (cp_privider param))
                               (cp_name param) (cp_appContext param) seqNo)
            end
        end
    end.

(** The code, or the user information, the flags and the slot of the provider. *)
Definition PrepareShmCreateWithProviderParams (t : Topology) (param : CreateShmWithProviderParam) : SM (S := S) (Z + ubse_user_info_t * Z * Z) :=
  match GetSlotIdFromHostName t (pp_hostName param) with
  | inl r => sret (inl r)
  | inr slotId =>
      let! r := FillUserInfo t (pp_appContext param) (pp_flag param) (pp_mode param) in
      match r with
      | inl r => sret (inl r)
      | inr ubsUserInfo =>
          match PrepareUserInfoAndFlags ubsUserInfo with
          | inl r => sret (inl r)
          | inr ubseFlags => sret (inr (ubsUserInfo, ubseFlags, slotId))
          end
      end
  end.

Definition ShmCreateWithProvider (t : Topology) (param : CreateShmWithProviderParam) : SM (S := S) Z :=
  if negb (Z.eqb (eng_Initialize t) 0) then sret (eng_Initialize t)
  else
    let! r := PrepareShmCreateWithProviderParams t param in
    match r with
    | inl r => sret r
    | inr (ubsUserInfo, ubseFlags, slotId) =>
        let r := CheckFeatureCompatibility t (pp_flag param) in
        if negb (Z.eqb r MXM_OK) then sret r
        else
          let provider := mkLender slotId (pp_socketId param) (pp_numaId param) (pp_portId param) (pp_size param) in
          lift (create_result t (CreateWithLender (pp_name param) ubsUserInfo ubseFlags provider) (pp_name param) (pp_appContext param)
                  (ui_seqNo ubsUserInfo))
    end.

End Adapter.

(** ** Requests *)

Section Handlers.
Context {S : Type} `{!RecordStoreAPI S}.

(** The pairs of a node of the region and a node of the request, in the order of the two loops. *)
Definition node_pairs (region req : SHMRegionDesc) : list (nat * nat) :=
  i ← seq 0 (Z.to_nat (rd_num region)); j ← seq 0 (Z.to_nat (rd_num req)); [(i, j)].

(** The slots of a named region that provide the memory: those of hosts that the request names and the region prefers. *)
Fixpoint region_providers (region req : SHMRegionDesc) (pairs : list (nat * nat)) (slot_ids : list Z) : option (list Z) :=
  match pairs with
  | [] => Some slot_ids
  | (i, j) :: pairs =>
      if String.eqb (rd_hostName region !!! i) (rd_hostName req !!! j) && (rd_affinity region !!! i) then
        let '(ok, nodeId) := StrUtil.StrToUint (rd_nodeId region !!! i) in
        if negb ok then None
        else if Nat.leb UBS_MEM_MAX_SLOT_NUM (length slot_ids) then None
        else region_providers region req pairs (slot_ids ++ [nodeId])
      else region_providers region req pairs slot_ids
  end.

(** The request's members: region, name, size, base node, description, flags and mode. *)
Definition ShmCreateRequested (t : Topology) (regionName name : string) (size : Z) (baseNid : string) (regionDesc : SHMRegionDesc)
  (flags mode : Z) (udsInfo : MxmComUdsInfo) : SM (S := S) Z :=
  if negb (ValidateRegionDesc regionDesc) then sret MXM_ERR_PARAM_INVALID
  else
    let! busy := lift (GetDelayRemoveRecord name) in
    if busy : bool then sret MXM_ERR_NAME_BUSY
    else
      let! provider :=
        if bool_decide (regionName = "default") then
          sret (match desc_slots regionDesc with None => inl MXM_ERR_PARAM_INVALID | Some l => inr l end)
        else
          let! info := GetRegionInfo regionName in
          sret (match info with
                | None => inl MXM_ERR_REGION_NOT_EXIST
                | Some info =>
                    match region_providers (ri_region info) regionDesc (node_pairs (ri_region info) regionDesc) [] with
                    | None => inl MXM_ERR_PARAM_INVALID
                    | Some l => inr l
                    end
                end) in
      match provider with
      | inl r => sret r
      | inr slot_ids =>
          ShmCreate t (mkCreateParam name size (mkAppContext (uds_pid udsInfo) (uds_uid udsInfo) (uds_gid udsInfo)) baseNid regionDesc flags mode slot_ids)
      end.

Definition ShmCreateWithProviderRequested (t : Topology) (hostName : string) (socketId numaId portId : Z) (name : string) (size flags mode : Z)
  (udsInfo : MxmComUdsInfo) : SM (S := S) Z :=
  let! busy := lift (GetDelayRemoveRecord name) in
  if busy : bool then sret MXM_ERR_NAME_BUSY
  else
    ShmCreateWithProvider t (mkProviderParam hostName socketId numaId portId name size
      (mkAppContext (uds_pid udsInfo) (uds_uid udsInfo) (uds_gid udsInfo)) flags mode).

(** Attaching without mapping: the code, and what the response is filled with. *)
Definition ShmAttachRequested (e : Engine) (name : string) (udsInfo : MxmComUdsInfo) : M (S := S) (Z * option AttachShmResult) :=
  let '(rt, ubsUserInfo) := ShmGetUserData e name in
  if negb (Z.eqb rt 0) then ret (rt, None)
  else
    let oflag := GetMaxOflag (CalculateProvidedPermissions (uds_uid udsInfo) (uds_gid udsInfo) (ui_uid ubsUserInfo) (ui_gid ubsUserInfo)
                                (ui_mode ubsUserInfo)) in
    if Z.eqb oflag (-1) then ret (MXM_ERR_SHM_PERMISSION_DENIED, None)
    else if negb (Z.eqb (uds_uid udsInfo) (ui_uid ubsUserInfo)) || negb (Z.eqb (uds_gid udsInfo) (ui_gid ubsUserInfo)) then
      ret (MXM_ERR_SHM_PERMISSION_DENIED, None)
    else
      let* hr := ShmAttach e name ubsUserInfo (mkAttach 0 0 [] 0 oflag) in
      if negb (Z.eqb hr.1 0) then ret (hr.1, None) else ret (UBSM_OK, Some hr.2).

Definition ShmDetachRequested (e : Engine) (name : string) (udsInfo : MxmComUdsInfo) : M (S := S) Z :=
  let* busy := GetDelayRemoveRecord name in
  if busy : bool then ret MXM_ERR_NAME_BUSY
  else
    let '(rt, ubsUserInfo) := ShmGetUserData e name in
    if negb (Z.eqb rt 0) then ret rt
    else if negb (Z.eqb (uds_uid udsInfo) (ui_uid ubsUserInfo)) || negb (Z.eqb (uds_gid udsInfo) (ui_gid ubsUserInfo)) then
      ret MXM_ERR_SHM_PERMISSION_DENIED
    else ShmDetach e name.

(** The loop over the caller's memories: those that it does not list are unmapped. *)
Fixpoint unmap_unlisted (e : Engine) (names : list string) (records : list AttachedShareMemory) (udsInfo : MxmComUdsInfo) : M (S := S) Z :=
  match records with
  | [] => ret MXM_OK
  | record :: rest =>
      if negb (existsb (String.eqb (asm_name record)) names) then
        ShmUnmap e (asm_name record) udsInfo ;;
        unmap_unlisted e names rest udsInfo
      else unmap_unlisted e names rest udsInfo
  end.

Definition AppCheckShareMemoryMap (e : Engine) (names : list string) (udsInfo : MxmComUdsInfo) : M (S := S) Z :=
  let* records := GetMemoryUsersByPid (uds_pid udsInfo) in
  unmap_unlisted e names records udsInfo.

Definition LookupLocalSlotId (t : Topology) : Z * option Z :=
  match GetLocalNodeId t (initialized_ t) with inl r => (r, None) | inr slot => (MXM_OK, Some slot) end.

Definition ShmListLookupRequested (t : Topology) (prefix : string) : Z * list (string * Z) := ShmListLookup t prefix.

Definition ShmLookupRequested (t : Topology) (name : string) : Z * option shmem_info :=
  match ShmLookup t name with inl r => (r, None) | inr info => (UBSM_OK, Some info) end.

Definition AppQueryClusterInfo (t : Topology) : Z * list host_info := LookUpClusterStatistic t.

(** [std::to_string] of a 64-bit number. *)
Definition number (n : Z) : string := if Z.ltb n 0 then ("-" +:+ to_string 20 (- n))%string else to_string 20 n.

(** [AppContext::GetString]. *)
Definition GetString (c : AppContext) : string := (number (ac_pid c) +:+ ":" +:+ number (ac_uid c) +:+ ":" +:+ number (ac_gid c))%string.

Definition lease_line (memory : MLSMemInfo) : string :=
  let memIds := foldl (fun s memId => (s +:+ number memId +:+ ",")%string) "" (mi_memIds memory) in
  (mi_name memory +:+ "|" +:+ GetString (mi_appContext memory) +:+ "|" +:+ number (mi_unitSize memory) +:+ "|" +:+ number (mi_numaId memory) +:+ "|" +:+ memIds)%string.

(** All leases, in use or cached, one line each. *)
Definition AppQueryCachedMemory : M (S := S) (Z * list string) :=
  let* memoryVec := MLSManager.ListAllMem in
  ret (0%Z, lease_line <$> memoryVec).

(** What a node answers to [RpcQueryNodeInfo] of another. *)
Definition QueryNodeInfo (localNode : RpcNode) : Z * string := (MXM_OK, rn_name localNode).

(** The names that the other nodes answer, each after a comma; the first call
    that fails ends the loop. [SendMsg] gives the code, the response's code and its name. *)
Fixpoint query_nodes (SendMsg : string -> Z * Z * string) (nodes : list RpcNode) (errCode : Z) (name : string) : Z * Z * string :=
  match nodes with
  | [] => (MXM_OK, errCode, name)
  | node :: nodes =>
      let '(r, errCode, answer) := SendMsg (rn_name node) in
      let name := (name +:+ ", " +:+ answer)%string in
      if negb (Z.eqb r 0) then (r, errCode, name) else query_nodes SendMsg nodes errCode name
  end.

Definition RpcQueryNodeInfo (SendMsg : string -> Z * Z * string) (remoteNodes : list RpcNode) : Z * Z * string :=
  query_nodes SendMsg remoteNodes 0 "".

Definition IpcSuspend (udsInfo : MxmComUdsInfo) : M (S := S) Z :=
  if Z.leb (uds_pid udsInfo) 0 then ret MXM_ERR_PARAM_INVALID
  else
    let* r := call (OpAddSuspend (s32 (uds_pid udsInfo))) in
    ret (if negb (Z.eqb r 0) then (if Z.eqb r (-2) then MXM_ERR_NAME_BUSY else MXM_ERR_RECORD_ADD) else UBSM_OK).

Definition IpcResume (udsInfo : MxmComUdsInfo) : M (S := S) Z :=
  if Z.leb (uds_pid udsInfo) 0 then ret MXM_ERR_PARAM_INVALID
  else
    let* r := call (OpDelSuspend (s32 (uds_pid udsInfo))) in
    ret (if negb (Z.eqb r 0) then MXM_ERR_RECORD_DELETE else UBSM_OK).

End Handlers.
