(* ===== verification/RegionMatch.v ===== *)
(** Matching a recorded region with a region of the topology: what
    [CheckRegionMatched] writes has the recorded nodes with their recorded
    affinities, in the order of the topology, and it succeeds when the topology's region
    has all recorded nodes. *)

From S2P Require Import Prelude StoreTypes IdPool IdPoolSpec RecordAllocator RecordStore StoreTable StoreInv StoreSteps StoreRestart StoreSpec RegionNodes StoreTheorems MsgPacker MsgCodec MsgBase StoreInterface Daemon NodeAddress RegionTypes Topology RegionService.

(** ** Lists *)

Lemma seq_lookup_take {A} `{Inhabited A} (l : list A) n : n <= length l -> (fun i => l !!! i) <$> seq 0 n = take n l.
Proof.
  revert n. induction l as [|x l IH]; intros [|n] Hn; simpl in *; try done; [lia|]. f_equal.
  rewrite <- (IH n) by lia. rewrite <- fmap_S_seq, <- list_fmap_compose. done.
Qed.

Lemma take_insert_next {A} (l : list A) k x : k < length l -> take (S k) (<[k := x]> l) = take k l ++ [x].
Proof.
  intros Hk. rewrite (take_S_r _ _ x) by (by apply list_lookup_insert_eq). f_equal. by apply take_insert_ge.
Qed.

(** The [k]-prefix grows by what the loop writes. *)
Lemma take_insert_grow {A} (l : list A) k x ys k' l' :
  k < length l -> take k' l' = take (S k) (<[k := x]> l) ++ ys -> take k' l' = take k l ++ x :: ys.
Proof. intros Hk ->. rewrite take_insert_next by done. by rewrite <- app_assoc. Qed.

Lemma Forall2_zip_fmap {A B C} (P : A -> B -> Prop) (f : A -> C) (l : list A) (k : list (B * C)) :
  Forall2 (fun x y => P x y.1 /\ f x = y.2) l k <-> Forall2 P l k.*1 /\ k.*2 = f <$> l.
Proof.
  revert k. induction l as [|x l IH]; intros [|[b c] k]; simpl; split; try (intros [H1 H2]; by inversion H1); try (by inversion 1); try done.
  - inversion 1 as [|????[??] Hr]; subst. apply IH in Hr as [? ?]. simpl in *. split; [by constructor | by f_equal].
  - intros [H1 H2]. inversion H1; subst. injection H2 as -> H2. constructor; [done | by apply IH].
Qed.

Lemma sublist_filter_bool {A} (f : A -> bool) l : sublist (List.filter f l) l.
Proof. induction l as [|x l IH]; simpl; [done|]. destruct (f x); by constructor. Qed.

(** ** Parsed node ids *)

Definition parsed (s : string) (n : Z) : Prop := StrUtil.StrToUint s = (true, n).

Lemma parsed_range s n : parsed s n -> (0 <= n < 2 ^ 32)%Z.
Proof.
  unfold parsed, StrUtil.StrToUint. destruct (strtoul (c_str s)) as [[v rem] er]. destruct (_ || _); [done|].
  intros [= <-]. unfold u32. by apply Z.mod_pos_bound.
Qed.

Lemma mapM_parsed {C} (ids : nat -> string) (f : nat -> C) js (k : list (Z * C)) :
  mapM (fun i => let '(ok, n) := StrUtil.StrToUint (ids i) in if ok then Some (n, f i) else None) js = Some k <->
  Forall2 parsed (ids <$> js) k.*1 /\ k.*2 = f <$> js.
Proof.
  rewrite mapM_Some, Forall2_fmap_l, <- Forall2_zip_fmap. split; intros H; (eapply Forall2_impl; [exact H|]); intros i [n c]; simpl; unfold parsed.
  - destruct (StrUtil.StrToUint (ids i)) as [[] v]; [|done]. by intros [= -> ->].
  - intros [-> ->]. done.
Qed.

Lemma ToNodeIds_Some r ids affs :
  region_shape r -> ToNodeIds r = Some (ids, affs) <->
  (0 <= rd_num r <= 16)%Z /\ Forall2 parsed (take (Z.to_nat (rd_num r)) (rd_nodeId r)) ids /\ affs = take (Z.to_nat (rd_num r)) (rd_affinity r).
Proof.
  intros (Ha & Hi & _). unfold ToNodeIds. change MEM_TOPOLOGY_MAX_HOSTS with 16%Z.
  destruct (Z.ltb_spec (rd_num r) 0), (Z.ltb_spec 16 (rd_num r)); cbn [orb]; try (split; [done | intros [? _]; lia]).
  rewrite <- (seq_lookup_take (rd_nodeId r)), <- (seq_lookup_take (rd_affinity r)) by lia. split.
  - intros E. destruct (mapM _ _) as [k|] eqn:Ek; [|done]. simpl in E. injection E as <- <-. apply mapM_parsed in Ek as [? ->]. by split_and!; [lia..| |].
  - intros (_ & H1 & ->). set (js := seq 0 (Z.to_nat (rd_num r))) in *.
    assert (length ids = length js) as Hl by (apply Forall2_length in H1; by rewrite length_fmap in H1).
    assert (Hm : mapM (fun i => let '(ok, n) := StrUtil.StrToUint (rd_nodeId r !!! i) in if ok then Some (n, rd_affinity r !!! i) else None) js
                 = Some (zip ids ((fun i : nat => (rd_affinity r !!! i) : bool) <$> js))).
    { apply (mapM_parsed (fun i => rd_nodeId r !!! i)). rewrite fst_zip, snd_zip by (rewrite length_fmap; lia). done. }
    rewrite Hm. simpl. by rewrite fst_zip, snd_zip by (rewrite length_fmap; lia).
Qed.

(** ** Searching *)

Lemma find_node_found x ids flag js i :
  find_node x ids flag js = Some (Some i) -> i ∈ js /\ flag !!! i = false /\ parsed (ids !!! i) x.
Proof.
  induction js as [|j js IH]; cbn [find_node]; [done|]. destruct (flag !!! j) eqn:Ef.
  - intros H%IH. rewrite elem_of_cons. naive_solver.
  - destruct (StrUtil.StrToUint (ids !!! j)) as [[] n] eqn:Ep; cbn [negb]; [|done]. destruct (Z.eqb_spec n x) as [->|].
    + intros [= <-]. rewrite elem_of_cons. by split_and!; [left | |].
    + intros H%IH. rewrite elem_of_cons. naive_solver.
Qed.

Lemma find_node_finds x ids flag js es i :
  Forall (fun j => parsed (ids !!! j) (es j)) js -> i ∈ js -> flag !!! i = false -> es i = x ->
  exists j, find_node x ids flag js = Some (Some j).
Proof.
  intros Hp. induction Hp as [|j js Hj Hp IH]; [by intros ?%elem_of_nil|]. intros Hi Hf He. cbn [find_node]. unfold parsed in Hj. rewrite Hj. cbn [negb].
  apply elem_of_cons in Hi as [->|Hi]; [rewrite Hf, He, Z.eqb_refl; by exists j|]. destruct (flag !!! j); [by apply IH|].
  destruct (Z.eqb _ _); [by exists j | by apply IH].
Qed.

Lemma lookup_total_insert_16 {A} `{Inhabited A} (l : list A) i j x :
  i < length l -> <[i := x]> l !!! j = if decide (j = i) then x else l !!! j.
Proof.
  intros Hi. destruct (decide (j = i)) as [->|Hne]; [by rewrite list_lookup_total_insert_eq|]. by rewrite list_lookup_total_insert_ne.
Qed.

(** The indices that the loop takes, one for each recorded node. *)
Record taken (nodes : list (Z * bool)) (ids : list string) (num : nat) (flag aff flag' aff' : list bool) (idx : list nat) : Prop := {
  tk_nodup : NoDup idx;
  tk_free : Forall (fun i => i < num /\ flag !!! i = false) idx;
  tk_nodes : Forall2 (fun i nd => parsed (ids !!! i) nd.1 /\ aff' !!! i = nd.2) idx nodes;
  tk_flag : forall i, flag' !!! i = flag !!! i || bool_decide (i ∈ idx);
  tk_aff : forall i, i ∉ idx -> aff' !!! i = aff !!! i;
}.

Lemma match_nodes_taken nodes ids num flag aff flag' aff' :
  num <= length flag -> num <= length aff -> match_nodes nodes ids num flag aff = Some (flag', aff') ->
  exists idx, taken nodes ids num flag aff flag' aff' idx.
Proof.
  revert flag aff. induction nodes as [|[x a] nodes IH]; intros flag aff Hf Ha; cbn [match_nodes].
  - intros [= <- <-]. exists []. split; try by constructor. intros i. by rewrite bool_decide_eq_false_2, orb_false_r by apply not_elem_of_nil.
  - destruct (find_node x ids flag (seq 0 num)) as [[i|]|] eqn:Ei; try done. apply find_node_found in Ei as (Hi%elem_of_seq & Hfi & Hp).
    intros H. apply IH in H as [idx [H1 H2 H3 H4 H5]]; [|by rewrite length_insert..]. rewrite Forall_forall in H2.
    assert (Hni : i ∉ idx). { intros Hin. apply H2 in Hin as [_ Hin]. by rewrite lookup_total_insert_16, decide_True in Hin by lia. }
    exists (i :: idx). split.
    + by constructor.
    + constructor; [split; [lia | done]|]. apply Forall_forall. intros j Hj. pose proof (H2 j Hj) as [? Hfj]. split; [done|].
      rewrite lookup_total_insert_16, decide_False in Hfj by (congruence || lia). done.
    + constructor; [|done]. cbn [fst snd]. split; [done|]. rewrite H5 by done. by rewrite lookup_total_insert_16, decide_True by lia.
    + intros j. rewrite H4, lookup_total_insert_16 by lia. destruct (decide (j = i)) as [->|Hne].
      * by rewrite (bool_decide_eq_true_2 (i ∈ i :: idx)), orb_true_r by (by left).
      * f_equal. apply bool_decide_ext. rewrite elem_of_cons. naive_solver.
    + intros j [Hne Hj]%not_elem_of_cons. rewrite H5 by done. by rewrite lookup_total_insert_16, decide_False by (congruence || lia).
Qed.

Lemma match_nodes_finds nodes ids num flag aff es :
  num <= length flag -> Forall (fun j => parsed (ids !!! j) (es j)) (seq 0 num) -> NoDup nodes.*1 ->
  (forall x, x ∈ nodes.*1 -> exists i, i < num /\ flag !!! i = false /\ es i = x) ->
  is_Some (match_nodes nodes ids num flag aff).
Proof.
  intros Hl Hp. revert flag aff Hl. induction nodes as [|[x a] nodes IH]; intros flag aff Hl Hnd Hin; cbn [match_nodes]; [by eexists|].
  cbn [fmap list_fmap fst] in *. apply NoDup_cons in Hnd as [Hx Hnd].
  destruct (Hin x) as (i & Hi & Hf & He); [by left|]. assert (Hs : i ∈ seq 0 num) by (apply elem_of_seq; lia).
  destruct (find_node_finds x ids flag (seq 0 num) es i Hp Hs Hf He) as [j Ej]. rewrite Ej.
  apply find_node_found in Ej as (Hj%elem_of_seq & _ & Hpj). apply IH; [by rewrite length_insert | done |].
  intros y Hy. destruct (Hin y) as (k & Hk & Hfk & Hek); [by right|]. exists k. split_and!; [done | | done].
  rewrite lookup_total_insert_16, decide_False; [done | | lia]. intros ->. apply Hx.
  rewrite Forall_forall in Hp. specialize (Hp j ltac:(apply elem_of_seq; lia)). unfold parsed in *. rewrite Hp in Hpj. injection Hpj as E.
  assert (x = y) as -> by congruence. done.
Qed.

(** ** Copying *)

Lemma copy_taken_shape example flag aff js num out :
  region_shape out -> region_shape (copy_taken example flag aff js num out).2.
Proof.
  revert num out. induction js as [|j js IH]; intros num out H; cbn [copy_taken]; [done|]. destruct (negb (flag !!! j : bool)); [by apply IH|].
  destruct (negb (fits _ _)); [done|]. destruct H as (? & ? & ?). destruct (negb (fits _ _)).
  - unfold region_shape. cbn. by rewrite length_insert.
  - apply IH. unfold region_shape. cbn. by rewrite !length_insert.
Qed.

Lemma copy_taken_true example flag aff js num out n out' :
  region_shape out -> num + length js <= 16 -> copy_taken example flag aff js num out = (true, n, out') ->
  let idx := List.filter (fun i => flag !!! i) js in
  n = num + length idx /\ perfLevel out' = perfLevel out /\ rd_type out' = rd_type out /\
  take n (rd_nodeId out') = take num (rd_nodeId out) ++ ((fun i => rd_nodeId example !!! i) <$> idx) /\
  take n (rd_hostName out') = take num (rd_hostName out) ++ ((fun i => rd_hostName example !!! i) <$> idx) /\
  take n (rd_affinity out') = take num (rd_affinity out) ++ ((fun i => aff !!! i) <$> idx).
Proof.
  revert num out. induction js as [|j js IH]; intros num out Hs Hl; cbn [copy_taken List.filter]; cbn [length] in Hl.
  - intros [= <- <-]. cbv zeta. rewrite Nat.add_0_r, !app_nil_r. done.
  - destruct (flag !!! j) eqn:Ef; cbn [negb]; [|intros E; apply IH in E; [exact E | done | lia]].
    destruct (fits MEM_MAX_ID_LENGTH _); cbn [negb]; [|done]. destruct (fits MAX_HOST_NAME_DESC_LENGTH _); cbn [negb]; [|done].
    intros E. destruct Hs as (H1 & H2 & H3). apply IH in E; [|unfold region_shape; cbn; by rewrite !length_insert | lia].
    destruct E as (-> & -> & -> & E1 & E2 & E3). cbn [write_node rd_nodeId rd_hostName rd_affinity perfLevel rd_type] in E1, E2, E3. cbv zeta.
    cbn [length]. rewrite !fmap_cons. split_and!; [lia | done | done | ..]; (eapply take_insert_grow; [lia | done]).
Qed.

Lemma copy_taken_fits example flag aff js num out :
  Forall (fun i => fits MEM_MAX_ID_LENGTH (rd_nodeId example !!! i) = true /\ fits MAX_HOST_NAME_DESC_LENGTH (rd_hostName example !!! i) = true) js ->
  (copy_taken example flag aff js num out).1.1 = true.
Proof.
  intros H. revert num out. induction H as [|j js [H1 H2] _ IH]; intros num out; cbn [copy_taken]; [done|].
  destruct (negb (flag !!! j : bool)); [apply IH|]. rewrite H1, H2. apply IH.
Qed.

(** ** Matching one region *)

Lemma zip_fmap_pair {A B C} (f : A -> B) (g : A -> C) l : zip (f <$> l) (g <$> l) = (fun x => (f x, g x)) <$> l.
Proof. induction l as [|x l IH]; [done|]. rewrite !fmap_cons. simpl. by rewrite IH. Qed.

(** The indices below [num] that were taken are those of the loop. *)
Lemma taken_indices nodes ids num aff flag' aff' idx :
  num <= 16 -> taken nodes ids num (replicate 16 false) aff flag' aff' idx -> List.filter (fun i => flag' !!! i) (seq 0 num) ≡ₚ idx.
Proof.
  intros Hn [H1 H2 _ H4 _]. rewrite Forall_forall in H2. apply NoDup_Permutation; [|done|].
  - apply NoDup_ListNoDup, List.NoDup_filter, NoDup_ListNoDup, NoDup_seq.
  - intros i. rewrite list_elem_of_In, List.filter_In, <- list_elem_of_In, elem_of_seq, H4. split.
    + intros [Hi H]. rewrite lookup_total_replicate_2 in H by lia. by apply bool_decide_eq_true in H.
    + intros Hi. rewrite (bool_decide_eq_true_2 _ Hi), orb_true_r. specialize (H2 i Hi). split; [lia | done].
Qed.

(** The value of a parsed id. *)
Definition id_value (s : string) : Z := (StrUtil.StrToUint s).2.

Lemma taken_nodes nodes ids num flag aff flag' aff' idx :
  taken nodes ids num flag aff flag' aff' idx ->
  nodes = (fun i => (id_value (ids !!! i), aff' !!! i)) <$> idx /\ Forall (fun i => parsed (ids !!! i) (id_value (ids !!! i))) idx.
Proof.
  intros [_ _ H _ _]. induction H as [|i [x a] idx nodes [Hp Ha] H [IH1 IH2]]; [by split|]. cbn [fst snd] in *.
  assert (Hv : id_value (ids !!! i) = x) by (unfold id_value, parsed in *; by rewrite Hp). rewrite fmap_cons, Hv, Ha. split; [by f_equal|].
  constructor; [by rewrite Hv | done].
Qed.

(** Of an example that matches, nodes are kept in order, with their hosts; they
    are the recorded nodes with the recorded affinities. *)
Definition restored (input : CreateRegionInput) (example out' : SHMRegionDesc) : Prop :=
  region_shape out' /\
  (exists ids affs, ToNodeIds out' = Some (ids, affs) /\ zip ids affs ≡ₚ zip (cri_nodeIds input) (cri_affinity input)) /\
  (exists js, sublist js (seq 0 (Z.to_nat (rd_num example))) /\
     (nodes_of out').*1 = (fun i => (rd_nodeId example !!! i, rd_hostName example !!! i)) <$> js).

Lemma CheckRegionMatched_shape input out example : region_shape out -> region_shape (CheckRegionMatched input out example).2.
Proof.
  intros H. unfold CheckRegionMatched. destruct (_ || _); [done|]. destruct (match_nodes _ _ _ _ _) as [[flag aff]|]; [|done].
  match goal with |- context [copy_taken ?e ?f ?a ?j ?n ?o] => pose proof (copy_taken_shape e f a j n o H) as Hs; destruct (copy_taken e f a j n o) as [[ok k] o'] end.
  by destruct ok.
Qed.

Lemma CheckRegionMatched_sound input out example out' :
  region_shape out -> CheckRegionMatched input out example = (true, out') -> restored input example out'.
Proof.
  intros Hs E. pose proof (CheckRegionMatched_shape input out example Hs) as Hs'. rewrite E in Hs'. cbn [snd] in Hs'. split; [done|]. revert E.
  unfold CheckRegionMatched. change MEM_TOPOLOGY_MAX_HOSTS with 16%Z.
  destruct (Z.ltb_spec (rd_num example) 0), (Z.ltb_spec 16 (rd_num example)); cbn [orb]; try done.
  destruct (negb (Nat.eqb _ _)); [done|]. destruct (Z.ltb _ _); cbn [orb]; [done|].
  destruct (match_nodes _ _ _ _ _) as [[flag aff]|] eqn:Em; [|done].
  set (num := Z.to_nat (rd_num example)) in *. set (out1 := mkRegionDesc _ _ _ _ _ _).
  destruct (copy_taken example flag aff (seq 0 num) 0 out1) as [[ok n] o] eqn:Ec. destruct ok; cbn [negb]; [|done]. intros [= <-].
  apply match_nodes_taken in Em as [idx Ht]; [|rewrite length_replicate; lia..].
  pose proof (taken_indices _ _ num _ _ _ _ ltac:(lia) Ht) as Hperm. pose proof (taken_nodes _ _ _ _ _ _ _ _ Ht) as [Hn Hp].
  apply copy_taken_true in Ec; [|done | rewrite length_seq; lia]. cbv zeta in Ec. destruct Ec as (-> & _ & _ & E1 & E2 & E3).
  set (js := List.filter (fun i => flag !!! i) (seq 0 num)) in *. cbn [Nat.add] in E1, E2, E3. rewrite take_0 in E1. rewrite take_0 in E2. rewrite take_0 in E3. cbn [app] in E1, E2, E3.
  assert (Hlen : length js <= 16). { etransitivity; [apply List.filter_length_le|]. rewrite length_seq. lia. }
  split.
  - exists ((fun i => id_value (rd_nodeId example !!! i)) <$> js), ((fun i => aff !!! i) <$> js). split.
    + apply ToNodeIds_Some; [done|]. cbn [rd_num rd_nodeId rd_affinity]. cbn [Nat.add]. rewrite Nat2Z.id. split_and!; [lia | lia | | by rewrite E3].
      rewrite E1, Forall2_fmap_l, Forall2_fmap_r. apply Forall_Forall2_diag. by rewrite Hperm.
    + rewrite zip_fmap_pair, Hperm. by rewrite Hn.
  - exists js. split.
    + apply sublist_filter_bool.
    + unfold nodes_of. cbn [rd_num rd_nodeId rd_hostName rd_affinity]. rewrite Nat2Z.id. cbn [Nat.add].
      rewrite E1, E2, E3, zip_fmap_pair, fst_zip by (rewrite !length_fmap; lia). done.
Qed.

(** A region as [LookupRegionList] lists it: ids are numbers, strings fit. *)
Definition well_listed (r : SHMRegionDesc) : Prop :=
  region_shape r /\ (0 <= rd_num r <= 16)%Z /\
  Forall (fun i => parsed (rd_nodeId r !!! i) (id_value (rd_nodeId r !!! i)) /\ fits MEM_MAX_ID_LENGTH (rd_nodeId r !!! i) = true /\
                   fits MAX_HOST_NAME_DESC_LENGTH (rd_hostName r !!! i) = true) (seq 0 (Z.to_nat (rd_num r))).

(** The region has a node with each recorded id. *)
Definition covers (r : SHMRegionDesc) (ids : list Z) : Prop :=
  forall n, n ∈ ids -> exists i, i < Z.to_nat (rd_num r) /\ parsed (rd_nodeId r !!! i) n.

Lemma covers_length r ids : NoDup ids -> covers r ids -> length ids <= Z.to_nat (rd_num r).
Proof.
  intros Hn Hc. rewrite <- (length_seq (Z.to_nat (rd_num r)) 0), <- (length_fmap (fun i : nat => id_value (rd_nodeId r !!! i))).
  apply submseteq_length, NoDup_submseteq; [done|]. intros n Hin. destruct (Hc n Hin) as (i & Hi & Hp). apply list_elem_of_fmap. exists i.
  split; [|apply elem_of_seq; lia]. unfold id_value, parsed in *. by rewrite Hp.
Qed.

Lemma CheckRegionMatched_complete input out example :
  length (cri_nodeIds input) = length (cri_affinity input) -> NoDup (cri_nodeIds input) -> well_listed example ->
  covers example (cri_nodeIds input) -> (CheckRegionMatched input out example).1 = true.
Proof.
  intros Hl Hnd (Hs & Hr & Hok) Hc. pose proof (covers_length _ _ Hnd Hc) as Hlen. unfold CheckRegionMatched. change MEM_TOPOLOGY_MAX_HOSTS with 16%Z.
  rewrite (proj2 (Z.ltb_ge _ _)), (proj2 (Z.ltb_ge 16 _)), Hl, Nat.eqb_refl, <- Hl, (proj2 (Z.ltb_ge _ _)) by lia. cbn [orb negb].
  set (num := Z.to_nat (rd_num example)) in *. assert (Hfst : (zip (cri_nodeIds input) (cri_affinity input)).*1 = cri_nodeIds input) by (apply fst_zip; lia).
  destruct (match_nodes_finds (zip (cri_nodeIds input) (cri_affinity input)) (rd_nodeId example) num (replicate 16 false) (replicate 16 false)
              (fun i => id_value (rd_nodeId example !!! i))) as [[flag aff] Em].
  - rewrite length_replicate. lia.
  - eapply Forall_impl; [exact Hok|]. by intros i [? _].
  - by rewrite Hfst.
  - rewrite Hfst. intros n Hn. destruct (Hc n Hn) as (i & Hi & Hp). exists i. split_and!; [done | apply lookup_total_replicate_2; lia |].
    unfold id_value, parsed in *. by rewrite Hp.
  - rewrite Em. match goal with |- context [copy_taken ?e ?f ?a ?j ?n ?o] =>
      pose proof (copy_taken_fits e f a j n o) as Hf; destruct (copy_taken e f a j n o) as [[ok k] o'] end.
    cbn [fst] in Hf. rewrite Hf; [done|]. eapply Forall_impl; [exact Hok|]. intros i (_ & ? & ?). done.
Qed.

(** ** Matching all regions *)

Lemma match_regions_sound input out examples r :
  region_shape out -> match_regions input out examples = Some r -> exists example, example ∈ examples /\ restored input example r.
Proof.
  revert out. induction examples as [|ex examples IH]; intros out Hs; cbn [match_regions]; [done|].
  pose proof (CheckRegionMatched_shape input out ex Hs) as Hs'. destruct (CheckRegionMatched input out ex) as [[] o] eqn:E; cbn [snd] in Hs'.
  - intros [= <-]. exists ex. split; [by left | exact (CheckRegionMatched_sound _ _ _ _ Hs E)].
  - intros (e & He & Hr)%IH; [|done]. exists e. split; [by right | done].
Qed.

Lemma match_regions_complete input out examples :
  length (cri_nodeIds input) = length (cri_affinity input) -> NoDup (cri_nodeIds input) ->
  (exists example, example ∈ examples /\ well_listed example /\ covers example (cri_nodeIds input)) -> is_Some (match_regions input out examples).
Proof.
  intros Hl Hnd. revert out. induction examples as [|ex examples IH]; intros out (e & He & Hw & Hc); [by apply elem_of_nil in He|].
  cbn [match_regions]. apply elem_of_cons in He as [->|He].
  - pose proof (CheckRegionMatched_complete input out ex Hl Hnd Hw Hc) as E. destruct (CheckRegionMatched input out ex) as [ok o]. cbn [fst] in E. subst. by eexists.
  - destruct (CheckRegionMatched input out ex) as [[] o]; [by eexists|]. apply IH. by exists e.
Qed.

(** A match needs all recorded nodes. *)
Lemma match_regions_covered input out examples r :
  region_shape out -> length (cri_nodeIds input) = length (cri_affinity input) -> Forall region_shape examples ->
  match_regions input out examples = Some r -> exists example, example ∈ examples /\ covers example (cri_nodeIds input).
Proof.
  intros Hs Hl Hex Hm. destruct (match_regions_sound _ _ _ _ Hs Hm) as (ex & Hin & Hsr & (ids & affs & Ht & Hperm) & js & Hsub & Hnodes).
  exists ex. split; [done|]. intros n Hn. apply ToNodeIds_Some in Ht as (Hr & Hp & ->); [|done]. destruct Hsr as (Ha & Hi & Hh).
  set (k := Z.to_nat (rd_num r)) in *. pose proof (Forall2_length _ _ _ Hp) as Hlen. rewrite length_take in Hlen.
  assert (Hids : n ∈ ids).
  { assert (Hfst : (zip ids (take k (rd_affinity r))).*1 = ids) by (apply fst_zip; rewrite length_take; lia).
    rewrite <- Hfst, Hperm, fst_zip by lia. done. }
  apply list_elem_of_lookup in Hids as [m Hm']. destruct (Forall2_lookup_r _ _ _ _ _ Hp Hm') as (s & Es & Hps).
  assert (Hnd : (nodes_of r).*1.*1 = take k (rd_nodeId r)).
  { unfold nodes_of. fold k. rewrite fst_zip, fst_zip; [done | rewrite !length_take; lia | rewrite length_zip_with, !length_take; lia]. }
  rewrite <- Hnd, Hnodes, <- list_fmap_compose, list_lookup_fmap in Es. destruct (js !! m) as [i|] eqn:Ei; [|done].
  injection Es as <-. exists i. split; [|done].
  assert (Hin' : i ∈ seq 0 (Z.to_nat (rd_num ex))) by (eapply elem_of_sublist; [by eapply list_elem_of_lookup_2 | done]).
  apply elem_of_seq in Hin'. lia.
Qed.
