(* ===== verification/RegionInv.v ===== *)
(** The region manager's map and the region records: which record belongs to a
    region, what each request does to both, and what recovery makes of the records.

    Everything is proved for any record store behind the interface. *)

From S2P Require Import Prelude StoreTypes IdPool IdPoolSpec RecordAllocator RecordStore StoreTable StoreInv StoreSteps StoreRestart StoreSpec RegionNodes StoreTheorems MsgPacker MsgCodec MsgBase StoreInterface Daemon NodeAddress RegionTypes Topology RegionService RegionMatch.

(** ** The record of a region *)

(** A record as the store lists it: nodes in increasing order, each once. *)
Record canonical (c : CreateRegionInput) : Prop := {
  cn_ok : region_input_ok c = true;
  cn_pos : Forall (fun n => 0 <= n)%Z (cri_nodeIds c);
  cn_fix : canonical_region c = c;
}.

Lemma input_ok_iff i :
  region_input_ok i = true <->
  Forall (fun n => n < REGION_NODE_BITMAP_COUNT)%Z (cri_nodeIds i) /\ length (cri_nodeIds i) = length (cri_affinity i).
Proof.
  unfold region_input_ok. rewrite andb_true_iff, negb_true_iff, Nat.eqb_eq, <- not_true_iff_false, existsb_exists, Forall_forall.
  split; intros [H1 H2]; (split; [|done]).
  - intros n Hn. apply Z.nle_gt. intros Hle. apply H1. exists n. split; [by apply list_elem_of_In | by apply Z.leb_le].
  - intros (n & Hn%list_elem_of_In & Hle%Z.leb_le). specialize (H1 n Hn). lia.
Qed.

(** Only the pairs of node and affinity matter, not their order. *)
Lemma canonical_region_same i j :
  region_input_ok i = true -> region_input_ok j = true ->
  Forall (fun n => 0 <= n)%Z (cri_nodeIds i) -> Forall (fun n => 0 <= n)%Z (cri_nodeIds j) ->
  cri_name i = cri_name j -> cri_size i = cri_size j ->
  (forall n, n ∈ cri_nodeIds i <-> n ∈ cri_nodeIds j) ->
  (forall n, (n, true) ∈ zip (cri_nodeIds i) (cri_affinity i) <-> (n, true) ∈ zip (cri_nodeIds j) (cri_affinity j)) ->
  canonical_region i = canonical_region j.
Proof.
  intros Hi Hj Pi Pj En Es Hn Ha. rewrite !canonical_region_nodes by done.
  assert (El : listed_nodes i = listed_nodes j) by (unfold listed_nodes; apply List.filter_ext; intros n; by apply bool_decide_ext).
  rewrite En, Es, El. f_equal. apply list_fmap_ext. intros k n _. by apply bool_decide_ext.
Qed.

Lemma elem_of_zip_map {A B} (f : A -> B) l x b : (x, b) ∈ zip l (f <$> l) <-> x ∈ l /\ f x = b.
Proof.
  induction l as [|y l IH]; [rewrite fmap_nil; split; [by intros ?%elem_of_nil | by intros [?%elem_of_nil _]]|].
  rewrite fmap_cons. cbn [zip zip_with]. rewrite !elem_of_cons, IH. split.
  - intros [[= -> ->]|[? ?]]; auto.
  - intros [[->|?] <-]; auto.
Qed.

Lemma canonical_region_canonical i :
  region_input_ok i = true -> Forall (fun n => 0 <= n)%Z (cri_nodeIds i) -> canonical (canonical_region i).
Proof.
  intros Hi Pi. pose proof (canonical_region_nodes i Hi Pi) as E. apply input_ok_iff in Hi as [Hlt Hlen]. rewrite Forall_forall in Hlt, Pi.
  assert (Hl : forall n, n ∈ listed_nodes i <-> n ∈ cri_nodeIds i).
  { intros n. unfold listed_nodes. rewrite list_elem_of_In, List.filter_In, <- list_elem_of_In, bool_decide_eq_true, elem_of_seqZ. split; [by intros [_ ?]|].
    intros Hn. specialize (Hlt n Hn). specialize (Pi n Hn). split; [lia | done]. }
  assert (Hok : region_input_ok (canonical_region i) = true).
  { rewrite E. apply input_ok_iff. cbn [cri_nodeIds cri_affinity]. rewrite length_fmap. split; [|done]. apply Forall_forall. intros n ?%Hl. by apply Hlt. }
  assert (Hpos : Forall (fun n => 0 <= n)%Z (cri_nodeIds (canonical_region i))).
  { rewrite E. cbn [cri_nodeIds]. apply Forall_forall. intros n ?%Hl. by apply Pi. }
  split; [done | done |]. apply canonical_region_same; try done; [by apply input_ok_iff; rewrite Forall_forall | by apply Forall_forall | by rewrite E | by rewrite E | |].
  - intros n. rewrite E. apply Hl.
  - intros n. rewrite E. cbn [cri_nodeIds cri_affinity]. rewrite elem_of_zip_map, bool_decide_eq_true. split; [by intros [_ ?]|].
    intros Hn. split; [|done]. apply Hl. by apply elem_of_zip_l in Hn.
Qed.

Lemma canonical_nodup c : canonical c -> NoDup (cri_nodeIds c).
Proof.
  intros [Hok Hpos Hfix]. rewrite <- Hfix, canonical_region_nodes by done. cbn [cri_nodeIds]. unfold listed_nodes.
  apply NoDup_ListNoDup, List.NoDup_filter, NoDup_ListNoDup, NoDup_seqZ.
Qed.

Lemma canonical_perm c ids affs :
  canonical c -> length ids = length affs -> zip ids affs ≡ₚ zip (cri_nodeIds c) (cri_affinity c) ->
  let i := mkCreateRegionInput (cri_name c) (cri_size c) ids affs in region_input_ok i = true /\ canonical_region i = c.
Proof.
  intros [Hok Hpos Hfix] Hl Hp i. pose proof (proj1 (input_ok_iff c) Hok) as [Hlt Hlc].
  assert (Hids : ids ≡ₚ cri_nodeIds c).
  { rewrite <- (fst_zip ids affs), <- (fst_zip (cri_nodeIds c) (cri_affinity c)) by lia. by rewrite Hp. }
  assert (Hi : region_input_ok i = true) by (apply input_ok_iff; cbn; split; [by rewrite Hids | done]).
  split; [done|]. etransitivity; [|exact Hfix]. apply canonical_region_same; try done; cbn; [by rewrite Hids | intros n; by rewrite Hids | intros n; by rewrite Hp].
Qed.

(** The record that a region has, if it can have one. *)
Definition record_of (r : RegionInfo) : option CreateRegionInput :=
  '(ids, affs) ← ToNodeIds (ri_region r);
  let i := mkCreateRegionInput (ri_name r) (ri_size r) ids affs in
  if region_input_ok i then Some (canonical_region i) else None.

Lemma ToNodeIds_pos r ids affs : region_shape r -> ToNodeIds r = Some (ids, affs) -> Forall (fun n => 0 <= n)%Z ids.
Proof.
  intros Hs (_ & Hp & _)%ToNodeIds_Some; [|done]. apply Forall_forall. intros n (k & Hk)%list_elem_of_lookup.
  destruct (Forall2_lookup_r _ _ _ _ _ Hp Hk) as (s & _ & Hps). apply parsed_range in Hps. lia.
Qed.

Lemma record_of_canonical r c : region_shape (ri_region r) -> record_of r = Some c -> canonical c /\ cri_name c = ri_name r.
Proof.
  intros Hs. unfold record_of. destruct (ToNodeIds (ri_region r)) as [[ids affs]|] eqn:E; [|done]. cbn [mbind option_bind].
  destruct (region_input_ok _) eqn:Hok; [|done]. intros [= <-]. pose proof (ToNodeIds_pos _ _ _ Hs E) as Hp.
  split; [by apply canonical_region_canonical|]. by rewrite canonical_region_nodes.
Qed.

(** A restored region has the record it was restored from. *)
Lemma restored_record c example region :
  canonical c -> restored c example region -> record_of (mkRegionInfo (cri_name c) (cri_size c) region) = Some c.
Proof.
  intros Hc (Hs & (ids & affs & Ht & Hp) & _). unfold record_of. cbn [ri_region ri_name ri_size]. rewrite Ht. cbn [mbind option_bind].
  assert (Hl : length ids = length affs).
  { apply ToNodeIds_Some in Ht as (? & Hf & ->); [|done]. apply Forall2_length in Hf. rewrite <- Hf, !length_take. destruct Hs as (-> & -> & _). done. }
  destruct (canonical_perm c ids affs Hc Hl Hp) as [-> ->]. done.
Qed.

(** ** Agreement *)

(** Every region of the map has its record, under its own name, and there is no other record. *)
Definition regions_agree (m : gmap string RegionInfo) (X : gmap string CreateRegionInput) : Prop :=
  (forall n, X !! n = m !! n ≫= record_of) /\
  (forall n r, m !! n = Some r -> ri_name r = n /\ region_shape (ri_region r) /\ is_Some (record_of r)).

Lemma agree_empty : regions_agree ∅ ∅.
Proof. split; intros n; by rewrite ?lookup_empty. Qed.

Lemma regions_agree_insert m X r c :
  regions_agree m X -> region_shape (ri_region r) -> record_of r = Some c -> regions_agree (<[ri_name r := r]> m) (<[ri_name r := c]> X).
Proof.
  intros [H1 H2] Hs Hr. split.
  - intros n. destruct (decide (n = ri_name r)) as [->|Hn]; [by rewrite !lookup_insert_eq|]. by rewrite !lookup_insert_ne.
  - intros n r' [[<- <-]|[_ E]]%lookup_insert_Some; [split_and!; eauto | by apply H2].
Qed.

Lemma agree_delete m X n : regions_agree m X -> regions_agree (delete n m) (delete n X).
Proof.
  intros [H1 H2]. split.
  - intros k. destruct (decide (k = n)) as [->|Hn]; [by rewrite !lookup_delete_eq|]. by rewrite !lookup_delete_ne.
  - intros k r [_ E]%lookup_delete_Some. by apply H2.
Qed.

Lemma agree_dom m X n : regions_agree m X -> m !! n = None <-> X !! n = None.
Proof.
  intros [H1 H2]. rewrite H1. destruct (m !! n) as [r|] eqn:E; [|done]. cbn. destruct (H2 n r E) as (_ & _ & [c ->]). done.
Qed.

Lemma agree_size m X : regions_agree m X -> size m = size X.
Proof.
  intros H. rewrite <- !(size_dom (D := gset string)). f_equal. apply set_eq. intros n. rewrite !elem_of_dom, <- !not_eq_None_Some.
  by rewrite (agree_dom _ _ n H).
Qed.

Lemma agree_records m X n c : regions_agree m X -> X !! n = Some c -> canonical c /\ cri_name c = n.
Proof.
  intros [H1 H2]. rewrite H1. destruct (m !! n) as [r|] eqn:E; [|done]. cbn. intros Hr. destruct (H2 n r E) as (<- & Hs & _).
  by apply record_of_canonical.
Qed.

(** ** Requests *)

Section Requests.
Context {G : Geometry} {S : Type} `{!RecordStoreAPI S} `{!RecordStoreLaws S}.
Implicit Types (v : Service S).

Definition records v : gmap string CreateRegionInput := a_regions (view (store_ (sv_daemon v))).

Definition good_service v : Prop := valid (store_ (sv_daemon v)) /\ regions_agree (mRegionMap v) (records v).

Definition put_store v (s : S) : Service S :=
  let d := sv_daemon v in
  mkService (mkDaemon (attachedShareMemory_ d) s (delayedRemoveKeys d) (delayedRemoveKeysByName d) (engine_trace d) (leases_ d)) (mRegionMap v) (nodeId_ v).

Definition put_regions v (m : gmap string RegionInfo) : Service S := mkService (sv_daemon v) m (nodeId_ v).

Lemma lift_call o v : lift (call o) v = ((exec o (store_ (sv_daemon v))).1, put_store v (exec o (store_ (sv_daemon v))).2).
Proof. unfold lift, call, put_store. by destruct (exec o (store_ (sv_daemon v))) as [r s]. Qed.

(** A region can be recorded. *)
Definition can_record (r : RegionInfo) (X : gmap string CreateRegionInput) : Prop :=
  is_Some (record_of r) /\ X !! ri_name r = None /\ size X < REGION_MAX_RECORD.

#[export] Instance can_record_dec r X : Decision (can_record r X).
Proof. unfold can_record. apply _. Defined.

Lemma UpdateRegionInfo_spec r v :
  valid (store_ (sv_daemon v)) -> good_name (ri_name r) ->
  exists s, valid s /\
    if decide (can_record r (records v)) then
      UpdateRegionInfo r v = (true, put_store v s) /\ exists c, record_of r = Some c /\ a_regions (view s) = <[ri_name r := c]> (records v)
    else UpdateRegionInfo r v = (false, put_store v s) /\ a_regions (view s) = records v.
Proof.
  intros V Hg. unfold UpdateRegionInfo. destruct (ToNodeIds (ri_region r)) as [[ids affs]|] eqn:Et.
  - set (i := mkCreateRegionInput _ _ _ _). exists (exec (OpAddRegion i) (store_ (sv_daemon v))).2.
    assert (Hok : op_ok (OpAddRegion i)) by done. split; [by apply exec_valid|]. unfold sbind. rewrite lift_call.
    pose proof (exec_view _ (OpAddRegion i) V Hok) as E. cbn [spec_run] in E.
    assert (Er : record_of r = if region_input_ok i then Some (canonical_region i) else None).
    { unfold record_of. by rewrite Et. }
    destruct (decide (can_record r (records v))) as [(Hs & Hn & Hsz)|Hno].
    + rewrite Er in Hs. destruct (region_input_ok i) eqn:Hi; [|by destruct Hs]. rewrite decide_True in E by done. injection E as <- <-.
      split; [done|]. exists (canonical_region i). by rewrite Er.
    + rewrite decide_False in E; [injection E as <- <-; done|]. intros (Hi & Hn & Hsz). apply Hno. split_and!; [|done | done]. rewrite Er, Hi. by eexists.
  - exists (store_ (sv_daemon v)). split; [done|]. rewrite decide_False; [by destruct v as [[]]|]. intros ([c Hc] & _). unfold record_of in Hc. by rewrite Et in Hc.
Qed.

Lemma RemoveRegionInfo_spec n v :
  valid (store_ (sv_daemon v)) ->
  exists s, valid s /\ RemoveRegionInfo n v = (bool_decide (is_Some (records v !! n)), put_store v s) /\
    a_regions (view s) = delete n (records v).
Proof.
  intros V. unfold RemoveRegionInfo, sbind. rewrite lift_call. exists (exec (OpDelRegion n) (store_ (sv_daemon v))).2.
  split; [by apply exec_valid|]. pose proof (exec_view _ (OpDelRegion n) V I) as E. cbn [spec_run] in E. fold (records v) in E.
  destruct (decide (records v !! n = None)) as [Hn|Hn]; injection E as <- <-.
  - rewrite bool_decide_eq_false_2 by (rewrite Hn; apply is_Some_None). split; [done|]. symmetry. by apply delete_id.
  - rewrite bool_decide_eq_true_2 by (by apply not_eq_None_Some). done.
Qed.

Lemma CreateRegionInfo_spec r v :
  good_service v -> good_name (ri_name r) -> region_shape (ri_region r) ->
  exists v', good_service v' /\
    if decide (can_record r (records v)) then
      CreateRegionInfo r v = (true, v') /\ mRegionMap v' = <[ri_name r := r]> (mRegionMap v) /\ is_Some (records v' !! ri_name r)
    else CreateRegionInfo r v = (false, v') /\ mRegionMap v' = mRegionMap v /\ records v' = records v.
Proof.
  intros [V A] Hg Hs. destruct (mRegionMap v !! ri_name r) as [r0|] eqn:Em.
  - exists v. split; [done|]. rewrite decide_False; [unfold CreateRegionInfo, sbind, get_regions; by rewrite Em|].
    intros (_ & Hn & _). apply (agree_dom _ _ _ A) in Hn. congruence.
  - set (v1 := put_regions v (<[ri_name r := r]> (mRegionMap v))).
    assert (Hrun : CreateRegionInfo r v = let '(res, v2) := UpdateRegionInfo r v1 in
                     if negb res then (false, put_regions v2 (delete (ri_name r) (mRegionMap v2))) else (true, v2)).
    { unfold CreateRegionInfo, sbind, get_regions. rewrite Em. cbn [set_regions]. change (mkService (sv_daemon v) (<[ri_name r := r]> (mRegionMap v)) (nodeId_ v)) with v1.
      by destruct (UpdateRegionInfo r v1) as [[] v2]. }
    destruct (UpdateRegionInfo_spec r v1 V Hg) as (s & Vs & Hu). change (records v1) with (records v) in Hu.
    destruct (decide (can_record r (records v))) as [Hcan|Hcan]; rewrite Hrun.
    + destruct Hu as (-> & c & Hc & Ex). exists (put_store v1 s). cbn [negb]. unfold good_service, records at 1 2. cbn. rewrite Ex.
      split_and!; [done | by apply regions_agree_insert | done | done | rewrite lookup_insert_eq; by eexists].
    + destruct Hu as (-> & Ex). exists (put_store v s). cbn [negb]. unfold good_service, records at 1 2. cbn [put_store sv_daemon store_ mRegionMap]. rewrite Ex.
      split_and!; [done | done | | done | done]. unfold put_regions. cbn. by rewrite delete_insert_id by done.
Qed.

Lemma DeleteRegionInfo_spec n v :
  good_service v ->
  exists v', good_service v' /\ DeleteRegionInfo n v = (bool_decide (is_Some (mRegionMap v !! n)), v') /\
    mRegionMap v' = delete n (mRegionMap v) /\ records v' = delete n (records v).
Proof.
  intros [V A]. destruct (mRegionMap v !! n) as [r|] eqn:Em.
  - set (v1 := put_regions v (delete n (mRegionMap v))). destruct (RemoveRegionInfo_spec n v1 V) as (s & Vs & Hr & Ex).
    change (records v1) with (records v) in Hr, Ex.
    assert (Hsome : is_Some (records v !! n)) by (apply not_eq_None_Some; intros Hn; apply (agree_dom _ _ _ A) in Hn; congruence).
    rewrite bool_decide_eq_true_2 in Hr by done. rewrite bool_decide_eq_true_2 by (by eexists).
    assert (Hrun : DeleteRegionInfo n v = (true, put_store v1 s)).
    { unfold DeleteRegionInfo, sbind, get_regions. rewrite Em. cbn [set_regions]. change (mkService (sv_daemon v) (delete n (mRegionMap v)) (nodeId_ v)) with v1.
      by rewrite Hr. }
    exists (put_store v1 s). rewrite Hrun. unfold good_service. change (records (put_store v1 s)) with (a_regions (view s)). rewrite Ex.
    split_and!; [done | by apply agree_delete | done..].
  - exists v. rewrite bool_decide_eq_false_2 by apply is_Some_None. split; [done|]. split; [|split; [by rewrite delete_id|]].
    + unfold DeleteRegionInfo, sbind, get_regions. by rewrite Em.
    + symmetry. apply delete_id. by apply (agree_dom _ _ _ A).
Qed.

End Requests.

(** ** Recovery *)

Section Recovery.
Context {G : Geometry} {S : Type} `{!RecordStoreAPI S} `{!RecordStoreLaws S}.
Implicit Types (v : Service S).

Lemma put_regions_map v m : mRegionMap (put_regions v m) = m.
Proof. done. Qed.

(** The recovered regions are entered under their names. *)
Lemma enter_regions_spec rs v :
  NoDup (ri_name <$> rs) -> (forall r, r ∈ rs -> mRegionMap v !! ri_name r = None) ->
  exists m, enter_regions rs v = (true, put_regions v m) /\ (forall r, r ∈ rs -> m !! ri_name r = Some r) /\
    (forall n, n ∉ ri_name <$> rs -> m !! n = mRegionMap v !! n).
Proof.
  revert v. induction rs as [|r rs IH]; intros v Hnd Hno.
  - exists (mRegionMap v). split; [by destruct v|]. split; [by intros r ?%elem_of_nil | done].
  - rewrite fmap_cons in Hnd. apply NoDup_cons in Hnd as [Hr Hnd]. cbn [enter_regions]. unfold sbind, get_regions. rewrite Hno by (by left). cbn [set_regions].
    destruct (IH (put_regions v (<[ri_name r := r]> (mRegionMap v))) Hnd) as (m & E & H1 & H2).
    { intros r' Hr'. rewrite put_regions_map, lookup_insert_ne; [apply Hno; by right|]. intros Heq. apply Hr. rewrite Heq. by apply list_elem_of_fmap_2. }
    exists m. split; [exact E|]. split.
    + intros r' [->|Hr']%elem_of_cons; [|by apply H1]. rewrite H2 by done. by rewrite put_regions_map, lookup_insert_eq.
    + intros n. rewrite fmap_cons, not_elem_of_cons. intros [Hn1 Hn2]. rewrite H2 by done. by rewrite put_regions_map, lookup_insert_ne.
Qed.

(** The regions of the topology that recovery compares with. *)
Definition examples (rl : SHMRegions) : list SHMRegionDesc := take (Z.to_nat (rs_num rl)) (rs_region rl).

Lemma trans_restored c fresh rl r :
  region_shape fresh -> TransRecordToRegionCache c fresh rl = Some r ->
  ri_name r = cri_name c /\ ri_size r = cri_size c /\ exists example, example ∈ examples rl /\ restored c example (ri_region r).
Proof.
  intros Hs. unfold TransRecordToRegionCache. destruct (match_regions _ _ _) as [region|] eqn:E; [|done]. cbn. intros [= <-].
  split; [done|]. split; [done|]. cbn. by eapply match_regions_sound.
Qed.

Lemma trans_record c fresh rl r :
  region_shape fresh -> canonical c -> TransRecordToRegionCache c fresh rl = Some r -> region_shape (ri_region r) /\ record_of r = Some c.
Proof.
  intros Hs Hc Ht. destruct (trans_restored _ _ _ _ Hs Ht) as (En & Es & ex & _ & Hr). split; [apply Hr|].
  destruct r as [n s region]. cbn in *. subst. by eapply restored_record.
Qed.

(** The topology has a region for every record. *)
Definition recoverable (t : Topology) (junk : SHMRegions) (fresh : string -> SHMRegionDesc) v : Prop :=
  (LookupRegionList t junk).1 = 0%Z /\
  forall n c, records v !! n = Some c -> is_Some (TransRecordToRegionCache c (fresh n) (LookupRegionList t junk).2).

Lemma recovery_run t junk fresh v :
  good_service v ->
  let rl := (LookupRegionList t junk).2 in
  RegionRecovery t junk fresh (put_regions v ∅) =
    if negb (Z.eqb (LookupRegionList t junk).1 0) then (MXM_ERR_PARAM_INVALID, put_regions v ∅)
    else match mapM (fun c => TransRecordToRegionCache c (fresh (cri_name c)) rl) (map_to_list (records v)).*2 with
         | None => (MXM_ERR_PARAM_INVALID, put_regions v ∅)
         | Some rs => let '(ok, v') := enter_regions rs (put_regions v ∅) in (if negb ok then MXM_ERR_PARAM_INVALID else MXM_OK, v')
         end.
Proof.
  intros [V _] rl. unfold RegionRecovery, RecoverFromRamFS, RegionService.Recovery, sbind, lift, query. cbn [put_regions sv_daemon].
  rewrite (list_regions_view _ V). fold (records v). subst rl. destruct (LookupRegionList t junk) as [hr rl]. cbn [fst snd].
  destruct (negb (Z.eqb hr 0)); [done|]. destruct (mapM _ _); done.
Qed.

(** All regions are back, with their records. *)
Lemma recovery_success t junk fresh v :
  good_service v -> (forall n, region_shape (fresh n)) -> recoverable t junk fresh v ->
  exists m, RegionRecovery t junk fresh (put_regions v ∅) = (MXM_OK, put_regions v m) /\ regions_agree m (records v) /\
    forall n c, records v !! n = Some c -> m !! n = TransRecordToRegionCache c (fresh n) (LookupRegionList t junk).2.
Proof.
  intros Hg Hf [E0 Hall]. rewrite recovery_run by done. rewrite E0. cbn [Z.eqb negb]. set (rl := (LookupRegionList t junk).2) in *.
  destruct Hg as [V A]. assert (Hrec : forall c, c ∈ (map_to_list (records v)).*2 <-> records v !! cri_name c = Some c).
  { intros c. rewrite list_elem_of_fmap. split.
    - intros ([n c'] & -> & Hin%elem_of_map_to_list). cbn. by destruct (agree_records _ _ _ _ A Hin) as [_ ->].
    - intros E. exists (cri_name c, c). by rewrite elem_of_map_to_list. }
  destruct (mapM _ _) as [rs|] eqn:Em.
  - apply mapM_Some in Em. set (L := (map_to_list (records v)).*2) in *.
    assert (Hnames : ri_name <$> rs = cri_name <$> L).
    { symmetry. apply list_eq_Forall2, Forall2_fmap. eapply Forall2_impl; [exact Em|]. cbn. intros c r Ht. apply trans_restored in Ht as [-> _]; [done | apply Hf]. }
    assert (Hnd : NoDup (ri_name <$> rs)).
    { rewrite Hnames. subst L. rewrite <- list_fmap_compose. erewrite list_fmap_ext; [apply (NoDup_fst_map_to_list (records v))|].
      intros i [n c] Hi%list_elem_of_lookup_2%elem_of_map_to_list. cbn. by destruct (agree_records _ _ _ _ A Hi) as [_ ->]. }
    destruct (enter_regions_spec rs (put_regions v ∅) Hnd) as (m & -> & H1 & H2); [intros r _; apply lookup_empty|]. cbn [negb].
    exists m. split; [done|].
    assert (Hm : forall n c, records v !! n = Some c -> m !! n = TransRecordToRegionCache c (fresh n) rl).
    { intros n c E. destruct (agree_records _ _ _ _ A E) as [_ Hn]. subst n. assert (Hc : c ∈ L) by (by apply Hrec).
      apply list_elem_of_lookup in Hc as [k Hk]. destruct (Forall2_lookup_l _ _ _ _ _ Em Hk) as (r & Hr & Ht). rewrite Ht.
      apply list_elem_of_lookup_2 in Hr. apply H1 in Hr. apply trans_restored in Ht as [<- _]; [done | apply Hf]. }
    assert (Hnone : forall n, records v !! n = None -> m !! n = None).
    { intros n E. rewrite H2; [apply lookup_empty|]. rewrite Hnames, list_elem_of_fmap. intros (c & -> & Hc%Hrec). congruence. }
    split; [|done]. split.
    + intros n. destruct (records v !! n) as [c|] eqn:E; [|by rewrite Hnone]. rewrite (Hm n c E). destruct (Hall n c E) as [r Hr]. rewrite Hr. cbn.
      destruct (agree_records _ _ _ _ A E) as [Hc _]. symmetry. by apply (trans_record _ _ _ _ (Hf n) Hc Hr).
    + intros n r Er. destruct (records v !! n) as [c|] eqn:E; [|by rewrite Hnone in Er]. rewrite (Hm n c E) in Er.
      destruct (agree_records _ _ _ _ A E) as [Hc Hn]. destruct (trans_record _ _ _ _ (Hf n) Hc Er) as [Hs Hr].
      destruct (trans_restored _ _ _ _ (Hf n) Er) as [-> _]. split_and!; [done | apply Hs.. | by eexists].
  - exfalso. apply mapM_None_1, Exists_exists in Em as (c & Hc%Hrec & Hn). destruct (Hall _ _ Hc) as [r Hr]. congruence.
Qed.

(** One region without a match, and none is recovered. *)
Lemma recovery_failure t junk fresh v :
  good_service v -> ~ recoverable t junk fresh v -> RegionRecovery t junk fresh (put_regions v ∅) = (MXM_ERR_PARAM_INVALID, put_regions v ∅).
Proof.
  intros Hg Hno. rewrite recovery_run by done. destruct (Z.eqb_spec (LookupRegionList t junk).1 0) as [E|]; cbn [negb]; [|done].
  destruct (mapM _ _) as [rs|] eqn:Em; [|done]. exfalso. apply Hno. split; [done|]. intros n c Hc. destruct Hg as [V A].
  destruct (agree_records _ _ _ _ A Hc) as [_ <-]. apply mapM_Some in Em.
  assert (Hin : c ∈ (map_to_list (records v)).*2) by (apply list_elem_of_fmap; exists (cri_name c, c); by rewrite elem_of_map_to_list).
  apply list_elem_of_lookup in Hin as [k Hk]. destruct (Forall2_lookup_l _ _ _ _ _ Em Hk) as (r & _ & ->). by eexists.
Qed.

End Recovery.
