(* ===== verification/TopologyResults.v ===== *)
(** What the topology part of the adapter computes: the neighbours of a node,
    the regions around this node, and the list of regions with host names. *)

From S2P Require Import Prelude StoreTypes IdPool IdPoolSpec RecordAllocator RecordStore StoreTable StoreInv StoreSteps StoreRestart StoreSpec RegionNodes StoreTheorems MsgPacker MsgCodec MsgBase StoreInterface Daemon NodeAddress RegionTypes Topology RegionService RegionMatch.
From stdpp Require Import sorting.

(** ** Neighbours *)

(** The links of the topology, without direction. *)
Definition linked (links : list ubs_topo_link_t) (a b : Z) : Prop :=
  exists l, l ∈ links /\ ((tl_slot_id l = a /\ tl_peer_slot_id l = b) \/ (tl_slot_id l = b /\ tl_peer_slot_id l = a)).

Definition neighbours (links : list ubs_topo_link_t) (a : Z) : gset Z :=
  default ∅ (foldl add_link ∅ links !! a).

Definition known (m : gmap Z (gset Z)) (a b : Z) : Prop := b ∈ (default ∅ (m !! a) : gset Z).

Lemma add_neighbour_known m slot peer a b :
  known (add_neighbour slot peer m) a b <-> (a = slot /\ b = peer) \/ known m a b.
Proof.
  unfold known, add_neighbour. destruct (m !! slot) as [s|] eqn:E; (destruct (decide (a = slot)) as [->|Hne];
    [rewrite lookup_insert_eq, ?E | rewrite lookup_insert_ne by done]); simpl; set_solver.
Qed.

Lemma foldl_links_known links m a b : known (foldl add_link m links) a b <-> linked links a b \/ known m a b.
Proof.
  revert m. induction links as [|l links IH]; intros m; cbn [foldl].
  - split; [auto|]. intros [(l & ?%elem_of_nil & _)|?]; done.
  - rewrite IH. unfold add_link. rewrite !add_neighbour_known. unfold linked. setoid_rewrite elem_of_cons. naive_solver.
Qed.

Lemma neighbours_linked links a b : b ∈ neighbours links a <-> linked links a b.
Proof.
  change (known (foldl add_link ∅ links) a b <-> linked links a b). rewrite foldl_links_known. split; [|auto].
  intros [?|H]; [done|]. unfold known in H. rewrite lookup_empty in H. set_solver.
Qed.

Lemma linked_sym links a b : linked links a b <-> linked links b a.
Proof. unfold linked. naive_solver. Qed.

(** No node of the map is without a neighbour. *)
Definition no_empty (m : gmap Z (gset Z)) : Prop := forall a X, m !! a = Some X -> X <> ∅.

Lemma add_neighbour_no_empty slot peer m : no_empty m -> no_empty (add_neighbour slot peer m).
Proof.
  intros Hm a X. unfold add_neighbour. destruct (m !! slot) as [Y|]; intros [[_ <-]|[_ E]]%lookup_insert_Some; try (by eapply Hm); set_solver.
Qed.

Lemma links_no_empty links m : no_empty m -> no_empty (foldl add_link m links).
Proof.
  revert m. induction links as [|l links IH]; intros m Hm; cbn [foldl]; [done|]. apply IH. by apply add_neighbour_no_empty, add_neighbour_no_empty.
Qed.

Lemma links_not_empty links a : foldl add_link ∅ links !! a <> Some ∅.
Proof. intros E. eapply (links_no_empty links ∅); [intros b X; by rewrite lookup_empty | exact E | done]. Qed.

(** ** Sets in order *)

Lemma in_order_perm X : in_order X ≡ₚ elements X.
Proof. apply merge_sort_Permutation. Qed.

Lemma in_order_elem X n : n ∈ in_order X <-> n ∈ X.
Proof. by rewrite in_order_perm, elem_of_elements. Qed.

Lemma in_order_nodup X : NoDup (in_order X).
Proof. rewrite in_order_perm. apply NoDup_elements. Qed.

Lemma in_order_length X : length (in_order X) = size X.
Proof. by rewrite in_order_perm. Qed.

Lemma in_order_nil X : in_order X = [] <-> X = ∅.
Proof.
  split; [intros H; apply leibniz_equiv, size_empty_inv; by rewrite <- in_order_length, H|]. intros ->.
  apply length_zero_iff_nil. by rewrite in_order_length, size_empty.
Qed.

(** ** One region *)

Definition slot_range (n : Z) : Prop := (0 <= n < 2 ^ 32)%Z.

Lemma slot_parsed n : slot_range n -> parsed (slot_to_string n) n.
Proof.
  intros Hn. unfold parsed, slot_to_string. assert (Hu : u32 n = n) by (by apply u32_small).
  rewrite StrToUint_decimal by (unfold ULONG_MAX, slot_range in *; rewrite ?Hu; lia). by rewrite Hu.
Qed.

Lemma to_string_length fuel n : String.length (to_string fuel n) <= fuel.
Proof.
  revert n. induction fuel as [|fuel IH]; intros n; simpl; [done|]. destruct (Z.ltb n 10); simpl; [lia|].
  specialize (IH (n / 10)%Z). rewrite string_length_app. simpl. lia.
Qed.

Lemma slot_fits n : fits MEM_MAX_ID_LENGTH (slot_to_string n) = true.
Proof. unfold fits, MEM_MAX_ID_LENGTH. apply Z.ltb_lt. pose proof (to_string_length 10 n). unfold slot_to_string. lia. Qed.

Lemma slot_string_not_empty n : slot_range n -> slot_to_string n <> "".
Proof. intros [Hn _]. unfold slot_to_string. destruct (to_string_cons 10 n) as (c & s & -> & _); [lia | done | done]. Qed.

Lemma fill_nodes_ok k items r :
  k + length items <= 16 -> length (rd_nodeId r) = 16 ->
  fill_nodes k items r =
    (MXM_OK, with_nodeIds r (take k (rd_nodeId r) ++ (slot_to_string <$> items) ++ drop (k + length items) (rd_nodeId r))).
Proof.
  revert k r. induction items as [|n items IH]; intros k r Hk Hl; cbn [fill_nodes]; cbn [length] in Hk.
  - cbn. rewrite Nat.add_0_r, take_drop. by destruct r.
  - rewrite (proj2 (Z.leb_gt _ _)) by (unfold MEM_TOPOLOGY_MAX_HOSTS; lia). rewrite slot_fits. cbn [negb].
    rewrite IH by (cbn; rewrite ?length_insert; lia). f_equal. unfold with_nodeIds. cbn [perfLevel rd_type rd_num rd_affinity rd_nodeId rd_hostName]. f_equal.
    rewrite take_insert_next, drop_insert_lt by lia. rewrite <- app_assoc, fmap_cons. cbn [app length]. by rewrite Nat.add_succ_r.
Qed.

Lemma fill_nodes_many k items r : k <= 16 -> 16 < k + length items -> (fill_nodes k items r).1 = MXM_ERR_REGION_PARAM_INVALID.
Proof.
  revert k r. induction items as [|n items IH]; intros k r Hk Hl; cbn [fill_nodes]; cbn [length] in Hl; [lia|].
  destruct (Z.leb_spec MEM_TOPOLOGY_MAX_HOSTS (Z.of_nat k)) as [|Hlt]; [done|]. rewrite slot_fits. cbn [negb]. unfold MEM_TOPOLOGY_MAX_HOSTS in Hlt. apply IH; lia.
Qed.

(** The description of a region before its hosts are known. *)
Definition region_desc (X : gset Z) : SHMRegionDesc :=
  mkRegionDesc 0 ALL2ALL_SHARE (Z.of_nat (size X)) (replicate 16 false) ((slot_to_string <$> in_order X) ++ replicate (16 - size X) "") (replicate 16 "").

Lemma FillRegionDesc_spec X :
  if decide (size X <= 16) then FillRegionDesc zero_desc X = (MXM_OK, region_desc X)
  else (FillRegionDesc zero_desc X).1 = MXM_ERR_REGION_PARAM_INVALID.
Proof.
  unfold FillRegionDesc. cbn [zero_desc rd_affinity rd_nodeId rd_hostName]. destruct (decide (size X <= 16)) as [Hs|Hs].
  - rewrite fill_nodes_ok by (rewrite ?in_order_length; done). unfold with_nodeIds, region_desc. cbn [perfLevel rd_type rd_num rd_affinity rd_nodeId rd_hostName].
    rewrite take_0, in_order_length, drop_replicate. done.
  - apply fill_nodes_many; [lia|]. rewrite in_order_length. lia.
Qed.

(** ** The regions around this node *)

(** The array lists the regions [L]. *)
Definition listing (rs : SHMRegions) (L : list SHMRegionDesc) : Prop :=
  rs_num rs = Z.of_nat (length L) /\ length (rs_region rs) = 6 /\ take (length L) (rs_region rs) = L.

Definition wanted (X : gset Z) : bool := Nat.ltb 1 (size X).

Lemma append_region_spec X rs L :
  listing rs L -> length L < 6 ->
  if wanted X then
    if decide (size X <= 16) then exists rs', append_region X rs = (0%Z, rs') /\ listing rs' (L ++ [region_desc X])
    else (append_region X rs).1 = MXM_ERR_REGION_PARAM_INVALID
  else append_region X rs = (0%Z, rs).
Proof.
  intros (Hn & Hl & Ht) HL. unfold append_region. fold (wanted X). destruct (wanted X); [|done]. pose proof (FillRegionDesc_spec X) as Hf. destruct (decide (size X <= 16)).
  - rewrite Hf. cbn [MXM_OK Z.eqb negb]. eexists. split; [done|]. unfold listing. cbn [rs_num rs_region]. rewrite Hn, Nat2Z.id, length_app, length_insert. cbn [length].
    split_and!; [lia | done |]. rewrite Nat.add_1_r, take_insert_next by lia. by rewrite Ht.
  - destruct (FillRegionDesc zero_desc X) as [r desc]. cbn [fst] in Hf. subst r. done.
Qed.

(** The neighbours that see the first neighbour, with both nodes; the other neighbours, with this node. *)
Definition first_region (links : list ubs_topo_link_t) (local first : Z) : gset Z :=
  {[first]} ∪ ({[local]} ∪ (neighbours links local ∩ neighbours links first)).

Definition second_region (links : list ubs_topo_link_t) (local first : Z) : gset Z :=
  {[local]} ∪ (neighbours links local ∖ first_region links local first).

Definition around (links : list ubs_topo_link_t) (local : Z) : list (gset Z) :=
  match in_order (neighbours links local) with
  | [] => []
  | first :: _ => List.filter wanted [first_region links local first; second_region links local first]
  end.

(** The engine answers for this node and its links. *)
Record topology_known (t : Topology) (local : Z) (links : list ubs_topo_link_t) : Prop := {
  tk_loaded : eng_loaded t = true;
  tk_local : pUbseNodeLocalGet t = (0%Z, local);
  tk_links : pUbseTopLinkList t = (0%Z, Some links);
  tk_bound : length links <= UBS_TOPO_MAX_CPU_LINK_NUM;
}.

Lemma append_two rs X Y :
  listing rs [] ->
  if decide (Forall (fun X => size X <= 16) (List.filter wanted [X; Y])) then
    exists rs1 rs2, append_region X rs = (0%Z, rs1) /\ append_region Y rs1 = (0%Z, rs2) /\ listing rs2 (region_desc <$> List.filter wanted [X; Y])
  else
    (append_region X rs).1 = MXM_ERR_REGION_PARAM_INVALID \/
    exists rs1, append_region X rs = (0%Z, rs1) /\ (append_region Y rs1).1 = MXM_ERR_REGION_PARAM_INVALID.
Proof.
  intros H0. pose proof (append_region_spec X rs [] H0 ltac:(cbn; lia)) as HX. cbn [List.filter]. destruct (wanted X) eqn:EX.
  - destruct (decide (size X <= 16)) as [HsX|HsX].
    + destruct HX as (rs1 & E1 & L1). pose proof (append_region_spec Y rs1 _ L1 ltac:(cbn; lia)) as HY. destruct (wanted Y) eqn:EY.
      * destruct (decide (size Y <= 16)) as [HsY|HsY].
        -- destruct HY as (rs2 & E2 & L2). rewrite decide_True by (rewrite ?Forall_cons, ?Forall_nil; done). by exists rs1, rs2.
        -- rewrite decide_False by (intros H; inversion H as [|?? _ H']; by inversion H'). right. by exists rs1.
      * rewrite decide_True by (rewrite ?Forall_cons, ?Forall_nil; done). by exists rs1, rs1.
    + rewrite decide_False by (intros H; by inversion H). by left.
  - pose proof (append_region_spec Y rs [] H0 ltac:(cbn; lia)) as HY. destruct (wanted Y) eqn:EY.
    + destruct (decide (size Y <= 16)) as [HsY|HsY].
      * destruct HY as (rs2 & E2 & L2). rewrite decide_True by (rewrite ?Forall_cons, ?Forall_nil; done). by exists rs, rs2.
      * rewrite decide_False by (intros H; by inversion H). right. by exists rs.
    + rewrite decide_True by constructor. by exists rs, rs.
Qed.

Lemma InitializeRegionList_spec t local links :
  topology_known t local links ->
  if decide (around links local <> [] /\ Forall (fun X => size X <= 16) (around links local)) then
    exists rs, InitializeRegionList t zero_regions = (UBSM_OK, rs) /\ listing rs (region_desc <$> around links local)
  else (InitializeRegionList t zero_regions).1 = MXM_ERR_REGION_PARAM_INVALID.
Proof.
  intros [H1 H2 H3 H4]. unfold InitializeRegionList. rewrite H1, H2, H3. cbn [negb Z.eqb]. rewrite (proj2 (Nat.ltb_ge _ _)) by done.
  unfold around, second_region, first_region, neighbours. pose proof (links_not_empty links local) as Hne.
  destruct (foldl add_link ∅ links !! local) as [mine|] eqn:Em; cbn [default from_option id]; [|by rewrite (proj2 (in_order_nil ∅) eq_refl), decide_False by (by intros [? _])].
  destruct (in_order mine) as [|first rest] eqn:Eo; [by apply in_order_nil in Eo; subst|].
  set (X := {[first]} ∪ ({[local]} ∪ (mine ∩ default ∅ (foldl add_link ∅ links !! first)))). set (Y := {[local]} ∪ (mine ∖ X)).
  change (rs_region zero_regions) with (replicate 6 zero_desc). set (rs := mkRegions 0 (replicate 6 zero_desc)).
  assert (H0 : listing rs []) by done. pose proof (append_two rs X Y H0) as H. destruct (decide (Forall _ _)) as [Hall|Hall].
  - destruct H as (rs1 & rs2 & E1 & E2 & L). rewrite E1. cbn [Z.eqb negb]. rewrite E2. cbn [Z.eqb negb].
    pose proof L as (Hn & _ & _). rewrite length_fmap in Hn. destruct (Z.eqb_spec (rs_num rs2) 0) as [Hz|Hz].
    + rewrite decide_False; [done|]. intros [Hf _]. apply Hf. change (List.filter wanted [X; Y] = []). destruct (List.filter wanted [X; Y]); [done | cbn in Hn; lia].
    + rewrite decide_True; [by exists rs2|]. split; [|done]. intros Hf. change (List.filter wanted [X; Y] = []) in Hf. rewrite Hf in Hn. done.
  - rewrite decide_False by (by intros [_ ?]). destruct H as [H|(rs1 & E1 & H)].
    + destruct (append_region X rs) as [r rs1]. cbn [fst] in H. subst r. done.
    + rewrite E1. cbn [Z.eqb negb]. destruct (append_region Y rs1) as [r rs2]. cbn [fst] in H. subst r. done.
Qed.

(** ** Host names *)

Lemma listing_lookup rs L i x : listing rs L -> L !! i = Some x -> rs_region rs !!! i = x.
Proof.
  intros (_ & _ & Ht) Hi. apply list_lookup_total_correct. rewrite <- Ht in Hi. by apply lookup_take_Some in Hi as [? _].
Qed.

Lemma listing_insert rs L i x : listing rs L -> listing (mkRegions (rs_num rs) (<[i := x]> (rs_region rs))) (<[i := x]> L).
Proof.
  intros (Hn & Hl & Ht). unfold listing. cbn [rs_num rs_region]. rewrite !length_insert. split_and!; [done | done |].
  destruct (decide (i < length L)) as [Hi|Hi].
  - by rewrite take_insert_lt, Ht by lia.
  - rewrite take_insert_ge by lia. rewrite Ht. by rewrite list_insert_ge by lia.
Qed.

Lemma name_nodes_spec hosts js r es :
  (forall n h, hosts !! n = Some h -> fits MAX_HOST_NAME_DESC_LENGTH h = true) -> Forall (fun j => j < length (rd_hostName r) /\ parsed (rd_nodeId r !!! j) (es j)) js ->
  exists h, name_nodes hosts js r = (MXM_OK, with_hosts r h) /\ length h = length (rd_hostName r) /\
    forall j, h !!! j = if decide (j ∈ js) then default (rd_hostName r !!! j) (hosts !! es j) else rd_hostName r !!! j.
Proof.
  intros Hf. revert r. induction js as [|j js IH]; intros r Hp; cbn [name_nodes].
  - exists (rd_hostName r). split; [by destruct r|]. split; [done|]. intros j. by rewrite decide_False by apply not_elem_of_nil.
  - apply Forall_cons in Hp as [[Hj Hpj] Hp]. unfold parsed in Hpj. rewrite Hpj. cbn [negb]. destruct (hosts !! es j) as [host|] eqn:Eh.
    + rewrite (Hf _ _ Eh). cbn [negb]. set (r1 := with_hosts r (<[j := host]> (rd_hostName r))).
      destruct (IH r1) as (h & -> & Hl & Hh); [cbn; rewrite length_insert; exact Hp|]. exists h. split; [done|]. cbn in Hl, Hh. rewrite length_insert in Hl. split; [done|].
      intros i. rewrite Hh, lookup_total_insert_16 by done. destruct (decide (i = j)) as [->|Hne].
      * rewrite (decide_True (P := j ∈ j :: js)) by (by left). rewrite Eh. by destruct (decide (j ∈ js)).
      * destruct (decide (i ∈ js)); [rewrite decide_True by (by right) | rewrite decide_False by (rewrite elem_of_cons; naive_solver)]; done.
    + destruct (IH r Hp) as (h & -> & Hl & Hh). exists h. split; [done|]. split; [done|]. intros i. rewrite Hh. destruct (decide (i = j)) as [->|Hne].
      * rewrite (decide_True (P := j ∈ j :: js)) by (by left). rewrite Eh. by destruct (decide (j ∈ js)).
      * destruct (decide (i ∈ js)); [rewrite decide_True by (by right) | rewrite decide_False by (rewrite elem_of_cons; naive_solver)]; done.
Qed.

(** The description of a region with its hosts; a node without one has the empty name. *)
Definition host_of (hosts : gmap Z string) (n : Z) : string := default "" (hosts !! n).

Definition named_desc (hosts : gmap Z string) (X : gset Z) : SHMRegionDesc :=
  with_hosts (region_desc X) ((host_of hosts <$> in_order X) ++ replicate (16 - size X) "").

Lemma lookup_total_padded {A} `{Inhabited A} (l : list A) k x j :
  j < length l + k -> (l ++ replicate k x) !!! j = if decide (j < length l) then l !!! j else x.
Proof.
  intros Hj. destruct (decide (j < length l)) as [Hl|Hl]; [by apply lookup_total_app_l|]. rewrite lookup_total_app_r by lia.
  apply lookup_total_replicate_2. lia.
Qed.

Lemma lookup_total_map {A B} `{Inhabited A} `{Inhabited B} (f : A -> B) l i : i < length l -> (f <$> l) !!! i = f (l !!! i).
Proof. intros Hi. by apply list_lookup_total_fmap. Qed.

Lemma name_region_desc hosts X :
  (forall n h, hosts !! n = Some h -> fits MAX_HOST_NAME_DESC_LENGTH h = true) -> size X <= 16 -> (forall n, n ∈ X -> slot_range n) ->
  name_nodes hosts (seq 0 (Z.to_nat (rd_num (region_desc X)))) (region_desc X) = (MXM_OK, named_desc hosts X).
Proof.
  intros Hf Hs Hr. cbn [region_desc rd_num]. rewrite Nat2Z.id. pose proof (in_order_length X) as Hl.
  destruct (name_nodes_spec hosts (seq 0 (size X)) (region_desc X) (fun j => in_order X !!! j) Hf) as (h & -> & Hlen & Hh).
  - apply Forall_forall. intros j Hj%elem_of_seq. cbn [region_desc rd_hostName rd_nodeId]. split; [rewrite length_replicate; lia|].
    rewrite lookup_total_app_l by (rewrite length_fmap; lia). rewrite lookup_total_map by lia. apply slot_parsed, Hr, in_order_elem.
    apply list_elem_of_lookup_total_2. lia.
  - unfold named_desc. do 2 f_equal. cbn [region_desc rd_hostName] in Hlen, Hh. rewrite length_replicate in Hlen.
    apply list_eq_same_length with (n := 16); [rewrite length_app, length_fmap, length_replicate; lia | done |].
    intros j x y Hj Hx Hy. rewrite <- (list_lookup_total_correct _ _ _ Hx), <- (list_lookup_total_correct _ _ _ Hy), Hh, lookup_total_padded by (rewrite length_fmap; lia).
    rewrite length_fmap, Hl, lookup_total_replicate_2 by done. destruct (decide (j < size X)) as [Hlt|Hge].
    + rewrite decide_True by (apply elem_of_seq; lia). by rewrite lookup_total_map by lia.
    + rewrite decide_False; [done|]. intros ?%elem_of_seq. lia.
Qed.

Lemma name_regions_spec hosts old Xs rs :
  (forall n h, hosts !! n = Some h -> fits MAX_HOST_NAME_DESC_LENGTH h = true) ->
  Forall (fun X => size X <= 16 /\ forall n, n ∈ X -> slot_range n) Xs -> listing rs (old ++ (region_desc <$> Xs)) ->
  exists rs', name_regions hosts (seq (length old) (length Xs)) rs = (MXM_OK, rs') /\ listing rs' (old ++ (named_desc hosts <$> Xs)).
Proof.
  intros Hf HX. revert old rs. induction HX as [|X Xs [Hs Hr] HX IH]; intros old rs HL; cbn [length seq name_regions]; [by exists rs|].
  assert (Hat : (old ++ (region_desc <$> X :: Xs)) !! length old = Some (region_desc X)) by (by rewrite lookup_app_r, Nat.sub_diag by done).
  rewrite (listing_lookup _ _ _ _ HL Hat). change MEM_TOPOLOGY_MAX_HOSTS with 16%Z.
  assert (Hnum : (0 <= rd_num (region_desc X) <= 16)%Z) by (cbn; lia). rewrite (proj2 (Z.ltb_ge _ _)), (proj2 (Z.ltb_ge 16 _)) by lia. cbn [orb].
  rewrite (name_region_desc hosts X Hf Hs Hr). cbn [MXM_OK Z.eqb negb]. pose proof (listing_insert _ _ (length old) (named_desc hosts X) HL) as HL'.
  rewrite insert_app_r_alt, Nat.sub_diag in HL' by done. rewrite fmap_cons in HL'. cbn [list_insert insert] in HL'.
  destruct (IH (old ++ [named_desc hosts X]) _ ltac:(rewrite <- app_assoc; exact HL')) as (rs' & E' & L'). rewrite length_app, Nat.add_1_r in E'.
  exists rs'. split; [exact E'|]. by rewrite <- app_assoc in L'.
Qed.

(** ** Copying *)

(** The nodes that are copied: those with an id and a host name. *)
Definition shown (nd : string * string) : bool := negb (bool_decide (nd.1 = "") || bool_decide (nd.2 = "")).

Definition node_at (r : SHMRegionDesc) (j : nat) : string * string := (rd_nodeId r !!! j, rd_hostName r !!! j).

(** The first [n] nodes of a description, with their hosts. *)
Definition first_nodes (r : SHMRegionDesc) (n : nat) : list (string * string) := zip (take n (rd_nodeId r)) (take n (rd_hostName r)).

Lemma nodes_first r : region_shape r -> (nodes_of r).*1 = first_nodes r (Z.to_nat (rd_num r)).
Proof. intros (Ha & Hi & Hh). unfold nodes_of, first_nodes. apply fst_zip. rewrite length_zip_with, !length_take. lia. Qed.

Lemma first_nodes_seq r n : n <= length (rd_nodeId r) -> n <= length (rd_hostName r) -> first_nodes r n = node_at r <$> seq 0 n.
Proof. intros H1 H2. unfold first_nodes. rewrite <- !seq_lookup_take by done. apply zip_fmap_pair. Qed.

Lemma first_nodes_grow r k nd :
  region_shape r -> k < 16 ->
  first_nodes (with_hosts (with_nodeIds r (<[k := nd.1]> (rd_nodeId r))) (<[k := nd.2]> (rd_hostName r))) (S k) = first_nodes r k ++ [nd].
Proof.
  intros (_ & Hi & Hh) Hk. unfold first_nodes. cbn. rewrite !take_insert_next by lia. rewrite zip_with_app by (rewrite !length_take; lia).
  by destruct nd.
Qed.

Lemma copy_active_spec region js cnt a :
  region_shape a -> cnt + length js <= 16 ->
  let nodes := List.filter shown (node_at region <$> js) in
  exists a', copy_active region js cnt a = (cnt + length nodes, a') /\ region_shape a' /\ perfLevel a' = perfLevel a /\ rd_type a' = rd_type a /\
    rd_affinity a' = rd_affinity a /\ first_nodes a' (cnt + length nodes) = first_nodes a cnt ++ nodes.
Proof.
  revert cnt a. induction js as [|j js IH]; intros cnt a Hs Hc; cbn [copy_active length] in *.
  - exists a. cbv zeta. cbn. rewrite Nat.add_0_r, app_nil_r. done.
  - rewrite fmap_cons. cbn [List.filter].
    change (shown (node_at region j)) with (negb (bool_decide (rd_nodeId region !!! j = "") || bool_decide (rd_hostName region !!! j = ""))).
    destruct (bool_decide (rd_nodeId region !!! j = "") || bool_decide (rd_hostName region !!! j = "")); cbn [negb]; [apply IH; [done | lia]|].
    set (a1 := with_hosts _ _). assert (Hs1 : region_shape a1) by (unfold region_shape; cbn; rewrite !length_insert; exact Hs).
    destruct (IH (S cnt) a1 Hs1 ltac:(lia)) as (a' & E & Hs' & H1 & H2 & H3 & H4). exists a'. cbv zeta in *. cbn [length]. rewrite Nat.add_succ_r.
    split_and!; [exact E | apply Hs'.. | done | done | done |]. rewrite Nat.add_succ_l in H4. rewrite H4.
    pose proof (first_nodes_grow a cnt (node_at region j) Hs ltac:(lia)) as Hg.
    change (first_nodes a1 (S cnt) = first_nodes a cnt ++ [node_at region j]) in Hg. rewrite Hg. by rewrite <- app_assoc.
Qed.

(** What is shown of a static region. *)
Definition visible (r : SHMRegionDesc) : list (string * string) := List.filter shown (first_nodes r (Z.to_nat (rd_num r))).

Definition not_nil {A} (l : list A) : bool := match l with [] => false | _ => true end.

(** [active] holds the regions [A] at its front. *)
Definition holds (active : SHMRegions) (A : list SHMRegionDesc) : Prop :=
  length (rs_region active) = 6 /\ Forall region_shape (rs_region active) /\ take (length A) (rs_region active) = A.

Definition shows (r : SHMRegionDesc) (nodes : list (string * string)) : Prop :=
  region_shape r /\ rd_num r = Z.of_nat (length nodes) /\ first_nodes r (length nodes) = nodes.

Lemma copy_regions_spec static done todo active A :
  listing static (done ++ todo) -> Forall (fun r => region_shape r /\ (0 <= rd_num r <= 16)%Z) todo ->
  holds active A -> length A <= length done ->
  exists active' B, copy_regions static (seq (length done) (length todo)) (length A) active = (UBSM_OK, active') /\
    rs_num active' = Z.of_nat (length (A ++ B)) /\ holds active' (A ++ B) /\ Forall2 shows B (List.filter not_nil (visible <$> todo)).
Proof.
  intros HL Hok. revert done active A HL. induction Hok as [|r todo [Hs Hr] Hok IH]; intros done active A HL HA Hlen; cbn [length seq copy_regions].
  - exists (mkRegions (Z.of_nat (length A)) (rs_region active)), []. rewrite app_nil_r. split_and!; [done | done | apply HA.. | constructor].
  - assert (Hat : (done ++ r :: todo) !! length done = Some r) by (by rewrite lookup_app_r, Nat.sub_diag by done).
    rewrite (listing_lookup _ _ _ _ HL Hat). change MEM_TOPOLOGY_MAX_HOSTS with 16%Z. rewrite (proj2 (Z.ltb_ge 16 _)) by lia.
    destruct HA as (H6 & Hsh & Ht). assert (Hd6 : length done < 6).
    { destruct HL as (_ & Hl & Htk). apply (f_equal length) in Htk. rewrite length_take, length_app in Htk. cbn [length] in Htk. lia. }
    set (a0 := rs_region active !!! length A). assert (Ha0 : region_shape a0) by (rewrite Forall_lookup_total in Hsh; apply Hsh; lia).
    set (a1 := mkRegionDesc _ _ _ _ _ _). assert (Ha1 : region_shape a1) by exact Ha0.
    destruct (copy_active_spec r (seq 0 (Z.to_nat (rd_num r))) 0 a1 Ha1 ltac:(rewrite length_seq; lia)) as (a2 & E & Hs2 & _ & _ & _ & Hn).
    cbn [Nat.add] in E, Hn. rewrite <- first_nodes_seq in E, Hn by (destruct Hs as (_ & ? & ?); lia). fold (visible r) in E, Hn. rewrite E.
    replace (first_nodes a1 0 ++ visible r) with (visible r) in Hn by done.
    set (a3 := mkRegionDesc (perfLevel a2) _ _ _ _ _). assert (Hshow : shows a3 (visible r)) by (by split_and!).
    set (act1 := mkRegions (rs_num active) (<[length A := a3]> (rs_region active))).
    assert (Hhold : forall A', take (length A') (rs_region act1) = A' -> holds act1 A').
    { intros A' HA'. split_and!; [cbn; by rewrite length_insert | cbn; apply Forall_insert; [done | apply Hshow] | done]. }
    rewrite fmap_cons. cbn [List.filter]. replace (Nat.eqb (length (visible r)) 0) with (negb (not_nil (visible r))) by (by destruct (visible r)).
    destruct (not_nil (visible r)) eqn:En; cbn [negb].
    + destruct (IH (done ++ [r]) act1 (A ++ [a3])) as (act' & B & E' & Hnum & Hh & HB).
      * by rewrite <- app_assoc.
      * apply Hhold. rewrite length_app. cbn [length]. rewrite Nat.add_1_r. unfold act1. cbn [rs_region]. rewrite take_insert_next by lia. by rewrite Ht.
      * rewrite !length_app. cbn. lia.
      * rewrite !length_app, !Nat.add_1_r in E'. exists act', (a3 :: B). rewrite <- app_assoc in Hnum, Hh. split_and!; [exact E' | done | apply Hh.. |].
        by constructor.
    + destruct (IH (done ++ [r]) act1 A) as (act' & B & E' & Hnum & Hh & HB).
      * by rewrite <- app_assoc.
      * apply Hhold. unfold act1. cbn [rs_region]. by rewrite take_insert_ge by lia.
      * rewrite length_app. cbn. lia.
      * rewrite length_app, Nat.add_1_r in E'. by exists act', B.
Qed.

(** ** The list of regions *)

(** The nodes of a set that have a host name, as they are listed. *)
Definition shown_nodes (hosts : gmap Z string) (X : gset Z) : list (string * string) :=
  List.filter shown ((fun n => (slot_to_string n, host_of hosts n)) <$> in_order X).

Lemma take_padded {A} (l : list A) k x : take (length l) (l ++ replicate k x) = l.
Proof. by rewrite take_app_length. Qed.

Lemma named_desc_nodes hosts X :
  size X <= 16 ->
  region_shape (named_desc hosts X) /\ rd_num (named_desc hosts X) = Z.of_nat (size X) /\ visible (named_desc hosts X) = shown_nodes hosts X.
Proof.
  intros Hs. pose proof (in_order_length X) as Hl. split; [|split; [done|]].
  - unfold region_shape, named_desc, region_desc. cbn. rewrite !length_app, !length_fmap, Hl, !length_replicate. lia.
  - unfold visible, shown_nodes, first_nodes, named_desc, region_desc, with_hosts. cbn [rd_num rd_nodeId rd_hostName]. rewrite Nat2Z.id.
    replace (size X) with (length (slot_to_string <$> in_order X)) at 1 by (by rewrite length_fmap).
    replace (size X) with (length (host_of hosts <$> in_order X)) at 2 by (by rewrite length_fmap). rewrite !take_padded.
    by rewrite zip_fmap_pair.
Qed.

Lemma host_map_from nodes n h : slotToHostName nodes !! n = Some h -> exists x, x ∈ nodes /\ tn_slot_id x = n /\ tn_host_name x = h.
Proof.
  assert (H : forall m : gmap Z string, foldl (fun m x => <[tn_slot_id x := tn_host_name x]> m) m nodes !! n = Some h ->
              (exists x, x ∈ nodes /\ tn_slot_id x = n /\ tn_host_name x = h) \/ m !! n = Some h).
  { induction nodes as [|y nodes IH]; intros m; cbn [foldl]; [auto|]. intros [(x & Hx & ?)|[[<- <-]|[_ ?]]%lookup_insert_Some]%IH; [|left|auto].
    - left. exists x. by rewrite elem_of_cons; auto.
    - exists y. by rewrite elem_of_cons; auto. }
  intros [?|E]%(H ∅); [done|]. by rewrite lookup_empty in E.
Qed.

(** The engine answers with a list of at least two nodes, and host names end
    with a null character within the array that holds them. *)
Record hosts_known (t : Topology) (nodes : list ubs_topo_node_t) : Prop := {
  hk_list : node_list t = inr nodes;
  hk_two : MIN_NODE_NUM <= length nodes;
  hk_fit : forall x, x ∈ nodes -> fits MAX_HOST_NAME_DESC_LENGTH (tn_host_name x) = true;
}.

Lemma hosts_fit t nodes n h : hosts_known t nodes -> slotToHostName nodes !! n = Some h -> fits MAX_HOST_NAME_DESC_LENGTH h = true.
Proof. intros [_ _ Hf] (x & Hx & _ & <-)%host_map_from. by apply Hf. Qed.

Definition links_in_range (links : list ubs_topo_link_t) : Prop :=
  forall l, l ∈ links -> slot_range (tl_slot_id l) /\ slot_range (tl_peer_slot_id l).

Lemma neighbours_range links a b : links_in_range links -> b ∈ neighbours links a -> slot_range a /\ slot_range b.
Proof. intros Hr (l & Hl & [[<- <-]|[<- <-]])%neighbours_linked; destruct (Hr l Hl); done. Qed.

(** Every set around this node contains it; a neighbour is in exactly one. *)
Lemma around_sets links local X :
  X ∈ around links local -> local ∈ X /\ (forall n, n ∈ X -> n = local \/ n ∈ neighbours links local) /\ 1 < size X.
Proof.
  unfold around. destruct (in_order (neighbours links local)) as [|first rest] eqn:Eo; [by intros ?%elem_of_nil|].
  assert (Hf : first ∈ neighbours links local) by (apply in_order_elem; rewrite Eo; by left).
  rewrite list_elem_of_In, List.filter_In, <- list_elem_of_In. intros [Hin Hw%Nat.ltb_lt]. split_and!; [| |done].
  - rewrite !elem_of_cons in Hin. unfold first_region, second_region in Hin. destruct Hin as [->|[->|?%elem_of_nil]]; [set_solver | set_solver | done].
  - intros n. rewrite !elem_of_cons in Hin. unfold first_region, second_region in Hin. destruct Hin as [->|[->|?%elem_of_nil]]; [set_solver | set_solver | done].
Qed.

Lemma around_range links local X n : links_in_range links -> X ∈ around links local -> n ∈ X -> slot_range n.
Proof.
  intros Hr HX Hn. assert (Hl : exists b, b ∈ neighbours links local).
  { unfold around in HX. destruct (in_order (neighbours links local)) as [|b rest] eqn:E; [by apply elem_of_nil in HX|]. exists b. apply in_order_elem. rewrite E. by left. }
  destruct Hl as [b Hb]. apply around_sets in HX as (_ & H & _). destruct (H n Hn) as [->|Hn']; [by apply (neighbours_range links local b) | by apply (neighbours_range links local n)].
Qed.

Lemma LookupRegionList_spec (t : Topology) local links nodes junk :
  eng_Initialize t = 0%Z -> topology_known t local links -> hosts_known t nodes -> links_in_range links -> holds junk [] ->
  around links local <> [] -> Forall (fun X => size X <= 16) (around links local) ->
  exists rl B, LookupRegionList t junk = (UBSM_OK, rl) /\ rs_num rl = Z.of_nat (length B) /\ holds rl B /\
    Forall2 shows B (List.filter not_nil (shown_nodes (slotToHostName nodes) <$> around links local)).
Proof.
  intros H0 HT HH Hr HJ Hne Hsz. set (hosts := slotToHostName nodes). set (Xs := around links local) in *. unfold LookupRegionList. rewrite H0. cbn [Z.eqb negb].
  pose proof (InitializeRegionList_spec t local links HT) as HI. rewrite decide_True in HI by done. destruct HI as (rs & -> & HL). cbn [UBSM_OK Z.eqb negb].
  unfold PopulateHostNameMap. destruct HT as [Hload _ _ _]. pose proof HH as [Hnl H2 _]. rewrite Hload, Hnl. cbn [negb]. rewrite (proj2 (Nat.ltb_ge _ _)) by done.
  pose proof HL as (Hnum & H6 & Htk). rewrite length_fmap in Hnum. fold Xs in Hnum.
  assert (Hlen : length Xs <= 6). { apply (f_equal length) in Htk. rewrite length_take, !length_fmap in Htk. fold Xs in Htk. lia. }
  change MAX_REGIONS_NUM with 6%Z. rewrite Hnum, (proj2 (Z.ltb_ge _ _)), (proj2 (Z.ltb_ge 6 _)), Nat2Z.id by lia. cbn [orb].
  destruct (name_regions_spec hosts [] Xs rs) as (rs2 & E2 & HL2).
  - intros n h. by apply (hosts_fit t).
  - apply Forall_forall. intros X HX. rewrite Forall_forall in Hsz. split; [by apply Hsz|]. intros n. by apply around_range with (links := links) (local := local).
  - exact HL.
  - cbn [length] in E2. subst hosts. rewrite E2. cbn [MXM_OK UBSM_OK Z.eqb negb]. unfold CheckAndCopyRegionStatus. change MAX_REGIONS_NUM with 6%Z.
    set (hosts := slotToHostName nodes) in *. pose proof HL2 as (Hnum2 & _ & _). cbn [app] in Hnum2, HL2. rewrite length_fmap in Hnum2.
    rewrite Hnum2, (proj2 (Z.ltb_ge 6 _)), Nat2Z.id by lia.
    destruct (copy_regions_spec rs2 [] (named_desc hosts <$> Xs) junk []) as (act & B & E & Hn & Hh & HB); [done | | done | done |].
    + apply Forall_fmap, Forall_forall. intros X HX. rewrite Forall_forall in Hsz. specialize (Hsz X HX).
      destruct (named_desc_nodes hosts X Hsz) as (Hsh & Hx & _). cbv beta. unfold compose. rewrite Hx. split; [exact Hsh | lia].
    + rewrite length_fmap in E. cbn [length app] in E, Hn, Hh. exists act, B. rewrite E. split_and!; [done | done | apply Hh.. |].
      replace (visible <$> (named_desc hosts <$> Xs)) with (shown_nodes hosts <$> Xs) in HB; [done|]. rewrite <- list_fmap_compose. apply list_fmap_ext.
      intros i X HX%list_elem_of_lookup_2. rewrite Forall_forall in Hsz. cbn. by destruct (named_desc_nodes hosts X (Hsz X HX)) as (_ & _ & ->).
Qed.
