(* ===== verification/RegionTheorems.v ===== *)
(** What the region service guarantees: the regions it lists, what creating and
    destroying regions does, and that regions survive a restart of the daemon.

    The theorems hold for every record store behind [RecordStoreLaws]; the
    witnesses run them on the one of [record_store.cpp]. *)

From S2P Require Import Prelude StoreTypes IdPool IdPoolSpec RecordAllocator RecordStore StoreTable StoreInv StoreSteps StoreRestart StoreSpec RegionNodes StoreTheorems MsgPacker MsgCodec MsgBase StoreInterface Daemon NodeAddress RegionTypes Topology RegionService RegionMatch RegionInv TopologyResults.

(** ** The listed regions *)

Lemma slot_to_string_inj a b : slot_range a -> slot_range b -> slot_to_string a = slot_to_string b -> a = b.
Proof. intros Ha Hb E. apply slot_parsed in Ha, Hb. unfold parsed in *. rewrite E in Ha. congruence. Qed.

(** A node of the set that has a host name. *)
Definition hosted (hosts : gmap Z string) (n : Z) : Prop := host_of hosts n <> "".

Lemma shown_nodes_elem hosts X s h :
  (forall n, n ∈ X -> slot_range n) -> (s, h) ∈ shown_nodes hosts X <-> exists n, n ∈ X /\ hosted hosts n /\ s = slot_to_string n /\ h = host_of hosts n.
Proof.
  intros Hr. unfold shown_nodes. rewrite list_elem_of_In, List.filter_In, <- list_elem_of_In, list_elem_of_fmap. unfold shown, hosted. split.
  - intros [(n & [= -> ->] & Hn%in_order_elem) Hs]. cbn in Hs. exists n. split_and!; [done | | done | done].
    intros E. rewrite E in Hs. by rewrite (bool_decide_eq_true_2 ("" = "")), orb_true_r in Hs.
  - intros (n & Hn & Hh & -> & ->). split; [exists n; by rewrite in_order_elem|]. cbn.
    rewrite !bool_decide_eq_false_2; [done | done | by apply slot_string_not_empty, Hr].
Qed.

Lemma shows_first r nodes : shows r nodes -> (nodes_of r).*1 = nodes.
Proof. intros (Hs & Hn & Hf). rewrite nodes_first by done. by rewrite Hn, Nat2Z.id. Qed.

(** A listed region is well formed, and has the hosted nodes of its set. *)
Lemma shows_listed hosts X r :
  (forall n, n ∈ X -> slot_range n) -> (forall n h, hosts !! n = Some h -> fits MAX_HOST_NAME_DESC_LENGTH h = true) -> size X <= 16 ->
  shows r (shown_nodes hosts X) -> well_listed r /\ forall ids, covers r ids <-> forall n, n ∈ ids -> n ∈ X /\ hosted hosts n.
Proof.
  intros Hr Hf Hs Hsh. pose proof (shows_first _ _ Hsh) as Hnodes. destruct Hsh as (Hshape & Hn & Hfirst).
  assert (Hlen : length (shown_nodes hosts X) <= 16).
  { unfold shown_nodes. etransitivity; [apply List.filter_length_le|]. by rewrite length_fmap, in_order_length. }
  pose proof Hshape as (Ha & Hi & Hh). rewrite first_nodes_seq in Hfirst by lia.
  assert (Hat : forall i, i < length (shown_nodes hosts X) -> exists n, n ∈ X /\ hosted hosts n /\ node_at r i = (slot_to_string n, host_of hosts n)).
  { intros i Hil. assert (Hin : node_at r i ∈ shown_nodes hosts X) by (rewrite <- Hfirst; apply list_elem_of_fmap_2, elem_of_seq; lia).
    destruct (node_at r i) as [s h] eqn:E. apply shown_nodes_elem in Hin as (n & H1 & H2 & -> & ->); [|done]. by exists n. }
  split.
  - split; [done|]. rewrite Hn. split; [lia|]. apply Forall_forall. intros i Hil%elem_of_seq. rewrite Nat2Z.id in Hil. destruct (Hat i) as (n & HX & Hho & E); [lia|].
    injection E as E1 E2. rewrite E1, E2. pose proof (slot_parsed n (Hr n HX)) as Hp. split_and!; [|apply slot_fits|].
    + unfold id_value, parsed in *. by rewrite Hp.
    + unfold host_of. destruct (hosts !! n) eqn:Eh; [by eapply Hf | done].
  - intros ids. unfold covers. rewrite Hn, Nat2Z.id. split.
    + intros Hc n Hin. destruct (Hc n Hin) as (i & Hil & Hp). destruct (Hat i Hil) as (m & HX & Hho & E). injection E as E1 _. rewrite E1 in Hp.
      pose proof (slot_parsed m (Hr m HX)) as Hpm. unfold parsed in *. rewrite Hpm in Hp. by injection Hp as <-.
    + intros Hc n Hin. destruct (Hc n Hin) as [HX Hho]. assert (Hel : (slot_to_string n, host_of hosts n) ∈ shown_nodes hosts X) by (apply shown_nodes_elem; [done|]; by exists n).
      rewrite <- Hfirst, list_elem_of_fmap in Hel. destruct Hel as (i & E & Hil%elem_of_seq). injection E as E1 _. exists i. split; [lia|].
      rewrite <- E1. by apply slot_parsed, Hr.
Qed.

(** Of two things one has the property; then exactly one of those that are kept has it. *)
Lemma pair_once {A} (p : A -> bool) (has : A -> Prop) X Y :
  (has X -> p X = true) -> (has Y -> p Y = true) -> ~ (has X /\ has Y) -> has X \/ has Y ->
  exists i Z, List.filter p [X; Y] !! i = Some Z /\ has Z /\ forall j W, List.filter p [X; Y] !! j = Some W -> has W -> j = i.
Proof.
  intros H1 H2 Hd [HX|HY]; cbn [List.filter].
  - exists 0, X. rewrite H1 by done. split; [done|]. split; [done|]. intros [|j] W Hj Hw; [done|].
    exfalso. apply Hd. split; [done|]. destruct (p Y), j as [|j]; cbn in Hj; by simplify_eq.
  - rewrite H2 by done. destruct (p X).
    + exists 1, Y. split; [done|]. split; [done|]. intros [|[|]] W Hj Hw; cbn in Hj; simplify_eq; [|done]. exfalso. by apply Hd.
    + exists 0, Y. split; [done|]. split; [done|]. by intros [|] W Hj Hw.
Qed.

(** A hosted neighbour is in exactly one of the sets that are listed. *)
Lemma around_once hosts links local n :
  links_in_range links -> n <> local -> n ∈ neighbours links local -> hosted hosts n ->
  exists i X, List.filter (fun X => not_nil (shown_nodes hosts X)) (around links local) !! i = Some X /\ n ∈ X /\
    forall j Y, List.filter (fun X => not_nil (shown_nodes hosts X)) (around links local) !! j = Some Y -> n ∈ Y -> j = i.
Proof.
  intros Hr Hne Hn Hho. unfold around. destruct (in_order (neighbours links local)) as [|first rest] eqn:Eo; [apply in_order_elem in Hn; rewrite Eo in Hn; by apply elem_of_nil in Hn|].
  assert (Hfirst : first ∈ neighbours links local) by (apply in_order_elem; rewrite Eo; by left).
  set (X := first_region links local first). set (Y := second_region links local first). rewrite filter_filter.
  assert (Hsub : forall Z, Z = X \/ Z = Y -> forall m, m ∈ Z -> slot_range m).
  { intros Z HZ m Hm. assert (m = local \/ m ∈ neighbours links local) as [->|Hm'] by (destruct HZ as [->| ->]; unfold X, Y, first_region, second_region in *; set_solver);
      [by apply (neighbours_range links local n) | by apply (neighbours_range links local m)]. }
  assert (Hw : forall Z, Z = X \/ Z = Y -> n ∈ Z -> wanted Z && not_nil (shown_nodes hosts Z) = true).
  { intros Z HZ H2. apply andb_true_iff. split.
    - unfold wanted. apply Nat.ltb_lt. assert (Hs : {[local; n]} ⊆ Z) by (destruct HZ as [->| ->]; unfold X, Y, first_region, second_region in *; set_solver).
      apply subseteq_size in Hs. rewrite size_union, !size_singleton in Hs by set_solver. lia.
    - assert (Hel : (slot_to_string n, host_of hosts n) ∈ shown_nodes hosts Z) by (apply shown_nodes_elem; [by apply Hsub|]; by exists n).
      destruct (shown_nodes hosts Z); [by apply elem_of_nil in Hel | done]. }
  apply (pair_once _ (fun Z => n ∈ Z)); [auto | auto | |]; unfold Y, second_region; fold X; [set_solver | destruct (decide (n ∈ X)); set_solver].
Qed.

(** The answers of the engine and the system from which regions are made: the
    library is loaded, this node, its links and the nodes are known, and the regions
    have at most sixteen nodes. *)
Record cluster_known (t : Topology) (local : Z) (links : list ubs_topo_link_t) (nodes : list ubs_topo_node_t) : Prop := {
  ck_init : eng_Initialize t = 0%Z;
  ck_topology : topology_known t local links;
  ck_hosts : hosts_known t nodes;
  ck_range : links_in_range links;
  ck_some : around links local <> [];
  ck_size : Forall (fun X => size X <= 16) (around links local);
}.

(** The listed regions, one for each set with a hosted node. *)
Lemma listed_regions t local links nodes junk :
  cluster_known t local links nodes -> holds junk [] ->
  exists rl, LookupRegionList t junk = (UBSM_OK, rl) /\
    Forall2 (fun r X => shows r (shown_nodes (slotToHostName nodes) X)) (examples rl)
      (List.filter (fun X => not_nil (shown_nodes (slotToHostName nodes) X)) (around links local)).
Proof.
  intros [H0 HT HH Hr Hne Hsz] HJ. destruct (LookupRegionList_spec t local links nodes junk H0 HT HH Hr HJ Hne Hsz) as (rl & B & E & Hn & (_ & _ & Ht) & HB).
  exists rl. split; [done|]. unfold examples. rewrite Hn, Nat2Z.id, Ht. rewrite filter_fmap in HB. rewrite Forall2_fmap_r in HB. exact HB.
Qed.

(** Region [i] of the list has node [n]. *)
Definition lists_node (rl : SHMRegions) (i : nat) (n : Z) : Prop :=
  exists r, examples rl !! i = Some r /\ slot_to_string n ∈ (nodes_of r).*1.*1.

Lemma lists_node_shown hosts rl Xs i X n :
  Forall2 (fun r X => shows r (shown_nodes hosts X)) (examples rl) Xs -> Xs !! i = Some X -> (forall m, m ∈ X -> slot_range m) -> slot_range n ->
  lists_node rl i n <-> n ∈ X /\ hosted hosts n.
Proof.
  intros HF HX Hr Hn. destruct (Forall2_lookup_r _ _ _ _ _ HF HX) as (r & Er & Hs). unfold lists_node. rewrite Er. split.
  - intros (r' & [= <-] & Hin). rewrite (shows_first _ _ Hs), list_elem_of_fmap in Hin. destruct Hin as ([s h] & E & Hin). cbn in E. subst s.
    apply shown_nodes_elem in Hin as (m & Hm & Hho & E & _); [|done]. apply slot_to_string_inj in E as <-; [done | done | by apply Hr].
  - intros [HnX Hho]. exists r. split; [done|]. rewrite (shows_first _ _ Hs), list_elem_of_fmap. exists (slot_to_string n, host_of hosts n).
    split; [done|]. apply shown_nodes_elem; [done|]. by exists n.
Qed.

(** C6: The listed regions. When the engine is loaded and reports this node, links
    with 32-bit slot numbers and at least two nodes with host names that fit, and
    there is a region around this node and none has more than
    sixteen nodes, the list of regions is made, of regions whose ids are numbers and whose
    names fit; a node other than this one is in a listed region exactly when it is
    linked to this node and has a host name, and then it is in one region only;
    this node, if it has a host name, is in all of them. *)
Theorem region_list_partition t local links nodes junk :
  cluster_known t local links nodes -> holds junk [] ->
  let hosts := slotToHostName nodes in
  exists rl, LookupRegionList t junk = (UBSM_OK, rl) /\ Forall well_listed (examples rl) /\
    (forall n, n <> local -> slot_range n ->
       (linked links local n /\ hosted hosts n) <-> exists i, lists_node rl i n /\ forall j, lists_node rl j n -> j = i) /\
    (forall n i, slot_range n -> lists_node rl i n -> n = local \/ linked links local n) /\
    (hosted hosts local -> forall i, i < length (examples rl) -> lists_node rl i local).
Proof.
  intros HC HJ hosts. destruct (listed_regions _ _ _ _ _ HC HJ) as (rl & E & HF). fold hosts in HF. pose proof (ck_range _ _ _ _ HC) as Hr.
  set (Xs := List.filter (fun X => not_nil (shown_nodes hosts X)) (around links local)) in *.
  assert (HXs : forall i X, Xs !! i = Some X -> X ∈ around links local).
  { intros i X HX%list_elem_of_lookup_2. unfold Xs in HX. by rewrite list_elem_of_In, List.filter_In, <- list_elem_of_In in HX; destruct HX. }
  assert (HR : forall i X, Xs !! i = Some X -> forall m, m ∈ X -> slot_range m) by (intros i X HX m; apply around_range with (links := links) (local := local); eauto).
  assert (Hlist : forall i n, lists_node rl i n -> exists X, Xs !! i = Some X).
  { intros i n (r & Er & _). destruct (Forall2_lookup_l _ _ _ _ _ HF Er) as (X & HX & _). by exists X. }
  exists rl. split; [done|]. split_and!.
  - apply Forall_lookup_2. intros i r Er. destruct (Forall2_lookup_l _ _ _ _ _ HF Er) as (X & HX & Hs).
    apply (shows_listed hosts X r); [by eapply HR | intros n h; by apply (hosts_fit t), HC | | done].
    pose proof (ck_size _ _ _ _ HC) as Hsz. rewrite Forall_forall in Hsz. by eapply Hsz, HXs.
  - intros n Hne Hn. split.
    + intros [Hl Hho]. apply neighbours_linked in Hl. destruct (around_once hosts links local n Hr Hne Hl Hho) as (i & X & HX & HnX & Hu). fold Xs in HX, Hu.
      exists i. split; [by apply (lists_node_shown hosts rl Xs i X n HF HX); [eapply HR | |]|]. intros j Hj. destruct (Hlist _ _ Hj) as [Y HY].
      pose proof (proj1 (lists_node_shown hosts rl Xs j Y n HF HY (HR _ _ HY) Hn) Hj) as [HnY _]. by eapply Hu.
    + intros (i & Hi & _). destruct (Hlist _ _ Hi) as [X HX]. pose proof (proj1 (lists_node_shown hosts rl Xs i X n HF HX (HR _ _ HX) Hn) Hi) as [HnX Hho].
      split; [|done]. apply neighbours_linked. destruct (around_sets _ _ _ (HXs _ _ HX)) as (_ & Hsub & _). by destruct (Hsub n HnX).
  - intros n i Hn Hi. destruct (Hlist _ _ Hi) as [X HX]. pose proof (proj1 (lists_node_shown hosts rl Xs i X n HF HX (HR _ _ HX) Hn) Hi) as [HnX _].
    destruct (around_sets _ _ _ (HXs _ _ HX)) as (_ & Hsub & _). destruct (Hsub n HnX) as [->|H]; [by left | right; by apply neighbours_linked].
  - intros Hho i Hi. destruct (lookup_lt_is_Some_2 _ _ Hi) as [r Er]. destruct (Forall2_lookup_l _ _ _ _ _ HF Er) as (X & HX & _).
    destruct (around_sets _ _ _ (HXs _ _ HX)) as (Hl & _ & _). apply (lists_node_shown hosts rl Xs i X local HF HX); [by eapply HR | by eapply HR | done].
Qed.

(** ** Requests *)

Section Service.
Context {G : Geometry} {S : Type} `{!RecordStoreAPI S} `{!RecordStoreLaws S}.
Implicit Types (v : Service S).

(** C7: Creating a region. A request whose description is valid creates the
    region exactly when its name is free, all its node ids are numbers below 1024 and
    a record is free; then it can be looked up with the description of the request. In
    all other cases the regions and the records are as before, and the code
    is [MXM_ERR_REGION_EXIST], also when no region has the name. *)
Theorem region_create_outcome n r v :
  good_service v -> good_name n -> region_shape r ->
  exists v', good_service v' /\
    if decide (ValidateRegionDesc r = true /\ can_record (mkRegionInfo n 0 r) (records v)) then
      RegionCreateRegion n r v = (0%Z, v') /\ mRegionMap v' = <[n := mkRegionInfo n 0 r]> (mRegionMap v) /\
      RegionLookupRegion n v' = ((0%Z, Some r), v') /\ is_Some (records v' !! n)
    else
      RegionCreateRegion n r v = (if ValidateRegionDesc r then MXM_ERR_REGION_EXIST else MXM_ERR_PARAM_INVALID, v') /\
      mRegionMap v' = mRegionMap v /\ records v' = records v.
Proof.
  intros Hg Hn Hs. destruct (ValidateRegionDesc r) eqn:Ev.
  - destruct (CreateRegionInfo_spec (mkRegionInfo n 0 r) v Hg Hn Hs) as (v' & Hg' & H). exists v'. split; [done|].
    assert (Hrun : RegionCreateRegion n r v = let '(ok, v1) := CreateRegionInfo (mkRegionInfo n 0 r) v in (if negb ok then MXM_ERR_REGION_EXIST else 0%Z, v1)).
    { unfold RegionCreateRegion. by rewrite Ev. }
    rewrite Hrun. destruct (decide (can_record _ _)) as [Hc|Hc].
    + rewrite decide_True by done. destruct H as (-> & Hm & Hr). cbn [ri_name] in *. split_and!; [done | done | | done].
      unfold RegionLookupRegion, GetRegionInfo, sbind, get_regions, sret. by rewrite Hm, lookup_insert_eq.
    + rewrite decide_False by naive_solver. destruct H as (-> & ? & ?). done.
  - exists v. split; [done|]. rewrite decide_False by (by intros [? _]). unfold RegionCreateRegion. by rewrite Ev.
Qed.

(** Destroying a region removes its record; the code says whether there was one. *)
Theorem region_destroy_outcome n v :
  good_service v ->
  exists v', good_service v' /\ RegionDestroyRegion n v = (if decide (is_Some (mRegionMap v !! n)) then 0%Z else MXM_ERR_REGION_NOT_EXIST, v') /\
    mRegionMap v' = delete n (mRegionMap v) /\ records v' = delete n (records v).
Proof.
  intros Hg. destruct (DeleteRegionInfo_spec n v Hg) as (v' & Hg' & E & H1 & H2). exists v'. split; [done|]. split; [|done].
  unfold RegionDestroyRegion, sbind. rewrite E. unfold sret. by destruct (decide _) as [H|H]; [rewrite bool_decide_eq_true_2 | rewrite bool_decide_eq_false_2].
Qed.

(** ** Restart *)

(** The service of a daemon that has just started on the records of [v]. *)
Definition restarted_service (os : RecordStore.Os) (fd : Z) v : Service S :=
  mkService (mkDaemon ∅ (exec (OpRestart os fd) (store_ (sv_daemon v))).2 [] [] [] no_leases) ∅ UINT32_MAX.

Lemma restart_records os fd v : good_service v -> op_ok (OpRestart os fd) -> good_service (put_regions (restarted_service os fd v) (mRegionMap v)) /\
  records (restarted_service os fd v) = records v.
Proof.
  intros [V A] Hok. pose proof (exec_view _ _ V Hok) as E. cbn [spec_run] in E. injection E as _ E.
  assert (Hr : records (restarted_service os fd v) = records v) by (unfold records; cbn; by rewrite <- E).
  split; [|done]. split; [by apply exec_valid|]. change (records (put_regions (restarted_service os fd v) (mRegionMap v))) with (records (restarted_service os fd v)).
  by rewrite Hr.
Qed.

(** A listed region has all nodes of the record. *)
Definition still_listed (rl : SHMRegions) (c : CreateRegionInput) : Prop := exists i, i < length (examples rl) /\ forall id, id ∈ cri_nodeIds c -> lists_node rl i id.

Lemma trans_listed t local links nodes junk fresh c :
  cluster_known t local links nodes -> holds junk [] -> region_shape fresh -> canonical c ->
  is_Some (TransRecordToRegionCache c fresh (LookupRegionList t junk).2) <-> still_listed (LookupRegionList t junk).2 c.
Proof.
  intros HC HJ Hf Hc. destruct (listed_regions _ _ _ _ _ HC HJ) as (rl & -> & HF). cbn [snd]. set (hosts := slotToHostName nodes) in *.
  set (Xs := List.filter (fun X => not_nil (shown_nodes hosts X)) (around links local)) in *.
  assert (HXs : forall i X, Xs !! i = Some X -> X ∈ around links local).
  { intros i X HX%list_elem_of_lookup_2. unfold Xs in HX. by rewrite list_elem_of_In, List.filter_In, <- list_elem_of_In in HX; destruct HX. }
  assert (Hgood : forall i r, examples rl !! i = Some r -> well_listed r /\ (covers r (cri_nodeIds c) <-> forall id, id ∈ cri_nodeIds c -> lists_node rl i id)).
  { intros i r Er. destruct (Forall2_lookup_l _ _ _ _ _ HF Er) as (X & HX & Hs).
    assert (HR : forall m, m ∈ X -> slot_range m) by (intros m; apply around_range with (links := links) (local := local); [apply HC | by eapply HXs]).
    destruct (shows_listed hosts X r HR) as [Hw Hcov]; [intros n h; by apply (hosts_fit t), HC | | done |].
    - pose proof (ck_size _ _ _ _ HC) as Hsz. rewrite Forall_forall in Hsz. by eapply Hsz, HXs.
    - split; [done|]. rewrite Hcov. assert (Hid : forall id, id ∈ cri_nodeIds c -> slot_range id).
      { intros id Hid. destruct Hc as [Hok Hpos _]. apply input_ok_iff in Hok as [Hlt _]. rewrite Forall_forall in Hlt, Hpos. specialize (Hlt id Hid). specialize (Hpos id Hid).
        unfold slot_range, REGION_NODE_BITMAP_COUNT in *. lia. }
      split; intros H id Hin; specialize (H id Hin); by apply (lists_node_shown hosts rl Xs i X id HF HX HR (Hid id Hin)). }
  pose proof (proj1 (input_ok_iff c) (cn_ok _ Hc)) as [_ Hlen]. unfold TransRecordToRegionCache. fold (examples rl). split.
  - intros [r Hr]. destruct (match_regions _ _ _) as [region|] eqn:Em; [|done].
    apply match_regions_covered in Em as (ex & Hex & Hcov); [|done | done |].
    + apply list_elem_of_lookup in Hex as [i Ei]. exists i. split; [by apply lookup_lt_Some in Ei|]. by apply (Hgood i ex Ei).
    + apply Forall_lookup_2. intros i ex Ei. apply (Hgood i ex Ei).
  - intros (i & Hi & Hl). apply lookup_lt_is_Some_2 in Hi as [ex Ei]. destruct (Hgood i ex Ei) as [Hw Hcov].
    destruct (match_regions_complete c fresh (examples rl)) as [r ->]; [done | by apply canonical_nodup | | by eexists].
    exists ex. split; [by eapply list_elem_of_lookup_2|]. split; [done|]. by apply Hcov.
Qed.

(** C5: Regions survive a restart, all or none. When the engine answers, the
    daemon that starts again recovers the regions exactly when for every region the
    topology still has a region with all its nodes; then every region is back
    with the same record, that is the same name, size, nodes and affinities. One region
    that the topology no longer has, and recovery fails, no region is back, while all
    records stay. What the uninitialised variables hold does not matter. *)
Theorem region_recovery_all_or_nothing os fd t local links nodes junk fresh v :
  good_service v -> op_ok (OpRestart os fd) -> cluster_known t local links nodes -> holds junk [] -> (forall n, region_shape (fresh n)) ->
  let v0 := restarted_service os fd v in
  let found := forall n c, records v !! n = Some c -> still_listed (LookupRegionList t junk).2 c in
  (found -> exists v', RegionRecovery t junk fresh v0 = (MXM_OK, v') /\ good_service v' /\ records v' = records v /\
     (forall n, mRegionMap v' !! n ≫= record_of = mRegionMap v !! n ≫= record_of) /\ dom (mRegionMap v') = dom (mRegionMap v)) /\
  (~ found -> RegionRecovery t junk fresh v0 = (MXM_ERR_PARAM_INVALID, v0) /\ records v0 = records v).
Proof.
  intros Hg Hok HC HJ Hf v0 found. destruct (restart_records os fd v Hg Hok) as [Hw Hr]. set (w := put_regions v0 (mRegionMap v)) in *.
  change (records w) with (records v0) in *. assert (Hrw : records w = records v) by exact Hr. change v0 with (put_regions w ∅).
  assert (Hiff : found <-> recoverable t junk fresh w).
  { unfold recoverable. rewrite Hrw. destruct (listed_regions _ _ _ _ _ HC HJ) as (rl & E & _). split.
    - intros H. split; [by rewrite E|]. intros n c Hc. apply (trans_listed t local links nodes); [done | done | done | | by eapply H].
      destruct Hg as [_ A]. by apply (agree_records _ _ _ _ A Hc).
    - intros [_ H] n c Hc. apply (trans_listed t local links nodes junk (fresh n)); [done | done | done | | by eapply H].
      destruct Hg as [_ A]. by apply (agree_records _ _ _ _ A Hc). }
  split.
  - intros H%Hiff. destruct (recovery_success t junk fresh w Hw Hf H) as (m & E & A & _). exists (put_regions w m). split; [done|].
    rewrite Hrw in A. destruct Hg as [V0 A0]. split; [split; [apply Hw|]; change (records (put_regions w m)) with (records w); by rewrite Hrw|].
    split; [exact Hrw|]. split.
    + intros n. change (mRegionMap (put_regions w m)) with m. by rewrite <- (proj1 A n), <- (proj1 A0 n).
    + change (mRegionMap (put_regions w m)) with m. apply set_eq. intros n. rewrite !elem_of_dom, <- !not_eq_None_Some. by rewrite (agree_dom _ _ n A), (agree_dom _ _ n A0).
  - intros Hno. split; [|exact Hrw]. apply recovery_failure; [done|]. by rewrite <- Hiff.
Qed.

End Service.

(** ** Witnesses *)

Section Witnesses.
#[local] Existing Instance small_geometry.

(** Node 1 is linked to 2, 3 and 4, of which only 2 and 3 see each other. *)
Definition ring_links : list ubs_topo_link_t :=
  [mkTopoLink 1 0 0 2 0 0; mkTopoLink 3 0 0 1 0 0; mkTopoLink 2 0 0 3 0 0; mkTopoLink 1 0 0 4 0 0].

Definition ring_nodes : list ubs_topo_node_t := [mkTopoNode 1 "a"; mkTopoNode 2 "b"; mkTopoNode 3 "c"; mkTopoNode 4 "d"].

Definition ring_engine : Engine := mkEngine 0 0 true (0, 1)%Z (fun _ => (1%Z, None)) (fun _ _ => (1%Z, None)) (fun _ => 0%Z) (fun _ => 0%Z).

Definition ring (links : list ubs_topo_link_t) : Topology :=
  mkTopology ring_engine true (0%Z, Some ring_nodes) (0%Z, Some links) [(0%Z, [0%Z])] (fun _ => (1%Z, None)) (0%Z, []) (fun n => n) (fun _ => 0%Z) None
    (fun _ => None) 4 4 (fun _ => 0%Z).

Lemma ring_links_range links : forallb (fun l => let ok n := Z.leb 0 n && Z.ltb n (2 ^ 32) in ok (tl_slot_id l) && ok (tl_peer_slot_id l)) links = true -> links_in_range links.
Proof.
  rewrite forallb_forall. intros H l Hl%list_elem_of_In%H. cbn in Hl. unfold slot_range. repeat rewrite andb_true_iff in Hl.
  rewrite !Z.leb_le, !Z.ltb_lt in Hl. lia.
Qed.

Lemma ring_known links :
  length links <= 4 -> around links 1 <> [] -> bool_decide (Forall (fun X : gset Z => size X <= 16) (around links 1)) = true -> links_in_range links ->
  cluster_known (ring links) 1 links ring_nodes.
Proof.
  intros Hl Ha Hs Hr. split; [done | | | done | done | by apply bool_decide_eq_true in Hs].
  - split; [done.. |]. unfold UBS_TOPO_MAX_CPU_LINK_NUM. lia.
  - split; [done | unfold MIN_NODE_NUM; cbn; lia |]. intros x. unfold ring_nodes. rewrite !elem_of_cons, elem_of_nil. by intros [->|[->|[->|[->|[]]]]].
Qed.

Lemma ring_links_known : cluster_known (ring ring_links) 1 ring_links ring_nodes.
Proof. apply ring_known; [cbn; lia | vm_compute; discriminate | vm_compute; reflexivity | apply ring_links_range; reflexivity]. Qed.

Lemma zero_holds : holds zero_regions [].
Proof. split_and!; [done | | done]. by apply Forall_replicate. Qed.

Lemma region_list_partition_witness : exists i, lists_node (LookupRegionList (ring ring_links) zero_regions).2 i 4 /\
  forall j, lists_node (LookupRegionList (ring ring_links) zero_regions).2 j 4 -> j = i.
Proof.
  destruct (region_list_partition (ring ring_links) 1 ring_links ring_nodes zero_regions ring_links_known zero_holds) as (rl & E & _ & H & _).
  rewrite E. apply H; [done | unfold slot_range; lia |]. clear E H. split.
  - exists (mkTopoLink 1 0 0 4 0 0). split; [do 3 right; left | by left].
  - vm_compute. discriminate.
Defined.

(** Node 1 in the middle of a star: 3 and 4 are in one region of type [ALL2ALL_SHARE] and have no link. *)
Definition star_links : list ubs_topo_link_t := [mkTopoLink 1 0 0 2 0 0; mkTopoLink 1 0 0 3 0 0; mkTopoLink 1 0 0 4 0 0].

Lemma all2all_region_not_linked :
  exists r, examples (LookupRegionList (ring star_links) zero_regions).2 !! 1 = Some r /\ rd_type r = ALL2ALL_SHARE /\ (nodes_of r).*1.*1 = ["1"; "3"; "4"] /\
    ~ linked star_links 3 4.
Proof.
  eexists. split; [vm_compute; reflexivity|]. split; [reflexivity|]. split; [vm_compute; reflexivity|].
  intros (l & Hl & He). unfold star_links in Hl. rewrite !elem_of_cons, elem_of_nil in Hl. destruct Hl as [->|[->|[->|[]]]]; cbn in He; lia.
Qed.

(** A service that has started on an empty store; the region of nodes 2 and 3, with affinity to 2. *)
Definition ring0 : Service RecordStore.state := mkService (mkDaemon ∅ (started demo_os 3) [] [] [] no_leases) ∅ UINT32_MAX.

Definition ring_region (ids : list string) : SHMRegionDesc :=
  mkRegionDesc 0 0 (Z.of_nat (length ids)) (true :: replicate 15 false) (ids ++ replicate (16 - length ids) "") (replicate 16 "h").

Lemma ring0_records : records ring0 = ∅.
Proof. vm_compute. reflexivity. Qed.

Lemma ring0_good : good_service ring0.
Proof. split; [by apply started_valid, demo_restart|]. rewrite ring0_records. apply agree_empty. Qed.

Definition ring1 : Service RecordStore.state := (RegionCreateRegion "r" (ring_region ["2"; "3"]) ring0).2.

Lemma region_create_outcome_witness :
  (RegionCreateRegion "r" (ring_region ["2"; "3"]) ring0).1 = 0%Z /\ (RegionCreateRegion "s" (ring_region ["2"; "x"]) ring0).1 = MXM_ERR_REGION_EXIST.
Proof.
  split.
  - destruct (region_create_outcome "r" (ring_region ["2"; "3"]) ring0 ring0_good) as (v' & _ & H); [by apply good_name_demo | done |].
    destruct (decide _) as [_|Hn] in H; [by destruct H as [-> _]|].
    exfalso. apply Hn. split; [reflexivity|]. rewrite ring0_records. split_and!; [vm_compute; by eexists | done | vm_compute; lia].
  - destruct (region_create_outcome "s" (ring_region ["2"; "x"]) ring0 ring0_good) as (v' & _ & H); [by apply good_name_demo | done |].
    destruct (decide _) as [[_ Hc]|_] in H; [|by destruct H as [-> _]].
    exfalso. destruct Hc as ([c Hc] & _). vm_compute in Hc. discriminate.
Defined.

Lemma ring1_good : good_service ring1.
Proof.
  destruct (CreateRegionInfo_spec (mkRegionInfo "r" 0 (ring_region ["2"; "3"])) ring0 ring0_good) as (v' & Hg & H); [by apply good_name_demo | done |].
  assert (E : v' = ring1); [|by rewrite <- E].
  assert (Hv : ValidateRegionDesc (ring_region ["2"; "3"]) = true) by reflexivity.
  unfold ring1, RegionCreateRegion. rewrite Hv. cbn [negb]. unfold sbind. clear Hg. destruct (decide _) in H; destruct H as [H _]; rewrite H; reflexivity.
Qed.

Definition ring_record : CreateRegionInput := mkCreateRegionInput "r" 0 [2; 3]%Z [true; false].

Lemma ring1_records : records ring1 = {["r" := ring_record]}.
Proof. vm_compute. reflexivity. Qed.

(** The region of nodes 2 and 3 is recovered while they see each other, and not when only 4 is linked. *)
Lemma region_recovery_all_or_nothing_witness :
  (RegionRecovery (ring ring_links) zero_regions (fun _ => zero_desc) (restarted_service demo_os 4 ring1)).1 = MXM_OK /\
  (RegionRecovery (ring [mkTopoLink 1 0 0 4 0 0]) zero_regions (fun _ => zero_desc) (restarted_service demo_os 4 ring1)).1 = MXM_ERR_PARAM_INVALID.
Proof.
  assert (Hok : op_ok (OpRestart demo_os 4)) by done. split.
  - destruct (region_recovery_all_or_nothing demo_os 4 (ring ring_links) 1 ring_links ring_nodes zero_regions (fun _ => zero_desc) ring1) as [H _];
      [apply ring1_good | done | apply ring_links_known | apply zero_holds | done |].
    destruct H as (v' & -> & _); [|done]. intros n c Hc. rewrite ring1_records in Hc. apply lookup_singleton_Some in Hc as [<- <-].
    exists 0. split; [vm_compute; lia|]. intros id. unfold ring_record. cbn [cri_nodeIds]. rewrite !elem_of_cons, elem_of_nil.
    intros [->|[->|[]]]; (eexists; split; [vm_compute; reflexivity|]); apply list_elem_of_In; vm_compute; auto.
  - set (one := [mkTopoLink 1 0 0 4 0 0]).
    destruct (region_recovery_all_or_nothing demo_os 4 (ring one) 1 one ring_nodes zero_regions (fun _ => zero_desc) ring1) as [_ H];
      [apply ring1_good | done | apply ring_known; [cbn; lia | vm_compute; discriminate | vm_compute; reflexivity | apply ring_links_range; reflexivity] | apply zero_holds | done |].
    destruct H as [-> _]; [|done]. intros H. destruct (H "r" ring_record) as (i & Hi & Hl); [by rewrite ring1_records|].
    destruct (Hl 2%Z) as (r & Hr & Hin); [left|]. destruct i as [|i]; [|vm_compute in Hi; lia].
    vm_compute in Hr. injection Hr as <-. apply list_elem_of_In in Hin. vm_compute in Hin. by destruct Hin as [?|[?|[]]].
Defined.

End Witnesses.
