(* ===== verification/ServiceTheorems.v ===== *)
(** What the daemon's services guarantee together: requests on regions, creation,
    mapping and leases in any order, and what the creation of a shared memory asks
    the engine for.

    The theorems hold for every record store behind [RecordStoreLaws]; the
    witnesses run them on the one of [record_store.cpp]. *)

From S2P Require Import Prelude StoreTypes IdPool IdPoolSpec RecordAllocator RecordStore StoreTable StoreInv StoreSteps StoreRestart StoreSpec RegionNodes StoreTheorems MsgPacker MsgCodec MsgBase MsgRequests MsgResponses StoreInterface Daemon ShmManager ShmHandlers DaemonSim ShmCoherence ShmRecovery ShmResults ShmTheorems LeaseEngine LeaseManager LeaseHandlers Monitor LeaseInv DaemonKeeps LeaseRecovery LeaseResults MonitorResults LeaseTheorems NodeAddress RegionTypes Topology RegionService ShmCreation RegionMatch RegionInv TopologyResults RegionTheorems.
Import SHMManager.

(** ** The requests of the shared-memory service *)

Section Keeps.
Context {G : Geometry} (P : Daemon AStore -> Prop) (HP : kept_property P).

Ltac both := destruct HP as [-> | [-> | [X ->]]]; keep.

Lemma both_Unmap e n u : keeps P (ShmUnmap e n u).
Proof. destruct HP as [-> | [-> | [X ->]]]; [|keep..]. intros d C. by apply keep_ShmUnmap. Qed.

Lemma both_seqNo : keeps P (call OpGetSeqNo).
Proof. both. Qed.

Lemma both_suspend p : pid_range p -> keeps P (call (OpAddSuspend p)).
Proof. intros H. both. Qed.

Lemma both_resume p : pid_range p -> keeps P (call (OpDelSuspend p)).
Proof. intros H. both. Qed.

#[local] Hint Resolve both_Unmap both_seqNo both_suspend both_resume : keeps.
#[local] Hint Extern 1 (keeps P (trace _)) => apply (both_trace P HP) : keeps.
#[local] Hint Extern 1 (keeps P (AddDelayRemoveRecord _)) => apply (both_delay P HP) : keeps.

Lemma both_unmap_unlisted e names l u : keeps P (unmap_unlisted e names l u).
Proof. induction l; cbn [unmap_unlisted]; keep. Qed.

#[local] Hint Resolve both_unmap_unlisted : keeps.

Lemma both_Reconcile e names u : keeps P (AppCheckShareMemoryMap e names u).
Proof. unfold AppCheckShareMemoryMap, GetMemoryUsersByPid. keep. Qed.

Lemma both_AttachRequested e n u : keeps P (ShmAttachRequested e n u).
Proof. unfold ShmAttachRequested, ShmAttach. keep. Qed.

Lemma both_DetachRequested e n u : keeps P (ShmDetachRequested e n u).
Proof. unfold ShmDetachRequested, ShmDetach. keep. Qed.

Lemma both_IpcSuspend u : keeps P (IpcSuspend u).
Proof. unfold IpcSuspend. keep. Qed.

Lemma both_IpcResume u : keeps P (IpcResume u).
Proof. unfold IpcResume. keep. Qed.

Lemma both_WithAffinity t param region fl info q : keeps P (ShmCreateWithAffinity t param region fl info q).
Proof. unfold ShmCreateWithAffinity, undo_later. keep. Qed.

Lemma both_create_result t c n ctx q : keeps P (create_result t c n ctx q).
Proof. unfold create_result, undo_later. keep. Qed.

End Keeps.

Section Tracks.
Context {G : Geometry} {S : Type} `{!RecordStoreAPI S} `{!RecordStoreLaws S}.

Lemma tracks_seqNo : tracks (S := S) (call OpGetSeqNo) (call OpGetSeqNo).
Proof. by apply tracks_call. Qed.

Lemma tracks_unmap_unlisted e names l u : tracks (unmap_unlisted (S := S) e names l u) (unmap_unlisted e names l u).
Proof. induction l; cbn [unmap_unlisted]; track. Qed.

#[local] Hint Resolve tracks_unmap_unlisted : tracks.

Lemma tracks_Reconcile e names u : tracks (AppCheckShareMemoryMap (S := S) e names u) (AppCheckShareMemoryMap e names u).
Proof. unfold AppCheckShareMemoryMap, GetMemoryUsersByPid. track. Qed.

Lemma tracks_AttachRequested e n u : tracks (ShmAttachRequested (S := S) e n u) (ShmAttachRequested e n u).
Proof. unfold ShmAttachRequested, ShmAttach. track. Qed.

Lemma tracks_DetachRequested e n u : tracks (ShmDetachRequested (S := S) e n u) (ShmDetachRequested e n u).
Proof. unfold ShmDetachRequested, ShmDetach. track. Qed.

Lemma tracks_IpcSuspend u : tracks (IpcSuspend (S := S) u) (IpcSuspend u).
Proof. unfold IpcSuspend. track. Qed.

Lemma tracks_IpcResume u : tracks (IpcResume (S := S) u) (IpcResume u).
Proof. unfold IpcResume. track. Qed.

Lemma tracks_WithAffinity t param region fl info q :
  tracks (ShmCreateWithAffinity (S := S) t param region fl info q) (ShmCreateWithAffinity t param region fl info q).
Proof. unfold ShmCreateWithAffinity, undo_later. track. Qed.

Lemma tracks_create_result t c n ctx q : tracks (create_result (S := S) t c n ctx q) (create_result t c n ctx q).
Proof. unfold create_result, undo_later. track. Qed.

End Tracks.

#[export] Hint Resolve tracks_seqNo tracks_Reconcile tracks_AttachRequested tracks_DetachRequested tracks_IpcSuspend tracks_IpcResume
  tracks_WithAffinity tracks_create_result : tracks.
Create HintDb both.
#[export] Hint Resolve both_seqNo both_Reconcile both_AttachRequested both_DetachRequested both_IpcSuspend both_IpcResume both_WithAffinity
  both_create_result both_AppMalloc both_AppMallocLoc both_AppFree both_ForceFree both_Check both_RemoveImmediately both_RemoveDelay : both.

(** ** Runs of the services *)

Section Runs.
Context {G : Geometry} {S : Type} `{!RecordStoreAPI S} `{!RecordStoreLaws S}.
Implicit Types (v : Service S) (d : Daemon S).

(** One request or one round of background work: those of the daemon as in
    [daemon_step], and those on regions, creation, attachment and suspension. *)
Inductive service_step : Service S -> Service S -> Prop :=
  | OnDaemon v d : daemon_step (sv_daemon v) d -> service_step v (mkService d (mRegionMap v) (nodeId_ v))
  | OnCreateRegion v n r : good_name n -> region_shape r -> service_step v (RegionCreateRegion n r v).2
  | OnDestroyRegion v n : service_step v (RegionDestroyRegion n v).2
  | OnCreate v t rn n size nid desc flags mode u : service_step v (ShmCreateRequested t rn n size nid desc flags mode u v).2
  | OnCreateWithProvider v t h socket numa port n size flags mode u :
      service_step v (ShmCreateWithProviderRequested t h socket numa port n size flags mode u v).2
  | OnAttach v e n u : service_step v (lift (ShmAttachRequested e n u) v).2
  | OnDetach v e n u : service_step v (lift (ShmDetachRequested e n u) v).2
  | OnReconcile v e names u : service_step v (lift (AppCheckShareMemoryMap e names u) v).2
  | OnSuspend v u : service_step v (lift (IpcSuspend u) v).2
  | OnResume v u : service_step v (lift (IpcResume u) v).2.

Definition all_sound v : Prop := sound (sv_daemon v) /\ regions_agree (mRegionMap v) (records v).

Lemma all_sound_good v : all_sound v -> good_service v.
Proof. intros [(V & _) A]. by split. Qed.

(** A program whose counterpart keeps the region records keeps them. *)
Lemma kept_records {A} (p : M (S := S) A) q d :
  tracks p q -> (forall X, keeps (regions_are X) q) -> valid (store_ d) -> a_regions (view (store_ (p d).2)) = a_regions (view (store_ d)).
Proof.
  intros Ht Hk V. destruct (Ht d V) as [_ E]. specialize (Hk (a_regions (view (store_ d))) (model d)). rewrite E in Hk.
  apply Hk. split; [by apply valid_wf | done].
Qed.

Lemma kept_regions X : kept_property (regions_are X).
Proof. right. right. by exists X. Qed.

Lemma shm_step_records d d' : shm_step d d' -> valid (store_ d) -> a_regions (view (store_ d')) = a_regions (view (store_ d)).
Proof.
  intros [d0 e req rsp u Hg Hp Hr | d0 e n u | d0 e n u | d0 e p | d0 e n c t i q] V; (eapply kept_records; [eauto with tracks | eauto with keeps | done]).
Qed.

Lemma daemon_step_records d d' : daemon_step d d' -> valid (store_ d) -> a_regions (view (store_ d')) = a_regions (view (store_ d)).
Proof.
  intros [d0 d1 Hs | d0 e req rsp u Hn Hu | d0 e req rsp u Hn Hu | d0 e n u | d0 e | d0 e names u | d0 e alive pids | d0 e] V;
    [by apply shm_step_records | ..];
    (eapply kept_records; [eauto with tracks | intros X; pose proof (kept_regions X); eauto with both | done]).
Qed.

Definition keeps_all {A} (m : SM (S := S) A) : Prop := forall v, all_sound v -> all_sound (m v).2.

Lemma all_ret {A} (a : A) : keeps_all (sret a).
Proof. by intros v. Qed.

Lemma all_bind {A B} (m : SM A) (k : A -> SM B) : keeps_all m -> (forall a, keeps_all (k a)) -> keeps_all (sbind m k).
Proof. intros Hm Hk v H. unfold sbind. specialize (Hm v H). destruct (m v) as [a v1]. by apply Hk. Qed.

Lemma all_lift {A} (p : M (S := S) A) q : tracks p q -> (forall P, kept_property P -> keeps P q) -> keeps_all (lift p).
Proof.
  intros Ht Hk v [D R]. unfold lift. pose proof (both_sound p q (sv_daemon v) Ht Hk D) as D'.
  pose proof (kept_records p q (sv_daemon v) Ht ltac:(intros X; apply Hk, kept_regions) ltac:(apply D)) as E.
  destruct (p (sv_daemon v)) as [a d]. split; [done|]. unfold records in *. cbn in *. by rewrite E.
Qed.

Lemma all_get_regions : keeps_all get_regions.
Proof. by intros v. Qed.

Lemma all_get_nodeId : keeps_all get_nodeId.
Proof. by intros v. Qed.

Lemma all_set_nodeId n : keeps_all (set_nodeId n).
Proof. by intros v. Qed.

Lemma all_busy n : keeps_all (lift (GetDelayRemoveRecord n)).
Proof. by intros v. Qed.

Ltac all_kept :=
  repeat first
    [ progress intros
    | solve [auto using all_ret, all_get_regions, all_get_nodeId, all_set_nodeId, all_busy]
    | eapply all_lift; [solve [eauto with tracks] | solve [eauto with both]]
    | apply all_bind
    | match goal with
      | |- keeps_all (match ?x with _ => _ end) => destruct x
      | |- keeps_all (if ?x then _ else _) => destruct x
      | |- keeps_all (let '(_, _) := ?x in _) => destruct x
      end ].

Lemma all_FillUserInfo t c flags mode : keeps_all (FillUserInfo t c flags mode).
Proof. unfold FillUserInfo, EnsureGetLocalNodeId, GenerateCreateSeqNo. all_kept. Qed.

Lemma all_ShmCreate t param : keeps_all (ShmCreate t param).
Proof. pose proof all_FillUserInfo. unfold ShmCreate. all_kept. Qed.

Lemma all_CreateWithProvider t param : keeps_all (ShmCreateWithProvider t param).
Proof. pose proof all_FillUserInfo. unfold ShmCreateWithProvider, PrepareShmCreateWithProviderParams. all_kept. Qed.

(** The requests on regions touch no other record. *)
Definition keeps_sound {A} (m : SM (S := S) A) : Prop := forall v, sound (sv_daemon v) -> sound (sv_daemon (m v).2).

Lemma sound_bind {A B} (m : SM A) (k : A -> SM B) : keeps_sound m -> (forall a, keeps_sound (k a)) -> keeps_sound (sbind m k).
Proof. intros Hm Hk v H. unfold sbind. specialize (Hm v H). destruct (m v) as [a v1]. by apply Hk. Qed.

Lemma sound_ret {A} (a : A) : keeps_sound (sret a).
Proof. by intros v. Qed.

Lemma sound_region_call o : op_ok o -> lease_op o = false -> shm_op o = false -> keeps_sound (lift (call o)).
Proof.
  intros Hok Hl Hs v D. unfold lift. pose proof (tracks_sound (call o) (call o) (sv_daemon v) (tracks_call o Hok) D) as H.
  destruct D as (_ & C & L). destruct (call o (sv_daemon v)) as [r d]. apply H; [by apply keeps_call_shm | by apply keeps_call_lease].
Qed.

Lemma sound_create_region n r : good_name n -> keeps_sound (RegionCreateRegion n r).
Proof.
  intros Hn. unfold RegionCreateRegion, CreateRegionInfo, UpdateRegionInfo.
  repeat first [progress intros | apply sound_ret | by apply sound_region_call | apply sound_bind | case_match | done | by intros v].
Qed.

Lemma sound_destroy_region n : keeps_sound (RegionDestroyRegion n).
Proof.
  unfold RegionDestroyRegion, DeleteRegionInfo, RemoveRegionInfo.
  repeat first [progress intros | apply sound_ret | by apply sound_region_call | apply sound_bind | case_match | done | by intros v].
Qed.

Lemma RegionCreateRegion_good n r v : good_service v -> good_name n -> region_shape r -> good_service (RegionCreateRegion n r v).2.
Proof.
  intros Hg Hn Hr. unfold RegionCreateRegion. destruct (ValidateRegionDesc r); [|done]. cbn [negb]. unfold sbind.
  destruct (CreateRegionInfo_spec (mkRegionInfo n 0 r) v Hg Hn Hr) as (v' & Hg' & H). by destruct (decide _) in H; destruct H as [-> _].
Qed.

Lemma service_step_sound v v' : service_step v v' -> all_sound v -> all_sound v'.
Proof.
  intros Hs. destruct Hs as [v d H | v n r Hn Hr | v n | v t rn n size nid desc flags mode u | v t h socket numa port n size flags mode u | v e n u | v e n u
    | v e names u | v u | v u].
  - intros [D R]. split; [by apply daemon_step_sound in H|]. unfold records in *. cbn. by rewrite (daemon_step_records _ _ H (proj1 D)).
  - intros H. split; [by apply sound_create_region, H|]. by apply RegionCreateRegion_good; [apply all_sound_good | |].
  - intros H. split; [by apply sound_destroy_region, H|]. destruct (region_destroy_outcome n v (all_sound_good v H)) as (v' & [_ R] & -> & _). exact R.
  - pose proof all_ShmCreate as Hc. revert v. change (keeps_all (ShmCreateRequested t rn n size nid desc flags mode u)). unfold ShmCreateRequested, GetRegionInfo. all_kept.
  - pose proof all_CreateWithProvider as Hc. revert v. change (keeps_all (ShmCreateWithProviderRequested t h socket numa port n size flags mode u)).
    unfold ShmCreateWithProviderRequested. all_kept.
  - revert v. change (keeps_all (lift (ShmAttachRequested e n u))). all_kept.
  - revert v. change (keeps_all (lift (ShmDetachRequested e n u))). all_kept.
  - revert v. change (keeps_all (lift (AppCheckShareMemoryMap e names u))). all_kept.
  - revert v. change (keeps_all (lift (IpcSuspend u))). all_kept.
  - revert v. change (keeps_all (lift (IpcResume u))). all_kept.
Qed.

Lemma service_steps_sound v v' : rtc service_step v v' -> all_sound v -> all_sound v'.
Proof. induction 1; eauto using service_step_sound. Qed.

(** A service that has just started on a store. *)
Definition fresh_service (s : S) : Service S := mkService (fresh s) ∅ UINT32_MAX.

(** Every region has its record, and every record its region. *)
Record regions_persisted v : Prop := {
  rp_region : forall n r, mRegionMap v !! n = Some r ->
    ri_name r = n /\ exists c, c ∈ list_regions (store_ (sv_daemon v)) /\ record_of r = Some c /\ cri_name c = n;
  rp_record : forall c, c ∈ list_regions (store_ (sv_daemon v)) -> is_Some (mRegionMap v !! cri_name c);
}.

Lemma agree_persisted v : good_service v -> regions_persisted v.
Proof.
  intros [V A]. assert (Hl : forall c, c ∈ list_regions (store_ (sv_daemon v)) <-> exists n, records v !! n = Some c).
  { intros c. rewrite (list_regions_view _ V), list_elem_of_fmap. fold (records v). split.
    - intros ([n c'] & -> & Hin%elem_of_map_to_list). by exists n.
    - intros [n Hn]. exists (n, c). by rewrite elem_of_map_to_list. }
  split.
  - intros n r Hr. destruct (proj2 A n r Hr) as (Hn & Hs & [c Hc]). split; [done|]. exists c. split_and!; [| done |].
    + apply Hl. exists n. rewrite (proj1 A n), Hr. exact Hc.
    + apply record_of_canonical in Hc as [_ ->]; done.
  - intros c [n Hn]%Hl. destruct (agree_records _ _ _ _ A Hn) as [_ ->]. apply not_eq_None_Some. intros E. apply (agree_dom _ _ _ A) in E. congruence.
Qed.

(** C2: Everything is persisted. From a store without records, after any sequence of requests of all services, on shared
    memory, leases and regions, process exits and rounds of the monitor, with any answers of the engine, the record store holds exactly
    what the managers' maps say: an import record for every attached memory and a reference for every user; a lease
    record with an owner for every lease in use, one without for every cached lease; a region record
    with the name, nodes and affinities for every region; and nothing else. No lease is both in use
    and cached, and the caches do not exceed their limit. The conditions on the requests are those of the steps: names are not empty, have no
    NUL and fit 64 bytes, callers have a process id, region descriptions have sixteen places, and a request to
    map comes while the reference table is not full; [shm_map_reference_table_full] shows what happens when it is. *)
Theorem services_are_persisted s v :
  valid s -> a_imports (view s) = ∅ -> a_leases (view s) = ∅ -> a_regions (view s) = ∅ -> rtc service_step (fresh_service s) v ->
  valid (store_ (sv_daemon v)) /\ persisted (sv_daemon v) /\ leases_persisted (sv_daemon v) /\ regions_persisted v.
Proof.
  intros V Ei El Er H. destruct (service_steps_sound _ _ H) as [D R].
  - split; [by apply fresh_sound|]. unfold records. cbn. rewrite Er. apply agree_empty.
  - split_and!; [apply D | apply good_persisted; split; apply D | apply lease_coherent_persisted; apply D | apply agree_persisted]. split; [apply D | done].
Qed.

End Runs.

(** ** Creating a shared memory *)

Section Creation.
Context {G : Geometry} {S : Type} `{!RecordStoreAPI S} `{!RecordStoreLaws S}.
Implicit Types (v : Service S) (d : Daemon S).

(** The slot of this node, as far as the service knows it or the engine tells. *)
Definition this_slot (t : Topology) v : Z + Z := if negb (Z.eqb (nodeId_ v) UINT32_MAX) then inr (nodeId_ v) else GetLocalNodeId t true.

Definition sequence v : Z := a_seqNo (view (store_ (sv_daemon v))).

(** The user information of a new memory: its owner, mode, flags, and a number made of the slot and the counter of the store. *)
Definition creator (slot : Z) (seq : Z) (ctx : AppContext) (flags mode : Z) : ubse_user_info_t :=
  mkUserInfo (ac_uid ctx) (ac_gid ctx) (s32 (ac_pid ctx)) mode flags (Z.lor (Z.shiftl slot 32) seq).

(** The state after the number was taken. *)
Definition numbered v slot : Service S :=
  mkService (call OpGetSeqNo (sv_daemon v)).2 (mRegionMap v) slot.

Lemma FillUserInfo_run t ctx flags mode v :
  valid (store_ (sv_daemon v)) ->
  FillUserInfo t ctx flags mode v =
    match this_slot t v with inl r => (inl r, v) | inr slot => (inr (creator slot (sequence v) ctx flags mode), numbered v slot) end.
Proof.
  intros V. unfold FillUserInfo, EnsureGetLocalNodeId, GenerateCreateSeqNo, this_slot, sbind, get_nodeId, numbered, creator, lift.
  pose proof (exec_view _ OpGetSeqNo V I) as E. cbn [spec_run] in E. injection E as E _. fold (sequence v) in E.
  destruct v as [d m nd]. cbn [nodeId_ mRegionMap sv_daemon sequence] in *. unfold call, sequence in *. cbn [sv_daemon] in *. rewrite E.
  destruct (negb (Z.eqb nd UINT32_MAX)) eqn:En; [|destruct (GetLocalNodeId t true); [done|]]; unfold sret; cbn [set_nodeId sv_daemon mRegionMap nodeId_]; by destruct (exec OpGetSeqNo (store_ d)).
Qed.

(** One call of the engine; a creation that timed out is scheduled for removal. *)
Definition after_create (t : Topology) (name : string) (ctx : AppContext) (seq : Z) d (c : CreateCall) : Daemon S :=
  let d := (trace (CallCreate c (pUbseMemShmCreateAny t c)) d).2 in
  if Z.eqb (pUbseMemShmCreateAny t c) UBS_ERR_TIMED_OUT then (undo_later t name ctx seq d).2 else d.

Lemma create_result_run t c n ctx seq d :
  exists r, create_result t c n ctx seq d = (r, after_create t n ctx seq d c) /\ (r = 0 <-> pUbseMemShmCreateAny t c = 0)%Z.
Proof.
  unfold create_result, after_create, bind. destruct (Z.eqb_spec (pUbseMemShmCreateAny t c) UBS_SUCCESS) as [E|E]; cbn [negb andb].
  - rewrite E. by eexists.
  - destruct (Z.eqb_spec (pUbseMemShmCreateAny t c) UBS_ERR_TIMED_OUT) as [E'|E']; cbn [negb andb]; (eexists; split; [done|]); [rewrite E'; done|].
    split; [|done]. by repeat case_match.
Qed.

(** The call near the caller's socket, if the caller is bound to one NUMA node. *)
Definition near_call (t : Topology) (param : CreateShmParam) (region : list Z) (fl : Z) (info : ubse_user_info_t) : option CreateCall :=
  let node := NumaCpuUtils.IsAppBoundToOneNumaNode t (s32 (ac_pid (cp_appContext param))) in
  if Z.eqb node (-1) then None
  else match GetSocketIdWithNumaNode t node with
       | inl _ => None
       | inr socket => Some (CreateWithAffinity (cp_name param) (cp_size param) socket info fl region (cp_privider param))
       end.

Lemma with_affinity_run (t : Topology) param region fl info seq d :
  eng_loaded t = true ->
  match near_call t param region fl info with
  | None => exists r, ShmCreateWithAffinity t param region fl info seq d = (r, d) /\ r <> 0%Z
  | Some c => exists r, ShmCreateWithAffinity t param region fl info seq d = (r, after_create t (cp_name param) (cp_appContext param) seq d c) /\
                (r = 0 <-> pUbseMemShmCreateAny t c = 0)%Z
  end.
Proof.
  intros Hl. unfold ShmCreateWithAffinity, near_call. rewrite Hl. cbn [negb].
  destruct (Z.eqb (NumaCpuUtils.IsAppBoundToOneNumaNode _ _) (-1)); [by eexists|].
  destruct (GetSocketIdWithNumaNode _ _) as [r|socket] eqn:Es.
  - exists r. split; [done|]. unfold GetSocketIdWithNumaNode in Es. rewrite Hl in Es. cbn [negb] in Es. repeat case_match; by simplify_eq.
  - unfold after_create, bind. set (c := CreateWithAffinity _ _ _ _ _ _ _). destruct (Z.eqb_spec (pUbseMemShmCreateAny t c) UBS_SUCCESS) as [E|E]; cbn [negb andb].
    + rewrite E. by eexists.
    + destruct (Z.eqb_spec (pUbseMemShmCreateAny t c) UBS_ERR_TIMED_OUT) as [E'|E']; cbn [negb andb]; (eexists; split; [done|]); [rewrite E'; done|].
      split; [|done]. by repeat case_match.
Qed.

(** The call anywhere in the region. *)
Definition region_call (param : CreateShmParam) (region : list Z) (info : ubse_user_info_t) : CreateCall :=
  CreateInRegion (cp_name param) (cp_size param) info (ubse_flags (cp_flag param)) region (cp_privider param).

(** The calls of a creation: near the caller first; anywhere if that was not possible. *)
Definition creation_calls (t : Topology) (param : CreateShmParam) (region : list Z) (info : ubse_user_info_t) : list CreateCall :=
  match near_call t param region (ubse_flags (cp_flag param)) info with
  | None => [region_call param region info]
  | Some c => if Z.eqb (pUbseMemShmCreateAny t c) 0 then [c] else [c; region_call param region info]
  end.

(** The engine can be asked to create a memory: it answers, the slots of the region are numbers, this node's slot is
    known, and the engine supports the flags. *)
Definition can_create (t : Topology) (desc : SHMRegionDesc) (flags : Z) v : Prop :=
  eng_Initialize t = 0%Z /\ eng_loaded t = true /\ is_Some (desc_slots desc) /\ (exists slot, this_slot t v = inr slot) /\
  CheckFeatureCompatibility t flags = MXM_OK.

Lemma ShmCreate_run t param v :
  valid (store_ (sv_daemon v)) ->
  (exists r v', ShmCreate t param v = (r, v') /\ r <> 0%Z /\ (v' = v \/ exists slot, v' = numbered v slot) /\
     ~ can_create t (cp_desc param) (cp_flag param) v) \/
  can_create t (cp_desc param) (cp_flag param) v /\
  exists region slot r,
    let info := creator slot (sequence v) (cp_appContext param) (cp_flag param) (cp_mode param) in
    let cs := creation_calls t param region info in
    desc_slots (cp_desc param) = Some region /\ this_slot t v = inr slot /\
    ShmCreate t param v = (r, mkService (foldl (after_create t (cp_name param) (cp_appContext param) (ui_seqNo info)) (sv_daemon (numbered v slot)) cs)
                                (mRegionMap v) slot) /\
    (r = 0 <-> exists c, last cs = Some c /\ pUbseMemShmCreateAny t c = 0)%Z.
Proof.
  intros V. unfold ShmCreate, can_create. destruct (Z.eqb_spec (eng_Initialize t) 0) as [Ei|Ei]; cbn [negb]; [|left; eexists _, v; split_and!; eauto; tauto].
  destruct (eng_loaded t) eqn:El; cbn [negb]; [|left; eexists _, v; split_and!; [done | done | by left | by intros (_ & ? & _)]].
  destruct (desc_slots (cp_desc param)) as [region|]; [|left; eexists _, v; split_and!; [done | done | by left | by intros (_ & _ & [? ?] & _)]].
  unfold sbind. rewrite FillUserInfo_run by done. destruct (this_slot t v) as [r|slot] eqn:Es.
  - left. exists r, v. split; [done|]. split; [|split; [by left | by intros (_ & _ & _ & [? ?] & _)]].
    unfold this_slot, GetLocalNodeId in Es. rewrite El in Es. cbn [negb] in Es. repeat case_match; by simplify_eq.
  - set (info := creator _ _ _ _ _). change (PrepareUserInfoAndFlags info) with (inr (ubse_flags (cp_flag param)) : Z + Z). cbn iota.
    destruct (Z.eqb_spec (CheckFeatureCompatibility t (cp_flag param)) MXM_OK) as [Ef|Ef]; cbn [negb]; [|left; eexists _, _; split_and!; eauto; tauto].
    right. split; [split_and!; eauto|]. exists region, slot. unfold creation_calls, lift. fold info.
    pose proof (with_affinity_run t param region (ubse_flags (cp_flag param)) info (ui_seqNo info) (sv_daemon (numbered v slot)) El) as Ha.
    assert (Hr : forall d, exists r, create_result t (region_call param region info) (cp_name param) (cp_appContext param) (ui_seqNo info) d =
        (r, after_create t (cp_name param) (cp_appContext param) (ui_seqNo info) d (region_call param region info)) /\
        (r = 0 <-> pUbseMemShmCreateAny t (region_call param region info) = 0)%Z) by (intros d; apply create_result_run).
    destruct (near_call _ _ _ _ _) as [c|].
    + destruct Ha as (r & -> & Hz). destruct (Z.eqb_spec r MXM_OK) as [->|Hne].
      * exists 0%Z. rewrite (proj1 Hz) by done. cbn [Z.eqb]. split_and!; [done | done | done |]. split; [intros _; exists c; by rewrite (proj1 Hz) | done].
      * destruct (Z.eqb_spec (pUbseMemShmCreateAny t c) 0) as [E|E]; [by apply Hz in E|].
        destruct (Hr (after_create t (cp_name param) (cp_appContext param) (ui_seqNo info) (sv_daemon (numbered v slot)) c)) as (r' & E' & Hz').
        exists r'. split_and!; [done | done | |]; [cbn [sv_daemon]; fold (region_call param region info); by rewrite E'|].
        rewrite Hz'. cbn [last]. split; [by eauto | by intros (? & [= <-] & ?)].
    + destruct Ha as (r & -> & Hne). destruct (Z.eqb_spec r MXM_OK) as [|_]; [done|]. destruct (Hr (sv_daemon (numbered v slot))) as (r' & E' & Hz').
      exists r'. split_and!; [done | done | |]; [cbn [sv_daemon]; fold (region_call param region info); by rewrite E'|].
      rewrite Hz'. cbn [last]. split; [by eauto | by intros (? & [= <-] & ?)].
Qed.

End Creation.

(** ** Requests to create *)

Section CreateRequests.
Context {G : Geometry} {S : Type} `{!RecordStoreAPI S} `{!RecordStoreLaws S}.
Implicit Types (v : Service S) (d : Daemon S).

Definition caller (u : MxmComUdsInfo) : AppContext := mkAppContext (uds_pid u) (uds_uid u) (uds_gid u).

(** The slots that may provide the memory. *)
Definition providers_of v (rn : string) (desc : SHMRegionDesc) : option (list Z) :=
  if bool_decide (rn = "default") then desc_slots desc
  else info ← mRegionMap v !! rn; region_providers (ri_region info) desc (node_pairs (ri_region info) desc) [].

(** A call that the request stands for. *)
Definition creates (t : Topology) v (rn n : string) (size : Z) (desc : SHMRegionDesc) (flags mode : Z) (u : MxmComUdsInfo) (c : CreateCall) : Prop :=
  exists slot region prov, this_slot t v = inr slot /\ desc_slots desc = Some region /\ providers_of v rn desc = Some prov /\
    length region <= UBS_MEM_MAX_SLOT_NUM /\ length prov <= UBS_MEM_MAX_SLOT_NUM /\
    let info := creator slot (sequence v) (caller u) flags mode in
    ((exists socket, c = CreateWithAffinity n size socket info (ubse_flags flags) region prov) \/ c = CreateInRegion n size info (ubse_flags flags) region prov).

Lemma desc_slots_bound desc l : ValidateRegionDesc desc = true -> desc_slots desc = Some l -> length l <= UBS_MEM_MAX_SLOT_NUM.
Proof.
  unfold ValidateRegionDesc, desc_slots, UBS_MEM_MAX_SLOT_NUM, MEM_TOPOLOGY_MAX_HOSTS. destruct (Z.ltb_spec (rd_num desc) 0); [done|].
  destruct (Z.ltb_spec 16 (rd_num desc)); [done|]. intros _ E%length_mapM. rewrite length_seq in E. lia.
Qed.

Lemma region_providers_bound region req pairs l0 l :
  length l0 <= UBS_MEM_MAX_SLOT_NUM -> region_providers region req pairs l0 = Some l -> length l <= UBS_MEM_MAX_SLOT_NUM.
Proof.
  revert l0. induction pairs as [|[i j] pairs IH]; intros l0 H; cbn [region_providers]; [by intros [= <-]|]. destruct (_ && _); [|by apply IH].
  destruct (StrUtil.StrToUint _) as [ok nodeId]. destruct (negb ok); [done|]. destruct (Nat.leb_spec UBS_MEM_MAX_SLOT_NUM (length l0)); [done|].
  apply IH. rewrite length_app. cbn. lia.
Qed.

Lemma providers_bound v rn desc l : ValidateRegionDesc desc = true -> providers_of v rn desc = Some l -> length l <= UBS_MEM_MAX_SLOT_NUM.
Proof.
  intros Hv. unfold providers_of. case_bool_decide; [by apply desc_slots_bound|]. destruct (mRegionMap v !! rn) as [info|]; [|done].
  cbn [mbind option_bind]. apply region_providers_bound. cbn. lia.
Qed.

Lemma ShmCreateRequested_run t rn n size nid desc flags mode u v :
  (exists r, ShmCreateRequested t rn n size nid desc flags mode u v = (r, v) /\ r <> 0%Z /\
     ~ (ValidateRegionDesc desc = true /\ ~ scheduled (sv_daemon v) n /\ is_Some (providers_of v rn desc))) \/
  exists prov, ValidateRegionDesc desc = true /\ ~ scheduled (sv_daemon v) n /\ providers_of v rn desc = Some prov /\
    ShmCreateRequested t rn n size nid desc flags mode u v = ShmCreate t (mkCreateParam n size (caller u) nid desc flags mode prov) v.
Proof.
  unfold ShmCreateRequested. destruct (ValidateRegionDesc desc) eqn:Ev; cbn [negb]; [|left; eexists; split_and!; [done | done | by intros [? _]]].
  assert (Hb : lift (GetDelayRemoveRecord n) v = (existsb (fun k => String.eqb (dk_name k) n) (delayedRemoveKeysByName (sv_daemon v)), v)) by (by destruct v).
  unfold providers_of, GetRegionInfo, sbind, get_regions, sret. rewrite Hb. destruct (existsb _ _) eqn:Eb.
  { left. eexists. split_and!; [done | done|]. intros (_ & Hs & _). apply Hs. apply existsb_exists in Eb as (k & Hk & Hn%String.eqb_eq). exists k.
    by rewrite list_elem_of_In. }
  assert (Hs : ~ scheduled (sv_daemon v) n).
  { intros (k & Hk & Hn). apply not_true_iff_false in Eb. apply Eb. apply existsb_exists. exists k. by rewrite <- list_elem_of_In, String.eqb_eq. }
  assert (Hno : forall r : Z, r <> 0%Z -> exists r', (r, v) = (r', v) /\ r' <> 0%Z /\ ~ (true = true /\ ~ scheduled (sv_daemon v) n /\ is_Some (@None (list Z)))).
  { intros r Hr. exists r. split_and!; [done | done | by intros (_ & _ & [? ?])]. }
  case_bool_decide.
  - destruct (desc_slots desc) as [prov|]; [right; by exists prov | left; by apply Hno].
  - destruct (mRegionMap v !! rn) as [info|]; [|left; by apply Hno]. cbn [mbind option_bind].
    destruct (region_providers _ _ _ _) as [prov|]; [right; by exists prov | left; by apply Hno].
Qed.

(** What the calls of one creation change: the trace and the schedule. *)
Lemma after_creates t n ctx seq cs d :
  let d' := foldl (after_create t n ctx seq) d cs in
  engine_trace d' = engine_trace d ++ ((fun c => CallCreate c (pUbseMemShmCreateAny t c)) <$> cs) /\
  attachedShareMemory_ d' = attachedShareMemory_ d /\ leases_ d' = leases_ d /\ store_ d' = store_ d /\
  ((exists c, c ∈ cs /\ pUbseMemShmCreateAny t c = UBS_ERR_TIMED_OUT) -> scheduled d' n) /\ (scheduled d n -> scheduled d' n).
Proof.
  revert d. induction cs as [|c cs IH]; intros d; cbn [foldl].
  - rewrite fmap_nil, app_nil_r. split_and!; try done. intros (c & ?%elem_of_nil & _). done.
  - cbv zeta in *. set (d1 := after_create t n ctx seq d c). destruct (IH d1) as (H1 & H2 & H3 & H4 & H5 & H6). clear IH.
    assert (Hd : engine_trace d1 = engine_trace d ++ [CallCreate c (pUbseMemShmCreateAny t c)] /\ attachedShareMemory_ d1 = attachedShareMemory_ d /\
              leases_ d1 = leases_ d /\ store_ d1 = store_ d /\ (pUbseMemShmCreateAny t c = UBS_ERR_TIMED_OUT -> scheduled d1 n) /\ (scheduled d n -> scheduled d1 n)).
    { unfold d1, after_create. destruct (Z.eqb_spec (pUbseMemShmCreateAny t c) UBS_ERR_TIMED_OUT) as [E|E]; [|by split_and!]. split_and!; try done.
      - intros _. unfold scheduled. cbn. destruct (set_insert_in DelayKeyIsBusyComparator (mkDelay false 0 (eng_now t + ONE_MINUTE_MS) n ctx false false true false seq)
          (delayedRemoveKeysByName d)) as (x & Hx & [->|[Hl Hg]]); [by eexists|]. exists x. split; [done|]. cbn in Hl, Hg. by apply string_lt_total.
      - intros (k & Hk & Hn). exists k. split; [|done]. by apply set_insert_keeps. }
    destruct Hd as (G1 & G2 & G3 & G4 & G5 & G6). split_and!; [|congruence..| |auto].
    + rewrite H1, G1, fmap_cons, <- app_assoc. done.
    + intros (c' & [->|Hc]%elem_of_cons & E); eauto.
Qed.

(** The attached memories, the leases and the regions are as before. *)
Definition same_maps v v' : Prop :=
  mRegionMap v' = mRegionMap v /\ attachedShareMemory_ (sv_daemon v') = attachedShareMemory_ (sv_daemon v) /\ leases_ (sv_daemon v') = leases_ (sv_daemon v).

Lemma numbered_same v slot : same_maps v (numbered v slot) /\ engine_trace (sv_daemon (numbered v slot)) = engine_trace (sv_daemon v) /\
  (scheduled (sv_daemon v) = scheduled (sv_daemon (numbered v slot))).
Proof. unfold numbered, same_maps, call. by destruct (exec _ _). Qed.

Lemma creation_calls_requested (t : Topology) v rn n size nid desc flags mode u slot region prov :
  let param := mkCreateParam n size (caller u) nid desc flags mode prov in
  ValidateRegionDesc desc = true -> this_slot t v = inr slot -> desc_slots desc = Some region -> providers_of v rn desc = Some prov ->
  let cs := creation_calls t param region (creator slot (sequence v) (caller u) flags mode) in
  Forall (creates t v rn n size desc flags mode u) cs /\ 1 <= length cs <= 2.
Proof.
  intros param Hv Hslot Hr Hp cs.
  assert (Hreq : forall c, ((exists socket, c = CreateWithAffinity n size socket (creator slot (sequence v) (caller u) flags mode) (ubse_flags flags) region prov) \/
      c = CreateInRegion n size (creator slot (sequence v) (caller u) flags mode) (ubse_flags flags) region prov) -> creates t v rn n size desc flags mode u c).
  { intros c Hc. exists slot, region, prov. split_and!; eauto using desc_slots_bound, providers_bound. }
  assert (Hnear : forall c, near_call t param region (ubse_flags flags) (creator slot (sequence v) (caller u) flags mode) = Some c -> creates t v rn n size desc flags mode u c).
  { intros c Hc. apply Hreq. left. unfold near_call in Hc. repeat case_match; simplify_eq. by eexists. }
  subst cs. unfold creation_calls. cbn [cp_flag param]. fold param. destruct (near_call _ _ _ _ _) as [c|]; [destruct (Z.eqb _ 0)|]; (split; [|cbn; lia]);
    repeat constructor; auto.
Qed.

(** The requests that get as far as the engine: the description of the region is acceptable, the name does not wait for its
    removal, the providers can be determined, and the engine can be asked. *)
Definition admitted (t : Topology) v (rn n : string) (desc : SHMRegionDesc) (flags : Z) : Prop :=
  (ValidateRegionDesc desc = true /\ ~ scheduled (sv_daemon v) n /\ is_Some (providers_of v rn desc)) /\ can_create t desc flags v.

(** The calls of an admitted request. *)
Definition requested_calls (t : Topology) v (rn n : string) (size : Z) (nid : string) (desc : SHMRegionDesc) (flags mode : Z) (u : MxmComUdsInfo)
    (cs : list CreateCall) : Prop :=
  exists slot region prov, this_slot t v = inr slot /\ desc_slots desc = Some region /\ providers_of v rn desc = Some prov /\
    cs = creation_calls t (mkCreateParam n size (caller u) nid desc flags mode prov) region (creator slot (sequence v) (caller u) flags mode).

(** C3: Requests to create a shared memory. A request touches no map of the daemon. Exactly when it is admitted (an
    acceptable region, a name that does not wait for its removal, known providers, an engine that answers, knows this
    node and supports the flags), it calls the engine: once near the caller if it is bound to one NUMA
    node whose socket is known, and once without a preference if that was not possible or failed. Each call creates the
    memory with the request's name, size, mode and flags, the caller as owner, a new sequence number, and at
    most sixteen slots each for the region and its providers. The request succeeds exactly when its last call does,
    and a call that timed out makes the name wait. A request that is not admitted fails without a call. *)
Theorem create_request_outcome t rn n size nid desc flags mode u v :
  valid (store_ (sv_daemon v)) ->
  let '(r, v') := ShmCreateRequested t rn n size nid desc flags mode u v in
  same_maps v v' /\
  exists cs, engine_trace (sv_daemon v') = engine_trace (sv_daemon v) ++ ((fun c => CallCreate c (pUbseMemShmCreateAny t c)) <$> cs) /\
    (admitted t v rn n desc flags -> requested_calls t v rn n size nid desc flags mode u cs /\ cs <> []) /\
    (~ admitted t v rn n desc flags -> cs = [] /\ r <> 0%Z) /\
    Forall (creates t v rn n size desc flags mode u) cs /\ length cs <= 2 /\
    (r = 0%Z <-> exists c, last cs = Some c /\ pUbseMemShmCreateAny t c = 0%Z) /\
    (forall c, c ∈ cs -> pUbseMemShmCreateAny t c = UBS_ERR_TIMED_OUT -> scheduled (sv_daemon v') n).
Proof.
  intros V. assert (Hnone : forall r v', same_maps v v' -> engine_trace (sv_daemon v') = engine_trace (sv_daemon v) -> r <> 0%Z ->
    ~ admitted t v rn n desc flags -> same_maps v v' /\
    exists cs : list CreateCall, engine_trace (sv_daemon v') = engine_trace (sv_daemon v) ++ ((fun c => CallCreate c (pUbseMemShmCreateAny t c)) <$> cs) /\
    (admitted t v rn n desc flags -> requested_calls t v rn n size nid desc flags mode u cs /\ cs <> []) /\ (~ admitted t v rn n desc flags -> cs = [] /\ r <> 0%Z) /\
    Forall (creates t v rn n size desc flags mode u) cs /\ length cs <= 2 /\ (r = 0%Z <-> exists c, last cs = Some c /\ pUbseMemShmCreateAny t c = 0%Z) /\
    (forall c, c ∈ cs -> pUbseMemShmCreateAny t c = UBS_ERR_TIMED_OUT -> scheduled (sv_daemon v') n)).
  { intros r v' Hs He Hr Ha. split; [done|]. exists []. rewrite He, app_nil_r. split_and!; try done; [cbn; lia | | by intros c ?%elem_of_nil].
    split; [done|]. by intros (? & ? & _). }
  destruct (ShmCreateRequested_run t rn n size nid desc flags mode u v) as [(r & -> & Hr & Hno)|(prov & Hv & Hns & Hp & ->)]; [by apply Hnone; [..|intros []]|].
  set (param := mkCreateParam _ _ _ _ _ _ _ _). destruct (ShmCreate_run t param v V) as [(r & v' & -> & Hr & Hv' & Hno)|(Hcan & region & slot & r & Hreg & Hslot & -> & Hz)].
  - apply Hnone; [..|done|by intros []]; destruct Hv' as [->|[slot ->]]; try done; apply numbered_same.
  - set (cs := creation_calls _ _ _ _) in *. destruct (numbered_same v slot) as ((H1 & H2 & H3) & H4 & H5).
    destruct (creation_calls_requested t v rn n size nid desc flags mode u slot region prov Hv Hslot Hreg Hp) as [Hf Hl]. fold param in Hf, Hl.
    destruct (after_creates t (cp_name param) (cp_appContext param) (ui_seqNo (creator slot (sequence v) (caller u) flags mode)) cs (sv_daemon (numbered v slot)))
      as (T & A & L & _ & Ht & _).
    assert (Hadm : admitted t v rn n desc flags) by (split; [split_and!; [done | done | by exists prov] | exact Hcan]).
    assert (Hne : cs <> []) by (unfold cs, creation_calls; repeat case_match; done).
    split; [split_and!; [done | by rewrite <- H2 | by rewrite <- H3]|]. exists cs. rewrite <- H4. split_and!; [exact T | | done | exact Hf | apply Hl | exact Hz |].
    + intros _. split; [|exact Hne]. by exists slot, region, prov.
    + intros c Hc E. apply Ht. by exists c.
Qed.

End CreateRequests.

(** ** A creation that timed out and was repeated *)

Section TimedOut.
Context {G : Geometry} {S : Type} `{!RecordStoreAPI S} `{!RecordStoreLaws S}.
Implicit Types (v : Service S) (d : Daemon S) (e : LeaseEngine).







End TimedOut.

(** ** Providers *)

Section Providers.
Implicit Types (region req : SHMRegionDesc).

(** The slot of node [i], if its id is a number. *)
Definition slot_at region (i : nat) : option Z := let '(ok, n) := StrUtil.StrToUint (rd_nodeId region !!! i) in if ok then Some n else None.

Definition chosen region req (p : nat * nat) : bool := String.eqb (rd_hostName region !!! p.1) (rd_hostName req !!! p.2) && (rd_affinity region !!! p.1).

Lemma region_providers_chosen region req pairs l0 :
  (forall p, p ∈ pairs -> chosen region req p = true -> is_Some (slot_at region p.1)) ->
  length l0 + length (List.filter (chosen region req) pairs) <= UBS_MEM_MAX_SLOT_NUM ->
  region_providers region req pairs l0 = Some (l0 ++ ((fun p => default 0%Z (slot_at region p.1)) <$> List.filter (chosen region req) pairs)).
Proof.
  revert l0. induction pairs as [|[i j] pairs IH]; intros l0 Hs Hl; cbn [region_providers List.filter]; [by rewrite app_nil_r|].
  change (String.eqb (rd_hostName region !!! i) (rd_hostName req !!! j) && (rd_affinity region !!! i)) with (chosen region req (i, j)).
  cbn [List.filter] in Hl. destruct (chosen region req (i, j)) eqn:Ec.
  - destruct (Hs (i, j)) as [n Hn]; [by left | done |]. unfold slot_at in Hn. cbn [fst] in Hn. destruct (StrUtil.StrToUint _) as [[] nodeId] eqn:Et; [|done]. injection Hn as ->.
    cbn [negb length] in *. destruct (Nat.leb_spec UBS_MEM_MAX_SLOT_NUM (length l0)); [lia|]. rewrite IH; [|intros p Hp; apply Hs; by right | rewrite length_app; cbn; lia].
    rewrite <- app_assoc, fmap_cons. cbn [fst app]. unfold slot_at at 2. by rewrite Et.
  - apply IH; [|done]. intros p Hp. apply Hs. by right.
Qed.

(** The nodes with affinity whose host the request names. *)
Definition preferred region req : list nat :=
  List.filter (fun i => (rd_affinity region !!! i) && bool_decide (rd_hostName region !!! i ∈ take (Z.to_nat (rd_num req)) (rd_hostName req)))
    (seq 0 (Z.to_nat (rd_num region))).

Lemma chosen_row region req i js :
  NoDup ((fun j => rd_hostName req !!! j) <$> js) ->
  List.filter (chosen region req) ((i,.) <$> js) = [] /\ ((rd_affinity region !!! i) && bool_decide (rd_hostName region !!! i ∈ (fun j => rd_hostName req !!! j) <$> js) = false) \/
  (exists j, List.filter (chosen region req) ((i,.) <$> js) = [(i, j)]) /\ ((rd_affinity region !!! i) && bool_decide (rd_hostName region !!! i ∈ (fun j => rd_hostName req !!! j) <$> js) = true).
Proof.
  induction js as [|j js IH]; intros Hnd.
  - left. split; [done|]. rewrite fmap_nil, (bool_decide_eq_false_2 (_ ∈ [])) by (by apply not_elem_of_nil). apply andb_false_r.
  - rewrite fmap_cons in Hnd. apply NoDup_cons in Hnd as [Hj Hnd]. rewrite !fmap_cons. cbn [List.filter].
    assert (Ec : chosen region req (i, j) = String.eqb (rd_hostName region !!! i) (rd_hostName req !!! j) && (rd_affinity region !!! i)) by done. rewrite Ec. clear Ec.
    destruct (IH Hnd) as [[Hp Hb]|[[k Hk] Hb]]; clear IH.
    + destruct (String.eqb_spec (rd_hostName region !!! i) (rd_hostName req !!! j)) as [E|E]; cbn [andb].
      * destruct (rd_affinity region !!! i) eqn:Ea; cbn [andb] in *; [right | left; by rewrite Hp].
        split; [exists j; by rewrite Hp|]. apply bool_decide_eq_true_2. rewrite E. left.
      * left. rewrite Hp. split; [done|]. rewrite <- Hb. f_equal. apply bool_decide_ext. rewrite elem_of_cons. naive_solver.
    + right. apply andb_true_iff in Hb as [Ha Hin%bool_decide_eq_true]. destruct (String.eqb_spec (rd_hostName region !!! i) (rd_hostName req !!! j)) as [E|E]; cbn [andb].
      * rewrite <- E in Hj. done.
      * rewrite Ha. split; [by exists k|]. apply bool_decide_eq_true_2. by right.
Qed.

Lemma row_pairs (i : nat) (js : list nat) : (js ≫= (fun j => [(i, j)])) = (i,.) <$> js.
Proof. induction js as [|j js IH]; [done|]. rewrite bind_cons, fmap_cons, IH. done. Qed.

Lemma chosen_pairs region req :
  length (rd_hostName req) = 16 -> (rd_num req <= 16)%Z -> NoDup (take (Z.to_nat (rd_num req)) (rd_hostName req)) ->
  fst <$> List.filter (chosen region req) (node_pairs region req) = preferred region req.
Proof.
  intros Hs Hn Hnd. unfold node_pairs, preferred. rewrite <- (seq_lookup_take (rd_hostName req)) in * by lia. set (js := seq 0 (Z.to_nat (rd_num req))) in *.
  set (hosts := (fun j => rd_hostName req !!! j) <$> js). induction (seq 0 (Z.to_nat (rd_num region))) as [|i rows IH]; [done|].
  rewrite bind_cons, row_pairs, List.filter_app, fmap_app, IH. cbn [List.filter]. fold hosts.
  destruct (chosen_row region req i js Hnd) as [[-> Hb]|[[j ->] Hb]]; fold hosts in Hb; by rewrite Hb.
Qed.

(** C8: Who provides the memory. For a region that was created, and a request that names each host once, the slots that are
    passed to the engine as providers are exactly those of the region's nodes, in their order, that the region has affinity to
    and whose host the request names. *)
Theorem providers_are_preferred region req ids affs :
  region_shape region -> region_shape req -> ToNodeIds region = Some (ids, affs) -> ValidateRegionDesc req = true ->
  NoDup (take (Z.to_nat (rd_num req)) (rd_hostName req)) ->
  region_providers region req (node_pairs region req) [] = Some ((fun i => ids !!! i) <$> preferred region req).
Proof.
  intros Hs Hs' Ht Hv Hnd. apply ToNodeIds_Some in Ht as (Hn & Hp & _); [|done]. assert (Hn' : (rd_num req <= 16)%Z).
  { unfold ValidateRegionDesc, MEM_TOPOLOGY_MAX_HOSTS in Hv. destruct (Z.ltb_spec 16 (rd_num req)); [|lia]. by rewrite orb_true_r in Hv. }
  pose proof (chosen_pairs region req ltac:(apply Hs') Hn' Hnd) as Hc. pose proof Hs as (_ & Hi & _).
  assert (Hat : forall i, i ∈ preferred region req -> slot_at region i = Some (ids !!! i)).
  { intros i Hin. unfold preferred in Hin. rewrite list_elem_of_In, List.filter_In, <- list_elem_of_In, elem_of_seq in Hin. destruct Hin as [Hlt _].
    assert (Hl : take (Z.to_nat (rd_num region)) (rd_nodeId region) !! i = Some (rd_nodeId region !!! i)).
    { rewrite lookup_take_lt by lia. apply list_lookup_lookup_total_lt. lia. }
    destruct (Forall2_lookup_l _ _ _ _ _ Hp Hl) as (x & Hx & Hpx). unfold slot_at, parsed in *. rewrite Hpx. by rewrite (list_lookup_total_correct _ _ _ Hx). }
  rewrite region_providers_chosen.
  - cbn [app]. f_equal. rewrite <- Hc, <- list_fmap_compose. apply list_fmap_ext. intros k p Hk%list_elem_of_lookup_2. cbn. rewrite Hat; [done|].
    rewrite <- Hc. by apply list_elem_of_fmap_2.
  - intros p Hin Hch. rewrite Hat; [by eexists|]. rewrite <- Hc. apply list_elem_of_fmap_2. by rewrite list_elem_of_In, List.filter_In, <- list_elem_of_In.
  - cbn [length Nat.add]. rewrite <- (length_fmap fst), Hc. unfold preferred. etransitivity; [apply List.filter_length_le|]. rewrite length_seq.
    unfold UBS_MEM_MAX_SLOT_NUM. lia.
Qed.

End Providers.

(** ** Reconciliation with a client *)

Section Reconcile.
Context {G : Geometry}.
Implicit Types (e : Engine).
Abbreviation att := attachedShareMemory_.

(** What is left of a memory when its user [p] unmaps it. *)
Definition left_of e (p : Z) (mem : AttachedShareMemory) : option AttachedShareMemory :=
  if decide (asm_state mem = DELETED) then None
  else if decide (1 < size (asm_pids mem)) then Some (with_pids mem (asm_pids mem ∖ {[p]}))
  else if detach_ok e (asm_name mem) then None
  else Some (with_state mem FINISH).

(** Only the last user of a memory that is not marked as deleted has it detached. *)
Definition last_user (mem : AttachedShareMemory) : Prop := asm_state mem <> DELETED /\ size (asm_pids mem) <= 1.

Definition leave_calls e (mem : AttachedShareMemory) : list EngineCall :=
  if decide (last_user mem) then detach_calls e (asm_name mem) else [].

Lemma user_unmaps e n u (d : Daemon AStore) mem :
  coherent d -> att d !! n = Some mem -> s32 (uds_pid u) ∈ asm_pids mem ->
  exists r d', ShmUnmap e n u d = (r, d') /\ coherent d' /\ engine_trace d' = engine_trace d ++ leave_calls e mem /\
    att d' = partial_alter (fun _ => left_of e (s32 (uds_pid u)) mem) n (att d).
Proof.
  intros C E Hp. destruct (entry_good _ _ _ C E) as [_ Hn]. unfold left_of, leave_calls, last_user. destruct (decide (asm_state mem = DELETED)) as [Hd|Hd].
  - pose proof (RemoveMemoryInfo_spec d n true C) as H. rewrite E, decide_True in H by tauto. destruct H as (d' & Er & [M (_ & _ & T) K _]). exists MXM_OK, d'.
    rewrite decide_False, app_nil_r by tauto. split_and!; [|done | exact T | exact M]. unfold ShmUnmap, GetShareMemoryInfo, bind, get_attached. rewrite E. cbn [snd ret]. by rewrite bool_decide_true.
  - destruct (ShmUnmap_spec e n u d mem C E Hd) as (d' & C' & _ & H). destruct (decide (1 < size (asm_pids mem))).
    + destruct H as [T H]. rewrite decide_True in H by done. destruct H as [H1 H2]. rewrite decide_False, app_nil_r by lia. by exists MXM_OK, d'.
    + destruct H as [T H]. rewrite Hn. rewrite (decide_True (P := _ /\ _)) by (split; [done | lia]). destruct (detach_ok e n); [rewrite decide_True in H by done|]; destruct H as [H1 H2]; by eexists _, d'.
Qed.

(** Memory [mem] is to be unmapped. *)
Definition unlisted (names : list string) (mem : AttachedShareMemory) : bool := negb (existsb (String.eqb (asm_name mem)) names).

Lemma unmap_unlisted_spec e names u l (d : Daemon AStore) :
  coherent d -> NoDup (asm_name <$> l) -> (forall mem, mem ∈ l -> att d !! asm_name mem = Some mem /\ s32 (uds_pid u) ∈ asm_pids mem) ->
  exists d', unmap_unlisted e names l u d = (MXM_OK, d') /\ coherent d' /\
    engine_trace d' = engine_trace d ++ (List.filter (unlisted names) l ≫= leave_calls e) /\
    (forall mem, mem ∈ l -> att d' !! asm_name mem = if unlisted names mem then left_of e (s32 (uds_pid u)) mem else Some mem) /\
    (forall n, n ∉ asm_name <$> l -> att d' !! n = att d !! n).
Proof.
  revert d. induction l as [|mem l IH]; intros d C Hnd Hl; cbn [unmap_unlisted].
  - exists d. split_and!; try done; [by rewrite app_nil_r | by intros mem ?%elem_of_nil].
  - rewrite fmap_cons in Hnd. apply NoDup_cons in Hnd as [Hm Hnd]. destruct (Hl mem) as [E Hp]; [by left|]. fold (unlisted names mem).
    assert (Hne : forall mem', mem' ∈ l -> asm_name mem' <> asm_name mem) by (intros mem' Hin Heq; apply Hm; rewrite <- Heq; by apply list_elem_of_fmap_2).
    cbn [List.filter]. destruct (unlisted names mem) eqn:Eu.
    + unfold bind. destruct (user_unmaps e (asm_name mem) u d mem C E Hp) as (r & d1 & -> & C1 & T1 & A1).
      destruct (IH d1 C1 Hnd) as (d' & -> & C' & T' & H1 & H2).
      { intros mem' Hin. rewrite A1, lookup_partial_alter_ne by (symmetry; by apply Hne). apply Hl. by right. }
      exists d'. split_and!; [done | done | by rewrite T', T1, bind_cons, <- app_assoc | |].
      * intros mem' [->|Hin]%elem_of_cons; [|by apply H1]. rewrite Eu, H2, A1 by done. by rewrite lookup_partial_alter_eq.
      * intros n Hn. rewrite fmap_cons, not_elem_of_cons in Hn. destruct Hn as [Hn1 Hn2]. rewrite H2, A1 by done. by rewrite lookup_partial_alter_ne.
    + destruct (IH d C Hnd) as (d' & -> & C' & T' & H1 & H2); [intros mem' Hin; apply Hl; by right|]. exists d'. split_and!; [done | done | done | |].
      * intros mem' [->|Hin]%elem_of_cons; [|by apply H1]. rewrite Eu, H2; [exact E | exact Hm].
      * intros n Hn. rewrite fmap_cons, not_elem_of_cons in Hn. apply H2, Hn.
Qed.

End Reconcile.

Section ReconcileRequest.
Context {G : Geometry} {S : Type} `{!RecordStoreAPI S} `{!RecordStoreLaws S}.
Implicit Types (d : Daemon S) (e : Engine).
Abbreviation att := attachedShareMemory_.

Lemma bool_filter_sublist {A} (f : A -> bool) (l : list A) : sublist (List.filter f l) l.
Proof. induction l as [|x l IH]; cbn [List.filter]; [done|]. destruct (f x); by constructor. Qed.

(** The memories of a process, each once. *)
Lemma users_memories d p :
  good_daemon d ->
  exists l, GetMemoryUsersByPid p (model d) = (l, model d) /\ NoDup (asm_name <$> l) /\
    forall mem, mem ∈ l <-> att d !! asm_name mem = Some mem /\ s32 p ∈ asm_pids mem.
Proof.
  intros [_ C]. eexists. split; [done|]. cbn [attachedShareMemory_ model].
  assert (Hname : forall n mem, att d !! n = Some mem -> asm_name mem = n) by (intros n mem E; by destruct (entry_good _ _ _ C E)). split.
  - set (f := fun memory => bool_decide (s32 p ∈ asm_pids memory)). apply (sublist_NoDup _ (asm_name <$> (map_to_list (att d)).*2)).
    + rewrite <- list_fmap_compose. erewrite list_fmap_ext; [apply (NoDup_fst_map_to_list (att d))|].
      intros i [n mem] Hi%list_elem_of_lookup_2%elem_of_map_to_list. cbn. by apply Hname.
    + apply fmap_sublist, bool_filter_sublist.
  - intros mem. rewrite list_elem_of_In, List.filter_In, <- list_elem_of_In, bool_decide_eq_true, list_elem_of_fmap. split.
    + intros [([n m'] & -> & Hin%elem_of_map_to_list) Hp]. cbn in *. by rewrite (Hname _ _ Hin).
    + intros [E Hp]. split; [|done]. exists (asm_name mem, mem). by rewrite elem_of_map_to_list.
Qed.

Lemma unlisted_names names mem : unlisted names mem = true <-> asm_name mem ∉ names.
Proof.
  unfold unlisted. rewrite negb_true_iff, <- not_true_iff_false, existsb_exists. split.
  - intros H Hin. apply H. exists (asm_name mem). by rewrite <- list_elem_of_In, String.eqb_eq.
  - intros H (x & Hin & Hx%String.eqb_eq). apply H. rewrite Hx. by apply list_elem_of_In.
Qed.

(** The detach calls of some memories, as those of the names of the last users among them. *)
Lemma leave_calls_names e l :
  (l ≫= leave_calls e) = (asm_name <$> filter last_user l) ≫= detach_calls e.
Proof.
  induction l as [|mem l IH]; [done|]. rewrite bind_cons, IH. unfold leave_calls. rewrite filter_cons. by destruct (decide (last_user mem)).
Qed.

(** C9: Reconciliation. A client that reports the memories it has mapped leaves exactly its others: a memory that is marked as
    deleted is forgotten, whoever else uses it; otherwise, with other users, the memory stays without this one, and as
    the last user the client has it detached, after which it is forgotten, or kept as it was when the engine
    refuses. The engine is called to detach these last memories, once each, and for nothing else. The memories that the client
    lists, and those it does not use, are not touched. *)
Theorem reconciliation_outcome e names u d :
  good_daemon d ->
  let '(r, d') := AppCheckShareMemoryMap e names u d in
  let p := s32 (uds_pid u) in
  r = MXM_OK /\ good_daemon d' /\
  (forall n, att d' !! n =
    match att d !! n with
    | Some mem => if decide (p ∈ asm_pids mem /\ n ∉ names) then left_of e p mem else Some mem
    | None => None
    end) /\
  exists detached, NoDup detached /\ engine_trace d' = engine_trace d ++ (detached ≫= detach_calls e) /\
    forall n, n ∈ detached <-> exists mem, att d !! n = Some mem /\ p ∈ asm_pids mem /\ n ∉ names /\ last_user mem.
Proof.
  intros Hg. destruct (tracks_Reconcile e names u d ltac:(apply Hg)) as [V' E]. pose proof Hg as [_ C].
  destruct (users_memories d (uds_pid u) Hg) as (l & El & Hnd & Hl).
  destruct (unmap_unlisted_spec e names u l (model d) C Hnd) as (m' & Em & C' & HT & H1 & H2); [intros mem; apply Hl|].
  unfold AppCheckShareMemoryMap at 1, bind in E. rewrite El, Em in E. destruct (AppCheckShareMemoryMap e names u d) as [r d']. cbn [fst snd] in *.
  injection E as <- ->. split_and!; [done | by split | |].
  - intros n. change (att d') with (att (model d')). destruct (att d !! n) as [mem|] eqn:En.
    + assert (Hn : asm_name mem = n) by (by destruct (entry_good _ _ _ C En)). subst n. destruct (decide (s32 (uds_pid u) ∈ asm_pids mem)) as [Hp|Hp].
      * rewrite H1 by (by apply Hl). pose proof (unlisted_names names mem) as Hu. destruct (unlisted names mem); [rewrite decide_True by tauto | rewrite decide_False]; [done..|].
        intros [_ Hx]. by apply Hu in Hx.
      * rewrite decide_False by tauto. rewrite H2; [done|]. rewrite list_elem_of_fmap. intros (mem' & Hx & [Hm Hp']%Hl). rewrite <- Hx, En in Hm. by simplify_eq.
    + rewrite H2; [done|]. rewrite list_elem_of_fmap. intros (mem' & -> & [Hm _]%Hl). congruence.
  - exists (asm_name <$> filter last_user (List.filter (unlisted names) l)). split_and!.
    + apply (sublist_NoDup _ (asm_name <$> l)); [done|]. apply fmap_sublist. etrans; [apply sublist_filter | apply bool_filter_sublist].
    + rewrite <- leave_calls_names. exact HT.
    + intros n. rewrite list_elem_of_fmap. setoid_rewrite list_elem_of_filter. setoid_rewrite list_elem_of_In. setoid_rewrite List.filter_In. setoid_rewrite <- list_elem_of_In.
      setoid_rewrite unlisted_names. setoid_rewrite Hl. split.
      * intros (mem & -> & Hlast & (Hm & Hp) & Hu). by exists mem.
      * intros (mem & Hm & Hp & Hu & Hlast). assert (Hn : asm_name mem = n) by (by destruct (entry_good _ _ _ C Hm)). subst n. by exists mem.
Qed.

End ReconcileRequest.

(** ** Witnesses *)

Section Witnesses.
#[local] Existing Instance small_geometry.

(** An engine on node 1 whose call near a socket times out, for processes bound to the first processor. *)
Definition slow_topology : Topology :=
  mkTopology ring_engine true (0%Z, Some ring_nodes) (0%Z, Some ring_links) [(0%Z, [0%Z])] (fun _ => (1%Z, None)) (0%Z, []) (fun n => n)
    (fun c => match c with CreateWithAffinity _ _ _ _ _ _ _ => UBS_ERR_TIMED_OUT | _ => 0%Z end) None (fun _ => Some (Z.eqb 0)) 4 4 (fun _ => 0%Z).

Definition slow_create (v : Service RecordStore.state) : Z * Service RecordStore.state :=
  ShmCreateRequested slow_topology "default" "m" 4096 "1" (ring_region ["2"; "3"]) 2 384 (mkUds 7 1000 1000) v.

Lemma services_are_persisted_witness :
  rtc service_step (fresh_service (started demo_os 3)) (slow_create ring1).2 /\ regions_persisted (slow_create ring1).2.
Proof.
  assert (H : rtc service_step (fresh_service (started demo_os 3)) (slow_create ring1).2).
  { apply rtc_l with ring1; [|apply rtc_once]; [apply OnCreateRegion; [by apply good_name_demo | done] | apply OnCreate]. }
  split; [exact H|]. refine (proj2 (proj2 (proj2 (services_are_persisted (started demo_os 3) _ _ _ _ _ H)))); [by apply started_valid, demo_restart | vm_compute; reflexivity..].
Defined.

Lemma create_request_outcome_witness : (slow_create ring0).1 = 0%Z /\ same_maps ring0 (slow_create ring0).2.
Proof.
  split; [vm_compute; reflexivity|].
  pose proof (create_request_outcome slow_topology "default" "m" 4096 "1" (ring_region ["2"; "3"]) 2 384 (mkUds 7 1000 1000) ring0 ltac:(apply ring0_good)) as H.
  unfold slow_create. destruct (ShmCreateRequested _ _ _ _ _ _ _ _ _ _) as [r v']. apply H.
Defined.



(** A region of nodes 2, 3 and 4 with affinity to 2 and 4; hosts "c" and "d" are asked for. *)
Lemma providers_are_preferred_witness :
  let region := mkRegionDesc 0 0 3 (true :: false :: true :: replicate 13 false) ("2" :: "3" :: "4" :: replicate 13 "") ("b" :: "c" :: "d" :: replicate 13 "") in
  let req := mkRegionDesc 0 0 2 (replicate 16 false) (replicate 16 "1") ("c" :: "d" :: replicate 14 "") in
  region_providers region req (node_pairs region req) [] = Some [4%Z].
Proof.
  intros region req. rewrite (providers_are_preferred region req [2; 3; 4]%Z [true; false; true]); [reflexivity | done | done | reflexivity | reflexivity |].
  apply (bool_decide_unpack (NoDup ["c"; "d"])). vm_compute. exact I.
Defined.

Lemma reconciliation_outcome_witness :
  (AppCheckShareMemoryMap demo_engine [] (mkUds 7 1000 1000) demo2).2.(attachedShareMemory_) !! "m" = Some (demo_entry {[8%Z]}).
Proof.
  pose proof (reconciliation_outcome demo_engine [] (mkUds 7 1000 1000) demo2 demo2_good) as H.
  destruct (AppCheckShareMemoryMap _ _ _ _) as [r d']. destruct H as (_ & _ & H & _). cbn [snd]. rewrite H, demo2_entry, lookup_singleton_eq.
  rewrite decide_True by (split; [vm_compute; set_solver | by apply not_elem_of_nil]). vm_compute. reflexivity.
Defined.

End Witnesses.
