(* ===== verification/Configuration.v ===== *)
(** The configuration of the daemon: [src/src/process/common/util/kv_parser.cpp],
    [configuration.cpp], [configuration_validator.h], [configuration_converter.h],
    [conf_constants.h] and the string helpers of [functions.cpp], with the part
    of [src/src/process/daemon/ock_daemon.cpp] that loads the configuration and
    hands it to the other components.

    A configuration file is a list of [key = value] lines. It is parsed into
    pairs, each value is converted to the type its key has in the table of
    defaults, and every item is then checked by the validator of its key; the
    validators of the two address items also set the nodes of [NetRpcConfig].

    The file system is a parameter, the record [Files] of the calls made on it.
    Texts of error messages are left out: an error is the key it is about. *)

From S2P Require Import Prelude NodeAddress.

(** ** Strings: [functions.cpp], [functions.h] and the library calls they make *)

(** [str.erase(0, str.find_first_not_of(c))] and
    [str.erase(str.find_last_not_of(c) + 1)]. *)
Fixpoint strip_front (c : ascii) (s : string) : string :=
  match s with String x s' => if Ascii.eqb x c then strip_front c s' else s | "" => "" end%string.

Fixpoint strip_back (c : ascii) (s : string) : string :=
  match s with
  | String x s' =>
      match strip_back c s' with
      | "" => if Ascii.eqb x c then "" else String x ""
      | s'' => String x s''
      end
  | "" => ""
  end%string.

Definition OckTrimString (str : string) : string := strip_back " " (strip_front " " str).

(** [std::getline(stream, item, delim)] until it fails: an empty last item is
    not read. *)
Fixpoint lines_at (delim : ascii) (item : string) (s : string) : list string :=
  match s with
  | "" => if bool_decide (item = "") then [] else [item]
  | String c s' => if Ascii.eqb c delim then item :: lines_at delim "" s' else lines_at delim (item +:+ String c "") s'
  end%string.

(** The loop of [SplitStr]: [pos2] is [str.find(separator, pos1)]. *)
Fixpoint split_loop (fuel : nat) (str separator : string) (pos1 : nat) (pos2 : option nat) : list string :=
  match pos2, fuel with
  | Some pos2, S fuel =>
      let next := pos2 + String.length separator in
      OckTrimString (String.substring pos1 (pos2 - pos1) str) :: split_loop fuel str separator next (String.index next separator str)
  | Some _, O => []
  | None, _ =>
      if Nat.eqb pos1 (String.length str) then []
      else [OckTrimString (String.substring pos1 (String.length str - pos1) str)]
  end.

Definition SplitStr (str separator : string) : list string :=
  if bool_decide (separator = "") then if bool_decide (str = "") then [] else [str]
  else split_loop (S (String.length str)) str separator 0 (String.index 0 separator str).

(** The overload that fills a [std::set]. *)
Definition SplitStr_set (str separator : string) : gset string := list_to_set (SplitStr str separator).

Definition LONG_MAX : Z := (2 ^ 63 - 1)%Z.
Definition LONG_MIN : Z := (- 2 ^ 63)%Z.
Definition INT32_MAX : Z := (2 ^ 31 - 1)%Z.
Definition INT32_MIN : Z := (- 2 ^ 31)%Z.

(** [std::strtol(src, &remain, 10)]: the value, the unparsed rest and whether
    [errno] is [ERANGE]. *)
Definition strtol (src : string) : Z * string * bool :=
  let s := skip_space src in
  let '(neg, s) := match s with String "-" s' => (true, s') | String "+" s' => (false, s') | _ => (false, s) end in
  if starts_digit s then
    let '(v, remain) := take_digits 0 s in
    let v := if neg : bool then (- v)%Z else v in
    if Z.ltb LONG_MAX v then (LONG_MAX, remain, true)
    else if Z.ltb v LONG_MIN then (LONG_MIN, remain, true) else (v, remain, false)
  else (0%Z, src, false).

Definition OckStol (str : string) : bool * Z :=
  let '(value, remain, erange) := strtol (c_str str) in
  if Nat.ltb 0 (String.length remain) || ((Z.eqb value LONG_MAX || Z.eqb value LONG_MIN) && erange) then (false, value)
  else if Z.eqb value 0 && negb (bool_decide (str = "0")) then (false, value)
  else (true, value).

(** [std::stoi(str)]: [None] is an exception. *)
Definition stoi (str : string) : option Z :=
  let s := c_str str in
  let '(value, remain, erange) := strtol s in
  if Nat.eqb (String.length remain) (String.length s) then None
  else if erange || Z.ltb value INT32_MIN || Z.ltb INT32_MAX value then None
  else Some value.

Definition tolower (c : ascii) : ascii :=
  if Z.leb 65 (code c) && Z.leb (code c) 90 then ascii_of_N (N_of_ascii c + 32) else c.

Fixpoint map_chars (f : ascii -> ascii) (s : string) : string :=
  match s with String c s' => String (f c) (map_chars f s') | "" => "" end%string.

Definition Str2Bool : gmap string bool := {["0" := false; "1" := true; "false" := false; "true" := true]}.

(** [None] when the string is not a boolean. *)
Definition IsBool (str : string) : option bool := Str2Bool !! map_chars tolower str.

(** ** The file system *)

(** What [stat] and [lstat] say of the kind of a file. *)
Inductive file_kind := S_IFREG | S_IFDIR | S_IFLNK | S_IFOTHER.

#[export] Instance file_kind_eq : EqDecision file_kind.
Proof. solve_decision. Defined.

Definition R_OK : Z := 4.
Definition W_OK : Z := 2.
Definition X_OK : Z := 1.
Definition F_OK : Z := 0.
Definition PATH_MAX : nat := 4096.

(** [fs_read] is the content of a file that a stream could be opened on; the
    others are the calls of their names, [None] and [false] when they fail. *)
Record Files := mkFiles {
  fs_realpath : string -> option string;
  fs_read : string -> option string;
  fs_access : string -> Z -> bool;
  fs_stat : string -> option file_kind;
  fs_lstat : string -> option file_kind
}.

Definition GetRealPath (fs : Files) (path : string) : option string :=
  if Nat.ltb PATH_MAX (String.length path) then None else fs_realpath fs (c_str path).

Definition OckFileDirExists (fs : Files) (path : string) : bool := fs_access fs (c_str path) F_OK.

Module FileUtil.

(** On the content of the stream, [None] for a stream that is not open. *)
Definition CheckFileSize (inConfFile : option string) (maxSize : Z) : bool :=
  match inConfFile with
  | None => false
  | Some content =>
      let fileSize := Z.of_nat (String.length content) in
      negb (Z.leb fileSize 0 || Z.ltb maxSize fileSize)
  end.

End FileUtil.

Definition HOK : Z := 0.
Definition HFAIL : Z := 1.
Definition MAX_LENGTH_COMMON_CONFIG : nat := 4096.
Definition MAX_CONF_FILE_SIZE : Z := 10485760.

(** ** The parser *)

Module KVParser.

Record KVParser := mkKVParser {
  mItemsIndex : gmap string nat;
  mItems : list (string * string);
  mGotKeys : gmap string bool
}.

Definition empty : KVParser := mkKVParser ∅ [] ∅.

Definition SetItem (key value : string) (p : KVParser) : Z * KVParser :=
  match mItemsIndex p !! key with
  | Some _ => (HFAIL, p)
  | None =>
      let items := mItems p ++ [(key, value)] in
      (HOK, mkKVParser (<[key := length items - 1]> (mItemsIndex p)) items
              (if bool_decide (is_Some (mGotKeys p !! key)) then mGotKeys p else <[key := true]> (mGotKeys p)))
  end.

Definition GetItem (key : string) (p : KVParser) : option string :=
  i ← mItemsIndex p !! key; snd <$> mItems p !! i.

Definition Size (p : KVParser) : Z := u32 (Z.of_nat (length (mItems p))).

(** The caller's strings are empty before the call, and stay so out of range. *)
Definition GetI (index : nat) (p : KVParser) : string * string := default ("", "") (mItems p !! index).

Definition CheckSet (keys : list string) (p : KVParser) : bool * KVParser :=
  (forallb (fun key => bool_decide (is_Some (mGotKeys p !! key))) keys, mkKVParser (mItemsIndex p) (mItems p) ∅).

(** One line of the file: [None] when the line is skipped, else the return code
    of the iteration, which ends the loop unless it is [HOK]. *)
Definition parse_line (strLine : string) (p : KVParser) : option (Z * KVParser) :=
  let strLine := OckTrimString (strip_back "013" strLine) in
  if bool_decide (strLine = "") || bool_decide (String.get 0 strLine = Some "#"%char) then None
  else if Nat.ltb MAX_LENGTH_COMMON_CONFIG (String.length strLine) then Some (HFAIL, p)
  else
    match String.index 0 "=" strLine with
    | None => None
    | Some equalDivPos =>
        let strKey := OckTrimString (String.substring 0 equalDivPos strLine) in
        let strValue := OckTrimString (String.substring (equalDivPos + 1) (String.length strLine - 1) strLine) in
        if bool_decide (strKey = "") || bool_decide (strValue = "") then Some (HFAIL, p)
        else Some (SetItem strKey strValue p)
    end.

Fixpoint parse_lines (lines : list string) (p : KVParser) : Z * KVParser :=
  match lines with
  | [] => (HOK, p)
  | strLine :: lines =>
      match parse_line strLine p with
      | None => parse_lines lines p
      | Some (hr, p) => if Z.eqb hr HOK then parse_lines lines p else (HFAIL, p)
      end
  end.

Definition FromFile (fs : Files) (filePath : string) (p : KVParser) : Z * KVParser :=
  match GetRealPath fs filePath with
  | None => (HFAIL, p)
  | Some path =>
      let inConfFile := fs_read fs path in
      if negb (FileUtil.CheckFileSize inConfFile MAX_CONF_FILE_SIZE) then (HFAIL, p)
      else parse_lines (lines_at "010" "" (default "" inConfFile)) p
  end.

End KVParser.

(** ** The constants: [conf_constants.h] *)

Module ConfConstant.

Definition MXMD_SERVER_LOG_PATH : string * string := ("ubsm.server.log.path", "/var/log/ubsm/").
Definition MXMD_SERVER_LOG_LEVEL : string * string := ("ubsm.server.log.level", "INFO").
Definition MXMD_SEVER_PERFORMANCE_STATISTICS_ENABLE : string * string := ("ubsm.performance.statistics.enable", "off").
Definition MXMD_SERVER_LOG_ROTATION_FILE_SIZE : string * Z := ("ubsm.server.log.rotation.file.size", 20%Z).
Definition MXMD_SERVER_LOG_ROTATION_FILE_COUNT : string * Z := ("ubsm.server.log.rotation.file.count", 10%Z).
Definition MXMD_SERVER_AUDIT_ENABLE : string * string := ("ubsm.server.audit.enable", "on").
Definition MXMD_SERVER_AUDIT_LOG_PATH : string * string := ("ubsm.server.audit.log.path", "/var/log/ubsm/").
Definition MXMD_SERVER_AUDIT_LOG_ROTATION_FILE_SIZE : string * Z := ("ubsm.server.audit.log.rotation.file.size", 20%Z).
Definition MXMD_SERVER_AUDIT_LOG_ROTATION_FILE_COUNT : string * Z := ("ubsm.server.audit.log.rotation.file.count", 10%Z).

Definition MXMD_FEATURES_ENABLE : string * string := ("mxmd.features.enable", "ubsmd").
Definition MXMD_DAEMON_RUNTIME : string * string := ("mxmd.daemon.runtime", "--runtime=").
Definition MXMD_DAEMON_CONFIG : string * string := ("mxmd.daemon.config", "--config=").
Definition MXMD_LOCK_DEV_NAME : string * string := ("ubsm.lock.dev.name", "bonding_dev_0").
Definition MXMD_LOCK_DEV_EID : string * string := ("ubsm.lock.dev.eid", "0000:0000:0000:1000:0010:0000:df00:0404").
Definition MXMD_LOCK_EXPIRE_TIME : string * Z := ("ubsm.lock.expire.time", 300%Z).
Definition MXMD_IS_LOCK_ENABLE : string * string := ("ubsm.lock.enable", "on").
Definition MXMD_IS_LOCK_UB_TOKEN_ENABLE : string * string := ("ubsm.lock.ub_token.enable", "on").
Definition MXMD_IS_LOCK_TLS_ENABLE : string * string := ("ubsm.lock.tls.enable", "on").
Definition UBSMD_LOCK_TLS_CA_PATH : string * string := ("ubsm.lock.tls.ca.path", "/path/cacert.pem").
Definition UBSMD_LOCK_TLS_CRL_PATH : string * string := ("ubsm.lock.tls.crl.path", "").
Definition UBSMD_LOCK_TLS_CERT_PATH : string * string := ("ubsm.lock.tls.cert.path", "/path/cert.pem").
Definition UBSMD_LOCK_TLS_KEY_PATH : string * string := ("ubsm.lock.tls.key.path", "/path/key.pem").
Definition UBSMD_LOCK_TLS_KEYPASS_PATH : string * string := ("ubsm.lock.tls.keypass.path", "/path/keypass.txt").
Definition MXMD_DISCOVERY_ELECTION_TIMEOUT : string * Z := ("ubsm.discovery.election.timeout", 1000%Z).
Definition MXMD_DISCOVERY_MIN_NODES : string * Z := ("ubsm.discovery.min.nodes", 0%Z).

Definition UBSMD_MAX_HCOM_CONNECT_NUM : string * Z := ("ubsm.hcom.max.connect.num", 128%Z).

Definition MXMD_SERVER_RPC_LOCAL_IPSEG : string * string := ("ubsm.server.rpc.local.ipseg", "127.0.0.1:7201").
Definition MXMD_SERVER_RPC_REMOTE_IPSEG : string * string := ("ubsm.server.rpc.remote.ipseg", "127.0.0.1:7301").

Definition UBSMD_SERVER_TLS_ENABLE : string * string := ("ubsm.server.tls.enable", "on").
Definition UBSMD_SERVER_TLS_CIPHERSUITS : string * string := ("ubsm.server.tls.ciphersuits", "aes_gcm_128").
Definition UBSMD_SERVER_TLS_CA_PATH : string * string := ("ubsm.server.tls.ca.path", "/path/cacert.pem").
Definition UBSMD_SERVER_TLS_CRL_PATH : string * string := ("ubsm.server.tls.crl.path", "").
Definition UBSMD_SERVER_TLS_CERT_PATH : string * string := ("ubsm.server.tls.cert.path", "/path/cert.pem").
Definition UBSMD_SERVER_TLS_KEY_PATH : string * string := ("ubsm.server.tls.key.path", "/path/key.pem").
Definition UBSMD_SERVER_TLS_KEYPASS_PATH : string * string := ("ubsm.server.tls.keypass.path", "/path/keypass.txt").

Definition MXMD_SERVER_LEASE_CACHE_ENABLE : string * string := ("ubsm.server.lease.cache.enable", "on").

Definition MIN_LOG_FILE_SIZE : Z := 2.
Definition MAX_LOG_FILE_SIZE : Z := 100.
Definition MIN_LOG_FILE_COUNT : Z := 1.
Definition MAX_LOG_FILE_COUNT : Z := 50.
Definition MIN_AUDIT_LOG_FILE_SIZE : Z := 2.
Definition MAX_AUDIT_LOG_FILE_SIZE : Z := 100.
Definition MIN_AUDIT_LOG_FILE_COUNT : Z := 1.
Definition MAX_AUDIT_LOG_FILE_COUNT : Z := 50.
Definition MAX_HCOM_CONNECT_NUM : Z := 256.
Definition MIN_HCOM_CONNECT_NUM : Z := 0.
Definition MIN_DISCOVERY_ELECTION_TIMEOUT : Z := 0.
Definition MAX_DISCOVERY_ELECTION_TIMEOUT : Z := 2000.
Definition MIN_DISCOVERY_MIN_NODES : Z := 0.
Definition MAX_DISCOVERY_MIN_NODES : Z := 30.
Definition MIN_LOCK_EXPIRE_TIME : Z := 30.
Definition MAX_LOCK_EXPIRE_TIME : Z := 86400.

End ConfConstant.
Import ConfConstant.

(** ** The validators: [configuration_validator.h] *)

Definition SEG : Z := 4.
Definition MAX_IP_SEG_NUM : Z := 255.
Definition MIN_PORT : Z := 7201.
Definition MAX_PORT : Z := 7800.

(** The subclasses of [Validator], with the fields their constructors set. *)
Inductive Validator :=
  | VNoCheck (mName : string)
  | VStrEnum (mName mEnumString : string)
  | VStrInSet (mName mEnumString : string) (validEnumSet : gset string)
  | VStrNotNull (mName : string)
  | VIntRange (mName : string) (mStart mEnd : Z)
  | VPathAccess (mName : string) (mFlag : Z)
  | VIpAndPort (mName : string)
  | VFileAccess (mName : string) (mFlag : bool).

(** The constructor of [VStrInSet] calls [Initialize]. *)
Definition VStrInSet_Create (name enumStr : string) : Validator := VStrInSet name enumStr (SplitStr_set enumStr "||").

(** [Initialize]: the result, and the validator, whose set it may fill. *)
Definition Initialize (v : Validator) : bool * Validator :=
  match v with
  | VStrEnum _ mEnumString => (negb (bool_decide (SplitStr_set mEnumString "||" = ∅)), v)
  | VStrInSet mName mEnumString validEnumSet =>
      let validEnumSet := validEnumSet ∪ SplitStr_set mEnumString "||" in
      (negb (bool_decide (validEnumSet = ∅)), VStrInSet mName mEnumString validEnumSet)
  | VIntRange _ mStart mEnd => (negb (Z.leb mEnd mStart), v)
  | _ => (true, v)
  end.

(** The nodes of [NetRpcConfig]. *)
Record RpcNodes := mkRpcNodes { rpc_local : RpcNode; rpc_remote : list RpcNode }.

Definition enum_validate (mEnumString value : string) : bool :=
  if bool_decide (is_Some (String.index 0 "||" value)) then false
  else bool_decide (is_Some (String.index 0 ("||" +:+ value +:+ "||") ("||" +:+ mEnumString +:+ "||"))).

Definition in_set_validate (validEnumSet : gset string) (value : string) : bool :=
  forallb (fun item => bool_decide (item ∈ validEnumSet)) (SplitStr value "|").

Definition all_digits (token : string) : bool := forallb isdigit (String.list_ascii_of_string token).

(** The loop over the parts of an address; [count] parts were read. The
    conversion cannot fail: a token is one to three digits. *)
Fixpoint ip_loop (tokens : list string) (count : Z) : option Z :=
  match tokens with
  | [] => Some count
  | token :: tokens =>
      let count := (count + 1)%Z in
      if Z.ltb SEG count then None
      else if bool_decide (token = "") || Z.ltb (SEG - 1) (Z.of_nat (String.length token)) then None
      else if negb (all_digits token) then None
      else
        match stoi token with
        | None => None
        | Some num =>
            if Z.ltb num 0 || Z.ltb MAX_IP_SEG_NUM num then None
            else if bool_decide (String.get 0 token = Some "0"%char) && Nat.ltb 1 (String.length token) then None
            else ip_loop tokens count
        end
  end.

Definition ValidateIp (ip : string) : bool :=
  match ip_loop (lines_at "." "" ip) 0 with Some count => Z.eqb count SEG | None => false end.

(** [None] is a refusal. The comparisons of the port are unsigned. *)
Definition ValidateIpAndPort (ipSeg : string) : option (string * Z) :=
  match SplitStr ipSeg ":" with
  | [ip; port] =>
      match stoi port with
      | None => None
      | Some port =>
          if Z.ltb (u32 port) MIN_PORT || Z.ltb MAX_PORT (u32 port) then None
          else if negb (ValidateIp ip) then None
          else Some (ip, (port mod 2 ^ 16)%Z)
      end
  | _ => None
  end.

(** [VIpAndPort::Validate], which stores the nodes it accepts. *)
Definition ip_and_port_validate (mName value : string) (net : RpcNodes) : bool * RpcNodes :=
  if bool_decide (mName = MXMD_SERVER_RPC_LOCAL_IPSEG.1) then
    match ValidateIpAndPort value with
    | None => (false, net)
    | Some ipAndPort => (true, mkRpcNodes (NetRpcConfig.SetLocalNode ipAndPort) (rpc_remote net))
    end
  else if bool_decide (mName = MXMD_SERVER_RPC_REMOTE_IPSEG.1) then
    match mapM ValidateIpAndPort (lines_at "," "" value) with
    | None => (false, net)
    | Some ipList => (true, mkRpcNodes (rpc_local net) (NetRpcConfig.SetRemoteNodes ipList (rpc_remote net)))
    end
  else (false, net).

(** [VPathAccess::Validate]: the deepest directory of the normalized path that
    exists, and the place where the walk stopped. The search always finds a
    separator: [fullPath] ends in one. *)
Fixpoint deepest_dir (fs : Files) (fuel : nat) (fullPath : string) (posLeft posRight : nat) (existDeepestDir : string) :
    string * nat :=
  match fuel with
  | O => (existDeepestDir, posRight)
  | S fuel =>
      if Nat.leb (String.length fullPath) posLeft then (existDeepestDir, posRight)
      else
        match String.index posLeft "/" fullPath with
        | None => (existDeepestDir, posRight)
        | Some posRight =>
            if Nat.ltb posLeft posRight && Nat.ltb 0 posLeft then
              let tmp := (existDeepestDir +:+ "/" +:+ String.substring posLeft (posRight - posLeft) fullPath)%string in
              if negb (fs_access fs (c_str tmp) F_OK) then (existDeepestDir, posRight)
              else deepest_dir fs fuel fullPath (posRight + 1) posRight tmp
            else deepest_dir fs fuel fullPath (posRight + 1) posRight existDeepestDir
        end
  end.

Definition forbiddenWords : list string := [".."].

Definition PathCheck (fs : Files) (mFlag : Z) (existDeepestDir rest : string) : bool :=
  if Nat.ltb PATH_MAX (String.length existDeepestDir) then false
  else
    match fs_realpath fs (c_str existDeepestDir) with
    | None => false
    | Some realBinPath =>
        if negb (fs_access fs realBinPath mFlag) then false
        else negb (existsb (fun forbidden => bool_decide (is_Some (String.index 0 (forbidden +:+ "/") rest))) forbiddenWords)
    end.

Definition last_char (s : string) : option ascii := String.get (String.length s - 1) s.

Definition path_validate (fs : Files) (mFlag : Z) (path : string) : bool :=
  if bool_decide (path = "") then false
  else
    match fs_realpath fs (c_str path) with
    | None => false
    | Some fullPath =>
        let fullPath := if bool_decide (last_char fullPath = Some "/"%char) then fullPath else (fullPath +:+ "/")%string in
        let '(existDeepestDir, posRight) := deepest_dir fs (S (String.length fullPath)) fullPath 0 0 "" in
        PathCheck fs mFlag existDeepestDir (String.substring posRight (String.length fullPath - posRight) fullPath)
    end.

(** [VFileAccess::Validate] and its [PathCheck]. *)
Definition file_validate (fs : Files) (mFlag : bool) (filePath : string) : bool :=
  if bool_decide (filePath = "") then negb mFlag
  else if negb (bool_decide (String.get 0 filePath = Some "/"%char)) then false
  else
    match fs_realpath fs (c_str filePath) with
    | None => false
    | Some realPath =>
        if negb (bool_decide (c_str filePath = realPath)) then false
        else
          match fs_lstat fs (c_str filePath) with
          | None => false
          | Some st =>
              if bool_decide (st = S_IFLNK) then false
              else if negb (bool_decide (st = S_IFREG)) then false
              else fs_access fs (c_str filePath) R_OK
          end
    end.

(** The virtual methods [Validate(const std::string &)] and [Validate(int)]. *)
Definition Validate_string (fs : Files) (v : Validator) (value : string) (net : RpcNodes) : bool * RpcNodes :=
  match v with
  | VStrEnum _ mEnumString => (enum_validate mEnumString value, net)
  | VStrInSet _ _ validEnumSet => (in_set_validate validEnumSet value, net)
  | VStrNotNull _ => (negb (bool_decide (value = "")), net)
  | VPathAccess _ mFlag => (path_validate fs mFlag value, net)
  | VIpAndPort mName => ip_and_port_validate mName value net
  | VFileAccess _ mFlag => (file_validate fs mFlag value, net)
  | VNoCheck _ | VIntRange _ _ _ => (true, net)
  end.

Definition Validate_int (v : Validator) (value : Z) : bool :=
  match v with
  | VIntRange _ mStart mEnd => negb (Z.ltb value mStart || Z.ltb mEnd value)
  | _ => true
  end.

(** ** The configuration: [configuration.cpp], [configuration.h] *)

Definition DBG_LOG_DEBUG : Z := 1.
Definition DBG_LOG_INFO : Z := 2.
Definition DBG_LOG_WARN : Z := 3.
Definition DBG_LOG_ERROR : Z := 4.
Definition DBG_LOG_CRITICAL : Z := 5.

Module LogAdapter.

Definition MapStringToLevel (level : string) : Z :=
  if bool_decide (level = "DEBUG") then DBG_LOG_DEBUG
  else if bool_decide (level = "INFO") then DBG_LOG_INFO
  else if bool_decide (level = "WARN") then DBG_LOG_WARN
  else if bool_decide (level = "ERROR") then DBG_LOG_ERROR
  else if bool_decide (level = "CRITICAL") then DBG_LOG_CRITICAL
  else (-1)%Z.

Definition StringToLogLevel (level : string) : Z :=
  let logLevel := MapStringToLevel level in
  if Z.leb 0 logLevel then logLevel else DBG_LOG_INFO.

End LogAdapter.

Definition CONF_MUST : Z := 1.

Inductive ConfValueType := VINT | VFLOAT | VSTRING | VBOOL | VLONG.

(** The only converter; [None] in a map of converters would be a null pointer. *)
Inductive Converter := ConLogLevel.

(** A signed number of at most ten digits. *)
Definition int_to_string (z : Z) : string :=
  if Z.ltb z 0 then String "-" (to_string 19 (- z)) else to_string 19 z.

Definition Convert (c : Converter) (str : string) : string :=
  match c with ConLogLevel => int_to_string (LogAdapter.StringToLogLevel str) end.

(** [mFloatItems] is not a field: nothing ever adds to it. [mValueValidator] is
    kept in the order of its keys, in which it is iterated. *)
Record Conf := mkConf {
  mConfigPath : string;
  mIntItems : gmap string Z;
  mStrItems : gmap string string;
  mBoolItems : gmap string bool;
  mLongItems : gmap string Z;
  mValueTypes : gmap string ConfValueType;
  mValueValidator : list (string * Validator);
  mValueConverter : gmap string Converter;
  mMustKeys : list string;
  mLoadDefaultErrors : list string;
  mPathConfs : list string;
  mInitialized : bool
}.

(** [insert], or assignment through [at] when the key is there, in a [std::map]. *)
Fixpoint map_put {V} (k : string) (v : V) (l : list (string * V)) : list (string * V) :=
  match l with
  | [] => [(k, v)]
  | (k', v') :: l' =>
      if bool_decide (k = k') then (k, v) :: l'
      else if string_lt k k' then (k, v) :: l else (k', v') :: map_put k v l'
  end.

Fixpoint map_get {V} (k : string) (l : list (string * V)) : option V :=
  match l with [] => None | (k', v) :: l' => if bool_decide (k = k') then Some v else map_get k l' end.

(** [insert] leaves a key that is there alone. *)
Definition emplace {V} (k : string) (v : V) (m : gmap string V) : gmap string V :=
  match m !! k with Some _ => m | None => <[k := v]> m end.

(** [at(key) = value] when the key is there. *)
Definition assign {V} (k : string) (v : V) (m : gmap string V) : gmap string V :=
  match m !! k with Some _ => <[k := v]> m | None => m end.

Module Configuration.

(** The members of an object before [LoadConfigurations]. *)
Definition blank : Conf := mkConf "" ∅ ∅ ∅ ∅ ∅ [] ∅ [] [] [] false.

Definition mInvalidSetConfs : list string := [MXMD_DAEMON_RUNTIME.1; MXMD_DAEMON_CONFIG.1].

Definition with_ints (c : Conf) m := mkConf (mConfigPath c) m (mStrItems c) (mBoolItems c) (mLongItems c) (mValueTypes c)
  (mValueValidator c) (mValueConverter c) (mMustKeys c) (mLoadDefaultErrors c) (mPathConfs c) (mInitialized c).

Definition with_strs (c : Conf) m := mkConf (mConfigPath c) (mIntItems c) m (mBoolItems c) (mLongItems c) (mValueTypes c)
  (mValueValidator c) (mValueConverter c) (mMustKeys c) (mLoadDefaultErrors c) (mPathConfs c) (mInitialized c).

Definition with_bools (c : Conf) m := mkConf (mConfigPath c) (mIntItems c) (mStrItems c) m (mLongItems c) (mValueTypes c)
  (mValueValidator c) (mValueConverter c) (mMustKeys c) (mLoadDefaultErrors c) (mPathConfs c) (mInitialized c).

Definition with_longs (c : Conf) m := mkConf (mConfigPath c) (mIntItems c) (mStrItems c) (mBoolItems c) m (mValueTypes c)
  (mValueValidator c) (mValueConverter c) (mMustKeys c) (mLoadDefaultErrors c) (mPathConfs c) (mInitialized c).

Definition with_types (c : Conf) m := mkConf (mConfigPath c) (mIntItems c) (mStrItems c) (mBoolItems c) (mLongItems c) m
  (mValueValidator c) (mValueConverter c) (mMustKeys c) (mLoadDefaultErrors c) (mPathConfs c) (mInitialized c).

Definition with_errors (c : Conf) l := mkConf (mConfigPath c) (mIntItems c) (mStrItems c) (mBoolItems c) (mLongItems c)
  (mValueTypes c) (mValueValidator c) (mValueConverter c) (mMustKeys c) l (mPathConfs c) (mInitialized c).

Definition with_initialized (c : Conf) b := mkConf (mConfigPath c) (mIntItems c) (mStrItems c) (mBoolItems c) (mLongItems c)
  (mValueTypes c) (mValueValidator c) (mValueConverter c) (mMustKeys c) (mLoadDefaultErrors c) (mPathConfs c) b.

(** A validator that could not be created is [None]. *)
Definition SetValidator (key : string) (validator : option Validator) (flag : Z) (c : Conf) : Conf :=
  match validator with
  | None => with_errors c (mLoadDefaultErrors c ++ [key])
  | Some validator =>
      mkConf (mConfigPath c) (mIntItems c) (mStrItems c) (mBoolItems c) (mLongItems c) (mValueTypes c)
        (map_put key validator (mValueValidator c)) (mValueConverter c)
        (if negb (Z.eqb (Z.land flag CONF_MUST) 0) then mMustKeys c ++ [key] else mMustKeys c)
        (mLoadDefaultErrors c) (mPathConfs c) (mInitialized c)
  end.

Definition AddIntConf (kv : string * Z) (validator : option Validator) (flag : Z) (c : Conf) : Conf :=
  let c := with_ints c (emplace kv.1 kv.2 (mIntItems c)) in
  let c := with_types c (emplace kv.1 VINT (mValueTypes c)) in
  SetValidator kv.1 validator flag c.

Definition AddStrConf (kv : string * string) (validator : option Validator) (flag : Z) (c : Conf) : Conf :=
  let c := with_strs c (emplace kv.1 kv.2 (mStrItems c)) in
  let c := with_types c (emplace kv.1 VSTRING (mValueTypes c)) in
  SetValidator kv.1 validator flag c.

Definition AddPathConf (kv : string * string) (validator : option Validator) (flag : Z) (c : Conf) : Conf :=
  let c := AddStrConf kv validator flag c in
  mkConf (mConfigPath c) (mIntItems c) (mStrItems c) (mBoolItems c) (mLongItems c) (mValueTypes c) (mValueValidator c)
    (mValueConverter c) (mMustKeys c) (mLoadDefaultErrors c) (mPathConfs c ++ [kv.1]) (mInitialized c).

Definition AddConverter (key : string) (converter : option Converter) (c : Conf) : Conf :=
  match converter with
  | None => with_errors c (mLoadDefaultErrors c ++ [key])
  | Some converter =>
      mkConf (mConfigPath c) (mIntItems c) (mStrItems c) (mBoolItems c) (mLongItems c) (mValueTypes c) (mValueValidator c)
        (<[key := converter]> (mValueConverter c)) (mMustKeys c) (mLoadDefaultErrors c) (mPathConfs c) (mInitialized c)
  end.

(** The steps of [LoadDefault], in its order. *)
Inductive conf_item :=
  | IntConf (kv : string * Z) (validator : Validator) (flag : Z)
  | StrConf (kv : string * string) (validator : Validator) (flag : Z)
  | PathConf (kv : string * string) (validator : Validator) (flag : Z)
  | LevelConverter (key : string).

Definition add_item (c : Conf) (item : conf_item) : Conf :=
  match item with
  | IntConf kv validator flag => AddIntConf kv (Some validator) flag c
  | StrConf kv validator flag => AddStrConf kv (Some validator) flag c
  | PathConf kv validator flag => AddPathConf kv (Some validator) flag c
  | LevelConverter key => AddConverter key (Some ConLogLevel) c
  end.

Definition int_range (kv : string * Z) (start stop : Z) : conf_item :=
  IntConf kv (VIntRange kv.1 start stop) CONF_MUST.

Definition str_enum (kv : string * string) (enumStr : string) : conf_item :=
  StrConf kv (VStrEnum kv.1 enumStr) CONF_MUST.

Definition path_access (kv : string * string) : conf_item :=
  PathConf kv (VPathAccess kv.1 (Z.lor (Z.lor R_OK W_OK) X_OK)) CONF_MUST.

Definition unchecked (kv : string * string) : conf_item := StrConf kv (VNoCheck "") 0.

Definition defaults : list conf_item := [
  unchecked MXMD_DAEMON_RUNTIME;
  unchecked MXMD_DAEMON_CONFIG;
  path_access MXMD_SERVER_LOG_PATH;
  str_enum MXMD_SERVER_LOG_LEVEL "DEBUG||INFO||WARN||ERROR||CRITICAL";
  LevelConverter MXMD_SERVER_LOG_LEVEL.1;
  int_range MXMD_SERVER_LOG_ROTATION_FILE_SIZE MIN_LOG_FILE_SIZE MAX_LOG_FILE_SIZE;
  int_range UBSMD_MAX_HCOM_CONNECT_NUM MIN_HCOM_CONNECT_NUM MAX_HCOM_CONNECT_NUM;
  int_range MXMD_SERVER_LOG_ROTATION_FILE_COUNT MIN_LOG_FILE_COUNT MAX_LOG_FILE_COUNT;
  str_enum MXMD_SERVER_AUDIT_ENABLE "on||off";
  str_enum MXMD_SEVER_PERFORMANCE_STATISTICS_ENABLE "on||off";
  path_access MXMD_SERVER_AUDIT_LOG_PATH;
  int_range MXMD_SERVER_AUDIT_LOG_ROTATION_FILE_SIZE MIN_AUDIT_LOG_FILE_SIZE MAX_AUDIT_LOG_FILE_SIZE;
  int_range MXMD_SERVER_AUDIT_LOG_ROTATION_FILE_COUNT MIN_AUDIT_LOG_FILE_COUNT MAX_AUDIT_LOG_FILE_COUNT;
  int_range MXMD_DISCOVERY_ELECTION_TIMEOUT MIN_DISCOVERY_ELECTION_TIMEOUT MAX_DISCOVERY_ELECTION_TIMEOUT;
  int_range MXMD_DISCOVERY_MIN_NODES MIN_DISCOVERY_MIN_NODES MAX_DISCOVERY_MIN_NODES;
  StrConf MXMD_SERVER_RPC_LOCAL_IPSEG (VIpAndPort MXMD_SERVER_RPC_LOCAL_IPSEG.1) 0;
  StrConf MXMD_SERVER_RPC_REMOTE_IPSEG (VIpAndPort MXMD_SERVER_RPC_REMOTE_IPSEG.1) 0;
  str_enum MXMD_IS_LOCK_ENABLE "on||off";
  str_enum MXMD_IS_LOCK_UB_TOKEN_ENABLE "on||off";
  str_enum MXMD_IS_LOCK_TLS_ENABLE "on||off";
  unchecked UBSMD_LOCK_TLS_CA_PATH;
  unchecked UBSMD_LOCK_TLS_CRL_PATH;
  unchecked UBSMD_LOCK_TLS_CERT_PATH;
  unchecked UBSMD_LOCK_TLS_KEY_PATH;
  unchecked UBSMD_LOCK_TLS_KEYPASS_PATH;
  unchecked MXMD_LOCK_DEV_NAME;
  unchecked MXMD_LOCK_DEV_EID;
  int_range MXMD_LOCK_EXPIRE_TIME MIN_LOCK_EXPIRE_TIME MAX_LOCK_EXPIRE_TIME;
  str_enum UBSMD_SERVER_TLS_ENABLE "on||off";
  str_enum UBSMD_SERVER_TLS_CIPHERSUITS "aes_gcm_128||aes_gcm_256||aes_ccm_128||chacha20_poly1305";
  unchecked UBSMD_SERVER_TLS_CA_PATH;
  unchecked UBSMD_SERVER_TLS_CRL_PATH;
  unchecked UBSMD_SERVER_TLS_CERT_PATH;
  unchecked UBSMD_SERVER_TLS_KEY_PATH;
  unchecked UBSMD_SERVER_TLS_KEYPASS_PATH;
  str_enum MXMD_SERVER_LEASE_CACHE_ENABLE "on||off" ].

Definition LoadDefault (c : Conf) : Conf := foldl add_item c defaults.

Definition LoadConfigurations (c : Conf) : Conf :=
  let c := with_initialized (with_errors c []) false in
  let c := LoadDefault c in
  if negb (bool_decide (mLoadDefaultErrors c = [])) then with_errors c []
  else with_initialized (with_errors c []) true.

(** The constructor. *)
Definition create : Conf := LoadConfigurations blank.

Definition GetInt (key : string) (defaultValue : Z) (c : Conf) : Z := default defaultValue (mIntItems c !! key).

Definition GetString (key : string) (defaultValue : string) (c : Conf) : string :=
  default defaultValue (mStrItems c !! key).

Definition Set_int (key : string) (value : Z) (c : Conf) : Conf := with_ints c (assign key value (mIntItems c)).

Definition Set_string (key value : string) (c : Conf) : Conf := with_strs c (assign key value (mStrItems c)).

Definition Set_bool (key : string) (value : bool) (c : Conf) : Conf := with_bools c (assign key value (mBoolItems c)).

Definition Set_long (key : string) (value : Z) (c : Conf) : Conf := with_longs c (assign key value (mLongItems c)).

Definition GetConvertedValue (key : string) (c : Conf) : string :=
  match mValueTypes c !! key with
  | None => ""
  | Some valueType =>
      let value :=
        match valueType with
        | VSTRING => default "" (mStrItems c !! key)
        | VBOOL => from_option (fun b : bool => if b then "1" else "0") "" (mBoolItems c !! key)
        | VLONG => from_option int_to_string "" (mLongItems c !! key)
        | VINT => from_option int_to_string "" (mIntItems c !! key)
        | VFLOAT => ""
        end in
      match mValueConverter c !! key with None => value | Some converter => Convert converter value end
  end.

(** [None] is the exception of [at] on a key that is not there. A failed
    conversion of a [long] stores what it read. *)
Definition SetWithTypeAutoConvert (fs : Files) (key value : string) (c : Conf) : option (bool * Conf) :=
  match mValueTypes c !! key with
  | None => Some (false, c)
  | Some valueType =>
      if bool_decide (key ∈ mInvalidSetConfs) then Some (false, c)
      else
        match valueType with
        | VINT =>
            let '(ok, tmp) := OckStol value in
            if negb ok || Z.ltb INT32_MAX tmp || Z.ltb tmp INT32_MIN then Some (false, c)
            else Some (true, with_ints c (assign key tmp (mIntItems c)))
        | VFLOAT => None
        | VSTRING =>
            match mStrItems c !! key with
            | None => Some (true, c)
            | Some _ =>
                match (if bool_decide (key ∈ mPathConfs c) then GetRealPath fs value else Some value) with
                | None => Some (false, c)
                | Some tempValue => Some (true, with_strs c (<[key := tempValue]> (mStrItems c)))
                end
            end
        | VBOOL =>
            match IsBool value with
            | None => Some (false, c)
            | Some b => Some (true, with_bools c (assign key b (mBoolItems c)))
            end
        | VLONG =>
            match mLongItems c !! key with
            | None => None
            | Some _ =>
                let '(ok, tmp) := OckStol value in
                Some (ok, with_longs c (<[key := tmp]> (mLongItems c)))
            end
        end
  end.

(** What [FromFile] does: throw, return a null pointer, or a configuration. *)
Inductive load := Threw | Null | Loaded (c : Conf).

(** The items [i, i + 1, ...] of the parser, [n] of them. *)
Fixpoint set_items (fs : Files) (p : KVParser.KVParser) (n i : nat) (c : Conf) : load :=
  match n with
  | O => Loaded c
  | S n =>
      let '(key, value) := KVParser.GetI i p in
      match SetWithTypeAutoConvert fs key value c with
      | None => Threw
      | Some (false, _) => Null
      | Some (true, c) => set_items fs p n (i + 1) c
      end
  end.

Definition MAX_CONF_ITEM_COUNT : Z := 100.

Definition SetConfigPath (filePath : string) (c : Conf) : Conf :=
  mkConf filePath (mIntItems c) (mStrItems c) (mBoolItems c) (mLongItems c) (mValueTypes c) (mValueValidator c)
    (mValueConverter c) (mMustKeys c) (mLoadDefaultErrors c) (mPathConfs c) (mInitialized c).

Definition FromFile (fs : Files) (filePath : string) : load :=
  let conf := create in
  if negb (mInitialized conf) then Null
  else
    let '(hr, kvParser) := KVParser.FromFile fs filePath KVParser.empty in
    if negb (Z.eqb hr 0) then Null
    else
      let size := KVParser.Size kvParser in
      if Z.ltb MAX_CONF_ITEM_COUNT size then Null
      else
        match set_items fs kvParser (Z.to_nat size) 0 conf with
        | Loaded conf =>
            let conf := SetConfigPath filePath conf in
            if negb (KVParser.CheckSet (mMustKeys conf) kvParser).1 then Null else Loaded conf
        | other => other
        end.

(** [gInstance] is [None] until a configuration is loaded. The outer [None] is
    an exception. *)
Definition GetInstance (fs : Files) (filePath : string) (gInstance : option Conf) : option (option Conf) :=
  match gInstance with
  | Some c => Some (Some c)
  | None => match FromFile fs filePath with Threw => None | Null => Some None | Loaded c => Some (Some c) end
  end.

(** The checks of one item: the errors it adds, each the key it is about. *)
Definition ValidateOneType (fs : Files) (key : string) (validator : Validator) (vType : ConfValueType) (c : Conf)
    (net : RpcNodes) : list string * RpcNodes :=
  match vType with
  | VSTRING =>
      match mStrItems c !! key with
      | None => ([key], net)
      | Some value => let '(ok, net) := Validate_string fs validator value net in (if ok : bool then [] else [key], net)
      end
  | VINT =>
      match mIntItems c !! key with
      | None => ([key], net)
      | Some value => (if Validate_int validator value then [] else [key], net)
      end
  | VFLOAT => ([key], net)
  | VLONG => match mLongItems c !! key with None => ([key], net) | Some _ => ([], net) end
  | VBOOL => ([], net)
  end.

Definition ValidateItem (fs : Files) (itemKey : string) (c : Conf) (net : RpcNodes) : list string * RpcNodes :=
  match map_get itemKey (mValueValidator c), mValueTypes c !! itemKey with
  | Some validator, Some vType => ValidateOneType fs itemKey validator vType c net
  | _, _ => ([itemKey], net)
  end.

Fixpoint validate_items (fs : Files) (keys : list string) (c : Conf) (net : RpcNodes) : list string * RpcNodes :=
  match keys with
  | [] => ([], net)
  | key :: keys =>
      let '(errors, net) := ValidateItem fs key c net in
      let '(rest, net) := validate_items fs keys c net in
      (errors ++ rest, net)
  end.

Definition ValidateDaemonConf (fs : Files) (c : Conf) (net : RpcNodes) : list string * RpcNodes :=
  validate_items fs (fst <$> mValueValidator c) c net.

(** [Validate], which initializes every validator first. *)
Fixpoint ValidateOneValueMap (fs : Files) (items : list (string * Validator)) (c : Conf) (net : RpcNodes) :
    list string * RpcNodes :=
  match items with
  | [] => ([], net)
  | (key, validator) :: items =>
      let '(errors, net) :=
        let '(ok, validator) := Initialize validator in
        if negb ok then ([key], net)
        else match mValueTypes c !! key with
             | None => ([key], net)
             | Some vType => ValidateOneType fs key validator vType c net
             end in
      let '(rest, net) := ValidateOneValueMap fs items c net in
      (errors ++ rest, net)
  end.

Definition Validate (fs : Files) (c : Conf) (net : RpcNodes) : list string * RpcNodes :=
  ValidateOneValueMap fs (mValueValidator c) c net.

Definition ValidateFilePath (fs : Files) (filePaths : list (string * bool)) : list string :=
  filePaths ≫= fun item => if file_validate fs item.2 item.1 then [] else [item.1].

End Configuration.
