(* ===== verification/ConfigurationTheorems.v ===== *)
(** What a configuration file means: the parser reads back what a file lays
    out, a loaded configuration has a value of the right type for every item,
    and a configuration that passes the validation lies in the ranges the rest
    of the daemon relies on. *)

From S2P Require Import Prelude NodeAddress Configuration.
Import ConfConstant.

#[local] Arguments String.append : simpl nomatch.

(** ** Strings *)

(** [n] spaces. *)
Fixpoint spaces (n : nat) : string := match n with O => "" | S n => String " " (spaces n) end%string.

Lemma strip_front_spaces n s : strip_front " " (spaces n +:+ s) = strip_front " " s.
Proof. induction n as [|n IH]; simpl; [done | exact IH]. Qed.

Lemma strip_back_app c s t : strip_back c t <> ""%string -> strip_back c (s +:+ t) = (s +:+ strip_back c t)%string.
Proof.
  intros Ht. induction s as [|x s IH]; simpl; [done|]. rewrite IH. destruct (s +:+ strip_back c t)%string eqn:E; [|done].
  by destruct s, (strip_back c t).
Qed.

Lemma strip_back_all c t s : strip_back c t = ""%string -> strip_back c (s +:+ t) = strip_back c s.
Proof. intros Ht. induction s as [|x s IH]; simpl; [done|]. by rewrite IH. Qed.

Lemma strip_back_spaces n : strip_back " " (spaces n) = ""%string.
Proof. induction n as [|n IH]; simpl; [done | by rewrite IH]. Qed.

Lemma strip_front_app c s t : strip_front c s = s -> s <> ""%string -> strip_front c (s +:+ t) = (s +:+ t)%string.
Proof.
  destruct s as [|x s]; [done|]. simpl. destruct (Ascii.eqb x c) eqn:E; [|done]. intros H _. exfalso.
  assert (Hlen : forall u, String.length (strip_front c u) <= String.length u).
  { clear. intros u. induction u as [|y u IH]; simpl; [done|]. destruct (Ascii.eqb y c); simpl; lia. }
  specialize (Hlen s). rewrite H in Hlen. simpl in Hlen. lia.
Qed.

(** A text with no space at either end and no carriage return at its end. *)
Definition clean (s : string) : bool :=
  negb (bool_decide (s = "")) && bool_decide (strip_front " " s = s) && bool_decide (strip_back " " s = s) &&
  bool_decide (strip_back "013" s = s).

Lemma clean_iff s : clean s = true <->
  s <> ""%string /\ strip_front " " s = s /\ strip_back " " s = s /\ strip_back "013" s = s.
Proof. unfold clean. rewrite !andb_true_iff, negb_true_iff, bool_decide_eq_false, !bool_decide_eq_true. tauto. Qed.

Lemma trim_clean a b s : clean s = true -> OckTrimString (spaces a +:+ s +:+ spaces b) = s.
Proof.
  rewrite clean_iff. intros (Hne & Hf & Hb & _). unfold OckTrimString.
  rewrite strip_front_spaces, strip_front_app by done. by rewrite strip_back_all by apply strip_back_spaces.
Qed.

(** ** Lines *)

Definition lacks (c : ascii) (s : string) : Prop := all_chars (fun x => x <> c) s.

Lemma lines_at_first d item s t :
  lacks d s -> lines_at d item (s +:+ String d t) = (item +:+ s)%string :: lines_at d "" t.
Proof.
  revert item. induction s as [|c s IH]; intros item Hs; simpl.
  - by rewrite Ascii.eqb_refl, string_app_nil_r.
  - destruct Hs as [Hc Hs]. rewrite (proj2 (Ascii.eqb_neq _ _) Hc), IH by done. by rewrite string_app_assoc.
Qed.

Lemma lines_at_last d item s :
  lacks d s -> (item +:+ s <> "")%string -> lines_at d item s = [(item +:+ s)%string].
Proof.
  revert item. induction s as [|c s IH]; intros item Hs Hne; simpl.
  - rewrite string_app_nil_r in *. by rewrite bool_decide_eq_false_2.
  - destruct Hs as [Hc Hs]. rewrite (proj2 (Ascii.eqb_neq _ _) Hc), IH; rewrite ?string_app_assoc; done.
Qed.

(** The items separated by [d]. *)
Fixpoint join (d : ascii) (l : list string) : string :=
  match l with
  | [] => ""
  | [s] => s
  | s :: l => s +:+ String d (join d l)
  end%string.

Lemma join_cons d s l : l <> [] -> join d (s :: l) = (s +:+ String d (join d l))%string.
Proof. by destruct l. Qed.

Lemma lines_at_join d l :
  Forall (lacks d) l -> last l <> Some ""%string ->
  lines_at d "" (join d l) = l /\ (l <> [] -> lines_at d "" (join d l +:+ String d "") = l).
Proof.
  intros Hl Hlast. induction Hl as [|s l Hs Hl IH]; [done|].
  destruct (decide (l = [])) as [->|Hne].
  - simpl. split; [apply (lines_at_last d "" s Hs); simpl; by intros ->|]. intros _. by apply (lines_at_first d "" s "").
  - rewrite join_cons by done. assert (Hlast' : last l <> Some ""%string) by (by destruct l).
    destruct (IH Hlast') as [IH1 IH2]. rewrite lines_at_first, IH1 by done. split; [done|]. intros _.
    rewrite string_app_assoc. simpl. rewrite lines_at_first, IH2 by done. done.
Qed.

(** Reading the items of a text loses at most one separator, at its end. *)
Lemma lines_at_text d item s :
  (item +:+ s = join d (lines_at d item s) \/ item +:+ s = join d (lines_at d item s) +:+ String d "")%string.
Proof.
  revert item. induction s as [|c s IH]; intros item; simpl.
  - rewrite string_app_nil_r. case_bool_decide as E; [subst; by left | by left].
  - destruct (Ascii.eqb_spec c d) as [->|Hc].
    + destruct (IH ""%string) as [E|E]; simpl in E; destruct (decide (lines_at d "" s = [])) as [El|Hl].
      * rewrite El in *. simpl in *. subst s. by right.
      * rewrite join_cons by done. left. by rewrite E at 1.
      * rewrite El in *. simpl in *. subst s. exfalso. simpl in El. by rewrite Ascii.eqb_refl in El.
      * rewrite join_cons by done. right. rewrite string_app_assoc. simpl. by rewrite E at 1.
    + destruct (IH (item +:+ String c "")%string) as [E|E]; rewrite string_app_assoc in E; simpl in E; [by left | by right].
Qed.

(** ** [find], [substr] and [SplitStr] *)

Lemma first_at d s : lacks d s \/ exists a t, s = (a +:+ String d t)%string /\ lacks d a.
Proof.
  induction s as [|c s IH]; [by left|]. destruct (decide (c = d)) as [->|Hc]; [right; by exists "", s|].
  destruct IH as [IH|(a & t & -> & Ha)]; [by left | right]. by exists (String c a), t.
Qed.

Lemma index_lacks d s : lacks d s -> String.index 0 (String d "") s = None.
Proof.
  induction s as [|c s IH]; [done|]. intros [Hc Hs]. cbn [String.index String.prefix].
  destruct (ascii_dec d c) as [->|]; [done|]. by rewrite IH.
Qed.

Lemma index_first d a t : lacks d a -> String.index 0 (String d "") (a +:+ String d t) = Some (String.length a).
Proof.
  induction a as [|c a IH]; simpl.
  - intros _. destruct (ascii_dec d d); [|done]. by destruct t.
  - intros [Hc Ha]. destruct (ascii_dec d c) as [->|]; [done|]. by rewrite IH.
Qed.

Lemma index_after pat p s : String.index (String.length p) pat (p +:+ s) = (fun i => String.length p + i) <$> String.index 0 pat s.
Proof.
  induction p as [|c p IH]; simpl; [by destruct (String.index 0 pat s)|]. rewrite IH. by destruct (String.index 0 pat s).
Qed.

Lemma substring_prefix s t : String.substring 0 (String.length s) (s +:+ t) = s.
Proof. induction s as [|c s IH]; simpl; [by destruct t | by rewrite IH]. Qed.

Lemma substring_after p s n : String.substring (String.length p) n (p +:+ s) = String.substring 0 n s.
Proof. induction p as [|c p IH]; simpl; done. Qed.

Lemma substring_all n s : String.length s <= n -> String.substring 0 n s = s.
Proof.
  revert n. induction s as [|c s IH]; intros [|n] Hn; simpl in *; try done; [lia|]. by rewrite IH by lia.
Qed.

Lemma substring_behind p x t n :
  String.length t <= n -> String.substring (String.length p + 1) n (p +:+ String x t) = t.
Proof.
  intros Hn. replace (String.length p + 1) with (String.length (p +:+ String x "")) by (rewrite string_length_app; simpl; lia).
  replace (p +:+ String x t)%string with ((p +:+ String x "") +:+ t)%string by (by rewrite string_app_assoc).
  by rewrite substring_after, substring_all.
Qed.

Lemma split_loop_lines d fuel p s :
  String.length s < fuel ->
  split_loop fuel (p +:+ s) (String d "") (String.length p) (String.index (String.length p) (String d "") (p +:+ s)) =
    OckTrimString <$> lines_at d "" s.
Proof.
  revert p s. induction fuel as [|fuel IH]; intros p s Hf; [lia|]. rewrite index_after.
  destruct (first_at d s) as [Hs|(a & t & -> & Ha)].
  - rewrite index_lacks by done. cbn [fmap option_fmap option_map split_loop]. rewrite string_length_app.
    destruct (Nat.eqb_spec (String.length p) (String.length p + String.length s)) as [E|E].
    + destruct s; [done|]. simpl in E. lia.
    + rewrite lines_at_last by (done || (simpl; intros ->; simpl in E; lia)). simpl.
      by rewrite substring_after, substring_all by lia.
  - rewrite index_first by done. cbn [fmap option_fmap option_map split_loop].
    rewrite string_length_app in Hf. simpl in Hf. rewrite lines_at_first by done. rewrite fmap_cons. f_equal.
    + rewrite substring_after. by replace (String.length p + String.length a - String.length p) with (String.length a) by lia;
        rewrite substring_prefix.
    + specialize (IH (p +:+ a +:+ String d "")%string t ltac:(lia)).
      replace (String.length p + String.length a + String.length (String d "")) with (String.length (p +:+ a +:+ String d ""))
        by (rewrite !string_length_app; lia).
      replace (p +:+ a +:+ String d t)%string with ((p +:+ a +:+ String d "") +:+ t)%string by (by rewrite !string_app_assoc).
      exact IH.
Qed.

(** [SplitStr] at one character reads the items [getline] would, trimmed. *)
Lemma SplitStr_lines d s : SplitStr s (String d "") = OckTrimString <$> lines_at d "" s.
Proof. apply (split_loop_lines d (S (String.length s)) "" s). lia. Qed.

(** ** Addresses *)

Lemma all_chars_mono (P Q : ascii -> Prop) s : (forall c, P c -> Q c) -> all_chars P s -> all_chars Q s.
Proof. intros H. induction s as [|c s IH]; simpl; [done|]. intros [Hc Hs]. auto. Qed.

Definition digit_chars : list ascii := digit <$> seqZ 0 10.

Lemma isdigit_elem c : isdigit c = true -> c ∈ digit_chars.
Proof. destruct c as [[] [] [] [] [] [] [] []]; intros H; vm_compute in H; try done; apply list_elem_of_In; vm_compute; tauto. Qed.

Definition short_numbers : list string :=
  ((fun a => String a "") <$> digit_chars) ++
  (digit_chars ≫= fun a => (fun b => String a (String b "")) <$> digit_chars) ++
  (digit_chars ≫= fun a => digit_chars ≫= fun b => (fun c => String a (String b (String c ""))) <$> digit_chars).

Lemma short_number_elem t :
  t <> ""%string -> String.length t <= 3 -> all_digits t = true -> t ∈ short_numbers.
Proof.
  unfold all_digits, short_numbers. intros Hne Hl Hd. rewrite !elem_of_app.
  destruct t as [|a [|b [|c [|? ?]]]]; [done| | | |simpl in Hl; lia]; simpl in Hd; rewrite ?andb_true_iff in Hd; destruct_and?;
    repeat match goal with H : isdigit _ = true |- _ => apply isdigit_elem in H end.
  - left. apply list_elem_of_fmap. by exists a.
  - right. left. apply list_elem_of_bind. exists a. split; [|done]. apply list_elem_of_fmap. by exists b.
  - right. right. apply list_elem_of_bind. exists a. split; [|done]. apply list_elem_of_bind. exists b. split; [|done].
    apply list_elem_of_fmap. by exists c.
Qed.

(** The part of an address: a number below 256 in decimal, without leading zeros. *)
Definition octet (t : string) : Prop := exists n, (0 <= n <= 255)%Z /\ t = to_string 3 n.

Definition octet_step (t : string) : bool :=
  negb (bool_decide (t = "") || Z.ltb (SEG - 1) (Z.of_nat (String.length t))) && all_digits t &&
  match stoi t with
  | None => false
  | Some num => negb (Z.ltb num 0 || Z.ltb MAX_IP_SEG_NUM num) &&
                negb (bool_decide (String.get 0 t = Some "0"%char) && Nat.ltb 1 (String.length t))
  end.

Lemma ip_loop_cons t ts count :
  ip_loop (t :: ts) count = if Z.ltb SEG (count + 1) then None else if octet_step t then ip_loop ts (count + 1) else None.
Proof.
  cbn [ip_loop]. destruct (Z.ltb SEG (count + 1)); [done|]. unfold octet_step.
  destruct (bool_decide (t = "") || _); [done|]. destruct (all_digits t); [|done].
  destruct (stoi t) as [num|]; [|done]. destruct (Z.ltb num 0 || _); [done|]. by destruct (_ && Nat.ltb _ _).
Qed.

Definition octet_check (t : string) : bool :=
  implb (octet_step t) (match stoi t with
                        | Some n => Z.leb 0 n && Z.leb n 255 && bool_decide (t = to_string 3 n)
                        | None => false
                        end).

Lemma octets_checked :
  forallb octet_check short_numbers = true /\ forallb (fun n => octet_step (to_string 3 n)) (seqZ 0 256) = true.
Proof. split; vm_compute; reflexivity. Qed.

Lemma octet_step_exact t : octet_step t = true <-> octet t.
Proof.
  destruct octets_checked as [Hl Hr]. rewrite forallb_forall in Hl, Hr. split.
  - intros H. pose proof H as H'. unfold octet_step in H'.
    assert (Ht : t ∈ short_numbers).
    { rewrite !andb_true_iff, negb_true_iff, orb_false_iff, bool_decide_eq_false, Z.ltb_ge in H'. unfold SEG in H'.
      apply short_number_elem; [tauto | lia | tauto]. }
    specialize (Hl t (proj1 (list_elem_of_In _ _) Ht)). unfold octet_check in Hl. rewrite H in Hl. cbn [implb] in Hl.
    destruct (stoi t) as [n|]; [|done]. rewrite !andb_true_iff, !Z.leb_le, bool_decide_eq_true in Hl. exists n. tauto.
  - intros (n & Hn & ->). apply Hr, list_elem_of_In, elem_of_seqZ. lia.
Qed.

Lemma ip_loop_exact ts count n :
  ip_loop ts count = Some n <-> n = (count + Z.of_nat (length ts))%Z /\ Forall octet ts /\ (ts = [] \/ n <= SEG)%Z.
Proof.
  revert count n. induction ts as [|t ts IH]; intros count n.
  - simpl. rewrite Z.add_0_r. split; [intros [= ->]; auto | by intros (-> & _)].
  - rewrite ip_loop_cons, Forall_cons, <- octet_step_exact. cbn [length]. rewrite Nat2Z.inj_succ.
    destruct (Z.ltb_spec SEG (count + 1)) as [Hc|Hc].
    + split; [done|]. intros (-> & _ & [?|?]); [done | lia].
    + destruct (octet_step t) eqn:Et; [|split; [done | naive_solver]].
      rewrite IH. split.
      * intros (-> & Hts & Hn). split; [lia|]. split; [done|]. right. destruct Hn as [->|Hn]; simpl in *; lia.
      * intros (-> & [_ Hts] & Hn). split; [lia|]. split; [done|]. right. destruct Hn; [done | lia].
Qed.

(** An IPv4 address in dotted decimal notation. *)
Definition ipv4 (ip : string) : Prop := exists a b c d, Forall octet [a; b; c; d] /\ ip = join "." [a; b; c; d].

Lemma octet_text t : octet t -> lacks "." t /\ no_colon t /\ t <> ""%string /\ all_chars (fun c => c <> " "%char) t.
Proof.
  intros (n & Hn & ->). pose proof (to_string_dec 3 n (proj1 Hn)) as Hd.
  destruct (to_string_cons 3 n) as (c & s & E & _); [lia..|]. split_and!; [| |by rewrite E|];
    (eapply all_chars_mono; [|exact Hd]); intros x Hx; unfold is_dec in Hx; intros ->; vm_compute in Hx; destruct Hx; done.
Qed.

Lemma ValidateIp_exact ip : ValidateIp ip = true <-> ipv4 ip \/ exists ip', ipv4 ip' /\ ip = (ip' +:+ ".")%string.
Proof.
  assert (Hfour : forall ip, ValidateIp ip = true <-> exists a b c d, Forall octet [a; b; c; d] /\ lines_at "." "" ip = [a; b; c; d]).
  { intros s. unfold ValidateIp. destruct (ip_loop (lines_at "." "" s) 0) as [n|] eqn:E.
    - apply ip_loop_exact in E as (-> & Hts & Hn). rewrite Z.eqb_eq. unfold SEG in *. split.
      + intros Hl. destruct (lines_at "." "" s) as [|a [|b [|c [|d [|? ?]]]]]; simpl in Hl; try lia. by exists a, b, c, d.
      + intros (a & b & c & d & _ & ->). done.
    - split; [done|]. intros (a & b & c & d & Ho & El). exfalso. rewrite El in E.
      assert (Hs : ip_loop [a; b; c; d] 0 = Some 4%Z) by (apply ip_loop_exact; unfold SEG; simpl; split_and!; [done | done | right; lia]).
      congruence. }
  rewrite Hfour. split.
  - intros (a & b & c & d & Ho & El). destruct (lines_at_text "." "" ip) as [E|E]; rewrite El in E; [left | right].
    + by exists a, b, c, d.
    + exists (join "." [a; b; c; d]). split; [by exists a, b, c, d | done].
  - intros H. assert (Hj : exists a b c d, Forall octet [a; b; c; d] /\ (ip = join "." [a; b; c; d] \/ ip = join "." [a; b; c; d] +:+ ".")%string).
    { destruct H as [(a & b & c & d & Ho & ->)|(ip' & (a & b & c & d & Ho & ->) & ->)]; exists a, b, c, d; auto. }
    destruct Hj as (a & b & c & d & Ho & Hip). exists a, b, c, d. split; [done|].
    assert (Hl : Forall (lacks ".") [a; b; c; d]) by (eapply Forall_impl; [exact Ho | intros t Ht; apply (octet_text t Ht)]).
    assert (Hd : last [a; b; c; d] <> Some ""%string).
    { simpl. intros [= ->]. rewrite !Forall_cons in Ho. destruct Ho as (_ & _ & _ & Hd & _). by apply octet_text in Hd as (_ & _ & ? & _). }
    destruct (lines_at_join "." [a; b; c; d] Hl Hd) as [E1 E2]. destruct Hip as [->| ->]; [done | by apply E2].
Qed.

Lemma ipv4_no_colon ip : ValidateIp ip = true -> no_colon ip.
Proof.
  rewrite ValidateIp_exact. intros H.
  assert (Hj : forall ip, ipv4 ip -> no_colon ip).
  { clear. intros ip (a & b & c & d & Ho & ->). rewrite !Forall_cons in Ho. destruct Ho as (Ha & Hb & Hc & Hd & _).
    apply octet_text in Ha as (_ & Ha & _), Hb as (_ & Hb & _), Hc as (_ & Hc & _), Hd as (_ & Hd & _).
    unfold no_colon in *. cbn [join]. rewrite all_chars_app. split; [done|]. split; [done|]. rewrite all_chars_app. split; [done|].
    split; [done|]. rewrite all_chars_app. done. }
  destruct H as [H|(ip' & H & ->)]; [auto|]. unfold no_colon. rewrite all_chars_app. split; [by apply Hj | done].
Qed.

Definition port_ok (port : Z) : Prop := (MIN_PORT <= port <= MAX_PORT)%Z.

(** An accepted address: the two parts, and that the name of its node is parsed
    to the node again. *)
Lemma ValidateIpAndPort_sound seg ip port :
  ValidateIpAndPort seg = Some (ip, port) ->
  ValidateIp ip = true /\ port_ok port /\
  NetRpcConfig.ParseRpcNodeFromId (rn_name (NetRpcConfig.make_node ip port)) = (NetRpcConfig.MXM_OK, Some (NetRpcConfig.make_node ip port)).
Proof.
  unfold ValidateIpAndPort. destruct (SplitStr seg ":") as [|i [|p [|? ?]]]; [done..| |done]. destruct (stoi p) as [z|] eqn:Ez; [|done].
  destruct (Z.ltb (u32 z) MIN_PORT || Z.ltb MAX_PORT (u32 z)) eqn:Er; [done|]. destruct (ValidateIp i) eqn:Ei; [|done].
  intros [= <- <-]. apply orb_false_iff in Er. rewrite !Z.ltb_ge in Er. unfold port_ok, MIN_PORT, MAX_PORT in *.
  assert (Hz : (z mod 2 ^ 16 = u32 z)%Z).
  { unfold u32 in *. replace (z mod 2 ^ 16)%Z with ((z mod 2 ^ 32) mod 2 ^ 16)%Z by (apply Z.mod_mod_divide; by exists (2 ^ 16)%Z).
    apply Z.mod_small. lia. }
  rewrite Hz. split; [done|]. split; [lia|]. apply ParseRpcNodeFromId_make; [by apply ipv4_no_colon|]. unfold NetRpcConfig.UINT16_MAX. lia.
Qed.

(** ** Choices *)

Definition choice_candidates (e : string) : list string :=
  let tmp := ("||" +:+ e +:+ "||")%string in
  seq 0 (S (String.length tmp)) ≫= fun m =>
    (fun n => String.substring 2 (n - 4) (String.substring m n tmp)) <$> seq 0 (S (String.length tmp)).

Definition choice_check (e : string) : bool :=
  forallb (fun v => implb (enum_validate e v) (bool_decide (v ∈ SplitStr e "||"))) (choice_candidates e) &&
  forallb (enum_validate e) (SplitStr e "||").

Lemma substring_length m n s : String.length (String.substring m n s) <= n /\ (0 < String.length (String.substring m n s) -> m + String.length (String.substring m n s) <= String.length s).
Proof.
  revert m n. induction s as [|c s IH]; intros [|m] [|n]; simpl; try lia.
  - specialize (IH 0 n). lia.
  - specialize (IH m 0). lia.
  - specialize (IH m (S n)). lia.
Qed.

Lemma choice_candidate e v : enum_validate e v = true -> v ∈ choice_candidates e.
Proof.
  unfold enum_validate. case_bool_decide; [done|]. rewrite bool_decide_eq_true. intros [m Hm].
  apply String.index_correct1 in Hm. set (pat := ("||" +:+ v +:+ "||")%string) in *. set (tmp := ("||" +:+ e +:+ "||")%string) in *.
  assert (Hp : String.length pat = String.length v + 4) by (unfold pat; rewrite !string_length_app; simpl; lia).
  pose proof (substring_length m (String.length pat) tmp) as [_ Hl]. rewrite Hm in Hl. specialize (Hl ltac:(lia)).
  unfold choice_candidates. fold tmp. apply list_elem_of_bind. exists m. split; [|apply elem_of_seq; lia].
  apply list_elem_of_fmap. exists (String.length pat). split; [|apply elem_of_seq; lia].
  rewrite Hm. unfold pat at 2. change ("||" +:+ v +:+ "||")%string with (String "|" (String "|" (v +:+ "||"))). cbn [String.substring].
  rewrite Hp. replace (String.length v + 4 - 4) with (String.length v) by lia. by rewrite substring_prefix.
Qed.

(** A choice is accepted exactly when it is one of the words. *)
Lemma enum_validate_exact e v : choice_check e = true -> enum_validate e v = true <-> v ∈ SplitStr e "||".
Proof.
  unfold choice_check. rewrite andb_true_iff, !forallb_forall. intros [H1 H2]. split.
  - intros H. specialize (H1 v (proj1 (list_elem_of_In _ _) (choice_candidate e v H))). rewrite H in H1. cbn [implb] in H1.
    by apply bool_decide_eq_true in H1.
  - intros H. by apply H2, list_elem_of_In.
Qed.

(** ** The parser *)

(** The index finds every item, no key is there twice, and the set of the keys
    that were read is that of the items. *)
Definition parser_inv (p : KVParser.KVParser) : Prop :=
  NoDup (KVParser.mItems p).*1 /\
  (forall k i, KVParser.mItemsIndex p !! k = Some i <-> (KVParser.mItems p).*1 !! i = Some k) /\
  (forall k, is_Some (KVParser.mGotKeys p !! k) <-> k ∈ (KVParser.mItems p).*1).

Lemma parser_inv_empty : parser_inv KVParser.empty.
Proof.
  split_and!; [constructor | |]; cbn; intros; [rewrite lookup_empty; done|].
  rewrite lookup_empty, elem_of_nil. split; [by intros [? ?] | done].
Qed.

Lemma index_keys p k : parser_inv p -> KVParser.mItemsIndex p !! k = None <-> k ∉ (KVParser.mItems p).*1.
Proof.
  intros (_ & Hi & _). rewrite list_elem_of_lookup. split.
  - intros E [i H]. apply Hi in H. congruence.
  - intros H. destruct (KVParser.mItemsIndex p !! k) as [i|] eqn:E; [|done]. apply Hi in E. exfalso. eauto.
Qed.

Lemma SetItem_spec k v p :
  parser_inv p ->
  if bool_decide (k ∈ (KVParser.mItems p).*1) then KVParser.SetItem k v p = (HFAIL, p)
  else exists p', KVParser.SetItem k v p = (HOK, p') /\ KVParser.mItems p' = KVParser.mItems p ++ [(k, v)] /\ parser_inv p'.
Proof.
  intros Hp. unfold KVParser.SetItem. case_bool_decide as Hk.
  - destruct (KVParser.mItemsIndex p !! k) eqn:E; [done|]. apply index_keys in E; done.
  - pose proof Hk as Hn. apply index_keys in Hn; [|done]. rewrite Hn. eexists. split; [done|]. split; [done|].
    destruct Hp as (Hd & Hi & Hg). unfold parser_inv. cbn [KVParser.mItems KVParser.mItemsIndex KVParser.mGotKeys].
    rewrite length_app, fmap_app. cbn [length fmap list_fmap fst]. replace (length (KVParser.mItems p) + 1 - 1) with (length (KVParser.mItems p)) by lia.
    split_and!.
    + apply NoDup_app. split; [done|]. split; [|apply NoDup_singleton]. intros x Hx. rewrite list_elem_of_singleton. by intros ->.
    + intros k' i. rewrite lookup_insert_Some, Hi, lookup_app_Some, length_fmap. split.
      * intros [[-> <-]|[Hne Hx]]; [right; split; [done|]; by rewrite Nat.sub_diag | by left].
      * intros [Hx|[Hl Hx]]; [right; split; [|done]; intros ->; apply Hk; by apply list_elem_of_lookup_2 in Hx|].
        left. apply list_lookup_singleton_Some in Hx as [Hx ->]. split; [done | lia].
    + intros k'. rewrite elem_of_app, list_elem_of_singleton, <- Hg. case_bool_decide as Hgk.
      * apply Hg in Hgk. done.
      * destruct (decide (k' = k)) as [->|Hne]; [rewrite lookup_insert_eq; by split; [right | eauto]|].
        rewrite lookup_insert_ne by done. tauto.
Qed.

Lemma parse_line_inv line p r : parser_inv p -> KVParser.parse_line line p = Some r -> parser_inv r.2.
Proof.
  intros Hp. unfold KVParser.parse_line. destruct (_ || _); [done|]. destruct (Nat.ltb _ _); [by intros [= <-]|].
  destruct (String.index _ _ _) as [e|]; [|done]. destruct (_ || _); [by intros [= <-]|]. intros [= <-].
  set (k := OckTrimString _). set (v := OckTrimString (String.substring (e + 1) _ _)). pose proof (SetItem_spec k v p Hp) as H.
  case_bool_decide; [by rewrite H|]. by destruct H as (p' & -> & _ & H).
Qed.

Lemma parse_lines_inv lines p : parser_inv p -> parser_inv (KVParser.parse_lines lines p).2.
Proof.
  revert p. induction lines as [|line lines IH]; intros p Hp; simpl; [done|].
  destruct (KVParser.parse_line line p) as [[hr p']|] eqn:E; [|by apply IH].
  pose proof (parse_line_inv _ _ _ Hp E). destruct (Z.eqb hr HOK); [by apply IH | done].
Qed.

Lemma parser_from_file_inv fs path : parser_inv (KVParser.FromFile fs path KVParser.empty).2.
Proof.
  unfold KVParser.FromFile. destruct (GetRealPath fs path); [|apply parser_inv_empty].
  destruct (negb _); [apply parser_inv_empty|]. apply parse_lines_inv, parser_inv_empty.
Qed.

Lemma lines_at_count d item s : length (lines_at d item s) <= S (String.length s).
Proof.
  revert item. induction s as [|c s IH]; intros item; simpl; [case_bool_decide; simpl; lia|].
  destruct (Ascii.eqb c d); simpl; [specialize (IH ""%string) | specialize (IH (item +:+ String c "")%string)]; lia.
Qed.

Lemma parse_line_count line p r :
  KVParser.parse_line line p = Some r -> length (KVParser.mItems r.2) <= S (length (KVParser.mItems p)).
Proof.
  unfold KVParser.parse_line. destruct (_ || _); [done|]. destruct (Nat.ltb _ _); [intros [= <-]; simpl; lia|].
  destruct (String.index _ _ _) as [e|]; [|done]. destruct (_ || _); [intros [= <-]; simpl; lia|]. intros [= <-].
  unfold KVParser.SetItem. destruct (KVParser.mItemsIndex p !! _); simpl; [lia|]. rewrite length_app. simpl. lia.
Qed.

Lemma parse_lines_count lines p :
  length (KVParser.mItems (KVParser.parse_lines lines p).2) <= length lines + length (KVParser.mItems p).
Proof.
  revert p. induction lines as [|line lines IH]; intros p; simpl; [done|].
  destruct (KVParser.parse_line line p) as [[hr p']|] eqn:E; [|specialize (IH p); lia].
  apply parse_line_count in E. simpl in E. destruct (Z.eqb hr HOK); simpl; [specialize (IH p') |]; lia.
Qed.

(** The number of items fits the width of [Size]. *)
Lemma parser_size fs path :
  let p := (KVParser.FromFile fs path KVParser.empty).2 in KVParser.Size p = Z.of_nat (length (KVParser.mItems p)).
Proof.
  cbv zeta. unfold KVParser.Size. apply u32_small. split; [lia|].
  enough (Z.of_nat (length (KVParser.mItems (KVParser.FromFile fs path KVParser.empty).2)) <= MAX_CONF_FILE_SIZE + 1)%Z
    by (unfold MAX_CONF_FILE_SIZE in *; lia).
  unfold KVParser.FromFile, MAX_CONF_FILE_SIZE. destruct (GetRealPath fs path) as [real|]; [|simpl; lia].
  unfold FileUtil.CheckFileSize. destruct (fs_read fs real) as [s|]; [|simpl; lia].
  destruct (Z.leb _ 0 || _) eqn:E; [simpl; lia|]. apply orb_false_iff in E. rewrite Z.ltb_ge in E. cbn [negb default from_option id].
  pose proof (parse_lines_count (lines_at "010" "" s) KVParser.empty) as Hc. pose proof (lines_at_count "010" "" s) as Hl.
  cbn in Hc. lia.
Qed.

(** ** Loading *)

Abbreviation table := Configuration.create.
#[local] Opaque Configuration.create.

Definition int32 (z : Z) : Prop := (INT32_MIN <= z <= INT32_MAX)%Z.

(** Every item has a value in the map of its type, an integer or a string, and
    the integers fit their type. *)
Definition typed (c : Conf) : Prop :=
  map_Forall (fun k t => match t with
                         | VINT => is_Some (mIntItems c !! k)
                         | VSTRING => is_Some (mStrItems c !! k)
                         | _ => False
                         end) (mValueTypes c) /\
  map_Forall (fun _ z => int32 z) (mIntItems c).

(** The parts of a configuration that no setting changes. *)
Definition same_table (c : Conf) : Prop :=
  mValueTypes c = mValueTypes table /\ mValueValidator c = mValueValidator table /\
  mValueConverter c = mValueConverter table /\ mMustKeys c = mMustKeys table /\ mPathConfs c = mPathConfs table /\
  mBoolItems c = ∅ /\ mLongItems c = ∅.

Definition typed_check (c : Conf) : bool :=
  forallb (fun e => match e.2 with
                    | VINT => bool_decide (is_Some (mIntItems c !! e.1))
                    | VSTRING => bool_decide (is_Some (mStrItems c !! e.1))
                    | _ => false
                    end) (map_to_list (mValueTypes c)) &&
  forallb (fun e => Z.leb INT32_MIN e.2 && Z.leb e.2 INT32_MAX) (map_to_list (mIntItems c)).

Lemma typed_check_sound c : typed_check c = true -> typed c.
Proof.
  unfold typed_check. rewrite andb_true_iff, !forallb_forall. intros [H1 H2]. split; intros k x Hx.
  - specialize (H1 (k, x) (proj1 (list_elem_of_In _ _) (proj2 (elem_of_map_to_list _ _ _) Hx))). simpl in H1.
    destruct x; (done || by apply bool_decide_eq_true in H1).
  - specialize (H2 (k, x) (proj1 (list_elem_of_In _ _) (proj2 (elem_of_map_to_list _ _ _) Hx))). simpl in H2.
    rewrite andb_true_iff, !Z.leb_le in H2. done.
Qed.

Lemma table_typed : typed table.
Proof. apply typed_check_sound. vm_compute. reflexivity. Qed.

Lemma table_ready : mInitialized table = true /\ mBoolItems table = ∅ /\ mLongItems table = ∅.
Proof. split_and!; vm_compute; reflexivity. Qed.

Lemma same_table_create : same_table table.
Proof. unfold same_table. destruct table_ready as (_ & -> & ->). done. Qed.

(** Whether a file may set [k] to [v], and what that does. *)
Definition acceptable (fs : Files) (k v : string) : bool :=
  negb (bool_decide (k ∈ Configuration.mInvalidSetConfs)) &&
  match mValueTypes table !! k with
  | Some VINT => let '(ok, z) := OckStol v in ok && Z.leb INT32_MIN z && Z.leb z INT32_MAX
  | Some VSTRING => if bool_decide (k ∈ mPathConfs table) then bool_decide (is_Some (GetRealPath fs v)) else true
  | _ => false
  end.

Definition str_value (fs : Files) (k v : string) : string :=
  if bool_decide (k ∈ mPathConfs table) then default "" (GetRealPath fs v) else v.

Definition put (fs : Files) (c : Conf) (e : string * string) : Conf :=
  match mValueTypes table !! e.1 with
  | Some VINT => Configuration.with_ints c (<[e.1 := (OckStol e.2).2]> (mIntItems c))
  | Some VSTRING => Configuration.with_strs c (<[e.1 := str_value fs e.1 e.2]> (mStrItems c))
  | _ => c
  end.

Lemma SetWithTypeAutoConvert_spec fs k v c :
  typed c -> same_table c ->
  exists c', Configuration.SetWithTypeAutoConvert fs k v c = Some (acceptable fs k v, c') /\
    (acceptable fs k v = true -> c' = put fs c (k, v) /\ typed c' /\ same_table c').
Proof.
  unfold Configuration.SetWithTypeAutoConvert, acceptable, put, same_table, str_value. cbn [fst snd].
  generalize (mValueTypes table) (mValueValidator table) (mValueConverter table) (mMustKeys table) (mPathConfs table).
  intros types vals convs musts paths [Ht Hr] (Hty & Hrest). pose proof Hrest as (_ & _ & _ & Hp & _). rewrite Hty.
  destruct (types !! k) as [t|] eqn:Ek; [|exists c; rewrite andb_false_r; by split; [|intros [=]]].
  case_bool_decide as Hk; [by exists c; split; [|intros [=]]|]. cbn [negb andb]. rewrite <- Hty in Ek. pose proof (Ht _ _ Ek) as Hk'. simpl in Hk'.
  destruct t; try done.
  - destruct Hk' as [z0 Ez0]. destruct (OckStol v) as [ok z]. destruct ok; [|by exists c]. cbn [negb orb andb].
    destruct (Z.ltb_spec INT32_MAX z), (Z.ltb_spec z INT32_MIN), (Z.leb_spec INT32_MIN z), (Z.leb_spec z INT32_MAX);
      try lia; try (by exists c; split; [|intros [=]]). cbn [orb andb]. eexists. split; [done|]. intros _. unfold assign. rewrite Ez0. cbn [snd].
    split; [done|]. split; [|done]. split; cbn [mValueTypes mIntItems mStrItems Configuration.with_ints].
    + intros k' t' E'. specialize (Ht _ _ E'). simpl in Ht. destruct t'; try done. rewrite lookup_insert_is_Some.
      destruct (decide (k = k')); [by left | by right].
    + apply map_Forall_insert_2; done.
  - destruct Hk' as [s0 Es0]. rewrite Es0, Hp. case_bool_decide as Hpath.
    + destruct (GetRealPath fs v) as [real|] eqn:Er; [|by exists c]. rewrite bool_decide_eq_true_2 by eauto. eexists. split; [done|].
      intros _. split; [done|]. split; [|done]. split; [|done]. cbn [mValueTypes mIntItems mStrItems Configuration.with_strs].
      intros k' t' E'. specialize (Ht _ _ E'). simpl in Ht. destruct t'; try done. rewrite lookup_insert_is_Some.
      destruct (decide (k = k')); [by left | by right].
    + eexists. split; [done|]. intros _. split; [done|]. split; [|done]. split; [|done].
      cbn [mValueTypes mIntItems mStrItems Configuration.with_strs].
      intros k' t' E'. specialize (Ht _ _ E'). simpl in Ht. destruct t'; try done. rewrite lookup_insert_is_Some.
      destruct (decide (k = k')); [by left | by right].
Qed.

Lemma set_items_spec fs p n i c :
  i + n = length (KVParser.mItems p) -> typed c -> same_table c ->
  let es := drop i (KVParser.mItems p) in
  if forallb (fun e => acceptable fs e.1 e.2) es
  then Configuration.set_items fs p n i c = Configuration.Loaded (foldl (put fs) c es) /\
       typed (foldl (put fs) c es) /\ same_table (foldl (put fs) c es)
  else Configuration.set_items fs p n i c = Configuration.Null.
Proof.
  revert i c. induction n as [|n IH]; intros i c Hi Ht Hs; cbv zeta.
  - rewrite drop_ge by lia. simpl. done.
  - destruct (lookup_lt_is_Some_2 (KVParser.mItems p) i ltac:(lia)) as [[k v] E].
    rewrite (drop_S _ _ _ E). cbn [forallb fst snd foldl Configuration.set_items]. unfold KVParser.GetI. rewrite E.
    cbn [default from_option id]. destruct (SetWithTypeAutoConvert_spec fs k v c Ht Hs) as (c' & -> & H).
    destruct (acceptable fs k v); [|done]. destruct (H eq_refl) as (-> & Ht' & Hs'). cbn [andb].
    replace (S i) with (i + 1) by lia. apply IH; [lia | done | done].
Qed.

(** Everything that decides whether a file is loaded, and what is loaded. *)
Lemma FromFile_exact fs path :
  let r := KVParser.FromFile fs path KVParser.empty in
  let es := KVParser.mItems r.2 in
  Configuration.FromFile fs path =
    if Z.eqb r.1 0 && Z.leb (Z.of_nat (length es)) 100 && forallb (fun e => acceptable fs e.1 e.2) es &&
       forallb (fun k => bool_decide (k ∈ es.*1)) (mMustKeys table)
    then Configuration.Loaded (Configuration.SetConfigPath path (foldl (put fs) table es)) else Configuration.Null.
Proof.
  cbv zeta. unfold Configuration.FromFile. destruct table_ready as (-> & _). cbn [negb].
  pose proof (parser_from_file_inv fs path) as Hp. pose proof (parser_size fs path) as Hsz. cbv zeta in Hsz.
  destruct (KVParser.FromFile fs path KVParser.empty) as [hr p]. cbn [fst snd] in *.
  destruct (Z.eqb hr 0); [|done]. cbn [negb andb]. rewrite Hsz. unfold Configuration.MAX_CONF_ITEM_COUNT.
  destruct (Z.ltb_spec 100 (Z.of_nat (length (KVParser.mItems p)))), (Z.leb_spec (Z.of_nat (length (KVParser.mItems p))) 100); try lia; [done|].
  rewrite Nat2Z.id. pose proof (set_items_spec fs p (length (KVParser.mItems p)) 0 table ltac:(lia) table_typed same_table_create) as H1.
  cbv zeta in H1. rewrite drop_0 in H1. destruct (forallb _ (KVParser.mItems p)); [|by rewrite H1].
  destruct H1 as (-> & _ & (_ & _ & _ & Hm & _)). 
  change (mMustKeys (Configuration.SetConfigPath path ?c)) with (mMustKeys c). rewrite Hm.
  unfold KVParser.CheckSet. cbn [fst]. cbn [andb].
  assert (Hf : forallb (fun key => bool_decide (is_Some (KVParser.mGotKeys p !! key))) (mMustKeys table) =
               forallb (fun k => bool_decide (k ∈ (KVParser.mItems p).*1)) (mMustKeys table)).
  { destruct Hp as (_ & _ & Hg). generalize (mMustKeys table). intros l. induction l as [|k l IH]; simpl; [done|].
    rewrite IH. f_equal. apply bool_decide_ext, Hg. }
  rewrite Hf. clear Hf. destruct (forallb _ (mMustKeys table)); reflexivity.
Qed.

(** ** The layout of a file *)

(** A line: blank, a comment, or a key and a value with spaces around them and
    possibly a carriage return at the end. *)
Inductive source_line :=
  | Blank (n : nat)
  | Comment (n : nat) (text : string)
  | Entry (a b c d : nat) (cr : bool) (key value : string).

Definition entry_text (b c : nat) (key value : string) : string :=
  (key +:+ spaces b +:+ "=" +:+ spaces c +:+ value)%string.

Definition line_text (l : source_line) : string :=
  match l with
  | Blank n => spaces n
  | Comment n text => spaces n +:+ "#" +:+ text
  | Entry a b c d cr key value => spaces a +:+ entry_text b c key value +:+ spaces d +:+ (if cr then String "013" "" else "")
  end%string.

Definition line_entry (l : source_line) : option (string * string) :=
  match l with Entry _ _ _ _ _ key value => Some (key, value) | _ => None end.

Definition entries (ls : list source_line) : list (string * string) := omap line_entry ls.

Fixpoint file_text (ls : list source_line) : string :=
  match ls with [] => "" | l :: ls => line_text l +:+ String "010" (file_text ls) end%string.

(** What may stand in a line: nothing that ends it, no [=] in the key, and no
    more characters than are read. *)
Definition line_ok (l : source_line) : Prop :=
  match l with
  | Blank _ => True
  | Comment _ text => lacks "010" text
  | Entry _ b c _ _ key value =>
      clean key = true /\ clean value = true /\ lacks "=" key /\ lacks "010" key /\ lacks "010" value /\
      String.get 0 key <> Some "#"%char /\ String.length (entry_text b c key value) <= MAX_LENGTH_COMMON_CONFIG
  end.

Lemma spaces_lack c n : c <> " "%char -> lacks c (spaces n).
Proof. intros H. induction n as [|n IH]; simpl; [done|]. split; [congruence | exact IH]. Qed.

Lemma lacks_app c s t : lacks c (s +:+ t) <-> lacks c s /\ lacks c t.
Proof. apply all_chars_app. Qed.

Lemma line_text_lacks l : line_ok l -> lacks "010" (line_text l).
Proof.
  destruct l as [n|n text|a b c d cr key value]; simpl; rewrite ?lacks_app.
  - intros _. by apply spaces_lack.
  - intros H. split; [by apply spaces_lack|]. split; [done | exact H].
  - intros (_ & _ & _ & Hk & Hv & _). unfold entry_text. rewrite !lacks_app.
    assert (Hs : forall n, lacks "010" (spaces n)) by (intros; by apply spaces_lack).
    repeat split; try apply Hs; try done. by destruct cr.
Qed.

Lemma file_lines ls : Forall line_ok ls -> lines_at "010" "" (file_text ls) = line_text <$> ls.
Proof.
  induction 1 as [|l ls Hl Hls IH]; [done|]. cbn [file_text]. rewrite lines_at_first by (by apply line_text_lacks).
  rewrite IH. done.
Qed.

Lemma strip_back_head c x s : x <> c -> exists s', strip_back c (String x s) = String x s'.
Proof.
  intros Hx. cbn [strip_back]. destruct (strip_back c s) as [|y t]; [|eauto].
  rewrite (proj2 (Ascii.eqb_neq _ _) Hx). eauto.
Qed.

Lemma strip_cr_spaces n : strip_back "013" (spaces n) = spaces n.
Proof. induction n as [|n IH]; simpl; [done|]. rewrite IH. by destruct n. Qed.

Lemma strip_back_keep c s t : strip_back c t = t -> t <> ""%string -> strip_back c (s +:+ t) = (s +:+ t)%string.
Proof. intros E Hne. by rewrite strip_back_app; rewrite E. Qed.

Lemma app_not_nil (s t : string) : t <> ""%string -> (s +:+ t <> "")%string.
Proof. by destruct s. Qed.

Lemma strip_cr_entry a d cr key value b c :
  clean value = true ->
  strip_back "013" (spaces a +:+ entry_text b c key value +:+ spaces d +:+ (if cr : bool then String "013" "" else ""))
  = (spaces a +:+ entry_text b c key value +:+ spaces d)%string.
Proof.
  rewrite clean_iff. intros (Hne & _ & _ & Hv).
  assert (Hvd : strip_back "013" (value +:+ spaces d) = (value +:+ spaces d)%string).
  { destruct d as [|d]; [by rewrite string_app_nil_r|]. apply strip_back_keep; [apply strip_cr_spaces | done]. }
  replace (spaces a +:+ entry_text b c key value +:+ spaces d +:+ (if cr then String "013" "" else ""))%string
    with ((spaces a +:+ entry_text b c key value +:+ spaces d) +:+ (if cr then String "013" "" else ""))%string by (by rewrite !string_app_assoc).
  rewrite strip_back_all by (by destruct cr). unfold entry_text.
  replace (spaces a +:+ (key +:+ spaces b +:+ "=" +:+ spaces c +:+ value) +:+ spaces d)%string
    with ((spaces a +:+ key +:+ spaces b +:+ "=" +:+ spaces c) +:+ (value +:+ spaces d))%string by (by rewrite !string_app_assoc).
  apply strip_back_keep; [done | by destruct value].
Qed.

Lemma clean_entry b c key value : clean key = true -> clean value = true ->
  entry_text b c key value <> ""%string /\ strip_front " " (entry_text b c key value) = entry_text b c key value /\
  strip_back " " (entry_text b c key value) = entry_text b c key value.
Proof.
  rewrite !clean_iff. intros (Hk & Hkf & _) (Hv & _ & Hvb & _). unfold entry_text. split_and!.
  - by destruct key.
  - by rewrite strip_front_app.
  - rewrite <- !string_app_assoc. by apply strip_back_keep.
Qed.

Lemma trim_text s a b : strip_front " " s = s -> strip_back " " s = s -> s <> ""%string -> OckTrimString (spaces a +:+ s +:+ spaces b) = s.
Proof.
  intros Hf Hb Hne. unfold OckTrimString. rewrite strip_front_spaces, strip_front_app by done.
  by rewrite strip_back_all by apply strip_back_spaces.
Qed.

Lemma parse_line_spec l p :
  line_ok l ->
  KVParser.parse_line (line_text l) p =
    match line_entry l with Some (k, v) => Some (KVParser.SetItem k v p) | None => None end.
Proof.
  intros Hl. unfold KVParser.parse_line. destruct l as [n|n text|a b c d cr key value]; cbn [line_text line_entry].
  - rewrite strip_cr_spaces. pose proof (strip_front_spaces n "") as E. rewrite string_app_nil_r in E.
    unfold OckTrimString. by rewrite E.
  - destruct (strip_back_head "013" "#" text) as [t E]; [done|].
    rewrite strip_back_app; change ("#" +:+ text)%string with (String "#" text); rewrite E; [|done].
    unfold OckTrimString. rewrite strip_front_spaces. cbn [strip_front Ascii.eqb Bool.eqb].
    destruct (strip_back_head " " "#" t) as [t' E']; [done|]. rewrite E'. by destruct t'.
  - destruct Hl as (Hk & Hv & Hke & _ & _ & Hh & Hlen). rewrite strip_cr_entry by done.
    destruct (clean_entry b c key value Hk Hv) as (Hne & Hf & Hb). rewrite trim_text by done.
    rewrite bool_decide_eq_false_2 by done. rewrite bool_decide_eq_false_2.
    2:{ unfold entry_text. apply clean_iff in Hk as (? & _). destruct key as [|x key]; [done|]. exact Hh. }
    cbn [orb]. rewrite (proj2 (Nat.ltb_ge _ _)) by done.
    replace (entry_text b c key value) with ((key +:+ spaces b) +:+ String "=" (spaces c +:+ value))%string
      by (unfold entry_text; by rewrite !string_app_assoc).
    rewrite index_first by (rewrite lacks_app; split; [done | by apply spaces_lack]).
    rewrite substring_prefix.
    replace (OckTrimString (key +:+ spaces b)) with key by (symmetry; apply (trim_clean 0 b key Hk)).
    rewrite substring_behind by (rewrite !string_length_app; simpl; rewrite !string_length_app; lia).
    replace (OckTrimString (spaces c +:+ value)) with value
      by (symmetry; rewrite <- (string_app_nil_r value) at 1; apply (trim_clean c 0 value Hv)).
    apply clean_iff in Hk as (? & _). apply clean_iff in Hv as (? & _). by rewrite !bool_decide_eq_false_2.
Qed.

Lemma parse_lines_spec ls p :
  Forall line_ok ls -> parser_inv p ->
  let r := KVParser.parse_lines (line_text <$> ls) p in
  if bool_decide (NoDup ((KVParser.mItems p ++ entries ls).*1))
  then r.1 = HOK /\ KVParser.mItems r.2 = KVParser.mItems p ++ entries ls
  else r.1 = HFAIL.
Proof.
  intros Hls. revert p. induction Hls as [|l ls Hl Hls IH]; intros p Hp; cbv zeta.
  - cbn. rewrite app_nil_r. rewrite bool_decide_eq_true_2 by apply Hp. done.
  - rewrite fmap_cons. cbn [KVParser.parse_lines]. rewrite parse_line_spec by done.
    unfold entries. cbn [omap list_omap]. destruct (line_entry l) as [[k v]|] eqn:El; [|by apply IH].
    pose proof (SetItem_spec k v p Hp) as Hs. case_bool_decide as Hk.
    + rewrite Hs. cbn. rewrite bool_decide_eq_false_2; [done|]. rewrite fmap_app. intros Hd.
      apply (NoDup_app_disjoint _ _ k Hd Hk). simpl. left.
    + destruct Hs as (p' & -> & Hi & Hp'). cbn [Z.eqb HOK]. specialize (IH p' Hp'). cbv zeta in IH. rewrite Hi, <- app_assoc in IH.
      exact IH.
Qed.

(** ** The values of a loaded configuration *)

Lemma map_get_elem {V} (es : list (string * V)) k v : NoDup es.*1 -> (k, v) ∈ es <-> map_get k es = Some v.
Proof.
  induction es as [|[k' v'] es IH]; [by split; [intros ?%not_elem_of_nil|]|]. cbn. rewrite NoDup_cons. intros [Hk Hd].
  rewrite elem_of_cons. case_bool_decide as E.
  - subst k'. split; [|intros [= ->]; by left]. intros [[= ->]|H]; [done|]. exfalso. apply Hk, list_elem_of_fmap. by exists (k, v).
  - rewrite <- IH by done. split; [intros [[= -> ->]|H]; done | by right].
Qed.

Lemma map_get_none {V} (es : list (string * V)) k : k ∉ es.*1 <-> map_get k es = None.
Proof.
  induction es as [|[k' v'] es IH]; [split; [done | intros _ ?%not_elem_of_nil; done]|]. cbn. rewrite not_elem_of_cons.
  case_bool_decide; [split; [tauto | done]|]. rewrite IH. tauto.
Qed.

Lemma put_other fs c e k : k <> e.1 ->
  mIntItems (put fs c e) !! k = mIntItems c !! k /\ mStrItems (put fs c e) !! k = mStrItems c !! k.
Proof.
  intros Hk. unfold put. destruct (mValueTypes table !! e.1) as [[]|]; cbn [mIntItems mStrItems Configuration.with_ints Configuration.with_strs];
    split; rewrite ?lookup_insert_ne by congruence; reflexivity.
Qed.

Lemma put_values fs es c k :
  NoDup es.*1 ->
  mIntItems (foldl (put fs) c es) !! k =
    match mValueTypes table !! k, map_get k es with Some VINT, Some v => Some (OckStol v).2 | _, _ => mIntItems c !! k end /\
  mStrItems (foldl (put fs) c es) !! k =
    match mValueTypes table !! k, map_get k es with Some VSTRING, Some v => Some (str_value fs k v) | _, _ => mStrItems c !! k end.
Proof.
  revert c. induction es as [|[k' v'] es IH]; intros c Hd.
  { cbn [foldl map_get]. destruct (mValueTypes table !! k) as [[]|]; split; reflexivity. }
  cbn in Hd. apply NoDup_cons in Hd as [Hk Hd]. cbn [foldl map_get]. destruct (IH (put fs c (k', v')) Hd) as [E1 E2]. rewrite E1, E2.
  clear IH E1 E2. case_bool_decide as E.
  - subst k'. apply map_get_none in Hk. rewrite Hk. unfold put. cbn [fst snd].
    destruct (mValueTypes table !! k) as [[]|]; cbn [mIntItems mStrItems Configuration.with_ints Configuration.with_strs];
      rewrite ?lookup_insert_eq; split; reflexivity.
  - destruct (put_other fs c (k', v') k E) as [E1 E2]. rewrite E1, E2. split; reflexivity.
Qed.

(** What a configuration loaded from the pairs [es] holds. *)
Definition holds_values (fs : Files) (es : list (string * string)) (c : Conf) : Prop :=
  (forall k v, (k, v) ∈ es ->
     match mValueTypes table !! k with
     | Some VINT => forall d, OckStol v = (true, Configuration.GetInt k d c)
     | Some VSTRING => forall d, Configuration.GetString k d c = str_value fs k v
     | _ => False
     end) /\
  (forall k d, k ∉ es.*1 -> Configuration.GetInt k d c = Configuration.GetInt k d table) /\
  (forall k d, k ∉ es.*1 -> Configuration.GetString k d c = Configuration.GetString k d table).

Lemma put_holds_values fs path es :
  NoDup es.*1 -> forallb (fun e => acceptable fs e.1 e.2) es = true ->
  holds_values fs es (Configuration.SetConfigPath path (foldl (put fs) table es)).
Proof.
  intros Hd Ha. rewrite forallb_forall in Ha. split; [|split].
  - intros k v Hkv. specialize (Ha _ (proj1 (list_elem_of_In _ _) Hkv)). unfold acceptable in Ha. cbn [fst snd] in Ha.
    apply andb_true_iff in Ha as [_ Ha]. destruct (put_values fs es table k Hd) as [Hi Hs].
    apply map_get_elem in Hkv; [|done]. rewrite Hkv in Hi, Hs.
    unfold Configuration.GetInt, Configuration.GetString, Configuration.SetConfigPath. cbn [mIntItems mStrItems].
    destruct (mValueTypes table !! k) as [[]|]; try discriminate Ha; intros d.
    + rewrite Hi. cbn [default from_option id]. destruct (OckStol v) as [ok z]. destruct ok; [reflexivity | discriminate Ha].
    + by rewrite Hs.
  - intros k d Hk. destruct (put_values fs es table k Hd) as [Hi _]. apply map_get_none in Hk. rewrite Hk in Hi.
    unfold Configuration.GetInt, Configuration.SetConfigPath. cbn [mIntItems]. rewrite Hi.
    destruct (mValueTypes table !! k) as [[]|]; reflexivity.
  - intros k d Hk. destruct (put_values fs es table k Hd) as [_ Hs]. apply map_get_none in Hk. rewrite Hk in Hs.
    unfold Configuration.GetString, Configuration.SetConfigPath. cbn [mStrItems]. rewrite Hs.
    destruct (mValueTypes table !! k) as [[]|]; reflexivity.
Qed.

(** The file is accepted: no key twice, at most a hundred items, each of a
    known key and of its type, and every required key among them. *)
Definition file_accepted (fs : Files) (es : list (string * string)) : bool :=
  bool_decide (NoDup es.*1) && Z.leb (Z.of_nat (length es)) 100 && forallb (fun e => acceptable fs e.1 e.2) es &&
  forallb (fun k => bool_decide (k ∈ es.*1)) (mMustKeys table).

(** C10: a file of at most the maximal size, laid out as comments, blank lines and
    pairs of a key and a value of at most the maximal length, with any spaces
    around them and either line ending, is loaded exactly when
    no key is repeated, there are at most a hundred pairs, every key is known
    and may be set, every value is of the type of its key and every required
    key is there; the configuration then gives the values of the file, converted,
    and the defaults elsewhere; otherwise there is no configuration. No such
    file makes the loading throw. *)
Theorem configuration_file_exact (fs : Files) (path real : string) (ls : list source_line) :
  GetRealPath fs path = Some real -> fs_read fs real = Some (file_text ls) ->
  (0 < Z.of_nat (String.length (file_text ls)) <= MAX_CONF_FILE_SIZE)%Z -> Forall line_ok ls ->
  if file_accepted fs (entries ls)
  then exists c, Configuration.FromFile fs path = Configuration.Loaded c /\ holds_values fs (entries ls) c
  else Configuration.FromFile fs path = Configuration.Null.
Proof.
  intros Hreal Hread Hsize Hls. rewrite FromFile_exact. unfold KVParser.FromFile. rewrite Hreal, Hread.
  assert (Hck : FileUtil.CheckFileSize (Some (file_text ls)) MAX_CONF_FILE_SIZE = true).
  { unfold FileUtil.CheckFileSize. apply negb_true_iff, orb_false_iff. rewrite Z.leb_gt, Z.ltb_ge. lia. }
  rewrite Hck. cbn [negb default from_option id]. rewrite file_lines by done.
  pose proof (parse_lines_spec ls KVParser.empty Hls parser_inv_empty) as Hp. cbv zeta in Hp.
  change (KVParser.mItems KVParser.empty ++ entries ls) with (entries ls) in Hp. unfold file_accepted.
  destruct (bool_decide_reflect (NoDup (entries ls).*1)) as [Hd|Hd].
  - destruct Hp as [-> ->]. cbn [Z.eqb HOK andb]. destruct (Z.leb _ 100); [|reflexivity]. cbn [andb].
    destruct (forallb _ (entries ls)) eqn:Ha; [|reflexivity]. cbn [andb]. destruct (forallb _ (mMustKeys table)); [|reflexivity].
    eexists. split; [reflexivity|]. by apply put_holds_values.
  - rewrite Hp. reflexivity.
Qed.

(** ** The validation *)

Lemma loaded_typed fs path c :
  Configuration.FromFile fs path = Configuration.Loaded c -> typed c /\ same_table c.
Proof.
  rewrite FromFile_exact. set (es := KVParser.mItems _). destruct (_ && _ && forallb _ es) eqn:Ea; [|cbn [andb]; discriminate].
  destruct (forallb _ (mMustKeys table)); cbn [andb]; [|discriminate]. intros [= <-].
  apply andb_true_iff in Ea as [_ Ea].
  assert (H : forall c0, typed c0 -> same_table c0 -> typed (foldl (put fs) c0 es) /\ same_table (foldl (put fs) c0 es)).
  { clear -Ea. induction es as [|[k v] es IH]; intros c0 Ht Hs; [split; assumption|]. cbn [forallb fst snd] in Ea.
    apply andb_true_iff in Ea as [Ek Ea]. cbn [foldl]. destruct (SetWithTypeAutoConvert_spec fs k v c0 Ht Hs) as (c' & _ & H).
    destruct (H Ek) as (-> & Ht' & Hs'). apply IH; assumption. }
  destruct (H table table_typed same_table_create) as [Ht Hs]. split; [exact Ht | exact Hs].
Qed.

Definition item_registered (item : Configuration.conf_item) : Prop :=
  match item with
  | Configuration.IntConf kv v _ => map_get kv.1 (mValueValidator table) = Some v /\ mValueTypes table !! kv.1 = Some VINT
  | Configuration.StrConf kv v _ | Configuration.PathConf kv v _ =>
      map_get kv.1 (mValueValidator table) = Some v /\ mValueTypes table !! kv.1 = Some VSTRING
  | Configuration.LevelConverter _ => True
  end.

Lemma items_registered : Forall item_registered Configuration.defaults.
Proof. unfold Configuration.defaults. repeat (constructor; [try exact I; split; vm_compute; reflexivity|]). constructor. Qed.

Lemma choices_checked :
  Forall (fun item => match item with
                      | Configuration.StrConf _ (VStrEnum _ e) _ => choice_check e = true
                      | _ => True
                      end) Configuration.defaults.
Proof. unfold Configuration.defaults. repeat (constructor; [try exact I; vm_compute; reflexivity|]). constructor. Qed.

Abbreviation LOCAL := MXMD_SERVER_RPC_LOCAL_IPSEG.1.
Abbreviation REMOTE := MXMD_SERVER_RPC_REMOTE_IPSEG.1.

Definition sets_no_nodes (v : Validator) : bool := match v with VIpAndPort _ => false | _ => true end.

Lemma table_keys : exists pre post : list (string * Validator),
  mValueValidator table = pre ++ [(LOCAL, VIpAndPort LOCAL); (REMOTE, VIpAndPort REMOTE)] ++ post /\
  forallb (fun e => sets_no_nodes e.2 && match map_get e.1 (mValueValidator table) with Some v => sets_no_nodes v | None => false end) (pre ++ post) = true.
Proof.
  exists (take 26 (mValueValidator table)), (drop 28 (mValueValidator table)). split; vm_compute; reflexivity.
Qed.

Lemma ValidateOneType_net fs k v t c net : sets_no_nodes v = true -> (Configuration.ValidateOneType fs k v t c net).2 = net.
Proof.
  intros Hv. unfold Configuration.ValidateOneType. destruct t; try reflexivity.
  - by destruct (mIntItems c !! k).
  - destruct (mStrItems c !! k); [|done]. destruct v; try reflexivity; discriminate Hv.
  - by destruct (mLongItems c !! k).
Qed.

Lemma validate_items_app fs ks1 ks2 c net :
  Configuration.validate_items fs (ks1 ++ ks2) c net =
    let '(e1, net1) := Configuration.validate_items fs ks1 c net in
    let '(e2, net2) := Configuration.validate_items fs ks2 c net1 in (e1 ++ e2, net2).
Proof.
  revert net. induction ks1 as [|k ks1 IH]; intros net; simpl.
  - by destruct (Configuration.validate_items fs ks2 c net).
  - destruct (Configuration.ValidateItem fs k c net) as [e net1]. rewrite IH.
    destruct (Configuration.validate_items fs ks1 c net1) as [e1 net2].
    destruct (Configuration.validate_items fs ks2 c net2) as [e2 net3]. by rewrite app_assoc.
Qed.

Lemma validate_items_elem fs ks c net net' k :
  Configuration.validate_items fs ks c net = ([], net') -> k ∈ ks ->
  exists net1 net2, Configuration.ValidateItem fs k c net1 = ([], net2).
Proof.
  intros H Hk. apply list_elem_of_split in Hk as (ks1 & ks2 & ->). rewrite validate_items_app in H.
  destruct (Configuration.validate_items fs ks1 c net) as [e1 net1]. cbn [Configuration.validate_items] in H.
  destruct (Configuration.ValidateItem fs k c net1) as [e net2] eqn:E.
  destruct (Configuration.validate_items fs ks2 c net2) as [e2 net3]. injection H as He _.
  apply app_eq_nil in He as [_ He]. apply app_eq_nil in He as [-> _]. by exists net1, net2.
Qed.

Lemma validate_items_net fs es c net :
  mValueValidator c = mValueValidator table ->
  forallb (fun e => sets_no_nodes e.2 && match map_get e.1 (mValueValidator table) with Some v => sets_no_nodes v | None => false end) es = true ->
  (Configuration.validate_items fs es.*1 c net).2 = net.
Proof.
  intros Hc. revert net. induction es as [|e es IH]; intros net H; [reflexivity|]. cbn [forallb] in H.
  apply andb_true_iff in H as [[_ He]%andb_true_iff H]. rewrite fmap_cons. cbn [Configuration.validate_items].
  destruct (Configuration.ValidateItem fs e.1 c net) as [er net1] eqn:E.
  assert (net1 = net) as ->.
  { unfold Configuration.ValidateItem in E. rewrite Hc in E. destruct (map_get e.1 (mValueValidator table)) as [v|]; [|discriminate He].
    destruct (mValueTypes c !! e.1) as [t|]; [|by injection E as _ <-]. pose proof (ValidateOneType_net fs e.1 v t c net He) as Hn.
    rewrite E in Hn. exact Hn. }
  specialize (IH net H). destruct (Configuration.validate_items fs es.*1 c net) as [e2 net2]. exact IH.
Qed.

Lemma map_get_in {V} k (v : V) l : map_get k l = Some v -> k ∈ l.*1.
Proof.
  intros H. destruct (decide (k ∈ l.*1)) as [|Hn]; [done|]. apply map_get_none in Hn. congruence.
Qed.

Section Validated.
Context (fs : Files) (c : Conf) (net net' : RpcNodes).
Hypothesis Ht : typed c.
Hypothesis Hs : same_table c.
Hypothesis Hv : Configuration.ValidateDaemonConf fs c net = ([], net').

(** An item with a validator was checked by it. *)
Lemma checked_item k v :
  map_get k (mValueValidator table) = Some v ->
  match mValueTypes table !! k with
  | Some VINT => exists z, mIntItems c !! k = Some z /\ Validate_int v z = true
  | Some VSTRING => exists s net1 net2, mStrItems c !! k = Some s /\ Validate_string fs v s net1 = (true, net2)
  | _ => True
  end.
Proof using Ht Hs Hv.
  intros Hk. destruct Hs as (Hty & Hva & _). destruct Ht as [Ht1 _]. unfold Configuration.ValidateDaemonConf in Hv. rewrite Hva in Hv.
  destruct (validate_items_elem _ _ _ _ _ k Hv (map_get_in _ _ _ Hk)) as (net1 & net2 & E).
  unfold Configuration.ValidateItem in E. rewrite Hva, Hk, Hty in E. destruct (mValueTypes table !! k) as [t|] eqn:Et; [|exact I].
  rewrite <- Hty in Et. specialize (Ht1 _ _ Et). simpl in Ht1. unfold Configuration.ValidateOneType in E. destruct t; try exact I.
  - destruct Ht1 as [z Ez]. rewrite Ez in E. exists z. split; [exact Ez|]. by destruct (Validate_int v z).
  - destruct Ht1 as [s Es]. rewrite Es in E. exists s, net1, net2. split; [exact Es|].
    destruct (Validate_string fs v s net1) as [[] n]; [|discriminate E]. by injection E as <-.
Qed.

Lemma ranges_hold k d lo hi :
  Configuration.int_range (k, d) lo hi ∈ Configuration.defaults -> (lo <= Configuration.GetInt k 0 c <= hi)%Z.
Proof using Ht Hs Hv.
  intros Hin. pose proof (proj1 (Forall_forall _ _) items_registered _ Hin) as [Hk Hty]. cbn [fst] in Hk, Hty.
  apply checked_item in Hk. rewrite Hty in Hk. destruct Hk as (z & Ez & H). unfold Configuration.GetInt. rewrite Ez.
  cbn in H. apply negb_true_iff, orb_false_iff in H. rewrite !Z.ltb_ge in H. exact H.
Qed.

Lemma choices_hold k d e :
  Configuration.str_enum (k, d) e ∈ Configuration.defaults -> Configuration.GetString k "" c ∈ SplitStr e "||".
Proof using Ht Hs Hv.
  intros Hin. pose proof (proj1 (Forall_forall _ _) items_registered _ Hin) as [Hk Hty]. cbn [fst] in Hk, Hty.
  pose proof (proj1 (Forall_forall _ _) choices_checked _ Hin) as Hc. simpl in Hc.
  apply checked_item in Hk. rewrite Hty in Hk. destruct Hk as (s & net1 & net2 & Es & H). unfold Configuration.GetString. rewrite Es.
  injection H as H _. by apply enum_validate_exact in H.
Qed.

Lemma nodes_hold : exists local remotes,
  ValidateIpAndPort (Configuration.GetString LOCAL "" c) = Some local /\
  mapM ValidateIpAndPort (lines_at "," "" (Configuration.GetString REMOTE "" c)) = Some remotes /\
  net' = mkRpcNodes (NetRpcConfig.SetLocalNode local) (NetRpcConfig.SetRemoteNodes remotes (rpc_remote net)).
Proof using Ht Hs Hv.
  pose proof Hs as (Hty & Hva & _). destruct table_keys as (pre & post & Ek & Hf). rewrite forallb_app in Hf.
  apply andb_true_iff in Hf as [Hpre Hpost].
  assert (Hreg : map_get LOCAL (mValueValidator table) = Some (VIpAndPort LOCAL) /\ mValueTypes table !! LOCAL = Some VSTRING /\
                 map_get REMOTE (mValueValidator table) = Some (VIpAndPort REMOTE) /\ mValueTypes table !! REMOTE = Some VSTRING)
    by (split_and!; vm_compute; reflexivity).
  destruct Hreg as (HL & HLt & HR & HRt).
  pose proof (checked_item _ _ HL) as HLs. rewrite HLt in HLs. destruct HLs as (sl & _ & _ & EL & _).
  pose proof (checked_item _ _ HR) as HRs. rewrite HRt in HRs. destruct HRs as (sr & _ & _ & ER & _).
  unfold Configuration.ValidateDaemonConf in Hv. rewrite Hva, Ek, !fmap_app in Hv. rewrite validate_items_app in Hv.
  pose proof (validate_items_net fs pre c net Hva Hpre) as Hn. destruct (Configuration.validate_items fs pre.*1 c net) as [e1 n1].
  cbn [snd] in Hn. subst n1. rewrite validate_items_app in Hv. cbn [fmap list_fmap fst Configuration.validate_items] in Hv.
  unfold Configuration.ValidateItem in Hv. rewrite Hva, Hty, HL, HR, HLt, HRt in Hv. unfold Configuration.ValidateOneType in Hv.
  rewrite EL, ER in Hv. cbn [Validate_string] in Hv. unfold ip_and_port_validate in Hv.
  rewrite (bool_decide_eq_true_2 (LOCAL = LOCAL)), (bool_decide_eq_true_2 (REMOTE = REMOTE)) in Hv by reflexivity.
  rewrite (bool_decide_eq_false_2 (REMOTE = LOCAL)) in Hv by discriminate.
  unfold Configuration.GetString. rewrite EL, ER. cbn [default from_option id].
  destruct (ValidateIpAndPort sl) as [local|].
  2:{ exfalso. destruct (mapM ValidateIpAndPort (lines_at "," "" sr)); lazy beta iota zeta in Hv;
        match type of Hv with context [Configuration.validate_items ?f ?ks ?c0 ?n] => destruct (Configuration.validate_items f ks c0 n) end;
        apply (f_equal fst), app_eq_nil in Hv as [_ Hv]; discriminate Hv. }
  destruct (mapM ValidateIpAndPort (lines_at "," "" sr)) as [remotes|].
  2:{ exfalso. lazy beta iota zeta in Hv.
      match type of Hv with context [Configuration.validate_items ?f ?ks ?c0 ?n] => destruct (Configuration.validate_items f ks c0 n) end.
      apply (f_equal fst), app_eq_nil in Hv as [_ Hv]. discriminate Hv. }
  lazy beta iota zeta in Hv. cbn [rpc_local rpc_remote] in Hv. set (n2 := mkRpcNodes _ (NetRpcConfig.SetRemoteNodes _ _)) in Hv.
  pose proof (validate_items_net fs post c n2 Hva Hpost) as Hn. destruct (Configuration.validate_items fs post.*1 c n2) as [e3 n3].
  cbn [snd] in Hn. subst n3. injection Hv as _ Hv. exists local, remotes. split; [reflexivity|]. split; [reflexivity|]. by rewrite <- Hv.
Qed.

End Validated.

(** A node the other components can rely on: an address in dotted decimal (the
    validation lets a dot follow it), a port of the configured range, and a name that is parsed to the node again. *)
Definition good_node (n : RpcNode) : Prop :=
  (ipv4 (rn_ip n) \/ exists ip, ipv4 ip /\ rn_ip n = (ip +:+ ".")%string) /\ port_ok (rn_port n) /\
  NetRpcConfig.ParseRpcNodeFromId (rn_name n) = (NetRpcConfig.MXM_OK, Some n).

Lemma accepted_node seg a : ValidateIpAndPort seg = Some a -> good_node (NetRpcConfig.make_node a.1 a.2).
Proof.
  destruct a as [ip port]. intros H. apply ValidateIpAndPort_sound in H as (Hip & Hp & Hn).
  split; [by apply ValidateIp_exact|]. split; [exact Hp | exact Hn].
Qed.

Lemma accepted_nodes segs l :
  mapM ValidateIpAndPort segs = Some l -> Forall good_node ((fun a => NetRpcConfig.make_node a.1 a.2) <$> l).
Proof.
  intros H. apply mapM_Some_1 in H. induction H as [|seg a segs l Ha Hl IH]; [constructor|]. rewrite fmap_cons.
  constructor; [by apply (accepted_node seg) | exact IH].
Qed.

(** C11: a loaded configuration that passes the validation has every integer
    in the range of its item and every choice among the words of its item, and
    has set the local node and added the remote nodes that the two address
    items name; each of them has an address of four decimal numbers separated
    by dots, which one more dot may follow, and a port between 7201 and 7800,
    and its name is parsed to the same node when a connection to it is
    opened. *)
Theorem validated_configuration (fs : Files) (path : string) (c : Conf) (net net' : RpcNodes) :
  Configuration.FromFile fs path = Configuration.Loaded c -> Configuration.ValidateDaemonConf fs c net = ([], net') ->
  (forall k d lo hi, Configuration.int_range (k, d) lo hi ∈ Configuration.defaults -> (lo <= Configuration.GetInt k 0 c <= hi)%Z) /\
  (forall k d e, Configuration.str_enum (k, d) e ∈ Configuration.defaults -> Configuration.GetString k "" c ∈ SplitStr e "||") /\
  exists local remotes,
    ValidateIpAndPort (Configuration.GetString LOCAL "" c) = Some local /\
    mapM ValidateIpAndPort (lines_at "," "" (Configuration.GetString REMOTE "" c)) = Some remotes /\
    rpc_local net' = NetRpcConfig.make_node local.1 local.2 /\
    rpc_remote net' = rpc_remote net ++ ((fun a => NetRpcConfig.make_node a.1 a.2) <$> remotes) /\
    good_node (rpc_local net') /\ Forall good_node ((fun a => NetRpcConfig.make_node a.1 a.2) <$> remotes).
Proof.
  intros Hl Hv. apply loaded_typed in Hl as [Ht Hs]. split; [by apply (ranges_hold fs c net net')|].
  split; [by apply (choices_hold fs c net net')|]. destruct (nodes_hold fs c net net' Ht Hs Hv) as (local & remotes & E1 & E2 & ->).
  exists local, remotes. split; [exact E1|]. split; [exact E2|]. split; [reflexivity|]. split; [reflexivity|].
  split; [exact (accepted_node _ _ E1) | exact (accepted_nodes _ _ E2)].
Qed.

(** ** Witnesses *)

(** A file system on which every path is canonical and accessible, with one
    file: the required items of the table at their defaults, after a comment. *)
Definition demo_lines : list source_line :=
  Comment 1 " configuration of ubsmd" :: Blank 2 ::
  omap (fun item =>
          match item with
          | Configuration.IntConf kv _ 1 => Some (Entry 0 1 2 1 true kv.1 (int_to_string kv.2))
          | Configuration.StrConf kv _ 1 | Configuration.PathConf kv _ 1 => Some (Entry 1 0 0 0 false kv.1 kv.2)
          | _ => None
          end) Configuration.defaults ++
  [Entry 0 0 0 0 false REMOTE "10.0.0.2:7202,10.0.0.3:7203"].

Definition demo_path : string := "/etc/ubsm/ubsmd.conf".

Definition demo_files : Files := mkFiles
  (fun p => Some p) (fun p => if bool_decide (p = demo_path) then Some (file_text demo_lines) else None)
  (fun _ _ => true) (fun _ => Some S_IFREG) (fun _ => Some S_IFREG).

Definition lacksb (c : ascii) (s : string) : bool := forallb (fun x => negb (Ascii.eqb x c)) (String.list_ascii_of_string s).

Lemma lacksb_sound c s : lacksb c s = true -> lacks c s.
Proof.
  unfold lacksb, lacks. induction s as [|x s IH]; simpl; [done|]. rewrite andb_true_iff, negb_true_iff. intros [Hx Hs].
  split; [|by apply IH]. intros ->. by rewrite Ascii.eqb_refl in Hx.
Qed.

Definition line_okb (l : source_line) : bool :=
  match l with
  | Blank _ => true
  | Comment _ text => lacksb "010" text
  | Entry _ b c _ _ key value =>
      clean key && clean value && lacksb "=" key && lacksb "010" key && lacksb "010" value &&
      negb (bool_decide (String.get 0 key = Some "#"%char)) &&
      Nat.leb (String.length (entry_text b c key value)) MAX_LENGTH_COMMON_CONFIG
  end.

Lemma line_okb_sound l : line_okb l = true -> line_ok l.
Proof.
  destruct l as [n|n text|a b c d cr key value]; simpl; [done | apply lacksb_sound|].
  rewrite !andb_true_iff, negb_true_iff, bool_decide_eq_false, Nat.leb_le. intros ((((((H1 & H2) & H3) & H4) & H5) & H6) & H7).
  split_and!; try done; by apply lacksb_sound.
Qed.

Lemma demo_lines_ok : Forall line_ok demo_lines.
Proof.
  apply Forall_forall. intros l Hl. apply line_okb_sound.
  assert (H : forallb line_okb demo_lines = true) by (vm_compute; reflexivity). rewrite forallb_forall in H. by apply H, list_elem_of_In.
Qed.

Lemma demo_accepted : file_accepted demo_files (entries demo_lines) = true.
Proof. vm_compute. reflexivity. Qed.

Lemma configuration_file_exact_witness :
  exists c, Configuration.FromFile demo_files demo_path = Configuration.Loaded c /\ holds_values demo_files (entries demo_lines) c.
Proof.
  pose proof (configuration_file_exact demo_files demo_path demo_path demo_lines) as H. rewrite demo_accepted in H.
  apply H; [reflexivity | reflexivity | vm_compute; split; [reflexivity | discriminate] | exact demo_lines_ok].
Defined.

Definition demo_conf : Conf :=
  match Configuration.FromFile demo_files demo_path with Configuration.Loaded c => c | _ => Configuration.blank end.

Definition no_nodes : RpcNodes := mkRpcNodes (mkRpcNode "" "" 0) [].

Definition demo_nodes : RpcNodes := (Configuration.ValidateDaemonConf demo_files demo_conf no_nodes).2.

Lemma demo_valid :
  Configuration.FromFile demo_files demo_path = Configuration.Loaded demo_conf /\
  Configuration.ValidateDaemonConf demo_files demo_conf no_nodes = ([], demo_nodes).
Proof. split; vm_compute; reflexivity. Qed.

Lemma validated_configuration_witness :
  rn_name (rpc_local demo_nodes) = "127.0.0.1:7201" /\ length (rpc_remote demo_nodes) = 2 /\ good_node (rpc_local demo_nodes).
Proof.
  destruct (validated_configuration demo_files demo_path demo_conf no_nodes demo_nodes (proj1 demo_valid) (proj2 demo_valid))
    as (_ & _ & local & remotes & _ & _ & _ & _ & H & _).
  split; [vm_compute; reflexivity|]. split; [vm_compute; reflexivity | exact H].
Defined.

(** An address may end in a dot, a port in any characters, and the pair in a colon. *)
Lemma lenient_addresses :
  ValidateIpAndPort "127.0.0.1.:7201" = Some ("127.0.0.1.", 7201%Z) /\
  ValidateIpAndPort "127.0.0.1:7201x" = Some ("127.0.0.1", 7201%Z) /\
  ValidateIpAndPort "127.0.0.1:7201:" = Some ("127.0.0.1", 7201%Z).
Proof. split_and!; vm_compute; reflexivity. Qed.
