(* ===== verification/DaemonProcess.v ===== *)
(** The daemon process: [src/src/process/daemon/{main,ock_daemon,ock_service_manager,
    ock_service,ock_service_adapter}.cpp], the module lists of the two services in
    [src/src/mxm_shm/mem_share_service.{h,cpp}] and
    [src/src/mxm_lease/mem_lease_service.{h,cpp}], and the functions by which the
    service library is called, [src/src/mxm_lease/service_api.cpp] and
    [src/src/mxm_shm/service_api.cpp].

    The process loads its configuration, loads the services, starts them in a
    fixed order and waits for a signal; then it shuts them down. What the
    process calls (the components modelled in the other files, the system and
    systemd) is a [call]: the calls are logged with their answers, and the
    answers are a parameter, so that every theorem holds for all of them. *)

From S2P Require Import Prelude NodeAddress Configuration.
Import ConfConstant.

(** ** Calls *)

Inductive module_fn := FnInit | FnStart | FnShutdown | FnExit.

(** [ModuleCall s m f]: function [f] of module [m] of service [s]. [Signal] is
    the moment at which [stopRequested] is read: a nonzero answer says that
    [SIGTERM] has arrived. *)
Inductive call :=
  | ModuleCall (service module : string) (f : module_fn)
  | Signal
  | SdNotify (message : string)
  | SetDecryptLibPath (path : string)
  | LogServerInit (level : Z) (path : string) (rotationFileSize rotationFileCount : Z)
  | AuditLogInit (path : string) (rotationFileSize rotationFileCount : Z)
  | TracerInit
  | SigAction (signum : Z)
  | Dlopen (path : string)
  | Dlsym (name : string)
  | Dlclose
  | ShmOpen (name : string)
  | CloseFd (fd : Z)
  | StoreInitialize (fd : Z)
  | StoreDestroy
  | PoolStart
  | PoolStop
  | LookupRegionList
  | EnsureGetLocalNodeId
  | WritePidFile
  | MonitorInitialize
  | MonitorDestroy
  | MxmComStartRpcServer
  | MxmComStopRpcServer
  | RackMemConBaseInitialize
  | ZenInitialize (joinTimeout minNodes : Z)
  | ZenGetInstance
  | ZenStart
  | ZenStop
  | LoggerDestroy
  | OpenLockFile
  | FstatLockFile
  | FcntlLockFile
  | CloseLockFile.

#[export] Instance module_fn_eq : EqDecision module_fn.
Proof. solve_decision. Defined.

#[export] Instance call_eq : EqDecision call.
Proof. solve_decision. Defined.

(** ** State *)

Inductive ServerStatus := UNINITIALIZED | INITIALIZED | WAITING.

#[export] Instance ServerStatus_eq : EqDecision ServerStatus.
Proof. solve_decision. Defined.

Inductive KeepAliveStatus := KEEP_ALIVE_IDLE | KEEP_ALIVE_RUNNING | KEEP_ALIVE_STOPPING | KEEP_ALIVE_STOPPED.

(** [OckService]: the status of each phase, the agent the library created and
    the methods that were found in the library. *)
Record OckService := mkOckService {
  constructStatus : Z;
  processArgsStatus : Z;
  initializeStatus : Z;
  startStatus : Z;
  shutdownStatus : Z;
  uninitializeStatus : Z;
  ockServiceAgentP : bool;
  agentMethods : list string
}.

Definition SERVICE_METHOD_CREATE : string := "Create".
Definition SERVICE_METHOD_PROCESS_ARGS : string := "ServiceProcessArgs".
Definition SERVICE_METHOD_INITIALIZE : string := "ServiceInitialize".
Definition SERVICE_METHOD_START : string := "ServiceStart".
Definition SERVICE_METHOD_HEALTHY : string := "ServiceHealthy".
Definition SERVICE_METHOD_SHUTDOWN : string := "ServiceShutdown".
Definition SERVICE_METHOD_UN_INITIALIZE : string := "ServiceUninitialize".
Definition SERVICE_METHOD_DESTROY : string := "Destroy".

(** [serviceMap] and [serviceAdapterMap] (the path of the library), by name. *)
Record OckServiceManager := mkManager {
  serviceMap : list (string * OckService);
  serviceAdapterMap : list (string * string)
}.

(** The settings of [UbsCommonConfig] that the daemon makes. *)
Inductive CipherSuite := AES_GCM_128 | AES_GCM_256 | AES_CCM_128 | CHACHA20_POLY1305.

Definition SetCipherSuit (cipher : string) : CipherSuite :=
  if bool_decide (cipher = "aes_gcm_128") then AES_GCM_128
  else if bool_decide (cipher = "aes_gcm_256") then AES_GCM_256
  else if bool_decide (cipher = "aes_ccm_128") then AES_CCM_128
  else if bool_decide (cipher = "chacha20_poly1305") then CHACHA20_POLY1305
  else AES_GCM_128.

Record TlsPaths := mkTlsPaths { tls_ca : string; tls_crl : string; tls_cert : string; tls_key : string; tls_keypass : string }.

Record CommonConfig := mkCommonConfig {
  enableLeaseCache : bool;
  tlsSwitch : bool;
  cipherSuit : CipherSuite;
  rpcTls : TlsPaths;
  lockTls : TlsPaths
}.

(** The fields of the lock configuration that [ConfigureDLock] sets. *)
Record LockSettings := mkLockSettings {
  ls_devName : string;
  ls_devEid : string;
  ls_expireTime : Z;
  ls_enableTls : bool;
  ls_ubToken : bool;
  ls_logLevel : Z
}.

(** The process. [mConf] is the daemon's pointer to the one configuration
    [gInstance]; [rpcNodes] are the nodes of [NetRpcConfig]; [shareInited] and
    [leaseInited] are the static flags of the two services, and [g_shmService]
    says that the pointer of [service_api.cpp] is set. *)
Record Process := mkProcess {
  mStatus : ServerStatus;
  mRuntimePath : string;
  mDaemonConfig : string;
  gInstance : option Conf;
  mConf : bool;
  rpcNodes : RpcNodes;
  serviceManager : option OckServiceManager;
  mShmFd : Z;
  stopRequested : Z;
  keepAliveStatus : KeepAliveStatus;
  mHtracerEnable : bool;
  commonConfig : CommonConfig;
  lockSettings : LockSettings;
  shareInited : bool;
  leaseInited : bool;
  g_shmService : bool;
  calls : list (call * Z)
}.

Definition set_mStatus (x : ServerStatus) (p : Process) : Process :=
  mkProcess x (mRuntimePath p) (mDaemonConfig p) (gInstance p) (mConf p) (rpcNodes p) (serviceManager p) (mShmFd p)
    (stopRequested p) (keepAliveStatus p) (mHtracerEnable p) (commonConfig p) (lockSettings p) (shareInited p)
    (leaseInited p) (g_shmService p) (calls p).

Definition set_mRuntimePath (x : string) (p : Process) : Process :=
  mkProcess (mStatus p) x (mDaemonConfig p) (gInstance p) (mConf p) (rpcNodes p) (serviceManager p) (mShmFd p)
    (stopRequested p) (keepAliveStatus p) (mHtracerEnable p) (commonConfig p) (lockSettings p) (shareInited p)
    (leaseInited p) (g_shmService p) (calls p).

Definition set_mDaemonConfig (x : string) (p : Process) : Process :=
  mkProcess (mStatus p) (mRuntimePath p) x (gInstance p) (mConf p) (rpcNodes p) (serviceManager p) (mShmFd p)
    (stopRequested p) (keepAliveStatus p) (mHtracerEnable p) (commonConfig p) (lockSettings p) (shareInited p)
    (leaseInited p) (g_shmService p) (calls p).

Definition set_gInstance (x : option Conf) (p : Process) : Process :=
  mkProcess (mStatus p) (mRuntimePath p) (mDaemonConfig p) x (mConf p) (rpcNodes p) (serviceManager p) (mShmFd p)
    (stopRequested p) (keepAliveStatus p) (mHtracerEnable p) (commonConfig p) (lockSettings p) (shareInited p)
    (leaseInited p) (g_shmService p) (calls p).

Definition set_mConf (x : bool) (p : Process) : Process :=
  mkProcess (mStatus p) (mRuntimePath p) (mDaemonConfig p) (gInstance p) x (rpcNodes p) (serviceManager p) (mShmFd p)
    (stopRequested p) (keepAliveStatus p) (mHtracerEnable p) (commonConfig p) (lockSettings p) (shareInited p)
    (leaseInited p) (g_shmService p) (calls p).

Definition set_rpcNodes (x : RpcNodes) (p : Process) : Process :=
  mkProcess (mStatus p) (mRuntimePath p) (mDaemonConfig p) (gInstance p) (mConf p) x (serviceManager p) (mShmFd p)
    (stopRequested p) (keepAliveStatus p) (mHtracerEnable p) (commonConfig p) (lockSettings p) (shareInited p)
    (leaseInited p) (g_shmService p) (calls p).

Definition set_serviceManager (x : option OckServiceManager) (p : Process) : Process :=
  mkProcess (mStatus p) (mRuntimePath p) (mDaemonConfig p) (gInstance p) (mConf p) (rpcNodes p) x (mShmFd p)
    (stopRequested p) (keepAliveStatus p) (mHtracerEnable p) (commonConfig p) (lockSettings p) (shareInited p)
    (leaseInited p) (g_shmService p) (calls p).

Definition set_mShmFd (x : Z) (p : Process) : Process :=
  mkProcess (mStatus p) (mRuntimePath p) (mDaemonConfig p) (gInstance p) (mConf p) (rpcNodes p) (serviceManager p) x
    (stopRequested p) (keepAliveStatus p) (mHtracerEnable p) (commonConfig p) (lockSettings p) (shareInited p)
    (leaseInited p) (g_shmService p) (calls p).

Definition set_stopRequested (x : Z) (p : Process) : Process :=
  mkProcess (mStatus p) (mRuntimePath p) (mDaemonConfig p) (gInstance p) (mConf p) (rpcNodes p) (serviceManager p)
    (mShmFd p) x (keepAliveStatus p) (mHtracerEnable p) (commonConfig p) (lockSettings p) (shareInited p) (leaseInited
    p) (g_shmService p) (calls p).

Definition set_keepAliveStatus (x : KeepAliveStatus) (p : Process) : Process :=
  mkProcess (mStatus p) (mRuntimePath p) (mDaemonConfig p) (gInstance p) (mConf p) (rpcNodes p) (serviceManager p)
    (mShmFd p) (stopRequested p) x (mHtracerEnable p) (commonConfig p) (lockSettings p) (shareInited p) (leaseInited p)
    (g_shmService p) (calls p).

Definition set_mHtracerEnable (x : bool) (p : Process) : Process :=
  mkProcess (mStatus p) (mRuntimePath p) (mDaemonConfig p) (gInstance p) (mConf p) (rpcNodes p) (serviceManager p)
    (mShmFd p) (stopRequested p) (keepAliveStatus p) x (commonConfig p) (lockSettings p) (shareInited p) (leaseInited p)
    (g_shmService p) (calls p).

Definition set_commonConfig (x : CommonConfig) (p : Process) : Process :=
  mkProcess (mStatus p) (mRuntimePath p) (mDaemonConfig p) (gInstance p) (mConf p) (rpcNodes p) (serviceManager p)
    (mShmFd p) (stopRequested p) (keepAliveStatus p) (mHtracerEnable p) x (lockSettings p) (shareInited p) (leaseInited
    p) (g_shmService p) (calls p).

Definition set_lockSettings (x : LockSettings) (p : Process) : Process :=
  mkProcess (mStatus p) (mRuntimePath p) (mDaemonConfig p) (gInstance p) (mConf p) (rpcNodes p) (serviceManager p)
    (mShmFd p) (stopRequested p) (keepAliveStatus p) (mHtracerEnable p) (commonConfig p) x (shareInited p) (leaseInited
    p) (g_shmService p) (calls p).

Definition set_shareInited (x : bool) (p : Process) : Process :=
  mkProcess (mStatus p) (mRuntimePath p) (mDaemonConfig p) (gInstance p) (mConf p) (rpcNodes p) (serviceManager p)
    (mShmFd p) (stopRequested p) (keepAliveStatus p) (mHtracerEnable p) (commonConfig p) (lockSettings p) x (leaseInited
    p) (g_shmService p) (calls p).

Definition set_leaseInited (x : bool) (p : Process) : Process :=
  mkProcess (mStatus p) (mRuntimePath p) (mDaemonConfig p) (gInstance p) (mConf p) (rpcNodes p) (serviceManager p)
    (mShmFd p) (stopRequested p) (keepAliveStatus p) (mHtracerEnable p) (commonConfig p) (lockSettings p) (shareInited
    p) x (g_shmService p) (calls p).

Definition set_g_shmService (x : bool) (p : Process) : Process :=
  mkProcess (mStatus p) (mRuntimePath p) (mDaemonConfig p) (gInstance p) (mConf p) (rpcNodes p) (serviceManager p)
    (mShmFd p) (stopRequested p) (keepAliveStatus p) (mHtracerEnable p) (commonConfig p) (lockSettings p) (shareInited
    p) (leaseInited p) x (calls p).

Definition set_calls (x : list (call * Z)) (p : Process) : Process :=
  mkProcess (mStatus p) (mRuntimePath p) (mDaemonConfig p) (gInstance p) (mConf p) (rpcNodes p) (serviceManager p)
    (mShmFd p) (stopRequested p) (keepAliveStatus p) (mHtracerEnable p) (commonConfig p) (lockSettings p) (shareInited
    p) (leaseInited p) (g_shmService p) x.

(** Answers: of the [n]-th call, and of the file system. *)
Record ProcessEnv := mkProcessEnv { pe_answer : nat -> call -> Z; pe_files : Files }.

(** What a computation has come to: a result; an exception that no one catches
    (or a call through a null pointer), which ends the process where it is; or
    a loop that has not been left within the given number of rounds, so that
    the process is still running. In all three cases there is a process, whose
    log says what it has done so far. *)
Inductive progress (A : Type) : Type :=
  | Done (a : A) (p : Process)
  | Crashed (p : Process)
  | Running (p : Process).
Arguments Done {A}.
Arguments Crashed {A}.
Arguments Running {A}.

Definition reached {A} (r : progress A) : Process := match r with Done _ p | Crashed p | Running p => p end.

Definition PM (A : Type) : Type := ProcessEnv -> Process -> progress A.

#[export] Instance PM_ret : MRet PM := fun A a env p => Done a p.
#[export] Instance PM_bind : MBind PM := fun A B k m env p =>
  match m env p with Done a p => k a env p | Crashed p => Crashed p | Running p => Running p end.

Definition throw {A} : PM A := fun env p => Crashed p.
Definition still_running {A} : PM A := fun env p => Running p.
Definition gets {A} (f : Process -> A) : PM A := fun env p => Done (f p) p.
Definition modify (f : Process -> Process) : PM unit := fun env p => Done tt (f p).
Definition files : PM Files := fun env p => Done (pe_files env) p.

(** Makes a call: it is logged with its answer. *)
Definition ask (c : call) : PM Z := fun env p =>
  let a := pe_answer env (length (calls p)) c in Done a (set_calls (calls p ++ [(c, a)]) p).

(** ** The two services and their modules *)

(** [ModuleDesc]: which of its functions are not null. *)
Record ModuleDesc := mkModule { md_name : string; md_init : bool; md_start : bool; md_shutdown : bool; md_exit : bool }.

Definition MemShare : string := "MemShare".
Definition MemLease : string := "MemLease".

Definition share_modules : list ModuleDesc := [
  mkModule "MemShareIPCServer" true true true false;
  mkModule "MemShareRecovery" true true false false;
  mkModule "MemRegionRecovery" true true false false ].

Definition lease_modules : list ModuleDesc := [
  mkModule "MemLeaseIPCServer" true true true false;
  mkModule "MemLeaseRecovery" true true true false ].

Section Modules.
Context (service : string).

(** [RollbackInit] and [RollbackStart]: the modules before the failed one, last
    one first. *)
Fixpoint RollbackInit (reversed : list ModuleDesc) : PM unit :=
  match reversed with
  | [] => mret tt
  | m :: reversed =>
      (if md_exit m then ask (ModuleCall service (md_name m) FnExit) ;; mret tt else mret tt) ;; RollbackInit reversed
  end.

Fixpoint RollbackStart (reversed : list ModuleDesc) : PM unit :=
  match reversed with
  | [] => mret tt
  | m :: reversed =>
      (if md_shutdown m then ask (ModuleCall service (md_name m) FnShutdown) ;; mret tt else mret tt) ;; RollbackStart reversed
  end.

(** The loops of [OnServiceInitialize] and [OnServiceStart]; [done] are the
    modules before the current one, last one first. *)
Fixpoint init_modules (done modules : list ModuleDesc) : PM Z :=
  match modules with
  | [] => mret HOK
  | m :: modules =>
      if negb (md_init m) then init_modules (m :: done) modules
      else
        ret ← ask (ModuleCall service (md_name m) FnInit);
        if Z.eqb ret 0 then init_modules (m :: done) modules else RollbackInit done ;; mret HFAIL
  end.

Fixpoint start_modules (done modules : list ModuleDesc) : PM Z :=
  match modules with
  | [] => mret HOK
  | m :: modules =>
      if negb (md_start m) then start_modules (m :: done) modules
      else
        ret ← ask (ModuleCall service (md_name m) FnStart);
        if Z.eqb ret 0 then start_modules (m :: done) modules else RollbackStart done ;; mret HFAIL
  end.

(** [OnServiceShutdown] and [OnServiceUninitialize] go through all the modules
    from the last one, as the rollbacks do through those before the failed one. *)
Definition shutdown_modules (modules : list ModuleDesc) : PM Z := RollbackStart (reverse modules) ;; mret HOK.

Definition exit_modules (modules : list ModuleDesc) : PM Z := RollbackInit (reverse modules) ;; mret HOK.

End Modules.

Module MemShareService.

Definition OnServiceProcessArgs : PM Z := mret HOK.

Definition OnServiceInitialize : PM Z :=
  inited ← gets shareInited;
  if inited : bool then mret HOK
  else
    hr ← init_modules MemShare [] share_modules;
    if Z.eqb hr HOK then modify (set_shareInited true) ;; mret HOK else mret HFAIL.

Definition OnServiceStart : PM Z := start_modules MemShare [] share_modules.

Definition OnServiceHealthy : PM Z := mret HOK.

Definition OnServiceShutdown : PM Z := shutdown_modules MemShare share_modules.

Definition OnServiceUninitialize : PM Z := exit_modules MemShare share_modules.

End MemShareService.

Module MemLeaseService.

Definition OnServiceProcessArgs : PM Z := mret HOK.

Definition OnServiceInitialize : PM Z :=
  inited ← gets leaseInited;
  if inited : bool then mret HOK
  else
    hr ← init_modules MemLease [] lease_modules;
    if Z.eqb hr HOK then modify (set_leaseInited true) ;; mret HOK else mret HFAIL.

Definition OnServiceStart : PM Z := start_modules MemLease [] lease_modules.

Definition OnServiceHealthy : PM Z := mret HOK.

Definition OnServiceShutdown : PM Z := shutdown_modules MemLease lease_modules.

Definition OnServiceUninitialize : PM Z := exit_modules MemLease lease_modules.

End MemLeaseService.

(** ** The functions of the service library *)

Module ServiceApi.

(** [ShmCreate] and the service of [Create]; memory is never short. *)
Definition Create : PM bool := modify (set_g_shmService true) ;; mret true.

(** The pattern of every entry: the shared-memory service first, then the
    lease service, which the pointer [real] stands for. *)
Definition both (share lease : PM Z) (real : bool) : PM Z :=
  shm ← gets g_shmService;
  if negb shm then mret (-1)%Z
  else
    ret ← share;
    if negb (Z.eqb ret 0) then mret (-1)%Z
    else if negb real then mret (-1)%Z else lease.

Definition ServiceProcessArgs (real : bool) : PM Z :=
  if negb real then mret (-1)%Z else both MemShareService.OnServiceProcessArgs MemLeaseService.OnServiceProcessArgs real.

Definition ServiceInitialize : bool -> PM Z := both MemShareService.OnServiceInitialize MemLeaseService.OnServiceInitialize.

Definition ServiceStart : bool -> PM Z := both MemShareService.OnServiceStart MemLeaseService.OnServiceStart.

Definition ServiceHealthy : bool -> PM Z := both MemShareService.OnServiceHealthy MemLeaseService.OnServiceHealthy.

Definition ServiceShutdown : bool -> PM Z := both MemShareService.OnServiceShutdown MemLeaseService.OnServiceShutdown.

Definition ServiceUninitialize : bool -> PM Z := both MemShareService.OnServiceUninitialize MemLeaseService.OnServiceUninitialize.

(** [Destroy] deletes the services; [g_shmService] keeps its value. *)
Definition Destroy : PM unit := mret tt.

End ServiceApi.

(** ** One service of the daemon *)

Module OckServiceM.

Definition blank : OckService := mkOckService HFAIL HFAIL HFAIL HFAIL HFAIL HFAIL false [].

(** The symbols that are looked up, in order; [Create] comes first. *)
Definition method_names : list string := [SERVICE_METHOD_PROCESS_ARGS; SERVICE_METHOD_INITIALIZE; SERVICE_METHOD_START;
  SERVICE_METHOD_HEALTHY; SERVICE_METHOD_SHUTDOWN; SERVICE_METHOD_UN_INITIALIZE; SERVICE_METHOD_DESTROY].

(** [GetAgentMethodP] and [GetAgentDefaultedMethodP]: whether the symbol is there. *)
Definition GetAgentMethodP (name : string) : PM bool := a ← ask (Dlsym name); mret (negb (Z.eqb a 0)).

Fixpoint find_methods (names : list string) : PM (list string) :=
  match names with
  | [] => mret []
  | name :: names =>
      ok ← GetAgentMethodP name;
      rest ← find_methods names;
      mret (if ok : bool then name :: rest else rest)
  end.

(** [Initialize]: [None] is the failure of it, after which the object is deleted:
    the library is closed when it was opened. *)
Definition Initialize (libPath : string) : PM (option OckService) :=
  fs ← files;
  if negb (OckFileDirExists fs libPath) then mret None
  else
    handler ← ask (Dlopen libPath);
    if Z.eqb handler 0 then mret None
    else
      create ← GetAgentMethodP SERVICE_METHOD_CREATE;
      if negb create then ask Dlclose ;; mret None
      else
        methods ← find_methods method_names;
        agent ← ServiceApi.Create;
        if negb agent then ask Dlclose ;; mret None
        else mret (Some (mkOckService HOK HFAIL HFAIL HFAIL HFAIL HFAIL agent methods)).

Definition has (name : string) (s : OckService) : bool := ockServiceAgentP s && bool_decide (name ∈ agentMethods s).

Definition OnServiceProcessArgs (s : OckService) : PM (Z * OckService) :=
  let with_ r := mkOckService (constructStatus s) r (initializeStatus s) (startStatus s) (shutdownStatus s) (uninitializeStatus s)
                   (ockServiceAgentP s) (agentMethods s) in
  if negb (Z.eqb (constructStatus s) HOK) then mret (HFAIL, s)
  else if negb (has SERVICE_METHOD_PROCESS_ARGS s) then mret (HFAIL, with_ HFAIL)
  else r ← ServiceApi.ServiceProcessArgs (ockServiceAgentP s); mret (r, with_ r).

(** When the method is not there, the status of [ServiceProcessArgs] is returned. *)
Definition OnServiceInitialize (s : OckService) : PM (Z * OckService) :=
  let with_ r := mkOckService (constructStatus s) (processArgsStatus s) r (startStatus s) (shutdownStatus s) (uninitializeStatus s)
                   (ockServiceAgentP s) (agentMethods s) in
  if negb (Z.eqb (constructStatus s) HOK) then mret (HFAIL, s)
  else if negb (has SERVICE_METHOD_INITIALIZE s) then mret (processArgsStatus s, with_ HFAIL)
  else r ← ServiceApi.ServiceInitialize (ockServiceAgentP s); mret (r, with_ r).

Definition OnServiceStart (s : OckService) : PM (Z * OckService) :=
  let with_ r := mkOckService (constructStatus s) (processArgsStatus s) (initializeStatus s) r (shutdownStatus s) (uninitializeStatus s)
                   (ockServiceAgentP s) (agentMethods s) in
  if negb (Z.eqb (constructStatus s) HOK) then mret (HFAIL, s)
  else if negb (has SERVICE_METHOD_START s) then mret (processArgsStatus s, with_ HFAIL)
  else r ← ServiceApi.ServiceStart (ockServiceAgentP s); mret (r, with_ r).

Definition OnServiceHealthy (s : OckService) : PM (Z * OckService) :=
  if negb (Z.eqb (constructStatus s) HOK) then mret (HFAIL, s)
  else if negb (Z.eqb (startStatus s) HOK) then mret (HFAIL, s)
  else if negb (has SERVICE_METHOD_HEALTHY s) then mret (HOK, s)
  else r ← ServiceApi.ServiceHealthy (ockServiceAgentP s); mret (r, s).

Definition OnServiceShutdown (s : OckService) : PM (Z * OckService) :=
  let with_ r := mkOckService (constructStatus s) (processArgsStatus s) (initializeStatus s) (startStatus s) r (uninitializeStatus s)
                   (ockServiceAgentP s) (agentMethods s) in
  if negb (Z.eqb (constructStatus s) HOK) then mret (HFAIL, s)
  else if negb (has SERVICE_METHOD_SHUTDOWN s) then mret (processArgsStatus s, with_ HFAIL)
  else r ← ServiceApi.ServiceShutdown (ockServiceAgentP s); mret (r, with_ r).

Definition OnServiceUninitialize (s : OckService) : PM (Z * OckService) :=
  let with_ r := mkOckService (constructStatus s) (processArgsStatus s) (initializeStatus s) (startStatus s) (shutdownStatus s) r
                   (ockServiceAgentP s) (agentMethods s) in
  if negb (Z.eqb (constructStatus s) HOK) then mret (HFAIL, s)
  else if negb (has SERVICE_METHOD_UN_INITIALIZE s) then mret (processArgsStatus s, with_ HFAIL)
  else r ← ServiceApi.ServiceUninitialize (ockServiceAgentP s); mret (r, with_ r).

End OckServiceM.

(** ** The service manager *)

Module Manager.

Definition empty : OckServiceManager := mkManager [] [].

(** [map::insert] leaves an entry that is there alone. *)
Definition insert_new {V} (k : string) (v : V) (l : list (string * V)) : list (string * V) :=
  match map_get k l with Some _ => l | None => map_put k v l end.

Fixpoint put_services (services : list string) (libPath : string) (mgr : OckServiceManager) : PM (Z * OckServiceManager) :=
  match services with
  | [] => mret (HOK, mgr)
  | service :: services =>
      let serviceName := OckTrimString service in
      let serviceLibPath := (libPath +:+ "/lib" +:+ map_chars tolower serviceName +:+ ".so")%string in
      if Nat.ltb PATH_MAX (String.length serviceLibPath) then mret (HFAIL, mgr)
      else
        s ← OckServiceM.Initialize serviceLibPath;
        match s with
        | None => put_services services libPath mgr
        | Some s => put_services services libPath
                      (mkManager (insert_new serviceName s (serviceMap mgr)) (insert_new serviceName serviceLibPath (serviceAdapterMap mgr)))
        end
  end.

Definition ServicePut (services : list string) (libPath : string) (mgr : OckServiceManager) : PM (Z * OckServiceManager) :=
  if Nat.ltb (length services) 1 || Nat.ltb 2 (length services) then mret (HFAIL, mgr)
  else put_services services libPath mgr.

(** [CreateServiceArgs]: the arguments of a service, [None] without a
    configuration. The service asks for none of its own. *)
Definition CreateServiceArgs (argNames : list string) : PM (option (list string)) :=
  let argKeys := match argNames with
                 | [] => ["" ; MXMD_DAEMON_RUNTIME.1; MXMD_DAEMON_CONFIG.1; MXMD_SERVER_LOG_LEVEL.1]
                 | _ => argNames
                 end in
  config ← gets gInstance;
  mret (config ← config; Some ((fun name => Configuration.GetConvertedValue name config) <$> argKeys)).

Fixpoint process_args (adapters : list (string * string)) (services : list (string * OckService)) :
    PM (Z * list (string * OckService)) :=
  match adapters with
  | [] => mret (HOK, services)
  | (name, _) :: adapters =>
      match map_get name services with
      | None => process_args adapters services
      | Some s =>
          args ← CreateServiceArgs [];
          match args with
          | None => mret (HFAIL, services)
          | Some _ =>
              r ← OckServiceM.OnServiceProcessArgs s;
              let services := map_put name r.2 services in
              if negb (Z.eqb r.1 0) then mret (HFAIL, services) else process_args adapters services
          end
      end
  end.

Definition ServiceProcessArgs (mgr : OckServiceManager) : PM (Z * OckServiceManager) :=
  r ← process_args (serviceAdapterMap mgr) (serviceMap mgr); mret (r.1, mkManager r.2 (serviceAdapterMap mgr)).

(** The loop of [OnServiceInitialize], which stops at the first failure. *)
Fixpoint init_all (services : list (string * OckService)) : PM (Z * list (string * OckService)) :=
  match services with
  | [] => mret (HOK, [])
  | (name, s) :: services =>
      r ← OckServiceM.OnServiceInitialize s;
      if negb (Z.eqb r.1 0) then mret (HFAIL, (name, r.2) :: services)
      else rest ← init_all services; mret (rest.1, (name, r.2) :: rest.2)
  end.

(** The loop of the other phases: all services are called, and the status of
    the last one is returned. *)
Fixpoint call_all (f : OckService -> PM (Z * OckService)) (hr : Z) (services : list (string * OckService)) :
    PM (Z * list (string * OckService)) :=
  match services with
  | [] => mret (hr, [])
  | (name, s) :: services =>
      r ← f s;
      rest ← call_all f r.1 services;
      mret (rest.1, (name, r.2) :: rest.2)
  end.

Definition OnServiceInitialize (mgr : OckServiceManager) : PM (Z * OckServiceManager) :=
  r ← init_all (serviceMap mgr); mret (r.1, mkManager r.2 (serviceAdapterMap mgr)).

Definition OnServiceStart (mgr : OckServiceManager) : PM (Z * OckServiceManager) :=
  r ← call_all OckServiceM.OnServiceStart HOK (serviceMap mgr); mret (r.1, mkManager r.2 (serviceAdapterMap mgr)).

Definition OnServiceHealthy (mgr : OckServiceManager) : PM (Z * OckServiceManager) :=
  r ← call_all OckServiceM.OnServiceHealthy HOK (serviceMap mgr); mret (r.1, mkManager r.2 (serviceAdapterMap mgr)).

Definition OnServiceShutdown (mgr : OckServiceManager) : PM (Z * OckServiceManager) :=
  r ← call_all OckServiceM.OnServiceShutdown HOK (serviceMap mgr); mret (r.1, mkManager r.2 (serviceAdapterMap mgr)).

Definition OnServiceUninitialize (mgr : OckServiceManager) : PM (Z * OckServiceManager) :=
  r ← call_all OckServiceM.OnServiceUninitialize HOK (serviceMap mgr); mret (r.1, mkManager r.2 (serviceAdapterMap mgr)).

(** The phases of one service by its name. *)
Definition one (f : OckService -> PM (Z * OckService)) (serviceName : string) (mgr : OckServiceManager) : PM (Z * OckServiceManager) :=
  match map_get serviceName (serviceMap mgr) with
  | None => mret (HFAIL, mgr)
  | Some s => r ← f s; mret (r.1, mkManager (map_put serviceName r.2 (serviceMap mgr)) (serviceAdapterMap mgr))
  end.

Definition ServiceInitialize_one : string -> OckServiceManager -> PM (Z * OckServiceManager) := one OckServiceM.OnServiceInitialize.
Definition ServiceStart_one : string -> OckServiceManager -> PM (Z * OckServiceManager) := one OckServiceM.OnServiceStart.
Definition ServiceShutdown_one : string -> OckServiceManager -> PM (Z * OckServiceManager) := one OckServiceM.OnServiceShutdown.
Definition ServiceUninitialize_one : string -> OckServiceManager -> PM (Z * OckServiceManager) := one OckServiceM.OnServiceUninitialize.

End Manager.

(** ** The daemon *)

Module OckDaemon.

Definition RUNTIME_PATH_HEADER : string := "--runtime=".
Definition CONFIG_PATH_HEADER : string := "--config=".
Definition DECRYPT_LIB_NAME : string := "libdecrypt.so".
Definition MB_MULTIPLER : Z := 1024 * 1024.
Definition MXM_ERR_DAEMON_NO_FEATURE_ENABLED : Z := 107.

(** A C string after the header [header]; [None] when it does not start with it
    or is too long. *)
Definition after_header (header arg : string) : option string :=
  if String.prefix header arg then
    let rest := String.substring (String.length header) (String.length arg) arg in
    if Nat.leb PATH_MAX (String.length rest) then None else Some rest
  else None.

Definition CheckRuntimePath (runtimePath : string) : PM Z :=
  fs ← files;
  match after_header RUNTIME_PATH_HEADER runtimePath with
  | None => mret HFAIL
  | Some path =>
      match fs_realpath fs path with
      | None => mret HFAIL
      | Some real =>
          if negb (bool_decide (fs_stat fs real = Some S_IFDIR)) then mret HFAIL
          else modify (set_mRuntimePath real) ;; mret HOK
      end
  end.

Definition CheckConfigPath (configPath : string) : PM Z :=
  fs ← files;
  match after_header CONFIG_PATH_HEADER configPath with
  | None => mret HFAIL
  | Some path =>
      match fs_realpath fs path with
      | None => mret HFAIL
      | Some real =>
          if negb (bool_decide (fs_stat fs real = Some S_IFREG)) then mret HFAIL
          else modify (set_mDaemonConfig real) ;; mret HOK
      end
  end.

Definition CheckParam (runtimePath configPath : string) : PM Z :=
  r ← CheckRuntimePath (c_str runtimePath);
  if negb (Z.eqb r 0) then mret HFAIL
  else
    r ← CheckConfigPath (c_str configPath);
    if negb (Z.eqb r 0) then mret HFAIL
    else
      path ← gets mRuntimePath;
      ask (SetDecryptLibPath (path +:+ "/" +:+ DECRYPT_LIB_NAME)) ;; mret HOK.

Definition GetConfPath : PM (Z * string) :=
  confPath ← gets mDaemonConfig;
  fs ← files;
  if negb (OckFileDirExists fs confPath) then mret (HFAIL, confPath) else mret (HOK, confPath).

(** The configuration behind the pointer [mConf]; the code checks the pointer
    before it uses it. *)
Definition conf : PM (option Conf) := ok ← gets mConf; c ← gets gInstance; mret (if ok : bool then c else None).

Definition conf_string (key : string) : PM string := c ← conf; mret (from_option (Configuration.GetString key "") "" c).

Definition conf_int (key : string) : PM Z := c ← conf; mret (from_option (Configuration.GetInt key 0) 0%Z c).

Definition ValidateConfiguration : PM Z :=
  c ← conf;
  match c with
  | None => mret HFAIL
  | Some c =>
      fs ← files;
      nodes ← gets rpcNodes;
      let '(validationError, nodes) := Configuration.ValidateDaemonConf fs c nodes in
      modify (set_rpcNodes nodes) ;;
      if negb (bool_decide (validationError = [])) then mret HFAIL else mret HOK
  end.

Definition LoadDaemonConf : PM Z :=
  path ← GetConfPath;
  if negb (Z.eqb path.1 0) then mret HFAIL
  else
    fs ← files;
    instance ← gets gInstance;
    match Configuration.GetInstance fs path.2 instance with
    | None => throw
    | Some instance =>
        modify (set_gInstance instance) ;;
        modify (set_mConf (bool_decide (is_Some instance))) ;;
        if bool_decide (instance = None) then mret HFAIL
        else
          hr ← ValidateConfiguration;
          if negb (Z.eqb hr 0) then mret HFAIL
          else
            runtime ← gets mRuntimePath;
            config ← gets mDaemonConfig;
            modify (fun p => set_gInstance (Configuration.Set_string MXMD_DAEMON_RUNTIME.1 (RUNTIME_PATH_HEADER +:+ runtime) <$> gInstance p) p) ;;
            modify (fun p => set_gInstance (Configuration.Set_string MXMD_DAEMON_CONFIG.1 (CONFIG_PATH_HEADER +:+ config) <$> gInstance p) p) ;;
            mret HOK
    end.

(** The sizes are computed with 64 bits and passed as 32-bit integers. *)
Definition InitDaemonLog : PM Z :=
  c ← conf;
  match c with
  | None => mret HFAIL
  | Some c =>
      let logLevel := LogAdapter.StringToLogLevel (Configuration.GetString MXMD_SERVER_LOG_LEVEL.1 "" c) in
      let logOutputPath := Configuration.GetString MXMD_SERVER_LOG_PATH.1 "" c in
      let rotationFileSize := Configuration.GetInt MXMD_SERVER_LOG_ROTATION_FILE_SIZE.1 0 c in
      let rotationFileCount := Configuration.GetInt MXMD_SERVER_LOG_ROTATION_FILE_COUNT.1 0 c in
      let auditEnable := Configuration.GetString MXMD_SERVER_AUDIT_ENABLE.1 "" c in
      let auditLogOutputPath := Configuration.GetString MXMD_SERVER_AUDIT_LOG_PATH.1 "" c in
      let auditRotationFileSize := Configuration.GetInt MXMD_SERVER_AUDIT_LOG_ROTATION_FILE_SIZE.1 0 c in
      let auditRotationFileCount := Configuration.GetInt MXMD_SERVER_AUDIT_LOG_ROTATION_FILE_COUNT.1 0 c in
      let rotationFileSpace := (rotationFileSize * MB_MULTIPLER)%Z in
      if Z.ltb INT32_MAX rotationFileSpace then mret HFAIL
      else
        hr ← ask (LogServerInit logLevel logOutputPath (s32 rotationFileSpace) rotationFileCount);
        if negb (Z.eqb hr 0) then mret HFAIL
        else if bool_decide (auditEnable = "on") then
          let auditRotationFileSpace := (auditRotationFileSize * MB_MULTIPLER)%Z in
          if Z.ltb INT32_MAX auditRotationFileSpace then mret HFAIL
          else
            hr ← ask (AuditLogInit auditLogOutputPath (s32 auditRotationFileSpace) auditRotationFileCount);
            if negb (Z.eqb hr 0) then mret HFAIL else mret HOK
        else mret HOK
  end.

Definition InitHtrace : PM Z :=
  c ← conf;
  match c with
  | None => mret HFAIL
  | Some c =>
      if bool_decide (Configuration.GetString MXMD_SEVER_PERFORMANCE_STATISTICS_ENABLE.1 "" c = "on") then
        modify (set_mHtracerEnable true) ;; ask TracerInit ;; mret HOK
      else mret HOK
  end.

Definition InitDaemonService : PM Z :=
  mgr ← gets serviceManager;
  match mgr with
  | Some _ => mret HOK
  | None =>
      modify (set_serviceManager (Some Manager.empty)) ;;
      c ← conf;
      match c with
      | None => mret HFAIL
      | Some _ =>
          runtime ← gets mRuntimePath;
          r ← Manager.ServicePut (SplitStr MXMD_FEATURES_ENABLE.2 "|") runtime Manager.empty;
          modify (set_serviceManager (Some r.2)) ;; mret r.1
      end
  end.

Definition InitHandler : PM Z :=
  hr ← LoadDaemonConf;
  if negb (Z.eqb hr 0) then mret HFAIL
  else hr ← InitDaemonLog; if negb (Z.eqb hr 0) then mret HFAIL else mret HOK.

Definition SIGTERM : Z := 15.
Definition SIGPIPE : Z := 13.

Definition RegisterSignalHandler : PM Z :=
  modify (set_stopRequested 0) ;;
  r ← ask (SigAction SIGTERM);
  if Z.ltb r 0 then mret HFAIL
  else r ← ask (SigAction SIGPIPE); if Z.ltb r 0 then mret HFAIL else mret HOK.

Definition CommonInitialize : PM Z :=
  hr ← InitHandler;
  ok ← gets mConf;
  if negb (Z.eqb hr 0) || negb ok then mret HFAIL
  else hr ← RegisterSignalHandler; if negb (Z.eqb hr 0) then mret HFAIL else mret HOK.

Definition CheckServicesCount : PM Z :=
  mgr ← gets serviceManager;
  mret match mgr with
       | None => HFAIL
       | Some mgr => if Nat.eqb (length (serviceMap mgr)) 0 then HFAIL else HOK
       end.

(** A phase of the service manager: a call through a null pointer does not come
    back. *)
Definition manager_phase (f : OckServiceManager -> PM (Z * OckServiceManager)) : PM Z :=
  mgr ← gets serviceManager;
  match mgr with
  | None => throw
  | Some mgr => r ← f mgr; modify (set_serviceManager (Some r.2)) ;; mret r.1
  end.

Definition ServicesInitialize : PM Z :=
  hr ← InitDaemonService;
  if negb (Z.eqb hr 0) then mret HFAIL
  else
    hr ← CheckServicesCount;
    if negb (Z.eqb hr 0) then mret MXM_ERR_DAEMON_NO_FEATURE_ENABLED
    else
      hr ← manager_phase Manager.ServiceProcessArgs;
      if negb (Z.eqb hr 0) then mret HFAIL
      else hr ← manager_phase Manager.OnServiceInitialize; if negb (Z.eqb hr 0) then mret HFAIL else mret HOK.

Definition Initialize : PM Z :=
  runtime ← gets mRuntimePath;
  config ← gets mDaemonConfig;
  status ← gets mStatus;
  if bool_decide (runtime = "") || bool_decide (config = "") then mret HFAIL
  else if negb (bool_decide (status = UNINITIALIZED)) then mret HFAIL
  else
    hr ← CommonInitialize;
    if negb (Z.eqb hr 0) then mret hr
    else
      hr ← ServicesInitialize;
      if negb (Z.eqb hr 0) then mret hr
      else
        hr ← InitHtrace;
        if negb (Z.eqb hr 0) then mret hr
        else modify (set_mStatus INITIALIZED) ;; mret hr.

(** *** Locks *)

Definition InitializeRpcServer : PM Z :=
  ret ← ask MxmComStartRpcServer;
  if negb (Z.eqb ret 0) then mret ret
  else
    ret ← ask RackMemConBaseInitialize;
    if negb (Z.eqb ret 0) then ask MxmComStopRpcServer ;; mret ret else mret HOK.

(** [MapUbsmLogLevel2DLockLevel]. *)
Definition MapUbsmLogLevel2DLockLevel (level : Z) : Z :=
  if Z.eqb level DBG_LOG_DEBUG then 7 else if Z.eqb level DBG_LOG_INFO then 6 else if Z.eqb level DBG_LOG_WARN then 4
  else if Z.eqb level DBG_LOG_ERROR then 3 else if Z.eqb level DBG_LOG_CRITICAL then 2 else 6.

Definition on (key : string) : PM bool := v ← conf_string key; mret (bool_decide (v = "on")).

(** The expiry is kept as an [unsigned int]. *)
Definition ConfigureDLock : PM unit :=
  devName ← conf_string MXMD_LOCK_DEV_NAME.1;
  devEid ← conf_string MXMD_LOCK_DEV_EID.1;
  expire ← conf_int MXMD_LOCK_EXPIRE_TIME.1;
  tls ← on MXMD_IS_LOCK_TLS_ENABLE.1;
  token ← on MXMD_IS_LOCK_UB_TOKEN_ENABLE.1;
  level ← conf_string MXMD_SERVER_LOG_LEVEL.1;
  modify (set_lockSettings (mkLockSettings devName devEid (u32 expire) tls token
                              (MapUbsmLogLevel2DLockLevel (LogAdapter.StringToLogLevel level)))).

Definition InitializeZenDiscovery : PM bool :=
  joinTimeout ← conf_int MXMD_DISCOVERY_ELECTION_TIMEOUT.1;
  minNodes ← conf_int MXMD_DISCOVERY_MIN_NODES.1;
  ask (ZenInitialize joinTimeout minNodes) ;;
  zenDiscovery ← ask ZenGetInstance;
  if Z.eqb zenDiscovery 0 then mret false else ask ZenStart ;; mret true.

(** The five paths of a TLS configuration; only the revocation list may be empty. *)
Definition tls_paths (ca crl cert key keypass : string) : PM TlsPaths :=
  caPath ← conf_string ca;
  crlPath ← conf_string crl;
  certPath ← conf_string cert;
  keyPath ← conf_string key;
  keypassPath ← conf_string keypass;
  mret (mkTlsPaths caPath crlPath certPath keyPath keypassPath).

Definition tls_required (t : TlsPaths) : list (string * bool) :=
  [(tls_ca t, true); (tls_crl t, false); (tls_cert t, true); (tls_key t, true); (tls_keypass t, true)].

Definition InitLockTlsConfig : PM Z :=
  c ← conf;
  match c with
  | None => mret HFAIL
  | Some c =>
      lockTls ← on MXMD_IS_LOCK_TLS_ENABLE.1;
      if negb lockTls then mret HOK
      else
        t ← tls_paths UBSMD_LOCK_TLS_CA_PATH.1 UBSMD_LOCK_TLS_CRL_PATH.1 UBSMD_LOCK_TLS_CERT_PATH.1 UBSMD_LOCK_TLS_KEY_PATH.1
              UBSMD_LOCK_TLS_KEYPASS_PATH.1;
        fs ← files;
        if negb (bool_decide (Configuration.ValidateFilePath fs (tls_required t) = [])) then mret HFAIL
        else
          modify (fun p => let cc := commonConfig p in
                           set_commonConfig (mkCommonConfig (enableLeaseCache cc) (tlsSwitch cc) (cipherSuit cc) (rpcTls cc) t) p) ;;
          mret HOK
  end.

Definition InitRpcTlsConfig : PM Z :=
  c ← conf;
  match c with
  | None => mret HFAIL
  | Some c =>
      tlsEnable ← on UBSMD_SERVER_TLS_ENABLE.1;
      if negb tlsEnable then mret HOK
      else
        ciphersuits ← conf_string UBSMD_SERVER_TLS_CIPHERSUITS.1;
        t ← tls_paths UBSMD_SERVER_TLS_CA_PATH.1 UBSMD_SERVER_TLS_CRL_PATH.1 UBSMD_SERVER_TLS_CERT_PATH.1 UBSMD_SERVER_TLS_KEY_PATH.1
              UBSMD_SERVER_TLS_KEYPASS_PATH.1;
        fs ← files;
        if negb (bool_decide (Configuration.ValidateFilePath fs (tls_required t) = [])) then mret HFAIL
        else
          modify (fun p => let cc := commonConfig p in
                           set_commonConfig (mkCommonConfig (enableLeaseCache cc) tlsEnable (SetCipherSuit ciphersuits) t (lockTls cc)) p) ;;
          mret HOK
  end.

(** A failure of the lock service is not one of the daemon. *)
Definition InitUbsmLock : PM Z :=
  c ← conf;
  match c with
  | None => mret HFAIL
  | Some c =>
      lockEnable ← conf_string MXMD_IS_LOCK_ENABLE.1;
      if negb (bool_decide (lockEnable = "on")) then mret HOK
      else
        ConfigureDLock ;;
        rpcTls ← InitRpcTlsConfig;
        lockTls ← (if negb (Z.eqb rpcTls 0) then mret HFAIL else InitLockTlsConfig);
        if negb (Z.eqb lockTls 0) then mret HOK
        else
          rpc ← InitializeRpcServer;
          if negb (Z.eqb rpc 0) then mret HOK
          else
            zen ← InitializeZenDiscovery;
            if negb zen then ask MxmComStopRpcServer ;; mret HOK else mret HOK
  end.

(** *** Start *)

(** Reads [stopRequested], which the handler of [SIGTERM] sets. *)
Definition read_stop : PM Z :=
  a ← ask Signal;
  (if negb (Z.eqb a 0) then modify (set_stopRequested 1) else mret tt) ;;
  gets stopRequested.

(** The engine is asked until it answers or the daemon is to stop. *)
Fixpoint CheckUbseStatus (rounds : nat) : PM Z :=
  match rounds with
  | O => still_running
  | S rounds =>
      ret ← ask LookupRegionList;
      if negb (Z.eqb ret HOK) then
        status ← gets mStatus;
        stop ← (if bool_decide (status = UNINITIALIZED) then mret 1%Z else read_stop);
        if negb (Z.eqb stop 0) then mret HFAIL
        else ask (SdNotify "WATCHDOG=1") ;; CheckUbseStatus rounds
      else ask EnsureGetLocalNodeId ;; mret HOK
  end.

Definition GenerateShareMemory (shmName : string) : PM bool :=
  fd ← ask (ShmOpen shmName);
  if Z.ltb fd 0 then mret false else modify (set_mShmFd fd) ;; mret true.

(** [close(mShmFd); mShmFd = -1;] *)
Definition close_records : PM unit :=
  fd ← gets mShmFd;
  ask (CloseFd fd) ;; modify (set_mShmFd (-1)).

Definition StartServices (rounds : nat) : PM Z :=
  ask (SdNotify "STATUS=unavailable") ;;
  mgr ← gets serviceManager;
  status ← gets mStatus;
  if bool_decide (mgr = None) then mret HFAIL
  else if negb (bool_decide (status = INITIALIZED)) then mret HFAIL
  else
    ok ← GenerateShareMemory "/ubsm_records";
    if negb ok then mret HFAIL
    else
      fd ← gets mShmFd;
      ret ← ask (StoreInitialize fd);
      if negb (Z.eqb ret 0) then close_records ;; mret HFAIL
      else
        ret ← ask PoolStart;
        if negb (Z.eqb ret 0) then mret ret
        else
          cache ← conf_string MXMD_SERVER_LEASE_CACHE_ENABLE.1;
          (if bool_decide (cache = "off") then
             modify (fun p => let cc := commonConfig p in
                              set_commonConfig (mkCommonConfig false (tlsSwitch cc) (cipherSuit cc) (rpcTls cc) (lockTls cc)) p)
           else mret tt) ;;
          hr ← CheckUbseStatus rounds;
          if negb (Z.eqb hr 0) then close_records ;; mret HFAIL
          else
            hr ← manager_phase Manager.OnServiceStart;
            if negb (Z.eqb hr 0) then ask StoreDestroy ;; close_records ;; mret hr
            else
              ask WritePidFile ;;
              ret ← ask MonitorInitialize;
              if negb (Z.eqb ret 0) then ask StoreDestroy ;; close_records ;; mret ret
              else
                ask (SdNotify "STATUS=available") ;;
                hr ← InitUbsmLock;
                if negb (Z.eqb hr 0) then ask StoreDestroy ;; close_records ;; mret hr else mret HOK.

(** *** Stop *)

Definition Shutdown : PM Z :=
  mgr ← gets serviceManager;
  if bool_decide (mgr = None) then mret HFAIL
  else
    ask PoolStop ;;
    ask MonitorDestroy ;;
    hr ← manager_phase Manager.OnServiceShutdown;
    if negb (Z.eqb hr 0) then mret HFAIL else mret HOK.

Definition TryStop : PM unit :=
  status ← gets mStatus;
  if negb (bool_decide (status = WAITING)) then modify (set_mStatus UNINITIALIZED)
  else
    modify (set_mStatus INITIALIZED) ;;
    zenDiscovery ← ask ZenGetInstance;
    (if negb (Z.eqb zenDiscovery 0) then ask ZenStop ;; mret tt else mret tt) ;;
    ask MxmComStopRpcServer ;;
    Shutdown ;; mret tt.

(** The loop of [Wait]: nothing but the signal ends it. *)
Fixpoint wait_for_stop (rounds : nat) : PM unit :=
  match rounds with
  | O => still_running
  | S rounds =>
      status ← gets mStatus;
      if negb (bool_decide (status = WAITING)) then mret tt
      else stop ← read_stop; if negb (Z.eqb stop 0) then mret tt else wait_for_stop rounds
  end.

Definition Wait (rounds : nat) : PM Z :=
  modify (set_mStatus WAITING) ;;
  wait_for_stop rounds ;;
  stop ← gets stopRequested;
  status ← gets mStatus;
  (if negb (Z.eqb stop 0) && bool_decide (status = WAITING) then modify (set_stopRequested 0) ;; TryStop else mret tt) ;;
  modify (set_keepAliveStatus KEEP_ALIVE_STOPPING) ;;
  ask (SdNotify "STATUS=unavailable") ;; mret HOK.

Definition Start (rounds : nat) : PM Z :=
  ask (SdNotify "READY=1") ;;
  hr ← StartServices rounds;
  if negb (Z.eqb hr 0) then mret HFAIL
  else
    hr ← Wait rounds;
    if negb (Z.eqb hr 0) then mret HFAIL
    else modify (set_keepAliveStatus KEEP_ALIVE_STOPPING) ;; mret HOK.

Definition Uninitialize : PM Z :=
  status ← gets mStatus;
  mgr ← gets serviceManager;
  if negb (bool_decide (status = INITIALIZED)) then mret HFAIL
  else if bool_decide (mgr = None) then mret HFAIL
  else
    hr ← manager_phase Manager.OnServiceUninitialize;
    if negb (Z.eqb hr 0) then mret HFAIL else modify (set_mStatus UNINITIALIZED) ;; mret HOK.

(** [StoppedKeepAlive], from the destructor. *)
Definition StoppedKeepAlive : PM unit :=
  modify (set_keepAliveStatus KEEP_ALIVE_STOPPED) ;;
  fd ← gets mShmFd;
  if Z.leb 0 fd then close_records else mret tt.

(** The destructor runs once, when the process ends: the static [mDaemon] keeps
    the object alive after [main] has given up its own reference. *)
Definition destroy : PM unit := StoppedKeepAlive ;; ask LoggerDestroy ;; mret tt.

End OckDaemon.

(** ** [main] *)

Definition ERROR_EXIT_CODE : Z := -1.
Definition CLEAN_EXIT_CODE : Z := 0.
Definition ARGS_NUM : nat := 3.

(** The answers of the lock file: a descriptor, whether it is the daemon's own
    regular file, and whether the lock was granted. *)
Definition CheckIsRunning : PM bool :=
  g_lockFd ← ask OpenLockFile;
  if Z.ltb g_lockFd 0 then mret true
  else
    valid ← ask FstatLockFile;
    if Z.eqb valid 0 then ask CloseLockFile ;; mret true
    else
      ret ← ask FcntlLockFile;
      if Z.ltb ret 0 then ask CloseLockFile ;; mret true else mret false.

Definition run_daemon (rounds : nat) (runtimePath configPath : string) : PM Z :=
  r ← OckDaemon.CheckParam runtimePath configPath;
  if negb (Z.eqb r 0) then mret ERROR_EXIT_CODE
  else
    r ← OckDaemon.Initialize;
    if negb (Z.eqb r 0) then mret ERROR_EXIT_CODE
    else
      r ← OckDaemon.Start rounds;
      if negb (Z.eqb r 0) then mret ERROR_EXIT_CODE
      else
        r ← OckDaemon.Uninitialize;
        if negb (Z.eqb r 0) then mret ERROR_EXIT_CODE else mret CLEAN_EXIT_CODE.

(** The process from [main] to its end. *)
Definition main (rounds : nat) (argv : list string) : PM Z :=
  match argv with
  | [_; runtimePath; configPath] =>
      running ← CheckIsRunning;
      if running : bool then mret ERROR_EXIT_CODE
      else
        code ← run_daemon rounds runtimePath configPath;
        OckDaemon.destroy ;; mret code
  | _ => mret ERROR_EXIT_CODE
  end.

(** A process before [main]. *)
Definition fresh : Process :=
  mkProcess UNINITIALIZED "" "" None false (mkRpcNodes (mkRpcNode "" "" 0) []) None (-1) 0 KEEP_ALIVE_IDLE false
    (mkCommonConfig true false AES_GCM_128 (mkTlsPaths "" "" "" "" "") (mkTlsPaths "" "" "" "" ""))
    (mkLockSettings "" "" 300 false true 7) false false false [].
