(* ===== verification/DaemonTheorems.v ===== *)
(** The daemon process: a service that fails to start undoes what it did, the
    descriptor of the record store is closed on every way out, and only
    validated settings reach the other components. *)

From S2P Require Import Prelude NodeAddress Configuration ConfigurationTheorems DaemonProcess.
Import ConfConstant.

#[local] Opaque Configuration.create.

(** ** What a computation does *)

(** The result of [m] satisfies [Q]; when [m] has none, the process it has
    reached satisfies [E]. *)
Definition pwp (E : Process -> Prop) {A} (m : PM A) (Q : A -> Process -> Prop) (env : ProcessEnv) (p : Process) : Prop :=
  match m env p with Done a p' => Q a p' | Crashed p' | Running p' => E p' end.

Lemma pwp_bind E {A B} (m : PM A) (k : A -> PM B) Q env p :
  pwp E m (fun a p' => pwp E (k a) Q env p') env p -> pwp E (m ≫= k) Q env p.
Proof. unfold pwp, mbind, PM_bind. by destruct (m env p). Qed.

Lemma pwp_mono E {A} (m : PM A) (P Q : A -> Process -> Prop) env p :
  pwp E m P env p -> (forall a p', P a p' -> Q a p') -> pwp E m Q env p.
Proof. unfold pwp. destruct (m env p); auto. Qed.

(** [m] keeps the invariant [I] whatever it is answered, at every moment at
    which it may be left without a result as well. *)
Definition keeps (I : Process -> Prop) {A} (m : PM A) : Prop := forall env p, I p -> pwp I m (fun _ p' => I p') env p.

Lemma pwp_keeps E {A} (I : Process -> Prop) (m : PM A) (Q : A -> Process -> Prop) env p :
  keeps I m -> I p -> (forall p', I p' -> E p') -> (forall a p', I p' -> Q a p') -> pwp E m Q env p.
Proof. intros Hm Hp HE HQ. specialize (Hm env p Hp). unfold pwp in *. destruct (m env p); auto. Qed.

Section Keeps.
Context (I : Process -> Prop).

Lemma pkeeps_bind {A B} (m : PM A) (k : A -> PM B) : keeps I m -> (forall a, keeps I (k a)) -> keeps I (m ≫= k).
Proof. intros Hm Hk env p Hp. apply pwp_bind. eapply pwp_mono; [by apply Hm|]. intros a p' Hp'. by apply Hk. Qed.

Lemma pkeeps_ret {A} (a : A) : keeps I (mret a).
Proof. by intros env p Hp. Qed.

Lemma keeps_gets {A} (f : Process -> A) : keeps I (gets f).
Proof. by intros env p Hp. Qed.

Lemma keeps_files : keeps I files.
Proof. by intros env p Hp. Qed.

Lemma keeps_throw {A} : keeps I (@throw A).
Proof. by intros env p Hp. Qed.

Lemma keeps_still_running {A} : keeps I (@still_running A).
Proof. by intros env p Hp. Qed.

Lemma keeps_modify f : (forall p, I p -> I (f p)) -> keeps I (modify f).
Proof. intros Hf env p Hp. by apply Hf. Qed.

Lemma keeps_ask c : (forall a p, I p -> I (set_calls (calls p ++ [(c, a)]) p)) -> keeps I (ask c).
Proof. intros Hf env p Hp. by apply Hf. Qed.

End Keeps.

Create HintDb process.

Ltac keep_step :=
  lazymatch goal with
  | |- forall _, _ => intros ?
  | |- keeps _ (mbind _ _) => apply pkeeps_bind; [|intros ?]
  | |- keeps _ (mret _) => apply pkeeps_ret
  | |- keeps _ (gets _) => apply keeps_gets
  | |- keeps _ files => apply keeps_files
  | |- keeps _ throw => apply keeps_throw
  | |- keeps _ still_running => apply keeps_still_running
  | |- keeps _ (if ?b then _ else _) => destruct b
  | |- keeps _ (match ?x with _ => _ end) => destruct x
  | |- keeps _ (let '(_, _) := ?x in _) => destruct x
  end.

Ltac keep := repeat (cbv zeta; first [keep_step | solve [auto with process] | solve [apply keeps_modify; auto with process] | solve [apply keeps_ask; auto with process]]).

(** ** What the services touch *)

Definition service_call (c : call) : Prop :=
  match c with ModuleCall _ _ _ | Dlopen _ | Dlsym _ | Dlclose => True | _ => False end.

(** An invariant that no operation of the service manager can break. *)
Record service_stable (I : Process -> Prop) : Prop := {
  st_manager : forall x p, I p -> I (set_serviceManager x p);
  st_share : forall x p, I p -> I (set_shareInited x p);
  st_lease : forall x p, I p -> I (set_leaseInited x p);
  st_shm : forall x p, I p -> I (set_g_shmService x p);
  st_call : forall c a p, service_call c -> I p -> I (set_calls (calls p ++ [(c, a)]) p)
}.

Section Services.
Context (I : Process -> Prop) (HI : service_stable I).

Local Ltac kp := repeat (cbv zeta; first [keep_step | assumption | solve [eauto with process]
  | solve [apply keeps_modify; intros; first [by apply (st_share I HI) | by apply (st_lease I HI) | by apply (st_shm I HI) | by apply (st_manager I HI)]]
  | solve [apply keeps_ask; intros; by apply (st_call I HI)]]).

Lemma keeps_RollbackInit s ms : keeps I (RollbackInit s ms).
Proof using HI. induction ms as [|m ms IH]; cbn [RollbackInit]; kp. Qed.

Lemma keeps_RollbackStart s ms : keeps I (RollbackStart s ms).
Proof using HI. induction ms as [|m ms IH]; cbn [RollbackStart]; kp. Qed.

#[local] Hint Resolve keeps_RollbackInit keeps_RollbackStart : process.

Lemma keeps_init_modules s done ms : keeps I (init_modules s done ms).
Proof using HI. revert done. induction ms as [|m ms IH]; intros done; cbn [init_modules]; kp; auto. Qed.

Lemma keeps_start_modules s done ms : keeps I (start_modules s done ms).
Proof using HI. revert done. induction ms as [|m ms IH]; intros done; cbn [start_modules]; kp; auto. Qed.

#[local] Hint Resolve keeps_init_modules keeps_start_modules : process.

Lemma keeps_both share lease real : keeps I share -> keeps I lease -> keeps I (ServiceApi.both share lease real).
Proof using HI. intros H1 H2. unfold ServiceApi.both. kp. Qed.

Lemma keeps_api real :
  keeps I (ServiceApi.ServiceProcessArgs real) /\ keeps I (ServiceApi.ServiceInitialize real) /\
  keeps I (ServiceApi.ServiceStart real) /\ keeps I (ServiceApi.ServiceHealthy real) /\
  keeps I (ServiceApi.ServiceShutdown real) /\ keeps I (ServiceApi.ServiceUninitialize real).
Proof using HI.
  unfold ServiceApi.ServiceProcessArgs, ServiceApi.ServiceInitialize, ServiceApi.ServiceStart, ServiceApi.ServiceHealthy,
    ServiceApi.ServiceShutdown, ServiceApi.ServiceUninitialize.
  split_and!; [destruct real; cbn [negb]; [|kp]| | | | |]; apply keeps_both;
    unfold MemShareService.OnServiceProcessArgs, MemShareService.OnServiceInitialize, MemShareService.OnServiceStart,
      MemShareService.OnServiceHealthy, MemShareService.OnServiceShutdown, MemShareService.OnServiceUninitialize,
      MemLeaseService.OnServiceProcessArgs, MemLeaseService.OnServiceInitialize, MemLeaseService.OnServiceStart,
      MemLeaseService.OnServiceHealthy, MemLeaseService.OnServiceShutdown, MemLeaseService.OnServiceUninitialize,
      shutdown_modules, exit_modules; kp.
Qed.

Lemma keeps_phases s :
  keeps I (OckServiceM.OnServiceProcessArgs s) /\ keeps I (OckServiceM.OnServiceInitialize s) /\
  keeps I (OckServiceM.OnServiceStart s) /\ keeps I (OckServiceM.OnServiceShutdown s) /\ keeps I (OckServiceM.OnServiceUninitialize s).
Proof using HI.
  destruct (keeps_api (ockServiceAgentP s)) as (H1 & H2 & H3 & H4 & H5 & H6).
  unfold OckServiceM.OnServiceProcessArgs, OckServiceM.OnServiceInitialize, OckServiceM.OnServiceStart, OckServiceM.OnServiceShutdown,
    OckServiceM.OnServiceUninitialize. split_and!; kp.
Qed.

Lemma keeps_find_methods names : keeps I (OckServiceM.find_methods names).
Proof using HI. induction names as [|n names IH]; cbn [OckServiceM.find_methods]; unfold OckServiceM.GetAgentMethodP; kp. Qed.

Lemma keeps_service_init lib : keeps I (OckServiceM.Initialize lib).
Proof using HI. pose proof keeps_find_methods. unfold OckServiceM.Initialize, OckServiceM.GetAgentMethodP, ServiceApi.Create. kp; auto. Qed.

Lemma keeps_put names lib mgr : keeps I (Manager.ServicePut names lib mgr).
Proof using HI.
  pose proof keeps_service_init as Hs. unfold Manager.ServicePut. destruct (_ || _); [kp|].
  revert mgr. induction names as [|n names IH]; intros mgr; cbn [Manager.put_services]; kp; auto.
Qed.

Lemma keeps_process_args mgr : keeps I (Manager.ServiceProcessArgs mgr).
Proof using HI.
  pose proof keeps_phases as Hp. unfold Manager.ServiceProcessArgs. apply pkeeps_bind; [|kp].
  generalize (serviceMap mgr). induction (serviceAdapterMap mgr) as [|[n l] ads IH]; intros services; cbn [Manager.process_args]; [kp|].
  destruct (map_get n services) as [s|]; [|apply IH]. unfold Manager.CreateServiceArgs. specialize (Hp s) as (H & _). kp; auto.
Qed.

Lemma keeps_call_all f hr services : (forall s, keeps I (f s)) -> keeps I (Manager.call_all f hr services).
Proof using HI. intros Hf. revert hr. induction services as [|[n s] services IH]; intros hr; cbn [Manager.call_all]; kp; auto. Qed.

Lemma keeps_init_all services : keeps I (Manager.init_all services).
Proof using HI.
  pose proof keeps_phases as Hp. induction services as [|[n s] services IH]; cbn [Manager.init_all]; [kp|].
  specialize (Hp s) as (_ & H & _). kp.
Qed.

Lemma keeps_manager mgr :
  keeps I (Manager.OnServiceInitialize mgr) /\ keeps I (Manager.OnServiceStart mgr) /\ keeps I (Manager.OnServiceShutdown mgr) /\
  keeps I (Manager.OnServiceUninitialize mgr).
Proof using HI.
  pose proof keeps_init_all. pose proof keeps_phases as Hp. split_and!; [unfold Manager.OnServiceInitialize; kp; auto|..];
    (apply pkeeps_bind; [apply keeps_call_all; intros s; apply (Hp s) | kp]).
Qed.

Lemma keeps_manager_phase f : (forall mgr, keeps I (f mgr)) -> keeps I (OckDaemon.manager_phase f).
Proof using HI. intros Hf. unfold OckDaemon.manager_phase. kp. Qed.

Lemma keeps_all_phases :
  keeps I (OckDaemon.manager_phase Manager.ServiceProcessArgs) /\ keeps I (OckDaemon.manager_phase Manager.OnServiceInitialize) /\
  keeps I (OckDaemon.manager_phase Manager.OnServiceStart) /\ keeps I (OckDaemon.manager_phase Manager.OnServiceShutdown) /\
  keeps I (OckDaemon.manager_phase Manager.OnServiceUninitialize).
Proof using HI.
  split_and!; apply keeps_manager_phase; intros mgr; [apply keeps_process_args | apply (keeps_manager mgr)..].
Qed.

End Services.

(** ** The phases of the modules of a service *)

(** The common form of the two loops: [fdo] is called on every module that has
    it; when one fails, [fundo] is called on those before it. *)
Fixpoint undo_modules (s : string) (fundo : module_fn) (has_undo : ModuleDesc -> bool) (reversed : list ModuleDesc) : PM unit :=
  match reversed with
  | [] => mret tt
  | m :: reversed =>
      (if has_undo m then ask (ModuleCall s (md_name m) fundo) ;; mret tt else mret tt) ;; undo_modules s fundo has_undo reversed
  end.

Fixpoint do_modules (s : string) (fdo fundo : module_fn) (has_do has_undo : ModuleDesc -> bool) (done modules : list ModuleDesc) : PM Z :=
  match modules with
  | [] => mret HOK
  | m :: modules =>
      if negb (has_do m) then do_modules s fdo fundo has_do has_undo (m :: done) modules
      else
        ret ← ask (ModuleCall s (md_name m) fdo);
        if Z.eqb ret 0 then do_modules s fdo fundo has_do has_undo (m :: done) modules
        else undo_modules s fundo has_undo done ;; mret HFAIL
  end.

Definition module_calls (s : string) (f : module_fn) (has : ModuleDesc -> bool) (ms : list ModuleDesc) : list call :=
  (fun m => ModuleCall s (md_name m) f) <$> filter (fun m => has m = true) ms.

(** The calls of a phase: all the modules in order when it succeeds; else the
    modules up to the failed one, and then the undoing of those before it,
    last one first. *)
Definition phase_calls (s : string) (fdo fundo : module_fn) (has_do has_undo : ModuleDesc -> bool) (ms : list ModuleDesc)
    (log : list (call * Z)) (hr : Z) : Prop :=
  (hr = HOK /\ log = (fun c => (c, 0%Z)) <$> module_calls s fdo has_do ms) \/
  (hr = HFAIL /\ exists pre m post a undone,
     ms = pre ++ m :: post /\ has_do m = true /\ a <> 0%Z /\
     log = ((fun c => (c, 0%Z)) <$> module_calls s fdo has_do pre) ++ [(ModuleCall s (md_name m) fdo, a)] ++ undone /\
     undone.*1 = module_calls s fundo has_undo (reverse pre)).

Lemma set_calls_twice x y p : set_calls x (set_calls y p) = set_calls x p.
Proof. reflexivity. Qed.

Lemma set_calls_same p : set_calls (calls p ++ []) p = p.
Proof. rewrite app_nil_r. by destruct p. Qed.

Lemma undo_modules_spec s fundo has_undo ms env p :
  exists l, undo_modules s fundo has_undo ms env p = Done tt (set_calls (calls p ++ l) p) /\ l.*1 = module_calls s fundo has_undo ms.
Proof.
  revert p. induction ms as [|m ms IH]; intros p; cbn [undo_modules].
  - exists []. rewrite set_calls_same. done.
  - unfold mbind at 1, PM_bind at 1. destruct (has_undo m) eqn:E.
    + unfold ask, mbind, PM_bind, mret, PM_ret. set (a := pe_answer env _ _). set (p1 := set_calls (calls p ++ [(_, a)]) p).
      destruct (IH p1) as (l & El & Hl). exists ((ModuleCall s (md_name m) fundo, a) :: l). unfold mbind, PM_bind in El. rewrite El. unfold p1.
      rewrite set_calls_twice. cbn [calls set_calls]. rewrite <- app_assoc. split; [done|].
      unfold module_calls in *. rewrite filter_cons_True by done. cbn. by f_equal.
    + destruct (IH p) as (l & El & Hl). exists l. split; [exact El|]. unfold module_calls in *. rewrite filter_cons_False; [done | congruence].
Qed.

Lemma do_modules_spec s fdo fundo has_do has_undo done ms env p :
  exists hr l, do_modules s fdo fundo has_do has_undo done ms env p = Done hr (set_calls (calls p ++ l) p) /\
    ((hr = HOK /\ l = (fun c => (c, 0%Z)) <$> module_calls s fdo has_do ms) \/
     (hr = HFAIL /\ exists pre m post a undone,
        ms = pre ++ m :: post /\ has_do m = true /\ a <> 0%Z /\
        l = ((fun c => (c, 0%Z)) <$> module_calls s fdo has_do pre) ++ [(ModuleCall s (md_name m) fdo, a)] ++ undone /\
        undone.*1 = module_calls s fundo has_undo (reverse pre ++ done))).
Proof.
  revert done p. induction ms as [|m ms IH]; intros done p; cbn [do_modules].
  - exists HOK, []. rewrite set_calls_same. split; [done | by left].
  - destruct (has_do m) eqn:Em; cbn [negb].
    + unfold ask, mbind at 1, PM_bind at 1. set (a := pe_answer env _ _). set (p1 := set_calls (calls p ++ [(_, a)]) p).
      destruct (Z.eqb_spec a 0) as [Ea|Ea].
      * destruct (IH (m :: done) p1) as (hr & l & El & Hl). exists hr, ((ModuleCall s (md_name m) fdo, a) :: l). unfold p1 in El.
        rewrite set_calls_twice in El. cbn [calls set_calls] in El. rewrite <- app_assoc in El. split; [exact El|].
        unfold module_calls in *. destruct Hl as [[-> ->]|(-> & pre & m' & post & a' & un & -> & Hm' & Ha' & -> & Hun)]; [left | right].
        { split; [done|]. rewrite filter_cons_True by done. cbn. by rewrite Ea. }
        split; [done|]. exists (m :: pre), m', post, a', un. rewrite filter_cons_True by done. cbn -[reverse]. rewrite Ea. split_and!; try done.
        rewrite reverse_cons, <- app_assoc. exact Hun.
      * destruct (undo_modules_spec s fundo has_undo done env p1) as (l & El & Hl).
        exists HFAIL, ((ModuleCall s (md_name m) fdo, a) :: l). unfold mbind, PM_bind. rewrite El. unfold p1.
        rewrite set_calls_twice. cbn [calls set_calls]. rewrite <- app_assoc. split; [done|]. right. split; [done|].
        exists [], m, ms, a, l. cbn. done.
    + destruct (IH (m :: done) p) as (hr & l & El & Hl). exists hr, l. split; [exact El|]. unfold module_calls in *.
      destruct Hl as [[-> ->]|(-> & pre & m' & post & a' & un & -> & Hm' & Ha' & -> & Hun)]; [left | right].
      { split; [done|]. by rewrite filter_cons_False by congruence. }
      split; [done|]. exists (m :: pre), m', post, a', un. rewrite filter_cons_False by congruence. split_and!; try done.
      rewrite reverse_cons, <- app_assoc. exact Hun.
Qed.

Lemma RollbackInit_undo s ms : RollbackInit s ms = undo_modules s FnExit md_exit ms.
Proof. induction ms as [|m ms IH]; cbn; [done | by rewrite IH]. Qed.

Lemma RollbackStart_undo s ms : RollbackStart s ms = undo_modules s FnShutdown md_shutdown ms.
Proof. induction ms as [|m ms IH]; cbn; [done | by rewrite IH]. Qed.

Lemma init_modules_do s ms : forall prev env p, init_modules s prev ms env p = do_modules s FnInit FnExit md_init md_exit prev ms env p.
Proof.
  induction ms as [|m ms IH]; intros prev env p; cbn; [done|]. destruct (negb (md_init m)); [apply IH|].
  unfold mbind, PM_bind, ask. rewrite RollbackInit_undo. destruct (Z.eqb _ 0); [apply IH | done].
Qed.

Lemma start_modules_do s ms : forall prev env p, start_modules s prev ms env p = do_modules s FnStart FnShutdown md_start md_shutdown prev ms env p.
Proof.
  induction ms as [|m ms IH]; intros prev env p; cbn; [done|]. destruct (negb (md_start m)); [apply IH|].
  unfold mbind, PM_bind, ask. rewrite RollbackStart_undo. destruct (Z.eqb _ 0); [apply IH | done].
Qed.

(** C14: initializing or starting the modules of a service ends in one of two
    ways, whatever the modules answer: every module was called, in order, and
    succeeded; or one failed, and then exactly the modules before it were
    exited or shut down again, last one first, and the service reports the
    failure. Nothing else of the process changes. *)
Theorem module_phases_undo (s : string) (ms : list ModuleDesc) (env : ProcessEnv) (p : Process) :
  (exists hr l, init_modules s [] ms env p = Done hr (set_calls (calls p ++ l) p) /\
                phase_calls s FnInit FnExit md_init md_exit ms l hr) /\
  (exists hr l, start_modules s [] ms env p = Done hr (set_calls (calls p ++ l) p) /\
                phase_calls s FnStart FnShutdown md_start md_shutdown ms l hr) /\
  (exists l, shutdown_modules s ms env p = Done HOK (set_calls (calls p ++ l) p) /\
             l.*1 = module_calls s FnShutdown md_shutdown (reverse ms)).
Proof.
  split; [|split].
  - destruct (do_modules_spec s FnInit FnExit md_init md_exit [] ms env p) as (hr & l & E & H). exists hr, l.
    rewrite init_modules_do. split; [exact E|]. unfold phase_calls. setoid_rewrite app_nil_r in H. exact H.
  - destruct (do_modules_spec s FnStart FnShutdown md_start md_shutdown [] ms env p) as (hr & l & E & H). exists hr, l.
    rewrite start_modules_do. split; [exact E|]. unfold phase_calls. setoid_rewrite app_nil_r in H. exact H.
  - destruct (undo_modules_spec s FnShutdown md_shutdown (reverse ms) env p) as (l & E & H). exists l.
    unfold shutdown_modules. rewrite RollbackStart_undo. unfold mbind, PM_bind. rewrite E. done.
Qed.

(** ** What the rest of the daemon touches *)

(** The calls that concern no descriptor and carry no setting. *)
Definition plain_call (c : call) : Prop :=
  match c with
  | ShmOpen _ | CloseFd _ | LogServerInit _ _ _ _ | AuditLogInit _ _ _ | ZenInitialize _ _ => False
  | _ => True
  end.

Record process_stable (I : Process -> Prop) : Prop := {
  ps_manager : forall x p, I p -> I (set_serviceManager x p);
  ps_share : forall x p, I p -> I (set_shareInited x p);
  ps_lease : forall x p, I p -> I (set_leaseInited x p);
  ps_shm : forall x p, I p -> I (set_g_shmService x p);
  ps_status : forall x p, I p -> I (set_mStatus x p);
  ps_stop : forall x p, I p -> I (set_stopRequested x p);
  ps_alive : forall x p, I p -> I (set_keepAliveStatus x p);
  ps_trace : forall x p, I p -> I (set_mHtracerEnable x p);
  ps_common : forall x p, I p -> I (set_commonConfig x p);
  ps_call : forall c a p, plain_call c -> I p -> I (set_calls (calls p ++ [(c, a)]) p)
}.

Lemma process_service I : process_stable I -> service_stable I.
Proof.
  intros H. constructor; [apply H.(ps_manager I) | apply H.(ps_share I) | apply H.(ps_lease I) | apply H.(ps_shm I)|].
  intros c a p Hc. apply H.(ps_call I). by destruct c.
Qed.

Section Stable.
Context (I : Process -> Prop) (HI : process_stable I).

Local Ltac kd := repeat (cbv zeta; first [keep_step | assumption | solve [eauto with process]
  | solve [apply keeps_modify; intros; first [by apply (ps_manager I HI) | by apply (ps_status I HI) | by apply (ps_stop I HI)
      | by apply (ps_alive I HI) | by apply (ps_trace I HI) | by apply (ps_common I HI)]]
  | solve [apply keeps_ask; intros; by apply (ps_call I HI)]]).

Lemma keeps_conf : keeps I OckDaemon.conf.
Proof. unfold OckDaemon.conf. kd. Qed.

Lemma keeps_conf_string k : keeps I (OckDaemon.conf_string k).
Proof. pose proof keeps_conf. unfold OckDaemon.conf_string. kd. Qed.

#[local] Hint Resolve keeps_conf keeps_conf_string : process.

Lemma keeps_InitializeRpcServer : keeps I OckDaemon.InitializeRpcServer.
Proof using HI. unfold OckDaemon.InitializeRpcServer. kd. Qed.

Lemma keeps_InitLockTlsConfig : keeps I OckDaemon.InitLockTlsConfig.
Proof using HI. unfold OckDaemon.InitLockTlsConfig, OckDaemon.on, OckDaemon.tls_paths. kd. Qed.

Lemma keeps_InitRpcTlsConfig : keeps I OckDaemon.InitRpcTlsConfig.
Proof using HI. unfold OckDaemon.InitRpcTlsConfig, OckDaemon.on, OckDaemon.tls_paths. kd. Qed.

Lemma keeps_read_stop : keeps I OckDaemon.read_stop.
Proof using HI. unfold OckDaemon.read_stop. kd. Qed.

#[local] Hint Resolve keeps_InitializeRpcServer keeps_InitLockTlsConfig keeps_InitRpcTlsConfig keeps_read_stop : process.

Lemma keeps_CheckUbseStatus n : keeps I (OckDaemon.CheckUbseStatus n).
Proof using HI. induction n as [|n IH]; cbn [OckDaemon.CheckUbseStatus]; kd. Qed.

Lemma keeps_phase_of f :
  (forall mgr, keeps I (f mgr)) -> keeps I (OckDaemon.manager_phase f).
Proof using HI. intros Hf. apply keeps_manager_phase; [by apply process_service | done]. Qed.

Lemma keeps_daemon_phases :
  keeps I (OckDaemon.manager_phase Manager.ServiceProcessArgs) /\ keeps I (OckDaemon.manager_phase Manager.OnServiceInitialize) /\
  keeps I (OckDaemon.manager_phase Manager.OnServiceStart) /\ keeps I (OckDaemon.manager_phase Manager.OnServiceShutdown) /\
  keeps I (OckDaemon.manager_phase Manager.OnServiceUninitialize).
Proof using HI. apply keeps_all_phases. by apply process_service. Qed.

Lemma keeps_ServicesInitialize : keeps I OckDaemon.ServicesInitialize.
Proof using HI.
  destruct keeps_daemon_phases as (H1 & H2 & _). pose proof (fun n l m => keeps_put I (process_service I HI) n l m) as Hp.
  unfold OckDaemon.ServicesInitialize, OckDaemon.InitDaemonService, OckDaemon.CheckServicesCount. kd; auto.
Qed.

Lemma keeps_InitHtrace : keeps I OckDaemon.InitHtrace.
Proof using HI. unfold OckDaemon.InitHtrace. kd. Qed.

Lemma keeps_RegisterSignalHandler : keeps I OckDaemon.RegisterSignalHandler.
Proof using HI. unfold OckDaemon.RegisterSignalHandler. kd. Qed.

Lemma keeps_Shutdown : keeps I OckDaemon.Shutdown.
Proof using HI. destruct keeps_daemon_phases as (_ & _ & _ & H & _). unfold OckDaemon.Shutdown. kd. Qed.

Lemma keeps_TryStop : keeps I OckDaemon.TryStop.
Proof using HI. pose proof keeps_Shutdown. unfold OckDaemon.TryStop. kd. Qed.

Lemma keeps_wait_for_stop n : keeps I (OckDaemon.wait_for_stop n).
Proof using HI. induction n as [|n IH]; cbn [OckDaemon.wait_for_stop]; kd. Qed.

Lemma keeps_Wait n : keeps I (OckDaemon.Wait n).
Proof using HI. pose proof (keeps_wait_for_stop n). pose proof keeps_TryStop. unfold OckDaemon.Wait. kd. Qed.

Lemma keeps_Uninitialize : keeps I OckDaemon.Uninitialize.
Proof using HI. destruct keeps_daemon_phases as (_ & _ & _ & _ & H). unfold OckDaemon.Uninitialize. kd. Qed.

Lemma keeps_CheckIsRunning : keeps I CheckIsRunning.
Proof using HI. unfold CheckIsRunning. kd. Qed.

End Stable.

(** ** The descriptor of the record store *)

Definition opened_fds (log : list (call * Z)) : list Z :=
  omap (fun e => match e with (ShmOpen _, fd) => if Z.leb 0 fd then Some fd else None | _ => None end) log.

Definition closed_fds (log : list (call * Z)) : list Z :=
  omap (fun e => match e with (CloseFd fd, _) => Some fd | _ => None end) log.

Definition no_fd (p : Process) : Prop := mShmFd p = (-1)%Z /\ opened_fds (calls p) = closed_fds (calls p).

Definition one_fd (p : Process) : Prop :=
  (0 <= mShmFd p)%Z /\ opened_fds (calls p) = closed_fds (calls p) ++ [mShmFd p].

Lemma fds_log log c a :
  (match c with ShmOpen _ | CloseFd _ => False | _ => True end) ->
  opened_fds (log ++ [(c, a)]) = opened_fds log /\ closed_fds (log ++ [(c, a)]) = closed_fds log.
Proof. intros Hc. unfold opened_fds, closed_fds. rewrite !omap_app. destruct c; try done; cbn; by rewrite !app_nil_r. Qed.

Lemma no_fd_call c a p : (match c with ShmOpen _ | CloseFd _ => False | _ => True end) -> no_fd p -> no_fd (set_calls (calls p ++ [(c, a)]) p).
Proof. intros Hc [H1 H2]. destruct (fds_log (calls p) c a Hc) as [E1 E2]. split; cbn [mShmFd calls set_calls]; [done | by rewrite E1, E2]. Qed.

Lemma one_fd_call c a p : (match c with ShmOpen _ | CloseFd _ => False | _ => True end) -> one_fd p -> one_fd (set_calls (calls p ++ [(c, a)]) p).
Proof. intros Hc [H1 H2]. destruct (fds_log (calls p) c a Hc) as [E1 E2]. split; cbn [mShmFd calls set_calls]; [done | by rewrite E1, E2]. Qed.

Definition some_fd (p : Process) : Prop := no_fd p \/ one_fd p.

Lemma some_fd_call c a p : (match c with ShmOpen _ | CloseFd _ => False | _ => True end) -> some_fd p -> some_fd (set_calls (calls p ++ [(c, a)]) p).
Proof. intros Hc [H|H]; [left; by apply no_fd_call | right; by apply one_fd_call]. Qed.

Lemma no_fd_stable : process_stable no_fd.
Proof. constructor; try (intros x p H; exact H). intros c a p Hc. apply no_fd_call. by destruct c. Qed.

Lemma one_fd_stable : process_stable one_fd.
Proof. constructor; try (intros x p H; exact H). intros c a p Hc. apply one_fd_call. by destruct c. Qed.

Lemma some_fd_stable : process_stable some_fd.
Proof. constructor; try (intros x p H; exact H). intros c a p Hc. apply some_fd_call. by destruct c. Qed.

Lemma close_records_closes env p : one_fd p -> pwp (fun _ => True) OckDaemon.close_records (fun _ p' => no_fd p') env p.
Proof.
  intros [H1 H2]. unfold pwp, OckDaemon.close_records, mbind, PM_bind, gets, ask, modify. cbn.
  split; [done|]. cbn. unfold opened_fds, closed_fds in *. rewrite !omap_app. cbn. by rewrite app_nil_r.
Qed.

Ltac kf kcall := repeat (cbv zeta; first [keep_step | assumption | solve [eauto with process]
  | solve [apply keeps_modify; intros; match goal with H : _ |- _ => exact H end]
  | solve [apply keeps_ask; intros; by apply kcall]]).

Lemma no_fd_initialize : keeps no_fd OckDaemon.Initialize.
Proof.
  pose proof (keeps_ServicesInitialize no_fd no_fd_stable). pose proof (keeps_InitHtrace no_fd no_fd_stable).
  pose proof (keeps_RegisterSignalHandler no_fd no_fd_stable). pose proof (keeps_conf no_fd).
  unfold OckDaemon.Initialize, OckDaemon.CommonInitialize, OckDaemon.InitHandler, OckDaemon.LoadDaemonConf, OckDaemon.GetConfPath,
    OckDaemon.ValidateConfiguration, OckDaemon.InitDaemonLog. kf no_fd_call.
Qed.

Lemma no_fd_check_param a b : keeps no_fd (OckDaemon.CheckParam a b).
Proof. unfold OckDaemon.CheckParam, OckDaemon.CheckRuntimePath, OckDaemon.CheckConfigPath. kf no_fd_call. Qed.

Lemma keeps_lock (I : Process -> Prop) :
  process_stable I -> (forall x p, I p -> I (set_lockSettings x p)) -> (forall t n, keeps I (ask (ZenInitialize t n))) ->
  keeps I OckDaemon.InitUbsmLock.
Proof.
  intros HI Hl Hz. pose proof (keeps_conf I). pose proof (keeps_conf_string I). pose proof (keeps_InitRpcTlsConfig I HI).
  pose proof (keeps_InitLockTlsConfig I HI). pose proof (keeps_InitializeRpcServer I HI).
  unfold OckDaemon.InitUbsmLock, OckDaemon.ConfigureDLock, OckDaemon.InitializeZenDiscovery, OckDaemon.on, OckDaemon.conf_int.
  repeat (cbv zeta; first [keep_step | assumption | solve [auto] | solve [apply keeps_modify; auto]
    | solve [apply keeps_ask; intros; by apply (ps_call I HI)]]).
Qed.

(** After the store was opened: one descriptor until a failure closes it. *)
Lemma close_then {A} (r : A) env p : one_fd p -> pwp (fun _ => True) (OckDaemon.close_records ;; mret r) (fun _ p' => some_fd p') env p.
Proof. intros H. apply pwp_bind. eapply pwp_mono; [by apply close_records_closes|]. intros ? p' Hp'. by left. Qed.

Lemma destroy_then_close {A} (r : A) env p :
  one_fd p -> pwp (fun _ => True) (ask StoreDestroy ;; OckDaemon.close_records ;; mret r) (fun _ p' => some_fd p') env p.
Proof.
  intros H. apply pwp_bind. apply (pwp_keeps _ one_fd); [|done|done|intros; by apply close_then].
  apply keeps_ask. intros a q. by apply one_fd_call.
Qed.

(** One step that keeps [I], and the state after it. *)
Ltac step_by I tac :=
  apply pwp_bind, (pwp_keeps _ I); [solve [tac] | assumption | solve [done | by intros ? [? ?]] |];
  match goal with H : I ?p |- _ => clear p H end; let p := fresh "p" in let H := fresh "Hp" in intros ? p H.

Ltac read_state := apply pwp_bind; match goal with |- pwp _ (gets ?f) ?Q ?env ?p => change (Q (f p) p) end; cbv beta.

Lemma generate_fd env p :
  no_fd p -> pwp (fun _ => True) (OckDaemon.GenerateShareMemory "/ubsm_records") (fun ok p' => if ok : bool then one_fd p' else no_fd p') env p.
Proof.
  intros [Hf Ho]. unfold pwp, OckDaemon.GenerateShareMemory, mbind, PM_bind, ask, modify, mret, PM_ret. cbv beta zeta iota.
  generalize (pe_answer env (length (calls p)) (ShmOpen "/ubsm_records")). intros fd. unfold no_fd, one_fd, opened_fds, closed_fds in *.
  destruct (Z.ltb_spec fd 0) as [Hfd|Hfd]; cbn [calls set_calls set_mShmFd mShmFd]; rewrite !omap_app; cbn.
  - rewrite (proj2 (Z.leb_gt 0 fd)) by lia. by rewrite !app_nil_r.
  - rewrite (proj2 (Z.leb_le 0 fd)) by lia. by rewrite app_nil_r, Ho.
Qed.

Lemma start_services_fd rounds env p : no_fd p -> pwp (fun _ => True) (OckDaemon.StartServices rounds) (fun _ p' => some_fd p') env p.
Proof.
  intros Hp. unfold OckDaemon.StartServices. destruct (keeps_daemon_phases one_fd one_fd_stable) as (_ & _ & Hstart & _).
  assert (Hask : forall c, (match c with ShmOpen _ | CloseFd _ => False | _ => True end) -> keeps one_fd (ask c)).
  { intros c Hc. apply keeps_ask. intros a q. by apply one_fd_call. }
  step_by no_fd ltac:(apply keeps_ask; intros; by apply no_fd_call). read_state. read_state.
  destruct (bool_decide _); [by left|]. destruct (negb _); [by left|].
  apply pwp_bind. eapply pwp_mono; [by apply generate_fd|]. clear p Hp. intros ok p Hp. destruct ok; [|by left]. cbn [negb].
  read_state. step_by one_fd ltac:(by apply Hask). destruct (negb _); [by apply close_then|].
  step_by one_fd ltac:(by apply Hask). destruct (negb _); [by right|].
  step_by one_fd ltac:(apply keeps_conf_string).
  step_by one_fd ltac:(destruct (bool_decide _); [by apply keeps_modify | apply pkeeps_ret]).
  step_by one_fd ltac:(apply keeps_CheckUbseStatus, one_fd_stable). destruct (negb _); [by apply close_then|].
  step_by one_fd ltac:(exact Hstart). destruct (negb _); [by apply destroy_then_close|].
  step_by one_fd ltac:(by apply Hask). step_by one_fd ltac:(by apply Hask). destruct (negb _); [by apply destroy_then_close|].
  step_by one_fd ltac:(by apply Hask).
  step_by one_fd ltac:(apply keeps_lock; [exact one_fd_stable | done | intros; by apply Hask]).
  destruct (negb _); [by apply destroy_then_close | by right].
Qed.

Lemma start_fd rounds env p : no_fd p -> pwp (fun _ => True) (OckDaemon.Start rounds) (fun _ p' => some_fd p') env p.
Proof.
  intros Hp. unfold OckDaemon.Start. apply pwp_bind, (pwp_keeps _ no_fd); [apply keeps_ask; intros; by apply no_fd_call | done | done|].
  clear p Hp. intros _ p Hp. apply pwp_bind. eapply pwp_mono; [by apply start_services_fd|]. intros hr p' Hp'. cbv beta.
  destruct (negb _); [done|]. apply pwp_bind, (pwp_keeps _ some_fd); [apply keeps_Wait, some_fd_stable | done | done|].
  clear. intros hr p Hp. destruct (negb _); [done | exact Hp].
Qed.

Lemma destroy_fd env p : some_fd p -> pwp (fun _ => True) OckDaemon.destroy (fun _ p' => no_fd p') env p.
Proof.
  intros Hp. unfold OckDaemon.destroy, OckDaemon.StoppedKeepAlive. do 2 apply pwp_bind.
  change (pwp (fun _ => True) (modify ?f) ?Q env p) with (Q tt (f p)). cbv beta. apply pwp_bind.
  change (pwp (fun _ => True) (gets ?f) ?Q env ?q) with (Q (f q) q). cbv beta. cbn [mShmFd set_keepAliveStatus].
  set (q := set_keepAliveStatus _ p). assert (Hq : some_fd q) by exact Hp. change (mShmFd p) with (mShmFd q). clearbody q. clear p Hp.
  assert (Hlog : forall q', no_fd q' -> pwp (fun _ => True) (ask LoggerDestroy ;; mret tt) (fun _ p' => no_fd p') env q').
  { intros q' Hq'. apply pwp_bind, (pwp_keeps _ no_fd); [apply keeps_ask; intros; by apply no_fd_call | done | done | done]. }
  destruct Hq as [Hq|Hq].
  - rewrite (proj1 Hq). cbn. by apply Hlog.
  - rewrite (proj2 (Z.leb_le _ _) (proj1 Hq)). eapply pwp_mono; [by apply close_records_closes|]. intros ? q' Hq'. by apply Hlog.
Qed.

Lemma run_daemon_fd rounds a b env p : no_fd p -> pwp (fun _ => True) (run_daemon rounds a b) (fun _ p' => some_fd p') env p.
Proof.
  intros Hp. unfold run_daemon. step_by no_fd ltac:(apply no_fd_check_param). destruct (negb _); [by left|].
  step_by no_fd ltac:(apply no_fd_initialize). destruct (negb _); [by left|].
  apply pwp_bind. eapply pwp_mono; [by apply start_fd|]. clear p Hp. intros r p Hp. cbv beta in *. destruct (negb _); [done|].
  step_by some_fd ltac:(apply keeps_Uninitialize, some_fd_stable). by destruct (negb _).
Qed.

(** C13: whatever the daemon's components, the system and the signals do, a
    process that ends has closed the descriptor of the record store exactly
    once if it was opened, and none that was not. *)
Theorem records_descriptor_closed (env : ProcessEnv) (rounds : nat) (argv : list string) (code : Z) (p : Process) :
  main rounds argv env fresh = Done code p ->
  opened_fds (calls p) = closed_fds (calls p) /\ mShmFd p = (-1)%Z.
Proof.
  assert (H0 : no_fd fresh) by done. assert (H : pwp (fun _ => True) (main rounds argv) (fun _ p' => no_fd p') env fresh).
  { unfold main. destruct argv as [|? [|a [|b [|? ?]]]]; try exact H0.
    apply pwp_bind, (pwp_keeps _ no_fd); [apply keeps_CheckIsRunning, no_fd_stable | done | done|]. intros r p' Hp'. destruct r; [exact Hp'|].
    apply pwp_bind. eapply pwp_mono; [by apply run_daemon_fd|]. intros r p'' Hr. apply pwp_bind.
    eapply pwp_mono; [by apply destroy_fd|]. done. }
  intros E. unfold pwp in H. rewrite E in H. destruct H as [H1 H2]. done.
Qed.

(** ** Settings *)

(** Every integer item of the table is in its range. *)
Definition ranges (c : Conf) : Prop :=
  forall k d lo hi, Configuration.int_range (k, d) lo hi ∈ Configuration.defaults -> (lo <= Configuration.GetInt k 0 c <= hi)%Z.

(** What the components may be told: a log level the logger has, files of 2 to
    100 MB and 1 to 50 of them, an election timeout of at most two seconds and
    at most 30 nodes. *)
Definition sane_call (c : call) : Prop :=
  match c with
  | LogServerInit level _ size count =>
      DBG_LOG_DEBUG <= level <= DBG_LOG_CRITICAL /\ 2 * OckDaemon.MB_MULTIPLER <= size <= 100 * OckDaemon.MB_MULTIPLER /\ 1 <= count <= 50
  | AuditLogInit _ size count => 2 * OckDaemon.MB_MULTIPLER <= size <= 100 * OckDaemon.MB_MULTIPLER /\ 1 <= count <= 50
  | ZenInitialize joinTimeout minNodes => 0 <= joinTimeout <= 2000 /\ 0 <= minNodes <= 30
  | _ => True
  end%Z.

Definition sane (p : Process) : Prop :=
  Forall sane_call (calls p).*1 /\ (30 <= ls_expireTime (lockSettings p) <= 86400)%Z.

Definition sane_with (c : Conf) (p : Process) : Prop := sane p /\ mConf p = true /\ gInstance p = Some c.

Lemma sane_call_log c a p : sane_call c -> sane p -> sane (set_calls (calls p ++ [(c, a)]) p).
Proof.
  intros Hc [H1 H2]. split; [|exact H2]. cbn [calls set_calls]. rewrite fmap_app. apply Forall_app. split; [done|]. by constructor.
Qed.

Lemma sane_with_log conf c a p : sane_call c -> sane_with conf p -> sane_with conf (set_calls (calls p ++ [(c, a)]) p).
Proof. intros Hc (H & H1 & H2). split; [by apply sane_call_log | done]. Qed.

Lemma sane_stable : process_stable sane.
Proof. constructor; try (intros x p H; exact H). intros c a p Hc. apply sane_call_log. by destruct c. Qed.

Lemma sane_with_stable c : process_stable (sane_with c).
Proof. constructor; try (intros x p H; exact H). intros c' a p Hc. apply sane_with_log. by destruct c'. Qed.

Lemma pwp_conf E c Q env p : sane_with c p -> Q (Some c) p -> pwp E OckDaemon.conf Q env p.
Proof. intros (_ & H1 & H2) HQ. unfold pwp, OckDaemon.conf, mbind, PM_bind, gets, mret, PM_ret. by rewrite H1, H2. Qed.

Lemma pwp_conf_int E c k Q env p : sane_with c p -> Q (Configuration.GetInt k 0 c) p -> pwp E (OckDaemon.conf_int k) Q env p.
Proof. intros Hp HQ. unfold OckDaemon.conf_int. apply pwp_bind. by apply (pwp_conf _ c). Qed.

Lemma level_range s : (DBG_LOG_DEBUG <= LogAdapter.StringToLogLevel s <= DBG_LOG_CRITICAL)%Z.
Proof. unfold LogAdapter.StringToLogLevel, LogAdapter.MapStringToLevel. repeat case_bool_decide; vm_compute; split; discriminate. Qed.

Lemma rotation_fits z : (2 <= z <= 100)%Z ->
  Z.ltb INT32_MAX (z * OckDaemon.MB_MULTIPLER) = false /\
  (2 * OckDaemon.MB_MULTIPLER <= s32 (z * OckDaemon.MB_MULTIPLER) <= 100 * OckDaemon.MB_MULTIPLER)%Z.
Proof. unfold INT32_MAX, OckDaemon.MB_MULTIPLER. intros Hz. rewrite Z.ltb_ge, s32_small by lia. lia. Qed.

Lemma in_table item n : Configuration.defaults !! n = Some item -> item ∈ Configuration.defaults.
Proof. apply list_elem_of_lookup_2. Qed.

(** The ranges of the items that the daemon hands on. *)
Lemma ranges_used c : ranges c ->
  (2 <= Configuration.GetInt MXMD_SERVER_LOG_ROTATION_FILE_SIZE.1 0 c <= 100)%Z /\
  (1 <= Configuration.GetInt MXMD_SERVER_LOG_ROTATION_FILE_COUNT.1 0 c <= 50)%Z /\
  (2 <= Configuration.GetInt MXMD_SERVER_AUDIT_LOG_ROTATION_FILE_SIZE.1 0 c <= 100)%Z /\
  (1 <= Configuration.GetInt MXMD_SERVER_AUDIT_LOG_ROTATION_FILE_COUNT.1 0 c <= 50)%Z /\
  (0 <= Configuration.GetInt MXMD_DISCOVERY_ELECTION_TIMEOUT.1 0 c <= 2000)%Z /\
  (0 <= Configuration.GetInt MXMD_DISCOVERY_MIN_NODES.1 0 c <= 30)%Z /\
  (30 <= Configuration.GetInt MXMD_LOCK_EXPIRE_TIME.1 0 c <= 86400)%Z.
Proof.
  intros H. pose proof (fun n k d lo hi E => H k d lo hi (in_table (Configuration.int_range (k, d) lo hi) n E)) as Hn.
  split; [exact (Hn 5 _ _ _ _ eq_refl)|]. split; [exact (Hn 7 _ _ _ _ eq_refl)|]. split; [exact (Hn 11 _ _ _ _ eq_refl)|].
  split; [exact (Hn 12 _ _ _ _ eq_refl)|]. split; [exact (Hn 13 _ _ _ _ eq_refl)|]. split; [exact (Hn 14 _ _ _ _ eq_refl)|].
  exact (Hn 27 _ _ _ _ eq_refl).
Qed.

(** *** Loading *)

Lemma set_string_ranges k v c : ranges c -> ranges (Configuration.Set_string k v c).
Proof. intros H. exact H. Qed.

Lemma load_conf_sane env p :
  sane p -> gInstance p = None ->
  pwp sane OckDaemon.LoadDaemonConf (fun hr p' => sane p' /\ (hr = 0%Z -> exists c, ranges c /\ sane_with c p')) env p.
Proof.
  intros Hp Hg. unfold OckDaemon.LoadDaemonConf, OckDaemon.GetConfPath. apply pwp_bind. unfold pwp at 1, mbind, PM_bind, gets, files, mret, PM_ret.
  destruct (negb (OckFileDirExists _ _)); cbn [fst snd]; [by split|]. cbn [Z.eqb negb HOK].
  unfold pwp. rewrite Hg. unfold Configuration.GetInstance.
  destruct (Configuration.FromFile (pe_files env) (mDaemonConfig p)) as [| |c] eqn:El; [done | |]; unfold modify, mret, PM_ret.
  { cbn. by split. }
  rewrite (bool_decide_eq_true_2 (is_Some (Some c))), (bool_decide_eq_false_2 (Some c = None)) by done.
  unfold OckDaemon.ValidateConfiguration, OckDaemon.conf, mbind, PM_bind, gets, files, mret, PM_ret. cbn [mConf gInstance set_mConf set_gInstance].
  cbn [rpcNodes set_mConf set_gInstance].
  destruct (Configuration.ValidateDaemonConf (pe_files env) c (rpcNodes p)) as [errors nodes] eqn:Ev.
  unfold modify. case_bool_decide as He; cbn [negb]; [|cbn; by split].
  subst errors. cbn [Z.eqb HOK negb]. cbn [gInstance set_rpcNodes set_mConf set_gInstance fmap option_fmap option_map mRuntimePath mDaemonConfig].
  split; [exact Hp|]. intros _. eexists. split; [|split; [exact Hp | split; reflexivity]].
  do 2 apply set_string_ranges. apply loaded_typed in El as [Ht Hs]. intros k d lo hi. by apply (ranges_hold (pe_files env) c (rpcNodes p) nodes).
Qed.

Lemma init_log_sane c env p : ranges c -> sane_with c p -> pwp sane OckDaemon.InitDaemonLog (fun _ p' => sane_with c p') env p.
Proof.
  intros Hr Hp. apply ranges_used in Hr as (Hs & Hn & Has & Han & _). unfold OckDaemon.InitDaemonLog.
  apply pwp_bind, (pwp_conf _ c); [done|]. cbv zeta. destruct (rotation_fits _ Hs) as [-> Hfit]. destruct (rotation_fits _ Has) as [-> Hafit].
  step_by (sane_with c) ltac:(apply keeps_ask; intros a q; apply sane_with_log; split; [apply level_range | done]).
  destruct (negb _); [done|]. destruct (bool_decide _); [|done].
  step_by (sane_with c) ltac:(apply keeps_ask; intros a' q; apply sane_with_log; done). by destruct (negb _).
Qed.

Lemma configure_lock_sane c env p : ranges c -> sane_with c p -> pwp (sane_with c) OckDaemon.ConfigureDLock (fun _ p' => sane_with c p') env p.
Proof.
  intros Hr Hp. apply ranges_used in Hr as (_ & _ & _ & _ & _ & _ & He). unfold OckDaemon.ConfigureDLock, OckDaemon.on.
  step_by (sane_with c) ltac:(apply keeps_conf_string). step_by (sane_with c) ltac:(apply keeps_conf_string).
  apply pwp_bind, (pwp_conf_int _ c); [done|].
  pose proof (keeps_conf_string (sane_with c)) as Hk.
  do 2 step_by (sane_with c) ltac:(apply pkeeps_bind; [apply Hk | intros; apply pkeeps_ret]).
  step_by (sane_with c) ltac:(apply Hk). destruct Hp as ((H1 & H2) & H3).
  split; [|exact H3]. split; [exact H1|]. cbn [lockSettings set_lockSettings ls_expireTime]. rewrite u32_small by lia. exact He.
Qed.

Lemma zen_sane c env p : ranges c -> sane_with c p -> pwp (sane_with c) OckDaemon.InitializeZenDiscovery (fun _ p' => sane_with c p') env p.
Proof.
  intros Hr Hp. apply ranges_used in Hr as (_ & _ & _ & _ & Ht & Hn & _). unfold OckDaemon.InitializeZenDiscovery.
  apply pwp_bind, (pwp_conf_int _ c); [done|]. apply pwp_bind, (pwp_conf_int _ c); [done|].
  step_by (sane_with c) ltac:(apply keeps_ask; intros a q; apply sane_with_log; done).
  step_by (sane_with c) ltac:(apply keeps_ask; intros a' q; by apply sane_with_log). destruct (Z.eqb _ 0); [done|].
  step_by (sane_with c) ltac:(apply keeps_ask; intros a'' q; by apply sane_with_log). done.
Qed.

Lemma keeps_pwp {A} I (m : PM A) : (forall env p, I p -> pwp I m (fun _ p' => I p') env p) -> keeps I m.
Proof. intros H env p. apply H. Qed.

Lemma lock_sane c : ranges c -> keeps (sane_with c) OckDaemon.InitUbsmLock.
Proof.
  intros Hr. pose proof (sane_with_stable c) as HI. pose proof (keeps_conf (sane_with c)). pose proof (keeps_conf_string (sane_with c)).
  pose proof (keeps_InitRpcTlsConfig _ HI). pose proof (keeps_InitLockTlsConfig _ HI). pose proof (keeps_InitializeRpcServer _ HI).
  assert (keeps (sane_with c) OckDaemon.ConfigureDLock) by (apply keeps_pwp; intros; by apply configure_lock_sane).
  assert (keeps (sane_with c) OckDaemon.InitializeZenDiscovery) by (apply keeps_pwp; intros; by apply zen_sane).
  unfold OckDaemon.InitUbsmLock. kf (sane_with_log c).
Qed.

Lemma start_sane c rounds : ranges c -> keeps (sane_with c) (OckDaemon.Start rounds).
Proof.
  intros Hr. pose proof (sane_with_stable c) as HI. pose proof (lock_sane c Hr). pose proof (keeps_conf_string (sane_with c)).
  destruct (keeps_daemon_phases _ HI) as (_ & _ & Hstart & _). pose proof (keeps_CheckUbseStatus _ HI rounds). pose proof (keeps_Wait _ HI rounds).
  unfold OckDaemon.Start, OckDaemon.StartServices, OckDaemon.GenerateShareMemory, OckDaemon.close_records. kf (sane_with_log c).
Qed.

Lemma initialize_sane env p :
  sane p -> gInstance p = None ->
  pwp sane OckDaemon.Initialize (fun hr p' => sane p' /\ (hr = 0%Z -> exists c, ranges c /\ sane_with c p')) env p.
Proof.
  intros Hp Hg. unfold OckDaemon.Initialize. do 3 read_state. destruct (_ || _); [by split|]. destruct (negb _); [by split|].
  unfold OckDaemon.CommonInitialize, OckDaemon.InitHandler. do 3 apply pwp_bind.
  eapply pwp_mono; [by apply load_conf_sane|]. clear p Hp Hg. intros hr p [Hp Hc]. cbv beta.
  destruct (Z.eqb_spec hr 0) as [E|E]; cbn [negb]; [|repeat (read_state || (apply pwp_bind; cbn)); by split].
  destruct (Hc E) as (c & Hr & Hp'). clear Hc E hr Hp. apply pwp_bind. eapply pwp_mono; [by apply init_log_sane|].
  clear p Hp'. intros hr p Hp. cbv beta in *. pose proof (sane_with_stable c) as HI.
  assert (Hend : forall (r : Z) q, sane_with c q -> sane q /\ (r = 0%Z -> exists c', ranges c' /\ sane_with c' q)).
  { intros r q Hq. split; [apply Hq | intros _; by exists c]. }
  apply (pwp_keeps _ (sane_with c)); [destruct (negb _); apply pkeeps_ret | done | by intros ? [? ?]|]. clear p Hp hr. intros hr p Hp.
  read_state. destruct (negb _ || negb _); [by apply Hend|].
  step_by (sane_with c) ltac:(apply keeps_RegisterSignalHandler, HI). 
  apply (pwp_keeps _ (sane_with c)); [destruct (negb _); apply pkeeps_ret | done | by intros ? [? ?]|]. clear p Hp. intros hr' p Hp.
  destruct (negb _); [by apply Hend|].
  step_by (sane_with c) ltac:(apply keeps_ServicesInitialize, HI). destruct (negb _); [by apply Hend|].
  step_by (sane_with c) ltac:(apply keeps_InitHtrace, HI). destruct (negb _); [by apply Hend|].
  by apply Hend.
Qed.

Lemma main_sane rounds argv env : pwp sane (main rounds argv) (fun _ p' => sane p') env fresh.
Proof.
  assert (Hp : sane fresh) by (split; [constructor | cbn; lia]). assert (Hg : gInstance fresh = None) by reflexivity.
  unfold main. destruct argv as [|? [|a [|b [|? ?]]]]; try exact Hp. unfold run_daemon.
  assert (HI : process_stable (fun p => sane p /\ gInstance p = None)).
  { constructor; try (intros x p H; exact H). intros c a' p Hc [H1 H2]. split; [|exact H2]. apply sane_call_log; [by destruct c | done]. }
  assert (Hdestroy : forall (code : Z) q, sane q -> pwp sane (OckDaemon.destroy ;; mret code) (fun _ p' => sane p') env q).
  { intros code q Hq. apply (pwp_keeps _ sane); [|done..]. unfold OckDaemon.destroy, OckDaemon.StoppedKeepAlive, OckDaemon.close_records.
    kf sane_call_log. }
  apply pwp_bind, (pwp_keeps _ (fun p => sane p /\ gInstance p = None)); [by apply keeps_CheckIsRunning | done | by intros ? [? ?]|].
  generalize fresh. clear Hp Hg. intros _ r p [Hp Hg]. destruct r; [exact Hp|]. do 2 apply pwp_bind.
  apply (pwp_keeps _ (fun p => sane p /\ gInstance p = None)); [|done|by intros ? [? ?]|].
  { unfold OckDaemon.CheckParam, OckDaemon.CheckRuntimePath, OckDaemon.CheckConfigPath.
    kf (fun c a' q H => ps_call _ HI c a' q H). }
  clear p Hp Hg. intros r p [Hp Hg]. destruct (negb _); [by apply Hdestroy|]. apply pwp_bind.
  eapply pwp_mono; [by apply initialize_sane|]. clear p Hp Hg r. intros r p [Hp Hc]. cbv beta.
  destruct (Z.eqb_spec r 0) as [E|E]; cbn [negb]; [|by apply Hdestroy]. destruct (Hc E) as (c & Hr & Hp'). clear Hc Hp E r.
  apply pwp_bind, (pwp_keeps _ (sane_with c)); [by apply start_sane | done | by intros ? [? ?]|]. clear p Hp'. intros r p Hp.
  destruct (negb _); [apply Hdestroy, Hp|]. apply pwp_bind, (pwp_keeps _ (sane_with c)); [apply keeps_Uninitialize, sane_with_stable | done | by intros ? [? ?]|].
  clear p Hp. intros r' p Hp. destruct (negb _); apply Hdestroy, Hp.
Qed.

(** C12: whatever the configuration file holds and whatever the process is
    answered, at every moment of its life (whether it has ended, was ended by
    an exception, or is still waiting after any number of rounds of its
    loops), the loggers, the election and the locks have only been given
    settings within their ranges: a log level that exists, log files of 2 to
    100 MB whose size does not overflow the 32-bit integer it is passed as,
    an election timeout of at most two seconds, and a lock that expires after
    30 seconds to a day. *)
Theorem settings_in_range (env : ProcessEnv) (rounds : nat) (argv : list string) :
  let p := reached (main rounds argv env fresh) in
  Forall sane_call (calls p).*1 /\ (30 <= ls_expireTime (lockSettings p) <= 86400)%Z.
Proof. pose proof (main_sane rounds argv env) as H. unfold pwp in H. by destruct (main _ _ _ _). Qed.

(** ** Witnesses *)

Definition demo_process_env : ProcessEnv := mkProcessEnv
  (fun _ c => match c with
              | ShmOpen _ => 3
              | Dlopen _ | Dlsym _ | Signal | FstatLockFile | ZenGetInstance => 1
              | OpenLockFile => 4
              | _ => 0
              end)%Z
  (mkFiles (fs_realpath demo_files) (fs_read demo_files) (fs_access demo_files)
     (fun path => Some (if bool_decide (path = demo_path) then S_IFREG else S_IFDIR)) (fs_lstat demo_files)).

Definition demo_argv : list string := ["ubsmd"; "--runtime=/opt/ubsm"; ("--config=" +:+ demo_path)%string].

Definition demo_end : Process := reached (main 1 demo_argv demo_process_env fresh).

Lemma demo_run : main 1 demo_argv demo_process_env fresh = Done CLEAN_EXIT_CODE demo_end.
Proof. vm_compute. reflexivity. Qed.

Lemma records_descriptor_closed_witness :
  main 1 demo_argv demo_process_env fresh = Done CLEAN_EXIT_CODE demo_end /\ closed_fds (calls demo_end) = [3%Z] /\
  opened_fds (calls demo_end) = closed_fds (calls demo_end).
Proof.
  split; [exact demo_run|]. split; [vm_compute; reflexivity|].
  apply (records_descriptor_closed demo_process_env 1 demo_argv CLEAN_EXIT_CODE demo_end demo_run).
Defined.

(** The same daemon, to which no signal comes. *)
Definition demo_waiting_env : ProcessEnv := mkProcessEnv
  (fun n c => match c with Signal => 0 | _ => pe_answer demo_process_env n c end)%Z (pe_files demo_process_env).

Definition demo_waiting : Process := reached (main 5 demo_argv demo_waiting_env fresh).

Lemma settings_in_range_witness :
  main 5 demo_argv demo_waiting_env fresh = Running demo_waiting /\ (ZenInitialize 1000 0, 0%Z) ∈ calls demo_waiting /\
  Forall sane_call (calls demo_waiting).*1.
Proof.
  split; [vm_compute; reflexivity|].
  split; [apply (bool_decide_eq_true_1 ((ZenInitialize 1000 0, 0%Z) ∈ calls demo_waiting)); vm_compute; reflexivity|].
  apply (settings_in_range demo_waiting_env 5 demo_argv).
Defined.

(** ** Behaviours worth knowing *)

(** The lease service fails to start. *)
Definition lease_fails : ProcessEnv := mkProcessEnv
  (fun _ c => match c with ModuleCall "MemLease" "MemLeaseRecovery" FnStart => 1 | _ => 0 end)%Z demo_files.

(** When the lease service fails to start, its own modules are shut down, but
    those of the shared-memory service, which was started before it, are not. *)
Lemma lease_failure_keeps_share :
  let r := ServiceApi.ServiceStart true lease_fails (set_g_shmService true fresh) in
  r = Done HFAIL (reached r) /\
  (calls (reached r)).*1 =
    [ModuleCall MemShare "MemShareIPCServer" FnStart; ModuleCall MemShare "MemShareRecovery" FnStart;
     ModuleCall MemShare "MemRegionRecovery" FnStart; ModuleCall MemLease "MemLeaseIPCServer" FnStart;
     ModuleCall MemLease "MemLeaseRecovery" FnStart; ModuleCall MemLease "MemLeaseIPCServer" FnShutdown].
Proof. split; vm_compute; reflexivity. Qed.

(** A service whose library has no start function is reported as started. *)
Lemma missing_start_succeeds s env p :
  constructStatus s = HOK -> processArgsStatus s = HOK -> OckServiceM.has SERVICE_METHOD_START s = false ->
  exists s', OckServiceM.OnServiceStart s env p = Done (HOK, s') p /\ startStatus s' = HFAIL.
Proof. intros H1 H2 H3. unfold OckServiceM.OnServiceStart. rewrite H1, H3, H2. eexists. split; reflexivity. Qed.

(** Of several services, only the last one decides whether the start succeeded. *)
Lemma only_last_service_counts f env p n1 s1 n2 s2 r1 r2 p1 p2 :
  f s1 env p = Done r1 p1 -> f s2 env p1 = Done r2 p2 ->
  exists l, Manager.call_all f HOK [(n1, s1); (n2, s2)] env p = Done (r2.1, l) p2.
Proof.
  intros H1 H2. cbn [Manager.call_all]. unfold mbind, PM_bind, mret, PM_ret. rewrite H1, H2. eexists. reflexivity.
Qed.
