(* ===== verification/Client.v ===== *)
(** Client library: data, the calls out of the process, and the monad.

    The library of [src/src/app_lib] is linked into an application. It keeps tables of
    what it has mapped, and reaches the daemon, the kernel and two dynamically
    loaded libraries through calls. None of these is part of the process: what each
    call answers is an argument of the model, and every call is recorded with its
    answer. A call is an event whose type gives the type of its answer.

    Pointers and sizes are 64-bit unsigned; return codes are 32 bits and kept unsigned,
    so that passing one through [int] and back leaves it. *)

From S2P Require Import Prelude RegionTypes.

(** ** Codes and flags *)

Definition UBSM_OK : Z := 0.
Definition HOK : Z := 0.
Definition MXM_OK : Z := 0.

Definition MXM_ERR_MEMLIB : Z := 100.
Definition MXM_ERR_NULLPTR : Z := 101.
Definition MXM_ERR_MALLOC_FAIL : Z := 102.
Definition MXM_ERR_MEMORY : Z := 103.
Definition MXM_ERR_PARAM_INVALID : Z := 104.
Definition MXM_ERR_MMAP_VA_FAILED : Z := 105.
Definition MXM_ERR_CHECK_RESOURCE : Z := 106.
Definition MXM_ERR_DAEMON_NO_FEATURE_ENABLED : Z := 107.
Definition MXM_ERR_IPC_SUSPENDED : Z := 108.
Definition MXM_ERR_IPC_INIT_CALL : Z := 200.
Definition MXM_ERR_IPC_SYNC_CALL : Z := 201.
Definition MXM_ERR_IPC_HCOM_INNER_SYNC_CALL : Z := 202.
Definition MXM_ERR_IPC_CRC_CHECK_ERROR : Z := 203.
Definition MXM_ERR_IPC_SERIALIZE_DESERIALIZE_ERROR : Z := 204.
Definition MXM_ERR_RPC_QUERY_ERROR : Z := 205.
Definition MXM_ERR_REGISTER_OP_CODE : Z := 206.
Definition MXM_ERR_REGISTER_HANDLER_NULL : Z := 207.
Definition MXM_ERR_LOCK_NOT_READY : Z := 300.
Definition MXM_ERR_LOCK_ALREADY_LOCKED : Z := 301.
Definition MXM_ERR_LOCK_NOT_FOUND : Z := 302.
Definition MXM_ERR_DLOCK_LIB : Z := 303.
Definition MXM_ERR_DLOCK_INNER : Z := 304.
Definition MXM_ERR_RECORD_DELETE : Z := 400.
Definition MXM_ERR_RECORD_ADD : Z := 401.
Definition MXM_ERR_RECORD_CHANGE_STATE : Z := 402.
Definition MXM_ERR_REGION_NOT_FOUND : Z := 500.
Definition MXM_ERR_REGION_PARAM_INVALID : Z := 501.
Definition MXM_ERR_REGION_EXIST : Z := 502.
Definition MXM_ERR_REGION_NOT_EXIST : Z := 503.
Definition MXM_ERR_REGION_NO_NEEDED : Z := 504.
Definition MXM_ERR_SHM_NOT_FOUND : Z := 600.
Definition MXM_ERR_SHM_ALREADY_EXIST : Z := 601.
Definition MXM_ERR_SHM_PERMISSION_DENIED : Z := 602.
Definition MXM_ERR_SHM_IN_USING : Z := 603.
Definition MXM_ERR_SHM_OBMM_OPEN : Z := 604.
Definition MXM_ERR_SHM_NOT_EXIST : Z := 606.
Definition MXM_ERR_NAME_BUSY : Z := 650.
Definition MXM_ERR_LEASE_NOT_FOUND : Z := 700.
Definition MXM_ERR_LEASE_NOT_EXIST : Z := 701.
Definition MXM_ERR_UBSE_INNER : Z := 800.
Definition MXM_ERR_UBSE_LIB : Z := 801.
Definition MXM_ERR_UBSE_NOT_ATTACH : Z := 802.
Definition MXM_ERR_UBSE_NOT_SUPPORTED : Z := 803.
Definition MXM_ERR_OBMM_INNER : Z := 900.

Definition BresultFail (res : Z) : bool := negb (Z.eqb res HOK).

Definition UBSM_FLAG_CACHE : Z := 0.
Definition UBSM_FLAG_WITH_LOCK : Z := 1.
Definition UBSM_FLAG_NONCACHE : Z := 2.
Definition UBSM_FLAG_WR_DELAY_COMP : Z := 4.
Definition UBSM_FLAG_ONLY_IMPORT_NONCACHE : Z := 8.
Definition UBSM_FLAG_MEM_ANONYMOUS : Z := 16.
Definition UBSM_FLAG_MMAP_HUGETLB_PMD : Z := 32.
Definition UBSM_FLAG_MALLOC_WITH_NUMA : Z := 64.

Definition FOUR_KB : Z := 4096.
Definition HUGE_PAGES_2M : Z := (2 * 1024 * 1024)%Z.
Definition HUGE_PAGES_512M : Z := (512 * 1024 * 1024)%Z.
Definition MAX_HOST_NAME_DESC_LENGTH : Z := 64.
Definition MAX_SHM_NAME_LENGTH : Z := 48.
Definition MAX_REGION_NAME_DESC_LENGTH : Z := 48.
Definition MAX_REGION_NODE_NUM : Z := 16.
Definition MAX_REGIONS_NUM : Z := 6.
Definition MEM_TOPOLOGY_MAX_HOSTS : Z := 16.
Definition MEM_MAX_ID_LENGTH : Z := 48.
Definition MAX_NUMA_NODE : Z := 257.
Definition INVALID_MEM_FD : Z := -1.

(** The kernel's constants and that of the memory driver. *)
Definition PROT_NONE : Z := 0.
Definition PROT_READ : Z := 1.
Definition PROT_WRITE : Z := 2.
Definition MAP_SHARED : Z := 1.
Definition MAP_PRIVATE : Z := 2.
Definition MAP_FIXED : Z := 16.
Definition MAP_ANONYMOUS : Z := 32.
Definition MAP_FIXED_NOREPLACE : Z := 1048576.
Definition MAP_FAILED : Z := (2 ^ 64 - 1)%Z.
Definition O_RDONLY : Z := 0.
Definition O_RDWR : Z := 2.
Definition O_SYNC : Z := 1052672.
Definition S_IRUSR : Z := 256.
Definition S_IWUSR : Z := 128.
Definition MPOL_PREFERRED : Z := 1.
Definition OBMM_MMAP_FLAG_HUGETLB_PMD : Z := (2 ^ 63)%Z.

Definition UINTPTR_MAX : Z := (2 ^ 64 - 1)%Z.

(** [(flags & bit) == bit] *)
Definition has_flag (flags bit : Z) : bool := Z.eqb (Z.land flags bit) bit.

(** [ROUND_UP], in 64 bits. *)
Definition ROUND_UP (x align : Z) : Z := Z.ldiff (u64 (x + align - 1)) (align - 1).

(** [strnlen] of a C string. *)
Definition strnlen (s : string) (n : Z) : Z := Z.min (Z.of_nat (String.length s)) n.

(** [strcpy_s] into a buffer of [n] bytes succeeds. *)
Definition strcpy_s (n : Z) (s : string) : bool := Z.ltb (Z.of_nat (String.length s)) n.

(** ** Shared memory in the application *)

Inductive ShmOwnStatus := UNACCESS | WRITE | READ | READWRITE | OWNBUFF.

#[export] Instance ShmOwnStatus_eq_dec : EqDecision ShmOwnStatus.
Proof. solve_decision. Defined.

Record ShmAppMetaData := mkMeta {
  md_name : string;
  md_addr : Z;
  md_mapSize : Z;
  md_unitSize : Z;
  md_memIds : list Z;
  md_fds : list Z;
  md_addrs : list (Z * Z);
  md_ownStatuss : ShmOwnStatus;
  md_flag : Z;
  md_oflag : Z;
  md_isLocked : Z;
  md_lockedStatus : ShmOwnStatus;
  md_hasUnmapped : bool;
  md_isLockAddress : bool;
}.

(** The constructor with arguments. *)
Definition new_meta (name : string) (memIds : list Z) (addr mapSize : Z) (status : ShmOwnStatus) (flag : Z) : ShmAppMetaData :=
  mkMeta name addr mapSize 0 memIds [] [] status flag 0 0 UNACCESS false false.

Definition SetHasUnmapped (v : bool) (m : ShmAppMetaData) : ShmAppMetaData :=
  mkMeta (md_name m) (md_addr m) (md_mapSize m) (md_unitSize m) (md_memIds m) (md_fds m) (md_addrs m) (md_ownStatuss m)
    (md_flag m) (md_oflag m) (md_isLocked m) (md_lockedStatus m) v (md_isLockAddress m).

Definition SetisLockAddress (v : bool) (m : ShmAppMetaData) : ShmAppMetaData :=
  mkMeta (md_name m) (md_addr m) (md_mapSize m) (md_unitSize m) (md_memIds m) (md_fds m) (md_addrs m) (md_ownStatuss m)
    (md_flag m) (md_oflag m) (md_isLocked m) (md_lockedStatus m) (md_hasUnmapped m) v.

Definition SetUnitSize (v : Z) (m : ShmAppMetaData) : ShmAppMetaData :=
  mkMeta (md_name m) (md_addr m) (md_mapSize m) v (md_memIds m) (md_fds m) (md_addrs m) (md_ownStatuss m)
    (md_flag m) (md_oflag m) (md_isLocked m) (md_lockedStatus m) (md_hasUnmapped m) (md_isLockAddress m).

Definition SetOflag (v : Z) (m : ShmAppMetaData) : ShmAppMetaData :=
  mkMeta (md_name m) (md_addr m) (md_mapSize m) (md_unitSize m) (md_memIds m) (md_fds m) (md_addrs m) (md_ownStatuss m)
    (md_flag m) v (md_isLocked m) (md_lockedStatus m) (md_hasUnmapped m) (md_isLockAddress m).

Definition set_segments (fds : list Z) (addrs : list (Z * Z)) (m : ShmAppMetaData) : ShmAppMetaData :=
  mkMeta (md_name m) (md_addr m) (md_mapSize m) (md_unitSize m) (md_memIds m) fds addrs (md_ownStatuss m)
    (md_flag m) (md_oflag m) (md_isLocked m) (md_lockedStatus m) (md_hasUnmapped m) (md_isLockAddress m).

Definition AddFds (fd : Z) (m : ShmAppMetaData) : ShmAppMetaData := set_segments (md_fds m ++ [fd]) (md_addrs m) m.

Definition AddAddr (addr length : Z) (m : ShmAppMetaData) : ShmAppMetaData :=
  set_segments (md_fds m) (md_addrs m ++ [(addr, length)]) m.

Definition set_locked (isLocked : Z) (status : ShmOwnStatus) (m : ShmAppMetaData) : ShmAppMetaData :=
  mkMeta (md_name m) (md_addr m) (md_mapSize m) (md_unitSize m) (md_memIds m) (md_fds m) (md_addrs m) (md_ownStatuss m)
    (md_flag m) (md_oflag m) isLocked status (md_hasUnmapped m) (md_isLockAddress m).

(** The three tables of [ShmMetaDataMgr]; the segments that the first two are spread
    over by hash are one map. [std::map] is a list of pairs sorted by key. *)
Record ShmMetaDataMgr := mkShmMgr {
  mAppShmInfoMap : gmap string ShmAppMetaData;
  mAddr2NameMap : gmap Z string;
  mMappedMemoryAddress : list (Z * Z);
}.

(** ** Leased memory in the application *)

Record AppBorrowMetaDesc := mkBorrow {
  bd_fds : list Z;
  bd_addrs : list Z;
  bd_memIds : list Z;
  bd_fileSize : Z;
  bd_actualMapFileSize : Z;
  bd_regionName : string;
  bd_name : string;
  bd_isNuma : bool;
  bd_unitSize : Z;
  bd_hasUnmapped : bool;
  bd_isLockAddress : bool;
}.

Definition new_borrow (fileSize : Z) (region : string) : AppBorrowMetaDesc :=
  mkBorrow [] [] [] fileSize 0 region EmptyString false 0 false false.

(** ** Calls out of the process *)

(** [ubsmem_shmem_desc_t] and the parts of the answer to a lookup. *)
Record shmem_desc := mkShmemDesc { sd_name : string; sd_size : Z }.

Record shmem_info := mkShmemInfo { si_name : string; si_size : Z; si_memIds : list Z; si_unit : Z }.

Record ShmMapBody := mkMapBody {
  mb_memIds : list Z;
  mb_shmSize : Z;
  mb_unitSize : Z;
  mb_flag : Z;
  mb_oflag : Z;
}.

Record MallocBody := mkMallocBody {
  ml_memIds : list Z;
  ml_numaId : Z;
  ml_unitSize : Z;
  ml_name : string;
}.

(** The requests to the daemon, by operation code, with the members of the request
    and the type of the members of the response after its error code. The statistics
    of the cluster are copied and not read. *)
Inductive IpcOp : Type -> Type :=
  | IPC_RACKMEMSHM_CREATE (regionName name : string) (size : Z) (nid : string) (desc : SHMRegionDesc) (flags mode : Z) : IpcOp unit
  | IPC_RACKMEMSHM_CREATE_WITH_PROVIDER (hostName : string) (socketId numaId portId : Z) (name : string) (size flags mode : Z) : IpcOp unit
  | IPC_RACKMEMSHM_DELETE (regionName name : string) : IpcOp unit
  | IPC_RACKMEMSHM_LOOKUP_SHAREREGIONS (baseNid : string) (type : Z) : IpcOp SHMRegions
  | IPC_RACKMEMSHM_MMAP (regionName name : string) (size mode prot : Z) : IpcOp ShmMapBody
  | IPC_RACKMEMSHM_UNMMAP (regionName name : string) : IpcOp unit
  | IPC_REGION_LOOKUP_REGION_LIST (baseNid : string) (type : Z) : IpcOp SHMRegions
  | IPC_REGION_CREATE_REGION (name : string) (region : SHMRegionDesc) : IpcOp unit
  | IPC_REGION_LOOKUP_REGION (name : string) : IpcOp SHMRegionDesc
  | IPC_REGION_DESTROY_REGION (name : string) : IpcOp unit
  | IPC_RACKMEMSHM_WRITELOCK (regionName name : string) : IpcOp unit
  | IPC_RACKMEMSHM_READLOCK (regionName name : string) : IpcOp unit
  | IPC_RACKMEMSHM_UNLOCK (regionName name : string) : IpcOp unit
  | RPC_AGENT_QUERY_NODE_INFO : IpcOp string
  | IPC_RACKMEMSHM_ATTACH (regionName name : string) : IpcOp unit
  | IPC_RACKMEMSHM_DETACH (regionName name : string) : IpcOp unit
  | IPC_RACKMEMSHM_LOOKUP_LIST (regionName prefix : string) : IpcOp (list shmem_desc)
  | IPC_RACKMEMSHM_LOOKUP (regionName name : string) : IpcOp shmem_info
  | IPC_RACKMEMSHM_QUERY_NODE (queryMasterNodeFlag : bool) : IpcOp (bool * string)
  | IPC_RACKMEMSHM_QUERY_DLOCK_STATUS : IpcOp bool
  | IPC_CHECK_SHARE_MEMORY (names : list string) : IpcOp unit
  | IPC_RACKMEMSHM_QUERY_SLOT_ID : IpcOp Z
  | IPC_SUSPEND_CLIENT : IpcOp unit
  | IPC_RESUME_CLIENT : IpcOp unit
  | IPC_MALLOC_MEMORY (size level : Z) (isNuma : bool) (region : string) : IpcOp MallocBody
  | IPC_MALLOC_MEMORY_LOC (size : Z) (isNuma : bool) (slotId socketId numaId portId : Z) : IpcOp MallocBody
  | IPC_FREE_RACKMEM (memIds : list Z) (regionName name : string) : IpcOp unit
  | IPC_QUERY_CLUSTERINFO : IpcOp (list Z)
  | IPC_QUERY_CACHED_MEMORY : IpcOp (list string)
  | IPC_FORCE_FREE_CACHED_MEMORY : IpcOp unit
  | IPC_CHECK_MEMORY_LEASE (names : list string) : IpcOp unit.

(** All calls: those of the IPC connection object ([MxmIpcClient]; a request is answered by
    the transport's code, the response's error code and its members), system calls,
    the memory driver's library, the engine's client library, and the tracer. *)
Inductive Ev : Type -> Type :=
  | SetEnv : Ev Z
  | ClientStart : Ev Z
  | ClientConnect : Ev Z
  | ClientStop : Ev Z
  | ClientSend {A} (op : IpcOp A) : Ev (Z * (Z * A))
  | ClientSetPostReconnectHandler : Ev Z
  | MemoryMap (addr len prot flags fd offset : Z) : Ev Z
  | MemoryUnMap (addr len : Z) : Ev Z
  | MemoryBind (addr size mode nodemask maxnode flags : Z) : Ev Z
  | PosixMemalign (align size : Z) : Ev (Z * Z)
  | Free (addr : Z) : Ev unit
  | OpenShmdev (id flags : Z) : Ev Z
  | Close (fd : Z) : Ev Z
  | ObmmSetOwnership (fd startAddr endAddr prot : Z) : Ev Z
  | DlOpen (path : string) : Ev Z
  | DlSym (symbol : string) : Ev Z
  | DlClose (path : string) : Ev Z
  | UbseLogCallBackRegister : Ev unit
  | UbseFaultEventRegister : Ev Z
  | TracerInit : Ev Z
  | TracerUnInit : Ev unit.

(** A call with its answer. *)
Inductive Entry :=
  | entry {R} (e : Ev R) (answer : R).

(** ** The process *)

Inductive IpcSuspendState :=
  | UNINITIALIZED | RUNNING | SUSPENDING | SUSPENDED | RESUMING | FINALIZING
  | FAILED_SUSPENDING | FAILED_STOPPING | FAILED_RESUMING.

#[export] Instance IpcSuspendState_eq_dec : EqDecision IpcSuspendState.
Proof. solve_decision. Defined.

(** The globals of [mxm_ipc_client_interface.cpp], whether the client object is there.
    Between operations no send is active and no stop in progress. *)
Record IpcLink := mkLink {
  g_mxmIpcClient : bool;
  g_ipcClientCount : Z;
  g_ipcClientStopping : bool;
}.

(** The modules of [RackMemLib]. *)
Inductive ModuleName := IPC | shmShmMetaMgr | MemPerfStat | Obmm.

Record RackMemLib := mkLib { pModules : list (ModuleName * bool); inited : bool }.

(** A dynamically loaded library: its handle, and whether the function is resolved. *)
Record Executor := mkExecutor { ex_handle : bool; ex_fn : bool }.

Record UbseMemExecutor := mkUbse {
  ub_initialized : bool;
  ub_handle : bool;
  ub_fn : bool;
  ub_ShmFaultFunc : option nat;
}.

(** [cw_lost]: a call went through a null pointer. The calls are kept latest first. *)
Record ClientWorld := mkClient {
  cw_link : IpcLink;
  cw_state : IpcSuspendState;
  cw_shm : ShmMetaDataMgr;
  cw_lease : gmap Z AppBorrowMetaDesc;
  cw_lib : RackMemLib;
  cw_obmm : Executor;
  cw_ubse : UbseMemExecutor;
  cw_lost : bool;
  cw_trace : list Entry;
}.

(** What surrounds the process: the answer to the i-th call, the page size, whether the
    tracer is switched on by an environment variable, whether the application
    has set a logger. *)
Record ClientEnv := mkClientEnv {
  ce_answer : forall R, nat -> Ev R -> R;
  PAGE_SIZE : Z;
  ce_trace_on : bool;
  ce_extern_log : bool;
}.

Definition CM (A : Type) : Type := ClientEnv -> ClientWorld -> A * ClientWorld.

#[export] Instance cm_ret : MRet CM := fun A x _ w => (x, w).
#[export] Instance cm_bind : MBind CM := fun A B f m env w => let '(x, w) := m env w in f x env w.

Definition asks {A} (f : ClientEnv -> A) : CM A := fun env w => (f env, w).
Definition gets {A} (f : ClientWorld -> A) : CM A := fun _ w => (f w, w).
Definition modify (f : ClientWorld -> ClientWorld) : CM unit := fun _ w => (tt, f w).

Definition set_link (f : IpcLink -> IpcLink) (w : ClientWorld) : ClientWorld :=
  mkClient (f (cw_link w)) (cw_state w) (cw_shm w) (cw_lease w) (cw_lib w) (cw_obmm w) (cw_ubse w) (cw_lost w) (cw_trace w).

Definition set_state (s : IpcSuspendState) (w : ClientWorld) : ClientWorld :=
  mkClient (cw_link w) s (cw_shm w) (cw_lease w) (cw_lib w) (cw_obmm w) (cw_ubse w) (cw_lost w) (cw_trace w).

Definition set_shm (f : ShmMetaDataMgr -> ShmMetaDataMgr) (w : ClientWorld) : ClientWorld :=
  mkClient (cw_link w) (cw_state w) (f (cw_shm w)) (cw_lease w) (cw_lib w) (cw_obmm w) (cw_ubse w) (cw_lost w) (cw_trace w).

Definition set_lease (f : gmap Z AppBorrowMetaDesc -> gmap Z AppBorrowMetaDesc) (w : ClientWorld) : ClientWorld :=
  mkClient (cw_link w) (cw_state w) (cw_shm w) (f (cw_lease w)) (cw_lib w) (cw_obmm w) (cw_ubse w) (cw_lost w) (cw_trace w).

Definition set_lib (f : RackMemLib -> RackMemLib) (w : ClientWorld) : ClientWorld :=
  mkClient (cw_link w) (cw_state w) (cw_shm w) (cw_lease w) (f (cw_lib w)) (cw_obmm w) (cw_ubse w) (cw_lost w) (cw_trace w).

Definition set_obmm (f : Executor -> Executor) (w : ClientWorld) : ClientWorld :=
  mkClient (cw_link w) (cw_state w) (cw_shm w) (cw_lease w) (cw_lib w) (f (cw_obmm w)) (cw_ubse w) (cw_lost w) (cw_trace w).

Definition set_ubse (f : UbseMemExecutor -> UbseMemExecutor) (w : ClientWorld) : ClientWorld :=
  mkClient (cw_link w) (cw_state w) (cw_shm w) (cw_lease w) (cw_lib w) (cw_obmm w) (f (cw_ubse w)) (cw_lost w) (cw_trace w).

Definition lose (w : ClientWorld) : ClientWorld :=
  mkClient (cw_link w) (cw_state w) (cw_shm w) (cw_lease w) (cw_lib w) (cw_obmm w) (cw_ubse w) true (cw_trace w).

Definition log_event (x : Entry) (w : ClientWorld) : ClientWorld :=
  mkClient (cw_link w) (cw_state w) (cw_shm w) (cw_lease w) (cw_lib w) (cw_obmm w) (cw_ubse w) (cw_lost w) (x :: cw_trace w).

(** A call, recorded with its answer. *)
Definition ev {R} (e : Ev R) : CM R :=
  fun env w => let a := ce_answer env R (length (cw_trace w)) e in (a, log_event (entry e a) w).

(** [GetHugeTlbPmdSize] *)
Definition GetHugeTlbPmdSize : CM Z :=
  asks (fun env => if Z.eqb (PAGE_SIZE env) (64 * 1024) then HUGE_PAGES_512M else HUGE_PAGES_2M).

(** A fresh process. *)
Definition client_start : ClientWorld :=
  mkClient (mkLink false 0 false) UNINITIALIZED (mkShmMgr ∅ ∅ []) ∅ (mkLib [] false) (mkExecutor false false) (mkUbse false false false None) false [].
