(* ===== verification/ClientTables.v ===== *)
(** Client library: the tables of mapped memory.

    [ShmTables]: [src/src/app_lib/mxm_shm_lib/shm_meta_data_mgr/ShmMetaDataMgr.cpp];
    [BorrowTables]: [src/src/app_lib/mxm_lease_lib/borrow_app_meta_mgr/BorrowAppMetaMgr.cpp].
    The operations are functions from table to table; null is address 0. *)

From S2P Require Import Prelude RegionTypes Client.

Module ShmTables.

Definition GetAddr (name : string) (t : ShmMetaDataMgr) : Z :=
  match mAppShmInfoMap t !! name with Some m => md_addr m | None => 0%Z end.

(** The loop that pushes [first..last]. *)
Definition index_range (first last : Z) : list Z := seqZ first (last - first + 1).

(** The code; on success the used part of the first segment and the indices. *)
Definition GetSegmentsAndFirstUsage (m : ShmAppMetaData) (checkAddr checkLen : Z) : Z + Z * list Z :=
  let base := md_addr m in
  let queryStart := checkAddr in
  if Z.eqb checkAddr 0 || Z.eqb checkLen 0 then inl MXM_ERR_PARAM_INVALID
  else if Z.ltb queryStart base then inl MXM_ERR_PARAM_INVALID
  else if negb (Z.eqb ((queryStart - base) mod FOUR_KB) 0) then inl MXM_ERR_PARAM_INVALID
  else if Z.ltb (UINTPTR_MAX - queryStart) checkLen then inl MXM_ERR_PARAM_INVALID
  else
    let queryEnd := u64 (queryStart + checkLen) in
    if Z.ltb queryEnd queryStart then inl MXM_ERR_PARAM_INVALID
    else if Z.ltb (UINTPTR_MAX - base) (md_mapSize m) || Z.ltb (u64 (base + md_mapSize m)) queryEnd then inl MXM_ERR_PARAM_INVALID
    else if Z.eqb (md_unitSize m) 0 then inl MXM_ERR_PARAM_INVALID
    else
      let startIdx := ((queryStart - base) / md_unitSize m)%Z in
      let endIdx := ((queryEnd - 1 - base) / md_unitSize m)%Z in
      if Z.ltb startIdx 0 || Z.ltb endIdx startIdx || Z.leb (Z.of_nat (length (md_addrs m))) endIdx
      then inl MXM_ERR_PARAM_INVALID
      else
        let usedFirst := u64 (md_unitSize m + (md_addrs m !!! Z.to_nat startIdx).1 - queryStart) in
        inr (if Z.eqb startIdx endIdx then checkLen else usedFirst, index_range startIdx endIdx).

(** The code; on success the entry, the used part and the indices. *)
Definition CheckAddr (name : string) (start length : Z) (t : ShmMetaDataMgr) : Z + ShmAppMetaData * Z * list Z :=
  match mAppShmInfoMap t !! name with
  | None => inl MXM_ERR_SHM_NOT_FOUND
  | Some m =>
      match GetSegmentsAndFirstUsage m start length with
      | inr (usedFirst, indices) => inr (m, usedFirst, indices)
      | inl _ => inl MXM_ERR_PARAM_INVALID
      end
  end.

Definition GetNameByAddr (start : Z) (t : ShmMetaDataMgr) : Z + string :=
  if Z.eqb start 0 then inl MXM_ERR_PARAM_INVALID
  else match mAddr2NameMap t !! start with Some name => inr name | None => inl MXM_ERR_SHM_NOT_FOUND end.

Definition CheckNameExistAndGet (start mapSize : Z) (t : ShmMetaDataMgr) : Z + ShmAppMetaData :=
  if Z.eqb start 0 then inl MXM_ERR_PARAM_INVALID
  else
    match mAddr2NameMap t !! start with
    | None => inl MXM_ERR_SHM_NOT_FOUND
    | Some name =>
        match mAppShmInfoMap t !! name with
        | None => inl MXM_ERR_SHM_NOT_FOUND
        | Some m => if negb (Z.eqb (md_mapSize m) mapSize) then inl MXM_ERR_PARAM_INVALID else inr m
        end
    end.

Definition GetShmMetaFromName (name : string) (t : ShmMetaDataMgr) : Z + ShmAppMetaData :=
  match mAppShmInfoMap t !! name with Some m => inr m | None => inl MXM_ERR_SHM_NOT_FOUND end.

Definition set_infos (f : gmap string ShmAppMetaData -> gmap string ShmAppMetaData) (t : ShmMetaDataMgr) : ShmMetaDataMgr :=
  mkShmMgr (f (mAppShmInfoMap t)) (mAddr2NameMap t) (mMappedMemoryAddress t).

Definition SetMetaHasUnmapped (name : string) (val : bool) (t : ShmMetaDataMgr) : Z * ShmMetaDataMgr :=
  match mAppShmInfoMap t !! name with
  | None => (MXM_ERR_SHM_NOT_FOUND, t)
  | Some m => (UBSM_OK, set_infos <[name := SetHasUnmapped val m]> t)
  end.

Definition SetMetaIsLockAddress (name : string) (val : bool) (t : ShmMetaDataMgr) : Z * ShmMetaDataMgr :=
  match mAppShmInfoMap t !! name with
  | None => (MXM_ERR_SHM_NOT_FOUND, t)
  | Some m => (UBSM_OK, set_infos <[name := SetisLockAddress val m]> t)
  end.

Definition GetMetaHasUnmapped (name : string) (t : ShmMetaDataMgr) : bool :=
  match mAppShmInfoMap t !! name with Some m => md_hasUnmapped m | None => true end.

Definition GetMetaIsLockAddress (name : string) (t : ShmMetaDataMgr) : bool :=
  match mAppShmInfoMap t !! name with Some m => md_isLockAddress m | None => false end.

Definition GetAllUsedMemoryNames (t : ShmMetaDataMgr) : list string := (map_to_list (mAppShmInfoMap t)).*1.

(** [std::map] as a list sorted by key. *)
Fixpoint map_insert (k v : Z) (l : list (Z * Z)) : list (Z * Z) :=
  match l with
  | [] => [(k, v)]
  | (k', v') :: l' =>
      if Z.eqb k k' then (k, v) :: l' else if Z.ltb k k' then (k, v) :: l else (k', v') :: map_insert k v l'
  end.

Fixpoint map_find (k : Z) (l : list (Z * Z)) : option Z :=
  match l with [] => None | (k', v) :: l => if Z.eqb k k' then Some v else map_find k l end.

Definition map_erase (k : Z) (l : list (Z * Z)) : list (Z * Z) := filter (fun x => x.1 <> k) l.

(** The entry before [upper_bound(start)], and the one at it. *)
Fixpoint around (start : Z) (prev : option (Z * Z)) (l : list (Z * Z)) : option (Z * Z) * option (Z * Z) :=
  match l with
  | [] => (prev, None)
  | x :: l => if Z.ltb start x.1 then (prev, Some x) else around start (Some x) l
  end.

Definition HasOverlapWithKnownVmas (start en : Z) (t : ShmMetaDataMgr) : bool :=
  match mMappedMemoryAddress t with
  | [] => false
  | l =>
      let '(prevIter, iter) := around start None l in
      match prevIter with Some (s, e) => Z.ltb start e && Z.ltb s en | None => false end
      || match iter with Some (s, e) => Z.ltb start e && Z.ltb s en | None => false end
  end.

Definition set_ranges (f : list (Z * Z) -> list (Z * Z)) (t : ShmMetaDataMgr) : ShmMetaDataMgr :=
  mkShmMgr (mAppShmInfoMap t) (mAddr2NameMap t) (f (mMappedMemoryAddress t)).

Definition AddMappedMemoryRange (start length : Z) (t : ShmMetaDataMgr) : Z * ShmMetaDataMgr :=
  if Z.eqb length 0 then (MXM_ERR_PARAM_INVALID, t)
  else if Z.ltb (UINTPTR_MAX - start) length then (MXM_ERR_PARAM_INVALID, t)
  else (MXM_OK, set_ranges (map_insert start (u64 (start + length))) t).

Definition RemoveMappedMemoryRange (start : Z) (t : ShmMetaDataMgr) : Z * ShmMetaDataMgr :=
  match map_find start (mMappedMemoryAddress t) with
  | None => (MXM_ERR_SHM_NOT_FOUND, t)
  | Some _ => (MXM_OK, set_ranges (map_erase start) t)
  end.

Definition RemoveMetaData (start : Z) (name : string) (t : ShmMetaDataMgr) : Z * ShmMetaDataMgr :=
  if Z.eqb start 0 then (MXM_ERR_NULLPTR, t)
  else if String.eqb name EmptyString then (MXM_ERR_PARAM_INVALID, t)
  else
    match mAppShmInfoMap t !! name with
    | None => (MXM_ERR_MEMLIB, t)
    | Some _ =>
        let '(ret, t) := RemoveMappedMemoryRange start t in
        if negb (Z.eqb ret MXM_OK) then (ret, t)
        else
          let t := set_infos (delete name) t in
          (UBSM_OK, mkShmMgr (mAppShmInfoMap t) (delete start (mAddr2NameMap t)) (mMappedMemoryAddress t))
    end.

Definition AddMetaData (name : string) (mAddr : Z) (m : ShmAppMetaData) (t : ShmMetaDataMgr) : Z * ShmMetaDataMgr :=
  if Z.eqb mAddr 0 then (MXM_ERR_NULLPTR, t)
  else
    let '(ret, t) := AddMappedMemoryRange mAddr (md_mapSize m) t in
    if negb (Z.eqb ret MXM_OK) then (ret, t)
    else
      let t := set_infos <[name := m]> t in
      (UBSM_OK, mkShmMgr (mAppShmInfoMap t) (<[mAddr := name]> (mAddr2NameMap t)) (mMappedMemoryAddress t)).

Definition UpdateMetaData (name : string) (m : ShmAppMetaData) (t : ShmMetaDataMgr) : Z * ShmMetaDataMgr :=
  match mAppShmInfoMap t !! name with
  | None => (MXM_ERR_SHM_NOT_FOUND, t)
  | Some _ => (UBSM_OK, set_infos <[name := m]> t)
  end.

End ShmTables.

Module BorrowTables.

Abbreviation Table := (gmap Z AppBorrowMetaDesc).

Definition AddMeta (addr : Z) (d : AppBorrowMetaDesc) (t : Table) : Z * Table :=
  if Z.eqb addr 0 then (MXM_ERR_PARAM_INVALID, t) else (UBSM_OK, <[addr := d]> t).

Definition SetHasUnmapped (v : bool) (d : AppBorrowMetaDesc) : AppBorrowMetaDesc :=
  mkBorrow (bd_fds d) (bd_addrs d) (bd_memIds d) (bd_fileSize d) (bd_actualMapFileSize d) (bd_regionName d) (bd_name d)
    (bd_isNuma d) (bd_unitSize d) v (bd_isLockAddress d).

Definition SetisLockAddress (v : bool) (d : AppBorrowMetaDesc) : AppBorrowMetaDesc :=
  mkBorrow (bd_fds d) (bd_addrs d) (bd_memIds d) (bd_fileSize d) (bd_actualMapFileSize d) (bd_regionName d) (bd_name d)
    (bd_isNuma d) (bd_unitSize d) (bd_hasUnmapped d) v.

Definition SetMetaHasUnmapped (addr : Z) (val : bool) (t : Table) : Z * Table :=
  if Z.eqb addr 0 then (MXM_ERR_PARAM_INVALID, t)
  else match t !! addr with None => (MXM_ERR_LEASE_NOT_FOUND, t) | Some d => (UBSM_OK, <[addr := SetHasUnmapped val d]> t) end.

Definition SetMetaIsLockAddress (addr : Z) (val : bool) (t : Table) : Z * Table :=
  if Z.eqb addr 0 then (MXM_ERR_PARAM_INVALID, t)
  else match t !! addr with None => (MXM_ERR_LEASE_NOT_FOUND, t) | Some d => (UBSM_OK, <[addr := SetisLockAddress val d]> t) end.

Definition GetMetaHasUnmapped (addr : Z) (t : Table) : bool :=
  if Z.eqb addr 0 then false else match t !! addr with Some d => bd_hasUnmapped d | None => false end.

Definition GetMetaIsLockAddress (addr : Z) (t : Table) : bool :=
  if Z.eqb addr 0 then false else match t !! addr with Some d => bd_isLockAddress d | None => false end.

Definition GetAllUsedMemoryNames (t : Table) : list string := bd_name <$> (map_to_list t).*2.

Definition RemoveMeta (addr : Z) (t : Table) : Z * Table :=
  if Z.eqb addr 0 then (MXM_ERR_PARAM_INVALID, t)
  else match t !! addr with None => (MXM_ERR_LEASE_NOT_FOUND, t) | Some _ => (UBSM_OK, delete addr t) end.

Definition GetMeta (addr : Z) (t : Table) : Z + AppBorrowMetaDesc :=
  if Z.eqb addr 0 then inl MXM_ERR_PARAM_INVALID
  else
    match t !! addr with
    | None => inl MXM_ERR_LEASE_NOT_FOUND
    | Some d => if String.eqb (bd_name d) EmptyString then inl MXM_ERR_PARAM_INVALID else inr d
    end.

Definition UpdateMeta (addr : Z) (d : AppBorrowMetaDesc) (t : Table) : Z * Table :=
  if Z.eqb addr 0 then (MXM_ERR_PARAM_INVALID, t)
  else match t !! addr with None => (MXM_ERR_LEASE_NOT_FOUND, t) | Some _ => (UBSM_OK, <[addr := d]> t) end.

End BorrowTables.
