(* ===== verification/ClientIpc.v ===== *)
(** Client library: the connection to the daemon and the requests over it.

    [Link]: the reference-counted connection of
    [src/src/communication/ipc/client/mxm_ipc_client_interface.cpp]; [IpcProxy]: its life cycle
    with suspension and resumption ([src/src/app_lib/ipc_proxy.cpp], [ipc_proxy.h]);
    [ShmIpcCommand] and [IpcCommand]: one function per request
    ([ipc_message_sender/shm_ipc_command.cpp], [ipc_command.cpp]). A locked section is one
    part of an operation that runs alone; interleavings are in [ClientThreads]. *)

From S2P Require Import Prelude RegionTypes Client ClientTables.

Definition HFAIL : Z := 1.

Module Link.

Definition MxmComStartIpcClient : CM Z :=
  l ← gets cw_link;
  if g_ipcClientStopping l then mret HFAIL
  else if Z.ltb 0 (g_ipcClientCount l) && g_mxmIpcClient l then
    modify (set_link (fun l => mkLink (g_mxmIpcClient l) (g_ipcClientCount l + 1) (g_ipcClientStopping l))) ;; mret HOK
  else
    result ← ev SetEnv;
    if negb (Z.eqb result 0) then mret HFAIL
    else
      ret ← ev ClientStart;
      if negb (Z.eqb ret HOK) then mret ret
      else
        ret ← ev ClientConnect;
        if negb (Z.eqb ret HOK) then ev ClientStop ;; mret ret
        else
          modify (set_link (fun l => mkLink true (g_ipcClientCount l + 1) (g_ipcClientStopping l))) ;; mret HOK.

Definition MxmComStopIpcClient : CM Z :=
  l ← gets cw_link;
  if Z.ltb 1 (g_ipcClientCount l) then
    modify (set_link (fun l => mkLink (g_mxmIpcClient l) (g_ipcClientCount l - 1) (g_ipcClientStopping l))) ;; mret HOK
  else if negb (g_mxmIpcClient l) || negb (Z.eqb (g_ipcClientCount l) 1) then mret HOK
  else
    modify (set_link (fun l => mkLink (g_mxmIpcClient l) (g_ipcClientCount l) true)) ;;
    ret ← ev ClientStop;
    if negb (Z.eqb ret HOK) then mret ret
    else modify (set_link (fun _ => mkLink false 0 false)) ;; mret ret.

(** The response is there when the transport's code is 0. *)
Definition MxmComIpcClientSend {A} (op : IpcOp A) : CM (Z * option (Z * A)) :=
  l ← gets cw_link;
  if negb (g_mxmIpcClient l) || g_ipcClientStopping l then mret (HFAIL, None)
  else a ← ev (ClientSend op); mret (a.1, Some a.2).

Definition MxmSetPostReconnectHandler : CM Z :=
  l ← gets cw_link;
  if negb (g_mxmIpcClient l) || g_ipcClientStopping l then mret HFAIL else ev ClientSetPostReconnectHandler.

End Link.

Module IpcProxy.
Import Link.

Definition IsTransportError (ret : Z) : bool :=
  Z.eqb ret MXM_ERR_IPC_INIT_CALL || Z.eqb ret MXM_ERR_IPC_SYNC_CALL || Z.eqb ret MXM_ERR_IPC_HCOM_INNER_SYNC_CALL ||
  Z.eqb ret MXM_ERR_IPC_CRC_CHECK_ERROR || Z.eqb ret MXM_ERR_IPC_SERIALIZE_DESERIALIZE_ERROR.

Definition GetOperationStateError (s : IpcSuspendState) : Z :=
  match s with
  | RUNNING | UNINITIALIZED => UBSM_OK
  | SUSPENDED => MXM_ERR_IPC_SUSPENDED
  | SUSPENDING | RESUMING | FINALIZING => MXM_ERR_NAME_BUSY
  | FAILED_SUSPENDING | FAILED_STOPPING | FAILED_RESUMING => MXM_ERR_MEMLIB
  end.

Definition SyncCall {A} (op : IpcOp A) : CM (Z * option (Z * A)) :=
  a ← MxmComIpcClientSend op;
  if negb (Z.eqb a.1 0) then mret (MXM_ERR_IPC_HCOM_INNER_SYNC_CALL, a.2) else mret (UBSM_OK, a.2).

(** The loop of [IpcCallInner] with [n] attempts left after this one. *)
Fixpoint attempts {A} (n : nat) (op : IpcOp A) : CM (Z * option (Z * A)) :=
  a ← SyncCall op;
  if negb (Z.eqb a.1 MXM_ERR_IPC_CRC_CHECK_ERROR) && negb (Z.eqb a.1 MXM_ERR_IPC_SERIALIZE_DESERIALIZE_ERROR) then mret a
  else match n with O => mret a | S n => attempts n op end.

Definition IpcCallInner {A} (op : IpcOp A) : CM (Z * option (Z * A)) := attempts 2 op.

Definition RunOperation {A} (operation : CM (Z * option A)) : CM (Z * option A) :=
  s ← gets cw_state;
  if negb (Z.eqb (GetOperationStateError s) UBSM_OK) then mret (GetOperationStateError s, None) else operation.

Definition Ipc {A} (op : IpcOp A) : CM (Z * option (Z * A)) := RunOperation (IpcCallInner op).

(** The error code of an exchange: the transport's, or that in the response. *)
Definition outcome {A} (a : Z * option (Z * A)) : Z :=
  if BresultFail a.1 then a.1 else match a.2 with Some r => u32 r.1 | None => UBSM_OK end.

Definition body {A} (a : Z * option (Z * A)) : option A := snd <$> a.2.

(** A request of which only the code matters. *)
Definition request {A} (op : IpcOp A) : CM Z := a ← Ipc op; mret (outcome a).

(** One of which the response's members are wanted; they are there when both codes are 0. *)
Definition ask {A} (op : IpcOp A) : CM (Z + A) :=
  a ← Ipc op;
  mret (if BresultFail (outcome a) then inl (outcome a) else match body a with Some r => inr r | None => inl UBSM_OK end).

(** [ShmIpcCommand::IpcCallSuspendInner] and [IpcCallResumeInner] do not go through [RunOperation]. *)
Definition IpcCallSuspendInner : CM Z := a ← SyncCall IPC_SUSPEND_CLIENT; mret (outcome a).

Definition IpcCallResumeInner : CM Z := a ← SyncCall IPC_RESUME_CLIENT; mret (outcome a).

Definition SetState (s : IpcSuspendState) : CM unit := modify (set_state s).

Definition Initialize : CM Z :=
  s ← gets cw_state;
  if decide (s = RUNNING) then mret UBSM_OK
  else if negb (bool_decide (s = UNINITIALIZED)) then mret MXM_ERR_NAME_BUSY
  else
    ret ← MxmComStartIpcClient;
    if negb (Z.eqb ret 0) then mret MXM_ERR_IPC_INIT_CALL
    else
      ret ← MxmSetPostReconnectHandler;
      if negb (Z.eqb ret 0) then MxmComStopIpcClient ;; mret MXM_ERR_IPC_INIT_CALL
      else SetState RUNNING ;; mret UBSM_OK.

(** The part of [Suspend] after the request is acknowledged. *)
Definition StopAfterSuspend : CM Z :=
  ret ← MxmComStopIpcClient;
  if negb (Z.eqb ret UBSM_OK) then SetState FAILED_STOPPING ;; mret MXM_ERR_MEMLIB
  else SetState SUSPENDED ;; mret UBSM_OK.

Definition Suspend : CM Z :=
  entryState ← gets cw_state;
  match entryState with
  | SUSPENDED => mret UBSM_OK
  | UNINITIALIZED => mret MXM_ERR_MEMLIB
  | RUNNING | FAILED_SUSPENDING | FAILED_STOPPING =>
      SetState SUSPENDING ;;
      if negb (bool_decide (entryState = FAILED_STOPPING)) then
        ret ← IpcCallSuspendInner;
        if negb (Z.eqb ret UBSM_OK) then
          SetState (if bool_decide (entryState = RUNNING) && negb (IsTransportError ret) then RUNNING else FAILED_SUSPENDING) ;;
          mret ret
        else StopAfterSuspend
      else StopAfterSuspend
  | _ => mret MXM_ERR_NAME_BUSY
  end.

(** The code, and the state before. *)
Definition EnterResumingState : CM (Z * IpcSuspendState) :=
  s ← gets cw_state;
  match s with
  | RUNNING => mret (UBSM_OK, s)
  | UNINITIALIZED => mret (MXM_ERR_MEMLIB, s)
  | SUSPENDED | FAILED_SUSPENDING | FAILED_STOPPING | FAILED_RESUMING => SetState RESUMING ;; mret (UBSM_OK, s)
  | _ => mret (MXM_ERR_NAME_BUSY, s)
  end.

(** Starts the client anew. *)
Definition RestartClient : CM Z :=
  ret ← MxmComStartIpcClient;
  if negb (Z.eqb ret UBSM_OK) then SetState SUSPENDED ;; mret MXM_ERR_IPC_INIT_CALL
  else
    ret ← MxmSetPostReconnectHandler;
    if negb (Z.eqb ret UBSM_OK) then
      stopRet ← MxmComStopIpcClient;
      SetState (if Z.eqb stopRet UBSM_OK then SUSPENDED else FAILED_STOPPING) ;;
      mret MXM_ERR_IPC_INIT_CALL
    else mret UBSM_OK.

Definition EnsureResumeClientReady (stateBeforeResume : IpcSuspendState) : CM Z :=
  if bool_decide (stateBeforeResume = FAILED_SUSPENDING) || bool_decide (stateBeforeResume = FAILED_RESUMING) then mret UBSM_OK
  else if bool_decide (stateBeforeResume = FAILED_STOPPING) then
    ret ← MxmComStopIpcClient;
    if negb (Z.eqb ret UBSM_OK) then SetState FAILED_STOPPING ;; mret MXM_ERR_MEMLIB else RestartClient
  else RestartClient.

Definition HandleResumeResult (stateBeforeResume : IpcSuspendState) (ret : Z) : CM Z :=
  if Z.eqb ret UBSM_OK then SetState RUNNING ;; mret UBSM_OK
  else
    let requestRejected := negb (IsTransportError ret) in
    let suspendStateUncertain := bool_decide (stateBeforeResume = FAILED_SUSPENDING) in
    let final :=
      if IsTransportError ret then FAILED_RESUMING
      else if suspendStateUncertain then FAILED_SUSPENDING else SUSPENDED in
    if requestRejected && negb suspendStateUncertain then
      stopRet ← MxmComStopIpcClient;
      if negb (Z.eqb stopRet UBSM_OK) then SetState FAILED_STOPPING ;; mret ret
      else SetState final ;; mret ret
    else SetState final ;; mret ret.

Definition Resume : CM Z :=
  r ← EnterResumingState;
  let '(ret, stateBeforeResume) := r in
  if negb (Z.eqb ret UBSM_OK) || bool_decide (stateBeforeResume = RUNNING) then mret ret
  else
    ret ← EnsureResumeClientReady stateBeforeResume;
    if negb (Z.eqb ret UBSM_OK) then mret ret
    else ret ← IpcCallResumeInner; HandleResumeResult stateBeforeResume ret.

Definition Destroy : CM Z :=
  s ← gets cw_state;
  match s with
  | UNINITIALIZED => mret UBSM_OK
  | SUSPENDING | RESUMING | FINALIZING => mret MXM_ERR_NAME_BUSY
  | _ =>
      SetState FINALIZING ;;
      ret ← MxmComStopIpcClient;
      SetState (if Z.eqb ret UBSM_OK then UNINITIALIZED else FAILED_STOPPING) ;;
      mret (if Z.eqb ret UBSM_OK then UBSM_OK else MXM_ERR_MEMLIB)
  end.

End IpcProxy.

Module ShmIpcCommand.
Import IpcProxy.

Definition IpcCallShmCreate (regionName name : string) (size : Z) (nid : string) (desc : SHMRegionDesc) (flags mode : Z) : CM Z :=
  request (IPC_RACKMEMSHM_CREATE regionName name size nid desc flags mode).

Definition IpcCallShmCreateWithProvider (hostName : string) (socketId numaId portId : Z) (name : string) (size flags mode : Z) : CM Z :=
  request (IPC_RACKMEMSHM_CREATE_WITH_PROVIDER hostName socketId numaId portId name size flags mode).

Definition IpcCallShmDelete (name : string) : CM Z := request (IPC_RACKMEMSHM_DELETE "default" name).

(** The first [num] regions of a response, when each has a permitted number of nodes. *)
Definition node_counts_ok (r : SHMRegions) : bool :=
  forallb (fun i => let n := rd_num (rs_region r !!! Z.to_nat i) in Z.leb 0 n && Z.leb n MAX_REGION_NODE_NUM) (seqZ 0 (rs_num r)).

Definition first_regions (r : SHMRegions) : SHMRegions :=
  mkRegions (rs_num r) ((fun i => rs_region r !!! Z.to_nat i) <$> seqZ 0 (rs_num r)).

Definition IpcCallShmLookRegionList (baseNid : string) (type : Z) : CM (Z + SHMRegions) :=
  r ← ask (IPC_RACKMEMSHM_LOOKUP_SHAREREGIONS baseNid type);
  match r with
  | inl e => mret (inl e)
  | inr r =>
      if Z.leb (rs_num r) 0 || Z.ltb MAX_REGIONS_NUM (rs_num r) then mret (inl MXM_ERR_CHECK_RESOURCE)
      else if node_counts_ok r then mret (inr (first_regions r)) else mret (inl MXM_ERR_CHECK_RESOURCE)
  end.

Definition IpcCallShmMap (name : string) (mapSize mode prot : Z) : CM (Z + ShmMapBody) :=
  r ← ask (IPC_RACKMEMSHM_MMAP "default" name mapSize mode prot);
  match r with
  | inl e => mret (inl e)
  | inr r =>
      if Nat.eqb (length (mb_memIds r)) 0 then mret (inl MXM_ERR_CHECK_RESOURCE)
      else if Z.leb (mb_shmSize r) 0 then mret (inl MXM_ERR_CHECK_RESOURCE)
      else if Z.leb (mb_unitSize r) 0 then mret (inl MXM_ERR_CHECK_RESOURCE)
      else if negb (Z.eqb (mb_oflag r) O_RDONLY) && negb (Z.eqb (mb_oflag r) O_RDWR) then mret (inl MXM_ERR_CHECK_RESOURCE)
      else mret (inr r)
  end.

Definition IpcCallShmUnMap (name : string) : CM Z := request (IPC_RACKMEMSHM_UNMMAP "default" name).

Definition IpcCallLookupRegionList (baseNid : string) (type : Z) : CM (Z + SHMRegions) :=
  r ← ask (IPC_REGION_LOOKUP_REGION_LIST baseNid type);
  match r with
  | inl e => mret (inl e)
  | inr r =>
      if Z.leb (rs_num r) 0 || Z.ltb MAX_REGIONS_NUM (rs_num r) then mret (inl MXM_ERR_CHECK_RESOURCE)
      else mret (inr (first_regions r))
  end.

Definition IpcCallCreateRegion (name : string) (region : SHMRegionDesc) : CM Z := request (IPC_REGION_CREATE_REGION name region).

Definition IpcCallLookupRegion (name : string) : CM (Z + SHMRegionDesc) :=
  r ← ask (IPC_REGION_LOOKUP_REGION name);
  match r with
  | inl e => mret (inl e)
  | inr region =>
      if Z.ltb MEM_TOPOLOGY_MAX_HOSTS (rd_num region) then mret (inl MXM_ERR_PARAM_INVALID) else mret (inr region)
  end.

Definition IpcCallDestroyRegion (name : string) : CM Z := request (IPC_REGION_DESTROY_REGION name).

Definition IpcShmemWriteLock (name : string) : CM Z := request (IPC_RACKMEMSHM_WRITELOCK "default" name).
Definition IpcShmemReadLock (name : string) : CM Z := request (IPC_RACKMEMSHM_READLOCK "default" name).
Definition IpcShmemUnLock (name : string) : CM Z := request (IPC_RACKMEMSHM_UNLOCK "default" name).

Definition IpcCallRpcQuery : CM (Z + string) :=
  a ← Ipc RPC_AGENT_QUERY_NODE_INFO;
  if BresultFail a.1 then mret (inl MXM_ERR_IPC_SYNC_CALL)
  else
    mret (if BresultFail (outcome a) then inl (outcome a) else match body a with Some n => inr n | None => inl UBSM_OK end).

Definition IpcCallShmAttach (name : string) : CM Z := request (IPC_RACKMEMSHM_ATTACH "default" name).
Definition IpcCallShmDetach (name : string) : CM Z := request (IPC_RACKMEMSHM_DETACH "default" name).

Definition IpcCallShmListLookup (prefix : string) : CM (Z + list shmem_desc) := ask (IPC_RACKMEMSHM_LOOKUP_LIST "default" prefix).
Definition IpcCallShmLookup (name : string) : CM (Z + shmem_info) := ask (IPC_RACKMEMSHM_LOOKUP "default" name).

(** Whether the node is ready, and its id if it is. *)
Definition IpcQueryNode (isQueryMasterNode : bool) : CM (Z + option string) :=
  r ← ask (IPC_RACKMEMSHM_QUERY_NODE isQueryMasterNode);
  match r with
  | inl e => mret (inl e)
  | inr (nodeIsReady, nodeId) => mret (inr (if nodeIsReady : bool then Some nodeId else None))
  end.

Definition IpcQueryDlockStatus : CM (Z + bool) := ask IPC_RACKMEMSHM_QUERY_DLOCK_STATUS.

Definition AppCheckShareMemoryResource : CM Z :=
  t ← gets cw_shm; request (IPC_CHECK_SHARE_MEMORY (ShmTables.GetAllUsedMemoryNames t)).

Definition AppGetLocalSlotId : CM (Z + Z) := ask IPC_RACKMEMSHM_QUERY_SLOT_ID.

End ShmIpcCommand.

Module IpcCommand.
Import IpcProxy.

Definition AppMallocMemory (size level : Z) (isNuma : bool) (region : string) : CM (Z + MallocBody) :=
  ask (IPC_MALLOC_MEMORY size level isNuma region).

Definition AppMallocMemoryWithLoc (size : Z) (isNuma : bool) (slotId socketId numaId portId : Z) : CM (Z + MallocBody) :=
  ask (IPC_MALLOC_MEMORY_LOC size isNuma slotId socketId numaId portId).

Definition AppFreeMemory (regionName name : string) (memIds : list Z) : CM Z :=
  if Nat.eqb (length memIds) 0 then mret MXM_ERR_PARAM_INVALID
  else request (IPC_FREE_RACKMEM memIds regionName name).

Definition IpcRackMemLookupClusterStatistic : CM (Z + list Z) := ask IPC_QUERY_CLUSTERINFO.
Definition AppQueryLeaseRecord : CM (Z + list string) := ask IPC_QUERY_CACHED_MEMORY.
Definition AppForceFreeCachedMemory : CM Z := request IPC_FORCE_FREE_CACHED_MEMORY.

Definition AppCheckLeaseMemoryResource : CM Z :=
  t ← gets cw_lease; request (IPC_CHECK_MEMORY_LEASE (BorrowTables.GetAllUsedMemoryNames t)).

End IpcCommand.

(** [UbsmCheckResource], run after the connection is made again. *)
Definition UbsmCheckResourceHandler : CM Z :=
  leaseRes ← IpcCommand.AppCheckLeaseMemoryResource;
  shmRes ← ShmIpcCommand.AppCheckShareMemoryResource;
  mret (if negb (Z.eqb leaseRes 0) || negb (Z.eqb shmRes 0) then MXM_ERR_CHECK_RESOURCE else 0%Z).
