(* ===== verification/ClientShm.v ===== *)
(** Client library: mapping, unmapping, access rights and locks of shared memory.

    [FdMap]: [src/src/app_lib/rack_mem_fd_map.cpp]; [RackMemShm]:
    [src/src/app_lib/mxm_shm_lib/RackMemShm.cpp].

    An operation runs as one step. [UbsMemShmUnmmap] and the lock functions hold the
    operation lock of the name ([LockMeta]); [UbsMemShmMmap] and
    [UbsMemShmSetOwnerShip] hold none, so that threads may interleave with them. *)

From S2P Require Import Prelude RegionTypes Client ClientTables ClientIpc.

(** [CloseAllFd] of both kinds of entries: a descriptor that is closed becomes -1. *)
Fixpoint CloseAllFd (fds : list Z) : CM (list Z) :=
  match fds with
  | [] => mret []
  | item :: fds =>
      item ← (if Z.eqb item (-1) then mret item
              else r ← ev (Close item); mret (if Z.eqb r (-1) then item else (-1)%Z));
      fds ← CloseAllFd fds;
      mret (item :: fds)
  end.

(** [ObmmOpenInternal]: opens the device file of a memory id. *)
Definition ObmmOpenInternal (id flags oflag : Z) : CM Z :=
  let openFlag :=
    if has_flag flags UBSM_FLAG_NONCACHE || has_flag flags UBSM_FLAG_ONLY_IMPORT_NONCACHE then O_SYNC else 0%Z in
  ev (OpenShmdev id (Z.lor openFlag oflag)).

Module FdMap.

Definition FileMapByTotalSize (size prot : Z) : CM (Z + Z) :=
  if Z.eqb size 0 then mret (inl MXM_ERR_PARAM_INVALID)
  else
    a ← ev (MemoryMap 0 size prot (Z.lor MAP_SHARED MAP_ANONYMOUS) (-1) 0);
    if Z.eqb a MAP_FAILED then mret (inl MXM_ERR_MMAP_VA_FAILED) else mret (inr a).

Definition MapAnonymousMemory (start size : Z) : CM (Z + Z) :=
  if Z.eqb size 0 then mret (inl MXM_ERR_PARAM_INVALID)
  else
    a ← ev (MemoryMap start size PROT_NONE (Z.lor MAP_PRIVATE MAP_ANONYMOUS) (-1) 0);
    if Z.eqb a MAP_FAILED then mret (inl MXM_ERR_MMAP_VA_FAILED) else mret (inr a).

Definition MapForEachFd (startAddr length fd prot flags offset : Z) : CM Z :=
  virtualAddr ← ev (MemoryMap startAddr length prot flags fd offset);
  if Z.eqb virtualAddr MAP_FAILED then mret MXM_ERR_MMAP_VA_FAILED
  else if negb (Z.eqb virtualAddr startAddr) then mret MXM_ERR_MMAP_VA_FAILED
  else mret UBSM_OK.

(** The size and the number of units; the number keeps its initial 0 when the unit is 0. *)
Definition GetActualMapSize (appMmapSize unitSize : Z) : Z * Z :=
  if Z.eqb unitSize 0 then (0%Z, 0%Z)
  else
    let mmapCount := if Z.eqb (appMmapSize mod unitSize) 0 then (appMmapSize / unitSize)%Z else (appMmapSize / unitSize + 1)%Z in
    if Z.ltb (UINTPTR_MAX / unitSize) mmapCount then (0%Z, mmapCount) else ((mmapCount * unitSize)%Z, mmapCount).

Definition MemoryMapAligned (size align : Z) : CM (Z + Z) :=
  a ← ev (PosixMemalign align size);
  let '(ret, alignedMemory) := a in
  if negb (Z.eqb ret 0) then mret (inl MXM_ERR_MALLOC_FAIL)
  else
    result ← ev (MemoryMap alignedMemory size PROT_NONE (Z.lor (Z.lor MAP_SHARED MAP_ANONYMOUS) MAP_FIXED) (-1) 0);
    if Z.eqb result MAP_FAILED then ev (Free alignedMemory) ;; mret (inl MXM_ERR_MMAP_VA_FAILED)
    else mret (inr result).

End FdMap.

Module RackMemShm.
Import ShmTables ShmIpcCommand.

(** [CloseAllFd] of an entry that is not in the table. *)
Definition close_meta (m : ShmAppMetaData) : CM ShmAppMetaData :=
  fds ← CloseAllFd (md_fds m); mret (set_segments fds (md_addrs m) m).

Definition UnMapWhenError (startAddr totalSize : Z) (name : string) (m : ShmAppMetaData) : CM unit :=
  close_meta m ;;
  if Z.eqb startAddr 0 then mret tt
  else if Z.eqb totalSize 0 then mret tt
  else ev (MemoryUnMap startAddr totalSize) ;; IpcCallShmUnMap name ;; mret tt.

Definition MapWithFixedFlags (flags : Z) : bool := has_flag flags MAP_FIXED || has_flag flags MAP_FIXED_NOREPLACE.

Definition RackMemShmMmapParameterCheck (start mapSize prot flags : Z) (name : string) (off : Z) (t : ShmMetaDataMgr) : Z :=
  if negb (Z.eqb (GetAddr name t) 0) then MXM_ERR_PARAM_INVALID
  else if Z.eqb mapSize 0 then MXM_ERR_PARAM_INVALID
  else if negb (Z.eqb off 0) then MXM_ERR_PARAM_INVALID
  else if negb (Z.eqb prot PROT_READ) && negb (Z.eqb prot PROT_WRITE) && negb (Z.eqb prot (Z.lor PROT_READ PROT_WRITE)) &&
          negb (Z.eqb prot PROT_NONE) then MXM_ERR_PARAM_INVALID
  else if Z.eqb start 0 && MapWithFixedFlags flags then MXM_ERR_PARAM_INVALID
  else if Z.ltb (UINTPTR_MAX - start) mapSize then MXM_ERR_PARAM_INVALID
  else if negb (Z.eqb start 0) && MapWithFixedFlags flags && HasOverlapWithKnownVmas start (u64 (start + mapSize)) t
  then MXM_ERR_PARAM_INVALID
  else UBSM_OK.

(** The body of the loop of [RackMemShmMmapByMemID], for the [i]-th memory id. *)
Definition map_segment (i mmapAddr unitSize mmapCount open_flag oflag prot flags offset : Z) (m : ShmAppMetaData) : CM (Z * ShmAppMetaData) :=
  fd ← ObmmOpenInternal (md_memIds m !!! Z.to_nat i) open_flag oflag;
  if Z.ltb fd 0 then m ← close_meta m; mret (MXM_ERR_SHM_OBMM_OPEN, m)
  else
    let m := AddFds fd m in
    let startAddr := u64 (mmapAddr + i * unitSize) in
    let length := if Z.eqb i (mmapCount - 1) then u64 (md_mapSize m - (mmapCount - 1) * unitSize) else unitSize in
    ret ← FdMap.MapForEachFd startAddr length fd prot flags offset;
    if BresultFail ret then m ← close_meta m; mret (ret, m) else mret (UBSM_OK, AddAddr startAddr length m).

(** The loop, over [n] memory ids from the [i]-th. *)
Fixpoint map_segments (n : nat) (i mmapAddr unitSize mmapCount open_flag oflag prot flags offset : Z)
    (m : ShmAppMetaData) : CM (Z * ShmAppMetaData) :=
  match n with
  | O => mret (UBSM_OK, m)
  | S n =>
      a ← map_segment i mmapAddr unitSize mmapCount open_flag oflag prot flags offset m;
      if BresultFail a.1 then mret a
      else map_segments n (i + 1) mmapAddr unitSize mmapCount open_flag oflag prot flags offset a.2
  end.

(** The code, and the entry with its segments. *)
Definition RackMemShmMmapByMemID (mmapAddr unitSize mmapCount : Z) (m : ShmAppMetaData) (open_flag oflag prot flags : Z)
  : CM (Z * ShmAppMetaData) :=
  if Z.ltb (Z.of_nat (length (md_memIds m))) mmapCount then mret (MXM_ERR_PARAM_INVALID, m)
  else
    let offset := if has_flag open_flag UBSM_FLAG_MMAP_HUGETLB_PMD then OBMM_MMAP_FLAG_HUGETLB_PMD else 0%Z in
    map_segments (Z.to_nat mmapCount) 0 mmapAddr unitSize mmapCount open_flag oflag prot flags offset (set_segments [] [] m).

Definition GetOwnStatus (prot : Z) : ShmOwnStatus :=
  if Z.eqb prot PROT_NONE then UNACCESS
  else if Z.eqb prot PROT_READ then READ
  else if Z.eqb prot PROT_WRITE then WRITE
  else if Z.eqb prot (Z.lor PROT_READ PROT_WRITE) then READWRITE
  else OWNBUFF.

Definition convertToFileMode (status : ShmOwnStatus) : Z :=
  match status with
  | WRITE => S_IWUSR
  | READ => S_IRUSR
  | READWRITE => Z.lor S_IRUSR S_IWUSR
  | _ => 0%Z
  end.

Definition GetPreAllocateAddressAligned (start length flags align : Z) : CM (Z + Z) :=
  if Z.eqb start 0 then
    r ← FdMap.MemoryMapAligned length align;
    match r with inl _ => mret (inl MXM_ERR_MMAP_VA_FAILED) | inr a => mret (inr a) end
  else if negb (Z.eqb (start mod HUGE_PAGES_2M) 0) then mret (inl MXM_ERR_PARAM_INVALID)
  else if MapWithFixedFlags flags then mret (inr start)
  else
    r ← FdMap.MapAnonymousMemory start length;
    match r with
    | inl e => mret (inl e)
    | inr mmapAddr =>
        if negb (Z.eqb (mmapAddr mod align) 0) then
          ev (MemoryUnMap mmapAddr length) ;;
          r ← FdMap.MemoryMapAligned length align;
          match r with inl _ => mret (inl MXM_ERR_MMAP_VA_FAILED) | inr a => mret (inr a) end
        else mret (inr mmapAddr)
    end.

Definition GetPreAllocateAddress (start length flags : Z) : CM (Z + Z) :=
  if Z.eqb start 0 then
    r ← FdMap.MapAnonymousMemory 0 length;
    match r with inl _ => mret (inl MXM_ERR_MMAP_VA_FAILED) | inr a => mret (inr a) end
  else if MapWithFixedFlags flags then mret (inr start)
  else FdMap.MapAnonymousMemory start length.

(** The end of [UbsMemShmMmap]: the segments are mapped and the entry is added. *)
Definition bind_segments (mmapAddr mapSize prot flags : Z) (name : string) (ownStatus : ShmOwnStatus) (r : ShmMapBody) : CM (Z + Z) :=
  let unitSize := mb_unitSize r in
  let mmapCount := if Z.eqb (mapSize mod unitSize) 0 then (mapSize / unitSize)%Z else (mapSize / unitSize + 1)%Z in
  let flags := if negb (MapWithFixedFlags flags) then Z.lor flags MAP_FIXED else flags in
  let m := SetUnitSize unitSize (SetOflag (mb_oflag r) (new_meta name (mb_memIds r) mmapAddr (mb_shmSize r) ownStatus (mb_flag r))) in
  a ← RackMemShmMmapByMemID mmapAddr unitSize mmapCount m (mb_flag r) (mb_oflag r) prot flags;
  let '(ret, m) := a in
  if BresultFail ret then ev (MemoryUnMap mmapAddr mapSize) ;; IpcCallShmUnMap name ;; mret (inl ret)
  else
    t ← gets cw_shm;
    let '(addResult, t) := AddMetaData name mmapAddr m t in
    modify (set_shm (fun _ => t)) ;;
    if BresultFail addResult then UnMapWhenError mmapAddr mapSize name m ;; mret (inl addResult)
    else mret (inr mmapAddr).

(** The code, or what is stored in [*local_ptr]. *)
Definition UbsMemShmMmap (start mapSize prot flags : Z) (name : string) (off : Z) (local_ptr : bool) : CM (Z + Z) :=
  if negb local_ptr then mret (inl MXM_ERR_PARAM_INVALID)
  else
    let ownStatus := GetOwnStatus prot in
    if bool_decide (ownStatus = OWNBUFF) then mret (inl MXM_ERR_PARAM_INVALID)
    else
      t ← gets cw_shm;
      if BresultFail (RackMemShmMmapParameterCheck start mapSize prot flags name off t) then mret (inl MXM_ERR_PARAM_INVALID)
      else
        r ← IpcCallShmMap name mapSize (convertToFileMode ownStatus) prot;
        match r with
        | inl ret => mret (inl ret)
        | inr r =>
            if Z.eqb (mb_shmSize r) 0 || negb (Z.eqb mapSize (mb_shmSize r)) then IpcCallShmUnMap name ;; mret (inl MXM_ERR_PARAM_INVALID)
            else if Z.eqb (mb_unitSize r) 0 then IpcCallShmUnMap name ;; mret (inl MXM_ERR_CHECK_RESOURCE)
            else
              alignment ← GetHugeTlbPmdSize;
              let huge := has_flag (mb_flag r) UBSM_FLAG_MMAP_HUGETLB_PMD in
              if huge && negb (Z.eqb (mapSize mod alignment) 0) then IpcCallShmUnMap name ;; mret (inl MXM_ERR_PARAM_INVALID)
              else
                a ← (if huge then GetPreAllocateAddressAligned start mapSize flags alignment else GetPreAllocateAddress start mapSize flags);
                match a with
                | inl ret => IpcCallShmUnMap name ;; mret (inl ret)
                | inr mmapAddr => bind_segments mmapAddr mapSize prot flags name ownStatus r
                end
        end.

Definition UbsMemShmUnmmap (start size : Z) : CM Z :=
  if Z.eqb start 0 then mret MXM_ERR_PARAM_INVALID
  else
    t ← gets cw_shm;
    match GetNameByAddr start t with
    | inl ret => mret ret
    | inr name =>
        match GetShmMetaFromName name t with
        | inl ret => mret ret
        | inr m =>
            if negb (Z.eqb (md_addr m) start) then mret MXM_ERR_SHM_NOT_FOUND
            else if negb (Z.eqb (md_mapSize m) size) then mret MXM_ERR_PARAM_INVALID
            else if negb (Z.eqb (md_isLocked m) 0) then mret MXM_ERR_LOCK_ALREADY_LOCKED
            else
              address ← ev (MemoryMap start (md_mapSize m) PROT_NONE (Z.lor (Z.lor MAP_FIXED MAP_PRIVATE) MAP_ANONYMOUS) (-1) 0);
              if Z.eqb address MAP_FAILED then mret MXM_ERR_MMAP_VA_FAILED
              else
                m ← close_meta m;
                modify (set_shm (fun t => (UpdateMetaData (md_name m) m t).2)) ;;
                ret ← IpcCallShmUnMap (md_name m);
                if negb (Z.eqb ret UBSM_OK) then mret ret
                else
                  t ← gets cw_shm;
                  let '(ret, t) := RemoveMetaData start (md_name m) t in
                  modify (set_shm (fun _ => t)) ;;
                  if negb (Z.eqb ret UBSM_OK) then mret ret
                  else ev (MemoryUnMap start (md_mapSize m)) ;; mret ret
        end
    end.

Definition UbsMemShmDelete (name : string) : CM Z := IpcCallShmDelete name.

Definition CheckRegionPar (baseNid : string) (r : SHMRegionDesc) : Z :=
  if Z.ltb MEM_TOPOLOGY_MAX_HOSTS (rd_num r) || Z.leb (rd_num r) 0 then MXM_ERR_PARAM_INVALID
  else if Z.leb INCLUDE_ALL_TYPE (rd_type r) || Z.ltb (rd_type r) 0 then MXM_ERR_PARAM_INVALID
  else if String.eqb baseNid EmptyString then UBSM_OK
  else if Z.eqb (rd_type r) ONE2ALL_SHARE && negb (String.eqb (rd_nodeId r !!! 0) baseNid) then MXM_ERR_PARAM_INVALID
  else if Z.eqb (rd_type r) ALL2ALL_SHARE then
    if existsb (fun i => String.eqb baseNid (rd_nodeId r !!! Z.to_nat i)) (seqZ 0 (rd_num r)) then UBSM_OK else MXM_ERR_PARAM_INVALID
  else UBSM_OK.

Definition UbsMemShmCreate (regionName name : string) (size : Z) (baseNid : string) (shmRegion : SHMRegionDesc) (flags mode : Z) : CM Z :=
  if BresultFail (CheckRegionPar baseNid shmRegion) then mret (CheckRegionPar baseNid shmRegion)
  else IpcCallShmCreate regionName name size baseNid shmRegion flags mode.

(** [ubs_mem_provider_t] *)
Record provider := mkProvider { pr_host_name : string; pr_socket_id : Z; pr_numa_id : Z; pr_port_id : Z }.

Definition UbsMemShmCreateWithProvider (srcLoc : provider) (name : string) (size flags mode : Z) : CM Z :=
  IpcCallShmCreateWithProvider (pr_host_name srcLoc) (pr_socket_id srcLoc) (pr_numa_id srcLoc) (pr_port_id srcLoc) name size flags mode.

Definition prot_of (status : ShmOwnStatus) : Z :=
  match status with
  | READ => PROT_READ
  | READWRITE => Z.lor PROT_READ PROT_WRITE
  | WRITE => PROT_WRITE
  | _ => PROT_NONE
  end.

(** The call of the memory driver's library, through its pointer. *)
Definition obmm_set_ownership (fd startAddr endAddr prot : Z) : CM Z :=
  fn ← gets (fun w => ex_fn (cw_obmm w));
  if fn : bool then ev (ObmmSetOwnership fd startAddr endAddr prot) else modify lose ;; mret 0%Z.

(** The loop of [UbsMemShmSetOwnerShipOpt] over the indices; [first] is the first of all,
    and [is_first] whether it is its turn. *)
Fixpoint switch_segments (indices : list Z) (first : Z) (is_first : bool) (m : ShmAppMetaData) (start length prot usedFirst : Z) : CM Z :=
  match indices with
  | [] => mret UBSM_OK
  | i :: indices =>
      let offset := if is_first then 0%Z else u64 (i - first - 1) in
      if Z.eqb (md_unitSize m) 0 || Z.ltb (UINTPTR_MAX / md_unitSize m) offset then mret MXM_ERR_PARAM_INVALID
      else
        let totalOffset := u64 (offset * md_unitSize m) in
        if Z.ltb length usedFirst || Z.ltb length totalOffset || Z.ltb length (u64 (totalOffset + usedFirst)) then mret MXM_ERR_PARAM_INVALID
        else
          let curLen := if is_first then usedFirst else Z.min (u64 (length - totalOffset - usedFirst)) (md_unitSize m) in
          let startAddr := if is_first then start else (md_addrs m !!! Z.to_nat i).1 in
          ret ← obmm_set_ownership (md_fds m !!! Z.to_nat i) startAddr (u64 (startAddr + curLen)) prot;
          if negb (Z.eqb ret 0) then mret MXM_ERR_OBMM_INNER
          else switch_segments indices first false m start length prot usedFirst
  end.

Definition UbsMemShmSetOwnerShipOpt (m : ShmAppMetaData) (start length : Z) (status : ShmOwnStatus) (usedFirst : Z) (indices : list Z) : CM Z :=
  switch_segments indices (default 0%Z (head indices)) true m start length (prot_of status) usedFirst.

Definition UbsMemShmSetOwnerShip (name : string) (start length : Z) (status : ShmOwnStatus) : CM Z :=
  if Z.eqb start 0 then mret MXM_ERR_PARAM_INVALID
  else if String.eqb name EmptyString then mret MXM_ERR_PARAM_INVALID
  else if Z.leb length 0 then mret MXM_ERR_PARAM_INVALID
  else
    t ← gets cw_shm;
    match CheckAddr name start length t with
    | inl result => mret result
    | inr (m, usedFirst, indices) =>
        if Nat.eqb (List.length indices) 0 then mret UBSM_OK
        else if negb (Nat.eqb (List.length (md_addrs m)) (List.length (md_fds m))) then mret MXM_ERR_SHM_NOT_FOUND
        else if negb (Z.eqb (Z.land (md_flag m) UBSM_FLAG_ONLY_IMPORT_NONCACHE) 0) || negb (Z.eqb (Z.land (md_flag m) UBSM_FLAG_NONCACHE) 0)
        then mret MXM_ERR_PARAM_INVALID
        else UbsMemShmSetOwnerShipOpt m start length status usedFirst indices
    end.

Definition RackMemLookupResourceRegions (baseNid : string) (type : Z) : CM (Z + SHMRegions) := IpcCallLookupRegionList baseNid type.
Definition RackMemCreateResourceRegion (regionName : string) (region : SHMRegionDesc) : CM Z := IpcCallCreateRegion regionName region.
Definition RackMemLookupResourceRegion (regionName : string) : CM (Z + SHMRegionDesc) := IpcCallLookupRegion regionName.
Definition RackMemDestroyResourceRegion (regionName : string) : CM Z := IpcCallDestroyRegion regionName.

(** The entry a lock operation works on, with the checks that all three make. *)
Definition lockable (name : string) (t : ShmMetaDataMgr) : Z + ShmAppMetaData :=
  match GetShmMetaFromName name t with
  | inl result => inl result
  | inr m =>
      if negb (Nat.eqb (length (md_addrs m)) (length (md_fds m))) then inl MXM_ERR_SHM_NOT_FOUND
      else if negb (String.eqb (md_name m) name) then inl MXM_ERR_SHM_NOT_FOUND
      else if negb (Z.eqb (md_flag m) UBSM_FLAG_WITH_LOCK) then inl MXM_ERR_LOCK_NOT_READY
      else inr m
  end.

(** The access rights of the whole mapping, with the unit size as the used part of the first segment. *)
Definition set_all (m : ShmAppMetaData) (status : ShmOwnStatus) : CM Z :=
  UbsMemShmSetOwnerShipOpt m (md_addr m) (md_mapSize m) status (md_unitSize m) (seqZ 0 (Z.of_nat (length (md_addrs m)))).

(** [UbsMemShmWriteLock] and [UbsMemShmReadLock], which differ in the request and the rights. The code's
    [isLocked] is an [int], whose increment is undefined after 2^31 - 1 locks; here it is counted without bound. *)
Definition shm_lock (ipc : string -> CM Z) (status : ShmOwnStatus) (name : string) : CM Z :=
  t ← gets cw_shm;
  match lockable name t with
  | inl result => mret result
  | inr m =>
      ret ← ipc name;
      if negb (Z.eqb ret UBSM_OK) then mret ret
      else
        ret ← set_all m status;
        if negb (Z.eqb ret 0) then IpcShmemUnLock name ;; mret ret
        else
          let m := set_locked (md_isLocked m + 1) status m in
          t ← gets cw_shm;
          let '(result, t) := UpdateMetaData name m t in
          modify (set_shm (fun _ => t)) ;;
          if BresultFail result then set_all m UNACCESS ;; IpcShmemUnLock name ;; mret result
          else mret UBSM_OK
  end.

Definition UbsMemShmWriteLock : string -> CM Z := shm_lock IpcShmemWriteLock READWRITE.

Definition UbsMemShmReadLock : string -> CM Z := shm_lock IpcShmemReadLock READ.

Definition UbsMemShmUnLock (name : string) : CM Z :=
  t ← gets cw_shm;
  match lockable name t with
  | inl result => mret result
  | inr m =>
      if Z.leb (md_isLocked m) 0 then mret MXM_ERR_LOCK_NOT_FOUND
      else
        ret ← set_all m UNACCESS;
        if negb (Z.eqb ret 0) then mret ret
        else
          ret ← IpcShmemUnLock name;
          if negb (Z.eqb ret UBSM_OK) then set_all m (md_lockedStatus m) ;; mret ret
          else
            let isLocked := (md_isLocked m - 1)%Z in
            let m := set_locked isLocked (if Z.eqb isLocked 0 then UNACCESS else md_lockedStatus m) m in
            t ← gets cw_shm;
            let '(result, t) := UpdateMetaData name m t in
            modify (set_shm (fun _ => t)) ;;
            mret result
  end.

Definition UbsMemShmAttach (name : string) : CM Z := IpcCallShmAttach name.
Definition UbsMemShmDetach (name : string) : CM Z := IpcCallShmDetach name.
Definition UbsMemShmListLookup (prefix : string) : CM (Z + list shmem_desc) := IpcCallShmListLookup prefix.
Definition UbsMemShmLookup (name : string) : CM (Z + shmem_info) := IpcCallShmLookup name.

Definition RpcQueryInfo : CM (Z + string) :=
  r ← IpcCallRpcQuery; match r with inl _ => mret (inl MXM_ERR_RPC_QUERY_ERROR) | inr n => mret (inr n) end.

Definition UbsMemQueryNode (isQueryMasterNode : bool) : CM (Z + option string) :=
  r ← IpcQueryNode isQueryMasterNode; match r with inl _ => mret (inl MXM_ERR_MEMLIB) | inr n => mret (inr n) end.

Definition UbsMemQueryDlockStatus : CM (Z + bool) :=
  r ← IpcQueryDlockStatus; match r with inl _ => mret (inl MXM_ERR_MEMLIB) | inr b => mret (inr b) end.

End RackMemShm.
