(* ===== verification/ClientLease.v ===== *)
(** Client library: leased memory ([src/src/app_lib/mxm_lease_lib/RackMem.cpp]). *)

From S2P Require Import Prelude RegionTypes Client ClientTables ClientIpc ClientShm.

Module RackMem.
Import BorrowTables IpcCommand.

Definition UpdateBorrowMetaDesc (memIds : list Z) (fileSize : Z) (isNuma : bool) (name : string) (d : AppBorrowMetaDesc) : AppBorrowMetaDesc :=
  mkBorrow (bd_fds d) (bd_addrs d) memIds (bd_fileSize d) fileSize (bd_regionName d) name isNuma (bd_unitSize d)
    (bd_hasUnmapped d) (bd_isLockAddress d).

Definition set_files (fds addrs : list Z) (d : AppBorrowMetaDesc) : AppBorrowMetaDesc :=
  mkBorrow fds addrs (bd_memIds d) (bd_fileSize d) (bd_actualMapFileSize d) (bd_regionName d) (bd_name d) (bd_isNuma d)
    (bd_unitSize d) (bd_hasUnmapped d) (bd_isLockAddress d).

Definition SetUnitSize (u : Z) (d : AppBorrowMetaDesc) : AppBorrowMetaDesc :=
  mkBorrow (bd_fds d) (bd_addrs d) (bd_memIds d) (bd_fileSize d) (bd_actualMapFileSize d) (bd_regionName d) (bd_name d)
    (bd_isNuma d) u (bd_hasUnmapped d) (bd_isLockAddress d).

Definition AddFd (fd : Z) (d : AppBorrowMetaDesc) : AppBorrowMetaDesc := set_files (bd_fds d ++ [fd]) (bd_addrs d) d.
Definition AddAddr (addr : Z) (d : AppBorrowMetaDesc) : AppBorrowMetaDesc := set_files (bd_fds d) (bd_addrs d ++ [addr]) d.

Definition add_meta (addr : Z) (d : AppBorrowMetaDesc) : CM Z :=
  t ← gets cw_lease; let '(ret, t) := AddMeta addr d t in modify (set_lease (fun _ => t)) ;; mret ret.

(** The address, or 0. *)
Definition MemoryIDUsedByNuma (d : AppBorrowMetaDesc) (memIds : list Z) (numaId : Z) (name : string) : CM Z :=
  if Z.ltb numaId 0 then mret 0%Z
  else if Z.leb 64 numaId then mret 0%Z
  else
    mappedMemory ← ev (MemoryMap 0 (bd_fileSize d) (Z.lor PROT_READ PROT_WRITE) (Z.lor MAP_PRIVATE MAP_ANONYMOUS) (-1) 0);
    if Z.eqb mappedMemory MAP_FAILED then mret 0%Z
    else
      bindRet ← ev (MemoryBind mappedMemory (bd_fileSize d) MPOL_PREFERRED (Z.shiftl 1 numaId) MAX_NUMA_NODE 0);
      if Z.eqb bindRet (-1) then ev (MemoryUnMap mappedMemory (bd_fileSize d)) ;; mret 0%Z
      else
        ret ← add_meta mappedMemory (UpdateBorrowMetaDesc memIds (bd_fileSize d) true name d);
        if BresultFail ret then ev (MemoryUnMap mappedMemory (bd_fileSize d)) ;; mret 0%Z
        else mret mappedMemory.

(** The loop of [MemoryIDUsedByFd]: whether it went through, and the descriptor. *)
Fixpoint map_files (n : nat) (i : Z) (mmapAddr totalSize unitSize offset : Z) (memIds : list Z) (d : AppBorrowMetaDesc) : CM (bool * AppBorrowMetaDesc) :=
  match n with
  | O => mret (true, d)
  | S n =>
      fd ← ObmmOpenInternal (memIds !!! Z.to_nat i) 0 O_RDWR;
      if Z.ltb fd 0 then
        ev (MemoryUnMap mmapAddr totalSize) ;;
        fds ← CloseAllFd (bd_fds d);
        mret (false, set_files fds (bd_addrs d) d)
      else
        let d := AddFd fd d in
        let startAddr := u64 (mmapAddr + i * unitSize) in
        ret ← FdMap.MapForEachFd startAddr unitSize fd (Z.lor PROT_WRITE PROT_READ) (Z.lor MAP_SHARED MAP_FIXED) offset;
        if BresultFail ret then
          ev (MemoryUnMap mmapAddr totalSize) ;;
          fds ← CloseAllFd (bd_fds d);
          mret (false, set_files fds (bd_addrs d) d)
        else map_files n (i + 1) mmapAddr totalSize unitSize offset memIds (AddAddr startAddr d)
  end.

Definition MemoryIDUsedByFd (d : AppBorrowMetaDesc) (memIds : list Z) (unitSize : Z) (name : string) (flags : Z) : CM Z :=
  let d := SetUnitSize unitSize d in
  let '(totalSize, mmapCount) := FdMap.GetActualMapSize (bd_fileSize d) unitSize in
  if Z.ltb (Z.of_nat (length memIds)) mmapCount then mret 0%Z
  else
    let huge := has_flag flags UBSM_FLAG_MMAP_HUGETLB_PMD in
    let offset := if huge then OBMM_MMAP_FLAG_HUGETLB_PMD else 0%Z in
    alignment ← GetHugeTlbPmdSize;
    r ← (if huge then FdMap.MemoryMapAligned totalSize alignment
         else FdMap.FileMapByTotalSize totalSize (Z.lor PROT_WRITE PROT_READ));
    match r with
    | inl _ => mret 0%Z
    | inr mmapAddr =>
        a ← map_files (Z.to_nat mmapCount) 0 mmapAddr totalSize unitSize offset memIds d;
        let '(ok, d) := a in
        if negb ok then mret 0%Z
        else
          let d := UpdateBorrowMetaDesc memIds totalSize false name d in
          ret ← add_meta mmapAddr d;
          if BresultFail ret then
            ev (MemoryUnMap mmapAddr totalSize) ;; CloseAllFd (bd_fds d) ;; mret 0%Z
          else mret mmapAddr
    end.

Definition UbsMemMap (size flags : Z) (response : MallocBody) : CM (Z + Z) :=
  let isNuma := has_flag flags UBSM_FLAG_MALLOC_WITH_NUMA in
  let d := new_borrow size "default" in
  if negb isNuma && Nat.eqb (length (ml_memIds response)) 0 then mret (inl MXM_ERR_PARAM_INVALID)
  else
    mappedMemory ← (if isNuma then MemoryIDUsedByNuma d (ml_memIds response) (ml_numaId response) (ml_name response)
                    else MemoryIDUsedByFd d (ml_memIds response) (ml_unitSize response) (ml_name response) flags);
    if Z.eqb mappedMemory 0 then
      AppFreeMemory (bd_regionName d) (ml_name response) (ml_memIds response) ;; mret (inl MXM_ERR_MMAP_VA_FAILED)
    else mret (inr mappedMemory).

Definition UbsMemMalloc (region : string) (size level flags : Z) : CM (Z + Z) :=
  let isNuma := has_flag flags UBSM_FLAG_MALLOC_WITH_NUMA in
  r ← AppMallocMemory size level isNuma region;
  match r with inl hr => mret (inl hr) | inr response => UbsMemMap size flags response end.

(** [ubs_mem_location_t] *)
Record location := mkLocation { lo_slot_id : Z; lo_socket_id : Z; lo_numa_id : Z; lo_port_id : Z }.

Definition UbsMemMallocWithLoc (src_loc : option location) (size flags : Z) (local_ptr : bool) : CM (Z + Z) :=
  match src_loc with
  | None => mret (inl MXM_ERR_PARAM_INVALID)
  | Some l =>
      if negb local_ptr then mret (inl MXM_ERR_PARAM_INVALID)
      else
        let isNuma := has_flag flags UBSM_FLAG_MALLOC_WITH_NUMA in
        r ← AppMallocMemoryWithLoc size isNuma (lo_slot_id l) (lo_socket_id l) (lo_numa_id l) (lo_port_id l);
        match r with inl hr => mret (inl hr) | inr response => UbsMemMap size flags response end
  end.

Definition UbsMemFree (ptr : Z) : CM Z :=
  if Z.eqb ptr 0 then mret MXM_ERR_PARAM_INVALID
  else
    t ← gets cw_lease;
    match GetMeta ptr t with
    | inl _ => mret MXM_ERR_PARAM_INVALID
    | inr d =>
        d ← (if negb (bd_isNuma d) then
               ev (MemoryMap ptr (bd_actualMapFileSize d) PROT_NONE (Z.lor (Z.lor MAP_FIXED MAP_PRIVATE) MAP_ANONYMOUS) (-1) 0) ;;
               fds ← CloseAllFd (bd_fds d);
               let d := set_files fds (bd_addrs d) d in
               modify (set_lease (fun t => (UpdateMeta ptr d t).2)) ;;
               mret d
             else mret d);
        ret2 ← AppFreeMemory (bd_regionName d) (bd_name d) (bd_memIds d);
        if BresultFail ret2 then mret ret2
        else
          ev (MemoryUnMap ptr (bd_actualMapFileSize d)) ;;
          modify (set_lease (fun t => (RemoveMeta ptr t).2)) ;;
          mret ret2
    end.

Definition RackMemLookupClusterStatistic : CM (Z + list Z) := IpcRackMemLookupClusterStatistic.
Definition QueryLeaseRecord : CM (Z + list string) := AppQueryLeaseRecord.
Definition ForceFreeCachedMemory : CM Z := AppForceFreeCachedMemory.

End RackMem.
