(* ===== verification/ClientApi.v ===== *)
(** Client library: the functions an application calls.

    [Lib]: [src/src/app_lib/rack_mem_lib.cpp], [rack_mem_lib.h], [RmLibObmmExecutor.cpp],
    [UbseMemExecutor.cpp]; [Api]: [mxm_shm_lib/mxmem_shmem.cpp], [mxm_shm_lib/mxm_shm.cpp],
    [mxm_lease_lib/mxmem_lease.cpp] and the public codes of [src/src/common/rack_mem_functions.h].
    A pointer argument that may be null is an option, a pointer to write to a boolean. *)

From S2P Require Import Prelude RegionTypes Client ClientTables ClientIpc ClientShm ClientLease.

(** ** Set-up *)

Module Lib.

(** [RmLibObmmExecutor] *)
Definition ObmmInitialize : CM Z :=
  h ← ev (DlOpen "libobmm.so.1");
  modify (set_obmm (fun e => mkExecutor (negb (Z.eqb h 0)) (ex_fn e))) ;;
  if Z.eqb h 0 then mret MXM_ERR_PARAM_INVALID
  else
    f ← ev (DlSym "obmm_set_ownership");
    modify (set_obmm (fun e => mkExecutor (ex_handle e) (negb (Z.eqb f 0)))) ;;
    if Z.eqb f 0 then
      ev (DlClose "libobmm.so.1") ;; modify (set_obmm (fun e => mkExecutor false (ex_fn e))) ;; mret MXM_ERR_PARAM_INVALID
    else mret HOK.

Definition ObmmExit : CM Z :=
  e ← gets cw_obmm;
  if ex_handle e then ev (DlClose "libobmm.so.1") ;; modify (set_obmm (fun e => mkExecutor false (ex_fn e))) ;; mret HOK
  else mret HOK.

Definition InitHtrace : CM Z := on ← asks ce_trace_on; if on : bool then ev TracerInit else mret HOK.

Definition ExitHtrace : CM Z := on ← asks ce_trace_on; if on : bool then ev TracerUnInit ;; mret UBSM_OK else mret HOK.

Definition init_module (m : ModuleName) : CM Z :=
  match m with
  | IPC => IpcProxy.Initialize
  | shmShmMetaMgr => mret UBSM_OK
  | MemPerfStat => InitHtrace
  | Obmm => ObmmInitialize
  end.

Definition shutdown_module (m : ModuleName) : CM Z :=
  match m with
  | IPC => IpcProxy.Destroy
  | shmShmMetaMgr => mret HOK
  | MemPerfStat => ExitHtrace
  | Obmm => ObmmExit
  end.

#[export] Instance ModuleName_eq_dec : EqDecision ModuleName.
Proof. solve_decision. Defined.

Definition set_module (m : ModuleName) (v : bool) : CM unit :=
  modify (set_lib (fun l => mkLib ((fun x => if bool_decide (x.1 = m) then (m, v) else x) <$> pModules l) (inited l))).

Definition InitModules : CM unit :=
  modify (set_lib (fun l => mkLib [(IPC, false); (shmShmMetaMgr, false); (MemPerfStat, false); (Obmm, false)] (inited l))).

Definition set_inited (v : bool) : CM unit := modify (set_lib (fun l => mkLib (pModules l) v)).

(** The first loop of [Initialize], over the modules from the last. *)
Fixpoint finish_pending (modules : list (ModuleName * bool)) : CM bool :=
  match modules with
  | [] => mret true
  | (m, on) :: modules =>
      if negb on then finish_pending modules
      else
        ret ← shutdown_module m;
        if BresultFail ret then mret false else set_module m false ;; finish_pending modules
  end.

(** The second. *)
Fixpoint init_modules (modules : list (ModuleName * bool)) : CM bool :=
  match modules with
  | [] => mret true
  | (m, _) :: modules =>
      hr ← init_module m;
      if Z.eqb hr 0 then set_module m true ;; init_modules modules else mret false
  end.

Definition Initialize : CM Z :=
  l ← gets cw_lib;
  if inited l then mret UBSM_OK
  else
    ok ← finish_pending (rev (pModules l));
    if negb ok then mret MXM_ERR_MEMLIB
    else
      InitModules ;;
      l ← gets cw_lib;
      ok ← init_modules (pModules l);
      if negb ok then mret MXM_ERR_MEMLIB else set_inited true ;; mret UBSM_OK.

(** The loop of [Destroy]: the code of the last failure. *)
Fixpoint shutdown_modules (modules : list (ModuleName * bool)) (result : Z) : CM Z :=
  match modules with
  | [] => mret result
  | (m, on) :: modules =>
      if negb on then shutdown_modules modules result
      else
        hr ← shutdown_module m;
        if BresultFail hr then shutdown_modules modules hr else set_module m false ;; shutdown_modules modules result
  end.

Definition Destroy : CM Z :=
  l ← gets cw_lib;
  if negb (inited l) && negb (existsb snd (pModules l)) then mret UBSM_OK
  else
    result ← (if inited l then IpcProxy.Resume else mret UBSM_OK);
    result ← shutdown_modules (rev (pModules l)) result;
    set_inited false ;;
    mret result.

Definition StartRackMem : CM Z :=
  l ← gets cw_lib;
  if inited l then mret 0%Z
  else
    hr ← Initialize;
    if BresultFail hr then Destroy ;; mret (-1)%Z else mret 0%Z.

Definition SuspendIpc : CM Z := IpcProxy.Suspend.
Definition ResumeIpc : CM Z := IpcProxy.Resume.

(** [UbseMemExecutor] *)
Definition UbseInitialize : CM Z :=
  u ← gets cw_ubse;
  if ub_initialized u then mret HOK
  else
    h ← ev (DlOpen "libubse-client.so.1");
    modify (set_ubse (fun u => mkUbse (ub_initialized u) (negb (Z.eqb h 0)) (ub_fn u) (ub_ShmFaultFunc u))) ;;
    if Z.eqb h 0 then mret MXM_ERR_UBSE_LIB
    else
      g ← ev (DlSym "ubs_engine_log_callback_register");
      ext ← asks ce_extern_log;
      (if negb (Z.eqb g 0) && ext then ev UbseLogCallBackRegister else mret tt) ;;
      f ← ev (DlSym "ubs_mem_shm_fault_register");
      modify (set_ubse (fun u => mkUbse (ub_initialized u) (ub_handle u) (negb (Z.eqb f 0)) (ub_ShmFaultFunc u))) ;;
      if Z.eqb f 0 then
        ev (DlClose "libubse-client.so.1") ;;
        modify (set_ubse (fun u => mkUbse (ub_initialized u) false (ub_fn u) (ub_ShmFaultFunc u))) ;;
        mret MXM_ERR_UBSE_LIB
      else modify (set_ubse (fun u => mkUbse true (ub_handle u) (ub_fn u) (ub_ShmFaultFunc u))) ;; mret HOK.

Definition UbseExit : CM Z :=
  u ← gets cw_ubse;
  (if ub_handle u then ev (DlClose "libubse-client.so.1") ;; mret tt else mret tt) ;;
  modify (set_ubse (fun u => mkUbse false false (if ub_handle u then false else ub_fn u) (ub_ShmFaultFunc u))) ;;
  mret HOK.

(** The code, or the application's function that is run with the name and the type. *)
Definition UbseShmFaultHandlerFunc (name : option string) (type : Z) (u : UbseMemExecutor) : Z + nat * string * Z :=
  match name, ub_ShmFaultFunc u with
  | Some name, Some f => inr (f, name, type)
  | _, _ => inl MXM_ERR_PARAM_INVALID
  end.

Definition RegisterShmFaultEvent (registerFunc : nat) : CM Z :=
  u ← gets cw_ubse;
  if negb (ub_initialized u) then mret (u32 (-1))
  else
    modify (set_ubse (fun u => mkUbse (ub_initialized u) (ub_handle u) (ub_fn u) (Some registerFunc))) ;;
    ret ← ev UbseFaultEventRegister;
    mret (if negb (Z.eqb ret 0) then MXM_ERR_UBSE_INNER else HOK).

End Lib.

(** ** Codes of the API *)

Definition UBSM_ERR_PARAM_INVALID : Z := 6010.
Definition UBSM_ERR_NOPERM : Z := 6011.
Definition UBSM_ERR_MEMORY : Z := 6012.
Definition UBSM_ERR_UNIMPL : Z := 6013.
Definition UBSM_CHECK_RESOURCE_ERROR : Z := 6014.
Definition UBSM_ERR_MEMLIB : Z := 6015.
Definition UBSM_ERR_NO_NEEDED : Z := 6016.
Definition UBSM_ERR_BUSY : Z := 6017.
Definition UBSM_ERR_IPC_SUSPENDED : Z := 6018.
Definition UBSM_ERR_NOT_FOUND : Z := 6020.
Definition UBSM_ERR_ALREADY_EXIST : Z := 6021.
Definition UBSM_ERR_MALLOC_FAIL : Z := 6022.
Definition UBSM_ERR_RECORD : Z := 6023.
Definition UBSM_ERR_IN_USING : Z := 6024.
Definition UBSM_ERR_NOT_SUPPORTED : Z := 6025.
Definition UBSM_ERR_NET : Z := 6040.
Definition UBSM_ERR_UBSE : Z := 6050.
Definition UBSM_ERR_OBMM : Z := 6051.
Definition UBSM_ERR_LOCK_NOT_SUPPORTED : Z := 6060.
Definition UBSM_ERR_LOCK_ALREADY_LOCKED : Z := 6061.
Definition UBSM_ERR_DLOCK : Z := 6062.
Definition UBSM_ERR_BUFF : Z := 6099.

Definition errorMapping : list (Z * Z) := [
  (MXM_ERR_MEMLIB, UBSM_ERR_MEMLIB);
  (MXM_ERR_NULLPTR, UBSM_ERR_PARAM_INVALID);
  (MXM_ERR_MALLOC_FAIL, UBSM_ERR_MALLOC_FAIL);
  (MXM_ERR_MEMORY, UBSM_ERR_MEMORY);
  (MXM_ERR_PARAM_INVALID, UBSM_ERR_PARAM_INVALID);
  (MXM_ERR_MMAP_VA_FAILED, UBSM_ERR_PARAM_INVALID);
  (MXM_ERR_CHECK_RESOURCE, UBSM_CHECK_RESOURCE_ERROR);
  (MXM_ERR_DAEMON_NO_FEATURE_ENABLED, UBSM_ERR_UNIMPL);
  (MXM_ERR_NAME_BUSY, UBSM_ERR_BUSY);
  (MXM_ERR_IPC_SUSPENDED, UBSM_ERR_IPC_SUSPENDED);
  (MXM_ERR_IPC_INIT_CALL, UBSM_ERR_NET);
  (MXM_ERR_IPC_SYNC_CALL, UBSM_ERR_NET);
  (MXM_ERR_IPC_HCOM_INNER_SYNC_CALL, UBSM_ERR_NET);
  (MXM_ERR_IPC_CRC_CHECK_ERROR, UBSM_ERR_NET);
  (MXM_ERR_IPC_SERIALIZE_DESERIALIZE_ERROR, UBSM_ERR_NET);
  (MXM_ERR_REGISTER_OP_CODE, UBSM_ERR_NET);
  (MXM_ERR_REGISTER_HANDLER_NULL, UBSM_ERR_NET);
  (MXM_ERR_RPC_QUERY_ERROR, UBSM_ERR_NET);
  (MXM_ERR_LOCK_NOT_READY, UBSM_ERR_LOCK_NOT_SUPPORTED);
  (MXM_ERR_LOCK_ALREADY_LOCKED, UBSM_ERR_LOCK_ALREADY_LOCKED);
  (MXM_ERR_LOCK_NOT_FOUND, UBSM_ERR_NOT_FOUND);
  (MXM_ERR_DLOCK_LIB, UBSM_ERR_DLOCK);
  (MXM_ERR_DLOCK_INNER, UBSM_ERR_DLOCK);
  (MXM_ERR_RECORD_DELETE, UBSM_ERR_RECORD);
  (MXM_ERR_RECORD_ADD, UBSM_ERR_RECORD);
  (MXM_ERR_RECORD_CHANGE_STATE, UBSM_ERR_RECORD);
  (MXM_ERR_REGION_NOT_FOUND, UBSM_ERR_NOT_FOUND);
  (MXM_ERR_REGION_PARAM_INVALID, UBSM_ERR_PARAM_INVALID);
  (MXM_ERR_REGION_EXIST, UBSM_ERR_ALREADY_EXIST);
  (MXM_ERR_REGION_NOT_EXIST, UBSM_ERR_NOT_FOUND);
  (MXM_ERR_REGION_NO_NEEDED, UBSM_ERR_NO_NEEDED);
  (MXM_ERR_SHM_NOT_FOUND, UBSM_ERR_NOT_FOUND);
  (MXM_ERR_SHM_ALREADY_EXIST, UBSM_ERR_ALREADY_EXIST);
  (MXM_ERR_SHM_PERMISSION_DENIED, UBSM_ERR_NOPERM);
  (MXM_ERR_SHM_IN_USING, UBSM_ERR_IN_USING);
  (MXM_ERR_SHM_NOT_EXIST, UBSM_ERR_NOT_FOUND);
  (MXM_ERR_LEASE_NOT_FOUND, UBSM_ERR_NOT_FOUND);
  (MXM_ERR_LEASE_NOT_EXIST, UBSM_ERR_NOT_FOUND);
  (MXM_ERR_UBSE_INNER, UBSM_ERR_UBSE);
  (MXM_ERR_UBSE_LIB, UBSM_ERR_UBSE);
  (MXM_ERR_UBSE_NOT_ATTACH, UBSM_ERR_UBSE);
  (MXM_ERR_UBSE_NOT_SUPPORTED, UBSM_ERR_NOT_SUPPORTED);
  (MXM_ERR_OBMM_INNER, UBSM_ERR_OBMM);
  (MXM_ERR_SHM_OBMM_OPEN, UBSM_ERR_OBMM)].

Definition GetErrCode (internalError : Z) : Z :=
  if Z.eqb internalError MXM_OK then UBSM_OK
  else match ShmTables.map_find internalError errorMapping with Some e => e | None => UBSM_ERR_BUFF end.

(** ** The API *)

Module Api.
Import RackMemShm.

(** [CheckRackMemSize] *)
Definition RACK_MEM_PAGE_SIZE : Z := (4 * 1024 * 1024)%Z.

Definition CheckRackMemSize (shmSize : Z) : bool :=
  if Z.leb shmSize 0 then false else if negb (Z.eqb (shmSize mod RACK_MEM_PAGE_SIZE) 0) then false else true.

(** [strnlen(s, limit)] is neither 0 nor the limit. *)
Definition name_ok (s : string) (limit : Z) : bool :=
  let length := strnlen s limit in negb (Z.eqb length 0 || Z.leb limit length).

(** [strnlen(s, limit + 1)] is neither 0 nor above the limit. *)
Definition name_ok_incl (s : string) (limit : Z) : bool :=
  let len := strnlen s (limit + 1) in negb (Z.eqb len 0 || Z.ltb limit len).

Definition find_region_desc (region_name : string) : CM (Z + SHMRegionDesc) :=
  if String.eqb region_name "default" then
    r ← ShmIpcCommand.IpcCallShmLookRegionList EmptyString ALL2ALL_SHARE;
    match r with
    | inl ret => mret (inl ret)
    | inr regions => if Z.leb (rs_num regions) 0 then mret (inl MXM_ERR_CHECK_RESOURCE) else mret (inr (rs_region regions !!! 0))
    end
  else RackMemLookupResourceRegion region_name.

(** [ubsmem_region_attributes_t]: [host_num] and the hosts with their affinity. *)
Record region_attributes := mkAttr { at_host_num : Z; at_hosts : list (string * bool) }.

Fixpoint copy_hosts (n : nat) (names : list string) (affinity : list bool) (i : nat) : option (list (string * bool)) :=
  match n with
  | O => Some []
  | S n =>
      if strcpy_s MAX_HOST_NAME_DESC_LENGTH (names !!! i) then
        hosts ← copy_hosts n names affinity (S i); Some ((names !!! i, affinity !!! i) :: hosts)
      else None
  end.

Definition translate_to_region_attributes (r : SHMRegionDesc) : Z + region_attributes :=
  if Z.ltb (rd_num r) 0 || Z.ltb MAX_REGION_NODE_NUM (rd_num r) then inl MXM_ERR_REGION_PARAM_INVALID
  else
    match copy_hosts (Z.to_nat (rd_num r)) (rd_hostName r) (rd_affinity r) 0 with
    | Some hosts => inr (mkAttr (rd_num r) hosts)
    | None => inl MXM_ERR_MEMORY
    end.

Fixpoint translate_list (l : list SHMRegionDesc) : Z + list region_attributes :=
  match l with
  | [] => inr []
  | r :: l =>
      match translate_to_region_attributes r with
      | inl ret => inl ret
      | inr a => match translate_list l with inl ret => inl ret | inr l => inr (a :: l) end
      end
  end.

Definition translate_to_regions (rs : SHMRegions) : Z + list region_attributes :=
  if Z.ltb (rs_num rs) 0 || Z.ltb MAX_REGIONS_NUM (rs_num rs) then inl MXM_ERR_REGION_PARAM_INVALID
  else translate_list (rs_region (ShmIpcCommand.first_regions rs)).

(** [ubsmem_region_desc_t]: name, size, attributes. *)
Definition translate_to_region_desc (region_name : string) (r : SHMRegionDesc) : Z + string * Z * region_attributes :=
  if negb (strcpy_s MAX_REGION_NAME_DESC_LENGTH region_name) then inl MXM_ERR_MEMORY
  else match translate_to_region_attributes r with inl ret => inl ret | inr a => inr (region_name, 0%Z, a) end.

(** The first host of the region with this name that is not taken. *)
Definition find_host (host : string) (num : nat) (hostName : list string) (flag : list bool) : option nat :=
  head (filter (fun j => flag !!! j = false /\ hostName !!! j = host) (seq 0 num)).

(** The first loop of [contain_all_hosts_in_attr]: the taken hosts and the affinities. *)
Fixpoint take_hosts (hosts : list (string * bool)) (num : nat) (hostName : list string) (flag affinity : list bool)
  : option (list bool * list bool) :=
  match hosts with
  | [] => Some (flag, affinity)
  | (host, aff) :: hosts =>
      match find_host host num hostName flag with
      | None => None
      | Some j => take_hosts hosts num hostName (<[j := true]> flag) (<[j := aff]> affinity)
      end
  end.

(** The second loop moves the taken hosts to the front; [j] runs to the number of hosts. *)
Fixpoint move_front (js : list nat) (k : nat) (flag : list bool) (r : SHMRegionDesc) : option (nat * SHMRegionDesc) :=
  match js with
  | [] => Some (k, r)
  | j :: js =>
      if negb (flag !!! j) then move_front js k flag r
      else if Nat.eqb k j then move_front js (S k) flag r
      else if negb (strcpy_s MEM_MAX_ID_LENGTH (rd_nodeId r !!! j)) then None
      else if negb (strcpy_s MAX_HOST_NAME_DESC_LENGTH (rd_hostName r !!! j)) then None
      else
        move_front js (S k) flag
          (mkRegionDesc (perfLevel r) (rd_type r) (rd_num r) (<[k := rd_affinity r !!! j]> (rd_affinity r))
             (<[k := rd_nodeId r !!! j]> (rd_nodeId r)) (<[k := rd_hostName r !!! j]> (rd_hostName r)))
  end.

(** The region with the requested hosts, if it has them all. *)
Definition contain_all_hosts_in_attr (r : SHMRegionDesc) (regAttr : region_attributes) : option SHMRegionDesc :=
  if Z.ltb (rd_num r) 0 || Z.ltb MAX_REGION_NODE_NUM (rd_num r) || Z.ltb (at_host_num regAttr) 0 ||
     Z.ltb MAX_REGION_NODE_NUM (at_host_num regAttr) then None
  else
    let num := Z.to_nat (rd_num r) in
    '(flag, affinity) ← take_hosts (take (Z.to_nat (at_host_num regAttr)) (at_hosts regAttr)) num (rd_hostName r)
                          (replicate (Z.to_nat MAX_REGION_NODE_NUM) false) (rd_affinity r);
    let r := mkRegionDesc (perfLevel r) (rd_type r) (rd_num r) affinity (rd_nodeId r) (rd_hostName r) in
    '(k, r) ← move_front (seq 0 num) 0 flag r;
    Some (mkRegionDesc (perfLevel r) (rd_type r) (Z.of_nat k) (rd_affinity r) (rd_nodeId r) (rd_hostName r)).

(** The first region of the list that has them all. *)
Definition filter_all_hosts_in_attr (l : list SHMRegionDesc) (regAttr : region_attributes) : Z + SHMRegionDesc :=
  match omap (fun r => contain_all_hosts_in_attr r regAttr) l with
  | r :: _ => inr r
  | [] => inl MXM_ERR_CHECK_RESOURCE
  end.

Definition create_region_check (region_name : option string) (size : Z) (reg_attr : option region_attributes) : Z :=
  match region_name, reg_attr with
  | Some region_name, Some reg_attr =>
      if String.eqb region_name "default" then MXM_ERR_REGION_NO_NEEDED
      else if negb (Z.eqb size 0) || Z.ltb MAX_REGION_NODE_NUM (at_host_num reg_attr) || Z.ltb (at_host_num reg_attr) 2 then MXM_ERR_PARAM_INVALID
      else if negb (name_ok region_name MAX_REGION_NAME_DESC_LENGTH) then MXM_ERR_PARAM_INVALID
      else if forallb (fun h => name_ok h.1 MAX_HOST_NAME_DESC_LENGTH) (take (Z.to_nat (at_host_num reg_attr)) (at_hosts reg_attr))
      then UBSM_OK else MXM_ERR_PARAM_INVALID
  | _, _ => MXM_ERR_PARAM_INVALID
  end.

Definition WithCacheableFlag (flags : Z) : bool :=
  Z.eqb (Z.land flags UBSM_FLAG_NONCACHE) 0 && Z.eqb (Z.land flags UBSM_FLAG_ONLY_IMPORT_NONCACHE) 0 &&
  Z.eqb (Z.land flags UBSM_FLAG_WITH_LOCK) 0.

Definition lor_all (l : list Z) : Z := foldr Z.lor 0%Z l.

Definition FLAGS_MASK : Z :=
  lor_all [UBSM_FLAG_CACHE; UBSM_FLAG_WITH_LOCK; UBSM_FLAG_NONCACHE; UBSM_FLAG_WR_DELAY_COMP; UBSM_FLAG_ONLY_IMPORT_NONCACHE;
           UBSM_FLAG_MEM_ANONYMOUS; UBSM_FLAG_MMAP_HUGETLB_PMD].
Definition COMMON_MASK : Z := Z.lor UBSM_FLAG_MEM_ANONYMOUS UBSM_FLAG_MMAP_HUGETLB_PMD.
Definition NC_MASK : Z := lor_all [UBSM_FLAG_NONCACHE; UBSM_FLAG_WR_DELAY_COMP; COMMON_MASK].
Definition IMPORT_NC_MASK : Z := lor_all [UBSM_FLAG_ONLY_IMPORT_NONCACHE; UBSM_FLAG_WR_DELAY_COMP; COMMON_MASK].
Definition LOCK_MASK : Z := Z.lor UBSM_FLAG_WITH_LOCK COMMON_MASK.
Definition CC_MASK : Z := Z.lor UBSM_FLAG_CACHE COMMON_MASK.

Definition ValidateFlag (flags : Z) : bool :=
  if negb (Z.eqb (Z.land flags FLAGS_MASK) flags) then false
  else if negb (Z.eqb (Z.land flags UBSM_FLAG_NONCACHE) 0) && negb (Z.eqb (Z.land flags NC_MASK) flags) then false
  else if negb (Z.eqb (Z.land flags UBSM_FLAG_ONLY_IMPORT_NONCACHE) 0) && negb (Z.eqb (Z.land flags IMPORT_NC_MASK) flags) then false
  else if negb (Z.eqb (Z.land flags UBSM_FLAG_WITH_LOCK) 0) && negb (Z.eqb (Z.land flags LOCK_MASK) flags) then false
  else if WithCacheableFlag flags && negb (Z.eqb (Z.land flags CC_MASK) flags) then false
  else true.

Definition ubsmem_shmem_allocate_impl (region_name name : option string) (size mode flags : Z) : CM Z :=
  match name, region_name with
  | Some name, Some region_name =>
      if negb (name_ok region_name MAX_REGION_NAME_DESC_LENGTH) then mret MXM_ERR_PARAM_INVALID
      else if negb (name_ok name MAX_SHM_NAME_LENGTH) then mret MXM_ERR_PARAM_INVALID
      else
        page ← asks PAGE_SIZE;
        let pageSize := ROUND_UP size page in
        if negb (CheckRackMemSize pageSize) then mret MXM_ERR_PARAM_INVALID
        else if negb (ValidateFlag flags) then mret MXM_ERR_PARAM_INVALID
        else
          hugePageSize ← GetHugeTlbPmdSize;
          if has_flag flags UBSM_FLAG_MMAP_HUGETLB_PMD && negb (Z.eqb (size mod hugePageSize) 0) then mret MXM_ERR_PARAM_INVALID
          else
            r ← find_region_desc region_name;
            match r with
            | inl ret => mret ret
            | inr region => UbsMemShmCreate region_name name pageSize EmptyString region flags mode
            end
  | _, _ => mret MXM_ERR_PARAM_INVALID
  end.

Definition ubsmem_shmem_allocate (region_name name : option string) (size mode flags : Z) : CM Z :=
  ret ← ubsmem_shmem_allocate_impl region_name name size mode flags; mret (GetErrCode ret).

Definition ubsmem_shmem_allocate_with_provider_impl (src_loc : option provider) (name : option string) (size mode flags : Z) : CM Z :=
  match name, src_loc with
  | Some name, Some src_loc =>
      if negb (name_ok name MAX_SHM_NAME_LENGTH) then mret MXM_ERR_PARAM_INVALID
      else if String.eqb (pr_host_name src_loc) EmptyString then mret MXM_ERR_PARAM_INVALID
      else if negb (name_ok (pr_host_name src_loc) MAX_HOST_NAME_DESC_LENGTH) then mret MXM_ERR_PARAM_INVALID
      else
        page ← asks PAGE_SIZE;
        let pageSize := ROUND_UP size page in
        if negb (CheckRackMemSize pageSize) then mret MXM_ERR_PARAM_INVALID
        else if negb (ValidateFlag flags) then mret MXM_ERR_PARAM_INVALID
        else UbsMemShmCreateWithProvider src_loc name pageSize flags mode
  | _, _ => mret MXM_ERR_PARAM_INVALID
  end.

Definition ubsmem_shmem_allocate_with_provider (src_loc : option provider) (name : option string) (size mode flags : Z) : CM Z :=
  ret ← ubsmem_shmem_allocate_with_provider_impl src_loc name size mode flags; mret (GetErrCode ret).

(** An operation on a name of at most [limit - 1] characters, and one of at most [limit]. *)
Definition with_name (name : option string) (f : string -> CM Z) : CM Z :=
  match name with
  | Some name => if negb (name_ok name MAX_SHM_NAME_LENGTH) then mret MXM_ERR_PARAM_INVALID else f name
  | None => mret MXM_ERR_PARAM_INVALID
  end.

Definition with_name_incl (name : option string) (f : string -> CM Z) : CM Z :=
  match name with
  | Some name => if negb (name_ok_incl name MAX_SHM_NAME_LENGTH) then mret MXM_ERR_PARAM_INVALID else f name
  | None => mret MXM_ERR_PARAM_INVALID
  end.

Definition ubsmem_shmem_deallocate (name : option string) : CM Z :=
  ret ← with_name name UbsMemShmDelete; mret (GetErrCode ret).

(** The code, or the address. *)
Definition ubsmem_shmem_map_impl (addr length prot flags : Z) (name : option string) (offset : Z) (local_ptr : bool) : CM (Z + Z) :=
  match name with
  | None => mret (inl MXM_ERR_PARAM_INVALID)
  | Some name =>
      if negb local_ptr then mret (inl MXM_ERR_PARAM_INVALID)
      else
        page ← asks PAGE_SIZE;
        if negb (Z.eqb addr 0) && negb (Z.eqb (addr mod page) 0) then mret (inl MXM_ERR_PARAM_INVALID)
        else if Z.leb length 0 then mret (inl MXM_ERR_PARAM_INVALID)
        else if negb (name_ok name MAX_SHM_NAME_LENGTH) then mret (inl MXM_ERR_PARAM_INVALID)
        else if Z.eqb (Z.lor flags MAP_PRIVATE) MAP_PRIVATE then mret (inl MXM_ERR_PARAM_INVALID)
        else
          let pageLength := ROUND_UP length page in
          let pageOffset := ROUND_UP (u64 offset) page in
          r ← UbsMemShmMmap addr pageLength prot flags name pageOffset true;
          match r with
          | inl ret => mret (inl ret)
          | inr localPtr => if Z.eqb localPtr 0 then mret (inl MXM_ERR_MMAP_VA_FAILED) else mret (inr localPtr)
          end
  end.

Definition ubsmem_shmem_map (addr length prot flags : Z) (name : option string) (offset : Z) (local_ptr : bool) : CM (Z + Z) :=
  r ← ubsmem_shmem_map_impl addr length prot flags name offset local_ptr;
  match r with inl ret => mret (inl (GetErrCode ret)) | inr a => mret (inr a) end.

Definition ubsmem_shmem_unmap_impl (local_ptr length : Z) : CM Z :=
  if Z.eqb local_ptr 0 then mret MXM_ERR_PARAM_INVALID
  else if Z.leb length 0 then mret MXM_ERR_PARAM_INVALID
  else page ← asks PAGE_SIZE; UbsMemShmUnmmap local_ptr (ROUND_UP length page).

Definition ubsmem_shmem_unmap (local_ptr length : Z) : CM Z :=
  ret ← ubsmem_shmem_unmap_impl local_ptr length; mret (GetErrCode ret).

Definition ubsmem_shmem_set_ownership_impl (name : option string) (start length prot : Z) : CM Z :=
  match name with
  | None => mret MXM_ERR_PARAM_INVALID
  | Some name =>
      if negb (name_ok name MAX_SHM_NAME_LENGTH) then mret MXM_ERR_PARAM_INVALID
      else if Z.eqb start 0 then mret MXM_ERR_PARAM_INVALID
      else if Z.leb length 0 || negb (Z.eqb (length mod FOUR_KB) 0) then mret MXM_ERR_PARAM_INVALID
      else
        page ← asks PAGE_SIZE;
        let pageLength := ROUND_UP length page in
        if Z.eqb prot PROT_NONE then UbsMemShmSetOwnerShip name start pageLength UNACCESS
        else if Z.eqb prot PROT_READ then UbsMemShmSetOwnerShip name start pageLength READ
        else if Z.eqb prot (Z.lor PROT_READ PROT_WRITE) then UbsMemShmSetOwnerShip name start pageLength READWRITE
        else mret MXM_ERR_PARAM_INVALID
  end.

Definition ubsmem_shmem_set_ownership (name : option string) (start length prot : Z) : CM Z :=
  hr ← ubsmem_shmem_set_ownership_impl name start length prot; mret (GetErrCode hr).

(** An operation that sets the library up first. *)
Definition started {A} (f : CM (Z + A)) : CM (Z + A) :=
  r ← Lib.StartRackMem; if negb (Z.eqb r 0) then mret (inl MXM_ERR_MEMLIB) else f.

Definition ubsm_lookup_regions_ompl (regions : bool) : CM (Z + list region_attributes) :=
  if negb regions then mret (inl MXM_ERR_PARAM_INVALID)
  else
    started (
      r ← RackMemLookupResourceRegions EmptyString ALL2ALL_SHARE;
      match r with inl ret => mret (inl ret) | inr rs => mret (translate_to_regions rs) end).

Definition public {A} (r : Z + A) : Z + A := match r with inl ret => inl (GetErrCode (u32 ret)) | inr a => inr a end.

Definition ubsmem_lookup_regions (regions : bool) : CM (Z + list region_attributes) :=
  r ← ubsm_lookup_regions_ompl regions; mret (public r).

Definition ubsmem_create_region_impl (region_name : option string) (size : Z) (reg_attr : option region_attributes) : CM Z :=
  let ret := create_region_check region_name size reg_attr in
  match region_name, reg_attr with
  | Some region_name, Some reg_attr =>
      if negb (Z.eqb ret UBSM_OK) then mret ret
      else
        r ← Lib.StartRackMem;
        if negb (Z.eqb r 0) then mret MXM_ERR_MEMLIB
        else
          r ← RackMemLookupResourceRegions EmptyString ALL2ALL_SHARE;
          match r with
          | inl ret => mret ret
          | inr rs =>
              match filter_all_hosts_in_attr (rs_region rs) reg_attr with
              | inl ret => mret ret
              | inr region => RackMemCreateResourceRegion region_name region
              end
          end
  | _, _ => mret ret
  end.

Definition ubsmem_create_region (region_name : option string) (size : Z) (reg_attr : option region_attributes) : CM Z :=
  hr ← ubsmem_create_region_impl region_name size reg_attr; mret (GetErrCode hr).

Definition ubsmem_lookup_region_impl (region_name : option string) (region_desc : bool) : CM (Z + string * Z * region_attributes) :=
  match region_name with
  | None => mret (inl MXM_ERR_PARAM_INVALID)
  | Some region_name =>
      if negb region_desc then mret (inl MXM_ERR_PARAM_INVALID)
      else if negb (name_ok region_name MAX_REGION_NAME_DESC_LENGTH) then mret (inl MXM_ERR_PARAM_INVALID)
      else
        started (
          r ← RackMemLookupResourceRegion region_name;
          match r with inl ret => mret (inl ret) | inr region => mret (translate_to_region_desc region_name region) end)
  end.

Definition ubsmem_lookup_region (region_name : option string) (region_desc : bool) : CM (Z + string * Z * region_attributes) :=
  r ← ubsmem_lookup_region_impl region_name region_desc; mret (public r).

Definition ubsmem_destroy_region_impl (region_name : option string) : CM Z :=
  match region_name with
  | None => mret MXM_ERR_PARAM_INVALID
  | Some region_name =>
      if String.eqb region_name "default" then mret MXM_ERR_REGION_NO_NEEDED
      else if negb (name_ok region_name MAX_REGION_NAME_DESC_LENGTH) then mret MXM_ERR_PARAM_INVALID
      else
        r ← Lib.StartRackMem;
        if negb (Z.eqb r 0) then mret MXM_ERR_MEMLIB else RackMemDestroyResourceRegion region_name
  end.

Definition ubsmem_destroy_region (region_name : option string) : CM Z :=
  ret ← ubsmem_destroy_region_impl region_name; mret (GetErrCode ret).

Definition ubsmem_shmem_write_lock (name : option string) : CM Z := ret ← with_name name UbsMemShmWriteLock; mret (GetErrCode ret).
Definition ubsmem_shmem_read_lock (name : option string) : CM Z := ret ← with_name name UbsMemShmReadLock; mret (GetErrCode ret).
Definition ubsmem_shmem_unlock (name : option string) : CM Z := ret ← with_name name UbsMemShmUnLock; mret (GetErrCode ret).
Definition ubsmem_shmem_attach (name : option string) : CM Z := ret ← with_name_incl name UbsMemShmAttach; mret (GetErrCode ret).
Definition ubsmem_shmem_detach (name : option string) : CM Z := ret ← with_name_incl name UbsMemShmDetach; mret (GetErrCode ret).

(** The entries that fit the caller's array, with the count stored in [*shm_cnt]; or the code, with
    the count if it was stored. *)
Definition ubsmem_shmem_listlookup_impl (prefix : option string) (shm_list : bool) (shm_cnt : option Z)
  : CM (Z * option Z + list shmem_desc * Z) :=
  match prefix, shm_cnt with
  | Some prefix, Some shm_cnt =>
      if negb shm_list then mret (inl (MXM_ERR_PARAM_INVALID, None))
      else if negb (name_ok_incl prefix MAX_SHM_NAME_LENGTH) then mret (inl (MXM_ERR_PARAM_INVALID, None))
      else
        r ← UbsMemShmListLookup prefix;
        match r with
        | inl ret => mret (inl (ret, None))
        | inr shm_vec =>
            let size := Z.of_nat (length shm_vec) in
            if Z.ltb (2 ^ 32 - 1) size then mret (inl (MXM_ERR_PARAM_INVALID, None))
            else if Z.ltb shm_cnt size then mret (inl (MXM_ERR_PARAM_INVALID, Some size))
            else if forallb (fun d => strcpy_s (MAX_SHM_NAME_LENGTH + 1) (sd_name d)) shm_vec then mret (inr (shm_vec, size))
            else mret (inl (MXM_ERR_MEMORY, Some size))
        end
  | _, _ => mret (inl (MXM_ERR_PARAM_INVALID, None))
  end.

Definition ubsmem_shmem_list_lookup (prefix : option string) (shm_list : bool) (shm_cnt : option Z)
  : CM (Z * option Z + list shmem_desc * Z) :=
  r ← ubsmem_shmem_listlookup_impl prefix shm_list shm_cnt;
  match r with inl (ret, cnt) => mret (inl (GetErrCode ret, cnt)) | inr l => mret (inr l) end.

Definition ubsmem_shmem_lookup (name : option string) (shm_info : bool) : CM (Z + shmem_info) :=
  match name with
  | Some name =>
      if negb shm_info || negb (name_ok_incl name MAX_SHM_NAME_LENGTH) then mret (inl (GetErrCode MXM_ERR_PARAM_INVALID))
      else r ← UbsMemShmLookup name; mret (public r)
  | None => mret (inl (GetErrCode MXM_ERR_PARAM_INVALID))
  end.

Definition ubsmem_local_nid_query (nid : bool) : CM (Z + Z) :=
  if negb nid then mret (inl UBSM_ERR_PARAM_INVALID) else r ← ShmIpcCommand.AppGetLocalSlotId; mret (public r).

Definition ubsmem_shmem_faults_register (registerFunc : option nat) : CM Z :=
  match registerFunc with
  | None => mret (GetErrCode MXM_ERR_PARAM_INVALID)
  | Some f =>
      ret ← Lib.UbseInitialize;
      if negb (Z.eqb ret 0) then mret (GetErrCode ret) else ret ← Lib.RegisterShmFaultEvent f; mret (GetErrCode ret)
  end.

Definition ubsmem_shmem_ipc_suspend : CM Z := ret ← Lib.SuspendIpc; mret (GetErrCode ret).
Definition ubsmem_shmem_ipc_resume : CM Z := ret ← Lib.ResumeIpc; mret (GetErrCode ret).

Definition RpcQueryNodeInfo : CM Z :=
  r ← Lib.StartRackMem;
  if negb (Z.eqb r 0) then mret MXM_ERR_MEMLIB
  else r ← RpcQueryInfo; match r with inl ret => mret ret | inr _ => mret 0%Z end.

(** ** Leases *)

Definition DISTANCE_DIRECT_NODE : Z := 0.

Definition ubsmem_lease_validate_flags (flags : Z) : bool :=
  negb (negb (Z.eqb flags 0) && negb (Z.eqb flags UBSM_FLAG_MMAP_HUGETLB_PMD) && negb (Z.eqb flags UBSM_FLAG_MALLOC_WITH_NUMA)).

Definition ubsmem_lease_malloc_impl (region_name : option string) (size mem_distance flags : Z) (local_ptr : bool) : CM (Z + Z) :=
  match region_name with
  | None => mret (inl MXM_ERR_PARAM_INVALID)
  | Some region_name =>
      if negb (name_ok region_name MAX_REGION_NAME_DESC_LENGTH) then mret (inl MXM_ERR_PARAM_INVALID)
      else if negb local_ptr then mret (inl MXM_ERR_PARAM_INVALID)
      else if negb (CheckRackMemSize size) then mret (inl MXM_ERR_PARAM_INVALID)
      else if negb (ubsmem_lease_validate_flags flags) then mret (inl MXM_ERR_PARAM_INVALID)
      else
        hugePagesSize ← GetHugeTlbPmdSize;
        if has_flag flags UBSM_FLAG_MMAP_HUGETLB_PMD && negb (Z.eqb (size mod hugePagesSize) 0) then mret (inl MXM_ERR_PARAM_INVALID)
        else if negb (Z.eqb mem_distance DISTANCE_DIRECT_NODE) then mret (inl MXM_ERR_PARAM_INVALID)
        else RackMem.UbsMemMalloc region_name size mem_distance flags
  end.

Definition ubsmem_lease_malloc (region_name : option string) (size mem_distance flags : Z) (local_ptr : bool) : CM (Z + Z) :=
  r ← ubsmem_lease_malloc_impl region_name size mem_distance flags local_ptr; mret (public r).

Definition ubsmem_lease_malloc_with_location_impl (src_loc : option RackMem.location) (size flags : Z) (local_ptr : bool) : CM (Z + Z) :=
  match src_loc with
  | None => mret (inl MXM_ERR_PARAM_INVALID)
  | Some _ =>
      if negb local_ptr then mret (inl MXM_ERR_PARAM_INVALID)
      else if negb (CheckRackMemSize size) then mret (inl MXM_ERR_PARAM_INVALID)
      else if negb (ubsmem_lease_validate_flags flags) then mret (inl MXM_ERR_PARAM_INVALID)
      else
        r ← RackMem.UbsMemMallocWithLoc src_loc size flags true;
        match r with
        | inl ret => mret (inl ret)
        | inr localPtr => if Z.eqb localPtr 0 then mret (inl MXM_ERR_MMAP_VA_FAILED) else mret (inr localPtr)
        end
  end.

Definition ubsmem_lease_malloc_with_location (src_loc : option RackMem.location) (size flags : Z) (local_ptr : bool) : CM (Z + Z) :=
  r ← ubsmem_lease_malloc_with_location_impl src_loc size flags local_ptr; mret (public r).

Definition ubsmem_lease_free (local_ptr : Z) : CM Z :=
  if Z.eqb local_ptr 0 then mret (GetErrCode MXM_ERR_PARAM_INVALID)
  else hr ← RackMem.UbsMemFree local_ptr; mret (GetErrCode hr).

Definition ubsmem_lookup_cluster_statistic (info : bool) : CM (Z + list Z) :=
  if negb info then mret (inl (GetErrCode MXM_ERR_PARAM_INVALID))
  else r ← RackMem.RackMemLookupClusterStatistic; mret (public r).

(** ** Life cycle *)

Definition ubsmem_init_attributes (opts : bool) : Z := if negb opts then UBSM_ERR_PARAM_INVALID else UBSM_OK.

Definition ubsmem_initialize (opts : bool) : CM Z :=
  if negb opts then mret UBSM_ERR_PARAM_INVALID else ret ← Lib.Initialize; mret (GetErrCode ret).

Definition ubsmem_finalize : CM Z := Lib.Destroy ;; mret UBSM_OK.

End Api.
