(* ===== verification/ClientWp.v ===== *)
(** Client library: reasoning about its operations.

    [wp m Q env w]: [m] run from [w] ends in a result and a world related by [Q]. [appends]
    compares two worlds: what was recorded in between, and that the tables are
    the same. *)

From S2P Require Import Prelude RegionTypes Client ClientTables ClientIpc ClientShm.

Definition wp {A} (m : CM A) (Q : A -> ClientWorld -> Prop) (env : ClientEnv) (w : ClientWorld) : Prop :=
  Q (m env w).1 (m env w).2.

Section Wp.
Context (env : ClientEnv).

Lemma cwp_bind {A B} (m : CM A) (f : A -> CM B) Q w :
  wp m (fun x w' => wp (f x) Q env w') env w -> wp (m ≫= f) Q env w.
Proof. unfold wp, mbind, cm_bind. destruct (m env w). auto. Qed.

Lemma cwp_ret {A} (x : A) (Q : A -> ClientWorld -> Prop) w : Q x w -> wp (mret x) Q env w.
Proof. auto. Qed.

Lemma cwp_gets {A} (f : ClientWorld -> A) (Q : A -> ClientWorld -> Prop) w : Q (f w) w -> wp (gets f) Q env w.
Proof. auto. Qed.

Lemma cwp_asks {A} (f : ClientEnv -> A) (Q : A -> ClientWorld -> Prop) w : Q (f env) w -> wp (asks f) Q env w.
Proof. auto. Qed.

Lemma cwp_modify f (Q : unit -> ClientWorld -> Prop) w : Q tt (f w) -> wp (modify f) Q env w.
Proof. auto. Qed.

Lemma cwp_ev {R} (e : Ev R) (Q : R -> ClientWorld -> Prop) w :
  (forall a, a = ce_answer env R (length (cw_trace w)) e -> Q a (log_event (entry e a) w)) -> wp (ev e) Q env w.
Proof. intros H. by apply H. Qed.

Lemma cwp_mono {A} (m : CM A) (P Q : A -> ClientWorld -> Prop) w :
  wp m P env w -> (forall x w', P x w' -> Q x w') -> wp m Q env w.
Proof. unfold wp. auto. Qed.

Lemma cwp_and {A} (m : CM A) (P Q : A -> ClientWorld -> Prop) w :
  wp m P env w -> wp m Q env w -> wp m (fun x w' => P x w' /\ Q x w') env w.
Proof. unfold wp. auto. Qed.

Lemma cwp_if {A} (b : bool) (m n : CM A) Q w :
  (b = true -> wp m Q env w) -> (b = false -> wp n Q env w) -> wp (if b then m else n) Q env w.
Proof. destruct b; auto. Qed.

End Wp.

Ltac cstep :=
  lazymatch goal with
  | |- wp (_ ≫= _) _ _ _ => apply cwp_bind
  | |- wp (mret _) _ _ _ => apply cwp_ret
  | |- wp (gets _) _ _ _ => apply cwp_gets
  | |- wp (asks _) _ _ _ => apply cwp_asks
  | |- wp (modify _) _ _ _ => apply cwp_modify
  | |- wp (IpcProxy.SetState _) _ _ _ => apply cwp_modify
  | |- wp GetHugeTlbPmdSize _ _ _ => apply cwp_asks
  end.

Ltac csteps := cbn [negb]; repeat (cstep; cbv beta; cbn [negb]).

Ltac cif := match goal with |- wp (if ?b then _ else _) _ _ _ => destruct b eqn:? end.

Ltac cuse H := eapply cwp_mono; [apply H | cbv beta].

(** ** What is recorded *)

(** [w'] is [w] after the calls [es] (in the order they were made), and nothing else has changed but [lost]. *)
Record appends (w : ClientWorld) (es : list Entry) (w' : ClientWorld) : Prop := mk_appends {
  ap_link : cw_link w' = cw_link w;
  ap_state : cw_state w' = cw_state w;
  ap_shm : cw_shm w' = cw_shm w;
  ap_lease : cw_lease w' = cw_lease w;
  ap_lib : cw_lib w' = cw_lib w;
  ap_obmm : cw_obmm w' = cw_obmm w;
  ap_ubse : cw_ubse w' = cw_ubse w;
  ap_lost : cw_lost w' = cw_lost w;
  ap_trace : cw_trace w' = rev es ++ cw_trace w;
}.

Lemma appends_nil w : appends w [] w.
Proof. by split. Qed.

Lemma appends_log e es w w' : appends w es w' -> appends w (es ++ [e]) (log_event e w').
Proof. intros []. split; try done. cbn. rewrite ap_trace0, rev_app_distr. done. Qed.

Lemma appends_app w es w' es' w'' : appends w es w' -> appends w' es' w'' -> appends w (es ++ es') w''.
Proof.
  intros [] []. split; try congruence. rewrite ap_trace1, ap_trace0, rev_app_distr, app_assoc. done.
Qed.

Lemma appends_one {R} (e : Ev R) a w : appends w [entry e a] (log_event (entry e a) w).
Proof. apply (appends_log (entry e a) [] w w), appends_nil. Qed.

Lemma cwp_ev_appends {R} (e : Ev R) env w : wp (ev e) (fun a w' => appends w [entry e a] w') env w.
Proof. apply cwp_ev. intros a _. apply appends_one. Qed.

(** ** Requests *)

(** Requests can be sent. *)
Definition connected (w : ClientWorld) : Prop :=
  (cw_state w = RUNNING \/ cw_state w = UNINITIALIZED) /\ g_mxmIpcClient (cw_link w) = true /\ g_ipcClientStopping (cw_link w) = false.

Lemma appends_connected w es w' : appends w es w' -> connected w -> connected w'.
Proof. intros [] (H1 & H2 & H3). unfold connected. by rewrite ap_link0, ap_state0. Qed.

(** The code a request ends in, from the transport's and the daemon's answers. *)
Definition answer_code {A} (a : Z * (Z * A)) : Z :=
  if negb (Z.eqb a.1 0) then MXM_ERR_IPC_HCOM_INNER_SYNC_CALL else u32 a.2.1.

(** What the daemon answers to a request made now. *)
Definition reply {A} (env : ClientEnv) (w : ClientWorld) (op : IpcOp A) : Z * (Z * A) :=
  ce_answer env (Z * (Z * A)) (length (cw_trace w)) (ClientSend op).

Lemma SyncCall_connected {A} (op : IpcOp A) env w :
  g_mxmIpcClient (cw_link w) = true -> g_ipcClientStopping (cw_link w) = false ->
  wp (IpcProxy.SyncCall op) (fun r w' => appends w [entry (ClientSend op) (reply env w op)] w' /\
    r = (if negb (Z.eqb (reply env w op).1 0) then MXM_ERR_IPC_HCOM_INNER_SYNC_CALL else UBSM_OK, Some (reply env w op).2)) env w.
Proof.
  intros H1 H2. unfold IpcProxy.SyncCall, Link.MxmComIpcClientSend. csteps. rewrite H1, H2. cbn [negb orb].
  csteps. apply cwp_ev. intros a ->. fold (reply env w op). csteps. cbn [fst snd].
  destruct (Z.eqb (reply env w op).1 0) eqn:E; cbn [negb]; csteps; split; (done || apply appends_one).
Qed.

Lemma SyncCall_down {A} (op : IpcOp A) env w :
  negb (g_mxmIpcClient (cw_link w)) || g_ipcClientStopping (cw_link w) = true ->
  IpcProxy.SyncCall op env w = (MXM_ERR_IPC_HCOM_INNER_SYNC_CALL, None, w).
Proof. intros H. unfold IpcProxy.SyncCall, Link.MxmComIpcClientSend, mbind, cm_bind, gets. by rewrite H. Qed.

Lemma SyncCall_code {A} (op : IpcOp A) env w :
  let r := (IpcProxy.SyncCall op env w).1 in r.1 = UBSM_OK \/ r.1 = MXM_ERR_IPC_HCOM_INNER_SYNC_CALL.
Proof.
  unfold IpcProxy.SyncCall, mbind, cm_bind. destruct (Link.MxmComIpcClientSend op env w) as [[c o] w']. cbn.
  destruct (negb _); cbn; auto.
Qed.

(** The loop over three attempts makes one: the codes it repeats on are never the result of [SyncCall]. *)
Lemma IpcCallInner_once {A} (op : IpcOp A) env w : IpcProxy.IpcCallInner op env w = IpcProxy.SyncCall op env w.
Proof.
  unfold IpcProxy.IpcCallInner. cbn [IpcProxy.attempts]. unfold mbind at 1, cm_bind at 1.
  destruct (IpcProxy.SyncCall op env w) as [r w'] eqn:E. pose proof (SyncCall_code op env w) as H. rewrite E in H.
  cbn in H. destruct H as [-> | ->]; done.
Qed.

Lemma Ipc_connected {A} (op : IpcOp A) env w :
  connected w ->
  wp (IpcProxy.Ipc op) (fun r w' => appends w [entry (ClientSend op) (reply env w op)] w' /\
    r = (if negb (Z.eqb (reply env w op).1 0) then MXM_ERR_IPC_HCOM_INNER_SYNC_CALL else UBSM_OK, Some (reply env w op).2)) env w.
Proof.
  intros ([Hs|Hs] & H1 & H2); unfold IpcProxy.Ipc, IpcProxy.RunOperation; csteps; rewrite Hs; cbn [IpcProxy.GetOperationStateError];
    change (Z.eqb UBSM_OK UBSM_OK) with true; cbn [negb]; cbv iota; unfold wp; rewrite IpcCallInner_once; by apply (SyncCall_connected op env w).
Qed.

Lemma request_connected {A} (op : IpcOp A) env w :
  connected w ->
  wp (IpcProxy.request op) (fun c w' => appends w [entry (ClientSend op) (reply env w op)] w' /\ c = answer_code (reply env w op)) env w.
Proof.
  intros H. unfold IpcProxy.request. csteps. cuse (Ipc_connected op env w H). intros r w' (Ha & ->). csteps.
  split; [done|]. unfold IpcProxy.outcome, answer_code, BresultFail. cbn. by destruct (Z.eqb (reply env w op).1 0).
Qed.

Lemma ask_connected {A} (op : IpcOp A) env w :
  connected w ->
  wp (IpcProxy.ask op) (fun r w' => appends w [entry (ClientSend op) (reply env w op)] w' /\
    r = (if BresultFail (answer_code (reply env w op)) then inl (answer_code (reply env w op)) else inr (reply env w op).2.2)) env w.
Proof.
  intros H. unfold IpcProxy.ask. csteps. cuse (Ipc_connected op env w H). intros r w' (Ha & ->). csteps.
  split; [done|]. unfold IpcProxy.outcome, answer_code, IpcProxy.body. cbn. by destruct (Z.eqb (reply env w op).1 0).
Qed.

(** * Client library: the life cycle of the connection to the daemon.

    The operations of [IpcProxy] in any order, with any answers: which state goes with which
    connection, when requests are sent, and what the daemon has acknowledged. *)

(** ** Readings of the recorded calls, latest first *)

(** Whether the connection object is connected. *)
Definition connection_event (x : Entry) : option bool :=
  match x with
  | @entry R e a =>
      match e in Ev R return R -> option bool with
      | ClientConnect => fun a => if Z.eqb a 0 then Some true else None
      | ClientStop => fun a => if Z.eqb a 0 then Some false else None
      | _ => fun _ => None
      end a
  end.

Fixpoint connection_up (tr : list Entry) : bool :=
  match tr with
  | [] => false
  | x :: tr => match connection_event x with Some b => b | None => connection_up tr end
  end.

Definition is_send (x : Entry) : bool :=
  match x with @entry R e _ => match e with ClientSend _ => true | _ => false end end.

(** Every request went out over a connection that was up. *)
Fixpoint sends_connected (tr : list Entry) : Prop :=
  match tr with
  | [] => True
  | x :: tr => (is_send x = true -> connection_up tr = true) /\ sends_connected tr
  end.

(** The requests to suspend (true) and to resume (false), with the code each ended in. *)
Definition control_of {A} (op : IpcOp A) : option bool :=
  match op with IPC_SUSPEND_CLIENT => Some true | IPC_RESUME_CLIENT => Some false | _ => None end.

Definition control_event (x : Entry) : option (bool * Z) :=
  match x with
  | @entry R e a =>
      match e in Ev R return R -> option (bool * Z) with
      | ClientSend op => fun a => match control_of op with Some b => Some (b, answer_code a) | None => None end
      | _ => fun _ => None
      end a
  end.

Definition controls (tr : list Entry) : list (bool * Z) := omap control_event tr.

(** The daemon's last acknowledgement was one of a suspension. *)
Fixpoint acknowledged (cs : list (bool * Z)) : bool :=
  match cs with
  | [] => false
  | (b, code) :: cs => if Z.eqb code UBSM_OK then b else acknowledged cs
  end.

(** No request to suspend or resume was lost. *)
Definition none_lost (cs : list (bool * Z)) : Prop := Forall (fun c => IpcProxy.IsTransportError c.2 = false) cs.

(** ** Operations *)

Inductive LifeOp :=
  | LInitialize
  | LSuspend
  | LResume
  | LDestroy
  | LRequest {A} (op : IpcOp A).

Definition run_life (o : LifeOp) : CM Z :=
  match o with
  | LInitialize => IpcProxy.Initialize
  | LSuspend => IpcProxy.Suspend
  | LResume => IpcProxy.Resume
  | LDestroy => IpcProxy.Destroy
  | LRequest op => IpcProxy.request op
  end.

Fixpoint run_lives (os : list LifeOp) (env : ClientEnv) (w : ClientWorld) : ClientWorld :=
  match os with [] => w | o :: os => run_lives os env (run_life o env w).2 end.

(** The application's own requests are neither of the two. *)
Definition ordinary (o : LifeOp) : bool :=
  match o with LRequest op => match control_of op with Some _ => false | None => true end | _ => true end.

Definition is_destroy (o : LifeOp) : bool := match o with LDestroy => true | _ => false end.

(** ** The invariant *)

Definition link_of (s : IpcSuspendState) (l : IpcLink) : Prop :=
  match s with
  | RUNNING | FAILED_SUSPENDING | FAILED_RESUMING => l = mkLink true 1 false
  | SUSPENDED => l = mkLink false 0 false
  | UNINITIALIZED => l = mkLink false 0 false \/ l = mkLink true 1 true
  | FAILED_STOPPING => l = mkLink true 1 true
  | SUSPENDING | RESUMING | FINALIZING => False
  end.

(** What the connection's part keeps. *)
Record link_inv (w : ClientWorld) : Prop := mk_link_inv {
  li_up : connection_up (cw_trace w) = g_mxmIpcClient (cw_link w);
  li_sends : sends_connected (cw_trace w);
}.

Record life_inv (w : ClientWorld) : Prop := mk_life_inv {
  lf_link : link_of (cw_state w) (cw_link w);
  lf_inv : link_inv w;
}.

(** The outcome of a part that leaves the state and the controls. *)
Definition quiet (w w' : ClientWorld) : Prop :=
  link_inv w' /\ cw_state w' = cw_state w /\ controls (cw_trace w') = controls (cw_trace w).

Lemma quiet_refl w : link_inv w -> quiet w w.
Proof. done. Qed.

Lemma quiet_trans w w' w'' : quiet w w' -> quiet w' w'' -> quiet w w''.
Proof. intros (H1 & H2 & H3) (H4 & H5 & H6). split; [done|]. split; congruence. Qed.

(** A call that is not a request and does not change whether the connection is up. *)
Lemma quiet_log {R} (e : Ev R) a w :
  connection_event (entry e a) = None -> is_send (entry e a) = false -> control_event (entry e a) = None ->
  link_inv w -> quiet w (log_event (entry e a) w).
Proof.
  intros H1 H2 H3 [I1 I2]. split; [|split; [done|]].
  - split; cbn [log_event cw_trace cw_link connection_up sends_connected]; [by rewrite H1|]. split; [by rewrite H2|done].
  - unfold controls. cbn [log_event cw_trace omap list_omap]. by rewrite H3.
Qed.

(** What the daemon has acknowledged, state by state, as long as no request is lost. *)
Definition ack_of (s : IpcSuspendState) (acked : bool) : Prop :=
  match s with
  | RUNNING | UNINITIALIZED => acked = false
  | SUSPENDED | FAILED_STOPPING => acked = true
  | _ => False
  end.

Definition ack_inv (w : ClientWorld) : Prop :=
  none_lost (controls (cw_trace w)) -> ack_of (cw_state w) (acknowledged (controls (cw_trace w))).

(** What an operation keeps. *)
Definition keeps_life (w w' : ClientWorld) : Prop := life_inv w' /\ (ack_inv w -> ack_inv w').

Lemma link_inv_state s w : link_inv w -> link_inv (set_state s w).
Proof. by intros []. Qed.

Lemma keeps_refl w : life_inv w -> keeps_life w w.
Proof. done. Qed.

Lemma keeps_quiet w w' : quiet w w' -> link_of (cw_state w') (cw_link w') -> keeps_life w w'.
Proof. intros (HI & HS & HC) HL. split; [by split|]. unfold ack_inv. by rewrite HS, HC. Qed.

Section Lifecycle.
Context (env : ClientEnv).

(** Starting from no connection: up, or as before. *)
Lemma Start_spec w :
  link_inv w -> cw_link w = mkLink false 0 false ->
  wp Link.MxmComStartIpcClient (fun r w' => quiet w w' /\
    (r = 0%Z /\ cw_link w' = mkLink true 1 false \/ r <> 0%Z /\ cw_link w' = mkLink false 0 false)) env w.
Proof.
  intros I HL. unfold Link.MxmComStartIpcClient. csteps. rewrite HL. cbn [g_ipcClientStopping g_ipcClientCount g_mxmIpcClient].
  change (Z.ltb 0 0 && false) with false. cbv iota. csteps. apply cwp_ev. intros a1 _. csteps.
  pose proof (quiet_log SetEnv a1 w eq_refl eq_refl eq_refl I) as Q1. set (w1 := log_event (entry SetEnv a1) w) in *.
  cif; csteps. { split; [done|]. by right. }
  apply cwp_ev. intros a2 _. pose proof (quiet_trans _ _ _ Q1 (quiet_log ClientStart a2 w1 eq_refl eq_refl eq_refl (proj1 Q1))) as Q2.
  set (w2 := log_event (entry ClientStart a2) w1) in *.
  cif; csteps. { split; [done|]. right. apply negb_true_iff, Z.eqb_neq in Heqb0. done. }
  apply cwp_ev. intros a3 _. csteps. change HOK with 0%Z.
  assert (connection_up (cw_trace w2) = false) as Hdown.
  { destruct Q2 as ((H & _) & _). rewrite H. subst w2 w1. cbn. by rewrite HL. }
  destruct (Z.eqb a3 0) eqn:E3; cbn [negb]; csteps.
  - destruct Q2 as ([I1 I2] & HS & HC). split; [|left; split; [done|]; subst w2 w1; cbn; by rewrite HL].
    split; [split|split]; try done. cbn. by rewrite E3.
  - assert (quiet w (log_event (entry ClientConnect a3) w2)) as Q3.
    { eapply quiet_trans; [exact Q2|]. apply quiet_log; try done; [|by destruct Q2]. cbn. by rewrite E3. }
    apply cwp_ev. intros a4 _. csteps. split; [|right; split; [by apply Z.eqb_neq|]; subst w2 w1; cbn; by rewrite HL].
    destruct Q3 as ([I1 I2] & HS & HC). split; [split|split]; try done.
    cbn [log_event cw_trace connection_up connection_event]. destruct (Z.eqb a4 0); [|done]. subst w2 w1. cbn. by rewrite HL.
Qed.

(** Stopping a connection that is up. *)
Lemma Stop_spec w s :
  link_inv w -> cw_link w = mkLink true 1 s ->
  wp Link.MxmComStopIpcClient (fun r w' => quiet w w' /\
    (r = 0%Z /\ cw_link w' = mkLink false 0 false \/ r <> 0%Z /\ cw_link w' = mkLink true 1 true)) env w.
Proof.
  intros I HL. unfold Link.MxmComStopIpcClient. csteps. rewrite HL. cbn [g_ipcClientStopping g_ipcClientCount g_mxmIpcClient].
  change (Z.ltb 1 1) with false. change (Z.eqb 1 1) with true. cbn [negb orb]. csteps. apply cwp_ev. intros a _. csteps. change HOK with 0%Z.
  destruct I as [I1 I2]. rewrite HL in I1. cbn in I1.
  destruct (Z.eqb a 0) eqn:E; cbn [negb]; csteps.
  - apply Z.eqb_eq in E. subst a. split; [|by left]. split; [split|split]; try done.
  - split; [|right; split; [by apply Z.eqb_neq|]; cbn; by rewrite HL]. split; [split|split]; try done.
    cbn [log_event set_link cw_trace connection_up connection_event cw_link]. rewrite E, HL. done.
Qed.

(** With no connection nothing happens. *)
Lemma Stop_down w : cw_link w = mkLink false 0 false -> Link.MxmComStopIpcClient env w = (0%Z, w).
Proof. intros HL. unfold Link.MxmComStopIpcClient, mbind, cm_bind, gets. by rewrite HL. Qed.

Lemma Handler_spec w :
  link_inv w -> cw_link w = mkLink true 1 false ->
  wp Link.MxmSetPostReconnectHandler (fun r w' => quiet w w' /\ cw_link w' = cw_link w) env w.
Proof.
  intros I HL. unfold Link.MxmSetPostReconnectHandler. csteps. rewrite HL. cbn [g_ipcClientStopping g_mxmIpcClient negb orb].
  apply cwp_ev. intros a _. split; [|done]. by apply quiet_log.
Qed.

(** A request over a connection that is up; a control is recorded with its code. *)
Lemma Send_spec {A} (op : IpcOp A) w :
  link_inv w -> cw_link w = mkLink true 1 false ->
  wp (IpcProxy.SyncCall op) (fun r w' => link_inv w' /\ cw_state w' = cw_state w /\ cw_link w' = cw_link w /\
    controls (cw_trace w') = match control_of op with Some b => [(b, IpcProxy.outcome r)] | None => [] end ++ controls (cw_trace w)) env w.
Proof.
  intros [I1 I2] HL. cuse (SyncCall_connected op env w); [by rewrite HL..|]. intros r w' ([] & ->). set (a := reply env w op) in *.
  cbn in ap_trace0. rewrite HL in I1. cbn in I1.
  split; [split|]; rewrite ?ap_trace0, ?ap_link0, ?HL; cbn [connection_up connection_event sends_connected is_send]; try done.
  split; [done|]. split; [done|]. unfold controls. cbn [omap list_omap control_event].
  destruct (control_of op) as [b|]; [|done]. cbn [app]. do 2 f_equal.
  unfold IpcProxy.outcome, answer_code, BresultFail. cbn. by destruct (Z.eqb a.1 0).
Qed.

Lemma Initialize_keeps w : life_inv w -> wp IpcProxy.Initialize (fun _ w' => keeps_life w w') env w.
Proof.
  intros [HL HI]. unfold IpcProxy.Initialize. csteps. case_decide as E1; csteps; [by apply keeps_refl|].
  case_bool_decide as E2; cbn [negb]; csteps; [|by apply keeps_refl]. rewrite E2 in HL. cbn in HL.
  destruct HL as [HL|HL].
  - cuse (Start_spec w HI HL). intros r w1 (Q1 & [(-> & H1) | (Hr & H1)]); cbn [negb]; csteps; cycle 1.
    { apply Z.eqb_neq in Hr. rewrite Hr. cbn [negb]. csteps. apply keeps_quiet; [done|]. destruct Q1 as (_ & -> & _). rewrite E2, H1. by left. }
    change (Z.eqb 0 0) with true. cbn [negb]. csteps.
    cuse (Handler_spec w1 (proj1 Q1) H1). intros r2 w2 (Q2 & H2). rewrite H1 in H2. pose proof (quiet_trans _ _ _ Q1 Q2) as Q.
    destruct (Z.eqb r2 0); cbn [negb]; csteps.
    + split; [split; [done | apply link_inv_state, Q]|]. unfold ack_inv. destruct Q as (_ & _ & HC). cbn [set_state cw_state cw_trace]. by rewrite E2, HC.
    + cuse (Stop_spec w2 false (proj1 Q2) H2). intros r3 w3 (Q3 & H3). csteps. apply keeps_quiet; [by eapply quiet_trans|].
      destruct Q3 as (_ & -> & _), Q as (_ & -> & _). rewrite E2. cbn. destruct H3 as [(_ & ->) | (_ & ->)]; auto.
  - unfold wp, Link.MxmComStartIpcClient, mbind, cm_bind, gets. rewrite HL. cbn. apply keeps_refl. split; [|done]. rewrite E2. by right.
Qed.

(** A stop that ends in one of two states. *)
Lemma StopAfterSuspend_spec w s :
  link_inv w -> cw_link w = mkLink true 1 s ->
  wp IpcProxy.StopAfterSuspend (fun _ w' => life_inv w' /\ controls (cw_trace w') = controls (cw_trace w) /\
    (cw_state w' = SUSPENDED \/ cw_state w' = FAILED_STOPPING)) env w.
Proof.
  intros I HL. unfold IpcProxy.StopAfterSuspend. csteps. cuse (Stop_spec w s I HL). intros r w1 ((I1 & HS & HC) & H).
  change UBSM_OK with 0%Z. destruct H as [(-> & HL1) | (Hr & HL1)].
  - change (Z.eqb 0 0) with true. cbn [negb]. csteps. split; [|by auto]. split; [done | by apply link_inv_state].
  - apply Z.eqb_neq in Hr. rewrite Hr. cbn [negb]. csteps. split; [|by auto]. split; [done | by apply link_inv_state].
Qed.

Lemma none_lost_tail cs1 cs2 : none_lost (cs1 ++ cs2) -> none_lost cs2.
Proof. unfold none_lost. intros [_ H]%Forall_app. done. Qed.

Lemma Suspend_keeps w : life_inv w -> wp IpcProxy.Suspend (fun _ w' => keeps_life w w') env w.
Proof.
  intros [HL HI]. unfold IpcProxy.Suspend. csteps.
  assert (forall s, (s = RUNNING \/ s = FAILED_SUSPENDING) -> cw_state w = s -> cw_link w = mkLink true 1 false ->
    wp (IpcProxy.SetState SUSPENDING ;;
        ret ← IpcProxy.IpcCallSuspendInner;
        if negb (Z.eqb ret UBSM_OK) then
          IpcProxy.SetState (if bool_decide (s = RUNNING) && negb (IpcProxy.IsTransportError ret) then RUNNING else FAILED_SUSPENDING) ;; mret ret
        else IpcProxy.StopAfterSuspend) (fun _ w' => keeps_life w w') env w) as Hreq.
  { intros s Hs Hst Hlk. unfold IpcProxy.IpcCallSuspendInner. csteps.
    cuse (Send_spec IPC_SUSPEND_CLIENT (set_state SUSPENDING w)); [by apply link_inv_state | done |].
    intros r w1 (I1 & HS1 & HL1 & HC1). csteps. cbn [set_state cw_link cw_trace control_of app] in HL1, HC1. destruct (Z.eqb (IpcProxy.outcome r) UBSM_OK) eqn:E; cbn [negb].
    - cuse (StopAfterSuspend_spec w1 false I1); [congruence|]. intros _ w2 (L2 & HC2 & HS2). split; [done|].
      intros _ _. rewrite HC2, HC1. cbn [acknowledged]. rewrite E. by destruct HS2 as [-> | ->].
    - csteps. split; [split; [|by apply link_inv_state]|].
      + cbn. rewrite HL1, Hlk. by destruct (_ && _).
      + intros HA HN. unfold ack_inv in *. cbn [set_state cw_state cw_trace] in HN |- *. rewrite HC1 in HN |- *. cbn [acknowledged]. rewrite E.
        pose proof (Forall_inv HN) as Ht. cbn in Ht. rewrite Ht, andb_true_r.
        specialize (HA (Forall_inv_tail HN)). rewrite Hst in HA. destruct Hs as [-> | ->]; [|done]. rewrite bool_decide_eq_true_2 by done. done. }
  destruct (cw_state w) eqn:Est; csteps; cbn in HL; try (by apply keeps_refl; split; rewrite ?Est); try (by apply Hreq; auto).
  all: rewrite ?(bool_decide_eq_true_2 (FAILED_STOPPING = FAILED_STOPPING)) by done; cbn [negb].
  all: try (rewrite bool_decide_eq_false_2 by done; cbn [negb]; apply Hreq; auto).
  - cuse (StopAfterSuspend_spec (set_state SUSPENDING w) true); [by apply link_inv_state | done |].
    intros _ w1 (L1 & HC1 & HS1). split; [done|]. unfold ack_inv. rewrite Est, HC1. cbn. intros HA HN. specialize (HA HN).
    by destruct HS1 as [-> | ->].
Qed.

(** The connection is up again, or the state says that it is not. *)
Definition ready_or_down (w w' : ClientWorld) (r : Z) : Prop :=
  link_inv w' /\ controls (cw_trace w') = controls (cw_trace w) /\
  (r = 0%Z /\ cw_link w' = mkLink true 1 false \/
   r <> 0%Z /\ life_inv w' /\ (cw_state w' = SUSPENDED \/ cw_state w' = FAILED_STOPPING)).

Lemma RestartClient_spec w :
  link_inv w -> cw_link w = mkLink false 0 false -> wp IpcProxy.RestartClient (fun r w' => ready_or_down w w' r) env w.
Proof.
  intros I HL. unfold IpcProxy.RestartClient. csteps. cuse (Start_spec w I HL). intros r w1 (Q1 & H1). change UBSM_OK with 0%Z.
  destruct H1 as [(-> & HL1) | (Hr & HL1)]; cycle 1.
  { apply Z.eqb_neq in Hr. rewrite Hr. cbn [negb]. csteps. destruct Q1 as (I1 & _ & HC1). split; [by apply link_inv_state|]. split; [done|].
    right. split; [done|]. split; [|by left]. split; [done | by apply link_inv_state]. }
  change (Z.eqb 0 0) with true. cbn [negb]. csteps. cuse (Handler_spec w1 (proj1 Q1) HL1). intros r2 w2 (Q2 & HL2). rewrite HL1 in HL2.
  destruct (quiet_trans _ _ _ Q1 Q2) as (I2 & _ & HC2). destruct (Z.eqb r2 0); cbn [negb]; csteps.
  { split; [done|]. split; [done|]. by left. }
  cuse (Stop_spec w2 false I2 HL2). intros r3 w3 ((I3 & _ & HC3) & H3). csteps. split; [by apply link_inv_state|].
  split; [cbn [set_state cw_trace]; congruence|]. right. split; [done|]. change UBSM_OK with 0%Z.
  destruct H3 as [(-> & HL3) | (Hr3 & HL3)].
  - change (Z.eqb 0 0) with true. split; [|by left]. split; [done | by apply link_inv_state].
  - apply Z.eqb_neq in Hr3. rewrite Hr3. split; [|by right]. split; [done | by apply link_inv_state].
Qed.

Lemma EnsureResumeClientReady_spec s w :
  link_inv w -> link_of s (cw_link w) -> s = SUSPENDED \/ s = FAILED_SUSPENDING \/ s = FAILED_STOPPING \/ s = FAILED_RESUMING ->
  wp (IpcProxy.EnsureResumeClientReady s) (fun r w' => ready_or_down w w' r /\ (r <> 0%Z -> s = SUSPENDED \/ s = FAILED_STOPPING)) env w.
Proof.
  intros I HL Hs. unfold IpcProxy.EnsureResumeClientReady. destruct Hs as [-> | [-> | [-> | ->]]]; cbn in HL.
  - rewrite !bool_decide_eq_false_2 by done. cbn [orb]. cuse (RestartClient_spec w I HL). auto.
  - rewrite bool_decide_eq_true_2 by done. cbn [orb]. csteps. split; [|done]. split; [done|]. split; [done|]. by left.
  - rewrite !bool_decide_eq_false_2, bool_decide_eq_true_2 by done. cbn [orb]. csteps. cuse (Stop_spec w true I HL).
    intros r w1 (Q1 & H1). change UBSM_OK with 0%Z. destruct H1 as [(-> & HL1) | (Hr & HL1)].
    + change (Z.eqb 0 0) with true. cbn [negb]. cuse (RestartClient_spec w1 (proj1 Q1) HL1). intros r w2 (I2 & HC2 & H2).
      split; [|by auto]. split; [done|]. split; [|done]. destruct Q1 as (_ & _ & HC1). congruence.
    + apply Z.eqb_neq in Hr. rewrite Hr. cbn [negb]. csteps. split; [|by auto]. destruct Q1 as (I1 & _ & HC1).
      split; [by apply link_inv_state|]. split; [done|]. right. split; [done|]. split; [|by right]. split; [done | by apply link_inv_state].
  - rewrite bool_decide_eq_false_2, bool_decide_eq_true_2 by done. cbn [orb]. csteps. split; [|done]. split; [done|]. split; [done|]. by left.
Qed.

(** The state after the daemon's answer to a request to resume. *)
Definition resume_state (s : IpcSuspendState) (ret : Z) (s' : IpcSuspendState) : Prop :=
  if Z.eqb ret UBSM_OK then s' = RUNNING
  else if IpcProxy.IsTransportError ret then s' = FAILED_RESUMING
  else if bool_decide (s = FAILED_SUSPENDING) then s' = FAILED_SUSPENDING
  else s' = SUSPENDED \/ s' = FAILED_STOPPING.

Lemma HandleResumeResult_spec s ret w :
  link_inv w -> cw_link w = mkLink true 1 false ->
  wp (IpcProxy.HandleResumeResult s ret) (fun r w' => r = ret /\ life_inv w' /\ controls (cw_trace w') = controls (cw_trace w) /\
    resume_state s ret (cw_state w')) env w.
Proof.
  intros I HL. unfold IpcProxy.HandleResumeResult, resume_state. destruct (Z.eqb ret UBSM_OK) eqn:E1.
  { apply Z.eqb_eq in E1. subst. csteps. split; [done|]. split; [|done]. split; [done | by apply link_inv_state]. }
  destruct (IpcProxy.IsTransportError ret) eqn:E2; cbn [negb andb].
  { csteps. split; [done|]. split; [|done]. split; [done | by apply link_inv_state]. }
  case_bool_decide as E3; cbn [negb].
  { csteps. split; [done|]. split; [|done]. split; [done | by apply link_inv_state]. }
  csteps. cuse (Stop_spec w false I HL). intros r w1 ((I1 & _ & HC1) & H1). change UBSM_OK with 0%Z.
  destruct H1 as [(-> & HL1) | (Hr & HL1)].
  - change (Z.eqb 0 0) with true. cbn [negb]. csteps. split; [done|]. split; [|by auto]. split; [done | by apply link_inv_state].
  - apply Z.eqb_neq in Hr. rewrite Hr. cbn [negb]. csteps. split; [done|]. split; [|by auto]. split; [done | by apply link_inv_state].
Qed.

Lemma Resume_keeps w : life_inv w -> wp IpcProxy.Resume (fun _ w' => keeps_life w w') env w.
Proof.
  intros [HL HI]. unfold IpcProxy.Resume, IpcProxy.EnterResumingState. csteps.
  assert (forall s, cw_state w = s -> s = SUSPENDED \/ s = FAILED_SUSPENDING \/ s = FAILED_STOPPING \/ s = FAILED_RESUMING ->
    wp (ret ← IpcProxy.EnsureResumeClientReady s;
        if negb (Z.eqb ret UBSM_OK) then mret ret else ret ← IpcProxy.IpcCallResumeInner; IpcProxy.HandleResumeResult s ret)
       (fun _ w' => keeps_life w w') env (set_state RESUMING w)) as Hres.
  { intros s Hst Hs. csteps. cuse (EnsureResumeClientReady_spec s (set_state RESUMING w)); [by apply link_inv_state | by rewrite <- Hst | done |].
    intros r w1 ((I1 & HC1 & H1) & Hdown). cbn [set_state cw_trace] in HC1. change UBSM_OK with 0%Z. destruct H1 as [(-> & HL1) | (Hr & L1 & HS1)]; cycle 1.
    { pose proof (Hdown Hr) as Hd. apply Z.eqb_neq in Hr. rewrite Hr. cbn [negb]. csteps. split; [done|]. unfold ack_inv. rewrite HC1, Hst.
      intros HA HN. specialize (HA HN). destruct Hd as [-> | ->], HS1 as [-> | ->]; done. }
    change (Z.eqb 0 0) with true. cbn [negb]. unfold IpcProxy.IpcCallResumeInner. csteps.
    cuse (Send_spec IPC_RESUME_CLIENT w1 I1 HL1). intros a w2 (I2 & _ & HL2 & HC2). csteps. rewrite HL1 in HL2.
    cuse (HandleResumeResult_spec s (IpcProxy.outcome a) w2 I2 HL2). intros r w3 (_ & L3 & HC3 & HS3). split; [done|].
    unfold ack_inv. rewrite HC3, HC2. cbn [control_of app acknowledged]. intros HA HN. unfold resume_state in HS3.
    pose proof (Forall_inv HN) as Ht. pose proof (Forall_inv_tail HN) as HN'. rewrite HC1 in HN' |- *. specialize (HA HN'). rewrite Hst in HA.
    destruct (Z.eqb (IpcProxy.outcome a) UBSM_OK); [by rewrite HS3|]. cbn in Ht. rewrite Ht in HS3.
    case_bool_decide; [subst s; by rewrite H in HA|]. destruct Hs as [-> | [-> | [-> | ->]]]; try done; by destruct HS3 as [-> | ->]. }
  destruct (cw_state w) eqn:Est; cbn in HL; csteps; try done.
  all: try (rewrite bool_decide_eq_false_2 by done; change (Z.eqb UBSM_OK UBSM_OK) with true; cbn [negb orb]; apply Hres; by auto).
  all: try (rewrite bool_decide_eq_true_2 by done; change (Z.eqb UBSM_OK UBSM_OK) with true; cbn [negb orb]; csteps; apply keeps_refl; by split; rewrite ?Est).
  change (Z.eqb MXM_ERR_MEMLIB UBSM_OK) with false. cbn [negb orb]. csteps. apply keeps_refl. by split; rewrite ?Est.
Qed.

Lemma Destroy_life w : life_inv w -> wp IpcProxy.Destroy (fun _ w' => life_inv w') env w.
Proof.
  intros [HL HI]. unfold IpcProxy.Destroy. csteps.
  assert (forall s, cw_link w = mkLink true 1 s ->
    wp (ret ← Link.MxmComStopIpcClient;
        IpcProxy.SetState (if Z.eqb ret UBSM_OK then UNINITIALIZED else FAILED_STOPPING) ;;
        mret (if Z.eqb ret UBSM_OK then UBSM_OK else MXM_ERR_MEMLIB)) (fun _ w' => life_inv w') env (set_state FINALIZING w)) as Hup.
  { intros s Hlk. csteps. cuse (Stop_spec (set_state FINALIZING w) s); [by apply link_inv_state | done |]. intros r w1 ((I1 & _ & _) & H1).
    csteps. change UBSM_OK with 0%Z. destruct H1 as [(-> & HL1) | (Hr & HL1)].
    - change (Z.eqb 0 0) with true. split; [by left | by apply link_inv_state].
    - apply Z.eqb_neq in Hr. rewrite Hr. split; [done | by apply link_inv_state]. }
  destruct (cw_state w) eqn:Est; cbn in HL; try done;
    try (apply cwp_bind, cwp_modify; by eapply Hup); try (csteps; by split; rewrite ?Est).
  apply cwp_bind, cwp_modify, cwp_bind. unfold wp. rewrite Stop_down by done. destruct HI. split; [by left | by split].
Qed.

Lemma Request_keeps {A} (op : IpcOp A) w :
  life_inv w -> wp (IpcProxy.request op) (fun _ w' => life_inv w' /\ (control_of op = None -> ack_inv w -> ack_inv w')) env w.
Proof.
  intros L. unfold IpcProxy.request, IpcProxy.Ipc, IpcProxy.RunOperation. csteps. destruct L as [HL HI].
  destruct (negb (Z.eqb (IpcProxy.GetOperationStateError (cw_state w)) UBSM_OK)) eqn:E; csteps; [by split; [split|]|].
  unfold wp. rewrite IpcCallInner_once. destruct (cw_state w) eqn:Est; cbn in E, HL; try done.
  1: destruct HL as [HL | HL]; [|].
  1,2: rewrite SyncCall_down by (by rewrite HL); cbn; split; [split; [rewrite Est; cbn; by auto|done]|done].
  pose proof (Send_spec op w HI HL) as H. unfold wp in H. destruct (IpcProxy.SyncCall op env w) as [r w1]. cbn in H |- *.
  destruct H as (I1 & HS1 & HL1 & HC1). split; [split; [rewrite HS1, Est, HL1; done | done]|]. intros Hc. rewrite Hc in HC1. unfold ack_inv. by rewrite HS1, HC1.
Qed.

End Lifecycle.
