(* ===== verification/ClientThreads.v ===== *)
(** Client library: threads that start, use and stop the one connection.

    [src/src/communication/ipc/client/mxm_ipc_client_interface.cpp] keeps the client object in
    globals under a mutex, which it releases while it sends and while it stops the object.
    A section under the mutex is one step; so is what happens to the object outside of it.
    The objects are numbered; [alive] are those that are not deleted. *)

From S2P Require Import Prelude.

(** Where a thread is: outside; past the wait for another stop, waiting for the active
    sends; in [client->Stop()]; before [delete client]; in [client->Send()]. *)
Inductive Pc :=
  | Idle
  | Draining
  | Stopping (c : nat)
  | Deleting (c : nat)
  | Sending (c : nat).

Record Shared := mkShared {
  client : option nat;
  clientCount : nat;
  activeIpcSends : nat;
  clientStopping : bool;
  clientStopInProgress : bool;
  alive : gset nat;
  next_object : nat;
}.

Record System := mkSystem { shared : Shared; threads : list Pc }.

(** One step of a thread at a place, with the new place. Where the calls on the object can
    fail or succeed there is a rule for each. *)
Inductive step1 : Shared -> Pc -> Shared -> Pc -> Prop :=
  (** [MxmComStartIpcClient] *)
  | Start_refused s : clientStopping s = true -> step1 s Idle s Idle
  | Start_shared s c :
      clientStopping s = false -> 0 < clientCount s -> client s = Some c ->
      step1 s Idle (mkShared (client s) (S (clientCount s)) (activeIpcSends s) (clientStopping s) (clientStopInProgress s) (alive s) (next_object s)) Idle
  | Start_failed s :
      clientStopping s = false -> clientCount s = 0 \/ client s = None ->
      step1 s Idle (mkShared (client s) (clientCount s) (activeIpcSends s) (clientStopping s) (clientStopInProgress s) (alive s) (S (next_object s))) Idle
  | Start_done s :
      clientStopping s = false -> clientCount s = 0 \/ client s = None ->
      step1 s Idle (mkShared (Some (next_object s)) (S (clientCount s)) (activeIpcSends s) (clientStopping s) (clientStopInProgress s)
                      ({[next_object s]} ∪ alive s) (S (next_object s))) Idle
  (** [MxmComStopIpcClient] *)
  | Stop_shared s :
      clientStopInProgress s = false -> 1 < clientCount s ->
      step1 s Idle (mkShared (client s) (clientCount s - 1) (activeIpcSends s) (clientStopping s) (clientStopInProgress s) (alive s) (next_object s)) Idle
  | Stop_nothing s :
      clientStopInProgress s = false -> clientCount s <= 1 -> client s = None \/ clientCount s <> 1 -> step1 s Idle s Idle
  | Stop_begin s c :
      clientStopInProgress s = false -> clientCount s = 1 -> client s = Some c ->
      step1 s Idle (mkShared (client s) (clientCount s) (activeIpcSends s) true true (alive s) (next_object s)) Draining
  | Stop_drained s c : activeIpcSends s = 0 -> client s = Some c -> step1 s Draining s (Stopping c)
  | Stop_failed s c :
      step1 s (Stopping c) (mkShared (client s) (clientCount s) (activeIpcSends s) (clientStopping s) false (alive s) (next_object s)) Idle
  | Stop_done s c :
      step1 s (Stopping c) (mkShared None 0 (activeIpcSends s) false false (alive s) (next_object s)) (Deleting c)
  | Stop_delete s c :
      step1 s (Deleting c) (mkShared (client s) (clientCount s) (activeIpcSends s) (clientStopping s) (clientStopInProgress s)
                              (alive s ∖ {[c]}) (next_object s)) Idle
  (** [MxmComIpcClientSend] and [MxmSetPostReconnectHandler] *)
  | Send_refused s : client s = None \/ clientStopping s = true -> step1 s Idle s Idle
  | Send_begin s c :
      client s = Some c -> clientStopping s = false ->
      step1 s Idle (mkShared (client s) (clientCount s) (S (activeIpcSends s)) (clientStopping s) (clientStopInProgress s) (alive s) (next_object s)) (Sending c)
  | Send_end s c :
      step1 s (Sending c) (mkShared (client s) (clientCount s) (activeIpcSends s - 1) (clientStopping s) (clientStopInProgress s) (alive s) (next_object s)) Idle
  | Handler_set s c : client s = Some c -> clientStopping s = false -> step1 s Idle s Idle.

(** Any thread takes a step. *)
Inductive step : System -> System -> Prop :=
  | step_at s ts i p s' p' : ts !! i = Some p -> step1 s p s' p' -> step (mkSystem s ts) (mkSystem s' (<[i := p']> ts)).

(** No client, any number of threads outside. *)
Definition initial (n : nat) : System := mkSystem (mkShared None 0 0 false false ∅ 0) (replicate n Idle).

Definition reachable (n : nat) (x : System) : Prop := rtc step (initial n) x.

(** ** The invariant *)

Definition is_sending (p : Pc) : bool := match p with Sending _ => true | _ => false end.

(** Waiting for the sends, or in the object's [Stop]. *)
Definition is_stopping (p : Pc) : bool := match p with Draining | Stopping _ => true | _ => false end.

Definition count (f : Pc -> bool) (ts : list Pc) : nat := list_sum ((fun p => Nat.b2n (f p)) <$> ts).

(** Where a thread may be, given the globals. *)
Definition place_ok (s : Shared) (p : Pc) : Prop :=
  match p with
  | Idle => True
  | Draining => clientStopping s = true /\ clientStopInProgress s = true /\ is_Some (client s)
  | Stopping c => clientStopping s = true /\ clientStopInProgress s = true /\ client s = Some c /\ activeIpcSends s = 0
  | Deleting c => client s <> Some c /\ c ∈ alive s
  | Sending c => client s = Some c
  end.

Record sys_inv (x : System) : Prop := mk_sys_inv {
  si_sends : activeIpcSends (shared x) = count is_sending (threads x);
  si_stops : Nat.b2n (clientStopInProgress (shared x)) = count is_stopping (threads x);
  si_places : forall i p, threads x !! i = Some p -> place_ok (shared x) p;
  si_deleting : forall i j c, threads x !! i = Some (Deleting c) -> threads x !! j = Some (Deleting c) -> i = j;
  si_client : forall c, client (shared x) = Some c -> c ∈ alive (shared x);
  si_none : client (shared x) = None -> clientCount (shared x) = 0;
  si_some : is_Some (client (shared x)) -> 0 < clientCount (shared x);
  si_fresh : forall c, c ∈ alive (shared x) -> c < next_object (shared x);
}.

(** ** Counting threads *)

Lemma count_insert f ts i p p' :
  ts !! i = Some p -> count f (<[i := p']> ts) + Nat.b2n (f p) = count f ts + Nat.b2n (f p').
Proof.
  unfold count. revert i. induction ts as [|q ts IH]; intros [|i] H; simplify_eq/=; [lia|]. specialize (IH _ H). lia.
Qed.

Lemma count_zero f ts i p : count f ts = 0 -> ts !! i = Some p -> f p = false.
Proof.
  unfold count. revert i. induction ts as [|q ts IH]; intros [|i] H0 H; simplify_eq/=; [by destruct (f p)|].
  apply (IH i); [lia|done].
Qed.

Lemma count_one f ts i j p q :
  count f ts <= 1 -> ts !! i = Some p -> ts !! j = Some q -> f p = true -> f q = true -> i = j.
Proof.
  unfold count. revert i j. induction ts as [|r ts IH]; intros [|i] [|j] H0 Hi Hj Hp Hq; simplify_eq/=; try done.
  - rewrite Hp in H0. cbn in H0. pose proof (count_zero f ts j q) as Hz. rewrite Hq in Hz. unfold count in Hz. discriminate Hz; [lia|done].
  - rewrite Hq in H0. cbn in H0. pose proof (count_zero f ts i p) as Hz. rewrite Hp in Hz. unfold count in Hz. discriminate Hz; [lia|done].
  - f_equal. apply (IH i j); try done. lia.
Qed.

Lemma count_replicate f n : f Idle = false -> count f (replicate n Idle) = 0.
Proof. unfold count. intros H. induction n as [|n IH]; [done|]. cbn. rewrite H. cbn. exact IH. Qed.

Lemma initial_inv n : sys_inv (initial n).
Proof.
  split; cbn [initial shared threads activeIpcSends clientStopInProgress client alive clientCount next_object]; try done.
  - by rewrite count_replicate.
  - by rewrite count_replicate.
  - intros i p [-> _]%lookup_replicate. done.
  - intros i j c [? _]%lookup_replicate. done.
Qed.

(** ** Steps *)

(** The threads after a step: the moved one is at its new place, the others where they were. *)
Lemma places_insert (P : Pc -> Prop) (ts : list Pc) (i : nat) p' :
  (forall (j : nat) p, j <> i -> ts !! j = Some p -> P p) -> P p' -> forall (j : nat) p, <[i := p']> ts !! j = Some p -> P p.
Proof.
  intros Ho Hp j p Hj. destruct (decide (j = i)) as [->|Hne]; [|rewrite list_lookup_insert_ne in Hj by done; by eapply Ho].
  apply list_lookup_insert_Some in Hj as [(_ & <- & _)|[]]; done.
Qed.

Lemma deleting_insert (ts : list Pc) (i : nat) p p' :
  ts !! i = Some p -> (forall (j k : nat) c, ts !! j = Some (Deleting c) -> ts !! k = Some (Deleting c) -> j = k) ->
  (forall c, p' = Deleting c -> forall j : nat, ts !! j <> Some (Deleting c)) ->
  forall (j k : nat) c, <[i := p']> ts !! j = Some (Deleting c) -> <[i := p']> ts !! k = Some (Deleting c) -> j = k.
Proof.
  intros Hi HD Hn j k c Hj Hk.
  apply list_lookup_insert_Some in Hj as [(<- & Hp & _)|[Hj1 Hj]];
    apply list_lookup_insert_Some in Hk as [(<- & Hp' & _)|[Hk1 Hk]]; subst; try done.
  - by destruct (Hn c eq_refl k).
  - by destruct (Hn c eq_refl j).
  - by eapply HD.
Qed.

(** One thread's step keeps the invariant: what it must do to the counts, to the places of the
    others, and to the objects. *)
Lemma inv_step s ts i p s' p' :
  sys_inv (mkSystem s ts) -> ts !! i = Some p ->
  activeIpcSends s' + Nat.b2n (is_sending p) = activeIpcSends s + Nat.b2n (is_sending p') ->
  Nat.b2n (clientStopInProgress s') + Nat.b2n (is_stopping p) = Nat.b2n (clientStopInProgress s) + Nat.b2n (is_stopping p') ->
  (forall j q, j <> i -> ts !! j = Some q -> place_ok s q -> place_ok s' q) -> place_ok s' p' ->
  (forall c, p' = Deleting c -> client s = Some c) ->
  (forall c, client s' = Some c -> c ∈ alive s') -> (client s' = None -> clientCount s' = 0) ->
  (is_Some (client s') -> 0 < clientCount s') -> (forall c, c ∈ alive s' -> c < next_object s') ->
  sys_inv (mkSystem s' (<[i := p']> ts)).
Proof.
  intros [I1 I2 I3 I4 I5 I6 I7 I8] Hi HA HS HO HP HD H5 H6 H7 H8. cbn [shared threads] in *.
  split; cbn [shared threads]; try done.
  - pose proof (count_insert is_sending ts i p p' Hi). lia.
  - pose proof (count_insert is_stopping ts i p p' Hi). lia.
  - apply places_insert; [|done]. intros j q Hj Hq. by eapply HO, I3.
  - eapply deleting_insert; [done | exact I4 |]. intros c -> j Hj. apply I3 in Hj as [Hj _]. by apply Hj, HD.
Qed.

(** Only one thread at a time is past the first wait of a stop. *)
Lemma not_other_stopper s ts i j p q :
  Nat.b2n (clientStopInProgress s) = count is_stopping ts -> j <> i ->
  ts !! i = Some p -> is_stopping p = true -> ts !! j = Some q -> is_stopping q = false.
Proof.
  intros HC Hne Hi Hp Hj. destruct (is_stopping q) eqn:E; [|done]. destruct Hne.
  eapply count_one; [|exact Hj|exact Hi|exact E|exact Hp]. rewrite <- HC. by destruct (clientStopInProgress s); cbn; lia.
Qed.

Ltac system_step Hi HI :=
  eapply (inv_step _ _ _ _ _ _ HI Hi); cbn [activeIpcSends clientStopInProgress client alive clientCount next_object clientStopping is_sending is_stopping Nat.b2n place_ok];
  try done; try lia.

Lemma step_inv x y : sys_inv x -> step x y -> sys_inv y.
Proof.
  intros HI Hst. destruct Hst as [s ts i p s' p' Hi H1]. pose proof HI as [I1 I2 I3 I4 I5 I6 I7 I8]. cbn [shared threads] in *.
  pose proof (I3 _ _ Hi) as Hp.
  destruct H1 as [s Hs|s c Hs Hc Hcl|s Hs Hc|s Hs Hc|s Hs Hc|s Hs Hc Hcl|s c Hs Hc Hcl|s c Ha Hcl|s c|s c|s c|s Hs|s c Hcl Hs|s c|s c Hcl Hs];
    cbn [place_ok] in Hp.
  all: try (by system_step Hi HI; auto with lia).
  - (* Start_shared *) system_step Hi HI; auto with lia. congruence.
  - (* Start_failed *) system_step Hi HI; auto. intros c Hin. specialize (I8 c Hin). lia.
  - (* Start_done *) assert (client s = None) as Hn.
    { destruct (client s) eqn:E; [|done]. destruct Hc as [Hc|]; [|done]. specialize (I7 ltac:(done)). lia. }
    clear Hc. system_step Hi HI.
    + intros j q _ Hj. destruct q; cbn [place_ok client alive clientStopping clientStopInProgress activeIpcSends]; rewrite ?Hn;
        [done | intros (_ & _ & [? ?]); done | intros (_ & _ & ? & _); done | | done]. intros [_ Hin]. specialize (I8 _ Hin). split; [intros [= ?]; lia | set_solver].
    + intros c [= <-]. set_solver.
    + intros c Hin. apply elem_of_union in Hin as [Hin|Hin]; [apply elem_of_singleton in Hin; lia|]. specialize (I8 _ Hin). lia.
  - (* Stop_shared *) system_step Hi HI; auto. intros Hn. specialize (I6 Hn). lia.
  - (* Stop_begin *) rewrite Hs in I2. cbn in I2. system_step Hi HI; auto.
    + rewrite Hs. done.
    + intros j q _ Hj. pose proof (count_zero is_stopping ts j q (eq_sym I2) Hj). by destruct q.
  - (* Stop_drained *) system_step Hi HI; auto. by destruct Hp as (? & ? & _).
  - (* Stop_failed *) destruct Hp as (H1 & H2 & H3 & H4). system_step Hi HI; auto.
    + rewrite H2. done.
    + intros j q Hne Hj. assert (is_stopping q = false) as Hq by (by eapply not_other_stopper). by destruct q.
  - (* Stop_done *) destruct Hp as (H1 & H2 & H3 & H4). system_step Hi HI; auto.
    + rewrite H2. done.
    + intros j q Hne Hj. assert (is_stopping q = false) as Hq by (by eapply not_other_stopper).
      assert (is_sending q = false) as Hq2 by (eapply count_zero; [|exact Hj]; congruence). destruct q; cbn; try done. by intros [].
    + by intros c' [= <-].
  - (* Stop_delete *) destruct Hp as (H1 & H2). system_step Hi HI; auto.
    + intros j [] Hne Hj; cbn; try done. intros [Hc Hin]. split; [done|]. assert (c0 <> c) by (intros ->; apply Hne; by eapply I4). set_solver.
    + intros c' Hc'. pose proof (I5 c' Hc'). assert (c' <> c) by congruence. set_solver.
    + intros c' [Hin _]%elem_of_difference. auto.
  - (* Send_begin *) system_step Hi HI; auto. intros j [] _ Hj; cbn; try done. intros (H & _). congruence.
  - (* Send_end *) assert (activeIpcSends s <> 0) as Hne.
    { intros H0. rewrite I1 in H0. pose proof (count_zero is_sending ts i _ H0 Hi). done. }
    system_step Hi HI; auto. intros j [] _ Hj; cbn; try done. intros (? & ? & ? & ?). lia.
Qed.

Lemma rtc_inv x y : rtc step x y -> sys_inv x -> sys_inv y.
Proof. induction 1; eauto using step_inv. Qed.

Lemma reachable_sys_inv n x : reachable n x -> sys_inv x.
Proof. intros H. by eapply rtc_inv, initial_inv. Qed.

(** ** Progress *)

Lemma count_exists f ts : count f ts <> 0 -> exists i p, ts !! i = Some p /\ f p = true.
Proof.
  unfold count. induction ts as [|q ts IH]; cbn; [done|]. intros H. destruct (f q) eqn:E; [by exists 0, q|].
  destruct IH as (i & p & Hi & Hp); [done|]. by exists (S i), p.
Qed.

(** The active sends end one after the other, and the waiting thread goes on. *)
Lemma drains n x i c :
  sys_inv x -> activeIpcSends (shared x) = n -> threads x !! i = Some Draining -> client (shared x) = Some c ->
  exists y, rtc step x y /\ threads y !! i = Some (Stopping c).
Proof.
  revert x. induction n as [|n IH]; intros [s ts] HI Ha Hi Hc; cbn [shared threads] in *.
  - exists (mkSystem s (<[i := Stopping c]> ts)). split; [|apply list_lookup_insert_eq; by apply lookup_lt_Some in Hi].
    apply rtc_once, step_at with (p := Draining); [done | by apply Stop_drained].
  - destruct (count_exists is_sending ts) as (j & p & Hj & Hp).
    { pose proof (si_sends _ HI) as H. cbn [shared threads] in H. lia. }
    destruct p as [| | | |d]; try done. assert (j <> i) as Hne by congruence.
    pose proof (step_at s ts j _ _ _ Hj (Send_end s d)) as Hst. pose proof (step_inv _ _ HI Hst) as HI'.
    destruct (IH _ HI') as (y & Hy & Hyi); cbn [shared threads activeIpcSends client]; [lia | by rewrite list_lookup_insert_ne | done |].
    exists y. split; [by eapply rtc_l | done].
Qed.
