(* ===== verification/ClientShmInv.v ===== *)
(** Client library: the tables of mapped shared memory and what keeps them in step.

    The ranges of the third table are disjoint and sorted, so that the search for an overlap
    by [upper_bound] finds one exactly if there is one; the three tables describe the same
    mappings; the segments of each entry cover its mapping. *)

From S2P Require Import Prelude RegionTypes Client ClientTables ClientIpc ClientShm ClientWp.

Import ShmTables.

(** ** Ranges *)

Definition before (x y : Z * Z) : Prop := (x.2 <= y.1)%Z.

Definition ranges_ok (l : list (Z * Z)) : Prop := Forall (fun x => (x.1 < x.2)%Z) l /\ StronglySorted before l.

(** The reference: a known range and [[start, en)] have an address in common. *)
Definition overlaps (start en : Z) (x : Z * Z) : Prop := (start < x.2 /\ x.1 < en)%Z.

Definition free_range (t : ShmMetaDataMgr) (start en : Z) : Prop := forall x, x ∈ mMappedMemoryAddress t -> ~ overlaps start en x.

Lemma ranges_ok_cons x l : ranges_ok (x :: l) <-> (x.1 < x.2)%Z /\ Forall (before x) l /\ ranges_ok l.
Proof.
  unfold ranges_ok. rewrite Forall_cons. split.
  - intros [[H1 H2] H3]. apply StronglySorted_inv in H3 as [H3 H4]. done.
  - intros (H1 & H2 & H3 & H4). split; [done|]. by constructor.
Qed.

Definition hit (start en : Z) (x : option (Z * Z)) : bool :=
  match x with Some (s, e) => Z.ltb start e && Z.ltb s en | None => false end.

Lemma hit_overlaps start en x : hit start en (Some x) = true <-> overlaps start en x.
Proof. destruct x as [s e]. unfold hit, overlaps. cbn. rewrite andb_true_iff, !Z.ltb_lt. done. Qed.

(** Looking at the neighbours of [start] is enough. *)
Lemma around_exact start en l prev :
  (start < en)%Z -> ranges_ok l -> (forall x, prev = Some x -> (x.1 <= start)%Z /\ Forall (before x) l) ->
  hit start en (around start prev l).1 || hit start en (around start prev l).2 = true <->
  hit start en prev = true \/ exists x, x ∈ l /\ overlaps start en x.
Proof.
  intros Hse. revert prev. induction l as [|x l IH]; intros prev Hok Hprev; cbn [around].
  - cbn. rewrite orb_false_r. split; [by left|]. intros [H|(x & Hx & _)]; [done|]. by apply elem_of_nil in Hx.
  - apply ranges_ok_cons in Hok as (Hx & Hb & Hok). destruct (Z.ltb start x.1) eqn:E; cbn [fst snd].
    + apply Z.ltb_lt in E. rewrite orb_true_iff. split.
      * intros [H|H]; [by left|]. right. exists x. split; [set_solver|]. by apply hit_overlaps.
      * intros [H|(y & Hy & Ho)]; [by left|]. right. apply hit_overlaps. unfold overlaps in *.
        apply elem_of_cons in Hy as [->|Hy]; [done|]. rewrite Forall_forall in Hb. specialize (Hb y Hy). unfold before in Hb. lia.
    + apply Z.ltb_ge in E. rewrite (IH (Some x)); [|done|intros ? [= <-]; done]. rewrite hit_overlaps. split.
      * intros [H|(y & Hy & Ho)]; right; [exists x | exists y]; set_solver.
      * intros [H|(y & Hy & Ho)].
        -- destruct prev as [p|]; [|done]. apply hit_overlaps in H. destruct (Hprev p eq_refl) as [Hp1 Hp2].
           apply Forall_cons in Hp2 as [Hp2 _]. unfold before, overlaps in *. lia.
        -- apply elem_of_cons in Hy as [->|Hy]; [by left|]. right. by exists y.
Qed.

Lemma overlap_exact start en t :
  ranges_ok (mMappedMemoryAddress t) -> (start < en)%Z ->
  HasOverlapWithKnownVmas start en t = true <-> exists x, x ∈ mMappedMemoryAddress t /\ overlaps start en x.
Proof.
  intros Hok Hse. unfold HasOverlapWithKnownVmas. pose proof (around_exact start en (mMappedMemoryAddress t) None Hse Hok) as H.
  destruct (mMappedMemoryAddress t) as [|x l]; [split; [done|intros (x & Hx & _); by apply elem_of_nil in Hx]|].
  destruct (around start None (x :: l)) as [p q] eqn:E. cbn [fst snd] in H. unfold hit in H at 1 2.
  rewrite H by done. split; [intros [?|?]; done | by right].
Qed.

Lemma overlap_free start en t :
  ranges_ok (mMappedMemoryAddress t) -> (start < en)%Z -> HasOverlapWithKnownVmas start en t = false -> free_range t start en.
Proof.
  intros Hok Hse HF x Hx Ho. assert (HasOverlapWithKnownVmas start en t = true) by (apply overlap_exact; eauto). congruence.
Qed.

(** ** [std::map] *)

Lemma map_insert_elem k v l x : x ∈ map_insert k v l -> x = (k, v) \/ x ∈ l.
Proof.
  induction l as [|[k' v'] l IH]; cbn; [set_solver|]. destruct (Z.eqb k k'); [set_solver|]. destruct (Z.ltb k k'); set_solver.
Qed.

Lemma map_insert_in k v l : (k, v) ∈ map_insert k v l.
Proof. induction l as [|[k' v'] l IH]; cbn; [set_solver|]. destruct (Z.eqb k k'); [set_solver|]. destruct (Z.ltb k k'); set_solver. Qed.

Lemma map_insert_old k v l x : (forall y, y ∈ l -> y.1 <> k) -> x ∈ l -> x ∈ map_insert k v l.
Proof.
  induction l as [|[k' v'] l IH]; cbn; [set_solver|]. intros Hk Hx. destruct (Z.eqb k k') eqn:E.
  { apply Z.eqb_eq in E. destruct (Hk (k', v')); [set_solver | done]. }
  destruct (Z.ltb k k'); [set_solver|]. apply elem_of_cons in Hx as [->|Hx]; [set_solver|]. apply elem_of_cons. right. apply IH; set_solver.
Qed.

(** A range that is free goes in between. *)
Lemma map_insert_ok k v l : ranges_ok l -> (k < v)%Z -> (forall x, x ∈ l -> ~ overlaps k v x) -> ranges_ok (map_insert k v l).
Proof.
  induction l as [|[k' v'] l IH]; intros Hok Hkv Hf; cbn.
  { apply ranges_ok_cons. by split_and!. }
  pose proof Hok as Hok'. apply ranges_ok_cons in Hok as (Hx & Hb & Hok). pose proof (Hf (k', v') ltac:(set_solver)) as Hn.
  unfold overlaps in Hn. cbn in Hn, Hx.
  destruct (Z.eqb k k') eqn:E. { apply Z.eqb_eq in E. lia. } destruct (Z.ltb k k') eqn:E2.
  - apply Z.ltb_lt in E2. apply ranges_ok_cons. split; [done|]. split; [|done]. assert (v <= k')%Z by lia. apply Forall_cons. split; [done|].
    eapply Forall_impl; [exact Hb|]. unfold before. cbn. intros y Hy. lia.
  - apply Z.ltb_ge in E2. apply Z.eqb_neq in E. apply ranges_ok_cons. cbn. split; [done|]. split.
    + apply Forall_forall. intros y Hy. apply map_insert_elem in Hy as [->|Hy]; unfold before; cbn; [lia|].
      rewrite Forall_forall in Hb. apply Hb in Hy. done.
    + apply IH; [done|done|]. set_solver.
Qed.

Lemma map_erase_elem k l x : x ∈ map_erase k l <-> x ∈ l /\ x.1 <> k.
Proof. unfold map_erase. rewrite list_elem_of_filter. tauto. Qed.

Lemma map_erase_ok k l : ranges_ok l -> ranges_ok (map_erase k l).
Proof.
  unfold map_erase. intros [H1 H2]. split.
  - rewrite Forall_forall in *. intros x Hx. apply list_elem_of_filter in Hx as [_ Hx]. auto.
  - induction H2 as [|x l H2 IH Hb]; [constructor|]. apply Forall_cons in H1 as [_ H1]. rewrite filter_cons. destruct (decide _); [|auto].
    constructor; [auto|]. rewrite Forall_forall in *. intros y Hy. apply list_elem_of_filter in Hy as [_ Hy]. auto.
Qed.

Lemma map_find_Some k l v : map_find k l = Some v -> (k, v) ∈ l.
Proof.
  induction l as [|[k' v'] l IH]; cbn; [done|]. destruct (Z.eqb k k') eqn:E; [|set_solver]. apply Z.eqb_eq in E. intros [= <-]. subst. set_solver.
Qed.

Lemma map_find_elem k v l : ranges_ok l -> (k, v) ∈ l -> map_find k l = Some v.
Proof.
  induction l as [|[k' v'] l IH]; intros Hok Hx; [by apply elem_of_nil in Hx|]. cbn. apply ranges_ok_cons in Hok as (Hx1 & Hb & Hok).
  apply elem_of_cons in Hx as [[= -> ->]|Hx]; [by rewrite Z.eqb_refl|].
  destruct (Z.eqb k k') eqn:E; [|by apply IH]. apply Z.eqb_eq in E. subst. rewrite Forall_forall in Hb. apply Hb in Hx. unfold before in Hx. cbn in *. lia.
Qed.

(** ** The entries *)

(** The number of units a mapping takes, and its segments. *)
Definition units (size unit : Z) : Z := if Z.eqb (size mod unit) 0 then (size / unit)%Z else (size / unit + 1)%Z.

Definition segment (base unit size i : Z) : Z * Z :=
  (base + i * unit, if Z.eqb i (units size unit - 1) then size - (units size unit - 1) * unit else unit)%Z.

Definition segments (base unit size : Z) : list (Z * Z) := segment base unit size <$> seqZ 0 (units size unit).

Lemma units_bounds size unit : (0 < size -> 0 < unit -> 1 <= units size unit /\ (units size unit - 1) * unit < size <= units size unit * unit)%Z.
Proof.
  intros Hs Hu. unfold units. pose proof (Z.div_mod size unit ltac:(lia)) as HD. pose proof (Z.mod_pos_bound size unit Hu) as HM.
  destruct (Z.eqb (size mod unit) 0) eqn:E; [apply Z.eqb_eq in E|apply Z.eqb_neq in E].
  - assert (0 < size / unit)%Z by nia. nia.
  - assert (0 <= size / unit)%Z by (apply Z.div_pos; lia). nia.
Qed.

Record entry_ok (name : string) (m : ShmAppMetaData) : Prop := mk_entry_ok {
  eo_name : md_name m = name;
  eo_nonempty : name <> EmptyString;
  eo_addr : (0 < md_addr m)%Z;
  eo_size : (0 < md_mapSize m)%Z;
  eo_fits : (md_addr m + md_mapSize m <= UINTPTR_MAX)%Z;
  eo_unit : (0 < md_unitSize m <= UINTPTR_MAX)%Z;
  eo_segments : md_addrs m = segments (md_addr m) (md_unitSize m) (md_mapSize m);
  eo_fds : length (md_fds m) = length (md_addrs m);
  eo_locked : (0 <= md_isLocked m)%Z;
}.

Definition range_of (m : ShmAppMetaData) : Z * Z := (md_addr m, md_addr m + md_mapSize m)%Z.

(** The three tables list the same mappings. *)
Record shm_inv (t : ShmMetaDataMgr) : Prop := mk_shm_inv {
  sh_ranges : ranges_ok (mMappedMemoryAddress t);
  sh_entries : forall name m, mAppShmInfoMap t !! name = Some m ->
    entry_ok name m /\ mAddr2NameMap t !! md_addr m = Some name /\ range_of m ∈ mMappedMemoryAddress t;
  sh_names : forall a name, mAddr2NameMap t !! a = Some name -> exists m, mAppShmInfoMap t !! name = Some m /\ md_addr m = a;
  sh_known : forall x, x ∈ mMappedMemoryAddress t -> exists name, mAddr2NameMap t !! x.1 = Some name;
}.

Lemma shm_inv_empty : shm_inv (mkShmMgr ∅ ∅ []).
Proof.
  split; cbn.
  - split; constructor.
  - intros name m. by rewrite lookup_empty.
  - intros a name. by rewrite lookup_empty.
  - intros x Hx. by apply elem_of_nil in Hx.
Qed.

(** What a free range is not: the start of a known one. *)
Lemma free_not_start t a e : (a < e)%Z -> ranges_ok (mMappedMemoryAddress t) -> free_range t a e -> forall y, y ∈ mMappedMemoryAddress t -> y.1 <> a.
Proof.
  intros Hae [Hp _] HF y Hy Heq. apply (HF y Hy). rewrite Forall_forall in Hp. specialize (Hp y Hy). split; lia.
Qed.

(** The tables after an entry is added. *)
Definition with_entry (name : string) (m : ShmAppMetaData) (t : ShmMetaDataMgr) : ShmMetaDataMgr :=
  mkShmMgr (<[name := m]> (mAppShmInfoMap t)) (<[md_addr m := name]> (mAddr2NameMap t))
    (map_insert (md_addr m) (md_addr m + md_mapSize m) (mMappedMemoryAddress t)).

Lemma AddMetaData_entry name m t : entry_ok name m -> AddMetaData name (md_addr m) m t = (UBSM_OK, with_entry name m t).
Proof.
  intros []. unfold AddMetaData, AddMappedMemoryRange. rewrite (proj2 (Z.eqb_neq (md_addr m) 0)) by lia.
  rewrite (proj2 (Z.eqb_neq (md_mapSize m) 0)) by lia. rewrite (proj2 (Z.ltb_ge _ _)) by lia. cbn.
  unfold u64. rewrite Z.mod_small; [done|]. unfold UINTPTR_MAX in *. lia.
Qed.

Lemma with_entry_inv name m t :
  shm_inv t -> entry_ok name m -> mAppShmInfoMap t !! name = None -> free_range t (md_addr m) (md_addr m + md_mapSize m) ->
  shm_inv (with_entry name m t).
Proof.
  intros [I1 I2 I3 I4] Hm Hnone HF. pose proof Hm as [].
  pose proof (free_not_start t (md_addr m) (md_addr m + md_mapSize m) ltac:(lia) I1 HF) as Hns.
  assert (mAddr2NameMap t !! md_addr m = None) as Hnone2.
  { destruct (mAddr2NameMap t !! md_addr m) as [n|] eqn:E; [|done]. apply I3 in E as (m' & Hm' & Ha). apply I2 in Hm' as (_ & _ & Hr).
    apply Hns in Hr. unfold range_of in Hr. cbn in Hr. done. }
  split; cbn [with_entry mAppShmInfoMap mAddr2NameMap mMappedMemoryAddress].
  - apply map_insert_ok; [done|lia|done].
  - intros n m' H. destruct (decide (n = name)) as [->|Hne].
    + rewrite lookup_insert_eq in H. injection H as <-. split; [done|]. split; [apply lookup_insert_eq | apply map_insert_in].
    + rewrite lookup_insert_ne in H by done. pose proof (I2 _ _ H) as (E & Ha & Hr). split; [done|]. split.
      * rewrite lookup_insert_ne; [done|]. intros Heq. rewrite <- Heq in Ha. congruence.
      * by apply map_insert_old.
  - intros a n H. destruct (decide (a = md_addr m)) as [->|Hne].
    + rewrite lookup_insert_eq in H. injection H as <-. exists m. split; [apply lookup_insert_eq | done].
    + rewrite lookup_insert_ne in H by done. apply I3 in H as (m' & Hm' & Ha). exists m'. split; [|done].
      rewrite lookup_insert_ne; [done|]. intros <-. congruence.
  - intros x Hx. apply map_insert_elem in Hx as [->|Hx]; cbn.
    + exists name. apply lookup_insert_eq.
    + destruct (I4 x Hx) as (n & Hn). exists n. rewrite lookup_insert_ne; [done|]. intros Heq. by apply (Hns x Hx).
Qed.

(** An entry is replaced by one of the same mapping. *)
Lemma UpdateMetaData_inv name m m' t :
  shm_inv t -> mAppShmInfoMap t !! name = Some m -> entry_ok name m' -> md_addr m' = md_addr m -> md_mapSize m' = md_mapSize m ->
  UpdateMetaData name m' t = (UBSM_OK, set_infos <[name := m']> t) /\ shm_inv (set_infos <[name := m']> t).
Proof.
  intros [I1 I2 I3 I4] Hm Hok Ha Hs. unfold UpdateMetaData. rewrite Hm. split; [done|].
  split; cbn [set_infos mAppShmInfoMap mAddr2NameMap mMappedMemoryAddress]; try done.
  - intros n m'' H. destruct (decide (n = name)) as [->|Hne].
    + rewrite lookup_insert_eq in H. injection H as <-. apply I2 in Hm as (_ & H1 & H2). unfold range_of in *. by rewrite Ha, Hs.
    + rewrite lookup_insert_ne in H by done. auto.
  - intros a n H. apply I3 in H as (m'' & Hm'' & Ha'). destruct (decide (n = name)) as [->|Hne].
    + exists m'. rewrite lookup_insert_eq. split; [done|]. congruence.
    + exists m''. by rewrite lookup_insert_ne.
Qed.

Definition without_entry (name : string) (m : ShmAppMetaData) (t : ShmMetaDataMgr) : ShmMetaDataMgr :=
  mkShmMgr (delete name (mAppShmInfoMap t)) (delete (md_addr m) (mAddr2NameMap t)) (map_erase (md_addr m) (mMappedMemoryAddress t)).

Lemma RemoveMetaData_inv name m t :
  shm_inv t -> mAppShmInfoMap t !! name = Some m ->
  RemoveMetaData (md_addr m) name t = (UBSM_OK, without_entry name m t) /\ shm_inv (without_entry name m t).
Proof.
  intros HI Hm. pose proof HI as [I1 I2 I3 I4]. destruct (I2 _ _ Hm) as (Hok & Ha & Hr). pose proof Hok as [].
  split.
  - unfold RemoveMetaData, RemoveMappedMemoryRange. rewrite (proj2 (Z.eqb_neq (md_addr m) 0)) by lia.
    destruct (String.eqb name "") eqn:E; [by apply String.eqb_eq in E|]. rewrite Hm, (map_find_elem _ _ _ I1 Hr). done.
  - split; cbn [without_entry mAppShmInfoMap mAddr2NameMap mMappedMemoryAddress].
    + by apply map_erase_ok.
    + intros n m' [Hne H]%lookup_delete_Some. destruct (I2 _ _ H) as (Hok' & Ha' & Hr'). split; [done|].
      assert (md_addr m' <> md_addr m) as Hd by (intros Heq; rewrite Heq in Ha'; congruence).
      split; [by rewrite lookup_delete_ne | by apply map_erase_elem].
    + intros a n [Hne H]%lookup_delete_Some. destruct (I3 _ _ H) as (m' & Hm' & <-). exists m'. split; [|done]. rewrite lookup_delete_ne; [done|].
      intros <-. congruence.
    + intros x [Hx Hne]%map_erase_elem. destruct (I4 x Hx) as (n & Hn). exists n. rewrite lookup_delete_ne; done.
Qed.
