(* ===== verification/ClientShmMap.v ===== *)
(** Client library: what mapping and unmapping shared memory do, call by call. *)

From S2P Require Import Prelude RegionTypes Client ClientTables ClientIpc ClientShm ClientWp ClientShmInv.

Import ShmTables RackMemShm.

(** ** The calls of an operation *)

Inductive Req :=
  | QMap (name : string)
  | QUnmap (name : string)
  | QWriteLock (name : string)
  | QReadLock (name : string)
  | QUnLock (name : string)
  | QOther.

(** A recorded call without its type index. *)
Inductive Call :=
  | COpen (id flags fd : Z)
  | CClose (fd ret : Z)
  | CMap (addr len prot flags fd offset answer : Z)
  | CUnmap (addr len ret : Z)
  | COwn (fd startAddr endAddr prot ret : Z)
  | CSend (q : Req) (code : Z)
  | COther.

Definition req_of {A} (op : IpcOp A) : Req :=
  match op with
  | IPC_RACKMEMSHM_MMAP _ name _ _ _ => QMap name
  | IPC_RACKMEMSHM_UNMMAP _ name => QUnmap name
  | IPC_RACKMEMSHM_WRITELOCK _ name => QWriteLock name
  | IPC_RACKMEMSHM_READLOCK _ name => QReadLock name
  | IPC_RACKMEMSHM_UNLOCK _ name => QUnLock name
  | _ => QOther
  end.

Definition view (x : Entry) : Call :=
  match x with
  | @entry R e a =>
      match e in Ev R return R -> Call with
      | OpenShmdev id flags => fun a => COpen id flags a
      | Close fd => fun a => CClose fd a
      | MemoryMap addr len prot flags fd offset => fun a => CMap addr len prot flags fd offset a
      | MemoryUnMap addr len => fun a => CUnmap addr len a
      | ObmmSetOwnership fd s e prot => fun a => COwn fd s e prot a
      | ClientSend op => fun a => CSend (req_of op) (answer_code a)
      | _ => fun _ => COther
      end a
  end.

(** [w'] is [w] after exactly these calls. *)
Definition calls (w : ClientWorld) (cs : list Call) (w' : ClientWorld) : Prop :=
  exists es, appends w es w' /\ view <$> es = cs.

Lemma calls_nil w : calls w [] w.
Proof. exists []. split; [apply appends_nil | done]. Qed.

Lemma calls_app w cs w' cs' w'' : calls w cs w' -> calls w' cs' w'' -> calls w (cs ++ cs') w''.
Proof. intros (es & H1 & <-) (es' & H2 & <-). exists (es ++ es'). split; [by eapply appends_app | apply fmap_app]. Qed.

Lemma calls_one {R} (e : Ev R) a w : calls w [view (entry e a)] (log_event (entry e a) w).
Proof. exists [entry e a]. split; [apply appends_one | done]. Qed.

Lemma calls_connected w cs w' : calls w cs w' -> connected w -> connected w'.
Proof. intros (es & H & _). by apply appends_connected with es. Qed.

Lemma calls_shm w cs w' : calls w cs w' -> cw_shm w' = cw_shm w.
Proof. intros (es & [] & _). done. Qed.

Lemma calls_obmm w cs w' : calls w cs w' -> cw_obmm w' = cw_obmm w.
Proof. intros (es & [] & _). done. Qed.

(** Descriptors opened and closed, requests. *)
Definition opened (cs : list Call) : list Z := omap (fun c => match c with COpen _ _ fd => if Z.ltb fd 0 then None else Some fd | _ => None end) cs.
Definition closed (cs : list Call) : list Z := omap (fun c => match c with CClose fd _ => Some fd | _ => None end) cs.
Definition requests (cs : list Call) : list (Req * Z) := omap (fun c => match c with CSend q code => Some (q, code) | _ => None end) cs.

Lemma opened_app a b : opened (a ++ b) = opened a ++ opened b.
Proof. apply omap_app. Qed.

Lemma closed_app a b : closed (a ++ b) = closed a ++ closed b.
Proof. apply omap_app. Qed.

Lemma requests_app a b : requests (a ++ b) = requests a ++ requests b.
Proof. apply omap_app. Qed.

(** ** Closing *)

(** The descriptors still to be closed. *)
Definition open_fds (fds : list Z) : list Z := filter (fun fd => fd <> (-1)%Z) fds.

Lemma open_fds_all fds : Forall (fun fd => 0 <= fd)%Z fds -> open_fds fds = fds.
Proof. unfold open_fds. induction 1 as [|fd fds H _ IH]; [done|]. rewrite filter_cons_True by lia. by rewrite IH. Qed.

Lemma CloseAllFd_spec fds env w :
  wp (CloseAllFd fds) (fun fds' w' => exists cs, calls w cs w' /\ closed cs = open_fds fds /\ opened cs = [] /\ requests cs = [] /\
    length fds' = length fds) env w.
Proof.
  revert w. induction fds as [|fd fds IH]; intros w; cbn [CloseAllFd].
  - csteps. exists []. split; [apply calls_nil | done].
  - unfold open_fds. csteps. destruct (Z.eqb fd (-1)) eqn:E.
    + csteps. apply Z.eqb_eq in E. cuse (IH w). intros fds' w' (cs & HC & H1 & H2 & H3 & H4). csteps.
      exists cs. rewrite filter_cons_False by lia. cbn. by rewrite H4.
    + csteps. apply Z.eqb_neq in E. apply cwp_ev. intros a _. csteps.
      cuse (IH (log_event (entry (Close fd) a) w)). intros fds' w' (cs & HC & H1 & H2 & H3 & H4). csteps.
      exists ([CClose fd a] ++ cs). split; [eapply calls_app; [apply (calls_one (Close fd)) | done]|].
      rewrite closed_app, opened_app, requests_app, H1, H2, H3, filter_cons_True by done. cbn. by rewrite H4.
Qed.

(** ** The segments *)

(** The calls that map segment [i]: open the memory id's device, map it at the segment's address. *)
Definition segment_calls (m : ShmAppMetaData) (openflags prot flags offset : Z) (i fd : Z) : list Call :=
  let s := segment (md_addr m) (md_unitSize m) (md_mapSize m) i in
  [COpen (md_memIds m !!! Z.to_nat i) openflags fd; CMap s.1 s.2 prot flags fd offset s.1].

Definition open_flags (open_flag oflag : Z) : Z :=
  Z.lor (if has_flag open_flag UBSM_FLAG_NONCACHE || has_flag open_flag UBSM_FLAG_ONLY_IMPORT_NONCACHE then O_SYNC else 0) oflag.

Lemma close_meta_spec m env w :
  wp (close_meta m) (fun m' w' => exists cs fds', calls w cs w' /\ closed cs = open_fds (md_fds m) /\ opened cs = [] /\ requests cs = [] /\
    length fds' = length (md_fds m) /\ m' = set_segments fds' (md_addrs m) m) env w.
Proof.
  unfold close_meta. csteps. cuse (CloseAllFd_spec (md_fds m) env w). intros fds' w' (cs & HC & H1 & H2 & H3 & H4). csteps.
  by exists cs, fds'.
Qed.

(** Giving up closes what was opened. *)
Lemma give_up_spec ret m w0 cs0 env w :
  calls w0 cs0 w -> requests cs0 = [] -> closed cs0 = [] -> ret <> UBSM_OK -> Forall (fun fd => 0 <= fd)%Z (md_fds m) ->
  wp (m ← close_meta m; mret (ret, m))
    (fun r w' => exists cs, calls w0 cs w' /\ requests cs = [] /\ r.1 <> UBSM_OK /\ closed cs = md_fds m /\ opened cs = opened cs0) env w.
Proof.
  intros HC0 HR0 HD0 Hret Hpos. csteps. cuse (close_meta_spec m env w). intros m' w' (cs & fds' & HC & H1 & H2 & H3 & _). csteps.
  rewrite (open_fds_all _ Hpos) in H1.
  exists (cs0 ++ cs). split; [by eapply calls_app|]. rewrite requests_app, closed_app, opened_app, HR0, HD0, H1, H2, H3. cbn. by rewrite ?app_nil_r.
Qed.

(** One segment: mapped at its address, or everything opened is closed again. *)
Lemma map_segment_spec i m open_flag oflag prot flags offset env w :
  (0 <= i < units (md_mapSize m) (md_unitSize m))%Z ->
  (0 < md_mapSize m)%Z -> (0 < md_unitSize m)%Z -> (0 <= md_addr m)%Z -> (md_addr m + md_mapSize m <= UINTPTR_MAX)%Z ->
  Forall (fun fd => 0 <= fd)%Z (md_fds m) ->
  wp (map_segment i (md_addr m) (md_unitSize m) (units (md_mapSize m) (md_unitSize m)) open_flag oflag prot flags offset m)
    (fun r w' => exists cs, calls w cs w' /\ requests cs = [] /\
      (r.1 = UBSM_OK /\ (exists fd, (0 <= fd)%Z /\ cs = segment_calls m (open_flags open_flag oflag) prot flags offset i fd /\
         r.2 = set_segments (md_fds m ++ [fd]) (md_addrs m ++ [segment (md_addr m) (md_unitSize m) (md_mapSize m) i]) m)
       \/ r.1 <> UBSM_OK /\ closed cs = md_fds m ++ opened cs)) env w.
Proof.
  intros Hi Hs Hu Hb0 Hfit Hpos. unfold map_segment.
  pose proof (units_bounds (md_mapSize m) (md_unitSize m) Hs Hu) as [HU1 HU2]. set (u := units (md_mapSize m) (md_unitSize m)) in *.
  set (s := segment (md_addr m) (md_unitSize m) (md_mapSize m) i).
  assert (u64 (md_addr m + i * md_unitSize m) = s.1) as Hs1.
  { unfold u64, s, segment. cbn [fst]. apply Z.mod_small. unfold UINTPTR_MAX in *. nia. }
  assert ((if Z.eqb i (u - 1) then u64 (md_mapSize m - (u - 1) * md_unitSize m) else md_unitSize m) = s.2) as Hs2.
  { unfold u64, s, segment. fold u. cbn [snd]. destruct (Z.eqb i (u - 1)); [|done]. apply Z.mod_small. unfold UINTPTR_MAX in *. nia. }
  csteps. unfold ObmmOpenInternal. apply cwp_ev. intros fd _. fold (open_flags open_flag oflag).
  pose proof (calls_one (OpenShmdev (md_memIds m !!! Z.to_nat i) (open_flags open_flag oflag)) fd w) as HC1. set (w1 := log_event _ w) in *.
  destruct (Z.ltb fd 0) eqn:Efd.
  { cuse (give_up_spec MXM_ERR_SHM_OBMM_OPEN m w _ env w1 HC1); try done. intros r w' (cs & HC & HR & Hr & Hcl & Hop).
    exists cs. split; [done|]. split; [done|]. right. rewrite Hop, Hcl. cbn. by rewrite Efd, app_nil_r. }
  apply Z.ltb_ge in Efd. cbn [AddFds set_segments md_mapSize]. rewrite Hs1, Hs2. unfold FdMap.MapForEachFd. csteps. apply cwp_ev. intros a _.
  pose proof (calls_app _ _ _ _ _ HC1 (calls_one (MemoryMap s.1 s.2 prot flags fd offset) a w1)) as HC2. set (w2 := log_event _ w1) in *.
  assert (wp (m ← close_meta (AddFds fd m); mret (MXM_ERR_MMAP_VA_FAILED, m)) (fun r w' => exists cs, calls w cs w' /\ requests cs = [] /\
      r.1 <> UBSM_OK /\ closed cs = md_fds m ++ opened cs) env w2) as Hgive.
  { cuse (give_up_spec MXM_ERR_MMAP_VA_FAILED (AddFds fd m) w _ env w2 HC2); try done. { apply Forall_app. split; [done|]. by constructor. }
    intros r w' (cs & HC & HR & Hr & Hcl & Hop). exists cs. split_and!; try done. rewrite Hop, Hcl. cbn. by rewrite (proj2 (Z.ltb_ge fd 0)). }
  destruct (Z.eqb a MAP_FAILED) eqn:Ea; [|destruct (negb (Z.eqb a s.1)) eqn:Ea2]; csteps.
  1,2: cuse Hgive; intros r w' (cs & HC & HR & Hr & Hcl); exists cs; by auto.
  apply negb_false_iff, Z.eqb_eq in Ea2. subst a. csteps. eexists. split; [exact HC2|]. split; [done|]. left. split; [done|].
  exists fd. split; [done|]. split; [done|]. done.
Qed.

(** All segments from the [i]-th on: mapped with descriptors [fds], or everything opened is closed again. *)
Lemma map_segments_spec n i m open_flag oflag prot flags offset env w :
  (0 <= i)%Z -> (i + Z.of_nat n = units (md_mapSize m) (md_unitSize m))%Z ->
  (0 < md_mapSize m)%Z -> (0 < md_unitSize m)%Z -> (0 <= md_addr m)%Z -> (md_addr m + md_mapSize m <= UINTPTR_MAX)%Z ->
  Forall (fun fd => 0 <= fd)%Z (md_fds m) ->
  wp (map_segments n i (md_addr m) (md_unitSize m) (units (md_mapSize m) (md_unitSize m)) open_flag oflag prot flags offset m)
    (fun r w' => exists cs, calls w cs w' /\ requests cs = [] /\
      (r.1 = UBSM_OK /\ (exists fds, length fds = n /\ Forall (fun fd => 0 <= fd)%Z fds /\
         cs = concat (zip_with (segment_calls m (open_flags open_flag oflag) prot flags offset) (seqZ i (Z.of_nat n)) fds) /\
         r.2 = set_segments (md_fds m ++ fds) (md_addrs m ++ (segment (md_addr m) (md_unitSize m) (md_mapSize m) <$> seqZ i (Z.of_nat n))) m)
       \/ r.1 <> UBSM_OK /\ closed cs = md_fds m ++ opened cs)) env w.
Proof.
  revert i m w. induction n as [|n IH]; intros i m w Hi Hn Hs Hu Hb0 Hfit Hpos; cbn [map_segments].
  { csteps. exists []. split; [apply calls_nil|]. split; [done|]. left. split; [done|]. exists [].
    cbn. rewrite !app_nil_r. by destruct m. }
  csteps. cuse (map_segment_spec i m open_flag oflag prot flags offset env w); try done; [lia|].
  intros r w1 (cs1 & HC1 & HR1 & [(Hr & fd & Hfd & Hcs & Hm) | (Hr & Hcl)]); cycle 1.
  { unfold BresultFail. change HOK with UBSM_OK. rewrite (proj2 (Z.eqb_neq _ _) Hr). csteps. exists cs1. by auto. }
  rewrite Hr. change (BresultFail UBSM_OK) with false. cbv iota. rewrite Hm.
  pose proof (IH (i + 1)%Z (set_segments (md_fds m ++ [fd]) (md_addrs m ++ [segment (md_addr m) (md_unitSize m) (md_mapSize m) i]) m) w1) as IH'.
  cbn [set_segments md_mapSize md_unitSize md_addr md_fds md_addrs] in IH'. cuse IH'; try done; try lia.
  { apply Forall_app; split; [done|]. by constructor. }
  intros r2 w2 (cs2 & HC2 & HR2 & Hout). exists (cs1 ++ cs2). split; [by eapply calls_app|]. rewrite requests_app, HR1, HR2. split; [done|].
  destruct Hout as [(Hr2 & fds & Hlen & Hfds & Hcs2 & Hm2) | (Hr2 & Hcl)]; [left | right]; (split; [done|]).
  - exists (fd :: fds). rewrite seqZ_cons by lia. replace (Z.pred (Z.of_nat (S n))) with (Z.of_nat n) by lia. rewrite <- Z.add_1_r.
    cbn [length zip_with concat fmap list_fmap]. rewrite Hlen, Hcs2, Hcs, Hm2. split; [done|]. split; [by constructor|].
    cbn. by rewrite <- !app_assoc.
  - rewrite closed_app, opened_app, Hcl, Hcs. cbn. rewrite (proj2 (Z.ltb_ge fd 0)) by done. cbn. by rewrite <- app_assoc.
Qed.

(** ** Mapping *)

(** What the code relies on of the kernel and of the C library, given the mappings that are known:
    a mapping is made at the address asked for with [MAP_FIXED], and else, like fresh heap
    memory, at one that is not in use; members of responses have 64 bits. *)
Definition fresh_at (t : ShmMetaDataMgr) (a len : Z) : Prop := (0 < a)%Z /\ (a + len <= UINTPTR_MAX)%Z /\ free_range t a (a + len).

Definition honest (t : ShmMetaDataMgr) {R} (e : Ev R) : R -> Prop :=
  match e in Ev R return R -> Prop with
  | MemoryMap addr len _ flags _ _ => fun a =>
      a = MAP_FAILED \/ if has_flag flags MAP_FIXED then a = addr else has_flag flags MAP_FIXED_NOREPLACE = true \/ fresh_at t a len
  | PosixMemalign _ size => fun a => a.1 <> 0%Z \/ fresh_at t a.2 size
  | ClientSend op =>
      match op in IpcOp A return Z * (Z * A) -> Prop with
      | IPC_RACKMEMSHM_MMAP _ _ _ _ _ => fun a => (mb_unitSize a.2.2 <= UINTPTR_MAX)%Z
      | _ => fun _ => True
      end
  | _ => fun _ => True
  end.

Definition honest_env (env : ClientEnv) (t : ShmMetaDataMgr) : Prop := forall R n (e : Ev R), honest t e (ce_answer env R n e).

(** Calls that leave descriptors and requests alone. *)
Definition only_maps (cs : list Call) : Prop := opened cs = [] /\ closed cs = [] /\ requests cs = [].

(** Whatever was mapped has been unmapped. *)
Definition maps_undone (cs : list Call) : Prop :=
  forall addr len prot flags fd offset a, CMap addr len prot flags fd offset a ∈ cs -> a <> MAP_FAILED -> exists u, CUnmap a len u ∈ cs.

Lemma maps_undone_nil : maps_undone [].
Proof. intros addr len prot flags fd offset a H. by apply elem_of_nil in H. Qed.

Lemma maps_undone_other c : (match c with CMap _ _ _ _ _ _ a => a = MAP_FAILED | _ => True end) -> maps_undone [c].
Proof. intros Hc addr len prot flags fd offset a H%list_elem_of_singleton Ha. by subst c. Qed.

Lemma maps_undone_pair addr len prot flags fd offset a u : maps_undone [CMap addr len prot flags fd offset a; CUnmap a len u].
Proof.
  intros addr' len' prot' flags' fd' offset' a' [[= -> -> -> -> -> -> ->]|H%list_elem_of_singleton]%elem_of_cons _; [|done].
  exists u. right. left.
Qed.

Lemma maps_undone_app cs cs' : maps_undone cs -> maps_undone cs' -> maps_undone (cs ++ cs').
Proof.
  intros H1 H2 addr len prot flags fd offset a [H|H]%elem_of_app Ha; [destruct (H1 _ _ _ _ _ _ _ H Ha) as [u Hu] | destruct (H2 _ _ _ _ _ _ _ H Ha) as [u Hu]];
    exists u; apply elem_of_app; auto.
Qed.

Section Mapping.
Context (env : ClientEnv) (t : ShmMetaDataMgr) (Henv : honest_env env t).

Lemma MapAnonymousMemory_spec start size w :
  wp (FdMap.MapAnonymousMemory start size) (fun r w' => exists cs, calls w cs w' /\ only_maps cs /\
    match r with inl _ => maps_undone cs | inr a => fresh_at t a size /\ exists addr prot flags fd offset, cs = [CMap addr size prot flags fd offset a] end) env w.
Proof.
  unfold FdMap.MapAnonymousMemory. cif; csteps. { exists []. split; [apply calls_nil|]. split; [done | apply maps_undone_nil]. }
  apply cwp_ev. intros a Ha. pose proof (Henv _ (length (cw_trace w)) (MemoryMap start size PROT_NONE (Z.lor MAP_PRIVATE MAP_ANONYMOUS) (-1) 0)) as Hk.
  rewrite <- Ha in Hk. cbn [honest] in Hk. change (has_flag (Z.lor MAP_PRIVATE MAP_ANONYMOUS) MAP_FIXED) with false in Hk.
  change (has_flag (Z.lor MAP_PRIVATE MAP_ANONYMOUS) MAP_FIXED_NOREPLACE) with false in Hk.
  cif; csteps; (eexists; split; [apply calls_one|]; split; [done|]).
  - apply Z.eqb_eq in Heqb0. by apply maps_undone_other.
  - apply Z.eqb_neq in Heqb0. split; [by destruct Hk as [Hk|[Hk|Hk]]|]. by do 5 eexists.
Qed.

Lemma MemoryMapAligned_spec size align w :
  wp (FdMap.MemoryMapAligned size align) (fun r w' => exists cs, calls w cs w' /\ only_maps cs /\
    match r with inl _ => maps_undone cs | inr a => fresh_at t a size end) env w.
Proof.
  unfold FdMap.MemoryMapAligned. csteps. apply cwp_ev. intros [ret p] Hp. pose proof (Henv _ (length (cw_trace w)) (PosixMemalign align size)) as Hk.
  rewrite <- Hp in Hk. cbn [honest fst snd] in Hk. pose proof (calls_one (PosixMemalign align size) (ret, p) w) as HC1.
  set (w1 := log_event _ w) in *. destruct (Z.eqb ret 0) eqn:E; cbn [negb]; csteps; [|eexists; split; [exact HC1|]; split; [done | by apply maps_undone_other]].
  apply Z.eqb_eq in E. subst ret. destruct Hk as [Hk|Hk]; [done|]. apply cwp_ev. intros a Ha.
  set (fl := Z.lor (Z.lor MAP_SHARED MAP_ANONYMOUS) MAP_FIXED) in *.
  pose proof (Henv _ (length (cw_trace w1)) (MemoryMap p size PROT_NONE fl (-1) 0)) as Hk2.
  rewrite <- Ha in Hk2. cbn [honest] in Hk2. change (has_flag fl MAP_FIXED) with true in Hk2. cbv iota in Hk2.
  pose proof (calls_app _ _ _ _ _ HC1 (calls_one (MemoryMap p size PROT_NONE fl (-1) 0) a w1)) as HC2. set (w2 := log_event _ w1) in *.
  destruct (Z.eqb a MAP_FAILED) eqn:E2; csteps.
  - apply cwp_ev. intros u _. csteps. eexists. split; [eapply calls_app; [exact HC2 | apply (calls_one (Free p))]|]. split; [done|].
    apply Z.eqb_eq in E2. apply maps_undone_app; [apply maps_undone_app|]; by apply maps_undone_other.
  - eexists. split; [exact HC2|]. split; [done|]. apply Z.eqb_neq in E2. destruct Hk2 as [? | ->]; done.
Qed.

(** A range for the mapping: given by the caller, or found; without one, nothing stays mapped. *)
Lemma preallocate_spec huge start length flags align w :
  (start <> 0%Z -> MapWithFixedFlags flags = true -> fresh_at t start length) ->
  wp (if huge : bool then GetPreAllocateAddressAligned start length flags align else GetPreAllocateAddress start length flags)
    (fun r w' => exists cs, calls w cs w' /\ only_maps cs /\
       match r with
       | inl _ => maps_undone cs
       | inr a => fresh_at t a length /\ (start <> 0%Z -> MapWithFixedFlags flags = true -> a = start)
       end) env w.
Proof.
  intros Hfix. destruct huge; [unfold GetPreAllocateAddressAligned | unfold GetPreAllocateAddress].
  - destruct (Z.eqb start 0) eqn:E.
    { apply Z.eqb_eq in E. csteps. cuse MemoryMapAligned_spec.
      intros [e|a] w' (cs & HC & HM & Ha); csteps; exists cs; (split; [done|]); (split; [done|]); [done|]. split; [done | congruence]. }
    apply Z.eqb_neq in E. cif; csteps. { exists []. split; [apply calls_nil|]. split; [done | apply maps_undone_nil]. }
    destruct (MapWithFixedFlags flags) eqn:Ef; csteps. { exists []. split; [apply calls_nil|]. split; [done|]. auto. }
    cuse MapAnonymousMemory_spec. intros [e|a] w1 (cs1 & HC1 & (H1 & H2 & H3) & Ha1); csteps. { by exists cs1. }
    destruct Ha1 as (Ha1 & addr1 & prot1 & flags1 & fd1 & off1 & ->).
    cif; csteps; [|eexists; split; [exact HC1|]; split; [done|]; split; [done | congruence]].
    apply cwp_ev. intros u _. csteps. cuse MemoryMapAligned_spec. intros r w2 (cs2 & HC2 & (H4 & H5 & H6) & Ha2).
    pose proof (calls_app _ _ _ _ _ HC1 (calls_app _ _ _ _ _ (calls_one (MemoryUnMap a length) u w1) HC2)) as HC. rewrite app_assoc in HC.
    assert (only_maps (([CMap addr1 length prot1 flags1 fd1 off1 a] ++ [CUnmap a length u]) ++ cs2)) as HM.
    { unfold only_maps. rewrite !opened_app, !closed_app, !requests_app. by rewrite H4, H5, H6. }
    destruct r as [e|b]; csteps; eexists; (split; [exact HC|]); split; try exact HM; [|split; [done | congruence]].
    apply maps_undone_app; [apply maps_undone_pair | done].
  - destruct (Z.eqb start 0) eqn:E.
    { apply Z.eqb_eq in E. csteps. cuse MapAnonymousMemory_spec.
      intros [e|a] w' (cs & HC & HM & Ha); csteps; exists cs; (split; [done|]); (split; [done|]); [done|]. split; [apply Ha | congruence]. }
    apply Z.eqb_neq in E. destruct (MapWithFixedFlags flags) eqn:Ef; csteps.
    { exists []. split; [apply calls_nil|]. split; [done|]. auto. }
    cuse MapAnonymousMemory_spec. intros r w' (cs & HC & HM & Ha). exists cs. split; [done|]. split; [done|]. destruct r; [done|]. split; [apply Ha | congruence].
Qed.

End Mapping.

(** The entry of a mapping at [a] with descriptors [fds]. *)
Definition mapped_entry (name : string) (r : ShmMapBody) (a : Z) (status : ShmOwnStatus) (fds : list Z) : ShmAppMetaData :=
  mkMeta name a (mb_shmSize r) (mb_unitSize r) (mb_memIds r) fds (segments a (mb_unitSize r) (mb_shmSize r)) status (mb_flag r) (mb_oflag r)
    0 UNACCESS false false.

Definition fixed_flags (flags : Z) : Z := if negb (MapWithFixedFlags flags) then Z.lor flags MAP_FIXED else flags.

Definition driver_offset (r : ShmMapBody) : Z := if has_flag (mb_flag r) UBSM_FLAG_MMAP_HUGETLB_PMD then OBMM_MMAP_FLAG_HUGETLB_PMD else 0%Z.

(** The calls that map all segments of an entry. *)
Definition mapping_calls (r : ShmMapBody) (m : ShmAppMetaData) (prot flags : Z) : list Call :=
  concat (zip_with (segment_calls m (open_flags (mb_flag r) (mb_oflag r)) prot (fixed_flags flags) (driver_offset r))
            (seqZ 0 (units (md_mapSize m) (md_unitSize m))) (md_fds m)).

Lemma segments_length base unit size : (0 <= units size unit)%Z -> length (segments base unit size) = Z.to_nat (units size unit).
Proof. intros H. unfold segments. rewrite length_fmap, length_seqZ. done. Qed.

Lemma mapped_entry_ok name r a status fds t :
  name <> EmptyString -> fresh_at t a (mb_shmSize r) -> (0 < mb_shmSize r)%Z -> (0 < mb_unitSize r <= UINTPTR_MAX)%Z ->
  length fds = Z.to_nat (units (mb_shmSize r) (mb_unitSize r)) -> entry_ok name (mapped_entry name r a status fds).
Proof.
  intros Hn (Ha & Hfit & _) Hs Hu Hlen. pose proof (units_bounds (mb_shmSize r) (mb_unitSize r) Hs ltac:(lia)) as [H1 _].
  split; cbn; try done. rewrite segments_length by lia. done.
Qed.

Lemma request_calls {A} (op : IpcOp A) env w :
  connected w -> wp (IpcProxy.request op) (fun c w' => exists code, calls w [CSend (req_of op) code] w' /\ c = code) env w.
Proof. intros H. cuse (request_connected op env w H). intros c w' (Ha & ->). exists (answer_code (reply env w op)). split; [|done]. by eexists. Qed.

Section Binding.
Context (env : ClientEnv) (name : string) (r : ShmMapBody) (a prot flags : Z) (status : ShmOwnStatus).
Context (Hname : name <> EmptyString) (Hsize : (0 < mb_shmSize r)%Z) (Hunit : (0 < mb_unitSize r <= UINTPTR_MAX)%Z).

(** The segments are mapped and the entry is added, or everything is undone. *)
Definition bound (w : ClientWorld) (res : Z + Z) (w' : ClientWorld) : Prop :=
  (exists fds w1, res = inr a /\ calls w (mapping_calls r (mapped_entry name r a status fds) prot flags) w1 /\
     length fds = Z.to_nat (units (mb_shmSize r) (mb_unitSize r)) /\ Forall (fun fd => 0 <= fd)%Z fds /\
     w' = set_shm (fun _ => with_entry name (mapped_entry name r a status fds) (cw_shm w)) w1) \/
  (exists e cs u code, res = inl e /\ calls w (cs ++ [CUnmap a (mb_shmSize r) u; CSend (QUnmap name) code]) w' /\ closed cs = opened cs /\
     requests cs = []).

Lemma bind_segments_spec w :
  connected w -> fresh_at (cw_shm w) a (mb_shmSize r) ->
  wp (bind_segments a (mb_shmSize r) prot flags name status r) (bound w) env w.
Proof.
  intros HC HF. unfold bind_segments. fold (fixed_flags flags) (units (mb_shmSize r) (mb_unitSize r)).
  pose proof (units_bounds (mb_shmSize r) (mb_unitSize r) Hsize ltac:(lia)) as [HU _].
  assert (forall ret w1 cs, calls w cs w1 -> closed cs = opened cs -> requests cs = [] -> ret <> UBSM_OK ->
    wp (ev (MemoryUnMap a (mb_shmSize r)) ;; ShmIpcCommand.IpcCallShmUnMap name ;; mret (inl ret)) (bound w) env w1) as Hfail.
  { intros ret w1 cs HC1 Hcl HR Hret. csteps. apply cwp_ev. intros u _.
    pose proof (calls_app _ _ _ _ _ HC1 (calls_one (MemoryUnMap a (mb_shmSize r)) u w1)) as HC2. set (w2 := log_event _ w1) in *.
    unfold ShmIpcCommand.IpcCallShmUnMap. csteps. cuse (request_calls (IPC_RACKMEMSHM_UNMMAP "default" name) env w2 (calls_connected _ _ _ HC2 HC)).
    intros c w3 (code & HC3 & ->). csteps. right. exists ret, cs, u, code. split; [done|]. split; [|done].
    pose proof (calls_app _ _ _ _ _ HC2 HC3) as HC4. rewrite <- app_assoc in HC4. exact HC4. }
  unfold RackMemShmMmapByMemID. fold (driver_offset r). apply cwp_bind. cbn [SetUnitSize SetOflag new_meta md_memIds set_segments].
  destruct (Z.ltb (Z.of_nat (length (mb_memIds r))) (units (mb_shmSize r) (mb_unitSize r))) eqn:E.
  { apply cwp_ret. change (BresultFail MXM_ERR_PARAM_INVALID) with true. cbv iota. apply (Hfail _ _ []); try done. apply calls_nil. }
  set (m0 := mkMeta name a (mb_shmSize r) (mb_unitSize r) (mb_memIds r) [] [] status (mb_flag r) (mb_oflag r) 0 UNACCESS false false).
  destruct HF as (Ha & Hfit & Hfree).
  cuse (map_segments_spec (Z.to_nat (units (mb_shmSize r) (mb_unitSize r))) 0 m0 (mb_flag r) (mb_oflag r) prot (fixed_flags flags) (driver_offset r) env w);
    cbn [m0 md_mapSize md_unitSize md_addr md_fds md_addrs]; try done; try lia.
  intros [ret m] w1 (cs & HC1 & HR & Hout). cbn [fst snd] in Hout. destruct Hout as [(-> & fds & Hlen & Hpos & Hcs & Hm) | (Hret & Hcl)]; cycle 1.
  { unfold BresultFail. change HOK with UBSM_OK. rewrite (proj2 (Z.eqb_neq _ _) Hret). cbn [negb]. by apply (Hfail _ _ cs). }
  change (BresultFail UBSM_OK) with false. cbv iota. csteps. rewrite (calls_shm _ _ _ HC1).
  rewrite Z2Nat.id in Hm by lia. assert (m = mapped_entry name r a status fds) as -> by exact Hm.
  rewrite (AddMetaData_entry name (mapped_entry name r a status fds)) by (by eapply mapped_entry_ok). csteps. change (BresultFail UBSM_OK) with false. csteps.
  left. exists fds, w1. split; [done|]. split; [|done]. rewrite Z2Nat.id in Hcs by lia. rewrite Hcs in HC1. exact HC1.
Qed.

End Binding.

(** The request to map, and whether the answer of a daemon that agreed is acceptable. *)
Definition map_op (name : string) (mapSize mode prot : Z) : IpcOp ShmMapBody := IPC_RACKMEMSHM_MMAP "default" name mapSize mode prot.

Definition acceptable (r : ShmMapBody) : bool :=
  negb (Nat.eqb (length (mb_memIds r)) 0) && Z.ltb 0 (mb_shmSize r) && Z.ltb 0 (mb_unitSize r) &&
  (Z.eqb (mb_oflag r) O_RDONLY || Z.eqb (mb_oflag r) O_RDWR).

Lemma IpcCallShmMap_spec name mapSize mode prot env t w :
  honest_env env t -> connected w ->
  let a := reply env w (map_op name mapSize mode prot) in
  wp (ShmIpcCommand.IpcCallShmMap name mapSize mode prot) (fun res w' => calls w [CSend (QMap name) (answer_code a)] w' /\
    res = (if negb (Z.eqb (answer_code a) UBSM_OK) then inl (answer_code a)
           else if acceptable a.2.2 then inr a.2.2 else inl MXM_ERR_CHECK_RESOURCE) /\
    forall r, res = inr r -> answer_code a = UBSM_OK /\ (0 < mb_shmSize r)%Z /\ (0 < mb_unitSize r <= UINTPTR_MAX)%Z) env w.
Proof.
  intros Henv HC. unfold ShmIpcCommand.IpcCallShmMap. fold (map_op name mapSize mode prot). set (op := map_op name mapSize mode prot). csteps.
  pose proof (Henv _ (length (cw_trace w)) (ClientSend op)) as Hunit. fold (reply env w op) in Hunit. cbn [honest op map_op] in Hunit.
  cuse (ask_connected op env w HC). intros p w1 (Ha & ->). set (a := reply env w op) in *.
  assert (calls w [CSend (QMap name) (answer_code a)] w1) as HC1 by (by eexists).
  unfold BresultFail. change HOK with UBSM_OK. destruct (Z.eqb_spec (answer_code a) UBSM_OK) as [E|E]; cbn [negb]; [|by csteps].
  unfold acceptable. rewrite !Z.ltb_antisym. destruct (Nat.eqb _ 0); cbn [negb andb]; [by csteps|].
  destruct (Z.leb_spec (mb_shmSize a.2.2) 0); cbn [negb andb]; [by csteps|]. destruct (Z.leb_spec (mb_unitSize a.2.2) 0); cbn [negb andb]; [by csteps|].
  destruct (Z.eqb (mb_oflag a.2.2) O_RDONLY), (Z.eqb (mb_oflag a.2.2) O_RDWR); cbn [negb andb orb]; csteps; (split; [done|]); (split; [done|]); intros r [= <-]; fold op in Hunit; fold a in Hunit; lia.
Qed.

(** The parameters pass only for a name that is not mapped, and for a fixed address only where nothing is known to be. *)
Lemma ParameterCheck_spec start mapSize prot flags name off t :
  shm_inv t -> (0 <= start)%Z -> (0 <= mapSize)%Z -> RackMemShmMmapParameterCheck start mapSize prot flags name off t = UBSM_OK ->
  mAppShmInfoMap t !! name = None /\ (0 < mapSize)%Z /\ (start + mapSize <= UINTPTR_MAX)%Z /\ off = 0%Z /\
  (start <> 0%Z -> MapWithFixedFlags flags = true -> fresh_at t start mapSize) /\ (start = 0%Z -> MapWithFixedFlags flags = false).
Proof.
  intros HI H0 Hm. unfold RackMemShmMmapParameterCheck. repeat (destruct (_ : bool) eqn:? at 1; [done|]). intros _.
  repeat match goal with
  | H : negb _ = false |- _ => apply negb_false_iff in H
  | H : Z.eqb _ _ = true |- _ => apply Z.eqb_eq in H
  | H : Z.eqb _ _ = false |- _ => apply Z.eqb_neq in H
  | H : Z.ltb _ _ = false |- _ => apply Z.ltb_ge in H
  end.
  split_and!; try lia.
  - unfold GetAddr in *. destruct (mAppShmInfoMap t !! name) as [m|] eqn:E; [|done]. destruct (sh_entries _ HI _ _ E) as ([] & _). lia.
  - intros Hs Hf. rewrite Hf in *. split; [lia|]. split; [lia|].
    rewrite (proj2 (Z.eqb_neq start 0)) in * by done. cbn [negb andb] in *.
    apply overlap_free; [by apply sh_ranges | lia |]. replace (start + mapSize)%Z with (u64 (start + mapSize)); [done|].
    unfold u64. apply Z.mod_small. unfold UINTPTR_MAX in *. lia.
  - intros ->. cbn [Z.eqb andb] in *. done.
Qed.

(** What an attempt to map ends in. *)
Inductive mmap_outcome (env : ClientEnv) (start mapSize prot flags : Z) (name : string) (w : ClientWorld) : Z + Z -> ClientWorld -> Prop :=
  (** Mapped: one request, the segments of the entry, the entry in the tables. *)
  | MmapDone r a fds cs m w1 :
      m = mapped_entry name r a (GetOwnStatus prot) fds -> mb_shmSize r = mapSize -> mAppShmInfoMap (cw_shm w) !! name = None -> fresh_at (cw_shm w) a mapSize -> entry_ok name m ->
      Forall (fun fd => 0 <= fd)%Z fds -> only_maps cs ->
      calls w ([CSend (QMap name) UBSM_OK] ++ cs ++ mapping_calls r m prot flags) w1 ->
      mmap_outcome env start mapSize prot flags name w (inr a) (set_shm (fun _ => with_entry name m (cw_shm w)) w1)
  (** The parameters are refused. *)
  | MmapRefused e : mmap_outcome env start mapSize prot flags name w (inl e) w
  (** The daemon refuses: the request is all that was done. *)
  | MmapRejected code w' :
      code <> UBSM_OK -> calls w [CSend (QMap name) code] w' -> mmap_outcome env start mapSize prot flags name w (inl code) w'
  (** The daemon agrees, but its answer is not acceptable: it is not told. *)
  | MmapUnacceptable w' :
      acceptable (reply env w (map_op name mapSize (convertToFileMode (GetOwnStatus prot)) prot)).2.2 = false ->
      calls w [CSend (QMap name) UBSM_OK] w' -> mmap_outcome env start mapSize prot flags name w (inl MXM_ERR_CHECK_RESOURCE) w'
  (** The daemon agrees, but the sizes do not fit or there is no range: no device is opened, nothing stays mapped, the daemon is told. *)
  | MmapNoRange e cs code w' :
      calls w ([CSend (QMap name) UBSM_OK] ++ cs ++ [CSend (QUnmap name) code]) w' -> only_maps cs -> maps_undone cs ->
      mmap_outcome env start mapSize prot flags name w (inl e) w'
  (** The daemon agrees, there is a range, and the mapping is undone: the opened descriptors are closed, the whole range is unmapped, the daemon is told. *)
  | MmapUndone e cs a u code w' :
      calls w (cs ++ [CUnmap a mapSize u; CSend (QUnmap name) code]) w' -> closed cs = opened cs -> requests cs = [(QMap name, UBSM_OK)] ->
      fresh_at (cw_shm w) a mapSize -> (start <> 0%Z -> MapWithFixedFlags flags = true -> a = start) ->
      mmap_outcome env start mapSize prot flags name w (inl e) w'.

Lemma UbsMemShmMmap_spec start mapSize prot flags name off p env w :
  connected w -> shm_inv (cw_shm w) -> honest_env env (cw_shm w) -> name <> EmptyString -> (0 <= start)%Z -> (0 <= mapSize)%Z ->
  wp (UbsMemShmMmap start mapSize prot flags name off p) (mmap_outcome env start mapSize prot flags name w) env w.
Proof.
  intros HC HI Henv Hname H0 Hm. unfold UbsMemShmMmap. cif; csteps; [constructor|]. cif; csteps; [constructor|].
  unfold BresultFail at 1. destruct (Z.eqb (RackMemShmMmapParameterCheck start mapSize prot flags name off (cw_shm w)) HOK) eqn:Epar; cbn [negb]; csteps; [|constructor].
  apply Z.eqb_eq in Epar. apply (ParameterCheck_spec _ _ _ _ _ _ _ HI H0 Hm) in Epar as (Hnone & Hpos & Hfit & _ & Hfix & _).
  set (mode := convertToFileMode (GetOwnStatus prot)).
  unfold wp at 1. destruct (ShmIpcCommand.IpcCallShmMap name mapSize mode prot env w) as [res w1] eqn:E1.
  pose proof (IpcCallShmMap_spec name mapSize mode prot env (cw_shm w) w Henv HC) as Hs. unfold wp in Hs. rewrite E1 in Hs. cbn [fst snd] in *.
  set (ans := reply env w (map_op name mapSize mode prot)) in *. destruct Hs as (HC1 & Hres & Hr). destruct res as [e|r]; csteps.
  { destruct (Z.eqb_spec (answer_code ans) UBSM_OK) as [Ea|Ea]; cbn [negb] in Hres; [|injection Hres as ->; by apply MmapRejected].
    destruct (acceptable ans.2.2) eqn:Eacc; [done|]. injection Hres as ->. rewrite Ea in HC1. by apply MmapUnacceptable. }
  clear Hres. destruct (Hr r eq_refl) as (Ea & Hr1 & Hr2). rewrite Ea in HC1. clear Hr.
  assert (forall w2 cs e, calls w1 cs w2 -> only_maps cs -> maps_undone cs ->
    wp (ShmIpcCommand.IpcCallShmUnMap name ;; mret (inl e)) (mmap_outcome env start mapSize prot flags name w) env w2) as Hundo.
  { intros w2 cs e HC2 HO HU. csteps. pose proof (calls_app _ _ _ _ _ HC1 HC2) as HC3. unfold ShmIpcCommand.IpcCallShmUnMap.
    cuse (request_calls (IPC_RACKMEMSHM_UNMMAP "default" name) env w2 (calls_connected _ _ _ HC3 HC)). intros c w3 (code & HC4 & ->). csteps.
    pose proof (calls_app _ _ _ _ _ HC3 HC4) as HC5. rewrite <- app_assoc in HC5. by eapply MmapNoRange. }
  assert (mb_shmSize r <> 0%Z) as Hne by lia. rewrite (proj2 (Z.eqb_neq (mb_shmSize r) 0) Hne). cbn [orb].
  destruct (Z.eqb mapSize (mb_shmSize r)) eqn:Es; cbn [negb]; [|by apply (Hundo _ []); [apply calls_nil | | apply maps_undone_nil]]. apply Z.eqb_eq in Es.
  rewrite (proj2 (Z.eqb_neq (mb_unitSize r) 0)) by lia. csteps.
  cif; [by apply (Hundo _ []); [apply calls_nil | | apply maps_undone_nil]|]. csteps. rewrite <- (calls_shm _ _ _ HC1) in Henv, Hfix.
  cuse (preallocate_spec env (cw_shm w1) Henv (has_flag (mb_flag r) UBSM_FLAG_MMAP_HUGETLB_PMD) start mapSize flags
          (if Z.eqb (PAGE_SIZE env) (64 * 1024) then HUGE_PAGES_512M else HUGE_PAGES_2M) w1 Hfix).
  intros [e|a] w2 (cs & HC2 & HM & Ha); [by apply (Hundo _ cs)|]. destruct Ha as [Ha Hst].
  pose proof (calls_app _ _ _ _ _ HC1 HC2) as HC3. rewrite (calls_shm _ _ _ HC1) in Ha. rewrite Es in *.
  cuse (bind_segments_spec env name r a prot flags (GetOwnStatus prot) Hname Hr1 Hr2 w2 (calls_connected _ _ _ HC3 HC)); [by rewrite (calls_shm _ _ _ HC3)|].
  intros res w3 [(fds & w4 & -> & HC4 & Hlen & Hfds & ->) | (e & cs' & u & code & -> & HC4 & Hcl & HR)].
  - rewrite (calls_shm _ _ _ HC3). eapply MmapDone; try done; [by eapply mapped_entry_ok|].
    pose proof (calls_app _ _ _ _ _ HC3 HC4) as HC5. rewrite <- app_assoc in HC5. exact HC5.
  - destruct HM as (HM1 & HM2 & HM3). pose proof (calls_app _ _ _ _ _ HC3 HC4) as HC5. rewrite app_assoc in HC5. eapply MmapUndone; [exact HC5 | | | exact Ha | exact Hst].
    all: rewrite ?closed_app, ?opened_app, ?requests_app, ?HM1, ?HM2, ?HM3, ?Hcl, ?HR; done.
Qed.

(** ** Unmapping *)

(** [w'] is [w] after the calls [cs], with the tables [t']. *)
Definition changes (w : ClientWorld) (cs : list Call) (t' : ShmMetaDataMgr) (w' : ClientWorld) : Prop := calls (set_shm (fun _ => t') w) cs w'.

Lemma calls_set_shm t' w cs w' : calls w cs w' -> calls (set_shm (fun _ => t') w) cs (set_shm (fun _ => t') w').
Proof. intros (es & [] & H). exists es. split; [|done]. by split. Qed.

Lemma calls_changes w cs w' : calls w cs w' -> changes w cs (cw_shm w) w'.
Proof. intros H. unfold changes. by destruct w. Qed.

Lemma changes_set w cs t1 w1 t2 : changes w cs t1 w1 -> changes w cs t2 (set_shm (fun _ => t2) w1).
Proof. unfold changes. intros H. by apply (calls_set_shm t2) in H. Qed.

Lemma changes_calls w cs t1 w1 cs' w2 : changes w cs t1 w1 -> calls w1 cs' w2 -> changes w (cs ++ cs') t1 w2.
Proof. unfold changes. apply calls_app. Qed.

Lemma changes_shm w cs t' w' : changes w cs t' w' -> cw_shm w' = t'.
Proof. intros H. by apply calls_shm in H. Qed.

Lemma changes_connected w cs t' w' : changes w cs t' w' -> connected w -> connected w'.
Proof. intros H HC. by apply (calls_connected _ _ _ H). Qed.

Lemma changes_obmm w cs t' w' : changes w cs t' w' -> cw_obmm w' = cw_obmm w.
Proof. intros H. by apply calls_obmm in H. Qed.

Lemma mmap_done_changes w cs w1 t' : calls w cs w1 -> changes w cs t' (set_shm (fun _ => t') w1).
Proof. apply calls_set_shm. Qed.

(** The call that puts inaccessible memory in the place of a mapping. *)
Definition cover_call (m : ShmAppMetaData) (answer : Z) : Call :=
  CMap (md_addr m) (md_mapSize m) PROT_NONE (Z.lor (Z.lor MAP_FIXED MAP_PRIVATE) MAP_ANONYMOUS) (-1) 0 answer.

Inductive unmap_outcome (start size : Z) (w : ClientWorld) : Z -> ClientWorld -> Prop :=
  | UnmapRefused e : e <> UBSM_OK -> unmap_outcome start size w e w
  | UnmapUncovered name m w' :
      mAppShmInfoMap (cw_shm w) !! name = Some m -> md_addr m = start ->
      calls w [cover_call m MAP_FAILED] w' -> unmap_outcome start size w MXM_ERR_MMAP_VA_FAILED w'
  (** The daemon does not agree: the entry stays, without its descriptors. *)
  | UnmapKept name m a fds' cs code w' :
      mAppShmInfoMap (cw_shm w) !! name = Some m -> md_addr m = start -> md_mapSize m = size -> md_isLocked m = 0%Z -> code <> UBSM_OK ->
      closed cs = open_fds (md_fds m) -> length fds' = length (md_fds m) -> requests cs = [] -> opened cs = [] ->
      changes w ([cover_call m a] ++ cs ++ [CSend (QUnmap name) code])
        (set_infos <[name := set_segments fds' (md_addrs m) m]> (cw_shm w)) w' ->
      unmap_outcome start size w code w'
  (** Gone: descriptors closed, daemon told, entry removed, memory unmapped. *)
  | UnmapDone name m a cs u w' :
      mAppShmInfoMap (cw_shm w) !! name = Some m -> md_addr m = start -> md_mapSize m = size -> md_isLocked m = 0%Z ->
      closed cs = open_fds (md_fds m) -> requests cs = [] -> opened cs = [] ->
      changes w ([cover_call m a] ++ cs ++ [CSend (QUnmap name) UBSM_OK; CUnmap start size u]) (without_entry name m (cw_shm w)) w' ->
      unmap_outcome start size w UBSM_OK w'.

Lemma set_segments_ok name m fds : entry_ok name m -> length fds = length (md_fds m) -> entry_ok name (set_segments fds (md_addrs m) m).
Proof. intros [] H. split; cbn; try done. congruence. Qed.

Lemma without_replaced name m m' t : md_addr m' = md_addr m -> without_entry name m' (set_infos <[name := m']> t) = without_entry name m t.
Proof. intros H. unfold without_entry, set_infos. cbn. by rewrite delete_insert_eq, H. Qed.

Lemma UbsMemShmUnmmap_spec start size env w :
  connected w -> shm_inv (cw_shm w) -> wp (UbsMemShmUnmmap start size) (unmap_outcome start size w) env w.
Proof.
  intros HC HI. unfold UbsMemShmUnmmap. destruct (Z.eqb start 0) eqn:E0; csteps; [by constructor|].
  unfold GetNameByAddr, GetShmMetaFromName. rewrite E0. destruct (mAddr2NameMap (cw_shm w) !! start) as [name|] eqn:En; csteps; [|by constructor].
  destruct (sh_names _ HI _ _ En) as (m & Hm & Ha). rewrite Hm. destruct (sh_entries _ HI _ _ Hm) as (Hok & _ & _).
  rewrite Ha, Z.eqb_refl. cbn [negb]. destruct (Z.eqb (md_mapSize m) size) eqn:Es; cbn [negb]; csteps; [|by constructor]. apply Z.eqb_eq in Es.
  destruct (Z.eqb (md_isLocked m) 0) eqn:El; cbn [negb]; csteps; [|by constructor]. apply Z.eqb_eq in El.
  apply cwp_ev. intros a _. rewrite <- Ha in *. clear start Ha En E0.
  pose proof (calls_one (MemoryMap (md_addr m) (md_mapSize m) PROT_NONE (Z.lor (Z.lor MAP_FIXED MAP_PRIVATE) MAP_ANONYMOUS) (-1) 0) a w) as HC1.
  change [view _] with [cover_call m a] in HC1. set (w1 := log_event _ w) in *.
  destruct (Z.eqb a MAP_FAILED) eqn:Ea; csteps. { apply Z.eqb_eq in Ea. subst a. by eapply UnmapUncovered. }
  cuse (close_meta_spec m env w1). intros m' w2 (cs & fds' & HC2 & Hcl & Hop & HR & Hlen & ->). csteps.
  pose proof (calls_app _ _ _ _ _ HC1 HC2) as HC3. pose proof (set_segments_ok name m fds' Hok Hlen) as Hok'.
  set (m' := set_segments fds' (md_addrs m) m) in *. assert (md_name m' = name) as -> by apply Hok'.
  destruct (UpdateMetaData_inv name m m' (cw_shm w) HI Hm Hok' eq_refl eq_refl) as [Hupd HI'].
  assert (set_shm (fun t => (UpdateMetaData name m' t).2) w2 = set_shm (fun _ => set_infos <[name := m']> (cw_shm w)) w2) as ->.
  { unfold set_shm. by rewrite (calls_shm _ _ _ HC3), Hupd. }
  pose proof (mmap_done_changes _ _ _ (set_infos <[name := m']> (cw_shm w)) HC3) as HD. set (w3 := set_shm _ w2) in *.
  unfold ShmIpcCommand.IpcCallShmUnMap. cuse (request_calls (IPC_RACKMEMSHM_UNMMAP "default" name) env w3 (changes_connected _ _ _ _ HD HC)).
  intros c w4 (code & HC4 & ->). pose proof (changes_calls _ _ _ _ _ _ HD HC4) as HD4. rewrite <- app_assoc in HD4. cbn [req_of] in HD4.
  destruct (Z.eqb code UBSM_OK) eqn:Ec; cbn [negb]; csteps; [|apply Z.eqb_neq in Ec; by eapply UnmapKept].
  apply Z.eqb_eq in Ec. subst code. rewrite (changes_shm _ _ _ _ HD4).
  assert (mAppShmInfoMap (set_infos <[name := m']> (cw_shm w)) !! name = Some m') as Hm' by apply lookup_insert_eq.
  destruct (RemoveMetaData_inv name m' _ HI' Hm') as [Hrem _]. change (md_addr m') with (md_addr m) in Hrem. rewrite Hrem.
  rewrite (without_replaced name m m' (cw_shm w) eq_refl). change (Z.eqb UBSM_OK UBSM_OK) with true. cbn [negb]. csteps.
  apply cwp_ev. intros u _. csteps. pose proof (changes_set _ _ _ _ (without_entry name m (cw_shm w)) HD4) as HD5.
  pose proof (changes_calls _ _ _ _ _ _ HD5 (calls_one (MemoryUnMap (md_addr m) (md_mapSize m)) u _)) as HD6.
  eapply UnmapDone; try done. rewrite <- Es. rewrite <- !app_assoc in HD6. exact HD6.
Qed.

(** * Client library: scripted surroundings.

    A daemon, a kernel and libraries that answer as told, for runs of the library on concrete
    inputs. *)

(** [sc_transport n]: the code of the n-th call if it goes to the connection object; [sc_code n]: the daemon's code;
    [sc_body]: its answer to a request to map; [sc_place]: where the kernel maps when no address
    is fixed; [sc_refuses n]: the n-th call, if it maps, fails. *)
Record Script := mkScript {
  sc_transport : nat -> Z;
  sc_code : nat -> Z;
  sc_body : ShmMapBody;
  sc_place : Z;
  sc_refuses : nat -> bool;
}.

Definition body_of (b : ShmMapBody) {A} (op : IpcOp A) : A :=
  match op in IpcOp A return A with
  | IPC_RACKMEMSHM_MMAP _ _ _ _ _ => b
  | IPC_RACKMEMSHM_CREATE _ _ _ _ _ _ _ | IPC_RACKMEMSHM_CREATE_WITH_PROVIDER _ _ _ _ _ _ _ _ | IPC_RACKMEMSHM_DELETE _ _
  | IPC_RACKMEMSHM_UNMMAP _ _ | IPC_REGION_CREATE_REGION _ _ | IPC_REGION_DESTROY_REGION _ | IPC_RACKMEMSHM_WRITELOCK _ _
  | IPC_RACKMEMSHM_READLOCK _ _ | IPC_RACKMEMSHM_UNLOCK _ _ | IPC_RACKMEMSHM_ATTACH _ _ | IPC_RACKMEMSHM_DETACH _ _
  | IPC_CHECK_SHARE_MEMORY _ | IPC_SUSPEND_CLIENT | IPC_RESUME_CLIENT | IPC_FREE_RACKMEM _ _ _ | IPC_FORCE_FREE_CACHED_MEMORY
  | IPC_CHECK_MEMORY_LEASE _ => tt
  | IPC_RACKMEMSHM_LOOKUP_SHAREREGIONS _ _ | IPC_REGION_LOOKUP_REGION_LIST _ _ => mkRegions 0 []
  | IPC_REGION_LOOKUP_REGION _ => inhabitant
  | RPC_AGENT_QUERY_NODE_INFO => EmptyString
  | IPC_RACKMEMSHM_LOOKUP_LIST _ _ => []
  | IPC_RACKMEMSHM_LOOKUP _ _ => mkShmemInfo EmptyString 0 [] 0
  | IPC_RACKMEMSHM_QUERY_NODE _ => (false, EmptyString)
  | IPC_RACKMEMSHM_QUERY_DLOCK_STATUS => false
  | IPC_RACKMEMSHM_QUERY_SLOT_ID => 0%Z
  | IPC_MALLOC_MEMORY _ _ _ _ | IPC_MALLOC_MEMORY_LOC _ _ _ _ _ _ => mkMallocBody (mb_memIds b) 0 (mb_unitSize b) "lease"
  | IPC_QUERY_CLUSTERINFO => []
  | IPC_QUERY_CACHED_MEMORY => []
  end.

Definition scripted (s : Script) (R : Type) (n : nat) (e : Ev R) : R :=
  match e in Ev R return R with
  | SetEnv | ClientStart | ClientConnect | ClientStop | ClientSetPostReconnectHandler => sc_transport s n
  | ClientSend op => (sc_transport s n, (sc_code s n, body_of (sc_body s) op))
  | MemoryMap addr len _ flags _ _ =>
      if sc_refuses s n then MAP_FAILED
      else if has_flag flags MAP_FIXED || has_flag flags MAP_FIXED_NOREPLACE then addr
      else if Z.leb len (2 ^ 40) then sc_place s else MAP_FAILED
  | PosixMemalign _ size => if Z.leb size (2 ^ 40) then (0%Z, sc_place s) else (12%Z, 0%Z)
  | OpenShmdev id _ => id
  | MemoryUnMap _ _ | MemoryBind _ _ _ _ _ _ | Close _ | ObmmSetOwnership _ _ _ _ | DlClose _ | UbseFaultEventRegister | TracerInit => 0%Z
  | Free _ | UbseLogCallBackRegister | TracerUnInit => tt
  | DlOpen _ | DlSym _ => 1%Z
  end.

Definition env_of (s : Script) : ClientEnv := mkClientEnv (scripted s) 4096 false false.

(** Such surroundings are what the code relies on, as long as nothing is mapped. *)
Lemma scripted_honest s t :
  mMappedMemoryAddress t = [] -> (0 < sc_place s <= 2 ^ 40)%Z -> (mb_unitSize (sc_body s) <= UINTPTR_MAX)%Z -> honest_env (env_of s) t.
Proof.
  intros Ht Hp Hu R n e. assert (forall len, (len <= 2 ^ 40)%Z -> fresh_at t (sc_place s) len) as HF.
  { intros len Hlen. split; [lia|]. split; [unfold UINTPTR_MAX; lia|]. intros x Hx. rewrite Ht in Hx. by apply elem_of_nil in Hx. }
  destruct e as [| | | |A op| |addr len prot flags fd off| | |align size| | | | | | | | | | |]; try done.
  - by destruct op.
  - cbn [honest env_of ce_answer scripted]. destruct (sc_refuses s n); [by left|]. destruct (has_flag flags MAP_FIXED); cbn [orb]; [by right|].
    destruct (has_flag flags MAP_FIXED_NOREPLACE); [by right; left|]. destruct (Z.leb len (2 ^ 40)) eqn:E; [|by left].
    right. right. apply HF. by apply Z.leb_le.
  - cbn [honest env_of ce_answer scripted]. destruct (Z.leb size (2 ^ 40)) eqn:E; [|by left]. right. apply HF. by apply Z.leb_le.
Qed.

(** Everything works; two memory ids of 4 MB each make a memory of 6 MB with locks. *)
Definition MB : Z := (1024 * 1024)%Z.
Definition plain_body : ShmMapBody := mkMapBody [7; 8]%Z (6 * MB) (4 * MB) UBSM_FLAG_WITH_LOCK O_RDWR.
Definition plain : Script := mkScript (fun _ => 0%Z) (fun _ => 0%Z) plain_body (2 ^ 32) (fun _ => false).

(** A process that is connected and has the driver's library. *)
Definition ready_client : ClientWorld :=
  mkClient (mkLink true 1 false) RUNNING (mkShmMgr ∅ ∅ []) ∅ (mkLib [] true) (mkExecutor true true) (mkUbse false false false None) false [].

Lemma ready_connected : connected ready_client.
Proof. split; [by left | done]. Qed.
