(* ===== verification/ClientShmOwn.v ===== *)
(** Client library: access rights and locks of mapped shared memory.

    The driver is called once per segment, each time with the part of the requested range that
    lies in the segment; together these parts are the range. *)

From S2P Require Import Prelude RegionTypes Client ClientTables ClientIpc ClientShm ClientWp ClientShmInv ClientShmMap.

Import ShmTables RackMemShm.

(** The ranges follow one another from [start] to [en]. *)
Fixpoint covers (start : Z) (l : list (Z * Z)) (en : Z) : Prop :=
  match l with [] => start = en | (s, e) :: l => s = start /\ (s < e)%Z /\ covers e l en end.

(** The part of [[start, en)] in segment [i], from [i0] to [i1]. *)
Definition tile (m : ShmAppMetaData) (i0 i1 start en i : Z) : Z * Z :=
  (if Z.eqb i i0 then start else md_addr m + i * md_unitSize m, if Z.eqb i i1 then en else md_addr m + (i + 1) * md_unitSize m)%Z.

Definition own_call (m : ShmAppMetaData) (prot i : Z) (x : Z * Z) : Call := COwn (md_fds m !!! Z.to_nat i) x.1 x.2 prot 0.

(** The calls for a range. *)
Definition own_calls (m : ShmAppMetaData) (i0 i1 start en prot : Z) : list Call :=
  (fun i => own_call m prot i (tile m i0 i1 start en i)) <$> seqZ i0 (i1 - i0 + 1).

(** A range from segment [i0] to segment [i1] of a mapping, and the length of its part in the first. *)
Record in_segments (m : ShmAppMetaData) (i0 i1 start en used : Z) : Prop := mk_in_segments {
  is_order : (0 <= i0 <= i1)%Z;
  is_last : (i1 < units (md_mapSize m) (md_unitSize m))%Z;
  is_start : (md_addr m + i0 * md_unitSize m <= start < md_addr m + (i0 + 1) * md_unitSize m)%Z;
  is_en : (md_addr m + i1 * md_unitSize m < en <= md_addr m + (i1 + 1) * md_unitSize m)%Z;
  is_nonempty : (start < en)%Z;
  is_inside : (en <= md_addr m + md_mapSize m)%Z;
  is_used : (used = if Z.eqb i0 i1 then en - start else md_addr m + (i0 + 1) * md_unitSize m - start)%Z;
}.

Lemma covers_tiles_from m i0 i1 start en used i n :
  in_segments m i0 i1 start en used -> (0 < md_unitSize m)%Z -> (i0 <= i)%Z -> (i + Z.of_nat n = i1 + 1)%Z -> (i <= i1)%Z ->
  covers (if Z.eqb i i0 then start else md_addr m + i * md_unitSize m) (tile m i0 i1 start en <$> seqZ i (Z.of_nat n)) en.
Proof.
  intros HS Hu. revert i. induction n as [|n IH]; intros i Hi Hn Hle; [lia|].
  rewrite seqZ_cons by lia. replace (Z.pred (Z.of_nat (S n))) with (Z.of_nat n) by lia. rewrite <- Z.add_1_r.
  destruct HS as [H1 H2 H3 H4 H5 H6 H7]. cbn [fmap list_fmap covers tile]. split; [done|].
  destruct (Z.eqb i i1) eqn:E1; [apply Z.eqb_eq in E1 | apply Z.eqb_neq in E1].
  - assert (n = 0) as -> by lia. split; [|done]. destruct (Z.eqb i i0) eqn:E0; [done|]. apply Z.eqb_neq in E0. subst i. lia.
  - split.
    + destruct (Z.eqb i i0) eqn:E0; [apply Z.eqb_eq in E0; subst i; lia | nia].
    + pose proof (IH (i + 1)%Z ltac:(lia) ltac:(lia) ltac:(lia)) as H. rewrite (proj2 (Z.eqb_neq (i + 1) i0)) in H by lia. exact H.
Qed.

Lemma covers_tiles m i0 i1 start en used :
  in_segments m i0 i1 start en used -> (0 < md_unitSize m)%Z -> covers start (tile m i0 i1 start en <$> seqZ i0 (i1 - i0 + 1)) en.
Proof.
  intros HS Hu. pose proof (covers_tiles_from m i0 i1 start en used i0 (Z.to_nat (i1 - i0 + 1)) HS Hu) as H. destruct HS.
  rewrite Z.eqb_refl, Z2Nat.id in H by lia. apply H; lia.
Qed.

Lemma units_seg_bound m i : (0 < md_mapSize m)%Z -> (0 < md_unitSize m)%Z -> (i < units (md_mapSize m) (md_unitSize m))%Z ->
  (md_addr m + i * md_unitSize m < md_addr m + md_mapSize m)%Z.
Proof. intros Hs Hu Hi. pose proof (units_bounds _ _ Hs Hu) as [_ H]. nia. Qed.

Lemma addrs_lookup name m i : entry_ok name m -> (0 <= i < units (md_mapSize m) (md_unitSize m))%Z ->
  (md_addrs m !!! Z.to_nat i).1 = (md_addr m + i * md_unitSize m)%Z.
Proof.
  intros Hok Hi. rewrite (eo_segments _ _ Hok). unfold segments.
  rewrite (list_lookup_total_correct _ _ (segment (md_addr m) (md_unitSize m) (md_mapSize m) i)); [done|].
  rewrite list_lookup_fmap. apply fmap_Some. exists i. split; [|done]. rewrite lookup_seqZ. lia.
Qed.

Section Switch.
Context (env : ClientEnv) (name : string) (m : ShmAppMetaData) (i0 i1 start en used prot : Z).
Context (Hok : entry_ok name m) (HS : in_segments m i0 i1 start en used).

(** What the loop computes for segment [i] is its part of the range. *)
Lemma tile_switch i offset :
  (i0 <= i <= i1)%Z -> offset = (if Z.eqb i i0 then 0 else i - i0 - 1)%Z ->
  let sa := if Z.eqb i i0 then start else (md_addrs m !!! Z.to_nat i).1 in
  let len := if Z.eqb i i0 then used else Z.min (u64 (en - start - offset * md_unitSize m - used)) (md_unitSize m) in
  (sa, u64 (sa + len)) = tile m i0 i1 start en i.
Proof.
  intros Hi Hoff. cbv zeta. pose proof HS as [H1 H2 H3 H4 H5 H6 H7]. pose proof Hok as [_ _ HA HB HC HU _ _ _]. unfold tile.
  rewrite (addrs_lookup name m i Hok) by lia.
  assert (forall x, (0 <= x <= UINTPTR_MAX)%Z -> u64 x = x) as Hu64 by (intros x Hx; unfold u64; apply Z.mod_small; unfold UINTPTR_MAX in *; lia).
  destruct (Z.eqb i i0) eqn:E; [apply Z.eqb_eq in E; subst i offset | apply Z.eqb_neq in E].
  - f_equal. rewrite H7. destruct (Z.eqb i0 i1) eqn:E2; [apply Z.eqb_eq in E2 | apply Z.eqb_neq in E2]; rewrite Hu64; nia.
  - assert (Z.eqb i0 i1 = false) as E2 by (apply Z.eqb_neq; lia). rewrite E2 in H7. f_equal.
    replace (en - start - offset * md_unitSize m - used)%Z with (en - (md_addr m + i * md_unitSize m))%Z by (subst used offset; ring).
    assert (md_addr m + i * md_unitSize m < en)%Z as Hlt by nia. rewrite (Hu64 (en - _)%Z) by nia.
    destruct (Z.eqb i i1) eqn:E3; [apply Z.eqb_eq in E3; subst i | apply Z.eqb_neq in E3].
    + rewrite Z.min_l by lia. rewrite Hu64; lia.
    + rewrite Z.min_r by nia. rewrite Hu64; nia.
Qed.

(** All calls from segment [i] on, or some and a failure. *)
Lemma switch_segments_spec i n w :
  ex_fn (cw_obmm w) = true -> (i0 <= i)%Z -> (i + Z.of_nat n = i1 + 1)%Z ->
  wp (switch_segments (seqZ i (Z.of_nat n)) i0 (Z.eqb i i0) m start (en - start) prot used)
    (fun r w' => r = UBSM_OK /\ calls w ((fun i => own_call m prot i (tile m i0 i1 start en i)) <$> seqZ i (Z.of_nat n)) w' \/
                 r = MXM_ERR_OBMM_INNER /\ exists cs, calls w cs w' /\ requests cs = []) env w.
Proof.
  revert i w. induction n as [|n IH]; intros i w Hfn Hi Hn.
  { cbn. csteps. left. split; [done|]. apply calls_nil. }
  rewrite seqZ_cons by lia. replace (Z.pred (Z.of_nat (S n))) with (Z.of_nat n) by lia. rewrite <- Z.add_1_r. cbn [switch_segments].
  pose proof HS as [H1 H2 H3 H4 H5 H6 H7]. pose proof Hok as [_ _ HA HB HC HU _ _ _].
  pose proof (units_seg_bound m i HB ltac:(lia) ltac:(lia)) as Hseg.
  set (offset := if Z.eqb i i0 then 0%Z else u64 (i - i0 - 1)).
  assert (offset = if Z.eqb i i0 then 0 else i - i0 - 1)%Z as Hoff.
  { unfold offset. destruct (Z.eqb i i0) eqn:E; [done|]. apply Z.eqb_neq in E. unfold u64. apply Z.mod_small. unfold UINTPTR_MAX in *. nia. }
  assert (0 <= offset * md_unitSize m <= en - start)%Z as Hmul.
  { rewrite Hoff. destruct (Z.eqb i i0) eqn:E; [lia|]. apply Z.eqb_neq in E. nia. }
  assert (0 <= used /\ offset * md_unitSize m + used <= en - start)%Z as Hused.
  { rewrite Hoff, H7. destruct (Z.eqb i i0) eqn:E; [apply Z.eqb_eq in E; subst i | apply Z.eqb_neq in E]; destruct (Z.eqb i0 i1) eqn:E2;
      [apply Z.eqb_eq in E2 | apply Z.eqb_neq in E2 | apply Z.eqb_eq in E2 | apply Z.eqb_neq in E2]; nia. }
  rewrite (proj2 (Z.eqb_neq (md_unitSize m) 0)) by lia.
  assert (offset <= UINTPTR_MAX / md_unitSize m)%Z as Hdiv by (apply Z.div_le_lower_bound; lia).
  rewrite (proj2 (Z.ltb_ge _ _) Hdiv). cbn [orb].
  assert (u64 (offset * md_unitSize m) = offset * md_unitSize m)%Z as Hu1 by (unfold u64; apply Z.mod_small; unfold UINTPTR_MAX in *; lia). rewrite Hu1.
  assert (u64 (offset * md_unitSize m + used) = offset * md_unitSize m + used)%Z as Hu2 by (unfold u64; apply Z.mod_small; unfold UINTPTR_MAX in *; lia). rewrite Hu2.
  rewrite !(proj2 (Z.ltb_ge _ _)) by lia. cbn [orb].
  set (sa := if Z.eqb i i0 then start else (md_addrs m !!! Z.to_nat i).1).
  set (len := if Z.eqb i i0 then used else Z.min (u64 (en - start - offset * md_unitSize m - used)) (md_unitSize m)).
  assert ((sa, u64 (sa + len)) = tile m i0 i1 start en i) as Htile by (apply tile_switch; lia).
  apply cwp_bind. unfold obmm_set_ownership. csteps. rewrite Hfn. apply cwp_ev. intros a _.
  pose proof (calls_one (ObmmSetOwnership (md_fds m !!! Z.to_nat i) sa (u64 (sa + len)) prot) a w) as HC1. set (w1 := log_event _ w) in *.
  destruct (Z.eqb a 0) eqn:Ea; cbn [negb]; csteps; [|right; split; [done|]; eexists; split; [exact HC1 | done]].
  apply Z.eqb_eq in Ea. subst a.
  assert (COwn (md_fds m !!! Z.to_nat i) sa (u64 (sa + len)) prot 0 = own_call m prot i (tile m i0 i1 start en i)) as Hcall
    by (rewrite <- Htile; done). cbn [view] in HC1. rewrite Hcall in HC1.
  pose proof (IH (i + 1)%Z w1 Hfn ltac:(lia) ltac:(lia)) as IH1. rewrite (proj2 (Z.eqb_neq (i + 1) i0)) in IH1 by lia.
  cuse IH1. intros r w' [(-> & HC2) | (-> & cs & HC2 & HR)]; [left | right]; (split; [done|]).
  - cbn [fmap list_fmap]. exact (calls_app _ _ _ _ _ HC1 HC2).
  - eexists. split; [exact (calls_app _ _ _ _ _ HC1 HC2) | done].
Qed.
End Switch.

(** ** Ranges *)

Lemma units_ceil size unit x : (0 < size)%Z -> (0 < unit)%Z -> (0 <= x < size)%Z -> (x / unit < units size unit)%Z.
Proof.
  intros Hs Hu Hx. pose proof (units_bounds size unit Hs Hu) as [_ H]. apply Z.div_lt_upper_bound; lia.
Qed.

Lemma addrs_length name m : entry_ok name m -> Z.of_nat (length (md_addrs m)) = units (md_mapSize m) (md_unitSize m).
Proof.
  intros Hok. pose proof Hok as [_ _ _ HB _ HU _ _ _]. pose proof (units_bounds (md_mapSize m) (md_unitSize m) HB ltac:(lia)) as [H _].
  rewrite (eo_segments _ _ Hok), segments_length by lia. lia.
Qed.

Lemma quotients base unit start en :
  (0 < unit -> base <= start < en ->
   let i0 := (start - base) / unit in let i1 := (en - 1 - base) / unit in
   0 <= i0 <= i1 /\ base + i0 * unit <= start < base + (i0 + 1) * unit /\ base + i1 * unit < en <= base + (i1 + 1) * unit)%Z.
Proof.
  intros Hu Hse. cbv zeta. pose proof (Z.div_mod (start - base) unit ltac:(lia)) as HD. pose proof (Z.mod_pos_bound (start - base) unit Hu) as HM.
  pose proof (Z.div_mod (en - 1 - base) unit ltac:(lia)) as HD1. pose proof (Z.mod_pos_bound (en - 1 - base) unit Hu) as HM1.
  split; [|nia]. split; [apply Z.div_pos; lia | apply Z.div_le_mono; lia].
Qed.

(** What a range must satisfy to be accepted. *)
Definition aligned_part (m : ShmAppMetaData) (start length : Z) : Prop :=
  (0 < length /\ md_addr m <= start /\ start + length <= md_addr m + md_mapSize m /\ (start - md_addr m) mod FOUR_KB = 0)%Z.

Definition used_of (m : ShmAppMetaData) (start length : Z) : Z :=
  let i0 := ((start - md_addr m) / md_unitSize m)%Z in
  let i1 := ((start + length - 1 - md_addr m) / md_unitSize m)%Z in
  if Z.eqb i0 i1 then length else (md_addr m + (i0 + 1) * md_unitSize m - start)%Z.

Definition first_of (m : ShmAppMetaData) (start : Z) : Z := ((start - md_addr m) / md_unitSize m)%Z.
Definition last_of (m : ShmAppMetaData) (start length : Z) : Z := ((start + length - 1 - md_addr m) / md_unitSize m)%Z.

Lemma part_in_segments name m start length :
  entry_ok name m -> aligned_part m start length ->
  in_segments m (first_of m start) (last_of m start length) start (start + length) (used_of m start length).
Proof.
  intros Hok (H1 & H2 & H3 & H4). pose proof Hok as [_ _ HA HB HC HU _ _ _].
  pose proof (quotients (md_addr m) (md_unitSize m) start (start + length) ltac:(lia) ltac:(lia)) as (Q1 & Q2 & Q3).
  fold (first_of m start) (last_of m start length) in *.
  split; try lia.
  - apply units_ceil; lia.
  - unfold used_of. fold (first_of m start) (last_of m start length). destruct (Z.eqb _ _); lia.
Qed.

(** The check of a range accepts exactly the page aligned parts of the mapping. *)
Lemma GetSegments_exact name m start length :
  entry_ok name m -> (0 <= start)%Z -> (0 <= length)%Z ->
  aligned_part m start length /\
    GetSegmentsAndFirstUsage m start length = inr (used_of m start length, index_range (first_of m start) (last_of m start length)) \/
  ~ aligned_part m start length /\ GetSegmentsAndFirstUsage m start length = inl MXM_ERR_PARAM_INVALID.
Proof.
  intros Hok H0 Hl. pose proof Hok as [_ _ HA HB HC HU _ _ _]. unfold GetSegmentsAndFirstUsage.
  destruct (Z.eqb start 0 || Z.eqb length 0) eqn:E1.
  { right. split; [|done]. intros (P1 & P2 & _). apply orb_true_iff in E1 as [E1|E1]; apply Z.eqb_eq in E1; lia. }
  apply orb_false_iff in E1 as [E1 E2]. apply Z.eqb_neq in E1, E2.
  destruct (Z.ltb start (md_addr m)) eqn:E3; [apply Z.ltb_lt in E3; right; split; [|done]; intros (_ & P2 & _); lia|]. apply Z.ltb_ge in E3.
  destruct (Z.eqb ((start - md_addr m) mod FOUR_KB) 0) eqn:E4; cbn [negb]; cycle 1.
  { apply Z.eqb_neq in E4. right. split; [|done]. intros (_ & _ & _ & P4). done. }
  apply Z.eqb_eq in E4. destruct (Z.ltb (UINTPTR_MAX - start) length) eqn:E5.
  { apply Z.ltb_lt in E5. right. split; [|done]. intros (_ & _ & P3 & _). lia. }
  apply Z.ltb_ge in E5. assert (forall x, (0 <= x <= UINTPTR_MAX)%Z -> u64 x = x) as Hu64 by (intros x Hx; unfold u64; apply Z.mod_small; unfold UINTPTR_MAX in *; lia).
  rewrite (Hu64 (start + length)%Z), (Hu64 (md_addr m + md_mapSize m)%Z) by lia. rewrite (proj2 (Z.ltb_ge (start + length) start)) by lia.
  rewrite (proj2 (Z.ltb_ge (UINTPTR_MAX - md_addr m) (md_mapSize m))) by lia. cbn [orb].
  destruct (Z.ltb (md_addr m + md_mapSize m) (start + length)) eqn:E6.
  { apply Z.ltb_lt in E6. right. split; [|done]. intros (_ & _ & P3 & _). lia. }
  apply Z.ltb_ge in E6. assert (aligned_part m start length) as HP by (unfold aligned_part; lia).
  left. split; [done|]. rewrite (proj2 (Z.eqb_neq (md_unitSize m) 0)) by lia.
  destruct (part_in_segments _ _ _ _ Hok HP) as [S1 S2 S3 S4 S5 S6 S7].
  fold (first_of m start) (last_of m start length). rewrite (addrs_length _ _ Hok).
  rewrite (proj2 (Z.ltb_ge (first_of m start) 0)), (proj2 (Z.ltb_ge (last_of m start length) (first_of m start))), (proj2 (Z.leb_gt _ _)) by lia. cbn [orb].
  rewrite (addrs_lookup _ _ _ Hok) by lia. unfold used_of. fold (first_of m start) (last_of m start length).
  rewrite (Hu64 (_ + _ - start)%Z) by lia. do 2 f_equal. destruct (Z.eqb _ _); [done|]. ring.
Qed.

(** ** Access rights of a range *)

Definition cacheable (m : ShmAppMetaData) : Prop := Z.land (md_flag m) UBSM_FLAG_ONLY_IMPORT_NONCACHE = 0%Z /\ Z.land (md_flag m) UBSM_FLAG_NONCACHE = 0%Z.

Inductive own_outcome (name : string) (start length : Z) (status : ShmOwnStatus) (w : ClientWorld) : Z -> ClientWorld -> Prop :=
  | OwnRefused e :
      e <> UBSM_OK -> (forall m, mAppShmInfoMap (cw_shm w) !! name = Some m -> aligned_part m start length -> ~ cacheable m) ->
      own_outcome name start length status w e w
  | OwnDone m w' :
      mAppShmInfoMap (cw_shm w) !! name = Some m -> aligned_part m start length -> cacheable m ->
      calls w (own_calls m (first_of m start) (last_of m start length) start (start + length) (prot_of status)) w' ->
      own_outcome name start length status w UBSM_OK w'
  | OwnFailed m cs w' :
      mAppShmInfoMap (cw_shm w) !! name = Some m -> aligned_part m start length -> cacheable m ->
      calls w cs w' -> requests cs = [] -> own_outcome name start length status w MXM_ERR_OBMM_INNER w'.

Lemma in_segments_switch env name m i0 i1 start en used prot w :
  entry_ok name m -> in_segments m i0 i1 start en used -> ex_fn (cw_obmm w) = true ->
  wp (switch_segments (index_range i0 i1) i0 true m start (en - start) prot used)
    (fun r w' => r = UBSM_OK /\ calls w (own_calls m i0 i1 start en prot) w' \/
                 r = MXM_ERR_OBMM_INNER /\ exists cs, calls w cs w' /\ requests cs = []) env w.
Proof.
  intros Hok HS Hfn. pose proof (is_order _ _ _ _ _ _ HS) as Ho.
  pose proof (switch_segments_spec env name m i0 i1 start en used prot Hok HS i0 (Z.to_nat (i1 - i0 + 1)) w Hfn) as H.
  rewrite Z.eqb_refl, Z2Nat.id in H by lia. apply H; lia.
Qed.

Lemma head_index_range i0 i1 : (i0 <= i1)%Z -> default 0%Z (head (index_range i0 i1)) = i0 /\ length (index_range i0 i1) <> 0.
Proof. intros H. unfold index_range. rewrite seqZ_cons by lia. done. Qed.

Lemma UbsMemShmSetOwnerShip_spec name start length status env w :
  shm_inv (cw_shm w) -> ex_fn (cw_obmm w) = true -> (0 <= start)%Z ->
  wp (UbsMemShmSetOwnerShip name start length status) (own_outcome name start length status w) env w.
Proof.
  intros HI Hfn H0. unfold UbsMemShmSetOwnerShip.
  destruct (Z.eqb start 0) eqn:E0. { csteps. apply Z.eqb_eq in E0. constructor; [done|]. intros m Hm (_ & P & _). destruct (sh_entries _ HI _ _ Hm) as ([] & _). lia. }
  destruct (String.eqb name "") eqn:En. { csteps. apply String.eqb_eq in En. constructor; [done|]. intros m Hm. destruct (sh_entries _ HI _ _ Hm) as ([] & _). done. }
  destruct (Z.leb length 0) eqn:El. { csteps. apply Z.leb_le in El. constructor; [done|]. intros m Hm (P & _). lia. }
  apply Z.leb_gt in El. csteps. unfold CheckAddr. destruct (mAppShmInfoMap (cw_shm w) !! name) as [m|] eqn:Em; [|csteps; constructor; [done | congruence]].
  destruct (sh_entries _ HI _ _ Em) as (Hok & _).
  destruct (GetSegments_exact _ _ start length Hok H0 ltac:(lia)) as [(HP & ->) | (HP & ->)]; cycle 1.
  { csteps. constructor; [done|]. intros m' Hm' HP'. congruence. }
  pose proof (part_in_segments _ _ _ _ Hok HP) as HS. destruct (head_index_range _ _ (proj2 (is_order _ _ _ _ _ _ HS))) as [Hhd Hne].
  apply Nat.eqb_neq in Hne. rewrite Hne, (eo_fds _ _ Hok), Nat.eqb_refl. cbn [negb].
  destruct (Z.eqb (Z.land (md_flag m) UBSM_FLAG_ONLY_IMPORT_NONCACHE) 0) eqn:E1; [|cbn [negb orb]; csteps; constructor; [done|]; intros m' Hm' _ [C1 C2]; apply Z.eqb_neq in E1; congruence].
  destruct (Z.eqb (Z.land (md_flag m) UBSM_FLAG_NONCACHE) 0) eqn:E2; [|cbn [negb orb]; csteps; constructor; [done|]; intros m' Hm' _ [C1 C2]; apply Z.eqb_neq in E2; congruence].
  apply Z.eqb_eq in E1, E2. cbn [negb orb]. unfold UbsMemShmSetOwnerShipOpt. rewrite Hhd.
  pose proof (in_segments_switch env name m _ _ start (start + length) _ (prot_of status) w Hok HS Hfn) as Hsw.
  rewrite (ltac:(lia) : (start + length - start = length)%Z) in Hsw. cuse Hsw.
  intros r w' [(-> & HC) | (-> & cs & HC & HR)]; [by eapply OwnDone | by eapply OwnFailed].
Qed.

(** ** Locks *)

Lemma own_calls_requests m i0 i1 start en prot : requests (own_calls m i0 i1 start en prot) = [].
Proof. unfold own_calls, requests. induction (seqZ i0 (i1 - i0 + 1)) as [|i l IH]; [done|]. exact IH. Qed.

(** The calls that set the rights of a whole mapping. *)
Definition own_all (m : ShmAppMetaData) (status : ShmOwnStatus) : list Call :=
  own_calls m 0 (units (md_mapSize m) (md_unitSize m) - 1) (md_addr m) (md_addr m + md_mapSize m) (prot_of status).

(** [set_all] takes one unit as the length of the first part: this fits exactly if the mapping has a whole unit. *)
Lemma set_all_spec env name m status w :
  entry_ok name m -> ex_fn (cw_obmm w) = true ->
  wp (set_all m status)
    (fun r w' => (md_unitSize m <= md_mapSize m)%Z /\ r = UBSM_OK /\ calls w (own_all m status) w' \/
                 (md_unitSize m <= md_mapSize m)%Z /\ r = MXM_ERR_OBMM_INNER /\ (exists cs, calls w cs w' /\ requests cs = []) \/
                 (md_mapSize m < md_unitSize m)%Z /\ r = MXM_ERR_PARAM_INVALID /\ w' = w) env w.
Proof.
  intros Hok Hfn. pose proof Hok as [_ _ HA HB HC HU _ _ _]. pose proof (units_bounds (md_mapSize m) (md_unitSize m) HB ltac:(lia)) as [U1 U2].
  unfold set_all, UbsMemShmSetOwnerShipOpt. rewrite (addrs_length _ _ Hok). set (u := units (md_mapSize m) (md_unitSize m)) in *.
  destruct (Z.leb (md_unitSize m) (md_mapSize m)) eqn:E; [apply Z.leb_le in E | apply Z.leb_gt in E].
  - assert (in_segments m 0 (u - 1) (md_addr m) (md_addr m + md_mapSize m) (md_unitSize m)) as HS.
    { split; fold u; try lia. destruct (Z.eqb 0 (u - 1)) eqn:E2; [apply Z.eqb_eq in E2; assert (u = 1)%Z as Hu1 by lia; rewrite Hu1 in *; lia | lia]. }
    pose proof (in_segments_switch env name m 0 (u - 1) (md_addr m) (md_addr m + md_mapSize m) (md_unitSize m) (prot_of status) w Hok HS Hfn) as H.
    unfold index_range in H. rewrite (ltac:(lia) : (u - 1 - 0 + 1 = u)%Z), (ltac:(lia) : (md_addr m + md_mapSize m - md_addr m = md_mapSize m)%Z) in H.
    assert (default 0%Z (head (seqZ 0 u)) = 0%Z) as Hhd by (rewrite seqZ_cons by lia; done). rewrite Hhd.
    cuse H. intros r w' [(-> & HC1) | (-> & HC1)]; [left | right; left]; done.
  - right. right. split; [done|]. assert (u = 1)%Z as -> by nia. change (seqZ 0 1) with [0%Z]. cbn [head default switch_segments].
    rewrite (proj2 (Z.eqb_neq (md_unitSize m) 0)) by lia. rewrite (proj2 (Z.ltb_ge (UINTPTR_MAX / md_unitSize m) 0)) by (apply Z.div_pos; lia).
    cbn [orb]. by rewrite (proj2 (Z.ltb_lt _ _) E).
Qed.

Definition lock_entry (name : string) (w : ClientWorld) (m : ShmAppMetaData) : Prop :=
  mAppShmInfoMap (cw_shm w) !! name = Some m /\ md_flag m = UBSM_FLAG_WITH_LOCK.

Lemma lockable_spec name t :
  shm_inv t -> match lockable name t with
  | inl e => e <> UBSM_OK /\ (forall m, mAppShmInfoMap t !! name = Some m -> md_flag m <> UBSM_FLAG_WITH_LOCK)
  | inr m => mAppShmInfoMap t !! name = Some m /\ md_flag m = UBSM_FLAG_WITH_LOCK /\ entry_ok name m
  end.
Proof.
  intros HI. unfold lockable, GetShmMetaFromName. destruct (mAppShmInfoMap t !! name) as [m|] eqn:Em; [|done].
  destruct (sh_entries _ HI _ _ Em) as (Hok & _). rewrite (eo_fds _ _ Hok), Nat.eqb_refl, (eo_name _ _ Hok), String.eqb_refl. cbn [negb].
  destruct (Z.eqb (md_flag m) UBSM_FLAG_WITH_LOCK) eqn:E; cbn [negb]; [apply Z.eqb_eq in E; done | apply Z.eqb_neq in E].
  split; [done|]. intros m' [= <-]. done.
Qed.

Lemma set_locked_ok name m n status : entry_ok name m -> (0 <= n)%Z -> entry_ok name (set_locked n status m).
Proof. intros [] H. by split. Qed.

(** Read or write: the request that is sent. *)
Definition lock_req (status : ShmOwnStatus) (name : string) : Req := match status with READWRITE => QWriteLock name | _ => QReadLock name end.

Inductive lock_outcome (status : ShmOwnStatus) (name : string) (w : ClientWorld) : Z -> ClientWorld -> Prop :=
  | LockRefused e : e <> UBSM_OK -> (forall m, ~ lock_entry name w m) -> lock_outcome status name w e w
  | LockDenied m e w' :
      lock_entry name w m -> e <> UBSM_OK -> calls w [CSend (lock_req status name) e] w' -> lock_outcome status name w e w'
  (** The rights cannot be set: the lock is given back, the tables are as before. *)
  | LockUndone m e cs code w' :
      lock_entry name w m -> e <> UBSM_OK -> calls w cs w' ->
      requests cs = [(lock_req status name, UBSM_OK); (QUnLock name, code)] -> lock_outcome status name w e w'
  | LockDone m w' :
      lock_entry name w m -> (md_unitSize m <= md_mapSize m)%Z ->
      changes w ([CSend (lock_req status name) UBSM_OK] ++ own_all m status)
        (set_infos <[name := set_locked (md_isLocked m + 1) status m]> (cw_shm w)) w' ->
      lock_outcome status name w UBSM_OK w'.

Inductive unlock_outcome (name : string) (w : ClientWorld) : Z -> ClientWorld -> Prop :=
  | UnlockRefused e : e <> UBSM_OK -> (forall m, lock_entry name w m -> md_isLocked m = 0%Z) -> unlock_outcome name w e w
  | UnlockFailed m e cs w' :
      lock_entry name w m -> e <> UBSM_OK -> calls w cs w' -> requests cs = [] -> unlock_outcome name w e w'
  (** The daemon does not release the lock: what the tables say stays, the rights are set back. *)
  | UnlockDenied m e cs w' :
      lock_entry name w m -> e <> UBSM_OK -> calls w (own_all m UNACCESS ++ [CSend (QUnLock name) e] ++ cs) w' ->
      requests cs = [] -> unlock_outcome name w e w'
  | UnlockDone m w' :
      lock_entry name w m -> (0 < md_isLocked m)%Z ->
      let n := (md_isLocked m - 1)%Z in
      changes w (own_all m UNACCESS ++ [CSend (QUnLock name) UBSM_OK])
        (set_infos <[name := set_locked n (if Z.eqb n 0 then UNACCESS else md_lockedStatus m) m]> (cw_shm w)) w' ->
      unlock_outcome name w UBSM_OK w'.

Lemma shm_lock_spec ipc status env name w :
  (forall env w, connected w -> wp (ipc name) (fun c w' => exists code, calls w [CSend (lock_req status name) code] w' /\ c = code) env w) ->
  connected w -> shm_inv (cw_shm w) -> ex_fn (cw_obmm w) = true -> wp (shm_lock ipc status name) (lock_outcome status name w) env w.
Proof.
  intros Hipc HC HI Hfn. unfold shm_lock. csteps. pose proof (lockable_spec name (cw_shm w) HI) as HL.
  destruct (lockable name (cw_shm w)) as [e|m]; csteps. { constructor; [apply HL|]. intros m [H1 H2]. by apply (proj2 HL m). }
  destruct HL as (Hm & Hfl & Hok). assert (lock_entry name w m) as HE by done.
  cuse (Hipc env w HC). intros c w1 (code & HC1 & ->). destruct (Z.eqb code UBSM_OK) eqn:Ec; cbn [negb]; [|csteps; apply Z.eqb_neq in Ec; by eapply LockDenied].
  apply Z.eqb_eq in Ec. subst code. csteps. pose proof (set_all_spec env name m status w1 Hok) as Hset. rewrite (calls_obmm _ _ _ HC1) in Hset.
  assert (forall e cs w2, calls w1 cs w2 -> requests cs = [] -> e <> UBSM_OK ->
    wp (ShmIpcCommand.IpcShmemUnLock name ;; mret e) (lock_outcome status name w) env w2) as Hundo.
  { intros e cs w2 HC2 HR He. csteps. pose proof (calls_app _ _ _ _ _ HC1 HC2) as HC3. unfold ShmIpcCommand.IpcShmemUnLock.
    cuse (request_calls (IPC_RACKMEMSHM_UNLOCK "default" name) env w2 (calls_connected _ _ _ HC3 HC)). intros c w3 (code & HC4 & ->). csteps.
    eapply LockUndone; [done|done|exact (calls_app _ _ _ _ _ HC3 HC4)|]. rewrite !requests_app, HR. done. }
  cuse (Hset Hfn). intros r w2 [(Hle & -> & HC2) | [(_ & -> & cs & HC2 & HR) | (_ & -> & ->)]]; cycle 1.
  { change (Z.eqb MXM_ERR_OBMM_INNER 0) with false. cbn [negb]. by apply (Hundo _ cs). }
  { change (Z.eqb MXM_ERR_PARAM_INVALID 0) with false. cbn [negb]. apply (Hundo _ []); [apply calls_nil|done|done]. }
  change (Z.eqb UBSM_OK 0) with true. cbn [negb]. csteps. pose proof (calls_app _ _ _ _ _ HC1 HC2) as HC3. rewrite (calls_shm _ _ _ HC3).
  pose proof (set_locked_ok name m (md_isLocked m + 1) status Hok ltac:(pose proof (eo_locked _ _ Hok); lia)) as Hok'.
  destruct (UpdateMetaData_inv name m _ (cw_shm w) HI Hm Hok' eq_refl eq_refl) as [-> _]. csteps. change (BresultFail UBSM_OK) with false. csteps.
  eapply LockDone; [done|done|]. by apply mmap_done_changes.
Qed.

Lemma UbsMemShmWriteLock_spec env name w :
  connected w -> shm_inv (cw_shm w) -> ex_fn (cw_obmm w) = true -> wp (UbsMemShmWriteLock name) (lock_outcome READWRITE name w) env w.
Proof. apply shm_lock_spec. intros env' w' H. apply (request_calls (IPC_RACKMEMSHM_WRITELOCK "default" name) env' w' H). Qed.

Lemma UbsMemShmReadLock_spec env name w :
  connected w -> shm_inv (cw_shm w) -> ex_fn (cw_obmm w) = true -> wp (UbsMemShmReadLock name) (lock_outcome READ name w) env w.
Proof. apply shm_lock_spec. intros env' w' H. apply (request_calls (IPC_RACKMEMSHM_READLOCK "default" name) env' w' H). Qed.

Lemma UbsMemShmUnLock_spec env name w :
  connected w -> shm_inv (cw_shm w) -> ex_fn (cw_obmm w) = true -> wp (UbsMemShmUnLock name) (unlock_outcome name w) env w.
Proof.
  intros HC HI Hfn. unfold UbsMemShmUnLock. csteps. pose proof (lockable_spec name (cw_shm w) HI) as HL.
  destruct (lockable name (cw_shm w)) as [e|m]; csteps. { constructor; [apply HL|]. intros m [H1 H2]. by destruct (proj2 HL m H1). }
  destruct HL as (Hm & Hfl & Hok). assert (lock_entry name w m) as HE by done. pose proof (eo_locked _ _ Hok) as Hl0.
  destruct (Z.leb (md_isLocked m) 0) eqn:El. { csteps. apply Z.leb_le in El. constructor; [done|]. intros m' [H1 _]. assert (m' = m) as -> by congruence. lia. }
  apply Z.leb_gt in El. csteps. cuse (set_all_spec env name m UNACCESS w Hok Hfn).
  intros r w1 [(Hle & -> & HC1) | [(_ & -> & cs & HC1 & HR) | (_ & -> & ->)]]; cycle 1.
  { change (Z.eqb MXM_ERR_OBMM_INNER 0) with false. cbn [negb]. csteps. by eapply UnlockFailed. }
  { change (Z.eqb MXM_ERR_PARAM_INVALID 0) with false. cbn [negb]. csteps. eapply (UnlockFailed _ _ _ _ []); [done|done|apply calls_nil|done]. }
  change (Z.eqb UBSM_OK 0) with true. cbn [negb]. csteps. unfold ShmIpcCommand.IpcShmemUnLock.
  cuse (request_calls (IPC_RACKMEMSHM_UNLOCK "default" name) env w1 (calls_connected _ _ _ HC1 HC)). intros c w2 (code & HC2 & ->).
  pose proof (calls_app _ _ _ _ _ HC1 HC2) as HC3. destruct (Z.eqb code UBSM_OK) eqn:Ec; cbn [negb]; [apply Z.eqb_eq in Ec; subst code | apply Z.eqb_neq in Ec].
  - csteps. rewrite (calls_shm _ _ _ HC3). pose proof (set_locked_ok name m (md_isLocked m - 1)
      (if Z.eqb (md_isLocked m - 1) 0 then UNACCESS else md_lockedStatus m) Hok ltac:(lia)) as Hok'.
    destruct (UpdateMetaData_inv name m _ (cw_shm w) HI Hm Hok' eq_refl eq_refl) as [-> _]. csteps.
    eapply UnlockDone; [done|done|]. by apply mmap_done_changes.
  - csteps. pose proof (set_all_spec env name m (md_lockedStatus m) w2 Hok) as Hset. rewrite (calls_obmm _ _ _ HC3) in Hset.
    cuse (Hset Hfn). intros r w3 H. csteps. assert (exists cs, calls w2 cs w3 /\ requests cs = []) as (cs & HC4 & HR).
    { destruct H as [(_ & _ & H) | [(_ & _ & H) | (_ & _ & ->)]]; [|done|exists []; split; [apply calls_nil | done]].
      eexists. split; [exact H|]. apply own_calls_requests. }
    pose proof (calls_app _ _ _ _ _ HC3 HC4) as HC5. rewrite <- app_assoc in HC5. by eapply UnlockDenied.
Qed.
