(* ===== verification/ClientTheorems.v ===== *)
(** Client library: theorems on the connection to the daemon. *)

From S2P Require Import Prelude RegionTypes Client ClientTables ClientIpc ClientWp ClientThreads ClientShmMap.

Lemma run_life_keeps o env w :
  life_inv w -> life_inv (run_life o env w).2 /\ (ordinary o = true -> is_destroy o = false -> ack_inv w -> ack_inv (run_life o env w).2).
Proof.
  intros L. destruct o as [| | | |A op]; cbn [run_life ordinary is_destroy].
  - destruct (Initialize_keeps env w L). auto.
  - destruct (Suspend_keeps env w L). auto.
  - destruct (Resume_keeps env w L). auto.
  - split; [exact (Destroy_life env w L) | done].
  - destruct (Request_keeps env op w L) as [H1 H2]. split; [exact H1|]. intros Ho _. apply H2. by destruct (control_of op).
Qed.

Lemma run_lives_keeps os env w :
  life_inv w -> life_inv (run_lives os env w) /\
  (Forall (fun o => ordinary o = true /\ is_destroy o = false) os -> ack_inv w -> ack_inv (run_lives os env w)).
Proof.
  revert w. induction os as [|o os IH]; intros w L; [by split|]. cbn [run_lives].
  destruct (run_life_keeps o env w L) as [L1 A1]. destruct (IH _ L1) as [L2 A2]. split; [done|].
  intros [[Ho Hd] Hos]%Forall_cons HA. auto.
Qed.

Lemma client_start_inv : life_inv client_start /\ ack_inv client_start.
Proof. split; [|done]. split; [by left | done]. Qed.

(** C34: Life cycle of the connection. After any sequence of initialisations, suspensions, resumptions, destructions
    and requests, whatever the daemon and the transport answer, the state says what the connection is:
    running, and after a suspension or resumption whose answer is not known, there is one connection that
    accepts requests; suspended, there is none; after a failed stop there is one that accepts none. The
    connection object is connected exactly while it is kept, and every request went out over a connection that
    was up. *)
Theorem client_lifecycle_invariant env os :
  let w := run_lives os env client_start in
  link_of (cw_state w) (cw_link w) /\ connection_up (cw_trace w) = g_mxmIpcClient (cw_link w) /\ sends_connected (cw_trace w).
Proof.
  destruct (run_lives_keeps os env client_start (proj1 client_start_inv)) as [[HL [H1 H2]] _]. done.
Qed.

(** Suspension is agreed on. As long as no request to suspend or to resume is lost (answered by a transport error), and
    the connection is not destroyed, the client is suspended, or failed to stop after a suspension, exactly if
    the daemon's last acknowledgement was one of a suspension, and else running or not initialised. *)
Theorem suspension_acknowledged env os :
  let w := run_lives os env client_start in
  Forall (fun o => ordinary o = true /\ is_destroy o = false) os -> none_lost (controls (cw_trace w)) ->
  ack_of (cw_state w) (acknowledged (controls (cw_trace w))).
Proof.
  intros w Hos HN. destruct (run_lives_keeps os env client_start (proj1 client_start_inv)) as [_ HA].
  apply (HA Hos (proj2 client_start_inv) HN).
Qed.

Lemma suspension_acknowledged_witness :
  let w := run_lives [LInitialize; LSuspend; LResume; LSuspend] (env_of plain) client_start in
  cw_state w = SUSPENDED /\ ack_of (cw_state w) (acknowledged (controls (cw_trace w))).
Proof.
  split; [vm_compute; reflexivity|]. apply (suspension_acknowledged (env_of plain) [LInitialize; LSuspend; LResume; LSuspend]).
  - repeat constructor.
  - vm_compute. repeat constructor.
Defined.

(** Lost answers: the request to suspend and the first to resume are lost, the second to resume is rejected. *)
Definition lost_answers : Script :=
  mkScript (fun n => if Nat.eqb n 4 || Nat.eqb n 5 then 1%Z else 0%Z) (fun n => if Nat.eqb n 6 then MXM_ERR_PARAM_INVALID else 0%Z) plain_body (2 ^ 32) (fun _ => false).

(** A client that is suspended without the daemon's consent. When a request to suspend is lost and one to resume is too, a
    rejected second one stops the connection and leaves the client suspended, although the daemon never
    acknowledged a suspension. *)
Theorem suspended_unacknowledged :
  let w := run_lives [LInitialize; LSuspend; LResume; LResume] (env_of lost_answers) client_start in
  cw_state w = SUSPENDED /\ cw_link w = mkLink false 0 false /\ acknowledged (controls (cw_trace w)) = false /\
  controls (cw_trace w) = [(false, MXM_ERR_PARAM_INVALID); (false, MXM_ERR_IPC_HCOM_INNER_SYNC_CALL); (true, MXM_ERR_IPC_HCOM_INNER_SYNC_CALL)].
Proof. vm_compute. repeat split; reflexivity. Qed.

(** An initialisation that fails to register its handler and then to stop. *)
Definition stuck_script : Script :=
  mkScript (fun n => if Nat.eqb n 3 || Nat.eqb n 4 then 1%Z else 0%Z) (fun _ => 0%Z) plain_body (2 ^ 32) (fun _ => false).

Lemma Initialize_stuck_call env w :
  cw_state w = UNINITIALIZED -> cw_link w = mkLink true 1 true -> IpcProxy.Initialize env w = (MXM_ERR_IPC_INIT_CALL, w).
Proof.
  intros HS HL. unfold IpcProxy.Initialize, Link.MxmComStartIpcClient, mbind, cm_bind, gets.
  rewrite HS, decide_False, bool_decide_eq_true_2 by done. cbn [negb]. by rewrite HL.
Qed.

Lemma stuck_life o env w :
  cw_state w = UNINITIALIZED -> cw_link w = mkLink true 1 true -> (run_life o env w).2 = w.
Proof.
  intros HS HL. destruct o as [| | | |A op]; cbn [run_life].
  - by rewrite Initialize_stuck_call.
  - unfold IpcProxy.Suspend, mbind, cm_bind, gets. by rewrite HS.
  - unfold IpcProxy.Resume, IpcProxy.EnterResumingState, mbind, cm_bind, gets. by rewrite HS.
  - unfold IpcProxy.Destroy, mbind, cm_bind, gets. by rewrite HS.
  - unfold IpcProxy.request, IpcProxy.Ipc, IpcProxy.RunOperation, mbind, cm_bind, gets. rewrite HS. cbn [IpcProxy.GetOperationStateError].
    change (negb (Z.eqb UBSM_OK UBSM_OK)) with false. cbv iota. rewrite IpcCallInner_once, SyncCall_down by (by rewrite HL). done.
Qed.

(** A failed initialisation that is never overcome. When an initialisation fails to register the handler for
    reconnection and then to stop the connection, the client is not initialised but keeps a connection that is
    being stopped. From then on no operation makes any call or changes anything, however often it is repeated: every
    later initialisation fails, and destruction reports success without stopping the connection. *)
Theorem initialize_stuck env os w :
  cw_state w = UNINITIALIZED -> cw_link w = mkLink true 1 true ->
  run_lives os env w = w /\ (IpcProxy.Initialize env w).1 = MXM_ERR_IPC_INIT_CALL /\ (IpcProxy.Destroy env w).1 = UBSM_OK.
Proof.
  intros HS HL. split; [|split].
  - induction os as [|o os IH]; [done|]. cbn [run_lives]. by rewrite stuck_life.
  - by rewrite Initialize_stuck_call.
  - unfold IpcProxy.Destroy, mbind, cm_bind, gets. by rewrite HS.
Qed.

Lemma initialize_stuck_witness :
  let w := run_lives [LInitialize] (env_of stuck_script) client_start in
  run_lives [LInitialize; LDestroy; LInitialize] (env_of plain) w = w /\
  (IpcProxy.Initialize (env_of plain) w).1 = MXM_ERR_IPC_INIT_CALL /\ (IpcProxy.Destroy (env_of plain) w).1 = UBSM_OK.
Proof.
  apply (initialize_stuck (env_of plain) [LInitialize; LDestroy; LInitialize] (run_lives [LInitialize] (env_of stuck_script) client_start));
    vm_compute; reflexivity.
Defined.

(** The requests of one call of the library: one, however it ends. *)
Theorem request_sent_once {A} (op : IpcOp A) env w :
  connected w -> exists a, (IpcProxy.request op env w).2 = log_event (entry (ClientSend op) a) w.
Proof.
  intros HC. pose proof (request_connected op env w HC) as H. unfold wp in H. destruct (IpcProxy.request op env w) as [c w'].
  destruct H as ([] & _). exists (reply env w op). destruct w'. cbn in *. by subst.
Qed.

(** ** Threads *)

(** C35: The connection object is used safely. In every interleaving of threads that start, stop and use the connection, an object that
    a thread sends over, stops or is about to delete has not been deleted, and while one thread stops it or is
    about to delete it no other thread sends over it, stops it or deletes it. *)
Theorem client_object_safe n x i c :
  reachable n x -> threads x !! i = Some (Sending c) \/ threads x !! i = Some (Stopping c) \/ threads x !! i = Some (Deleting c) ->
  c ∈ alive (shared x) /\
  (threads x !! i <> Some (Sending c) ->
   forall j, j <> i -> threads x !! j <> Some (Sending c) /\ threads x !! j <> Some (Stopping c) /\ threads x !! j <> Some (Deleting c)).
Proof.
  intros HR Hi. pose proof (reachable_sys_inv _ _ HR) as [I1 I2 I3 I4 I5 I6 I7 I8]. destruct Hi as [Hi | [Hi | Hi]]; rewrite Hi; pose proof (I3 _ _ Hi) as Hp; cbn [place_ok] in Hp.
  - split; [auto | done].
  - destruct Hp as (H1 & H2 & H3 & H4). split; [auto|]. intros _ j Hne. split_and!; intros Hj.
    + rewrite I1 in H4. pose proof (count_zero is_sending _ _ _ H4 Hj). done.
    + pose proof (not_other_stopper (shared x) (threads x) i j _ _ I2 Hne Hi eq_refl Hj). done.
    + apply I3 in Hj as [Hj _]. done.
  - destruct Hp as [H1 H2]. split; [done|]. intros _ j Hne. split_and!; intros Hj.
    + by apply I3 in Hj.
    + apply I3 in Hj as (_ & _ & Hj & _). done.
    + apply Hne. by eapply I4.
Qed.

(** A run: a thread starts the connection and begins to stop it while another one sends; then the send ends. *)
Definition sharing (sends : nat) (stopping : bool) : Shared := mkShared (Some 0) 1 sends stopping stopping {[0]} 1.

Lemma run_to_draining : reachable 2 (mkSystem (sharing 1 true) [Draining; Sending 0]).
Proof.
  unfold reachable, initial. cbn [replicate].
  eapply rtc_l. { eapply (step_at _ [Idle; Idle] 0 Idle); [done | apply Start_done; [done | by left]]. }
  cbn [client clientCount activeIpcSends clientStopping clientStopInProgress alive next_object insert list_insert].
  replace (mkShared (Some 0) 1 0 false false ({[0]} ∪ ∅) 1) with (sharing 0 false) by (unfold sharing; f_equal; set_solver).
  eapply rtc_l. { apply (step_at _ [Idle; Idle] 1 Idle (sharing 1 false) (Sending 0)); [done | by apply (Send_begin (sharing 0 false) 0)]. }
  apply rtc_once. apply (step_at _ [Idle; Sending 0] 0 Idle (sharing 1 true) Draining); [done | by apply (Stop_begin (sharing 1 false) 0)].
Qed.

Lemma run_to_stopping : reachable 2 (mkSystem (sharing 0 true) [Stopping 0; Idle]).
Proof.
  unfold reachable. etrans; [exact run_to_draining|].
  eapply rtc_l. { apply (step_at _ [Draining; Sending 0] 1 (Sending 0) (sharing 0 true) Idle); [done | apply (Send_end (sharing 1 true) 0)]. }
  apply rtc_once. apply (step_at _ [Draining; Idle] 0 Draining (sharing 0 true) (Stopping 0)); [done | by apply (Stop_drained (sharing 0 true) 0)].
Qed.

Lemma client_object_safe_witness :
  let x := mkSystem (sharing 0 true) [Stopping 0; Idle] in
  0 ∈ alive (shared x) /\
  (threads x !! 0 <> Some (Sending 0) ->
   forall j, j <> 0 -> threads x !! j <> Some (Sending 0) /\ threads x !! j <> Some (Stopping 0) /\ threads x !! j <> Some (Deleting 0)).
Proof. apply (client_object_safe 2 _ 0 0 run_to_stopping). by right; left. Defined.

(** A stop goes on. A thread that waits for the active sends before it stops the connection can always go on: new sends are
    refused, the active ones end, and then it stops the object. *)
Theorem stop_goes_on n x i :
  reachable n x -> threads x !! i = Some Draining ->
  (forall s' p', ~ (exists c, step1 (shared x) Idle s' p' /\ p' = Sending c)) /\
  exists c y, rtc step x y /\ threads y !! i = Some (Stopping c).
Proof.
  intros HR Hi. pose proof (reachable_sys_inv _ _ HR) as HI. destruct (si_places _ HI _ _ Hi) as (H1 & _ & [c Hc]). split.
  - intros s' p' (d & Hs & ->). inversion Hs. congruence.
  - destruct (drains _ x i c HI eq_refl Hi Hc) as (y & Hy & Hyi). by exists c, y.
Qed.

Lemma stop_goes_on_witness :
  let x := mkSystem (sharing 1 true) [Draining; Sending 0] in
  (forall s' p', ~ (exists c, step1 (shared x) Idle s' p' /\ p' = Sending c)) /\
  exists c y, rtc step x y /\ threads y !! 0 = Some (Stopping c).
Proof. apply (stop_goes_on 2 _ 0 run_to_draining). reflexivity. Defined.
