(* ===== verification/ClientShmTheorems.v ===== *)
(** Client library: theorems on mapped shared memory. *)

From S2P Require Import Prelude RegionTypes Client ClientTables ClientIpc ClientShm ClientLease ClientApi ClientWp ClientShmInv ClientShmMap ClientShmOwn.

Import ShmTables RackMemShm.

(** The calls made between two states of the process. *)
Definition new_calls (w w' : ClientWorld) : list Call :=
  view <$> rev (take (length (cw_trace w') - length (cw_trace w)) (cw_trace w')).

Lemma calls_new w cs w' : calls w cs w' -> new_calls w w' = cs.
Proof.
  intros (es & [] & <-). unfold new_calls. rewrite ap_trace, length_app, length_rev, Nat.add_sub.
  rewrite <- (length_rev es), take_app_length, rev_involutive. done.
Qed.

Lemma changes_new w cs t w' : changes w cs t w' -> new_calls w w' = cs.
Proof. intros H. exact (calls_new _ _ _ H). Qed.

(** ** The tables *)

(** The process is connected and has the memory driver's library. *)
Definition operational (w : ClientWorld) : Prop := connected w /\ ex_fn (cw_obmm w) = true.

Lemma changes_operational w cs t w' : changes w cs t w' -> operational w -> operational w'.
Proof. intros H [H1 H2]. split; [by eapply changes_connected | by rewrite (changes_obmm _ _ _ _ H)]. Qed.

Lemma calls_operational w cs w' : calls w cs w' -> operational w -> operational w'.
Proof. intros H. eapply changes_operational. by apply calls_changes. Qed.

Inductive ShmOp :=
  | OMap (start mapSize prot flags : Z) (name : string) (off : Z)
  | OUnmap (start size : Z)
  | OSetOwnerShip (name : string) (start length : Z) (status : ShmOwnStatus)
  | OWriteLock (name : string)
  | OReadLock (name : string)
  | OUnLock (name : string).

Definition run_shm (o : ShmOp) : CM unit :=
  match o with
  | OMap start mapSize prot flags name off => UbsMemShmMmap start mapSize prot flags name off true ;; mret tt
  | OUnmap start size => UbsMemShmUnmmap start size ;; mret tt
  | OSetOwnerShip name start length status => UbsMemShmSetOwnerShip name start length status ;; mret tt
  | OWriteLock name => UbsMemShmWriteLock name ;; mret tt
  | OReadLock name => UbsMemShmReadLock name ;; mret tt
  | OUnLock name => UbsMemShmUnLock name ;; mret tt
  end.

(** Names are not empty, addresses and sizes not negative. *)
Definition op_ok (o : ShmOp) : Prop :=
  match o with
  | OMap start mapSize _ _ name _ => name <> EmptyString /\ (0 <= start)%Z /\ (0 <= mapSize)%Z
  | OSetOwnerShip _ start _ _ => (0 <= start)%Z
  | _ => True
  end.

Definition keeps_tables (w w' : ClientWorld) : Prop := operational w' /\ shm_inv (cw_shm w').

Lemma calls_keep w cs w' : operational w -> shm_inv (cw_shm w) -> calls w cs w' -> keeps_tables w w'.
Proof. intros HO HI HC. split; [by eapply calls_operational | by rewrite (calls_shm _ _ _ HC)]. Qed.

Lemma changes_keep w cs t w' : operational w -> shm_inv t -> changes w cs t w' -> keeps_tables w w'.
Proof. intros HO HI HC. split; [by eapply changes_operational | by rewrite (changes_shm _ _ _ _ HC)]. Qed.

Lemma replaced_keep w cs name m m' w' :
  operational w -> shm_inv (cw_shm w) -> mAppShmInfoMap (cw_shm w) !! name = Some m -> entry_ok name m' ->
  md_addr m' = md_addr m -> md_mapSize m' = md_mapSize m -> changes w cs (set_infos <[name := m']> (cw_shm w)) w' -> keeps_tables w w'.
Proof. intros HO HI Hm Hok Ha Hs HC. eapply changes_keep; [done | | exact HC]. by eapply UpdateMetaData_inv. Qed.

Create HintDb client_tables.
#[local] Hint Resolve calls_keep set_segments_ok set_locked_ok : client_tables.

Lemma mmap_keeps env start mapSize prot flags name w r w' :
  operational w -> shm_inv (cw_shm w) -> mmap_outcome env start mapSize prot flags name w r w' -> keeps_tables w w'.
Proof.
  intros HO HI [r0 a fds cs m w1 Hm Hs Hnone HF Hok Hfds Hcs HC | e | code w2 _ HC | w2 _ HC | e cs code w2 HC _ _ | e cs a u code w2 HC _ _ _ _]; eauto with client_tables; [|by split].
  eapply changes_keep; [done | | eapply mmap_done_changes, HC]. destruct HF as (_ & _ & HF). apply with_entry_inv; try done.
  subst m. cbn. by rewrite Hs.
Qed.

Lemma unmap_keeps start size w r w' :
  operational w -> shm_inv (cw_shm w) -> unmap_outcome start size w r w' -> keeps_tables w w'.
Proof.
  intros HO HI [e _ | name m w1 _ _ HC | name m a fds' cs code w1 Hm _ _ _ _ _ Hlen _ _ HC | name m a cs u w1 Hm _ _ _ _ _ _ HC];
    eauto with client_tables; [by split| |].
  - destruct (sh_entries _ HI _ _ Hm) as (Hok & _). eapply replaced_keep; try exact HC; eauto with client_tables.
  - eapply changes_keep; [done | | exact HC]. by eapply RemoveMetaData_inv.
Qed.

Lemma own_keeps name start length status w r w' :
  operational w -> shm_inv (cw_shm w) -> own_outcome name start length status w r w' -> keeps_tables w w'.
Proof. intros HO HI []; eauto with client_tables. by split. Qed.

Lemma lock_keeps status name w r w' :
  operational w -> shm_inv (cw_shm w) -> lock_outcome status name w r w' -> keeps_tables w w'.
Proof.
  intros HO HI [e _ _ | m e w1 _ _ HC | m e cs code w1 _ _ HC _ | m w1 [Hm _] _ HC]; eauto with client_tables; [by split|].
  destruct (sh_entries _ HI _ _ Hm) as (Hok & _). pose proof (eo_locked _ _ Hok). eapply replaced_keep; try exact HC; eauto with client_tables lia.
Qed.

Lemma unlock_keeps name w r w' :
  operational w -> shm_inv (cw_shm w) -> unlock_outcome name w r w' -> keeps_tables w w'.
Proof.
  intros HO HI [e _ _ | m e cs w1 _ _ HC _ | m e cs w1 _ _ HC _ | m w1 [Hm _] Hl n HC]; eauto with client_tables; [by split|].
  destruct (sh_entries _ HI _ _ Hm) as (Hok & _). assert (0 <= n)%Z by (unfold n; lia). eapply replaced_keep; try exact HC; eauto with client_tables.
Qed.

Lemma run_shm_keeps o env w :
  operational w -> shm_inv (cw_shm w) -> honest_env env (cw_shm w) -> op_ok o -> keeps_tables w (run_shm o env w).2.
Proof.
  intros HO HI HE Hok. pose proof HO as [HC Hfn].
  assert (forall A (m : CM A) (Q : A -> ClientWorld -> Prop), wp m Q env w -> (forall r w', Q r w' -> keeps_tables w w') -> keeps_tables w ((m ;; mret tt) env w).2) as Hrun.
  { intros A m Q Hm HQ. assert (wp (m ;; mret tt) (fun _ w' => keeps_tables w w') env w) as H; [|exact H].
    csteps. cuse Hm. intros r w' Hr. csteps. eauto. }
  destruct o as [start mapSize prot flags name off|start size|name start length status|name|name|name]; cbn [run_shm op_ok] in *.
  - destruct Hok as (H1 & H2 & H3). eapply Hrun; [by apply UbsMemShmMmap_spec | intros; by eapply mmap_keeps].
  - eapply Hrun; [by apply UbsMemShmUnmmap_spec | intros; by eapply unmap_keeps].
  - eapply Hrun; [by apply UbsMemShmSetOwnerShip_spec | intros; by eapply own_keeps].
  - eapply Hrun; [by apply UbsMemShmWriteLock_spec | intros; by eapply lock_keeps].
  - eapply Hrun; [by apply UbsMemShmReadLock_spec | intros; by eapply lock_keeps].
  - eapply Hrun; [by apply UbsMemShmUnLock_spec | intros; by eapply unlock_keeps].
Qed.

(** The states of a process, from one in which nothing is mapped: by operations on shared memory, each
    in surroundings of its own, and by anything that leaves the tables alone. *)
Inductive shm_reach : ClientWorld -> Prop :=
  | reach_fresh w : operational w -> cw_shm w = mkShmMgr ∅ ∅ [] -> shm_reach w
  | reach_op env o w : shm_reach w -> honest_env env (cw_shm w) -> op_ok o -> shm_reach (run_shm o env w).2
  | reach_elsewhere w w' : shm_reach w -> operational w' -> cw_shm w' = cw_shm w -> shm_reach w'.

Lemma shm_reach_keeps w : shm_reach w -> keeps_tables w w.
Proof.
  induction 1 as [w HO Ht | env o w _ IH HE Hok | w w' _ IH HO Ht].
  - split; [done|]. rewrite Ht. apply shm_inv_empty.
  - destruct IH. by apply run_shm_keeps.
  - destruct IH as [_ HI]. split; [done|]. by rewrite Ht.
Qed.

(** C29: The tables stay in step. In every state that a connected process with the driver's library reaches by operations, run one after
    the other, that map and unmap memory, change its access rights, lock and unlock it, whatever the daemon and the driver
    answer, and with a kernel that maps at a fixed address where it is asked to and else where nothing is mapped, the
    ranges of the known mappings are sorted and disjoint, and the tables by name, by address and by range list the same
    mappings, each with segments that lie one after the other over the whole mapping and one descriptor, open
    or closed, for each of them. ([concurrent_maps_break_tables] shows that threads that map one name at the
    same time can break this.) *)
Theorem client_tables_in_step w : shm_reach w -> shm_inv (cw_shm w).
Proof. intros H. by apply shm_reach_keeps. Qed.

Lemma client_tables_in_step_witness :
  let w := (run_shm (OMap 0 (6 * MB) PROT_NONE MAP_SHARED "m" 0) (env_of plain) ready_client).2 in
  GetNameByAddr (2 ^ 32) (cw_shm w) = inr "m" /\ shm_inv (cw_shm w).
Proof.
  split; [vm_compute; reflexivity|]. apply client_tables_in_step. apply reach_op.
  - apply reach_fresh; [split; [apply ready_connected | reflexivity] | reflexivity].
  - apply scripted_honest; [reflexivity | vm_compute; split; [reflexivity | intros H; discriminate H] | vm_compute; intros H; discriminate H].
  - split; [intros H; discriminate H|]. vm_compute. split; intros H; discriminate H.
Defined.

(** Threads that map one name at the same time. [UbsMemShmMmap] does not take the operation lock of the name, so two calls can both pass the
    check that the name is not mapped before either adds its entry. The second entry replaces the first: the tables are no
    longer in step, and the first mapping cannot be unmapped any more. *)
Lemma concurrent_maps_break_tables name a1 a2 m1 m2 t t1 t2 :
  a1 <> a2 -> md_addr m2 = a2 -> ShmTables.AddMetaData name a1 m1 t = (UBSM_OK, t1) -> ShmTables.AddMetaData name a2 m2 t1 = (UBSM_OK, t2) ->
  ~ shm_inv t2 /\ forall env w size, cw_shm w = t2 -> UbsMemShmUnmmap a1 size env w = (MXM_ERR_SHM_NOT_FOUND, w).
Proof.
  intros Hne Hm2 H1 H2. unfold ShmTables.AddMetaData, ShmTables.AddMappedMemoryRange in H1, H2.
  assert (a1 <> 0%Z /\ mAddr2NameMap t1 !! a1 = Some name) as [Ha1 Hn1].
  { destruct (Z.eqb_spec a1 0); [done|]. split; [done|]. repeat case_match; simplify_eq; cbn; apply lookup_insert_eq. }
  assert (mAddr2NameMap t2 !! a1 = Some name /\ mAppShmInfoMap t2 !! name = Some m2) as [Hn Hm].
  { repeat case_match; simplify_eq; cbn; (split; [by rewrite lookup_insert_ne | apply lookup_insert_eq]). }
  split.
  - intros HI. destruct (sh_names _ HI _ _ Hn) as (m & Hm' & Ha). congruence.
  - intros env w size Hw. unfold UbsMemShmUnmmap, gets, mbind, cm_bind, ShmTables.GetNameByAddr, ShmTables.GetShmMetaFromName.
    rewrite (proj2 (Z.eqb_neq a1 0)) by done. rewrite Hw, Hn, Hm, Hm2. rewrite (proj2 (Z.eqb_neq a2 a1)) by done. done.
Qed.

(** Both calls pass the check in a process that has nothing mapped. *)
Lemma concurrent_maps_pass :
  let t := mkShmMgr ∅ ∅ [] in
  let m a := mapped_entry "m" (mkMapBody [3%Z] 4096 4096 0 O_RDWR) a UNACCESS [5%Z] in
  RackMemShmMmapParameterCheck 0 4096 PROT_NONE MAP_SHARED "m" 0 t = UBSM_OK /\
  exists t1 t2, ShmTables.AddMetaData "m" 8192 (m 8192%Z) t = (UBSM_OK, t1) /\ ShmTables.AddMetaData "m" 16384 (m 16384%Z) t1 = (UBSM_OK, t2).
Proof. split; [vm_compute; reflexivity|]. eexists _, _. split; vm_compute; reflexivity. Qed.

(** C33: The search for an overlap. Among sorted disjoint ranges, looking only at the last range that starts at or before an address and
    at the next one finds an overlap with the range from there exactly if one of all the ranges overlaps it. *)
Theorem overlap_search_exact start en t :
  ranges_ok (mMappedMemoryAddress t) -> (start < en)%Z ->
  HasOverlapWithKnownVmas start en t = true <-> exists x, x ∈ mMappedMemoryAddress t /\ overlaps start en x.
Proof. apply overlap_exact. Qed.

Lemma overlap_search_exact_witness :
  let t := mkShmMgr ∅ ∅ [(10, 20); (30, 40); (50, 60)]%Z in
  HasOverlapWithKnownVmas 35 36 t = true <-> exists x, x ∈ mMappedMemoryAddress t /\ overlaps 35 36 x.
Proof.
  apply (overlap_search_exact 35 36 (mkShmMgr ∅ ∅ [(10, 20); (30, 40); (50, 60)]%Z)); [|lia].
  split; [repeat constructor|]. cbn. repeat (constructor; [|repeat (constructor; [vm_compute; intros H; discriminate H|]); constructor]). constructor.
Defined.

(** ** Mapping *)

Section Mapping.
Context (env : ClientEnv) (start mapSize prot flags : Z) (name : string) (off : Z) (w : ClientWorld).

(** What a call of [UbsMemShmMmap] is made in. *)
Definition map_request_ok : Prop :=
  operational w /\ shm_inv (cw_shm w) /\ honest_env env (cw_shm w) /\ name <> EmptyString /\ (0 <= start)%Z /\ (0 <= mapSize)%Z.

Lemma mmap_spec : map_request_ok ->
  let r := UbsMemShmMmap start mapSize prot flags name off true env w in mmap_outcome env start mapSize prot flags name w r.1 r.2.
Proof. intros ((HC & _) & HI & HE & Hn & H0 & Hm). by apply UbsMemShmMmap_spec. Qed.

(** C30: What a request to map ends in, for a connected process and a kernel that places mappings as asked. It is mapped: the daemon agreed once,
    the devices of all segments are open and mapped, each at its place in a range that overlaps no known mapping,
    and the tables have the entry. Or its parameters are refused and nothing happens. Or the daemon refuses the one request, and nothing else
    happens. Or the daemon agrees with an answer that is not acceptable, and is not told. Or it agrees, but the
    sizes do not fit or no range is found: then no device was opened, nothing stays mapped, and the daemon is told to unmap. Or it agrees and the mapping is
    undone: every descriptor that was opened is closed, the whole range is unmapped and the daemon is told to unmap. In all
    cases but the first the tables are as before. *)
Theorem client_map_outcome :
  map_request_ok ->
  let r := UbsMemShmMmap start mapSize prot flags name off true env w in
  mmap_outcome env start mapSize prot flags name w r.1 r.2 /\ (forall e, r.1 = inl e -> cw_shm r.2 = cw_shm w).
Proof.
  intros HR r. pose proof (mmap_spec HR) as H. cbv zeta in H. fold r in H. split; [exact H|]. intros e E. rewrite E in H.
  inversion H; try done; by eapply calls_shm.
Qed.

(** A failed mapping at a fixed address. When a mapping at an address fixed by the caller fails after a device was opened, the whole range from that
    address is unmapped: also with MAP_FIXED_NOREPLACE and a range that the kernel refused because it is in use. *)
Theorem failed_fixed_map_unmaps e w' :
  map_request_ok -> start <> 0%Z -> MapWithFixedFlags flags = true ->
  UbsMemShmMmap start mapSize prot flags name off true env w = (inl e, w') -> opened (new_calls w w') <> [] ->
  exists u, CUnmap start mapSize u ∈ new_calls w w'.
Proof.
  intros HR Hs Hf E Hop. pose proof (mmap_spec HR) as H. rewrite E in H. cbn [fst snd] in H.
  inversion H as [| e' | code w2 _ HC | w2 _ HC | e' cs code w2 HC (HO & _ & _) _ | e' cs a u code w2 HC _ _ _ Ha]; subst.
  - destruct Hop. unfold new_calls. by rewrite Nat.sub_diag.
  - by rewrite (calls_new _ _ _ HC) in Hop.
  - by rewrite (calls_new _ _ _ HC) in Hop.
  - rewrite (calls_new _ _ _ HC), !opened_app, HO in Hop. done.
  - rewrite (calls_new _ _ _ HC), Ha by done. exists u. set_solver.
Qed.

End Mapping.

Lemma map_hyps : map_request_ok (env_of plain) 0 (6 * MB) "m" ready_client.
Proof.
  split; [split; [apply ready_connected | reflexivity]|]. split; [apply shm_inv_empty|]. split; [|by split_and!].
  apply scripted_honest; [reflexivity | vm_compute; split; [reflexivity | intros H; discriminate H] | vm_compute; intros H; discriminate H].
Qed.

Lemma client_map_outcome_witness :
  let r := UbsMemShmMmap 0 (6 * MB) PROT_NONE MAP_SHARED "m" 0 true (env_of plain) ready_client in
  r.1 = inr (2 ^ 32)%Z /\ mmap_outcome (env_of plain) 0 (6 * MB) PROT_NONE MAP_SHARED "m" ready_client r.1 r.2.
Proof. split; [vm_compute; reflexivity|]. apply (client_map_outcome (env_of plain) 0 (6 * MB) PROT_NONE MAP_SHARED "m" 0 ready_client map_hyps). Defined.

(** The kernel refuses the third call, the mapping of the first segment. *)
Definition occupied : Script := mkScript (fun _ => 0%Z) (fun _ => 0%Z) plain_body (2 ^ 32) (fun n => Nat.eqb n 2).

Definition occupied_map := UbsMemShmMmap (2 ^ 33) (6 * MB) PROT_NONE (Z.lor MAP_SHARED MAP_FIXED_NOREPLACE) "m" 0 true (env_of occupied) ready_client.

Lemma failed_fixed_map_unmaps_witness :
  occupied_map.1 = inl MXM_ERR_MMAP_VA_FAILED /\ exists u, CUnmap (2 ^ 33) (6 * MB) u ∈ new_calls ready_client occupied_map.2.
Proof.
  split; [vm_compute; reflexivity|].
  apply (failed_fixed_map_unmaps (env_of occupied) (2 ^ 33) (6 * MB) PROT_NONE (Z.lor MAP_SHARED MAP_FIXED_NOREPLACE) "m" 0 ready_client MXM_ERR_MMAP_VA_FAILED).
  - split; [split; [apply ready_connected | reflexivity]|]. split; [apply shm_inv_empty|]. split; [|by split_and!].
    apply scripted_honest; [reflexivity | vm_compute; split; [reflexivity | intros H; discriminate H] | vm_compute; intros H; discriminate H].
  - intros H. discriminate H.
  - vm_compute. reflexivity.
  - vm_compute. reflexivity.
  - vm_compute. intros H. discriminate H.
Defined.

(** ** Mapping and unmapping *)

Lemma map_erase_insert k v l : (forall x, x ∈ l -> x.1 <> k) -> map_erase k (map_insert k v l) = l.
Proof.
  intros Hk. assert (map_erase k l = l) as Hl.
  { unfold map_erase. induction l as [|x l IH]; [done|]. rewrite filter_cons_True by (apply Hk; set_solver). f_equal. apply IH. set_solver. }
  induction l as [|[k' v'] l IH]; cbn [map_insert].
  - unfold map_erase. rewrite filter_cons_False; [done|]. cbn. tauto.
  - assert (k' <> k) as Hne by (apply (Hk (k', v')); set_solver). rewrite (proj2 (Z.eqb_neq k k')) by done.
    destruct (Z.ltb k k').
    + unfold map_erase in *. rewrite filter_cons_False by (cbn; tauto). exact Hl.
    + unfold map_erase in *. rewrite filter_cons_True by done. rewrite filter_cons_True in Hl by done. f_equal.
      apply IH; [set_solver|]. by injection Hl.
Qed.

Lemma without_with_entry name m t :
  shm_inv t -> entry_ok name m -> mAppShmInfoMap t !! name = None -> free_range t (md_addr m) (md_addr m + md_mapSize m) ->
  without_entry name m (with_entry name m t) = t.
Proof.
  intros HI Hok Hnone HF. pose proof HI as [I1 I2 I3 I4]. pose proof Hok as [].
  pose proof (free_not_start t (md_addr m) (md_addr m + md_mapSize m) ltac:(lia) I1 HF) as Hns.
  assert (mAddr2NameMap t !! md_addr m = None) as Hnone2.
  { destruct (mAddr2NameMap t !! md_addr m) as [n|] eqn:E; [|done]. apply I3 in E as (m' & Hm' & Ha). apply I2 in Hm' as (_ & _ & Hr).
    apply Hns in Hr. cbn in Hr. done. }
  unfold without_entry, with_entry. cbn [mAppShmInfoMap mAddr2NameMap mMappedMemoryAddress].
  rewrite !delete_insert_id, map_erase_insert by done. by destruct t.
Qed.

(** The descriptors of a mapping are those opened for it. *)
Lemma opened_mapping m openflags prot flags offset idx fds :
  length idx = length fds -> Forall (fun fd => 0 <= fd)%Z fds ->
  opened (concat (zip_with (segment_calls m openflags prot flags offset) idx fds)) = fds.
Proof.
  intros Hlen Hpos. revert idx Hlen. induction Hpos as [|fd fds Hfd _ IH]; intros [|i idx] Hlen; try done. cbn [zip_with concat].
  rewrite opened_app, IH by (by injection Hlen). cbn. by rewrite (proj2 (Z.ltb_ge fd 0)).
Qed.

Lemma requests_mapping m openflags prot flags offset idx fds :
  requests (concat (zip_with (segment_calls m openflags prot flags offset) idx fds)) = [].
Proof. revert fds. induction idx as [|i idx IH]; intros [|fd fds]; try done. cbn [zip_with concat]. rewrite requests_app, IH. done. Qed.

(** C31: Unmapping undoes mapping. A memory that is mapped and then unmapped with success leaves the tables as they were; the
    descriptors that are closed are those that were opened, and the daemon got one request to map and
    one to unmap. *)
Theorem map_unmap_roundtrip env env' start mapSize prot flags name off a w w1 w2 :
  map_request_ok env start mapSize name w ->
  UbsMemShmMmap start mapSize prot flags name off true env w = (inr a, w1) ->
  UbsMemShmUnmmap a mapSize env' w1 = (UBSM_OK, w2) ->
  cw_shm w2 = cw_shm w /\ closed (new_calls w1 w2) = opened (new_calls w w1) /\
  requests (new_calls w w1) = [(QMap name, UBSM_OK)] /\ requests (new_calls w1 w2) = [(QUnmap name, UBSM_OK)].
Proof.
  intros HR E1 E2. pose proof HR as (HO & HI & _). pose proof (mmap_spec env start mapSize prot flags name off w HR) as H1. rewrite E1 in H1. cbn [fst snd] in H1.
  pose proof (mmap_keeps _ _ _ _ _ _ _ _ _ HO HI H1) as [[HC1 _] HI1].
  inversion H1 as [r a' fds cs m w1' Hmeq Hs Hnone HF Hok Hfds Hcs HC Ha Hw | | | | |]; subst a'. clear H1. rewrite Hw.
  pose proof (mmap_done_changes _ _ _ (with_entry name m (cw_shm w)) HC) as HD1. rewrite Hw in HD1.
  pose proof (UbsMemShmUnmmap_spec a mapSize env' w1 HC1 HI1) as H2. unfold wp in H2. rewrite E2 in H2. cbn [fst snd] in H2.
  assert (cw_shm w1 = with_entry name m (cw_shm w)) as Hshm by (by rewrite <- Hw). assert (md_addr m = a) as Haddr by (by rewrite Hmeq).
  inversion H2 as [e He | | name' m' a0 fds' cs' code w2' _ _ _ _ Hcode | name' m' a0 cs' u w2' Hm' Ha' Hs' _ Hcl HQ Hop HC2]; [congruence | congruence |]. clear H2. subst w2'.
  assert (name' = name /\ m' = m) as [-> ->].
  { destruct (sh_entries _ HI1 _ _ Hm') as (_ & Hn' & _). rewrite Hshm in Hn', Hm'. cbn [with_entry mAddr2NameMap mAppShmInfoMap] in Hn', Hm'.
    rewrite Ha' in Hn'. rewrite Haddr, lookup_insert_eq in Hn'. injection Hn' as <-. rewrite lookup_insert_eq in Hm'. by injection Hm'. }
  rewrite (changes_new _ _ _ _ HC2), (changes_new _ _ _ _ HD1).
  destruct HF as (_ & _ & HF). destruct Hcs as (Hc1 & Hc2 & Hc3). assert (md_fds m = fds) as Hf by (by rewrite Hmeq). rewrite <- Hf in Hfds.
  rewrite !closed_app, !opened_app, !requests_app, Hc1, Hc3, HQ, Hcl. unfold mapping_calls. cbn [closed opened requests omap list_omap app].
  pose proof (units_bounds (md_mapSize m) (md_unitSize m) (eo_size _ _ Hok) ltac:(pose proof (eo_unit _ _ Hok); lia)) as [HU _].
  rewrite opened_mapping, requests_mapping, (open_fds_all _ Hfds); [|rewrite length_seqZ, (eo_fds _ _ Hok), (eo_segments _ _ Hok), segments_length by lia; done | done].
  rewrite app_nil_r. split; [|done]. rewrite (changes_shm _ _ _ _ HC2), Hshm. apply without_with_entry; try done. rewrite Haddr, Hs'. done.
Qed.

Lemma map_unmap_roundtrip_witness :
  let w1 := (UbsMemShmMmap 0 (6 * MB) PROT_NONE MAP_SHARED "m" 0 true (env_of plain) ready_client).2 in
  let w2 := (UbsMemShmUnmmap (2 ^ 32) (6 * MB) (env_of plain) w1).2 in
  opened (new_calls ready_client w1) = [7; 8]%Z /\
  (cw_shm w2 = cw_shm ready_client /\ closed (new_calls w1 w2) = opened (new_calls ready_client w1) /\
   requests (new_calls ready_client w1) = [(QMap "m", UBSM_OK)] /\ requests (new_calls w1 w2) = [(QUnmap "m", UBSM_OK)]).
Proof.
  split; [vm_compute; reflexivity|].
  apply (map_unmap_roundtrip (env_of plain) (env_of plain) 0 (6 * MB) PROT_NONE MAP_SHARED "m" 0 (2 ^ 32) ready_client _ _ map_hyps).
  - vm_compute. reflexivity.
  - vm_compute. reflexivity.
Defined.

(** ** Access rights *)


(** A process with the memory of [plain_body] mapped. *)
Definition mapped_client : ClientWorld := (UbsMemShmMmap 0 (6 * MB) PROT_NONE MAP_SHARED "m" 0 true (env_of plain) ready_client).2.

Lemma mapped_client_inv : shm_inv (cw_shm mapped_client).
Proof.
  assert (operational ready_client) as HO by (split; [apply ready_connected | done]).
  eapply (mmap_keeps _ _ _ _ _ _ _ _ _ HO shm_inv_empty), (mmap_spec (env_of plain) 0 (6 * MB) PROT_NONE MAP_SHARED "m" 0 ready_client map_hyps).
Qed.

Lemma mapped_client_connected : connected mapped_client.
Proof. split; [by left | done]. Qed.


(** ** Locks *)

(** Read or write. *)
Definition client_lock (write : bool) : string -> CM Z := if write then UbsMemShmWriteLock else UbsMemShmReadLock.
Definition lock_status (write : bool) : ShmOwnStatus := if write then READWRITE else READ.

Lemma client_lock_spec write name env w :
  operational w -> shm_inv (cw_shm w) -> wp (client_lock write name) (lock_outcome (lock_status write) name w) env w.
Proof. intros [HC Hfn] HI. destruct write; [by apply UbsMemShmWriteLock_spec | by apply UbsMemShmReadLock_spec]. Qed.

(** Locking a mapping. A lock request is refused without a call unless the mapping was made with locks. If the daemon denies the lock, that is
    all. If the driver cannot set the rights, the lock is given back to the daemon and the tables are as
    before. Else the rights of the whole mapping are set, segment by segment, after the daemon's consent,
    and one more lock is counted; this happens only for a mapping of at least one unit. *)
Theorem client_lock_outcome write name env w :
  operational w -> shm_inv (cw_shm w) ->
  let r := client_lock write name env w in lock_outcome (lock_status write) name w r.1 r.2.
Proof. apply client_lock_spec. Qed.

Lemma client_lock_outcome_witness :
  let r := client_lock true "m" (env_of plain) mapped_client in
  r.1 = UBSM_OK /\ lock_outcome (lock_status true) "m" mapped_client r.1 r.2.
Proof.
  split; [vm_compute; reflexivity|].
  apply (client_lock_outcome true "m" (env_of plain) mapped_client (conj mapped_client_connected eq_refl) mapped_client_inv).
Defined.

(** A mapping that is smaller than one unit is never locked: the length passed for the first segment is a whole unit. *)
Theorem small_mapping_never_locked write name m env w :
  operational w -> shm_inv (cw_shm w) -> mAppShmInfoMap (cw_shm w) !! name = Some m -> (md_mapSize m < md_unitSize m)%Z ->
  (client_lock write name env w).1 <> UBSM_OK.
Proof.
  intros HO HI Hm Hlt Hr. pose proof (client_lock_spec write name env w HO HI) as H. unfold wp in H. rewrite Hr in H.
  inversion H as [e He | m' e w' _ He | m' e cs code w' _ He | m' w' [Hm' _] Hle]; try done. assert (m' = m) as -> by congruence. lia.
Qed.

(** Unlocking undoes locking. After a lock and an unlock that both succeed the entry counts as many locks as before, and the rights of
    all segments that were given are taken: each call of the driver for the lock has one for
    the unlock with the same segment and no rights; the daemon got the lock and the unlock request. *)
Theorem lock_unlock_roundtrip write name m env env' w w1 w2 :
  operational w -> shm_inv (cw_shm w) -> mAppShmInfoMap (cw_shm w) !! name = Some m ->
  client_lock write name env w = (UBSM_OK, w1) -> UbsMemShmUnLock name env' w1 = (UBSM_OK, w2) ->
  cw_shm w2 = set_infos <[name := set_locked (md_isLocked m) (if Z.eqb (md_isLocked m) 0 then UNACCESS else lock_status write) m]> (cw_shm w) /\
  new_calls w w1 = CSend (lock_req (lock_status write) name) UBSM_OK :: own_all m (lock_status write) /\
  new_calls w1 w2 = own_all m UNACCESS ++ [CSend (QUnLock name) UBSM_OK].
Proof.
  intros HO HI Hm E1 E2. pose proof (client_lock_spec write name env w HO HI) as H1. unfold wp in H1. rewrite E1 in H1. cbn [fst snd] in H1.
  pose proof (lock_keeps _ _ _ _ _ HO HI H1) as [[HC1 Hfn1] HI1].
  pose proof (UbsMemShmUnLock_spec env' name w1 HC1 HI1 Hfn1) as H2. unfold wp in H2. rewrite E2 in H2. cbn [fst snd] in H2.
  inversion H1 as [e He | m0 e w0 _ He | m0 e cs code w0 _ He | m0 w0 [Hm0 _] Hle HD1 Hr0 Hw0]; try done.
  assert (m0 = m) as -> by congruence. subst w0. clear H1.
  assert (mAppShmInfoMap (cw_shm w1) !! name = Some (set_locked (md_isLocked m + 1) (lock_status write) m)) as Hm1.
  { rewrite (changes_shm _ _ _ _ HD1). apply lookup_insert_eq. }
  inversion H2 as [e He | m1 e cs w0 _ He | m1 e cs w0 _ He | m1 w0 [Hm1' _] Hl n HD2 Hr2 Hw2]; try done.
  assert (m1 = set_locked (md_isLocked m + 1) (lock_status write) m) as -> by congruence. subst w0. clear H2.
  rewrite (changes_new _ _ _ _ HD1), (changes_new _ _ _ _ HD2). split; [|done].
  rewrite (changes_shm _ _ _ _ HD2), (changes_shm _ _ _ _ HD1). unfold set_infos. cbn [mAppShmInfoMap mAddr2NameMap mMappedMemoryAddress].
  rewrite insert_insert_eq. cbn [set_locked md_isLocked md_lockedStatus]. unfold n. cbn [set_locked md_isLocked md_lockedStatus]. by rewrite Z.add_simpl_r.
Qed.

Lemma lock_unlock_roundtrip_witness :
  let w1 := (client_lock true "m" (env_of plain) mapped_client).2 in
  let w2 := (UbsMemShmUnLock "m" (env_of plain) w1).2 in
  exists m, cw_shm w2 = set_infos <["m" := set_locked (md_isLocked m) (if Z.eqb (md_isLocked m) 0 then UNACCESS else lock_status true) m]> (cw_shm mapped_client) /\
    new_calls mapped_client w1 = CSend (lock_req (lock_status true) "m") UBSM_OK :: own_all m (lock_status true) /\
    new_calls w1 w2 = own_all m UNACCESS ++ [CSend (QUnLock "m") UBSM_OK].
Proof.
  eexists. apply (lock_unlock_roundtrip true "m" _ (env_of plain) (env_of plain) mapped_client _ _ (conj mapped_client_connected eq_refl) mapped_client_inv);
    vm_compute; reflexivity.
Defined.

(** * Client library: theorems on the checks of the API: creation flags, and the selection of the hosts of a region. *)

Import Api.

(** ** Flags *)

(** The ways to create a shared memory: a mode, and any of the two common flags. *)
Definition flag_modes : list Z :=
  [UBSM_FLAG_CACHE; UBSM_FLAG_WITH_LOCK; UBSM_FLAG_NONCACHE; Z.lor UBSM_FLAG_NONCACHE UBSM_FLAG_WR_DELAY_COMP;
   UBSM_FLAG_ONLY_IMPORT_NONCACHE; Z.lor UBSM_FLAG_ONLY_IMPORT_NONCACHE UBSM_FLAG_WR_DELAY_COMP].

Definition common_flags : list Z :=
  [0%Z; UBSM_FLAG_MEM_ANONYMOUS; UBSM_FLAG_MMAP_HUGETLB_PMD; Z.lor UBSM_FLAG_MEM_ANONYMOUS UBSM_FLAG_MMAP_HUGETLB_PMD].

Definition permitted_flags : list Z := concat ((fun m => Z.lor m <$> common_flags) <$> flag_modes).

Lemma small_flags : forallb (fun f => Bool.eqb (ValidateFlag f) (bool_decide (f ∈ permitted_flags))) (seqZ 0 64) = true.
Proof. vm_compute. reflexivity. Qed.

Lemma permitted_small f : f ∈ permitted_flags -> (0 <= f < 64)%Z.
Proof.
  assert (Forall (fun f => 0 <= f < 64)%Z permitted_flags) as H.
  { apply Forall_forall. intros x Hx. assert (forallb (fun f => Z.leb 0 f && Z.ltb f 64) permitted_flags = true) as HB by (vm_compute; reflexivity).
    rewrite forallb_forall in HB. specialize (HB x). rewrite andb_true_iff, Z.leb_le, Z.ltb_lt in HB. apply HB. by apply list_elem_of_In. }
  rewrite Forall_forall in H. auto.
Qed.

(** Creation flags. The flags of a new shared memory are accepted exactly if they are one of the six modes, cached, with locks, not cached or
    not cached at the importer, the last two also with delayed completion of writes, together with any of
    the flags for anonymous memory and huge pages. *)
Theorem validate_flag_exact flags : (0 <= flags)%Z -> ValidateFlag flags = true <-> flags ∈ permitted_flags.
Proof.
  intros H0. destruct (Z.ltb flags 64) eqn:E; [apply Z.ltb_lt in E | apply Z.ltb_ge in E].
  - pose proof small_flags as H. rewrite forallb_forall in H. specialize (H flags). rewrite <- list_elem_of_In, elem_of_seqZ in H.
    apply eqb_prop in H; [|lia]. rewrite H. apply bool_decide_eq_true.
  - split; [|intros H; apply permitted_small in H; lia]. unfold ValidateFlag. change FLAGS_MASK with (Z.ones 6). rewrite Z.land_ones by lia.
    rewrite (proj2 (Z.eqb_neq _ _)); [done|]. pose proof (Z.mod_pos_bound flags (2 ^ 6) ltac:(lia)). lia.
Qed.

Lemma validate_flag_exact_witness : ValidateFlag 46 = true <-> (46%Z) ∈ permitted_flags.
Proof. apply (validate_flag_exact 46). lia. Defined.

(** ** Hosts *)

(** What the second loop does to each array. *)
Fixpoint compact {A : Type} {HA : Inhabited A} (js : list nat) (k : nat) (flag : list bool) (l : list A) : list A :=
  match js with
  | [] => l
  | j :: js => if (flag !!! j : bool) then compact js (S k) flag (<[k := l !!! j]> l) else compact js k flag l
  end.

Definition chosen (flag : list bool) (js : list nat) : list nat := filter (fun j => flag !!! j = true) js.

Lemma insert_self {A : Type} {HA : Inhabited A} (l : list A) j : <[j := l !!! j]> l = l.
Proof.
  destruct (decide (j < length l)) as [Hj|Hj]; [|apply list_insert_ge; lia].
  apply list_insert_id, list_lookup_lookup_total_lt, Hj.
Qed.

Lemma chosen_cons flag j js : chosen flag (j :: js) = (if (flag !!! j : bool) then [j] else []) ++ chosen flag js.
Proof. unfold chosen. rewrite filter_cons. destruct (flag !!! j); [by rewrite decide_True | by rewrite decide_False]. Qed.

Lemma move_front_compact js k flag r k' r' :
  move_front js k flag r = Some (k', r') ->
  k' = k + length (chosen flag js) /\ rd_affinity r' = compact js k flag (rd_affinity r) /\
  rd_nodeId r' = compact js k flag (rd_nodeId r) /\ rd_hostName r' = compact js k flag (rd_hostName r) /\ rd_type r' = rd_type r.
Proof.
  revert k r. induction js as [|j js IH]; intros k r; cbn [move_front compact].
  { intros [= <- <-]. cbn. by rewrite Nat.add_0_r. }
  rewrite chosen_cons, length_app. destruct (flag !!! j) eqn:Ef; cbn [negb].
  - destruct (Nat.eqb k j) eqn:Ek.
    + apply Nat.eqb_eq in Ek. subst j. intros (H1 & H2 & H3 & H4 & H5)%IH. rewrite !insert_self. split; [cbn; lia | done].
    + destruct (negb (strcpy_s MEM_MAX_ID_LENGTH _)); [done|]. destruct (negb (strcpy_s MAX_HOST_NAME_DESC_LENGTH _)); [done|].
      intros (H1 & H2 & H3 & H4 & H5)%IH. cbn [rd_affinity rd_nodeId rd_hostName rd_type] in *. split; [cbn; lia | done].
  - intros (H1 & H2 & H3 & H4 & H5)%IH. split; [cbn; lia | done].
Qed.

(** The chosen entries end up in front, in their order. *)
Lemma compact_front {A : Type} {HA : Inhabited A} n j k flag (l l0 : list A) :
  k <= j -> j + n <= length l -> (forall i, j <= i -> l !!! i = l0 !!! i) ->
  take (k + length (chosen flag (seq j n))) (compact (seq j n) k flag l) = take k l ++ ((l0 !!!.) <$> chosen flag (seq j n)).
Proof.
  revert j k l. induction n as [|n IH]; intros j k l Hk Hlen Heq; cbn [seq compact].
  { cbn. by rewrite Nat.add_0_r, app_nil_r. }
  rewrite chosen_cons. destruct (flag !!! j); cbn [app].
  - assert (length (<[k := l !!! j]> l) = length l) as Hl by apply length_insert.
    rewrite length_cons, <- Nat.add_succ_comm, IH; [|lia|lia|].
    + rewrite (take_S_r _ _ (l0 !!! j)); [|rewrite <- Heq by lia; apply list_lookup_insert_eq; lia].
      rewrite take_insert_ge by lia. cbn [fmap list_fmap]. by rewrite <- app_assoc.
    + intros i Hi. rewrite <- Heq by lia. rewrite !list_lookup_total_alt, list_lookup_insert_ne by lia. done.
  - apply IH; [lia|lia|]. intros i Hi. apply Heq. lia.
Qed.

Lemma find_host_spec host num names flag j :
  find_host host num names flag = Some j -> j < num /\ flag !!! j = false /\ names !!! j = host.
Proof.
  unfold find_host. intros H%head_Some_elem_of. apply list_elem_of_filter in H as [[H1 H2] H3]. apply elem_of_seq in H3. split; [lia | done].
Qed.

(** The first loop takes a different host of the region for each that is asked for, and notes its affinity. *)
Lemma take_hosts_spec hosts num names flag aff flag' aff' :
  take_hosts hosts num names flag aff = Some (flag', aff') -> num <= length flag -> num <= length aff ->
  exists js, NoDup js /\ Forall (fun j => j < num /\ flag !!! j = false) js /\
    (forall j, j < num -> flag' !!! j = true <-> flag !!! j = true \/ j ∈ js) /\
    (forall j, j ∉ js -> aff' !!! j = aff !!! j) /\ length aff' = length aff /\ (fun j => (names !!! j, aff' !!! j)) <$> js = hosts.
Proof.
  revert flag aff. induction hosts as [|[host b] hosts IH]; intros flag aff; cbn [take_hosts].
  { intros [= <- <-] _ _. exists []. split_and!; try done; [by apply NoDup_nil | intros j _; set_solver]. }
  destruct (find_host host num names flag) as [j0|] eqn:Ef; [|done]. apply find_host_spec in Ef as (Hj0 & Hf0 & Hn0).
  intros H Hl1 Hl2. destruct (IH _ _ H) as (js & HN & HF & Hfl & Haf & Hlen & Hm); [by rewrite length_insert..|]. exists (j0 :: js).
  assert (forall j, <[j0 := true]> flag !!! j = true <-> flag !!! j = true \/ j = j0) as Hins.
  { intros j. rewrite !list_lookup_total_alt. destruct (decide (j = j0)) as [->|Hne].
    - rewrite list_lookup_insert_eq by lia. cbn. tauto.
    - rewrite list_lookup_insert_ne by done. tauto. }
  assert (j0 ∉ js) as Hnin.
  { intros Hin. rewrite Forall_forall in HF. destruct (HF j0 Hin) as [_ HF0]. apply not_true_iff_false in HF0. apply HF0, Hins. by right. }
  split_and!.
  - by constructor.
  - constructor; [done|]. eapply Forall_impl; [exact HF|]. intros j [H1 H2]. split; [done|]. apply not_true_iff_false in H2. apply not_true_iff_false.
    intros H3. apply H2, Hins. by left.
  - intros j Hj. rewrite Hfl by done. rewrite Hins, elem_of_cons. tauto.
  - intros j Hj. rewrite not_elem_of_cons in Hj. rewrite Haf by tauto. rewrite !list_lookup_total_alt, list_lookup_insert_ne by (intros ->; tauto). done.
  - by rewrite Hlen, length_insert.
  - cbn [fmap list_fmap]. rewrite Hm, Hn0, Haf by done. rewrite list_lookup_total_alt, list_lookup_insert_eq by lia. done.
Qed.

Lemma zip_fmap_same {A B C} (f : A -> B) (g : A -> C) l : zip (f <$> l) (g <$> l) = (fun x => (f x, g x)) <$> l.
Proof. induction l as [|x l IH]; [done|]. cbn. by f_equal. Qed.

Lemma compact_all {A} {HA : Inhabited A} num flag (l : list A) :
  num <= length l -> take (length (chosen flag (seq 0 num))) (compact (seq 0 num) 0 flag l) = (l !!!.) <$> chosen flag (seq 0 num).
Proof. intros H. apply (compact_front num 0 0 flag l l); [lia | lia | done]. Qed.

Lemma chosen_sorted flag j n : StronglySorted lt (chosen flag (seq j n)) /\ Forall (fun i => j <= i < j + n) (chosen flag (seq j n)).
Proof.
  revert j. induction n as [|n IH]; intros j; [by split; constructor|]. cbn [seq]. rewrite chosen_cons. destruct (IH (S j)) as [H1 H2].
  assert (Forall (fun i => j <= i < j + S n) (chosen flag (seq (S j) n))) as H3 by (eapply Forall_impl; [exact H2|]; cbn; lia).
  destruct (flag !!! j); cbn [app]; [|done]. split; constructor; try done; [eapply Forall_impl; [exact H2|]; cbn; lia | lia].
Qed.

(** The hosts of a new region. A region that is offered serves a request exactly for the hosts asked for: the result lists as many nodes as
    the request has hosts, with the host names and affinities of the request, each at a different node of the offered region, in the region's order, with that node's id. *)
Theorem region_serves_hosts r attr r' :
  region_shape r -> contain_all_hosts_in_attr r attr = Some r' ->
  let hosts := take (Z.to_nat (at_host_num attr)) (at_hosts attr) in
  rd_num r' = Z.of_nat (length hosts) /\
  exists js, StronglySorted lt js /\ Forall (fun j => j < Z.to_nat (rd_num r)) js /\
    (nodes_of r').*1 = (fun j => (rd_nodeId r !!! j, rd_hostName r !!! j)) <$> js /\
    (fun x => (x.1.2, x.2)) <$> nodes_of r' ≡ₚ hosts.
Proof.
  intros (S1 & S2 & S3). unfold contain_all_hosts_in_attr. destruct (_ || _) eqn:Eb; [done|]. set (num := Z.to_nat (rd_num r)).
  set (hosts := take (Z.to_nat (at_host_num attr)) (at_hosts attr)).
  assert (num <= 16) as Hnum. { rewrite !orb_false_iff in Eb. destruct Eb as [[[_ E] _] _]. apply Z.ltb_ge in E. unfold num, MAX_REGION_NODE_NUM in *. lia. }
  destruct (take_hosts hosts num (rd_hostName r) _ _) as [[flag aff]|] eqn:Et; cbn [mbind option_bind]; [|done].
  destruct (move_front (seq 0 num) 0 flag _) as [[k r1]|] eqn:Em; cbn [mbind option_bind]; [|done]. intros [= <-].
  apply move_front_compact in Em as (Hk & H1 & H2 & H3 & _). cbn [rd_affinity rd_nodeId rd_hostName] in H1, H2, H3.
  destruct (take_hosts_spec _ _ _ _ _ _ _ Et) as (ts & HN & HF & Hfl & _ & Hlen & Hm); [rewrite length_replicate; exact Hnum | lia |].
  assert (chosen flag (seq 0 num) ≡ₚ ts) as Hperm.
  { apply NoDup_Permutation; [by apply NoDup_filter, NoDup_seq | done |]. intros j. unfold chosen. rewrite list_elem_of_filter, elem_of_seq, Forall_forall in *. split.
    - intros [H4 H5]. apply Hfl in H4 as [H4|H4]; [|done|lia]. rewrite (list_lookup_total_correct _ _ false) in H4; [done|].
      apply lookup_replicate. split; [done|]. unfold MAX_REGION_NODE_NUM. lia.
    - intros H4. destruct (HF j H4) as [H5 _]. split; [apply Hfl; auto | lia]. }
  assert (length (chosen flag (seq 0 num)) = length hosts) as Hkl by (by rewrite Hperm, <- Hm, length_fmap).
  cbn [Nat.add] in Hk. rewrite Hk. split; [cbn; by rewrite Hkl|]. destruct (chosen_sorted flag 0 num) as [HS1 HS2]. exists (chosen flag (seq 0 num)).
  unfold nodes_of. cbn [rd_num rd_nodeId rd_hostName rd_affinity]. rewrite Nat2Z.id, H1, H2, H3, !compact_all, !zip_fmap_same by lia. split; [done|].
  split; [eapply Forall_impl; [exact HS2|]; cbn; lia|]. rewrite <- !list_fmap_compose. split; [done|]. rewrite Hperm, <- Hm. done.
Qed.

(** A region of three hosts, of which the third and the first are asked for. *)
Definition three_hosts : SHMRegionDesc :=
  mkRegionDesc 0 ALL2ALL_SHARE 3 (replicate 16 false) (["1"; "2"; "3"] ++ replicate 13 EmptyString) (["a"; "b"; "c"] ++ replicate 13 EmptyString).

Definition asked_hosts : region_attributes := mkAttr 2 [("c", true); ("a", false)].

Lemma region_serves_hosts_witness :
  exists r', rd_num r' = 2%Z /\ exists js, StronglySorted lt js /\ Forall (fun j => j < 3) js /\
    (nodes_of r').*1 = (fun j => (rd_nodeId three_hosts !!! j, rd_hostName three_hosts !!! j)) <$> js /\
    (fun x => (x.1.2, x.2)) <$> nodes_of r' ≡ₚ [("c", true); ("a", false)].
Proof.
  destruct (contain_all_hosts_in_attr three_hosts asked_hosts) as [r'|] eqn:E; [|vm_compute in E; discriminate E].
  exists r'. apply (region_serves_hosts three_hosts asked_hosts r'); [|exact E]. vm_compute. split_and!; reflexivity.
Defined.
